(* ===== verification/_CoqProject ===== *)
-Q . S2P
Prelude.v
StringLib.v
Layout.v
Kalloc.v
Pipe.v
Blocks.v
Log.v
LogCrash.v
LogTx.v
Bio.v
Balloc.v
Fs.v
FsFile.v
FsDir.v
Vm.v
VmSpec.v
VmUser.v
VmCopy.v
Spinlock.v
File.v
Proc.v
ProcSpec.v
ProcMem.v
Syscall.v
SyscallSpec.v
Sysfile.v
Exec.v
FileRefs.v
Console.v
Kbd.v
Printf.v
Progs.v
Ide.v
Dump.v
Trap.v
Grep.v
Sh.v
Umalloc.v
Cron.v
Xvedit.v
Mkfs.v
Boot.v
Namei.v
FsTree.v
Create.v
Trunc.v
Unlink.v
Link.v
Machine.v
Utils.v
Mjsh.v
Sched.v
Seg.v
X86.v
Entry.v
Switch.v
Devices.v
Main.v
Bootmain.v
Bootasm.v
ReadFile.v
Mains.v
Usertests.v
