(* ===== verification/Prelude.v ===== *)
(** * xv6-updates: a verification library

    The program is a 32-bit x86 teaching kernel (xv6) with its user programs,
    among them a cron daemon (cron.c), a line editor (xvedit.c) and a shell with
    a history (mjsh.c).  This library models the C code as executable functions
    and step relations and proves what makes each part correct.  File names
    below are under src/; a definition carries the name of the C function it
    translates wherever that is possible.

    ** How code is modelled

    - Machine integers are [Z] with their wrap-around written out ([u8], [u16],
      [u32], [s8], [s16], [s32]).  Memory is a function [mem] from addresses to
      bytes with little-endian loads and stores; a disk is a function from block
      numbers to such memories; tables (processes, files, inodes, buffers) are
      lists or functions indexed like the C arrays.
    - A call returns [res]: [Ok] with the result and the new state, [Panic] for
      the kernel's panic (and, in user programs, for an access C leaves
      undefined), [Blocked] for a call that would sleep or loop for ever.  [let*]
      is its bind.
    - A call that runs in one critical section is one function.  What interleaves
      (CPUs on a lock, readers and writers of a pipe, processes in wait, requests
      to the disk, a crash between two disk writes) is a step relation, and its
      theorems are invariants of all reachable states.
    - Loops are structural where the C loop counts; otherwise they take fuel and
      the theorems show that the fuel given suffices: number of table entries for
      scans, bytes left for copy loops, the length of the line for parsers, the
      number of headers below the break for walks around the free ring.  Running
      out of fuel is a [Blocked] or a [Panic] that the theorems exclude.
    - Code outside the repository and hardware are parameters: the device switch,
      the bytes a device delivers, whether sbrk or a write succeeds, the clock;
      in programs that only call the kernel, also whether fork succeeds and which
      child wait returns.

    ** Files and theorems, by component

    - StringLib (string.c, x86.h, ulib.c): byte loops against range operations.
    - Layout (mmu.h, memlayout.h, param.h): constants, rounding, address fields.
    - Kalloc (kalloc.c): the free list threaded through the pages; a page handed
      out is fresh and page-aligned.
    - Blocks (fs.h): formats and the block-cache interface [BlockCache] with its
      laws, proved for Bio (bio.c, memide.c): [bread_coherent].
    - Log, LogCrash, LogTx (log.c): transactions against an abstract
      transactional disk, for a crash after any disk write and during recovery
      ([log_refines_tx]); the space reservation and where it is one block short.
    - Balloc, Fs, FsFile, FsDir (fs.c): bitmap, inodes, files as byte sequences
      ([readi_spec], [writei_spec]), directories ([dirlink_dirlookup]), paths.
      Every write passes the check of log_write for room in the log, so the
      theorems either say how many blocks an operation may log or count the
      panic among the outcomes.
    - Mkfs (mkfs.c): the image it builds is well formed and holds the files.
    - Boot (mkfs.c with fs.c): a kernel on that image finds each file by its path
      and reads its bytes ([mkfs_then_read]).
    - Vm, VmSpec, VmUser, VmCopy (vm.c): page tables as what the MMU reads from
      them; every page accounted for in [allocuvm], [deallocuvm], [copyuvm].
    - Spinlock (spinlock.c, sleeplock.c): mutual exclusion under any
      interleaving; interrupts off while a lock is held.
    - Pipe (pipe.c): what the readers get is what the writers passed in, in the
      order it was accepted, across counter wrap-around; no lost wakeups, and the
      one case where a killed writer strands a reader.
    - File, FileRefs (file.c, sysfile.c): open files; reference counts equal the
      number of descriptors in all processes.
    - Proc, ProcSpec, ProcMem (proc.c): the process table, its tree, wait without
      lost wakeups, growproc.  Pids are distinct until their counter wraps.
    - Syscall, SyscallSpec, Sysfile, Exec (syscall.c, sysproc.c, sysfile.c,
      exec.c): argument checks, every system call, loading programs.
    - Trap (trap.c, syscall.c): one trap from entry to return, with the console,
      the keyboard and the disk's driver; sequences of traps and of what happens
      between them ([interrupts_safe]).
    - Console, Kbd (console.c, uart.c, kbd.c): line discipline, scan codes.
    - Ide (ide.c): requests served in order and none forgotten.
    - Machine (mp.c, lapic.c): processor tables, the CMOS clock.
    - Printf (printf.c, console.c, ulib.c), Umalloc (umalloc.c), Grep (grep.c),
      Sh (sh.c), Mjsh (mjsh.c, ezsh.c), Cron (cron.c), Xvedit (xvedit.c), Utils
      (wc.c, cat.c, cp.c, ls.c): user level.  Cron and Mjsh keep account of their
      children: cron never waits for any, mjsh waits for some child.

    - Namei (fs.c): path lookup through the inode cache is the walk of the
      directory tree on the disk, with one reference taken and none left over
      ([namei_resolves]); the image of mkfs is such a tree.
    - FsTree, Create, Trunc, Unlink, Link (fs.c, sysfile.c): what the calls that
      change the tree do to all of it.  FsTree says what one write to an inode
      leaves alone; [create_adds], [unlink_removes] and [link_adds] say which
      inodes, names, link counts and blocks each call changes, that the tree is
      well formed again, and what every error leaves.  Trunc frees exactly the
      blocks of a file.  The last link of a file that is open is not covered:
      its inode then lives in the cache only.
    - Sched (proc.c): scheduler, sched, yield, sleep, wakeup on any number of CPUs
      at the grain of lock operations: no panic, one CPU per process, the
      interrupt flag belongs to the process ([sched_safe]), no wakeup is lost
      between giving up a lock and sleeping ([wakeup_not_lost]).
    - Seg (mmu.h, asm.h, vm.c, trap.c): descriptors, gates and task state as the
      processor reads them; what a user program can and cannot enter
      ([protection]).
    - X86, Entry, Switch (trapasm.S, vectors.pl, usys.S, initcode.S, swtch.S,
      proc.c): the assembly on a model of the processor.  A trap leaves the
      interrupted program as it was ([trap_transparent]), a stub passes the call
      ([syscall_stub]), a switched-out thread resumes ([swtch_roundtrip]), a new
      process returns to user mode with its trap frame ([fork_child_resumes]).
    - Bootasm, Bootmain, Main, Devices (bootasm.S, entry.S, entryother.S,
      bootmain.c, main.c, ioapic.c, lapic.c, picirq.c, uart.c, ide.c): from the
      reset of the processors to the C code ([boot_reaches_main],
      [startothers_spec]), and the interrupts the devices can then raise
      ([boot_interrupts]).
    - ReadFile (cron.c, xvedit.c), Progs (init.c, sh.c and the small programs),
      Mains (wc.c, grep.c, nano.c, xvedit.c): whole programs, as the system calls
      they make or the text they print ([init_one_shell]).
    - Usertests (usertests.c): the kernel's own file-system tests with one
      process, run on the system calls of this library from mkfs and boot
      ([fs_tests_pass]).
    - Dump (proc.c, console.c): what procdump and panic print.

    The main groups of theorems build on each other: Bio discharges the laws
    that Log uses; LogTx gives the transactional disk that Balloc, Fs, FsFile,
    FsDir, Namei and FsTree work on; Mkfs, Boot and Usertests compose these from an empty
    image to running programs; Spinlock's calls are the steps of Sched and Pipe;
    Seg and X86 carry Entry and Switch.

    Calls on the inode and buffer caches are modelled as made by one process at a
    time: a lock that is held makes the call [Blocked].  The interleavings of
    several processes are treated where the code depends on them: locks, pipes,
    wait and exit, the scheduler, the disk queue, the console.

    ** Not modelled

    - In usertests.c the tests that fork, sleep, exec or use up memory.  The
      system calls they make are modelled and specified in Proc, Vm and Exec, but
      evaluating a fork means building the kernel part of a page table entry by
      entry, which no proof here does; bigdir is left out
      for the same reason.
    - The sleeping interleavings inside one file system call (two processes in
      ilock or bget of the same object), beyond the mutual exclusion of sleep
      locks.
    - Initialisers that only initialise a lock, a pointer or a device table entry
      (pinit, fileinit, consoleinit's switch entries, ideinit of memide.c), and
      the superblock line that iinit prints.
    - In sh.c, the memory of the command constructors: commands are values, and
      malloc does not fail there.  In cron.c malloc does not fail either, and of
      the frees only that of the last command's pointer is kept track of; in
      xvedit.c the freeing of the words of a command, and messages that only
      confirm it.
    - Sources the Makefile does not build (old.c, test.c, xvedit_matthew.c.c),
      headers that only declare (defs.h, types.h, user.h), link and build
      scripts.

    This file holds what all others share: [res], machine integers, byte
    memories, their lemmas and the tactics [zcases] and [zdiv]. *)

From stdpp Require Export base numbers list option strings sets gmap.
From Stdlib Require Export ZArith Lia.

#[global] Open Scope Z_scope.

(** ** Outcomes of kernel code

    [Panic] is the kernel's [panic(msg)], which never returns; [Blocked] is a
    call that goes to [sleep()] in the current state and is retried after a
    wakeup. *)
Inductive res (A : Type) : Type :=
| Ok (a : A)
| Panic (msg : string)
| Blocked.
Arguments Ok {A} a.
Arguments Panic {A} msg.
Arguments Blocked {A}.

Definition rbind {A B : Type} (r : res A) (k : A -> res B) : res B :=
  match r with
  | Ok a => k a
  | Panic m => Panic m
  | Blocked => Blocked
  end.

Definition is_ok {A : Type} (r : res A) : bool :=
  match r with Ok _ => true | _ => false end.

Declare Scope xv6_scope.
Delimit Scope xv6_scope with xv6.
Notation "'let*' x ':=' r 'in' k" := (rbind r (fun x => k))
  (at level 10, x pattern, r at level 100, k at level 200) : xv6_scope.
#[global] Open Scope xv6_scope.

Lemma rbind_Ok_inv {A B : Type} (r : res A) (k : A -> res B) (b : B) :
  rbind r k = Ok b -> exists a, r = Ok a /\ k a = Ok b.
Proof. destruct r; simpl; try discriminate; eauto. Qed.

(** ** Machine integers: the i386 widths the C types have *)

Definition u8 (z : Z) : Z := z mod 2 ^ 8.
Definition u16 (z : Z) : Z := z mod 2 ^ 16.
Definition u32 (z : Z) : Z := z mod 2 ^ 32.
Definition s8 (z : Z) : Z := if u8 z <? 2 ^ 7 then u8 z else u8 z - 2 ^ 8.
Definition s16 (z : Z) : Z := if u16 z <? 2 ^ 15 then u16 z else u16 z - 2 ^ 16.
Definition s32 (z : Z) : Z := if u32 z <? 2 ^ 31 then u32 z else u32 z - 2 ^ 32.

Lemma u32_range z : 0 <= u32 z < 2 ^ 32.
Proof. apply Z.mod_pos_bound; lia. Qed.

Lemma u32_small z : 0 <= z < 2 ^ 32 -> u32 z = z.
Proof. apply Z.mod_small. Qed.

Lemma u8_range z : 0 <= u8 z < 2 ^ 8.
Proof. apply Z.mod_pos_bound; lia. Qed.

Lemma u8_small z : 0 <= z < 2 ^ 8 -> u8 z = z.
Proof. apply Z.mod_small. Qed.

Lemma u16_small z : 0 <= z < 2 ^ 16 -> u16 z = z.
Proof. apply Z.mod_small. Qed.

Lemma u32_u32 z : u32 (u32 z) = u32 z.
Proof. apply u32_small, u32_range. Qed.

Lemma u32_add_l a b : u32 (u32 a + b) = u32 (a + b).
Proof. unfold u32. apply Zplus_mod_idemp_l. Qed.

Lemma u32_add_r a b : u32 (a + u32 b) = u32 (a + b).
Proof. unfold u32. apply Zplus_mod_idemp_r. Qed.

Lemma u32_sub_l a b : u32 (u32 a - b) = u32 (a - b).
Proof. unfold u32. apply Zminus_mod_idemp_l. Qed.

Lemma u32_sub_r a b : u32 (a - u32 b) = u32 (a - b).
Proof. unfold u32. apply Zminus_mod_idemp_r. Qed.

(** Reducing modulo a power of two below the word size sees through the
    word's wrap-around: this is why ring indices may overflow. *)
Lemma u32_mod_pow2 z k : 0 <= k <= 32 -> u32 z mod 2 ^ k = z mod 2 ^ k.
Proof.
  intros Hk. unfold u32.
  replace (2 ^ 32) with (2 ^ k * 2 ^ (32 - k)) by (rewrite <- Z.pow_add_r by lia; f_equal; lia).
  rewrite Z.rem_mul_r by lia.
  rewrite Z.mul_comm, Z.mod_add by lia. apply Z.mod_mod; lia.
Qed.

(** ** Case analysis on the integer tests of the code *)

Ltac zcase :=
  match goal with
  | |- context [Z.eqb ?a ?b] => destruct (Z.eqb_spec a b)
  | |- context [Z.leb ?a ?b] => destruct (Z.leb_spec a b)
  | |- context [Z.ltb ?a ?b] => destruct (Z.ltb_spec a b)
  end.
Ltac zcase_in H :=
  match type of H with
  | context [Z.eqb ?a ?b] => destruct (Z.eqb_spec a b)
  | context [Z.leb ?a ?b] => destruct (Z.leb_spec a b)
  | context [Z.ltb ?a ?b] => destruct (Z.ltb_spec a b)
  end.
Ltac zcases := repeat (zcase; simpl; try lia).
Ltac zcases_in H := repeat (zcase_in H; simpl in H; try lia; try discriminate).

(** Division and remainder goals, by their defining equations. *)
Ltac zdiv := Z.div_mod_to_equations; lia.

Lemma s32_small z : 0 <= z < 2 ^ 31 -> s32 z = z.
Proof. intros H. unfold s32. rewrite u32_small by lia. by zcases. Qed.

Lemma s32_u32 z : 0 <= z < 2 ^ 31 -> s32 (u32 z) = z.
Proof. intros H. rewrite u32_small by lia. by apply s32_small. Qed.

Create HintDb xv6.
Create Rewrite HintDb xv6.

(** ** Byte memories

    A memory object (physical memory, a disk block, a struct on the stack)
    is a total function from byte offset to byte. *)

Definition mem : Type := Z -> Z.

Definition byte_mem (m : mem) : Prop := forall a, 0 <= m a < 256.

Definition mset (m : mem) (a v : Z) : mem := fun x => if x =? a then v else m x.

(** [n] bytes from [a] set to [v]. *)
Definition mfill (m : mem) (a n v : Z) : mem :=
  fun x => if (a <=? x) && (x <? a + n) then v else m x.

(** [n] bytes of [src] from [s] copied over [dst] from [d]. *)
Definition mcopy (dst : mem) (d : Z) (src : mem) (s n : Z) : mem :=
  fun x => if (d <=? x) && (x <? d + n) then src (s + (x - d)) else dst x.

Definition ld16 (m : mem) (a : Z) : Z := m a + 2 ^ 8 * m (a + 1).
Definition ld32 (m : mem) (a : Z) : Z :=
  m a + 2 ^ 8 * m (a + 1) + 2 ^ 16 * m (a + 2) + 2 ^ 24 * m (a + 3).

Definition st16 (m : mem) (a v : Z) : mem :=
  mset (mset m a (v mod 256)) (a + 1) (v / 2 ^ 8 mod 256).
Definition st32 (m : mem) (a v : Z) : mem :=
  mset (mset (mset (mset m a (v mod 256)) (a + 1) (v / 2 ^ 8 mod 256))
          (a + 2) (v / 2 ^ 16 mod 256)) (a + 3) (v / 2 ^ 24 mod 256).

Lemma mset_eq m a v : mset m a v a = v.
Proof. unfold mset. by rewrite Z.eqb_refl. Qed.

Lemma mset_ne m a v b : b <> a -> mset m a v b = m b.
Proof. intros. unfold mset. by destruct (Z.eqb_spec b a). Qed.

Lemma mfill_in m a n v x : a <= x < a + n -> mfill m a n v x = v.
Proof. intros. unfold mfill. zcases; reflexivity. Qed.

Lemma mfill_out m a n v x : x < a \/ a + n <= x -> mfill m a n v x = m x.
Proof. intros. unfold mfill. zcases; reflexivity. Qed.

Lemma mcopy_in dst d src s n x : d <= x < d + n -> mcopy dst d src s n x = src (s + (x - d)).
Proof. intros. unfold mcopy. zcases; reflexivity. Qed.

Lemma mcopy_out dst d src s n x : x < d \/ d + n <= x -> mcopy dst d src s n x = dst x.
Proof. intros. unfold mcopy. zcases; reflexivity. Qed.

Lemma st32_other m a v x : x < a \/ a + 4 <= x -> st32 m a v x = m x.
Proof. intros. unfold st32. rewrite !mset_ne by lia. reflexivity. Qed.

Lemma st16_other m a v x : x < a \/ a + 2 <= x -> st16 m a v x = m x.
Proof. intros. unfold st16. rewrite !mset_ne by lia. reflexivity. Qed.

Lemma ld32_ext m m' a :
  (forall x, a <= x < a + 4 -> m x = m' x) -> ld32 m a = ld32 m' a.
Proof. intros H. unfold ld32. rewrite !H by lia. reflexivity. Qed.

Lemma ld16_ext m m' a :
  (forall x, a <= x < a + 2 -> m x = m' x) -> ld16 m a = ld16 m' a.
Proof. intros H. unfold ld16. rewrite !H by lia. reflexivity. Qed.

Lemma ld32_st32_same m a v : ld32 (st32 m a v) a = u32 v.
Proof.
  unfold ld32, st32, mset.
  rewrite ?Z.eqb_refl.
  repeat (zcase; try lia).
  unfold u32. change (2 ^ 8) with 256. change (2 ^ 16) with 65536.
  change (2 ^ 24) with 16777216. change (2 ^ 32) with 4294967296. zdiv.
Qed.

Lemma ld32_st32_other m a v b : b + 4 <= a \/ a + 4 <= b -> ld32 (st32 m a v) b = ld32 m b.
Proof. intros. apply ld32_ext. intros. apply st32_other. lia. Qed.

Lemma ld16_st16_same m a v : ld16 (st16 m a v) a = u16 v.
Proof.
  unfold ld16, st16, mset. rewrite ?Z.eqb_refl. repeat (zcase; try lia).
  unfold u16. change (2 ^ 8) with 256. change (2 ^ 16) with 65536. zdiv.
Qed.

Lemma ld16_st16_other m a v b : b + 2 <= a \/ a + 2 <= b -> ld16 (st16 m a v) b = ld16 m b.
Proof. intros. apply ld16_ext. intros. apply st16_other. lia. Qed.

Lemma ld32_mfill_zero m a n b : a <= b -> b + 4 <= a + n -> ld32 (mfill m a n 0) b = 0.
Proof. intros. unfold ld32. rewrite !mfill_in by lia. reflexivity. Qed.

Lemma ld32_range m a : byte_mem m -> 0 <= ld32 m a < 2 ^ 32.
Proof.
  intros H. unfold ld32.
  pose proof (H a); pose proof (H (a + 1)); pose proof (H (a + 2)); pose proof (H (a + 3)). lia.
Qed.

Lemma byte_mem_mset m a v : byte_mem m -> 0 <= v < 256 -> byte_mem (mset m a v).
Proof. intros Hm Hv x. unfold mset. zcases; auto. Qed.

Lemma byte_mem_st32 m a v : byte_mem m -> byte_mem (st32 m a v).
Proof. intros Hm. unfold st32. repeat apply byte_mem_mset; auto; apply Z.mod_pos_bound; lia. Qed.

Lemma byte_mem_st16 m a v : byte_mem m -> byte_mem (st16 m a v).
Proof. intros Hm. unfold st16. repeat apply byte_mem_mset; auto; apply Z.mod_pos_bound; lia. Qed.

Lemma byte_mem_mfill m a n v : byte_mem m -> 0 <= v < 256 -> byte_mem (mfill m a n v).
Proof. intros Hm Hv x. unfold mfill. destruct (_ && _); auto. Qed.

Lemma byte_mem_mcopy dst d src s n :
  byte_mem dst -> byte_mem src -> byte_mem (mcopy dst d src s n).
Proof. intros Hd Hs x. unfold mcopy. destruct (_ && _); auto. Qed.

#[export] Hint Resolve byte_mem_mset byte_mem_st32 byte_mem_st16 byte_mem_mfill byte_mem_mcopy : xv6.
#[export] Hint Rewrite u32_u32 u32_add_l u32_add_r u32_sub_l u32_sub_r : xv6.


(** Bytes of a memory as a list, and a list laid into a memory. *)
Definition mread (m : mem) (a : Z) (n : nat) : list Z :=
  map (fun i => m (a + Z.of_nat i)) (seq 0 n).

Definition mwrite (m : mem) (a : Z) (l : list Z) : mem :=
  fun x => if (a <=? x) && (x <? a + Z.of_nat (length l))
           then nth (Z.to_nat (x - a)) l 0 else m x.

Lemma length_mread m a n : length (mread m a n) = n.
Proof. unfold mread. by rewrite length_map, length_seq. Qed.

Lemma nth_mread m a n i d : (i < n)%nat -> nth i (mread m a n) d = m (a + Z.of_nat i).
Proof.
  intros Hi. unfold mread.
  rewrite nth_indep with (d' := m (a + Z.of_nat 0)) by (rewrite length_map, length_seq; lia).
  rewrite (map_nth (fun i => m (a + Z.of_nat i)) (seq 0 n) 0%nat).
  by rewrite seq_nth.
Qed.
