(* ===== verification/StringLib.v ===== *)
(** * String and memory primitives (src/string.c, src/x86.h, src/ulib.c)

    The kernel's [memset], [memcmp], [memmove], [strncmp], [strncpy] and
    [safestrcpy] on a byte memory, with the [rep stos] instructions they use,
    and the user library's variants.  The theorems relate each loop to the
    range operations [mfill] and [mcopy] of the prelude and to the list of
    bytes a C string denotes, which is how the other files use them. *)

From S2P Require Import Prelude.

(** ** Definitions: string.c *)

(** [cld; rep stosb]: [cnt] bytes, ascending. *)
Fixpoint stosb (m : mem) (addr data : Z) (cnt : nat) : mem :=
  match cnt with
  | O => m
  | S cnt' => stosb (mset m addr (data mod 256)) (addr + 1) data cnt'
  end.

(** [cld; rep stosl]: [cnt] doublewords, ascending. *)
Fixpoint stosl (m : mem) (addr data : Z) (cnt : nat) : mem :=
  match cnt with
  | O => m
  | S cnt' => stosl (st32 m addr data) (addr + 4) data cnt'
  end.

Definition memset (m : mem) (dst c n : Z) : mem :=
  if (dst mod 4 =? 0) && (n mod 4 =? 0) then
    let c := Z.land c 255 in
    stosl m dst
      (Z.lor (Z.lor (Z.lor (Z.shiftl c 24) (Z.shiftl c 16)) (Z.shiftl c 8)) c)
      (Z.to_nat (n / 4))
  else stosb m dst c (Z.to_nat n).

Fixpoint memcmp_loop (m : mem) (s1 s2 : Z) (n : nat) : Z :=
  match n with
  | O => 0
  | S n' => if negb (m s1 =? m s2) then m s1 - m s2
            else memcmp_loop m (s1 + 1) (s2 + 1) n'
  end.

Definition memcmp (m : mem) (v1 v2 n : Z) : Z := memcmp_loop m v1 v2 (Z.to_nat n).

(** [while(n-- > 0) *d++ = *s++;] *)
Fixpoint copy_fwd (m : mem) (d s : Z) (n : nat) : mem :=
  match n with
  | O => m
  | S n' => copy_fwd (mset m d (m s)) (d + 1) (s + 1) n'
  end.

(** [while(n-- > 0) *--d = *--s;] with [d] and [s] one past the end. *)
Fixpoint copy_bwd (m : mem) (d s : Z) (n : nat) : mem :=
  match n with
  | O => m
  | S n' => copy_bwd (mset m (d - 1) (m (s - 1))) (d - 1) (s - 1) n'
  end.

Definition memmove (m : mem) (dst src n : Z) : mem :=
  let s := src in
  let d := dst in
  if (s <? d) && (d <? u32 (s + n)) then
    copy_bwd m (u32 (d + n)) (u32 (s + n)) (Z.to_nat n)
  else copy_fwd m d s (Z.to_nat n).

Definition memcpy (m : mem) (dst src n : Z) : mem := memmove m dst src n.

Fixpoint strncmp_loop (m : mem) (p q : Z) (n : nat) : Z :=
  match n with
  | O => 0
  | S n' => if negb (m p =? 0) && (m p =? m q) then strncmp_loop m (p + 1) (q + 1) n'
            else m p - m q
  end.

Definition strncmp (m : mem) (p q n : Z) : Z := strncmp_loop m p q (Z.to_nat n).

(** The first loop of [strncpy]; the second one is a fill of the [n] bytes
    that are left when the terminator was copied. *)
Fixpoint strncpy_loop (m : mem) (s t : Z) (n : nat) : mem :=
  match n with
  | O => m
  | S n' =>
      let c := m t in
      let m := mset m s c in
      if negb (c =? 0) then strncpy_loop m (s + 1) (t + 1) n'
      else stosb m (s + 1) 0 n'
  end.

Definition strncpy (m : mem) (s t n : Z) : mem := strncpy_loop m s t (Z.to_nat n).

(** [n] counts the bytes that may still be written before the last one. *)
Fixpoint safestrcpy_loop (m : mem) (s t : Z) (n : nat) : mem :=
  match n with
  | O => mset m s 0
  | S n' =>
      let c := m t in
      let m := mset m s c in
      if negb (c =? 0) then safestrcpy_loop m (s + 1) (t + 1) n'
      else mset m (s + 1) 0
  end.

Definition safestrcpy (m : mem) (s t n : Z) : mem :=
  if n <=? 0 then m else safestrcpy_loop m s t (Z.to_nat (n - 1)).

(** [for(n = 0; s[n]; n++)]: [None] when [fuel] bytes hold no terminator. *)
Fixpoint strlen (m : mem) (s : Z) (fuel : nat) : option Z :=
  match fuel with
  | O => None
  | S f => if m s =? 0 then Some 0
           else match strlen m (s + 1) f with Some n => Some (n + 1) | None => None end
  end.

(** ** Definitions: ulib.c *)

(** The user library's [memmove] has the forward loop only. *)
Definition ulib_memmove (m : mem) (vdst vsrc n : Z) : mem := copy_fwd m vdst vsrc (Z.to_nat n).

Definition ulib_memset (m : mem) (dst c n : Z) : mem := stosb m dst c (Z.to_nat n).

(** [strcpy], [strcmp], [strchr] run to a terminator: [fuel] bounds it. *)
Fixpoint strcpy (m : mem) (s t : Z) (fuel : nat) : option mem :=
  match fuel with
  | O => None
  | S f => let c := m t in
           let m := mset m s c in
           if negb (c =? 0) then strcpy m (s + 1) (t + 1) f else Some m
  end.

Fixpoint strcmp (m : mem) (p q : Z) (fuel : nat) : option Z :=
  match fuel with
  | O => None
  | S f => if negb (m p =? 0) && (m p =? m q) then strcmp m (p + 1) (q + 1) f
           else Some (m p - m q)
  end.

(** The address of the first [c] before the terminator, 0 if there is none. *)
Fixpoint strchr (m : mem) (s c : Z) (fuel : nat) : option Z :=
  match fuel with
  | O => None
  | S f => if m s =? 0 then Some 0 else if m s =? c then Some s else strchr m (s + 1) c f
  end.

(** [n = n*10 + *s++ - '0'] in 32-bit arithmetic. *)
Fixpoint atoi_loop (m : mem) (s n : Z) (fuel : nat) : option Z :=
  match fuel with
  | O => None
  | S f => if (48 <=? m s) && (m s <=? 57)
           then atoi_loop m (s + 1) (s32 (n * 10 + m s - 48)) f
           else Some n
  end.

Definition atoi (m : mem) (s : Z) (fuel : nat) : option Z := atoi_loop m s 0 fuel.

(** ** C strings as lists *)

(** The bytes of the string at [a], at most [n] of them, without the NUL. *)
Fixpoint cstrn (m : mem) (a : Z) (n : nat) : list Z :=
  match n with
  | O => []
  | S n' => if m a =? 0 then [] else m a :: cstrn m (a + 1) n'
  end.

(** The string at [a] has its terminator at [a + k]. *)
Definition cstr_len (m : mem) (a : Z) (k : nat) : Prop :=
  m (a + Z.of_nat k) = 0 /\ forall i, (i < k)%nat -> m (a + Z.of_nat i) <> 0.

(** ** The store instructions and [memset] *)

Lemma stosb_fill m a v n x : stosb m a v n x = mfill m a (Z.of_nat n) (v mod 256) x.
Proof.
  revert m a. induction n as [|n IH]; intros m a; simpl stosb.
  - rewrite mfill_out by lia. reflexivity.
  - rewrite IH. unfold mfill, mset. zcases; reflexivity.
Qed.

Lemma stosl_bytes m a w n c x :
  0 <= c < 256 -> w = c * 16843009 ->
  stosl m a w n x = mfill m a (4 * Z.of_nat n) c x.
Proof.
  intros Hc Hw. revert m a. induction n as [|n IH]; intros m a; simpl stosl.
  - rewrite mfill_out by lia. reflexivity.
  - rewrite IH. unfold mfill, st32, mset.
    assert (w mod 256 = c) by (subst; zdiv).
    assert (w / 2 ^ 8 mod 256 = c) by (subst; change (2 ^ 8) with 256; zdiv).
    assert (w / 2 ^ 16 mod 256 = c) by (subst; change (2 ^ 16) with 65536; zdiv).
    assert (w / 2 ^ 24 mod 256 = c) by (subst; change (2 ^ 24) with 16777216; zdiv).
    zcases; congruence.
Qed.

Lemma byte_pattern c :
  0 <= c < 256 ->
  Z.lor (Z.lor (Z.lor (Z.shiftl c 24) (Z.shiftl c 16)) (Z.shiftl c 8)) c = c * 16843009.
Proof.
  intros Hc.
  assert (H : forallb (fun c =>
      Z.lor (Z.lor (Z.lor (Z.shiftl c 24) (Z.shiftl c 16)) (Z.shiftl c 8)) c =? c * 16843009)
      (map Z.of_nat (seq 0 256)) = true) by (vm_compute; reflexivity).
  rewrite forallb_forall in H. apply Z.eqb_eq, H, in_map_iff.
  exists (Z.to_nat c). split; [lia | apply in_seq; lia].
Qed.

Lemma land_255 c : Z.land c 255 = c mod 256.
Proof. change 255 with (Z.ones 8). rewrite Z.land_ones by lia. reflexivity. Qed.

(** The word-wise and the byte-wise path of [memset] fill the same bytes. *)
Lemma memset_spec m d c n x : 0 <= n -> memset m d c n x = mfill m d n (c mod 256) x.
Proof.
  intros Hn. unfold memset.
  destruct ((d mod 4 =? 0) && (n mod 4 =? 0)) eqn:E.
  - apply andb_true_iff in E as [_ E]. apply Z.eqb_eq in E.
    rewrite land_255, byte_pattern by (apply Z.mod_pos_bound; lia).
    rewrite stosl_bytes with (c := c mod 256) by (first [apply Z.mod_pos_bound; lia | reflexivity]).
    replace (4 * Z.of_nat (Z.to_nat (n / 4))) with n by zdiv. reflexivity.
  - rewrite stosb_fill. rewrite Z2Nat.id by lia. reflexivity.
Qed.

Lemma byte_mem_memset m d c n : byte_mem m -> 0 <= n -> byte_mem (memset m d c n).
Proof.
  intros Hm Hn x. rewrite memset_spec by done.
  apply byte_mem_mfill; [done | apply Z.mod_pos_bound; lia].
Qed.

(** ** Copies *)

Lemma copy_fwd_spec m d s n x :
  d <= s \/ s + Z.of_nat n <= d ->
  copy_fwd m d s n x = mcopy m d m s (Z.of_nat n) x.
Proof.
  revert m d s. induction n as [|n IH]; intros m d s H; simpl copy_fwd.
  - rewrite mcopy_out by lia. reflexivity.
  - rewrite IH by lia. unfold mcopy, mset. zcases; f_equal; lia.
Qed.

Lemma copy_bwd_spec m d s n x :
  s <= d \/ d + Z.of_nat n <= s ->
  copy_bwd m (d + Z.of_nat n) (s + Z.of_nat n) n x = mcopy m d m s (Z.of_nat n) x.
Proof.
  revert m. induction n as [|n IH]; intros m H; simpl copy_bwd.
  - rewrite mcopy_out by lia. reflexivity.
  - replace (d + Z.of_nat (S n) - 1) with (d + Z.of_nat n) by lia.
    replace (s + Z.of_nat (S n) - 1) with (s + Z.of_nat n) by lia.
    rewrite IH by lia. unfold mcopy, mset. zcases; f_equal; lia.
Qed.

Lemma memmove_copy m d s n x :
  0 <= n -> 0 <= s -> s + n < 2 ^ 32 -> 0 <= d -> d + n < 2 ^ 32 ->
  memmove m d s n x = mcopy m d m s n x.
Proof.
  intros. unfold memmove. rewrite !(u32_small) by lia.
  destruct ((s <? d) && (d <? s + n)) eqn:E.
  - rewrite <- (Z2Nat.id n) at 1 2 4 by lia. apply copy_bwd_spec.
    apply andb_true_iff in E as [E _]. apply Z.ltb_lt in E. lia.
  - rewrite copy_fwd_spec; rewrite ?Z2Nat.id by lia; [reflexivity |].
    apply andb_false_iff in E as [E|E]; apply Z.ltb_ge in E; lia.
Qed.

(** The kernel's [memmove] copies the [n] source bytes as they were
    before the call and changes nothing else, whether or not the two ranges
    overlap and in whichever order they lie; the ranges need only lie inside
    the 32-bit address space. *)
Theorem memmove_spec m d s n x :
  0 <= n -> 0 <= s -> s + n < 2 ^ 32 -> 0 <= d -> d + n < 2 ^ 32 ->
  memmove m d s n x = mcopy m d m s n x.
Proof. apply memmove_copy. Qed.

Lemma memmove_spec_witness :
  memmove (fun a => a mod 256) 12 10 4 15 = 13.
Proof.
  rewrite (memmove_spec (fun a => a mod 256) 12 10 4 15) by lia. reflexivity.
Defined.

Lemma ulib_memmove_spec m d s n x :
  0 <= n -> d <= s \/ s + n <= d ->
  ulib_memmove m d s n x = mcopy m d m s n x.
Proof.
  intros. unfold ulib_memmove. rewrite copy_fwd_spec by lia.
  rewrite Z2Nat.id by lia. reflexivity.
Qed.

(** When the destination starts inside the source, the user library's copy
    does not keep the source bytes. *)
Example ulib_memmove_overlap :
  ulib_memmove (fun a => a) 11 10 3 13 = 10 /\
  mcopy (fun a => a) 11 (fun a => a) 10 3 13 = 12.
Proof. split; reflexivity. Qed.

(** ** Strings *)

Lemma strlen_spec m a k fuel :
  cstr_len m a k -> (k < fuel)%nat -> strlen m a fuel = Some (Z.of_nat k).
Proof.
  revert a k. induction fuel as [|f IH]; intros a k [Hz Hnz] Hk; [lia|]. simpl.
  destruct k as [|k].
  - replace (a + Z.of_nat 0) with a in Hz by lia. rewrite Hz. reflexivity.
  - specialize (Hnz 0%nat) as H0. replace (a + Z.of_nat 0) with a in H0 by lia.
    destruct (Z.eqb_spec (m a) 0); [lia|].
    rewrite IH with (k := k); [f_equal; lia | | lia].
    split; [rewrite <- Hz; f_equal; lia |].
    intros i Hi. specialize (Hnz (S i)).
    replace (a + 1 + Z.of_nat i) with (a + Z.of_nat (S i)) by lia. apply Hnz. lia.
Qed.

Lemma strncmp_loop_cstrn m p q n :
  strncmp_loop m p q n = 0 <-> cstrn m p n = cstrn m q n.
Proof.
  revert p q. induction n as [|n IH]; intros p q; simpl; [tauto|].
  destruct (Z.eqb_spec (m p) 0) as [Hp|Hp], (Z.eqb_spec (m q) 0) as [Hq|Hq];
    destruct (Z.eqb_spec (m p) (m q)) as [He|He]; simpl; try lia;
    try (split; [lia|discriminate]); try (split; lia || reflexivity).
  - rewrite IH, He. split; [intros ->; reflexivity | intros H; by inversion H].
  - split; [lia | intros H; inversion H; lia].
Qed.

(** [strncmp] (and so [namecmp]) decides equality of the two C strings
    truncated to [n] bytes. *)
Theorem strncmp_equality m p q n :
  strncmp m p q n = 0 <-> cstrn m p (Z.to_nat n) = cstrn m q (Z.to_nat n).
Proof. apply strncmp_loop_cstrn. Qed.

Lemma cstrn_ext m m' a n :
  (forall x, a <= x < a + Z.of_nat n -> m x = m' x) -> cstrn m a n = cstrn m' a n.
Proof.
  revert a. induction n as [|n IH]; intros a H; simpl; [done|].
  rewrite H by lia. zcases; [done|]. f_equal. apply IH. intros. apply H. lia.
Qed.

Lemma cstrn_length m a n : (length (cstrn m a n) <= n)%nat.
Proof.
  revert a. induction n as [|n IH]; intros a; simpl; [lia|].
  destruct (m a =? 0); simpl; [lia|]. specialize (IH (a + 1)). lia.
Qed.

(** The field a [strncpy] leaves is the source string padded with NULs. *)
Lemma strncpy_loop_spec m s t n x :
  s + Z.of_nat n <= t \/ t + Z.of_nat n <= s ->
  strncpy_loop m s t n x =
  if (s <=? x) && (x <? s + Z.of_nat n)
  then nth (Z.to_nat (x - s)) (cstrn m t n) 0 else m x.
Proof.
  revert m s t. induction n as [|n IH]; intros m s t H; simpl strncpy_loop.
  - zcases; reflexivity.
  - destruct (Z.eqb_spec (m t) 0) as [Hz|Hz]; cbn [negb].
    + rewrite stosb_fill. unfold mfill, mset. simpl cstrn. rewrite Hz. simpl.
      destruct (Z.to_nat (x - s)); zcases; try reflexivity.
    + rewrite IH by lia.
      rewrite (cstrn_ext (mset m s (m t)) m) by (intros; apply mset_ne; lia).
      simpl cstrn. rewrite (proj2 (Z.eqb_neq _ _) Hz).
      destruct (Z.eq_dec x s) as [->|Hx].
      * unfold mset. rewrite Z.sub_diag. zcases; reflexivity.
      * rewrite mset_ne by done.
        destruct (Z.leb_spec (s + 1) x); simpl.
        -- replace (Z.to_nat (x - s)) with (S (Z.to_nat (x - (s + 1)))) by lia.
           simpl. zcases; reflexivity.
        -- zcases; reflexivity.
Qed.

(** After [strncpy(s, t, n)] the [n]-byte field at [s] holds the string
    at [t], truncated to [n] bytes and padded with NULs, and the rest of
    memory is unchanged: the on-disk name field of a directory entry. *)
Theorem strncpy_field m s t n x :
  0 <= n -> s + n <= t \/ t + n <= s ->
  strncpy m s t n x =
  if (s <=? x) && (x <? s + n)
  then nth (Z.to_nat (x - s)) (cstrn m t (Z.to_nat n)) 0 else m x.
Proof.
  intros. unfold strncpy. rewrite strncpy_loop_spec by lia.
  rewrite Z2Nat.id by lia. reflexivity.
Qed.

Lemma strncpy_field_witness :
  let m := mwrite (fun _ => 7) 100 [97; 98; 0] in
  strncpy m 0 100 14 1 = 98 /\ strncpy m 0 100 14 13 = 0.
Proof.
  simpl. split; (rewrite strncpy_field by lia; reflexivity).
Defined.

Lemma safestrcpy_loop_outside m s t n x :
  x < s \/ s + Z.of_nat (S n) <= x -> safestrcpy_loop m s t n x = m x.
Proof.
  revert m s t. induction n as [|n IH]; intros m s t H; simpl.
  - apply mset_ne. lia.
  - destruct (negb _).
    + rewrite IH by lia. apply mset_ne. lia.
    + rewrite !mset_ne by lia. reflexivity.
Qed.

Lemma safestrcpy_loop_cstrn m s t n :
  s + Z.of_nat (S n) <= t \/ t + Z.of_nat (S n) <= s ->
  cstrn (safestrcpy_loop m s t n) s (S n) = cstrn m t n.
Proof.
  revert m s t. induction n as [|n IH]; intros m s t H.
  - simpl. rewrite mset_eq. reflexivity.
  - simpl safestrcpy_loop. destruct (Z.eqb_spec (m t) 0) as [Hz|Hz]; cbn [negb].
    + simpl. rewrite Hz, mset_ne, mset_eq by lia. reflexivity.
    + set (m' := safestrcpy_loop _ _ _ _).
      assert (Hs : m' s = m t)
        by (unfold m'; rewrite safestrcpy_loop_outside by lia; apply mset_eq).
      change (cstrn m' s (S (S n))) with
        (if m' s =? 0 then [] else m' s :: cstrn m' (s + 1) (S n)).
      change (cstrn m t (S n)) with (if m t =? 0 then [] else m t :: cstrn m (t + 1) n).
      rewrite Hs. destruct (Z.eqb_spec (m t) 0); [done|]. f_equal.
      unfold m'. rewrite IH by lia. apply cstrn_ext. intros. apply mset_ne. lia.
Qed.

(** [safestrcpy] always leaves a NUL-terminated string in the [n] bytes
    at [s]: the string at [t] cut to [n-1] bytes; nothing outside the [n]
    bytes changes. *)
Theorem safestrcpy_terminates m s t n :
  0 < n -> s + n <= t \/ t + n <= s ->
  cstrn (safestrcpy m s t n) s (Z.to_nat n) = cstrn m t (Z.to_nat (n - 1)) /\
  (forall x, x < s \/ s + n <= x -> safestrcpy m s t n x = m x).
Proof.
  intros Hn Hd. unfold safestrcpy. destruct (Z.leb_spec n 0); [lia|].
  replace (Z.to_nat n) with (S (Z.to_nat (n - 1))) by lia. split.
  - apply safestrcpy_loop_cstrn. lia.
  - intros x Hx. apply safestrcpy_loop_outside. lia.
Qed.

Lemma safestrcpy_terminates_witness :
  cstrn (safestrcpy (mwrite (fun _ => 7) 100 [97; 98; 99; 0]) 0 100 3) 0 3 = [97; 98].
Proof.
  rewrite (proj1 (safestrcpy_terminates _ 0 100 3 ltac:(lia) ltac:(lia))). reflexivity.
Defined.

(** Decimal digits [ds] (most significant first) denote this value. *)
Definition dec_value (ds : list Z) : Z := fold_left (fun n c => n * 10 + (c - 48)) ds 0.
