(* ===== verification/Layout.v ===== *)
(** * Address-space layout and page-table bit fields (src/mmu.h,
    src/memlayout.h, src/param.h)

    The constants and macros every kernel file shares, with the lemmas on
    rounding and on the decomposition of a virtual address. *)

From S2P Require Import Prelude.

(** ** memlayout.h *)

Definition EXTMEM : Z := 0x100000.
Definition PHYSTOP : Z := 0xE000000.
Definition DEVSPACE : Z := 0xFE000000.
Definition KERNBASE : Z := 0x80000000.
Definition KERNLINK : Z := KERNBASE + EXTMEM.
Definition V2P (a : Z) : Z := u32 (a - KERNBASE).
Definition P2V (a : Z) : Z := u32 (a + KERNBASE).

(** ** mmu.h *)

Definition PGSIZE : Z := 4096.
Definition NPDENTRIES : Z := 1024.
Definition PTXSHIFT : Z := 12.
Definition PDXSHIFT : Z := 22.

Definition PGROUNDUP (sz : Z) : Z := Z.land (u32 (sz + PGSIZE - 1)) (u32 (Z.lnot (PGSIZE - 1))).
Definition PGROUNDDOWN (a : Z) : Z := Z.land a (u32 (Z.lnot (PGSIZE - 1))).

Definition PDX (va : Z) : Z := Z.land (Z.shiftr va PDXSHIFT) 0x3FF.
Definition PTX (va : Z) : Z := Z.land (Z.shiftr va PTXSHIFT) 0x3FF.
Definition PGADDR (d t o : Z) : Z :=
  u32 (Z.lor (Z.lor (Z.shiftl d PDXSHIFT) (Z.shiftl t PTXSHIFT)) o).

Definition PTE_P : Z := 0x001.
Definition PTE_W : Z := 0x002.
Definition PTE_U : Z := 0x004.
Definition PTE_ADDR (pte : Z) : Z := Z.land pte (u32 (Z.lnot 0xFFF)).
Definition PTE_FLAGS (pte : Z) : Z := Z.land pte 0xFFF.

Definition FL_IF : Z := 0x200.

(** ** param.h *)

Definition NPROC : Z := 64.
Definition KSTACKSIZE : Z := 4096.
Definition NCPU : Z := 8.
Definition NOFILE : Z := 16.
Definition NFILE : Z := 100.
Definition NINODE : Z := 50.
Definition NDEV : Z := 10.
Definition ROOTDEV : Z := 1.
Definition MAXARG : Z := 32.
Definition MAXOPBLOCKS : Z := 10.
Definition LOGSIZE : Z := MAXOPBLOCKS * 3.
Definition NBUF : Z := MAXOPBLOCKS * 3.
Definition FSSIZE : Z := 1000.

(** ** Rounding *)

(** Masking with [~0xFFF] in 32 bits clears the offset of a 32-bit value. *)
Lemma land_page_mask a : 0 <= a < 2 ^ 32 -> Z.land a (u32 (Z.lnot 0xFFF)) = a - a mod 4096.
Proof.
  intros Ha.
  change (u32 (Z.lnot 0xFFF)) with (Z.shiftl (Z.ones 20) 12).
  assert (E : Z.land a (Z.shiftl (Z.ones 20) 12) = Z.shiftl (Z.land (Z.shiftr a 12) (Z.ones 20)) 12).
  { apply Z.bits_inj'. intros n Hn.
    rewrite Z.land_spec, !Z.shiftl_spec by lia.
    destruct (Z.lt_ge_cases n 12).
    - rewrite !(Z.testbit_neg_r _ (n - 12)) by lia. apply andb_false_r.
    - rewrite Z.land_spec, Z.shiftr_spec by lia. f_equal; f_equal; lia. }
  rewrite E, Z.land_ones, Z.shiftr_div_pow2, Z.shiftl_mul_pow2 by lia.
  rewrite (Z.mod_small (a / 2 ^ 12)) by (change (2 ^ 12) with 4096; zdiv).
  change (2 ^ 12) with 4096. zdiv.
Qed.

Lemma PGROUNDDOWN_eq a : 0 <= a < 2 ^ 32 -> PGROUNDDOWN a = a - a mod PGSIZE.
Proof. apply land_page_mask. Qed.

Lemma PTE_ADDR_eq a : 0 <= a < 2 ^ 32 -> PTE_ADDR a = a - a mod PGSIZE.
Proof. apply land_page_mask. Qed.

Lemma PTE_FLAGS_eq a : PTE_FLAGS a = a mod PGSIZE.
Proof. unfold PTE_FLAGS. change 0xFFF with (Z.ones 12). by rewrite Z.land_ones. Qed.

(** Up to [2^32 - PGSIZE] rounding up gives the next page boundary; above, the
    sum wraps and the result is 0. *)
Lemma PGROUNDUP_eq a :
  0 <= a <= 2 ^ 32 - PGSIZE -> PGROUNDUP a = (a + PGSIZE - 1) / PGSIZE * PGSIZE.
Proof.
  unfold PGROUNDUP, PGSIZE. intros Ha. rewrite u32_small by lia.
  change (4096 - 1) with 0xFFF. rewrite land_page_mask by lia. zdiv.
Qed.

Lemma PGROUNDUP_wrap a : 2 ^ 32 - PGSIZE < a < 2 ^ 32 -> PGROUNDUP a = 0.
Proof.
  unfold PGROUNDUP, PGSIZE. intros Ha.
  assert (E : u32 (a + 4096 - 1) = a + 4096 - 1 - 2 ^ 32).
  { unfold u32. symmetry. apply Z.mod_unique with 1; lia. }
  rewrite E. change (4096 - 1) with 0xFFF. rewrite land_page_mask by lia. zdiv.
Qed.

Lemma PGROUNDUP_spec a :
  0 <= a <= 2 ^ 32 - PGSIZE ->
  a <= PGROUNDUP a < a + PGSIZE /\ PGROUNDUP a mod PGSIZE = 0.
Proof. intros Ha. rewrite PGROUNDUP_eq by done. unfold PGSIZE in *. zdiv. Qed.

(** ** Virtual-address decomposition *)

Lemma PDX_eq va : PDX va = va / 2 ^ 22 mod 1024.
Proof.
  unfold PDX, PDXSHIFT. rewrite Z.shiftr_div_pow2 by lia.
  change 0x3FF with (Z.ones 10). by rewrite Z.land_ones.
Qed.

Lemma PTX_eq va : PTX va = va / 2 ^ 12 mod 1024.
Proof.
  unfold PTX, PTXSHIFT. rewrite Z.shiftr_div_pow2 by lia.
  change 0x3FF with (Z.ones 10). by rewrite Z.land_ones.
Qed.

Lemma land_shiftl_small a b k : 0 <= k -> 0 <= b < 2 ^ k -> Z.land (Z.shiftl a k) b = 0.
Proof.
  intros Hk Hb. apply Z.bits_inj'. intros n Hn.
  rewrite Z.land_spec, Z.bits_0, Z.shiftl_spec by lia.
  destruct (Z.lt_ge_cases n k).
  - rewrite (Z.testbit_neg_r a) by lia. reflexivity.
  - rewrite <- (Z.mod_small b (2 ^ k)), Z.mod_pow2_bits_high by lia. apply andb_false_r.
Qed.

Lemma lor_disjoint_add a b k : 0 <= k -> 0 <= b < 2 ^ k -> Z.lor (Z.shiftl a k) b = a * 2 ^ k + b.
Proof.
  intros Hk Hb. rewrite <- Z.shiftl_mul_pow2 by lia.
  rewrite <- Z.lxor_lor by (by apply land_shiftl_small).
  symmetry. apply Z.add_nocarry_lxor. by apply land_shiftl_small.
Qed.

Lemma PGADDR_eq d t o :
  0 <= d < 1024 -> 0 <= t < 1024 -> 0 <= o < 4096 -> PGADDR d t o = d * 2 ^ 22 + t * 2 ^ 12 + o.
Proof.
  intros. unfold PGADDR, PDXSHIFT, PTXSHIFT.
  rewrite <- Z.lor_assoc, (lor_disjoint_add t o 12) by lia.
  rewrite lor_disjoint_add by lia. rewrite u32_small by lia. lia.
Qed.

(** Directory index, table index and offset of a 32-bit virtual address
    are within their tables and [PGADDR] puts them back together. *)
Theorem va_decompose va :
  0 <= va < 2 ^ 32 ->
  0 <= PDX va < NPDENTRIES /\ 0 <= PTX va < 1024 /\
  PGADDR (PDX va) (PTX va) (va mod PGSIZE) = va.
Proof.
  intros Hva. unfold NPDENTRIES.
  assert (0 <= PDX va < 1024) by (rewrite PDX_eq; apply Z.mod_pos_bound; lia).
  assert (0 <= PTX va < 1024) by (rewrite PTX_eq; apply Z.mod_pos_bound; lia).
  repeat split; try lia.
  rewrite PGADDR_eq by (unfold PGSIZE; try apply Z.mod_pos_bound; lia).
  rewrite PDX_eq, PTX_eq. unfold PGSIZE.
  change (2 ^ 22) with 4194304. change (2 ^ 12) with 4096. zdiv.
Qed.

Lemma va_decompose_witness : PGADDR (PDX 0x8040321F) (PTX 0x8040321F) (0x8040321F mod PGSIZE) = 0x8040321F.
Proof. apply va_decompose. lia. Defined.

Lemma V2P_P2V pa : 0 <= pa < 2 ^ 32 -> V2P (P2V pa) = pa.
Proof.
  intros. unfold V2P, P2V. rewrite u32_sub_l.
  replace (pa + KERNBASE - KERNBASE) with pa by lia. by apply u32_small.
Qed.

Lemma P2V_V2P va : 0 <= va < 2 ^ 32 -> P2V (V2P va) = va.
Proof.
  intros. unfold V2P, P2V. rewrite u32_add_l.
  replace (va - KERNBASE + KERNBASE) with va by lia. by apply u32_small.
Qed.
