(* ===== verification/Kalloc.v ===== *)
(** * Physical page allocator (src/kalloc.c)

    The free list is threaded through the free pages themselves: the first
    word of a free page is [struct run]'s [next].  [kmem] therefore holds the
    byte memory, and the invariant [kinv] says that the chain starting at
    [freelist] is a given duplicate-free list of legal pages.  The
    abstract allocator is that list: [kfree] conses, [kalloc] takes the head. *)

From S2P Require Import Prelude Layout StringLib.

(** ** State and operations *)

Record kmem := mk_kmem {
  use_lock : bool;
  freelist : Z;          (* address of the first [struct run], 0 if none *)
  kram : mem             (* memory by kernel virtual address *)
}.

Section kalloc.

(** [end[]], the first address after the kernel image (kernel.ld). *)
Variable kend : Z.

Definition kfree (v : Z) (k : kmem) : res kmem :=
  if negb (v mod PGSIZE =? 0) || (v <? kend) || (PHYSTOP <=? V2P v) then Panic "kfree"
  else
    let m := memset (kram k) v 1 PGSIZE in
    let m := st32 m v (freelist k) in
    Ok (mk_kmem (use_lock k) v m).

Definition kalloc (k : kmem) : Z * kmem :=
  let r := freelist k in
  if r =? 0 then (r, k)
  else (r, mk_kmem (use_lock k) (ld32 (kram k) r) (kram k)).

(** [for(; p + PGSIZE <= vend; p += PGSIZE) kfree(p);] *)
Fixpoint freerange_loop (fuel : nat) (p vend : Z) (k : kmem) : res kmem :=
  match fuel with
  | O => Blocked
  | S f =>
      if u32 (p + PGSIZE) <=? vend then
        let* k := kfree p k in freerange_loop f (u32 (p + PGSIZE)) vend k
      else Ok k
  end.

(** The loop runs at most once per page of the 32-bit address space. *)
Definition freerange (vstart vend : Z) (k : kmem) : res kmem :=
  freerange_loop (Z.to_nat (2 ^ 20)) (PGROUNDUP vstart) vend k.

Definition kinit1 (vstart vend : Z) (k : kmem) : res kmem :=
  freerange vstart vend (mk_kmem false (freelist k) (kram k)).

Definition kinit2 (vstart vend : Z) (k : kmem) : res kmem :=
  let* k := freerange vstart vend k in
  Ok (mk_kmem true (freelist k) (kram k)).

(** ** Invariant *)

(** A page the allocator accepts. *)
Definition page_ok (v : Z) : Prop :=
  v mod PGSIZE = 0 /\ kend <= v /\ KERNBASE <= v < KERNBASE + PHYSTOP.

Fixpoint chain (m : mem) (p : Z) (l : list Z) : Prop :=
  match l with
  | [] => p = 0
  | v :: l' => p = v /\ v <> 0 /\ chain m (ld32 m v) l'
  end.

Definition kinv (k : kmem) (l : list Z) : Prop :=
  chain (kram k) (freelist k) l /\ NoDup l /\ Forall page_ok l /\ byte_mem (kram k).

Lemma page_ok_nonzero v : page_ok v -> 0 < v.
Proof. unfold page_ok, KERNBASE. lia. Qed.

Lemma page_disjoint u v : page_ok u -> page_ok v -> u <> v -> u + PGSIZE <= v \/ v + PGSIZE <= u.
Proof. unfold page_ok, PGSIZE. intros (?&_) (?&_) ?. zdiv. Qed.

Lemma chain_ext m m' p l :
  (forall v, v ∈ l -> ld32 m v = ld32 m' v) -> chain m p l -> chain m' p l.
Proof.
  revert p. induction l as [|v l IH]; intros p H; simpl; [done|].
  intros (-> & Hv & Hc). repeat split; [done|].
  rewrite <- H by set_solver. apply IH; [|done]. intros. apply H. set_solver.
Qed.

(** Stores that stay outside the free pages keep the free list. *)
Lemma kinv_frame k l m' :
  kinv k l -> byte_mem m' ->
  (forall v x, v ∈ l -> v <= x < v + PGSIZE -> m' x = kram k x) ->
  kinv (mk_kmem (use_lock k) (freelist k) m') l.
Proof.
  intros (Hc & Hn & Hp & Hb) Hb' H. split_and!; simpl; auto.
  eapply chain_ext; [|apply Hc]. intros v Hv. apply ld32_ext.
  intros x Hx. symmetry. apply (H v); [done|]. unfold PGSIZE. lia.
Qed.

Lemma kfree_guard v : page_ok v ->
  negb (v mod PGSIZE =? 0) || (v <? kend) || (PHYSTOP <=? V2P v) = false.
Proof.
  intros (Ha & Hk & Hr). unfold V2P. rewrite u32_small by (unfold KERNBASE, PHYSTOP in *; lia).
  zcases; reflexivity.
Qed.

(** The memory [kfree v] leaves. *)
Definition kfree_mem (m : mem) (v next : Z) : mem := st32 (memset m v 1 PGSIZE) v next.

Lemma kfree_mem_out m v next x : x < v \/ v + PGSIZE <= x -> kfree_mem m v next x = m x.
Proof.
  unfold kfree_mem, PGSIZE. intros.
  rewrite st32_other, memset_spec, mfill_out by lia. reflexivity.
Qed.

Lemma kfree_mem_junk m v next x : v + 4 <= x < v + PGSIZE -> kfree_mem m v next x = 1.
Proof.
  unfold kfree_mem, PGSIZE. intros.
  rewrite st32_other, memset_spec, mfill_in by lia. reflexivity.
Qed.

Lemma chain_head_range m p l : chain m p l -> Forall page_ok l -> 0 <= p < 2 ^ 32.
Proof.
  destruct l as [|v l]; simpl; [lia|]. intros (-> & _ & _) H. inversion H as [|? ? Hv]; subst.
  destruct Hv as (_ & _ & Hv). unfold KERNBASE, PHYSTOP in Hv. lia.
Qed.

Lemma kfree_push k l v :
  kinv k l -> page_ok v -> v ∉ l ->
  kfree v k = Ok (mk_kmem (use_lock k) v (kfree_mem (kram k) v (freelist k))) /\
  kinv (mk_kmem (use_lock k) v (kfree_mem (kram k) v (freelist k))) (v :: l).
Proof.
  intros (Hc & Hn & Hp & Hb) Hv Hl. split.
  { unfold kfree. rewrite kfree_guard by done. reflexivity. }
  split_and!; simpl.
  - split_and!; [done | pose proof (page_ok_nonzero v Hv); lia |].
    unfold kfree_mem. rewrite ld32_st32_same, u32_small by (eapply chain_head_range; eauto).
    eapply chain_ext; [|apply Hc]. intros u Hu.
    assert (u <> v) by (intros ->; done).
    pose proof (proj1 (Forall_forall _ _) Hp u) as Hpu.
    assert (Hd : u + PGSIZE <= v \/ v + PGSIZE <= u).
    { apply page_disjoint; auto. }
    apply ld32_ext. intros x Hx. symmetry. apply kfree_mem_out. unfold PGSIZE in *. lia.
  - by constructor.
  - by constructor.
  - apply byte_mem_st32, byte_mem_memset; [done | unfold PGSIZE; lia].
Qed.

Lemma kalloc_pop k v l :
  kinv k (v :: l) ->
  kalloc k = (v, mk_kmem (use_lock k) (ld32 (kram k) v) (kram k)) /\
  kinv (mk_kmem (use_lock k) (ld32 (kram k) v) (kram k)) l.
Proof.
  intros ((Hf & Hv & Hc) & Hn & Hp & Hb). inversion_clear Hn; inversion_clear Hp.
  unfold kalloc. rewrite Hf. destruct (Z.eqb_spec v 0); [done|].
  split; [done|]. split_and!; done.
Qed.

(** Pages [freerange] visits: [p], [p + PGSIZE], ... while a whole page fits
    before [vend]. *)
Definition range_pages (p : Z) (n : nat) : list Z :=
  map (fun i => p + PGSIZE * Z.of_nat i) (seq 0 n).

Lemma range_pages_S p n : range_pages p (S n) = p :: range_pages (p + PGSIZE) n.
Proof.
  unfold range_pages. simpl. f_equal; [lia|].
  rewrite <- seq_shift, map_map. apply map_ext. intros. lia.
Qed.

Lemma elem_range_pages p n v :
  v ∈ range_pages p n <-> exists i, (i < n)%nat /\ v = p + PGSIZE * Z.of_nat i.
Proof.
  unfold range_pages. rewrite list_elem_of_In, in_map_iff. split.
  - intros (i & <- & Hi). apply in_seq in Hi. exists i. split; [lia | done].
  - intros (i & Hi & ->). exists i. split; [done | apply in_seq; lia].
Qed.

(** A run of [n] aligned pages above the kernel image, none of them free yet,
    ends up on the free list, last page first. *)
Lemma freerange_loop_spec n fuel p vend k l :
  (n < fuel)%nat -> p mod PGSIZE = 0 -> kend <= p -> KERNBASE <= p ->
  p + PGSIZE * Z.of_nat n <= vend < p + PGSIZE * Z.of_nat n + PGSIZE ->
  vend <= KERNBASE + PHYSTOP ->
  kinv k l -> (forall v, v ∈ range_pages p n -> v ∉ l) ->
  exists k', freerange_loop fuel p vend k = Ok k' /\
             kinv k' (rev (range_pages p n) ++ l) /\ use_lock k' = use_lock k.
Proof.
  revert fuel p k l. induction n as [|n IH]; intros fuel p k l Hf Hp Hk Hb Hv Ht Hi Hd;
    (destruct fuel as [|fuel]; [lia|]); simpl freerange_loop;
    rewrite u32_small by (unfold PGSIZE, KERNBASE, PHYSTOP in *; lia).
  - destruct (Z.leb_spec (p + PGSIZE) vend); [lia|]. exists k. by split_and!.
  - destruct (Z.leb_spec (p + PGSIZE) vend); [|unfold PGSIZE in *; lia].
    assert (Hpo : page_ok p) by (unfold page_ok, PGSIZE, PHYSTOP in *; lia).
    assert (Hpl : p ∉ l).
    { apply Hd. rewrite range_pages_S. set_solver. }
    destruct (kfree_push k l p Hi Hpo Hpl) as [-> Hi']. simpl rbind.
    edestruct (IH fuel (p + PGSIZE)) as (k' & E & Hi'' & Hu); try eassumption; try lia.
    + unfold PGSIZE in *. zdiv.
    + intros v Hv'. rewrite not_elem_of_cons. split.
      * intros ->. apply elem_range_pages in Hv' as (i & _ & Ei). unfold PGSIZE in Ei. lia.
      * apply Hd. rewrite range_pages_S. set_solver.
    + exists k'. split_and!; [done| |done].
      rewrite range_pages_S. simpl. by rewrite <- app_assoc.
Qed.

(** Handing the allocator a page-rounded physical range (as [kinit1] and
    [kinit2] do) succeeds without a panic and puts exactly the whole pages of
    the range on the free list, in descending order, in front of what was
    free before. *)
Theorem freerange_frees_range vstart vend k l n :
  kend <= vstart -> KERNBASE <= vstart <= vend -> vend <= KERNBASE + PHYSTOP ->
  PGROUNDUP vstart <= vend -> n = Z.to_nat ((vend - PGROUNDUP vstart) / PGSIZE) ->
  kinv k l -> (forall v, v ∈ range_pages (PGROUNDUP vstart) n -> v ∉ l) ->
  exists k', freerange vstart vend k = Ok k' /\
             kinv k' (rev (range_pages (PGROUNDUP vstart) n) ++ l).
Proof.
  intros Hk Hb Ht Hle -> Hi Hd.
  pose proof (PGROUNDUP_spec vstart) as Hup.
  assert (Hr : 0 <= vstart <= 2 ^ 32 - PGSIZE) by (unfold PGSIZE, KERNBASE, PHYSTOP in *; lia).
  specialize (Hup Hr). set (n := Z.to_nat _) in *.
  assert (Hn : Z.of_nat n = (vend - PGROUNDUP vstart) / PGSIZE)
    by (subst n; apply Z2Nat.id, Z.div_pos; [lia | unfold PGSIZE; lia]).
  destruct (freerange_loop_spec n (Z.to_nat (2 ^ 20)) (PGROUNDUP vstart) vend k l)
    as (k' & E & Hi' & _); auto; try lia.
  - unfold PGSIZE, KERNBASE, PHYSTOP in *. zdiv.
  - rewrite Hn. unfold PGSIZE. zdiv.
  - exists k'. by split.
Qed.

(** [kfree] then [kalloc] is last-in first-out and loses nothing: from
    any reachable allocator state a legal page that is not already free can
    be freed; it becomes the next page [kalloc] returns; after that the free
    list is what it was; and the freed page's bytes past the link word are the
    junk value 1 while no byte outside the page changed. *)
Theorem kfree_kalloc_lifo k l v :
  kinv k l -> page_ok v -> v ∉ l ->
  exists k1 k2, kfree v k = Ok k1 /\ kinv k1 (v :: l) /\
    kalloc k1 = (v, k2) /\ kinv k2 l /\
    (forall x, v + 4 <= x < v + PGSIZE -> kram k2 x = 1) /\
    (forall x, x < v \/ v + PGSIZE <= x -> kram k2 x = kram k x).
Proof.
  intros Hi Hv Hl. destruct (kfree_push k l v Hi Hv Hl) as [E1 I1].
  destruct (kalloc_pop _ v l I1) as [E2 I2].
  eexists _, _. split_and!; eauto; simpl; intros x Hx.
  - by apply kfree_mem_junk.
  - by apply kfree_mem_out.
Qed.

(** [kalloc] returns 0 exactly when no page is free, and otherwise a
    legal page that is no longer on the free list: two live allocations never
    alias. *)
Theorem kalloc_fresh k l :
  kinv k l ->
  exists l', kinv (snd (kalloc k)) l' /\
    ((fst (kalloc k) = 0 /\ l = [] /\ l' = []) \/
     (page_ok (fst (kalloc k)) /\ l = fst (kalloc k) :: l' /\ fst (kalloc k) ∉ l')).
Proof.
  intros Hi. destruct l as [|v l].
  - exists []. destruct k as [u f m]; destruct Hi as (Hf & Hi). simpl in Hf. subst.
    unfold kalloc; simpl. split; [split; [done | exact Hi] | by left].
  - destruct (kalloc_pop k v l Hi) as [-> Hi']. exists l. simpl. split; [done|]. right.
    destruct Hi as (_ & Hn & Hp & _). inversion Hn; inversion Hp; subst. done.
Qed.
End kalloc.

(** ** Witnesses: two pages above a one-megabyte kernel image *)

Definition kend0 : Z := KERNLINK + 0x100000.
Definition kmem0 : kmem := mk_kmem false 0 (fun _ => 0).

Lemma kinv0 : kinv kend0 kmem0 [].
Proof. split_and!; simpl; [done | constructor | constructor | intros a; lia]. Qed.

Lemma page0_ok : page_ok kend0 kend0.
Proof. vm_compute. repeat split; congruence. Qed.

Lemma freerange_frees_range_witness :
  exists k', freerange kend0 (kend0 + 1) (kend0 + 8192) kmem0 = Ok k' /\
             kinv kend0 k' (rev (range_pages (PGROUNDUP (kend0 + 1)) 1) ++ []).
Proof.
  apply (freerange_frees_range kend0 (kend0 + 1) (kend0 + 8192) kmem0 [] 1).
  - unfold kend0. lia.
  - unfold kend0, KERNLINK, EXTMEM. lia.
  - unfold kend0, KERNLINK, EXTMEM, PHYSTOP. lia.
  - vm_compute. congruence.
  - vm_compute. reflexivity.
  - apply kinv0.
  - intros v _. apply not_elem_of_nil.
Defined.

Lemma kfree_kalloc_lifo_witness :
  exists k1 k2, kfree kend0 kend0 kmem0 = Ok k1 /\ kinv kend0 k1 [kend0] /\
    kalloc k1 = (kend0, k2) /\ kinv kend0 k2 [] /\
    (forall x, kend0 + 4 <= x < kend0 + PGSIZE -> kram k2 x = 1) /\
    (forall x, x < kend0 \/ kend0 + PGSIZE <= x -> kram k2 x = kram kmem0 x).
Proof.
  apply (kfree_kalloc_lifo kend0 kmem0 [] kend0 kinv0 page0_ok). apply not_elem_of_nil.
Defined.

Lemma kalloc_fresh_witness :
  exists l', kinv kend0 (snd (kalloc kmem0)) l' /\
    ((fst (kalloc kmem0) = 0 /\ [] = @nil Z /\ l' = []) \/
     (page_ok kend0 (fst (kalloc kmem0)) /\ [] = fst (kalloc kmem0) :: l' /\
      fst (kalloc kmem0) ∉ l')).
Proof. apply (kalloc_fresh kend0 kmem0 [] kinv0). Defined.
