(* ===== verification/Pipe.v ===== *)
(** * Pipes (src/pipe.c)

    [struct pipe] with its 512-byte ring indexed by free-running 32-bit
    counters.  [pipewrite] and [piperead] run until they finish, fail or go to
    [sleep()]; a sleeping call is resumed by calling it again on what is left.
    The abstract pipe is a queue of bytes ([contents]); the detailed ring is
    shown to implement it, across wrap-around of the counters, and the
    sleep/wakeup protocol of several readers and writers is a step relation. *)

From S2P Require Import Prelude Layout.

(** ** Data and operations *)

Definition PIPESIZE : Z := 512.

Record pipe := mk_pipe {
  data : mem;
  nread : Z;       (* number of bytes read, 32 bits *)
  nwrite : Z;      (* number of bytes written, 32 bits *)
  readopen : bool;
  writeopen : bool
}.

(** Channels the code sleeps on: [&p->nread] and [&p->nwrite]. *)
Inductive chan := CNread | CNwrite.

Inductive wres :=
| WDone                      (* returns n *)
| WErr                       (* returns -1 *)
| WSleep (rest : list Z).    (* asleep on &nwrite with [rest] still to write *)

Inductive rres :=
| RDone (bytes : list Z)     (* returns the number of bytes *)
| RErr
| RSleep.                    (* asleep on &nread *)

(** [p->data[p->nwrite++ % PIPESIZE] = c] *)
Definition pipe_put (p : pipe) (c : Z) : pipe :=
  mk_pipe (mset (data p) (nwrite p mod PIPESIZE) c) (nread p) (u32 (nwrite p + 1))
    (readopen p) (writeopen p).

(** The pipe, the result and the channels woken, in order. *)
Fixpoint pipewrite (p : pipe) (l : list Z) (killed : bool) : pipe * wres * list chan :=
  match l with
  | [] => (p, WDone, [CNread])
  | c :: l' =>
      if nwrite p =? u32 (nread p + PIPESIZE) then
        if negb (readopen p) || killed then (p, WErr, [])
        else (p, WSleep l, [CNread])
      else pipewrite (pipe_put p c) l' killed
  end.

(** [addr[i] = p->data[p->nread++ % PIPESIZE]], at most [n] times. *)
Fixpoint pipe_copyout (p : pipe) (n : nat) : pipe * list Z :=
  match n with
  | O => (p, [])
  | S n' =>
      if nread p =? nwrite p then (p, [])
      else
        let c := data p (nread p mod PIPESIZE) in
        let p := mk_pipe (data p) (u32 (nread p + 1)) (nwrite p) (readopen p) (writeopen p) in
        let '(p, out) := pipe_copyout p n' in
        (p, c :: out)
  end.

Definition piperead (p : pipe) (n : Z) (killed : bool) : pipe * rres * list chan :=
  if (nread p =? nwrite p) && writeopen p then
    if killed then (p, RErr, []) else (p, RSleep, [])
  else
    let '(p, out) := pipe_copyout p (Z.to_nat n) in
    (p, RDone out, [CNwrite]).

(** The pipe after a close, the channel woken, and whether its page is freed. *)
Definition pipeclose (p : pipe) (writable : bool) : pipe * list chan * bool :=
  let '(p, w) :=
    if writable then (mk_pipe (data p) (nread p) (nwrite p) (readopen p) false, [CNread])
    else (mk_pipe (data p) (nread p) (nwrite p) false (writeopen p), [CNwrite]) in
  (p, w, negb (readopen p) && negb (writeopen p)).

(** What [pipealloc] stores in the new pipe (its page is not cleared). *)
Definition pipe_init (junk : mem) : pipe := mk_pipe junk 0 0 true true.

(** ** The abstract queue *)

(** Bytes in the ring. *)
Definition count (p : pipe) : Z := u32 (nwrite p - nread p).

Definition contents (p : pipe) : list Z :=
  map (fun i => data p ((nread p + Z.of_nat i) mod PIPESIZE)) (seq 0 (Z.to_nat (count p))).

Definition pipe_ok (p : pipe) : Prop :=
  0 <= nread p < 2 ^ 32 /\ 0 <= nwrite p < 2 ^ 32 /\ count p <= PIPESIZE.

Definition pipe_opened (p p' : pipe) : Prop :=
  readopen p' = readopen p /\ writeopen p' = writeopen p.

#[global] Instance pipe_opened_preorder : PreOrder pipe_opened.
Proof. split; [done|]. intros p q r (? & ?) (? & ?). split; congruence. Qed.

(** ** Ring lemmas *)

Lemma count_range p : 0 <= count p < 2 ^ 32.
Proof. apply u32_range. Qed.

Lemma length_contents p : length (contents p) = Z.to_nat (count p).
Proof. unfold contents. by rewrite length_map, length_seq. Qed.

Lemma pipe_empty_iff p : pipe_ok p -> nread p = nwrite p <-> count p = 0.
Proof.
  unfold count. intros (Hr & Hw & _). split.
  - intros ->. rewrite Z.sub_diag. reflexivity.
  - unfold u32. change (2 ^ 32) with 4294967296 in *. zdiv.
Qed.

Lemma pipe_full_iff p : pipe_ok p -> nwrite p = u32 (nread p + PIPESIZE) <-> count p = PIPESIZE.
Proof.
  unfold count, PIPESIZE. intros (Hr & Hw & Hc). unfold count, PIPESIZE in Hc.
  unfold u32 in *. change (2 ^ 32) with 4294967296 in *. split; zdiv.
Qed.

Lemma contents_nil p : contents p = [] <-> count p = 0.
Proof.
  pose proof (count_range p). rewrite <- length_zero_iff_nil, length_contents. lia.
Qed.

Lemma u32_mod_512 z : u32 z mod 512 = z mod 512.
Proof. change 512 with (2 ^ 9). apply u32_mod_pow2. lia. Qed.

Lemma put_spec p c :
  pipe_ok p -> count p < PIPESIZE ->
  pipe_ok (pipe_put p c) /\ contents (pipe_put p c) = contents p ++ [c] /\
  count (pipe_put p c) = count p + 1.
Proof.
  intros (Hr & Hw & Hc) Hlt.
  assert (Hn : count (pipe_put p c) = count p + 1).
  { unfold count, pipe_put; simpl. rewrite u32_sub_l.
    replace (nwrite p + 1 - nread p) with (nwrite p - nread p + 1) by lia.
    rewrite <- u32_add_l. fold (count p).
    apply u32_small. pose proof (count_range p). unfold PIPESIZE in *. lia. }
  split; [unfold pipe_ok; rewrite Hn; simpl; pose proof (u32_range (nwrite p + 1));
          unfold PIPESIZE in *; lia|].
  split; [|done].
  unfold contents. rewrite Hn. pose proof (count_range p) as Hcr.
  replace (Z.to_nat (count p + 1)) with (Z.to_nat (count p) + 1)%nat by lia.
  rewrite seq_app, map_app. simpl. f_equal.
  - apply map_ext_in. intros i Hi. apply in_seq in Hi. apply mset_ne.
    assert (Hs : (nwrite p - (nread p + Z.of_nat i)) mod 512 <> 0).
    { assert (E : nwrite p - (nread p + Z.of_nat i) = count p - Z.of_nat i \/
                  nwrite p - (nread p + Z.of_nat i) = count p - Z.of_nat i - 2 ^ 32).
      { unfold count, u32 in *. change (2 ^ 32) with 4294967296 in *. zdiv. }
      unfold PIPESIZE in *. change (2 ^ 32) with 4294967296 in E. zdiv. }
    unfold PIPESIZE. intros E. apply Hs.
    rewrite Zminus_mod, <- E, Z.sub_diag. reflexivity.
  - f_equal. rewrite Z2Nat.id by lia.
    assert (E : (nread p + count p) mod PIPESIZE = nwrite p mod PIPESIZE).
    { unfold count, PIPESIZE. rewrite <- u32_mod_512, u32_add_r, u32_mod_512. f_equal. lia. }
    rewrite E. apply mset_eq.
Qed.

(** Removing the head byte. *)
Definition pipe_get (p : pipe) : pipe :=
  mk_pipe (data p) (u32 (nread p + 1)) (nwrite p) (readopen p) (writeopen p).

Lemma get_spec p :
  pipe_ok p -> 0 < count p ->
  pipe_ok (pipe_get p) /\ contents p = data p (nread p mod PIPESIZE) :: contents (pipe_get p) /\
  count (pipe_get p) = count p - 1.
Proof.
  intros (Hr & Hw & Hc) Hlt.
  assert (Hn : count (pipe_get p) = count p - 1).
  { unfold count, pipe_get; simpl. rewrite u32_sub_r.
    replace (nwrite p - (nread p + 1)) with (nwrite p - nread p - 1) by lia.
    rewrite <- u32_sub_l. fold (count p). apply u32_small. pose proof (count_range p). lia. }
  split; [unfold pipe_ok; rewrite Hn; simpl; pose proof (u32_range (nread p + 1));
          unfold PIPESIZE in *; lia|].
  split; [|done].
  unfold contents. rewrite Hn.
  replace (Z.to_nat (count p)) with (S (Z.to_nat (count p - 1))) by lia.
  simpl. f_equal; [do 2 f_equal; lia|].
  rewrite <- seq_shift, map_map. apply map_ext. intros i. f_equal. simpl.
  unfold PIPESIZE. rewrite (Zplus_mod (u32 _)), u32_mod_512, <- Zplus_mod. f_equal. lia.
Qed.

(** ** The operations implement the queue *)

Lemma pipewrite_spec l : forall p killed p' r w,
  pipe_ok p -> pipewrite p l killed = (p', r, w) ->
  exists done rest, l = done ++ rest /\ pipe_ok p' /\ pipe_opened p p' /\
    contents p' = contents p ++ done /\
    match r with
    | WDone => rest = [] /\ w = [CNread]
    | WErr => count p' = PIPESIZE /\ (readopen p = false \/ killed = true) /\ w = []
    | WSleep l' => l' = rest /\ rest <> [] /\ count p' = PIPESIZE /\
                   readopen p = true /\ killed = false /\ w = [CNread]
    end.
Proof.
  induction l as [|c l IH]; intros p killed p' r w Hp E; simpl in E.
  - inversion E; subst. exists [], []. rewrite !app_nil_r. split_and!; done.
  - destruct (Z.eqb_spec (nwrite p) (u32 (nread p + PIPESIZE))) as [Hf|Hf].
    + apply (pipe_full_iff p Hp) in Hf.
      destruct (negb (readopen p) || killed) eqn:Ek; inversion E; subst;
        exists [], (c :: l); rewrite !app_nil_r; split_and!; try done.
      * apply orb_true_iff in Ek as [Ek|Ek]; [left | by right].
        by apply negb_true_iff in Ek.
      * apply orb_false_iff in Ek as [Ek _]. by apply negb_false_iff in Ek.
      * by apply orb_false_iff in Ek as [_ ->].
    + assert (count p < PIPESIZE).
      { assert (count p <> PIPESIZE) by (rewrite <- (pipe_full_iff p Hp); done).
        destruct Hp as (_ & _ & ?). lia. }
      destruct (put_spec p c Hp H) as (Hp1 & Hc1 & _).
      destruct (IH _ _ _ _ _ Hp1 E) as (done & rest & -> & Hp' & Ho & Hc & Hr).
      exists (c :: done), rest. split_and!; try done.
      rewrite Hc, Hc1, <- app_assoc. reflexivity.
Qed.

Lemma pipe_copyout_spec n : forall p p' out,
  pipe_ok p -> pipe_copyout p n = (p', out) ->
  pipe_ok p' /\ pipe_opened p p' /\ contents p = out ++ contents p' /\
  out = take n (contents p).
Proof.
  induction n as [|n IH]; intros p p' out Hp E; simpl in E.
  - inversion E; subst. by split_and!.
  - destruct (Z.eqb_spec (nread p) (nwrite p)) as [He|He].
    + inversion E; subst. apply (pipe_empty_iff p' Hp), contents_nil in He.
      rewrite He. by split_and!.
    + assert (Hpos : 0 < count p).
      { pose proof (count_range p). rewrite (pipe_empty_iff p Hp) in He. lia. }
      destruct (get_spec p Hp Hpos) as (Hp1 & Hc1 & _).
      fold (pipe_get p) in E. destruct (pipe_copyout (pipe_get p) n) as [q o] eqn:Eq.
      inversion E; subst. destruct (IH _ _ _ Hp1 Eq) as (Hq & Ho & Hc & Ht).
      rewrite Hc1. split_and!; try done; simpl; congruence.
Qed.

Lemma piperead_spec p n killed p' r w :
  pipe_ok p -> piperead p n killed = (p', r, w) ->
  pipe_ok p' /\ pipe_opened p p' /\
  match r with
  | RDone out => contents p = out ++ contents p' /\ out = take (Z.to_nat n) (contents p) /\
                 w = [CNwrite] /\ (count p <> 0 \/ writeopen p = false)
  | RErr => p' = p /\ count p = 0 /\ writeopen p = true /\ killed = true /\ w = []
  | RSleep => p' = p /\ count p = 0 /\ writeopen p = true /\ killed = false /\ w = []
  end.
Proof.
  intros Hp E. unfold piperead in E.
  destruct (Z.eqb_spec (nread p) (nwrite p)) as [He|He]; simpl in E.
  - apply (pipe_empty_iff p Hp) in He as Hc0.
    destruct (writeopen p) eqn:Ew.
    + destruct killed; inversion E; subst; by split_and!.
    + destruct (pipe_copyout p (Z.to_nat n)) as [q o] eqn:Eq. inversion E; subst.
      destruct (pipe_copyout_spec _ _ _ _ Hp Eq) as (? & ? & ? & ?). split_and!; auto.
  - rewrite (pipe_empty_iff p Hp) in He.
    destruct (pipe_copyout p (Z.to_nat n)) as [q o] eqn:Eq. inversion E; subst.
    destruct (pipe_copyout_spec _ _ _ _ Hp Eq) as (? & ? & ? & ?). split_and!; auto.
Qed.

(** ** Several readers and writers

    A call of write() is in one of three states: asleep on [&p->nwrite] with
    bytes still to write, made runnable again by a wakeup or kill(), or
    returned, with n or with -1.  [calls] lists the calls made so far with the
    bytes each was given; [sr] counts the readers asleep on [&p->nread].  Each
    call runs under [p->lock] from its start (or its return from [sleep()]) to
    its end or its next [sleep()], so a step is one such run, and a call that is
    resumed goes on with the bytes it had left.  A process in a call holds its
    end of the pipe open, so that end is not closed.

    The history [sent] has the bytes of each run taken from what the call was
    given, with the number of the call: all of them when it returns n, those
    before the rest when it goes to sleep, and when it returns -1, which does
    not say how far it came, as many as the ring grew by. *)

Inductive wstate := WAsleep (rest : list Z) | WReady (rest : list Z) | WReturned (ok : bool).

Record wcall := mk_call { given : list Z; wst : wstate }.

Record psys := mk_psys { sp : pipe; sr : nat; calls : list wcall; sent : list (nat * Z); recvd : list Z }.

Definition woken (c : chan) (w : list chan) : bool :=
  existsb (fun x => match c, x with CNread, CNread => true | CNwrite, CNwrite => true | _, _ => false end) w.

Definition wake (c : chan) (w : list chan) (n : nat) : nat := if woken c w then O else n.

Definition wake_call (c : wcall) : wcall :=
  match wst c with WAsleep rest => mk_call (given c) (WReady rest) | _ => c end.

Definition wake_calls (w : list chan) (cs : list wcall) : list wcall := if woken CNwrite w then map wake_call cs else cs.

Definition asleep (c : wcall) : bool := match wst c with WAsleep _ => true | _ => false end.
Definition returned (c : wcall) : bool := match wst c with WReturned _ => true | _ => false end.

(** The writers asleep on [&p->nwrite]. *)
Definition sw (s : psys) : nat := length (List.filter asleep (calls s)).

Definition rres_bytes (r : rres) : list Z := match r with RDone out => out | _ => [] end.

Definition wres_state (r : wres) : wstate :=
  match r with WDone => WReturned true | WErr => WReturned false | WSleep rest => WAsleep rest end.

(** The bytes of [l] that a run of [pipewrite] from [p] to [p'] took. *)
Definition accepted (l : list Z) (r : wres) (p p' : pipe) : list Z :=
  match r with
  | WDone => l
  | WSleep rest => take (length l - length rest) l
  | WErr => take (length (contents p') - length (contents p)) l
  end.

(** A run of call number [i]; [cs] has the calls before it. *)
Definition write_run (s : psys) (cs : list wcall) (i : nat) (l : list Z) (r : wres) (p' : pipe) (w : list chan) : psys :=
  mk_psys p' (wake CNread w (sr s)) cs (sent s ++ map (pair i) (accepted l r (sp s) p')) (recvd s).

(** [kw]: whether a writer may run with its [killed] flag set. *)
Inductive pstep (kw : bool) : psys -> psys -> Prop :=
| pstep_write s l killed p' r w :
    writeopen (sp s) = true -> (killed = true -> kw = true) ->
    pipewrite (sp s) l killed = (p', r, w) ->
    pstep kw s (write_run s (wake_calls w (calls s) ++ [mk_call l (wres_state r)]) (length (calls s)) l r p' w)
| pstep_resume s i g l killed p' r w :
    calls s !! i = Some (mk_call g (WReady l)) -> (killed = true -> kw = true) ->
    pipewrite (sp s) l killed = (p', r, w) ->
    pstep kw s (write_run s (<[i := mk_call g (wres_state r)]> (wake_calls w (calls s))) i l r p' w)
| pstep_read s n killed p' r w :
    readopen (sp s) = true ->
    piperead (sp s) n killed = (p', r, w) ->
    pstep kw s (mk_psys p' (wake CNread w (sr s) + match r with RSleep => 1 | _ => 0 end)
                  (wake_calls w (calls s)) (sent s) (recvd s ++ rres_bytes r))
| pstep_close s (writable : bool) p' w freed :
    (if writable then forallb returned (calls s) = true else sr s = 0%nat) ->
    pipeclose (sp s) writable = (p', w, freed) ->
    pstep kw s (mk_psys p' (wake CNread w (sr s)) (wake_calls w (calls s)) (sent s) (recvd s))
| pstep_kill_reader s n :     (* kill() makes one sleeper runnable *)
    sr s = S n -> pstep kw s (mk_psys (sp s) n (calls s) (sent s) (recvd s))
| pstep_kill_writer s i g l :
    calls s !! i = Some (mk_call g (WAsleep l)) ->
    pstep kw s (mk_psys (sp s) (sr s) (<[i := mk_call g (WReady l)]> (calls s)) (sent s) (recvd s)).

Definition psys_init (junk : mem) : psys := mk_psys (pipe_init junk) 0 [] [] [].

(** *** The stream *)

(** The bytes call [i] has put into the pipe. *)
Definition bytes_of (i : nat) (h : list (nat * Z)) : list Z := snd <$> filter (fun x => x.1 = i) h.

(** What is in the pipe of the bytes a call was given. *)
Definition call_ok (bs : list Z) (c : wcall) : Prop :=
  match wst c with
  | WAsleep rest | WReady rest => given c = bs ++ rest
  | WReturned true => given c = bs
  | WReturned false => bs `prefix_of` given c
  end.

Definition stream_inv (s : psys) : Prop :=
  pipe_ok (sp s) /\ map snd (sent s) = recvd s ++ contents (sp s) /\
  Forall (fun x => x.1 < length (calls s))%nat (sent s) /\
  forall i c, calls s !! i = Some c -> call_ok (bytes_of i (sent s)) c.

Definition sleep_inv (s : psys) : Prop :=
  ((0 < sr s)%nat -> count (sp s) = 0 /\ writeopen (sp s) = true /\ readopen (sp s) = true) /\
  ((0 < sw s)%nat -> count (sp s) = PIPESIZE /\ readopen (sp s) = true).

Lemma bytes_of_app i h h' : bytes_of i (h ++ h') = bytes_of i h ++ bytes_of i h'.
Proof. unfold bytes_of. by rewrite filter_app, fmap_app. Qed.

Lemma bytes_of_run i j bs : bytes_of i (map (pair j) bs) = if decide (j = i) then bs else [].
Proof.
  unfold bytes_of. induction bs as [|b bs IH]; [by case_decide|]. cbn [map]. rewrite filter_cons. cbn [fst].
  destruct (decide (j = i)) as [E|E]; [|done]. cbn [fmap list_fmap snd]. by rewrite IH.
Qed.

Lemma bytes_of_new i h : Forall (fun x : nat * Z => x.1 < i)%nat h -> bytes_of i h = [].
Proof.
  unfold bytes_of. induction 1 as [|x h Hx _ IH]; [done|]. rewrite filter_cons. destruct (decide (x.1 = i)); [lia | done].
Qed.

Lemma call_ok_wake bs c : call_ok bs (wake_call c) <-> call_ok bs c.
Proof. unfold call_ok, wake_call. by destruct (wst c) eqn:E; cbn [wst given]; rewrite ?E. Qed.

Lemma length_wake_calls w cs : length (wake_calls w cs) = length cs.
Proof. unfold wake_calls. destruct (woken _ _); [apply length_map | done]. Qed.

Lemma wake_calls_ok w cs (f : nat -> list Z) :
  (forall i c, cs !! i = Some c -> call_ok (f i) c) -> forall i c, wake_calls w cs !! i = Some c -> call_ok (f i) c.
Proof.
  intros H i c. unfold wake_calls. destruct (woken _ _); [|apply H]. rewrite list_lookup_fmap.
  destruct (cs !! i) as [x|] eqn:E; [|done]. intros [= <-]. by apply call_ok_wake, H.
Qed.

Lemma contents_close p writable p' w f :
  pipeclose p writable = (p', w, f) ->
  contents p' = contents p /\ count p' = count p /\ (pipe_ok p -> pipe_ok p').
Proof. unfold pipeclose. destruct writable; intros E; inversion E; subst; done. Qed.

(** A run takes its bytes off the front of what it was given, and they are what
    the ring grew by. *)
Lemma pipewrite_accepts p l killed p' r w : pipe_ok p -> pipewrite p l killed = (p', r, w) ->
  contents p' = contents p ++ accepted l r p p' /\ forall bs, call_ok (bs ++ accepted l r p p') (mk_call (bs ++ l) (wres_state r)).
Proof.
  intros Hp E. destruct (pipewrite_spec _ _ _ _ _ _ Hp E) as (done & rest & -> & _ & _ & Hc & H).
  assert (Ha : accepted (done ++ rest) r p p' = done).
  { destruct r; cbn [accepted].
    - destruct H as [-> _]. by rewrite app_nil_r.
    - by rewrite Hc, length_app, Nat.add_comm, Nat.add_sub, take_app_length.
    - destruct H as (-> & _). by rewrite length_app, Nat.add_sub, take_app_length. }
  rewrite Ha. split; [done|]. intros bs. unfold call_ok. cbn [wst given]. destruct r; cbn [wres_state].
  - destruct H as [-> _]. by rewrite app_nil_r.
  - exists rest. by rewrite app_assoc.
  - destruct H as (-> & _). by rewrite app_assoc.
Qed.

(** A run of call [i], new or resumed. *)
Lemma stream_run s cs i l r p' w killed g bs : stream_inv s -> pipewrite (sp s) l killed = (p', r, w) ->
  g = bs ++ l -> bytes_of i (sent s) = bs -> (length (calls s) <= length cs)%nat -> (i < length cs)%nat ->
  cs !! i = Some (mk_call g (wres_state r)) -> (forall j c, j <> i -> cs !! j = Some c -> wake_calls w (calls s) !! j = Some c) ->
  stream_inv (write_run s cs i l r p' w).
Proof.
  intros (Hp & Hs & Hf & Hc) E -> Hb Hlen Hi Hat Hother. destruct (pipewrite_accepts _ _ _ _ _ _ Hp E) as [Ha Hok].
  destruct (pipewrite_spec _ _ _ _ _ _ Hp E) as (_ & _ & _ & Hp' & _). unfold stream_inv, write_run. cbn [sp sent recvd calls]. split_and!.
  - done.
  - rewrite map_app, Hs, Ha, map_map, map_id. by rewrite app_assoc.
  - apply Forall_app. split; [eapply Forall_impl; [exact Hf|]; intros x Hx; cbv beta in *; lia|]. apply Forall_forall. intros x Hx%list_elem_of_In. apply in_map_iff in Hx as (y & <- & _). exact Hi.
  - intros j c Hj. rewrite bytes_of_app, bytes_of_run. destruct (decide (i = j)) as [<-|Hne].
    + rewrite Hat in Hj. injection Hj as <-. rewrite Hb. apply Hok.
    + rewrite app_nil_r. apply (wake_calls_ok w (calls s) (fun j => bytes_of j (sent s)) Hc). by apply Hother.
Qed.

Lemma stream_step kw s s' : pstep kw s s' -> stream_inv s -> stream_inv s'.
Proof.
  intros Hs Hinv. pose proof Hinv as (Hp & Hst & Hf & Hc).
  destruct Hs as [s l killed p' r w _ _ E|s i g l killed p' r w Hi _ E|s n killed p' r w _ E|s wr p' w f _ E|s n E|s i g l E].
  - eapply (stream_run s _ _ l r p' w killed l []); [done | exact E | done | by apply bytes_of_new | | | |]; rewrite ?length_app, ?length_wake_calls; cbn [length]; try lia.
    + rewrite lookup_app_r, length_wake_calls, Nat.sub_diag by (by rewrite length_wake_calls). done.
    + intros j c Hne Hj. pose proof (lookup_lt_Some _ _ _ Hj) as Hlt. rewrite length_app, length_wake_calls in Hlt. cbn [length] in Hlt.
      by rewrite lookup_app_l in Hj by (rewrite length_wake_calls; lia).
  - pose proof (lookup_lt_Some _ _ _ Hi) as Hlt. eapply (stream_run s _ i l r p' w killed g); [done | exact E | | reflexivity | | | |]; rewrite ?length_insert, ?length_wake_calls; try done.
    + exact (Hc i _ Hi).
    + by rewrite list_lookup_insert_eq by (by rewrite length_wake_calls).
    + intros j c Hne. by rewrite list_lookup_insert_ne.
  - destruct (piperead_spec _ _ _ _ _ _ Hp E) as (Hp' & _ & Hr). split_and!; cbn [sp sent recvd calls]; [done | | by rewrite length_wake_calls | exact (wake_calls_ok w (calls s) (fun j => bytes_of j (sent s)) Hc)].
    rewrite Hst, <- app_assoc. f_equal. destruct r; simpl; [by destruct Hr as [-> _] | destruct Hr as [-> _] ..]; done.
  - destruct (contents_close _ _ _ _ _ E) as (Hcc & _ & Hok). split_and!; cbn [sp sent recvd calls]; [auto | by rewrite Hcc | by rewrite length_wake_calls | exact (wake_calls_ok w (calls s) (fun j => bytes_of j (sent s)) Hc)].
  - done.
  - split_and!; cbn [sp sent recvd calls]; [done | done | by rewrite length_insert |]. intros j c Hj. destruct (decide (j = i)) as [->|Hne].
    + rewrite list_lookup_insert_eq in Hj by (by eapply lookup_lt_Some). injection Hj as <-. exact (Hc i _ E).
    + rewrite list_lookup_insert_ne in Hj by done. by apply Hc.
Qed.

(** *** Sleeping and waking *)

Lemma asleep_app cs c : length (List.filter asleep (cs ++ [c])) = (length (List.filter asleep cs) + Nat.b2n (asleep c))%nat.
Proof. rewrite List.filter_app, length_app. cbn [List.filter]. by destruct (asleep c). Qed.

Lemma asleep_insert cs i c x : cs !! i = Some x ->
  (length (List.filter asleep (<[i := c]> cs)) + Nat.b2n (asleep x) = length (List.filter asleep cs) + Nat.b2n (asleep c))%nat.
Proof.
  revert i. induction cs as [|y cs IH]; intros [|i] E; try done.
  - injection E as ->. cbn [insert list_insert List.filter]. destruct (asleep c), (asleep x); cbn [length Nat.b2n]; lia.
  - change (<[S i := c]> (y :: cs)) with (y :: <[i := c]> cs). cbn [List.filter]. specialize (IH i E). destruct (asleep y); cbn [length]; lia.
Qed.

Lemma asleep_wake w cs : length (List.filter asleep (wake_calls w cs)) = wake CNwrite w (length (List.filter asleep cs)).
Proof.
  unfold wake_calls, wake. destruct (woken CNwrite w); [|done]. induction cs as [|c cs IH]; [done|]. cbn [map List.filter].
  assert (E : asleep (wake_call c) = false) by (unfold asleep, wake_call; by destruct (wst c) eqn:Ec; cbn [wst]; rewrite ?Ec). by rewrite E.
Qed.

Lemma wake_calls_ready w cs i g l : cs !! i = Some (mk_call g (WReady l)) -> wake_calls w cs !! i = Some (mk_call g (WReady l)).
Proof. intros E. unfold wake_calls. destruct (woken _ _); [|done]. by rewrite list_lookup_fmap, E. Qed.

(** After a run the writers asleep are the ones before, and the caller if it
    went to sleep. *)
Lemma sleep_write s cs i l p' r w :
  stream_inv s -> sleep_inv s -> pipewrite (sp s) l false = (p', r, w) ->
  length (List.filter asleep cs) = (wake CNwrite w (sw s) + match r with WSleep _ => 1 | _ => 0 end)%nat ->
  sleep_inv (write_run s cs i l r p' w).
Proof.
  intros (Hp & _) (Hr & Hw) E Hn.
  destruct (pipewrite_spec _ _ _ _ _ _ Hp E) as (done & rest & Hl & Hp' & (Hro & Hwo) & Hc & H).
  assert (Hfull : count (sp s) = PIPESIZE -> count p' = PIPESIZE).
  { intros Hf. apply (f_equal length) in Hc. rewrite length_app, !length_contents in Hc.
    pose proof (count_range p'). destruct Hp' as (_ & _ & ?). unfold PIPESIZE in *. lia. }
  unfold sleep_inv, write_run. unfold sw at 1. cbn [sp sr calls]. rewrite Hn. clear Hn. unfold wake, woken. destruct r; simpl in H.
  - destruct H as (-> & ->). simpl. split; [lia|]. intros Hsw.
    destruct (Hw ltac:(lia)). split; [auto | congruence].
  - destruct H as (_ & [?|?] & ->); [|done]. simpl. split; intros Hs.
    + destruct (Hr Hs) as (_ & _ & ?). congruence.
    + destruct (Hw ltac:(lia)). congruence.
  - destruct H as (_ & _ & ? & ? & _ & ->). simpl. split; [lia|]. intros _. split; congruence.
Qed.

Lemma sleep_read s n killed p' r w :
  stream_inv s -> sleep_inv s -> readopen (sp s) = true -> piperead (sp s) n killed = (p', r, w) ->
  sleep_inv (mk_psys p' (wake CNread w (sr s) + match r with RSleep => 1 | _ => 0 end)
               (wake_calls w (calls s)) (sent s) (recvd s ++ rres_bytes r)).
Proof.
  intros (Hp & _) (Hr & Hw) Ho E.
  destruct (piperead_spec _ _ _ _ _ _ Hp E) as (Hp' & (Hro & Hwo) & H).
  unfold sleep_inv. unfold sw at 1. cbn [sp sr calls]. rewrite asleep_wake. fold (sw s). unfold wake, woken. destruct r.
  - destruct H as (_ & _ & -> & [Hc|Hc]); simpl; (split; [|lia]); intros Hs;
      destruct (Hr ltac:(lia)) as (? & ? & ?); congruence.
  - destruct H as (-> & _ & _ & _ & ->). simpl. rewrite Nat.add_0_r. by split.
  - destruct H as (-> & ? & ? & _ & ->). simpl. by split.
Qed.

Lemma returned_awake cs : forallb returned cs = true -> length (List.filter asleep cs) = 0%nat.
Proof.
  induction cs as [|c cs IH]; [done|]. cbn [forallb List.filter]. intros [Hc H]%andb_prop. unfold returned in Hc. unfold asleep at 1. destruct (wst c); [done.. | by apply IH].
Qed.

Lemma sleep_close s (writable : bool) p' w f : sleep_inv s -> (if writable then forallb returned (calls s) = true else sr s = 0%nat) ->
  pipeclose (sp s) writable = (p', w, f) -> sleep_inv (mk_psys p' (wake CNread w (sr s)) (wake_calls w (calls s)) (sent s) (recvd s)).
Proof.
  intros (Hr & Hw) Hn E. unfold sleep_inv. unfold sw at 1. cbn [sp sr calls]. rewrite asleep_wake. fold (sw s). unfold pipeclose in E.
  destruct writable; inversion E; subst; unfold wake, woken; simpl.
  - split; [intros; lia|]. unfold sw. rewrite (returned_awake _ Hn). intros; lia.
  - split; intros; lia.
Qed.

Lemma sleep_step s s' : pstep false s s' -> stream_inv s -> sleep_inv s -> sleep_inv s'.
Proof.
  intros Hs Hst Hsl.
  destruct Hs as [s l killed p' r w _ Hk E|s i g l killed p' r w Hi Hk E|s n killed p' r w Ho E|s wr p' w f Hn E|s n E|s i g l E].
  - destruct killed; [by specialize (Hk eq_refl)|]. eapply sleep_write; [done | done | exact E|]. rewrite asleep_app, asleep_wake. by destruct r.
  - destruct killed; [by specialize (Hk eq_refl)|]. eapply sleep_write; [done | done | exact E|].
    pose proof (asleep_insert _ i (mk_call g (wres_state r)) _ (wake_calls_ready w _ _ _ _ Hi)) as H. rewrite asleep_wake in H. fold (sw s) in H. destruct r; cbn in H |- *; lia.
  - by eapply sleep_read.
  - by eapply sleep_close.
  - destruct Hsl as (Hr & Hw). split; simpl; [intros; apply Hr; lia | done].
  - destruct Hsl as (Hr & Hw). split; [done|]. pose proof (asleep_insert _ i (mk_call g (WReady l)) _ E) as H. unfold sw at 1. cbn [calls sp] in *. cbn in H. intros; apply Hw; unfold sw; lia.
Qed.

Lemma psys_init_inv junk : stream_inv (psys_init junk) /\ sleep_inv (psys_init junk).
Proof.
  split; [split_and!; [vm_compute; intuition congruence | reflexivity | constructor | done] | split; intros H; cbn in H; lia].
Qed.

(** C11: a pipe is a FIFO.  Whatever the interleaving of writers, readers, closes
    and kills, the bytes read from a pipe followed by the bytes still in its
    ring are exactly the bytes that were written into it, in order, also when
    the 32-bit counters wrap; and the ring never holds more than [PIPESIZE]
    bytes.  Of each call of write() the pipe has got, in order, all the bytes it
    was given if it returned n, all but the ones it still has to write if it is
    asleep or has been woken, and some first part of them if it returned -1. *)
Theorem pipe_stream_fifo kw junk s :
  rtc (pstep kw) (psys_init junk) s ->
  map snd (sent s) = recvd s ++ contents (sp s) /\ 0 <= count (sp s) <= PIPESIZE /\
  forall i c, calls s !! i = Some c ->
    match wst c with
    | WAsleep rest | WReady rest => given c = bytes_of i (sent s) ++ rest
    | WReturned true => given c = bytes_of i (sent s)
    | WReturned false => bytes_of i (sent s) `prefix_of` given c
    end.
Proof.
  intros H. assert (Hinv : stream_inv s).
  { revert H. generalize (proj1 (psys_init_inv junk)). generalize (psys_init junk).
    intros s0 H0 Hs. induction Hs; eauto using stream_step. }
  destruct Hinv as (Hp & He & _ & Hc). split; [done|]. split; [|done].
  pose proof (count_range (sp s)). destruct Hp as (_ & _ & ?). lia.
Qed.

Lemma rtc_sleep_inv s s' :
  rtc (pstep false) s s' -> stream_inv s -> sleep_inv s -> stream_inv s' /\ sleep_inv s'.
Proof. induction 1; eauto using stream_step, sleep_step. Qed.

(** C32: as long as no writer runs with its [killed] flag set, no wakeup is
    lost: a reader is asleep only while the ring is empty and the write end is
    open, a writer only while the ring is full and the read end is open; so
    readers and writers are never asleep at the same time. *)
Theorem pipe_no_lost_wakeup junk s :
  rtc (pstep false) (psys_init junk) s ->
  ((0 < sr s)%nat -> contents (sp s) = [] /\ writeopen (sp s) = true) /\
  ((0 < sw s)%nat -> count (sp s) = PIPESIZE /\ readopen (sp s) = true) /\
  ~ ((0 < sr s)%nat /\ (0 < sw s)%nat).
Proof.
  intros H. destruct (psys_init_inv junk) as [Hi1 Hi2].
  destruct (rtc_sleep_inv _ _ H Hi1 Hi2) as [_ (Hr & Hw)].
  split_and!; [|done|].
  - intros Hs. destruct (Hr Hs) as (? & ? & _). by rewrite contents_nil.
  - intros [H1 H2]. destruct (Hr H1) as (? & _), (Hw H2) as (? & _).
    unfold PIPESIZE in *. congruence.
Qed.

(** With a killed writer a wakeup is lost: [pipewrite] fills the ring and
    returns -1 at the full test without waking the readers, so a reader that
    was already asleep stays asleep with a full ring in front of it. *)
Theorem pipe_killed_writer_strands_reader junk :
  exists s, rtc (pstep true) (psys_init junk) s /\
            (0 < sr s)%nat /\ count (sp s) = PIPESIZE /\ writeopen (sp s) = true.
Proof.
  destruct (psys_init_inv junk) as [(Hp & _) _].
  assert (exists l : list Z, length l = 513%nat) as [l Hlen]
    by (exists (repeat 65 513); apply repeat_length).
  destruct (pipewrite (pipe_init junk) l true) as [[p2 r] w] eqn:E2.
  destruct (pipewrite_spec _ _ _ _ _ _ Hp E2) as (done & rest & Hl & Hp2 & (_ & Hw) & Hc & Hr).
  assert (Hx : r = WErr /\ w = [] /\ count p2 = PIPESIZE).
  { destruct r.
    - destruct Hr as (-> & _). rewrite app_nil_r in Hl. subst done. exfalso.
      apply (f_equal length) in Hc. rewrite length_app, Hlen, !length_contents in Hc.
      destruct Hp2 as (_ & _ & Hp2). unfold PIPESIZE in Hp2. lia.
    - by destruct Hr as (? & _ & ?).
    - by destruct Hr as (_ & _ & _ & _ & ? & _). }
  destruct Hx as (-> & -> & Hfull). eexists. split.
  - eapply rtc_l; [apply (pstep_read true (psys_init junk) 1 false); reflexivity|].
    eapply rtc_l; [|apply rtc_refl].
    eapply (pstep_write true _ l true); [reflexivity | done | exact E2].
  - unfold write_run, wake, woken. cbn [sr sp psys_init existsb]. split_and!; [cbn; lia | done | done].
Qed.

(** ** Witnesses *)

(** One call of write(65), one of read(). *)
Definition wit_pipe : psys := mk_psys (pipe_get (pipe_put (pipe_init (fun _ => 0)) 65)) 0 [mk_call [65] (WReturned true)] [(0%nat, 65)] [65].

Lemma wit_pipe_steps kw : rtc (pstep kw) (psys_init (fun _ => 0)) wit_pipe.
Proof.
  eapply rtc_l; [apply (pstep_write kw (psys_init (fun _ => 0)) [65] false (pipe_put (pipe_init (fun _ => 0)) 65) WDone [CNread]); [reflexivity | done | reflexivity]|].
  eapply rtc_once. refine (pstep_read kw _ 1 false _ (RDone [65]) [CNwrite] _ _); reflexivity.
Qed.

Lemma pipe_stream_fifo_witness : map snd (sent wit_pipe) = recvd wit_pipe ++ contents (sp wit_pipe) /\ given (mk_call [65] (WReturned true)) = bytes_of 0 (sent wit_pipe).
Proof.
  destruct (pipe_stream_fifo false (fun _ => 0) wit_pipe (wit_pipe_steps false)) as (H1 & _ & H2).
  split; [exact H1 | exact (H2 0%nat _ eq_refl)].
Defined.

Lemma pipe_no_lost_wakeup_witness :
  ((0 < sr wit_pipe)%nat -> contents (sp wit_pipe) = [] /\ writeopen (sp wit_pipe) = true) /\
  ((0 < sw wit_pipe)%nat -> count (sp wit_pipe) = PIPESIZE /\ readopen (sp wit_pipe) = true) /\
  ~ ((0 < sr wit_pipe)%nat /\ (0 < sw wit_pipe)%nat).
Proof. apply (pipe_no_lost_wakeup (fun _ => 0)), wit_pipe_steps. Defined.
