(* ===== verification/Blocks.v ===== *)
(** * Disk blocks: format constants, disk images and the block-cache interface
    (src/fs.h, and what src/bio.c promises to src/log.c and src/fs.c)

    [BlockCache] is the signature the logging layer is written against;
    [BlockCacheLaws] states what a buffer cache of [NBUF] buffers guarantees:
    a block's logical content ([bc_view]) is stable, a write reaches the disk
    at once and in order, and a block can be brought in as long as a buffer is
    neither held nor pinned dirty.  [Bio.v] shows that src/bio.c implements
    it; [ideal] below is the executable reference implementation. *)

From S2P Require Import Prelude Layout.

(** ** fs.h *)

Definition BSIZE : Z := 512.
Definition ROOTINO : Z := 1.
Definition NDIRECT : Z := 12.
Definition NINDIRECT : Z := BSIZE / 4.
Definition MAXFILE : Z := NDIRECT + NINDIRECT.
Definition DINODE_SIZE : Z := 64.                 (* sizeof(struct dinode) *)
Definition IPB : Z := BSIZE / DINODE_SIZE.
Definition BPB : Z := BSIZE * 8.
Definition DIRSIZ : Z := 14.
Definition DIRENT_SIZE : Z := 16.                 (* sizeof(struct dirent) *)

Record superblock := mk_sb {
  sb_size : Z;        (* size of file system image (blocks) *)
  sb_nblocks : Z;
  sb_ninodes : Z;
  sb_nlog : Z;
  sb_logstart : Z;
  sb_inodestart : Z;
  sb_bmapstart : Z
}.

Definition IBLOCK (i : Z) (sb : superblock) : Z := i / IPB + sb_inodestart sb.
Definition BBLOCK (b : Z) (sb : superblock) : Z := b / BPB + sb_bmapstart sb.

(** [memmove(sb, bp->data, sizeof( *sb))] in [readsb]. *)
Definition sb_decode (b : mem) : superblock :=
  mk_sb (ld32 b 0) (ld32 b 4) (ld32 b 8) (ld32 b 12) (ld32 b 16) (ld32 b 20) (ld32 b 24).

Definition sb_encode (b : mem) (sb : superblock) : mem :=
  st32 (st32 (st32 (st32 (st32 (st32 (st32 b 0 (sb_size sb)) 4 (sb_nblocks sb))
    8 (sb_ninodes sb)) 12 (sb_nlog sb)) 16 (sb_logstart sb)) 20 (sb_inodestart sb))
    24 (sb_bmapstart sb).

(** ** Disk images *)

Definition disk : Type := Z -> mem.

(** The same bytes inside a block. *)
Definition beq (a b : mem) : Prop := forall i, 0 <= i < BSIZE -> a i = b i.
Infix "≡b" := beq (at level 70) : xv6_scope.

#[global] Instance beq_equiv : Equivalence beq.
Proof.
  split.
  - intros a i _. reflexivity.
  - intros a b H i Hi. symmetry. auto.
  - intros a b c H1 H2 i Hi. rewrite H1; auto.
Qed.

Lemma mcopy_block dst src : mcopy dst 0 src 0 BSIZE ≡b src.
Proof. intros i Hi. rewrite mcopy_in by lia. f_equal. lia. Qed.

Lemma ld32_beq a b o : a ≡b b -> 0 <= o -> o + 4 <= BSIZE -> ld32 a o = ld32 b o.
Proof. intros H Ho Hs. apply ld32_ext. intros x Hx. apply H. unfold BSIZE in *. lia. Qed.

Lemma ld16_beq a b o : a ≡b b -> 0 <= o -> o + 2 <= BSIZE -> ld16 a o = ld16 b o.
Proof. intros H Ho Hs. apply ld16_ext. intros x Hx. apply H. unfold BSIZE in *. lia. Qed.

Definition dset (d : disk) (b : Z) (m : mem) : disk := fun x => if x =? b then m else d x.

Lemma dset_eq d b m : dset d b m b = m.
Proof. unfold dset. by rewrite Z.eqb_refl. Qed.

Lemma dset_ne d b m x : x <> b -> dset d b m x = d x.
Proof. intros. unfold dset. by destruct (Z.eqb_spec x b). Qed.

(** The disk after block writes [w], oldest first.  A write of one block is one
    512-byte sector, which the disk writes whole or not at all. *)
Definition apply_writes (d : disk) (w : list (Z * mem)) : disk :=
  fold_left (fun d bm => dset d (fst bm) (snd bm)) w d.

Lemma apply_writes_app d w1 w2 : apply_writes d (w1 ++ w2) = apply_writes (apply_writes d w1) w2.
Proof. apply fold_left_app. Qed.

Lemma apply_writes_notin d w x : x ∉ map fst w -> apply_writes d w x = d x.
Proof.
  revert d. induction w as [|[b m] w IH]; intros d H; simpl in *; [done|].
  apply not_elem_of_cons in H as [Hx Hw]. rewrite IH by done. by apply dset_ne.
Qed.

Lemma apply_writes_nodup d w x m :
  NoDup (map fst w) -> (x, m) ∈ w -> apply_writes d w x = m.
Proof.
  revert d. induction w as [|[b m'] w IH]; intros d Hn Hin; simpl in *.
  { by apply not_elem_of_nil in Hin. }
  inversion_clear Hn as [|? ? Hb Hn']. apply elem_of_cons in Hin as [[= -> ->]|Hin].
  - fold (apply_writes (dset d b m') w). rewrite apply_writes_notin by done. apply dset_eq.
  - by apply IH.
Qed.

(** ** Interface *)

Class BlockCache (C : Type) := {
  bc_view : C -> disk;          (* the content of each block a [bread] returns *)
  bc_disk : C -> disk;          (* the content of each block on the disk *)
  bc_writes : C -> list (Z * mem);   (* disk writes so far, oldest first *)
  bc_held : C -> gset Z;        (* blocks whose buffer is locked by the caller *)
  bc_dirty : C -> gset Z;       (* blocks whose buffer has B_DIRTY *)
  bc_boot : disk -> C;          (* empty cache over a disk image *)
  bread : Z -> C -> res (mem * C);
  bset : Z -> mem -> C -> C;    (* assign the data of a held buffer *)
  bpin : Z -> C -> C;           (* [b->flags |= B_DIRTY] of a held buffer *)
  bwrite : Z -> C -> res C;
  brelse : Z -> C -> res C
}.

(** A buffer can be found for block [b]. *)
Definition bc_room {C : Type} `{BlockCache C} (c : C) (b : Z) : Prop :=
  b ∈ bc_dirty c \/ Z.of_nat (size (bc_held c ∪ bc_dirty c)) < NBUF.

Class BlockCacheLaws (C : Type) `{BlockCache C} := {
  bc_inv : C -> Prop;
  bc_boot_law d : bc_inv (bc_boot d) /\ (forall b, 0 <= b < FSSIZE -> bc_view (bc_boot d) b = d b) /\
    (forall b, 0 <= b < FSSIZE -> bc_disk (bc_boot d) b = d b) /\
    bc_writes (bc_boot d) = [] /\ bc_held (bc_boot d) = ∅ /\ bc_dirty (bc_boot d) = ∅;
  bc_clean_law c b : bc_inv c -> 0 <= b < FSSIZE -> b ∉ bc_held c -> b ∉ bc_dirty c ->
    bc_view c b = bc_disk c b;
  bread_law c b : bc_inv c -> 0 <= b < FSSIZE -> b ∉ bc_held c -> bc_room c b ->
    exists c', bread b c = Ok (bc_view c b, c') /\ bc_inv c' /\
      (forall x, 0 <= x < FSSIZE -> bc_view c' x = bc_view c x) /\
      (forall x, 0 <= x < FSSIZE -> bc_disk c' x = bc_disk c x) /\
      bc_writes c' = bc_writes c /\ bc_held c' = {[b]} ∪ bc_held c /\ bc_dirty c' = bc_dirty c;
  bset_law c b m : bc_inv c -> 0 <= b < FSSIZE -> b ∈ bc_held c ->
    bc_inv (bset b m c) /\
    (forall x, 0 <= x < FSSIZE -> bc_view (bset b m c) x = if x =? b then m else bc_view c x) /\
    (forall x, 0 <= x < FSSIZE -> bc_disk (bset b m c) x = bc_disk c x) /\
    bc_writes (bset b m c) = bc_writes c /\ bc_held (bset b m c) = bc_held c /\
    bc_dirty (bset b m c) = bc_dirty c;
  bpin_law c b : bc_inv c -> 0 <= b < FSSIZE -> b ∈ bc_held c ->
    bc_inv (bpin b c) /\
    (forall x, 0 <= x < FSSIZE -> bc_view (bpin b c) x = bc_view c x) /\
    (forall x, 0 <= x < FSSIZE -> bc_disk (bpin b c) x = bc_disk c x) /\
    bc_writes (bpin b c) = bc_writes c /\ bc_held (bpin b c) = bc_held c /\
    bc_dirty (bpin b c) = {[b]} ∪ bc_dirty c;
  bwrite_law c b : bc_inv c -> 0 <= b < FSSIZE -> b ∈ bc_held c ->
    exists c', bwrite b c = Ok c' /\ bc_inv c' /\
      (forall x, 0 <= x < FSSIZE -> bc_view c' x = bc_view c x) /\
      (forall x, 0 <= x < FSSIZE -> bc_disk c' x = if x =? b then bc_view c b else bc_disk c x) /\
      bc_writes c' = bc_writes c ++ [(b, bc_view c b)] /\ bc_held c' = bc_held c /\
      bc_dirty c' = bc_dirty c ∖ {[b]};
  brelse_law c b : bc_inv c -> 0 <= b < FSSIZE -> b ∈ bc_held c ->
    (b ∈ bc_dirty c \/ bc_view c b = bc_disk c b) ->
    exists c', brelse b c = Ok c' /\ bc_inv c' /\
      (forall x, 0 <= x < FSSIZE -> bc_view c' x = bc_view c x) /\
      (forall x, 0 <= x < FSSIZE -> bc_disk c' x = bc_disk c x) /\
      bc_writes c' = bc_writes c /\ bc_held c' = bc_held c ∖ {[b]} /\ bc_dirty c' = bc_dirty c
}.

(** ** Reference implementation *)

Record ideal := mk_ideal {
  i_view : disk; i_disk : disk; i_writes : list (Z * mem); i_held : gset Z; i_dirty : gset Z
}.

#[global] Instance ideal_cache : BlockCache ideal := {
  bc_view := i_view; bc_disk := i_disk; bc_writes := i_writes;
  bc_held := i_held; bc_dirty := i_dirty;
  bc_boot d := mk_ideal d d [] ∅ ∅;
  bread b c :=
    if decide (b ∈ i_held c) then Blocked
    else if decide (b ∈ i_dirty c \/ Z.of_nat (size (i_held c ∪ i_dirty c)) < NBUF) then
      Ok (i_view c b, mk_ideal (i_view c) (i_disk c) (i_writes c) ({[b]} ∪ i_held c) (i_dirty c))
    else Panic "bget: no buffers";
  bset b m c := mk_ideal (dset (i_view c) b m) (i_disk c) (i_writes c) (i_held c) (i_dirty c);
  bpin b c := mk_ideal (i_view c) (i_disk c) (i_writes c) (i_held c) ({[b]} ∪ i_dirty c);
  bwrite b c :=
    if decide (b ∈ i_held c) then
      Ok (mk_ideal (i_view c) (dset (i_disk c) b (i_view c b)) (i_writes c ++ [(b, i_view c b)])
            (i_held c) (i_dirty c ∖ {[b]}))
    else Panic "bwrite";
  brelse b c :=
    if decide (b ∈ i_held c) then
      Ok (mk_ideal (i_view c) (i_disk c) (i_writes c) (i_held c ∖ {[b]}) (i_dirty c))
    else Panic "brelse"
}.

Definition ideal_inv (c : ideal) : Prop :=
  forall b, 0 <= b < FSSIZE -> b ∉ i_held c -> b ∉ i_dirty c -> i_view c b = i_disk c b.

#[global] Program Instance ideal_laws : BlockCacheLaws ideal := { bc_inv := ideal_inv }.
Next Obligation. intros d. simpl. split_and!; done. Qed.
Next Obligation. intros c b Hi. apply Hi. Qed.
Next Obligation.
  intros c b Hi Hb Hh Hr. unfold bread; simpl.
  rewrite decide_False by done. rewrite decide_True by done.
  eexists. split_and!; [reflexivity | | done ..].
  intros x Hx H1 H2. simpl in *. apply Hi; set_solver.
Qed.
Next Obligation.
  intros c b m Hi Hb Hh. simpl. split_and!; try done.
  intros x Hx H1 H2. simpl in *. rewrite dset_ne by (intros ->; done). auto.
Qed.
Next Obligation.
  intros c b Hi Hb Hh. simpl. split_and!; try done.
  intros x Hx H1 H2. simpl in *. apply Hi; set_solver.
Qed.
Next Obligation.
  intros c b Hi Hb Hh. unfold bwrite; simpl. rewrite decide_True by done.
  eexists. split_and!; [reflexivity | | done ..].
  intros x Hx H1 H2. simpl in *. rewrite dset_ne by (intros ->; done). apply Hi; set_solver.
Qed.
Next Obligation.
  intros c b Hi Hb Hh Hd. unfold brelse; simpl. rewrite decide_True by done.
  eexists. split_and!; [reflexivity | | done ..].
  intros x Hx H1 H2. simpl in *. destruct (decide (x = b)) as [->|].
  - by destruct Hd.
  - apply Hi; set_solver.
Qed.
