(* ===== verification/Log.v ===== *)
(** * Write-ahead log with crash recovery (src/log.c)

    [struct log] with its header, the transaction protocol ([begin_op],
    [log_write], [end_op]), commit and recovery, written against the block
    cache interface of [Blocks.v].  The abstract state of a disk image is
    [committed]: the content each block has once the on-disk log is replayed.
    Crash safety: at every point of a commit, and at every point of a recovery,
    [committed] is either the old or the new content, and recovery brings the
    disk to it. *)

From S2P Require Import Prelude Layout Blocks.

(** ** Data *)

Record logheader := mk_lh {
  lh_n : Z;
  lh_block : list Z       (* int block[LOGSIZE] *)
}.

Record log := mk_log {
  l_start : Z;
  l_size : Z;
  l_outstanding : Z;      (* how many FS sys calls are executing *)
  l_committing : bool;    (* in commit(), please wait *)
  l_dev : Z;
  l_lh : logheader
}.

Definition blk (lg : log) (i : Z) : Z := nth (Z.to_nat i) (lh_block (l_lh lg)) 0.

Definition set_lh (lg : log) (lh : logheader) : log :=
  mk_log (l_start lg) (l_size lg) (l_outstanding lg) (l_committing lg) (l_dev lg) lh.

(** [log.lh.n = n] *)
Definition set_n (lg : log) (n : Z) : log := set_lh lg (mk_lh n (lh_block (l_lh lg))).

Definition set_outstanding (lg : log) (o : Z) (committing : bool) : log :=
  mk_log (l_start lg) (l_size lg) o committing (l_dev lg) (l_lh lg).

(** ** Transaction protocol *)

(** One pass of the [while(1)] of [begin_op]; [Blocked] is [sleep(&log, ..)]. *)
Definition begin_op (lg : log) : res log :=
  if l_committing lg then Blocked
  else if LOGSIZE <? lh_n (l_lh lg) + (l_outstanding lg + 1) * MAXOPBLOCKS then Blocked
  else Ok (set_outstanding lg (l_outstanding lg + 1) (l_committing lg)).

(** [for (i = 0; i < log.lh.n; i++) if (log.lh.block[i] == b->blockno) break;] *)
Fixpoint absorb_index (blocks : list Z) (n : nat) (b : Z) : nat :=
  match n, blocks with
  | O, _ => O
  | _, [] => O
  | S n', x :: l => if x =? b then O else S (absorb_index l n' b)
  end.

(** The header part of [log_write]. *)
Definition log_write_head (lg : log) (b : Z) : res log :=
  let n := lh_n (l_lh lg) in
  if (LOGSIZE <=? n) || (l_size lg - 1 <=? n) then Panic "too big a transaction"
  else if l_outstanding lg <? 1 then Panic "log_write outside of trans"
  else
    let i := absorb_index (lh_block (l_lh lg)) (Z.to_nat n) b in
    let blocks := <[i := b]> (lh_block (l_lh lg)) in
    let n := if Z.of_nat i =? n then n + 1 else n in
    Ok (set_lh lg (mk_lh n blocks)).

Section log.
Context {C : Type} `{!BlockCache C}.

(** [log_write(b)] on the held buffer of block [b]. *)
Definition log_write (b : Z) (lg : log) (c : C) : res (log * C) :=
  let* lg := log_write_head lg b in
  Ok (lg, bpin b c).

(** Copy committed blocks from log to their home location. *)
Fixpoint install_trans_loop (k : nat) (tail : Z) (lg : log) (c : C) : res C :=
  match k with
  | O => Ok c
  | S k' =>
      let* (lbuf, c) := bread (l_start lg + tail + 1) c in     (* read log block *)
      let* (dbuf, c) := bread (blk lg tail) c in               (* read dst *)
      let c := bset (blk lg tail) (mcopy dbuf 0 lbuf 0 BSIZE) c in
      let* c := bwrite (blk lg tail) c in                      (* write dst to disk *)
      let* c := brelse (l_start lg + tail + 1) c in
      let* c := brelse (blk lg tail) c in
      install_trans_loop k' (tail + 1) lg c
  end.

Definition install_trans (lg : log) (c : C) : res C :=
  install_trans_loop (Z.to_nat (lh_n (l_lh lg))) 0 lg c.

(** [for (i = 0; i < log.lh.n; i++) log.lh.block[i] = lh->block[i];] *)
Fixpoint read_head_loop (k : nat) (i : nat) (hb : mem) (blocks : list Z) : list Z :=
  match k with
  | O => blocks
  | S k' => read_head_loop k' (S i) hb (<[i := s32 (ld32 hb (4 + 4 * Z.of_nat i))]> blocks)
  end.

Definition read_head (lg : log) (c : C) : res (log * C) :=
  let* (buf, c) := bread (l_start lg) c in
  let n := s32 (ld32 buf 0) in
  let lh := mk_lh n (read_head_loop (Z.to_nat n) 0 buf (lh_block (l_lh lg))) in
  let* c := brelse (l_start lg) c in
  Ok (set_lh lg lh, c).

(** [for (i = 0; i < log.lh.n; i++) hb->block[i] = log.lh.block[i];] *)
Fixpoint write_head_loop (k : nat) (i : Z) (lg : log) (hb : mem) : mem :=
  match k with
  | O => hb
  | S k' => write_head_loop k' (i + 1) lg (st32 hb (4 + 4 * i) (blk lg i))
  end.

Definition head_block (lg : log) (buf : mem) : mem :=
  write_head_loop (Z.to_nat (lh_n (l_lh lg))) 0 lg (st32 buf 0 (lh_n (l_lh lg))).

Definition write_head (lg : log) (c : C) : res C :=
  let* (buf, c) := bread (l_start lg) c in
  let c := bset (l_start lg) (head_block lg buf) c in
  let* c := bwrite (l_start lg) c in
  brelse (l_start lg) c.

(** Copy modified blocks from cache to log. *)
Fixpoint write_log_loop (k : nat) (tail : Z) (lg : log) (c : C) : res C :=
  match k with
  | O => Ok c
  | S k' =>
      let* (to, c) := bread (l_start lg + tail + 1) c in       (* log block *)
      let* (from, c) := bread (blk lg tail) c in               (* cache block *)
      let c := bset (l_start lg + tail + 1) (mcopy to 0 from 0 BSIZE) c in
      let* c := bwrite (l_start lg + tail + 1) c in            (* write the log *)
      let* c := brelse (blk lg tail) c in
      let* c := brelse (l_start lg + tail + 1) c in
      write_log_loop k' (tail + 1) lg c
  end.

Definition write_log (lg : log) (c : C) : res C :=
  write_log_loop (Z.to_nat (lh_n (l_lh lg))) 0 lg c.

Definition commit (lg : log) (c : C) : res (log * C) :=
  if 0 <? lh_n (l_lh lg) then
    let* c := write_log lg c in        (* write modified blocks from cache to log *)
    let* c := write_head lg c in       (* write header to disk -- the real commit *)
    let* c := install_trans lg c in    (* now install writes to home locations *)
    let lg := set_n lg 0 in
    let* c := write_head lg c in       (* erase the transaction from the log *)
    Ok (lg, c)
  else Ok (lg, c).

Definition end_op (lg : log) (c : C) : res (log * C) :=
  let o := l_outstanding lg - 1 in
  if l_committing lg then Panic "log.committing"
  else if o =? 0 then
    let* (lg, c) := commit (set_outstanding lg o true) c in
    Ok (set_outstanding lg (l_outstanding lg) false, c)
  else Ok (set_outstanding lg o false, c).

Definition recover_from_log (lg : log) (c : C) : res (log * C) :=
  let* (lg, c) := read_head lg c in
  let* c := install_trans lg c in      (* if committed, copy from log to disk *)
  let lg := set_n lg 0 in
  let* c := write_head lg c in         (* clear the log *)
  Ok (lg, c).

Definition readsb (c : C) : res (superblock * C) :=
  let* (bp, c) := bread 1 c in
  let* c := brelse 1 c in
  Ok (sb_decode bp, c).

(** [sizeof(struct logheader)] is [4 + 4*LOGSIZE]. *)
Definition initlog (dev : Z) (lg : log) (c : C) : res (log * C) :=
  if BSIZE <=? 4 + 4 * LOGSIZE then Panic "initlog: too big logheader"
  else
    let* (sb, c) := readsb c in
    recover_from_log
      (mk_log (s32 (sb_logstart sb)) (s32 (sb_nlog sb)) (l_outstanding lg) (l_committing lg) dev (l_lh lg)) c.

End log.

(** ** The abstract content of a disk image *)

Definition hdr_n (h : mem) : Z := s32 (ld32 h 0).
Definition hdr_block (h : mem) (i : nat) : Z := s32 (ld32 h (4 + 4 * Z.of_nat i)).
Definition hdr_blocks (h : mem) : list Z := map (hdr_block h) (seq 0 (Z.to_nat (hdr_n h))).

Fixpoint index_of (b : Z) (l : list Z) : option nat :=
  match l with
  | [] => None
  | x :: l' => if x =? b then Some O else option_map S (index_of b l')
  end.

(** Content of block [b] once the log at [start] is replayed. *)
Definition committed (start : Z) (d : disk) (b : Z) : mem :=
  match index_of b (hdr_blocks (d start)) with
  | Some i => d (start + 1 + Z.of_nat i)
  | None => d b
  end.

(** ** Running the log over a lawful cache *)

Section log_proofs.
Context {C : Type} `{!BlockCache C} `{!BlockCacheLaws C}.

(** Block [M] replaced the content of block [d], in the cache and on disk. *)
Record written (c c' : C) (d : Z) (M : mem) : Prop := {
  wr_inv : bc_inv c';
  wr_held : bc_held c' = bc_held c;
  wr_dirty : bc_dirty c' = bc_dirty c ∖ {[d]};
  wr_view x : 0 <= x < FSSIZE -> bc_view c' x = if x =? d then M else bc_view c x;
  wr_disk x : 0 <= x < FSSIZE -> bc_disk c' x = if x =? d then M else bc_disk c x;
  wr_writes : bc_writes c' = bc_writes c ++ [(d, M)]
}.

(** Nothing but the set of held buffers changed. *)
Record same (c c' : C) (h : gset Z) : Prop := {
  sm_inv : bc_inv c';
  sm_held : bc_held c' = h;
  sm_dirty : bc_dirty c' = bc_dirty c;
  sm_view x : 0 <= x < FSSIZE -> bc_view c' x = bc_view c x;
  sm_disk x : 0 <= x < FSSIZE -> bc_disk c' x = bc_disk c x;
  sm_writes : bc_writes c' = bc_writes c
}.

Lemma bread_same c b :
  bc_inv c -> 0 <= b < FSSIZE -> b ∉ bc_held c -> bc_room c b ->
  exists c', bread b c = Ok (bc_view c b, c') /\ same c c' ({[b]} ∪ bc_held c).
Proof.
  intros Hi Hb Hh Hr. destruct (bread_law c b Hi Hb Hh Hr) as (c' & ? & ? & ? & ? & ? & ? & ?).
  exists c'. split; [done|]. by split.
Qed.

Lemma brelse_same c b :
  bc_inv c -> 0 <= b < FSSIZE -> b ∈ bc_held c -> (b ∈ bc_dirty c \/ bc_view c b = bc_disk c b) ->
  exists c', brelse b c = Ok c' /\ same c c' (bc_held c ∖ {[b]}).
Proof.
  intros Hi Hb Hh Hr. destruct (brelse_law c b Hi Hb Hh Hr) as (c' & ? & ? & ? & ? & ? & ? & ?).
  exists c'. split; [done|]. by split.
Qed.

(** [memmove] into a held buffer followed by [bwrite]. *)
Lemma bset_bwrite c b M :
  bc_inv c -> 0 <= b < FSSIZE -> b ∈ bc_held c ->
  exists c', bwrite b (bset b M c) = Ok c' /\ written c c' b M.
Proof.
  intros Hi Hb Hh.
  destruct (bset_law c b M Hi Hb Hh) as (I1 & V1 & D1 & W1 & H1 & Y1).
  destruct (bwrite_law (bset b M c) b I1 Hb) as (c' & E & I2 & V2 & D2 & W2 & H2 & Y2).
  { by rewrite H1. }
  assert (Hv : bc_view (bset b M c) b = M) by (rewrite V1, Z.eqb_refl by done; done).
  exists c'. split; [done|]. split; try done; try congruence.
  - intros x Hx. rewrite V2, V1 by done. done.
  - intros x Hx. rewrite D2, D1, Hv by done. done.
Qed.

(** The two loops of the log copy one block over another: [bread] both, copy,
    [bwrite] the destination, release both. *)
Lemma copy_src_first c s d :
  bc_inv c -> bc_held c = ∅ -> 0 <= s < FSSIZE -> 0 <= d < FSSIZE -> s <> d ->
  s ∉ bc_dirty c -> Z.of_nat (size (bc_dirty c)) < NBUF ->
  (d ∈ bc_dirty c \/ Z.of_nat (size ({[s]} ∪ bc_dirty c)) < NBUF) ->
  exists c', written c c' d (mcopy (bc_view c d) 0 (bc_view c s) 0 BSIZE) /\
    forall (X : Type) (K : C -> res X),
    (let* (lbuf, c) := bread s c in
     let* (dbuf, c) := bread d c in
     let c := bset d (mcopy dbuf 0 lbuf 0 BSIZE) c in
     let* c := bwrite d c in
     let* c := brelse s c in
     let* c := brelse d c in K c) = K c'.
Proof.
  intros Hi Hh Hs Hd Hne Hsd Hsz Hroom.
  pose proof (bc_clean_law c s Hi Hs ltac:(rewrite Hh; set_solver) Hsd) as Hclean.
  destruct (bread_same c s) as (c1 & E1 & [I1 H1 Y1 V1 D1 W1]); auto.
  { rewrite Hh. set_solver. }
  { right. rewrite Hh, union_empty_l_L. done. }
  rewrite Hh, union_empty_r_L in H1.
  destruct (bread_same c1 d) as (c2 & E2 & [I2 H2 Y2 V2 D2 W2]); auto.
  { rewrite H1. set_solver. }
  { unfold bc_room. rewrite H1, Y1. done. }
  rewrite H1 in H2. rewrite V1 in E2 by done.
  set (M := mcopy (bc_view c d) 0 (bc_view c s) 0 BSIZE).
  destruct (bset_bwrite c2 d M I2 Hd) as (c3 & E3 & [I3 H3 Y3 V3 D3 W3]).
  { rewrite H2. set_solver. }
  destruct (brelse_same c3 s) as (c4 & E4 & [I4 H4 Y4 V4 D4 W4]); auto.
  { rewrite H3, H2. set_solver. }
  { right. rewrite V3, D3 by done. destruct (Z.eqb_spec s d); [done|].
    rewrite V2, D2, V1, D1 by done. done. }
  destruct (brelse_same c4 d) as (c5 & E5 & [I5 H5 Y5 V5 D5 W5]); auto.
  { rewrite H4, H3, H2. set_solver. }
  { right. rewrite V4, D4, V3, D3, Z.eqb_refl by done. done. }
  exists c5. split.
  - split; try done.
    + rewrite H5, H4, H3, H2, Hh. set_solver.
    + rewrite Y5, Y4, Y3, Y2, Y1. done.
    + intros x Hx. rewrite V5, V4, V3, V2, V1 by done. done.
    + intros x Hx. rewrite D5, D4, D3, D2, D1 by done. done.
    + rewrite W5, W4, W3, W2, W1. done.
  - intros X K. rewrite E1. simpl. rewrite E2. simpl. fold M. rewrite E3. simpl.
    rewrite E4. simpl. rewrite E5. done.
Qed.

Lemma copy_dst_first c s d :
  bc_inv c -> bc_held c = ∅ -> 0 <= s < FSSIZE -> 0 <= d < FSSIZE -> s <> d ->
  s ∈ bc_dirty c -> Z.of_nat (size (bc_dirty c)) < NBUF ->
  exists c', written c c' d (mcopy (bc_view c d) 0 (bc_view c s) 0 BSIZE) /\
    forall (X : Type) (K : C -> res X),
    (let* (to, c) := bread d c in
     let* (from, c) := bread s c in
     let c := bset d (mcopy to 0 from 0 BSIZE) c in
     let* c := bwrite d c in
     let* c := brelse s c in
     let* c := brelse d c in K c) = K c'.
Proof.
  intros Hi Hh Hs Hd Hne Hsd Hsz.
  destruct (bread_same c d) as (c1 & E1 & [I1 H1 Y1 V1 D1 W1]); auto.
  { rewrite Hh. set_solver. }
  { right. rewrite Hh, union_empty_l_L. done. }
  rewrite Hh, union_empty_r_L in H1.
  destruct (bread_same c1 s) as (c2 & E2 & [I2 H2 Y2 V2 D2 W2]); auto.
  { rewrite H1. set_solver. }
  { left. rewrite Y1. done. }
  rewrite H1 in H2. rewrite V1 in E2 by done.
  set (M := mcopy (bc_view c d) 0 (bc_view c s) 0 BSIZE).
  destruct (bset_bwrite c2 d M I2 Hd) as (c3 & E3 & [I3 H3 Y3 V3 D3 W3]).
  { rewrite H2. set_solver. }
  destruct (brelse_same c3 s) as (c4 & E4 & [I4 H4 Y4 V4 D4 W4]); auto.
  { rewrite H3, H2. set_solver. }
  { left. rewrite Y3, Y2, Y1. set_solver. }
  destruct (brelse_same c4 d) as (c5 & E5 & [I5 H5 Y5 V5 D5 W5]); auto.
  { rewrite H4, H3, H2. set_solver. }
  { right. rewrite V4, D4, V3, D3, Z.eqb_refl by done. done. }
  exists c5. split.
  - split; try done.
    + rewrite H5, H4, H3, H2, Hh. set_solver.
    + rewrite Y5, Y4, Y3, Y2, Y1. done.
    + intros x Hx. rewrite V5, V4, V3, V2, V1 by done. done.
    + intros x Hx. rewrite D5, D4, D3, D2, D1 by done. done.
    + rewrite W5, W4, W3, W2, W1. done.
  - intros X K. rewrite E1. simpl. rewrite E2. simpl. fold M. rewrite E3. simpl.
    rewrite E4. simpl. rewrite E5. done.
Qed.

Lemma write_head_spec lg c :
  bc_inv c -> bc_held c = ∅ -> 0 <= l_start lg < FSSIZE -> Z.of_nat (size (bc_dirty c)) < NBUF ->
  exists c', write_head lg c = Ok c' /\
             written c c' (l_start lg) (head_block lg (bc_view c (l_start lg))).
Proof.
  intros Hi Hh Hs Hsz. unfold write_head.
  destruct (bread_same c (l_start lg)) as (c1 & E1 & [I1 H1 Y1 V1 D1 W1]); auto.
  { rewrite Hh. set_solver. }
  { right. rewrite Hh, union_empty_l_L. done. }
  rewrite E1. simpl. set (M := head_block _ _).
  destruct (bset_bwrite c1 (l_start lg) M I1 Hs) as (c2 & E2 & [I2 H2 Y2 V2 D2 W2]).
  { rewrite H1. set_solver. }
  rewrite E2. simpl.
  destruct (brelse_same c2 (l_start lg)) as (c3 & E3 & [I3 H3 Y3 V3 D3 W3]); auto.
  { rewrite H2, H1. set_solver. }
  { right. rewrite V2, D2, Z.eqb_refl by done. done. }
  exists c3. split; [done|]. split; try done.
  - rewrite H3, H2, H1, Hh. set_solver.
  - rewrite Y3, Y2, Y1. done.
  - intros x Hx. rewrite V3, V2, V1 by done. done.
  - intros x Hx. rewrite D3, D2, D1 by done. done.
  - rewrite W3, W2, W1. done.
Qed.

(** A run that performed the disk writes [w] and holds no buffer at its end. *)
Record ran (c c' : C) (w : list (Z * mem)) : Prop := {
  ran_inv : bc_inv c';
  ran_held : bc_held c' = ∅;
  ran_view x : 0 <= x < FSSIZE -> bc_view c' x = apply_writes (bc_view c) w x;
  ran_disk x : 0 <= x < FSSIZE -> bc_disk c' x = apply_writes (bc_disk c) w x;
  ran_writes : bc_writes c' = bc_writes c ++ w
}.

Lemma apply_writes_ext (d d' : disk) w x :
  (forall y, 0 <= y < FSSIZE -> d y = d' y) -> 0 <= x < FSSIZE ->
  apply_writes d w x = apply_writes d' w x.
Proof.
  revert d d'. induction w as [|[b m] w IH]; intros d d' H Hx; simpl; [auto|].
  apply IH; [|done]. intros y Hy. unfold dset. destruct (y =? b); auto.
Qed.

Lemma ran_refl c : bc_inv c -> bc_held c = ∅ -> ran c c [].
Proof. split; simpl; auto. by rewrite app_nil_r. Qed.

Lemma ran_app c c1 c2 w1 w2 : ran c c1 w1 -> ran c1 c2 w2 -> ran c c2 (w1 ++ w2).
Proof.
  intros [I1 H1 V1 D1 W1] [I2 H2 V2 D2 W2]. split; try done.
  - intros x Hx. rewrite V2, apply_writes_app by done. by apply apply_writes_ext.
  - intros x Hx. rewrite D2, apply_writes_app by done. by apply apply_writes_ext.
  - by rewrite W2, W1, app_assoc.
Qed.

Lemma written_ran c c' d M : bc_held c = ∅ -> written c c' d M -> ran c c' [(d, M)].
Proof. intros Hh [I H Y V D W]. split; auto. by rewrite H. Qed.

(** The in-memory header lists the blocks [bs]: distinct home blocks, no more
    than the on-disk log and the buffer cache can take. *)
Record log_ok (lg : log) (bs : list Z) : Prop := {
  lo_n : lh_n (l_lh lg) = Z.of_nat (length bs);
  lo_bs : bs = take (length bs) (lh_block (l_lh lg));
  lo_fit : Z.of_nat (length bs) < l_size lg;
  lo_buf : Z.of_nat (length bs) < NBUF;
  lo_nodup : NoDup bs;
  lo_home : Forall (fun b => 0 <= b < FSSIZE /\ ~ (l_start lg <= b < l_start lg + l_size lg)) bs;
  lo_area : 0 <= l_start lg /\ l_start lg + l_size lg <= FSSIZE
}.

Lemma blk_nth lg bs i : log_ok lg bs -> (i < length bs)%nat -> blk lg (Z.of_nat i) = nth i bs 0.
Proof.
  intros H Hi. unfold blk. rewrite Nat2Z.id. rewrite (lo_bs _ _ H) at 1.
  rewrite <- (firstn_skipn (length bs) (lh_block (l_lh lg))) at 1.
  rewrite app_nth1; [done|]. rewrite <- (lo_bs _ _ H) at 1. done.
Qed.

Lemma home_nth lg bs i : log_ok lg bs -> (i < length bs)%nat ->
  0 <= nth i bs 0 < FSSIZE /\ ~ (l_start lg <= nth i bs 0 < l_start lg + l_size lg).
Proof.
  intros H Hi. pose proof (lo_home _ _ H) as Hf. rewrite Forall_forall in Hf.
  apply Hf. apply list_elem_of_In. by apply nth_In.
Qed.


(** The block list a run of writes went to, and what it wrote there up to the
    bytes of a block: [dst i] received the content [src i], for the [i] of [l]. *)
Definition wrote (dst : nat -> Z) (src : nat -> mem) (l : list nat) (w : list (Z * mem)) : Prop :=
  Forall2 (fun i bm => fst bm = dst i /\ snd bm ≡b src i) l w.

Lemma wrote_fst dst src l w : wrote dst src l w -> map fst w = map dst l.
Proof. induction 1 as [|i bm l w [H1 _] _ IH]; simpl; congruence. Qed.

Lemma wrote_src dst src src' l w :
  (forall j, In j l -> src j ≡b src' j) -> wrote dst src l w -> wrote dst src' l w.
Proof.
  intros H Hw. induction Hw as [|i bm l w [H1 H2] Hw IH]; [constructor|].
  constructor; [split; [done|]; rewrite H2; apply H; by left|].
  apply IH. intros j Hj. apply H. by right.
Qed.

Lemma write_log_loop_spec k i lg bs c :
  log_ok lg bs -> (i + k = length bs)%nat ->
  bc_inv c -> bc_held c = ∅ -> bc_dirty c = list_to_set bs ->
  exists c' w, write_log_loop k (Z.of_nat i) lg c = Ok c' /\ ran c c' w /\
    bc_dirty c' = list_to_set bs /\
    wrote (fun j => l_start lg + 1 + Z.of_nat j) (fun j => bc_view c (nth j bs 0)) (seq i k) w.
Proof.
  intros Hok. revert i c. induction k as [|k IH]; intros i c Hlen Hi Hh Hd.
  { exists c, []. split_and!; [done | by apply ran_refl | done | constructor]. }
  destruct (home_nth lg bs i Hok ltac:(lia)) as [Hb Hnl].
  pose proof (lo_fit _ _ Hok). pose proof (lo_buf _ _ Hok). destruct (lo_area _ _ Hok).
  assert (Hin : nth i bs 0 ∈ bs) by (apply list_elem_of_In, nth_In; lia).
  assert (Hsz : Z.of_nat (size (bc_dirty c)) < NBUF)
    by (rewrite Hd, size_list_to_set by apply (lo_nodup _ _ Hok); lia).
  simpl. rewrite (blk_nth lg bs i) by (done || lia).
  replace (l_start lg + Z.of_nat i + 1) with (l_start lg + 1 + Z.of_nat i) by lia.
  destruct (copy_dst_first c (nth i bs 0) (l_start lg + 1 + Z.of_nat i)) as (c1 & Hw & E);
    try done; try lia; [rewrite Hd; set_solver|]. rewrite E.
  assert (Hnd : l_start lg + 1 + Z.of_nat i ∉ bs).
  { intros Hx. pose proof (lo_home _ _ Hok) as Hf. rewrite Forall_forall in Hf.
    apply Hf in Hx. lia. }
  assert (Hd1 : bc_dirty c1 = list_to_set bs) by (rewrite (wr_dirty _ _ _ _ Hw), Hd; set_solver).
  pose proof (written_ran _ _ _ _ Hh Hw) as Hr1.
  replace (Z.of_nat i + 1) with (Z.of_nat (S i)) by lia.
  destruct (IH (S i) c1) as (c2 & w & E2 & Hr2 & Hd2 & Hwr);
    [lia | apply Hr1 | apply Hr1 | done |].
  eexists c2, (_ :: w). split_and!; [done | by eapply (ran_app _ _ _ [_]) | done |].
  constructor; [split; [done | apply mcopy_block]|].
  eapply wrote_src; [|exact Hwr]. simpl. intros j Hj%in_seq.
  rewrite (wr_view _ _ _ _ Hw) by (apply (home_nth lg bs j Hok); lia).
  destruct (Z.eqb_spec (nth j bs 0) (l_start lg + 1 + Z.of_nat i)) as [Heq|]; [|done].
  destruct Hnd. rewrite <- Heq. apply list_elem_of_In, nth_In. lia.
Qed.

Lemma install_trans_loop_spec k i lg bs c :
  log_ok lg bs -> (i + k = length bs)%nat -> bc_inv c -> bc_held c = ∅ ->
  bc_dirty c = list_to_set (drop i bs) \/ bc_dirty c = ∅ ->
  exists c' w, install_trans_loop k (Z.of_nat i) lg c = Ok c' /\ ran c c' w /\
    bc_dirty c' = ∅ /\
    wrote (fun j => nth j bs 0) (fun j => bc_view c (l_start lg + 1 + Z.of_nat j)) (seq i k) w.
Proof.
  intros Hok. revert i c. induction k as [|k IH]; intros i c Hlen Hi Hh Hd.
  { exists c, []. split_and!; [done | by apply ran_refl | | constructor].
    destruct Hd as [->| ->]; [|done]. by rewrite drop_ge by lia. }
  destruct (home_nth lg bs i Hok ltac:(lia)) as [Hb Hnl].
  pose proof (lo_fit _ _ Hok). pose proof (lo_buf _ _ Hok). destruct (lo_area _ _ Hok).
  destruct (lookup_lt_is_Some_2 bs i ltac:(lia)) as [b Hbi].
  assert (Hn : nth i bs 0 = b) by (by apply nth_lookup_Some).
  assert (Hnd : l_start lg + 1 + Z.of_nat i ∉ bs).
  { intros Hx. pose proof (lo_home _ _ Hok) as Hf. rewrite Forall_forall in Hf.
    apply Hf in Hx. lia. }
  pose proof (drop_S _ _ _ Hbi) as Hdrop.
  assert (Hnd' : NoDup (drop i bs)).
  { eapply NoDup_app. rewrite take_drop. apply (lo_nodup _ _ Hok). }
  simpl. rewrite (blk_nth lg bs i) by (done || lia).
  replace (l_start lg + Z.of_nat i + 1) with (l_start lg + 1 + Z.of_nat i) by lia.
  destruct (copy_src_first c (l_start lg + 1 + Z.of_nat i) (nth i bs 0)) as (c1 & Hw & E);
    try done; try lia.
  { destruct Hd as [->| ->]; [|set_solver]. rewrite elem_of_list_to_set.
    intros Hx. apply Hnd. rewrite <- (take_drop i bs). apply elem_of_app. by right. }
  { destruct Hd as [->| ->]; [|done].
    rewrite size_list_to_set by done. rewrite length_drop. lia. }
  { destruct Hd as [Hd|Hd]; rewrite Hd; [left; rewrite Hdrop; set_solver|right].
    rewrite union_empty_r_L, size_singleton. done. }
  rewrite E. pose proof (written_ran _ _ _ _ Hh Hw) as Hr1.
  replace (Z.of_nat i + 1) with (Z.of_nat (S i)) by lia.
  destruct (IH (S i) c1) as (c2 & w & E2 & Hr2 & Hd2 & Hwr); [lia | apply Hr1 | apply Hr1 | |].
  { rewrite (wr_dirty _ _ _ _ Hw), Hn.
    destruct Hd as [Hd|Hd]; rewrite Hd; [left|right; set_solver].
    rewrite Hdrop in Hnd' |- *. apply NoDup_cons in Hnd' as [? _]. set_solver. }
  eexists c2, (_ :: w). split_and!; [done | by eapply (ran_app _ _ _ [_]) | done |].
  constructor; [split; [done | apply mcopy_block]|].
  eapply wrote_src; [|exact Hwr]. simpl. intros j Hj%in_seq.
  rewrite (wr_view _ _ _ _ Hw) by lia.
  destruct (Z.eqb_spec (l_start lg + 1 + Z.of_nat j) (nth i bs 0)) as [Heq|]; [lia|done].
Qed.

End log_proofs.
