(* ===== verification/LogCrash.v ===== *)
(** * Crash safety of the log (src/log.c)

    The disk header round trip, the exact sequence of disk writes of [commit]
    and of [recover_from_log], what a crash between any two of them leaves on
    the disk, and the theorem that a commit interrupted at any write, followed
    by any number of interrupted recoveries and one complete recovery, leaves
    either none or all of the transaction on the disk. *)

From S2P Require Import Prelude Layout Blocks Log.

(** ** The header on disk *)

Lemma write_head_loop_other k i lg hb o :
  0 <= o -> 0 <= i -> o + 4 <= 4 + 4 * i \/ 4 + 4 * (i + Z.of_nat k) <= o ->
  ld32 (write_head_loop k i lg hb) o = ld32 hb o.
Proof.
  revert i hb. induction k as [|k IH]; intros i hb Ho Hi H; simpl; [done|].
  rewrite IH by lia. apply ld32_st32_other. lia.
Qed.

Lemma write_head_loop_in k i lg hb j :
  0 <= i -> i <= j < i + Z.of_nat k ->
  ld32 (write_head_loop k i lg hb) (4 + 4 * j) = u32 (blk lg j).
Proof.
  revert i hb. induction k as [|k IH]; intros i hb Hi Hj; simpl; [lia|].
  destruct (decide (j = i)) as [->|Hne]; [|apply IH; lia].
  rewrite write_head_loop_other by lia. apply ld32_st32_same.
Qed.

Lemma hdr_n_head lg buf : 0 <= lh_n (l_lh lg) < 2 ^ 31 -> hdr_n (head_block lg buf) = lh_n (l_lh lg).
Proof.
  intros H. unfold hdr_n, head_block. rewrite write_head_loop_other, ld32_st32_same by lia.
  by apply s32_u32.
Qed.

Lemma hdr_block_head lg bs buf i : log_ok lg bs -> (i < length bs)%nat ->
  hdr_block (head_block lg buf) i = nth i bs 0.
Proof.
  intros Hok Hi. unfold hdr_block, head_block.
  rewrite write_head_loop_in by (rewrite ?(lo_n _ _ Hok); lia).
  rewrite (blk_nth lg bs i Hok Hi). apply s32_u32.
  destruct (home_nth lg bs i Hok Hi) as [? _]. unfold FSSIZE in *. lia.
Qed.

Lemma map_nth_seq (f : nat -> Z) (l : list Z) :
  (forall i, (i < length l)%nat -> f i = nth i l 0) -> map f (seq 0 (length l)) = l.
Proof.
  intros H. apply (nth_ext _ _ 0 0).
  - by rewrite length_map, length_seq.
  - intros n Hn. rewrite length_map, length_seq in Hn.
    rewrite (nth_indep _ 0 (f 0%nat)) by (rewrite length_map, length_seq; lia).
    rewrite map_nth, seq_nth by lia. by apply H.
Qed.

(** [write_head] then [read_head] recovers the block list. *)
Lemma hdr_blocks_head lg bs buf : log_ok lg bs -> hdr_blocks (head_block lg buf) = bs.
Proof.
  intros Hok. unfold hdr_blocks. pose proof (lo_buf _ _ Hok). rewrite hdr_n_head.
  - rewrite (lo_n _ _ Hok), Nat2Z.id. apply map_nth_seq. intros i Hi.
    by apply hdr_block_head.
  - rewrite (lo_n _ _ Hok). unfold NBUF, MAXOPBLOCKS in *. lia.
Qed.

Lemma hdr_blocks_erase lg buf : hdr_blocks (head_block (set_n lg 0) buf) = [].
Proof. unfold hdr_blocks. rewrite hdr_n_head; [done|]. simpl. lia. Qed.

Lemma read_head_loop_spec k i hb blocks :
  (i + k <= length blocks)%nat ->
  read_head_loop k i hb blocks =
    take i blocks ++ map (hdr_block hb) (seq i k) ++ drop (i + k) blocks.
Proof.
  revert i blocks. induction k as [|k IH]; intros i blocks H; simpl.
  { by rewrite Nat.add_0_r, take_drop. }
  rewrite IH by (rewrite length_insert; lia).
  rewrite drop_insert_lt by lia. rewrite (take_S_r _ _ (hdr_block hb i)).
  - rewrite take_insert_ge by lia. rewrite <- app_assoc. simpl.
    by replace (i + S k)%nat with (S (i + k)) by lia.
  - apply list_lookup_insert_eq. lia.
Qed.

(** A header that describes a well-formed transaction of a log at [start]. *)
Record hdr_ok (start size : Z) (h : mem) : Prop := {
  ho_n : 0 <= hdr_n h;
  ho_fit : hdr_n h < size;
  ho_buf : hdr_n h < NBUF;
  ho_nodup : NoDup (hdr_blocks h);
  ho_home : Forall (fun b => 0 <= b < FSSIZE /\ ~ (start <= b < start + size)) (hdr_blocks h);
  ho_area : 0 <= start /\ start + size <= FSSIZE
}.

Lemma length_hdr_blocks h : length (hdr_blocks h) = Z.to_nat (hdr_n h).
Proof. unfold hdr_blocks. by rewrite length_map, length_seq. Qed.

(** ** What a crash leaves: disk images only *)

Section disk_images.
Context (start size : Z).

Definition home (b : Z) : Prop := 0 <= b < FSSIZE /\ ~ (start <= b < start + size).

Lemma index_of_Some b l i : index_of b l = Some i -> (i < length l)%nat /\ nth i l 0 = b.
Proof.
  revert i. induction l as [|x l IH]; intros i H; simpl in *; [done|].
  destruct (Z.eqb_spec x b) as [->|]; [inversion H; subst; simpl; split; [lia|done]|].
  destruct (index_of b l) as [j|]; simplify_eq/=. destruct (IH j) as [? ?]; [done|].
  split; [lia|done].
Qed.

Lemma index_of_None b l : index_of b l = None <-> b ∉ l.
Proof.
  induction l as [|x l IH]; simpl; [split; [intros _; apply not_elem_of_nil|done]|].
  rewrite not_elem_of_cons. destruct (Z.eqb_spec x b) as [->|].
  - split; [done|intros [? _]; done].
  - destruct (index_of b l); simpl; [split; [done|intros [_ ?]]|]; naive_solver.
Qed.

Lemma wrote_lookup dst src l w i :
  wrote dst src l w -> In i l -> exists m, (dst i, m) ∈ w /\ m ≡b src i.
Proof.
  induction 1 as [|j [b m] l w [H1 H2] Hw IH]; intros Hi; [by destruct Hi|].
  simpl in *. subst b. destruct Hi as [->|Hi].
  - exists m. split; [left|done].
  - destruct (IH Hi) as (m' & ? & ?). exists m'. split; [by right|done].
Qed.

(** The log blocks hold the contents [src] of the blocks [bs]. *)
Definition logged (bs : list Z) (src : Z -> mem) (d : disk) : Prop :=
  forall i, (i < length bs)%nat -> d (start + 1 + Z.of_nat i) ≡b src (nth i bs 0).

Lemma committed_empty d b : hdr_blocks (d start) = [] -> committed start d b = d b.
Proof. unfold committed. by intros ->. Qed.

(** With the header written, the log decides the blocks it names. *)
Lemma committed_logged bs src d b :
  hdr_blocks (d start) = bs -> logged bs src d ->
  committed start d b ≡b (if decide (b ∈ bs) then src b else d b).
Proof.
  intros Hh Hl. unfold committed. rewrite Hh.
  destruct (index_of b bs) as [i|] eqn:E.
  - apply index_of_Some in E as [Hi <-]. rewrite decide_True.
    + by apply Hl.
    + apply list_elem_of_In, nth_In. lia.
  - apply index_of_None in E. by rewrite decide_False.
Qed.

Lemma nodup_log_addrs n i : NoDup (map (fun j => start + 1 + Z.of_nat j) (seq i n)).
Proof.
  apply NoDup_ListNoDup. apply Finite.Injective_map_NoDup; [intros x y; lia|apply seq_NoDup].
Qed.

(** After the log writes, the log blocks hold the new contents. *)
Lemma logged_after_write_log bs src d w :
  wrote (fun j => start + 1 + Z.of_nat j) (fun j => src (nth j bs 0)) (seq 0 (length bs)) w ->
  logged bs src (apply_writes d w).
Proof.
  intros Hw i Hi.
  destruct (wrote_lookup _ _ _ _ i Hw) as (m & Hm & Hs); [apply in_seq; lia|].
  rewrite (apply_writes_nodup _ _ _ m); [done| |done].
  rewrite (wrote_fst _ _ _ _ Hw). apply nodup_log_addrs.
Qed.

(** Writes that stay out of the log area keep what is logged. *)
Lemma logged_frame bs src d w :
  Z.of_nat (length bs) < size -> (forall b, b ∈ map fst w -> ~ (start < b < start + size)) ->
  logged bs src d -> logged bs src (apply_writes d w).
Proof.
  intros Hs Hw Hl i Hi. rewrite apply_writes_notin; [by apply Hl|].
  intros Hin. apply Hw in Hin. lia.
Qed.

Lemma prefix_app_or {A : Type} (w a b : list A) :
  w `prefix_of` a ++ b -> w `prefix_of` a \/ exists b', w = a ++ b' /\ b' `prefix_of` b.
Proof.
  revert w. induction a as [|x a IH]; intros w H; simpl in *; [right; by exists w|].
  destruct w as [|y w]; [left; apply prefix_nil|].
  apply prefix_cons_inv_1 in H as Hxy. subst y. apply prefix_cons_inv_2 in H.
  destruct (IH w H) as [?|(b' & -> & ?)]; [left; by apply prefix_cons|right].
  by exists b'.
Qed.

Lemma prefix_snoc_or {A : Type} (w a : list A) x :
  w `prefix_of` a ++ [x] -> w `prefix_of` a \/ w = a ++ [x].
Proof.
  intros [?|(b' & -> & Hb)]%prefix_app_or; [by left|].
  destruct b' as [|y b']; [left; by rewrite app_nil_r|right].
  apply prefix_cons_inv_1 in Hb as Hy. subst y.
  by apply prefix_cons_inv_2, prefix_nil_inv in Hb as ->.
Qed.

(** The content of the disk once the transaction that writes [src] to [bs] is
    in effect. *)
Definition tx_new (bs : list Z) (src : Z -> mem) (d : disk) (b : Z) : mem :=
  if decide (b ∈ bs) then src b else d b.

Section install.
Context (bs : list Z) (src : Z -> mem).
Hypothesis (Hhome : Forall home bs) (Hnodup : NoDup bs) (Hfit : Z.of_nat (length bs) < size).

Lemma home_elem b : b ∈ bs -> home b.
Proof. intros H. rewrite Forall_forall in Hhome. by apply Hhome. Qed.

(** Any part of the installation of a committed transaction leaves the
    transaction in effect, and so does erasing the header at its end. *)
Lemma install_prefix d w2 h2 w' :
  hdr_blocks (d start) = bs -> logged bs src d ->
  wrote (fun j => nth j bs 0) (fun j => src (nth j bs 0)) (seq 0 (length bs)) w2 ->
  hdr_blocks h2 = [] -> w' `prefix_of` w2 ++ [(start, h2)] ->
  (apply_writes d w' start = d start \/ apply_writes d w' start = h2) /\
  forall b, home b -> committed start (apply_writes d w') b ≡b tx_new bs src d b.
Proof.
  intros Hh Hl Hw Hh2 Hp.
  assert (Hfst : map fst w2 = bs) by (rewrite (wrote_fst _ _ _ _ Hw); by apply map_nth_seq).
  assert (Hst : start ∉ bs) by (intros ?%home_elem; unfold home in *; lia).
  apply prefix_snoc_or in Hp as [[w3 Hw3]| ->].
  - assert (Hsub : forall b, b ∈ map fst w' -> b ∈ bs)
      by (intros b Hb; rewrite <- Hfst, Hw3, map_app; apply elem_of_app; by left).
    assert (Hs : apply_writes d w' start = d start)
      by (apply apply_writes_notin; intros ?%Hsub; done).
    split; [by left|]. intros b Hb. rewrite (committed_logged bs src).
    + unfold tx_new. destruct (decide (b ∈ bs)) as [|Hn]; [done|].
      rewrite apply_writes_notin; [done|]. intros ?%Hsub. done.
    + by rewrite Hs.
    + apply logged_frame; [done| |done]. intros x Hx%Hsub%home_elem. unfold home in Hx. lia.
  - rewrite apply_writes_app. simpl. rewrite dset_eq. split; [by right|].
    intros b Hb. rewrite committed_empty by by rewrite dset_eq.
    rewrite dset_ne by (unfold home in Hb; lia). unfold tx_new.
    destruct (decide (b ∈ bs)) as [Hin|Hn]; [|by rewrite apply_writes_notin; [|rewrite Hfst]].
    apply list_elem_of_In, (In_nth _ _ 0) in Hin as (i & Hi & <-).
    destruct (wrote_lookup _ _ _ _ i Hw) as (m & Hm & Hs); [apply in_seq; lia|].
    rewrite (apply_writes_nodup _ _ _ m); [done|by rewrite Hfst|done].
Qed.

Lemma apply_log_writes d w1 h1 b :
  wrote (fun j => start + 1 + Z.of_nat j) (fun j => src (nth j bs 0)) (seq 0 (length bs)) w1 ->
  home b -> dset (apply_writes d w1) start h1 b = d b.
Proof.
  intros Hw Hb. unfold home in Hb. rewrite dset_ne by lia. apply apply_writes_notin.
  rewrite (wrote_fst _ _ _ _ Hw). intros Hin.
  apply list_elem_of_In, in_map_iff in Hin as (i & <- & Hi%in_seq). lia.
Qed.

(** All the writes of a commit. *)
Lemma commit_full d w1 h1 w2 h2 :
  wrote (fun j => start + 1 + Z.of_nat j) (fun j => src (nth j bs 0)) (seq 0 (length bs)) w1 ->
  hdr_blocks h1 = bs ->
  wrote (fun j => nth j bs 0) (fun j => src (nth j bs 0)) (seq 0 (length bs)) w2 ->
  hdr_blocks h2 = [] ->
  let d' := apply_writes d (w1 ++ (start, h1) :: w2 ++ [(start, h2)]) in
  d' start = h2 /\ forall b, home b -> d' b ≡b tx_new bs src d b.
Proof.
  intros Hw1 Hh1 Hw2 Hh2 d'.
  assert (Hs : d' start = h2)
    by (unfold d'; rewrite app_comm_cons, app_assoc, apply_writes_app; apply dset_eq).
  split; [done|]. intros b Hb.
  destruct (install_prefix (dset (apply_writes d w1) start h1) w2 h2 (w2 ++ [(start, h2)]))
    as [_ Hc]; try done.
  { by rewrite dset_eq. }
  { intros i Hi. rewrite dset_ne by lia. by apply logged_after_write_log. }
  specialize (Hc b Hb).
  replace (apply_writes _ (w2 ++ _)) with d' in Hc by (unfold d'; by rewrite apply_writes_app).
  rewrite committed_empty in Hc by (by rewrite Hs). rewrite Hc. unfold tx_new.
  destruct (decide (b ∈ bs)); [done|]. by rewrite apply_log_writes.
Qed.

(** At any point of a commit the old or the new content is in effect. *)
Lemma commit_prefix d w1 h1 w2 h2 w' :
  wrote (fun j => start + 1 + Z.of_nat j) (fun j => src (nth j bs 0)) (seq 0 (length bs)) w1 ->
  hdr_blocks h1 = bs ->
  wrote (fun j => nth j bs 0) (fun j => src (nth j bs 0)) (seq 0 (length bs)) w2 ->
  hdr_blocks h2 = [] -> hdr_blocks (d start) = [] ->
  w' `prefix_of` w1 ++ (start, h1) :: w2 ++ [(start, h2)] ->
  let d' := apply_writes d w' in
  (d' start = d start \/ d' start = h1 \/ d' start = h2) /\
  ((forall b, home b -> committed start d' b ≡b d b) \/
   (forall b, home b -> committed start d' b ≡b tx_new bs src d b)).
Proof.
  intros Hw1 Hh1 Hw2 Hh2 Hd Hp d'.
  assert (Hout : forall b, b ∈ map fst w1 -> start < b < start + size).
  { intros b Hb. rewrite (wrote_fst _ _ _ _ Hw1) in Hb.
    apply list_elem_of_In, in_map_iff in Hb as (i & <- & Hi%in_seq). lia. }
  assert (Hfr : forall b, ~ (start < b < start + size) -> apply_writes d w1 b = d b)
    by (intros b Hb; apply apply_writes_notin; intros ?%Hout; done).
  apply prefix_app_or in Hp as [[w3 Hw3]|(w3 & -> & Hp)].
  - assert (Hsub : forall b, ~ (start < b < start + size) -> d' b = d b).
    { intros b Hb. apply apply_writes_notin. intros Hin. apply Hb, Hout.
      rewrite Hw3, map_app. apply elem_of_app. by left. }
    split; [left; apply Hsub; lia|left]. intros b Hb.
    rewrite committed_empty; rewrite Hsub by (unfold home in *; lia); done.
  - destruct w3 as [|bm w3].
    { subst d'. rewrite app_nil_r. split; [left; apply Hfr; lia|left]. intros b Hb.
      rewrite committed_empty; rewrite Hfr by (unfold home in *; lia); done. }
    apply prefix_cons_inv_1 in Hp as Hbm. subst bm. apply prefix_cons_inv_2 in Hp.
    subst d'. rewrite apply_writes_app. simpl. set (d1 := dset (apply_writes d w1) start h1).
    destruct (install_prefix d1 w2 h2 w3) as [Hs Hc]; try done.
    { unfold d1. by rewrite dset_eq. }
    { intros i Hi. unfold d1. rewrite dset_ne by lia. by apply logged_after_write_log. }
    fold (apply_writes d1 w3). split.
    { right. unfold d1 at 2 in Hs. by rewrite dset_eq in Hs. }
    right. intros b Hb. rewrite Hc by done. unfold tx_new.
    destruct (decide (b ∈ bs)); [done|]. unfold d1. by rewrite apply_log_writes.
Qed.

End install.

(** ** Recovery on a disk image *)

Lemma index_of_nth l i : NoDup l -> (i < length l)%nat -> index_of (nth i l 0) l = Some i.
Proof.
  intros Hn. revert i. induction Hn as [|x l Hx Hn IH]; intros i Hi; simpl in *; [lia|].
  destruct i as [|i]; [by rewrite Z.eqb_refl|]. rewrite IH by lia.
  destruct (Z.eqb_spec x (nth i l 0)) as [->|]; [|done].
  destruct Hx. apply list_elem_of_In, nth_In. lia.
Qed.

Lemma logged_committed d : hdr_ok start size (d start) ->
  logged (hdr_blocks (d start)) (committed start d) d.
Proof.
  intros Hok i Hi. unfold committed. by rewrite index_of_nth by (done || apply Hok).
Qed.

Lemma tx_new_committed d b :
  tx_new (hdr_blocks (d start)) (committed start d) d b = committed start d b.
Proof.
  unfold tx_new, committed. destruct (index_of b _) eqn:E.
  - apply index_of_Some in E as [Hi Hb]. rewrite decide_True; [done|].
    rewrite <- Hb. apply list_elem_of_In, nth_In. done.
  - by destruct (decide _).
Qed.

(** A recovery cut at any write keeps the content in effect. *)
Lemma recover_prefix d w2 h2 w' :
  hdr_ok start size (d start) ->
  wrote (fun j => nth j (hdr_blocks (d start)) 0) (fun j => d (start + 1 + Z.of_nat j))
        (seq 0 (length (hdr_blocks (d start)))) w2 ->
  hdr_blocks h2 = [] -> w' `prefix_of` w2 ++ [(start, h2)] ->
  (apply_writes d w' start = d start \/ apply_writes d w' start = h2) /\
  forall b, home b -> committed start (apply_writes d w') b ≡b committed start d b.
Proof.
  intros Hok Hw Hh2 Hp. set (bs := hdr_blocks (d start)) in *.
  destruct (install_prefix bs (committed start d)) with (d := d) (w2 := w2) (h2 := h2) (w' := w')
    as [Hs Hc]; try done; try apply Hok.
  - unfold bs. rewrite length_hdr_blocks. pose proof (ho_n _ _ _ Hok). pose proof (ho_fit _ _ _ Hok). lia.
  - by apply logged_committed.
  - eapply wrote_src; [|exact Hw]. intros j [_ Hj]%in_seq. simpl.
    unfold committed. fold bs. by rewrite index_of_nth by (done || apply Hok).
  - split; [done|]. intros b Hb. rewrite Hc by done. unfold bs. by rewrite tx_new_committed.
Qed.

End disk_images.

(** ** The writes of a commit and of a recovery *)

Lemma hdr_ok_head lg bs buf : log_ok lg bs -> hdr_ok (l_start lg) (l_size lg) (head_block lg buf).
Proof.
  intros Hok. pose proof (lo_n _ _ Hok) as Hn.
  assert (Hh : hdr_n (head_block lg buf) = Z.of_nat (length bs)).
  { pose proof (lo_buf _ _ Hok). rewrite hdr_n_head; [done|]. unfold NBUF, MAXOPBLOCKS in *. lia. }
  split; rewrite ?(hdr_blocks_head lg bs), ?Hh; try done; try apply Hok. lia.
Qed.

Lemma log_ok_set_n lg bs : log_ok lg bs -> log_ok (set_n lg 0) [].
Proof.
  intros [Hn Hb Hf Hu Hd Hh Ha]. split; simpl; try done; try lia; constructor.
Qed.

Section traces.
Context {C : Type} `{!BlockCache C} `{!BlockCacheLaws C}.

Definition log_addr (lg : log) (j : nat) : Z := l_start lg + 1 + Z.of_nat j.

Lemma written_ran_dirty c c' d M :
  bc_held c = ∅ -> d ∉ bc_dirty c -> written c c' d M ->
  ran c c' [(d, M)] /\ bc_dirty c' = bc_dirty c.
Proof.
  intros Hh Hd Hw. split; [by apply written_ran|]. rewrite (wr_dirty _ _ _ _ Hw). set_solver.
Qed.

Lemma write_head_ran lg c :
  bc_inv c -> bc_held c = ∅ -> 0 <= l_start lg < FSSIZE -> Z.of_nat (size (bc_dirty c)) < NBUF ->
  l_start lg ∉ bc_dirty c ->
  exists c' h, write_head lg c = Ok c' /\ ran c c' [(l_start lg, h)] /\ bc_dirty c' = bc_dirty c /\
    exists buf, h = head_block lg buf.
Proof.
  intros Hi Hh Hs Hsz Hd. destruct (write_head_spec lg c) as (c' & E & Hw); try done.
  destruct (written_ran_dirty _ _ _ _ Hh Hd Hw) as [Hr Hy].
  eexists c', _. split_and!; [done | done | done | by eexists].
Qed.

Lemma start_not_home lg bs : log_ok lg bs -> l_start lg ∉ bs.
Proof.
  intros Hok Hx. pose proof (lo_home _ _ Hok) as Hf. rewrite Forall_forall in Hf.
  apply Hf in Hx. pose proof (lo_fit _ _ Hok). lia.
Qed.

(** The disk writes of a commit, in order: the log, the header, the home
    blocks, the empty header. *)
Lemma commit_trace lg bs c :
  log_ok lg bs -> bs <> [] -> bc_inv c -> bc_held c = ∅ -> bc_dirty c = list_to_set bs ->
  exists c' w1 h1 w2 h2, commit lg c = Ok (set_n lg 0, c') /\
    ran c c' (w1 ++ (l_start lg, h1) :: w2 ++ [(l_start lg, h2)]) /\ bc_dirty c' = ∅ /\
    wrote (log_addr lg) (fun j => bc_view c (nth j bs 0)) (seq 0 (length bs)) w1 /\
    wrote (fun j => nth j bs 0) (fun j => bc_view c (nth j bs 0)) (seq 0 (length bs)) w2 /\
    (hdr_blocks h1 = bs /\ hdr_ok (l_start lg) (l_size lg) h1) /\
    (hdr_blocks h2 = [] /\ hdr_ok (l_start lg) (l_size lg) h2).
Proof.
  intros Hok Hne Hi Hh Hd. pose proof (lo_n _ _ Hok) as Hn.
  pose proof (lo_fit _ _ Hok). pose proof (lo_buf _ _ Hok). destruct (lo_area _ _ Hok).
  assert (Hpos : (0 < length bs)%nat) by (destruct bs; simpl in *; [done|lia]).
  pose proof (start_not_home _ _ Hok) as Hst.
  unfold commit, write_log, install_trans. rewrite Hn, Nat2Z.id.
  rewrite (proj2 (Z.ltb_lt _ _)) by lia.
  destruct (write_log_loop_spec (length bs) 0 lg bs c) as (c1 & w1 & E1 & R1 & D1 & W1); try done.
  change (Z.of_nat 0) with 0 in E1. rewrite E1. simpl.
  destruct (write_head_ran lg c1) as (c2 & h1 & E2 & R2 & D2 & buf1 & Hb1); try apply R1; try lia.
  { rewrite D1, size_list_to_set by apply Hok. lia. }
  { rewrite D1. set_solver. }
  rewrite E2. simpl.
  destruct (install_trans_loop_spec (length bs) 0 lg bs c2) as (c3 & w2 & E3 & R3 & D3 & W3);
    try done; try apply R2. { left. by rewrite D2, D1. }
  change (Z.of_nat 0) with 0 in E3. rewrite E3. simpl.
  destruct (write_head_ran (set_n lg 0) c3) as (c4 & h2 & E4 & R4 & D4 & buf2 & Hb2);
    try apply R3; simpl; try lia; try (rewrite D3; done || set_solver).
  rewrite E4. simpl. exists c4, w1, h1, w2, h2. split_and!; try done.
  - pose proof (ran_app _ _ _ _ _ R1 (ran_app _ _ _ _ _ R2 (ran_app _ _ _ _ _ R3 R4))) as R.
    exact R.
  - congruence.
  - eapply wrote_src; [|exact W3]. simpl. intros j [_ Hj]%in_seq.
    rewrite (ran_view _ _ _ R2) by lia. simpl. rewrite dset_ne by lia.
    rewrite (ran_view _ _ _ R1) by lia.
    apply (logged_after_write_log (l_start lg) bs (bc_view c) (bc_view c) w1 W1 j Hj).
  - subst h1. by apply hdr_blocks_head.
  - subst h1. by eapply hdr_ok_head.
  - subst h2. by apply hdr_blocks_erase.
  - subst h2. eapply (hdr_ok_head (set_n lg 0)). by eapply log_ok_set_n.
Qed.

Lemma read_head_spec lg c :
  bc_inv c -> bc_held c = ∅ -> bc_dirty c = ∅ -> 0 <= l_start lg < FSSIZE ->
  (Z.to_nat (hdr_n (bc_view c (l_start lg))) <= length (lh_block (l_lh lg)))%nat ->
  exists lg' c', read_head lg c = Ok (lg', c') /\ same c c' ∅ /\
    lg' = set_lh lg (mk_lh (hdr_n (bc_view c (l_start lg)))
            (hdr_blocks (bc_view c (l_start lg)) ++
             drop (Z.to_nat (hdr_n (bc_view c (l_start lg)))) (lh_block (l_lh lg)))).
Proof.
  intros Hi Hh Hd Hs Hlen. unfold read_head.
  destruct (bread_same c (l_start lg)) as (c1 & E1 & [I1 H1 Y1 V1 D1 W1]); auto.
  { rewrite Hh. set_solver. }
  { right. rewrite Hh, Hd. done. }
  rewrite E1. simpl.
  destruct (brelse_same c1 (l_start lg)) as (c2 & E2 & [I2 H2 Y2 V2 D2 W2]); auto.
  { rewrite H1. set_solver. }
  { right. rewrite V1, D1 by done. apply bc_clean_law; auto; rewrite ?Hh, ?Hd; set_solver. }
  rewrite E2. simpl. eexists _, c2. split_and!; [done | | ].
  - split; try congruence.
    + rewrite H2, H1, Hh. set_solver.
    + intros x Hx. rewrite V2, V1 by done. done.
    + intros x Hx. rewrite D2, D1 by done. done.
  - unfold hdr_blocks, hdr_n. rewrite read_head_loop_spec; [done|]. exact Hlen.
Qed.

Lemma log_ok_of_hdr lg h rest : hdr_ok (l_start lg) (l_size lg) h ->
  log_ok (set_lh lg (mk_lh (hdr_n h) (hdr_blocks h ++ rest))) (hdr_blocks h).
Proof.
  intros [Hn Hf Hb Hd Hh Ha]. pose proof (length_hdr_blocks h).
  split; simpl; try done; try lia. by rewrite take_app_length.
Qed.

(** The boot-time log structure: zeroed static data with the log's place. *)
Record boot_log (lg : log) (start size : Z) : Prop := {
  bl_start : l_start lg = start;
  bl_size : l_size lg = size;
  bl_len : Z.of_nat (length (lh_block (l_lh lg))) = LOGSIZE
}.

(** Recovery from a well-formed disk completes; its writes are the committed
    blocks followed by the empty header. *)
Lemma recover_run lg c start size :
  boot_log lg start size -> bc_inv c -> bc_held c = ∅ -> bc_dirty c = ∅ ->
  hdr_ok start size (bc_disk c start) ->
  exists lg' c' w2 h2, recover_from_log lg c = Ok (lg', c') /\ ran c c' (w2 ++ [(start, h2)]) /\
    log_ok lg' [] /\ boot_log lg' start size /\ bc_dirty c' = ∅ /\
    wrote (fun j => nth j (hdr_blocks (bc_disk c start)) 0)
          (fun j => bc_disk c (start + 1 + Z.of_nat j))
          (seq 0 (length (hdr_blocks (bc_disk c start)))) w2 /\
    hdr_blocks h2 = [] /\ hdr_ok start size h2.
Proof.
  intros [<- <- Hlen] Bi Bh By Hok.
  assert (Bv : forall x, 0 <= x < FSSIZE -> bc_view c x = bc_disk c x)
    by (intros x Hx; apply bc_clean_law; auto; rewrite ?Bh, ?By; set_solver).
  pose proof (ho_n _ _ _ Hok) as Hn0. pose proof (ho_fit _ _ _ Hok) as Hf.
  pose proof (ho_buf _ _ _ Hok) as Hu. destruct (ho_area _ _ _ Hok) as [Ha1 Ha2].
  assert (Hst : 0 <= l_start lg < FSSIZE) by lia.
  unfold recover_from_log.
  destruct (read_head_spec lg c) as (lg1 & c1 & E1 & [I1 H1 Y1 V1 D1 W1] & ->); auto.
  { rewrite Bv by done. unfold NBUF, LOGSIZE in *. lia. }
  rewrite E1. simpl. rewrite Bv by done. set (bs := hdr_blocks (bc_disk c (l_start lg))).
  set (lg1 := set_lh lg _).
  assert (Hok1 : log_ok lg1 bs) by by apply log_ok_of_hdr.
  unfold install_trans. rewrite (lo_n _ _ Hok1), Nat2Z.id.
  destruct (install_trans_loop_spec (length bs) 0 lg1 bs c1) as (c2 & w2 & E2 & R2 & D2 & W2);
    try done. { right. congruence. }
  change (Z.of_nat 0) with 0 in E2. rewrite E2. simpl.
  destruct (write_head_ran (set_n lg1 0) c2) as (c3 & h2 & E3 & R3 & D3 & buf & Hb);
    try apply R2; try done; try (rewrite D2; done || set_solver).
  rewrite E3. simpl. exists (set_n lg1 0), c3, w2, h2. split_and!; try done.
  - apply (ran_app c c1 c3 []); [|by eapply ran_app].
    split; simpl; auto. by rewrite app_nil_r.
  - by eapply log_ok_set_n.
  - split; [done..|]. simpl. unfold bs. rewrite length_app, length_hdr_blocks, length_drop.
    unfold NBUF, LOGSIZE in *. lia.
  - congruence.
  - eapply wrote_src; [|exact W2]. intros j [_ Hj]%in_seq. simpl.
    pose proof (lo_fit _ _ Hok1). simpl in *. rewrite V1, Bv by lia. done.
  - subst h2. by apply hdr_blocks_erase.
  - subst h2. eapply (hdr_ok_head (set_n lg1 0)). by eapply log_ok_set_n.
Qed.

(** Recovery at boot. *)
Lemma recover_trace lg d start size :
  boot_log lg start size -> hdr_ok start size (d start) ->
  exists lg' (c' : C) w2 h2, recover_from_log lg (bc_boot d) = Ok (lg', c') /\
    bc_writes c' = w2 ++ [(start, h2)] /\
    wrote (fun j => nth j (hdr_blocks (d start)) 0) (fun j => d (start + 1 + Z.of_nat j))
        (seq 0 (length (hdr_blocks (d start)))) w2 /\
    hdr_blocks h2 = [] /\ hdr_ok start size h2.
Proof.
  intros Hb Hok. destruct (bc_boot_law d) as (Bi & Bv & Bd & Bw & Bh & By).
  pose proof (ho_n _ _ _ Hok). pose proof (ho_fit _ _ _ Hok). destruct (ho_area _ _ _ Hok).
  destruct (recover_run lg (bc_boot d) start size) as (lg' & c' & w2 & h2 & E & R & L & _ & D & W & H1' & H2');
    auto; [by rewrite Bd by lia|].
  exists lg', c', w2, h2. split_and!; try done.
  - by rewrite (ran_writes _ _ _ R), Bw.
  - rewrite Bd in W by lia. eapply wrote_src; [|exact W]. intros j [_ Hj]%in_seq. simpl.
    rewrite length_hdr_blocks in Hj. by rewrite Bd by lia.
Qed.

(** ** Crash atomicity *)

(** A recovery of disk [d] that crashes after some of its writes. *)
Inductive recovery_crash (lg : log) : disk -> disk -> Prop :=
| recovery_crash_intro d lg' (c' : C) w' :
    recover_from_log lg (bc_boot d) = Ok (lg', c') -> w' `prefix_of` bc_writes c' ->
    recovery_crash lg d (apply_writes d w').

Lemma recovery_crash_keeps lg start size d d' :
  boot_log lg start size -> hdr_ok start size (d start) -> recovery_crash lg d d' ->
  hdr_ok start size (d' start) /\
  forall b, home start size b -> committed start d' b ≡b committed start d b.
Proof.
  intros Hb Hok Hs. destruct Hs as [d lg' c' w' E Hp].
  destruct (recover_trace lg d start size Hb Hok)
    as (lg2 & c2 & w2 & h2 & E2 & Hw & W2 & Hh2 & Hok2).
  rewrite E2 in E. simplify_eq. rewrite Hw in Hp.
  destruct (recover_prefix start size d w2 h2 w' Hok W2 Hh2 Hp) as [Hs Hc].
  split; [|done]. by destruct Hs as [->| ->].
Qed.

Lemma recovery_crashes_keep lg start size d d' :
  boot_log lg start size -> rtc (recovery_crash lg) d d' -> hdr_ok start size (d start) ->
  hdr_ok start size (d' start) /\
  forall b, home start size b -> committed start d' b ≡b committed start d b.
Proof.
  intros Hb. induction 1 as [d|d d1 d' Hs _ IH]; intros Hok; [done|].
  destruct (recovery_crash_keeps _ _ _ _ _ Hb Hok Hs) as [Hok1 Hc1].
  destruct (IH Hok1) as [Hok' Hc]. split; [done|]. intros b Hh. by rewrite Hc, Hc1.
Qed.

(** A recovery that runs to its end brings the disk to what was in effect. *)
Lemma recover_completes lg start size (c : C) :
  boot_log lg start size -> bc_inv c -> bc_held c = ∅ -> bc_dirty c = ∅ ->
  hdr_ok start size (bc_disk c start) ->
  exists lg' c', recover_from_log lg c = Ok (lg', c') /\ log_ok lg' [] /\ boot_log lg' start size /\
    bc_inv c' /\ bc_held c' = ∅ /\ bc_dirty c' = ∅ /\
    hdr_blocks (bc_disk c' start) = [] /\ hdr_ok start size (bc_disk c' start) /\
    forall b, home start size b -> bc_disk c' b ≡b committed start (bc_disk c) b.
Proof.
  intros Hb Hi Hh Hd Hok. destruct (recover_run lg c start size Hb Hi Hh Hd Hok)
    as (lg2 & c2 & w2 & h2 & E2 & R & Hl & Hbl & Hdi & W2 & Hh2 & Hok2).
  destruct (recover_prefix start size (bc_disk c) w2 h2 _ Hok W2 Hh2 (reflexivity _)) as [_ Hc].
  assert (He : apply_writes (bc_disk c) (w2 ++ [(start, h2)]) start = h2)
    by (rewrite apply_writes_app; apply dset_eq).
  assert (He' : bc_disk c2 start = h2).
  { destruct (ho_area _ _ _ Hok). pose proof (ho_fit _ _ _ Hok). pose proof (ho_n _ _ _ Hok).
    by rewrite (ran_disk _ _ _ R), He by lia. }
  exists lg2, c2. split_and!; rewrite ?He'; try done; try apply R.
  intros b Hbh. rewrite (ran_disk _ _ _ R) by apply Hbh.
  rewrite <- (Hc b Hbh), committed_empty; [done|]. by rewrite He.
Qed.

Lemma committed_ext start size (d d' : disk) b :
  (forall x, 0 <= x < FSSIZE -> d x = d' x) -> hdr_ok start size (d start) -> 0 <= b < FSSIZE ->
  committed start d b = committed start d' b.
Proof.
  intros H Hok Hb. unfold committed. pose proof (ho_n _ _ _ Hok) as Hn.
  pose proof (ho_fit _ _ _ Hok) as Hf. destruct (ho_area _ _ _ Hok).
  rewrite <- !H by lia. destruct (index_of b _) eqn:E; [|by auto].
  apply index_of_Some in E as [Hi _]. rewrite length_hdr_blocks in Hi. apply H. lia.
Qed.

Lemma boot_recovers lg start size d :
  boot_log lg start size -> hdr_ok start size (d start) ->
  exists lg' (c' : C), recover_from_log lg (bc_boot d) = Ok (lg', c') /\ log_ok lg' [] /\
    forall b, home start size b -> bc_disk c' b ≡b committed start d b.
Proof.
  intros Hb Hok. destruct (bc_boot_law d) as (Bi & Bv & Bd & Bw & Bh & By).
  pose proof (ho_n _ _ _ Hok). pose proof (ho_fit _ _ _ Hok). destruct (ho_area _ _ _ Hok).
  destruct (recover_completes lg start size (bc_boot d))
    as (lg' & c' & E & L & _ & _ & _ & _ & _ & _ & Hc); auto; [by rewrite Bd by lia|].
  exists lg', c'. split_and!; [done..|]. intros b Hbh. rewrite Hc by done.
  rewrite (committed_ext start size _ d); [done|done|by rewrite Bd by lia|apply Hbh].
Qed.

Lemma tx_new_view bs c b : bc_inv c -> bc_held c = ∅ -> bc_dirty c = list_to_set bs ->
  0 <= b < FSSIZE -> tx_new bs (bc_view c) (bc_disk c) b = bc_view c b.
Proof.
  intros Hi Hh Hd Hb. unfold tx_new. destruct (decide (b ∈ bs)); [done|].
  symmetry. apply bc_clean_law; [done..| |]; rewrite ?Hh, ?Hd; set_solver.
Qed.

End traces.

Section atomicity.
Context {C : Type} `{!BlockCache C} `{!BlockCacheLaws C}.

(** A commit is atomic across crashes.  Let a transaction have modified the
    blocks [bs] in the cache ([bc_view]) of a disk whose log is empty.  Then
    [commit] completes, and if the machine crashes after any prefix [w'] of its
    disk writes, reboots, and crashes any number of times during recovery, then
    the recovery that finally runs to its end completes and leaves on every
    block outside the log either its content before the transaction, for all
    blocks, or its content after the transaction, for all blocks. *)
Lemma commit_crash_atomic (lg lgb : log) (bs : list Z) (c : C) :
  log_ok lg bs -> bs <> [] -> bc_inv c -> bc_held c = ∅ -> bc_dirty c = list_to_set bs ->
  hdr_ok (l_start lg) (l_size lg) (bc_disk c (l_start lg)) ->
  hdr_blocks (bc_disk c (l_start lg)) = [] -> boot_log lgb (l_start lg) (l_size lg) ->
  exists lg1 c1 w, commit lg c = Ok (lg1, c1) /\ bc_writes c1 = bc_writes c ++ w /\
  forall w' d, w' `prefix_of` w ->
    rtc (recovery_crash (C := C) lgb) (apply_writes (bc_disk c) w') d ->
    exists lg2 (c2 : C), recover_from_log lgb (bc_boot d) = Ok (lg2, c2) /\ log_ok lg2 [] /\
      ((forall b, home (l_start lg) (l_size lg) b -> bc_disk c2 b ≡b bc_disk c b) \/
       (forall b, home (l_start lg) (l_size lg) b -> bc_disk c2 b ≡b bc_view c b)).
Proof.
  intros Hok Hne Hi Hh Hd Hho Hhe Hb.
  destruct (commit_trace lg bs c) as (c1 & w1 & h1 & w2 & h2 & E & R & Hd1 & W1 & W2 & [Hb1 Ho1] & [Hb2 Ho2]);
    try done.
  eexists _, c1, _. split_and!; [done | apply R |]. intros w' d Hp Hrc.
  destruct (commit_prefix (l_start lg) (l_size lg) bs (bc_view c) (lo_home _ _ Hok) (lo_nodup _ _ Hok)
    (lo_fit _ _ Hok) (bc_disk c) w1 h1 w2 h2 w' W1 Hb1 W2 Hb2 Hhe Hp) as [Hs Hc].
  assert (Hokd : hdr_ok (l_start lg) (l_size lg) (apply_writes (bc_disk c) w' (l_start lg)))
    by (by destruct Hs as [->|[->| ->]]).
  destruct (recovery_crashes_keep _ _ _ _ _ Hb Hrc Hokd) as [Hok' Hc'].
  destruct (boot_recovers (C := C) _ _ _ _ Hb Hok') as (lg2 & c2 & E2 & Hl2 & Hdisk).
  exists lg2, c2. split_and!; [done..|].
  destruct Hc as [Hc|Hc]; [left|right]; intros b Hbh;
    rewrite Hdisk, Hc', Hc by done; [done|].
  by rewrite tx_new_view by (done || apply Hbh).
Qed.

(** A commit that returns is durable: every block outside the log has its
    new content on the disk, the on-disk log is empty again, no buffer stays
    dirty or locked, the cache shows the same content as before, and only the
    header count of the in-memory log changed. *)
Lemma commit_durable (lg : log) (bs : list Z) (c : C) :
  log_ok lg bs -> bs <> [] -> bc_inv c -> bc_held c = ∅ -> bc_dirty c = list_to_set bs ->
  exists c1, commit lg c = Ok (set_n lg 0, c1) /\ bc_inv c1 /\ bc_held c1 = ∅ /\ bc_dirty c1 = ∅ /\
    hdr_blocks (bc_disk c1 (l_start lg)) = [] /\
    hdr_ok (l_start lg) (l_size lg) (bc_disk c1 (l_start lg)) /\
    forall b, home (l_start lg) (l_size lg) b ->
      bc_disk c1 b ≡b bc_view c b /\ bc_view c1 b ≡b bc_view c b.
Proof.
  intros Hok Hne Hi Hh Hd.
  destruct (commit_trace lg bs c) as (c1 & w1 & h1 & w2 & h2 & E & R & Hd1 & W1 & W2 & [Hb1 Ho1] & [Hb2 Ho2]);
    try done.
  pose proof (commit_full (l_start lg) (l_size lg) bs (bc_view c) (lo_home _ _ Hok)
    (lo_nodup _ _ Hok) (lo_fit _ _ Hok)) as Hfull.
  assert (Hs : bc_disk c1 (l_start lg) = h2).
  { destruct (lo_area _ _ Hok). pose proof (lo_fit _ _ Hok). rewrite (ran_disk _ _ _ R) by lia.
    apply (Hfull (bc_disk c) _ _ _ _ W1 Hb1 W2 Hb2). }
  exists c1. split_and!; rewrite ?Hs; try done; try apply R.
  intros b Hb. rewrite (ran_disk _ _ _ R), (ran_view _ _ _ R) by apply Hb.
  rewrite !(proj2 (Hfull _ _ _ _ _ W1 Hb1 W2 Hb2)) by done.
  rewrite tx_new_view by (done || apply Hb). unfold tx_new. by destruct (decide _).
Qed.

End atomicity.
