(* ===== verification/LogTx.v ===== *)
(** * Transactions of the log (src/log.c)

    The abstract contract of the log: a durable disk, the content the running
    system calls see, and the number of system calls in progress; a transaction
    groups every update made until no call is in progress, and becomes durable
    at once.  [log_refines_tx] shows that [begin_op], [log_write] and [end_op]
    implement it, at every point where the machine may crash.  The reservation
    made by [begin_op] is analysed against the limit tested by [log_write]. *)

From S2P Require Import Prelude Layout Blocks Log LogCrash.

(** ** Log absorption *)

Lemma absorb_index_found l n b :
  (n <= length l)%nat -> b ∈ take n l ->
  exists i, absorb_index l n b = i /\ (i < n)%nat /\ l !! i = Some b.
Proof.
  revert n. induction l as [|x l IH]; intros n Hn Hb; destruct n as [|n]; simpl in *;
    try (by apply not_elem_of_nil in Hb); try lia.
  destruct (Z.eqb_spec x b) as [->|Hne]; [exists 0%nat; split_and!; [done|lia|done]|].
  apply elem_of_cons in Hb as [->|Hb]; [done|].
  destruct (IH n ltac:(lia) Hb) as (i & -> & Hi & Hl). exists (S i). split_and!; [done|lia|done].
Qed.

Lemma absorb_index_new l n b :
  (n <= length l)%nat -> b ∉ take n l -> absorb_index l n b = n.
Proof.
  revert n. induction l as [|x l IH]; intros n Hn Hb; destruct n as [|n]; simpl in *; try done; try lia.
  apply not_elem_of_cons in Hb as [Hx Hb]. destruct (Z.eqb_spec x b) as [->|]; [done|].
  rewrite IH by (done || lia). done.
Qed.

Definition log_add (bs : list Z) (b : Z) : list Z := if decide (b ∈ bs) then bs else bs ++ [b].

Lemma log_add_set bs b : (list_to_set (log_add bs b) : gset Z) = {[b]} ∪ list_to_set bs.
Proof. unfold log_add. destruct (decide (b ∈ bs)); set_solver. Qed.

Lemma log_write_head_spec lg bs b :
  log_ok lg bs -> home (l_start lg) (l_size lg) b ->
  Z.of_nat (length (lh_block (l_lh lg))) = LOGSIZE -> l_size lg <= NBUF ->
  lh_n (l_lh lg) < l_size lg - 1 -> 0 < l_outstanding lg ->
  exists lh, log_write_head lg b = Ok (set_lh lg lh) /\
    log_ok (set_lh lg lh) (log_add bs b) /\ Z.of_nat (length (lh_block lh)) = LOGSIZE.
Proof.
  intros Hok Hb Hlen Hsz Hn Ho. pose proof (lo_n _ _ Hok) as Hnn. unfold log_write_head.
  assert (HL : LOGSIZE = 30) by done. assert (HN : NBUF = 30) by done.
  assert (Hle : (length bs <= length (lh_block (l_lh lg)))%nat) by lia.
  destruct Hok as [_ Hbs Hf Hu Hd Hh Ha].
  rewrite (proj2 (Z.leb_gt _ _)), (proj2 (Z.leb_gt _ _)), (proj2 (Z.ltb_ge _ _)) by lia.
  simpl. rewrite Hnn, Nat2Z.id. unfold log_add. destruct (decide (b ∈ bs)) as [Hin|Hin].
  - rewrite Hbs in Hin. destruct (absorb_index_found _ _ _ Hle Hin) as (i & -> & Hi & Hl).
    rewrite (proj2 (Z.eqb_neq _ _)) by lia. rewrite list_insert_id by done.
    eexists. split_and!; [done| |done]. by split.
  - assert (Hnew : b ∉ take (length bs) (lh_block (l_lh lg))) by by rewrite <- Hbs.
    rewrite (absorb_index_new _ _ _ Hle Hnew), Z.eqb_refl.
    eexists. split_and!; [done| |by simpl; rewrite length_insert].
    split; simpl; rewrite ?length_app; simpl; try lia; try done.
    + rewrite Nat.add_1_r. erewrite take_S_r by (apply list_lookup_insert_eq; lia).
      rewrite take_insert_ge by lia. by rewrite <- Hbs.
    + apply NoDup_app. split_and!; [done| |apply NoDup_singleton]. set_solver.
    + apply Forall_app. split; [done|]. by apply Forall_singleton.
Qed.

(** ** The contract *)

Record tx := mk_tx {
  durable : disk;       (* what a crash preserves *)
  current : disk;       (* what system calls see *)
  active : Z            (* system calls in progress *)
}.

Inductive tx_op := TxBegin | TxUpdate (b : Z) (m : mem) | TxEnd.

Definition tx_step (op : tx_op) (s : tx) : tx :=
  match op with
  | TxBegin => mk_tx (durable s) (current s) (active s + 1)
  | TxUpdate b m => mk_tx (durable s) (dset (current s) b m) (active s)
  | TxEnd => if active s - 1 =? 0 then mk_tx (current s) (current s) 0
             else mk_tx (durable s) (current s) (active s - 1)
  end.

Section tx.
Context {C : Type} `{!BlockCache C}.

(** The typical use of [log_write]: bread, modify, log_write, brelse. *)
Definition log_update (b : Z) (m : mem) (lg : log) (c : C) : res (log * C) :=
  let* (_, c) := bread b c in
  let c := bset b m c in
  let* (lg, c) := log_write b lg c in
  let* c := brelse b c in
  Ok (lg, c).

Definition run_op (op : tx_op) (lg : log) (c : C) : res (log * C) :=
  match op with
  | TxBegin => let* lg := begin_op lg in Ok (lg, c)
  | TxUpdate b m => log_update b m lg c
  | TxEnd => end_op lg c
  end.

(** The operations a system call may issue: [begin_op] when it does not have to
    wait, an update of a home block inside a transaction that still has room,
    and [end_op] inside a transaction. *)
Definition op_ok (op : tx_op) (lg : log) : Prop :=
  match op with
  | TxBegin => lh_n (l_lh lg) + (l_outstanding lg + 1) * MAXOPBLOCKS <= LOGSIZE
  | TxUpdate b _ => home (l_start lg) (l_size lg) b /\ 0 < l_outstanding lg /\
                    lh_n (l_lh lg) < l_size lg - 1
  | TxEnd => 0 < l_outstanding lg
  end.
End tx.

Section refinement.
Context {C : Type} `{!BlockCache C} `{!BlockCacheLaws C}.

Record tx_rel (s : tx) (lg : log) (c : C) (bs : list Z) : Prop := {
  tr_ok : log_ok lg bs;
  tr_inv : bc_inv c;
  tr_held : bc_held c = ∅;
  tr_dirty : bc_dirty c = list_to_set bs;
  tr_empty : hdr_blocks (bc_disk c (l_start lg)) = [];
  tr_hdr : hdr_ok (l_start lg) (l_size lg) (bc_disk c (l_start lg));
  tr_committing : l_committing lg = false;
  tr_active : l_outstanding lg = active s;
  tr_idle : active s = 0 -> bs = [];
  tr_nonneg : 0 <= active s;
  tr_len : Z.of_nat (length (lh_block (l_lh lg))) = LOGSIZE;
  tr_size : l_size lg <= NBUF;
  tr_durable b : home (l_start lg) (l_size lg) b -> bc_disk c b ≡b durable s b;
  tr_current b : home (l_start lg) (l_size lg) b -> bc_view c b ≡b current s b
}.

Lemma log_ok_outstanding lg bs o k : log_ok lg bs -> log_ok (set_outstanding lg o k) bs.
Proof. by intros []; split. Qed.

(** What a crash between operations leaves: the durable content. *)
Lemma crash_between s lg c bs lgb d :
  tx_rel s lg c bs -> boot_log lgb (l_start lg) (l_size lg) ->
  rtc (recovery_crash (C := C) lgb) (bc_disk c) d ->
  exists lg2 (c2 : C), recover_from_log lgb (bc_boot d) = Ok (lg2, c2) /\
    forall b, home (l_start lg) (l_size lg) b -> bc_disk c2 b ≡b durable s b.
Proof.
  intros Hr Hb Hrc.
  destruct (recovery_crashes_keep _ _ _ _ _ Hb Hrc (tr_hdr _ _ _ _ Hr)) as [Hok Hc].
  destruct (boot_recovers (C := C) _ _ _ _ Hb Hok) as (lg2 & c2 & E & _ & Hd).
  exists lg2, c2. split; [done|]. intros b Hh. rewrite Hd, Hc by done.
  rewrite committed_empty by apply Hr. by apply Hr.
Qed.

Lemma begin_sim s lg c bs : tx_rel s lg c bs -> op_ok TxBegin lg ->
  exists lg', begin_op lg = Ok lg' /\ l_start lg' = l_start lg /\ l_size lg' = l_size lg /\
    tx_rel (tx_step TxBegin s) lg' c bs.
Proof.
  intros Hr Hop. simpl in Hop. unfold begin_op. rewrite (tr_committing _ _ _ _ Hr).
  rewrite (proj2 (Z.ltb_ge _ _)) by done. eexists. split_and!; [done..|].
  destruct Hr as [Hok Hi Hh Hd He Hho Hco Ha Hid Hnn Hl Hs Hdu Hcu].
  split; simpl; try done; try lia. by apply log_ok_outstanding.
Qed.

Lemma log_update_spec b m lg c bs :
  log_ok lg bs -> bc_inv c -> bc_held c = ∅ -> bc_dirty c = list_to_set bs ->
  home (l_start lg) (l_size lg) b -> Z.of_nat (length (lh_block (l_lh lg))) = LOGSIZE ->
  l_size lg <= NBUF -> lh_n (l_lh lg) < l_size lg - 1 -> 0 < l_outstanding lg ->
  exists lh c', log_update b m lg c = Ok (set_lh lg lh, c') /\
    log_ok (set_lh lg lh) (log_add bs b) /\ Z.of_nat (length (lh_block lh)) = LOGSIZE /\
    bc_inv c' /\ bc_held c' = ∅ /\ bc_dirty c' = list_to_set (log_add bs b) /\
    bc_writes c' = bc_writes c /\
    (forall x, 0 <= x < FSSIZE -> bc_disk c' x = bc_disk c x) /\
    (forall x, 0 <= x < FSSIZE -> bc_view c' x = dset (bc_view c) b m x).
Proof.
  intros Hok Hi Hh Hd Hb Hlen Hsz Hn Ho. unfold log_update.
  pose proof (lo_buf _ _ Hok) as Hu. destruct Hb as [Hb Hnl].
  destruct (bread_same c b) as (c1 & E1 & [I1 H1 Y1 V1 D1 W1]); auto.
  { rewrite Hh. set_solver. }
  { right. rewrite Hh, Hd, union_empty_l_L, size_list_to_set by apply Hok. done. }
  rewrite E1. simpl. rewrite Hh, union_empty_r_L in H1.
  destruct (bset_law c1 b m I1 Hb) as (I2 & V2 & D2 & W2 & H2 & Y2); [rewrite H1; set_solver|].
  destruct (bpin_law (bset b m c1) b I2 Hb) as (I3 & V3 & D3 & W3 & H3 & Y3);
    [rewrite H2, H1; set_solver|].
  destruct (log_write_head_spec lg bs b) as (lh & E2 & Hok' & Hlen'); [done|by split|done..|].
  unfold log_write. rewrite E2. simpl.
  destruct (brelse_same (bpin b (bset b m c1)) b) as (c4 & E4 & [I4 H4 Y4 V4 D4 W4]); auto.
  { rewrite H3, H2, H1. set_solver. }
  { left. rewrite Y3. set_solver. }
  rewrite E4. simpl. exists lh, c4. split_and!; try done.
  - rewrite H4, H3, H2, H1. set_solver.
  - rewrite Y4, Y3, Y2, Y1, Hd, log_add_set. done.
  - congruence.
  - intros x Hx. rewrite D4, D3, D2, D1 by done. done.
  - intros x Hx. rewrite V4, V3, V2, V1 by done. done.
Qed.

Lemma update_sim s lg c bs b m : tx_rel s lg c bs -> op_ok (TxUpdate b m) lg ->
  exists lg' c', log_update b m lg c = Ok (lg', c') /\ l_start lg' = l_start lg /\
    l_size lg' = l_size lg /\ bc_writes c' = bc_writes c /\
    tx_rel (tx_step (TxUpdate b m) s) lg' c' (log_add bs b).
Proof.
  intros Hr (Hb & Ho & Hn).
  destruct (log_update_spec b m lg c bs) as (lh & c' & E & Hok' & Hl' & I & H & Y & W & D & V);
    try apply Hr; try done.
  destruct (lo_area _ _ Hok') as [Ha1 Ha2]. pose proof (lo_fit _ _ Hok'). simpl in *.
  exists (set_lh lg lh), c'. split_and!; [done..|].
  destruct Hr as [Hok Hi Hh Hd He Hho Hco Ha Hid Hnn Hl Hs Hdu Hcu].
  split; simpl; rewrite ?D by lia; try done.
  - intros Hz. lia.
  - intros x Hx. rewrite D by apply Hx. by apply Hdu.
  - intros x Hx. rewrite V by apply Hx. unfold dset. destruct (x =? b); [done|]. by apply Hcu.
Qed.

(** What the crash theorem says of the writes [w] an operation performs. *)
Definition crash_to (lg lgb : log) (c : C) (w : list (Z * mem)) (old new : disk) : Prop :=
  forall w' d, w' `prefix_of` w ->
    rtc (recovery_crash (C := C) lgb) (apply_writes (bc_disk c) w') d ->
    exists lg2 (c2 : C), recover_from_log lgb (bc_boot d) = Ok (lg2, c2) /\
      ((forall b, home (l_start lg) (l_size lg) b -> bc_disk c2 b ≡b old b) \/
       (forall b, home (l_start lg) (l_size lg) b -> bc_disk c2 b ≡b new b)).

Lemma crash_to_nil s lg c bs lgb new :
  tx_rel s lg c bs -> boot_log lgb (l_start lg) (l_size lg) -> crash_to lg lgb c [] (durable s) new.
Proof.
  intros Hr Hb w' d ->%prefix_nil_inv Hrc.
  destruct (crash_between _ _ _ _ _ _ Hr Hb Hrc) as (lg2 & c2 & E & H).
  exists lg2, c2. split; [done|by left].
Qed.

(** [end_op] of a call that is not the last one only decrements the count. *)
Lemma end_sim_more s lg c bs : tx_rel s lg c bs -> 1 < active s ->
  exists lg', end_op lg c = Ok (lg', c) /\ tx_rel (tx_step TxEnd s) lg' c bs.
Proof.
  intros Hr Ha. unfold end_op. rewrite (tr_committing _ _ _ _ Hr), (tr_active _ _ _ _ Hr).
  rewrite (proj2 (Z.eqb_neq _ _)) by lia. eexists. split; [done|]. simpl.
  rewrite (proj2 (Z.eqb_neq _ _)) by lia.
  destruct Hr as [Hok Hi Hh Hd He Hho Hco Ha' Hid Hnn Hl Hs Hdu Hcu].
  split; simpl; try done; try lia. by apply log_ok_outstanding.
Qed.

(** [end_op] of the last call, with nothing to commit. *)
Lemma end_sim_empty s lg c : tx_rel s lg c [] -> active s = 1 ->
  exists lg', end_op lg c = Ok (lg', c) /\ tx_rel (tx_step TxEnd s) lg' c [].
Proof.
  intros Hr Ha. unfold end_op. rewrite (tr_committing _ _ _ _ Hr), (tr_active _ _ _ _ Hr), Ha.
  simpl. unfold commit. simpl. pose proof (lo_n _ _ (tr_ok _ _ _ _ Hr)) as Hn. simpl in Hn.
  rewrite Hn. simpl. eexists. split; [done|]. rewrite Ha. simpl.
  destruct Hr as [Hok Hi Hh Hd He Hho Hco Ha' Hid Hnn Hl Hs Hdu Hcu].
  split; simpl; try done; try lia. { by apply log_ok_outstanding, log_ok_outstanding. }
  intros b Hb. rewrite <- Hcu by done. rewrite bc_clean_law; try done; try apply Hb.
  - rewrite Hh. set_solver.
  - rewrite Hd. set_solver.
Qed.

(** [end_op] of the last call commits. *)
Lemma end_sim_commit s lg c bs lgb :
  tx_rel s lg c bs -> bs <> [] -> active s = 1 -> boot_log lgb (l_start lg) (l_size lg) ->
  exists lg' c' w, end_op lg c = Ok (lg', c') /\ bc_writes c' = bc_writes c ++ w /\
    l_start lg' = l_start lg /\ l_size lg' = l_size lg /\
    tx_rel (tx_step TxEnd s) lg' c' [] /\ crash_to lg lgb c w (durable s) (current s).
Proof.
  intros Hr Hne Ha Hb. set (lg0 := set_outstanding lg 0 true).
  assert (Hok0 : log_ok lg0 bs) by (apply log_ok_outstanding, Hr).
  destruct (commit_crash_atomic lg0 lgb bs c) as (lg1 & c1 & w & E & Hw & Hcr); try apply Hr; try done.
  destruct (commit_durable lg0 bs c) as (c1' & E' & I & H & Y & He & Ho & Hd); try apply Hr; try done.
  rewrite E' in E. simplify_eq. unfold end_op.
  rewrite (tr_committing _ _ _ _ Hr), (tr_active _ _ _ _ Hr), Ha.
  change (1 - 1) with 0. rewrite Z.eqb_refl. fold lg0. rewrite E'. simpl.
  eexists _, c1, w. split_and!; try done.
  - rewrite Ha. simpl. destruct Hr as [Hok Hi Hh Hdi Hem Hho Hco Ha' Hid Hnn Hl Hs Hdu Hcu].
    split; simpl; try done; try lia.
    + eapply (log_ok_outstanding (set_n lg0 0)), log_ok_set_n. done.
    + intros b Hbh. rewrite (proj1 (Hd b Hbh)). by apply Hcu.
    + intros b Hbh. rewrite (proj2 (Hd b Hbh)). by apply Hcu.
  - intros w' d Hp Hrc. destruct (Hcr w' d Hp Hrc) as (lg2 & c2 & E2 & _ & Hor).
    exists lg2, c2. split; [done|].
    destruct Hor as [Hx|Hx]; [left|right]; intros b Hbh; rewrite Hx by done; by apply Hr.
Qed.

(** C1: The log refines atomic transactions, crashes included.  From related
    states, every admissible operation ([begin_op] that need not wait, an
    update through [log_write], [end_op]) completes without panic in a state
    related to the abstract step; and if the machine crashes after any prefix of
    the disk writes the operation performs, and then any number of times during
    recovery, the recovery that completes leaves on every home block the durable
    content before the operation, or on every one that after it. *)
Theorem log_refines_tx (s : tx) (lg lgb : log) (c : C) (bs : list Z) (op : tx_op) :
  tx_rel s lg c bs -> op_ok op lg -> boot_log lgb (l_start lg) (l_size lg) ->
  exists lg' c' w bs', run_op op lg c = Ok (lg', c') /\ tx_rel (tx_step op s) lg' c' bs' /\
    bc_writes c' = bc_writes c ++ w /\
    crash_to lg lgb c w (durable s) (durable (tx_step op s)).
Proof.
  intros Hr Hop Hb. destruct op as [|b m|].
  - destruct (begin_sim s lg c bs Hr Hop) as (lg' & E & _ & _ & Hr').
    exists lg', c, [], bs. simpl. rewrite E, app_nil_r. split_and!; try done.
    by eapply crash_to_nil.
  - destruct (update_sim s lg c bs b m Hr Hop) as (lg' & c' & E & _ & _ & W & Hr').
    exists lg', c', [], (log_add bs b). rewrite app_nil_r. split_and!; try done.
    by eapply crash_to_nil.
  - simpl in Hop. rewrite (tr_active _ _ _ _ Hr) in Hop.
    destruct (decide (active s = 1)) as [H1|H1].
    + destruct bs as [|b bs].
      * destruct (end_sim_empty s lg c Hr H1) as (lg' & E & Hr').
        exists lg', c, [], []. rewrite app_nil_r. split_and!; try done. by eapply crash_to_nil.
      * destruct (end_sim_commit s lg c (b :: bs) lgb) as (lg' & c' & w & E & W & _ & _ & Hr' & Hc);
          try done.
        exists lg', c', w, []. split_and!; try done. simpl. rewrite H1. done.
    + destruct (end_sim_more s lg c bs Hr ltac:(lia)) as (lg' & E & Hr').
      exists lg', c, [], bs. rewrite app_nil_r. split_and!; try done. by eapply crash_to_nil.
Qed.

Lemma recover_keeps lg (c : C) lg' c' : recover_from_log lg c = Ok (lg', c') ->
  l_outstanding lg' = l_outstanding lg /\ l_committing lg' = l_committing lg.
Proof.
  unfold recover_from_log. intros H. apply rbind_Ok_inv in H as ([lg1 c1] & E & H).
  repeat (apply rbind_Ok_inv in H as (? & _ & H)). simplify_eq.
  unfold read_head in E. apply rbind_Ok_inv in E as ([? ?] & _ & E).
  apply rbind_Ok_inv in E as (? & _ & E). by simplify_eq.
Qed.

Lemma readsb_spec c : bc_inv c -> bc_held c = ∅ -> bc_dirty c = ∅ ->
  exists c', readsb c = Ok (sb_decode (bc_view c 1), c') /\ same c c' ∅.
Proof.
  intros Hi Hh Hd. assert (H1 : 0 <= 1 < FSSIZE) by done. unfold readsb.
  destruct (bread_same c 1) as (c1 & E1 & [I1 H1' Y1 V1 D1 W1]); auto.
  { rewrite Hh. set_solver. }
  { right. rewrite Hh, Hd. done. }
  rewrite E1. simpl.
  destruct (brelse_same c1 1) as (c2 & E2 & [I2 H2 Y2 V2 D2 W2]); auto.
  { rewrite H1'. set_solver. }
  { right. rewrite V1, D1 by done. apply bc_clean_law; auto; rewrite ?Hh, ?Hd; set_solver. }
  rewrite E2. simpl. exists c2. split; [done|]. split; try congruence.
  - rewrite H2, H1', Hh. set_solver.
  - intros x Hx. rewrite V2, V1 by done. done.
  - intros x Hx. rewrite D2, D1 by done. done.
Qed.

(** Booting establishes the contract: on any disk whose superblock places
    the log and whose log header is well formed, [initlog] completes and leaves
    an idle log whose durable and current contents are what the disk's log had
    committed. *)
Theorem initlog_establishes (d : disk) (dev : Z) (lg : log) :
  let sb := sb_decode (d 1) in
  hdr_ok (sb_logstart sb) (sb_nlog sb) (d (sb_logstart sb)) -> sb_nlog sb <= NBUF ->
  Z.of_nat (length (lh_block (l_lh lg))) = LOGSIZE ->
  l_outstanding lg = 0 -> l_committing lg = false ->
  exists lg' (c' : C), initlog dev lg (bc_boot d) = Ok (lg', c') /\
    tx_rel (mk_tx (committed (sb_logstart sb) d) (committed (sb_logstart sb) d) 0) lg' c' [].
Proof.
  intros sb Hok Hnb Hlen Ho Hc. destruct (bc_boot_law d) as (Bi & Bv & Bd & Bw & Bh & By).
  destruct (readsb_spec (bc_boot d) Bi Bh By) as (c1 & E1 & [I1 H1 Y1 V1 D1 W1]).
  unfold initlog. rewrite (proj2 (Z.leb_gt _ _)) by done. rewrite E1. cbn [rbind].
  rewrite Bv by done. fold sb.
  pose proof (ho_n _ _ _ Hok) as Hn0. pose proof (ho_fit _ _ _ Hok) as Hf0.
  destruct (ho_area _ _ _ Hok) as [Ha1 Ha2].
  assert (Hd : forall x, 0 <= x < FSSIZE -> bc_disk c1 x = d x)
    by (intros x Hx; rewrite D1, Bd by done; done).
  assert (HF : FSSIZE = 1000) by done. rewrite !s32_small by lia. set (lg1 := mk_log _ _ _ _ _ _).
  destruct (recover_completes lg1 (sb_logstart sb) (sb_nlog sb) c1)
    as (lg2 & c2 & E2 & Hl & [Hs Hz Hlen'] & I2 & H2 & Y2 & He & Ho2 & Hc2); auto; try done.
  { congruence. }
  { by rewrite Hd by lia. }
  rewrite E2. eexists _, c2. split; [done|].
  destruct (recover_keeps lg1 c1 lg2 c2 E2) as [Hk1 Hk2].
  assert (Hcm : forall b, home (sb_logstart sb) (sb_nlog sb) b ->
            bc_disk c2 b ≡b committed (sb_logstart sb) d b).
  { intros b Hb. rewrite Hc2 by done. rewrite (committed_ext (sb_logstart sb) (sb_nlog sb) _ d);
      [done|done|by rewrite Hd by lia|apply Hb]. }
  split; rewrite ?Hs, ?Hz, ?Hk1, ?Hk2; try done.
  intros b Hb. etransitivity; [|exact (Hcm b Hb)]. rewrite bc_clean_law; try done; try apply Hb.
  - rewrite H2. set_solver.
  - rewrite Y2. set_solver.
Qed.

End refinement.

(** ** Reservation of log space

    Each outstanding call may write [MAXOPBLOCKS] blocks; the list holds what is
    left of each call's allowance. *)

Section reservation.
Context {C : Type} `{!BlockCache C}.

Inductive rstep : log * list nat -> log * list nat -> Prop :=
| r_begin lg lg' bud :
    begin_op lg = Ok lg' -> rstep (lg, bud) (lg', Z.to_nat MAXOPBLOCKS :: bud)
| r_write lg lg' l1 k l2 b :
    log_write_head lg b = Ok lg' -> rstep (lg, l1 ++ S k :: l2) (lg', l1 ++ k :: l2)
| r_end lg lg' (c c' : C) l1 k l2 :
    end_op lg c = Ok (lg', c') -> rstep (lg, l1 ++ k :: l2) (lg', l1 ++ l2).

Definition budget (bud : list nat) : Z := Z.of_nat (sum_list bud).

Record rinv (st : log * list nat) : Prop := {
  ri_committing : l_committing st.1 = false;
  ri_outstanding : l_outstanding st.1 = Z.of_nat (length st.2);
  ri_n : 0 <= lh_n (l_lh st.1);
  ri_each : Forall (fun k => Z.of_nat k <= MAXOPBLOCKS) st.2;
  ri_room : lh_n (l_lh st.1) + budget st.2 <= LOGSIZE;
  ri_idle : st.2 = [] -> lh_n (l_lh st.1) = 0
}.

Lemma budget_le bud : Forall (fun k => Z.of_nat k <= MAXOPBLOCKS) bud ->
  budget bud <= Z.of_nat (length bud) * MAXOPBLOCKS.
Proof. unfold budget. induction 1; simpl; lia. Qed.

Lemma budget_app l1 l2 : budget (l1 ++ l2) = budget l1 + budget l2.
Proof. unfold budget. rewrite sum_list_with_app. lia. Qed.

Lemma budget_cons k l : budget (k :: l) = Z.of_nat k + budget l.
Proof. unfold budget. simpl. lia. Qed.

Lemma budget_nonneg l : 0 <= budget l.
Proof. unfold budget. lia. Qed.

Lemma commit_n lg (c : C) lg' c' : commit lg c = Ok (lg', c') -> 0 <= lh_n (l_lh lg) ->
  l_outstanding lg' = l_outstanding lg /\ lh_n (l_lh lg') = 0.
Proof.
  unfold commit. intros H Hn. destruct (Z.ltb_spec 0 (lh_n (l_lh lg))).
  - repeat (apply rbind_Ok_inv in H as (? & _ & H)). by simplify_eq.
  - simplify_eq. split; [done|lia].
Qed.

Lemma log_write_head_n lg b lg' : log_write_head lg b = Ok lg' ->
  l_committing lg' = l_committing lg /\ l_outstanding lg' = l_outstanding lg /\
  lh_n (l_lh lg) <= lh_n (l_lh lg') <= lh_n (l_lh lg) + 1.
Proof.
  unfold log_write_head. intros H. repeat (case_match; try done).
  all: simplify_eq; simpl; split_and!; done || lia.
Qed.

Lemma end_op_n lg (c : C) lg' c' : end_op lg c = Ok (lg', c') -> 0 <= lh_n (l_lh lg) ->
  l_committing lg' = false /\ l_outstanding lg' = l_outstanding lg - 1 /\
  ((l_outstanding lg = 1 /\ lh_n (l_lh lg') = 0) \/
   (l_outstanding lg <> 1 /\ lh_n (l_lh lg') = lh_n (l_lh lg))).
Proof.
  unfold end_op. intros H Hn. destruct (l_committing lg); [done|].
  destruct (Z.eqb_spec (l_outstanding lg - 1) 0).
  - apply rbind_Ok_inv in H as ([lg1 c1] & E & H). simplify_eq.
    apply commit_n in E as [Ho Hn']; [|done]. simpl in *. split_and!; [done|lia|left; lia].
  - simplify_eq. simpl. split_and!; [done|lia|right; lia].
Qed.

Lemma rstep_inv st st' : rinv st -> rstep st st' -> rinv st'.
Proof.
  intros [Hc Ho Hn He Hr Hi] Hs. destruct Hs as [lg lg' bud E|lg lg' l1 k l2 b E|lg lg' c c' l1 k l2 E];
    simpl in *.
  - unfold begin_op in E. rewrite Hc in E. zcases_in E. simplify_eq.
    pose proof (budget_le _ He). rewrite Ho in *.
    split; simpl; rewrite ?budget_cons; try done; try lia.
    constructor; [by vm_compute|done].
  - apply log_write_head_n in E as (Hc' & Ho' & Hn').
    rewrite budget_app, budget_cons in Hr. rewrite length_app in Ho. simpl in Ho.
    apply Forall_app in He as [He1 He2]. inversion_clear He2 as [|? ? Hk He3].
    split; simpl; rewrite ?length_app, ?budget_app, ?budget_cons; simpl; try lia; try congruence.
    + apply Forall_app. split; [done|]. constructor; [lia|done].
    + intros Hz. by destruct l1.
  - apply end_op_n in E as (Hc' & Ho' & Hor); [|done].
    rewrite budget_app, budget_cons in Hr. rewrite length_app in Ho. simpl in Ho.
    pose proof (budget_nonneg l1). pose proof (budget_nonneg l2).
    apply Forall_app in He as [He1 He2]. inversion_clear He2 as [|? ? Hk He3].
    assert (Hl : l1 ++ l2 = [] -> length l1 = 0%nat /\ length l2 = 0%nat)
      by (intros [-> ->]%app_nil; done).
    split; simpl; rewrite ?length_app, ?budget_app; try done; try lia.
    + by apply Forall_app.
    + intros Hz%Hl. lia.
Qed.

Lemma reach_rinv st st' : rtc rstep st st' -> rinv st -> rinv st'.
Proof. induction 1 as [|? ? ? Hs _ IH]; [done|]. intros. apply IH. by eapply rstep_inv. Qed.

(** The space [begin_op] reserves is enough for a log of more than
    [LOGSIZE] blocks: in every state reached by system calls that each write at
    most [MAXOPBLOCKS] blocks, from an idle log, a call that has not used up its
    allowance can write any block without a panic. *)
Theorem reservation_sufficient (lg0 lg : log) (l1 l2 : list nat) (k : nat) (b : Z) :
  l_committing lg0 = false -> l_outstanding lg0 = 0 -> lh_n (l_lh lg0) = 0 ->
  rtc rstep (lg0, []) (lg, l1 ++ S k :: l2) -> LOGSIZE < l_size lg ->
  exists lg', log_write_head lg b = Ok lg'.
Proof.
  intros Hc Ho Hn Hr Hs.
  assert (Hi : rinv (lg, l1 ++ S k :: l2)).
  { eapply reach_rinv; [done|]. split; simpl; try done; try lia. rewrite Hn. done. }
  destruct Hi as [_ Ho' Hn' _ Hroom _]. simpl in *.
  rewrite budget_app, budget_cons in Hroom. rewrite length_app in Ho'. simpl in Ho'.
  pose proof (budget_nonneg l1). pose proof (budget_nonneg l2).
  unfold log_write_head.
  rewrite (proj2 (Z.leb_gt _ _)), (proj2 (Z.leb_gt _ _)), (proj2 (Z.ltb_ge _ _)) by lia.
  by eexists.
Qed.

End reservation.

(** ** The log as [mkfs] lays it out *)

(** A log of [LOGSIZE] blocks right after the superblock, as mkfs makes it. *)
Definition mkfs_log (o : Z) (n : Z) (blocks : list Z) : log :=
  mk_log 2 LOGSIZE o false 1 (mk_lh n blocks).

Ltac write_blocks l1 b n :=
  match n with
  | O => idtac
  | S ?n' => eapply rtc_l;
      [eapply (r_write (C := ideal) _ _ l1 _ _ b); vm_compute; reflexivity|];
      simpl app; let b' := eval vm_compute in (b + 1) in write_blocks l1 b' n'
  end.

(** C39: With the log mkfs makes, the reservation is one block short: three
    concurrent calls admitted by [begin_op], each within its allowance of
    [MAXOPBLOCKS] blocks, reach a state where the next write panics. *)
Theorem reservation_one_short :
  exists lg bud k b,
    rtc (rstep (C := ideal)) (mkfs_log 0 0 (repeat 0 (Z.to_nat LOGSIZE)), [])
        (lg, S k :: bud) /\
    log_write_head lg b = Panic "too big a transaction".
Proof.
  do 4 eexists. split.
  - do 3 (eapply rtc_l; [eapply r_begin; vm_compute; reflexivity|]).
    let m := eval vm_compute in (Z.to_nat MAXOPBLOCKS) in change (Z.to_nat MAXOPBLOCKS) with m.
    write_blocks [10; 10]%nat 100 10%nat. write_blocks [10]%nat 110 10%nat.
    write_blocks (@nil nat) 120 9%nat. apply rtc_refl.
  - instantiate (1 := 129). vm_compute. reflexivity.
Qed.

(** Witnesses: a transaction that updated block 100 of a zeroed disk. *)
Definition zero_disk : disk := fun _ _ => 0.
Definition wit_cache : ideal := mk_ideal (dset zero_disk 100 (fun _ => 7)) zero_disk [] ∅ {[100]}.
Definition wit_log : log := mkfs_log 1 1 (100 :: repeat 0 29).
Definition wit_tx : tx := mk_tx zero_disk (dset zero_disk 100 (fun _ => 7)) 1.
Definition wit_boot : log := mkfs_log 0 0 (repeat 0 30).

Lemma wit_rel : tx_rel wit_tx wit_log wit_cache [100].
Proof.
  split; try done; simpl.
  - split; try done; simpl; try lia.
    + apply NoDup_singleton.
    + apply Forall_singleton. unfold FSSIZE, LOGSIZE, MAXOPBLOCKS. lia.
  - intros b Hb Hh Hd. simpl in *. apply dset_ne. set_solver.
  - split; try done; simpl; try lia. constructor.
Qed.

Lemma log_refines_tx_witness :
  exists lg' (c' : ideal) w bs',
    run_op TxEnd wit_log wit_cache = Ok (lg', c') /\ tx_rel (tx_step TxEnd wit_tx) lg' c' bs' /\
    bc_writes c' = bc_writes wit_cache ++ w /\
    crash_to wit_log wit_boot wit_cache w (durable wit_tx) (durable (tx_step TxEnd wit_tx)).
Proof.
  apply (log_refines_tx wit_tx wit_log wit_boot wit_cache [100] TxEnd).
  - apply wit_rel.
  - simpl. lia.
  - split; reflexivity.
Defined.

(** A disk with a superblock and an empty log. *)
Definition wit_image : disk :=
  dset zero_disk 1 (sb_encode (fun _ => 0) (mk_sb 1000 900 200 30 2 32 58)).

Lemma initlog_establishes_witness :
  exists lg' (c' : ideal), initlog 1 wit_boot (bc_boot wit_image) = Ok (lg', c') /\
    tx_rel (mk_tx (committed 2 wit_image) (committed 2 wit_image) 0) lg' c' [].
Proof.
  apply (initlog_establishes (C := ideal) wit_image 1 wit_boot); try reflexivity; try done.
  split; try (vm_compute; congruence); try constructor; vm_compute; congruence.
Defined.

Definition big_log : log := mk_log 2 31 0 false 1 (mk_lh 0 (repeat 0 30)).

Lemma reservation_sufficient_witness :
  exists lg', log_write_head (set_outstanding big_log 1 false) 100 = Ok lg'.
Proof.
  apply (reservation_sufficient (C := ideal) big_log (set_outstanding big_log 1 false) [] [] 9 100);
    try reflexivity.
  apply rtc_once. apply r_begin. reflexivity.
Defined.
