(* ===== verification/Bio.v ===== *)
(** * Buffer cache (src/bio.c, src/buf.h) over the in-memory disk (src/memide.c)

    The [NBUF] buffers are slots 0 .. NBUF-1 and the list head slot NBUF, linked
    by their [prev]/[next] fields exactly as in the source; [order] is the list
    of slots the ring holds, most recently used first.  The calls are made by
    one process: [b_locked] says that it holds the buffer's sleep lock, and
    waiting for a lock it already holds is [Blocked].  The last part shows that
    the cache satisfies [BlockCacheLaws], which is what the log was verified
    against. *)

From S2P Require Import Prelude Layout Blocks.

(** ** Rings linked both ways *)

Definition upd (f : nat -> nat) (x v : nat) : nat -> nat := fun y => if decide (y = x) then v else f y.

Lemma upd_eq f x v : upd f x v x = v.
Proof. unfold upd. by rewrite decide_True. Qed.

Lemma upd_ne f x v y : y <> x -> upd f x v y = f y.
Proof. intros. unfold upd. by rewrite decide_False. Qed.

(** Consecutive elements of [l] are linked by [nx] forward and [pv] backward. *)
Fixpoint linked (nx pv : nat -> nat) (l : list nat) : Prop :=
  match l with
  | a :: (b :: _) as l' => nx a = b /\ pv b = a /\ linked nx pv l'
  | _ => True
  end.

(** A ring with head [h] and the other elements in order [l]. *)
Definition ring (nx pv : nat -> nat) (h : nat) (l : list nat) : Prop :=
  NoDup (h :: l) /\ linked nx pv (h :: l ++ [h]).

Lemma linked_cons nx pv a b l :
  nx a = b -> pv b = a -> linked nx pv (b :: l) -> linked nx pv (a :: b :: l).
Proof. done. Qed.

Lemma linked_app nx pv l1 a l2 :
  linked nx pv (l1 ++ a :: l2) <-> linked nx pv (l1 ++ [a]) /\ linked nx pv (a :: l2).
Proof.
  induction l1 as [|x l1 IH]; simpl; [tauto|].
  destruct l1 as [|y l1]; simpl in *; [tauto|]. rewrite IH. tauto.
Qed.

(** Only the links of the sources (all but the last) and of the targets (all but
    the first) matter. *)
Lemma linked_frame nx pv nx' pv' l :
  (forall x, In x (removelast l) -> nx' x = nx x) -> (forall x, In x (tail l) -> pv' x = pv x) ->
  linked nx pv l -> linked nx' pv' l.
Proof.
  induction l as [|a [|b l] IH]; intros Hn Hp H; [done|done|].
  destruct H as (H1 & H2 & H3). split_and!.
  - rewrite Hn; [done|]. by left.
  - rewrite Hp; [done|]. by left.
  - apply IH; [| |done].
    + intros x Hx. apply Hn. by right.
    + intros x Hx. apply Hp. simpl. right. destruct l; [by destruct Hx|done].
Qed.

Lemma removelast_snoc {A : Type} (l : list A) x : removelast (l ++ [x]) = l.
Proof. rewrite removelast_app by done. apply app_nil_r. Qed.

Lemma cycle_first l (h : nat) : exists q B, l ++ [h] = q :: B.
Proof. destruct l as [|x l]; simpl; by do 2 eexists. Qed.

Lemma cycle_last l (h : nat) : exists A p, h :: l = A ++ [p].
Proof. destruct (exists_last (l := h :: l)) as (A & p & ->); [done|]. by exists A, p. Qed.

Lemma nodup_rotate l (h : nat) : NoDup (h :: l) -> NoDup (l ++ [h]).
Proof. by rewrite Permutation_app_comm. Qed.

Lemma nodup_delete (l1 : list nat) b l2 : NoDup (l1 ++ b :: l2) -> NoDup (l1 ++ l2) /\ b ∉ l1 ++ l2.
Proof. rewrite <- Permutation_middle. by intros [? ?]%NoDup_cons. Qed.

(** [b->next->prev = b->prev; b->prev->next = b->next;] *)
Lemma ring_unlink nx pv h l1 b l2 :
  ring nx pv h (l1 ++ b :: l2) ->
  ring (upd nx (pv b) (nx b)) (upd pv (nx b) (pv b)) h (l1 ++ l2) /\ b ∉ h :: l1 ++ l2.
Proof.
  intros [Hnd Hl]. destruct (nodup_delete (h :: l1) b l2 Hnd) as [Hnd' Hb].
  split; [|done]. split; [done|].
  destruct (cycle_last l1 h) as (A & p & HA). destruct (cycle_first l2 h) as (q & B & HB).
  change (NoDup (h :: (l1 ++ l2))) in Hnd'.
  apply NoDup_cons in Hnd' as [Hh (N1 & N12 & N2)%NoDup_app].
  assert (Hrot : NoDup (q :: B)) by (rewrite <- HB; apply nodup_rotate, NoDup_cons; set_solver).
  assert (HnA : NoDup (A ++ [p])) by (rewrite <- HA; apply NoDup_cons; set_solver).
  apply NoDup_app in HnA as (_ & HpA & _). apply NoDup_cons in Hrot as [HqB _].
  assert (Hp : p ∈ h :: l1) by (rewrite HA; set_solver).
  assert (Hq : q ∈ h :: l2) by (assert (q ∈ l2 ++ [h]) by (rewrite HB; left); set_solver).
  assert (Hl' : linked nx pv ((h :: l1) ++ b :: l2 ++ [h])) by (by rewrite <- app_assoc in Hl).
  rewrite HA, HB, <- app_assoc in Hl'. apply linked_app in Hl' as [L1 (E1 & E2 & E3 & E4 & L2)].
  rewrite E2, E3, <- app_assoc. change (linked (upd nx p q) (upd pv q p) ((h :: l1) ++ l2 ++ [h])).
  rewrite HA, HB, <- app_assoc. apply linked_app.
  split; [|apply linked_cons; [by rewrite upd_eq..|]].
  - eapply linked_frame; [| |exact L1].
    + intros x Hx. apply upd_ne. rewrite removelast_snoc in Hx. apply list_elem_of_In in Hx. set_solver.
    + intros x Hx. apply upd_ne. rewrite <- HA in Hx. simpl in Hx. apply list_elem_of_In in Hx. set_solver.
  - eapply linked_frame; [| |exact L2].
    + intros x Hx. apply upd_ne. rewrite <- HB, removelast_snoc in Hx.
      apply list_elem_of_In in Hx. intros ->.
      apply elem_of_cons in Hp as [->|Hp]; [set_solver|by eapply N12].
    + intros x Hx. apply upd_ne. simpl in Hx. apply list_elem_of_In in Hx. set_solver.
Qed.

(** [b->next = head.next; b->prev = &head; head.next->prev = b; head.next = b;] *)
Lemma ring_push nx pv h l b :
  ring nx pv h l -> b ∉ h :: l ->
  ring (upd (upd nx b (nx h)) h b) (upd (upd pv b h) (nx h) b) h (b :: l).
Proof.
  intros [Hnd Hl] Hb. destruct (cycle_first l h) as (q & B & HB).
  apply not_elem_of_cons in Hb as [Hbh Hbl]. apply NoDup_cons in Hnd as [Hh Hn].
  assert (Hrot : NoDup (q :: B)) by (rewrite <- HB; apply nodup_rotate; by apply NoDup_cons).
  apply NoDup_cons in Hrot as [HqB _].
  assert (HbB : b ∉ q :: B) by (rewrite <- HB; set_solver). apply not_elem_of_cons in HbB as [Hbq HbB].
  split; [repeat (apply NoDup_cons; split); set_solver|].
  simpl app in *. rewrite HB in *. destruct Hl as (E1 & E2 & L). rewrite E1.
  apply linked_cons; [| |apply linked_cons].
  - apply upd_eq.
  - by rewrite upd_ne, upd_eq by done.
  - by rewrite upd_ne, upd_eq by done.
  - apply upd_eq.
  - eapply linked_frame; [| |exact L].
    + intros x Hx. rewrite <- HB, removelast_snoc in Hx. apply list_elem_of_In in Hx.
      rewrite !upd_ne; [done|set_solver..].
    + intros x Hx. apply list_elem_of_In in Hx. rewrite !upd_ne; [done|set_solver..].
Qed.

(** ** buf.h *)

Definition B_VALID : Z := 0x2.
Definition B_DIRTY : Z := 0x4.

Record buf := mk_buf {
  b_flags : Z;
  b_dev : Z;
  b_blockno : Z;
  b_locked : bool;        (* struct sleeplock lock, as seen by the caller *)
  b_refcnt : Z;
  b_prev : nat;
  b_next : nat;
  b_data : mem
}.

(** ** The cache and the disk *)

Record bcache := mk_bcache {
  bufs : nat -> buf;              (* slots 0..NBUF-1, and the head *)
  memdisk : disk;
  disksize : Z;
  io : list (Z * mem)             (* writes to the disk, oldest first *)
}.

Definition NBUFn : nat := Z.to_nat NBUF.
Definition HEAD : nat := NBUFn.

Definition setb (c : bcache) (i : nat) (b : buf) : bcache :=
  mk_bcache (fun j => if decide (j = i) then b else bufs c j) (memdisk c) (disksize c) (io c).

Definition set_next (c : bcache) (i v : nat) : bcache :=
  let b := bufs c i in
  setb c i (mk_buf (b_flags b) (b_dev b) (b_blockno b) (b_locked b) (b_refcnt b) (b_prev b) v (b_data b)).
Definition set_prev (c : bcache) (i v : nat) : bcache :=
  let b := bufs c i in
  setb c i (mk_buf (b_flags b) (b_dev b) (b_blockno b) (b_locked b) (b_refcnt b) v (b_next b) (b_data b)).
Definition set_flags (c : bcache) (i : nat) (f : Z) : bcache :=
  let b := bufs c i in
  setb c i (mk_buf f (b_dev b) (b_blockno b) (b_locked b) (b_refcnt b) (b_prev b) (b_next b) (b_data b)).
Definition set_locked (c : bcache) (i : nat) (l : bool) : bcache :=
  let b := bufs c i in
  setb c i (mk_buf (b_flags b) (b_dev b) (b_blockno b) l (b_refcnt b) (b_prev b) (b_next b) (b_data b)).
Definition set_refcnt (c : bcache) (i : nat) (r : Z) : bcache :=
  let b := bufs c i in
  setb c i (mk_buf (b_flags b) (b_dev b) (b_blockno b) (b_locked b) r (b_prev b) (b_next b) (b_data b)).
Definition set_data (c : bcache) (i : nat) (m : mem) : bcache :=
  let b := bufs c i in
  setb c i (mk_buf (b_flags b) (b_dev b) (b_blockno b) (b_locked b) (b_refcnt b) (b_prev b) (b_next b) m).

(** [b->next = head.next; b->prev = &head; head.next->prev = b; head.next = b;] *)
Definition link_front (c : bcache) (b : nat) : bcache :=
  let c := set_next c b (b_next (bufs c HEAD)) in
  let c := set_prev c b HEAD in
  let c := set_prev c (b_next (bufs c HEAD)) b in
  set_next c HEAD b.

(** [b->next->prev = b->prev; b->prev->next = b->next;] *)
Definition unlink (c : bcache) (b : nat) : bcache :=
  let c := set_prev c (b_next (bufs c b)) (b_prev (bufs c b)) in
  set_next c (b_prev (bufs c b)) (b_next (bufs c b)).

Fixpoint binit_loop (k b : nat) (c : bcache) : bcache :=
  match k with
  | O => c
  | S k' => binit_loop k' (S b) (link_front (set_locked c b false) b)
  end.

Definition binit (c : bcache) : bcache :=
  let c := set_prev c HEAD HEAD in
  let c := set_next c HEAD HEAD in
  binit_loop NBUFn 0 c.

(** The forward scan of [bget]; the fuel bounds the length of the ring. *)
Fixpoint bget_cached (fuel b : nat) (dev blockno : Z) (c : bcache) : res (option nat) :=
  match fuel with
  | O => Panic "bget: ring too long"
  | S fuel' =>
      if decide (b = HEAD) then Ok None
      else if (b_dev (bufs c b) =? dev) && (b_blockno (bufs c b) =? blockno) then Ok (Some b)
      else bget_cached fuel' (b_next (bufs c b)) dev blockno c
  end.

(** The backward scan for an unused buffer. *)
Fixpoint bget_free (fuel b : nat) (c : bcache) : res (option nat) :=
  match fuel with
  | O => Panic "bget: ring too long"
  | S fuel' =>
      if decide (b = HEAD) then Ok None
      else if (b_refcnt (bufs c b) =? 0) && (Z.land (b_flags (bufs c b)) B_DIRTY =? 0) then Ok (Some b)
      else bget_free fuel' (b_prev (bufs c b)) c
  end.

(** [acquiresleep(&b->lock)]: the caller waits for ever if it holds the lock. *)
Definition lock_buf (c : bcache) (b : nat) : res bcache :=
  if b_locked (bufs c b) then Blocked else Ok (set_locked c b true).

Definition bget (dev blockno : Z) (c : bcache) : res (nat * bcache) :=
  let* o := bget_cached (S NBUFn) (b_next (bufs c HEAD)) dev blockno c in
  match o with
  | Some b =>
      let c := set_refcnt c b (u32 (b_refcnt (bufs c b) + 1)) in
      let* c := lock_buf c b in
      Ok (b, c)
  | None =>
      let* o := bget_free (S NBUFn) (b_prev (bufs c HEAD)) c in
      match o with
      | Some b =>
          let x := bufs c b in
          let c := setb c b (mk_buf 0 dev blockno (b_locked x) 1 (b_prev x) (b_next x) (b_data x)) in
          let* c := lock_buf c b in
          Ok (b, c)
      | None => Panic "bget: no buffers"
      end
  end.

(** memide.c: sync buf with disk. *)
Definition iderw (b : nat) (c : bcache) : res bcache :=
  let x := bufs c b in
  if negb (b_locked x) then Panic "iderw: buf not locked"
  else if Z.land (b_flags x) (Z.lor B_VALID B_DIRTY) =? B_VALID then Panic "iderw: nothing to do"
  else if negb (b_dev x =? 1) then Panic "iderw: request not for disk 1"
  else if disksize c <=? b_blockno x then Panic "iderw: block out of range"
  else
    let c :=
      if negb (Z.land (b_flags x) B_DIRTY =? 0) then
        let c := set_flags c b (Z.land (b_flags x) (Z.lnot B_DIRTY)) in
        mk_bcache (bufs c) (dset (memdisk c) (b_blockno x) (b_data x)) (disksize c)
          (io c ++ [(b_blockno x, b_data x)])
      else set_data c b (memdisk c (b_blockno x)) in
    Ok (set_flags c b (Z.lor (b_flags (bufs c b)) B_VALID)).

Definition bio_bread (dev blockno : Z) (c : bcache) : res (nat * bcache) :=
  let* (b, c) := bget dev blockno c in
  if Z.land (b_flags (bufs c b)) B_VALID =? 0 then
    let* c := iderw b c in Ok (b, c)
  else Ok (b, c).

Definition bio_bwrite (b : nat) (c : bcache) : res bcache :=
  if negb (b_locked (bufs c b)) then Panic "bwrite"
  else iderw b (set_flags c b (Z.lor (b_flags (bufs c b)) B_DIRTY)).

Definition bio_brelse (b : nat) (c : bcache) : res bcache :=
  if negb (b_locked (bufs c b)) then Panic "brelse"
  else
    let c := set_locked c b false in
    let c := set_refcnt c b (u32 (b_refcnt (bufs c b) - 1)) in
    Ok (if b_refcnt (bufs c b) =? 0 then link_front (unlink c b) b else c).

(** ** The ring invariant *)

Definition nx (c : bcache) (i : nat) : nat := b_next (bufs c i).
Definition pv (c : bcache) (i : nat) : nat := b_prev (bufs c i).

Definition ring_ok (c : bcache) (l : list nat) : Prop :=
  ring (nx c) (pv c) HEAD l /\ l ≡ₚ seq 0 NBUFn.

(** The fields of a buffer that are not list links. *)
Definition core (b : buf) : Z * Z * Z * bool * Z * mem :=
  (b_flags b, b_dev b, b_blockno b, b_locked b, b_refcnt b, b_data b).

(** [c'] differs from [c] in the list links only. *)
Record links_only (c c' : bcache) : Prop := {
  lk_core i : core (bufs c' i) = core (bufs c i);
  lk_disk : memdisk c' = memdisk c;
  lk_size : disksize c' = disksize c;
  lk_io : io c' = io c
}.

#[global] Instance links_only_trans : Transitive links_only.
Proof. intros c1 c2 c3 [] []. split; congruence. Qed.

Lemma links_set_next c i v : links_only c (set_next c i v).
Proof. split; [|done..]. intros j. simpl. by destruct (decide (j = i)) as [->|]. Qed.

Lemma links_set_prev c i v : links_only c (set_prev c i v).
Proof. split; [|done..]. intros j. simpl. by destruct (decide (j = i)) as [->|]. Qed.

#[local] Hint Resolve links_set_next links_set_prev : xv6.

Lemma links_link_front c b : links_only c (link_front c b).
Proof. unfold link_front. do 3 (etransitivity; [|by auto with xv6]). auto with xv6. Qed.

Lemma links_unlink c b : links_only c (unlink c b).
Proof. unfold unlink. etransitivity; [|by auto with xv6]. auto with xv6. Qed.

Lemma nx_set_next c i v j : nx (set_next c i v) j = upd (nx c) i v j.
Proof. unfold nx, upd. simpl. by destruct (decide (j = i)). Qed.
Lemma nx_set_prev c i v j : nx (set_prev c i v) j = nx c j.
Proof. unfold nx. simpl. by destruct (decide (j = i)) as [->|]. Qed.
Lemma pv_set_prev c i v j : pv (set_prev c i v) j = upd (pv c) i v j.
Proof. unfold pv, upd. simpl. by destruct (decide (j = i)). Qed.
Lemma pv_set_next c i v j : pv (set_next c i v) j = pv c j.
Proof. unfold pv. simpl. by destruct (decide (j = i)) as [->|]. Qed.

#[local] Hint Rewrite nx_set_next nx_set_prev pv_set_prev pv_set_next : xv6.

Lemma ring_ext n p n' p' h l :
  (forall x, n' x = n x) -> (forall x, p' x = p x) -> ring n p h l -> ring n' p' h l.
Proof. intros Hn Hp [Hd Hl]. split; [done|]. eapply linked_frame; [..|exact Hl]; auto. Qed.

Lemma ring_neighbours n p h l1 b l2 :
  ring n p h (l1 ++ b :: l2) -> n b ∈ l2 ++ [h] /\ p b ∈ h :: l1.
Proof.
  intros [_ Hl]. rewrite <- app_assoc in Hl. destruct (cycle_first l2 h) as (q & B & HB).
  destruct (cycle_last l1 h) as (A & a & HA).
  change (linked n p ((h :: l1) ++ b :: l2 ++ [h])) in Hl.
  rewrite HA, HB, <- app_assoc in Hl. apply linked_app in Hl as [_ (_ & -> & -> & _)].
  rewrite HA, HB. set_solver.
Qed.

Lemma ring_link_front c b l :
  ring (nx c) (pv c) HEAD l -> b ∉ HEAD :: l ->
  ring (nx (link_front c b)) (pv (link_front c b)) HEAD (b :: l).
Proof.
  intros Hr Hb. apply not_elem_of_cons in Hb as Hb'. destruct Hb' as [Hne Hbl].
  assert (H1 : nx (set_prev (set_next c b (nx c HEAD)) b HEAD) HEAD = nx c HEAD)
    by (autorewrite with xv6; by rewrite upd_ne).
  assert (H2 : upd (nx c) b (nx c HEAD) HEAD = nx c HEAD) by by rewrite upd_ne.
  eapply ring_ext; [..|exact (ring_push _ _ _ _ _ Hr Hb)]; intros x; unfold link_front;
    fold (nx c HEAD); fold (nx (set_prev (set_next c b (nx c HEAD)) b HEAD) HEAD);
    rewrite H1; autorewrite with xv6.
  - unfold upd. by destruct (decide (x = HEAD)); autorewrite with xv6.
  - unfold upd. destruct (decide (x = nx c HEAD)); [done|].
    autorewrite with xv6. unfold upd. destruct (decide (x = b)); [done|]. by autorewrite with xv6.
Qed.

Lemma ring_unlinked c b l1 l2 :
  ring (nx c) (pv c) HEAD (l1 ++ b :: l2) ->
  ring (nx (unlink c b)) (pv (unlink c b)) HEAD (l1 ++ l2) /\ b ∉ HEAD :: l1 ++ l2.
Proof.
  intros Hr. destruct (ring_neighbours _ _ _ _ _ _ Hr) as [Hn Hp].
  destruct (ring_unlink _ _ _ _ _ _ Hr) as [Hr' Hb]. split; [|done].
  assert (Hnb : b <> nx c b) by (intros E; rewrite <- E in Hn; set_solver).
  eapply ring_ext; [..|exact Hr']; intros x; unfold unlink;
    fold (nx c b); fold (pv c b);
    fold (nx (set_prev c (nx c b) (pv c b)) b); fold (pv (set_prev c (nx c b) (pv c b)) b);
    rewrite ?nx_set_prev, ?pv_set_prev, ?(upd_ne _ _ _ b) by done; autorewrite with xv6.
  - unfold upd. destruct (decide _); [done|]. by autorewrite with xv6.
  - done.
Qed.

(** [brelse] moves a buffer to the front of the list. *)
Lemma ring_ok_move c b l : ring_ok c l -> (b < NBUFn)%nat ->
  exists l', ring_ok (link_front (unlink c b) b) (b :: l').
Proof.
  intros [Hr Hp] Hb. assert (Hin : b ∈ l) by (rewrite Hp; apply list_elem_of_In, in_seq; lia).
  apply list_elem_of_split in Hin as (l1 & l2 & ->).
  destruct (ring_unlinked _ _ _ _ Hr) as [Hr' Hnb]. exists (l1 ++ l2). split.
  - by apply ring_link_front.
  - rewrite <- Hp. by rewrite Permutation_middle.
Qed.

(** The two scans follow the ring to its end and stop at the first match. *)
Lemma bget_cached_find fuel l dev blockno c :
  linked (nx c) (pv c) (l ++ [HEAD]) -> HEAD ∉ l -> (length l < fuel)%nat ->
  bget_cached fuel (hd HEAD l) dev blockno c =
  Ok (find (fun i => (b_dev (bufs c i) =? dev) && (b_blockno (bufs c i) =? blockno)) l).
Proof.
  revert fuel. induction l as [|x l IH]; intros fuel Hl Hh Hf; (destruct fuel; [simpl in Hf; lia|]);
    simpl; [by repeat case_decide|].
  apply not_elem_of_cons in Hh as [Hx Hh]. rewrite decide_False by done.
  destruct (_ && _); [done|]. destruct (cycle_first l HEAD) as (q & B & HB).
  simpl in Hl, Hf. rewrite HB in Hl. destruct Hl as (E & _ & Hl). rewrite <- HB in Hl.
  fold (nx c x). rewrite E, <- (IH fuel) by (done || lia). f_equal. by destruct l; inversion HB.
Qed.

Lemma bget_free_find fuel l c :
  linked (nx c) (pv c) (HEAD :: l) -> HEAD ∉ l -> (length l < fuel)%nat ->
  bget_free fuel (List.last l HEAD) c =
  Ok (find (fun i => (b_refcnt (bufs c i) =? 0) && (Z.land (b_flags (bufs c i)) B_DIRTY =? 0)) (rev l)).
Proof.
  revert fuel. induction l as [|x l IH] using rev_ind; intros fuel Hl Hh Hf;
    (destruct fuel; [simpl in Hf; lia|]).
  { simpl. by repeat case_decide. }
  rewrite rev_app_distr, List.last_last. simpl. rewrite decide_False by set_solver.
  destruct (_ && _); [done|]. destruct (cycle_last l HEAD) as (A & q & HA).
  change (linked (nx c) (pv c) ((HEAD :: l) ++ [x])) in Hl.
  rewrite length_app in Hf. simpl in Hf.
  assert (E : pv c x = q /\ linked (nx c) (pv c) (HEAD :: l)).
  { rewrite HA, <- app_assoc in Hl. apply linked_app in Hl as [Hl (_ & E & _)].
    split; [done|]. by rewrite HA. }
  destruct E as [E Hl']. fold (pv c x). rewrite E, <- (IH fuel) by (done || set_solver || lia).
  f_equal.
  assert (Hq : List.last (HEAD :: l) HEAD = q) by (rewrite HA; apply List.last_last).
  by destruct l.
Qed.

Lemma ring_head_first n p h l : ring n p h l -> n h = hd h l.
Proof.
  intros [_ Hl]. destruct (cycle_first l h) as (q & B & HB). rewrite HB in Hl.
  destruct Hl as (-> & _). by destruct l; inversion HB.
Qed.

Lemma ring_head_last n p h l : ring n p h l -> p h = List.last l h.
Proof.
  intros [_ Hl]. destruct (cycle_last l h) as (A & a & HA).
  change (linked n p ((h :: l) ++ [h])) in Hl. rewrite HA, <- app_assoc in Hl.
  apply linked_app in Hl as [_ (_ & -> & _)].
  assert (Hq : List.last (h :: l) h = a) by (rewrite HA; apply List.last_last). by destruct l.
Qed.

Lemma ring_ok_head c l : ring_ok c l -> (HEAD ∉ l) /\ length l = NBUFn.
Proof.
  intros [[Hn _] Hp]. apply NoDup_cons in Hn as [? _]. split; [done|].
  by rewrite Hp, length_seq.
Qed.

Lemma bget_cached_ok c l dev blockno : ring_ok c l ->
  bget_cached (S NBUFn) (b_next (bufs c HEAD)) dev blockno c =
  Ok (find (fun i => (b_dev (bufs c i) =? dev) && (b_blockno (bufs c i) =? blockno)) l).
Proof.
  intros Hr. destruct (ring_ok_head c l Hr) as [Hh Hlen]. destruct Hr as [Hr _].
  fold (nx c HEAD). rewrite (ring_head_first _ _ _ _ Hr). apply bget_cached_find; [|done|lia].
  destruct Hr as [_ Hl]. destruct (cycle_first l HEAD) as (q & B & HB). rewrite HB in *.
  by destruct Hl as (_ & _ & Hl).
Qed.

Lemma bget_free_ok c l : ring_ok c l ->
  bget_free (S NBUFn) (b_prev (bufs c HEAD)) c =
  Ok (find (fun i => (b_refcnt (bufs c i) =? 0) && (Z.land (b_flags (bufs c i)) B_DIRTY =? 0)) (rev l)).
Proof.
  intros Hr. destruct (ring_ok_head c l Hr) as [Hh Hlen]. destruct Hr as [Hr _].
  fold (pv c HEAD). rewrite (ring_head_last _ _ _ _ Hr). apply bget_free_find; [|done|lia].
  destruct Hr as [_ Hl]. destruct (cycle_last l HEAD) as (A & a & HA).
  change (linked (nx c) (pv c) ((HEAD :: l) ++ [HEAD])) in Hl. rewrite HA, <- app_assoc in Hl.
  apply linked_app in Hl as [Hl _]. by rewrite HA.
Qed.

(** [binit] makes the ring. *)
Lemma binit_loop_ring k b c l :
  ring (nx c) (pv c) HEAD l -> (forall x, x ∈ l -> (x < b)%nat) -> (b + k <= NBUFn)%nat ->
  exists l', ring (nx (binit_loop k b c)) (pv (binit_loop k b c)) HEAD l' /\ l' ≡ₚ l ++ seq b k.
Proof.
  revert b c l. induction k as [|k IH]; intros b c l Hr Hl Hb; simpl.
  { exists l. by rewrite app_nil_r. }
  destruct (IH (S b) (link_front (set_locked c b false) b) (b :: l)) as (l' & Hr' & Hp).
  - apply ring_link_front.
    + eapply ring_ext; [..|exact Hr]; intros x; unfold nx, pv; simpl; by destruct (decide (x = b)) as [->|].
    + apply not_elem_of_cons. unfold HEAD. split; [lia|]. intros ?%Hl. lia.
  - intros x [->|Hx%Hl]%elem_of_cons; lia.
  - lia.
  - exists l'. split; [done|]. rewrite Hp. simpl. by rewrite Permutation_middle.
Qed.

Lemma binit_ring c : exists l, ring_ok (binit c) l.
Proof.
  unfold binit. destruct (binit_loop_ring NBUFn 0 (set_next (set_prev c HEAD HEAD) HEAD HEAD) []) as (l & Hr & Hp).
  - split; [apply NoDup_singleton|]. simpl. autorewrite with xv6. unfold upd. by split_and!.
  - intros x Hx. by apply not_elem_of_nil in Hx.
  - lia.
  - by exists l.
Qed.

(** ** The cached contents *)

(** The slot that caches block [b] of the disk. *)
Definition slot (c : bcache) (b : Z) : option nat :=
  find (fun i => (b_dev (bufs c i) =? 1) && (b_blockno (bufs c i) =? b)) (seq 0 NBUFn).

Definition caches (c : bcache) (b : Z) (i : nat) : Prop :=
  (i < NBUFn)%nat /\ b_dev (bufs c i) = 1 /\ b_blockno (bufs c i) = b.

Definition blocks_where (c : bcache) (f : buf -> bool) : gset Z :=
  list_to_set (map (fun i => b_blockno (bufs c i))
    (List.filter (fun i => (b_dev (bufs c i) =? 1) && f (bufs c i)) (seq 0 NBUFn))).

Definition is_dirty (x : buf) : bool := negb (Z.land (b_flags x) B_DIRTY =? 0).

Definition view_of (c : bcache) (b : Z) : mem :=
  match slot c b with
  | Some i => if b_flags (bufs c i) =? 0 then memdisk c b else b_data (bufs c i)
  | None => memdisk c b
  end.

Definition zero_buf : buf := mk_buf 0 0 0 false 0 0 0 (fun _ => 0).

#[global] Instance bio_cache : BlockCache bcache := {
  bc_view := view_of;
  bc_disk := memdisk;
  bc_writes := io;
  bc_held c := blocks_where c b_locked;
  bc_dirty c := blocks_where c is_dirty;
  bc_boot d := binit (mk_bcache (fun _ => zero_buf) d FSSIZE []);
  bread b c := let* (i, c) := bio_bread 1 b c in Ok (b_data (bufs c i), c);
  bset b m c := match slot c b with Some i => set_data c i m | None => c end;
  bpin b c := match slot c b with
              | Some i => set_flags c i (Z.lor (b_flags (bufs c i)) B_DIRTY)
              | None => c
              end;
  bwrite b c := match slot c b with Some i => bio_bwrite i c | None => Panic "bwrite" end;
  brelse b c := match slot c b with Some i => bio_brelse i c | None => Panic "brelse" end
}.

(** What is true of each buffer between calls. *)
Record buf_ok (d : disk) (x : buf) : Prop := {
  bo_dev : b_dev x = 1 \/ (b_dev x = 0 /\ b_flags x = 0 /\ b_locked x = false);
  bo_ref : b_refcnt x = if b_locked x then 1 else 0;
  bo_flags : b_flags x = 0 \/ b_flags x = 2 \/ b_flags x = 6;
  bo_valid : b_locked x = true -> b_flags x <> 0;
  bo_clean : b_dev x = 1 -> b_flags x = 2 -> b_locked x = false -> b_data x = d (b_blockno x)
}.

Record cinv (c : bcache) : Prop := {
  ci_ok i : (i < NBUFn)%nat -> buf_ok (memdisk c) (bufs c i);
  ci_uniq b i j : caches c b i -> caches c b j -> i = j;
  ci_size : disksize c = FSSIZE
}.

Definition binv (c : bcache) : Prop := cinv c /\ exists l, ring_ok c l.

Lemma find_caches c b l i : (forall x, x ∈ l -> (x < NBUFn)%nat) ->
  find (fun i => (b_dev (bufs c i) =? 1) && (b_blockno (bufs c i) =? b)) l = Some i -> caches c b i.
Proof.
  intros Hl H. apply find_some in H as [Hin H]. apply andb_prop in H as [H1 H2].
  apply Z.eqb_eq in H1, H2. split_and!; [|done..]. by apply Hl, list_elem_of_In.
Qed.

Lemma find_not_caches c b l i : i ∈ l ->
  find (fun i => (b_dev (bufs c i) =? 1) && (b_blockno (bufs c i) =? b)) l = None -> ~ caches c b i.
Proof.
  intros Hl H (Hi & H1 & H2).
  apply list_elem_of_In in Hl. pose proof (find_none _ _ H i Hl) as Hf. simpl in Hf.
  by rewrite H1, H2, !Z.eqb_refl in Hf.
Qed.

Lemma elem_of_slots i : i ∈ seq 0 NBUFn <-> (i < NBUFn)%nat.
Proof. rewrite list_elem_of_In, in_seq. lia. Qed.

Lemma slot_caches c b i : slot c b = Some i -> caches c b i.
Proof. apply find_caches. intros x. apply elem_of_slots. Qed.

Lemma slot_none c b i : slot c b = None -> ~ caches c b i.
Proof.
  intros H Hc. eapply find_not_caches; [|exact H|exact Hc]. apply elem_of_slots, Hc.
Qed.

Lemma caches_slot c b i : cinv c -> caches c b i -> slot c b = Some i.
Proof.
  intros Hc Hi. destruct (slot c b) as [j|] eqn:E.
  - f_equal. eapply ci_uniq; [done| |done]. by apply slot_caches.
  - by apply slot_none in Hi.
Qed.

(** The scan of the ring finds the slot. *)
Lemma find_slot c b l : cinv c -> l ≡ₚ seq 0 NBUFn ->
  find (fun i => (b_dev (bufs c i) =? 1) && (b_blockno (bufs c i) =? b)) l = slot c b.
Proof.
  intros Hc Hl. destruct (find _ l) as [i|] eqn:E.
  - symmetry. apply caches_slot; [done|]. eapply find_caches; [|exact E].
    intros x Hx. apply elem_of_slots. by rewrite <- Hl.
  - destruct (slot c b) as [i|] eqn:E2; [|done]. apply slot_caches in E2.
    eapply find_not_caches in E; [done|]. rewrite Hl. apply elem_of_slots, E2.
Qed.

Lemma elem_blocks_where c f b : b ∈ blocks_where c f <-> exists i, caches c b i /\ f (bufs c i) = true.
Proof.
  unfold blocks_where. rewrite elem_of_list_to_set, list_elem_of_In, in_map_iff. split.
  - intros (i & Hb & Hi). apply filter_In in Hi as [Hi Hf]. apply andb_prop in Hf as [H1 H2].
    exists i. split; [|done]. apply Z.eqb_eq in H1. split_and!; [|done..]. apply in_seq in Hi. lia.
  - intros (i & (Hi & H1 & H2) & Hf). exists i. split; [done|]. apply filter_In.
    split; [apply in_seq; lia|]. by rewrite H1, Hf.
Qed.

Lemma slot_where c f b i : cinv c -> slot c b = Some i -> b ∈ blocks_where c f <-> f (bufs c i) = true.
Proof.
  intros Hc Hs. rewrite elem_blocks_where. split.
  - intros (j & Hj & Hf). apply caches_slot in Hj; [|done]. congruence.
  - intros Hf. exists i. split; [|done]. by apply slot_caches.
Qed.

Lemma core_inj x y : core x = core y ->
  b_flags x = b_flags y /\ b_dev x = b_dev y /\ b_blockno x = b_blockno y /\
  b_locked x = b_locked y /\ b_refcnt x = b_refcnt y /\ b_data x = b_data y.
Proof. unfold core. by intros [= -> -> -> -> -> ->]. Qed.

Lemma buf_ok_core d d' x y : core x = core y -> d (b_blockno y) = d' (b_blockno y) ->
  buf_ok d y -> buf_ok d' x.
Proof.
  intros Hc Hd [H1 H2 H3 H4 H5]. apply core_inj in Hc as (E1 & E2 & E3 & E4 & E5 & E6).
  split; rewrite ?E1, ?E2, ?E3, ?E4, ?E5, ?E6; try done. by rewrite <- Hd.
Qed.

(** A call that touches only the buffer caching block [b]. *)
Record touch (c c' : bcache) (b : Z) (i : nat) : Prop := {
  to_other j : j <> i -> core (bufs c' j) = core (bufs c j);
  to_dev : b_dev (bufs c' i) = 1;
  to_block : b_blockno (bufs c' i) = b;
  to_ok : buf_ok (memdisk c') (bufs c' i);
  to_disk x : x <> b -> memdisk c' x = memdisk c x;
  to_size : disksize c' = disksize c
}.

Section touch.
Context (c c' : bcache) (b : Z) (i : nat).
Context (Hc : cinv c) (Hs : slot c b = Some i) (Ht : touch c c' b i).

Lemma touch_caches x j : caches c' x j <-> caches c x j.
Proof.
  pose proof (slot_caches _ _ _ Hs) as (Hi & H1 & H2). unfold caches.
  destruct (decide (j = i)) as [->|Hj].
  - rewrite (to_dev _ _ _ _ Ht), (to_block _ _ _ _ Ht), H1, H2. done.
  - destruct (core_inj _ _ (to_other _ _ _ _ Ht j Hj)) as (_ & -> & -> & _). done.
Qed.

Lemma touch_inv : cinv c'.
Proof.
  split.
  - intros j Hj. destruct (decide (j = i)) as [->|Hne]; [apply Ht|].
    pose proof (ci_ok _ Hc j Hj) as Hok.
    destruct (decide (b_blockno (bufs c j) = b)) as [Hb|Hb].
    + destruct (bo_dev _ _ Hok) as [Hd|(Hd & Hf & Hl)].
      { destruct Hne. eapply (ci_uniq _ Hc b); [by split_and!|by apply slot_caches]. }
      destruct (core_inj _ _ (to_other _ _ _ _ Ht j Hne)) as (E1 & E2 & E3 & E4 & E5 & E6).
      destruct Hok as [H1 H2 H3 H4 H5]. split; rewrite ?E1, ?E2, ?E3, ?E4, ?E5, ?E6; try done.
      rewrite Hd. done.
    + eapply buf_ok_core; [by apply Ht| |exact Hok]. symmetry. by apply Ht.
  - intros x j k Hj%touch_caches Hk%touch_caches. by eapply ci_uniq.
  - rewrite (to_size _ _ _ _ Ht). apply Hc.
Qed.

Lemma touch_slot x : slot c' x = slot c x.
Proof.
  destruct (slot c x) as [j|] eqn:E.
  - apply caches_slot; [apply touch_inv|]. apply touch_caches. by apply slot_caches.
  - destruct (slot c' x) as [j|] eqn:E'; [|done]. apply slot_caches, touch_caches in E'.
    by eapply slot_none in E'.
Qed.

Lemma touch_view x :
  view_of c' x = if x =? b then (if b_flags (bufs c' i) =? 0 then memdisk c' b else b_data (bufs c' i))
                 else view_of c x.
Proof.
  unfold view_of. rewrite touch_slot. destruct (Z.eqb_spec x b) as [->|Hx]; [by rewrite Hs|].
  destruct (slot c x) as [j|] eqn:E; [|by apply Ht].
  assert (Hj : j <> i).
  { intros ->. apply slot_caches in E as (_ & _ & <-). apply slot_caches in Hs as (_ & _ & ?). done. }
  destruct (core_inj _ _ (to_other _ _ _ _ Ht j Hj)) as (-> & _ & _ & _ & _ & ->).
  rewrite (to_disk _ _ _ _ Ht) by done. done.
Qed.

Lemma touch_where f : (forall x y, core x = core y -> f x = f y) ->
  blocks_where c' f = if f (bufs c' i) then {[b]} ∪ blocks_where c f else blocks_where c f ∖ {[b]}.
Proof.
  intros Hf. apply set_eq. intros x.
  assert (Hx : x ∈ blocks_where c' f <-> if decide (x = b) then f (bufs c' i) = true else x ∈ blocks_where c f).
  { destruct (decide (x = b)) as [->|Hx].
    - apply slot_where; [apply touch_inv|]. by rewrite touch_slot.
    - rewrite !elem_blocks_where. split; intros (j & Hj & Hfj); exists j.
      + apply touch_caches in Hj. split; [done|]. rewrite <- Hfj. symmetry. apply Hf, Ht.
        intros ->. apply slot_caches in Hs. destruct Hj as (_ & _ & <-). by destruct Hs as (_ & _ & ?).
      + split; [by apply touch_caches|]. rewrite <- Hfj. apply Hf, Ht.
        intros ->. apply slot_caches in Hs. destruct Hj as (_ & _ & <-). by destruct Hs as (_ & _ & ?). }
  rewrite Hx. destruct (decide (x = b)) as [->|]; destruct (f (bufs c' i));
    rewrite ?elem_of_union, ?elem_of_difference, ?elem_of_singleton; intuition congruence.
Qed.
End touch.

(** A call that recycles slot [i] for block [b]. *)
Record recycle (c c' : bcache) (b : Z) (i : nat) : Prop := {
  re_other j : j <> i -> core (bufs c' j) = core (bufs c j);
  re_new : caches c' b i;
  re_ok : buf_ok (memdisk c') (bufs c' i);
  re_disk : memdisk c' = memdisk c;
  re_size : disksize c' = disksize c;
  re_unlocked : b_locked (bufs c i) = false;
  re_clean : is_dirty (bufs c i) = false
}.

Section recycle.
Context (c c' : bcache) (b : Z) (i : nat).
Context (Hc : cinv c) (Hs : slot c b = None) (Hr : recycle c c' b i).

Lemma recycle_caches x j : caches c' x j <-> (j = i /\ x = b) \/ (j <> i /\ caches c x j).
Proof.
  destruct (re_new _ _ _ _ Hr) as (Hi & H1 & H2). unfold caches.
  destruct (decide (j = i)) as [->|Hj]; [rewrite H1, H2; intuition congruence|].
  destruct (core_inj _ _ (re_other _ _ _ _ Hr j Hj)) as (_ & -> & -> & _). intuition congruence.
Qed.

Lemma recycle_inv : cinv c'.
Proof.
  split.
  - intros j Hj. destruct (decide (j = i)) as [->|Hne]; [apply Hr|].
    eapply buf_ok_core; [by apply Hr| |by apply (ci_ok _ Hc j)]. by rewrite (re_disk _ _ _ _ Hr).
  - intros x j k Hj%recycle_caches Hk%recycle_caches.
    destruct Hj as [[-> Hx]|[Hj Hj']], Hk as [[-> Hx']|[Hk Hk']]; subst; try done.
    + by eapply slot_none in Hk'.
    + by eapply slot_none in Hj'.
    + by eapply ci_uniq.
  - rewrite (re_size _ _ _ _ Hr). apply Hc.
Qed.

Lemma recycle_slot : slot c' b = Some i.
Proof. apply caches_slot; [apply recycle_inv|]. apply recycle_caches. by left. Qed.

Lemma recycle_view_other x : x <> b -> view_of c' x = view_of c x.
Proof.
  intros Hx. unfold view_of at 2. rewrite <- (re_disk _ _ _ _ Hr).
  destruct (slot c x) as [j|] eqn:E.
  - destruct (decide (j = i)) as [->|Hj].
    + assert (En : slot c' x = None).
      { destruct (slot c' x) as [k|] eqn:Ek; [|done].
        apply slot_caches, recycle_caches in Ek as [[-> ->]|[Hk Hk']]; [done|].
        destruct Hk. eapply ci_uniq; [done..|]. by apply slot_caches. }
      unfold view_of. rewrite En. destruct (Z.eqb_spec (b_flags (bufs c i)) 0) as [|Hf]; [done|].
      apply slot_caches in E as (Hi & Hd & <-). pose proof (ci_ok _ Hc i Hi) as Hok.
      rewrite (re_disk _ _ _ _ Hr). symmetry. apply (bo_clean _ _ Hok); [done| |apply Hr].
      pose proof (re_clean _ _ _ _ Hr) as Hcl. unfold is_dirty in Hcl.
      destruct (bo_flags _ _ Hok) as [|[|Hf6]]; [done..|]. by rewrite Hf6 in Hcl.
    + assert (Ej : slot c' x = Some j).
      { apply caches_slot; [apply recycle_inv|]. apply recycle_caches. right.
        split; [done|]. by apply slot_caches. }
      unfold view_of. rewrite Ej.
      by destruct (core_inj _ _ (re_other _ _ _ _ Hr j Hj)) as (-> & _ & _ & _ & _ & ->).
  - unfold view_of. destruct (slot c' x) as [k|] eqn:Ek; [|done].
    apply slot_caches, recycle_caches in Ek as [[-> ->]|[Hk Hk']]; [done|].
    by eapply slot_none in Hk'.
Qed.

Lemma recycle_where f : (forall x y, core x = core y -> f x = f y) -> f (bufs c i) = false ->
  blocks_where c' f = if f (bufs c' i) then {[b]} ∪ blocks_where c f else blocks_where c f.
Proof.
  intros Hf Hold. apply set_eq. intros x.
  assert (Hb : b ∉ blocks_where c f).
  { rewrite elem_blocks_where. intros (j & Hj & _). by eapply slot_none in Hj. }
  assert (Hx : x ∈ blocks_where c' f <-> (x = b /\ f (bufs c' i) = true) \/ x ∈ blocks_where c f).
  { rewrite !elem_blocks_where. split.
    - intros (j & Hj & Hfj). apply recycle_caches in Hj as [[-> ->]|[Hj Hj']]; [by left|right].
      exists j. split; [done|]. rewrite <- Hfj. symmetry. by apply Hf, Hr.
    - intros [[-> Hfi]|(j & Hj & Hfj)].
      + exists i. split; [|done]. apply recycle_caches. by left.
      + assert (j <> i) by congruence. exists j. split; [apply recycle_caches; by right|].
        rewrite <- Hfj. by apply Hf, Hr. }
  rewrite Hx. destruct (f (bufs c' i));
    rewrite ?elem_of_union, ?elem_of_singleton; intuition congruence.
Qed.
End recycle.

(** A free slot exists while fewer than [NBUF] blocks are locked or dirty. *)
Lemma free_slot c : cinv c ->
  Z.of_nat (size (blocks_where c b_locked ∪ blocks_where c is_dirty)) < NBUF ->
  exists i, (i < NBUFn)%nat /\ b_locked (bufs c i) = false /\ is_dirty (bufs c i) = false.
Proof.
  intros Hc Hsz.
  set (P i := b_locked (bufs c i) || is_dirty (bufs c i)).
  destruct (find (fun i => negb (P i)) (seq 0 NBUFn)) as [i|] eqn:E.
  - apply find_some in E as [Hi Hp]. exists i. split; [apply in_seq in Hi; lia|].
    unfold P in Hp. destruct (b_locked (bufs c i)), (is_dirty (bufs c i)); done.
  - exfalso. assert (Hall : forall i, (i < NBUFn)%nat -> P i = true /\ b_dev (bufs c i) = 1).
    { intros i Hi. assert (Hin : In i (seq 0 NBUFn)) by (apply in_seq; lia).
      pose proof (find_none _ _ E i Hin) as Hp. simpl in Hp. apply negb_false_iff in Hp. split; [done|].
      destruct (bo_dev _ _ (ci_ok _ Hc i Hi)) as [|(_ & Hf & Hl)]; [done|].
      unfold P, is_dirty in Hp. by rewrite Hl, Hf in Hp. }
    set (bl := map (fun i => b_blockno (bufs c i)) (seq 0 NBUFn)).
    assert (Hnd : NoDup bl).
    { apply NoDup_ListNoDup, NoDup_map_NoDup_ForallPairs; [|apply seq_NoDup].
      intros i j [_ Hi]%in_seq [_ Hj]%in_seq Hij. eapply (ci_uniq _ Hc (b_blockno (bufs c j)));
        (split_and!; [done|by apply Hall|done]). }
    assert (Hsub : (list_to_set bl : gset Z) ⊆ blocks_where c b_locked ∪ blocks_where c is_dirty).
    { intros x Hx. apply elem_of_list_to_set, list_elem_of_In, in_map_iff in Hx as (i & <- & [_ Hi]%in_seq).
      destruct (Hall i Hi) as [Hp Hd]. apply orb_prop in Hp. apply elem_of_union.
      destruct Hp as [Hp|Hp]; [left|right]; apply elem_blocks_where; exists i; by split_and!. }
    apply subseteq_size in Hsub. rewrite size_list_to_set in Hsub by done.
    unfold bl in Hsub. rewrite length_map, length_seq in Hsub.
    unfold NBUFn in Hsub. assert (HN : NBUF = 30) by done. lia.
Qed.

(** ** The operations keep the invariant and satisfy the interface *)

Lemma ring_ok_same c c' l :
  (forall j, nx c' j = nx c j) -> (forall j, pv c' j = pv c j) -> ring_ok c l -> ring_ok c' l.
Proof. intros Hn Hp [Hr Hl]. split; [|done]. by eapply ring_ext. Qed.

Lemma setb_eq c i x : bufs (setb c i x) i = x.
Proof. simpl. by rewrite decide_True. Qed.

Lemma setb_ne c i x j : j <> i -> bufs (setb c i x) j = bufs c j.
Proof. intros. simpl. by rewrite decide_False. Qed.

(** Replacing a buffer by one with the same links. *)
Lemma setb_links c i x l : b_next x = nx c i -> b_prev x = pv c i -> ring_ok c l -> ring_ok (setb c i x) l.
Proof.
  intros Hn Hp. apply ring_ok_same; intros j; unfold nx, pv; simpl;
    by destruct (decide (j = i)) as [->|].
Qed.

Lemma locked_core x y : core x = core y -> b_locked x = b_locked y.
Proof. by intros (_ & _ & _ & ? & _)%core_inj. Qed.

Lemma dirty_core x y : core x = core y -> is_dirty x = is_dirty y.
Proof. intros (E & _)%core_inj. unfold is_dirty. by rewrite E. Qed.

(** The slot of a held block. *)
Lemma held_slot c b : cinv c -> b ∈ blocks_where c b_locked ->
  exists i, slot c b = Some i /\ caches c b i /\ b_locked (bufs c i) = true /\
    b_refcnt (bufs c i) = 1 /\ (b_flags (bufs c i) = 2 \/ b_flags (bufs c i) = 6) /\
    view_of c b = b_data (bufs c i).
Proof.
  intros Hc Hb. apply elem_blocks_where in Hb as (i & Hi & Hl). exists i.
  pose proof (ci_ok _ Hc i ltac:(apply Hi)) as Hok. pose proof (caches_slot _ _ _ Hc Hi) as Hs.
  pose proof (bo_valid _ _ Hok Hl) as Hv. pose proof (bo_ref _ _ Hok) as Hrf. rewrite Hl in Hrf.
  split_and!; try done; try apply Hi.
  - destruct (bo_flags _ _ Hok) as [|[|]]; auto. done.
  - unfold view_of. rewrite Hs. by destruct (Z.eqb_spec (b_flags (bufs c i)) 0).
Qed.

Lemma not_held_slot c b i : cinv c -> b ∉ blocks_where c b_locked -> slot c b = Some i ->
  b_locked (bufs c i) = false /\ b_refcnt (bufs c i) = 0.
Proof.
  intros Hc Hb Hs. assert (Hl : b_locked (bufs c i) = false).
  { destruct (b_locked (bufs c i)) eqn:E; [|done]. destruct Hb. by eapply slot_where. }
  split; [done|]. apply slot_caches in Hs as (Hi & _). pose proof (bo_ref _ _ (ci_ok _ Hc i Hi)) as H.
  by rewrite Hl in H.
Qed.

(** What a call that touched the held or released buffer of [b] did. *)
Lemma touch_result c c' b i :
  cinv c -> slot c b = Some i -> touch c c' b i -> b_flags (bufs c' i) <> 0 ->
  (exists l, ring_ok c' l) ->
  binv c' /\ (forall x, view_of c' x = if x =? b then b_data (bufs c' i) else view_of c x) /\
  blocks_where c' b_locked = (if b_locked (bufs c' i) then {[b]} ∪ blocks_where c b_locked
                              else blocks_where c b_locked ∖ {[b]}) /\
  blocks_where c' is_dirty = (if is_dirty (bufs c' i) then {[b]} ∪ blocks_where c is_dirty
                              else blocks_where c is_dirty ∖ {[b]}).
Proof.
  intros Hc Hs Ht Hf Hr. split_and!.
  - split; [by eapply touch_inv|done].
  - intros x. rewrite (touch_view c c' b i) by done. by destruct (Z.eqb_spec (b_flags (bufs c' i)) 0).
  - apply touch_where; auto using locked_core.
  - apply touch_where; auto using dirty_core.
Qed.

(** [iderw] on a locked buffer of the disk: a dirty buffer is written, one
    without valid data is read. *)
Lemma iderw_write c i l :
  ring_ok c l -> b_locked (bufs c i) = true -> b_flags (bufs c i) = 6 -> b_dev (bufs c i) = 1 ->
  b_blockno (bufs c i) < disksize c ->
  exists c', iderw i c = Ok c' /\ ring_ok c' l /\ disksize c' = disksize c /\
    (forall j, j <> i -> core (bufs c' j) = core (bufs c j)) /\
    core (bufs c' i) = (2, 1, b_blockno (bufs c i), true, b_refcnt (bufs c i), b_data (bufs c i)) /\
    memdisk c' = dset (memdisk c) (b_blockno (bufs c i)) (b_data (bufs c i)) /\
    io c' = io c ++ [(b_blockno (bufs c i), b_data (bufs c i))].
Proof.
  intros Hr Hl Hf Hd Hb. unfold iderw. rewrite Hl, Hf, Hd. cbn [negb].
  change (Z.land 6 (Z.lor B_VALID B_DIRTY) =? B_VALID) with false.
  change (negb (1 =? 1)) with false. rewrite (proj2 (Z.leb_gt _ _)) by done.
  change (negb (Z.land 6 B_DIRTY =? 0)) with true. cbv iota.
  eexists. split; [reflexivity|]. split_and!; try done.
  - apply setb_links; [done..|]. eapply (ring_ok_same (set_flags c i _)); [done..|].
    by apply setb_links.
  - intros j Hj. simpl. by rewrite !decide_False.
  - simpl. rewrite !decide_True by done. unfold core. simpl. by rewrite Hd, Hl.
Qed.

Lemma iderw_read c i l :
  ring_ok c l -> b_locked (bufs c i) = true -> b_flags (bufs c i) = 0 -> b_dev (bufs c i) = 1 ->
  b_blockno (bufs c i) < disksize c ->
  exists c', iderw i c = Ok c' /\ ring_ok c' l /\ disksize c' = disksize c /\
    (forall j, j <> i -> core (bufs c' j) = core (bufs c j)) /\
    core (bufs c' i) = (2, 1, b_blockno (bufs c i), true, b_refcnt (bufs c i),
                        memdisk c (b_blockno (bufs c i))) /\
    memdisk c' = memdisk c /\ io c' = io c.
Proof.
  intros Hr Hl Hf Hd Hb. unfold iderw. rewrite Hl, Hf, Hd. cbn [negb].
  change (Z.land 0 (Z.lor B_VALID B_DIRTY) =? B_VALID) with false.
  change (negb (1 =? 1)) with false. rewrite (proj2 (Z.leb_gt _ _)) by done.
  change (negb (Z.land 0 B_DIRTY =? 0)) with false. cbv iota.
  eexists. split; [reflexivity|]. split_and!; try done.
  - apply setb_links; [done..|]. by apply setb_links.
  - intros j Hj. simpl. by rewrite !decide_False.
  - simpl. rewrite !decide_True by done. unfold core. simpl. rewrite Hd, Hl, Hf. done.
Qed.

Lemma buf_ok_intro d x f b l r m :
  core x = (f, 1, b, l, r, m) -> f = 2 \/ f = 6 -> r = (if l then 1 else 0) ->
  (f = 2 -> l = false -> m = d b) -> buf_ok d x.
Proof.
  unfold core. intros [= E1 E2 E3 E4 E5 E6] Hf Hr Hm. subst f b l r m.
  split; auto; lia.
Qed.

Lemma touch_intro c c' b i f l r m :
  (forall j, j <> i -> core (bufs c' j) = core (bufs c j)) ->
  core (bufs c' i) = (f, 1, b, l, r, m) -> f = 2 \/ f = 6 -> r = (if l then 1 else 0) ->
  (f = 2 -> l = false -> m = memdisk c' b) -> (forall x, x <> b -> memdisk c' x = memdisk c x) ->
  disksize c' = disksize c -> touch c c' b i.
Proof.
  intros Ho E Hf Hr Hm Hd Hs. split; auto; [| |by eapply buf_ok_intro].
  - by injection E.
  - by injection E.
Qed.

Lemma core_all x f d b l r m : core x = (f, d, b, l, r, m) ->
  b_flags x = f /\ b_dev x = d /\ b_blockno x = b /\ b_locked x = l /\ b_refcnt x = r /\ b_data x = m.
Proof. unfold core. by intros [= <- <- <- <- <- <-]. Qed.

Lemma core_fields x f d b l r m : core x = (f, d, b, l, r, m) ->
  b_flags x = f /\ b_locked x = l /\ b_data x = m.
Proof. unfold core. by intros [= <- <- <- <- <- <-]. Qed.

Lemma setb_core_other c i x j : j <> i -> core (bufs (setb c i x) j) = core (bufs c j).
Proof. intros. by rewrite setb_ne. Qed.

Lemma in_union_same (b : Z) (X : gset Z) : b ∈ X -> {[b]} ∪ X = X.
Proof. set_solver. Qed.

Lemma notin_diff_same (b : Z) (X : gset Z) : b ∉ X -> X ∖ {[b]} = X.
Proof. set_solver. Qed.

Lemma bio_bset_law c b m : binv c -> b ∈ blocks_where c b_locked ->
  binv (bset b m c) /\
  (forall x, view_of (bset b m c) x = if x =? b then m else view_of c x) /\
  memdisk (bset b m c) = memdisk c /\ io (bset b m c) = io c /\
  blocks_where (bset b m c) b_locked = blocks_where c b_locked /\
  blocks_where (bset b m c) is_dirty = blocks_where c is_dirty.
Proof.
  intros [Hc (l & Hr)] Hb.
  destruct (held_slot c b Hc Hb) as (i & Hs & (Hi & Hd & Hk) & Hl & Hrf & Hf & Hv).
  unfold bset; simpl. rewrite Hs. set (c' := set_data c i m).
  assert (Hci : core (bufs c' i) = (b_flags (bufs c i), 1, b, true, 1, m)).
  { unfold c', set_data. rewrite setb_eq. unfold core; simpl. by rewrite Hd, Hk, Hl, Hrf. }
  assert (Ht : touch c c' b i)
    by (eapply touch_intro; try exact Hci; try done; intros j Hj; by apply setb_core_other).
  apply core_fields in Hci as (Ef & El & Em).
  destruct (touch_result c c' b i) as (I & V & H & Y); try done.
  { rewrite Ef. lia. } { exists l. by apply setb_links. }
  rewrite El in H. rewrite Em in V. split_and!; try done.
  - rewrite H. by apply in_union_same.
  - rewrite Y. unfold is_dirty at 1. rewrite Ef. fold (is_dirty (bufs c i)).
    destruct (is_dirty (bufs c i)) eqn:E; [apply in_union_same|apply notin_diff_same];
      rewrite (slot_where c is_dirty b i) by done; by rewrite E.
Qed.

Lemma bio_bpin_law c b : binv c -> b ∈ blocks_where c b_locked ->
  binv (bpin b c) /\ (forall x, view_of (bpin b c) x = view_of c x) /\
  memdisk (bpin b c) = memdisk c /\ io (bpin b c) = io c /\
  blocks_where (bpin b c) b_locked = blocks_where c b_locked /\
  blocks_where (bpin b c) is_dirty = {[b]} ∪ blocks_where c is_dirty.
Proof.
  intros [Hc (l & Hr)] Hb.
  destruct (held_slot c b Hc Hb) as (i & Hs & (Hi & Hd & Hk) & Hl & Hrf & Hf & Hv).
  unfold bpin; simpl. rewrite Hs. set (c' := set_flags c i _).
  assert (Hci : core (bufs c' i) = (6, 1, b, true, 1, b_data (bufs c i))).
  { unfold c', set_flags. rewrite setb_eq. unfold core; simpl. rewrite Hd, Hk, Hl, Hrf.
    by destruct Hf as [->| ->]. }
  assert (Ht : touch c c' b i)
    by (eapply touch_intro; try exact Hci; auto; try done; intros j Hj; by apply setb_core_other).
  apply core_fields in Hci as (Ef & El & Em).
  destruct (touch_result c c' b i) as (I & V & H & Y); try done.
  { rewrite Ef. lia. } { exists l. by apply setb_links. }
  rewrite El in H. rewrite Em in V. unfold is_dirty at 2 in Y. rewrite Ef in Y. split_and!; try done.
  - intros x. rewrite V. destruct (Z.eqb_spec x b) as [->|]; congruence.
  - rewrite H. by apply in_union_same.
Qed.

Lemma bio_bwrite_law c b : binv c -> 0 <= b < FSSIZE -> b ∈ blocks_where c b_locked ->
  exists c', bwrite b c = Ok c' /\ binv c' /\ (forall x, view_of c' x = view_of c x) /\
    memdisk c' = dset (memdisk c) b (view_of c b) /\ io c' = io c ++ [(b, view_of c b)] /\
    blocks_where c' b_locked = blocks_where c b_locked /\
    blocks_where c' is_dirty = blocks_where c is_dirty ∖ {[b]}.
Proof.
  intros [Hc (l & Hr)] Hbr Hb.
  destruct (held_slot c b Hc Hb) as (i & Hs & (Hi & Hd & Hk) & Hl & Hrf & Hf & Hv).
  unfold bwrite; simpl. rewrite Hs. unfold bio_bwrite. rewrite Hl. cbn [negb].
  set (c1 := set_flags c i _).
  assert (Hc1 : core (bufs c1 i) = (6, 1, b, true, 1, b_data (bufs c i))).
  { unfold c1, set_flags. rewrite setb_eq. unfold core; simpl. rewrite Hd, Hk, Hl, Hrf.
    by destruct Hf as [->| ->]. }
  apply core_all in Hc1 as (F1 & F2 & F3 & F4 & F5 & F6).
  destruct (iderw_write c1 i l) as (c' & E & Hr' & Hsz & Ho & Hci & Hm & Hio); auto.
  { by apply setb_links. } { rewrite F3. simpl. rewrite (ci_size _ Hc). lia. }
  rewrite F3, F5, F6 in Hci. rewrite F3, F6 in Hm, Hio.
  assert (Ht : touch c c' b i).
  { eapply touch_intro; try exact Hci; auto; try done.
    - intros j Hj. rewrite Ho by done. by apply setb_core_other.
    - intros x Hx. rewrite Hm. by apply dset_ne. }
  apply core_fields in Hci as (Ef & El & Em).
  destruct (touch_result c c' b i) as (I & V & H & Y); try done.
  { rewrite Ef. lia. } { by exists l. }
  rewrite El in H. rewrite Em in V. unfold is_dirty at 2 in Y. rewrite Ef in Y.
  exists c'. rewrite Hv. split_and!; try done.
  - intros x. rewrite V. destruct (Z.eqb_spec x b) as [->|]; congruence.
  - rewrite H. by apply in_union_same.
Qed.

Lemma bio_brelse_law c b : binv c -> b ∈ blocks_where c b_locked ->
  (b ∈ blocks_where c is_dirty \/ view_of c b = memdisk c b) ->
  exists c', brelse b c = Ok c' /\ binv c' /\ (forall x, view_of c' x = view_of c x) /\
    memdisk c' = memdisk c /\ io c' = io c /\
    blocks_where c' b_locked = blocks_where c b_locked ∖ {[b]} /\
    blocks_where c' is_dirty = blocks_where c is_dirty.
Proof.
  intros [Hc (l & Hr)] Hb Hcl.
  destruct (held_slot c b Hc Hb) as (i & Hs & (Hi & Hd & Hk) & Hl & Hrf & Hf & Hv).
  unfold brelse; simpl. rewrite Hs. unfold bio_brelse. rewrite Hl. cbn [negb].
  set (c1 := set_refcnt (set_locked c i false) i _).
  assert (Hc1 : core (bufs c1 i) = (b_flags (bufs c i), 1, b, false, 0, b_data (bufs c i))).
  { unfold c1, set_refcnt. rewrite setb_eq. unfold set_locked. rewrite setb_eq.
    unfold core; simpl. by rewrite Hd, Hk, Hrf. }
  apply core_all in Hc1 as Hall. destruct Hall as (_ & _ & _ & _ & -> & _). rewrite Z.eqb_refl.
  assert (Hr1 : ring_ok c1 l) by (apply setb_links; [done..|]; by apply setb_links).
  destruct (ring_ok_move c1 i l Hr1 Hi) as (l' & Hr').
  set (c' := link_front (unlink c1 i) i) in *.
  assert (Hlk : links_only c1 c') by (etransitivity; [apply links_unlink|apply links_link_front]).
  rewrite <- (lk_core _ _ Hlk) in Hc1.
  assert (Ht : touch c c' b i).
  { eapply touch_intro; try exact Hc1; try done.
    - intros j Hj. rewrite (lk_core _ _ Hlk). unfold c1, set_refcnt. rewrite setb_core_other by done.
      by apply setb_core_other.
    - intros Hf2 _. rewrite (lk_disk _ _ Hlk). simpl. destruct Hcl as [Hdt|Hdt]; [|congruence].
      apply (slot_where c is_dirty b i Hc Hs) in Hdt. unfold is_dirty in Hdt. by rewrite Hf2 in Hdt. }
  apply core_fields in Hc1 as (Ef & El & Em).
  destruct (touch_result c c' b i) as (I & V & H & Y); try done.
  { rewrite Ef. lia. } { by eexists. }
  rewrite El in H. rewrite Em in V. exists c'. split_and!; try done.
  - intros x. rewrite V. destruct (Z.eqb_spec x b) as [->|]; congruence.
  - rewrite Y. unfold is_dirty at 1. rewrite Ef. fold (is_dirty (bufs c i)).
    destruct (is_dirty (bufs c i)) eqn:E; [apply in_union_same|apply notin_diff_same];
      rewrite (slot_where c is_dirty b i) by done; by rewrite E.
Qed.

(** [bget] of a block that is cached and not locked by the caller. *)
Lemma bget_hit c l b i : cinv c -> ring_ok c l -> slot c b = Some i ->
  b_locked (bufs c i) = false -> b_refcnt (bufs c i) = 0 ->
  exists c', bget 1 b c = Ok (i, c') /\ ring_ok c' l /\ disksize c' = disksize c /\
    (forall j, j <> i -> core (bufs c' j) = core (bufs c j)) /\
    core (bufs c' i) = (b_flags (bufs c i), 1, b, true, 1, b_data (bufs c i)) /\
    memdisk c' = memdisk c /\ io c' = io c.
Proof.
  intros Hc Hr Hs Hl Hrf. destruct (slot_caches _ _ _ Hs) as (Hi & Hd & Hk).
  unfold bget. rewrite (bget_cached_ok c l 1 b Hr), (find_slot c b l Hc) by apply Hr.
  rewrite Hs. cbn [rbind]. unfold lock_buf, set_refcnt at 1. rewrite setb_eq. cbn [b_locked].
  rewrite Hl. cbn [rbind]. eexists. split; [reflexivity|]. split_and!; try done.
  - apply setb_links; [done..|]. by apply setb_links.
  - intros j Hj. unfold set_locked, set_refcnt. by rewrite !setb_core_other.
  - unfold set_locked. rewrite setb_eq. unfold set_refcnt. rewrite setb_eq.
    unfold core; simpl. by rewrite Hd, Hk, Hrf.
Qed.

(** [bget] of a block that is not cached takes an unused buffer. *)
Lemma bget_miss c l b : cinv c -> ring_ok c l -> slot c b = None ->
  Z.of_nat (size (blocks_where c b_locked ∪ blocks_where c is_dirty)) < NBUF ->
  exists i c', bget 1 b c = Ok (i, c') /\ (i < NBUFn)%nat /\ ring_ok c' l /\ disksize c' = disksize c /\
    b_locked (bufs c i) = false /\ is_dirty (bufs c i) = false /\
    (forall j, j <> i -> core (bufs c' j) = core (bufs c j)) /\
    core (bufs c' i) = (0, 1, b, true, 1, b_data (bufs c i)) /\
    memdisk c' = memdisk c /\ io c' = io c.
Proof.
  intros Hc Hr Hs Hsz. destruct (free_slot c Hc Hsz) as (k & Hk & Hkl & Hkd).
  unfold bget. rewrite (bget_cached_ok c l 1 b Hr), (find_slot c b l Hc) by apply Hr.
  rewrite Hs. cbn [rbind]. rewrite (bget_free_ok c l Hr). cbn [rbind].
  destruct (find _ (rev l)) as [i|] eqn:E.
  - apply find_some in E as [Hin Hf]. apply andb_prop in Hf as [Hrf Hfl].
    apply in_rev, list_elem_of_In in Hin. destruct Hr as [Hr Hp]. rewrite Hp in Hin.
    apply elem_of_slots in Hin. pose proof (bo_ref _ _ (ci_ok _ Hc i Hin)) as Href.
    apply Z.eqb_eq in Hrf. assert (Hl : b_locked (bufs c i) = false).
    { destruct (b_locked (bufs c i)); [|done]. lia. }
    unfold lock_buf. rewrite setb_eq. cbn [b_locked]. rewrite Hl. cbn [rbind].
    exists i. eexists. split; [reflexivity|]. split_and!; try done.
    + apply setb_links; [done..|]. by apply setb_links.
    + unfold is_dirty. by rewrite Hfl.
    + intros j Hj. unfold set_locked. by rewrite !setb_core_other.
    + unfold set_locked. rewrite setb_eq, setb_eq. done.
  - exfalso. assert (Hin : In k (rev l)).
    { apply -> in_rev. apply list_elem_of_In. destruct Hr as [_ ->]. by apply elem_of_slots. }
    pose proof (find_none _ _ E k Hin) as Hn. simpl in Hn.
    pose proof (bo_ref _ _ (ci_ok _ Hc k Hk)) as Href. rewrite Hkl in Href. rewrite Href in Hn.
    unfold is_dirty in Hkd. apply negb_false_iff in Hkd. by rewrite Hkd in Hn.
Qed.

Lemma bread_hit_law c b i : binv c -> 0 <= b < FSSIZE -> slot c b = Some i ->
  b ∉ blocks_where c b_locked ->
  exists c', bread b c = Ok (view_of c b, c') /\ binv c' /\ (forall x, view_of c' x = view_of c x) /\
    memdisk c' = memdisk c /\ io c' = io c /\
    blocks_where c' b_locked = {[b]} ∪ blocks_where c b_locked /\
    blocks_where c' is_dirty = blocks_where c is_dirty.
Proof.
  intros [Hc (l & Hr)] Hbr Hs Hb. destruct (not_held_slot c b i Hc Hb Hs) as [Hl Hrf].
  destruct (slot_caches _ _ _ Hs) as (Hi & Hd & Hk). pose proof (ci_ok _ Hc i Hi) as Hok.
  destruct (bget_hit c l b i Hc Hr Hs Hl Hrf) as (c1 & E1 & Hr1 & Hz1 & Ho1 & Hc1 & Hm1 & Hio1).
  pose proof (core_all _ _ _ _ _ _ _ Hc1) as (F1 & F2 & F3 & F4 & F5 & F6).
  assert (Hex : exists c', bread b c = Ok (view_of c b, c') /\ ring_ok c' l /\ memdisk c' = memdisk c /\
    io c' = io c /\ disksize c' = disksize c /\ (forall j, j <> i -> core (bufs c' j) = core (bufs c j)) /\
    core (bufs c' i) = (if b_flags (bufs c i) =? 0 then 2 else b_flags (bufs c i), 1, b, true, 1, view_of c b)).
  { unfold bread; simpl. unfold bio_bread. rewrite E1. cbn [rbind]. rewrite F1.
    unfold view_of. rewrite Hs. destruct (Z.eqb_spec (b_flags (bufs c i)) 0) as [Hf|Hf].
    - rewrite Hf. change (Z.land 0 B_VALID =? 0) with true. cbv iota.
      destruct (iderw_read c1 i l) as (c' & E & Hr' & Hz & Ho & Hci & Hm & Hio); auto; [congruence| |].
      { rewrite F3, Hz1, (ci_size _ Hc). lia. }
      rewrite E. cbn [rbind]. rewrite F3, F5, Hm1 in Hci.
      apply core_fields in Hci as Hcf. destruct Hcf as (_ & _ & ->). exists c'.
      split_and!; try congruence. intros j Hj. by rewrite Ho, Ho1.
    - assert (Hv : (Z.land (b_flags (bufs c i)) B_VALID =? 0) = false).
      { destruct (bo_flags _ _ Hok) as [|[->| ->]]; done. }
      rewrite Hv. cbn [rbind]. rewrite F6. exists c1. by split_and!. }
  destruct Hex as (c' & E & Hr' & Hm & Hio & Hz & Ho & Hci).
  assert (Hf : (if b_flags (bufs c i) =? 0 then 2 else b_flags (bufs c i)) = 2 \/
               (if b_flags (bufs c i) =? 0 then 2 else b_flags (bufs c i)) = 6)
    by (destruct (bo_flags _ _ Hok) as [->|[->| ->]]; auto).
  assert (Ht : touch c c' b i)
    by (eapply touch_intro; try exact Hci; try done; intros x _; by rewrite Hm).
  apply core_fields in Hci as (Ef & El & Em).
  destruct (touch_result c c' b i) as (I & V & H & Y); try done.
  { rewrite Ef. lia. } { by eexists. }
  rewrite El in H. rewrite Em in V. exists c'. split_and!; try done.
  - intros x. rewrite V. by destruct (Z.eqb_spec x b) as [->|].
  - rewrite Y. unfold is_dirty at 1. rewrite Ef.
    assert (Hsame : negb (Z.land (if b_flags (bufs c i) =? 0 then 2 else b_flags (bufs c i)) B_DIRTY =? 0)
                    = is_dirty (bufs c i))
      by (unfold is_dirty; by destruct (bo_flags _ _ Hok) as [->|[->| ->]]).
    rewrite Hsame. destruct (is_dirty (bufs c i)) eqn:Ed; [apply in_union_same|apply notin_diff_same];
      rewrite (slot_where c is_dirty b i) by done; by rewrite Ed.
Qed.

Lemma bread_miss_law c b : binv c -> 0 <= b < FSSIZE -> slot c b = None ->
  Z.of_nat (size (blocks_where c b_locked ∪ blocks_where c is_dirty)) < NBUF ->
  exists c', bread b c = Ok (view_of c b, c') /\ binv c' /\ (forall x, view_of c' x = view_of c x) /\
    memdisk c' = memdisk c /\ io c' = io c /\
    blocks_where c' b_locked = {[b]} ∪ blocks_where c b_locked /\
    blocks_where c' is_dirty = blocks_where c is_dirty.
Proof.
  intros [Hc (l & Hr)] Hbr Hs Hsz.
  destruct (bget_miss c l b Hc Hr Hs Hsz) as (i & c1 & E1 & Hi & Hr1 & Hz1 & Hl & Hd & Ho1 & Hc1 & Hm1 & Hio1).
  pose proof (core_all _ _ _ _ _ _ _ Hc1) as (F1 & F2 & F3 & F4 & F5 & F6).
  destruct (iderw_read c1 i l) as (c' & E & Hr' & Hz & Ho & Hci & Hm & Hio); auto.
  { rewrite F3, Hz1, (ci_size _ Hc). lia. }
  rewrite F3, F5, Hm1 in Hci. rewrite Hm1 in Hm.
  assert (Hrec : recycle c c' b i).
  { split; try done; try congruence.
    - intros j Hj. by rewrite Ho, Ho1.
    - apply core_all in Hci as (_ & ? & ? & _). by split_and!.
    - eapply buf_ok_intro; try exact Hci; auto; done. }
  apply core_fields in Hci as (Ef & El & Em).
  assert (Hv : view_of c b = memdisk c b) by (unfold view_of; by rewrite Hs).
  exists c'. split_and!; try congruence.
  - unfold bread; simpl. unfold bio_bread. rewrite E1. cbn [rbind]. rewrite F1.
    change (Z.land 0 B_VALID =? 0) with true. cbv iota. rewrite E. cbn [rbind]. congruence.
  - split; [by eapply recycle_inv|by eexists].
  - intros x. destruct (decide (x = b)) as [->|]; [|by eapply recycle_view_other].
    unfold view_of at 1. rewrite (recycle_slot c c' b i) by done. rewrite Ef, Em. by rewrite Hv.
  - rewrite (recycle_where c c' b i Hs Hrec b_locked), El; auto using locked_core.
  - rewrite (recycle_where c c' b i Hs Hrec is_dirty); auto using dirty_core.
    unfold is_dirty at 1. by rewrite Ef.
Qed.

(** At boot every buffer is unused. *)
Lemma links_binit_loop k b c : (forall i, core (bufs c i) = core zero_buf) ->
  forall i, core (bufs (binit_loop k b c) i) = core zero_buf.
Proof.
  revert b c. induction k as [|k IH]; intros b c H; simpl; [done|]. apply IH. intros i.
  rewrite (lk_core _ _ (links_link_front _ _)). unfold set_locked.
  destruct (decide (i = b)) as [->|]; [|rewrite setb_core_other by done; apply H].
  rewrite setb_eq. destruct (core_inj _ _ (H b)) as (E1 & E2 & E3 & E4 & E5 & E6).
  unfold core. simpl. by rewrite E1, E2, E3, E5, E6.
Qed.

Lemma binit_loop_disk k b c :
  memdisk (binit_loop k b c) = memdisk c /\ disksize (binit_loop k b c) = disksize c /\
  io (binit_loop k b c) = io c.
Proof.
  revert b c. induction k as [|k IH]; intros b c; simpl; [done|].
  exact (IH (S b) (link_front (set_locked c b false) b)).
Qed.

Lemma buf_ok_zero d x : core x = core zero_buf -> buf_ok d x.
Proof.
  intros (E1 & E2 & E3 & E4 & E5 & E6)%core_inj.
  split; rewrite ?E1, ?E2, ?E4, ?E5; simpl; auto; done.
Qed.

Lemma boot_core d i : core (bufs (bc_boot (C := bcache) d) i) = core zero_buf.
Proof.
  apply links_binit_loop. intros j. rewrite (lk_core _ _ (links_set_next _ _ _)).
  by rewrite (lk_core _ _ (links_set_prev _ _ _)).
Qed.

Lemma boot_no_cache d b i : ~ caches (bc_boot (C := bcache) d) b i.
Proof. intros (_ & H & _). destruct (core_inj _ _ (boot_core d i)) as (_ & E & _). by rewrite E in H. Qed.

Lemma boot_where d f : blocks_where (bc_boot (C := bcache) d) f = ∅.
Proof.
  apply set_eq. intros x. rewrite elem_blocks_where. split; [|intros []%not_elem_of_empty].
  intros (i & H & _). destruct (boot_no_cache _ _ _ H).
Qed.

Lemma boot_inv d : binv (bc_boot d).
Proof.
  destruct (binit_loop_disk NBUFn 0
    (set_next (set_prev (mk_bcache (fun _ => zero_buf) d FSSIZE []) HEAD HEAD) HEAD HEAD)) as (Hd & Hs & _).
  split; [split|apply binit_ring].
  - intros i Hi. apply buf_ok_zero, boot_core.
  - intros b i j Hi. destruct (boot_no_cache _ _ _ Hi).
  - exact Hs.
Qed.

#[global] Program Instance bio_laws : BlockCacheLaws bcache := { bc_inv := binv }.
Next Obligation.
  intros d. destruct (binit_loop_disk NBUFn 0
    (set_next (set_prev (mk_bcache (fun _ => zero_buf) d FSSIZE []) HEAD HEAD) HEAD HEAD)) as (Hd & Hs & Hi).
  refine (conj (boot_inv d) (conj _ (conj _ (conj Hi (conj (boot_where d _) (boot_where d _)))))).
  - intros b _. unfold bc_view; simpl. unfold view_of.
    destruct (slot _ b) as [i|] eqn:E; [apply slot_caches in E; destruct (boot_no_cache _ _ _ E)|].
    exact (f_equal (fun f => f b) Hd).
  - intros b _. exact (f_equal (fun f => f b) Hd).
Qed.
Next Obligation.
  intros c b [Hc _] _ Hh Hd. simpl in *. unfold view_of. destruct (slot c b) as [i|] eqn:Es; [|done].
  destruct (not_held_slot c b i Hc Hh Es) as [Hl _].
  destruct (Z.eqb_spec (b_flags (bufs c i)) 0); [done|].
  rewrite (slot_where c is_dirty b i Hc Es) in Hd. apply slot_caches in Es as (Hi & Hdv & <-).
  pose proof (ci_ok _ Hc i Hi) as Hok. apply (bo_clean _ _ Hok); [done| |done].
  unfold is_dirty in Hd. destruct (bo_flags _ _ Hok) as [|[|H6]]; [done..|]. by rewrite H6 in Hd.
Qed.
Next Obligation.
  intros c b Hi Hb Hh Hr. simpl in *.
  assert (exists c', bread b c = Ok (view_of c b, c') /\ binv c' /\ (forall x, view_of c' x = view_of c x) /\
    memdisk c' = memdisk c /\ io c' = io c /\
    blocks_where c' b_locked = {[b]} ∪ blocks_where c b_locked /\
    blocks_where c' is_dirty = blocks_where c is_dirty) as (c' & E & I & V & M & W & H & Y).
  { destruct (slot c b) as [i|] eqn:Es; [by eapply bread_hit_law|]. apply bread_miss_law; try done.
    destruct Hr as [Hr|Hr]; [|done]. exfalso. simpl in Hr. apply elem_blocks_where in Hr as (i & Hc & _).
    by eapply slot_none in Hc. }
  exists c'. refine (conj E (conj I (conj (fun x _ => V x) (conj _ (conj W (conj H Y)))))).
  intros x _. exact (f_equal (fun f => f x) M).
Qed.
Next Obligation.
  intros c b m Hi Hb Hh. destruct (bio_bset_law c b m Hi Hh) as (I & V & M & W & H & Y).
  refine (conj I (conj (fun x _ => V x) (conj _ (conj W (conj H Y))))).
  intros x _. exact (f_equal (fun f => f x) M).
Qed.
Next Obligation.
  intros c b Hi Hb Hh. destruct (bio_bpin_law c b Hi Hh) as (I & V & M & W & H & Y).
  refine (conj I (conj (fun x _ => V x) (conj _ (conj W (conj H Y))))).
  intros x _. exact (f_equal (fun f => f x) M).
Qed.
Next Obligation.
  intros c b Hi Hb Hh. destruct (bio_bwrite_law c b Hi Hb Hh) as (c' & E & I & V & M & W & H & Y).
  exists c'. refine (conj E (conj I (conj (fun x _ => V x) (conj _ (conj W (conj H Y)))))).
  intros x _. exact (f_equal (fun f => f x) M).
Qed.
Next Obligation.
  intros c b Hi Hb Hh Hd. destruct (bio_brelse_law c b Hi Hh Hd) as (c' & E & I & V & M & W & H & Y).
  exists c'. refine (conj E (conj I (conj (fun x _ => V x) (conj _ (conj W (conj H Y)))))).
  intros x _. exact (f_equal (fun f => f x) M).
Qed.

(** ** Properties *)

Lemma find_split (f : nat -> bool) l i : find f l = Some i ->
  exists l1 l2, l = l1 ++ i :: l2 /\ f i = true /\ Forall (fun j => f j = false) l1.
Proof.
  induction l as [|x l IH]; simpl; [done|]. destruct (f x) eqn:E.
  - intros [= ->]. exists [], l. by split_and!.
  - intros (l1 & l2 & -> & Hf & Hl)%IH. exists (x :: l1), l2. split_and!; try done. by constructor.
Qed.

(** C12: The buffer cache keeps one coherent copy of each block.  In a cache that
    satisfies the invariant (a ring through all the buffers, at most one buffer
    per block, clean unlocked buffers equal to the disk), [bread] of a block
    that the caller has not locked, when a buffer is available, returns the
    latest content of the block, keeps the invariant, changes no other block's
    content and writes nothing to the disk. *)
Theorem bread_coherent (c : bcache) (b : Z) :
  binv c -> 0 <= b < FSSIZE -> b ∉ blocks_where c b_locked ->
  (b ∈ blocks_where c is_dirty \/
   Z.of_nat (size (blocks_where c b_locked ∪ blocks_where c is_dirty)) < NBUF) ->
  exists i c', bio_bread 1 b c = Ok (i, c') /\ binv c' /\ b_data (bufs c' i) = view_of c b /\
    (forall x, 0 <= x < FSSIZE -> view_of c' x = view_of c x) /\
    (forall x, 0 <= x < FSSIZE -> memdisk c' x = memdisk c x) /\ io c' = io c /\
    blocks_where c' b_locked = {[b]} ∪ blocks_where c b_locked.
Proof.
  intros Hi Hb Hh Hr. destruct (bread_law (BlockCacheLaws := bio_laws) c b Hi Hb Hh Hr)
    as (c' & E & I & V & M & W & H & _).
  apply rbind_Ok_inv in E as ([i c1] & E & [= Ed <-]). exists i, c1.
  exact (conj E (conj I (conj Ed (conj V (conj M (conj W H)))))).
Qed.

(** [bget] of an uncached block recycles the least recently used buffer that
    is neither referenced nor dirty: every buffer behind it in the list is in
    use, and no locked or dirty buffer is ever taken. *)
Theorem bget_evicts_lru (c : bcache) (l : list nat) (b : Z) :
  cinv c -> ring_ok c l -> slot c b = None ->
  Z.of_nat (size (blocks_where c b_locked ∪ blocks_where c is_dirty)) < NBUF ->
  exists l1 i l2 c', l = l1 ++ i :: l2 /\ bget 1 b c = Ok (i, c') /\
    b_locked (bufs c i) = false /\ is_dirty (bufs c i) = false /\
    Forall (fun j => b_locked (bufs c j) = true \/ is_dirty (bufs c j) = true) l2.
Proof.
  intros Hc Hr Hs Hsz.
  destruct (bget_miss c l b Hc Hr Hs Hsz) as (i & c' & E & Hi & _ & _ & Hl & Hd & _).
  pose proof E as E'. unfold bget in E'.
  rewrite (bget_cached_ok c l 1 b Hr), (find_slot c b l Hc) in E' by apply Hr.
  rewrite Hs in E'. cbn [rbind] in E'. rewrite (bget_free_ok c l Hr) in E'. cbn [rbind] in E'.
  destruct (find _ (rev l)) as [i'|] eqn:Ef; [|done].
  apply rbind_Ok_inv in E' as (c1 & _ & E'). simplify_eq.
  apply find_split in Ef as (l2 & l1 & Hl' & _ & Hall).
  exists (rev l1), i, (rev l2), c'. split_and!; try done.
  { rewrite <- (rev_involutive l), Hl', rev_app_distr. simpl. by rewrite <- app_assoc. }
  apply Forall_rev. rewrite Forall_forall in Hall |- *. intros j Hj. specialize (Hall j Hj). simpl in Hall.
  assert (Hjn : (j < NBUFn)%nat).
  { apply elem_of_slots. destruct Hr as [_ <-]. rewrite <- (rev_involutive l), Hl', rev_app_distr.
    simpl. apply elem_of_app. right. apply list_elem_of_In. apply -> in_rev. by apply list_elem_of_In. }
  pose proof (bo_ref _ _ (ci_ok _ Hc j Hjn)) as Href. unfold is_dirty.
  destruct (b_locked (bufs c j)); [by left|right]. rewrite Href in Hall. simpl in Hall. by rewrite Hall.
Qed.

(** Witnesses: the cache right after boot. *)
Definition wit_bcache : bcache := bc_boot (fun _ _ => 0).

Lemma wit_no_where f : blocks_where wit_bcache f = ∅.
Proof. apply boot_where. Qed.

Lemma wit_room : Z.of_nat (size (blocks_where wit_bcache b_locked ∪ blocks_where wit_bcache is_dirty)) < NBUF.
Proof. rewrite !wit_no_where. rewrite union_empty_l_L, size_empty. unfold NBUF, MAXOPBLOCKS. lia. Qed.

Lemma wit_slot b : slot wit_bcache b = None.
Proof.
  destruct (slot wit_bcache b) as [i|] eqn:E; [|reflexivity].
  apply slot_caches in E. destruct (boot_no_cache _ _ _ E).
Qed.

Lemma bread_coherent_witness :
  exists i c', bio_bread 1 5 wit_bcache = Ok (i, c') /\ binv c' /\
    b_data (bufs c' i) = view_of wit_bcache 5 /\
    (forall x, 0 <= x < FSSIZE -> view_of c' x = view_of wit_bcache x) /\
    (forall x, 0 <= x < FSSIZE -> memdisk c' x = memdisk wit_bcache x) /\ io c' = io wit_bcache /\
    blocks_where c' b_locked = {[5]} ∪ blocks_where wit_bcache b_locked.
Proof.
  apply (bread_coherent wit_bcache 5).
  - apply boot_inv.
  - unfold FSSIZE. lia.
  - rewrite wit_no_where. apply not_elem_of_empty.
  - right. apply wit_room.
Defined.

Lemma bget_evicts_lru_witness :
  exists l, ring_ok wit_bcache l /\
  exists l1 i l2 c', l = l1 ++ i :: l2 /\ bget 1 5 wit_bcache = Ok (i, c') /\
    b_locked (bufs wit_bcache i) = false /\ is_dirty (bufs wit_bcache i) = false /\
    Forall (fun j => b_locked (bufs wit_bcache j) = true \/ is_dirty (bufs wit_bcache j) = true) l2.
Proof.
  destruct (boot_inv (fun _ _ => 0)) as [Hc (l & Hl)]. exists l. split; [exact Hl|].
  apply (bget_evicts_lru wit_bcache l 5).
  - exact Hc.
  - exact Hl.
  - apply wit_slot.
  - apply wit_room.
Defined.
