(* ===== verification/Balloc.v ===== *)
(** * Block allocator (src/fs.c: readsb, bzero, balloc, bfree)

    From here on the disk is seen through a transaction: [td] is the content
    [bread] returns (the current content of [LogTx.v]) and [tw] the blocks
    given to [log_write], the ones in the log's header.  A [tdisk] is a disk
    inside a transaction, between [begin_op] and [end_op], so the check of
    [log_write] for a call outside of one has no counterpart here; its check
    for the room in the log has.  The bitmap is abstracted by [used]. *)

From S2P Require Import Prelude Layout StringLib Blocks.

Record tdisk := mk_td {
  td : disk;
  tw : gset Z
}.

(** [bread]; the disk driver rejects blocks past the end of the disk. *)
Definition tread (s : tdisk) (b : Z) : res mem :=
  if b <? FSSIZE then Ok (td s b) else Panic "iderw: block out of range".

(** Block [b] with new data, pinned for the log. *)
Definition tput (s : tdisk) (b : Z) (m : mem) : tdisk := mk_td (dset (td s) b m) ({[b]} ∪ tw s).

(** [log.lh.n]: the blocks in the log's header. *)
Definition logged (s : tdisk) : Z := Z.of_nat (size (tw s)).

(** Helper: the size of a union of sets. *)
Lemma size_union_le (X Y : gset Z) : (size (X ∪ Y) <= size X + size Y)%nat.
Proof. rewrite size_union_alt. pose proof (subseteq_size (Y ∖ X) Y ltac:(set_solver)). lia. Qed.

Section balloc.
Context (sb : superblock).

(** The modified data of a buffer handed to [log_write]; log.size is sb.nlog.
    The room is checked before the block is looked up in the header. *)
Definition tlog (s : tdisk) (b : Z) (m : mem) : res tdisk :=
  if (LOGSIZE <=? logged s) || (sb_nlog sb - 1 <=? logged s) then Panic "too big a transaction"
  else Ok (tput s b m).

Definition bzero (bno : Z) (s : tdisk) : res tdisk :=
  let* bp := tread s bno in
  tlog s bno (memset bp 0 0 BSIZE).

(** The loop over [bi]: the first clear bit of this bitmap block. *)
Fixpoint balloc_scan (k : nat) (bi b : Z) (bp : mem) : option Z :=
  match k with
  | O => None
  | S k' =>
      if (bi <? BPB) && (b + bi <? sb_size sb) then
        let m := Z.shiftl 1 (bi mod 8) in
        if Z.land (bp (bi / 8)) m =? 0 then Some bi      (* Is block free? *)
        else balloc_scan k' (bi + 1) b bp
      else None
  end.

(** The loop over [b]. *)
Fixpoint balloc_loop (k : nat) (b : Z) (s : tdisk) : res (Z * tdisk) :=
  match k with
  | O => Panic "balloc: out of blocks"
  | S k' =>
      if b <? sb_size sb then
        let* bp := tread s (BBLOCK b sb) in
        match balloc_scan (Z.to_nat BPB) 0 b bp with
        | Some bi =>
            let m := Z.shiftl 1 (bi mod 8) in
            let bp := mset bp (bi / 8) (Z.lor (bp (bi / 8)) m) in  (* Mark block in use. *)
            let* s := tlog s (BBLOCK b sb) bp in
            let* s := bzero (b + bi) s in
            Ok (b + bi, s)
        | None => balloc_loop k' (b + BPB) s
        end
      else Panic "balloc: out of blocks"
  end.

Definition balloc (s : tdisk) : res (Z * tdisk) :=
  balloc_loop (S (Z.to_nat (sb_size sb / BPB))) 0 s.

Definition bfree (b : Z) (s : tdisk) : res tdisk :=
  let* bp := tread s (BBLOCK b sb) in
  let bi := b mod BPB in
  let m := Z.shiftl 1 (bi mod 8) in
  if Z.land (bp (bi / 8)) m =? 0 then Panic "freeing free block"
  else tlog s (BBLOCK b sb) (mset bp (bi / 8) (Z.land (bp (bi / 8)) (Z.lnot m))).

(** ** The room in the log *)

(** No [log_write] may start with more blocks than this less one. *)
Definition log_cap : Z := Z.min LOGSIZE (sb_nlog sb - 1).

Lemma tlog_room s b m : logged s < log_cap -> tlog s b m = Ok (tput s b m).
Proof.
  intros H. unfold tlog, log_cap in *. by rewrite (proj2 (Z.leb_gt LOGSIZE _)), (proj2 (Z.leb_gt (sb_nlog sb - 1) _)) by lia.
Qed.

Lemma tlog_cases s b m : (logged s < log_cap /\ tlog s b m = Ok (tput s b m)) \/ (log_cap <= logged s /\ tlog s b m = Panic "too big a transaction").
Proof.
  destruct (Z.lt_ge_cases (logged s) log_cap) as [H|H]; [left; split; [done | by apply tlog_room] | right; split; [done|]].
  unfold tlog, log_cap in *. destruct (Z.leb_spec LOGSIZE (logged s)), (Z.leb_spec (sb_nlog sb - 1) (logged s)); try done. lia.
Qed.

(** One more block takes at most one more place. *)
Lemma logged_put s b m : logged s <= logged (tput s b m) <= logged s + 1.
Proof.
  unfold logged. cbn [tput tw]. pose proof (size_union_le {[b]} (tw s)) as H. rewrite size_singleton in H.
  pose proof (subseteq_size (tw s) ({[b]} ∪ tw s) ltac:(set_solver)). lia.
Qed.

(** ** The bitmap *)

(** Block [b] is marked in use. *)
Definition used (s : tdisk) (b : Z) : bool :=
  Z.testbit (td s (BBLOCK b sb) (b mod BPB / 8)) (b mod 8).

(** First block after the boot block, superblock, log, inodes and bitmap. *)
Definition data_start : Z := BBLOCK (sb_size sb - 1) sb + 1.

(** The superblock describes this disk. *)
Record sb_ok : Prop := {
  so_log : 0 <= sb_logstart sb;
  so_inode : sb_logstart sb < sb_inodestart sb;
  so_bmap : sb_inodestart sb + sb_ninodes sb / IPB < sb_bmapstart sb;
  so_ninodes : 0 < sb_ninodes sb;
  so_data : sb_bmapstart sb < sb_size sb;
  so_size : sb_size sb <= FSSIZE
}.

(** The metadata blocks are marked in use, as mkfs does. *)
Definition meta_used (s : tdisk) : Prop := forall b, 0 <= b < data_start -> used s b = true.

(** ** Bits *)

Lemma land_bit a n : 0 <= n -> (Z.land a (Z.shiftl 1 n) =? 0) = negb (Z.testbit a n).
Proof.
  intros Hn. rewrite Z.shiftl_1_l. destruct (Z.eqb_spec (Z.land a (2 ^ n)) 0) as [H|H].
  - apply (f_equal (fun z => Z.testbit z n)) in H.
    rewrite Z.land_spec, Z.pow2_bits_true, Z.bits_0, andb_true_r in H by done. by rewrite H.
  - destruct (Z.testbit a n) eqn:E; [done|]. destruct H. apply Z.bits_inj'. intros k Hk.
    rewrite Z.land_spec, Z.bits_0. destruct (Z.eqb_spec n k) as [->|Hne]; [by rewrite E|].
    by rewrite Z.pow2_bits_false, andb_false_r.
Qed.

Lemma testbit_set a n k : 0 <= n -> Z.testbit (Z.lor a (Z.shiftl 1 n)) k = Z.testbit a k || (k =? n).
Proof. intros Hn. by rewrite Z.lor_spec, Z.shiftl_1_l, Z.pow2_bits_eqb, Z.eqb_sym. Qed.

Lemma testbit_clear a n k : 0 <= n -> 0 <= k ->
  Z.testbit (Z.land a (Z.lnot (Z.shiftl 1 n))) k = Z.testbit a k && negb (k =? n).
Proof.
  intros Hn Hk. by rewrite Z.land_spec, Z.lnot_spec, Z.shiftl_1_l, Z.pow2_bits_eqb, Z.eqb_sym.
Qed.

Definition bit (bp : mem) (j : Z) : bool := Z.testbit (bp (j / 8)) (j mod 8).

Lemma bit_mset_or bp j x : bit (mset bp (j / 8) (Z.lor (bp (j / 8)) (Z.shiftl 1 (j mod 8)))) x =
  bit bp x || (x =? j).
Proof.
  unfold bit, mset. destruct (Z.eqb_spec (x / 8) (j / 8)) as [E|E].
  - rewrite E, testbit_set by (apply Z.mod_pos_bound; lia). f_equal.
    destruct (Z.eqb_spec (x mod 8) (j mod 8)), (Z.eqb_spec x j); try done; zdiv.
  - destruct (Z.eqb_spec x j); [congruence|]. by rewrite orb_false_r.
Qed.

Lemma bit_mset_clear bp j x :
  bit (mset bp (j / 8) (Z.land (bp (j / 8)) (Z.lnot (Z.shiftl 1 (j mod 8))))) x =
  bit bp x && negb (x =? j).
Proof.
  unfold bit, mset. destruct (Z.eqb_spec (x / 8) (j / 8)) as [E|E].
  - rewrite E, testbit_clear by (apply Z.mod_pos_bound; lia). do 2 f_equal.
    destruct (Z.eqb_spec (x mod 8) (j mod 8)), (Z.eqb_spec x j); try done; zdiv.
  - destruct (Z.eqb_spec x j); [congruence|]. by rewrite andb_true_r.
Qed.

(** The scan finds the first clear bit. *)
Lemma balloc_scan_spec k bi b bp : 0 <= bi -> bi + Z.of_nat k = BPB ->
  match balloc_scan k bi b bp with
  | Some j => bi <= j < BPB /\ b + j < sb_size sb /\ bit bp j = false /\
              forall x, bi <= x < j -> bit bp x = true
  | None => forall x, bi <= x < BPB -> b + x < sb_size sb -> bit bp x = true
  end.
Proof.
  revert bi. induction k as [|k IH]; intros bi Hb Hk; simpl; [intros; lia|].
  destruct (Z.ltb_spec bi BPB); [|simpl; intros; lia].
  destruct (Z.ltb_spec (b + bi) (sb_size sb)); simpl; [|intros; lia].
  rewrite land_bit by (apply Z.mod_pos_bound; lia). fold (bit bp bi).
  destruct (bit bp bi) eqn:E; simpl; [|split_and!; try done; try lia; intros; lia].
  specialize (IH (bi + 1) ltac:(lia) ltac:(lia)). destruct (balloc_scan _ _ _ _) as [j|].
  - destruct IH as (H1 & H2 & H3 & H4). split_and!; try done; try lia.
    intros x Hx. destruct (decide (x = bi)) as [->|]; [done|]. apply H4. lia.
  - intros x Hx Hs. destruct (decide (x = bi)) as [->|]; [done|]. apply IH; lia.
Qed.

Section allocation.
Context (Hsb : sb_ok).

Lemma size_lt_BPB : sb_size sb < BPB.
Proof. pose proof (so_size Hsb). unfold FSSIZE, BPB, BSIZE in *. lia. Qed.

Lemma BBLOCK_small b : 0 <= b < BPB -> BBLOCK b sb = sb_bmapstart sb.
Proof. intros H. unfold BBLOCK. rewrite Z.div_small by done. lia. Qed.

Lemma sb_sizes : 0 <= sb_bmapstart sb < sb_size sb /\ 0 < sb_size sb <= FSSIZE.
Proof.
  destruct Hsb as [H1 H2 H3 H4 H5 H6]. assert (0 <= sb_ninodes sb / IPB) by (apply Z.div_pos; lia || done).
  lia.
Qed.

Lemma data_start_eq : data_start = sb_bmapstart sb + 1.
Proof.
  pose proof sb_sizes. pose proof size_lt_BPB. unfold data_start. rewrite BBLOCK_small by lia. done.
Qed.

Lemma used_bit s b : 0 <= b < sb_size sb -> used s b = bit (td s (sb_bmapstart sb)) b.
Proof.
  intros Hb. pose proof size_lt_BPB. unfold used, bit. rewrite BBLOCK_small, Z.mod_small by lia. done.
Qed.

Lemma tread_ok s b : b < FSSIZE -> tread s b = Ok (td s b).
Proof. intros. unfold tread. by rewrite (proj2 (Z.ltb_lt _ _)). Qed.

(** A state change that allocates or frees nothing but block [b0]. *)
Record bit_set (s s' : tdisk) (b0 : Z) (v : bool) : Prop := {
  bs_this : used s' b0 = v;
  bs_other x : 0 <= x < sb_size sb -> x <> b0 -> used s' x = used s x
}.

(** [balloc] returns the lowest free block, zeroed and marked in use. *)
Lemma balloc_ok s b0 : Z.of_nat (size ({[sb_bmapstart sb]} ∪ tw s)) < log_cap -> meta_used s -> 0 <= b0 < sb_size sb -> used s b0 = false ->
  (forall x, 0 <= x < b0 -> used s x = true) ->
  exists s', balloc s = Ok (b0, s') /\ data_start <= b0 /\ bit_set s s' b0 true /\
    (forall y, y <> b0 -> y <> sb_bmapstart sb -> td s' y = td s y) /\
    (forall i, 0 <= i < BSIZE -> td s' b0 i = 0) /\
    tw s' = {[b0]} ∪ ({[sb_bmapstart sb]} ∪ tw s).
Proof.
  intros Hroom Hm Hb Hu Hl. pose proof size_lt_BPB. pose proof sb_sizes as [? ?].
  assert (Hr0 : logged s < log_cap) by (unfold logged; pose proof (subseteq_size (tw s) ({[sb_bmapstart sb]} ∪ tw s) ltac:(set_solver)); lia).
  assert (Hds : data_start <= b0).
  { destruct (Z.le_gt_cases data_start b0) as [|Hlt]; [done|]. rewrite Hm in Hu by lia. done. }
  unfold balloc. cbn [balloc_loop]. rewrite (proj2 (Z.ltb_lt _ _)) by lia.
  rewrite BBLOCK_small by lia. rewrite tread_ok by lia. cbn [rbind].
  pose proof (balloc_scan_spec (Z.to_nat BPB) 0 0 (td s (sb_bmapstart sb))) as Hsc.
  rewrite Z2Nat.id in Hsc by (unfold BPB, BSIZE; lia). specialize (Hsc ltac:(lia) ltac:(lia)).
  rewrite used_bit in Hu by done.
  destruct (balloc_scan _ 0 0 _) as [j|]; [|rewrite Hsc in Hu by lia; done].
  destruct Hsc as (Hj & Hjs & Hjb & Hjl). rewrite Z.add_0_l in *.
  assert (j = b0) as ->.
  { destruct (Z.lt_trichotomy j b0) as [Hlt|[|Hgt]]; [|done|].
    - rewrite <- used_bit, Hl in Hjb by lia. done.
    - rewrite Hjl in Hu by lia. done. }
  rewrite tlog_room by done. cbn [rbind]. unfold bzero. rewrite tread_ok by lia. cbn [rbind]. rewrite tlog_room by done. cbn [rbind].
  eexists. split; [reflexivity|]. rewrite data_start_eq in Hds. assert (sb_bmapstart sb <> b0) by lia.
  split_and!; simpl.
  - rewrite data_start_eq. lia.
  - split; [|intros x Hx Hne]; rewrite !used_bit by done; simpl;
      rewrite dset_ne, dset_eq, bit_mset_or by done.
    + by rewrite Z.eqb_refl, orb_true_r.
    + by rewrite (proj2 (Z.eqb_neq _ _)), orb_false_r by done.
  - intros y Hy1 Hy2. by rewrite !dset_ne.
  - intros i Hi. rewrite dset_eq, memset_spec by (unfold BSIZE; lia). by rewrite mfill_in.
  - done.
Qed.

(** Without a free block [balloc] panics. *)
Lemma balloc_full s : (forall x, 0 <= x < sb_size sb -> used s x = true) ->
  balloc s = Panic "balloc: out of blocks".
Proof.
  intros Hu. pose proof size_lt_BPB. pose proof sb_sizes as [? ?].
  unfold balloc. rewrite Z.div_small by lia. cbn [balloc_loop Z.to_nat]. rewrite (proj2 (Z.ltb_lt _ _)) by lia.
  rewrite BBLOCK_small by lia. rewrite tread_ok by lia. cbn [rbind].
  pose proof (balloc_scan_spec (Z.to_nat BPB) 0 0 (td s (sb_bmapstart sb))) as Hsc.
  rewrite Z2Nat.id in Hsc by (unfold BPB, BSIZE; lia). specialize (Hsc ltac:(lia) ltac:(lia)).
  destruct (balloc_scan _ 0 0 _) as [j|]; [|done]. destruct Hsc as (Hj & Hjs & Hjb & _).
  rewrite <- used_bit, Hu in Hjb by lia. done.
Qed.

(** Without the room for two blocks it may panic, and only then. *)
Lemma balloc_big s b0 : log_cap <= Z.of_nat (size ({[sb_bmapstart sb]} ∪ tw s)) -> meta_used s -> 0 <= b0 < sb_size sb -> used s b0 = false ->
  balloc s = Panic "too big a transaction".
Proof.
  intros Hroom Hm Hb Hu. pose proof size_lt_BPB. pose proof sb_sizes as [? ?].
  unfold balloc. cbn [balloc_loop]. rewrite (proj2 (Z.ltb_lt _ _)) by lia.
  rewrite BBLOCK_small by lia. rewrite tread_ok by lia. cbn [rbind].
  pose proof (balloc_scan_spec (Z.to_nat BPB) 0 0 (td s (sb_bmapstart sb))) as Hsc.
  rewrite Z2Nat.id in Hsc by (unfold BPB, BSIZE; lia). specialize (Hsc ltac:(lia) ltac:(lia)).
  rewrite used_bit in Hu by done.
  destruct (balloc_scan _ 0 0 _) as [j|]; [|rewrite Hsc in Hu by lia; done]. destruct Hsc as (Hj & Hjs & _).
  set (m := mset _ _ _). destruct (tlog_cases s (sb_bmapstart sb) m) as [[_ ->]|[_ ->]]; [|done]. cbn [rbind].
  unfold bzero. rewrite tread_ok by lia. cbn [rbind]. set (m2 := memset _ _ _ _).
  destruct (tlog_cases (tput s (sb_bmapstart sb) m) (0 + j) m2) as [[Hlt _]|[_ ->]]; [|done]. unfold logged in Hlt. cbn [tput tw] in Hlt. lia.
Qed.

(** [bfree] clears the bit of a block in use, and nothing else. *)
Lemma bfree_ok s b : logged s < log_cap -> 0 <= b < sb_size sb -> used s b = true ->
  exists s', bfree b s = Ok s' /\ bit_set s s' b false /\
    (forall y, y <> sb_bmapstart sb -> td s' y = td s y) /\ tw s' = {[sb_bmapstart sb]} ∪ tw s.
Proof.
  intros Hroom Hb Hu. pose proof size_lt_BPB. pose proof sb_sizes as [? ?]. unfold bfree.
  rewrite BBLOCK_small by lia. rewrite tread_ok by lia. cbn [rbind]. rewrite (Z.mod_small b BPB) by lia.
  rewrite land_bit by (apply Z.mod_pos_bound; lia). fold (bit (td s (sb_bmapstart sb)) b).
  rewrite <- used_bit, Hu by done. cbn [negb]. rewrite tlog_room by done. eexists. split; [reflexivity|]. split_and!; simpl.
  - split; [|intros x Hx Hne]; rewrite !used_bit by done; simpl; rewrite dset_eq, bit_mset_clear.
    + by rewrite Z.eqb_refl, andb_false_r.
    + by rewrite (proj2 (Z.eqb_neq _ _)), andb_true_r by done.
  - intros y Hy. by rewrite dset_ne.
  - done.
Qed.

(** Double free is caught. *)
Lemma bfree_double s b : 0 <= b < sb_size sb -> used s b = false ->
  bfree b s = Panic "freeing free block".
Proof.
  intros Hb Hu. pose proof size_lt_BPB. pose proof sb_sizes as [? ?]. unfold bfree.
  rewrite BBLOCK_small by lia. rewrite tread_ok by lia. cbn [rbind]. rewrite (Z.mod_small b BPB) by lia.
  rewrite land_bit by (apply Z.mod_pos_bound; lia). fold (bit (td s (sb_bmapstart sb)) b).
  by rewrite <- used_bit, Hu.
Qed.

Lemma first_free s n : 0 <= n ->
  (forall x, 0 <= x < n -> used s x = true) \/
  exists b0, 0 <= b0 < n /\ used s b0 = false /\ forall x, 0 <= x < b0 -> used s x = true.
Proof.
  intros Hn. pattern n. apply natlike_ind; [left; lia| |done].
  intros m Hm [IH|(b0 & ? & ? & ?)]; [|right; exists b0; split_and!; try done; lia].
  destruct (used s m) eqn:E; [left|right].
  - intros x Hx. destruct (decide (x = m)) as [->|]; [done|]. apply IH. lia.
  - exists m. split_and!; try done; lia.
Qed.

(** [balloc] on every state: the lowest free block, or a panic when there is none
    or the log has no room. *)
Lemma balloc_cases s : meta_used s ->
  (balloc s = Panic "balloc: out of blocks" /\ forall x, 0 <= x < sb_size sb -> used s x = true) \/
  (balloc s = Panic "too big a transaction" /\ log_cap <= Z.of_nat (size ({[sb_bmapstart sb]} ∪ tw s))) \/
  exists b0 s', balloc s = Ok (b0, s') /\ data_start <= b0 < sb_size sb /\ used s b0 = false /\
    (forall x, 0 <= x < b0 -> used s x = true) /\ bit_set s s' b0 true /\
    (forall y, y <> b0 -> y <> sb_bmapstart sb -> td s' y = td s y) /\
    (forall i, 0 <= i < BSIZE -> td s' b0 i = 0) /\
    tw s' = {[b0]} ∪ ({[sb_bmapstart sb]} ∪ tw s).
Proof.
  intros Hm. destruct (first_free s (sb_size sb)) as [Hall|(b0 & Hb & Hu & Hl)].
  - pose proof sb_sizes. lia.
  - left. split; [by apply balloc_full|done].
  - right. destruct (Z.lt_ge_cases (Z.of_nat (size ({[sb_bmapstart sb]} ∪ tw s))) log_cap) as [Hr|Hr]; [right | left; split; [by eapply balloc_big | done]].
    destruct (balloc_ok s b0 Hr Hm Hb Hu Hl) as (s' & E & Hd & Hbs & Hf & Hz & Hw).
    exists b0, s'. split_and!; try done; lia.
Qed.

End allocation.

(** The block allocator.  On a disk whose metadata is marked in use,
    [balloc] either panics and every block is in use, or panics because the
    log has no room for the bitmap block and another, or returns the lowest
    free block, which lies in the data area, zeroed; it sets exactly that
    block's bit, changes no block but the bitmap and the new one, and logs
    just those two. *)
Theorem balloc_spec (s : tdisk) : sb_ok -> meta_used s ->
  (balloc s = Panic "balloc: out of blocks" /\ forall x, 0 <= x < sb_size sb -> used s x = true) \/
  (balloc s = Panic "too big a transaction" /\ log_cap <= Z.of_nat (size ({[sb_bmapstart sb]} ∪ tw s))) \/
  exists b0 s', balloc s = Ok (b0, s') /\ data_start <= b0 < sb_size sb /\ used s b0 = false /\
    (forall x, 0 <= x < b0 -> used s x = true) /\ bit_set s s' b0 true /\
    (forall y, y <> b0 -> y <> sb_bmapstart sb -> td s' y = td s y) /\
    (forall i, 0 <= i < BSIZE -> td s' b0 i = 0) /\
    tw s' = {[b0]} ∪ ({[sb_bmapstart sb]} ∪ tw s).
Proof. intros Hsb. by apply balloc_cases. Qed.

(** [bfree] undoes [balloc]: after the allocation of a block, freeing it, if
    the log has room, succeeds and restores every bit of the bitmap, and freeing it a second time
    panics. *)
Theorem balloc_bfree (s s1 : tdisk) (b : Z) : sb_ok -> meta_used s -> balloc s = Ok (b, s1) -> logged s1 < log_cap ->
  exists s2, bfree b s1 = Ok s2 /\ (forall x, 0 <= x < sb_size sb -> used s2 x = used s x) /\
    bfree b s2 = Panic "freeing free block".
Proof.
  intros Hsb Hm E Hroom. destruct (balloc_cases Hsb s Hm) as [[E' _]|[[E' _]|(b0 & s' & E' & Hb & Hu & _ & [H1 H2] & _)]];
    [congruence..|]. rewrite E' in E. simplify_eq.
  assert (0 <= b < sb_size sb).
  { rewrite data_start_eq in Hb by done. pose proof (sb_sizes Hsb). lia. }
  destruct (bfree_ok Hsb s1 b) as (s2 & E2 & [B1 B2] & _); [done..|].
  exists s2. split_and!; [done| |by apply bfree_double].
  intros x Hx. destruct (decide (x = b)) as [->|]; [congruence|]. by rewrite B2, H2.
Qed.

End balloc.

(** Witnesses: the superblock mkfs computes for [FSSIZE] blocks, and a bitmap in
    which the metadata blocks are marked. *)
Definition mkfs_sb : superblock := mk_sb 1000 941 200 30 2 32 58.

Definition wit_bitmap : mem := fun i => if i <? 7 then 255 else if i =? 7 then 7 else 0.
Definition wit_td : tdisk := mk_td (dset (fun _ _ => 0) 58 wit_bitmap) ∅.

Lemma mkfs_sb_ok : sb_ok mkfs_sb.
Proof. split; vm_compute; congruence. Qed.

Lemma wit_meta : meta_used mkfs_sb wit_td.
Proof.
  intros b Hb. rewrite data_start_eq in Hb by apply mkfs_sb_ok. simpl in Hb.
  rewrite used_bit by (apply mkfs_sb_ok || (simpl; lia)). simpl. unfold bit, dset, wit_bitmap. simpl.
  assert (Hd : b / 8 < 7 \/ (b / 8 = 7 /\ b mod 8 < 3)) by zdiv.
  assert (0 <= b mod 8 < 8) by (apply Z.mod_pos_bound; lia).
  destruct Hd as [Hd|[Hd Hm]].
  - rewrite (proj2 (Z.ltb_lt _ _)) by done. change 255 with (Z.ones 8).
    apply Z.ones_spec_low. lia.
  - rewrite Hd. simpl. change 7 with (Z.ones 3). apply Z.ones_spec_low. lia.
Qed.

Lemma balloc_spec_witness :
  (balloc mkfs_sb wit_td = Panic "balloc: out of blocks" /\
     forall x, 0 <= x < sb_size mkfs_sb -> used mkfs_sb wit_td x = true) \/
  (balloc mkfs_sb wit_td = Panic "too big a transaction" /\ log_cap mkfs_sb <= Z.of_nat (size ({[sb_bmapstart mkfs_sb]} ∪ tw wit_td))) \/
  exists b0 s', balloc mkfs_sb wit_td = Ok (b0, s') /\ data_start mkfs_sb <= b0 < sb_size mkfs_sb /\
    used mkfs_sb wit_td b0 = false /\
    (forall x, 0 <= x < b0 -> used mkfs_sb wit_td x = true) /\ bit_set mkfs_sb wit_td s' b0 true /\
    (forall y, y <> b0 -> y <> sb_bmapstart mkfs_sb -> td s' y = td wit_td y) /\
    (forall i, 0 <= i < BSIZE -> td s' b0 i = 0) /\
    tw s' = {[b0]} ∪ ({[sb_bmapstart mkfs_sb]} ∪ tw wit_td).
Proof. apply (balloc_spec mkfs_sb wit_td); [apply mkfs_sb_ok | apply wit_meta]. Defined.

Lemma balloc_bfree_witness :
  exists s1, balloc mkfs_sb wit_td = Ok (59, s1) /\
  exists s2, bfree mkfs_sb 59 s1 = Ok s2 /\
    (forall x, 0 <= x < sb_size mkfs_sb -> used mkfs_sb s2 x = used mkfs_sb wit_td x) /\
    bfree mkfs_sb 59 s2 = Panic "freeing free block".
Proof.
  eexists. split; [vm_compute; reflexivity|].
  eapply (balloc_bfree mkfs_sb wit_td); [apply mkfs_sb_ok | apply wit_meta | vm_compute; reflexivity | vm_compute; reflexivity].
Defined.
