(* ===== verification/Fs.v ===== *)
(** * File system: inodes, file contents, directories, paths (src/fs.c, src/file.h,
    src/stat.h)

    The definitions of fs.c above the block allocator.  [fs] is the transaction's
    disk and the inode cache; an [inode*] is an index into the cache.  The calls
    are those of one process: waiting for a sleep lock the caller holds is
    [Blocked].  A [char*] that walks over a NUL-terminated path is the list of
    the bytes that are left; buffers are byte memories.  The device switch is a
    parameter: the console driver is not part of fs.c. *)

From S2P Require Import Prelude Layout StringLib Blocks Balloc.

Definition T_DIR : Z := 1.
Definition T_FILE : Z := 2.
Definition T_DEV : Z := 3.

Record inode := mk_inode {
  i_dev : Z;
  i_inum : Z;
  i_ref : Z;
  i_locked : bool;
  i_valid : bool;
  i_type : Z;
  i_major : Z;
  i_minor : Z;
  i_nlink : Z;
  i_size : Z;
  i_addrs : list Z          (* uint addrs[NDIRECT+1] *)
}.

Record fs := mk_fs {
  fs_t : tdisk;
  fs_ic : list inode        (* icache.inode[NINODE] *)
}.

Record stat := mk_stat { st_type : Z; st_dev : Z; st_ino : Z; st_nlink : Z; st_size : Z }.

Definition no_inode : inode := mk_inode 0 0 0 false false 0 0 0 0 0 (repeat 0 13).

Definition inode_at (st : fs) (ip : nat) : inode := nth ip (fs_ic st) no_inode.
Definition set_inode (st : fs) (ip : nat) (x : inode) : fs := mk_fs (fs_t st) (<[ip := x]> (fs_ic st)).

Definition set_ref (x : inode) (r : Z) : inode :=
  mk_inode (i_dev x) (i_inum x) r (i_locked x) (i_valid x) (i_type x) (i_major x) (i_minor x)
    (i_nlink x) (i_size x) (i_addrs x).
Definition set_ilock (x : inode) (l : bool) : inode :=
  mk_inode (i_dev x) (i_inum x) (i_ref x) l (i_valid x) (i_type x) (i_major x) (i_minor x)
    (i_nlink x) (i_size x) (i_addrs x).
Definition set_valid (x : inode) (v : bool) : inode :=
  mk_inode (i_dev x) (i_inum x) (i_ref x) (i_locked x) v (i_type x) (i_major x) (i_minor x)
    (i_nlink x) (i_size x) (i_addrs x).
Definition set_type (x : inode) (t : Z) : inode :=
  mk_inode (i_dev x) (i_inum x) (i_ref x) (i_locked x) (i_valid x) t (i_major x) (i_minor x)
    (i_nlink x) (i_size x) (i_addrs x).
Definition set_size (x : inode) (s : Z) : inode :=
  mk_inode (i_dev x) (i_inum x) (i_ref x) (i_locked x) (i_valid x) (i_type x) (i_major x) (i_minor x)
    (i_nlink x) s (i_addrs x).
Definition set_addrs (x : inode) (a : list Z) : inode :=
  mk_inode (i_dev x) (i_inum x) (i_ref x) (i_locked x) (i_valid x) (i_type x) (i_major x) (i_minor x)
    (i_nlink x) (i_size x) a.
Definition set_nlink (x : inode) (n : Z) : inode :=
  mk_inode (i_dev x) (i_inum x) (i_ref x) (i_locked x) (i_valid x) (i_type x) (i_major x) (i_minor x)
    n (i_size x) (i_addrs x).

Definition addr (x : inode) (i : Z) : Z := nth (Z.to_nat i) (i_addrs x) 0.
Definition set_addr (x : inode) (i a : Z) : inode := set_addrs x (<[Z.to_nat i := a]> (i_addrs x)).

(** ** The inode on disk *)

(** [memmove(dip->addrs, ip->addrs, sizeof(ip->addrs))] and back. *)
Fixpoint put_addrs (m : mem) (o : Z) (l : list Z) : mem :=
  match l with
  | [] => m
  | a :: l' => put_addrs (st32 m o a) (o + 4) l'
  end.

Definition get_addrs (m : mem) (o : Z) : list Z :=
  map (fun i => ld32 m (o + 4 * Z.of_nat i)) (seq 0 (Z.to_nat (NDIRECT + 1))).

(** [dip = (struct dinode* )bp->data + inum % IPB] as a byte offset. *)
Definition dip_off (inum : Z) : Z := (inum mod IPB) * DINODE_SIZE.

Definition dinode_put (m : mem) (o : Z) (x : inode) : mem :=
  let m := st16 m o (i_type x) in
  let m := st16 m (o + 2) (i_major x) in
  let m := st16 m (o + 4) (i_minor x) in
  let m := st16 m (o + 6) (i_nlink x) in
  let m := st32 m (o + 8) (i_size x) in
  put_addrs m (o + 12) (i_addrs x).

Definition dinode_get (m : mem) (o : Z) (x : inode) : inode :=
  mk_inode (i_dev x) (i_inum x) (i_ref x) (i_locked x) (i_valid x)
    (s16 (ld16 m o)) (s16 (ld16 m (o + 2))) (s16 (ld16 m (o + 4))) (s16 (ld16 m (o + 6)))
    (ld32 m (o + 8)) (get_addrs m (o + 12)).

Section fs.
Context (sb : superblock).

(** ** Inode cache *)

(** The loop of [iget]: the entry for the inode, or the first unused entry. *)
Fixpoint iget_scan (l : list inode) (i : nat) (dev inum : Z) (empty : option nat) : option nat * option nat :=
  match l with
  | [] => (None, empty)
  | x :: l' =>
      if (0 <? i_ref x) && (i_dev x =? dev) && (i_inum x =? inum) then (Some i, empty)
      else
        let empty := match empty with
                     | None => if i_ref x =? 0 then Some i else None
                     | Some e => Some e
                     end in
        iget_scan l' (S i) dev inum empty
  end.

Definition iget (dev inum : Z) (st : fs) : res (nat * fs) :=
  match iget_scan (fs_ic st) 0 dev inum None with
  | (Some ip, _) => Ok (ip, set_inode st ip (set_ref (inode_at st ip) (i_ref (inode_at st ip) + 1)))
  | (None, None) => Panic "iget: no inodes"
  | (None, Some ip) =>
      let x := inode_at st ip in
      Ok (ip, set_inode st ip (mk_inode dev inum 1 (i_locked x) false (i_type x) (i_major x)
                                 (i_minor x) (i_nlink x) (i_size x) (i_addrs x)))
  end.

Definition idup (ip : nat) (st : fs) : fs :=
  set_inode st ip (set_ref (inode_at st ip) (i_ref (inode_at st ip) + 1)).

Fixpoint ialloc_loop (k : nat) (inum dev type : Z) (st : fs) : res (nat * fs) :=
  match k with
  | O => Panic "ialloc: no inodes"
  | S k' =>
      if inum <? sb_ninodes sb then
        let* bp := tread (fs_t st) (IBLOCK inum sb) in
        let o := dip_off inum in
        if ld16 bp o =? 0 then          (* a free inode *)
          let bp := st16 (memset bp o 0 DINODE_SIZE) o type in
          let* t := tlog sb (fs_t st) (IBLOCK inum sb) bp in
          iget dev inum (mk_fs t (fs_ic st))
        else ialloc_loop k' (inum + 1) dev type st
      else Panic "ialloc: no inodes"
  end.

Definition ialloc (dev type : Z) (st : fs) : res (nat * fs) :=
  ialloc_loop (Z.to_nat (sb_ninodes sb)) 1 dev type st.

Definition iupdate (ip : nat) (st : fs) : res fs :=
  let x := inode_at st ip in
  let* bp := tread (fs_t st) (IBLOCK (i_inum x) sb) in
  let* t := tlog sb (fs_t st) (IBLOCK (i_inum x) sb) (dinode_put bp (dip_off (i_inum x)) x) in
  Ok (mk_fs t (fs_ic st)).

Definition ilock (ip : nat) (st : fs) : res fs :=
  let x := inode_at st ip in
  if i_ref x <? 1 then Panic "ilock"
  else if i_locked x then Blocked                       (* acquiresleep *)
  else
    let x := set_ilock x true in
    if i_valid x then Ok (set_inode st ip x)
    else
      let* bp := tread (fs_t st) (IBLOCK (i_inum x) sb) in
      let x := set_valid (dinode_get bp (dip_off (i_inum x)) x) true in
      if i_type x =? 0 then Panic "ilock: no type" else Ok (set_inode st ip x).

Definition iunlock (ip : nat) (st : fs) : res fs :=
  let x := inode_at st ip in
  if negb (i_locked x) || (i_ref x <? 1) then Panic "iunlock"
  else Ok (set_inode st ip (set_ilock x false)).

(** ** Block map *)

Definition balloc_fs (st : fs) : res (Z * fs) :=
  let* (b, t) := balloc sb (fs_t st) in Ok (b, mk_fs t (fs_ic st)).

Definition bfree_fs (b : Z) (st : fs) : res fs :=
  let* t := bfree sb b (fs_t st) in Ok (mk_fs t (fs_ic st)).

Definition bmap (ip : nat) (bn : Z) (st : fs) : res (Z * fs) :=
  if bn <? NDIRECT then
    if addr (inode_at st ip) bn =? 0 then
      let* (a, st) := balloc_fs st in
      Ok (a, set_inode st ip (set_addr (inode_at st ip) bn a))
    else Ok (addr (inode_at st ip) bn, st)
  else
    let bn := bn - NDIRECT in
    if bn <? NINDIRECT then
      (* Load indirect block, allocating if necessary. *)
      let* (a, st) :=
        if addr (inode_at st ip) NDIRECT =? 0 then
          let* (a, st) := balloc_fs st in
          Ok (a, set_inode st ip (set_addr (inode_at st ip) NDIRECT a))
        else Ok (addr (inode_at st ip) NDIRECT, st) in
      let* bp := tread (fs_t st) a in
      if ld32 bp (4 * bn) =? 0 then
        let* (a2, st) := balloc_fs st in
        let* bp := tread (fs_t st) a in                 (* bp->data, shared *)
        let* t := tlog sb (fs_t st) a (st32 bp (4 * bn) a2) in
        Ok (a2, mk_fs t (fs_ic st))
      else Ok (ld32 bp (4 * bn), st)
    else Panic "bmap: out of range".

(** [for(i = 0; i < NDIRECT; i++) if(ip->addrs[i]) ...] *)
Fixpoint itrunc_direct (k : nat) (i : Z) (ip : nat) (st : fs) : res fs :=
  match k with
  | O => Ok st
  | S k' =>
      let* st :=
        if addr (inode_at st ip) i =? 0 then Ok st
        else
          let* st := bfree_fs (addr (inode_at st ip) i) st in
          Ok (set_inode st ip (set_addr (inode_at st ip) i 0)) in
      itrunc_direct k' (i + 1) ip st
  end.

(** [for(j = 0; j < NINDIRECT; j++) if(a[j]) bfree(ip->dev, a[j]);] *)
Fixpoint itrunc_indirect (k : nat) (j : Z) (ind : Z) (st : fs) : res fs :=
  match k with
  | O => Ok st
  | S k' =>
      let* bp := tread (fs_t st) ind in
      let* st := if ld32 bp (4 * j) =? 0 then Ok st else bfree_fs (ld32 bp (4 * j)) st in
      itrunc_indirect k' (j + 1) ind st
  end.

Definition itrunc (ip : nat) (st : fs) : res fs :=
  let* st := itrunc_direct (Z.to_nat NDIRECT) 0 ip st in
  let* st :=
    if addr (inode_at st ip) NDIRECT =? 0 then Ok st
    else
      let* st := itrunc_indirect (Z.to_nat NINDIRECT) 0 (addr (inode_at st ip) NDIRECT) st in
      let* st := bfree_fs (addr (inode_at st ip) NDIRECT) st in
      Ok (set_inode st ip (set_addr (inode_at st ip) NDIRECT 0)) in
  let st := set_inode st ip (set_size (inode_at st ip) 0) in
  iupdate ip st.

Definition iput (ip : nat) (st : fs) : res fs :=
  if i_locked (inode_at st ip) then Blocked              (* acquiresleep *)
  else
    let st := set_inode st ip (set_ilock (inode_at st ip) true) in
    let* st :=
      if i_valid (inode_at st ip) && (i_nlink (inode_at st ip) =? 0) && (i_ref (inode_at st ip) =? 1) then
        (* inode has no links and no other references: truncate and free. *)
        let* st := itrunc ip st in
        let st := set_inode st ip (set_type (inode_at st ip) 0) in
        let* st := iupdate ip st in
        Ok (set_inode st ip (set_valid (inode_at st ip) false))
      else Ok st in
    let st := set_inode st ip (set_ilock (inode_at st ip) false) in
    Ok (set_inode st ip (set_ref (inode_at st ip) (i_ref (inode_at st ip) - 1))).

Definition iunlockput (ip : nat) (st : fs) : res fs :=
  let* st := iunlock ip st in
  iput ip st.

Definition stati (ip : nat) (st : fs) : stat :=
  let x := inode_at st ip in
  mk_stat (i_type x) (s32 (i_dev x)) (i_inum x) (i_nlink x) (i_size x).

(** ** File contents *)

(** devsw[]: the driver functions of a major device number. *)
Context (dev_read : Z -> option (nat -> mem -> Z -> Z -> fs -> res (Z * mem * fs))).
Context (dev_write : Z -> option (nat -> mem -> Z -> Z -> fs -> res (Z * fs))).

(** Number of passes of the copy loops: the blocks that [n] bytes from [off] meet. *)
Definition passes (off n : Z) : nat := S (Z.to_nat ((off mod BSIZE + n) / BSIZE)).

Fixpoint readi_loop (fuel ip : nat) (dst : mem) (d off tot n : Z) (st : fs) : res (mem * fs) :=
  if tot <? n then
    match fuel with
    | O => Panic "readi: pass bound"
    | S fuel' =>
        let* (b, st) := bmap ip (off / BSIZE) st in
        let* bp := tread (fs_t st) b in
        let m := Z.min (n - tot) (BSIZE - off mod BSIZE) in
        let dst := mcopy dst d bp (off mod BSIZE) m in
        readi_loop fuel' ip dst (d + m) (off + m) (tot + m) n st
    end
  else Ok (dst, st).

(** [dst] is the memory [dst] points into, [d] the address. *)
Definition readi (ip : nat) (dst : mem) (d off n : Z) (st : fs) : res (Z * mem * fs) :=
  let x := inode_at st ip in
  if i_type x =? T_DEV then
    match (if (i_major x <? 0) || (NDEV <=? i_major x) then None else dev_read (i_major x)) with
    | None => Ok (-1, dst, st)
    | Some f => f ip dst d n st
    end
  else if (i_size x <? off) || (u32 (off + n) <? off) then Ok (-1, dst, st)
  else
    let n := if i_size x <? u32 (off + n) then i_size x - off else n in
    let* (dst, st) := readi_loop (passes off n) ip dst d off 0 n st in
    Ok (s32 n, dst, st).

Fixpoint writei_loop (fuel ip : nat) (src : mem) (s off tot n : Z) (st : fs) : res (Z * fs) :=
  if tot <? n then
    match fuel with
    | O => Panic "writei: pass bound"
    | S fuel' =>
        let* (b, st) := bmap ip (off / BSIZE) st in
        let* bp := tread (fs_t st) b in
        let m := Z.min (n - tot) (BSIZE - off mod BSIZE) in
        let* t := tlog sb (fs_t st) b (mcopy bp (off mod BSIZE) src s m) in
        writei_loop fuel' ip src (s + m) (off + m) (tot + m) n (mk_fs t (fs_ic st))
    end
  else Ok (off, st).

Definition writei (ip : nat) (src : mem) (s off n : Z) (st : fs) : res (Z * fs) :=
  let x := inode_at st ip in
  if i_type x =? T_DEV then
    match (if (i_major x <? 0) || (NDEV <=? i_major x) then None else dev_write (i_major x)) with
    | None => Ok (-1, st)
    | Some f => f ip src s n st
    end
  else if (i_size x <? off) || (u32 (off + n) <? off) then Ok (-1, st)
  else if MAXFILE * BSIZE <? u32 (off + n) then Ok (-1, st)
  else
    let* (off, st) := writei_loop (passes off n) ip src s off 0 n st in
    let* st :=
      if (0 <? n) && (i_size (inode_at st ip) <? off) then
        iupdate ip (set_inode st ip (set_size (inode_at st ip) off))
      else Ok st in
    Ok (s32 n, st).

(** ** Directories *)

(** A stack frame with [struct dirent de] at 0 and a [DIRSIZ] byte name at 16. *)
Definition frame (de name : mem) : mem := mcopy de DIRENT_SIZE name 0 DIRSIZ.

Definition namecmp (m : mem) (s t : Z) : Z := strncmp m s t DIRSIZ.

Fixpoint dirlookup_loop (fuel dp : nat) (name : mem) (off : Z) (st : fs) : res (option (nat * Z) * fs) :=
  if off <? i_size (inode_at st dp) then
    match fuel with
    | O => Panic "dirlookup: pass bound"
    | S fuel' =>
        let* (r, de, st) := readi dp (fun _ => 0) 0 off DIRENT_SIZE st in
        if negb (r =? DIRENT_SIZE) then Panic "dirlookup read"
        else if ld16 de 0 =? 0 then dirlookup_loop fuel' dp name (off + DIRENT_SIZE) st
        else if namecmp (frame de name) DIRENT_SIZE 2 =? 0 then
          (* entry matches path element *)
          let* (ip, st) := iget (i_dev (inode_at st dp)) (ld16 de 0) st in
          Ok (Some (ip, off), st)
        else dirlookup_loop fuel' dp name (off + DIRENT_SIZE) st
    end
  else Ok (None, st).

(** The entry's inode and its byte offset ([*poff]). *)
Definition dirlookup (dp : nat) (name : mem) (st : fs) : res (option (nat * Z) * fs) :=
  if negb (i_type (inode_at st dp) =? T_DIR) then Panic "dirlookup not DIR"
  else dirlookup_loop (S (Z.to_nat (i_size (inode_at st dp) / DIRENT_SIZE))) dp name 0 st.

(** Look for an empty dirent; its offset and the last entry read. *)
Fixpoint dirlink_loop (fuel dp : nat) (de : mem) (off : Z) (st : fs) : res (Z * mem * fs) :=
  if off <? i_size (inode_at st dp) then
    match fuel with
    | O => Panic "dirlink: pass bound"
    | S fuel' =>
        let* (r, de, st) := readi dp de 0 off DIRENT_SIZE st in
        if negb (r =? DIRENT_SIZE) then Panic "dirlink read"
        else if ld16 de 0 =? 0 then Ok (off, de, st)
        else dirlink_loop fuel' dp de (off + DIRENT_SIZE) st
    end
  else Ok (off, de, st).

Definition dirlink (dp : nat) (name : mem) (inum : Z) (st : fs) : res (Z * fs) :=
  (* Check that name is not present. *)
  let* (o, st) := dirlookup dp name st in
  match o with
  | Some (ip, _) => let* st := iput ip st in Ok (-1, st)
  | None =>
      let* (off, de, st) :=
        dirlink_loop (S (Z.to_nat (i_size (inode_at st dp) / DIRENT_SIZE))) dp (fun _ => 0) 0 st in
      let de := strncpy (frame de name) 2 DIRENT_SIZE DIRSIZ in
      let de := st16 de 0 inum in
      let* (r, st) := writei dp de 0 off DIRENT_SIZE st in
      if negb (r =? DIRENT_SIZE) then Panic "dirlink" else Ok (0, st)
  end.

(** ** Paths *)

Definition SLASH : Z := 47.

Fixpoint skip_slashes (p : list Z) : list Z :=
  match p with
  | c :: p' => if c =? SLASH then skip_slashes p' else p
  | [] => []
  end.

(** The element [s .. path) and the rest of the path. *)
Fixpoint take_elem (p : list Z) : list Z * list Z :=
  match p with
  | c :: p' => if c =? SLASH then ([], p) else let (e, r) := take_elem p' in (c :: e, r)
  | [] => ([], [])
  end.

Definition skipelem (path : list Z) (name : mem) : option (list Z * mem) :=
  let path := skip_slashes path in
  match path with
  | [] => None
  | _ =>
      let (s, path) := take_elem path in
      let len := Z.of_nat (length s) in
      let name := if DIRSIZ <=? len then mwrite name 0 (take (Z.to_nat DIRSIZ) s)
                  else mset (mwrite name 0 s) len 0 in
      Some (skip_slashes path, name)
  end.

Fixpoint namex_loop (fuel : nat) (ip : nat) (path : list Z) (nameiparent : bool) (name : mem) (st : fs)
  : res (option nat * mem * fs) :=
  match skipelem path name with
  | None =>
      if nameiparent then let* st := iput ip st in Ok (None, name, st)
      else Ok (Some ip, name, st)
  | Some (path, name) =>
      match fuel with
      | O => Panic "namex: pass bound"
      | S fuel' =>
          let* st := ilock ip st in
          if negb (i_type (inode_at st ip) =? T_DIR) then
            let* st := iunlockput ip st in Ok (None, name, st)
          else if nameiparent && (match path with [] => true | _ => false end) then
            (* Stop one level early. *)
            let* st := iunlock ip st in Ok (Some ip, name, st)
          else
            let* (o, st) := dirlookup ip name st in
            match o with
            | None => let* st := iunlockput ip st in Ok (None, name, st)
            | Some (next, _) =>
                let* st := iunlockput ip st in
                namex_loop fuel' next path nameiparent name st
            end
      end
  end.

Definition namex (cwd : nat) (path : list Z) (nameiparent : bool) (name : mem) (st : fs)
  : res (option nat * mem * fs) :=
  let* (ip, st) :=
    match path with
    | c :: _ => if c =? SLASH then iget ROOTDEV ROOTINO st else Ok (cwd, idup cwd st)
    | [] => Ok (cwd, idup cwd st)
    end in
  namex_loop (length path) ip path nameiparent name st.

Definition namei (cwd : nat) (path : list Z) (st : fs) : res (option nat * fs) :=
  let* (o, _, st) := namex cwd path false (fun _ => 0) st in Ok (o, st).

Definition nameiparent (cwd : nat) (path : list Z) (name : mem) (st : fs) : res (option nat * mem * fs) :=
  namex cwd path true name st.

End fs.
