(* ===== verification/FsFile.v ===== *)
(** * Files as byte sequences (src/fs.c: bmap, readi, writei)

    A locked inode and the disk represent a file: [fblock] is the block that
    holds a file block, [content] the byte at an offset.  [bmap] only adds
    zeroed blocks that nothing else uses; [readi] returns and [writei] replaces
    exactly the bytes of the requested range; everything a file does not own is
    left alone. *)

From S2P Require Import Prelude Layout StringLib Blocks Balloc Fs.

Section file.
Context (sb : superblock) (Hsb : sb_ok sb).

Definition ind (st : fs) (ip : nat) : Z := addr (inode_at st ip) NDIRECT.

(** The disk block of file block [bn]; 0 when there is none. *)
Definition fblock (st : fs) (ip : nat) (bn : Z) : Z :=
  if bn <? NDIRECT then addr (inode_at st ip) bn
  else if ind st ip =? 0 then 0
  else ld32 (td (fs_t st) (ind st ip)) (4 * (bn - NDIRECT)).

Definition content (st : fs) (ip : nat) (off : Z) : Z :=
  if fblock st ip (off / BSIZE) =? 0 then 0
  else td (fs_t st) (fblock st ip (off / BSIZE)) (off mod BSIZE).

(** The blocks the file occupies: its data blocks and its indirect block. *)
Definition owns (st : fs) (ip : nat) (b : Z) : Prop :=
  b <> 0 /\ (b = ind st ip \/ exists bn, 0 <= bn < MAXFILE /\ fblock st ip bn = b).

Record file_ok (st : fs) (ip : nat) : Prop := {
  fo_ip : (ip < length (fs_ic st))%nat;
  fo_len : length (i_addrs (inode_at st ip)) = 13%nat;
  fo_meta : meta_used sb (fs_t st);
  fo_range b : owns st ip b -> data_start sb <= b < sb_size sb;
  fo_used b : owns st ip b -> used sb (fs_t st) b = true;
  fo_inj bn bn' : 0 <= bn < MAXFILE -> 0 <= bn' < MAXFILE ->
    fblock st ip bn = fblock st ip bn' -> fblock st ip bn <> 0 -> bn = bn';
  fo_ind bn : 0 <= bn < MAXFILE -> fblock st ip bn <> 0 -> fblock st ip bn <> ind st ip
}.

(** What an operation on [ip] leaves to the rest of the system: blocks in use
    that the file does not own keep their content, stay in use and stay not
    owned; the other cached inodes do not change. *)
Record frame_ok (st st' : fs) (ip : nat) : Prop := {
  fr_td b : 0 <= b < sb_size sb -> b <> sb_bmapstart sb -> used sb (fs_t st) b = true -> ~ owns st ip b ->
    td (fs_t st') b = td (fs_t st) b /\ used sb (fs_t st') b = true /\ ~ owns st' ip b;
  fr_other j : j <> ip -> inode_at st' j = inode_at st j;
  fr_len : length (fs_ic st') = length (fs_ic st)
}.

Lemma frame_refl st ip : frame_ok st st ip.
Proof. by split. Qed.

Lemma frame_trans st1 st2 st3 ip : frame_ok st1 st2 ip -> frame_ok st2 st3 ip -> frame_ok st1 st3 ip.
Proof.
  intros [A1 A2 A3] [B1 B2 B3]. split; try congruence.
  - intros b Hb Hm Hu Ho. destruct (A1 b Hb Hm Hu Ho) as (E1 & U1 & O1).
    destruct (B1 b Hb Hm U1 O1) as (E2 & U2 & O2). by rewrite E2, E1.
  - intros j Hj. by rewrite B2, A2.
Qed.

(** The inode's metadata, which [bmap] does not touch. *)
Definition meta_of (x : inode) : inode := set_addrs x [].

Lemma inode_at_set st ip x : (ip < length (fs_ic st))%nat -> inode_at (set_inode st ip x) ip = x.
Proof.
  intros H. unfold inode_at, set_inode. simpl. apply nth_lookup_Some. by apply list_lookup_insert_eq.
Qed.

Lemma inode_at_set_ne st ip x j : j <> ip -> inode_at (set_inode st ip x) j = inode_at st j.
Proof.
  intros H. unfold inode_at, set_inode. simpl. rewrite !nth_lookup. by rewrite list_lookup_insert_ne.
Qed.

Lemma addr_set x i a j : 0 <= i < 13 -> 0 <= j -> length (i_addrs x) = 13%nat ->
  addr (set_addr x i a) j = if j =? i then a else addr x j.
Proof.
  intros Hi Hj Hl. unfold addr, set_addr, set_addrs. simpl. rewrite !nth_lookup.
  destruct (Z.eqb_spec j i) as [->|Hne].
  - rewrite list_lookup_insert_eq by lia. done.
  - rewrite list_lookup_insert_ne by lia. done.
Qed.

Lemma length_set_addr x i a : length (i_addrs (set_addr x i a)) = length (i_addrs x).
Proof. simpl. apply length_insert. Qed.

Lemma owned_facts st ip b : file_ok st ip -> owns st ip b ->
  0 <= b < sb_size sb /\ b <> sb_bmapstart sb /\ used sb (fs_t st) b = true.
Proof.
  intros Hf Ho. pose proof (fo_range _ _ Hf b Ho) as Hr. rewrite data_start_eq in Hr by done.
  pose proof (sb_sizes sb Hsb) as [? ?]. split_and!; [lia..|lia|]. by eapply fo_used.
Qed.

Lemma owns_ind st ip : ind st ip <> 0 -> owns st ip (ind st ip).
Proof. intros H. split; [done|by left]. Qed.

Lemma owns_fblock st ip bn : 0 <= bn < MAXFILE -> fblock st ip bn <> 0 -> owns st ip (fblock st ip bn).
Proof. intros Hb H. split; [done|right]. by exists bn. Qed.

(** ** Adding a block to a file *)

(** The state after [balloc] returned [b0], seen from a file. *)
Record fresh (st st' : fs) (b0 : Z) : Prop := {
  fh_range : data_start sb <= b0 < sb_size sb;
  fh_free : used sb (fs_t st) b0 = false;
  fh_used : used sb (fs_t st') b0 = true;
  fh_bits x : 0 <= x < sb_size sb -> x <> b0 -> used sb (fs_t st') x = used sb (fs_t st) x;
  fh_zero i : 0 <= i < BSIZE -> td (fs_t st') b0 i = 0
}.

(** ** Log space *)

(** The blocks of the log taken when the file's next block is written: those
    logged, the bitmap, and the indirect block, present or not. *)
Definition meta_blocks (st : fs) (ip : nat) : gset Z :=
  {[sb_bmapstart sb]} ∪ if ind st ip =? 0 then ∅ else {[ind st ip]}.
Definition cost (st : fs) (ip : nat) : Z :=
  Z.of_nat (size (meta_blocks st ip ∪ tw (fs_t st))) + if ind st ip =? 0 then 1 else 0.

Lemma logged_cost st ip : logged (fs_t st) <= cost st ip <= logged (fs_t st) + 2.
Proof.
  unfold logged, cost, meta_blocks. pose proof (subseteq_size (tw (fs_t st)) ({[sb_bmapstart sb]} ∪ (if ind st ip =? 0 then ∅ else {[ind st ip]}) ∪ tw (fs_t st)) ltac:(set_solver)) as H1.
  pose proof (size_union_le ({[sb_bmapstart sb]} ∪ if ind st ip =? 0 then ∅ else {[ind st ip]}) (tw (fs_t st))) as H2.
  pose proof (size_union_le {[sb_bmapstart sb]} (if ind st ip =? 0 then ∅ else {[ind st ip]})) as H3. rewrite size_singleton in H3.
  destruct (ind st ip =? 0); [rewrite size_empty in H3 | rewrite size_singleton in H3]; lia.
Qed.

(** The bitmap is part of the cost. *)
Lemma bitmap_cost st ip : Z.of_nat (size ({[sb_bmapstart sb]} ∪ tw (fs_t st))) + (if ind st ip =? 0 then 1 else 0) <= cost st ip.
Proof.
  unfold cost, meta_blocks. pose proof (subseteq_size ({[sb_bmapstart sb]} ∪ tw (fs_t st)) ({[sb_bmapstart sb]} ∪ (if ind st ip =? 0 then ∅ else {[ind st ip]}) ∪ tw (fs_t st)) ltac:(set_solver)). lia.
Qed.

Lemma balloc_step st : meta_used sb (fs_t st) ->
  (balloc_fs sb st = Panic "balloc: out of blocks" /\
   forall x, 0 <= x < sb_size sb -> used sb (fs_t st) x = true) \/
  (balloc_fs sb st = Panic "too big a transaction" /\ log_cap sb <= Z.of_nat (size ({[sb_bmapstart sb]} ∪ tw (fs_t st)))) \/
  exists b0 st', balloc_fs sb st = Ok (b0, st') /\ fs_ic st' = fs_ic st /\ fresh st st' b0 /\
    (forall y, y <> b0 -> y <> sb_bmapstart sb -> td (fs_t st') y = td (fs_t st) y) /\
    tw (fs_t st') = {[b0]} ∪ ({[sb_bmapstart sb]} ∪ tw (fs_t st)).
Proof.
  intros Hm. unfold balloc_fs.
  destruct (balloc_cases sb Hsb (fs_t st) Hm) as [[E Hu]|[[E Hu]|(b0 & t & E & Hr & Hf & _ & [H1 H2] & Ht & Hz & Hw)]].
  - left. by rewrite E.
  - right. left. by rewrite E.
  - right. right. exists b0, (mk_fs t (fs_ic st)). rewrite E. by split_and!.
Qed.

Lemma fresh_not_owned st st' ip b0 : file_ok st ip -> fresh st st' b0 -> ~ owns st ip b0.
Proof. intros Hf Hr Ho. pose proof (fo_used _ _ Hf b0 Ho). pose proof (fh_free _ _ _ Hr). congruence. Qed.

(** The fresh block [b0] became the indirect block or one file block. *)
Record grows (st st' : fs) (ip : nat) (b0 : Z) : Prop := {
  gr_fresh : fresh st st' b0;
  gr_len : length (i_addrs (inode_at st' ip)) = 13%nat;
  gr_ic : length (fs_ic st') = length (fs_ic st);
  gr_other j : j <> ip -> inode_at st' j = inode_at st j;
  gr_owns : owns st' ip b0;
  gr_ind : ind st' ip = ind st ip \/ (ind st ip = 0 /\ ind st' ip = b0);
  gr_block bn : 0 <= bn < MAXFILE ->
    fblock st' ip bn = fblock st ip bn \/ (fblock st ip bn = 0 /\ fblock st' ip bn = b0);
  gr_once bn bn' : 0 <= bn < MAXFILE -> 0 <= bn' < MAXFILE ->
    fblock st' ip bn = b0 -> fblock st' ip bn' = b0 -> bn = bn';
  gr_apart bn : 0 <= bn < MAXFILE -> fblock st' ip bn = b0 -> ind st' ip <> b0;
  gr_td y : y <> b0 -> y <> sb_bmapstart sb -> (y <> 0 -> y <> ind st ip) -> td (fs_t st') y = td (fs_t st) y
}.

Section grow.
Context (st st' : fs) (ip : nat) (b0 : Z).
Context (Hf : file_ok st ip) (Hg : grows st st' ip b0).

Lemma grow_pos : 0 < b0 /\ 0 <= b0 < sb_size sb.
Proof.
  pose proof (fh_range _ _ _ (gr_fresh _ _ _ _ Hg)) as H. rewrite data_start_eq in H by done.
  pose proof (sb_sizes sb Hsb). lia.
Qed.

Lemma grow_owns b : owns st' ip b <-> b = b0 \/ owns st ip b.
Proof.
  pose proof grow_pos. split.
  - intros [Hb [Hi|(bn & Hr & E)]].
    + destruct (gr_ind _ _ _ _ Hg) as [E|[_ E]]; [right; split; [done|left]; congruence|left; congruence].
    + destruct (gr_block _ _ _ _ Hg bn Hr) as [E'|[_ E']]; [right|left; congruence].
      split; [done|right]. exists bn. split; [done|congruence].
  - intros [->|[Hb [Hi|(bn & Hr & E)]]]; [apply Hg| |].
    + split; [done|left]. destruct (gr_ind _ _ _ _ Hg) as [E|[E _]]; congruence.
    + split; [done|right]. exists bn. split; [done|].
      destruct (gr_block _ _ _ _ Hg bn Hr) as [E'|[E' _]]; congruence.
Qed.

Lemma grow_file_ok : file_ok st' ip.
Proof.
  pose proof grow_pos as Hp. destruct (gr_fresh _ _ _ _ Hg) as [F1 F2 F3 F4 F5].
  pose proof (sb_sizes sb Hsb) as [? ?]. pose proof (data_start_eq sb Hsb) as Hds.
  assert (Hno : ~ owns st ip b0) by (eapply fresh_not_owned; [done|apply Hg]). split.
  - rewrite (gr_ic _ _ _ _ Hg). apply Hf.
  - apply Hg.
  - intros b Hb. rewrite F4 by lia. by apply (fo_meta _ _ Hf).
  - intros b [->|Ho]%grow_owns; [done|]. by eapply fo_range.
  - intros b [->|Ho]%grow_owns; [done|]. destruct (owned_facts _ _ _ Hf Ho) as (? & ? & ?).
    destruct (decide (b = b0)) as [->|]; [done|]. by rewrite F4.
  - intros x y Hx Hy E Hnz. destruct (decide (fblock st' ip x = b0)) as [Eb|Nb].
    { eapply gr_once; [done..|congruence]. }
    destruct (gr_block _ _ _ _ Hg x Hx) as [Ex|[_ Ex]]; [|done].
    destruct (gr_block _ _ _ _ Hg y Hy) as [Ey|[_ Ey]]; [|congruence].
    apply (fo_inj _ _ Hf); congruence.
  - intros x Hx Hnz E. destruct (decide (fblock st' ip x = b0)) as [Eb|Nb].
    { eapply (gr_apart _ _ _ _ Hg x); [done..|congruence]. }
    destruct (gr_block _ _ _ _ Hg x Hx) as [Ex|[_ Ex]]; [|done].
    destruct (gr_ind _ _ _ _ Hg) as [Ei|[_ Ei]]; [|congruence].
    apply (fo_ind _ _ Hf x Hx); congruence.
Qed.

Lemma off_block off : 0 <= off < MAXFILE * BSIZE -> 0 <= off / BSIZE < MAXFILE.
Proof.
  intros Ho. split; [apply Z.div_pos; unfold BSIZE; lia|].
  apply Z.div_lt_upper_bound; unfold BSIZE in *; lia.
Qed.

Lemma grow_content off : 0 <= off < MAXFILE * BSIZE -> content st' ip off = content st ip off.
Proof.
  intros Ho%off_block. pose proof grow_pos. unfold content.
  destruct (gr_block _ _ _ _ Hg _ Ho) as [->|[-> ->]].
  - destruct (Z.eqb_spec (fblock st ip (off / BSIZE)) 0) as [|Hnz]; [done|].
    pose proof (owns_fblock st ip _ Ho Hnz) as Hown. destruct (owned_facts _ _ _ Hf Hown) as (? & ? & Hu).
    rewrite (gr_td _ _ _ _ Hg); [done| |done|].
    + intros E. pose proof (fh_free _ _ _ (gr_fresh _ _ _ _ Hg)). congruence.
    + intros _. by apply (fo_ind _ _ Hf).
  - rewrite (proj2 (Z.eqb_neq _ _)) by lia. simpl.
    apply (fh_zero _ _ _ (gr_fresh _ _ _ _ Hg)). apply Z.mod_pos_bound. unfold BSIZE. lia.
Qed.

Lemma grow_frame : frame_ok st st' ip.
Proof.
  destruct (gr_fresh _ _ _ _ Hg) as [F1 F2 F3 F4 F5]. split; try apply Hg.
  intros b Hb Hm Hu Ho. assert (b <> b0) by congruence. split_and!.
  - apply Hg; [done..|]. intros Hnz ->. destruct Ho. by apply owns_ind.
  - by rewrite F4.
  - by intros [->|?]%grow_owns.
Qed.
End grow.

(** ** bmap *)

Lemma fblock_direct st ip bn : bn < NDIRECT -> fblock st ip bn = addr (inode_at st ip) bn.
Proof. intros H. unfold fblock. by rewrite (proj2 (Z.ltb_lt _ _)). Qed.

Lemma fblock_indirect st ip bn : NDIRECT <= bn ->
  fblock st ip bn = if ind st ip =? 0 then 0 else ld32 (td (fs_t st) (ind st ip)) (4 * (bn - NDIRECT)).
Proof. intros H. unfold fblock. by rewrite (proj2 (Z.ltb_ge _ _)). Qed.

(** [balloc] followed by storing the block number in the inode. *)
Section grow_inode.
Context (st st1 : fs) (ip : nat) (b0 i : Z).
Context (Hf : file_ok st ip) (Hi : 0 <= i < 13) (Ha : addr (inode_at st ip) i = 0).
Context (Hic : fs_ic st1 = fs_ic st) (Hfr : fresh st st1 b0).
Context (Htd : forall y, y <> b0 -> y <> sb_bmapstart sb -> td (fs_t st1) y = td (fs_t st) y).

Definition stored : fs := set_inode st1 ip (set_addr (inode_at st1 ip) i b0).

Lemma b0_pos : 0 < b0.
Proof.
  pose proof (fh_range _ _ _ Hfr) as Hr. rewrite data_start_eq in Hr by done.
  pose proof (sb_sizes sb Hsb). lia.
Qed.

Lemma stored_inode : inode_at stored ip = set_addr (inode_at st ip) i b0.
Proof.
  unfold stored. rewrite inode_at_set by (rewrite Hic; apply Hf). unfold inode_at. by rewrite Hic.
Qed.

Lemma stored_addr j : 0 <= j -> addr (inode_at stored ip) j = if j =? i then b0 else addr (inode_at st ip) j.
Proof. intros Hj. rewrite stored_inode. apply addr_set; [done..|apply Hf]. Qed.

Lemma stored_ind : ind stored ip = if NDIRECT =? i then b0 else ind st ip.
Proof. unfold ind. by rewrite stored_addr. Qed.

Lemma indirect_range bn : NDIRECT <= bn < MAXFILE -> 0 <= 4 * (bn - NDIRECT) <= BSIZE - 4.
Proof. unfold MAXFILE, NINDIRECT, NDIRECT, BSIZE. change (512 / 4) with 128. lia. Qed.

Lemma ld32_zero m o : (forall j, 0 <= j < BSIZE -> m j = 0) -> 0 <= o <= BSIZE - 4 -> ld32 m o = 0.
Proof.
  intros Hm Ho. transitivity (ld32 (fun _ => 0) o); [|done]. apply ld32_ext. intros y Hy.
  apply Hm. lia.
Qed.

Lemma stored_block bn : 0 <= bn < MAXFILE ->
  fblock stored ip bn = if (bn =? i) && (bn <? NDIRECT) then b0 else fblock st ip bn.
Proof.
  intros Hbn. pose proof b0_pos. destruct (Z.ltb_spec bn NDIRECT) as [Hd|Hd].
  { rewrite !fblock_direct, stored_addr by lia. by destruct (bn =? i). }
  rewrite andb_false_r, !fblock_indirect, stored_ind by done.
  destruct (Z.eqb_spec NDIRECT i) as [Ei|Ni].
  - rewrite (proj2 (Z.eqb_neq b0 0)) by lia.
    assert (ind st ip = 0) as -> by (unfold ind; congruence). simpl.
    apply ld32_zero; [apply Hfr|]. apply indirect_range. lia.
  - destruct (Z.eqb_spec (ind st ip) 0) as [|Hiz]; [done|].
    destruct (owned_facts _ _ _ Hf (owns_ind _ _ Hiz)) as (? & ? & Hu).
    simpl. rewrite Htd; [done| |done]. intros E. pose proof (fh_free _ _ _ Hfr). congruence.
Qed.

Lemma stored_grows : grows st stored ip b0.
Proof.
  pose proof b0_pos as Hp. assert (Hno : ~ owns st ip b0) by by eapply fresh_not_owned.
  assert (Hnb : forall bn, 0 <= bn < MAXFILE -> fblock st ip bn <> b0).
  { intros bn Hbn E. destruct Hno. rewrite <- E. apply owns_fblock; [done|]. lia. }
  assert (Hni : ind st ip <> b0).
  { intros E. destruct Hno. rewrite <- E. apply owns_ind. lia. }
  split.
  - destruct Hfr as [F1 F2 F3 F4 F5]. by split.
  - rewrite stored_inode, length_set_addr. apply Hf.
  - unfold stored. simpl. by rewrite length_insert, Hic.
  - intros j Hj. unfold stored. rewrite inode_at_set_ne by done. unfold inode_at. by rewrite Hic.
  - split; [lia|]. destruct (Z.eqb_spec NDIRECT i) as [Ei|Ni].
    + left. rewrite stored_ind. by rewrite (proj2 (Z.eqb_eq _ _)).
    + right. exists i. unfold MAXFILE, NINDIRECT, NDIRECT, BSIZE in *. change (512 / 4) with 128 in *.
      split; [lia|]. rewrite stored_block by (unfold MAXFILE, NINDIRECT, NDIRECT, BSIZE; change (512/4) with 128; lia).
      rewrite Z.eqb_refl. unfold NDIRECT. by rewrite (proj2 (Z.ltb_lt _ _)) by lia.
  - rewrite stored_ind. destruct (Z.eqb_spec NDIRECT i) as [Ei|Ni]; [right|by left].
    split; [|done]. unfold ind. congruence.
  - intros bn Hbn. rewrite stored_block by done.
    destruct (Z.eqb_spec bn i) as [->|]; [|by left]. destruct (Z.ltb_spec i NDIRECT); [right|by left].
    split; [|done]. by rewrite fblock_direct.
  - intros x y Hx Hy. rewrite !stored_block by done.
    destruct (Z.eqb_spec x i) as [->|], (Z.eqb_spec y i) as [->|]; simpl; intros E1 E2; try done;
      exfalso; [by apply (Hnb y) | by apply (Hnb x)..].
  - intros x Hx. rewrite stored_block, stored_ind by done.
    destruct (Z.eqb_spec x i) as [->|]; cbn [andb]; [|intros; exfalso; by eapply Hnb].
    destruct (Z.ltb_spec i NDIRECT); [|intros; exfalso; by eapply Hnb].
    by rewrite (proj2 (Z.eqb_neq _ _)) by lia.
  - intros y H1 H2 _. by apply Htd.
Qed.
End grow_inode.

(** A write to a block other than the bitmap keeps the bitmap. *)
Lemma used_tput t b m x : b <> sb_bmapstart sb -> 0 <= x < sb_size sb ->
  used sb (tput t b m) x = used sb t x.
Proof. intros Hb Hx. rewrite !used_bit by done. simpl. by rewrite dset_ne by done. Qed.

(** [balloc] followed by storing the block number in the indirect block. *)
Section grow_entry.
Context (st st1 : fs) (ip : nat) (b0 bn : Z).
Context (Hf : file_ok st ip) (Hbn : NDIRECT <= bn < MAXFILE).
Context (Hiz : ind st ip <> 0) (Ho : fblock st ip bn = 0).
Context (Hic : fs_ic st1 = fs_ic st) (Hfr : fresh st st1 b0).
Context (Htd : forall y, y <> b0 -> y <> sb_bmapstart sb -> td (fs_t st1) y = td (fs_t st) y).

Definition entered : fs :=
  mk_fs (tput (fs_t st1) (ind st ip) (st32 (td (fs_t st1) (ind st ip)) (4 * (bn - NDIRECT)) b0)) (fs_ic st1).

Lemma entered_inode j : inode_at entered j = inode_at st j.
Proof. unfold inode_at. simpl. by rewrite Hic. Qed.

Lemma entered_ind : ind entered ip = ind st ip.
Proof. unfold ind. by rewrite entered_inode. Qed.

Lemma ind_facts : ind st ip <> b0 /\ ind st ip <> sb_bmapstart sb /\ 0 < b0 < sb_size sb /\
  b0 <> sb_bmapstart sb.
Proof.
  destruct (owned_facts _ _ _ Hf (owns_ind _ _ Hiz)) as (? & ? & Hu).
  pose proof (fh_free _ _ _ Hfr). pose proof (fh_range _ _ _ Hfr) as Hr.
  rewrite data_start_eq in Hr by done. pose proof (sb_sizes sb Hsb). split_and!; try lia. congruence.
Qed.

Lemma entered_block x : 0 <= x < MAXFILE ->
  fblock entered ip x = if x =? bn then b0 else fblock st ip x.
Proof.
  intros Hx. destruct ind_facts as (N1 & N2 & Hb & N3).
  destruct (Z.lt_ge_cases x NDIRECT) as [Hd|Hd].
  { rewrite !fblock_direct, entered_inode by done. by rewrite (proj2 (Z.eqb_neq _ _)) by lia. }
  rewrite !fblock_indirect, entered_ind, (proj2 (Z.eqb_neq (ind st ip) 0)) by done.
  simpl. rewrite dset_eq. rewrite Htd by done. destruct (Z.eqb_spec x bn) as [->|Hne].
  - rewrite ld32_st32_same. apply u32_small. pose proof (sb_sizes sb Hsb). unfold FSSIZE in *. lia.
  - rewrite ld32_st32_other by lia. done.
Qed.

Lemma entered_grows : grows st entered ip b0.
Proof.
  destruct ind_facts as (N1 & N2 & Hb & N3).
  assert (Hno : ~ owns st ip b0) by by eapply fresh_not_owned.
  assert (Hnb : forall x, 0 <= x < MAXFILE -> fblock st ip x <> b0).
  { intros x Hx E. destruct Hno. rewrite <- E. apply owns_fblock; [done|]. lia. }
  assert (Hbn' : 0 <= bn < MAXFILE) by (unfold NDIRECT in *; lia).
  split.
  - destruct Hfr as [F1 F2 F3 F4 F5]. split; try done.
    + simpl. rewrite used_tput by (done || lia). done.
    + intros x Hx Hne. simpl. rewrite used_tput by done. by apply F4.
    + intros j Hj. simpl. rewrite dset_ne by done. by apply F5.
  - rewrite entered_inode. apply Hf.
  - simpl. by rewrite Hic.
  - intros j _. apply entered_inode.
  - split; [lia|right]. exists bn. split; [done|]. by rewrite entered_block, Z.eqb_refl.
  - left. apply entered_ind.
  - intros x Hx. rewrite entered_block by done. destruct (Z.eqb_spec x bn) as [->|]; [by right|by left].
  - intros x y Hx Hy. rewrite !entered_block by done.
    destruct (Z.eqb_spec x bn) as [->|], (Z.eqb_spec y bn) as [->|]; intros E1 E2; try done;
      exfalso; [by apply (Hnb y) | by apply (Hnb x)..].
  - intros x Hx _. rewrite entered_ind. done.
  - intros y H1 H2 H3. simpl. rewrite dset_ne; [by apply Htd|]. intros ->. by apply H3.
Qed.
End grow_entry.

(** What [bmap] promises when it returns. *)
Record mapped (st st' : fs) (ip : nat) (bn b : Z) : Prop := {
  mp_ok : file_ok st' ip;
  mp_block : fblock st' ip bn = b;
  mp_nz : b <> 0;
  mp_content off : 0 <= off < MAXFILE * BSIZE -> content st' ip off = content st ip off;
  mp_frame : frame_ok st st' ip;
  mp_meta : meta_of (inode_at st' ip) = meta_of (inode_at st ip);
  mp_tw x : x ∈ tw (fs_t st') -> x ∈ tw (fs_t st) \/ x = b \/ x = sb_bmapstart sb \/
                                 (ind st' ip <> 0 /\ x = ind st' ip);
  mp_mono bn' : 0 <= bn' < MAXFILE -> fblock st ip bn' <> 0 -> fblock st' ip bn' = fblock st ip bn';
  mp_ind : ind st ip <> 0 -> ind st' ip = ind st ip
}.

Lemma mapped_hit st ip bn : file_ok st ip -> fblock st ip bn <> 0 -> mapped st st ip bn (fblock st ip bn).
Proof. intros Hf Hnz. split; auto using frame_refl. Qed.

Lemma grows_mono st st' ip b0 bn : grows st st' ip b0 -> 0 <= bn < MAXFILE -> fblock st ip bn <> 0 ->
  fblock st' ip bn = fblock st ip bn.
Proof. intros Hg Hb Hn. by destruct (gr_block _ _ _ _ Hg bn Hb) as [|[? _]]. Qed.

Lemma mapped_grows st st' ip b0 bn :
  file_ok st ip -> grows st st' ip b0 -> fblock st' ip bn = b0 ->
  meta_of (inode_at st' ip) = meta_of (inode_at st ip) ->
  (forall x, x ∈ tw (fs_t st') -> x ∈ tw (fs_t st) \/ x = b0 \/ x = sb_bmapstart sb \/
               (ind st' ip <> 0 /\ x = ind st' ip)) ->
  mapped st st' ip bn b0.
Proof.
  intros Hf Hg Hb Hm Hw. pose proof (grow_pos _ _ _ _ Hg). split; try done.
  - by eapply grow_file_ok.
  - lia.
  - intros off. by eapply grow_content.
  - by eapply grow_frame.
  - intros bn'. by eapply grows_mono.
  - intros Hi. by destruct (gr_ind _ _ _ _ Hg) as [|[? _]].
Qed.

Lemma stored_meta st st1 ip i b0 : file_ok st ip -> fs_ic st1 = fs_ic st ->
  meta_of (inode_at (stored st1 ip b0 i) ip) = meta_of (inode_at st ip).
Proof. intros Hf Hic. by erewrite stored_inode. Qed.

Lemma entered_meta st st1 ip b0 bn : fs_ic st1 = fs_ic st ->
  meta_of (inode_at (entered st st1 ip b0 bn) ip) = meta_of (inode_at st ip).
Proof. intros Hic. by rewrite entered_inode. Qed.

(** The direct case. *)
Lemma bmap_direct st ip bn : file_ok st ip -> 0 <= bn < NDIRECT ->
  (exists b st', bmap sb ip bn st = Ok (b, st') /\ mapped st st' ip bn b) \/
  bmap sb ip bn st = Panic "balloc: out of blocks" \/
  (bmap sb ip bn st = Panic "too big a transaction" /\ log_cap sb <= cost st ip + 1).
Proof.
  intros Hf Hb. assert (Hm : 0 <= bn < MAXFILE) by (unfold MAXFILE, NINDIRECT, BSIZE in *; change (512/4) with 128; lia).
  unfold bmap. rewrite (proj2 (Z.ltb_lt _ _)) by lia. rewrite <- fblock_direct by lia.
  destruct (Z.eqb_spec (fblock st ip bn) 0) as [Hz|Hnz].
  - pose proof (bitmap_cost st ip) as Hbc.
    destruct (balloc_step st (fo_meta _ _ Hf)) as [[E _]|[[E Hbig]|(b0 & st1 & E & Hic & Hfr & Htd & Hw)]];
      rewrite E; [right; by left|right; right; split; [done | destruct (ind st ip =? 0); lia]|left]. cbn [rbind]. rewrite fblock_direct in Hz by lia.
    assert (Hi : 0 <= bn < 13) by (unfold NDIRECT in *; lia).
    eexists b0, _. split; [reflexivity|]. fold (stored st1 ip b0 bn). apply mapped_grows; try done.
    + by eapply stored_grows.
    + erewrite stored_block by done. by rewrite Z.eqb_refl, (proj2 (Z.ltb_lt _ _)) by lia.
    + by eapply stored_meta.
    + intros x. simpl. rewrite Hw. set_solver.
  - left. eexists _, st. split; [reflexivity|]. by apply mapped_hit.
Qed.

Lemma mapped_after_grow st st1 st2 ip b0 bn b :
  file_ok st ip -> grows st st1 ip b0 -> meta_of (inode_at st1 ip) = meta_of (inode_at st ip) ->
  ind st1 ip = b0 -> tw (fs_t st1) ⊆ {[b0; sb_bmapstart sb]} ∪ tw (fs_t st) ->
  mapped st1 st2 ip bn b -> mapped st st2 ip bn b.
Proof.
  intros Hf Hg Hm Hi Hw Hmp. pose proof (grow_pos _ _ _ _ Hg). split; [by destruct Hmp..| | | | | |].
  - intros off Ho. rewrite (mp_content _ _ _ _ _ Hmp) by done. by eapply grow_content.
  - eapply frame_trans; [by eapply grow_frame|apply Hmp].
  - by rewrite (mp_meta _ _ _ _ _ Hmp).
  - pose proof (mp_tw _ _ _ _ _ Hmp) as Ht. rewrite (mp_ind _ _ _ _ _ Hmp) in Ht |- * by lia.
    intros x Hx. rewrite Hi in *. destruct (Ht x Hx) as [Hx1%Hw|?]; [|by right].
    rewrite !elem_of_union, !elem_of_singleton in Hx1.
    destruct Hx1 as [[->| ->]|?]; [do 3 right; split; [lia|done]|right; right; by left|by left].
  - intros bn' Hb Hn. assert (E : fblock st1 ip bn' = fblock st ip bn') by by eapply grows_mono.
    rewrite (mp_mono _ _ _ _ _ Hmp); congruence.
  - intros Hn. rewrite (mp_ind _ _ _ _ _ Hmp); destruct (gr_ind _ _ _ _ Hg) as [|[? _]]; congruence.
Qed.

(** The part of [bmap] after the indirect block is known. *)
Definition bmap_entry (ip : nat) (bn a : Z) (st : fs) : res (Z * fs) :=
  let* bp := tread (fs_t st) a in
  if ld32 bp (4 * bn) =? 0 then
    let* (a2, st) := balloc_fs sb st in
    let* bp := tread (fs_t st) a in
    let* t := tlog sb (fs_t st) a (st32 bp (4 * bn) a2) in
    Ok (a2, mk_fs t (fs_ic st))
  else Ok (ld32 bp (4 * bn), st).

Lemma bmap_entry_spec st ip bn : file_ok st ip -> NDIRECT <= bn < MAXFILE -> ind st ip <> 0 ->
  (exists b st', bmap_entry ip (bn - NDIRECT) (ind st ip) st = Ok (b, st') /\ mapped st st' ip bn b) \/
  bmap_entry ip (bn - NDIRECT) (ind st ip) st = Panic "balloc: out of blocks" \/
  (bmap_entry ip (bn - NDIRECT) (ind st ip) st = Panic "too big a transaction" /\ log_cap sb <= cost st ip + 1).
Proof.
  intros Hf Hb Hiz. destruct (owned_facts _ _ _ Hf (owns_ind _ _ Hiz)) as (Hr & Hbm & _).
  pose proof (sb_sizes sb Hsb) as [_ Hs].
  assert (Hfb : fblock st ip bn = ld32 (td (fs_t st) (ind st ip)) (4 * (bn - NDIRECT)))
    by (rewrite fblock_indirect, (proj2 (Z.eqb_neq (ind st ip) 0)) by lia; done).
  unfold bmap_entry. rewrite tread_ok by lia. cbn [rbind]. rewrite <- Hfb.
  destruct (Z.eqb_spec (fblock st ip bn) 0) as [Hz|Hnz].
  - pose proof (bitmap_cost st ip) as Hbc. rewrite (proj2 (Z.eqb_neq (ind st ip) 0)) in Hbc by done.
    destruct (balloc_step st (fo_meta _ _ Hf)) as [[E _]|[[E Hbig]|(b0 & st1 & E & Hic & Hfr & Htd & Hw)]];
      rewrite E; [right; by left|right; right; split; [done | lia]|]. cbn [rbind]. rewrite tread_ok by lia. cbn [rbind].
    set (m := st32 _ _ _). destruct (tlog_cases sb (fs_t st1) (ind st ip) m) as [[_ ->]|[Hbig ->]]; cbn [rbind].
    2: { right. right. split; [done|]. unfold logged in Hbig. rewrite Hw in Hbig. pose proof (size_union_le {[b0]} ({[sb_bmapstart sb]} ∪ tw (fs_t st))) as H. rewrite size_singleton in H. lia. }
    left. unfold m. eexists b0, _. split; [reflexivity|]. fold (entered st st1 ip b0 bn).
    assert (Hg : grows st (entered st st1 ip b0 bn) ip b0) by by eapply entered_grows.
    apply mapped_grows; try done.
    + erewrite entered_block; try done; [by rewrite Z.eqb_refl|]. unfold NDIRECT in *. lia.
    + by apply entered_meta.
    + intros x. rewrite entered_ind by done. simpl. rewrite Hw. set_solver.
  - left. eexists _, st. split; [reflexivity|]. apply mapped_hit; done.
Qed.

(** [bmap] on a well-formed file maps every legal file block: it returns a
    block of the file, allocating zeroed blocks that nothing used if needed, and
    keeps the file well formed, its contents, its metadata, every block of other
    files and all other inodes; it fails only when the disk is full or the log
    has too little room. *)
Lemma bmap_ok st ip bn : file_ok st ip -> 0 <= bn < MAXFILE ->
  (exists b st', bmap sb ip bn st = Ok (b, st') /\ mapped st st' ip bn b) \/
  bmap sb ip bn st = Panic "balloc: out of blocks" \/
  (bmap sb ip bn st = Panic "too big a transaction" /\ log_cap sb <= cost st ip + 1).
Proof.
  intros Hf Hb. destruct (Z.lt_ge_cases bn NDIRECT) as [Hd|Hd]; [apply bmap_direct; [done|lia]|].
  assert (HM : MAXFILE = NDIRECT + NINDIRECT) by done.
  unfold bmap. rewrite (proj2 (Z.ltb_ge _ _)), (proj2 (Z.ltb_lt (bn - NDIRECT) NINDIRECT)) by lia.
  fold (ind st ip). destruct (Z.eqb_spec (ind st ip) 0) as [Hz|Hnz].
  - pose proof (bitmap_cost st ip) as Hbc. rewrite Hz in Hbc. cbn [Z.eqb] in Hbc.
    destruct (balloc_step st (fo_meta _ _ Hf)) as [[E _]|[[E Hbig]|(b0 & st1 & E & Hic & Hfr & Htd & Hw)]];
      rewrite E; [right; by left|right; right; split; [done | lia]|]. cbn [rbind]. fold (stored st1 ip b0 NDIRECT).
    assert (Hi : 0 <= NDIRECT < 13) by done.
    assert (Hg : grows st (stored st1 ip b0 NDIRECT) ip b0) by by eapply stored_grows.
    assert (Hind : ind (stored st1 ip b0 NDIRECT) ip = b0) by (by erewrite stored_ind).
    fold (bmap_entry ip (bn - NDIRECT) b0 (stored st1 ip b0 NDIRECT)).
    pose proof (bmap_entry_spec (stored st1 ip b0 NDIRECT) ip bn) as Hs. rewrite Hind in Hs.
    destruct Hs as [(b & st2 & E2 & Hmp)|[E2|[E2 Hbig]]].
    + by eapply grow_file_ok.
    + lia.
    + pose proof (grow_pos _ _ _ _ Hg). lia.
    + left. exists b, st2. split; [done|]. eapply mapped_after_grow; try done.
      * by eapply stored_meta.
      * simpl. rewrite Hw. set_solver.
    + right. by left.
    + right. right. split; [done|]. assert (Hc : cost (stored st1 ip b0 NDIRECT) ip <= Z.of_nat (size ({[sb_bmapstart sb]} ∪ tw (fs_t st))) + 1); [|lia].
      unfold cost, meta_blocks. rewrite Hind. pose proof (grow_pos _ _ _ _ Hg). rewrite (proj2 (Z.eqb_neq b0 0)) by lia. cbn [stored set_inode fs_t]. rewrite Hw.
      replace ({[sb_bmapstart sb]} ∪ {[b0]} ∪ ({[b0]} ∪ ({[sb_bmapstart sb]} ∪ tw (fs_t st)))) with ({[b0]} ∪ ({[sb_bmapstart sb]} ∪ tw (fs_t st))) by set_solver.
      pose proof (size_union_le {[b0]} ({[sb_bmapstart sb]} ∪ tw (fs_t st))) as H1. rewrite size_singleton in H1. lia.
  - cbn [rbind]. fold (bmap_entry ip (bn - NDIRECT) (ind st ip) st). apply bmap_entry_spec; try done; lia.
Qed.

(** ** Reading *)

Lemma bmap_hit st ip bn : file_ok st ip -> 0 <= bn < MAXFILE -> fblock st ip bn <> 0 ->
  bmap sb ip bn st = Ok (fblock st ip bn, st).
Proof.
  intros Hf Hb Hnz. unfold bmap. destruct (Z.ltb_spec bn NDIRECT) as [Hd|Hd].
  - rewrite fblock_direct in Hnz |- * by done. by rewrite (proj2 (Z.eqb_neq _ _)).
  - assert (HM : MAXFILE = NDIRECT + NINDIRECT) by done. rewrite (proj2 (Z.ltb_lt _ _)) by lia.
    fold (ind st ip). rewrite fblock_indirect in Hnz |- * by done.
    destruct (Z.eqb_spec (ind st ip) 0) as [|Hi]; [done|]. cbn [rbind].
    destruct (owned_facts _ _ _ Hf (owns_ind _ _ Hi)) as (Hr & _ & _).
    pose proof (sb_sizes sb Hsb) as [_ Hs]. rewrite tread_ok by lia. cbn [rbind].
    by rewrite (proj2 (Z.eqb_neq _ 0)).
Qed.

(** Every file block below the size is there. *)
Definition no_holes (st : fs) (ip : nat) : Prop :=
  forall bn, 0 <= bn -> bn * BSIZE < i_size (inode_at st ip) -> fblock st ip bn <> 0.

(** One pass of a copy loop stays inside a block. *)
Lemma pass_range off rest : 0 <= off -> 0 < rest ->
  let m := Z.min rest (BSIZE - off mod BSIZE) in
  0 < m <= rest /\ off mod BSIZE + m <= BSIZE /\
  (forall o, off <= o < off + m -> o / BSIZE = off / BSIZE /\ o mod BSIZE = off mod BSIZE + (o - off)) /\
  ((off + m) mod BSIZE + (rest - m)) / BSIZE + 1 <= (off mod BSIZE + rest) / BSIZE + (if m =? rest then 1 else 0).
Proof.
  intros Ho Hr m. unfold BSIZE in *. pose proof (Z.mod_pos_bound off 512 ltac:(lia)) as Hm.
  split_and!; try lia.
  - intros o Hoo. assert (o = 512 * (off / 512) + (off mod 512 + (o - off))) as E
      by (pose proof (Z.div_mod off 512 ltac:(lia)); lia).
    split; [symmetry; apply (Z.div_unique o 512 (off / 512) (off mod 512 + (o - off))) |
            symmetry; apply (Z.mod_unique o 512 (off / 512) (off mod 512 + (o - off)))]; lia.
  - destruct (Z.eqb_spec m rest) as [->|Hne]; zdiv.
Qed.

Context (dev_read : Z -> option (nat -> mem -> Z -> Z -> fs -> res (Z * mem * fs))).
Context (dev_write : Z -> option (nat -> mem -> Z -> Z -> fs -> res (Z * fs))).

(** Enough passes are left for [rest] bytes from [off]. *)
Definition enough (fuel : nat) (off rest : Z) : Prop :=
  rest = 0 \/ (off mod BSIZE + rest) / BSIZE + 1 <= Z.of_nat fuel.

Lemma enough_passes off n : 0 <= n -> enough (passes off n) off n.
Proof.
  intros Hn. right. unfold passes. assert (0 <= (off mod BSIZE + n) / BSIZE).
  { apply Z.div_pos; [|done]. pose proof (Z.mod_pos_bound off BSIZE ltac:(done)). lia. }
  lia.
Qed.

Lemma enough_step fuel off rest : 0 <= off -> 0 < rest -> enough (S fuel) off rest ->
  enough fuel (off + Z.min rest (BSIZE - off mod BSIZE)) (rest - Z.min rest (BSIZE - off mod BSIZE)).
Proof.
  intros Ho Hr He. destruct (pass_range off rest Ho Hr) as (_ & _ & _ & H).
  destruct (Z.eqb_spec (Z.min rest (BSIZE - off mod BSIZE)) rest); [left; lia|right].
  destruct He; lia.
Qed.

Lemma enough_pos off rest : 0 < rest -> ~ enough 0 off rest.
Proof.
  intros Hr [|H]; [lia|]. assert (0 <= (off mod BSIZE + rest) / BSIZE).
  { apply Z.div_pos; [|done]. pose proof (Z.mod_pos_bound off BSIZE ltac:(done)). lia. }
  lia.
Qed.

Lemma div_le_block off o : off <= o -> off / BSIZE <= o / BSIZE.
Proof. intros. by apply Z.div_le_mono. Qed.

Lemma readi_loop_ok fuel ip dst d off tot n st :
  file_ok st ip -> 0 <= off -> 0 <= tot <= n -> off + (n - tot) <= MAXFILE * BSIZE ->
  (forall o, off <= o < off + (n - tot) -> fblock st ip (o / BSIZE) <> 0) ->
  enough fuel off (n - tot) ->
  exists dst', readi_loop sb fuel ip dst d off tot n st = Ok (dst', st) /\
    forall x, dst' x = if (d <=? x) && (x <? d + (n - tot)) then content st ip (off + (x - d)) else dst x.
Proof.
  intros Hf. revert dst d off tot. induction fuel as [|fuel IH]; intros dst d off tot Ho Ht Hmax Hmap He;
    cbn [readi_loop]; destruct (Z.ltb_spec tot n) as [Hlt|Hge];
    try (exists dst; split; [done|]; intros x; by zcases).
  { by apply enough_pos in He; [|lia]. }
  destruct (pass_range off (n - tot) Ho ltac:(lia)) as (Hm & Hin & Hsame & _).
  apply enough_step in He; [|lia..]. set (m := Z.min (n - tot) (BSIZE - off mod BSIZE)) in *.
  assert (Hb : 0 <= off / BSIZE < MAXFILE) by (apply off_block; lia).
  pose proof (Hmap off ltac:(lia)) as Hnz. rewrite bmap_hit by done. cbn [rbind].
  destruct (owned_facts _ _ _ Hf (owns_fblock _ _ _ Hb Hnz)) as (Hr & _ & _).
  pose proof (sb_sizes sb Hsb) as [_ Hs]. rewrite tread_ok by lia. cbn [rbind].
  destruct (IH (mcopy dst d (td (fs_t st) (fblock st ip (off / BSIZE))) (off mod BSIZE) m)
              (d + m) (off + m) (tot + m)) as (dst' & E & Hx).
  - lia.
  - lia.
  - lia.
  - intros o Hoo. apply Hmap. lia.
  - by replace (n - (tot + m)) with (n - tot - m) by lia.
  - exists dst'. split; [done|]. intros x. rewrite Hx.
    destruct (Z.leb_spec (d + m) x); simpl.
    + replace (off + m + (x - (d + m))) with (off + (x - d)) by lia.
      rewrite (proj2 (Z.leb_le d x)) by lia. simpl. replace (d + m + (n - (tot + m))) with (d + (n - tot)) by lia.
      destruct (x <? d + (n - tot)); [done|]. apply mcopy_out. lia.
    + unfold mcopy. destruct (Z.leb_spec d x); simpl; [|done].
      rewrite (proj2 (Z.ltb_lt x (d + m))), (proj2 (Z.ltb_lt x (d + (n - tot)))) by lia.
      unfold content. destruct (Hsame (off + (x - d)) ltac:(lia)) as [-> ->].
      rewrite (proj2 (Z.eqb_neq _ _)) by done. f_equal. lia.
Qed.

(** [readi] of an ordinary file or directory, on all its branches. *)
Lemma readi_ok st ip dst d off n :
  file_ok st ip -> no_holes st ip -> i_type (inode_at st ip) <> T_DEV ->
  0 <= i_size (inode_at st ip) <= MAXFILE * BSIZE -> 0 <= off < 2 ^ 32 -> 0 <= n < 2 ^ 32 ->
  let size := i_size (inode_at st ip) in
  if (size <? off) || (2 ^ 32 <=? off + n) then readi sb dev_read ip dst d off n st = Ok (-1, dst, st)
  else
    let r := Z.min n (size - off) in
    exists dst', readi sb dev_read ip dst d off n st = Ok (r, dst', st) /\
      forall x, dst' x = if (d <=? x) && (x <? d + r) then content st ip (off + (x - d)) else dst x.
Proof.
  intros Hf Hh Ht Hs Ho Hn size. unfold readi. rewrite (proj2 (Z.eqb_neq _ _)) by done. fold size.
  assert (HM : MAXFILE * BSIZE = 71680) by done.
  destruct (Z.ltb_spec size off) as [|Hle]; [done|]. cbn [orb].
  destruct (Z.leb_spec (2 ^ 32) (off + n)) as [Hov|Hov].
  { assert (u32 (off + n) = off + n - 2 ^ 32) as ->.
    { unfold u32. symmetry. apply (Z.mod_unique _ _ 1); lia. }
    by rewrite (proj2 (Z.ltb_lt _ _)) by lia. }
  rewrite !u32_small by lia. rewrite (proj2 (Z.ltb_ge (off + n) off)) by lia.
  assert (Hr : (if size <? off + n then size - off else n) = Z.min n (size - off)) by zcases.
  rewrite Hr. set (r := Z.min n (size - off)).
  destruct (readi_loop_ok (passes off r) ip dst d off 0 r st) as (dst' & E & Hx); try lia; try done.
  - intros o Hoo. apply Hh; [apply Z.div_pos; [lia|done]|].
    pose proof (Z.mul_div_le o BSIZE ltac:(done)). fold size. lia.
  - replace (r - 0) with r by lia. apply enough_passes. lia.
  - rewrite E. cbn [rbind]. exists dst'. rewrite s32_small by lia. split; [done|].
    intros x. rewrite Hx. by replace (r - 0) with r by lia.
Qed.

(** ** Writing *)

(** Overwriting a data block of the file. *)
Definition overwrite (st : fs) (b : Z) (m : mem) : fs := mk_fs (tput (fs_t st) b m) (fs_ic st).

Section overwrite.
Context (st : fs) (ip : nat) (bn : Z) (m : mem).
Context (Hf : file_ok st ip) (Hbn : 0 <= bn < MAXFILE) (Hnz : fblock st ip bn <> 0).

Lemma over_facts : 0 <= fblock st ip bn < sb_size sb /\ fblock st ip bn <> sb_bmapstart sb /\
  (ind st ip <> 0 -> fblock st ip bn <> ind st ip).
Proof.
  destruct (owned_facts _ _ _ Hf (owns_fblock _ _ _ Hbn Hnz)) as (? & ? & _).
  split_and!; try lia; try done. intros _. by apply (fo_ind _ _ Hf).
Qed.

Lemma over_block x : fblock (overwrite st (fblock st ip bn) m) ip x = fblock st ip x.
Proof.
  destruct over_facts as (_ & _ & Hi).
  destruct (Z.lt_ge_cases x NDIRECT) as [Hd|Hd]; [by rewrite !(fblock_direct _ _ x)|].
  rewrite !(fblock_indirect _ _ x) by done.
  change (ind (overwrite st (fblock st ip bn) m) ip) with (ind st ip).
  destruct (Z.eqb_spec (ind st ip) 0) as [|Hz]; [done|]. simpl.
  rewrite dset_ne; [done|]. intros E. by apply (Hi Hz).
Qed.

Lemma over_owns b : owns (overwrite st (fblock st ip bn) m) ip b <-> owns st ip b.
Proof. unfold owns. setoid_rewrite over_block. done. Qed.

Lemma over_file_ok : file_ok (overwrite st (fblock st ip bn) m) ip.
Proof.
  destruct over_facts as (Hr & Hb & _). pose proof (sb_sizes sb Hsb) as [Hs1 Hs2].
  pose proof (data_start_eq sb Hsb) as Hds. destruct Hf as [H1 H2 H3 H4 H5 H6 H7]. split; try done.
  - intros x Hx. simpl. rewrite used_tput by (done || lia). by apply H3.
  - intros b Ho%over_owns. by apply H4.
  - intros b Ho%over_owns. simpl. rewrite used_tput; [by apply H5|done|]. apply H4 in Ho. lia.
  - intros x y. rewrite !over_block. apply H6.
  - intros x. rewrite over_block. apply H7.
Qed.

Lemma over_content off : 0 <= off < MAXFILE * BSIZE ->
  content (overwrite st (fblock st ip bn) m) ip off =
  if off / BSIZE =? bn then m (off mod BSIZE) else content st ip off.
Proof.
  intros Ho%off_block. unfold content. rewrite over_block.
  destruct (Z.eqb_spec (off / BSIZE) bn) as [->|Hne].
  - rewrite (proj2 (Z.eqb_neq _ _)) by done. simpl. by rewrite dset_eq.
  - destruct (Z.eqb_spec (fblock st ip (off / BSIZE)) 0); [done|]. simpl. rewrite dset_ne; [done|].
    intros E. apply Hne. by apply (fo_inj _ _ Hf).
Qed.

Lemma over_frame : frame_ok st (overwrite st (fblock st ip bn) m) ip.
Proof.
  destruct over_facts as (_ & Hb & _). split; try done. intros b Hr Hm Hu Ho. simpl.
  rewrite used_tput, over_owns by done. split_and!; try done. rewrite dset_ne; [done|].
  intros ->. apply Ho. by apply owns_fblock.
Qed.
End overwrite.

(** The blocks a write of [off, off+n) may log. *)
Definition write_set (st' : fs) (ip : nat) (off n : Z) : Z -> Prop := fun b =>
  b = sb_bmapstart sb \/ (ind st' ip <> 0 /\ b = ind st' ip) \/
  exists o, off <= o < off + n /\ b = fblock st' ip (o / BSIZE).

(** What writing [n] bytes of [src] from [s] at [off] does to a file. *)
Record wrote_file (st st' : fs) (ip : nat) (src : mem) (s off n : Z) : Prop := {
  wf_ok : file_ok st' ip;
  wf_content o : 0 <= o < MAXFILE * BSIZE ->
    content st' ip o = if (off <=? o) && (o <? off + n) then src (s + (o - off)) else content st ip o;
  wf_frame : frame_ok st st' ip;
  wf_meta : meta_of (inode_at st' ip) = meta_of (inode_at st ip);
  wf_mapped o : off <= o < off + n -> fblock st' ip (o / BSIZE) <> 0;
  wf_mono bn : 0 <= bn < MAXFILE -> fblock st ip bn <> 0 -> fblock st' ip bn = fblock st ip bn;
  wf_ind : ind st ip <> 0 -> ind st' ip = ind st ip;
  wf_tw b : b ∈ tw (fs_t st') -> b ∈ tw (fs_t st) \/ write_set st' ip off n b
}.

Lemma wrote_nil st ip src s off : file_ok st ip -> wrote_file st st ip src s off 0.
Proof.
  intros Hf. split; auto using frame_refl.
  - intros o _. by zcases.
  - intros o Ho. lia.
Qed.

(** One pass: map the block, overwrite part of it. *)
Lemma wrote_pass st st1 ip b src s off m :
  0 <= off -> off + m <= MAXFILE * BSIZE -> 0 < m -> off mod BSIZE + m <= BSIZE ->
  (forall o, off <= o < off + m -> o / BSIZE = off / BSIZE /\ o mod BSIZE = off mod BSIZE + (o - off)) ->
  mapped st st1 ip (off / BSIZE) b ->
  wrote_file st (overwrite st1 b (mcopy (td (fs_t st1) b) (off mod BSIZE) src s m)) ip src s off m.
Proof.
  intros Ho Hmax Hm Hin Hsame Hmp.
  assert (Hb : 0 <= off / BSIZE < MAXFILE) by (apply off_block; lia).
  destruct Hmp as [Mok Mb Mnz Mc Mf Mm Mt Mmono Mi]. subst b. set (bn := off / BSIZE) in *.
  set (st2 := overwrite st1 _ _). assert (HB : forall x, fblock st2 ip x = fblock st1 ip x) by (intros x; by apply over_block).
  split.
  - by apply over_file_ok.
  - intros o Hoo. unfold st2. rewrite over_content by done. rewrite <- Mc by done.
    destruct (Z.eqb_spec (o / BSIZE) bn) as [E|E].
    + pose proof (Z.div_mod o BSIZE ltac:(done)). pose proof (Z.div_mod off BSIZE ltac:(done)) as Hoff.
      fold bn in Hoff. rewrite E in *.
      unfold mcopy, content. rewrite E, (proj2 (Z.eqb_neq _ _)) by done.
      zcases; try lia; try done; f_equal; lia.
    + assert (Hn : ~ (off <= o < off + m)) by (intros [? _]%Hsame; done). zcases.
  - eapply frame_trans; [done|]. by apply over_frame.
  - done.
  - intros o [-> _]%Hsame. by rewrite HB.
  - intros x Hx Hnz. rewrite HB. by apply Mmono.
  - done.
  - intros x Hx. simpl in Hx. unfold write_set.
    assert (Hx' : x = fblock st1 ip bn \/ x ∈ tw (fs_t st1)) by set_solver.
    assert (Hbn : exists o, off <= o < off + m /\ fblock st1 ip bn = fblock st2 ip (o / BSIZE)).
    { exists off. split; [lia|]. by rewrite HB. }
    destruct Hx' as [->|Hx']; [right; right; by right|]. apply Mt in Hx'.
    destruct Hx' as [?|[->|[->|[? ->]]]]; [by left|right; right; by right|right; by left|].
    right; right; by left.
Qed.

Lemma wrote_app st st1 st2 ip src s off m k :
  0 <= off -> 0 <= m -> 0 <= k -> off + m + k <= MAXFILE * BSIZE ->
  wrote_file st st1 ip src s off m -> wrote_file st1 st2 ip src (s + m) (off + m) k ->
  wrote_file st st2 ip src s off (m + k).
Proof.
  intros Ho Hm Hk Hmax [A1 A2 A3 A4 A5 A6 A7 A8] [B1 B2 B3 B4 B5 B6 B7 B8].
  assert (Hr : forall o, off <= o < off + m -> 0 <= o / BSIZE < MAXFILE)
    by (intros o Hoo; apply off_block; lia).
  split; try done.
  - intros o Hoo. rewrite B2, A2 by done. zcases; try done; f_equal; lia.
  - by eapply frame_trans.
  - congruence.
  - intros o Hoo. destruct (Z.lt_ge_cases o (off + m)) as [Hlt|Hge]; [|apply B5; lia].
    rewrite B6; [apply A5; lia|apply Hr; lia|apply A5; lia].
  - intros bn Hb Hn. rewrite B6, A6; try done. by rewrite A6.
  - intros Hn. rewrite B7, A7; try done. by rewrite A7.
  - intros b [Hb|Hb]%B8; [apply A8 in Hb as [?|Hb]; [by left|right]|right].
    + destruct Hb as [->|[[Hn ->]|(o & Hoo & ->)]]; [by left|right; left|right; right].
      * by rewrite B7.
      * exists o. split; [lia|]. by rewrite B6 by auto.
    + destruct Hb as [->|[?|(o & Hoo & ->)]]; [by left|right; by left|right; right].
      exists o. split; [lia|done].
Qed.

(** The blocks that [n] bytes from [off] meet. *)
Definition touched (off n : Z) : Z := if n <=? 0 then 0 else (off mod BSIZE + n - 1) / BSIZE + 1.

Lemma touched_step off rest : 0 <= off -> 0 < rest ->
  let m := Z.min rest (BSIZE - off mod BSIZE) in touched off rest = 1 + touched (off + m) (rest - m).
Proof.
  clear dev_read dev_write. intros Ho Hr m. unfold touched, m, BSIZE. pose proof (Z.mod_pos_bound off 512 ltac:(lia)).
  destruct (Z.leb_spec rest 0); [lia|]. destruct (Z.le_gt_cases rest (512 - off mod 512)).
  - rewrite Z.min_l by lia. rewrite Z.sub_diag. cbn [Z.leb Z.compare]. rewrite Z.div_small; lia.
  - rewrite Z.min_r by lia. destruct (Z.leb_spec (rest - (512 - off mod 512)) 0); [lia|]. zdiv.
Qed.

Lemma touched_nonneg off n : 0 <= touched off n.
Proof.
  clear dev_read dev_write. unfold touched. destruct (Z.leb_spec n 0); [lia|]. pose proof (Z.mod_pos_bound off BSIZE ltac:(done)).
  assert (0 <= (off mod BSIZE + n - 1) / BSIZE) by (apply Z.div_pos; [lia | done]). lia.
Qed.

(** One pass of the copy loop takes at most one more place in the log. *)
Lemma pass_cost st st1 ip bn b m : mapped st st1 ip bn b ->
  cost (overwrite st1 b m) ip <= cost st ip + 1 /\ logged (fs_t st1) <= cost st ip + 1.
Proof.
  clear dev_read dev_write. intros Hmp. pose proof (mp_tw _ _ _ _ _ Hmp) as Ht. pose proof (mp_ind _ _ _ _ _ Hmp) as Hi. set (X := meta_blocks st ip ∪ tw (fs_t st)).
  assert (Hc : cost (overwrite st1 b m) ip <= cost st ip + 1).
  { unfold cost, meta_blocks. change (ind (overwrite st1 b m) ip) with (ind st1 ip). cbn [overwrite fs_t tput tw]. fold (meta_blocks st ip). fold X.
    destruct (Z.eqb_spec (ind st1 ip) 0) as [E1|E1].
    - assert (E0 : ind st ip = 0) by (destruct (Z.eq_dec (ind st ip) 0) as [|H]; [done|]; rewrite <- (Hi H); done). rewrite E0. cbn [Z.eqb].
      assert (Hsub : {[sb_bmapstart sb]} ∪ ∅ ∪ ({[b]} ∪ tw (fs_t st1)) ⊆ {[b]} ∪ X).
      { unfold X, meta_blocks. rewrite E0. cbn [Z.eqb]. intros x Hx. destruct (decide (x ∈ tw (fs_t st1))) as [Hx1|Hx1]; [destruct (Ht x Hx1) as [?|[->|[->|[? _]]]]; [set_solver..|done] | set_solver]. }
      apply subseteq_size in Hsub. pose proof (size_union_le {[b]} X) as H. rewrite size_singleton in H. lia.
    - assert (Hsub : {[sb_bmapstart sb]} ∪ {[ind st1 ip]} ∪ ({[b]} ∪ tw (fs_t st1)) ⊆ {[b]} ∪ ({[ind st1 ip]} ∪ X)).
      { unfold X, meta_blocks. intros x Hx. destruct (decide (x ∈ tw (fs_t st1))) as [Hx1|Hx1]; [destruct (Ht x Hx1) as [?|[->|[->|[? ->]]]]; set_solver | set_solver]. }
      apply subseteq_size in Hsub. pose proof (size_union_le {[b]} ({[ind st1 ip]} ∪ X)) as H. rewrite size_singleton in H.
      destruct (Z.eqb_spec (ind st ip) 0) as [E0|E0].
      + pose proof (size_union_le {[ind st1 ip]} X) as H2. rewrite size_singleton in H2. lia.
      + assert (Hin : {[ind st1 ip]} ∪ X = X); [|rewrite Hin in *; lia]. unfold X, meta_blocks. rewrite (Hi E0), (proj2 (Z.eqb_neq _ 0)) by done. set_solver. }
  split; [done|]. pose proof (logged_cost (overwrite st1 b m) ip). pose proof (logged_put (fs_t st1) b m). cbn [overwrite fs_t] in *. lia.
Qed.

Lemma writei_loop_ok fuel ip src s off tot n st :
  file_ok st ip -> 0 <= off -> 0 <= tot <= n -> off + (n - tot) <= MAXFILE * BSIZE ->
  enough fuel off (n - tot) ->
  (exists st', writei_loop sb fuel ip src s off tot n st = Ok (off + (n - tot), st') /\
     wrote_file st st' ip src s off (n - tot) /\ cost st' ip <= cost st ip + touched off (n - tot)) \/
  writei_loop sb fuel ip src s off tot n st = Panic "balloc: out of blocks" \/
  (writei_loop sb fuel ip src s off tot n st = Panic "too big a transaction" /\ log_cap sb <= cost st ip + touched off (n - tot)).
Proof.
  revert st s off tot. induction fuel as [|fuel IH]; intros st s off tot Hf Ho Ht Hmax He;
    cbn [writei_loop]; destruct (Z.ltb_spec tot n) as [Hlt|Hge];
    try (left; exists st; replace (n - tot) with 0 by lia; rewrite !Z.add_0_r; split; [done | split; [by apply wrote_nil | done]]).
  { by apply enough_pos in He; [|lia]. }
  destruct (pass_range off (n - tot) Ho ltac:(lia)) as (Hm & Hin & Hsame & _).
  apply enough_step in He; [|lia..]. pose proof (touched_step off (n - tot) Ho ltac:(lia)) as Htc. cbv zeta in Htc.
  set (m := Z.min (n - tot) (BSIZE - off mod BSIZE)) in *. pose proof (touched_nonneg (off + m) (n - tot - m)) as Htn.
  assert (Hb : 0 <= off / BSIZE < MAXFILE) by (apply off_block; lia).
  destruct (bmap_ok st ip (off / BSIZE) Hf Hb) as [(b & st1 & E & Hmp)|[E|[E Hbig]]]; rewrite E; [|right; by left | right; right; split; [done | lia]].
  cbn [rbind]. assert (Hbr : b < FSSIZE).
  { pose proof (mp_nz _ _ _ _ _ Hmp) as Hnz. rewrite <- (mp_block _ _ _ _ _ Hmp) in Hnz |- *.
    destruct (owned_facts _ _ _ (mp_ok _ _ _ _ _ Hmp) (owns_fblock _ _ _ Hb Hnz)) as (? & _).
    pose proof (sb_sizes sb Hsb). lia. }
  rewrite tread_ok by done. cbn [rbind]. set (data := mcopy (td (fs_t st1) b) (off mod BSIZE) src s m).
  destruct (pass_cost st st1 ip _ b data Hmp) as [Hc1 Hc2].
  destruct (tlog_cases sb (fs_t st1) b data) as [[_ ->]|[Hbig ->]]; cbn [rbind]; [|right; right; split; [done | lia]]. fold (overwrite st1 b data). unfold data in *. clear data.
  pose proof (wrote_pass st st1 ip b src s off m Ho ltac:(lia) ltac:(lia) Hin Hsame Hmp) as Hw.
  destruct (IH (overwrite st1 b (mcopy (td (fs_t st1) b) (off mod BSIZE) src s m)) (s + m) (off + m) (tot + m))
    as [(st' & E' & Hw' & Hc')|[E'|[E' Hbig]]].
  - apply Hw.
  - lia.
  - lia.
  - lia.
  - by replace (n - (tot + m)) with (n - tot - m) by lia.
  - left. exists st'. rewrite E'. replace (n - (tot + m)) with (n - tot - m) in Hc' by lia. split; [do 2 f_equal; lia|]. split; [|lia].
    replace (n - tot) with (m + (n - (tot + m))) by lia. eapply wrote_app; try done; lia.
  - right. by left.
  - right. right. replace (n - (tot + m)) with (n - tot - m) in Hbig by lia. split; [done | lia].
Qed.

(** ** The inode block *)

Lemma put_addrs_out m o l x : x < o \/ o + 4 * Z.of_nat (length l) <= x -> put_addrs m o l x = m x.
Proof.
  revert m o. induction l as [|a l IH]; intros m o Hx; simpl in *; [done|].
  rewrite IH by lia. apply st32_other. lia.
Qed.

(** Writing an inode changes its 64 bytes only. *)
Lemma dinode_put_out m o x i : length (i_addrs x) = 13%nat -> i < o \/ o + DINODE_SIZE <= i ->
  dinode_put m o x i = m i.
Proof.
  intros Hl Hi. unfold dinode_put, DINODE_SIZE in *. rewrite put_addrs_out by (rewrite Hl; lia).
  rewrite st32_other by lia. rewrite !st16_other by lia. done.
Qed.

Lemma IBLOCK_range inum : 0 <= inum < sb_ninodes sb ->
  sb_inodestart sb <= IBLOCK inum sb < sb_bmapstart sb.
Proof.
  intros Hi. pose proof (so_bmap _ Hsb). unfold IBLOCK.
  assert (0 <= inum / IPB <= sb_ninodes sb / IPB) by (split; [apply Z.div_pos; [lia|done]|apply Z.div_le_mono; [done|lia]]).
  lia.
Qed.

Lemma IBLOCK_not_owned st ip inum b : file_ok st ip -> 0 <= inum < sb_ninodes sb -> owns st ip b ->
  b <> IBLOCK inum sb.
Proof.
  intros Hf Hi Ho. pose proof (fo_range _ _ Hf b Ho) as Hr. rewrite data_start_eq in Hr by done.
  pose proof (IBLOCK_range inum Hi). lia.
Qed.

(** The same file in a state that differs elsewhere. *)
Record same_file (st st' : fs) (ip : nat) : Prop := {
  sf_addrs : i_addrs (inode_at st' ip) = i_addrs (inode_at st ip);
  sf_td b : owns st ip b -> td (fs_t st') b = td (fs_t st) b;
  sf_used b : 0 <= b < sb_size sb -> used sb (fs_t st') b = used sb (fs_t st) b;
  sf_len : length (fs_ic st') = length (fs_ic st)
}.

Section same_file.
Context (st st' : fs) (ip : nat) (Hf : file_ok st ip) (Hs : same_file st st' ip).

Lemma same_ind : ind st' ip = ind st ip.
Proof. unfold ind, addr. by rewrite (sf_addrs _ _ _ Hs). Qed.

Lemma same_fblock bn : 0 <= bn < MAXFILE -> fblock st' ip bn = fblock st ip bn.
Proof.
  intros Hb. destruct (Z.lt_ge_cases bn NDIRECT) as [Hd|Hd].
  - rewrite !fblock_direct by done. unfold addr. by rewrite (sf_addrs _ _ _ Hs).
  - rewrite !fblock_indirect, same_ind by done. destruct (Z.eqb_spec (ind st ip) 0); [done|].
    by rewrite (sf_td _ _ _ Hs) by by apply owns_ind.
Qed.

Lemma same_owns b : owns st' ip b <-> owns st ip b.
Proof.
  unfold owns. rewrite same_ind. split; intros [Hb [?|(bn & Hr & E)]]; split; auto;
    right; exists bn; split; try done; [by rewrite <- same_fblock|by rewrite same_fblock].
Qed.

Lemma same_file_ok : file_ok st' ip.
Proof.
  pose proof (sb_sizes sb Hsb) as [Hs1 Hs2]. pose proof (data_start_eq sb Hsb) as Hds. split.
  - rewrite (sf_len _ _ _ Hs). apply Hf.
  - rewrite (sf_addrs _ _ _ Hs). apply Hf.
  - intros b Hb. rewrite (sf_used _ _ _ Hs) by lia. by apply (fo_meta _ _ Hf).
  - intros b Ho%same_owns. by eapply fo_range.
  - intros b Ho%same_owns. destruct (owned_facts _ _ _ Hf Ho) as (? & ? & ?). by rewrite (sf_used _ _ _ Hs).
  - intros x y Hx Hy. rewrite !same_fblock by done. by apply (fo_inj _ _ Hf).
  - intros x Hx. rewrite same_fblock, same_ind by done. by apply (fo_ind _ _ Hf).
Qed.

Lemma same_content off : 0 <= off < MAXFILE * BSIZE -> content st' ip off = content st ip off.
Proof.
  intros Ho%off_block. unfold content. rewrite same_fblock by done.
  destruct (Z.eqb_spec (fblock st ip (off / BSIZE)) 0); [done|].
  by rewrite (sf_td _ _ _ Hs) by by apply owns_fblock.
Qed.
End same_file.

(** [ip->size = size; iupdate(ip);] *)
Lemma iupdate_size st ip size :
  logged (fs_t st) < log_cap sb -> file_ok st ip -> 0 <= i_inum (inode_at st ip) < sb_ninodes sb ->
  let ib := IBLOCK (i_inum (inode_at st ip)) sb in
  exists st', iupdate sb ip (set_inode st ip (set_size (inode_at st ip) size)) = Ok st' /\
    same_file st st' ip /\ inode_at st' ip = set_size (inode_at st ip) size /\
    (forall j, j <> ip -> inode_at st' j = inode_at st j) /\
    (forall b, b <> ib -> td (fs_t st') b = td (fs_t st) b) /\
    td (fs_t st') ib = dinode_put (td (fs_t st) ib) (dip_off (i_inum (inode_at st ip)))
                                  (set_size (inode_at st ip) size) /\
    tw (fs_t st') = {[ib]} ∪ tw (fs_t st).
Proof.
  intros Hroom Hf Hi ib. pose proof (IBLOCK_range _ Hi) as Hr. pose proof (sb_sizes sb Hsb) as [Hs1 Hs2].
  unfold iupdate. rewrite inode_at_set by apply Hf. cbn [i_inum set_size]. fold ib.
  rewrite tread_ok by (unfold ib in *; lia). cbn [rbind]. rewrite tlog_room by done. cbn [rbind]. eexists. split; [reflexivity|].
  assert (Hat : inode_at (mk_fs (tput (fs_t st) ib (dinode_put (td (fs_t st) ib)
      (dip_off (i_inum (inode_at st ip))) (set_size (inode_at st ip) size)))
      (<[ip:=set_size (inode_at st ip) size]> (fs_ic st))) ip = set_size (inode_at st ip) size)
    by apply (inode_at_set st ip _ (fo_ip _ _ Hf)).
  split_and!.
  - split.
    + exact (f_equal i_addrs Hat).
    + intros b Ho. simpl. apply dset_ne. by eapply IBLOCK_not_owned.
    + intros b Hb. simpl. apply used_tput; [|done]. unfold ib in *. lia.
    + simpl. apply length_insert.
  - exact Hat.
  - intros j Hj. exact (inode_at_set_ne st ip _ j Hj).
  - intros b Hb. simpl. by apply dset_ne.
  - simpl. apply dset_eq.
  - done.
Qed.

(** ** writei *)

Record writei_done (st st' : fs) (ip : nat) (src : mem) (s off n : Z) : Prop := {
  wd_ok : file_ok st' ip;
  wd_holes : no_holes st' ip;
  wd_size : i_size (inode_at st' ip) =
            if 0 <? n then Z.max (i_size (inode_at st ip)) (off + n) else i_size (inode_at st ip);
  wd_meta : set_size (meta_of (inode_at st' ip)) 0 = set_size (meta_of (inode_at st ip)) 0;
  wd_content o : 0 <= o < MAXFILE * BSIZE ->
    content st' ip o = if (off <=? o) && (o <? off + n) then src (s + (o - off)) else content st ip o;
  wd_blocks b : 0 <= b < sb_size sb -> b <> sb_bmapstart sb -> b <> IBLOCK (i_inum (inode_at st ip)) sb ->
    used sb (fs_t st) b = true -> ~ owns st ip b ->
    td (fs_t st') b = td (fs_t st) b /\ used sb (fs_t st') b = true /\ ~ owns st' ip b;
  wd_inodes j : j <> ip -> inode_at st' j = inode_at st j;
  wd_dinodes i : i < dip_off (i_inum (inode_at st ip)) \/
                 dip_off (i_inum (inode_at st ip)) + DINODE_SIZE <= i ->
    td (fs_t st') (IBLOCK (i_inum (inode_at st ip)) sb) i = td (fs_t st) (IBLOCK (i_inum (inode_at st ip)) sb) i;
  wd_tw b : b ∈ tw (fs_t st') ->
    b ∈ tw (fs_t st) \/ b = IBLOCK (i_inum (inode_at st ip)) sb \/ write_set st' ip off n b;
  wd_len : length (fs_ic st') = length (fs_ic st)
}.

Lemma meta_eq x y : meta_of x = meta_of y ->
  i_inum x = i_inum y /\ i_size x = i_size y /\ i_type x = i_type y /\ i_dev x = i_dev y.
Proof. unfold meta_of, set_addrs. intros [= ]. done. Qed.

Lemma no_holes_write st st' ip src s off n size :
  wrote_file st st' ip src s off n -> no_holes st ip -> 0 <= off <= i_size (inode_at st ip) ->
  off + n <= MAXFILE * BSIZE -> i_size (inode_at st ip) <= MAXFILE * BSIZE ->
  size <= Z.max (i_size (inode_at st ip)) (off + n) ->
  forall bn, 0 <= bn -> bn * BSIZE < size -> fblock st' ip bn <> 0.
Proof.
  intros Hw Hh Ho Hmax Hsz Hs bn Hb Hlt. assert (0 <= bn < MAXFILE) by (unfold BSIZE in *; lia).
  destruct (Z.lt_ge_cases (bn * BSIZE) (i_size (inode_at st ip))) as [Hold|Hnew].
  - pose proof (Hh bn Hb Hold) as Hnz. by rewrite (wf_mono _ _ _ _ _ _ _ Hw).
  - pose proof (wf_mapped _ _ _ _ _ _ _ Hw (bn * BSIZE) ltac:(lia)) as Hm.
    by rewrite Z.div_mul in Hm.
Qed.

Lemma frame_inode_block st st' ip inum : file_ok st ip -> frame_ok st st' ip -> 0 <= inum < sb_ninodes sb ->
  td (fs_t st') (IBLOCK inum sb) = td (fs_t st) (IBLOCK inum sb).
Proof.
  intros Hf Hfr Hi. pose proof (IBLOCK_range _ Hi) as Hr. pose proof (sb_sizes sb Hsb) as [Hs1 Hs2].
  pose proof (data_start_eq sb Hsb) as Hds. pose proof (so_log _ Hsb). pose proof (so_inode _ Hsb).
  apply Hfr; try lia.
  - apply (fo_meta _ _ Hf). lia.
  - intros Ho. by apply (IBLOCK_not_owned st ip inum (IBLOCK inum sb)) in Ho.
Qed.

Section writei_finish.
Context (st st1 : fs) (ip : nat) (src : mem) (s off n : Z).
Context (Hf : file_ok st ip) (Hw : wrote_file st st1 ip src s off n) (Hh : no_holes st ip).
Context (Ho : 0 <= off <= i_size (inode_at st ip)) (Hn : 0 <= n) (Hmax : off + n <= MAXFILE * BSIZE).
Context (Hsz : i_size (inode_at st ip) <= MAXFILE * BSIZE).
Context (Hin : 0 <= i_inum (inode_at st ip) < sb_ninodes sb).

(** The write stays inside the file. *)
Lemma writei_inside : n = 0 \/ off + n <= i_size (inode_at st ip) -> writei_done st st1 ip src s off n.
Proof.
  intros Hns. pose proof (meta_eq _ _ (wf_meta _ _ _ _ _ _ _ Hw)) as (Ei & Es & _ & _).
  pose proof Hw as [W1 W2 W3 W4 W5 W6 W7 W8]. split; try done.
  - intros bn Hb Hlt. rewrite Es in Hlt. eapply (no_holes_write st st1); try done. lia.
  - rewrite Es. zcases.
  - by rewrite W4.
  - intros b Hb Hbm _ Hu Hno. by apply (fr_td _ _ _ W3).
  - intros j Hj. by apply W3.
  - intros i Hi. by rewrite (frame_inode_block st st1 ip) by done.
  - intros b Hb. destruct (W8 b Hb); [by left|by right; right].
  - apply W3.
Qed.

(** The write extends the file, and the new size goes to the disk. *)
Lemma writei_extends : logged (fs_t st1) < log_cap sb -> 0 < n -> i_size (inode_at st ip) < off + n ->
  exists st', iupdate sb ip (set_inode st1 ip (set_size (inode_at st1 ip) (off + n))) = Ok st' /\
    writei_done st st' ip src s off n.
Proof.
  intros Hroom Hpos Hg. pose proof (meta_eq _ _ (wf_meta _ _ _ _ _ _ _ Hw)) as (Ei & Es & _ & _).
  pose proof Hw as [W1 W2 W3 W4 W5 W6 W7 W8].
  destruct (iupdate_size st1 ip (off + n) Hroom W1) as (st' & E & Hsf & Hat & Hoth & Htd & Hib & Htw);
    [by rewrite Ei|].
  rewrite Ei in *. exists st'. split; [done|].
  assert (HB : forall bn, 0 <= bn < MAXFILE -> fblock st' ip bn = fblock st1 ip bn)
    by (intros bn Hb; by eapply same_fblock).
  split.
  - by eapply same_file_ok.
  - intros bn Hb Hlt. rewrite Hat in Hlt. simpl in Hlt. rewrite HB by (unfold BSIZE in *; lia).
    eapply (no_holes_write st st1); try done. lia.
  - rewrite Hat, (proj2 (Z.ltb_lt _ _)) by done. simpl. lia.
  - rewrite Hat. rewrite <- W4. done.
  - intros o Hoo. erewrite same_content by done. by apply W2.
  - intros b Hb Hbm Hbi Hu Hno. destruct (fr_td _ _ _ W3 b Hb Hbm Hu Hno) as (T & U & N).
    rewrite Htd, (sf_used _ _ _ Hsf) by done. split_and!; try done. by erewrite same_owns.
  - intros j Hj. rewrite Hoth by done. by apply W3.
  - intros i Hi. rewrite Hib, dinode_put_out; [|apply W1|done].
    by rewrite (frame_inode_block st st1 ip) by done.
  - intros b Hb. rewrite Htw in Hb. apply elem_of_union in Hb as [->%elem_of_singleton|Hb]; [right; by left|].
    destruct (W8 b Hb) as [?|Hs]; [by left|right; right]. unfold write_set in *.
    rewrite (same_ind st1 st' ip Hsf). destruct Hs as [?|[?|(o & Hoo & ->)]]; [by left|right; by left|right; right].
    exists o. split; [done|]. rewrite HB; [done|]. apply off_block. lia.
  - rewrite (sf_len _ _ _ Hsf). apply W3.
Qed.

(** Without room the new size cannot be logged. *)
Lemma writei_no_room : log_cap sb <= logged (fs_t st1) ->
  let upd := if (0 <? n) && (i_size (inode_at st1 ip) <? off + n) then iupdate sb ip (set_inode st1 ip (set_size (inode_at st1 ip) (off + n))) else Ok st1 in
  upd = Panic "too big a transaction" \/ (upd = Ok st1 /\ writei_done st st1 ip src s off n).
Proof.
  intros Hroom upd. pose proof (meta_eq _ _ (wf_meta _ _ _ _ _ _ _ Hw)) as (Ei & Es & _ & _). unfold upd. rewrite Es.
  destruct (Z.ltb_spec 0 n) as [Hpos|Hz]; cbn [andb]; [|right; split; [done | apply writei_inside; lia]].
  destruct (Z.ltb_spec (i_size (inode_at st ip)) (off + n)) as [Hg|Hg]; [left | right; split; [done | apply writei_inside; lia]].
  unfold iupdate. rewrite inode_at_set by apply Hw. cbn [i_inum set_size]. rewrite Ei. pose proof (IBLOCK_range _ Hin). pose proof (sb_sizes sb Hsb) as [? ?].
  rewrite tread_ok by lia. cbn [rbind]. set (x := dinode_put _ _ _). change (fs_t (set_inode st1 ip (set_size (inode_at st1 ip) (off + n)))) with (fs_t st1).
  destruct (tlog_cases sb (fs_t st1) (IBLOCK (i_inum (inode_at st ip)) sb) x) as [[? _]|[_ ->]]; [lia | done].
Qed.
End writei_finish.

(** [writei] of an ordinary file or directory, on all its branches. *)
Lemma writei_ok st ip src s off n :
  file_ok st ip -> no_holes st ip -> i_type (inode_at st ip) <> T_DEV ->
  0 <= i_inum (inode_at st ip) < sb_ninodes sb ->
  0 <= i_size (inode_at st ip) <= MAXFILE * BSIZE -> 0 <= off < 2 ^ 32 -> 0 <= n < 2 ^ 32 ->
  if (i_size (inode_at st ip) <? off) || (MAXFILE * BSIZE <? off + n)
  then writei sb dev_write ip src s off n st = Ok (-1, st)
  else
    (exists st', writei sb dev_write ip src s off n st = Ok (n, st') /\ writei_done st st' ip src s off n) \/
    writei sb dev_write ip src s off n st = Panic "balloc: out of blocks" \/
    (writei sb dev_write ip src s off n st = Panic "too big a transaction" /\ log_cap sb <= logged (fs_t st) + 2 + touched off n).
Proof.
  intros Hf Hh Ht Hin Hs Ho Hn. assert (HM : MAXFILE * BSIZE = 71680) by done.
  unfold writei. rewrite (proj2 (Z.eqb_neq _ _)) by done.
  destruct (Z.ltb_spec (i_size (inode_at st ip)) off) as [|Hle]; [done|]. cbn [orb].
  destruct (Z.leb_spec (2 ^ 32) (off + n)) as [Hov|Hov].
  { assert (u32 (off + n) = off + n - 2 ^ 32) as -> by (unfold u32; symmetry; apply (Z.mod_unique _ _ 1); lia).
    rewrite (proj2 (Z.ltb_lt (MAXFILE * BSIZE) _)), (proj2 (Z.ltb_lt (off + n - 2 ^ 32) off)) by lia. done. }
  rewrite !u32_small by lia. rewrite (proj2 (Z.ltb_ge (off + n) off)) by lia.
  destruct (Z.ltb_spec (MAXFILE * BSIZE) (off + n)) as [|Hmax]; [done|].
  pose proof (logged_cost st ip) as Hlc.
  destruct (writei_loop_ok (passes off n) ip src s off 0 n st) as [(st1 & E & Hw & Hc)|[E|[E Hbig]]]; try lia; try done.
  { replace (n - 0) with n by lia. apply enough_passes. lia. }
  - replace (n - 0) with n in * by lia. rewrite E. cbn [rbind]. pose proof (logged_cost st1 ip) as Hlc1.
    destruct (Z.lt_ge_cases (logged (fs_t st1)) (log_cap sb)) as [Hroom|Hroom].
    2: { destruct (writei_no_room st st1 ip src s off n Hf Hw Hh ltac:(lia) ltac:(lia) Hmax ltac:(lia) Hin Hroom) as [->|[-> Hd]]; cbn [rbind].
         - right. right. split; [done | lia].
         - left. exists st1. rewrite s32_small by lia. done. }
    left. pose proof (meta_eq _ _ (wf_meta _ _ _ _ _ _ _ Hw)) as (_ & -> & _ & _).
    destruct (Z.ltb_spec 0 n) as [Hpos|Hz]; cbn [andb];
      [destruct (Z.ltb_spec (i_size (inode_at st ip)) (off + n)) as [Hg|Hg]|].
    + destruct (writei_extends st st1 ip src s off n) as (st' & E' & Hd); try done; try lia.
      rewrite E'. cbn [rbind]. exists st'. rewrite s32_small by lia. done.
    + cbn [rbind]. exists st1. rewrite s32_small by lia. split; [done|].
      apply writei_inside; try done; lia.
    + cbn [rbind]. exists st1. rewrite s32_small by lia. split; [done|].
      apply writei_inside; try done; lia.
  - rewrite E. right. by left.
  - rewrite E. right. right. split; [done|]. replace (n - 0) with n in Hbig by lia. lia.
Qed.

(** ** Properties *)

(** C28: [readi] on every branch, for a well-formed file without holes: an offset
    past the end or an overflowing range returns -1 and copies nothing;
    otherwise it returns the number of bytes up to the end of the file and
    copies exactly those bytes of the file's content, changing nothing else. *)
Theorem readi_spec st ip dst d off n :
  file_ok st ip -> no_holes st ip -> i_type (inode_at st ip) <> T_DEV ->
  0 <= i_size (inode_at st ip) <= MAXFILE * BSIZE -> 0 <= off < 2 ^ 32 -> 0 <= n < 2 ^ 32 ->
  let size := i_size (inode_at st ip) in
  if (size <? off) || (2 ^ 32 <=? off + n) then readi sb dev_read ip dst d off n st = Ok (-1, dst, st)
  else
    let r := Z.min n (size - off) in
    exists dst', readi sb dev_read ip dst d off n st = Ok (r, dst', st) /\
      forall x, dst' x = if (d <=? x) && (x <? d + r) then content st ip (off + (x - d)) else dst x.
Proof. apply readi_ok. Qed.


(** Reading back: after [writei] returned [n], [readi] of the same range
    returns [n] and the bytes written. *)
Theorem writei_readi st st' ip src s off n dst d :
  file_ok st ip -> no_holes st ip -> i_type (inode_at st ip) <> T_DEV ->
  0 <= i_inum (inode_at st ip) < sb_ninodes sb ->
  0 <= i_size (inode_at st ip) <= MAXFILE * BSIZE -> 0 <= off < 2 ^ 32 -> 0 <= n < 2 ^ 32 ->
  writei sb dev_write ip src s off n st = Ok (n, st') ->
  exists dst', readi sb dev_read ip dst d off n st' = Ok (n, dst', st') /\
    forall i, 0 <= i < n -> dst' (d + i) = src (s + i).
Proof.
  intros Hf Hh Ht Hin Hs Ho Hn E. assert (HM : MAXFILE * BSIZE = 71680) by done.
  pose proof (writei_ok st ip src s off n Hf Hh Ht Hin Hs Ho Hn) as Hw.
  destruct (Z.ltb_spec (i_size (inode_at st ip)) off); [cbn [orb] in Hw; rewrite E in Hw; simplify_eq; lia|].
  cbn [orb] in Hw.
  destruct (Z.ltb_spec (MAXFILE * BSIZE) (off + n)); [rewrite E in Hw; simplify_eq; lia|].
  destruct Hw as [(st2 & E2 & Hd)|[E2|[E2 _]]]; rewrite E2 in E; simplify_eq.
  assert (Hsz : i_size (inode_at st' ip) = Z.max (i_size (inode_at st ip)) (off + n))
    by (rewrite (wd_size _ _ _ _ _ _ _ Hd); zcases).
  assert (Ht' : i_type (inode_at st' ip) = i_type (inode_at st ip))
    by (pose proof (wd_meta _ _ _ _ _ _ _ Hd) as [= ]; done).
  pose proof (readi_ok st' ip dst d off n (wd_ok _ _ _ _ _ _ _ Hd) (wd_holes _ _ _ _ _ _ _ Hd)) as Hr.
  rewrite Ht', Hsz in Hr. specialize (Hr Ht ltac:(lia) Ho Hn). cbv zeta in Hr.
  rewrite (proj2 (Z.ltb_ge (Z.max _ _) off)), (proj2 (Z.leb_gt _ _)) in Hr by lia. cbn [orb] in Hr.
  rewrite Z.min_l in Hr by lia. destruct Hr as (dst' & Er & Hx). exists dst'. split; [done|].
  intros i Hi. rewrite Hx, (wd_content _ _ _ _ _ _ _ Hd) by lia. zcases; f_equal; lia.
Qed.

(** ** Log space *)

Definition range_blocks (st : fs) (ip : nat) (off : Z) (k : nat) : list Z :=
  map (fun i => fblock st ip (off / BSIZE + Z.of_nat i)) (seq 0 k).

Lemma range_blocks_in st ip off n o : 0 <= off -> off <= o < off + n -> 
  fblock st ip (o / BSIZE) ∈ range_blocks st ip off (Z.to_nat ((off mod BSIZE + n - 1) / BSIZE + 1)).
Proof.
  clear dev_read dev_write. intros Ho Hoo. apply list_elem_of_In, in_map_iff. exists (Z.to_nat (o / BSIZE - off / BSIZE)).
  assert (off / BSIZE <= o / BSIZE <= off / BSIZE + (off mod BSIZE + n - 1) / BSIZE).
  { split; [apply div_le_block; lia|]. unfold BSIZE. zdiv. }
  rewrite Z2Nat.id by lia. split; [f_equal; lia|]. apply in_seq. lia.
Qed.

Lemma size_list_to_set_le (l : list Z) : (size (list_to_set l : gset Z) <= length l)%nat.
Proof.
  induction l as [|x l IH]; [done|]. rewrite list_to_set_cons. simpl length.
  pose proof (size_union_alt ({[x]} : gset Z) (list_to_set l)) as H. rewrite size_singleton in H.
  pose proof (subseteq_size (list_to_set l ∖ {[x]}) (list_to_set l : gset Z) ltac:(set_solver)). lia.
Qed.

(** What a write adds to the log: the blocks of the range and three more. *)
Lemma done_logged st st' ip src s off n : 0 <= off -> writei_done st st' ip src s off n ->
  logged (fs_t st') <= logged (fs_t st) + 3 + touched off n.
Proof.
  clear dev_read dev_write. intros Ho Hd. set (k := Z.to_nat (touched off n)).
  set (l := IBLOCK (i_inum (inode_at st ip)) sb :: sb_bmapstart sb :: ind st' ip :: range_blocks st' ip off k).
  assert (Hsub : tw (fs_t st') ⊆ tw (fs_t st) ∪ list_to_set l).
  { intros b Hb. apply (wd_tw _ _ _ _ _ _ _ Hd) in Hb. apply elem_of_union. destruct Hb as [Hb|Hb]; [by left|right].
    apply elem_of_list_to_set. destruct Hb as [->|[->|[[_ ->]|(o & Hoo & ->)]]]; unfold l; [left | right; left | do 2 right; left|].
    do 3 right. unfold k, touched. destruct (Z.leb_spec n 0); [lia|]. by apply range_blocks_in. }
  apply subseteq_size in Hsub. pose proof (size_union_le (tw (fs_t st)) (list_to_set l)) as Hu. pose proof (size_list_to_set_le l) as Hle.
  assert (Hlen : length l = (3 + k)%nat) by (unfold l, range_blocks; cbn [length]; rewrite length_map, length_seq; lia).
  pose proof (touched_nonneg off n). unfold logged, k in *. lia.
Qed.

(** The log space of one write: a call of [writei] with at most three blocks
    of data, the most that filewrite passes, logs at most [MAXOPBLOCKS] blocks,
    which is what [begin_op] reserved. *)
Theorem writei_log_budget st st' ip src s off n :
  file_ok st ip -> no_holes st ip -> i_type (inode_at st ip) <> T_DEV ->
  0 <= i_inum (inode_at st ip) < sb_ninodes sb ->
  0 <= i_size (inode_at st ip) <= MAXFILE * BSIZE -> 0 <= off < 2 ^ 32 ->
  0 <= n <= 3 * BSIZE -> tw (fs_t st) = ∅ ->
  writei sb dev_write ip src s off n st = Ok (n, st') ->
  Z.of_nat (size (tw (fs_t st'))) <= MAXOPBLOCKS.
Proof.
  clear dev_read. intros Hf Hh Ht Hin Hs Ho Hn Hz E.
  pose proof (writei_ok st ip src s off n Hf Hh Ht Hin Hs Ho ltac:(unfold BSIZE in *; lia)) as Hw.
  destruct (_ || _); [rewrite E in Hw; simplify_eq; lia|].
  destruct Hw as [(st2 & E2 & Hd)|[E2|[E2 _]]]; rewrite E2 in E; simplify_eq.
  pose proof (done_logged st st' ip src s off n ltac:(lia) Hd) as Hl. unfold logged in Hl. rewrite Hz, size_empty in Hl.
  assert (touched off n <= 4) by (unfold touched, BSIZE in *; destruct (Z.leb_spec n 0); zdiv). unfold MAXOPBLOCKS. lia.
Qed.

End file.

(** Witnesses: a disk whose block 59 is the only block of the file in cache slot 0. *)
Definition wit_fs (type size : Z) (data : mem) (rest : list inode) : fs :=
  mk_fs (mk_td (dset (dset (fun _ _ => 0) 58 (fun i => if i <? 7 then 255 else if i =? 7 then 15 else 0))
                     59 data) ∅)
        (mk_inode 1 5 1 true true type 0 0 1 size (59 :: repeat 0 12) :: rest).

Section wit.
Context (type size : Z) (data : mem) (rest : list inode).
Abbreviation st := (wit_fs type size data rest).

Lemma wit_fblock bn : fblock st 0 bn = if bn <=? 0 then (if bn <? NDIRECT then 59 else 0) else 0.
Proof.
  unfold fblock. change (ind st 0) with 0. simpl. destruct (Z.ltb_spec bn NDIRECT) as [H|H].
  - unfold addr. simpl. destruct (Z.leb_spec bn 0) as [H0|H0].
    + by replace (Z.to_nat bn) with 0%nat by lia.
    + unfold NDIRECT in H. assert (bn = 1 \/ bn = 2 \/ bn = 3 \/ bn = 4 \/ bn = 5 \/ bn = 6 \/ bn = 7 \/ bn = 8 \/
        bn = 9 \/ bn = 10 \/ bn = 11) as Hb by lia.
      by repeat destruct Hb as [->|Hb]; [..|subst].
  - unfold NDIRECT in *. rewrite (proj2 (Z.leb_gt _ _)) by lia. done.
Qed.

Lemma wit_owns b : owns st 0 b -> b = 59.
Proof.
  intros [Hb [->|(bn & Hr & <-)]]; [done|]. rewrite wit_fblock in *. by repeat case_match.
Qed.

Lemma wit_file_ok : file_ok mkfs_sb st 0.
Proof.
  assert (Hu : forall b, 0 <= b <= 59 -> used mkfs_sb (fs_t st) b = true).
  { intros b Hb. rewrite (used_bit mkfs_sb mkfs_sb_ok) by (simpl; lia). unfold bit. simpl.
    unfold dset. simpl.
    assert (Hd : b / 8 < 7 \/ (b / 8 = 7 /\ b mod 8 < 4)) by zdiv.
    assert (0 <= b mod 8 < 8) by (apply Z.mod_pos_bound; lia).
    destruct Hd as [Hd|[Hd Hm]].
    - rewrite (proj2 (Z.ltb_lt _ _)) by done. apply (Z.ones_spec_low 8). lia.
    - rewrite Hd. apply (Z.ones_spec_low 4). lia. }
  pose proof (data_start_eq mkfs_sb mkfs_sb_ok) as Hds. simpl in Hds. split.
  - simpl. lia.
  - done.
  - intros b Hb. apply Hu. lia.
  - intros b ->%wit_owns. rewrite Hds. simpl. lia.
  - intros b ->%wit_owns. apply Hu. lia.
  - intros x y Hx Hy. rewrite !wit_fblock. zcases; intros; try done; lia.
  - intros x Hx. rewrite wit_fblock. change (ind st 0) with 0. done.
Qed.

Lemma wit_no_holes : size <= BSIZE -> no_holes st 0.
Proof.
  intros Hs bn Hb Hlt. rewrite wit_fblock. simpl in Hlt. unfold BSIZE, NDIRECT in *. zcases.
Qed.
End wit.

Definition wit_file : fs := wit_fs T_FILE 3 (fun i => if i <? 3 then 65 + i else 0) [].

Definition no_dev {A : Type} (major : Z) : option A := None.

Lemma readi_spec_witness :
  exists dst', readi mkfs_sb no_dev 0 (fun _ => 0) 100 1 5 wit_file = Ok (2, dst', wit_file) /\
    forall x, dst' x = if (100 <=? x) && (x <? 102) then content wit_file 0 (1 + (x - 100)) else 0.
Proof.
  apply (readi_spec mkfs_sb mkfs_sb_ok no_dev wit_file 0 (fun _ => 0) 100 1 5).
  - apply wit_file_ok.
  - by apply wit_no_holes.
  - done.
  - vm_compute. split; congruence.
  - lia.
  - lia.
Defined.


Lemma writei_readi_witness :
  exists st', writei mkfs_sb no_dev 0 (fun i => i mod 256) 0 1 600 wit_file = Ok (600, st') /\
  exists dst', readi mkfs_sb no_dev 0 (fun _ => 0) 7 1 600 st' = Ok (600, dst', st') /\
    forall i, 0 <= i < 600 -> dst' (7 + i) = (0 + i) mod 256.
Proof.
  eexists. split; [vm_compute; reflexivity|].
  eapply (writei_readi mkfs_sb mkfs_sb_ok no_dev no_dev wit_file _ 0 (fun i => i mod 256) 0 1 600).
  - apply wit_file_ok.
  - by apply wit_no_holes.
  - done.
  - simpl. lia.
  - vm_compute. split; congruence.
  - lia.
  - lia.
  - vm_compute. reflexivity.
Defined.

Lemma writei_log_budget_witness :
  exists st', writei mkfs_sb no_dev 0 (fun i => i mod 256) 0 1 600 wit_file = Ok (600, st') /\
  Z.of_nat (size (tw (fs_t st'))) <= MAXOPBLOCKS.
Proof.
  eexists. split; [vm_compute; reflexivity|].
  eapply (writei_log_budget mkfs_sb mkfs_sb_ok no_dev wit_file _ 0 (fun i => i mod 256) 0 1 600).
  - apply wit_file_ok.
  - by apply wit_no_holes.
  - done.
  - simpl. lia.
  - vm_compute. split; congruence.
  - lia.
  - unfold BSIZE. lia.
  - reflexivity.
  - vm_compute. reflexivity.
Defined.
