(* ===== verification/FsDir.v ===== *)
(** * Inodes on disk, inode cache, directories and paths (src/fs.c: iupdate, ilock,
    iget, dirlookup, dirlink, skipelem)

    The round trip of an inode through its disk block, the inode cache as a
    partial map from inode numbers to entries, directories as sequences of
    entries, and the path parser against the list of the path's path_elems. *)

From S2P Require Import Prelude Layout StringLib Blocks Balloc Fs FsFile.

(** ** Inodes on disk *)

Lemma s16_u16 z : - 2 ^ 15 <= z < 2 ^ 15 -> s16 (u16 z) = z.
Proof.
  intros H. unfold s16. assert (E : u16 (u16 z) = u16 z) by (unfold u16; by rewrite Z.mod_mod).
  rewrite E. unfold u16. destruct (Z.le_gt_cases 0 z).
  - rewrite Z.mod_small by lia. zcases.
  - assert (z mod 2 ^ 16 = z + 2 ^ 16) as -> by (symmetry; apply (Z.mod_unique _ _ (-1)); lia). zcases.
Qed.

Lemma ld16_put_addrs m o l x : x + 2 <= o -> ld16 (put_addrs m o l) x = ld16 m x.
Proof. intros H. apply ld16_ext. intros y Hy. apply put_addrs_out. lia. Qed.

Lemma ld32_put_addrs_lo m o l x : x + 4 <= o -> ld32 (put_addrs m o l) x = ld32 m x.
Proof. intros H. apply ld32_ext. intros y Hy. apply put_addrs_out. lia. Qed.

Lemma ld16_st32_other m a v b : b + 2 <= a \/ a + 4 <= b -> ld16 (st32 m a v) b = ld16 m b.
Proof. intros H. apply ld16_ext. intros x Hx. apply st32_other. lia. Qed.

Lemma ld32_st16_other m a v b : b + 4 <= a \/ a + 2 <= b -> ld32 (st16 m a v) b = ld32 m b.
Proof. intros H. apply ld32_ext. intros x Hx. apply st16_other. lia. Qed.

Lemma ld32_put_addrs m o l i : (i < length l)%nat ->
  ld32 (put_addrs m o l) (o + 4 * Z.of_nat i) = u32 (nth i l 0).
Proof.
  revert m o i. induction l as [|a l IH]; intros m o i Hi; simpl in *; [lia|].
  destruct i as [|i].
  - rewrite Z.mul_0_r, Z.add_0_r, ld32_put_addrs_lo by lia. apply ld32_st32_same.
  - replace (o + 4 * Z.of_nat (S i)) with (o + 4 + 4 * Z.of_nat i) by lia. apply IH. lia.
Qed.

Lemma get_put_addrs m o l : length l = 13%nat -> Forall (fun a => 0 <= a < 2 ^ 32) l ->
  get_addrs (put_addrs m o l) o = l.
Proof.
  intros Hl Ha. unfold get_addrs. change (Z.to_nat (NDIRECT + 1)) with 13%nat. rewrite <- Hl.
  apply (nth_ext _ _ 0 0); [by rewrite length_map, length_seq|]. intros i Hi.
  rewrite length_map, length_seq in Hi.
  rewrite (nth_indep _ 0 ((fun j => ld32 (put_addrs m o l) (o + 4 * Z.of_nat j)) 0%nat))
    by (rewrite length_map, length_seq; lia).
  rewrite (map_nth (fun j => ld32 (put_addrs m o l) (o + 4 * Z.of_nat j))), seq_nth by lia.
  rewrite Nat.add_0_l, ld32_put_addrs by done. apply u32_small.
  rewrite Forall_forall in Ha. apply Ha. apply list_elem_of_In, nth_In. done.
Qed.

(** The values an inode can have on disk. *)
Record disk_inode (x : inode) : Prop := {
  di_type : - 2 ^ 15 <= i_type x < 2 ^ 15;
  di_major : - 2 ^ 15 <= i_major x < 2 ^ 15;
  di_minor : - 2 ^ 15 <= i_minor x < 2 ^ 15;
  di_nlink : - 2 ^ 15 <= i_nlink x < 2 ^ 15;
  di_size : 0 <= i_size x < 2 ^ 32;
  di_len : length (i_addrs x) = 13%nat;
  di_addrs : Forall (fun a => 0 <= a < 2 ^ 32) (i_addrs x)
}.

Lemma dinode_roundtrip m o x y : disk_inode x ->
  dinode_get (dinode_put m o x) o y =
  mk_inode (i_dev y) (i_inum y) (i_ref y) (i_locked y) (i_valid y)
    (i_type x) (i_major x) (i_minor x) (i_nlink x) (i_size x) (i_addrs x).
Proof.
  intros [H1 H2 H3 H4 H5 H6 H7]. unfold dinode_get, dinode_put.
  rewrite !ld16_put_addrs, ld32_put_addrs_lo, get_put_addrs by (done || lia).
  rewrite !ld16_st32_other by lia. rewrite ld32_st32_same, u32_small by lia.
  repeat first [rewrite ld16_st16_same | rewrite ld16_st16_other by lia].
  by rewrite !s16_u16.
Qed.

Section inodes.
Context (sb : superblock) (Hsb : sb_ok sb).

(** The inode cache is write-through: after [iupdate] of an inode, locking
    any unlocked cache entry for the same inode number whose data is not valid
    reads back exactly the type, device numbers, link count, size and block
    addresses that were written. *)
Theorem iupdate_ilock (st st1 : fs) (ip jp : nat) :
  disk_inode (inode_at st ip) -> 0 <= i_inum (inode_at st ip) < sb_ninodes sb ->
  i_type (inode_at st ip) <> 0 ->
  iupdate sb ip st = Ok st1 -> (jp < length (fs_ic st))%nat ->
  i_inum (inode_at st jp) = i_inum (inode_at st ip) -> 0 < i_ref (inode_at st jp) ->
  i_locked (inode_at st jp) = false -> i_valid (inode_at st jp) = false ->
  exists st2, ilock sb jp st1 = Ok st2 /\
    let x := inode_at st ip in let y := inode_at st jp in
    inode_at st2 jp = mk_inode (i_dev y) (i_inum y) (i_ref y) true true
      (i_type x) (i_major x) (i_minor x) (i_nlink x) (i_size x) (i_addrs x).
Proof.
  intros Hd Hi Ht E Hj Ej Hr Hl Hv. unfold iupdate in E.
  pose proof (IBLOCK_range sb Hsb _ Hi) as Hib. pose proof (sb_sizes sb Hsb) as [Hs1 Hs2].
  rewrite tread_ok in E by lia. cbn [rbind] in E. apply rbind_Ok_inv in E as (t & Et & [= <-]).
  assert (t = tput (fs_t st) (IBLOCK (i_inum (inode_at st ip)) sb) (dinode_put (td (fs_t st) (IBLOCK (i_inum (inode_at st ip)) sb)) (dip_off (i_inum (inode_at st ip))) (inode_at st ip))) as ->
    by (destruct (tlog_cases sb (fs_t st) (IBLOCK (i_inum (inode_at st ip)) sb) (dinode_put (td (fs_t st) (IBLOCK (i_inum (inode_at st ip)) sb)) (dip_off (i_inum (inode_at st ip))) (inode_at st ip))) as [[_ E1]|[_ E1]]; congruence).
  clear Et. unfold ilock.
  change (inode_at (mk_fs _ (fs_ic st)) jp) with (inode_at st jp).
  rewrite (proj2 (Z.ltb_ge _ _)) by lia. rewrite Hl. cbn [i_valid set_ilock]. rewrite Hv.
  cbn [i_inum set_ilock]. rewrite Ej, tread_ok by lia. cbn [rbind fs_t td tput]. rewrite dset_eq.
  rewrite dinode_roundtrip by done. cbn [set_valid i_type].
  rewrite (proj2 (Z.eqb_neq _ _)) by done. eexists. split; [reflexivity|]. cbv zeta.
  rewrite inode_at_set by done. unfold set_valid. cbn. by rewrite Ej.
Qed.

End inodes.

(** ** The inode cache *)

Definition live_for (dev inum : Z) (x : inode) : bool :=
  (0 <? i_ref x) && (i_dev x =? dev) && (i_inum x =? inum).

(** At most one entry per inode in use. *)
Definition icache_ok (st : fs) : Prop :=
  (forall i, (i < length (fs_ic st))%nat -> 0 <= i_ref (inode_at st i)) /\
  forall i j dev inum, (i < length (fs_ic st))%nat -> (j < length (fs_ic st))%nat ->
    live_for dev inum (inode_at st i) = true -> live_for dev inum (inode_at st j) = true -> i = j.

(** What the scan found, over the entries [l] that start at index [i]. *)
Lemma iget_scan_spec l i dev inum e :
  match iget_scan l i dev inum e with
  | (Some k, _) => (i <= k < i + length l)%nat /\ live_for dev inum (nth (k - i) l no_inode) = true
  | (None, e') =>
      (forall k, (k < length l)%nat -> live_for dev inum (nth k l no_inode) = false) /\
      match e' with
      | Some k => e = Some k \/ (i <= k < i + length l)%nat /\ i_ref (nth (k - i) l no_inode) = 0
      | None => e = None /\ forall k, (k < length l)%nat -> i_ref (nth k l no_inode) <> 0
      end
  end.
Proof.
  revert i e. induction l as [|x l IH]; intros i e; simpl.
  { split; [intros; lia|]. destruct e; [by left|]. split; [done|intros; lia]. }
  fold (live_for dev inum x). destruct (live_for dev inum x) eqn:E; [rewrite Nat.sub_diag; split; [lia|done]|].
  set (e1 := match e with Some _ => _ | None => _ end). specialize (IH (S i) e1).
  destruct (iget_scan l (S i) dev inum e1) as [[k|] e'].
  - destruct IH as [Hk Hl]. split; [lia|]. replace (k - i)%nat with (S (k - S i)) by lia. done.
  - destruct IH as [Hn He]. split.
    + intros [|k] Hk; [done|]. apply Hn. lia.
    + destruct e' as [k|].
      * destruct He as [He|[Hk Hz]].
        -- unfold e1 in He. destruct e as [e|]; [by left|]. destruct (Z.eqb_spec (i_ref x) 0); [|done].
           simplify_eq. right. rewrite Nat.sub_diag. split; [lia|done].
        -- right. split; [lia|]. replace (k - i)%nat with (S (k - S i)) by lia. done.
      * destruct He as [He Hz]. unfold e1 in He. destruct e; [done|]. split; [done|].
        destruct (Z.eqb_spec (i_ref x) 0); [done|]. intros [|k] Hk; [done|]. apply Hz. lia.
Qed.

Lemma live_ref dev inum x r : live_for dev inum x = true -> 0 < r -> live_for dev inum (set_ref x r) = true.
Proof.
  unfold live_for. intros H Hr. apply andb_prop in H as [H H3]. apply andb_prop in H as [_ H2].
  simpl. rewrite H2, H3, (proj2 (Z.ltb_lt _ _)) by done. done.
Qed.

Lemma icache_set st ip x : icache_ok st -> (ip < length (fs_ic st))%nat -> 0 <= i_ref x ->
  (forall dev inum, live_for dev inum x = true ->
     forall j, (j < length (fs_ic st))%nat -> live_for dev inum (inode_at st j) = true -> j = ip) ->
  icache_ok (set_inode st ip x).
Proof.
  intros [H1 H2] Hi Hx Hu. assert (Hl : length (fs_ic (set_inode st ip x)) = length (fs_ic st))
    by apply length_insert.
  split; rewrite Hl.
  - intros i Hb. destruct (decide (i = ip)) as [->|Hne]; [by rewrite inode_at_set|].
    rewrite inode_at_set_ne by done. by apply H1.
  - intros i j dev inum Hib Hjb. destruct (decide (i = ip)) as [->|Hni], (decide (j = ip)) as [->|Hnj];
      rewrite ?inode_at_set, ?inode_at_set_ne by done; try done.
    + intros A B. symmetry. by eapply Hu.
    + intros A B. by eapply Hu.
    + by apply H2.
Qed.

(** [iget] finds or makes the one cache entry of an inode: it returns an
    entry for that device and number, with one more reference, changes no other
    entry and nothing on disk, and keeps at most one entry per inode in use; it
    panics only when every entry is referenced and none is the inode's. *)
Theorem iget_spec (dev inum : Z) (st : fs) : icache_ok st ->
  (iget dev inum st = Panic "iget: no inodes" /\
   forall k, (k < length (fs_ic st))%nat ->
     0 < i_ref (inode_at st k) /\ live_for dev inum (inode_at st k) = false) \/
  exists ip st', iget dev inum st = Ok (ip, st') /\ (ip < length (fs_ic st))%nat /\
    live_for dev inum (inode_at st' ip) = true /\
    i_ref (inode_at st' ip) = (if live_for dev inum (inode_at st ip) then i_ref (inode_at st ip) else 0) + 1 /\
    (forall j, j <> ip -> inode_at st' j = inode_at st j) /\ fs_t st' = fs_t st /\ icache_ok st'.
Proof.
  intros Hok. pose proof Hok as [H1 H2]. unfold iget.
  pose proof (iget_scan_spec (fs_ic st) 0 dev inum None) as Hs.
  destruct (iget_scan (fs_ic st) 0 dev inum None) as [[ip|] e].
  - destruct Hs as [Hi Hl]. rewrite Nat.sub_0_r in Hl. fold (inode_at st ip) in Hl.
    assert (Hip : (ip < length (fs_ic st))%nat) by lia. pose proof (H1 ip Hip).
    right. eexists ip, _. split; [reflexivity|]. rewrite inode_at_set by done. split_and!; try done.
    + apply live_ref; [done|lia].
    + by rewrite Hl.
    + intros j Hj. by apply inode_at_set_ne.
    + apply icache_set; try done; [simpl; lia|]. intros d n Hln j Hj Hlj.
      apply (H2 j ip d n Hj Hip Hlj). destruct (live_for d n (inode_at st ip)) eqn:E; [done|].
      unfold live_for in *. simpl in Hln. rewrite <- andb_assoc in E, Hln, Hl.
      apply andb_prop in Hl as [Hpos _]. apply andb_prop in Hln as [_ Hln]. by rewrite Hpos, Hln in E.
  - destruct Hs as [Hn He]. destruct e as [ip|].
    + right. destruct He as [|[Hi Hz]]; [done|]. rewrite Nat.sub_0_r in Hz. fold (inode_at st ip) in Hz.
      assert (Hip : (ip < length (fs_ic st))%nat) by lia.
      assert (Hself : live_for dev inum (mk_inode dev inum 1 (i_locked (inode_at st ip)) false
        (i_type (inode_at st ip)) (i_major (inode_at st ip)) (i_minor (inode_at st ip))
        (i_nlink (inode_at st ip)) (i_size (inode_at st ip)) (i_addrs (inode_at st ip))) = true)
        by (unfold live_for; simpl; by rewrite !Z.eqb_refl).
      eexists ip, _. split; [reflexivity|]. rewrite inode_at_set by done. split_and!; try done.
      * specialize (Hn ip Hip). fold (inode_at st ip) in Hn. by rewrite Hn.
      * intros j Hj. by apply inode_at_set_ne.
      * apply icache_set; try done. intros d n Hln j Hj Hlj.
        unfold live_for in Hln. simpl in Hln. apply andb_prop in Hln as [->%Z.eqb_eq ->%Z.eqb_eq].
        specialize (Hn j Hj). fold (inode_at st j) in Hn. congruence.
    + left. destruct He as [_ Hz]. split; [done|]. intros k Hk. specialize (Hz k Hk). specialize (H1 k Hk).
      unfold inode_at in *. split; [lia|]. by apply Hn.
Qed.

(** ** Paths *)

(** The names a path consists of. *)
Fixpoint elements_from (cur p : list Z) : list (list Z) :=
  match p with
  | [] => match cur with [] => [] | _ => [cur] end
  | c :: p' =>
      if c =? SLASH then match cur with [] => elements_from [] p' | _ => cur :: elements_from [] p' end
      else elements_from (cur ++ [c]) p'
  end.

Definition path_elems (p : list Z) : list (list Z) := elements_from [] p.

Lemma elements_skip p : path_elems (skip_slashes p) = path_elems p.
Proof. unfold path_elems. induction p as [|c p IH]; simpl; [done|]. destruct (c =? SLASH) eqn:E; simpl; rewrite ?E; done. Qed.

Lemma skip_slashes_hd p c r : skip_slashes p = c :: r -> c <> SLASH.
Proof.
  induction p as [|x p IH]; simpl; [done|]. destruct (Z.eqb_spec x SLASH); [done|]. by intros [= -> ->].
Qed.

Lemma skip_slashes_length p : (length (skip_slashes p) <= length p)%nat.
Proof. induction p as [|x p IH]; simpl; [lia|]. destruct (x =? SLASH); simpl; lia. Qed.

Lemma take_elem_spec p e r : take_elem p = (e, r) ->
  p = e ++ r /\ Forall (fun c => c <> SLASH) e /\
  forall cur, cur ++ e <> [] -> elements_from cur p = (cur ++ e) :: path_elems r.
Proof.
  revert e r. induction p as [|c p IH]; intros e r; simpl.
  { intros [= <- <-]. split_and!; try done. intros cur Hc. rewrite app_nil_r in *. by destruct cur. }
  destruct (Z.eqb_spec c SLASH) as [->|Hc].
  - intros [= <- <-]. split_and!; try done. intros cur Hn. rewrite app_nil_r in *. by destruct cur.
  - destruct (take_elem p) as [e' r'] eqn:E. intros [= <- <-]. destruct (IH _ _ eq_refl) as (-> & Hf & He).
    split_and!; [done|by constructor|]. intros cur _. rewrite He by by destruct cur.
    by rewrite <- app_assoc.
Qed.

Lemma cstrn_mwrite m e : Forall (fun c => c <> 0) e -> cstrn (mwrite m 0 e) 0 (length e) = e.
Proof.
  intros He. assert (Hg : forall k, (k <= length e)%nat ->
    cstrn (mwrite m 0 e) (Z.of_nat k) (length e - k) = drop k e).
  { intros k Hk. remember (length e - k)%nat as n eqn:En. revert k Hk En.
    induction n as [|n IH]; intros k Hk En; simpl; [by rewrite drop_ge by lia|].
    destruct (lookup_lt_is_Some_2 e k ltac:(lia)) as [c Hc].
    assert (Hm : mwrite m 0 e (Z.of_nat k) = c).
    { unfold mwrite. zcases. rewrite Z.sub_0_r, Nat2Z.id. by apply nth_lookup_Some. }
    rewrite Hm, (drop_S _ _ _ Hc).
    assert (Hcz : c <> 0) by (rewrite Forall_lookup in He; by eapply He).
    rewrite (proj2 (Z.eqb_neq _ _)) by done.
    f_equal. replace (Z.of_nat k + 1) with (Z.of_nat (S k)) by lia. apply IH; lia. }
  specialize (Hg 0%nat ltac:(lia)). by rewrite Nat.sub_0_r in Hg.
Qed.

Lemma cstrn_app m a n k : length (cstrn m a n) = n ->
  cstrn m a (n + k) = cstrn m a n ++ cstrn m (a + Z.of_nat n) k.
Proof.
  revert a. induction n as [|n IH]; intros a Hl; simpl in *; [by rewrite Z.add_0_r|].
  destruct (m a =? 0); [done|]. simpl in *. rewrite IH by lia. do 3 f_equal. lia.
Qed.

(** The name buffer [skipelem] leaves. *)
Lemma skipelem_name name e : Forall (fun c => c <> 0) e ->
  let name' := if DIRSIZ <=? Z.of_nat (length e) then mwrite name 0 (take (Z.to_nat DIRSIZ) e)
               else mset (mwrite name 0 e) (Z.of_nat (length e)) 0 in
  cstrn name' 0 (Z.to_nat DIRSIZ) = take (Z.to_nat DIRSIZ) e.
Proof.
  intros He name'. unfold name'. change (Z.to_nat DIRSIZ) with 14%nat.
  destruct (Z.leb_spec DIRSIZ (Z.of_nat (length e))) as [Hl|Hl]; unfold DIRSIZ in Hl.
  - assert (Hlen : length (take 14 e) = 14%nat) by (rewrite length_take; lia).
    rewrite <- Hlen at 2. apply cstrn_mwrite. by apply Forall_take.
  - rewrite take_ge by lia.
    assert (Hc : cstrn (mset (mwrite name 0 e) (Z.of_nat (length e)) 0) 0 (length e) = e).
    { etransitivity; [|exact (cstrn_mwrite name e He)]. apply cstrn_ext. intros x Hx. apply mset_ne. lia. }
    replace 14%nat with (length e + S (13 - length e))%nat by lia.
    rewrite cstrn_app by by rewrite Hc. rewrite Hc. simpl.
    rewrite mset_eq. simpl. by rewrite app_nil_r.
Qed.

(** [skipelem] takes the next name off a path: it returns 0 exactly on a path
    without names; otherwise the rest holds the remaining names, is empty
    exactly when there are none (so the caller can test for the last name), is
    strictly shorter, and the name buffer holds the first [DIRSIZ] bytes of the
    next name. *)
Theorem skipelem_spec (path : list Z) (name : mem) : Forall (fun c => c <> 0) path ->
  match path_elems path with
  | [] => skipelem path name = None
  | e :: es => exists rest name', skipelem path name = Some (rest, name') /\ path_elems rest = es /\
      (rest = [] <-> es = []) /\ (length rest < length path)%nat /\
      cstrn name' 0 (Z.to_nat DIRSIZ) = take (Z.to_nat DIRSIZ) e
  end.
Proof.
  intros Hnz. rewrite <- elements_skip. unfold skipelem.
  pose proof (skip_slashes_length path) as Hlen.
  assert (Hnz' : Forall (fun c => c <> 0) (skip_slashes path)).
  { clear Hlen. induction Hnz as [|x p Hx Hp IH]; simpl; [done|]. destruct (x =? SLASH); [done|by constructor]. }
  destruct (skip_slashes path) as [|c p] eqn:E; [done|]. pose proof (skip_slashes_hd _ _ _ E) as Hc.
  destruct (take_elem (c :: p)) as [e r] eqn:Et. destruct (take_elem_spec _ _ _ Et) as (Hp & Hns & He).
  assert (Hne : e <> []).
  { intros ->. simpl in Et. rewrite (proj2 (Z.eqb_neq _ _)) in Et by done. by destruct (take_elem p). }
  unfold path_elems at 1. rewrite (He []) by done. rewrite app_nil_l.
  eexists _, _. split; [reflexivity|]. rewrite elements_skip. split_and!; try done.
  - split; [intros Hr; by rewrite <- elements_skip, Hr|].
    intros Hr. rewrite <- elements_skip in Hr. destruct (skip_slashes r) as [|c' r'] eqn:Er; [done|exfalso].
    destruct (take_elem (c' :: r')) as [e' r''] eqn:Et'. destruct (take_elem_spec _ _ _ Et') as (_ & _ & He').
    unfold path_elems in Hr. rewrite (He' []) in Hr; [done|]. simpl. intros ->. simpl in Et'.
    rewrite (proj2 (Z.eqb_neq _ _)) in Et' by by eapply skip_slashes_hd. by destruct (take_elem r').
  - pose proof (skip_slashes_length r). apply (f_equal length) in Hp. rewrite length_app in Hp.
    destruct e; [done|]. simpl in *. lia.
  - apply skipelem_name. rewrite Hp in Hnz'. by apply Forall_app in Hnz' as [? _].
Qed.

Lemma skipelem_spec_witness :
  (* "/ab//c" *)
  exists rest name', skipelem [47; 97; 98; 47; 47; 99] (fun _ => 0) = Some (rest, name') /\
    path_elems rest = [[99]] /\ (rest = [] <-> [[99]] = []) /\ (length rest < 6)%nat /\
    cstrn name' 0 (Z.to_nat DIRSIZ) = take (Z.to_nat DIRSIZ) [97; 98].
Proof.
  apply (skipelem_spec [47; 97; 98; 47; 47; 99] (fun _ => 0)).
  repeat constructor; discriminate.
Defined.

(** ** Directories *)

Lemma cstrn_shift m m' a b n :
  (forall i, 0 <= i < Z.of_nat n -> m (a + i) = m' (b + i)) -> cstrn m a n = cstrn m' b n.
Proof.
  revert a b. induction n as [|n IH]; intros a b H; simpl; [done|].
  pose proof (H 0 ltac:(lia)) as H0. rewrite !Z.add_0_r in H0. rewrite H0. destruct (m' b =? 0); [done|].
  f_equal. apply IH. intros i Hi. rewrite <- !Z.add_assoc. apply H. lia.
Qed.

Lemma cstrn_nonzero m a n : Forall (fun c => c <> 0) (cstrn m a n).
Proof.
  revert a. induction n as [|n IH]; intros a; simpl; [constructor|].
  destruct (Z.eqb_spec (m a) 0); constructor; auto.
Qed.

(** A name stored NUL-padded in a field reads back as itself. *)
Lemma cstrn_padded m a l n : (length l <= n)%nat -> Forall (fun c => c <> 0) l ->
  (forall i, 0 <= i < Z.of_nat n -> m (a + i) = nth (Z.to_nat i) l 0) -> cstrn m a n = l.
Proof.
  revert a l. induction n as [|n IH]; intros a l Hl Hf H; simpl; [by destruct l; simpl in *; [|lia]|].
  pose proof (H 0 ltac:(lia)) as H0. rewrite Z.add_0_r in H0. rewrite H0.
  destruct l as [|c l]; [done|]. inversion_clear Hf as [|? ? Hc Hf']. simpl.
  rewrite (proj2 (Z.eqb_neq _ _)) by done. f_equal. apply IH; [simpl in Hl; lia|done|].
  intros i Hi. specialize (H (i + 1) ltac:(lia)). replace (a + 1 + i) with (a + (i + 1)) by lia.
  rewrite H. by replace (Z.to_nat (i + 1)) with (S (Z.to_nat i)) by lia.
Qed.

Section dir.
Context (sb : superblock) (Hsb : sb_ok sb).
Context (dev_read : Z -> option (nat -> mem -> Z -> Z -> fs -> res (Z * mem * fs))).
Context (dev_write : Z -> option (nat -> mem -> Z -> Z -> fs -> res (Z * fs))).

(** Entry [k] of a directory. *)
Definition dent (st : fs) (dp : nat) (k : Z) : mem := fun i => content st dp (DIRENT_SIZE * k + i).
Definition dent_inum (st : fs) (dp : nat) (k : Z) : Z := ld16 (dent st dp k) 0.
Definition dent_name (st : fs) (dp : nat) (k : Z) : list Z := cstrn (dent st dp k) 2 (Z.to_nat DIRSIZ).
Definition dir_count (st : fs) (dp : nat) : Z := i_size (inode_at st dp) / DIRENT_SIZE.

Definition dent_matches (st : fs) (dp : nat) (name : list Z) (k : Z) : bool :=
  negb (dent_inum st dp k =? 0) && bool_decide (dent_name st dp k = name).

Record dir_ok (st : fs) (dp : nat) : Prop := {
  do_file : file_ok sb st dp;
  do_holes : no_holes st dp;
  do_type : i_type (inode_at st dp) = T_DIR;
  do_inum : 0 <= i_inum (inode_at st dp) < sb_ninodes sb;
  do_size : 0 <= i_size (inode_at st dp) <= MAXFILE * BSIZE;
  do_whole : i_size (inode_at st dp) mod DIRENT_SIZE = 0
}.

Lemma dir_size st dp : dir_ok st dp -> i_size (inode_at st dp) = DIRENT_SIZE * dir_count st dp /\ 0 <= dir_count st dp.
Proof.
  intros Hd. pose proof (do_whole _ _ Hd). pose proof (do_size _ _ Hd). unfold dir_count, DIRENT_SIZE in *.
  zdiv.
Qed.

(** Reading one entry. *)
Lemma read_dent st dp de k : dir_ok st dp -> 0 <= k < dir_count st dp ->
  exists de', readi sb dev_read dp de 0 (DIRENT_SIZE * k) DIRENT_SIZE st = Ok (DIRENT_SIZE, de', st) /\
    (forall i, 0 <= i < DIRENT_SIZE -> de' i = dent st dp k i) /\ ld16 de' 0 = dent_inum st dp k.
Proof.
  intros Hd Hk. destruct (dir_size st dp Hd) as [Hs Hc]. pose proof (do_size _ _ Hd) as Hsz.
  assert (HM : MAXFILE * BSIZE = 71680) by done. assert (HD : DIRENT_SIZE = 16) by done.
  pose proof (readi_ok sb Hsb dev_read st dp de 0 (DIRENT_SIZE * k) DIRENT_SIZE (do_file _ _ Hd) (do_holes _ _ Hd)) as Hr.
  rewrite (do_type _ _ Hd) in Hr. specialize (Hr ltac:(done) ltac:(lia) ltac:(lia) ltac:(lia)). cbv zeta in Hr.
  rewrite (proj2 (Z.ltb_ge _ _)), (proj2 (Z.leb_gt _ _)) in Hr by lia. cbn [orb] in Hr.
  rewrite Z.min_l in Hr by lia. destruct Hr as (de' & E & Hx). exists de'.
  assert (Hin : forall i, 0 <= i < DIRENT_SIZE -> de' i = dent st dp k i).
  { intros i Hi. rewrite Hx. rewrite (proj2 (Z.leb_le _ _)), (proj2 (Z.ltb_lt _ _)) by lia. cbn [andb].
    unfold dent. f_equal. lia. }
  split_and!; [done|done|]. unfold dent_inum. apply ld16_ext. intros x Hxx. apply Hin. lia.
Qed.

(** The comparison [namecmp(name, de.name)]. *)
Lemma namecmp_frame de name st dp k :
  (forall i, 0 <= i < DIRENT_SIZE -> de i = dent st dp k i) ->
  (namecmp (frame de name) DIRENT_SIZE 2 =? 0) = bool_decide (dent_name st dp k = cstrn name 0 (Z.to_nat DIRSIZ)).
Proof.
  intros Hde. assert (HD : DIRENT_SIZE = 16) by done. assert (HS : Z.of_nat (Z.to_nat DIRSIZ) = 14) by done.
  assert (H1 : cstrn (frame de name) DIRENT_SIZE (Z.to_nat DIRSIZ) = cstrn name 0 (Z.to_nat DIRSIZ)).
  { apply cstrn_shift. intros i Hi. unfold frame. rewrite mcopy_in by (unfold DIRSIZ; lia). f_equal. lia. }
  assert (H2 : cstrn (frame de name) 2 (Z.to_nat DIRSIZ) = dent_name st dp k).
  { apply cstrn_ext. intros x Hx. unfold frame. rewrite mcopy_out by lia. apply Hde. lia. }
  unfold namecmp, strncmp. pose proof (strncmp_loop_cstrn (frame de name) DIRENT_SIZE 2 (Z.to_nat DIRSIZ)) as H.
  rewrite H1, H2 in H. case_bool_decide as Hb.
  - apply Z.eqb_eq, H. done.
  - apply Z.eqb_neq. intros E. apply Hb. symmetry. by apply H.
Qed.

Lemma dirlookup_loop_ok fuel st dp name k :
  dir_ok st dp -> 0 <= k <= dir_count st dp -> dir_count st dp - k < Z.of_nat fuel ->
  ((forall j, k <= j < dir_count st dp -> dent_matches st dp (cstrn name 0 (Z.to_nat DIRSIZ)) j = false) ->
   dirlookup_loop sb dev_read fuel dp name (DIRENT_SIZE * k) st = Ok (None, st)) /\
  (forall j, k <= j < dir_count st dp -> dent_matches st dp (cstrn name 0 (Z.to_nat DIRSIZ)) j = true ->
   (forall i, k <= i < j -> dent_matches st dp (cstrn name 0 (Z.to_nat DIRSIZ)) i = false) ->
   dirlookup_loop sb dev_read fuel dp name (DIRENT_SIZE * k) st =
   let* (ip, st') := iget (i_dev (inode_at st dp)) (dent_inum st dp j) st in
   Ok (Some (ip, DIRENT_SIZE * j), st')).
Proof.
  intros Hd. destruct (dir_size st dp Hd) as [Hs Hc]. assert (HD : DIRENT_SIZE = 16) by done.
  revert k. induction fuel as [|fuel IH]; intros k Hk Hf; [lia|]. cbn [dirlookup_loop].
  destruct (Z.ltb_spec (DIRENT_SIZE * k) (i_size (inode_at st dp))) as [Hlt|Hge].
  2:{ split; [done|]. intros j Hj. lia. }
  assert (Hkc : 0 <= k < dir_count st dp) by lia.
  destruct (read_dent st dp (fun _ => 0) k Hd Hkc) as (de & E & Hin & Hnum). rewrite E. cbn [rbind].
  rewrite Z.eqb_refl. cbn [negb]. rewrite Hnum, (namecmp_frame de name st dp k Hin).
  replace (DIRENT_SIZE * k + DIRENT_SIZE) with (DIRENT_SIZE * (k + 1)) by lia.
  specialize (IH (k + 1) ltac:(lia) ltac:(lia)). destruct IH as [IH1 IH2].
  assert (Hm : dent_matches st dp (cstrn name 0 (Z.to_nat DIRSIZ)) k =
    negb (dent_inum st dp k =? 0) && bool_decide (dent_name st dp k = cstrn name 0 (Z.to_nat DIRSIZ))) by done.
  destruct (dent_inum st dp k =? 0); [|destruct (bool_decide _)]; cbn [negb andb] in Hm.
  - split; [intros H; apply IH1; intros j Hj; apply H; lia|].
    intros j Hj Hjm Hji. destruct (decide (j = k)) as [->|]; [congruence|]. apply IH2; [lia|done|].
    intros i Hi. apply Hji. lia.
  - split; [intros H; rewrite H in Hm by lia; done|]. intros j Hj Hjm Hji.
    destruct (decide (j = k)) as [->|]; [done|]. rewrite Hji in Hm by lia. done.
  - split; [intros H; apply IH1; intros j Hj; apply H; lia|].
    intros j Hj Hjm Hji. destruct (decide (j = k)) as [->|]; [congruence|]. apply IH2; [lia|done|].
    intros i Hi. apply Hji. lia.
Qed.

Lemma dirlookup_start st dp name : dir_ok st dp ->
  dirlookup sb dev_read dp name st =
  dirlookup_loop sb dev_read (S (Z.to_nat (dir_count st dp))) dp name (DIRENT_SIZE * 0) st.
Proof. intros Hd. unfold dirlookup. by rewrite (do_type _ _ Hd). Qed.

Lemma dirlookup_none st dp name : dir_ok st dp ->
  (forall j, 0 <= j < dir_count st dp -> dent_matches st dp (cstrn name 0 (Z.to_nat DIRSIZ)) j = false) ->
  dirlookup sb dev_read dp name st = Ok (None, st).
Proof.
  intros Hd H. destruct (dir_size st dp Hd) as [_ Hc]. rewrite dirlookup_start by done.
  apply dirlookup_loop_ok; [done|lia|lia|done].
Qed.

Lemma dirlookup_some st dp name j : dir_ok st dp -> 0 <= j < dir_count st dp ->
  dent_matches st dp (cstrn name 0 (Z.to_nat DIRSIZ)) j = true ->
  (forall i, 0 <= i < j -> dent_matches st dp (cstrn name 0 (Z.to_nat DIRSIZ)) i = false) ->
  dirlookup sb dev_read dp name st =
  let* (ip, st') := iget (i_dev (inode_at st dp)) (dent_inum st dp j) st in Ok (Some (ip, DIRENT_SIZE * j), st').
Proof.
  intros Hd Hj Hm Hi. destruct (dir_size st dp Hd) as [_ Hc]. rewrite dirlookup_start by done.
  apply (dirlookup_loop_ok (S (Z.to_nat (dir_count st dp))) st dp name 0); [done|lia|lia|lia|done|done].
Qed.

(** The search for an empty entry stops at the first one, or at the end. *)
Lemma dirlink_loop_ok fuel st dp de k :
  dir_ok st dp -> 0 <= k <= dir_count st dp -> dir_count st dp - k < Z.of_nat fuel ->
  exists j de', dirlink_loop sb dev_read fuel dp de (DIRENT_SIZE * k) st = Ok (DIRENT_SIZE * j, de', st) /\
    k <= j <= dir_count st dp /\ (j < dir_count st dp -> dent_inum st dp j = 0).
Proof.
  intros Hd. destruct (dir_size st dp Hd) as [Hs Hc]. assert (HD : DIRENT_SIZE = 16) by done.
  revert k de. induction fuel as [|fuel IH]; intros k de Hk Hf; [lia|]. cbn [dirlink_loop].
  destruct (Z.ltb_spec (DIRENT_SIZE * k) (i_size (inode_at st dp))) as [Hlt|Hge].
  2:{ exists k, de. split_and!; [done|lia..]. }
  assert (Hkc : 0 <= k < dir_count st dp) by lia.
  destruct (read_dent st dp de k Hd Hkc) as (de' & E & Hin & Hnum). rewrite E. cbn [rbind].
  rewrite Z.eqb_refl. cbn [negb]. rewrite Hnum.
  destruct (Z.eqb_spec (dent_inum st dp k) 0) as [Hz|Hz].
  - exists k, de'. split_and!; [done|lia..].
  - replace (DIRENT_SIZE * k + DIRENT_SIZE) with (DIRENT_SIZE * (k + 1)) by lia.
    destruct (IH (k + 1) de' ltac:(lia) ltac:(lia)) as (j & de2 & E2 & Hj & Hfree).
    exists j, de2. split_and!; [done|lia..|done].
Qed.

(** The entry that [dirlink] writes. *)
Definition new_dent (de name : mem) (inum : Z) : mem :=
  st16 (strncpy (frame de name) 2 DIRENT_SIZE DIRSIZ) 0 inum.

Lemma new_dent_inum de name inum : 0 <= inum < 2 ^ 16 -> ld16 (new_dent de name inum) 0 = inum.
Proof. intros H. unfold new_dent. rewrite ld16_st16_same. by apply u16_small. Qed.

Lemma new_dent_name de name inum :
  cstrn (new_dent de name inum) 2 (Z.to_nat DIRSIZ) = cstrn name 0 (Z.to_nat DIRSIZ).
Proof.
  assert (HD : DIRENT_SIZE = 16) by done. assert (HS : DIRSIZ = 14) by done.
  apply cstrn_padded; [apply cstrn_length|apply cstrn_nonzero|]. intros i Hi.
  rewrite Z2Nat.id in Hi by lia. unfold new_dent, strncpy. rewrite st16_other by lia.
  rewrite strncpy_loop_spec by (rewrite Z2Nat.id; lia). rewrite Z2Nat.id by lia.
  rewrite (proj2 (Z.leb_le _ _)), (proj2 (Z.ltb_lt _ _)) by lia. cbn [andb].
  by replace (2 + i - 2) with i by lia.
Qed.

(** Entry [k] written, the others as before. *)
Record set_in (st st' : fs) (dp : nat) (name : list Z) (inum k : Z) : Prop := {
  si_ok : dir_ok st' dp;
  si_range : 0 <= k < dir_count st' dp;
  si_count : dir_count st' dp = Z.max (dir_count st dp) (k + 1);
  si_inum : dent_inum st' dp k = inum;
  si_name : dent_name st' dp k = name;
  si_other j : 0 <= j < dir_count st' dp -> j <> k ->
    dent_inum st' dp j = dent_inum st dp j /\ dent_name st' dp j = dent_name st dp j;
  si_dev : i_dev (inode_at st' dp) = i_dev (inode_at st dp)
}.

(** What [dirlink] did: entry [k] is new, the others are as before. *)
Record linked_in (st st' : fs) (dp : nat) (name : list Z) (inum k : Z) : Prop := {
  li_set : set_in st st' dp name inum k;
  li_slot : k = dir_count st dp \/ (k < dir_count st dp /\ dent_inum st dp k = 0)
}.

Lemma write_dent st st' dp de k : dir_ok st dp -> 0 <= k <= dir_count st dp ->
  DIRENT_SIZE * k + DIRENT_SIZE <= MAXFILE * BSIZE ->
  writei_done sb st st' dp de 0 (DIRENT_SIZE * k) DIRENT_SIZE ->
  set_in st st' dp (cstrn de 2 (Z.to_nat DIRSIZ)) (ld16 de 0) k.
Proof.
  intros Hd Hk Hmax Hw. destruct (dir_size st dp Hd) as [Hs Hc].
  assert (HD : DIRENT_SIZE = 16) by done. assert (HM : MAXFILE * BSIZE = 71680) by done.
  assert (HS : Z.of_nat (Z.to_nat DIRSIZ) = 14) by done.
  destruct Hd as [D1 D2 D3 D4 D5 D6]. pose proof Hw as [W1 W2 W3 W4 W5 W6 W7 W8 W9 W10].
  assert (Hsz : i_size (inode_at st' dp) = DIRENT_SIZE * Z.max (dir_count st dp) (k + 1))
    by (rewrite W3; change (0 <? DIRENT_SIZE) with true; cbv iota; lia).
  assert (Hcnt : dir_count st' dp = Z.max (dir_count st dp) (k + 1))
    by (unfold dir_count at 1; rewrite Hsz, Z.mul_comm; by apply Z.div_mul).
  assert (Hmeta : i_type (inode_at st' dp) = i_type (inode_at st dp) /\
    i_inum (inode_at st' dp) = i_inum (inode_at st dp) /\ i_dev (inode_at st' dp) = i_dev (inode_at st dp))
    by (injection W4; done).
  destruct Hmeta as (Ht & Hi & Hdev).
  assert (Hde : forall j i, 0 <= j < dir_count st' dp -> 0 <= i < DIRENT_SIZE ->
    dent st' dp j i = if j =? k then de i else dent st dp j i).
  { intros j i Hj Hi'. unfold dent. rewrite W5 by lia. destruct (Z.eqb_spec j k) as [->|Hne].
    - rewrite (proj2 (Z.leb_le _ _)), (proj2 (Z.ltb_lt _ _)) by lia. cbn [andb]. f_equal. lia.
    - destruct (Z.leb_spec (DIRENT_SIZE * k) (DIRENT_SIZE * j + i)); cbn [andb]; [|done].
      by rewrite (proj2 (Z.ltb_ge _ _)) by lia. }
  split; try done; try lia.
  - split; try done; try congruence; try lia. rewrite Hsz, Z.mul_comm. by apply Z.mod_mul.
  - unfold dent_inum. apply ld16_ext. intros x Hx. rewrite Hde by lia. by rewrite Z.eqb_refl.
  - unfold dent_name. apply cstrn_ext. intros x Hx. rewrite Hde by lia. by rewrite Z.eqb_refl.
  - intros j Hj Hne. split.
    + unfold dent_inum. apply ld16_ext. intros x Hx. rewrite Hde by lia. by rewrite (proj2 (Z.eqb_neq _ _)).
    + unfold dent_name. apply cstrn_ext. intros x Hx. rewrite Hde by lia. by rewrite (proj2 (Z.eqb_neq _ _)).
Qed.

(** An entry lies in one block. *)
Lemma dent_touched k : 0 <= k -> touched (DIRENT_SIZE * k) DIRENT_SIZE = 1.
Proof. clear. intros Hk. unfold touched, DIRENT_SIZE, BSIZE. cbn [Z.leb Z.compare]. zdiv. Qed.

(** [dirlink] of a name that is not there is one [writei] of the entry; the log
    must have room for four blocks. *)
Lemma dirlink_writes st dp name inum : logged (fs_t st) + 3 < log_cap sb -> dir_ok st dp -> 0 < inum < 2 ^ 16 ->
  i_size (inode_at st dp) + DIRENT_SIZE <= MAXFILE * BSIZE ->
  (forall j, 0 <= j < dir_count st dp -> dent_matches st dp (cstrn name 0 (Z.to_nat DIRSIZ)) j = false) ->
  (exists k de st', dirlink sb dev_read dev_write dp name inum st = Ok (0, st') /\ 0 <= k <= dir_count st dp /\
     writei sb dev_write dp de 0 (DIRENT_SIZE * k) DIRENT_SIZE st = Ok (DIRENT_SIZE, st') /\
     writei_done sb st st' dp de 0 (DIRENT_SIZE * k) DIRENT_SIZE /\
     linked_in st st' dp (cstrn name 0 (Z.to_nat DIRSIZ)) inum k /\ logged (fs_t st') <= logged (fs_t st) + 4) \/
  dirlink sb dev_read dev_write dp name inum st = Panic "balloc: out of blocks".
Proof.
  intros Hroom Hd Hi Hmax Hno. destruct (dir_size st dp Hd) as [Hs Hc]. assert (HD : DIRENT_SIZE = 16) by done.
  unfold dirlink. rewrite (dirlookup_none st dp name Hd Hno). cbn [rbind].
  destruct (dirlink_loop_ok (S (Z.to_nat (dir_count st dp))) st dp (fun _ => 0) 0 Hd) as (k & de & E & Hk & Hfree);
    [lia|lia|]. rewrite Z.mul_0_r in E. fold (dir_count st dp). rewrite E. cbn [rbind].
  fold (new_dent de name inum).
  pose proof (writei_ok sb Hsb dev_write st dp (new_dent de name inum) 0 (DIRENT_SIZE * k) DIRENT_SIZE) as Hw.
  destruct Hd as [D1 D2 D3 D4 D5 D6]. rewrite D3 in Hw. assert (HM : MAXFILE * BSIZE = 71680) by done.
  specialize (Hw D1 D2 ltac:(done) D4 D5 ltac:(lia) ltac:(lia)).
  rewrite (proj2 (Z.ltb_ge (i_size _) _)), (proj2 (Z.ltb_ge (MAXFILE * BSIZE) _)) in Hw by lia. cbn [orb] in Hw.
  rewrite dent_touched in Hw by lia.
  destruct Hw as [(st' & E' & Hw)|[E'|[_ ?]]]; [rewrite E'; left | rewrite E'; by right | lia]. cbn [rbind].
  rewrite Z.eqb_refl. cbn [negb]. exists k, (new_dent de name inum), st'. split_and!; try done; try lia.
  2: { pose proof (done_logged sb Hsb st st' dp (new_dent de name inum) 0 (DIRENT_SIZE * k) DIRENT_SIZE ltac:(lia) Hw) as Hl. rewrite dent_touched in Hl by lia. lia. }
  rewrite <- (new_dent_name de name inum). rewrite <- (new_dent_inum de name inum) at 2 by lia.
  split; [apply write_dent; try done; try lia | lia].
Qed.

Lemma dirlink_ok st dp name inum : logged (fs_t st) + 3 < log_cap sb -> dir_ok st dp -> 0 < inum < 2 ^ 16 ->
  i_size (inode_at st dp) + DIRENT_SIZE <= MAXFILE * BSIZE ->
  (forall j, 0 <= j < dir_count st dp -> dent_matches st dp (cstrn name 0 (Z.to_nat DIRSIZ)) j = false) ->
  (exists k st', dirlink sb dev_read dev_write dp name inum st = Ok (0, st') /\
     linked_in st st' dp (cstrn name 0 (Z.to_nat DIRSIZ)) inum k) \/
  dirlink sb dev_read dev_write dp name inum st = Panic "balloc: out of blocks".
Proof. intros Hr Hd Hi Hmax Hno. destruct (dirlink_writes st dp name inum Hr Hd Hi Hmax Hno) as [(k & de & st' & E & _ & _ & _ & Hl & _)|E]; eauto. Qed.

(** Links and lookups agree: linking a new name into a well-formed directory
    that has room, with room for four blocks in the log, either runs out of
    disk blocks, or returns 0; then looking
    the name up finds the new entry with its inode number, every other entry is
    as it was, and the directory is still well formed. *)
Theorem dirlink_dirlookup st dp name inum : logged (fs_t st) + 3 < log_cap sb -> dir_ok st dp -> 0 < inum < 2 ^ 16 ->
  i_size (inode_at st dp) + DIRENT_SIZE <= MAXFILE * BSIZE ->
  (forall j, 0 <= j < dir_count st dp -> dent_matches st dp (cstrn name 0 (Z.to_nat DIRSIZ)) j = false) ->
  (exists k st', dirlink sb dev_read dev_write dp name inum st = Ok (0, st') /\
     linked_in st st' dp (cstrn name 0 (Z.to_nat DIRSIZ)) inum k /\
     dirlookup sb dev_read dp name st' =
     let* (ip, st2) := iget (i_dev (inode_at st dp)) inum st' in Ok (Some (ip, DIRENT_SIZE * k), st2)) \/
  dirlink sb dev_read dev_write dp name inum st = Panic "balloc: out of blocks".
Proof.
  intros Hr Hd Hi Hmax Hno. destruct (dirlink_ok st dp name inum Hr Hd Hi Hmax Hno) as [(k & st' & E & Hl)|E]; [left|by right].
  exists k, st'. split_and!; try done. destruct Hl as [[L1 L2 L4 L5 L6 L7 L8] L3].
  rewrite <- L8, <- L5. apply dirlookup_some; try done.
  - unfold dent_matches. rewrite L5, L6, bool_decide_eq_true_2 by done.
    by rewrite (proj2 (Z.eqb_neq _ _)) by lia.
  - intros i Hii. destruct (L7 i ltac:(lia) ltac:(lia)) as [E1 E2]. unfold dent_matches. rewrite E1, E2.
    apply Hno. lia.
Qed.

(** A name that is already in the directory is not linked again: [dirlink]
    drops the reference [dirlookup] took and returns -1. *)
Theorem dirlink_exists st dp name inum j ip st1 st2 : dir_ok st dp -> 0 <= j < dir_count st dp ->
  dent_matches st dp (cstrn name 0 (Z.to_nat DIRSIZ)) j = true ->
  (forall i, 0 <= i < j -> dent_matches st dp (cstrn name 0 (Z.to_nat DIRSIZ)) i = false) ->
  iget (i_dev (inode_at st dp)) (dent_inum st dp j) st = Ok (ip, st1) -> iput sb ip st1 = Ok st2 ->
  dirlink sb dev_read dev_write dp name inum st = Ok (-1, st2).
Proof.
  intros Hd Hj Hm Hi E1 E2. unfold dirlink. rewrite (dirlookup_some st dp name j Hd Hj Hm Hi), E1.
  cbn [rbind]. by rewrite E2.
Qed.

End dir.

(** Witnesses: a directory with the one entry "a", inode 7. *)
Definition wit_dents : mem := mwrite (fun _ => 0) 0 [7; 0; 97].
Definition wit_dir : fs := wit_fs T_DIR 16 wit_dents [no_inode; no_inode].
Definition name_of (l : list Z) : mem := mwrite (fun _ => 0) 0 l.

Lemma wit_dir_ok : dir_ok mkfs_sb wit_dir 0.
Proof.
  split.
  - apply wit_file_ok.
  - by apply wit_no_holes.
  - done.
  - simpl. lia.
  - vm_compute. split; congruence.
  - done.
Qed.

Lemma dirlink_dirlookup_witness :
  (exists k st', dirlink mkfs_sb no_dev no_dev 0 (name_of [98]) 9 wit_dir = Ok (0, st') /\
     linked_in mkfs_sb wit_dir st' 0 (cstrn (name_of [98]) 0 (Z.to_nat DIRSIZ)) 9 k /\
     dirlookup mkfs_sb no_dev 0 (name_of [98]) st' =
     let* (ip, st2) := iget (i_dev (inode_at wit_dir 0)) 9 st' in Ok (Some (ip, DIRENT_SIZE * k), st2)) \/
  dirlink mkfs_sb no_dev no_dev 0 (name_of [98]) 9 wit_dir = Panic "balloc: out of blocks".
Proof.
  apply (dirlink_dirlookup mkfs_sb mkfs_sb_ok no_dev no_dev wit_dir 0 (name_of [98]) 9).
  - vm_compute. reflexivity.
  - apply wit_dir_ok.
  - lia.
  - vm_compute. congruence.
  - intros j Hj. assert (j = 0) as -> by (change (dir_count wit_dir 0) with 1 in Hj; lia).
    vm_compute. reflexivity.
Defined.

Lemma dirlink_exists_witness :
  exists ip st1 st2, iget 1 7 wit_dir = Ok (ip, st1) /\ iput mkfs_sb ip st1 = Ok st2 /\
    dirlink mkfs_sb no_dev no_dev 0 (name_of [97]) 9 wit_dir = Ok (-1, st2).
Proof.
  do 3 eexists. split; [vm_compute; reflexivity|]. split; [vm_compute; reflexivity|].
  eapply (dirlink_exists mkfs_sb mkfs_sb_ok no_dev no_dev wit_dir 0 (name_of [97]) 9 0).
  - apply wit_dir_ok.
  - change (dir_count wit_dir 0) with 1. lia.
  - vm_compute. reflexivity.
  - intros i Hi. lia.
  - vm_compute. reflexivity.
  - vm_compute. reflexivity.
Defined.

Lemma wit_icache : icache_ok wit_dir.
Proof.
  split.
  - intros i Hi. destruct i as [|[|[|]]]; simpl in *; lia.
  - intros i j dev inum Hi Hj. destruct i as [|[|[|]]], j as [|[|[|]]]; simpl in *; try done; lia.
Qed.

Lemma iget_spec_witness :
  (iget 1 7 wit_dir = Panic "iget: no inodes" /\
   forall k, (k < length (fs_ic wit_dir))%nat ->
     0 < i_ref (inode_at wit_dir k) /\ live_for 1 7 (inode_at wit_dir k) = false) \/
  exists ip st', iget 1 7 wit_dir = Ok (ip, st') /\ (ip < length (fs_ic wit_dir))%nat /\
    live_for 1 7 (inode_at st' ip) = true /\
    i_ref (inode_at st' ip) = (if live_for 1 7 (inode_at wit_dir ip) then i_ref (inode_at wit_dir ip) else 0) + 1 /\
    (forall j, j <> ip -> inode_at st' j = inode_at wit_dir j) /\ fs_t st' = fs_t wit_dir /\ icache_ok st'.
Proof. apply (iget_spec 1 7 wit_dir). apply wit_icache. Defined.

(** A second cache entry of the inode in slot 0, not yet read. *)
Definition wit_two : fs :=
  wit_fs T_FILE 3 (fun _ => 0) [mk_inode 1 5 1 false false 0 0 0 0 0 (repeat 0 13)].

Lemma iupdate_ilock_witness :
  exists st1, iupdate mkfs_sb 0 wit_two = Ok st1 /\
  exists st2, ilock mkfs_sb 1 st1 = Ok st2 /\
    let x := inode_at wit_two 0 in let y := inode_at wit_two 1 in
    inode_at st2 1 = mk_inode (i_dev y) (i_inum y) (i_ref y) true true
      (i_type x) (i_major x) (i_minor x) (i_nlink x) (i_size x) (i_addrs x).
Proof.
  eexists. split; [vm_compute; reflexivity|].
  eapply (iupdate_ilock mkfs_sb mkfs_sb_ok wit_two _ 0 1).
  - split; simpl; try lia; try done. repeat constructor; lia.
  - simpl. lia.
  - done.
  - vm_compute. reflexivity.
  - simpl. lia.
  - done.
  - simpl. lia.
  - done.
  - done.
Defined.
