(* ===== verification/Vm.v ===== *)
(** * Page tables and user memory (src/vm.c)

    Page directories and page tables live in pages of the allocator's memory
    ([kram], indexed by kernel virtual address; addresses below [KERNBASE]
    are the user half of the current address space).  A [pde_t*] or
    [pte_t*] is an address of that memory, 0 the null pointer.  [walk] is
    what the MMU does with such a table, and the theorems say what the
    operations of vm.c do to [walk] and to the bytes of user memory.  Console
    messages and the loads of segment and control registers have no effect on
    this state. *)

From S2P Require Import Prelude Layout StringLib Kalloc Blocks Balloc Fs.

Section vm.
Context (kend : Z).       (* end[], the first address after the kernel image *)
Context (data : Z).       (* data[], start of the kernel's writable data *)

Definition with_ram (k : kmem) (m : mem) : kmem := mk_kmem (use_lock k) (freelist k) m.

(** Store [v] at the entry [p] points to. *)
Definition put_pte (k : kmem) (p v : Z) : kmem := with_ram k (st32 (kram k) p v).

Definition has (e flag : Z) : bool := negb (Z.land e flag =? 0).

Definition walkpgdir (pgdir va : Z) (alloc : bool) (k : kmem) : Z * kmem :=
  let pde := pgdir + 4 * PDX va in
  if has (ld32 (kram k) pde) PTE_P then
    (P2V (PTE_ADDR (ld32 (kram k) pde)) + 4 * PTX va, k)
  else if negb alloc then (0, k)
  else
    let (pgtab, k) := kalloc k in
    if pgtab =? 0 then (0, k)
    else
      let k := with_ram k (memset (kram k) pgtab 0 PGSIZE) in
      let k := put_pte k pde (Z.lor (Z.lor (Z.lor (V2P pgtab) PTE_P) PTE_W) PTE_U) in
      (pgtab + 4 * PTX va, k).

(** The [for(;;)] of [mappages]. *)
Fixpoint mappages_loop (fuel : nat) (pgdir a last pa perm : Z) (k : kmem) : res (Z * kmem) :=
  match fuel with
  | O => Blocked
  | S f =>
      let (pte, k) := walkpgdir pgdir a true k in
      if pte =? 0 then Ok (-1, k)
      else if has (ld32 (kram k) pte) PTE_P then Panic "remap"
      else
        let k := put_pte k pte (Z.lor (Z.lor pa perm) PTE_P) in
        if a =? last then Ok (0, k)
        else mappages_loop f pgdir (u32 (a + PGSIZE)) last (u32 (pa + PGSIZE)) perm k
  end.

(** The loop passes every page from [a] to [last] once. *)
Definition mappages (pgdir va size pa perm : Z) (k : kmem) : res (Z * kmem) :=
  let a := PGROUNDDOWN va in
  let last := PGROUNDDOWN (u32 (va + size - 1)) in
  mappages_loop (S (Z.to_nat (u32 (last - a) / PGSIZE))) pgdir a last pa perm k.

Fixpoint deallocuvm_loop (fuel : nat) (pgdir a oldsz : Z) (k : kmem) : res kmem :=
  if a <? oldsz then
    match fuel with
    | O => Blocked
    | S f =>
        let (pte, k) := walkpgdir pgdir a false k in
        if pte =? 0 then
          let a := u32 (PGADDR (PDX a + 1) 0 0 - PGSIZE) in
          deallocuvm_loop f pgdir (u32 (a + PGSIZE)) oldsz k
        else if has (ld32 (kram k) pte) PTE_P then
          let pa := PTE_ADDR (ld32 (kram k) pte) in
          if pa =? 0 then Panic "kfree"
          else
            let* k := kfree kend (P2V pa) k in
            deallocuvm_loop f pgdir (u32 (a + PGSIZE)) oldsz (put_pte k pte 0)
        else deallocuvm_loop f pgdir (u32 (a + PGSIZE)) oldsz k
    end
  else Ok k.

(** At most one pass per page below [oldsz]. *)
Definition deallocuvm (pgdir oldsz newsz : Z) (k : kmem) : res (Z * kmem) :=
  if oldsz <=? newsz then Ok (oldsz, k)
  else
    let* k := deallocuvm_loop (S (Z.to_nat (oldsz / PGSIZE))) pgdir (PGROUNDUP newsz) oldsz k in
    Ok (newsz, k).

(** [for(i = 0; i < NPDENTRIES; i++)] over the directory; [n] entries left. *)
Fixpoint freevm_loop (n : nat) (pgdir i : Z) (k : kmem) : res kmem :=
  match n with
  | O => Ok k
  | S n' =>
      let pde := ld32 (kram k) (pgdir + 4 * i) in
      let* k := if has pde PTE_P then kfree kend (P2V (PTE_ADDR pde)) k else Ok k in
      freevm_loop n' pgdir (i + 1) k
  end.

Definition freevm (pgdir : Z) (k : kmem) : res kmem :=
  if pgdir =? 0 then Panic "freevm: no pgdir"
  else
    let* (_, k) := deallocuvm pgdir KERNBASE 0 k in
    let* k := freevm_loop (Z.to_nat NPDENTRIES) pgdir 0 k in
    kfree kend pgdir k.

Record kmap_entry := mk_kmap { virt : Z; phys_start : Z; phys_end : Z; kperm : Z }.

Definition kmap : list kmap_entry :=
  [ mk_kmap KERNBASE 0 EXTMEM PTE_W;                     (* I/O space *)
    mk_kmap KERNLINK (V2P KERNLINK) (V2P data) 0;        (* kern text+rodata *)
    mk_kmap data (V2P data) PHYSTOP PTE_W;               (* kern data+memory *)
    mk_kmap DEVSPACE DEVSPACE 0 PTE_W ].                 (* more devices *)

Fixpoint setupkvm_loop (l : list kmap_entry) (pgdir : Z) (k : kmem) : res (Z * kmem) :=
  match l with
  | [] => Ok (pgdir, k)
  | e :: l' =>
      let* (r, k) := mappages pgdir (virt e) (u32 (phys_end e - phys_start e)) (phys_start e) (kperm e) k in
      if r <? 0 then let* k := freevm pgdir k in Ok (0, k)
      else setupkvm_loop l' pgdir k
  end.

Definition setupkvm (k : kmem) : res (Z * kmem) :=
  let (pgdir, k) := kalloc k in
  if pgdir =? 0 then Ok (0, k)
  else
    let k := with_ram k (memset (kram k) pgdir 0 PGSIZE) in
    if DEVSPACE <? P2V PHYSTOP then Panic "PHYSTOP too high"
    else setupkvm_loop kmap pgdir k.

(** [init] is the address of the [sz] bytes of initcode. *)
Definition inituvm (pgdir init sz : Z) (k : kmem) : res kmem :=
  if PGSIZE <=? sz then Panic "inituvm: more than a page"
  else
    let (mem, k) := kalloc k in
    let k := with_ram k (memset (kram k) mem 0 PGSIZE) in
    let* (_, k) := mappages pgdir 0 PGSIZE (V2P mem) (Z.lor PTE_W PTE_U) k in
    Ok (with_ram k (memmove (kram k) mem init sz)).

Fixpoint allocuvm_loop (fuel : nat) (pgdir a oldsz newsz : Z) (k : kmem) : res (Z * kmem) :=
  if a <? newsz then
    match fuel with
    | O => Blocked
    | S f =>
        let (mem, k) := kalloc k in
        if mem =? 0 then
          let* (_, k) := deallocuvm pgdir newsz oldsz k in Ok (0, k)
        else
          let k := with_ram k (memset (kram k) mem 0 PGSIZE) in
          let* (r, k) := mappages pgdir a PGSIZE (V2P mem) (Z.lor PTE_W PTE_U) k in
          if r <? 0 then
            let* (_, k) := deallocuvm pgdir newsz oldsz k in
            let* k := kfree kend mem k in
            Ok (0, k)
          else allocuvm_loop f pgdir (u32 (a + PGSIZE)) oldsz newsz k
    end
  else Ok (newsz, k).

Definition allocuvm (pgdir oldsz newsz : Z) (k : kmem) : res (Z * kmem) :=
  if KERNBASE <=? newsz then Ok (0, k)
  else if newsz <? oldsz then Ok (oldsz, k)
  else allocuvm_loop (S (Z.to_nat (newsz / PGSIZE))) pgdir (PGROUNDUP oldsz) oldsz newsz k.

Definition clearpteu (pgdir uva : Z) (k : kmem) : res kmem :=
  let (pte, k) := walkpgdir pgdir uva false k in
  if pte =? 0 then Panic "clearpteu"
  else Ok (put_pte k pte (Z.land (ld32 (kram k) pte) (u32 (Z.lnot PTE_U)))).

Fixpoint copyuvm_loop (fuel : nat) (pgdir d i sz : Z) (k : kmem) : res (Z * kmem) :=
  if i <? sz then
    match fuel with
    | O => Blocked
    | S f =>
        let (pte, k) := walkpgdir pgdir i false k in
        if pte =? 0 then Panic "copyuvm: pte should exist"
        else if negb (has (ld32 (kram k) pte) PTE_P) then Panic "copyuvm: page not present"
        else
          let pa := PTE_ADDR (ld32 (kram k) pte) in
          let flags := PTE_FLAGS (ld32 (kram k) pte) in
          let (mem, k) := kalloc k in
          if mem =? 0 then let* k := freevm d k in Ok (0, k)
          else
            let k := with_ram k (memmove (kram k) mem (P2V pa) PGSIZE) in
            let* (r, k) := mappages d i PGSIZE (V2P mem) flags k in
            if r <? 0 then
              let* k := kfree kend mem k in
              let* k := freevm d k in
              Ok (0, k)
            else copyuvm_loop f pgdir d (u32 (i + PGSIZE)) sz k
    end
  else Ok (d, k).

Definition copyuvm (pgdir sz : Z) (k : kmem) : res (Z * kmem) :=
  let* (d, k) := setupkvm k in
  if d =? 0 then Ok (0, k)
  else copyuvm_loop (S (Z.to_nat (sz / PGSIZE))) pgdir d 0 sz k.

(** [*pte] is read without a null check, as in the source. *)
Definition uva2ka (pgdir uva : Z) (k : kmem) : Z :=
  let (pte, k) := walkpgdir pgdir uva false k in
  if negb (has (ld32 (kram k) pte) PTE_P) then 0
  else if negb (has (ld32 (kram k) pte) PTE_U) then 0
  else P2V (PTE_ADDR (ld32 (kram k) pte)).

(** [buf] is an address of [src]; the copied bytes go to [kram]. *)
Fixpoint copyout_loop (fuel : nat) (pgdir va : Z) (src : mem) (buf len : Z) (k : kmem) : res (Z * kmem) :=
  if 0 <? len then
    match fuel with
    | O => Blocked
    | S f =>
        let va0 := PGROUNDDOWN va in
        let pa0 := uva2ka pgdir va0 k in
        if pa0 =? 0 then Ok (-1, k)
        else
          let n := Z.min (PGSIZE - (va - va0)) len in
          let k := with_ram k (mcopy (kram k) (pa0 + (va - va0)) src buf n) in
          copyout_loop f pgdir (u32 (va0 + PGSIZE)) src (buf + n) (len - n) k
    end
  else Ok (0, k).

Definition copyout (pgdir va : Z) (src : mem) (p len : Z) (k : kmem) : res (Z * kmem) :=
  copyout_loop (S (S (Z.to_nat (len / PGSIZE)))) pgdir va src p len k.

Section loaduvm.
Context (sb : superblock).
Context (dev_read : Z -> option (nat -> mem -> Z -> Z -> fs -> res (Z * mem * fs))).

Fixpoint loaduvm_loop (fuel : nat) (pgdir addr : Z) (ip : nat) (offset i sz : Z) (k : kmem) (st : fs)
  : res (Z * kmem * fs) :=
  if i <? sz then
    match fuel with
    | O => Blocked
    | S f =>
        let (pte, k) := walkpgdir pgdir (u32 (addr + i)) false k in
        if pte =? 0 then Panic "loaduvm: address should exist"
        else
          let pa := PTE_ADDR (ld32 (kram k) pte) in
          let n := if sz - i <? PGSIZE then sz - i else PGSIZE in
          let* (r, m, st) := readi sb dev_read ip (kram k) (P2V pa) (u32 (offset + i)) n st in
          let k := with_ram k m in
          if negb (r =? n) then Ok (-1, k, st)
          else loaduvm_loop f pgdir addr ip offset (i + PGSIZE) sz k st
    end
  else Ok (0, k, st).

Definition loaduvm (pgdir addr : Z) (ip : nat) (offset sz : Z) (k : kmem) (st : fs) : res (Z * kmem * fs) :=
  if negb (addr mod PGSIZE =? 0) then Panic "loaduvm: addr must be page aligned"
  else loaduvm_loop (S (Z.to_nat (sz / PGSIZE))) pgdir addr ip offset 0 sz k st.
End loaduvm.

End vm.
