(* ===== verification/VmSpec.v ===== *)
(** * Correctness of the page-table operations (src/vm.c)

    [walk] is the two-level translation the MMU performs.  [pt_ok] says that a
    directory and its tables are distinct pages outside the free list, [uvm_ok]
    adds the user pages.  Every operation of vm.c is described by what it does
    to [walk], to the free list and to the bytes outside the tables. *)

From S2P Require Import Prelude Layout StringLib Kalloc Vm.

Definition present (e : Z) : bool := has e PTE_P.
Definition pgof (e : Z) : Z := P2V (PTE_ADDR e).
Definition pde_at (m : mem) (pg d : Z) : Z := ld32 m (pg + 4 * d).
Definition tbl (m : mem) (pg d : Z) : Z := pgof (pde_at m pg d).

(** The page-table entry the MMU finds for [va]; 0 when the directory has none. *)
Definition walk (m : mem) (pg va : Z) : Z :=
  if present (pde_at m pg (PDX va)) then ld32 m (tbl m pg (PDX va) + 4 * PTX va) else 0.

Definition in_page (p x : Z) : Prop := p <= x < p + PGSIZE.

(** Pages that hold the directory or one of its tables. *)
Definition tabled (m : mem) (pg p : Z) : Prop :=
  p = pg \/ exists d, 0 <= d < 1024 /\ present (pde_at m pg d) = true /\ p = tbl m pg d.

(** ** Entries *)

Lemma u32_lor a b : u32 (Z.lor a b) = Z.lor (u32 a) (u32 b).
Proof.
  unfold u32. rewrite <- !Z.land_ones by lia. apply Z.land_lor_distr_l.
Qed.

Lemma present_lor e : present (Z.lor e PTE_P) = true.
Proof.
  unfold present, has, PTE_P. rewrite Z.land_lor_distr_l. change (Z.land 1 1) with 1.
  destruct (Z.eqb_spec (Z.lor (Z.land e 1) 1) 0) as [E|]; [|done].
  apply Z.lor_eq_0_iff in E. lia.
Qed.

Lemma present_0 : present 0 = false.
Proof. reflexivity. Qed.

Lemma land_lor_high a f : 0 <= f < 4096 -> a mod 4096 = 0 -> Z.lor a f = a + f.
Proof.
  intros Hf Ha. assert (E : a = Z.shiftl (a / 4096) 12) by (rewrite Z.shiftl_mul_pow2; zdiv).
  rewrite E at 1. rewrite lor_disjoint_add by lia. change (2 ^ 12) with 4096. zdiv.
Qed.

Section spec.
Context (kend : Z).
Abbreviation page_ok := (page_ok kend).
Abbreviation kinv := (kinv kend).

(** An entry made of a page's physical address and flag bits. *)
Lemma V2P_page p : page_ok p -> V2P p = p - KERNBASE.
Proof.
  intros (_ & _ & H). unfold V2P. apply u32_small. unfold KERNBASE, PHYSTOP in *. lia.
Qed.

Lemma V2P_page_mod p : page_ok p -> V2P p mod 4096 = 0.
Proof.
  intros H. rewrite V2P_page by done. destruct H as (H & _). unfold PGSIZE, KERNBASE in *. zdiv.
Qed.

Lemma V2P_page_range p : page_ok p -> 0 <= V2P p < PHYSTOP.
Proof. intros H. rewrite V2P_page by done. destruct H as (_ & _ & H). lia. Qed.

Lemma entry_parts p f : page_ok p -> 0 <= f < 4096 ->
  pgof (Z.lor (V2P p) f) = p /\ PTE_FLAGS (Z.lor (V2P p) f) = f /\ u32 (Z.lor (V2P p) f) = Z.lor (V2P p) f.
Proof.
  intros Hp Hf. pose proof (V2P_page_mod p Hp). pose proof (V2P_page_range p Hp) as Hr.
  rewrite land_lor_high by done. unfold pgof. unfold PHYSTOP in Hr.
  rewrite PTE_ADDR_eq, PTE_FLAGS_eq by lia. unfold PGSIZE.
  replace (V2P p + f - (V2P p + f) mod 4096) with (V2P p) by zdiv.
  split_and!; [| zdiv | apply u32_small; lia].
  destruct Hp as (_ & _ & Hk). apply P2V_V2P. unfold KERNBASE, PHYSTOP in *. lia.
Qed.

(** ** Well-formed page tables *)

Record pt_ok (m : mem) (pg : Z) (l : list Z) : Prop := mk_pt_ok {
  pt_dir : page_ok pg;
  pt_dir_out : pg ∉ l;
  pt_tbl : forall d, 0 <= d < 1024 -> present (pde_at m pg d) = true ->
           page_ok (tbl m pg d) /\ (tbl m pg d ∉ l) /\ tbl m pg d <> pg;
  pt_inj : forall d d', 0 <= d < 1024 -> 0 <= d' < 1024 ->
           present (pde_at m pg d) = true -> present (pde_at m pg d') = true ->
           tbl m pg d = tbl m pg d' -> d = d'
}.

Lemma tabled_ok m pg l p : pt_ok m pg l -> tabled m pg p -> page_ok p /\ p ∉ l.
Proof.
  intros H [-> | (d & Hd & Hp & ->)].
  - destruct H; done.
  - destruct (pt_tbl _ _ _ H d Hd Hp) as (? & ? & _). done.
Qed.

Lemma page_sep p q x y :
  page_ok p -> page_ok q -> p <> q -> in_page p x -> in_page q y -> x <> y.
Proof.
  intros Hp Hq Hn Hx Hy. pose proof (page_disjoint kend p q Hp Hq Hn).
  unfold in_page, PGSIZE in *. lia.
Qed.

Lemma PDX_range va : 0 <= PDX va < 1024.
Proof. rewrite PDX_eq. apply Z.mod_pos_bound. lia. Qed.
Lemma PTX_range va : 0 <= PTX va < 1024.
Proof. rewrite PTX_eq. apply Z.mod_pos_bound. lia. Qed.

(** An address's page number is its two indices. *)
Lemma same_page va va' : 0 <= va < 2 ^ 32 -> 0 <= va' < 2 ^ 32 ->
  (PDX va = PDX va' /\ PTX va = PTX va') <-> va / 4096 = va' / 4096.
Proof.
  intros. rewrite !PDX_eq, !PTX_eq. change (2 ^ 22) with 4194304. change (2 ^ 12) with 4096.
  split; [intros [? ?]; zdiv | intros; split; zdiv].
Qed.

(** The tables only depend on the bytes of their own pages. *)
Lemma pde_frame m m' pg d : 0 <= d < 1024 ->
  (forall x, in_page pg x -> m' x = m x) -> pde_at m' pg d = pde_at m pg d.
Proof.
  intros Hd H. unfold pde_at. apply ld32_ext. intros x Hx. apply H. unfold in_page, PGSIZE. lia.
Qed.

Lemma tabled_frame m m' pg p :
  (forall x, in_page pg x -> m' x = m x) -> tabled m' pg p <-> tabled m pg p.
Proof.
  intros H. unfold tabled, tbl.
  split; (intros [->|(d & Hd & Hp & ->)]; [by left|]); right; exists d;
    pose proof (pde_frame m m' pg d Hd H) as E; rewrite E in *; done.
Qed.

Lemma walk_frame m m' pg va :
  (forall p x, tabled m pg p -> in_page p x -> m' x = m x) -> walk m' pg va = walk m pg va.
Proof.
  intros H. pose proof (PDX_range va). pose proof (PTX_range va).
  assert (Hpg : forall x, in_page pg x -> m' x = m x) by (intros x Hx; eapply H; [by left | done]).
  unfold walk, tbl. rewrite (pde_frame m m') by done.
  destruct (present (pde_at m pg (PDX va))) eqn:E; [|done].
  apply ld32_ext. intros x Hx. apply (H (tbl m pg (PDX va))).
  - right. by exists (PDX va).
  - unfold in_page, PGSIZE, tbl. lia.
Qed.

Lemma pt_ok_frame m m' pg l :
  pt_ok m pg l -> (forall x, in_page pg x -> m' x = m x) -> pt_ok m' pg l.
Proof.
  intros [H1 H2 H3 H4] H. constructor; auto.
  - intros d Hd. unfold tbl. rewrite (pde_frame m m') by done. by apply H3.
  - intros d d' Hd Hd'. unfold tbl. rewrite !(pde_frame m m') by done. by apply H4.
Qed.

Lemma pt_ok_free m pg l l' : pt_ok m pg l -> (forall p, p ∈ l' -> p ∈ l \/ ~ tabled m pg p) -> pt_ok m pg l'.
Proof.
  intros [H1 H2 H3 H4] Hl. constructor; auto.
  - intros Hin. destruct (Hl _ Hin) as [?|Hn]; [done|]. apply Hn. by left.
  - intros d Hd Hp. destruct (H3 d Hd Hp) as (? & ? & ?). split_and!; auto.
    intros Hin. destruct (Hl _ Hin) as [?|Hn]; [done|]. apply Hn. right. by exists d.
Qed.

(** Writing one entry of a present table. *)
Definition pte_addr (m : mem) (pg va : Z) : Z := tbl m pg (PDX va) + 4 * PTX va.

Lemma set_pte m pg l va v :
  pt_ok m pg l -> 0 <= va < 2 ^ 32 -> present (pde_at m pg (PDX va)) = true ->
  let m' := st32 m (pte_addr m pg va) v in
  (forall x, ~ in_page (tbl m pg (PDX va)) x -> m' x = m x) /\
  (forall x, in_page pg x -> m' x = m x) /\
  (forall va', 0 <= va' < 2 ^ 32 ->
     walk m' pg va' = if va / 4096 =? va' / 4096 then u32 v else walk m pg va').
Proof.
  intros H Hva Hp m'. pose proof (PDX_range va). pose proof (PTX_range va).
  destruct (pt_tbl _ _ _ H (PDX va)) as (Ht & _ & Hn); auto.
  assert (Hout : forall x, ~ in_page (tbl m pg (PDX va)) x -> m' x = m x).
  { intros x Hx. subst m'. apply st32_other. unfold in_page, pte_addr, PGSIZE in *. lia. }
  assert (Hpg : forall x, in_page pg x -> m' x = m x).
  { intros x Hx. apply Hout. intros Hx'. eapply (page_sep pg _ x x); eauto. apply H. }
  split_and!; auto. intros va' Hva'.
  pose proof (PDX_range va'). pose proof (PTX_range va').
  unfold walk, tbl. rewrite (pde_frame m m') by done.
  destruct (Z.eqb_spec (va / 4096) (va' / 4096)) as [E|E].
  - apply same_page in E as [E1 E2]; auto. rewrite <- E1, <- E2, Hp.
    subst m'. unfold pte_addr, tbl. apply ld32_st32_same.
  - destruct (present (pde_at m pg (PDX va'))) eqn:Hp'; [|done].
    subst m'. apply ld32_st32_other. unfold pte_addr, tbl.
    destruct (Z.eq_dec (PDX va) (PDX va')) as [E1|E1].
    + rewrite <- E1. assert (PTX va <> PTX va') by (intros E2; apply E, same_page; auto). lia.
    + destruct (pt_tbl _ _ _ H (PDX va')) as (Ht' & _); auto.
      assert (Hd : tbl m pg (PDX va) <> tbl m pg (PDX va')).
      { intros E2. apply E1. eapply pt_inj; eauto. }
      pose proof (page_disjoint kend _ _ Ht Ht' Hd). unfold tbl, PGSIZE in *. lia.
Qed.

(** ** Adding tables

    [grow] relates an address space and the free list before and after calls
    that may take pages off the list for new tables and write entries: bytes
    outside the tables are untouched. *)
Record grow (pg : Z) (k : kmem) (l : list Z) (k' : kmem) (l' : list Z) : Prop := mk_grow {
  gr_inv : kinv k' l';
  gr_pt : pt_ok (kram k') pg l';
  gr_tab : forall p, tabled (kram k') pg p <-> tabled (kram k) pg p \/ p ∈ l /\ p ∉ l';
  gr_sub : forall p, p ∈ l' -> p ∈ l;
  gr_frame : forall x, (forall p, tabled (kram k') pg p -> ~ in_page p x) -> kram k' x = kram k x
}.

Lemma grow_refl pg k l : kinv k l -> pt_ok (kram k) pg l -> grow pg k l k l.
Proof. intros. constructor; auto. intros p. split; [by left | intros [?|[? ?]]; done]. Qed.

Lemma grow_trans pg k l k1 l1 k2 l2 : grow pg k l k1 l1 -> grow pg k1 l1 k2 l2 -> grow pg k l k2 l2.
Proof.
  intros [A1 A2 A3 A4 A5] [B1 B2 B3 B4 B5]. constructor; auto.
  - intros p. rewrite B3, A3.
    destruct (decide (p ∈ l1)), (decide (p ∈ l2)), (decide (p ∈ l)); naive_solver.
  - intros x Hx. rewrite B5 by done. apply A5. intros p Hp. apply Hx, B3. by left.
Qed.

Lemma put_pte_grow pg k l va v :
  kinv k l -> pt_ok (kram k) pg l -> 0 <= va < 2 ^ 32 -> present (pde_at (kram k) pg (PDX va)) = true ->
  grow pg k l (put_pte k (pte_addr (kram k) pg va) v) l.
Proof.
  intros Hi H Hva Hp. pose proof (PDX_range va) as Hd.
  destruct (set_pte _ _ _ _ v H Hva Hp) as (Hout & Hpg & _).
  destruct (pt_tbl _ _ _ H (PDX va)) as (Ht & Hl & Hn); auto.
  assert (Htab : tabled (kram k) pg (tbl (kram k) pg (PDX va))) by (right; by exists (PDX va)).
  constructor; simpl.
  - unfold put_pte, with_ram. apply kinv_frame; auto.
    + apply byte_mem_st32. apply Hi.
    + intros u x Hu Hx. apply Hout. intros Hx'.
      assert (Hu' : page_ok u) by (destruct Hi as (_ & _ & Hf & _); eapply Forall_forall in Hf; eauto).
      eapply (page_sep u _ x x Hu' Ht); [by intros ->| exact Hx | exact Hx' | done].
  - eapply pt_ok_frame; eauto.
  - intros p. rewrite tabled_frame by exact Hpg. split; [by left | intros [?|[? ?]]; done].
  - auto.
  - intros x Hx. apply Hout, Hx. rewrite tabled_frame by exact Hpg. done.
Qed.

(** A zeroed page [t] entered at index [d0] of the directory. *)
Definition new_table (m : mem) (pg d0 t : Z) : mem :=
  st32 (memset m t 0 PGSIZE) (pg + 4 * d0) (Z.lor (V2P t) 7).

Lemma new_table_out m pg d0 t x : 0 <= d0 < 1024 ->
  ~ in_page pg x -> ~ in_page t x -> new_table m pg d0 t x = m x.
Proof.
  unfold new_table, in_page, PGSIZE. intros. rewrite st32_other, memset_spec, mfill_out by lia. done.
Qed.

Lemma new_table_zero m pg d0 t x : 0 <= d0 < 1024 -> page_ok pg -> page_ok t -> t <> pg ->
  in_page t x -> new_table m pg d0 t x = 0.
Proof.
  intros Hd Hg Ht Hn Hx. pose proof (page_disjoint kend t pg Ht Hg Hn).
  unfold new_table, in_page, PGSIZE in *. rewrite st32_other, memset_spec, mfill_in by lia. done.
Qed.

Lemma new_table_pde m pg d0 t d : 0 <= d0 < 1024 -> 0 <= d < 1024 -> page_ok pg -> page_ok t -> t <> pg ->
  pde_at (new_table m pg d0 t) pg d = if d =? d0 then Z.lor (V2P t) 7 else pde_at m pg d.
Proof.
  intros Hd0 Hd Hg Ht Hn. pose proof (page_disjoint kend t pg Ht Hg Hn) as Hs. unfold pde_at, new_table.
  destruct (Z.eqb_spec d d0) as [->|Hne].
  - rewrite ld32_st32_same. apply (entry_parts t 7); [done | lia].
  - rewrite ld32_st32_other by lia. apply ld32_ext. intros x Hx.
    unfold PGSIZE in *. rewrite memset_spec, mfill_out by lia. done.
Qed.

Lemma present_new t : present (Z.lor (V2P t) 7) = true.
Proof.
  change 7 with (Z.lor 6 PTE_P). rewrite Z.lor_assoc. apply present_lor.
Qed.

(** What adding a table does: the directory gains one empty table. *)
Lemma new_table_walk m pg l d0 t :
  pt_ok m pg l -> t ∈ l -> page_ok t -> 0 <= d0 < 1024 -> present (pde_at m pg d0) = false ->
  (forall va, walk (new_table m pg d0 t) pg va = walk m pg va) /\
  (forall p, tabled (new_table m pg d0 t) pg p <-> tabled m pg p \/ p = t) /\
  (forall l', (forall p, p ∈ l' -> p ∈ l) -> t ∉ l' -> pt_ok (new_table m pg d0 t) pg l').
Proof.
  intros H Hl Ht Hd0 Hp0. assert (Hg : page_ok pg) by apply H.
  assert (Hn : t <> pg) by (intros ->; by apply (pt_dir_out _ _ _ H)).
  assert (Hpde : forall d, 0 <= d < 1024 ->
    pde_at (new_table m pg d0 t) pg d = if d =? d0 then Z.lor (V2P t) 7 else pde_at m pg d).
  { intros. by apply new_table_pde. }
  assert (Htbl : tbl (new_table m pg d0 t) pg d0 = t).
  { unfold tbl. rewrite Hpde, Z.eqb_refl by done. apply (entry_parts t 7); [done | lia]. }
  assert (Hold : forall d, 0 <= d < 1024 -> d <> d0 -> tbl (new_table m pg d0 t) pg d = tbl m pg d).
  { intros d Hd Hne. unfold tbl. rewrite Hpde by done. by destruct (Z.eqb_spec d d0). }
  assert (Hne : forall d, 0 <= d < 1024 -> present (pde_at m pg d) = true -> d <> d0 /\ tbl m pg d <> t).
  { intros d Hd Hp. split; [intros ->; congruence|]. intros E.
    destruct (pt_tbl _ _ _ H d Hd Hp) as (_ & Hx & _). by rewrite E in Hx. }
  split_and!.
  - intros va. pose proof (PDX_range va) as Hv. pose proof (PTX_range va). unfold walk.
    rewrite Hpde by done. destruct (Z.eqb_spec (PDX va) d0) as [->|Hd].
    + rewrite present_new, Hp0, Htbl. unfold ld32.
      rewrite !new_table_zero by (auto; unfold in_page, PGSIZE; lia). done.
    + destruct (present (pde_at m pg (PDX va))) eqn:Hp; [|done]. rewrite Hold by done.
      destruct (pt_tbl _ _ _ H _ Hv Hp) as (Hto & _ & Htn). destruct (Hne _ Hv Hp) as [_ Htt].
      apply ld32_ext. intros x Hx.
      assert (in_page (tbl m pg (PDX va)) x) by (unfold in_page, PGSIZE; lia).
      apply new_table_out; auto; intros Hx';
        [apply (page_sep _ pg x x Hto Hg) | apply (page_sep _ t x x Hto Ht)]; auto.
  - intros p. split.
    + intros [->|(d & Hd & Hp & ->)]; [left; by left|]. rewrite Hpde in Hp by done.
      destruct (Z.eqb_spec d d0) as [->|Hx]; [by right; rewrite Htbl|].
      left. right. exists d. by rewrite Hold.
    + intros [[->|(d & Hd & Hp & ->)] | ->].
      * by left.
      * destruct (Hne d Hd Hp) as [Hx _]. right. exists d. rewrite Hpde, Hold by done.
        by destruct (Z.eqb_spec d d0).
      * right. exists d0. rewrite Hpde, Z.eqb_refl, Htbl by done. by rewrite present_new.
  - intros l' Hs Htl. constructor; auto.
    + intros Hin. by apply (pt_dir_out _ _ _ H), Hs.
    + intros d Hd. rewrite Hpde by done. destruct (Z.eqb_spec d d0) as [->|Hx].
      * rewrite Htbl. done.
      * intros Hp. rewrite Hold by done. destruct (pt_tbl _ _ _ H d Hd Hp) as (? & ? & ?).
        split_and!; auto.
    + intros d d' Hd Hd'. rewrite !Hpde by done.
      destruct (Z.eqb_spec d d0) as [->|Hx], (Z.eqb_spec d' d0) as [->|Hx']; auto.
      * intros _ Hp. rewrite Htbl, Hold by done. destruct (Hne d' Hd' Hp). congruence.
      * intros Hp _. rewrite Htbl, Hold by done. destruct (Hne d Hd Hp). congruence.
      * intros Hp Hp'. rewrite !Hold by done. by apply (pt_inj _ _ _ H).
Qed.

Lemma walkpgdir_alloc pg va k l :
  kinv k l -> pt_ok (kram k) pg l -> 0 <= va < 2 ^ 32 ->
  (walkpgdir pg va true k = (0, k) /\ l = [] /\ walk (kram k) pg va = 0) \/
  exists k' l', walkpgdir pg va true k = (pte_addr (kram k') pg va, k') /\ grow pg k l k' l' /\
    present (pde_at (kram k') pg (PDX va)) = true /\
    (forall va', walk (kram k') pg va' = walk (kram k) pg va').
Proof.
  intros Hi H Hva. pose proof (PDX_range va) as Hd. unfold walkpgdir. fold (pde_at (kram k) pg (PDX va)).
  fold (present (pde_at (kram k) pg (PDX va))).
  destruct (present (pde_at (kram k) pg (PDX va))) eqn:Hp.
  - right. exists k, l. split_and!; auto. by apply grow_refl.
  - cbn [negb]. destruct l as [|t l].
    + left. destruct Hi as (Hc & _). simpl in Hc. unfold kalloc. rewrite Hc. simpl.
      split_and!; [done | done | unfold walk; by rewrite Hp].
    + right. destruct (kalloc_pop kend k t l Hi) as [-> Hi'].
      assert (Ht : page_ok t) by (destruct Hi as (_ & _ & Hf & _); by inversion Hf).
      assert (Htl : t ∉ l) by (destruct Hi as (_ & Hnd & _); by inversion Hnd).
      destruct (Z.eqb_spec t 0) as [->|_]; [pose proof (page_ok_nonzero kend 0 Ht); lia|].
      destruct (new_table_walk (kram k) pg (t :: l) (PDX va) t) as (Hw & Htab & Hok); auto.
      { set_solver. }
      assert (Hg : page_ok pg) by apply H.
      assert (Hn : t <> pg) by (intros ->; apply (pt_dir_out _ _ _ H); set_solver).
      set (k' := mk_kmem (use_lock k) (ld32 (kram k) t) (new_table (kram k) pg (PDX va) t)).
      exists k', l.
      assert (Hptr : tbl (kram k') pg (PDX va) = t).
      { unfold tbl. simpl. rewrite new_table_pde, Z.eqb_refl by auto. apply (entry_parts t 7); [done|lia]. }
      split_and!.
      * unfold pte_addr. rewrite Hptr. unfold put_pte, with_ram, k', new_table. cbn [kram use_lock freelist].
        by rewrite <- !Z.lor_assoc.
      * constructor.
        -- apply (kinv_frame kend _ l _ Hi').
           { apply byte_mem_st32, byte_mem_memset; [apply Hi | unfold PGSIZE; lia]. }
           intros u x Hu Hx. simpl. apply new_table_out; auto; intros Hx'.
           ++ eapply (page_sep u pg x x); eauto.
              { destruct Hi as (_ & _ & Hf & _). eapply Forall_forall in Hf; [exact Hf | set_solver]. }
              intros ->. apply (pt_dir_out _ _ _ H). set_solver.
           ++ eapply (page_sep u t x x); eauto; [|by intros ->].
              destruct Hi as (_ & _ & Hf & _). eapply Forall_forall in Hf; [exact Hf | set_solver].
        -- apply Hok; [set_solver | done].
        -- intros p. simpl. rewrite Htab. rewrite elem_of_cons. split; [|naive_solver].
           intros [?| ->]; [by left | right; auto].
        -- set_solver.
        -- intros x Hx. simpl. simpl in Hx. apply new_table_out; auto; apply Hx, Htab; [left; by left | by right].
      * simpl. rewrite new_table_pde, Z.eqb_refl by auto. apply present_new.
      * exact Hw.
Qed.

(** ** mappages *)

(** The entries after [j] pages from [a] have been mapped to [pa] on. *)
Definition mapped_walk (m : mem) (pg a j pa perm va : Z) : Z :=
  if (a <=? va) && (va <? a + j * PGSIZE)
  then u32 (Z.lor (Z.lor (u32 (pa + (va - va mod PGSIZE - a))) perm) PTE_P)
  else walk m pg va.

Lemma pte_addr_nonzero m pg l va : pt_ok m pg l -> present (pde_at m pg (PDX va)) = true -> pte_addr m pg va <> 0.
Proof.
  intros H Hp. destruct (pt_tbl _ _ _ H _ (PDX_range va) Hp) as (Ht & _).
  pose proof (page_ok_nonzero kend _ Ht). pose proof (PTX_range va). unfold pte_addr. lia.
Qed.

Lemma walk_pte m pg va : present (pde_at m pg (PDX va)) = true -> walk m pg va = ld32 m (pte_addr m pg va).
Proof. intros Hp. unfold walk. by rewrite Hp. Qed.

Lemma mappages_loop_spec n : forall fuel pg a pa perm k l,
  kinv k l -> pt_ok (kram k) pg l -> (n < fuel)%nat -> a mod PGSIZE = 0 -> 0 <= a ->
  a + (Z.of_nat n + 1) * PGSIZE <= 2 ^ 32 ->
  (forall va, a <= va < a + (Z.of_nat n + 1) * PGSIZE -> present (walk (kram k) pg va) = false) ->
  exists r k' l' j, mappages_loop fuel pg a (a + Z.of_nat n * PGSIZE) pa perm k = Ok (r, k') /\
    grow pg k l k' l' /\ (r = 0 /\ j = Z.of_nat n + 1 \/ r = -1 /\ 0 <= j <= Z.of_nat n /\ l' = []) /\
    (forall va, 0 <= va < 2 ^ 32 -> walk (kram k') pg va = mapped_walk (kram k) pg a j pa perm va).
Proof.
  induction n as [|n IH]; intros fuel pg a pa perm k l Hi H Hf Ha Ha0 Hend Hfree;
    (destruct fuel as [|fuel]; [lia|]); cbn [mappages_loop]; unfold PGSIZE in *.
  all: assert (Hva : 0 <= a < 2 ^ 32) by lia.
  all: destruct (walkpgdir_alloc pg a k l Hi H Hva) as [(-> & -> & Hw) | (k1 & l1 & -> & G1 & Hp & Hw)].
  1, 3: rewrite Z.eqb_refl; exists (-1), k, [], 0; split_and!;
    [done | by apply grow_refl | right; split_and!; [done | lia | lia | done] |
     intros va Hr; unfold mapped_walk; by zcases].
  all: assert (Hnz := pte_addr_nonzero _ _ _ a (gr_pt _ _ _ _ _ G1) Hp).
  all: destruct (Z.eqb_spec (pte_addr (kram k1) pg a) 0) as [|_]; [done|].
  all: rewrite <- walk_pte by done; fold (present (walk (kram k1) pg a)).
  all: rewrite Hw, Hfree by lia.
  all: set (v := Z.lor (Z.lor pa perm) PTE_P).
  all: assert (G2 := put_pte_grow pg k1 l1 a v (gr_inv _ _ _ _ _ G1) (gr_pt _ _ _ _ _ G1) Hva Hp).
  all: destruct (set_pte _ _ _ a v (gr_pt _ _ _ _ _ G1) Hva Hp) as (_ & _ & Hs).
  - destruct (Z.eqb_spec a (a + Z.of_nat 0 * 4096)) as [_|]; [|lia].
    exists 0, (put_pte k1 (pte_addr (kram k1) pg a) v), l1, 1. split_and!; auto.
    { eapply grow_trans; eauto. }
    intros va Hr. cbn [kram put_pte with_ram]. rewrite Hs, Hw by done.
    unfold mapped_walk, PGSIZE. destruct (Z.eqb_spec (a / 4096) (va / 4096)) as [E|E].
    + assert (a <= va < a + 4096) by zdiv. zcases. subst v.
      replace (va - va mod 4096 - a) with 0 by zdiv. rewrite Z.add_0_r, !u32_lor, u32_u32. done.
    + assert (~ (a <= va < a + 4096)) by zdiv. zcases; done.
  - destruct (Z.eqb_spec a (a + Z.of_nat (S n) * 4096)) as [|_]; [lia|].
    rewrite (u32_small (a + 4096)) by lia.
    destruct (IH fuel pg (a + 4096) (u32 (pa + 4096)) perm (put_pte k1 (pte_addr (kram k1) pg a) v) l1)
      as (r & k' & l' & j & E & G3 & Hr & Hw3); auto; try lia.
    { apply G2. } { apply G2. } { zdiv. }
    { intros va Hr. cbn [kram put_pte with_ram]. rewrite Hs, Hw by lia.
      destruct (Z.eqb_spec (a / 4096) (va / 4096)); [zdiv|]. apply Hfree. lia. }
    exists r, k', l', (j + 1). split_and!.
    + rewrite <- E. f_equal. lia.
    + eapply grow_trans; [eapply grow_trans; [exact G1 | exact G2] | exact G3].
    + destruct Hr as [[? ?] | (? & ? & ?)]; [left | right]; split_and!; auto; lia.
    + intros va Hv. rewrite Hw3 by done. unfold mapped_walk, PGSIZE. cbn [kram put_pte with_ram].
      assert (0 <= j) by lia.
      destruct (Z.eqb_spec (a / 4096) (va / 4096)) as [Ea|Ea].
      * assert (a <= va < a + 4096) by zdiv. rewrite Hs by done.
        replace (a / 4096 =? va / 4096) with true by (symmetry; by apply Z.eqb_eq).
        zcases. subst v.
        replace (va - va mod 4096 - a) with 0 by zdiv. rewrite Z.add_0_r, !u32_lor, u32_u32. done.
      * assert (~ (a <= va < a + 4096)) by zdiv. rewrite Hs, Hw by done.
        replace (a / 4096 =? va / 4096) with false by (symmetry; by apply Z.eqb_neq).
        zcases; [|done..]. f_equal. f_equal. f_equal. rewrite u32_add_l. f_equal. lia.
Qed.

Lemma mappages_ok pg va size pa perm k l :
  kinv k l -> pt_ok (kram k) pg l -> 0 <= va -> 0 < size -> va + size <= 2 ^ 32 ->
  let a := va - va mod PGSIZE in
  let n := (va + size - 1) / PGSIZE - va / PGSIZE + 1 in
  (forall v, a <= v < a + n * PGSIZE -> present (walk (kram k) pg v) = false) ->
  exists r k' l' j, mappages pg va size pa perm k = Ok (r, k') /\
    grow pg k l k' l' /\ (r = 0 /\ j = n \/ r = -1 /\ 0 <= j < n /\ l' = []) /\
    (forall v, 0 <= v < 2 ^ 32 -> walk (kram k') pg v = mapped_walk (kram k) pg a j pa perm v).
Proof.
  intros Hi H Hva Hsz Hend a n Hfree. unfold mappages.
  rewrite (u32_small (va + size - 1)) by lia. rewrite !PGROUNDDOWN_eq by lia. fold a.
  unfold PGSIZE in *.
  assert (Hn : 0 <= n - 1) by (subst n; zdiv).
  assert (Hlast : va + size - 1 - (va + size - 1) mod 4096 = a + (n - 1) * 4096) by (subst a n; zdiv).
  rewrite Hlast. replace (a + (n - 1) * 4096 - a) with ((n - 1) * 4096) by lia.
  rewrite u32_small by (subst n; zdiv). rewrite Z.div_mul by lia.
  assert (En : Z.of_nat (Z.to_nat (n - 1)) = n - 1) by lia.
  destruct (mappages_loop_spec (Z.to_nat (n - 1)) (S (Z.to_nat (n - 1))) pg a pa perm k l)
    as (r & k' & l' & j & E & G & Hr & Hw); auto; unfold PGSIZE in *.
  - subst a. zdiv.
  - subst a. zdiv.
  - rewrite En. subst a n. zdiv.
  - intros v Hv. apply Hfree. rewrite En in Hv. lia.
  - exists r, k', l', j. rewrite <- En at 2. split_and!; auto.
    destruct Hr as [[? ?]|(? & ? & ?)]; [left | right]; split_and!; auto; lia.
Qed.

(** [mappages] over a range with no present entry never panics.  With
    enough free pages for the tables it returns 0 and the MMU then translates
    every page of the range to the consecutive physical pages from [pa] with
    the given permissions; it returns -1 only when the free list is exhausted,
    with some proper prefix of the range mapped.  Either way translations
    outside the range and all bytes outside the page tables are unchanged, and
    the table pages are exactly the old ones and the pages taken off the free
    list. *)
Theorem mappages_spec pg va size pa perm k l :
  kinv k l -> pt_ok (kram k) pg l -> 0 <= va -> 0 < size -> va + size <= 2 ^ 32 ->
  let a := va - va mod PGSIZE in
  let n := (va + size - 1) / PGSIZE - va / PGSIZE + 1 in
  (forall v, a <= v < a + n * PGSIZE -> present (walk (kram k) pg v) = false) ->
  exists r k' l' j, mappages pg va size pa perm k = Ok (r, k') /\
    (r = 0 /\ j = n \/ r = -1 /\ 0 <= j < n /\ l' = []) /\
    kinv k' l' /\ pt_ok (kram k') pg l' /\
    (forall v, 0 <= v < 2 ^ 32 -> walk (kram k') pg v =
       if (a <=? v) && (v <? a + j * PGSIZE)
       then u32 (Z.lor (Z.lor (u32 (pa + (v - v mod PGSIZE - a))) perm) PTE_P)
       else walk (kram k) pg v) /\
    (forall p, tabled (kram k') pg p <-> tabled (kram k) pg p \/ p ∈ l /\ p ∉ l') /\
    (forall x, (forall p, tabled (kram k') pg p -> ~ in_page p x) -> kram k' x = kram k x).
Proof.
  intros Hi H Hva Hsz Hend a n Hfree.
  destruct (mappages_ok pg va size pa perm k l Hi H Hva Hsz Hend Hfree)
    as (r & k' & l' & j & E & G & Hr & Hw).
  exists r, k', l', j. destruct G. split_and!; auto.
Qed.
End spec.

(** ** Witness: a zeroed directory and one free page *)

Definition wit_dir : Z := kend0.
Definition wit_page (i : Z) : Z := kend0 + PGSIZE * (1 + i).
Definition wit_free1 : kmem := mk_kmem false (wit_page 0) (kfree_mem (fun _ => 0) (wit_page 0) 0).

Lemma wit_page_ok i : 0 <= i < 1024 -> page_ok kend0 (wit_page i).
Proof.
  intros. unfold page_ok, wit_page, kend0, KERNLINK, KERNBASE, EXTMEM, PHYSTOP, PGSIZE.
  split_and!; try lia. zdiv.
Qed.

Lemma wit_free1_inv : kinv kend0 wit_free1 [wit_page 0].
Proof.
  apply (kfree_push kend0 kmem0 [] (wit_page 0) kinv0); [apply wit_page_ok; lia | apply not_elem_of_nil].
Qed.

Lemma zero_dir_pt_ok m l : (forall x, in_page wit_dir x -> m x = 0) -> wit_dir ∉ l -> pt_ok kend0 m wit_dir l.
Proof.
  intros Hz Hl.
  assert (Hd : forall d, 0 <= d < 1024 -> pde_at m wit_dir d = 0).
  { intros d Hd. unfold pde_at, ld32. rewrite !Hz by (unfold in_page, PGSIZE; lia). done. }
  constructor; auto.
  - apply page0_ok.
  - intros d Hd' Hp. by rewrite Hd in Hp.
  - intros d d' Hd1 Hd2 Hp. by rewrite Hd in Hp.
Qed.

Lemma wit_free1_pt : pt_ok kend0 (kram wit_free1) wit_dir [wit_page 0].
Proof.
  apply zero_dir_pt_ok.
  - intros x Hx. simpl. rewrite kfree_mem_out; [done|]. unfold in_page, wit_dir, wit_page, PGSIZE in *. lia.
  - rewrite list_elem_of_singleton. unfold wit_dir, wit_page, PGSIZE. lia.
Qed.

Lemma wit_free1_walk v : walk (kram wit_free1) wit_dir v = 0.
Proof.
  unfold walk. assert (E : pde_at (kram wit_free1) wit_dir (PDX v) = 0).
  { unfold pde_at, ld32. pose proof (PDX_range v). simpl.
    rewrite !kfree_mem_out by (unfold wit_dir, wit_page, PGSIZE; lia). done. }
  by rewrite E.
Qed.

Lemma mappages_spec_witness :
  exists r k' l' j, mappages wit_dir 0x3FF000 0x2000 0x200000 PTE_W wit_free1 = Ok (r, k') /\
    (r = 0 /\ j = 2 \/ r = -1 /\ 0 <= j < 2 /\ l' = []) /\
    kinv kend0 k' l' /\ pt_ok kend0 (kram k') wit_dir l' /\
    (forall v, 0 <= v < 2 ^ 32 -> walk (kram k') wit_dir v =
       if (0x3FF000 <=? v) && (v <? 0x3FF000 + j * PGSIZE)
       then u32 (Z.lor (Z.lor (u32 (0x200000 + (v - v mod PGSIZE - 0x3FF000))) PTE_W) PTE_P)
       else walk (kram wit_free1) wit_dir v) /\
    (forall p, tabled (kram k') wit_dir p <->
       tabled (kram wit_free1) wit_dir p \/ p ∈ [wit_page 0] /\ p ∉ l') /\
    (forall x, (forall p, tabled (kram k') wit_dir p -> ~ in_page p x) -> kram k' x = kram wit_free1 x).
Proof.
  apply (mappages_spec kend0 wit_dir 0x3FF000 0x2000 0x200000 PTE_W wit_free1 [wit_page 0]);
    [exact wit_free1_inv | exact wit_free1_pt | lia.. |].
  intros v _. rewrite wit_free1_walk. reflexivity.
Defined.
