(* ===== verification/VmUser.v ===== *)
(** * User address spaces: allocation, release and copy (src/vm.c)

    [uvm_ok] extends [pt_ok] with the user half: every present page below
    [KERNBASE] is a page of its own, outside the tables and the free list.  The
    theorems account for every page: what [allocuvm] maps comes off the free
    list, [deallocuvm] and [freevm] put it back, and [copyuvm] either builds a
    complete copy or gives everything back. *)

From S2P Require Import Prelude Layout StringLib Kalloc Vm VmSpec.

(** [p] backs a user page of the address space. *)
Definition umapped (m : mem) (pg p : Z) : Prop :=
  exists va, 0 <= va < KERNBASE /\ present (walk m pg va) = true /\ p = pgof (walk m pg va).

(** The byte a user program sees at [va]. *)
Definition user_byte (m : mem) (pg va : Z) : Z := m (pgof (walk m pg va) + va mod PGSIZE).

Section user.
Context (kend : Z) (Hkend : KERNBASE < kend).
Abbreviation page_ok := (page_ok kend).
Abbreviation kinv := (kinv kend).
Abbreviation pt_ok := (pt_ok kend).

Record uvm_ok (m : mem) (pg : Z) (l : list Z) : Prop := mk_uvm_ok {
  uv_pt : pt_ok m pg l;
  uv_page : forall va, 0 <= va < KERNBASE -> present (walk m pg va) = true ->
            page_ok (pgof (walk m pg va)) /\ (pgof (walk m pg va) ∉ l) /\ ~ tabled m pg (pgof (walk m pg va));
  uv_inj : forall va va', 0 <= va < KERNBASE -> 0 <= va' < KERNBASE ->
           present (walk m pg va) = true -> present (walk m pg va') = true ->
           pgof (walk m pg va) = pgof (walk m pg va') -> va / PGSIZE = va' / PGSIZE
}.

Lemma kinv_page k l p : kinv k l -> p ∈ l -> page_ok p.
Proof. intros (_ & _ & Hf & _) Hp. eapply Forall_forall in Hf; eauto. Qed.

(** Same page number, same entry. *)
Lemma walk_same_page m pg va va' : 0 <= va < 2 ^ 32 -> 0 <= va' < 2 ^ 32 ->
  va / 4096 = va' / 4096 -> walk m pg va = walk m pg va'.
Proof. intros H H' E. apply same_page in E as [E1 E2]; auto. unfold walk. by rewrite E1, E2. Qed.

(** ** Releasing one page *)

Lemma kfree_ok k l p : kinv k l -> page_ok p -> p ∉ l ->
  exists k', kfree kend p k = Ok k' /\ kinv k' (p :: l) /\ (forall x, ~ in_page p x -> kram k' x = kram k x).
Proof.
  intros Hi Hp Hl. destruct (kfree_push kend k l p Hi Hp Hl) as [-> Hk].
  eexists. split_and!; [done | done |]. intros x Hx. simpl. apply kfree_mem_out.
  unfold in_page in Hx. lia.
Qed.

Lemma unmap_page k l pg a :
  kinv k l -> uvm_ok (kram k) pg l -> 0 <= a < KERNBASE -> present (walk (kram k) pg a) = true ->
  let p := pgof (walk (kram k) pg a) in
  exists kf, kfree kend p k = Ok kf /\
    let k' := put_pte kf (pte_addr (kram k) pg a) 0 in
    kinv k' (p :: l) /\ uvm_ok (kram k') pg (p :: l) /\
    (forall q, tabled (kram k') pg q <-> tabled (kram k) pg q) /\
    (forall va, 0 <= va < 2 ^ 32 ->
       walk (kram k') pg va = if a / 4096 =? va / 4096 then 0 else walk (kram k) pg va) /\
    (forall x, (forall q, tabled (kram k) pg q -> ~ in_page q x) -> ~ in_page p x -> kram k' x = kram k x).
Proof.
  intros Hi [Hpt Hup Hinj] Ha Hp p.
  assert (Ha32 : 0 <= a < 2 ^ 32) by (unfold KERNBASE in *; lia).
  destruct (Hup a Ha Hp) as (Hpo & Hpl & Hptab). fold p in Hpo, Hpl, Hptab.
  destruct (kfree_ok k l p Hi Hpo Hpl) as (kf & -> & Hif & Hff). exists kf. split; [done|].
  assert (Htf : forall q x, tabled (kram k) pg q -> in_page q x -> kram kf x = kram k x).
  { intros q x Hq Hx. apply Hff. intros Hx'. destruct (tabled_ok _ _ _ _ _ Hpt Hq) as [Hqo _].
    eapply (page_sep kend q p x x); eauto. by intros ->. }
  assert (Hdir : forall x, in_page pg x -> kram kf x = kram k x) by (intros; eapply Htf; [by left | done]).
  assert (Hwf : forall va, walk (kram kf) pg va = walk (kram k) pg va) by (intros; by apply walk_frame).
  assert (Htabf : forall q, tabled (kram kf) pg q <-> tabled (kram k) pg q) by (intros; by apply tabled_frame).
  assert (Hptf : pt_ok (kram kf) pg (p :: l)).
  { eapply pt_ok_free; [eapply pt_ok_frame; eauto|]. intros q [->|?]%elem_of_cons; [right | by left].
    by rewrite Htabf. }
  assert (Hpde : pde_at (kram kf) pg (PDX a) = pde_at (kram k) pg (PDX a)).
  { apply pde_frame; [apply PDX_range | done]. }
  assert (Hpp : present (pde_at (kram kf) pg (PDX a)) = true).
  { rewrite Hpde. unfold walk in Hp. by destruct (present (pde_at (kram k) pg (PDX a))). }
  assert (Hpa : pte_addr (kram k) pg a = pte_addr (kram kf) pg a) by (unfold pte_addr, tbl; by rewrite Hpde).
  rewrite Hpa.
  pose proof (put_pte_grow _ pg kf (p :: l) a 0 Hif Hptf Ha32 Hpp) as [G1 G2 G3 _ G5].
  destruct (set_pte _ _ _ _ a 0 Hptf Ha32 Hpp) as (_ & _ & Hs).
  set (k' := put_pte kf (pte_addr (kram kf) pg a) 0) in *.
  assert (Htab' : forall q, tabled (kram k') pg q <-> tabled (kram k) pg q).
  { intros q. rewrite G3, Htabf. split; [intros [?|[? ?]]; done | by left]. }
  assert (Hw' : forall va, 0 <= va < 2 ^ 32 ->
       walk (kram k') pg va = if a / 4096 =? va / 4096 then 0 else walk (kram k) pg va).
  { intros va Hva. rewrite <- Hwf. apply Hs. done. }
  split_and!; auto.
  - constructor; auto.
    + intros va Hva. rewrite Hw' by (unfold KERNBASE in *; lia).
      destruct (Z.eqb_spec (a / 4096) (va / 4096)); [done|]. intros Hpv.
      destruct (Hup va Hva Hpv) as (? & ? & ?). rewrite Htab', not_elem_of_cons. split_and!; auto.
    + intros va va' Hva Hva'. rewrite !Hw' by (unfold KERNBASE in *; lia).
      destruct (Z.eqb_spec (a / 4096) (va / 4096)), (Z.eqb_spec (a / 4096) (va' / 4096)); try done.
      by apply Hinj.
  - intros x Hx Hxp. rewrite G5; [by apply Hff|]. intros q Hq. by apply Hx, Htab'.
Qed.

(** ** deallocuvm *)

(** The pages of [a, oldsz) are gone: their entries are not present, their
    memory is on the free list, nothing else changed. *)
Record released (pg a oldsz : Z) (k : kmem) (l : list Z) (k' : kmem) (l' : list Z) : Prop := mk_released {
  rl_inv : kinv k' l';
  rl_uvm : uvm_ok (kram k') pg l';
  rl_tab : forall p, tabled (kram k') pg p <-> tabled (kram k) pg p;
  rl_in : forall va, 0 <= va < 2 ^ 32 -> a <= va -> va - va mod PGSIZE < oldsz ->
          present (walk (kram k') pg va) = false;
  rl_out : forall va, 0 <= va < 2 ^ 32 -> va < a \/ oldsz <= va - va mod PGSIZE ->
           walk (kram k') pg va = walk (kram k) pg va;
  rl_free : forall p, p ∈ l' <-> p ∈ l \/ exists va, 0 <= va < KERNBASE /\ a <= va /\
            va - va mod PGSIZE < oldsz /\ present (walk (kram k) pg va) = true /\ p = pgof (walk (kram k) pg va);
  rl_frame : forall x, (forall p, tabled (kram k) pg p -> ~ in_page p x) ->
             (forall p, p ∈ l' -> p ∉ l -> ~ in_page p x) -> kram k' x = kram k x
}.

Lemma released_nil pg a oldsz k l : kinv k l -> uvm_ok (kram k) pg l -> oldsz <= a -> a mod PGSIZE = 0 ->
  released pg a oldsz k l k l.
Proof.
  intros Hi Hu Ha Hm. unfold PGSIZE in *. constructor; auto; unfold PGSIZE.
  - intros va Hva ? ?. zdiv.
  - intros p. split; [by left|]. intros [?|(va & ? & ? & ? & _)]; [done|]. zdiv.
Qed.

(** Pages without a present entry can be skipped. *)
Lemma released_skip pg a b oldsz k l k' l' :
  a <= b -> b mod PGSIZE = 0 ->
  (forall va, a <= va < b -> present (walk (kram k) pg va) = false) ->
  released pg b oldsz k l k' l' -> released pg a oldsz k l k' l'.
Proof.
  intros Hab Hb Hno [R1 R2 R3 R4 R5 R6 R7]. constructor; auto.
  - intros va Hva Ha Hlt. destruct (Z.lt_ge_cases va b); [|by apply R4].
    rewrite R5 by auto. apply Hno. lia.
  - intros va Hva [Ha|Ha]; apply R5; auto. left. lia.
  - intros p. rewrite R6. split; (intros [?|(va & ? & ? & ? & Hp & ?)]; [by left|]).
    + right. exists va. split_and!; auto; lia.
    + destruct (Z.lt_ge_cases va b).
      * rewrite Hno in Hp by lia. done.
      * right. exists va. split_and!; auto; lia.
Qed.

Lemma released_cons pg a oldsz k l k1 k' l' :
  0 <= a < KERNBASE -> a < oldsz -> a mod PGSIZE = 0 -> present (walk (kram k) pg a) = true ->
  (forall q, tabled (kram k1) pg q <-> tabled (kram k) pg q) ->
  (forall va, 0 <= va < 2 ^ 32 -> walk (kram k1) pg va = if a / 4096 =? va / 4096 then 0 else walk (kram k) pg va) ->
  (forall x, (forall q, tabled (kram k) pg q -> ~ in_page q x) ->
             ~ in_page (pgof (walk (kram k) pg a)) x -> kram k1 x = kram k x) ->
  pgof (walk (kram k) pg a) ∉ l ->
  released pg (a + PGSIZE) oldsz k1 (pgof (walk (kram k) pg a) :: l) k' l' -> released pg a oldsz k l k' l'.
Proof.
  intros Ha Hlt Hm Hp Htab Hw Hfr Hpl [R1 R2 R3 R4 R5 R6 R7]. unfold PGSIZE in *.
  assert (Ha32 : 0 <= a < 2 ^ 32) by (unfold KERNBASE in *; lia).
  assert (Hpin : pgof (walk (kram k) pg a) ∈ l') by (apply R6; left; apply elem_of_cons; by left).
  constructor; auto; unfold PGSIZE.
  - intros p. by rewrite R3.
  - intros va Hva Hav Hlo. destruct (Z.lt_ge_cases va (a + 4096)); [|by apply R4].
    rewrite R5 by lia. rewrite Hw by done. destruct (Z.eqb_spec (a / 4096) (va / 4096)); [done | zdiv].
  - intros va Hva Hav. rewrite R5 by lia. rewrite Hw by done.
    destruct (Z.eqb_spec (a / 4096) (va / 4096)); [zdiv | done].
  - intros p. rewrite R6, elem_of_cons. split.
    + intros [[->|?]|(va & Hv & Hge & Hlo & Hpv & ->)]; [right | by left | right].
      * exists a. split_and!; auto; lia.
      * rewrite Hw in Hpv by (unfold KERNBASE in *; lia). exists va.
        rewrite Hw by (unfold KERNBASE in *; lia).
        destruct (Z.eqb_spec (a / 4096) (va / 4096)); [done|]. split_and!; auto; lia.
    + intros [?|(va & Hv & Hge & Hlo & Hpv & ->)]; [auto|].
      assert (Hv32 : 0 <= va < 2 ^ 32) by (unfold KERNBASE in *; lia).
      destruct (Z.eqb_spec (a / 4096) (va / 4096)) as [E|E].
      * left. left. by rewrite (walk_same_page _ _ a va).
      * right. exists va. rewrite Hw by done.
        destruct (Z.eqb_spec (a / 4096) (va / 4096)); [done|]. split_and!; auto; try lia. zdiv.
  - intros x Hx Hl. rewrite R7.
    + apply Hfr; auto.
    + intros q Hq. by apply Hx, Htab.
    + intros q Hq Hnq. apply Hl; auto. rewrite not_elem_of_cons in Hnq. apply Hnq.
Qed.

Lemma pgof_nonzero e : page_ok (pgof e) -> PTE_ADDR e <> 0.
Proof.
  intros (_ & H & _) E. unfold pgof in H. rewrite E in H. unfold P2V in H.
  rewrite u32_small in H by (unfold KERNBASE; lia). lia.
Qed.

Lemma walk_no_pde m pg va : present (pde_at m pg (PDX va)) = false -> walk m pg va = 0.
Proof. intros H. unfold walk. by rewrite H. Qed.

Lemma deallocuvm_loop_ok fuel : forall pg a oldsz k l,
  kinv k l -> uvm_ok (kram k) pg l -> a mod PGSIZE = 0 -> 0 <= a -> oldsz <= KERNBASE ->
  oldsz - a <= Z.of_nat fuel * PGSIZE ->
  exists k' l', deallocuvm_loop kend fuel pg a oldsz k = Ok k' /\ released pg a oldsz k l k' l'.
Proof.
  induction fuel as [|fuel IH]; intros pg a oldsz k l Hi Hu Hm Ha Hold Hf; cbn [deallocuvm_loop];
    destruct (Z.ltb_spec a oldsz) as [Hlt|Hge];
    [unfold PGSIZE in *; lia | | | ];
    try (exists k, l; split; [done | by apply released_nil]).
  assert (HaK : 0 <= a < KERNBASE) by lia. assert (Ha32 : 0 <= a < 2 ^ 32) by (unfold KERNBASE in *; lia).
  unfold walkpgdir. fold (pde_at (kram k) pg (PDX a)). fold (present (pde_at (kram k) pg (PDX a))).
  destruct (present (pde_at (kram k) pg (PDX a))) eqn:Hpd; cbn [negb].
  - fold (tbl (kram k) pg (PDX a)). fold (pgof (pde_at (kram k) pg (PDX a))).
    fold (tbl (kram k) pg (PDX a)). fold (pte_addr (kram k) pg a).
    destruct (Z.eqb_spec (pte_addr (kram k) pg a) 0) as [E|_].
    { exfalso. revert E. eapply pte_addr_nonzero; [apply Hu | done]. }
    rewrite <- walk_pte by done. fold (present (walk (kram k) pg a)).
    rewrite (u32_small (a + PGSIZE)) by (unfold PGSIZE, KERNBASE in *; lia).
    destruct (present (walk (kram k) pg a)) eqn:Hp.
    + destruct (uv_page _ _ _ Hu a HaK Hp) as (Hpo & Hpl & _).
      destruct (Z.eqb_spec (PTE_ADDR (walk (kram k) pg a)) 0) as [E|_].
      { by apply pgof_nonzero in Hpo. }
      fold (pgof (walk (kram k) pg a)).
      destruct (unmap_page k l pg a Hi Hu HaK Hp) as (kf & -> & Hi1 & Hu1 & Htab & Hw & Hfr).
      cbn [rbind].
      edestruct (IH pg (a + PGSIZE) oldsz) as (k' & l' & E & R);
        [exact Hi1 | exact Hu1 | unfold PGSIZE in *; zdiv | unfold PGSIZE; lia | done | unfold PGSIZE in *; lia |].
      exists k', l'. split; [exact E|]. eapply released_cons; eauto.
    + edestruct (IH pg (a + PGSIZE) oldsz k l) as (k' & l' & E & R);
        [exact Hi | exact Hu | unfold PGSIZE in *; zdiv | unfold PGSIZE; lia | done | unfold PGSIZE in *; lia |].
      exists k', l'. split; [exact E|]. eapply released_skip; [| |  |exact R]; unfold PGSIZE in *; [lia | zdiv |].
      intros va Hva. rewrite (walk_same_page _ _ va a); [done | unfold KERNBASE in *; lia | lia | zdiv].
  - cbn [Z.eqb]. pose proof (PDX_range a) as Hd. rewrite PDX_eq in Hd.
    assert (EP : PDX a = a / 4194304) by (rewrite PDX_eq; change (2 ^ 22) with 4194304; unfold KERNBASE in *; zdiv).
    rewrite PGADDR_eq by (rewrite ?EP; unfold KERNBASE in *; zdiv).
    assert (EN : u32 (u32 ((PDX a + 1) * 2 ^ 22 + 0 * 2 ^ 12 + 0 - PGSIZE) + PGSIZE) = (PDX a + 1) * 4194304).
    { rewrite u32_add_l. change (2 ^ 22) with 4194304.
      rewrite u32_small by (rewrite EP; unfold KERNBASE, PGSIZE in *; zdiv). lia. }
    rewrite EN. set (b := (PDX a + 1) * 4194304).
    assert (Hb : a + PGSIZE <= b /\ b mod PGSIZE = 0 /\ b <= KERNBASE).
    { subst b. rewrite EP. unfold PGSIZE, KERNBASE in *. split_and!; zdiv. }
    edestruct (IH pg b oldsz k l) as (k' & l' & E & R);
      [exact Hi | exact Hu | apply Hb | unfold PGSIZE in *; lia | done | unfold PGSIZE in *; lia |].
    exists k', l'. split; [exact E|]. eapply released_skip; [| | |exact R]; [unfold PGSIZE in *; lia | apply Hb |].
    intros va Hva. rewrite walk_no_pde; [done|]. replace (PDX va) with (PDX a); [done|].
    rewrite !PDX_eq. change (2 ^ 22) with 4194304. subst b. rewrite EP in *. unfold KERNBASE in *. zdiv.
Qed.

Lemma deallocuvm_ok pg oldsz newsz k l :
  kinv k l -> uvm_ok (kram k) pg l -> 0 <= newsz < oldsz -> oldsz <= KERNBASE ->
  exists k' l', deallocuvm kend pg oldsz newsz k = Ok (newsz, k') /\
    released pg (PGROUNDUP newsz) oldsz k l k' l'.
Proof.
  intros Hi Hu Hn Ho. unfold deallocuvm. destruct (Z.leb_spec oldsz newsz); [lia|].
  destruct (PGROUNDUP_spec newsz) as [Hr Hm]; [unfold KERNBASE, PGSIZE in *; lia|].
  destruct (deallocuvm_loop_ok (S (Z.to_nat (oldsz / PGSIZE))) pg (PGROUNDUP newsz) oldsz k l)
    as (k' & l' & E & R); auto; [lia | |].
  { rewrite Nat2Z.inj_succ, Z2Nat.id by (apply Z.div_pos; unfold PGSIZE; lia). unfold PGSIZE in *. zdiv. }
  exists k', l'. by rewrite E.
Qed.

(** ** freevm *)

Lemma freevm_loop_ok n : forall pg i k l,
  Z.of_nat n = 1024 - i -> 0 <= i -> kinv k l -> page_ok pg ->
  (forall d, i <= d < 1024 -> present (pde_at (kram k) pg d) = true ->
     page_ok (tbl (kram k) pg d) /\ (tbl (kram k) pg d ∉ l) /\ tbl (kram k) pg d <> pg) ->
  (forall d d', i <= d < 1024 -> i <= d' < 1024 -> present (pde_at (kram k) pg d) = true ->
     present (pde_at (kram k) pg d') = true -> tbl (kram k) pg d = tbl (kram k) pg d' -> d = d') ->
  exists k' l', freevm_loop kend n pg i k = Ok k' /\ kinv k' l' /\
    (forall p, p ∈ l' <-> p ∈ l \/ exists d, i <= d < 1024 /\ present (pde_at (kram k) pg d) = true /\ p = tbl (kram k) pg d) /\
    (forall x, (forall p, p ∈ l' -> p ∉ l -> ~ in_page p x) -> kram k' x = kram k x).
Proof.
  induction n as [|n IH]; intros pg i k l Hn Hi0 Hi Hg Htb Hinj.
  { exists k, l. split_and!; auto. intros p. split; [by left|]. intros [?|(d & ? & _)]; [done | lia]. }
  cbn [freevm_loop]. fold (pde_at (kram k) pg i). fold (present (pde_at (kram k) pg i)).
  fold (pgof (pde_at (kram k) pg i)). fold (tbl (kram k) pg i).
  destruct (present (pde_at (kram k) pg i)) eqn:Hp; cbn [rbind].
  - destruct (Htb i) as (Hto & Htl & Htn); auto; [lia|].
    destruct (kfree_ok k l _ Hi Hto Htl) as (k1 & -> & Hi1 & Hf1). cbn [rbind].
    assert (Hpde : forall d, 0 <= d < 1024 -> pde_at (kram k1) pg d = pde_at (kram k) pg d).
    { intros d Hd. apply pde_frame; auto. intros x Hx. apply Hf1. intros Hx'.
      by apply (page_sep kend _ _ x x Hg Hto); auto. }
    assert (Htbl : forall d, 0 <= d < 1024 -> tbl (kram k1) pg d = tbl (kram k) pg d).
    { intros d Hd. unfold tbl. by rewrite Hpde. }
    destruct (IH pg (i + 1) k1 (tbl (kram k) pg i :: l)) as (k' & l' & E & Hi' & Hl & Hf); auto; try lia.
    + intros d Hd. rewrite Hpde, Htbl by lia. intros Hpd. destruct (Htb d) as (? & ? & ?); auto; [lia|].
      rewrite not_elem_of_cons. split_and!; auto. intros Eq. apply Hinj in Eq; auto; lia.
    + intros d d' Hd Hd'. rewrite !Hpde, !Htbl by lia. apply Hinj; lia.
    + exists k', l'. split_and!; auto.
      * intros p. rewrite Hl, elem_of_cons. split.
        -- intros [[->|?]|(d & Hd & Hpd & ->)]; [right; exists i; auto with lia | by left |].
           rewrite Hpde in Hpd by lia. right. exists d. rewrite Htbl by lia. auto with lia.
        -- intros [?|(d & Hd & Hpd & ->)]; [auto|]. destruct (Z.eq_dec d i) as [->|]; [auto|].
           right. exists d. rewrite Hpde, Htbl by lia. auto with lia.
      * intros x Hx. rewrite Hf.
        -- apply Hf1, Hx; [|done]. apply Hl. left. apply elem_of_cons. by left.
        -- intros p Hpl Hpn. apply Hx; auto. rewrite not_elem_of_cons in Hpn. apply Hpn.
  - destruct (IH pg (i + 1) k l) as (k' & l' & E & Hi' & Hl & Hf); auto; try lia.
    + intros d Hd. apply Htb. lia.
    + intros d d' Hd Hd'. apply Hinj; lia.
    + exists k', l'. split_and!; auto. intros p. rewrite Hl. split; (intros [?|(d & Hd & Hpd & ->)]; [auto|]).
      * right. exists d. auto with lia.
      * destruct (Z.eq_dec d i) as [->|]; [congruence|]. right. exists d. auto with lia.
Qed.

Lemma freevm_ok pg k l :
  kinv k l -> uvm_ok (kram k) pg l ->
  exists k' l', freevm kend pg k = Ok k' /\ kinv k' l' /\
    (forall p, p ∈ l' <-> p ∈ l \/ tabled (kram k) pg p \/ umapped (kram k) pg p) /\
    (forall x, (forall p, p ∈ l' -> p ∉ l -> ~ in_page p x) -> kram k' x = kram k x).
Proof.
  intros Hi Hu. pose proof (uv_pt _ _ _ Hu) as Hpt. pose proof (pt_dir _ _ _ _ Hpt) as Hg.
  unfold freevm. destruct (Z.eqb_spec pg 0) as [->|_]; [pose proof (page_ok_nonzero kend 0 Hg); lia|].
  destruct (deallocuvm_ok pg KERNBASE 0 k l Hi Hu) as (k1 & l1 & -> & R); [unfold KERNBASE; lia | lia |].
  destruct R as [R1 R2 R3 R4 R5 R6 R7]. change (PGROUNDUP 0) with 0 in *. cbn [rbind].
  pose proof (uv_pt _ _ _ R2) as Hpt1.
  destruct (freevm_loop_ok (Z.to_nat NPDENTRIES) pg 0 k1 l1) as (k2 & l2 & -> & Hi2 & Hl2 & Hf2);
    auto; [lia | intros d Hd; by apply Hpt1 | intros d d' Hd Hd'; by apply (pt_inj _ _ _ _ Hpt1) |].
  cbn [rbind].
  assert (Hg2 : pg ∉ l2).
  { rewrite Hl2. intros [?|(d & Hd & Hp & E)]; [by apply (pt_dir_out _ _ _ _ Hpt1)|].
    destruct (pt_tbl _ _ _ _ Hpt1 d Hd Hp) as (_ & _ & ?). congruence. }
  destruct (kfree_ok k2 l2 pg Hi2 Hg Hg2) as (k3 & -> & Hi3 & Hf3).
  assert (Hl3 : forall p, p ∈ pg :: l2 <-> p ∈ l \/ tabled (kram k) pg p \/ umapped (kram k) pg p).
  { intros p. rewrite elem_of_cons, Hl2, R6, <- R3. unfold tabled, umapped. unfold PGSIZE. split.
    - intros [->|[[?|(va & ? & ? & ? & ? & ->)]|?]]; auto. right. right. exists va. auto.
    - intros [?|[[->|?]|(va & Hv & Hp & ->)]]; auto. right. left. right. exists va.
      unfold KERNBASE in *. split_and!; auto; zdiv. }
  exists k3, (pg :: l2). split_and!; auto. intros x Hx.
  assert (Hsub : forall p, p ∈ l1 -> p ∈ pg :: l2) by (intros p Hp; apply elem_of_cons; right; apply Hl2; by left).
  rewrite Hf3, Hf2, R7; auto.
  - intros p Hp. apply Hx; [apply Hl3; auto | by apply (tabled_ok _ _ _ _ _ Hpt)].
  - intros p Hp Hn. apply Hx; [apply elem_of_cons; auto|]. intros Hpl. apply Hn, R6. by left.
  - apply Hx; [apply elem_of_cons; auto | apply Hpt].
Qed.

(** ** setupkvm *)

(** The entry a kernel mapping gives [va]. *)
Definition kmap_size (e : kmap_entry) : Z := u32 (phys_end e - phys_start e).
Definition kmap_entry_at (e : kmap_entry) (va : Z) : Z :=
  u32 (Z.lor (Z.lor (u32 (phys_start e + (va - va mod PGSIZE - virt e))) (kperm e)) PTE_P).

Fixpoint kern_walk (es : list kmap_entry) (va : Z) : Z :=
  match es with
  | [] => 0
  | e :: es' => if (virt e <=? va) && (va <? virt e + kmap_size e) then kmap_entry_at e va else kern_walk es' va
  end.

(** Page-aligned, ascending and disjoint mappings from [lo] up. *)
Fixpoint kmap_fits (lo : Z) (es : list kmap_entry) : Prop :=
  match es with
  | [] => True
  | e :: es' =>
      lo <= virt e /\ virt e mod PGSIZE = 0 /\ 0 < kmap_size e /\ kmap_size e mod PGSIZE = 0 /\
      virt e + kmap_size e <= 2 ^ 32 /\ kmap_fits (virt e + kmap_size e) es'
  end.

Lemma uvm_ok_empty m pg l : pt_ok m pg l -> (forall va, 0 <= va < KERNBASE -> present (walk m pg va) = false) ->
  uvm_ok m pg l.
Proof.
  intros H H0. constructor; auto.
  - intros va Hva Hp. by rewrite H0 in Hp.
  - intros va va' Hva Hva' Hp. by rewrite H0 in Hp.
Qed.

Lemma kern_walk_below lo es va : kmap_fits lo es -> va < lo -> kern_walk es va = 0.
Proof.
  revert lo. induction es as [|e es IH]; intros lo; simpl; [done|].
  intros (? & ? & ? & ? & ? & Hf) Hva. destruct (Z.leb_spec (virt e) va); [lia|]. simpl.
  eapply IH; eauto. lia.
Qed.

Lemma setupkvm_loop_ok pg es : forall lo k l,
  kinv k l -> pt_ok (kram k) pg l -> kmap_fits lo es -> KERNBASE <= lo ->
  (forall va, 0 <= va < 2 ^ 32 -> va < KERNBASE \/ lo <= va -> walk (kram k) pg va = 0) ->
  exists r k' l', setupkvm_loop kend es pg k = Ok (r, k') /\
    (r = pg /\ grow kend pg k l k' l' /\
       (forall va, 0 <= va < 2 ^ 32 -> walk (kram k') pg va = if va <? lo then walk (kram k) pg va else kern_walk es va) \/
     r = 0 /\ kinv k' l' /\ (forall p, p ∈ l' <-> p ∈ l \/ tabled (kram k) pg p) /\
       (forall x, (forall p, p ∈ l' -> ~ in_page p x) -> kram k' x = kram k x)).
Proof.
  induction es as [|e es IH]; intros lo k l Hi Hpt Hfit Hlo Hz; cbn [setupkvm_loop].
  { exists pg, k, l. split; [done|]. left. split_and!; [done | by apply grow_refl|].
    intros va Hva. destruct (Z.ltb_spec va lo); [done|]. apply Hz; auto. }
  destruct Hfit as (Hv & Hal & Hsz & Hsal & Hend & Hfit). fold (kmap_size e).
  assert (EA : virt e - virt e mod PGSIZE = virt e) by lia.
  assert (EN : ((virt e + kmap_size e - 1) / PGSIZE - virt e / PGSIZE + 1) * PGSIZE = kmap_size e)
    by (unfold PGSIZE in *; zdiv).
  destruct (mappages_ok kend pg (virt e) (kmap_size e) (phys_start e) (kperm e) k l)
    as (r & k1 & l1 & j & E & G & Hr & Hw); auto; try (unfold KERNBASE in *; lia).
  { intros v Hr. rewrite Hz; [done | unfold KERNBASE in *; lia | lia]. }
  rewrite E. cbn [rbind]. rewrite EA in Hw.
  destruct Hr as [[-> ->]|(-> & Hj & ->)]; cbn [Z.ltb Z.compare].
  - destruct (IH (virt e + kmap_size e) k1 l1) as (r & k' & l' & E' & Hres); auto;
      [apply G | apply G | unfold KERNBASE in *; lia | |].
    { intros va Hva Hor. rewrite Hw by done. unfold mapped_walk. rewrite EN.
      destruct (Z.leb_spec (virt e) va), (Z.ltb_spec va (virt e + kmap_size e)); simpl; try apply Hz; auto; lia. }
    exists r, k', l'. split; [done|]. destruct Hres as [(-> & G' & Hw')|(-> & Hi' & Hl' & Hf')]; [left | right].
    + split_and!; [done | eapply grow_trans; eauto|]. intros va Hva. rewrite Hw', Hw by done.
      unfold mapped_walk. rewrite EN. cbn [kern_walk].
      destruct (Z.ltb_spec va lo), (Z.ltb_spec va (virt e + kmap_size e)), (Z.leb_spec (virt e) va);
        cbn [andb]; try lia; try done.
      rewrite (kern_walk_below (virt e + kmap_size e)), Hz; auto.
    + split_and!; auto.
      * intros p. rewrite Hl', (gr_tab _ _ _ _ _ _ G). pose proof (gr_sub _ _ _ _ _ _ G p).
        destruct (decide (p ∈ l1)); naive_solver.
      * intros x Hx. rewrite Hf' by done. apply (gr_frame _ _ _ _ _ _ G). intros p Hp. apply Hx, Hl'. by right.
  - destruct (freevm_ok pg k1 []) as (k2 & l2 & -> & Hi2 & Hl2 & Hf2); [apply G | |].
    { apply uvm_ok_empty; [apply G|]. intros va Hva. rewrite Hw by (unfold KERNBASE in *; lia).
      unfold mapped_walk. destruct (Z.leb_spec (virt e) va); [lia|]. simpl.
      rewrite Hz; [done | unfold KERNBASE in *; lia | lia]. }
    exists 0, k2, l2. split; [done|]. right. split_and!; auto.
    + intros p. rewrite Hl2, (gr_tab _ _ _ _ _ _ G). split; [|set_solver].
      intros [[]%not_elem_of_nil|[[?|[? _]]|(va & Hva & Hp & _)]]; auto. rewrite Hw in Hp by (unfold KERNBASE in *; lia).
      unfold mapped_walk in Hp. destruct (Z.leb_spec (virt e) va); [lia|]. simpl in Hp.
      rewrite Hz in Hp; [done | unfold KERNBASE in *; lia | lia].
    + intros x Hx. rewrite Hf2 by auto. apply (gr_frame _ _ _ _ _ _ G). intros p Hp. apply Hx, Hl2. auto.
Qed.

(** A zeroed page is a well-formed empty directory. *)
Lemma zero_dir m pg l : page_ok pg -> (forall x, in_page pg x -> m x = 0) -> pg ∉ l ->
  pt_ok m pg l /\ (forall va, walk m pg va = 0) /\ (forall p, tabled m pg p <-> p = pg).
Proof.
  intros Hg Hz Hl. assert (Hd : forall d, 0 <= d < 1024 -> pde_at m pg d = 0).
  { intros d Hd. unfold pde_at, ld32. rewrite !Hz by (unfold in_page, PGSIZE; lia). done. }
  split_and!.
  - constructor; auto.
    + intros d Hd' Hp. by rewrite Hd in Hp.
    + intros d d' Hd1 Hd2 Hp. by rewrite Hd in Hp.
  - intros va. unfold walk. rewrite Hd by apply PDX_range. done.
  - intros p. split; [|by left]. intros [?|(d & Hd' & Hp & _)]; [done|]. by rewrite Hd in Hp.
Qed.

(** ** Mapping one user page *)

Lemma lor_flags f g : 0 <= f < 4096 -> 0 <= g < 4096 -> 0 <= Z.lor f g < 4096.
Proof.
  intros Hf Hg. assert (E : Z.lor f g = Z.lor f g mod 4096).
  { change 4096 with (2 ^ 12). rewrite <- Z.land_ones, Z.land_lor_distr_l, !Z.land_ones by lia.
    by rewrite !Z.mod_small by (change (2 ^ 12) with 4096; lia). }
  rewrite E. apply Z.mod_pos_bound. lia.
Qed.

(** The entry for page [q] with flags [perm], present. *)
Definition user_entry (q perm : Z) : Z := Z.lor (V2P q) (Z.lor perm PTE_P).

Lemma user_entry_parts q perm : page_ok q -> 0 <= perm < 4096 ->
  pgof (user_entry q perm) = q /\ PTE_FLAGS (user_entry q perm) = Z.lor perm PTE_P /\
  present (user_entry q perm) = true.
Proof.
  intros Hq Hp. destruct (entry_parts kend q (Z.lor perm PTE_P) Hq) as (? & ? & _).
  { apply lor_flags; [done | unfold PTE_P; lia]. }
  split_and!; auto. unfold user_entry. rewrite Z.lor_assoc. apply present_lor.
Qed.

Lemma umapped_page m pg l p : uvm_ok m pg l -> umapped m pg p -> page_ok p /\ (p ∉ l) /\ ~ tabled m pg p.
Proof. intros Hu (va & Hva & Hp & ->). by apply (uv_page _ _ _ Hu). Qed.

Lemma map_user_ok pg a q perm k l :
  kinv k l -> uvm_ok (kram k) pg l -> 0 <= a < KERNBASE -> a mod PGSIZE = 0 -> 0 <= perm < 4096 ->
  page_ok q -> q ∉ l -> ~ tabled (kram k) pg q -> ~ umapped (kram k) pg q ->
  present (walk (kram k) pg a) = false ->
  exists r k' l', mappages pg a PGSIZE (V2P q) perm k = Ok (r, k') /\ grow kend pg k l k' l' /\
    uvm_ok (kram k') pg l' /\ ~ tabled (kram k') pg q /\
    (r = 0 /\ (forall va, 0 <= va < 2 ^ 32 ->
       walk (kram k') pg va = if a / PGSIZE =? va / PGSIZE then user_entry q perm else walk (kram k) pg va) \/
     r = -1 /\ l' = [] /\ (forall va, 0 <= va < 2 ^ 32 -> walk (kram k') pg va = walk (kram k) pg va)).
Proof.
  intros Hi Hu Ha Hal Hperm Hq Hql Hqt Hqu Hnp. unfold PGSIZE in *.
  assert (EA : a - a mod 4096 = a) by lia. assert (EN : (a + 4096 - 1) / 4096 - a / 4096 + 1 = 1) by zdiv.
  destruct (mappages_ok kend pg a 4096 (V2P q) perm k l Hi (uv_pt _ _ _ Hu))
    as (r & k' & l' & j & E & G & Hr & Hw); unfold PGSIZE in *; try (unfold KERNBASE in *; lia).
  { intros v Hv. rewrite (walk_same_page _ _ v a); [done | unfold KERNBASE in *; lia.. | zdiv]. }
  rewrite EA, EN in *.
  assert (Hqt' : ~ tabled (kram k') pg q) by (rewrite (gr_tab _ _ _ _ _ _ G); naive_solver).
  destruct (user_entry_parts q perm Hq Hperm) as (Epg & _ & Epr).
  exists r, k', l'. destruct Hr as [[-> ->]|(-> & Hj & ->)].
  - assert (Hw' : forall va, 0 <= va < 2 ^ 32 ->
      walk (kram k') pg va = if a / 4096 =? va / 4096 then user_entry q perm else walk (kram k) pg va).
    { intros va Hva. rewrite Hw by done. unfold mapped_walk, PGSIZE.
      destruct (Z.eqb_spec (a / 4096) (va / 4096)) as [E1|E1].
      - destruct (Z.leb_spec a va), (Z.ltb_spec va (a + 1 * 4096)); cbn [andb]; try zdiv.
        replace (va - va mod 4096 - a) with 0 by zdiv. rewrite Z.add_0_r.
        rewrite (u32_small (V2P q)) by (pose proof (V2P_page_range kend q Hq) as HV; unfold PHYSTOP in HV; lia).
        rewrite <- Z.lor_assoc. apply (entry_parts kend q (Z.lor perm PTE_P) Hq).
        apply lor_flags; [done | unfold PTE_P; lia].
      - destruct (Z.leb_spec a va), (Z.ltb_spec va (a + 1 * 4096)); cbn [andb]; try done. zdiv. }
    split_and!; auto. constructor; [apply G| |].
    + intros va Hva. rewrite Hw' by (unfold KERNBASE in *; lia).
      destruct (Z.eqb_spec (a / 4096) (va / 4096)) as [E1|E1].
      * intros _. rewrite Epg. split_and!; auto. intros H. by apply Hql, (gr_sub _ _ _ _ _ _ G).
      * intros Hp. destruct (uv_page _ _ _ Hu va Hva Hp) as (? & Hn & Ht). split_and!; auto.
        -- intros H'. by apply Hn, (gr_sub _ _ _ _ _ _ G).
        -- rewrite (gr_tab _ _ _ _ _ _ G). naive_solver.
    + intros va va' Hva Hva'. rewrite !Hw' by (unfold KERNBASE in *; lia). unfold PGSIZE.
      destruct (Z.eqb_spec (a / 4096) (va / 4096)) as [E1|E1], (Z.eqb_spec (a / 4096) (va' / 4096)) as [E2|E2].
      * congruence.
      * intros _ Hp. rewrite Epg. intros Eq. destruct Hqu. by exists va'.
      * intros Hp _. rewrite Epg. intros Eq. destruct Hqu. by exists va.
      * by apply (uv_inj _ _ _ Hu).
  - assert (j = 0) as -> by lia.
    assert (Hw' : forall va, 0 <= va < 2 ^ 32 -> walk (kram k') pg va = walk (kram k) pg va).
    { intros va Hva. rewrite Hw by done. unfold mapped_walk.
      destruct (Z.leb_spec a va), (Z.ltb_spec va (a + 0 * PGSIZE)); try done. lia. }
    split_and!; auto. constructor; [apply G| |].
    + intros va Hva. rewrite Hw' by (unfold KERNBASE in *; lia). intros Hp.
      destruct (uv_page _ _ _ Hu va Hva Hp) as (? & Hn & Ht). split_and!; auto; [apply not_elem_of_nil|].
      rewrite (gr_tab _ _ _ _ _ _ G). naive_solver.
    + intros va va' Hva Hva'. rewrite !Hw' by (unfold KERNBASE in *; lia). by apply (uv_inj _ _ _ Hu).
Qed.

Section data.
Context (data : Z).
(** kernel.ld puts [data] on a page boundary inside the kernel image. *)
Context (Hdata : KERNLINK < data < KERNBASE + PHYSTOP) (Hdata_al : data mod PGSIZE = 0).

Lemma kmap_ok : kmap_fits KERNBASE (kmap data).
Proof.
  assert (ED : V2P data = data - KERNBASE).
  { unfold V2P. apply u32_small. unfold KERNLINK, KERNBASE, EXTMEM, PHYSTOP in *. lia. }
  unfold kmap, kmap_fits, kmap_size. cbn [virt phys_start phys_end]. rewrite ED.
  change (V2P KERNLINK) with EXTMEM.
  rewrite (u32_small (EXTMEM - 0)) by (unfold EXTMEM; lia).
  rewrite (u32_small (data - KERNBASE - EXTMEM)) by (unfold KERNLINK, KERNBASE, EXTMEM, PHYSTOP in *; lia).
  rewrite (u32_small (PHYSTOP - (data - KERNBASE))) by (unfold KERNLINK, KERNBASE, EXTMEM, PHYSTOP in *; lia).
  change (u32 (0 - DEVSPACE)) with 0x2000000.
  unfold KERNLINK, KERNBASE, EXTMEM, PHYSTOP, DEVSPACE, PGSIZE in *. split_and!; try lia; try done; zdiv.
Qed.

Lemma setupkvm_ok k l :
  kinv k l ->
  exists d k' l', setupkvm kend data k = Ok (d, k') /\ kinv k' l' /\
    (forall x, (forall p, p ∈ l -> ~ in_page p x) -> kram k' x = kram k x) /\
    (d = 0 /\ (forall p, p ∈ l' <-> p ∈ l) \/
     d ∈ l /\ uvm_ok (kram k') d l' /\ (forall p, p ∈ l <-> p ∈ l' \/ tabled (kram k') d p) /\
     (forall va, 0 <= va < 2 ^ 32 -> walk (kram k') d va = if va <? KERNBASE then 0 else kern_walk (kmap data) va)).
Proof.
  intros Hi. unfold setupkvm. destruct l as [|d l].
  { exists 0, k, []. destruct (Hi) as (Hc & _). simpl in Hc. unfold kalloc. rewrite Hc. simpl.
    split_and!; auto. }
  destruct (kalloc_pop kend k d l Hi) as [-> Hi1].
  assert (Hd : page_ok d) by (eapply kinv_page; [exact Hi|]; apply elem_of_cons; by left).
  assert (Hdl : d ∉ l) by (destruct Hi as (_ & Hnd & _); by inversion Hnd).
  destruct (Z.eqb_spec d 0) as [->|_]; [pose proof (page_ok_nonzero kend 0 Hd); lia|].
  change (DEVSPACE <? P2V PHYSTOP) with false. cbn [rbind].
  set (k1 := with_ram _ _).
  assert (Hout : forall x, ~ in_page d x -> kram k1 x = kram k x).
  { intros x Hx. simpl. unfold in_page, PGSIZE in *. rewrite memset_spec, mfill_out by lia. done. }
  assert (Hi2 : kinv k1 l).
  { apply (kinv_frame kend _ l _ Hi1).
    - apply byte_mem_memset; [apply Hi | unfold PGSIZE; lia].
    - intros u x Hu Hx. apply Hout. intros Hx'.
      eapply (page_sep kend u d x x); eauto; [eapply kinv_page; eauto | by intros ->]. }
  destruct (zero_dir (kram k1) d l Hd) as (Hpt & Hw0 & Htab0); auto.
  { intros x Hx. simpl. unfold in_page, PGSIZE in *. rewrite memset_spec, mfill_in by lia. done. }
  destruct (setupkvm_loop_ok d (kmap data) KERNBASE k1 l Hi2 Hpt kmap_ok) as (r & k' & l' & -> & Hres);
    [lia | intros; apply Hw0 |].
  exists r, k', l'. split; [done|]. destruct Hres as [(-> & G & Hw)|(-> & Hi' & Hl' & Hf')].
  - assert (Htab : forall p, p ∈ d :: l <-> p ∈ l' \/ tabled (kram k') d p).
    { intros p. rewrite (gr_tab _ _ _ _ _ _ G), Htab0, elem_of_cons. pose proof (gr_sub _ _ _ _ _ _ G p).
      destruct (decide (p ∈ l')); naive_solver. }
    split_and!; [apply G | |right].
    + intros x Hx. rewrite (gr_frame _ _ _ _ _ _ G); [apply Hout, Hx; apply elem_of_cons; by left|].
      intros p Hp. apply Hx, Htab. by right.
    + assert (Hlow : forall va, 0 <= va < 2 ^ 32 -> va < KERNBASE -> walk (kram k') d va = 0).
      { intros va Hva Hlt. rewrite Hw by done. rewrite Hw0. destruct (Z.ltb_spec va KERNBASE); [done | lia]. }
      split_and!; [apply elem_of_cons; by left | | exact Htab |].
      * apply uvm_ok_empty; [apply G|]. intros va Hva. rewrite Hlow by (unfold KERNBASE in *; lia). done.
      * intros va Hva. rewrite Hw by done. by rewrite Hw0.
  - split_and!; auto.
    + intros x Hx. rewrite Hf'; [apply Hout, Hx; apply elem_of_cons; by left|].
      intros p Hp. apply Hx. apply Hl' in Hp. rewrite Htab0 in Hp. apply elem_of_cons. naive_solver.
    + left. split; [done|]. intros p. rewrite Hl', Htab0, elem_of_cons. naive_solver.
Qed.
End data.
End user.
