(* ===== verification/VmCopy.v ===== *)
(** * Growing, copying and filling user memory (src/vm.c)

    The user-visible contracts of [allocuvm], [copyuvm], [copyout] and
    [freevm], with conservation of pages: at every return the pages that are
    free, used for tables or mapped are the ones there were at the call. *)

From S2P Require Import Prelude Layout StringLib Kalloc Vm VmSpec VmUser.

Section copy.
Context (kend : Z) (Hkend : KERNBASE < kend).
Abbreviation page_ok := (page_ok kend).
Abbreviation kinv := (kinv kend).
Abbreviation pt_ok := (pt_ok kend).
Abbreviation uvm_ok := (uvm_ok kend).

(** All pages an address space and the allocator account for. *)
Definition pages (pg : Z) (k : kmem) (l : list Z) (p : Z) : Prop :=
  p ∈ l \/ tabled (kram k) pg p \/ umapped (kram k) pg p.

(** An address space survives stores outside its tables and a smaller free list. *)
Lemma uvm_frame m m' pg l l' :
  uvm_ok m pg l -> (forall p x, tabled m pg p -> in_page p x -> m' x = m x) -> (forall p, p ∈ l' -> p ∈ l) ->
  uvm_ok m' pg l' /\ (forall va, walk m' pg va = walk m pg va) /\
  (forall p, tabled m' pg p <-> tabled m pg p) /\ (forall p, umapped m' pg p <-> umapped m pg p).
Proof.
  intros [Hpt Hup Hinj] Hfr Hsub.
  assert (Hdir : forall x, in_page pg x -> m' x = m x) by (intros; eapply Hfr; [by left | done]).
  assert (Hw : forall va, walk m' pg va = walk m pg va) by (intros; by apply walk_frame).
  assert (Ht : forall p, tabled m' pg p <-> tabled m pg p) by (intros; by apply tabled_frame).
  split_and!; auto.
  - constructor.
    + eapply pt_ok_free; [eapply pt_ok_frame; eauto|]. intros p Hp. left. auto.
    + intros va Hva. rewrite Hw, Ht. intros Hp. destruct (Hup va Hva Hp) as (? & ? & ?). split_and!; auto.
    + intros va va' Hva Hva'. rewrite !Hw. by apply Hinj.
  - intros p. unfold umapped. by setoid_rewrite Hw.
Qed.

(** Taking page [q] off the free list and filling it. *)
Definition filled (k : kmem) (q : Z) (m : mem) : kmem := mk_kmem (use_lock k) (ld32 (kram k) q) m.

Lemma fill_page k q l m :
  kinv k (q :: l) -> byte_mem m -> (forall x, ~ in_page q x -> m x = kram k x) ->
  kalloc k = (q, filled k q (kram k)) /\ q <> 0 /\ page_ok q /\ (q ∉ l) /\ kinv (filled k q m) l.
Proof.
  intros Hi Hb Hout. destruct (kalloc_pop kend k q l Hi) as [-> Hi1].
  assert (Hq : page_ok q) by (eapply kinv_page; [exact Hi|]; apply elem_of_cons; by left).
  assert (Hql : q ∉ l) by (destruct Hi as (_ & Hnd & _); by inversion Hnd).
  split_and!; auto; [pose proof (page_ok_nonzero kend q Hq); lia|].
  apply (kinv_frame kend _ l m Hi1 Hb). intros u x Hu Hx. apply Hout. intros Hx'.
  eapply (page_sep kend u q x x); eauto; [eapply kinv_page; eauto | by intros ->].
Qed.

(** Pages of the free list are not part of an address space. *)
Lemma free_not_mine m pg l p : uvm_ok m pg l -> p ∈ l -> ~ tabled m pg p /\ ~ umapped m pg p.
Proof.
  intros Hu Hp. split.
  - intros Ht. by destruct (tabled_ok _ _ _ _ _ (uv_pt _ _ _ _ Hu) Ht).
  - intros Ht. by destruct (umapped_page _ _ _ _ _ Hu Ht) as (_ & ? & _).
Qed.

Lemma fill_uvm k q l m pg :
  uvm_ok (kram k) pg (q :: l) -> page_ok q -> (forall x, ~ in_page q x -> m x = kram k x) ->
  uvm_ok m pg l /\ (forall va, walk m pg va = walk (kram k) pg va) /\
  (forall p, tabled m pg p <-> tabled (kram k) pg p) /\ (forall p, umapped m pg p <-> umapped (kram k) pg p) /\
  ~ tabled m pg q /\ ~ umapped m pg q.
Proof.
  intros Hu Hq Hout.
  destruct (free_not_mine _ _ _ q Hu) as [Hnt Hnu]; [apply elem_of_cons; by left|].
  destruct (uvm_frame (kram k) m pg (q :: l) l Hu) as (Hu' & Hw & Ht & Hum).
  - intros p x Hp Hx. apply Hout. intros Hx'. destruct (tabled_ok _ _ _ _ _ (uv_pt _ _ _ _ Hu) Hp).
    eapply (page_sep kend p q x x); eauto. by intros ->.
  - intros p Hp. apply elem_of_cons. by right.
  - split_and!; auto; [by rewrite Ht | by rewrite Hum].
Qed.

(** ** allocuvm *)

Lemma umapped_update pg a q perm m m' p :
  0 <= a < KERNBASE -> page_ok q -> 0 <= perm < 4096 -> present (walk m pg a) = false ->
  (forall va, 0 <= va < 2 ^ 32 ->
     walk m' pg va = if a / PGSIZE =? va / PGSIZE then user_entry q perm else walk m pg va) ->
  umapped m' pg p <-> umapped m pg p \/ p = q.
Proof.
  intros Ha Hq Hperm Hnp Hw. destruct (user_entry_parts kend q perm Hq Hperm) as (Epg & _ & Epr).
  unfold PGSIZE in Hw. split.
  - intros (va & Hva & Hp & ->). rewrite Hw in * by (unfold KERNBASE in *; lia).
    destruct (Z.eqb_spec (a / 4096) (va / 4096)); [by right|]. left. by exists va.
  - intros [(va & Hva & Hp & ->)| ->].
    + exists va. rewrite Hw by (unfold KERNBASE in *; lia).
      destruct (Z.eqb_spec (a / 4096) (va / 4096)); [|done]. rewrite (walk_same_page _ _ va a) in Hp;
        [congruence | unfold KERNBASE in *; lia.. | done].
    + exists a. rewrite Hw, Z.eqb_refl by (unfold KERNBASE in *; lia). done.
Qed.

(** The mapping of [va] and the byte behind it are what they were. *)
Definition user_kept (pg : Z) (k k' : kmem) (va : Z) : Prop :=
  walk (kram k') pg va = walk (kram k) pg va /\
  (va < KERNBASE -> present (walk (kram k) pg va) = true ->
   user_byte (kram k') pg va = user_byte (kram k) pg va).

Lemma user_kept_refl pg k va : user_kept pg k k va.
Proof. by split. Qed.

Lemma user_kept_trans pg k1 k2 k3 va : user_kept pg k1 k2 va -> user_kept pg k2 k3 va -> user_kept pg k1 k3 va.
Proof.
  intros [W1 B1] [W2 B2]. split; [congruence|]. intros Hv Hp. rewrite B2, B1; auto. by rewrite W1.
Qed.

Lemma user_kept_intro pg k k' va : 0 <= va ->
  walk (kram k') pg va = walk (kram k) pg va ->
  (va < KERNBASE -> present (walk (kram k) pg va) = true ->
   forall x, in_page (pgof (walk (kram k) pg va)) x -> kram k' x = kram k x) ->
  user_kept pg k k' va.
Proof.
  intros H0 Hw Hb. split; [done|]. intros Hv Hp. unfold user_byte. rewrite Hw. apply Hb; auto.
  unfold in_page, PGSIZE. pose proof (Z.mod_pos_bound va 4096). lia.
Qed.

Lemma released_kept pg a oldsz k l k' l' va :
  uvm_ok (kram k) pg l -> released kend pg a oldsz k l k' l' -> a mod PGSIZE = 0 ->
  0 <= va < 2 ^ 32 -> va < a \/ oldsz <= va - va mod PGSIZE -> user_kept pg k k' va.
Proof.
  intros Hu [R1 R2 R3 R4 R5 R6 R7] Ha Hva Hout. apply user_kept_intro; [lia | by apply R5|].
  intros Hv Hp x Hx. destruct (uv_page _ _ _ _ Hu va) as (Hpo & Hpl & Hpt); auto; [lia|].
  apply R7.
  - intros q Hq Hx'. destruct (tabled_ok _ _ _ _ _ (uv_pt _ _ _ _ Hu) Hq) as [Hqo _].
    eapply (page_sep kend _ _ x x Hpo Hqo); eauto. by intros <-.
  - intros q Hq Hql Hx'. apply R6 in Hq as [?|(va' & Hv' & Ha' & Hlo & Hp' & ->)]; [done|].
    destruct (uv_page _ _ _ _ Hu va') as (Hqo & _); auto.
    eapply (page_sep kend _ _ x x Hpo Hqo); eauto. intros E. apply (uv_inj _ _ _ _ Hu) in E; auto; [|lia].
    unfold PGSIZE in *. zdiv.
Qed.

Lemma released_pages pg a oldsz k l k' l' p :
  uvm_ok (kram k) pg l -> released kend pg a oldsz k l k' l' -> pages pg k' l' p <-> pages pg k l p.
Proof.
  intros Hu [R1 R2 R3 R4 R5 R6 R7]. unfold pages. rewrite R3, R6. split.
  - intros [[?|(va & ? & ? & ? & ? & ->)]|[?|(va & Hva & Hp & ->)]]; auto.
    + right. right. by exists va.
    + assert (0 <= va < 2 ^ 32) by (unfold KERNBASE in *; lia). 
      assert (Hout : va < a \/ oldsz <= va - va mod PGSIZE).
      { destruct (Z.lt_ge_cases va a); [by left|]. right.
        destruct (Z.lt_ge_cases (va - va mod PGSIZE) oldsz); [|done]. by rewrite R4 in Hp by auto. }
      rewrite R5 in * by auto. right. right. by exists va.
  - intros [?|[?|(va & Hva & Hp & ->)]]; auto.
    assert (0 <= va < 2 ^ 32) by (unfold KERNBASE in *; lia).
    destruct (decide (a <= va /\ va - va mod PGSIZE < oldsz)) as [[? ?]|Hn].
    + left. right. exists va. auto.
    + right. right. exists va. rewrite R5; auto. lia.
Qed.

Lemma released_frame pg a oldsz k l k' l' x :
  uvm_ok (kram k) pg l -> released kend pg a oldsz k l k' l' ->
  (forall p, pages pg k l p -> ~ in_page p x) -> kram k' x = kram k x.
Proof.
  intros Hu R Hx. apply (rl_frame _ _ _ _ _ _ _ _ R).
  - intros p Hp. apply Hx. right. by left.
  - intros p Hp _. apply Hx. apply (released_pages pg a oldsz k l k' l' p Hu R). by left.
Qed.

(** One page taken, filled with [m]'s bytes and mapped at [a]. *)
Record mapped_page (pg a q perm : Z) (m : mem) (k : kmem) (l : list Z) (k' : kmem) (l' : list Z) (r : Z) : Prop := {
  mp_inv : kinv k' l';
  mp_uvm : uvm_ok (kram k') pg l';
  mp_sub : forall p, p ∈ l' -> p ∈ l;
  mp_tab : forall p, tabled (kram k') pg p <-> tabled (kram k) pg p \/ p ∈ l /\ p ∉ l';
  mp_q : ~ tabled (kram k') pg q;
  mp_in : forall x, in_page q x -> kram k' x = m x;
  mp_out : forall x, ~ in_page q x -> (forall p, tabled (kram k') pg p -> ~ in_page p x) -> kram k' x = kram k x;
  mp_res : r = 0 /\ (forall va, 0 <= va < 2 ^ 32 ->
       walk (kram k') pg va = if a / PGSIZE =? va / PGSIZE then user_entry q perm else walk (kram k) pg va) \/
     r = -1 /\ l' = [] /\ (forall va, 0 <= va < 2 ^ 32 -> walk (kram k') pg va = walk (kram k) pg va)
}.

Lemma map_new_page pg a q perm m k l :
  kinv k (q :: l) -> uvm_ok (kram k) pg (q :: l) -> byte_mem m -> (forall x, ~ in_page q x -> m x = kram k x) ->
  0 <= a < KERNBASE -> a mod PGSIZE = 0 -> 0 <= perm < 4096 -> present (walk (kram k) pg a) = false ->
  exists r k' l', mappages pg a PGSIZE (V2P q) perm (filled k q m) = Ok (r, k') /\
    mapped_page pg a q perm m k l k' l' r.
Proof.
  intros Hi Hu Hb Hout Ha Hal Hperm Hnp.
  destruct (fill_page k q l m Hi Hb Hout) as (_ & _ & Hq & Hql & Hi1).
  destruct (fill_uvm k q l m pg Hu Hq Hout) as (Hu1 & Hw1 & Ht1 & Hum1 & Hnt & Hnu).
  destruct (map_user_ok kend pg a q perm (filled k q m) l) as (r & k' & l' & E & G & Hu' & Hqt & Hr); auto.
  { cbn [filled kram]. by rewrite Hw1. }
  exists r, k', l'. split; [done|]. destruct G as [G1 G2 G3 G4 G5]. cbn [filled kram] in *. constructor; auto.
  - intros p. by rewrite G3, Ht1.
  - intros x Hx. apply G5. intros p Hp Hx'. destruct (tabled_ok _ _ _ _ _ G2 Hp) as [Hpo _].
    eapply (page_sep kend p q x x); eauto. by intros ->.
  - intros x Hx Hp. rewrite G5 by done. by apply Hout.
  - destruct Hr as [[-> Hw]|(-> & -> & Hw)]; [left | right]; split_and!; auto; intros va Hva;
      rewrite Hw, Hw1 by done; done.
Qed.

Lemma mapped_page_kept pg a q perm m k l k' l' r va :
  uvm_ok (kram k) pg (q :: l) -> page_ok q -> mapped_page pg a q perm m k l k' l' r ->
  0 <= va < 2 ^ 32 -> (r = -1 \/ a / PGSIZE <> va / PGSIZE) -> user_kept pg k k' va.
Proof.
  intros Hu Hq [M1 M2 M3 M4 M5 M6 M7 M8] Hva Hne. apply user_kept_intro; [lia | |].
  - destruct M8 as [[-> Hw]|(-> & _ & Hw)]; rewrite Hw by done; [|done].
    destruct (Z.eqb_spec (a / PGSIZE) (va / PGSIZE)); [|done]. destruct Hne; [lia | done].
  - intros Hv Hp x Hx. destruct (uv_page _ _ _ _ Hu va) as (Hpo & Hpl & Hpt); auto; [lia|].
    rewrite not_elem_of_cons in Hpl. destruct Hpl as [Hpq Hpl]. apply M7.
    + intros Hx'. eapply (page_sep kend _ q x x Hpo); eauto.
    + intros p Hp' Hx'. assert (Hpo' : page_ok p) by (by destruct (tabled_ok _ _ _ _ _ (uv_pt _ _ _ _ M2) Hp')).
      eapply (page_sep kend _ _ x x Hpo Hpo'); eauto. intros <-. apply M4 in Hp' as [?|[? _]]; done.
Qed.

Lemma mapped_page_pages pg a q perm m k l k' l' p :
  uvm_ok (kram k) pg (q :: l) -> page_ok q -> 0 <= a < KERNBASE -> 0 <= perm < 4096 ->
  present (walk (kram k) pg a) = false ->
  mapped_page pg a q perm m k l k' l' 0 -> pages pg k' l' p <-> pages pg k (q :: l) p.
Proof.
  intros Hu Hq Ha Hperm Hnp [M1 M2 M3 M4 M5 M6 M7 [[_ Hw]|[? _]]]; [|done].
  unfold pages. rewrite M4, elem_of_cons, (umapped_update pg a q perm (kram k)); eauto.
  pose proof (M3 p). destruct (decide (p ∈ l')); naive_solver.
Qed.

Lemma uvm_ok_free m pg l q : uvm_ok m pg l -> ~ tabled m pg q -> ~ umapped m pg q -> uvm_ok m pg (q :: l).
Proof.
  intros [Hpt Hup Hinj] Ht Hum. constructor; auto.
  - eapply pt_ok_free; [done|]. intros p [->|?]%elem_of_cons; auto.
  - intros va Hva Hp. destruct (Hup va Hva Hp) as (? & ? & ?). rewrite not_elem_of_cons. split_and!; auto.
    intros E. apply Hum. by exists va.
Qed.

(** A page that is not mapped goes back to the free list. *)
Lemma give_back pg k l q :
  kinv k l -> uvm_ok (kram k) pg l -> page_ok q -> q ∉ l -> ~ tabled (kram k) pg q -> ~ umapped (kram k) pg q ->
  exists k', kfree kend q k = Ok k' /\ kinv k' (q :: l) /\ uvm_ok (kram k') pg (q :: l) /\
    (forall p, tabled (kram k') pg p <-> tabled (kram k) pg p) /\
    (forall p, umapped (kram k') pg p <-> umapped (kram k) pg p) /\
    (forall va, 0 <= va -> user_kept pg k k' va) /\ (forall x, ~ in_page q x -> kram k' x = kram k x).
Proof.
  intros Hi Hu Hq Hql Hqt Hqu. destruct (kfree_ok kend k l q Hi Hq Hql) as (k' & -> & Hi' & Hf).
  destruct (uvm_frame (kram k) (kram k') pg l l Hu) as (Hu' & Hw & Ht & Hum); auto.
  { intros p x Hp Hx. apply Hf. intros Hx'. destruct (tabled_ok _ _ _ _ _ (uv_pt _ _ _ _ Hu) Hp).
    eapply (page_sep kend p q x x); eauto. by intros ->. }
  exists k'. split_and!; auto.
  - apply uvm_ok_free; auto; [by rewrite Ht | by rewrite Hum].
  - intros va Hva. apply user_kept_intro; auto. intros Hv Hp x Hx. apply Hf. intros Hx'.
    destruct (uv_page _ _ _ _ Hu va) as (Hpo & _); auto.
    eapply (page_sep kend _ q x x Hpo); eauto. intros <-. apply Hqu. by exists va.
Qed.

Definition USER_RW : Z := Z.lor PTE_W PTE_U.

(** What [allocuvm] leaves when it fills [a, newsz) of a space grown from [a0]. *)
Record alloc_post (pg a0 a newsz : Z) (k : kmem) (l : list Z) (r : Z) (k' : kmem) (l' : list Z) : Prop := {
  ap_inv : kinv k' l';
  ap_uvm : uvm_ok (kram k') pg l';
  ap_pages : forall p, pages pg k' l' p <-> pages pg k l p;
  ap_frame : forall x, (forall p, pages pg k l p -> ~ in_page p x) -> kram k' x = kram k x;
  ap_out : forall va, 0 <= va < 2 ^ 32 -> va < a0 \/ newsz <= va - va mod PGSIZE -> user_kept pg k k' va;
  ap_res : r = newsz /\
       (forall va, a0 <= va < a -> user_kept pg k k' va) /\
       (forall va, a <= va -> va - va mod PGSIZE < newsz ->
          (exists q, page_ok q /\ walk (kram k') pg va = user_entry q USER_RW) /\ user_byte (kram k') pg va = 0) \/
     r = 0 /\ (forall va, a0 <= va -> va - va mod PGSIZE < newsz -> present (walk (kram k') pg va) = false)
}.

(** Undoing a growth that ran out of memory. *)
Lemma alloc_undo pg oldsz newsz a k l :
  kinv k l -> uvm_ok (kram k) pg l -> 0 <= oldsz < newsz -> newsz < KERNBASE ->
  exists k' l', deallocuvm kend pg newsz oldsz k = Ok (oldsz, k') /\
    released kend pg (PGROUNDUP oldsz) newsz k l k' l' /\
    alloc_post pg (PGROUNDUP oldsz) a newsz k l 0 k' l'.
Proof.
  intros Hi Hu Ho Hn. destruct (deallocuvm_ok kend Hkend pg newsz oldsz k l Hi Hu) as (k' & l' & E & R); [lia | lia|].
  assert (Hr : PGROUNDUP oldsz mod PGSIZE = 0 /\ 0 <= PGROUNDUP oldsz).
  { destruct (PGROUNDUP_spec oldsz); [unfold KERNBASE, PGSIZE in *; lia | split; [done | lia]]. }
  exists k', l'. split_and!; auto. constructor.
  - apply R.
  - apply R.
  - intros p. by apply (released_pages pg (PGROUNDUP oldsz) newsz).
  - intros x. by apply (released_frame pg (PGROUNDUP oldsz) newsz k l k' l').
  - intros va Hva Hout. eapply released_kept; eauto. apply Hr.
  - right. split; [done|]. intros va Hva Hlo. destruct Hr as [Hr1 Hr2].
    apply (rl_in _ _ _ _ _ _ _ _ R); auto. unfold KERNBASE, PGSIZE in *. zdiv.
Qed.

Lemma alloc_post_fail pg a0 a a' newsz k l k1 l1 k2 l2 :
  (forall p, pages pg k1 l1 p <-> pages pg k l p) ->
  (forall x, (forall p, pages pg k l p -> ~ in_page p x) -> kram k1 x = kram k x) ->
  (forall va, 0 <= va < 2 ^ 32 -> va < a0 \/ newsz <= va - va mod PGSIZE -> user_kept pg k k1 va) ->
  0 < newsz -> alloc_post pg a0 a newsz k1 l1 0 k2 l2 -> alloc_post pg a0 a' newsz k l 0 k2 l2.
Proof.
  intros Hp Hf Hk Hnz [A1 A2 A3 A4 A5 A6]. constructor; auto.
  - intros p. by rewrite A3.
  - intros x Hx. rewrite A4, Hf; auto. intros p. rewrite Hp. apply Hx.
  - intros va Hva Ho. eapply user_kept_trans; [by apply Hk | by apply A5].
  - right. destruct A6 as [[? _]|[_ ?]]; [lia | done].
Qed.

Lemma mapped_page_fail pg a q perm m k l k' l' p :
  mapped_page pg a q perm m k l k' l' (-1) -> p = q \/ pages pg k' [] p <-> pages pg k (q :: l) p.
Proof.
  intros [M1 M2 M3 M4 M5 M6 M7 [[? _]|(_ & -> & Hw)]]; [done|].
  assert (Hum : umapped (kram k') pg p <-> umapped (kram k) pg p).
  { unfold umapped. split; intros (va & Hva & H); exists va; (split; [done|]);
      rewrite Hw in * by (unfold KERNBASE in *; lia); done. }
  unfold pages. rewrite M4, Hum, elem_of_cons. set_solver.
Qed.

Lemma mapped_page_frame pg a q perm m k l k' l' r x :
  mapped_page pg a q perm m k l k' l' r -> (forall p, pages pg k (q :: l) p -> ~ in_page p x) -> kram k' x = kram k x.
Proof.
  intros [M1 M2 M3 M4 M5 M6 M7 _] Hx. apply M7.
  - apply Hx. left. apply elem_of_cons. by left.
  - intros p [?|[? _]]%M4; apply Hx; [right; by left | left; apply elem_of_cons; by right].
Qed.

Lemma alloc_fail_mapped pg a oldsz newsz q perm m k l k1 l1 :
  kinv k (q :: l) -> uvm_ok (kram k) pg (q :: l) -> 0 <= oldsz < newsz -> newsz < KERNBASE -> page_ok q ->
  mapped_page pg a q perm m k l k1 l1 (-1) ->
  exists k2 k3 l3, deallocuvm kend pg newsz oldsz k1 = Ok (oldsz, k2) /\ kfree kend q k2 = Ok k3 /\
    alloc_post pg (PGROUNDUP oldsz) a newsz k (q :: l) 0 k3 l3.
Proof.
  intros Hi Hu Ho Hn Hq M.
  assert (Hl1 : l1 = []) by (destruct M as [_ _ _ _ _ _ _ [[? _]|(_ & ? & _)]]; done). subst l1.
  destruct (alloc_undo pg oldsz newsz a k1 [] (mp_inv _ _ _ _ _ _ _ _ _ _ M) (mp_uvm _ _ _ _ _ _ _ _ _ _ M) Ho Hn)
    as (k2 & l2 & E & R & [A1 A2 A3 A4 A5 A6]).
  destruct (free_not_mine _ _ _ q Hu) as [Hqt Hqu]; [apply elem_of_cons; by left|].
  assert (Hnp : ~ pages pg k1 [] q).
  { intros [[]%not_elem_of_nil|[Ht|(va & Hva & Hp & E')]]; [by apply (mp_q _ _ _ _ _ _ _ _ _ _ M)|].
    destruct M as [_ _ _ _ _ _ _ [[? _]|(_ & _ & Hw)]]; [done|].
    rewrite Hw in * by (unfold KERNBASE in *; lia). apply Hqu. by exists va. }
  rewrite <- A3 in Hnp. unfold pages in Hnp.
  destruct (give_back pg k2 l2 q) as (k3 & E3 & Hi3 & Hu3 & Ht3 & Hum3 & Hk3 & Hf3); auto.
  exists k2, k3, (q :: l2). split_and!; auto. constructor; auto.
  - intros p. rewrite <- (mapped_page_fail _ _ _ _ _ _ _ _ _ p M), <- A3. unfold pages.
    rewrite Ht3, Hum3, elem_of_cons. tauto.
  - intros x Hx. rewrite Hf3, A4, (mapped_page_frame _ _ _ _ _ _ _ _ _ _ x M); auto.
    + intros p Hp. apply Hx, (mapped_page_fail _ _ _ _ _ _ _ _ _ p M). by right.
    + apply Hx. left. apply elem_of_cons. by left.
  - intros va Hva Hout. eapply user_kept_trans; [eapply user_kept_trans|].
    + eapply mapped_page_kept; eauto.
    + apply A5; done.
    + apply Hk3. lia.
  - right. split; [done|]. intros va Hva Hlo.
    destruct A6 as [[? _]|[_ Hno]]; [lia|]. destruct (Hk3 va) as [-> _]; [|by apply Hno].
    destruct (PGROUNDUP_spec oldsz); [unfold KERNBASE, PGSIZE in *; lia | lia].
Qed.

Lemma memset_zero_page k q : byte_mem (kram k) -> page_ok q ->
  byte_mem (memset (kram k) q 0 PGSIZE) /\
  (forall x, ~ in_page q x -> memset (kram k) q 0 PGSIZE x = kram k x) /\
  (forall x, in_page q x -> memset (kram k) q 0 PGSIZE x = 0).
Proof.
  intros Hb Hq. unfold in_page, PGSIZE. split_and!.
  - apply byte_mem_memset; [done | lia].
  - intros x Hx. rewrite memset_spec, mfill_out by lia. done.
  - intros x Hx. rewrite memset_spec, mfill_in by lia. done.
Qed.

Lemma alloc_post_nil pg a0 a newsz k l :
  kinv k l -> uvm_ok (kram k) pg l -> a mod PGSIZE = 0 -> newsz <= a -> alloc_post pg a0 a newsz k l newsz k l.
Proof.
  intros Hi Hu Ham Hge. constructor; auto.
  - intros. apply user_kept_refl.
  - left. split_and!; [done | intros; apply user_kept_refl|].
    intros va Hva Hlo. unfold PGSIZE in *. zdiv.
Qed.

Lemma allocuvm_loop_ok fuel : forall pg a oldsz newsz k l,
  kinv k l -> uvm_ok (kram k) pg l -> a mod PGSIZE = 0 -> PGROUNDUP oldsz <= a -> 0 <= oldsz <= newsz ->
  newsz < KERNBASE -> newsz - a <= Z.of_nat fuel * PGSIZE ->
  (forall va, a <= va -> va - va mod PGSIZE < newsz -> present (walk (kram k) pg va) = false) ->
  exists r k' l', allocuvm_loop kend fuel pg a oldsz newsz k = Ok (r, k') /\
    alloc_post pg (PGROUNDUP oldsz) a newsz k l r k' l'.
Proof.
  induction fuel as [|fuel IH]; intros pg a oldsz newsz k l Hi Hu Ham Hao Hon Hn Hf Hno;
    destruct (PGROUNDUP_spec oldsz) as [Hr1 Hr2]; try (unfold KERNBASE, PGSIZE in *; lia);
    cbn [allocuvm_loop]; destruct (Z.ltb_spec a newsz) as [Hlt|Hge]; try (unfold PGSIZE in *; lia).
  1, 3: exists newsz, k, l; split; [done | by apply alloc_post_nil].
  destruct l as [|q l].
  { assert (Ek : kalloc k = (0, k)) by (destruct Hi as (Hc & _); simpl in Hc; unfold kalloc; by rewrite Hc).
    rewrite Ek, Z.eqb_refl.
    destruct (alloc_undo pg oldsz newsz a k [] Hi Hu) as (k' & l' & -> & _ & A); [lia | done|].
    exists 0, k', l'. by split. }
  assert (Hq : page_ok q) by (eapply kinv_page; [exact Hi|]; apply elem_of_cons; by left).
  destruct (memset_zero_page k q) as (Hb & Hout & Hz); [apply Hi | done|].
  destruct (fill_page k q l _ Hi Hb Hout) as (-> & Hq0 & _ & Hql & Hi1).
  destruct (Z.eqb_spec q 0) as [|_]; [done|]. unfold with_ram, filled. cbn [use_lock freelist kram].
  fold (filled k q (memset (kram k) q 0 PGSIZE)).
  assert (HaK : 0 <= a < KERNBASE) by lia.
  destruct (map_new_page pg a q (Z.lor PTE_W PTE_U) _ k l Hi Hu Hb Hout) as (r & k1 & l1 & -> & M); auto.
  { done. } { apply Hno; [lia | unfold PGSIZE in *; lia]. }
  cbn [rbind]. destruct (mp_res _ _ _ _ _ _ _ _ _ _ M) as [[-> Hw]|(-> & -> & Hw)]; cbn [Z.ltb Z.compare].
  - rewrite (u32_small (a + PGSIZE)) by (unfold PGSIZE, KERNBASE in *; lia).
    assert (Hkept : forall va, 0 <= va < 2 ^ 32 -> a / PGSIZE <> va / PGSIZE -> user_kept pg k k1 va).
    { intros va Hva Hne. eapply mapped_page_kept; eauto. }
    pose proof (mp_inv _ _ _ _ _ _ _ _ _ _ M). pose proof (mp_uvm _ _ _ _ _ _ _ _ _ _ M).
    destruct (IH pg (a + PGSIZE) oldsz newsz k1 l1) as (r & k' & l' & E & [A1 A2 A3 A4 A5 A6]); auto;
      try (unfold PGSIZE in *; zdiv).
    { intros va Hva Hlo. rewrite Hw by (unfold KERNBASE, PGSIZE in *; zdiv). unfold PGSIZE in *.
      destruct (Z.eqb_spec (a / 4096) (va / 4096)); [zdiv|]. apply Hno; lia. }
    exists r, k', l'. split; [done|].
    assert (Hpg : forall p, pages pg k1 l1 p <-> pages pg k (q :: l) p).
    { intros p. eapply mapped_page_pages; eauto; [done|]. apply Hno; unfold PGSIZE in *; lia. }
    assert (Hfr : forall x, (forall p, pages pg k (q :: l) p -> ~ in_page p x) -> kram k1 x = kram k x).
    { intros x. by apply (mapped_page_frame pg a q (Z.lor PTE_W PTE_U) (memset (kram k) q 0 PGSIZE) k l k1 l1 0). }
    constructor; auto.
    + intros p. by rewrite A3.
    + intros x Hx. rewrite A4, Hfr; auto. intros p Hp. by apply Hx, Hpg.
    + intros va Hva Ho. eapply user_kept_trans; [apply Hkept | by apply A5]; auto. unfold PGSIZE in *. zdiv.
    + destruct A6 as [(-> & Hk1 & Hk2)|[-> Hnp]]; [left | right; by split].
      split_and!; auto.
      * intros va Hva. eapply user_kept_trans; [apply Hkept | apply Hk1]; unfold PGSIZE, KERNBASE in *; [lia | zdiv | lia].
      * intros va Hva Hlo. destruct (Z.lt_ge_cases va (a + PGSIZE)) as [Hva'|]; [|by apply Hk2].
        assert (Hsp : a / PGSIZE = va / PGSIZE) by (unfold PGSIZE in *; zdiv).
        assert (Hwa : walk (kram k1) pg va = user_entry q USER_RW).
        { rewrite Hw by (unfold KERNBASE, PGSIZE in *; lia). rewrite Hsp, Z.eqb_refl. done. }
        destruct (user_entry_parts kend q USER_RW Hq) as (Epg & _ & Epr); [done|].
        destruct (Hk1 va) as [Ewk Ebk]; [lia|].
        split; [exists q; split; [done | congruence]|]. rewrite Ebk.
        -- unfold user_byte. rewrite Hwa, Epg, (mp_in _ _ _ _ _ _ _ _ _ _ M); [apply Hz|];
             unfold in_page, PGSIZE in *; zdiv.
        -- unfold KERNBASE, PGSIZE in *. zdiv.
        -- by rewrite Hwa.
  - destruct (alloc_fail_mapped pg a oldsz newsz q (Z.lor PTE_W PTE_U) (memset (kram k) q 0 PGSIZE) k l k1 [] Hi Hu)
      as (k2 & k3 & l3 & -> & E3 & A);
      auto; [lia|]. cbn [rbind]. rewrite E3. cbn [rbind]. exists 0, k3, l3. by split.
Qed.

(** ** copyuvm *)

Lemma present_flags e : present e = true -> Z.lor (PTE_FLAGS e) PTE_P = PTE_FLAGS e /\ 0 <= PTE_FLAGS e < 4096.
Proof.
  intros Hp. rewrite PTE_FLAGS_eq. split; [|apply Z.mod_pos_bound; unfold PGSIZE; lia].
  assert (Hodd : Z.testbit e 0 = true).
  { unfold present, has, PTE_P in Hp. change 1 with (Z.ones 1) in Hp. rewrite Z.land_ones in Hp by lia.
    change (2 ^ 1) with 2 in Hp. rewrite Z.bit0_odd, Zodd_mod. destruct (Z.eqb_spec (e mod 2) 0); [done|].
    apply Z.eqb_eq. zdiv. }
  apply Z.bits_inj'. intros n Hn. rewrite Z.lor_spec. unfold PTE_P, PGSIZE. change 4096 with (2 ^ 12).
  destruct (Z.eq_dec n 0) as [->|].
  - rewrite Z.mod_pow2_bits_low, Hodd by lia. done.
  - replace (Z.testbit 1 n) with false; [by rewrite orb_false_r|].
    symmetry. rewrite <- (Z.mod_small 1 (2 ^ 1)) by lia. apply Z.mod_pow2_bits_high. lia.
Qed.

Definition mine (pg : Z) (k : kmem) (p : Z) : Prop := tabled (kram k) pg p \/ umapped (kram k) pg p.

(** The pages of [pg] are neither free nor [d]'s. *)
Definition apart (pg d : Z) (k : kmem) (l : list Z) : Prop := forall p, mine pg k p -> ~ pages d k l p.

Lemma mine_ok pg k l p : uvm_ok (kram k) pg l -> mine pg k p -> page_ok p.
Proof.
  intros Hu [H|H]; [by destruct (tabled_ok _ _ _ _ _ (uv_pt _ _ _ _ Hu) H) | by destruct (umapped_page _ _ _ _ _ Hu H)].
Qed.

Lemma pages_ok d k l p : kinv k l -> uvm_ok (kram k) d l -> pages d k l p -> page_ok p.
Proof. intros Hi Hu [H|H]; [eapply kinv_page; eauto | eapply mine_ok; eauto]. Qed.

(** Stores to other pages [P] leave an address space alone. *)
Lemma frame_kept (P : Z -> Prop) pg k l k' l' :
  uvm_ok (kram k) pg l -> (forall p, P p -> page_ok p) -> (forall p, mine pg k p -> ~ P p) ->
  (forall x, (forall p, P p -> ~ in_page p x) -> kram k' x = kram k x) -> (forall p, p ∈ l' -> P p) ->
  uvm_ok (kram k') pg l' /\ (forall p, mine pg k' p <-> mine pg k p) /\ (forall va, 0 <= va -> user_kept pg k k' va).
Proof.
  intros Hu HP Hap Hf Hsub.
  assert (Hx : forall p x, mine pg k p -> in_page p x -> kram k' x = kram k x).
  { intros p x Hp Hx. apply Hf. intros q Hq Hx'.
    eapply (page_sep kend p q x x); eauto using mine_ok. intros ->. by apply (Hap q). }
  destruct (uvm_frame (kram k) (kram k') pg l []) as (Hu' & Hw & Ht & Hum); auto.
  { intros p x Hp. apply Hx. by left. } { intros p []%not_elem_of_nil. }
  split_and!.
  - destruct Hu' as [U1 U2 U3]. constructor; auto.
    + eapply pt_ok_free; [exact U1|]. intros p Hp. right. rewrite Ht. intros H'. apply (Hap p); [by left | auto].
    + intros va Hva Hp. destruct (U2 va Hva Hp) as (? & _ & ?). split_and!; auto. intros Hin.
      apply (Hap (pgof (walk (kram k') pg va))); [|by apply Hsub]. right. apply Hum. by exists va.
  - intros p. unfold mine. by rewrite Ht, Hum.
  - intros va Hva. apply user_kept_intro; auto. intros Hv Hp x. apply Hx. right. by exists va.
Qed.

Record copy_post (pg d i sz : Z) (k : kmem) (l : list Z) (r : Z) (k' : kmem) (l' : list Z) : Prop := {
  cp_inv : kinv k' l';
  cp_frame : forall x, (forall p, pages d k l p -> ~ in_page p x) -> kram k' x = kram k x;
  cp_res : r = d /\ uvm_ok (kram k') d l' /\ (forall p, pages d k' l' p <-> pages d k l p) /\
      (forall va, 0 <= va < 2 ^ 32 -> va < i \/ sz <= va - va mod PGSIZE -> user_kept d k k' va) /\
      (forall va, i <= va -> va - va mod PGSIZE < sz ->
         present (walk (kram k') d va) = true /\
         PTE_FLAGS (walk (kram k') d va) = PTE_FLAGS (walk (kram k) pg va) /\
         user_byte (kram k') d va = user_byte (kram k) pg va) \/
    r = 0 /\ (forall p, p ∈ l' <-> pages d k l p)
}.

Lemma copy_page_mem k q src : byte_mem (kram k) -> page_ok q -> page_ok src ->
  byte_mem (memmove (kram k) q src PGSIZE) /\
  (forall x, ~ in_page q x -> memmove (kram k) q src PGSIZE x = kram k x) /\
  (forall o, 0 <= o < PGSIZE -> memmove (kram k) q src PGSIZE (q + o) = kram k (src + o)).
Proof.
  intros Hb (_ & _ & Hq) (_ & _ & Hs). unfold KERNBASE, PHYSTOP in *.
  assert (E : forall x, memmove (kram k) q src PGSIZE x = mcopy (kram k) q (kram k) src PGSIZE x).
  { intros x. apply memmove_copy; unfold PGSIZE; lia. }
  split_and!.
  - intros x. rewrite E. by apply byte_mem_mcopy.
  - intros x Hx. rewrite E. apply mcopy_out. unfold in_page in Hx. lia.
  - intros o Ho. rewrite E, mcopy_in by lia. f_equal. lia.
Qed.

Lemma walk_present_pde m pg va : present (walk m pg va) = true -> present (pde_at m pg (PDX va)) = true.
Proof. unfold walk. by destruct (present (pde_at m pg (PDX va))). Qed.

(** Out of memory while copying: everything the child had is free again. *)
Lemma copy_fail_free pg d i sz k l :
  kinv k l -> uvm_ok (kram k) d l ->
  exists k' l', freevm kend d k = Ok k' /\ copy_post pg d i sz k l 0 k' l'.
Proof.
  intros Hi Hd. destruct (freevm_ok kend Hkend d k l Hi Hd) as (k' & l' & E & Hi' & Hl & Hf).
  exists k', l'. split; [done|]. constructor; auto.
  intros x Hx. apply Hf. intros p Hp _. apply Hx. by apply Hl.
Qed.

Lemma copy_fail_mapped pg d i sz a q perm m k l k1 l1 :
  kinv k (q :: l) -> uvm_ok (kram k) d (q :: l) -> page_ok q ->
  mapped_page d a q perm m k l k1 l1 (-1) ->
  exists k2 k3 l3, kfree kend q k1 = Ok k2 /\ freevm kend d k2 = Ok k3 /\ copy_post pg d i sz k (q :: l) 0 k3 l3.
Proof.
  intros Hi Hd Hq M.
  destruct (free_not_mine _ _ _ q Hd) as [Hqt Hqu]; [apply elem_of_cons; by left|].
  assert (Hl1 : l1 = []) by (destruct M as [_ _ _ _ _ _ _ [[? _]|(_ & ? & _)]]; done). subst l1.
  assert (Hqu1 : ~ umapped (kram k1) d q).
  { destruct M as [_ _ _ _ _ _ _ [[? _]|(_ & _ & Hw)]]; [done|]. intros (va & Hva & Hp & E).
    rewrite Hw in * by (unfold KERNBASE in *; lia). apply Hqu. by exists va. }
  destruct (give_back d k1 [] q (mp_inv _ _ _ _ _ _ _ _ _ _ M) (mp_uvm _ _ _ _ _ _ _ _ _ _ M))
    as (k2 & E2 & Hi2 & Hu2 & Ht2 & Hum2 & _ & Hf2); auto.
  { apply not_elem_of_nil. } { apply (mp_q _ _ _ _ _ _ _ _ _ _ M). }
  destruct (freevm_ok kend Hkend d k2 [q] Hi2 Hu2) as (k3 & l3 & E3 & Hi3 & Hl3 & Hf3).
  assert (Hl : forall p, p ∈ l3 <-> pages d k (q :: l) p).
  { intros p. rewrite <- (mapped_page_fail _ _ _ _ _ _ _ _ _ p M), Hl3, Ht2, Hum2, list_elem_of_singleton.
    unfold pages. pose proof (not_elem_of_nil p). tauto. }
  exists k2, k3, l3. split_and!; auto. constructor; auto.
  intros x Hx. rewrite Hf3, Hf2, (mapped_page_frame _ _ _ _ _ _ _ _ _ _ x M); auto.
  - apply Hx. left. apply elem_of_cons. by left.
  - intros p Hp _. apply Hx. by apply Hl.
Qed.

(** A copied page in front of a copied rest. *)
Lemma copy_post_cons pg d i sz q m k l k1 l1 r k' l' :
  kinv k (q :: l) -> uvm_ok (kram k) pg (q :: l) -> uvm_ok (kram k) d (q :: l) -> page_ok q ->
  0 <= i < KERNBASE -> i mod PGSIZE = 0 -> sz <= KERNBASE -> i < sz ->
  (forall va, 0 <= va -> va - va mod PGSIZE < sz -> present (walk (kram k) pg va) = true) ->
  (forall o, 0 <= o < PGSIZE -> m (q + o) = kram k (pgof (walk (kram k) pg i) + o)) ->
  mapped_page d i q (PTE_FLAGS (walk (kram k) pg i)) m k l k1 l1 0 ->
  (forall p, pages d k1 l1 p <-> pages d k (q :: l) p) ->
  (forall va, 0 <= va -> user_kept pg k k1 va) ->
  copy_post pg d (i + PGSIZE) sz k1 l1 r k' l' -> copy_post pg d i sz k (q :: l) r k' l'.
Proof.
  intros Hi Hu Hd Hq HiK Him Hsz Hlt Hall Hcp M Hpg Hk1 [C1 C2 C3].
  assert (Hpi : present (walk (kram k) pg i) = true) by (apply Hall; unfold PGSIZE in *; lia).
  destruct (present_flags _ Hpi) as [Efl Hfl].
  assert (Hkd : forall va, 0 <= va < 2 ^ 32 -> i / PGSIZE <> va / PGSIZE -> user_kept d k k1 va).
  { intros va Hva Hne. eapply mapped_page_kept; eauto. }
  constructor; auto.
  { intros x Hx. rewrite C2, (mapped_page_frame _ _ _ _ _ _ _ _ _ _ x M); auto. intros p. rewrite Hpg. apply Hx. }
  destruct C3 as [(-> & Hd' & Hp' & Hk' & Hc')|[-> Hl']]; [left | right; split; [done|]; intros p; by rewrite Hl', Hpg].
  split_and!; auto.
  - intros p. by rewrite Hp'.
  - intros va Hva Ho. eapply user_kept_trans; [apply Hkd | apply Hk']; auto; unfold PGSIZE in *; zdiv.
  - intros va Hva Hlo. assert (Hva32 : 0 <= va < KERNBASE) by (unfold KERNBASE, PGSIZE in *; zdiv).
    destruct (Z.lt_ge_cases va (i + PGSIZE)) as [Hv|Hv].
    + assert (Hsp : i / PGSIZE = va / PGSIZE) by (unfold PGSIZE in *; zdiv).
      destruct (user_entry_parts kend q (PTE_FLAGS (walk (kram k) pg i)) Hq Hfl) as (Epg & Efg & Epr).
      assert (Hwa : walk (kram k1) d va = user_entry q (PTE_FLAGS (walk (kram k) pg i))).
      { destruct (mp_res _ _ _ _ _ _ _ _ _ _ M) as [[_ Hw]|[? _]]; [|done].
        rewrite Hw by (unfold KERNBASE in *; lia). by rewrite Hsp, Z.eqb_refl. }
      assert (Hwp : walk (kram k) pg va = walk (kram k) pg i).
      { apply walk_same_page; [unfold KERNBASE in *; lia.. | unfold PGSIZE in *; lia]. }
      destruct (Hk' va) as [Ew Eb]; [unfold KERNBASE in *; lia | lia|].
      split_and!; [congruence | congruence|]. rewrite Eb by (rewrite ?Hwa; auto; lia).
      unfold user_byte. rewrite Hwa, Epg, Hwp.
      rewrite (mp_in _ _ _ _ _ _ _ _ _ _ M) by (unfold in_page, PGSIZE; zdiv).
      apply Hcp. unfold PGSIZE. zdiv.
    + destruct (Hc' va) as (H1 & H2 & H3); auto. destruct (Hk1 va) as [Ew Eb]; [lia|].
      split_and!; auto; [congruence|]. rewrite H3. apply Eb; [lia|]. apply Hall; [lia | done].
Qed.

Lemma copyuvm_loop_ok fuel : forall pg d i sz k l,
  kinv k l -> uvm_ok (kram k) pg l -> uvm_ok (kram k) d l -> apart pg d k l ->
  i mod PGSIZE = 0 -> 0 <= i -> sz <= KERNBASE -> sz - i <= Z.of_nat fuel * PGSIZE ->
  (forall va, 0 <= va -> va - va mod PGSIZE < sz -> present (walk (kram k) pg va) = true) ->
  (forall va, i <= va -> va - va mod PGSIZE < sz -> present (walk (kram k) d va) = false) ->
  exists r k' l', copyuvm_loop kend fuel pg d i sz k = Ok (r, k') /\ copy_post pg d i sz k l r k' l'.
Proof.
  induction fuel as [|fuel IH]; intros pg d i sz k l Hi Hu Hd Hap Him Hi0 Hsz Hf Hall Hno;
    cbn [copyuvm_loop]; destruct (Z.ltb_spec i sz) as [Hlt|Hge]; try (unfold PGSIZE in *; lia).
  1, 3: exists d, k, l; split; [done|]; constructor; auto; left; split_and!; auto; try done;
    intros va Hva Hlo; unfold PGSIZE in *; exfalso; zdiv.
  assert (HiK : 0 <= i < KERNBASE) by lia.
  assert (Hpi : present (walk (kram k) pg i) = true) by (apply Hall; unfold PGSIZE in *; lia).
  pose proof (walk_present_pde _ _ _ Hpi) as Hpd.
  destruct (uv_page _ _ _ _ Hu i HiK Hpi) as (Hsrc & _).
  unfold walkpgdir. fold (pde_at (kram k) pg (PDX i)). fold (present (pde_at (kram k) pg (PDX i))). rewrite Hpd.
  fold (pgof (pde_at (kram k) pg (PDX i))). fold (tbl (kram k) pg (PDX i)). fold (pte_addr (kram k) pg i).
  destruct (Z.eqb_spec (pte_addr (kram k) pg i) 0) as [E|_].
  { exfalso. revert E. eapply pte_addr_nonzero; [apply Hu | done]. }
  rewrite <- walk_pte by done. fold (present (walk (kram k) pg i)). rewrite Hpi. cbn [negb].
  destruct l as [|q l].
  { assert (Ek : kalloc k = (0, k)) by (destruct Hi as (Hc & _); simpl in Hc; unfold kalloc; by rewrite Hc).
    rewrite Ek, Z.eqb_refl. destruct (copy_fail_free pg d i sz k [] Hi Hd) as (k' & l' & -> & C).
    exists 0, k', l'. by split. }
  assert (Hq : page_ok q) by (eapply kinv_page; [exact Hi|]; apply elem_of_cons; by left).
  fold (pgof (walk (kram k) pg i)).
  destruct (copy_page_mem k q (pgof (walk (kram k) pg i))) as (Hb & Hout & Hcp); auto; [apply Hi|].
  set (mm := memmove (kram k) q (pgof (walk (kram k) pg i)) PGSIZE) in *.
  destruct (fill_page k q l mm Hi Hb Hout) as (-> & Hq0 & _ & Hql & Hi1).
  destruct (Z.eqb_spec q 0) as [|_]; [done|]. unfold with_ram, filled. cbn [use_lock freelist kram].
  fold mm. fold (filled k q mm).
  destruct (present_flags _ Hpi) as [Efl Hfl].
  assert (Hnp : present (walk (kram k) d i) = false) by (apply Hno; unfold PGSIZE in *; lia).
  destruct (map_new_page d i q (PTE_FLAGS (walk (kram k) pg i)) mm k l Hi Hd Hb Hout) as (r & k1 & l1 & -> & M); auto.
  cbn [rbind]. destruct (mp_res _ _ _ _ _ _ _ _ _ _ M) as [[-> Hw]|(-> & -> & Hw)]; cbn [Z.ltb Z.compare].
  2: { destruct (copy_fail_mapped pg d i sz i q (PTE_FLAGS (walk (kram k) pg i)) mm k l k1 [] Hi Hd Hq M)
         as (k2 & k3 & l3 & -> & E3 & C). cbn [rbind]. rewrite E3. cbn [rbind]. exists 0, k3, l3. by split. }
  rewrite (u32_small (i + PGSIZE)) by (unfold PGSIZE, KERNBASE in *; lia).
  assert (Hpg : forall p, pages d k1 l1 p <-> pages d k (q :: l) p) by (intros p; eapply mapped_page_pages; eauto).
  assert (Hfr : forall x, (forall p, pages d k (q :: l) p -> ~ in_page p x) -> kram k1 x = kram k x).
  { intros x. by apply (mapped_page_frame d i q (PTE_FLAGS (walk (kram k) pg i)) mm k l k1 l1 0). }
  destruct (frame_kept (pages d k (q :: l)) pg k (q :: l) k1 l1) as (Hu1 & Hm1 & Hk1); auto.
  { intros p. by apply pages_ok. }
  { intros p Hp. apply Hpg. by left. }
  pose proof (mp_inv _ _ _ _ _ _ _ _ _ _ M). pose proof (mp_uvm _ _ _ _ _ _ _ _ _ _ M).
  destruct (IH pg d (i + PGSIZE) sz k1 l1) as (r & k' & l' & E & C); auto;
    try (unfold PGSIZE in *; zdiv).
  { intros p Hp. rewrite Hpg. apply Hap. by apply Hm1. }
  { intros va Hva Hlo. destruct (Hk1 va Hva) as [-> _]. by apply Hall. }
  { intros va Hva Hlo. unfold PGSIZE in *. rewrite Hw by (unfold KERNBASE in *; zdiv).
    destruct (Z.eqb_spec (i / 4096) (va / 4096)); [zdiv|]. apply Hno; lia. }
  exists r, k', l'. split; [done|]. eapply copy_post_cons; eauto.
Qed.

(** ** copyout *)

Lemma uva2ka_mapped pg va k l :
  uvm_ok (kram k) pg l -> 0 <= va < KERNBASE -> present (walk (kram k) pg va) = true ->
  has (walk (kram k) pg va) PTE_U = true -> uva2ka pg va k = pgof (walk (kram k) pg va).
Proof.
  intros Hu Hva Hp HU. pose proof (walk_present_pde _ _ _ Hp) as Hpd. unfold uva2ka, walkpgdir.
  fold (pde_at (kram k) pg (PDX va)). fold (present (pde_at (kram k) pg (PDX va))). rewrite Hpd.
  fold (pgof (pde_at (kram k) pg (PDX va))). fold (tbl (kram k) pg (PDX va)). fold (pte_addr (kram k) pg va).
  rewrite <- walk_pte by done. fold (present (walk (kram k) pg va)). rewrite Hp, HU. done.
Qed.

(** [n] bytes stored inside the user page of [va]. *)
Lemma store_user pg va k l src buf n :
  kinv k l -> uvm_ok (kram k) pg l -> byte_mem src -> 0 <= va < KERNBASE -> present (walk (kram k) pg va) = true ->
  0 <= n -> va mod PGSIZE + n <= PGSIZE ->
  let k' := with_ram k (mcopy (kram k) (pgof (walk (kram k) pg va) + va mod PGSIZE) src buf n) in
  kinv k' l /\ uvm_ok (kram k') pg l /\ (forall v, walk (kram k') pg v = walk (kram k) pg v) /\
  (forall v, 0 <= v < KERNBASE -> present (walk (kram k) pg v) = true ->
     user_byte (kram k') pg v = if (va <=? v) && (v <? va + n) then src (buf + (v - va)) else user_byte (kram k) pg v) /\
  (forall x, ~ in_page (pgof (walk (kram k) pg va)) x -> kram k' x = kram k x).
Proof.
  intros Hi Hu Hb Hva Hp Hn Hfit k'. destruct (uv_page _ _ _ _ Hu va Hva Hp) as (Hpo & Hpl & Hpt).
  set (P := pgof (walk (kram k) pg va)) in *. pose proof (Z.mod_pos_bound va PGSIZE ltac:(unfold PGSIZE; lia)) as Hm.
  assert (Hout : forall x, ~ in_page P x -> kram k' x = kram k x).
  { intros x Hx. subst k'. cbn [kram with_ram]. apply mcopy_out. unfold in_page in Hx. lia. }
  destruct (uvm_frame (kram k) (kram k') pg l l Hu) as (Hu' & Hw & _ & _); auto.
  { intros p x Hp' Hx. apply Hout. intros Hx'. destruct (tabled_ok _ _ _ _ _ (uv_pt _ _ _ _ Hu) Hp').
    eapply (page_sep kend p P x x); eauto. by intros ->. }
  split_and!; auto.
  - apply kinv_frame; auto; [apply byte_mem_mcopy; [apply Hi | done]|]. intros u x Hul Hx. apply Hout. intros Hx'.
    eapply (page_sep kend u P x x); eauto; [eapply kinv_page; eauto | by intros ->].
  - intros v Hv Hpv. unfold user_byte. rewrite Hw. subst k'. cbn [kram with_ram].
    destruct (Z.eq_dec (va / PGSIZE) (v / PGSIZE)) as [E|E].
    + rewrite (walk_same_page _ _ v va) by (unfold KERNBASE, PGSIZE in *; lia). fold P.
      unfold mcopy. unfold PGSIZE in *.
      destruct (Z.leb_spec va v), (Z.ltb_spec v (va + n)); cbn [andb];
        destruct (Z.leb_spec (P + va mod 4096) (P + v mod 4096)), (Z.ltb_spec (P + v mod 4096) (P + va mod 4096 + n));
        cbn [andb]; try done; try zdiv. f_equal. zdiv.
    + destruct (uv_page _ _ _ _ Hu v Hv Hpv) as (Hvo & _).
      assert (Hne : pgof (walk (kram k) pg v) <> P).
      { intros E'. apply E. symmetry. by apply (uv_inj _ _ _ _ Hu). }
      pose proof (Z.mod_pos_bound v PGSIZE ltac:(unfold PGSIZE; lia)).
      rewrite mcopy_out by (pose proof (page_disjoint kend _ _ Hvo Hpo Hne); lia).
      destruct (Z.leb_spec va v), (Z.ltb_spec v (va + n)); cbn [andb]; try done. unfold PGSIZE in *. zdiv.
Qed.

Lemma copyout_loop_ok fuel : forall pg va src buf len k l,
  kinv k l -> uvm_ok (kram k) pg l -> byte_mem src -> 0 <= va -> 0 <= len -> va + len <= KERNBASE ->
  va mod PGSIZE + len <= Z.of_nat fuel * PGSIZE ->
  (forall v, va <= v < va + len -> present (walk (kram k) pg v) = true /\ has (walk (kram k) pg v) PTE_U = true) ->
  exists k', copyout_loop fuel pg va src buf len k = Ok (0, k') /\ kinv k' l /\ uvm_ok (kram k') pg l /\
    (forall v, walk (kram k') pg v = walk (kram k) pg v) /\
    (forall v, 0 <= v < KERNBASE -> present (walk (kram k) pg v) = true ->
       user_byte (kram k') pg v = if (va <=? v) && (v <? va + len) then src (buf + (v - va)) else user_byte (kram k) pg v) /\
    (forall x, (forall p, umapped (kram k) pg p -> ~ in_page p x) -> kram k' x = kram k x).
Proof.
  induction fuel as [|fuel IH]; intros pg va src buf len k l Hi Hu Hb Hva Hl Hend Hf Hmap;
    pose proof (Z.mod_pos_bound va PGSIZE ltac:(unfold PGSIZE; lia)) as Hm;
    cbn [copyout_loop]; destruct (Z.ltb_spec 0 len) as [Hlt|Hge]; try (unfold PGSIZE in *; lia).
  1, 3: exists k; split_and!; auto; intros v Hv Hp;
    destruct (Z.leb_spec va v), (Z.ltb_spec v (va + len)); cbn [andb]; try done; lia.
  assert (Hva32 : 0 <= va < 2 ^ 32) by (unfold KERNBASE in *; lia).
  rewrite PGROUNDDOWN_eq by done.
  destruct (Hmap va) as [Hp HU]; [lia|].
  set (va0 := va - va mod PGSIZE) in *.
  assert (Hw0 : walk (kram k) pg va0 = walk (kram k) pg va).
  { apply walk_same_page; subst va0; unfold PGSIZE in *; [zdiv | done | zdiv]. }
  assert (Hva0 : 0 <= va0 < KERNBASE) by (subst va0; unfold PGSIZE in *; zdiv).
  rewrite (uva2ka_mapped pg va0 k l), Hw0 by (rewrite ?Hw0; auto).
  destruct (uv_page _ _ _ _ Hu va) as (Hpo & _); auto; [lia|].
  destruct (Z.eqb_spec (pgof (walk (kram k) pg va)) 0) as [E|_].
  { pose proof (page_ok_nonzero kend _ Hpo). lia. }
  replace (va - va0) with (va mod PGSIZE) by (subst va0; lia).
  set (n := Z.min (PGSIZE - va mod PGSIZE) len).
  destruct (store_user pg va k l src buf n) as (Hi1 & Hu1 & Hw1 & Hb1 & Hf1); auto; try (subst n; lia).
  rewrite (u32_small (va0 + PGSIZE)) by (subst va0; unfold PGSIZE, KERNBASE in *; lia).
  set (k1 := with_ram k _) in *.
  destruct (Z.le_gt_cases len n) as [Hle|Hgt].
  - assert (En : n = len) by (subst n; lia).
    destruct fuel as [|fuel]; cbn [copyout_loop]; (destruct (Z.ltb_spec 0 (len - n)); [lia|]);
      exists k1; split_and!; auto; try (by rewrite <- En);
      intros x Hx; apply Hf1, Hx; exists va; split_and!; auto; lia.
  - assert (En : n = PGSIZE - va mod PGSIZE) by (subst n; lia).
    assert (Ev : va0 + PGSIZE = va + n) by (subst va0; lia). rewrite Ev.
    destruct (IH pg (va + n) src (buf + n) (len - n) k1 l) as (k' & E & Hi' & Hu' & Hw' & Hb' & Hf'); auto; try lia.
    { rewrite <- Ev. subst va0. unfold PGSIZE in *. zdiv. }
    { intros v Hv. rewrite Hw1. apply Hmap. lia. }
    exists k'. split_and!; auto.
    + intros v. by rewrite Hw'.
    + intros v Hv Hpv. rewrite Hb', Hb1 by (rewrite ?Hw1; auto).
      destruct (Z.leb_spec (va + n) v), (Z.ltb_spec v (va + n + (len - n))), (Z.leb_spec va v),
        (Z.ltb_spec v (va + n)), (Z.ltb_spec v (va + len)); cbn [andb]; try done; try lia. f_equal. lia.
    + intros x Hx. rewrite Hf', Hf1; auto.
      * apply Hx. exists va. split_and!; auto; lia.
      * intros p (v & Hv & Hpv & ->). rewrite Hw1 in *. apply Hx. by exists v.
Qed.

(** ** The contracts *)

(** C33: [allocuvm] on every branch.  A size in the kernel half is refused and
    a smaller size is a no-op, both without touching memory.  Otherwise, when
    nothing is mapped above the old size, it either returns the new size with
    every page up to it mapped writable for the user and reading as zero, or
    returns 0 with no page above the old size mapped; in both cases everything
    mapped below is unchanged, stores only go to pages of this address space
    or the free list, and no page is lost. *)
Theorem allocuvm_spec pg oldsz newsz k l :
  kinv k l -> uvm_ok (kram k) pg l -> 0 <= oldsz -> 0 <= newsz < 2 ^ 32 ->
  (forall va, PGROUNDUP oldsz <= va -> va - va mod PGSIZE < newsz -> present (walk (kram k) pg va) = false) ->
  exists r k' l', allocuvm kend pg oldsz newsz k = Ok (r, k') /\
    (KERNBASE <= newsz /\ r = 0 /\ k' = k \/
     newsz < KERNBASE /\ newsz < oldsz /\ r = oldsz /\ k' = k \/
     newsz < KERNBASE /\ oldsz <= newsz /\
       kinv k' l' /\ uvm_ok (kram k') pg l' /\
       (forall p, pages pg k' l' p <-> pages pg k l p) /\
       (forall x, (forall p, pages pg k l p -> ~ in_page p x) -> kram k' x = kram k x) /\
       (forall va, 0 <= va < 2 ^ 32 -> va < PGROUNDUP oldsz \/ newsz <= va - va mod PGSIZE -> user_kept pg k k' va) /\
       (r = newsz /\ (forall va, PGROUNDUP oldsz <= va -> va - va mod PGSIZE < newsz ->
          (exists q, page_ok q /\ walk (kram k') pg va = user_entry q USER_RW) /\ user_byte (kram k') pg va = 0) \/
        r = 0 /\ (forall va, PGROUNDUP oldsz <= va -> va - va mod PGSIZE < newsz ->
          present (walk (kram k') pg va) = false))).
Proof.
  intros Hi Hu Ho Hn Hno. unfold allocuvm.
  destruct (Z.leb_spec KERNBASE newsz) as [HK|HK]; [exists 0, k, l; by auto|].
  destruct (Z.ltb_spec newsz oldsz) as [Hlt|Hge].
  { exists oldsz, k, l. split; [done|]. right. left. auto. }
  destruct (PGROUNDUP_spec oldsz) as [Hr1 Hr2]; [unfold KERNBASE, PGSIZE in *; lia|].
  destruct (allocuvm_loop_ok (S (Z.to_nat (newsz / PGSIZE))) pg (PGROUNDUP oldsz) oldsz newsz k l)
    as (r & k' & l' & E & [A1 A2 A3 A4 A5 A6]); auto; try lia.
  { rewrite Nat2Z.inj_succ, Z2Nat.id by (apply Z.div_pos; unfold PGSIZE; lia). unfold PGSIZE in *. zdiv. }
  exists r, k', l'. split; [done|]. right. right. split_and!; auto.
  destruct A6 as [(-> & _ & ?)|[-> ?]]; auto.
Qed.

(** C20: [copyuvm], the memory half of [fork].  For a parent whose pages below
    [sz] are all present it never panics.  It returns either 0 with the free
    list holding exactly the pages it held before, or a new address space made
    of free pages only, with the kernel mappings of [kmap], nothing mapped
    above [sz], and for every user address below [sz] the parent's permissions
    and the parent's byte in a page that is not the parent's.  The parent's
    mappings and bytes are unchanged in both cases. *)
Theorem copyuvm_spec data pg sz k l :
  KERNLINK < data < KERNBASE + PHYSTOP -> data mod PGSIZE = 0 ->
  kinv k l -> uvm_ok (kram k) pg l -> 0 <= sz <= KERNBASE ->
  (forall va, 0 <= va -> va - va mod PGSIZE < sz -> present (walk (kram k) pg va) = true) ->
  exists d k' l', copyuvm kend data pg sz k = Ok (d, k') /\ kinv k' l' /\ uvm_ok (kram k') pg l' /\
    (forall va, 0 <= va -> user_kept pg k k' va) /\
    (d = 0 /\ (forall p, p ∈ l' <-> p ∈ l) \/
     uvm_ok (kram k') d l' /\
     (forall p, mine pg k' p -> ~ mine d k' p) /\ (forall p, p ∈ l <-> p ∈ l' \/ mine d k' p) /\
     (forall va, 0 <= va -> va - va mod PGSIZE < sz ->
        present (walk (kram k') d va) = true /\
        PTE_FLAGS (walk (kram k') d va) = PTE_FLAGS (walk (kram k) pg va) /\
        user_byte (kram k') d va = user_byte (kram k) pg va) /\
     (forall va, 0 <= va < 2 ^ 32 -> sz <= va - va mod PGSIZE ->
        walk (kram k') d va = if va <? KERNBASE then 0 else kern_walk (kmap data) va)).
Proof.
  intros Hdata Hal Hi Hu Hsz Hall. unfold copyuvm.
  destruct (setupkvm_ok kend Hkend data Hdata Hal k l Hi) as (d & k1 & l1 & -> & Hi1 & Hf1 & Hres). cbn [rbind].
  assert (Hmf : forall p, mine pg k p -> p ∉ l).
  { intros p Hp Hin. destruct (free_not_mine _ _ _ p Hu Hin). destruct Hp; done. }
  destruct (frame_kept (fun p => p ∈ l) pg k l k1 l1) as (Hu1 & Hm1 & Hk1); auto.
  { intros p. by apply kinv_page with k. }
  { intros p Hp. destruct Hres as [[_ Hl]|(_ & _ & Hl & _)]; apply Hl; auto. }
  destruct Hres as [[-> Hl]|(Hdl & Hd1 & Hl & Hw)].
  { exists 0, k1, l1. rewrite Z.eqb_refl. split_and!; auto. }
  destruct (Z.eqb_spec d 0) as [->|_].
  { pose proof (page_ok_nonzero kend 0 (kinv_page kend k l 0 Hi Hdl)). lia. }
  assert (Hpages : forall p, pages d k1 l1 p <-> p ∈ l).
  { intros p. rewrite Hl. unfold pages. split; [|tauto]. intros [?|[?|(va & Hva & Hp & _)]]; auto.
    rewrite Hw in Hp by (unfold KERNBASE in *; lia). destruct (Z.ltb_spec va KERNBASE); [done | lia]. }
  destruct (copyuvm_loop_ok (S (Z.to_nat (sz / PGSIZE))) pg d 0 sz k1 l1) as (r & k' & l' & E & [C1 C2 C3]); auto; try lia.
  { intros p Hp. rewrite Hpages. by apply Hmf, Hm1. }
  { rewrite Nat2Z.inj_succ, Z2Nat.id by (apply Z.div_pos; unfold PGSIZE; lia). unfold PGSIZE in *. zdiv. }
  { intros va Hva Hlo. destruct (Hk1 va Hva) as [-> _]. by apply Hall. }
  { intros va Hva Hlo. rewrite Hw by (unfold KERNBASE, PGSIZE in *; zdiv).
    destruct (Z.ltb_spec va KERNBASE); [done | unfold KERNBASE, PGSIZE in *; zdiv]. }
  destruct (frame_kept (pages d k1 l1) pg k1 l1 k' l') as (Hu' & Hm' & Hk'); auto.
  { intros p. by apply pages_ok. }
  { intros p Hp. rewrite Hpages. by apply Hmf, Hm1. }
  { intros p Hp. destruct C3 as [(_ & _ & H & _)|[_ H]]; apply H; [by left | done]. }
  exists r, k', l'. split_and!; auto.
  { intros va Hva. eapply user_kept_trans; eauto. }
  destruct C3 as [(-> & Hd' & Hp' & Hkd & Hc)|[-> Hl']]; [right | left; split; [done|]; intros p; by rewrite Hl', Hpages].
  split_and!; auto.
  - intros p Hp Hpd. apply Hm', Hm1, Hmf in Hp. apply Hp, Hpages, Hp'. by right.
  - intros p. rewrite <- Hpages, <- Hp'. done.
  - intros va Hva Hlo. destruct (Hc va Hva Hlo) as (H1 & H2 & H3). destruct (Hk1 va Hva) as [Ew Eb].
    split_and!; [done | congruence|]. rewrite H3. apply Eb; [unfold KERNBASE, PGSIZE in *; zdiv | by apply Hall].
  - intros va Hva Hlo. destruct (Hkd va) as [-> _]; auto.
Qed.

(** [copyout] to a range of user-accessible pages returns 0 and leaves
    exactly the given bytes at exactly the given user addresses, across page
    boundaries; no mapping and no byte outside the user pages changes. *)
Theorem copyout_spec pg va src p len k l :
  kinv k l -> uvm_ok (kram k) pg l -> byte_mem src -> 0 <= va -> 0 <= len -> va + len <= KERNBASE ->
  (forall v, va <= v < va + len -> present (walk (kram k) pg v) = true /\ has (walk (kram k) pg v) PTE_U = true) ->
  exists k', copyout pg va src p len k = Ok (0, k') /\ kinv k' l /\ uvm_ok (kram k') pg l /\
    (forall v, walk (kram k') pg v = walk (kram k) pg v) /\
    (forall v, 0 <= v < KERNBASE -> present (walk (kram k) pg v) = true ->
       user_byte (kram k') pg v = if (va <=? v) && (v <? va + len) then src (p + (v - va)) else user_byte (kram k) pg v) /\
    (forall x, (forall q, umapped (kram k) pg q -> ~ in_page q x) -> kram k' x = kram k x).
Proof.
  intros Hi Hu Hb Hva Hl Hend Hmap. apply copyout_loop_ok; auto.
  rewrite !Nat2Z.inj_succ, Z2Nat.id by (apply Z.div_pos; unfold PGSIZE; lia). unfold PGSIZE in *. zdiv.
Qed.
End copy.

(** ** Witness: an address space with one user page and one free page *)

Definition wit_ram : mem :=
  st32 (st32 (kfree_mem (fun _ => 0) (wit_page 2) 0) wit_dir (Z.lor (V2P (wit_page 0)) 7))
    (wit_page 0) (Z.lor (V2P (wit_page 1)) 7).
Definition wit_space : kmem := mk_kmem false (wit_page 2) wit_ram.

Lemma wit_page_ne i j : i <> j -> wit_page i <> wit_page j.
Proof. unfold wit_page, PGSIZE. lia. Qed.

Lemma wit_ram_pde d : 0 <= d < 1024 ->
  pde_at wit_ram wit_dir d = if d =? 0 then Z.lor (V2P (wit_page 0)) 7 else 0.
Proof.
  intros Hd. unfold pde_at, wit_ram. rewrite ld32_st32_other by (unfold wit_dir, wit_page, PGSIZE; lia).
  destruct (Z.eqb_spec d 0) as [->|].
  - rewrite Z.add_0_r, ld32_st32_same. reflexivity.
  - rewrite ld32_st32_other by lia. unfold ld32.
    rewrite !kfree_mem_out by (unfold wit_dir, wit_page, PGSIZE; lia). done.
Qed.

Lemma wit_ram_walk va : 0 <= va < 2 ^ 32 ->
  walk wit_ram wit_dir va = if va <? 4096 then Z.lor (V2P (wit_page 1)) 7 else 0.
Proof.
  intros Hva. pose proof (PDX_range va). pose proof (PTX_range va).
  unfold walk, tbl. rewrite wit_ram_pde by done. destruct (Z.eqb_spec (PDX va) 0) as [E|E].
  - change (present (Z.lor (V2P (wit_page 0)) 7)) with true. change (pgof (Z.lor (V2P (wit_page 0)) 7)) with (wit_page 0).
    rewrite PDX_eq in E. change (2 ^ 22) with 4194304 in E.
    destruct (Z.eqb_spec (PTX va) 0) as [Et|Et].
    + rewrite Et, Z.add_0_r. unfold wit_ram. rewrite ld32_st32_same.
      rewrite PTX_eq in Et. change (2 ^ 12) with 4096 in Et. destruct (Z.ltb_spec va 4096); [reflexivity | zdiv].
    + unfold wit_ram. rewrite !ld32_st32_other by (unfold wit_dir, wit_page, PGSIZE; lia).
      unfold ld32. rewrite !kfree_mem_out by (unfold wit_page, PGSIZE; lia).
      rewrite PTX_eq in Et. change (2 ^ 12) with 4096 in Et. destruct (Z.ltb_spec va 4096); [zdiv | done].
  - change (present 0) with false. rewrite PDX_eq in E. change (2 ^ 22) with 4194304 in E.
    destruct (Z.ltb_spec va 4096); [zdiv | done].
Qed.

Lemma wit_tabled p : tabled wit_ram wit_dir p -> p = wit_dir \/ p = wit_page 0.
Proof.
  intros [?|(d & Hd & Hp & ->)]; [by left | right]. unfold tbl. rewrite wit_ram_pde in * by done.
  destruct (d =? 0); [reflexivity | done].
Qed.

Lemma wit_space_inv : kinv kend0 wit_space [wit_page 2].
Proof.
  destruct (kfree_push kend0 kmem0 [] (wit_page 2) kinv0) as [_ Hi];
    [apply wit_page_ok; lia | apply not_elem_of_nil|].
  apply (kinv_frame kend0 _ [wit_page 2] wit_ram Hi).
  - unfold wit_ram. do 2 apply byte_mem_st32. apply Hi.
  - intros v x Hv Hx. apply list_elem_of_singleton in Hv as ->. unfold wit_ram. cbn [kram].
    rewrite !st32_other by (unfold wit_dir, wit_page, PGSIZE in *; lia). done.
Qed.

Lemma wit_space_uvm : uvm_ok kend0 (kram wit_space) wit_dir [wit_page 2].
Proof.
  cbn [kram wit_space]. constructor.
  - constructor.
    + apply page0_ok.
    + rewrite list_elem_of_singleton. unfold wit_dir, wit_page, PGSIZE. lia.
    + intros d Hd. unfold tbl. rewrite wit_ram_pde by done. destruct (d =? 0); [|done]. intros _.
      change (pgof (Z.lor (V2P (wit_page 0)) 7)) with (wit_page 0). rewrite list_elem_of_singleton.
      split_and!; [apply wit_page_ok; lia | apply wit_page_ne; lia | unfold wit_dir, wit_page, PGSIZE; lia].
    + intros d d' Hd Hd'. rewrite !wit_ram_pde by done.
      destruct (Z.eqb_spec d 0), (Z.eqb_spec d' 0); intros; subst; done.
  - intros va Hva. rewrite wit_ram_walk by (unfold KERNBASE in *; lia). destruct (va <? 4096); [|done]. intros _.
    change (pgof (Z.lor (V2P (wit_page 1)) 7)) with (wit_page 1). rewrite list_elem_of_singleton.
    split_and!; [apply wit_page_ok; lia | apply wit_page_ne; lia|].
    intros [E|E]%wit_tabled; revert E; unfold wit_dir, wit_page, PGSIZE; lia.
  - intros va va' Hva Hva'. rewrite !wit_ram_walk by (unfold KERNBASE in *; lia). unfold PGSIZE.
    destruct (Z.ltb_spec va 4096), (Z.ltb_spec va' 4096); intros; try done. zdiv.
Qed.

Lemma wit_space_present va : 0 <= va -> va - va mod PGSIZE < 4096 -> present (walk (kram wit_space) wit_dir va) = true.
Proof.
  intros Hva Hlo. unfold PGSIZE in *. cbn [kram wit_space]. rewrite wit_ram_walk by zdiv.
  destruct (Z.ltb_spec va 4096); [reflexivity | zdiv].
Qed.

Lemma kend0_high : KERNBASE < kend0.
Proof. unfold kend0, KERNLINK, EXTMEM. lia. Qed.

Lemma allocuvm_spec_witness : exists r k', allocuvm kend0 wit_dir 4096 8192 wit_space = Ok (r, k') /\ (r = 0 \/ r = 8192).
Proof.
  destruct (allocuvm_spec kend0 kend0_high wit_dir 4096 8192 wit_space [wit_page 2] wit_space_inv wit_space_uvm)
    as (r & k' & l' & E & Hr).
  - lia.
  - lia.
  - intros va Hva Hlo. unfold PGSIZE in *. change (PGROUNDUP 4096) with 4096 in Hva.
    cbn [kram wit_space]. rewrite wit_ram_walk by zdiv. destruct (Z.ltb_spec va 4096); [lia | done].
  - exists r, k'. split; [exact E|].
    destruct Hr as [(H & _)|[(_ & H & _)|(_ & _ & _ & _ & _ & _ & _ & [[? _]|[? _]])]]; auto;
      unfold KERNBASE in H; lia.
Defined.

Lemma copyuvm_spec_witness : exists d k', copyuvm kend0 (KERNLINK + 0x8000) wit_dir 4096 wit_space = Ok (d, k') /\
  forall va, 0 <= va -> user_kept wit_dir wit_space k' va.
Proof.
  destruct (copyuvm_spec kend0 kend0_high (KERNLINK + 0x8000) wit_dir 4096 wit_space [wit_page 2])
    as (d & k' & l' & E & _ & _ & Hk & _).
  - unfold KERNLINK, KERNBASE, EXTMEM, PHYSTOP. lia.
  - reflexivity.
  - exact wit_space_inv.
  - exact wit_space_uvm.
  - unfold KERNBASE. lia.
  - exact wit_space_present.
  - exists d, k'. split; [exact E | exact Hk].
Defined.

Lemma copyout_spec_witness : exists k', copyout wit_dir 100 (fun x => x mod 256) 7 3 wit_space = Ok (0, k') /\
  user_byte (kram k') wit_dir 101 = 8.
Proof.
  destruct (copyout_spec kend0 wit_dir 100 (fun x => x mod 256) 7 3 wit_space [wit_page 2] wit_space_inv wit_space_uvm)
    as (k' & E & _ & _ & _ & Hb & _).
  - intros x. apply Z.mod_pos_bound. lia.
  - lia.
  - lia.
  - unfold KERNBASE. lia.
  - intros v Hv. cbn [kram wit_space]. rewrite wit_ram_walk by lia. destruct (Z.ltb_spec v 4096); [done | lia].
  - exists k'. split; [exact E|]. rewrite Hb; [reflexivity | unfold KERNBASE; lia|].
    apply wit_space_present; [lia | done].
Defined.

(** An address whose directory entry is missing: [uva2ka] reads the word at
    virtual address 0 instead, and takes it for the page-table entry. *)
Example uva2ka_unmapped : exists k pg va,
  walk (kram k) pg va = 0 /\ uva2ka pg va k = KERNBASE + 0x5000.
Proof.
  exists (mk_kmem false 0 (st32 (fun _ => 0) 0 0x5007)), wit_dir, 0x400000. split; vm_compute; reflexivity.
Qed.
