(* ===== verification/Spinlock.v ===== *)
(** * Spin locks and sleep locks (src/spinlock.c, src/sleeplock.c)

    [pushcli] and [popcli] act on the interrupt state of one CPU.  The calls
    [acquire], [release] and [holding] are definitions on one CPU and the
    lock; [micro] cuts [acquire] and [release] at their accesses to the shared
    lock words, so that the step relation [lstep] interleaves any number of
    CPUs at that grain.  A sleep lock is used by processes that sleep while it
    is taken; [sstep] interleaves their calls. *)

From S2P Require Import Prelude Layout.

(** ** Interrupt nesting *)

Record cpu := mk_cpu {
  ncli : Z;                (* depth of pushcli nesting *)
  intena : bool;           (* were interrupts enabled before pushcli? *)
  eflags_if : bool         (* FL_IF of the CPU's eflags *)
}.

Definition pushcli (c : cpu) : cpu :=
  let eflags := eflags_if c in
  mk_cpu (ncli c + 1) (if ncli c =? 0 then eflags else intena c) false.

Definition popcli (c : cpu) : res cpu :=
  if eflags_if c then Panic "popcli - interruptible"
  else if ncli c - 1 <? 0 then Panic "popcli"
  else Ok (mk_cpu (ncli c - 1) (intena c) ((ncli c - 1 =? 0) && intena c)).

(** ** The lock *)

Record spinlock := mk_spinlock {
  locked : Z;
  lk_cpu : option nat;     (* the cpu holding the lock *)
  pcs : list Z             (* uint pcs[10] *)
}.

Definition initlock (lk : spinlock) : spinlock := mk_spinlock 0 None (pcs lk).

(** The loop of [getcallerpcs] with [n] slots left. *)
Fixpoint callerpcs (m : mem) (n : nat) (ebp : Z) : list Z :=
  match n with
  | O => []
  | S n' =>
      if (ebp =? 0) || (ebp <? KERNBASE) || (ebp =? 0xffffffff) then repeat 0 n
      else ld32 m (ebp + 4) :: callerpcs m n' (ld32 m ebp)
  end.

Definition getcallerpcs (m : mem) (v : Z) : list Z := callerpcs m 10 (u32 (v - 8)).

Section lock.
(** The kernel stack the caller's frames are on, and the address of its argument. *)
Context (stack : mem) (frame : Z).

Definition holding (me : nat) (lk : spinlock) (c : cpu) : res (bool * cpu) :=
  let c := pushcli c in
  let r := negb (locked lk =? 0) && bool_decide (lk_cpu lk = Some me) in
  let* c := popcli c in
  Ok (r, c).

(** [Blocked] is a spin: the lock is taken. *)
Definition acquire (me : nat) (lk : spinlock) (c : cpu) : res (spinlock * cpu) :=
  let c := pushcli c in
  let* (h, c) := holding me lk c in
  if h then Panic "acquire"
  else if negb (locked lk =? 0) then Blocked
  else Ok (mk_spinlock 1 (Some me) (getcallerpcs stack frame), c).

Definition release (me : nat) (lk : spinlock) (c : cpu) : res (spinlock * cpu) :=
  let* (h, c) := holding me lk c in
  if negb h then Panic "release"
  else
    let lk := mk_spinlock (locked lk) None (<[0%nat := 0]> (pcs lk)) in
    let lk := mk_spinlock 0 (lk_cpu lk) (pcs lk) in
    let* c := popcli c in
    Ok (lk, c).

(** ** acquire and release as sequences of shared accesses *)

Inductive pc :=
| PIdle       (* outside *)
| PCheck      (* acquire, after pushcli *)
| PSpin       (* at the xchg *)
| PGot        (* xchg returned 0 *)
| PHeld       (* in the critical section *)
| PRelease    (* release, lk->cpu cleared *)
| PUnlocked.  (* lk->locked cleared, before popcli *)

Definition micro (me : nat) (lk : spinlock) (c : cpu) (p : pc) : res (spinlock * cpu * pc) :=
  match p with
  | PIdle => Ok (lk, pushcli c, PCheck)
  | PCheck =>
      let* (h, c) := holding me lk c in
      if h then Panic "acquire" else Ok (lk, c, PSpin)
  | PSpin =>                              (* while(xchg(&lk->locked, 1) != 0); *)
      Ok (mk_spinlock 1 (lk_cpu lk) (pcs lk), c, if locked lk =? 0 then PGot else PSpin)
  | PGot => Ok (mk_spinlock (locked lk) (Some me) (getcallerpcs stack frame), c, PHeld)
  | PHeld =>
      let* (h, c) := holding me lk c in
      if negb h then Panic "release"
      else Ok (mk_spinlock (locked lk) None (<[0%nat := 0]> (pcs lk)), c, PRelease)
  | PRelease => Ok (mk_spinlock 0 (lk_cpu lk) (pcs lk), c, PUnlocked)
  | PUnlocked => let* c := popcli c in Ok (lk, c, PIdle)
  end.

Record lsys := mk_lsys { ls_lock : spinlock; ls_cpu : nat -> cpu; ls_pc : nat -> pc }.

Definition upd {A : Type} (f : nat -> A) (i : nat) (a : A) : nat -> A := fun j => if decide (j = i) then a else f j.

Inductive lstep : lsys -> lsys -> Prop :=
| lstep_micro s i lk c p :
    micro i (ls_lock s) (ls_cpu s i) (ls_pc s i) = Ok (lk, c, p) ->
    lstep s (mk_lsys lk (upd (ls_cpu s) i c) (upd (ls_pc s) i p)).

(** ** Interrupt nesting lemmas *)

Definition cpu_ok (c : cpu) : Prop := 0 <= ncli c /\ (0 < ncli c -> eflags_if c = false).

Lemma pushcli_ok c : cpu_ok c -> cpu_ok (pushcli c) /\ 0 < ncli (pushcli c) /\ eflags_if (pushcli c) = false.
Proof. intros [H1 H2]. unfold cpu_ok, pushcli. simpl. split_and!; [lia | done | lia | done]. Qed.

(** A matched pair leaves depth and interrupt flag as they were. *)
Lemma push_pop c : cpu_ok c ->
  popcli (pushcli c) = Ok (mk_cpu (ncli c) (if ncli c =? 0 then eflags_if c else intena c) (eflags_if c)).
Proof.
  intros [H1 H2]. unfold popcli, pushcli. cbn [ncli intena eflags_if].
  replace (ncli c + 1 - 1) with (ncli c) by lia. destruct (Z.ltb_spec (ncli c) 0); [lia|].
  destruct (Z.eqb_spec (ncli c) 0); cbn [andb]; [done|]. rewrite H2 by lia. done.
Qed.

Fixpoint pushes (n : nat) (c : cpu) : cpu := match n with O => c | S n' => pushcli (pushes n' c) end.
Fixpoint pops (n : nat) (c : cpu) : res cpu := match n with O => Ok c | S n' => let* c := popcli c in pops n' c end.

Lemma popcli_ext c c' : ncli c = ncli c' -> intena c = intena c' -> eflags_if c = eflags_if c' -> popcli c = popcli c'.
Proof. destruct c, c'. simpl. by intros -> -> ->. Qed.

(** [n] nested calls are undone by [n] matching ones. *)
Lemma pushes_pops n c : cpu_ok c ->
  exists c', pops n (pushes n c) = Ok c' /\ ncli c' = ncli c /\ eflags_if c' = eflags_if c.
Proof.
  intros Hc. assert (Hok : forall n, cpu_ok (pushes n c) /\
      (0 < ncli c \/ (0 < n)%nat -> 0 < ncli (pushes n c)) /\ ncli (pushes n c) = ncli c + Z.of_nat n).
  { induction n0 as [|m (H1 & H2 & H3)]; cbn [pushes]; [split_and!; [done | lia | lia]|].
    destruct (pushcli_ok _ H1) as (? & ? & ?). split_and!; [done | lia|]. simpl. lia. }
  induction n as [|n IH]; [by exists c|]. cbn [pushes pops].
  destruct (Hok n) as (H1 & H2 & H3). rewrite push_pop by done. cbn [rbind].
  destruct n as [|n]; [cbn [pushes pops]; eexists; split_and!; done|].
  replace (mk_cpu _ _ _) with (pushes (S n) c); [exact IH|].
  destruct (Z.eqb_spec (ncli (pushes (S n) c)) 0); [lia|]. by destruct (pushes (S n) c).
Qed.

Lemma holding_ok me lk c : cpu_ok c -> 0 < ncli c ->
  holding me lk c = Ok (negb (locked lk =? 0) && bool_decide (lk_cpu lk = Some me), c).
Proof.
  intros Hc Hn. unfold holding. rewrite push_pop by done. cbn [rbind].
  destruct (Z.eqb_spec (ncli c) 0); [lia|]. by destruct c.
Qed.

(** ** Mutual exclusion *)

(** The lock belongs to a CPU from its successful [xchg] to the store that
    clears [locked]. *)
Definition owns (p : pc) : bool :=
  match p with PGot | PHeld | PRelease => true | _ => false end.

Record lock_inv (s : lsys) : Prop := mk_lock_inv {
  li_cpu : forall i, cpu_ok (ls_cpu s i);
  li_cli : forall i, ls_pc s i <> PIdle -> 0 < ncli (ls_cpu s i);
  li_excl : forall i j, owns (ls_pc s i) = true -> owns (ls_pc s j) = true -> i = j;
  li_locked : forall i, owns (ls_pc s i) = true -> locked (ls_lock s) <> 0;
  li_holder : forall i, lk_cpu (ls_lock s) = Some i <-> ls_pc s i = PHeld
}.

(** No CPU in the protocol can panic. *)
Lemma micro_ok s i : lock_inv s -> exists lk c p, micro i (ls_lock s) (ls_cpu s i) (ls_pc s i) = Ok (lk, c, p).
Proof.
  intros [H1 H2 H3 H4 H5]. unfold micro. destruct (ls_pc s i) eqn:E; try (eexists _, _, _; reflexivity).
  - rewrite holding_ok by (auto; apply H2; congruence). cbn [rbind].
    destruct (bool_decide_reflect (lk_cpu (ls_lock s) = Some i)) as [Hb|Hb].
    + apply H5 in Hb. congruence.
    + rewrite andb_false_r. eexists _, _, _; reflexivity.
  - rewrite holding_ok by (auto; apply H2; congruence). cbn [rbind].
    rewrite bool_decide_eq_true_2 by (by apply H5).
    destruct (Z.eqb_spec (locked (ls_lock s)) 0) as [Hl|Hl]; [by apply (H4 i) in Hl; rewrite ?E|].
    eexists _, _, _; reflexivity.
  - destruct (H1 i) as [Hn Hi]. specialize (H2 i). rewrite E in H2. specialize (H2 ltac:(done)).
    unfold popcli. rewrite Hi by done. destruct (Z.ltb_spec (ncli (ls_cpu s i) - 1) 0); [lia|].
    eexists _, _, _; reflexivity.
Qed.

Lemma updn_eq {A : Type} (f : nat -> A) i a : upd f i a i = a.
Proof. unfold upd. by rewrite decide_True. Qed.
Lemma updn_ne {A : Type} (f : nat -> A) i a j : j <> i -> upd f i a j = f j.
Proof. intros. unfold upd. by rewrite decide_False. Qed.

(** A step of CPU [i] that respects the lock words keeps the invariant. *)
Lemma lock_inv_upd s i lk c p :
  lock_inv s -> cpu_ok c -> (p <> PIdle -> 0 < ncli c) ->
  (owns p = true -> owns (ls_pc s i) = true \/ (forall j, owns (ls_pc s j) = false)) ->
  (forall j, j <> i -> owns (ls_pc s j) = true -> locked lk <> 0) ->
  (owns p = true -> locked lk <> 0) ->
  (forall j, j <> i -> lk_cpu lk = Some j <-> ls_pc s j = PHeld) -> (lk_cpu lk = Some i <-> p = PHeld) ->
  lock_inv (mk_lsys lk (upd (ls_cpu s) i c) (upd (ls_pc s) i p)).
Proof.
  intros [H1 H2 H3 H4 H5] Hc Hn Ho Hl Hli Hh Hhi. constructor; cbn [ls_cpu ls_pc ls_lock].
  - intros j. destruct (decide (j = i)) as [->|]; [by rewrite updn_eq | by rewrite updn_ne].
  - intros j. destruct (decide (j = i)) as [->|]; [by rewrite !updn_eq | rewrite !updn_ne by done; auto].
  - intros j j'. destruct (decide (j = i)) as [->|], (decide (j' = i)) as [->|]; rewrite ?updn_eq, ?updn_ne by done; auto.
    + intros Hp Hj. destruct (Ho Hp) as [Hi|Hno]; [by apply H3 | by rewrite Hno in Hj].
    + intros Hj Hp. destruct (Ho Hp) as [Hi|Hno]; [by apply H3 | by rewrite Hno in Hj].
  - intros j. destruct (decide (j = i)) as [->|]; rewrite ?updn_eq, ?updn_ne by done; eauto.
  - intros j. destruct (decide (j = i)) as [->|]; rewrite ?updn_eq, ?updn_ne by done; auto.
Qed.

Lemma lock_step_inv s s' : lstep s s' -> lock_inv s -> lock_inv s'.
Proof.
  intros Hs Hinv. destruct Hs as [s i lk c p Hm]. pose proof Hinv as [H1 H2 H3 H4 H5].
  assert (Hoth : forall j, j <> i -> owns (ls_pc s j) = true -> locked (ls_lock s) <> 0) by (intros; eauto).
  assert (Hcli : ls_pc s i <> PIdle -> 0 < ncli (ls_cpu s i)) by apply H2.
  assert (Hnot : owns (ls_pc s i) = true -> forall j, j <> i -> ls_pc s j <> PHeld).
  { intros Hi j Hj Hj'. apply Hj, H3; [by rewrite Hj' | done]. }
  unfold micro in Hm. destruct (ls_pc s i) eqn:E; try specialize (Hcli ltac:(done)).
  - inversion Hm; subst. destruct (pushcli_ok (ls_cpu s i) (H1 i)) as (? & ? & _).
    apply lock_inv_upd; auto; try done. by rewrite H5, E.
  - rewrite holding_ok in Hm by auto. cbn [rbind] in Hm. destruct (_ && _); [done|]. inversion Hm; subst.
    apply lock_inv_upd; auto; try done. by rewrite H5, E.
  - inversion Hm; subst. apply lock_inv_upd; auto; cbn [locked lk_cpu]; auto; try done.
    + destruct (Z.eqb_spec (locked (ls_lock s)) 0) as [Hz|]; [|done]. intros _. right. intros j.
      destruct (owns (ls_pc s j)) eqn:Ej; [by apply H4 in Ej | done].
    + rewrite H5, E. destruct (locked (ls_lock s) =? 0); done.
  - inversion Hm; subst. apply lock_inv_upd; auto; cbn [locked lk_cpu].
    + intros _. left. by rewrite E.
    + intros _. apply (H4 i). by rewrite E.
    + intros j Hj. split; [congruence|]. intros Hj'. by destruct (Hnot ltac:(done) j Hj).
    + done.
  - rewrite holding_ok in Hm by auto. cbn [rbind] in Hm. destruct (negb (_ && _)); [done|]. inversion Hm; subst.
    apply lock_inv_upd; auto; cbn [locked lk_cpu]; try done.
    + intros _. left. by rewrite E.
    + intros _. apply (H4 i). by rewrite E.
    + intros j Hj. split; [done|]. intros Hj'. by destruct (Hnot ltac:(done) j Hj).
  - inversion Hm; subst. apply lock_inv_upd; auto; cbn [locked lk_cpu owns]; try done.
    + intros j Hj Hj'. exfalso. apply Hj, H3; [done | by rewrite E].
    + by rewrite H5, E.
  - destruct (popcli (ls_cpu s i)) as [c'| |] eqn:Ep; cbn [rbind] in Hm; try done. inversion Hm; subst.
    assert (Hc : cpu_ok c).
    { destruct (H1 i) as [Hn Hi]. unfold popcli in Ep. rewrite Hi in Ep by done.
      destruct (Z.ltb_spec (ncli (ls_cpu s i) - 1) 0); [done|]. inversion Ep; subst. split; simpl; [lia|].
      intros Hp. destruct (Z.eqb_spec (ncli (ls_cpu s i) - 1) 0); [lia | done]. }
    apply lock_inv_upd; auto; try done. by rewrite H5, E.
Qed.

Definition lsys_init (lk : spinlock) (cpus : nat -> cpu) : lsys := mk_lsys (initlock lk) cpus (fun _ => PIdle).

Lemma lsys_init_inv lk cpus : (forall i, cpu_ok (cpus i)) -> lock_inv (lsys_init lk cpus).
Proof. intros H. constructor; cbn; auto; done. Qed.

(** C29: mutual exclusion of the spin lock.  Whatever the interleaving of any
    number of CPUs that acquire and release it, cut at every access to the
    lock words, at most one CPU is between its successful [xchg] and the store
    that clears [locked]; a CPU that is anywhere inside [acquire] or the
    critical section has interrupts disabled; and none of the lock's panics
    can happen. *)
Theorem spinlock_mutex lk cpus s :
  (forall i, cpu_ok (cpus i)) -> rtc lstep (lsys_init lk cpus) s ->
  (forall i j, owns (ls_pc s i) = true -> owns (ls_pc s j) = true -> i = j) /\
  (forall i, ls_pc s i <> PIdle -> eflags_if (ls_cpu s i) = false) /\
  (forall i, exists lk' c p, micro i (ls_lock s) (ls_cpu s i) (ls_pc s i) = Ok (lk', c, p)).
Proof.
  intros Hc Hs. assert (Hinv : lock_inv s).
  { revert Hs. generalize (lsys_init_inv lk cpus Hc). generalize (lsys_init lk cpus).
    intros s0 H0 Hs. induction Hs; eauto using lock_step_inv. }
  pose proof Hinv as [H1 H2 H3 H4 H5]. split_and!; auto.
  - intros i Hi. destruct (H1 i) as [_ H]. apply H. auto.
  - intros i. by apply micro_ok.
Qed.

(** Alone on the lock, the micro steps are the calls. *)
Lemma acquire_micro me lk c : cpu_ok c -> locked lk = 0 ->
  exists lk1 c1 lk2 c2 lk3 c3 lk4 c4, micro me lk c PIdle = Ok (lk1, c1, PCheck) /\
    micro me lk1 c1 PCheck = Ok (lk2, c2, PSpin) /\ micro me lk2 c2 PSpin = Ok (lk3, c3, PGot) /\
    micro me lk3 c3 PGot = Ok (lk4, c4, PHeld) /\ acquire me lk c = Ok (lk4, c4).
Proof.
  intros Hc Hl. destruct (pushcli_ok c Hc) as (Hp & Hn & _).
  exists lk, (pushcli c), lk, (pushcli c), (mk_spinlock 1 (lk_cpu lk) (pcs lk)), (pushcli c),
    (mk_spinlock 1 (Some me) (getcallerpcs stack frame)), (pushcli c).
  unfold micro, acquire. rewrite holding_ok, Hl by done. done.
Qed.

Lemma release_micro me lk c : cpu_ok c -> 0 < ncli c -> locked lk <> 0 -> lk_cpu lk = Some me ->
  exists lk1 c1 lk2 c2 lk3 c3, micro me lk c PHeld = Ok (lk1, c1, PRelease) /\
    micro me lk1 c1 PRelease = Ok (lk2, c2, PUnlocked) /\ micro me lk2 c2 PUnlocked = Ok (lk3, c3, PIdle) /\
    release me lk c = Ok (lk3, c3) /\ locked lk3 = 0 /\ lk_cpu lk3 = None.
Proof.
  intros Hc Hn Hl Hm. assert (Hpop : exists c', popcli c = Ok c').
  { destruct Hc as [H1 H2]. unfold popcli. rewrite H2 by done.
    destruct (Z.ltb_spec (ncli c - 1) 0); [lia | eauto]. }
  destruct Hpop as [c' Ec]. unfold micro, release. rewrite holding_ok by done.
  rewrite (bool_decide_eq_true_2 (lk_cpu lk = Some me)) by done.
  destruct (Z.eqb_spec (locked lk) 0) as [|_]; [done|]. cbn [rbind negb andb].
  eexists _, _, _, _, _, _. rewrite Ec. cbn [rbind]. split_and!; reflexivity.
Qed.
End lock.

Lemma spinlock_mutex_witness :
  let s := lsys_init (mk_spinlock 0 None []) (fun _ => mk_cpu 0 false true) in
  let s' := mk_lsys (ls_lock s) (upd (ls_cpu s) 2 (mk_cpu 1 true false)) (upd (ls_pc s) 2 PCheck) in
  (forall i j, owns (ls_pc s' i) = true -> owns (ls_pc s' j) = true -> i = j) /\
  (forall i, ls_pc s' i <> PIdle -> eflags_if (ls_cpu s' i) = false) /\
  (forall i, exists lk' c p, micro (fun _ => 0) 0 i (ls_lock s') (ls_cpu s' i) (ls_pc s' i) = Ok (lk', c, p)).
Proof.
  intros s s'. apply (spinlock_mutex (fun _ => 0) 0 (mk_spinlock 0 None []) (fun _ => mk_cpu 0 false true) s').
  - intros i. split; simpl; [lia | lia].
  - eapply rtc_once, (lstep_micro (fun _ => 0) 0 s 2). reflexivity.
Defined.

(** ** Sleep locks

    [sl_pid] is the pid field; [Blocked] is the call that goes to [sleep(lk,
    &lk->lk)].  The spin lock inside makes each call one critical section, up
    to the [sleep], which releases it. *)
Record sleeplock := mk_sleeplock { sl_locked : bool; sl_pid : Z }.

Definition initsleeplock : sleeplock := mk_sleeplock false 0.

Definition acquiresleep (pid : Z) (lk : sleeplock) : res sleeplock :=
  if sl_locked lk then Blocked else Ok (mk_sleeplock true pid).

Definition releasesleep (lk : sleeplock) : sleeplock := mk_sleeplock false 0.

Definition holdingsleep (pid : Z) (lk : sleeplock) : bool := sl_locked lk && (sl_pid lk =? pid).

(** What a process is doing with the lock. *)
Inductive sproc := SOut | SAsleep | SIn.

Record ssys := mk_ssys { ss_lock : sleeplock; ss_proc : Z -> sproc }.

Definition zupd (f : Z -> sproc) (p : Z) (x : sproc) : Z -> sproc := fun q => if q =? p then x else f q.

(** [wakeup(lk)]: every process asleep on the lock becomes runnable and runs
    the [while] test again. *)
Definition wake_all (f : Z -> sproc) : Z -> sproc :=
  fun q => match f q with SAsleep => SOut | x => x end.

Inductive sstep : ssys -> ssys -> Prop :=
| ss_take s p lk :
    ss_proc s p = SOut -> acquiresleep p (ss_lock s) = Ok lk -> sstep s (mk_ssys lk (zupd (ss_proc s) p SIn))
| ss_sleep s p :
    ss_proc s p = SOut -> acquiresleep p (ss_lock s) = Blocked -> sstep s (mk_ssys (ss_lock s) (zupd (ss_proc s) p SAsleep))
| ss_release s p :
    ss_proc s p = SIn -> sstep s (mk_ssys (releasesleep (ss_lock s)) (wake_all (zupd (ss_proc s) p SOut)))
| ss_killed s p :      (* kill() makes a sleeper runnable; it tests the lock again *)
    ss_proc s p = SAsleep -> sstep s (mk_ssys (ss_lock s) (zupd (ss_proc s) p SOut)).

Definition sleep_inv (s : ssys) : Prop :=
  (forall p, ss_proc s p = SIn <-> holdingsleep p (ss_lock s) = true) /\
  (sl_locked (ss_lock s) = false -> forall p, ss_proc s p <> SAsleep).

Lemma holdingsleep_true p lk : holdingsleep p lk = true <-> sl_locked lk = true /\ sl_pid lk = p.
Proof. unfold holdingsleep. rewrite andb_true_iff, Z.eqb_eq. done. Qed.

Lemma sleep_step_inv s s' : sstep s s' -> sleep_inv s -> sleep_inv s'.
Proof.
  intros Hs [H1 H2]. setoid_rewrite holdingsleep_true in H1.
  destruct Hs as [s p lk Hp E|s p Hp E|s p Hp|s p Hp]; unfold sleep_inv; cbn [ss_lock ss_proc].
  - unfold acquiresleep in E. destruct (sl_locked (ss_lock s)) eqn:El; [done|]. inversion E; subst.
    setoid_rewrite holdingsleep_true. cbn [sl_locked sl_pid]. split; [|done]. intros q. unfold zupd.
    destruct (Z.eqb_spec q p) as [->|Hq]; [done|]. rewrite H1. intuition congruence.
  - unfold acquiresleep in E. destruct (sl_locked (ss_lock s)) eqn:El; [|done].
    setoid_rewrite holdingsleep_true. rewrite El. split; [|done]. intros q. unfold zupd.
    destruct (Z.eqb_spec q p) as [->|Hq]; [|by rewrite H1]. split; [done|]. intros Hq. apply H1 in Hq. congruence.
  - setoid_rewrite holdingsleep_true. cbn [releasesleep sl_locked sl_pid]. unfold wake_all, zupd. split.
    + intros q. split; [|intros [? _]; done]. destruct (Z.eqb_spec q p) as [->|Hq]; [done|].
      destruct (ss_proc s q) eqn:Eq; try done. apply H1 in Eq as [_ Eq]. apply H1 in Hp as [_ Hp]. congruence.
    + intros _ q. destruct (Z.eqb_spec q p); [done|]. by destruct (ss_proc s q).
  - setoid_rewrite holdingsleep_true. unfold zupd. split.
    + intros q. destruct (Z.eqb_spec q p) as [->|Hq]; [|apply H1]. split; [done|]. intros Hq. apply H1 in Hq. congruence.
    + intros Hl q. destruct (Z.eqb_spec q p); [done | by apply H2].
Qed.

(** C30: a sleep lock that starts free is held by at most one process at any
    time, the one [holdingsleep] answers for; and no wakeup is lost: while the
    lock is free no process is asleep on it. *)
Theorem sleeplock_mutex s :
  rtc sstep (mk_ssys initsleeplock (fun _ => SOut)) s ->
  (forall p q, ss_proc s p = SIn -> ss_proc s q = SIn -> p = q) /\
  (forall p, ss_proc s p = SIn <-> holdingsleep p (ss_lock s) = true) /\
  (sl_locked (ss_lock s) = false -> forall p, ss_proc s p <> SAsleep).
Proof.
  intros Hs. assert (Hinv : sleep_inv s).
  { assert (H0 : sleep_inv (mk_ssys initsleeplock (fun _ => SOut))).
    { split; cbn; [|done]. intros p. by split. }
    revert H0 Hs. generalize (mk_ssys initsleeplock (fun _ => SOut)). intros s0 H0 Hs.
    induction Hs; eauto using sleep_step_inv. }
  destruct Hinv as [H1 H2]. split_and!; auto.
  intros p q Hp Hq. apply H1, holdingsleep_true in Hp as [_ <-]. by apply H1, holdingsleep_true in Hq as [_ Hq].
Qed.

Lemma sleeplock_mutex_witness :
  let s := mk_ssys (mk_sleeplock true 7) (zupd (fun _ => SOut) 7 SIn) in
  (forall p q, ss_proc s p = SIn -> ss_proc s q = SIn -> p = q) /\
  (forall p, ss_proc s p = SIn <-> holdingsleep p (ss_lock s) = true) /\
  (sl_locked (ss_lock s) = false -> forall p, ss_proc s p <> SAsleep).
Proof.
  apply sleeplock_mutex. eapply rtc_once, (ss_take (mk_ssys initsleeplock (fun _ => SOut)) 7); reflexivity.
Defined.
