(* ===== verification/File.v ===== *)
(** * File table (src/file.c, src/file.h, and pipealloc of src/pipe.c)

    A [struct file*] is an index into [ftable]; a [struct pipe*] is the address
    of the page [kalloc] returned, and [pipes] holds the pipe that lives there.
    [begin_op] and [end_op] bracket the disk writes of one transaction: at this
    level they start and end its set of logged blocks (LogTx shows that the log
    makes the bracket atomic).  A call on a pipe that goes to sleep returns
    [FSleep] with what it has already done; [wakeup] calls are recorded in
    [fwake]. *)

From S2P Require Import Prelude Layout StringLib Kalloc Pipe Blocks Balloc Fs.

Inductive ftype := FD_NONE | FD_PIPE | FD_INODE.

#[global] Instance ftype_eq_dec : EqDecision ftype.
Proof. solve_decision. Defined.

Record file := mk_file {
  f_type : ftype;
  f_ref : Z;
  f_readable : bool;
  f_writable : bool;
  f_pipe : Z;
  f_ip : nat;
  f_off : Z
}.

Definition no_file : file := mk_file FD_NONE 0 false false 0 0 0.

Definition set_fref (f : file) (r : Z) : file :=
  mk_file (f_type f) r (f_readable f) (f_writable f) (f_pipe f) (f_ip f) (f_off f).
Definition set_ftype (f : file) (t : ftype) : file :=
  mk_file t (f_ref f) (f_readable f) (f_writable f) (f_pipe f) (f_ip f) (f_off f).
Definition set_foff (f : file) (o : Z) : file :=
  mk_file (f_type f) (f_ref f) (f_readable f) (f_writable f) (f_pipe f) (f_ip f) o.

Record fsys := mk_fsys {
  ftable : list file;             (* ftable.file[NFILE] *)
  pipes : gmap Z pipe;
  fkm : kmem;
  ffs : fs;
  fwake : list (Z * chan)         (* wakeup(&p->nread), wakeup(&p->nwrite) *)
}.

Definition file_at (s : fsys) (f : nat) : file := nth f (ftable s) no_file.
Definition set_file (s : fsys) (f : nat) (x : file) : fsys :=
  mk_fsys (<[f := x]> (ftable s)) (pipes s) (fkm s) (ffs s) (fwake s).
Definition set_ffs (s : fsys) (st : fs) : fsys := mk_fsys (ftable s) (pipes s) (fkm s) st (fwake s).
Definition set_pipe (s : fsys) (p : Z) (x : pipe) (w : list chan) : fsys :=
  mk_fsys (ftable s) (<[p := x]> (pipes s)) (fkm s) (ffs s) (fwake s ++ map (pair p) w).

(** Transaction brackets. *)
Definition op_begin (st : fs) : fs := mk_fs (mk_td (td (fs_t st)) ∅) (fs_ic st).
Definition op_end (st : fs) : fs := mk_fs (mk_td (td (fs_t st)) ∅) (fs_ic st).

(** Result of a read or write: a return value, or asleep on the pipe, for a
    write with the bytes still to be written. *)
Inductive fres := FRet (r : Z) | FSleep (rest : list Z).

Section file.
Context (kend : Z) (sb : superblock).
Context (dev_read : Z -> option (nat -> mem -> Z -> Z -> fs -> res (Z * mem * fs))).
Context (dev_write : Z -> option (nat -> mem -> Z -> Z -> fs -> res (Z * fs))).

Fixpoint filealloc_scan (l : list file) (i : nat) : option nat :=
  match l with
  | [] => None
  | f :: l' => if f_ref f =? 0 then Some i else filealloc_scan l' (S i)
  end.

Definition filealloc (s : fsys) : option nat * fsys :=
  match filealloc_scan (ftable s) 0 with
  | Some f => (Some f, set_file s f (set_fref (file_at s f) 1))
  | None => (None, s)
  end.

Definition filedup (f : nat) (s : fsys) : res fsys :=
  if f_ref (file_at s f) <? 1 then Panic "filedup"
  else Ok (set_file s f (set_fref (file_at s f) (f_ref (file_at s f) + 1))).

(** [pipeclose(pi, writable)], with the page it may free. *)
Definition close_pipe (pi : Z) (writable : bool) (s : fsys) : res fsys :=
  match pipes s !! pi with
  | None => Panic "pipe"                         (* not a pipe's address *)
  | Some p =>
      let '(p, w, free) := pipeclose p writable in
      let s := set_pipe s pi p w in
      if free then
        let* k := kfree kend pi (fkm s) in
        Ok (mk_fsys (ftable s) (delete pi (pipes s)) k (ffs s) (fwake s))
      else Ok s
  end.

Definition fileclose (f : nat) (s : fsys) : res fsys :=
  let x := file_at s f in
  if f_ref x <? 1 then Panic "fileclose"
  else if 0 <? f_ref x - 1 then Ok (set_file s f (set_fref x (f_ref x - 1)))
  else
    let ff := set_fref x (f_ref x - 1) in
    let s := set_file s f (set_ftype (set_fref ff 0) FD_NONE) in
    match f_type ff with
    | FD_PIPE => close_pipe (f_pipe ff) (f_writable ff) s
    | FD_INODE =>
        let st := op_begin (ffs s) in
        let* st := iput sb (f_ip ff) st in
        Ok (set_ffs s (op_end st))
    | FD_NONE => Ok s
    end.

(** The [stat] is what [stati] stores through the pointer. *)
Definition filestat (f : nat) (s : fsys) : res (option stat * fsys) :=
  let x := file_at s f in
  match f_type x with
  | FD_INODE =>
      let* st := ilock sb (f_ip x) (ffs s) in
      let r := stati (f_ip x) st in
      let* st := iunlock (f_ip x) st in
      Ok (Some r, set_ffs s st)
  | _ => Ok (None, s)
  end.

(** [m] is the memory [addr] points into. *)
Definition fileread (f : nat) (m : mem) (addr n : Z) (killed : bool) (s : fsys) : res (fres * mem * fsys) :=
  let x := file_at s f in
  if negb (f_readable x) then Ok (FRet (-1), m, s)
  else match f_type x with
  | FD_PIPE =>
      match pipes s !! f_pipe x with
      | None => Panic "pipe"
      | Some p =>
          let '(p, r, w) := piperead p n killed in
          let s := set_pipe s (f_pipe x) p w in
          match r with
          | RDone l => Ok (FRet (Z.of_nat (length l)), mwrite m addr l, s)
          | RErr => Ok (FRet (-1), m, s)
          | RSleep => Ok (FSleep [], m, s)
          end
      end
  | FD_INODE =>
      let* st := ilock sb (f_ip x) (ffs s) in
      let* (r, m, st) := readi sb dev_read (f_ip x) m addr (f_off x) (u32 n) st in
      let s := if 0 <? r then set_file s f (set_foff x (u32 (f_off x + r))) else s in
      let* st := iunlock (f_ip x) st in
      Ok (FRet r, m, set_ffs s st)
  | FD_NONE => Panic "fileread"
  end.

Definition FW_MAX : Z := ((MAXOPBLOCKS - 1 - 1 - 2) / 2) * 512.

(** [while(i < n)]: one transaction per [FW_MAX] bytes; the value of [i] at the end. *)
Fixpoint filewrite_loop (fuel : nat) (f : nat) (m : mem) (addr i n : Z) (s : fsys) : res (Z * fsys) :=
  if i <? n then
    match fuel with
    | O => Blocked
    | S fuel' =>
        let n1 := if FW_MAX <? n - i then FW_MAX else n - i in
        let x := file_at s f in
        let st := op_begin (ffs s) in
        let* st := ilock sb (f_ip x) st in
        let* (r, st) := writei sb dev_write (f_ip x) m (addr + i) (f_off x) n1 st in
        let s := if 0 <? r then set_file s f (set_foff x (u32 (f_off x + r))) else s in
        let* st := iunlock (f_ip x) st in
        let s := set_ffs s (op_end st) in
        if r <? 0 then Ok (i, s)
        else if negb (r =? n1) then Panic "short filewrite"
        else filewrite_loop fuel' f m addr (i + r) n s
    end
  else Ok (i, s).

(** [pipewrite(pi, addr, n)] with the bytes [l] of [addr] left to write: the call
    itself, and its continuation when it wakes up. *)
Definition write_pipe (pi : Z) (l : list Z) (n : Z) (killed : bool) (s : fsys) : res (fres * fsys) :=
  match pipes s !! pi with
  | None => Panic "pipe"
  | Some p =>
      let '(p, r, w) := pipewrite p l killed in
      let s := set_pipe s pi p w in
      match r with
      | WDone => Ok (FRet n, s)
      | WErr => Ok (FRet (-1), s)
      | WSleep rest => Ok (FSleep rest, s)
      end
  end.

Definition filewrite (f : nat) (m : mem) (addr n : Z) (killed : bool) (s : fsys) : res (fres * fsys) :=
  let x := file_at s f in
  if negb (f_writable x) then Ok (FRet (-1), s)
  else match f_type x with
  | FD_PIPE =>
      write_pipe (f_pipe x) (mread m addr (Z.to_nat n)) n killed s
  | FD_INODE =>
      (* each pass writes FW_MAX bytes, the last one the rest *)
      let* (i, s) := filewrite_loop (S (Z.to_nat (n / FW_MAX))) f m addr 0 n s in
      Ok (FRet (if i =? n then n else -1), s)
  | FD_NONE => Panic "filewrite"
  end.

(** The two ends, or the [bad:] path. *)
Definition pipealloc (s : fsys) : res (option (nat * nat) * fsys) :=
  let (f0, s) := filealloc s in
  match f0 with
  | None => Ok (None, s)
  | Some f0 =>
      let (f1, s) := filealloc s in
      match f1 with
      | None => let* s := fileclose f0 s in Ok (None, s)
      | Some f1 =>
          let (p, k) := kalloc (fkm s) in
          let s := mk_fsys (ftable s) (pipes s) k (ffs s) (fwake s) in
          if p =? 0 then
            let* s := fileclose f0 s in
            let* s := fileclose f1 s in
            Ok (None, s)
          else
            let s := mk_fsys (ftable s) (<[p := pipe_init (kram k)]> (pipes s)) (fkm s) (ffs s) (fwake s) in
            let x0 := file_at s f0 in
            let s := set_file s f0 (mk_file FD_PIPE (f_ref x0) true false p (f_ip x0) (f_off x0)) in
            let x1 := file_at s f1 in
            let s := set_file s f1 (mk_file FD_PIPE (f_ref x1) false true p (f_ip x1) (f_off x1)) in
            Ok (Some (f0, f1), s)
      end
  end.
End file.
