(* ===== verification/Proc.v ===== *)
(** * Processes (src/proc.c, src/proc.h, trap frame of src/x86.h)

    [kern] is the process table with the kernel state its operations reach: the
    file table, which carries the page allocator and the file system.  A
    [struct proc*] is an index into [ptable]; [me] is [myproc()].  Every
    operation that runs under [ptable.lock] is one definition; a call that ends
    in [sched()] returns the state at that point.  Channels of [sleep] are the
    addresses of distinct kernel objects. *)

From S2P Require Import Prelude Layout StringLib Kalloc Pipe Blocks Balloc Fs File Vm.

Inductive procstate := UNUSED | EMBRYO | SLEEPING | RUNNABLE | RUNNING | ZOMBIE.

#[global] Instance procstate_eq_dec : EqDecision procstate.
Proof. solve_decision. Defined.

(** The objects whose addresses are used as channels. *)
Inductive wchan :=
| ChProc (p : nat)          (* a struct proc: wait() *)
| ChPipe (p : Z) (c : chan) (* &pi->nread, &pi->nwrite *)
| ChTicks                   (* &ticks *)
| ChObj (a : Z).            (* a sleep lock, the log, a buffer, the console *)

#[global] Instance chan_eq_dec : EqDecision chan.
Proof. solve_decision. Defined.
#[global] Instance wchan_eq_dec : EqDecision wchan.
Proof. solve_decision. Defined.

Record trapframe := mk_tf {
  tf_edi : Z; tf_esi : Z; tf_ebp : Z; tf_oesp : Z; tf_ebx : Z; tf_edx : Z; tf_ecx : Z; tf_eax : Z;
  tf_gs : Z; tf_fs : Z; tf_es : Z; tf_ds : Z; tf_trapno : Z;
  tf_err : Z; tf_eip : Z; tf_cs : Z; tf_eflags : Z; tf_esp : Z; tf_ss : Z
}.

(** The trap frame with the user stack pointer [v]. *)
Definition set_esp (t : trapframe) (v : Z) : trapframe :=
  mk_tf (tf_edi t) (tf_esi t) (tf_ebp t) (tf_oesp t) (tf_ebx t) (tf_edx t) (tf_ecx t) (tf_eax t)
    (tf_gs t) (tf_fs t) (tf_es t) (tf_ds t) (tf_trapno t)
    (tf_err t) (tf_eip t) (tf_cs t) (tf_eflags t) v (tf_ss t).

Definition set_eax (t : trapframe) (v : Z) : trapframe :=
  mk_tf (tf_edi t) (tf_esi t) (tf_ebp t) (tf_oesp t) (tf_ebx t) (tf_edx t) (tf_ecx t) v
    (tf_gs t) (tf_fs t) (tf_es t) (tf_ds t) (tf_trapno t)
    (tf_err t) (tf_eip t) (tf_cs t) (tf_eflags t) (tf_esp t) (tf_ss t).

(** Saved registers for kernel context switches. *)
Record context := mk_context { c_edi : Z; c_esi : Z; c_ebx : Z; c_ebp : Z; c_eip : Z }.

Record proc := mk_proc {
  p_sz : Z;
  p_pgdir : Z;
  p_kstack : Z;
  p_state : procstate;
  p_pid : Z;
  p_parent : option nat;
  p_tf : trapframe;
  p_context : context;
  p_chan : option wchan;
  p_killed : bool;
  p_ofile : list (option nat);     (* struct file *ofile[NOFILE] *)
  p_cwd : option nat;
  p_name : mem                     (* char name[16] *)
}.

Record kern := mk_kern {
  ptable : list proc;              (* ptable.proc[NPROC] *)
  nextpid : Z;
  initproc : option nat;
  kfiles : fsys
}.

Definition no_tf : trapframe := mk_tf 0 0 0 0 0 0 0 0 0 0 0 0 0 0 0 0 0 0 0.
Definition no_proc : proc :=
  mk_proc 0 0 0 UNUSED 0 None no_tf (mk_context 0 0 0 0 0) None false (repeat None 16) None (fun _ => 0).

Definition proc_at (k : kern) (p : nat) : proc := nth p (ptable k) no_proc.
Definition set_proc (k : kern) (p : nat) (x : proc) : kern :=
  mk_kern (<[p := x]> (ptable k)) (nextpid k) (initproc k) (kfiles k).
Definition set_files (k : kern) (s : fsys) : kern := mk_kern (ptable k) (nextpid k) (initproc k) s.
Definition set_km (s : fsys) (m : kmem) : fsys := mk_fsys (ftable s) (pipes s) m (ffs s) (fwake s).
Definition kmem_of (k : kern) : kmem := fkm (kfiles k).
Definition set_kmem (k : kern) (m : kmem) : kern := set_files k (set_km (kfiles k) m).

Definition with_state (x : proc) (st : procstate) : proc :=
  mk_proc (p_sz x) (p_pgdir x) (p_kstack x) st (p_pid x) (p_parent x) (p_tf x) (p_context x) (p_chan x)
    (p_killed x) (p_ofile x) (p_cwd x) (p_name x).
Definition with_chan (x : proc) (c : option wchan) : proc :=
  mk_proc (p_sz x) (p_pgdir x) (p_kstack x) (p_state x) (p_pid x) (p_parent x) (p_tf x) (p_context x) c
    (p_killed x) (p_ofile x) (p_cwd x) (p_name x).
Definition with_parent (x : proc) (q : option nat) : proc :=
  mk_proc (p_sz x) (p_pgdir x) (p_kstack x) (p_state x) (p_pid x) q (p_tf x) (p_context x) (p_chan x)
    (p_killed x) (p_ofile x) (p_cwd x) (p_name x).
Definition with_killed (x : proc) (b : bool) : proc :=
  mk_proc (p_sz x) (p_pgdir x) (p_kstack x) (p_state x) (p_pid x) (p_parent x) (p_tf x) (p_context x) (p_chan x)
    b (p_ofile x) (p_cwd x) (p_name x).
Definition with_sz (x : proc) (s : Z) : proc :=
  mk_proc s (p_pgdir x) (p_kstack x) (p_state x) (p_pid x) (p_parent x) (p_tf x) (p_context x) (p_chan x)
    (p_killed x) (p_ofile x) (p_cwd x) (p_name x).
Definition with_pgdir (x : proc) (d : Z) : proc :=
  mk_proc (p_sz x) d (p_kstack x) (p_state x) (p_pid x) (p_parent x) (p_tf x) (p_context x) (p_chan x)
    (p_killed x) (p_ofile x) (p_cwd x) (p_name x).
Definition with_kstack (x : proc) (s : Z) : proc :=
  mk_proc (p_sz x) (p_pgdir x) s (p_state x) (p_pid x) (p_parent x) (p_tf x) (p_context x) (p_chan x)
    (p_killed x) (p_ofile x) (p_cwd x) (p_name x).
Definition with_pid (x : proc) (i : Z) : proc :=
  mk_proc (p_sz x) (p_pgdir x) (p_kstack x) (p_state x) i (p_parent x) (p_tf x) (p_context x) (p_chan x)
    (p_killed x) (p_ofile x) (p_cwd x) (p_name x).
Definition with_tf (x : proc) (t : trapframe) : proc :=
  mk_proc (p_sz x) (p_pgdir x) (p_kstack x) (p_state x) (p_pid x) (p_parent x) t (p_context x) (p_chan x)
    (p_killed x) (p_ofile x) (p_cwd x) (p_name x).
Definition with_context (x : proc) (c : context) : proc :=
  mk_proc (p_sz x) (p_pgdir x) (p_kstack x) (p_state x) (p_pid x) (p_parent x) (p_tf x) c (p_chan x)
    (p_killed x) (p_ofile x) (p_cwd x) (p_name x).
Definition with_ofile (x : proc) (l : list (option nat)) : proc :=
  mk_proc (p_sz x) (p_pgdir x) (p_kstack x) (p_state x) (p_pid x) (p_parent x) (p_tf x) (p_context x) (p_chan x)
    (p_killed x) l (p_cwd x) (p_name x).
Definition with_cwd (x : proc) (c : option nat) : proc :=
  mk_proc (p_sz x) (p_pgdir x) (p_kstack x) (p_state x) (p_pid x) (p_parent x) (p_tf x) (p_context x) (p_chan x)
    (p_killed x) (p_ofile x) c (p_name x).
Definition with_name (x : proc) (n : mem) : proc :=
  mk_proc (p_sz x) (p_pgdir x) (p_kstack x) (p_state x) (p_pid x) (p_parent x) (p_tf x) (p_context x) (p_chan x)
    (p_killed x) (p_ofile x) (p_cwd x) n.

Definition upd_proc (k : kern) (p : nat) (f : proc -> proc) : kern := set_proc k p (f (proc_at k p)).

Definition SEG_UCODE : Z := 3.
Definition SEG_UDATA : Z := 4.
Definition DPL_USER : Z := 3.

(** [safestrcpy(np->name, curproc->name, sizeof(curproc->name))]: both names laid
    out one after the other. *)
Definition copy_name (dst src : mem) : mem := safestrcpy (mcopy dst 16 src 0 16) 0 16 16.

(** [mycpu()] for the APIC id the hardware reports; [cpus] are the ids mp.c found. *)
Fixpoint mycpu_scan (cpus : list Z) (i : nat) (apicid : Z) : res nat :=
  match cpus with
  | [] => Panic "unknown apicid"
  | a :: l => if a =? apicid then Ok i else mycpu_scan l (S i) apicid
  end.

Definition mycpu (eflags_if : bool) (cpus : list Z) (lapicid : Z) : res nat :=
  if eflags_if then Panic "mycpu called with interrupts enabled" else mycpu_scan cpus 0 lapicid.

(** The checks of [switchuvm]; what it loads into the CPU is not state of this model. *)
Definition switchuvm (x : proc) : res unit :=
  if p_kstack x =? 0 then Panic "switchuvm: no kstack"
  else if p_pgdir x =? 0 then Panic "switchuvm: no pgdir"
  else Ok tt.

(** [sched()] before the switch: it must hold only [ptable.lock], with
    interrupts off and the state already changed. *)
Definition sched (held : bool) (ncli : Z) (eflags_if : bool) (x : proc) : res unit :=
  if negb held then Panic "sched ptable.lock"
  else if negb (ncli =? 1) then Panic "sched locks"
  else if bool_decide (p_state x = RUNNING) then Panic "sched running"
  else if eflags_if then Panic "sched interruptible"
  else Ok tt.

(** ** sleep and wakeup *)

Definition wake1 (c : wchan) (x : proc) : proc :=
  if bool_decide (p_state x = SLEEPING) && bool_decide (p_chan x = Some c) then with_state x RUNNABLE else x.

Definition wakeup1 (c : wchan) (k : kern) : kern :=
  mk_kern (map (wake1 c) (ptable k)) (nextpid k) (initproc k) (kfiles k).

Definition wakeup (c : wchan) (k : kern) : kern := wakeup1 c k.

(** [sleep] up to its [sched()], and what it does when it runs again. *)
Definition sleep (me : nat) (c : wchan) (k : kern) : kern :=
  upd_proc k me (fun x => with_state (with_chan x (Some c)) SLEEPING).
Definition sleep_done (me : nat) (k : kern) : kern := upd_proc k me (fun x => with_chan x None).

Fixpoint kill_scan (l : list proc) (p : nat) (pid : Z) : option nat :=
  match l with
  | [] => None
  | x :: l' => if p_pid x =? pid then Some p else kill_scan l' (S p) pid
  end.

Definition kill (pid : Z) (k : kern) : Z * kern :=
  match kill_scan (ptable k) 0 pid with
  | Some p =>
      let k := upd_proc k p (fun x => with_killed x true) in
      let k := if bool_decide (p_state (proc_at k p) = SLEEPING) then upd_proc k p (fun x => with_state x RUNNABLE) else k in
      (0, k)
  | None => (-1, k)
  end.

Definition yield (me : nat) (k : kern) : kern := upd_proc k me (fun x => with_state x RUNNABLE).

(** The body of the scheduler's loop for process [p]. *)
Definition scheduler (p : nat) (k : kern) : res kern :=
  if negb (bool_decide (p_state (proc_at k p) = RUNNABLE)) then Ok k
  else
    let* _ := switchuvm (proc_at k p) in
    Ok (upd_proc k p (fun x => with_state x RUNNING)).

Section proc.
Context (kend data forkret : Z) (sb : superblock).
Context (dev_read : Z -> option (nat -> mem -> Z -> Z -> fs -> res (Z * mem * fs))).

(** ** Creating processes *)

Fixpoint find_unused (l : list proc) (p : nat) : option nat :=
  match l with
  | [] => None
  | x :: l' => if bool_decide (p_state x = UNUSED) then Some p else find_unused l' (S p)
  end.

(** The trap frame is in the fresh stack page; [fork] and [userinit] fill it. *)
Definition allocproc (k : kern) : option nat * kern :=
  match find_unused (ptable k) 0 with
  | None => (None, k)
  | Some p =>
      let k := upd_proc k p (fun x => with_pid (with_state x EMBRYO) (nextpid k)) in
      let k := mk_kern (ptable k) (s32 (nextpid k + 1)) (initproc k) (kfiles k) in
      let (ks, m) := kalloc (kmem_of k) in
      let k := upd_proc (set_kmem k m) p (fun x => with_kstack x ks) in
      if ks =? 0 then (None, upd_proc k p (fun x => with_state x UNUSED))
      else (Some p, upd_proc k p (fun x => with_context x (mk_context 0 0 0 0 forkret)))
  end.

(** [initcode] is the address and size of _binary_initcode; a null [p] faults. *)
Definition userinit (initcode size : Z) (k : kern) : res kern :=
  let (op, k) := allocproc k in
  match op with
  | None => Panic "trap"
  | Some p =>
      let k := mk_kern (ptable k) (nextpid k) (Some p) (kfiles k) in
      let* (d, m) := setupkvm kend data (kmem_of k) in
      if d =? 0 then Panic "userinit: out of memory?"
      else
        let* m := inituvm d initcode size m in
        let k := set_kmem k m in
        let cs := Z.lor (Z.shiftl SEG_UCODE 3) DPL_USER in
        let ds := Z.lor (Z.shiftl SEG_UDATA 3) DPL_USER in
        let tf := mk_tf 0 0 0 0 0 0 0 0 0 0 ds ds 0 0 0 cs FL_IF PGSIZE ds in
        let name := mwrite (fun _ => 0) 0 [105; 110; 105; 116; 99; 111; 100; 101] in  (* "initcode" *)
        let k := upd_proc k p (fun x => with_name (with_tf (with_sz (with_pgdir x d) PGSIZE) tf) (copy_name (p_name x) name)) in
        let* (ip, st) := namei sb dev_read 0 [SLASH] (ffs (kfiles k)) in
        let k := set_files k (set_ffs (kfiles k) st) in
        let k := upd_proc k p (fun x => with_cwd x ip) in
        Ok (upd_proc k p (fun x => with_state x RUNNABLE))
  end.

Definition growproc (me : nat) (n : Z) (k : kern) : res (Z * kern) :=
  let x := proc_at k me in
  let sz := p_sz x in
  if 0 <? n then
    let* (r, m) := allocuvm kend (p_pgdir x) sz (u32 (sz + n)) (kmem_of k) in
    let k := set_kmem k m in
    if r =? 0 then Ok (-1, k)
    else
      let k := upd_proc k me (fun x => with_sz x r) in
      let* _ := switchuvm (proc_at k me) in Ok (0, k)
  else if n <? 0 then
    let* (r, m) := deallocuvm kend (p_pgdir x) sz (u32 (sz + n)) (kmem_of k) in
    let k := set_kmem k m in
    if r =? 0 then Ok (-1, k)
    else
      let k := upd_proc k me (fun x => with_sz x r) in
      let* _ := switchuvm (proc_at k me) in Ok (0, k)
  else
    let* _ := switchuvm (proc_at k me) in Ok (0, k).

(** [for(i = 0; i < NOFILE; i++) if(curproc->ofile[i]) np->ofile[i] = filedup(...)] *)
Fixpoint fork_files (l : list (option nat)) (i np : nat) (k : kern) : res kern :=
  match l with
  | [] => Ok k
  | None :: l' => fork_files l' (S i) np k
  | Some f :: l' =>
      let* s := filedup f (kfiles k) in
      let k := upd_proc (set_files k s) np (fun x => with_ofile x (<[i := Some f]> (p_ofile x))) in
      fork_files l' (S i) np k
  end.

Definition fork (me : nat) (k : kern) : res (Z * kern) :=
  let (onp, k) := allocproc k in
  match onp with
  | None => Ok (-1, k)
  | Some np =>
      let* (d, m) := copyuvm kend data (p_pgdir (proc_at k me)) (p_sz (proc_at k me)) (kmem_of k) in
      let k := upd_proc (set_kmem k m) np (fun x => with_pgdir x d) in
      if d =? 0 then
        let* m := kfree kend (p_kstack (proc_at k np)) (kmem_of k) in
        let k := upd_proc (set_kmem k m) np (fun x => with_state (with_kstack x 0) UNUSED) in
        Ok (-1, k)
      else
        let cur := proc_at k me in
        let k := upd_proc k np (fun x => with_tf (with_parent (with_sz x (p_sz cur)) (Some me)) (set_eax (p_tf cur) 0)) in
        let* k := fork_files (p_ofile cur) 0 np k in
        let* k := match p_cwd cur with
                  | Some ip => Ok (upd_proc (set_files k (set_ffs (kfiles k) (idup ip (ffs (kfiles k))))) np (fun x => with_cwd x (Some ip)))
                  | None => Panic "trap"               (* idup(0) *)
                  end in
        let k := upd_proc k np (fun x => with_name x (copy_name (p_name x) (p_name cur))) in
        let pid := p_pid (proc_at k np) in
        Ok (pid, upd_proc k np (fun x => with_state x RUNNABLE))
  end.

(** ** exit and wait *)

(** The close loop of [exit]; [n] descriptors left from [fd]. *)
Fixpoint exit_files (n fd me : nat) (k : kern) : res kern :=
  match n with
  | O => Ok k
  | S n' =>
      let* k :=
        match nth fd (p_ofile (proc_at k me)) None with
        | Some f =>
            let* s := fileclose kend sb f (kfiles k) in
            Ok (upd_proc (set_files k s) me (fun x => with_ofile x (<[fd := None]> (p_ofile x))))
        | None => Ok k
        end in
      exit_files n' (S fd) me k
  end.

(** Pass abandoned children to init; [n] slots left from [p]. *)
Fixpoint reparent (n p me : nat) (k : kern) : kern :=
  match n with
  | O => k
  | S n' =>
      let k :=
        if bool_decide (p_parent (proc_at k p) = Some me) then
          let k := upd_proc k p (fun x => with_parent x (initproc k)) in
          if bool_decide (p_state (proc_at k p) = ZOMBIE) then
            match initproc k with Some i => wakeup1 (ChProc i) k | None => k end
          else k
        else k in
      reparent n' (S p) me k
  end.

(** The part of [exit] under [ptable.lock], up to its [sched()]. *)
Definition exit_zombie (me : nat) (k : kern) : kern :=
  let k := match p_parent (proc_at k me) with Some q => wakeup1 (ChProc q) k | None => k end in
  let k := reparent (length (ptable k)) 0 me k in
  upd_proc k me (fun x => with_state x ZOMBIE).

Definition exit (me : nat) (k : kern) : res kern :=
  if bool_decide (initproc k = Some me) then Panic "init exiting"
  else
    let* k := exit_files (Z.to_nat NOFILE) 0 me k in
    let* st := match p_cwd (proc_at k me) with
               | Some ip => iput sb ip (op_begin (ffs (kfiles k)))
               | None => Panic "trap"                  (* iput(0) *)
               end in
    let k := upd_proc (set_files k (set_ffs (kfiles k) (op_end st))) me (fun x => with_cwd x None) in
    Ok (exit_zombie me k).

Inductive wait_res := WaitRet (pid : Z) | WaitSleep.

(** Scan for an exited child and reap it; [havekids] otherwise. *)
Fixpoint wait_scan (n p me : nat) (havekids : bool) (k : kern) : res (option Z * bool * kern) :=
  match n with
  | O => Ok (None, havekids, k)
  | S n' =>
      let x := proc_at k p in
      if negb (bool_decide (p_parent x = Some me)) then wait_scan n' (S p) me havekids k
      else if bool_decide (p_state x = ZOMBIE) then
        let pid := p_pid x in
        let* m := kfree kend (p_kstack x) (kmem_of k) in
        let* m := freevm kend (p_pgdir x) m in
        let k := upd_proc (set_kmem k m) p (fun x =>
                   with_state (with_killed (with_name (with_parent (with_pid (with_kstack x 0) 0) None) (mset (p_name x) 0 0)) false) UNUSED) in
        Ok (Some pid, true, k)
      else wait_scan n' (S p) me true k
  end.

Definition wait (me : nat) (k : kern) : res (wait_res * kern) :=
  let* (r, havekids, k) := wait_scan (length (ptable k)) 0 me false k in
  match r with
  | Some pid => Ok (WaitRet pid, k)
  | None =>
      if negb havekids || p_killed (proc_at k me) then Ok (WaitRet (-1), k)
      else Ok (WaitSleep, sleep me (ChProc me) k)
  end.
End proc.
