(* ===== verification/ProcSpec.v ===== *)
(** * Process-table invariants (src/proc.c)

    [kstep] is one critical section of a running process or of the scheduler.
    [ptable_ok] is the invariant of every reachable process table: the parent
    links form a tree rooted at init whose inner nodes are live processes,
    scheduled processes have their stack and page directory, no process sleeps
    in [wait] while it has a zombie child and, until the pid counter wraps,
    process ids are positive and distinct. *)

From S2P Require Import Prelude Layout StringLib Kalloc Pipe Blocks Balloc Fs File Vm Proc.

Definition alive (x : proc) : bool :=
  match p_state x with SLEEPING | RUNNABLE | RUNNING => true | _ => false end.
Definition used (x : proc) : bool :=
  match p_state x with SLEEPING | RUNNABLE | RUNNING | ZOMBIE => true | _ => false end.

(** Asleep in its own [wait()]. *)
Definition waiting (k : kern) (p : nat) : Prop :=
  p_state (proc_at k p) = SLEEPING /\ p_chan (proc_at k p) = Some (ChProc p).

(** [fresh] says that the pid counter has not wrapped: process ids are
    promised to be positive and distinct only then ([allocproc] increments an
    int without looking for ids in use). *)
Record ptable_ok (fresh : bool) (k : kern) : Prop := mk_ptable_ok {
  pt_init : exists i, initproc k = Some i /\ alive (proc_at k i) = true /\ p_parent (proc_at k i) = None;
  pt_tree : forall p, used (proc_at k p) = true -> initproc k = Some p \/
            exists q, p_parent (proc_at k p) = Some q /\ q <> p /\ alive (proc_at k q) = true;
  pt_free : forall p, used (proc_at k p) = false -> p_state (proc_at k p) = UNUSED /\ p_parent (proc_at k p) = None;
  pt_mem : forall p, used (proc_at k p) = true -> p_kstack (proc_at k p) <> 0 /\ p_pgdir (proc_at k p) <> 0;
  pt_pid : fresh = true -> forall p, used (proc_at k p) = true -> 0 < p_pid (proc_at k p) < nextpid k;
  pt_pids : fresh = true -> forall p q, used (proc_at k p) = true -> used (proc_at k q) = true ->
            p_pid (proc_at k p) = p_pid (proc_at k q) -> p = q;
  pt_chan : forall p q, p_state (proc_at k p) = SLEEPING -> p_chan (proc_at k p) = Some (ChProc q) -> q = p;
  pt_wait : forall p q, waiting k p -> p_parent (proc_at k q) = Some p -> p_state (proc_at k q) <> ZOMBIE
}.

(** ** Table updates *)

Lemma proc_at_map k f p : f no_proc = no_proc ->
  nth p (map f (ptable k)) no_proc = f (proc_at k p).
Proof. intros H. unfold proc_at. rewrite <- H at 1. apply map_nth. Qed.

Lemma proc_at_upd_ne k p f q : q <> p -> proc_at (upd_proc k p f) q = proc_at k q.
Proof.
  intros H. unfold proc_at, upd_proc, set_proc. cbn [ptable].
  rewrite !nth_lookup. by rewrite list_lookup_insert_ne by done.
Qed.

Lemma proc_at_upd k p f : (p < length (ptable k))%nat -> proc_at (upd_proc k p f) p = f (proc_at k p).
Proof.
  intros H. unfold upd_proc, set_proc. unfold proc_at at 1. cbn [ptable].
  rewrite nth_lookup, list_lookup_insert_eq by done. done.
Qed.

Lemma proc_at_out k p : (length (ptable k) <= p)%nat -> proc_at k p = no_proc.
Proof. intros H. unfold proc_at. by apply nth_overflow. Qed.

Lemma used_in k p : used (proc_at k p) = true -> (p < length (ptable k))%nat.
Proof.
  intros H. destruct (decide (p < length (ptable k))%nat); [done|].
  rewrite proc_at_out in H by lia. done.
Qed.

Lemma alive_used x : alive x = true -> used x = true.
Proof. unfold alive, used. by destruct (p_state x). Qed.

Lemma alive_in k p : alive (proc_at k p) = true -> (p < length (ptable k))%nat.
Proof. intros H. by apply used_in, alive_used. Qed.

Lemma length_upd k p f : length (ptable (upd_proc k p f)) = length (ptable k).
Proof. unfold upd_proc, set_proc. cbn [ptable]. by rewrite length_insert. Qed.

(** The fields the invariant reads. *)
Definition view (x : proc) : procstate * option nat * option wchan * Z * Z * Z :=
  (p_state x, p_parent x, p_chan x, p_kstack x, p_pgdir x, p_pid x).

Definition same_view (k k' : kern) (p : nat) : Prop := view (proc_at k' p) = view (proc_at k p).

Lemma view_inv x y : view x = view y ->
  p_state x = p_state y /\ p_parent x = p_parent y /\ p_chan x = p_chan y /\ p_kstack x = p_kstack y /\
  p_pgdir x = p_pgdir y /\ p_pid x = p_pid y /\ used x = used y /\ alive x = alive y.
Proof. unfold view, used, alive. intros E. inversion E as [[E1 E2 E3 E4 E5 E6]]. rewrite E1. auto 10. Qed.

(** A change that no field of the invariant sees. *)
Lemma ptable_ok_same {fr} k k' :
  ptable_ok fr k -> (forall p, same_view k k' p) -> nextpid k' = nextpid k -> initproc k' = initproc k -> ptable_ok fr k'.
Proof.
  intros [H1 H2 H3 H4 H5 H6 H7 H8] Hv En Ei.
  assert (V := fun p => view_inv _ _ (Hv p)).
  constructor; rewrite ?En, ?Ei.
  - destruct H1 as (i & ? & ? & ?). exists i. destruct (V i) as (? & -> & _ & _ & _ & _ & _ & ->). auto.
  - intros p. destruct (V p) as (_ & -> & _ & _ & _ & _ & -> & _). intros Hu. destruct (H2 p Hu) as [?|(q & ? & ? & ?)]; [by left|].
    right. exists q. destruct (V q) as (_ & _ & _ & _ & _ & _ & _ & ->). auto.
  - intros p. destruct (V p) as (-> & -> & _ & _ & _ & _ & -> & _). apply H3.
  - intros p. destruct (V p) as (_ & _ & _ & -> & -> & _ & -> & _). apply H4.
  - intros Ef p. destruct (V p) as (_ & _ & _ & _ & _ & -> & -> & _). by apply H5.
  - intros Ef p q. destruct (V p) as (_ & _ & _ & _ & _ & -> & -> & _), (V q) as (_ & _ & _ & _ & _ & -> & -> & _). by apply H6.
  - intros p q. destruct (V p) as (-> & _ & -> & _). apply H7.
  - intros p q. unfold waiting. destruct (V p) as (-> & _ & -> & _), (V q) as (-> & -> & _). apply H8.
Qed.

(** Scheduling changes: run states and channels move among live states. *)
Lemma ptable_ok_sched {fr} k k' :
  ptable_ok fr k -> nextpid k' = nextpid k -> initproc k' = initproc k ->
  (forall p, let x := proc_at k p in let x' := proc_at k' p in
     p_parent x' = p_parent x /\ p_kstack x' = p_kstack x /\ p_pgdir x' = p_pgdir x /\ p_pid x' = p_pid x /\
     (p_state x' = p_state x \/ alive x = true /\ alive x' = true) /\
     (p_state x' = SLEEPING ->
        p_state x = SLEEPING /\ p_chan x' = p_chan x \/
        (forall q, p_chan x' <> Some (ChProc q)) \/
        p_chan x' = Some (ChProc p) /\ (forall q, p_parent (proc_at k q) = Some p -> p_state (proc_at k q) <> ZOMBIE))) ->
  ptable_ok fr k'.
Proof.
  intros [H1 H2 H3 H4 H5 H6 H7 H8] En Ei Hx.
  assert (Hst : forall p, used (proc_at k' p) = used (proc_at k p) /\ alive (proc_at k' p) = alive (proc_at k p) /\
                          (p_state (proc_at k' p) = ZOMBIE -> p_state (proc_at k p) = ZOMBIE)).
  { intros p. destruct (Hx p) as (_ & _ & _ & _ & [E|[E1 E2]] & _); unfold used, alive in *.
    - by rewrite E.
    - destruct (p_state (proc_at k p)), (p_state (proc_at k' p)); done. }
  constructor; rewrite ?En, ?Ei.
  - destruct H1 as (i & ? & ? & ?). exists i. destruct (Hx i) as (-> & _), (Hst i) as (_ & -> & _). auto.
  - intros p. destruct (Hx p) as (-> & _), (Hst p) as (-> & _ & _). intros Hu.
    destruct (H2 p Hu) as [?|(q & ? & ? & ?)]; [by left|]. right. exists q. destruct (Hst q) as (_ & -> & _). auto.
  - intros p. destruct (Hx p) as (-> & _ & _ & _ & Hs & _), (Hst p) as (-> & _ & _). intros Hu.
    destruct (H3 p Hu) as [Hs' ?]. split; [|done]. destruct Hs as [->|[Ha _]]; [done|].
    apply alive_used in Ha. congruence.
  - intros p. destruct (Hx p) as (_ & -> & -> & _), (Hst p) as (-> & _ & _). apply H4.
  - intros Ef p. destruct (Hx p) as (_ & _ & _ & -> & _), (Hst p) as (-> & _ & _). by apply H5.
  - intros Ef p q. destruct (Hx p) as (_ & _ & _ & -> & _), (Hst p) as (-> & _ & _),
      (Hx q) as (_ & _ & _ & -> & _), (Hst q) as (-> & _ & _). by apply H6.
  - intros p q Hs Hc. destruct (Hx p) as (_ & _ & _ & _ & _ & Hsl). destruct (Hsl Hs) as [[Hs' Hc']|[Hn|[Hc' _]]].
    + apply H7; [done | congruence].
    + by destruct (Hn q).
    + congruence.
  - intros p q [Hs Hc] Hp Hz. destruct (Hx q) as (Hq & _). rewrite Hq in Hp. apply (proj2 (proj2 (Hst q))) in Hz.
    destruct (Hx p) as (_ & _ & _ & _ & _ & Hsl). destruct (Hsl Hs) as [[Hs' Hc']|[Hn|[_ Hn]]].
    + revert Hz. apply (H8 p q); [|done]. split; [done | congruence].
    + by destruct (Hn p).
    + by apply (Hn q).
Qed.

(** One live process changes its run state and channel. *)
Lemma ptable_ok_run {fr} k me st c :
  ptable_ok fr k -> alive (proc_at k me) = true -> st <> UNUSED -> st <> EMBRYO -> st <> ZOMBIE ->
  (st = SLEEPING -> (forall q, c <> Some (ChProc q)) \/
     c = Some (ChProc me) /\ (forall q, p_parent (proc_at k q) = Some me -> p_state (proc_at k q) <> ZOMBIE)) ->
  ptable_ok fr (upd_proc k me (fun x => with_state (with_chan x c) st)).
Proof.
  intros Hk Ha Hu He Hz Hs. apply (ptable_ok_sched k); auto. intros p.
  destruct (decide (p = me)) as [->|Hne].
  - rewrite proc_at_upd by (by apply alive_in). cbn. split_and!; auto.
    right. split; [done|]. unfold alive. cbn. by destruct st.
  - rewrite proc_at_upd_ne by done. split_and!; auto.
Qed.

Lemma wake1_no c : wake1 c no_proc = no_proc.
Proof. reflexivity. Qed.

Lemma proc_at_wakeup c k p : proc_at (wakeup1 c k) p = wake1 c (proc_at k p).
Proof. unfold wakeup1. unfold proc_at at 1. cbn [ptable]. by apply proc_at_map. Qed.

(** What [wakeup1] does to one process. *)
Lemma wake1_spec c x :
  wake1 c x = x /\ ~ (p_state x = SLEEPING /\ p_chan x = Some c) \/
  wake1 c x = with_state x RUNNABLE /\ p_state x = SLEEPING /\ p_chan x = Some c.
Proof.
  unfold wake1. destruct (bool_decide_reflect (p_state x = SLEEPING)), (bool_decide_reflect (p_chan x = Some c));
    cbn [andb]; [by right | left; split; [done | tauto]..].
Qed.

Lemma wakeup1_ok {fr} c k : ptable_ok fr k -> ptable_ok fr (wakeup1 c k).
Proof.
  intros Hk. apply (ptable_ok_sched k); auto. intros p. rewrite proc_at_wakeup.
  destruct (wake1_spec c (proc_at k p)) as [[-> _]|(-> & Hs & Hc)].
  - split_and!; auto.
  - cbn. split_and!; try done. right. unfold alive. by rewrite Hs.
Qed.

(** ** Operations that only schedule *)

Lemma with_chan_same x : with_chan x (p_chan x) = x.
Proof. by destruct x. Qed.

Lemma upd_proc_ext k p f g : f (proc_at k p) = g (proc_at k p) -> upd_proc k p f = upd_proc k p g.
Proof. intros E. unfold upd_proc. by rewrite E. Qed.

Lemma sleep_ok {fr} me c k : ptable_ok fr k -> alive (proc_at k me) = true -> (forall q, c <> ChProc q) ->
  ptable_ok fr (sleep me c k).
Proof. intros Hk Ha Hc. apply ptable_ok_run; auto; try done. intros _. left. intros q E. by apply (Hc q); congruence. Qed.

Lemma state_ok {fr} k me st : ptable_ok fr k -> alive (proc_at k me) = true -> st = RUNNABLE \/ st = RUNNING ->
  ptable_ok fr (upd_proc k me (fun x => with_state x st)).
Proof.
  intros Hk Ha Hst.
  rewrite (upd_proc_ext _ _ _ (fun x => with_state (with_chan x (p_chan (proc_at k me))) st)) by (by rewrite with_chan_same).
  apply ptable_ok_run; auto; destruct Hst as [-> | ->]; done.
Qed.

Lemma yield_ok {fr} me k : ptable_ok fr k -> alive (proc_at k me) = true -> ptable_ok fr (yield me k).
Proof. intros. apply state_ok; auto. Qed.

Lemma scheduler_ok {fr} p k : ptable_ok fr k -> exists k', scheduler p k = Ok k' /\ ptable_ok fr k'.
Proof.
  intros Hk. unfold scheduler. destruct (bool_decide_reflect (p_state (proc_at k p) = RUNNABLE)) as [Hr|]; cbn [negb]; [|by exists k].
  assert (Ha : alive (proc_at k p) = true) by (unfold alive; by rewrite Hr).
  destruct (pt_mem _ _ Hk p (alive_used _ Ha)) as [Hs Hd]. unfold switchuvm.
  destruct (Z.eqb_spec (p_kstack (proc_at k p)) 0); [done|].
  destruct (Z.eqb_spec (p_pgdir (proc_at k p)) 0); [done|]. cbn [rbind].
  eexists. split; [reflexivity|]. apply state_ok; auto.
Qed.

Lemma sleep_done_ok {fr} me k : ptable_ok fr k -> p_state (proc_at k me) = RUNNING -> ptable_ok fr (sleep_done me k).
Proof.
  intros Hk Hr. assert (Ha : alive (proc_at k me) = true) by (unfold alive; by rewrite Hr).
  unfold sleep_done. rewrite (upd_proc_ext _ _ _ (fun x => with_state (with_chan x None) RUNNING)).
  - apply ptable_ok_run; auto; done.
  - destruct (proc_at k me). cbn in *. by subst.
Qed.

Lemma kill_scan_spec l p pid : match kill_scan l p pid with
  | Some q => exists x, l !! (q - p)%nat = Some x /\ p_pid x = pid /\ (p <= q)%nat
  | None => forall x, x ∈ l -> p_pid x <> pid
  end.
Proof.
  revert p. induction l as [|x l IH]; intros p; cbn [kill_scan].
  - intros x Hx. by apply not_elem_of_nil in Hx.
  - destruct (Z.eqb_spec (p_pid x) pid) as [E|E].
    + exists x. rewrite Nat.sub_diag. auto.
    + specialize (IH (S p)). destruct (kill_scan l (S p) pid) as [q|].
      * destruct IH as (y & Hy & ? & ?). exists y. replace (q - p)%nat with (S (q - S p)) by lia. auto with lia.
      * intros y [->|Hy]%elem_of_cons; [done | by apply IH].
Qed.

Lemma kill_ok {fr} pid k : ptable_ok fr k -> ptable_ok fr (snd (kill pid k)).
Proof.
  intros Hk. unfold kill. destruct (kill_scan (ptable k) 0 pid) as [p|]; cbn [snd]; [|done].
  set (k1 := upd_proc k p (fun x => with_killed x true)).
  assert (Hk1 : ptable_ok fr k1).
  { apply (ptable_ok_same k); auto. intros q. unfold same_view, k1.
    destruct (decide (q = p)) as [->|]; [|by rewrite proc_at_upd_ne].
    destruct (decide (p < length (ptable k))%nat); [by rewrite proc_at_upd|].
    unfold upd_proc, set_proc, proc_at. cbn [ptable]. by rewrite list_insert_ge by lia. }
  destruct (bool_decide_reflect (p_state (proc_at k1 p) = SLEEPING)) as [Hs|]; [|done].
  apply state_ok; auto. unfold alive. by rewrite Hs.
Qed.

(** ** fork *)

(** A slot that is not in use may change except for its state and parent. *)
Definition idle_change (k k' : kern) (p : nat) : Prop :=
  same_view k k' p \/
  p_state (proc_at k p) = UNUSED /\ p_state (proc_at k' p) = UNUSED /\ p_parent (proc_at k' p) = p_parent (proc_at k p).

Lemma idle_unused {fr} k k' p : ptable_ok fr k -> idle_change k k' p ->
  (used (proc_at k p) = true /\ same_view k k' p) \/
  (used (proc_at k p) = false /\ used (proc_at k' p) = false /\ p_state (proc_at k' p) = UNUSED /\
   p_parent (proc_at k' p) = None /\ p_state (proc_at k p) = UNUSED).
Proof.
  intros Hk Hi. destruct (used (proc_at k p)) eqn:Hu.
  - left. destruct Hi as [?|(E & _)]; [done|]. unfold used in Hu. by rewrite E in Hu.
  - right. destruct (pt_free _ _ Hk p Hu) as [Hs Hp]. destruct Hi as [Hv|(_ & E & E')].
    + apply view_inv in Hv as (-> & -> & _ & _ & _ & _ & -> & _). auto.
    + unfold used. rewrite E, E'. auto.
Qed.

(** Used slots keep their view, [np] may be a new child of [me]. *)
Lemma ptable_ok_add {fr} k k' (new : option (nat * nat)) :
  ptable_ok fr k -> initproc k' = initproc k -> (fr = true -> nextpid k <= nextpid k') ->
  (forall p, (forall np me, new = Some (np, me) -> p <> np) -> idle_change k k' p) ->
  (forall np me, new = Some (np, me) ->
     used (proc_at k np) = false /\ alive (proc_at k me) = true /\ p_state (proc_at k' np) = RUNNABLE /\
     p_parent (proc_at k' np) = Some me /\ p_kstack (proc_at k' np) <> 0 /\ p_pgdir (proc_at k' np) <> 0 /\
     p_pid (proc_at k' np) = nextpid k /\ (fr = true -> 0 < nextpid k < nextpid k')) ->
  ptable_ok fr k'.
Proof.
  intros Hk Ei Hn Hold Hnew. pose proof Hk as [H1 H2 H3 H4 H5 H6 H7 H8].
  (* every slot: kept, not in use, or the new child *)
  assert (Hcase : forall p,
    (used (proc_at k p) = true /\ same_view k k' p) \/
    (used (proc_at k' p) = false /\ p_state (proc_at k' p) = UNUSED /\ p_parent (proc_at k' p) = None) \/
    (exists me, new = Some (p, me))).
  { intros p. destruct new as [[np me]|].
    - destruct (decide (p = np)) as [->|Hne]; [by right; right; exists me|].
      destruct (idle_unused k k' p Hk) as [?|(_ & ? & ? & ? & _)]; auto.
      apply Hold. intros ? ? E. congruence.
    - destruct (idle_unused k k' p Hk) as [?|(_ & ? & ? & ? & _)]; auto. }
  assert (Hkeep : forall p, used (proc_at k p) = true -> same_view k k' p).
  { intros p Hu. destruct (Hcase p) as [[_ ?]|[(Hf & Hs & _)|(me & E)]]; [done| |].
    - destruct new as [[np me]|].
      + destruct (decide (p = np)) as [->|Hne]; [destruct (Hnew np me eq_refl) as (? & _); congruence|].
        destruct (idle_unused k k' p Hk) as [[_ ?]|(? & _)]; [apply Hold; congruence | done | congruence].
      + destruct (idle_unused k k' p Hk) as [[_ ?]|(? & _)]; [by apply Hold | done | congruence].
    - destruct (Hnew p me E) as (? & _). congruence. }
  assert (Halive : forall p, alive (proc_at k p) = true -> alive (proc_at k' p) = true).
  { intros p Ha. pose proof (Hkeep p (alive_used _ Ha)) as Hv. apply view_inv in Hv as (_&_&_&_&_&_&_& ->). done. }
  assert (Hsl : forall p, p_state (proc_at k' p) = SLEEPING -> used (proc_at k p) = true /\ same_view k k' p).
  { intros p Hs. destruct (Hcase p) as [?|[(_ & E & _)|(me & E)]]; [done | congruence|].
    destruct (Hnew p me E) as (_ & _ & ? & _). congruence. }
  constructor; rewrite ?Ei.
  - destruct H1 as (i & ? & Ha & ?). exists i. split_and!; auto.
    pose proof (Hkeep i (alive_used _ Ha)) as Hv. by apply view_inv in Hv as (_ & -> & _).
  - intros p Hu. destruct (Hcase p) as [[Hu' Hv]|[(E & _)|(me & E)]]; [|congruence|].
    + apply view_inv in Hv as (_ & -> & _). destruct (H2 p Hu') as [?|(q & ? & ? & ?)]; [by left|].
      right. exists q. auto.
    + destruct (Hnew p me E) as (Hf & Ha & _ & Hp & _). right. exists me. split_and!; auto.
      intros ->. apply alive_used in Ha. congruence.
  - intros p Hu. destruct (Hcase p) as [[Hu' Hv]|[(E & ? & ?)|(me & E)]]; [|done|].
    + apply view_inv in Hv as (_&_&_&_&_&_& E & _). congruence.
    + destruct (Hnew p me E) as (_ & _ & Hs & _). unfold used in Hu. by rewrite Hs in Hu.
  - intros p Hu. destruct (Hcase p) as [[Hu' Hv]|[(E & _)|(me & E)]]; [|congruence|].
    + apply view_inv in Hv as (_ & _ & _ & -> & -> & _). auto.
    + destruct (Hnew p me E) as (_ & _ & _ & _ & ? & ? & _). auto.
  - intros Ef p Hu. specialize (Hn Ef). destruct (Hcase p) as [[Hu' Hv]|[(E & _)|(me & E)]]; [|congruence|].
    + apply view_inv in Hv as (_ & _ & _ & _ & _ & -> & _). specialize (H5 Ef p Hu'). lia.
    + destruct (Hnew p me E) as (_ & _ & _ & _ & _ & _ & -> & Hlt). specialize (Hlt Ef). lia.
  - intros Ef. specialize (H5 Ef). assert (Hpid : forall p, used (proc_at k' p) = true ->
      (used (proc_at k p) = true /\ p_pid (proc_at k' p) = p_pid (proc_at k p)) \/
      (exists me, new = Some (p, me) /\ p_pid (proc_at k' p) = nextpid k)).
    { intros p Hu. destruct (Hcase p) as [[Hu' Hv]|[(E & _)|(me & E)]]; [|congruence|].
      - left. by apply view_inv in Hv as (_ & _ & _ & _ & _ & -> & _).
      - right. exists me. by destruct (Hnew p me E) as (_ & _ & _ & _ & _ & _ & ? & _). }
    intros p q Hp Hq E. destruct (Hpid p Hp) as [[Up Ep]|(me & Np & Ep)], (Hpid q Hq) as [[Uq Eq]|(me' & Nq & Eq)].
    + apply (H6 Ef); congruence.
    + specialize (H5 p Up). lia.
    + specialize (H5 q Uq). lia.
    + congruence.
  - intros p q Hs Hc. destruct (Hsl p Hs) as [Hu Hv]. apply view_inv in Hv as (E1 & _ & E2 & _). apply H7; congruence.
  - intros p q [Hs Hc] Hp Hz. destruct (Hsl p Hs) as [Hu Hv]. apply view_inv in Hv as (E1 & _ & E2 & _).
    destruct (Hcase q) as [[Hu' Hv]|[(_ & E & _)|(me & E)]]; [|congruence|].
    + apply view_inv in Hv as (E3 & E4 & _). apply (H8 p q); [split|..]; congruence.
    + destruct (Hnew q me E) as (_ & _ & ? & _). congruence.
Qed.

Section fork.
Context (kend data forkret : Z) (sb : superblock).
Context (dev_read : Z -> option (nat -> mem -> Z -> Z -> fs -> res (Z * mem * fs))).

Lemma find_unused_spec l p : match find_unused l p with
  | Some q => exists x, l !! (q - p)%nat = Some x /\ p_state x = UNUSED /\ (p <= q)%nat
  | None => forall x, x ∈ l -> p_state x <> UNUSED
  end.
Proof.
  revert p. induction l as [|x l IH]; intros p; cbn [find_unused].
  - intros x Hx. by apply not_elem_of_nil in Hx.
  - destruct (bool_decide_reflect (p_state x = UNUSED)) as [E|E].
    + exists x. rewrite Nat.sub_diag. auto.
    + specialize (IH (S p)). destruct (find_unused l (S p)) as [q|].
      * destruct IH as (y & Hy & ? & ?). exists y. replace (q - p)%nat with (S (q - S p)) by lia. auto with lia.
      * intros y [->|Hy]%elem_of_cons; [done | by apply IH].
Qed.

Lemma find_unused_at k np : find_unused (ptable k) 0 = Some np ->
  (np < length (ptable k))%nat /\ p_state (proc_at k np) = UNUSED.
Proof.
  intros E. pose proof (find_unused_spec (ptable k) 0) as H. rewrite E in H. destruct H as (x & Hx & Hs & _).
  rewrite Nat.sub_0_r in Hx. split; [by apply lookup_lt_Some in Hx|].
  unfold proc_at. by rewrite (nth_lookup_Some _ _ _ _ Hx).
Qed.

Lemma proc_at_kmem k m p : proc_at (set_kmem k m) p = proc_at k p.
Proof. reflexivity. Qed.

Lemma length_kmem k m : length (ptable (set_kmem k m)) = length (ptable k).
Proof. reflexivity. Qed.

Lemma length_files k s : length (ptable (set_files k s)) = length (ptable k).
Proof. reflexivity. Qed.

(** Two updates of one slot. *)
Lemma upd_upd k p f g : (p < length (ptable k))%nat -> upd_proc (upd_proc k p f) p g = upd_proc k p (fun x => g (f x)).
Proof.
  intros H. unfold upd_proc at 1. rewrite proc_at_upd by done.
  unfold upd_proc, set_proc. cbn [ptable nextpid initproc kfiles]. by rewrite list_insert_insert_eq.
Qed.

(** The slot [allocproc] found, and how it left it. *)
Lemma allocproc_spec k op k' : allocproc forkret k = (op, k') ->
  length (ptable k') = length (ptable k) /\ initproc k' = initproc k /\
  (k' = k /\ op = None \/
   exists np, (np < length (ptable k))%nat /\ find_unused (ptable k) 0 = Some np /\ p_state (proc_at k np) = UNUSED /\
     nextpid k' = s32 (nextpid k + 1) /\
     (forall p, p <> np -> proc_at k' p = proc_at k p) /\
     p_parent (proc_at k' np) = p_parent (proc_at k np) /\ p_pid (proc_at k' np) = nextpid k /\
     p_killed (proc_at k' np) = p_killed (proc_at k np) /\ p_ofile (proc_at k' np) = p_ofile (proc_at k np) /\
     (op = None /\ p_state (proc_at k' np) = UNUSED \/
      op = Some np /\ p_state (proc_at k' np) = EMBRYO /\ p_kstack (proc_at k' np) <> 0)).
Proof.
  unfold allocproc. destruct (find_unused (ptable k) 0) as [np|] eqn:E; [|intros [= <- <-]; auto 10].
  destruct (find_unused_at k np E) as [Hnp Hst].
  set (k1 := mk_kern _ _ _ _). destruct (kalloc (kmem_of k1)) as [ks m] eqn:Ek.
  assert (H1 : proc_at k1 np = with_pid (with_state (proc_at k np) EMBRYO) (nextpid k)).
  { change (proc_at k1 np) with (proc_at (upd_proc k np (fun x => with_pid (with_state x EMBRYO) (nextpid k))) np).
    by rewrite proc_at_upd. }
  assert (H1' : forall p, p <> np -> proc_at k1 p = proc_at k p).
  { intros p Hp. change (proc_at k1 p) with (proc_at (upd_proc k np (fun x => with_pid (with_state x EMBRYO) (nextpid k))) p).
    by rewrite proc_at_upd_ne. }
  assert (Hl : length (ptable k1) = length (ptable k)) by (cbn; by rewrite length_insert).
  assert (Hlm : (np < length (ptable (set_kmem k1 m)))%nat) by (change (ptable (set_kmem k1 m)) with (ptable k1); lia).
  destruct (Z.eqb_spec ks 0) as [->|Hks]; intros [= <- <-]; rewrite upd_upd by done.
  all: split; [rewrite length_upd; exact Hl|]; split; [done|]; right; exists np.
  all: split_and!; auto; try (intros p Hp; rewrite proc_at_upd_ne by done; by apply H1').
  all: rewrite proc_at_upd by done; change (proc_at (set_kmem k1 m) np) with (proc_at k1 np); rewrite H1; cbn; auto.
Qed.

Lemma fork_files_view l : forall i np k k', fork_files l i np k = Ok k' ->
  (forall p, same_view k k' p) /\ nextpid k' = nextpid k /\ initproc k' = initproc k /\
  length (ptable k') = length (ptable k) /\ (forall p, p_killed (proc_at k' p) = p_killed (proc_at k p)).
Proof.
  induction l as [|[f|] l IH]; intros i np k k'; cbn [fork_files].
  - intros [= ->]. done.
  - intros (s & _ & E)%rbind_Ok_inv. apply IH in E as (Hv & -> & -> & -> & Hkl).
    set (k1 := upd_proc _ _ _) in *.
    assert (H1 : forall p, view (proc_at k1 p) = view (proc_at k p) /\ p_killed (proc_at k1 p) = p_killed (proc_at k p)).
    { intros p. subst k1. destruct (decide (p = np)) as [->|]; [|by rewrite proc_at_upd_ne].
      destruct (decide (np < length (ptable k))%nat); [by rewrite proc_at_upd|].
      rewrite !proc_at_out; [done | lia | rewrite length_upd; cbn; lia]. }
    split_and!; auto.
    + intros p. unfold same_view. rewrite (Hv p). apply H1.
    + subst k1. by rewrite length_upd.
    + intros p. rewrite Hkl. apply H1.
  - apply IH.
Qed.

Lemma s32_succ n : 0 < n < 2 ^ 31 - 1 -> s32 (n + 1) = n + 1.
Proof. intros. apply s32_small. lia. Qed.

(** [fork] returns -1 having used no process, or the pid of a new child of the caller. *)
Lemma fork_ok {fr} me k r k' :
  ptable_ok fr k -> alive (proc_at k me) = true -> (fr = true -> 0 < nextpid k < 2 ^ 31 - 1) ->
  fork kend data forkret me k = Ok (r, k') ->
  ptable_ok fr k' /\ (r = -1 \/ exists np, find_unused (ptable k) 0 = Some np /\ used (proc_at k np) = false /\
     p_state (proc_at k' np) = RUNNABLE /\ p_parent (proc_at k' np) = Some me /\ p_pid (proc_at k' np) = r /\ r = nextpid k /\
     p_killed (proc_at k' np) = p_killed (proc_at k np)).
Proof.
  intros Hk Ha Hn. unfold fork. destruct (allocproc forkret k) as [op k1] eqn:Eal.
  destruct (allocproc_spec k op k1 Eal) as (Hl1 & Hi1 & [[-> ->]|(np & Hnp & Hfu & Hun & Hn1 & Hoth & Hpar & Hpid & Hkil & Hof & Hop)]).
  { intros [= <- <-]. auto. }
  assert (Hn1' : fr = true -> nextpid k1 = nextpid k + 1) by (intros Ef; rewrite Hn1; by apply s32_succ, Hn).
  assert (Hfree : used (proc_at k np) = false) by (unfold used; by rewrite Hun).
  assert (Hidle : forall k2 : kern, (forall p, p <> np -> same_view k k2 p) -> p_state (proc_at k2 np) = UNUSED ->
    p_parent (proc_at k2 np) = p_parent (proc_at k np) -> forall p, idle_change k k2 p).
  { intros k2 Ho Hs Hp p. destruct (decide (p = np)) as [->|]; [right; auto | left; auto]. }
  destruct Hop as [[-> Hs1]|(-> & Hs1 & Hks1)].
  { intros [= <- <-]. split; [|by left]. apply (ptable_ok_add k k1 None); auto; [intros Ef; rewrite (Hn1' Ef); lia | | done].
    intros p _. apply Hidle; auto. intros q Hq. unfold same_view. by rewrite Hoth. }
  intros ([d m] & _ & E)%rbind_Ok_inv. destruct (Z.eqb_spec d 0) as [->|Hd].
  - apply rbind_Ok_inv in E as (m' & _ & [= <- <-]). split; [|by left].
    set (k2 := upd_proc (set_kmem k1 m) np _) in *. set (k3 := upd_proc (set_kmem k2 m') np _).
    assert (Hl2 : length (ptable k2) = length (ptable k1)) by (unfold k2; by rewrite length_upd).
    apply (ptable_ok_add k k3 None); auto; [intros Ef; cbn; rewrite (Hn1' Ef); lia | | done]. intros p _. apply Hidle.
    + intros q Hq. unfold same_view, k3. rewrite proc_at_upd_ne by done.
      change (proc_at (set_kmem k2 m') q) with (proc_at k2 q). unfold k2. rewrite proc_at_upd_ne by done.
      change (proc_at (set_kmem k1 m) q) with (proc_at k1 q). by rewrite Hoth.
    + unfold k3. rewrite proc_at_upd by (rewrite length_kmem; lia). done.
    + unfold k3. rewrite proc_at_upd by (rewrite length_kmem; lia).
      change (proc_at (set_kmem k2 m') np) with (proc_at k2 np). unfold k2.
      rewrite proc_at_upd by (rewrite length_kmem; lia). cbn. done.
  - cbv zeta in E. set (k2 := upd_proc (set_kmem k1 m) np (fun x => with_pgdir x d)) in *.
    set (cur := proc_at k2 me) in *. set (k2' := upd_proc k2 np _) in *.
    apply rbind_Ok_inv in E as (k3 & Ef & E). apply fork_files_view in Ef as (Hv3 & Hn3 & Hi3 & Hl3 & Hkl3).
    assert (Hl2 : length (ptable k2) = length (ptable k1)) by (unfold k2; by rewrite length_upd).
    assert (Hl2' : length (ptable k2') = length (ptable k1)) by (unfold k2'; by rewrite length_upd).
    destruct (p_cwd cur) as [ip|]; [|done]. cbn [rbind] in E.
    set (k4 := set_files k3 _) in *.
    assert (Hl4 : length (ptable k4) = length (ptable k1)) by (unfold k4; rewrite length_files; lia).
    rewrite !upd_upd in E by lia. injection E as Er <-. rewrite proc_at_upd in Er by lia.
    change (proc_at k4 np) with (proc_at k3 np) in Er. cbn in Er.
    set (k' := upd_proc k4 np _).
    assert (Hk2 : view (proc_at k2' np) = (EMBRYO, Some me, p_chan (proc_at k1 np), p_kstack (proc_at k1 np), d, p_pid (proc_at k1 np)) /\
                  p_killed (proc_at k2' np) = p_killed (proc_at k1 np)).
    { unfold k2'. rewrite proc_at_upd by lia. unfold k2. rewrite proc_at_upd by (rewrite length_kmem; lia).
      change (proc_at (set_kmem k1 m) np) with (proc_at k1 np). unfold view. cbn. by rewrite Hs1. }
    destruct Hk2 as [Hk2 Hkk].
    assert (Hnpk : proc_at k' np = with_state (with_name (with_cwd (proc_at k3 np) (Some ip))
              (copy_name (p_name (with_cwd (proc_at k3 np) (Some ip))) (p_name cur))) RUNNABLE).
    { unfold k'. rewrite proc_at_upd by lia. done. }
    assert (Hv : forall p, p <> np -> same_view k k' p).
    { intros p Hp. unfold same_view, k'. rewrite proc_at_upd_ne by done.
      change (proc_at k4 p) with (proc_at k3 p). rewrite (Hv3 p).
      unfold k2'. rewrite proc_at_upd_ne by done. unfold k2. rewrite proc_at_upd_ne by done.
      change (proc_at (set_kmem k1 m) p) with (proc_at k1 p). by rewrite Hoth. }
    pose proof (view_inv _ _ (Hv3 np)) as (_ & Ep & _ & Eks & Epg & Epid & _).
    unfold view in Hk2. injection Hk2 as _ Hp2 _ Hks2 Hpg2 Hpid2.
    assert (Epid' : p_pid (proc_at k' np) = nextpid k) by (rewrite Hnpk; cbn; congruence).
    split; [|right; exists np].
    + apply (ptable_ok_add k k' (Some (np, me))); auto.
      * change (initproc k') with (initproc k3). by rewrite Hi3.
      * change (nextpid k') with (nextpid k3). rewrite Hn3. change (nextpid k2') with (nextpid k1). intros Ef. rewrite (Hn1' Ef). lia.
      * intros p Hp. left. apply Hv. by apply (Hp np me).
      * intros ? ? [= <- <-]. change (nextpid k') with (nextpid k3). rewrite Hn3.
        change (nextpid k2') with (nextpid k1). rewrite Epid', Hnpk. cbn. split_and!; auto; try congruence.
        intros Ef. specialize (Hn Ef). rewrite (Hn1' Ef). lia.
    + rewrite Epid', Hnpk. cbn. rewrite Hkl3. split_and!; auto; congruence.
Qed.
End fork.

(** ** exit *)

(** What the reparenting loop may do to a slot: its parent becomes init if it
    was [me], and a process asleep in init's [wait] wakes up. *)
Definition reparented (k k' : kern) (me : nat) (lo hi : nat) (q : nat) : Prop :=
  let x := proc_at k q in let x' := proc_at k' q in
  p_kstack x' = p_kstack x /\ p_pgdir x' = p_pgdir x /\ p_pid x' = p_pid x /\ p_chan x' = p_chan x /\
  p_parent x' = (if bool_decide (lo <= q < hi)%nat && bool_decide (p_parent x = Some me) then initproc k else p_parent x) /\
  (p_state x' = p_state x \/
   p_state x = SLEEPING /\ p_state x' = RUNNABLE /\ exists i, initproc k = Some i /\ p_chan x = Some (ChProc i)).

Lemma reparented_refl k me lo q : reparented k k me lo lo q.
Proof.
  unfold reparented. split_and!; auto. destruct (bool_decide_reflect (lo <= q < lo)%nat); [lia | done].
Qed.

Lemma proc_at_upd_full k p f q :
  (length (ptable k) <= p)%nat \/ q <> p /\ proc_at (upd_proc k p f) q = proc_at k q \/
  (p < length (ptable k))%nat /\ q = p /\ proc_at (upd_proc k p f) q = f (proc_at k p).
Proof.
  destruct (decide (p < length (ptable k))%nat); [|left; lia]. right.
  destruct (decide (q = p)) as [->|]; [right; by rewrite proc_at_upd | left; by rewrite proc_at_upd_ne].
Qed.

(** One turn of the loop. *)
Definition reparent1 (p me : nat) (k : kern) : kern :=
  if bool_decide (p_parent (proc_at k p) = Some me) then
    let k := upd_proc k p (fun x => with_parent x (initproc k)) in
    if bool_decide (p_state (proc_at k p) = ZOMBIE) then
      match initproc k with Some i => wakeup1 (ChProc i) k | None => k end
    else k
  else k.

Lemma reparent1_spec p me k : (p < length (ptable k))%nat ->
  let k' := reparent1 p me k in
  length (ptable k') = length (ptable k) /\ initproc k' = initproc k /\ nextpid k' = nextpid k /\
  (forall q, reparented k k' me p (S p) q) /\
  (p_parent (proc_at k p) = Some me -> p_state (proc_at k p) = ZOMBIE -> forall i q, initproc k = Some i ->
     ~ (p_state (proc_at k' q) = SLEEPING /\ p_chan (proc_at k' q) = Some (ChProc i))).
Proof.
  intros Hp. unfold reparent1. destruct (bool_decide_reflect (p_parent (proc_at k p) = Some me)) as [Hpar|Hpar].
  2: { split_and!; try done. intros q. unfold reparented. split_and!; auto.
       destruct (bool_decide_reflect (p <= q < S p)%nat); [|done]. assert (q = p) as -> by lia.
       by rewrite bool_decide_eq_false_2. }
  cbv zeta. set (k1 := upd_proc k p _).
  assert (Hk1 : forall q, reparented k k1 me p (S p) q /\ p_state (proc_at k1 q) = p_state (proc_at k q)).
  { intros q. unfold reparented, k1. destruct (decide (q = p)) as [->|Hq].
    - rewrite proc_at_upd by done. cbn. rewrite bool_decide_eq_true_2 by lia. rewrite bool_decide_eq_true_2 by done. auto 10.
    - rewrite proc_at_upd_ne by done. rewrite (bool_decide_eq_false_2 (p <= q < S p)%nat) by lia. auto 10. }
  assert (Hl : length (ptable k1) = length (ptable k)) by (unfold k1; by rewrite length_upd).
  change (initproc k1) with (initproc k).
  destruct (bool_decide_reflect (p_state (proc_at k1 p) = ZOMBIE)) as [Hz|Hz];
    [destruct (initproc k) as [i|] eqn:Ei|].
  - split_and!; auto; [by cbn; rewrite length_map| |].
    + intros q. destruct (Hk1 q) as [(A1 & A2 & A3 & A4 & A5 & _) Es]. unfold reparented.
      rewrite proc_at_wakeup. destruct (wake1_spec (ChProc i) (proc_at k1 q)) as [[-> _]|(-> & Hs & Hc)]; cbn; split_and!; auto.
      right. split_and!; [congruence | done|]. exists i. split; congruence.
    + intros _ _ j q [= <-] [Hs Hc]. rewrite proc_at_wakeup in *.
      destruct (wake1_spec (ChProc i) (proc_at k1 q)) as [[E Hn]|(E & _)]; rewrite E in *; [tauto | done].
  - split_and!; try done. intros q. apply Hk1.
  - split_and!; auto; [intros q; apply Hk1|]. intros _ Hz'. destruct (Hk1 p) as [_ E]. congruence.
Qed.

Lemma reparent_S n p me k : reparent (S n) p me k = reparent n (S p) me (reparent1 p me k).
Proof. reflexivity. Qed.

Lemma reparent_spec n : forall p me k, (p + n <= length (ptable k))%nat -> initproc k <> Some me ->
  let k' := reparent n p me k in
  length (ptable k') = length (ptable k) /\ initproc k' = initproc k /\ nextpid k' = nextpid k /\
  (forall q, reparented k k' me p (p + n) q) /\
  (forall q i, (p <= q < p + n)%nat -> p_parent (proc_at k q) = Some me -> p_state (proc_at k q) = ZOMBIE ->
     initproc k = Some i -> forall j, ~ (p_state (proc_at k' j) = SLEEPING /\ p_chan (proc_at k' j) = Some (ChProc i))).
Proof.
  induction n as [|n IH]; intros p me k Hlen Hinit; cbv zeta.
  { split_and!; auto; [intros q; rewrite Nat.add_0_r; apply reparented_refl | intros; lia]. }
  rewrite reparent_S. destruct (reparent1_spec p me k) as (L1 & I1 & N1 & R1 & W1); [lia|].
  set (k1 := reparent1 p me k) in *.
  destruct (IH (S p) me k1) as (L2 & I2 & N2 & R2 & W2); [lia | by rewrite I1|].
  set (k' := reparent n (S p) me k1) in *. rewrite L2, L1, I2, I1, N2, N1. split_and!; auto.
  - intros q. destruct (R1 q) as (A1 & A2 & A3 & A4 & A5 & A6), (R2 q) as (B1 & B2 & B3 & B4 & B5 & B6).
    unfold reparented. rewrite B1, B2, B3, B4, B5, A5, I1. split_and!; auto.
    + destruct (bool_decide_reflect (p_parent (proc_at k q) = Some me)) as [Hpm|Hpm]; rewrite ?andb_false_r, ?andb_true_r.
      * destruct (bool_decide_reflect (p <= q < S p)%nat), (bool_decide_reflect (S p <= q < S p + n)%nat),
          (bool_decide_reflect (p <= q < p + S n)%nat); try lia; cbn [andb]; try done.
        by rewrite bool_decide_eq_true_2.
      * rewrite (bool_decide_eq_false_2 (p_parent (proc_at k q) = Some me)) by done.
        rewrite andb_false_r. done.
    + rewrite I1, A4 in B6. destruct B6 as [B6|(S1 & S2 & i & Hi & Hc)], A6 as [A6|(T1 & T2 & T3)].
      * left. congruence.
      * right. split_and!; [done | congruence | done].
      * right. split_and!; [congruence | done|]. eauto.
      * congruence.
  - intros q i Hq Hpar Hz Hi j. destruct (decide (q = p)) as [->|Hne].
    + specialize (W1 Hpar Hz i j Hi). destruct (R2 j) as (_ & _ & _ & B4 & _ & B6). rewrite B4. intros [Hs Hc].
      destruct B6 as [B6|(_ & B6 & _)]; [apply W1; split; congruence | congruence].
    + destruct (R1 q) as (_ & _ & _ & _ & A5 & A6). apply (W2 q i); [lia | | | by rewrite I1].
      * rewrite A5. rewrite (bool_decide_eq_false_2 (p <= q < S p)%nat) by lia. done.
      * destruct A6 as [->|(T1 & _)]; [done | congruence].
Qed.

Lemma used_cases x x' : p_state x' = p_state x \/ p_state x = SLEEPING /\ p_state x' = RUNNABLE ->
  used x' = used x /\ alive x' = alive x /\ (p_state x' = UNUSED <-> p_state x = UNUSED) /\
  (p_state x' = ZOMBIE -> p_state x = ZOMBIE) /\ (p_state x' = SLEEPING -> p_state x = SLEEPING).
Proof. unfold used, alive. intros [->|[-> ->]]; split_and!; done. Qed.

Lemma exit_zombie_ok {fr} me k :
  ptable_ok fr k -> alive (proc_at k me) = true -> initproc k <> Some me -> ptable_ok fr (exit_zombie me k).
Proof.
  intros Hk0 Ha0 Hni. unfold exit_zombie.
  set (k1 := match p_parent (proc_at k me) with Some q => wakeup1 (ChProc q) k | None => k end).
  assert (Hk1 : ptable_ok fr k1) by (unfold k1; destruct (p_parent (proc_at k me)); [by apply wakeup1_ok | done]).
  assert (Hme : proc_at k1 me = wake1 (match p_parent (proc_at k me) with Some q => ChProc q | None => ChTicks end) (proc_at k me) \/
                proc_at k1 me = proc_at k me).
  { unfold k1. destruct (p_parent (proc_at k me)); [left; by rewrite proc_at_wakeup | by right]. }
  assert (Hmp : p_parent (proc_at k1 me) = p_parent (proc_at k me) /\ alive (proc_at k1 me) = true).
  { destruct Hme as [-> | ->]; [|done].
    destruct (wake1_spec (match p_parent (proc_at k me) with Some q => ChProc q | None => ChTicks end) (proc_at k me))
      as [[-> _]|(-> & _)]; done. }
  destruct Hmp as [Hmp Ha1]. assert (Hi1 : initproc k1 = initproc k) by (unfold k1; by destruct (p_parent (proc_at k me))).
  assert (Hwoken : forall q, p_parent (proc_at k1 me) = Some q -> ~ waiting k1 q).
  { intros q. rewrite Hmp. unfold k1. intros ->. unfold waiting. rewrite proc_at_wakeup. intros [Hs Hc].
    destruct (wake1_spec (ChProc q) (proc_at k q)) as [[E Hn]|(E & _)]; rewrite E in *; [tauto | done]. }
  rewrite <- Hi1 in Hni. clearbody k1. clear Hk0 Ha0 Hme Hmp Hi1 k. rename k1 into k, Hk1 into Hk, Ha1 into Ha.
  destruct (reparent_spec (length (ptable k)) 0 me k) as (L & I & N & R & W); [lia | done|].
  set (k2 := reparent (length (ptable k)) 0 me k) in *. rewrite Nat.add_0_l in R, W.
  pose proof Hk as [H1 H2 H3 H4 H5 H6 H7 H8].
  assert (Hml : (me < length (ptable k2))%nat) by (rewrite L; by apply alive_in).
  set (k' := upd_proc k2 me _).
  assert (Hmine : proc_at k' me = with_state (proc_at k2 me) ZOMBIE) by (unfold k'; by rewrite proc_at_upd).
  assert (Hother : forall q, q <> me -> proc_at k' q = proc_at k2 q) by (intros; unfold k'; by rewrite proc_at_upd_ne).
  assert (Hpar : forall q, p_parent (proc_at k' q) =
      if bool_decide (p_parent (proc_at k q) = Some me) then initproc k else p_parent (proc_at k q)).
  { intros q. destruct (R q) as (_ & _ & _ & _ & A5 & _).
    assert (E : p_parent (proc_at k' q) = p_parent (proc_at k2 q)).
    { destruct (decide (q = me)) as [->|]; [by rewrite Hmine | by rewrite Hother]. }
    rewrite E, A5. destruct (bool_decide_reflect (0 <= q < length (ptable k))%nat); [done|].
    rewrite proc_at_out by lia. done. }
  assert (Hst : forall q, q <> me -> p_state (proc_at k' q) = p_state (proc_at k q) \/
                 p_state (proc_at k q) = SLEEPING /\ p_state (proc_at k' q) = RUNNABLE).
  { intros q Hq. rewrite Hother by done. destruct (R q) as (_ & _ & _ & _ & _ & [?|(? & ? & _)]); auto. }
  assert (Hrest : forall q, p_kstack (proc_at k' q) = p_kstack (proc_at k q) /\ p_pgdir (proc_at k' q) = p_pgdir (proc_at k q) /\
                  p_pid (proc_at k' q) = p_pid (proc_at k q) /\ p_chan (proc_at k' q) = p_chan (proc_at k q)).
  { intros q. destruct (R q) as (? & ? & ? & ? & _). destruct (decide (q = me)) as [->|]; [by rewrite Hmine | by rewrite Hother]. }
  assert (Hused : forall q, used (proc_at k' q) = used (proc_at k q)).
  { intros q. destruct (decide (q = me)) as [->|Hq].
    - rewrite Hmine. unfold used at 1. cbn. symmetry. by apply alive_used.
    - by destruct (used_cases _ _ (Hst q Hq)) as (-> & _). }
  assert (Halive : forall q, q <> me -> alive (proc_at k' q) = alive (proc_at k q)).
  { intros q Hq. by destruct (used_cases _ _ (Hst q Hq)) as (_ & -> & _). }
  destruct H1 as (i & Hi & Hia & Hip). assert (Him : i <> me) by congruence.
  assert (Ei' : initproc k' = initproc k) by exact I. assert (En' : nextpid k' = nextpid k) by exact N.
  constructor; rewrite ?Ei', ?En'.
  - exists i. rewrite Hpar, Hip, Halive by done. auto.
  - intros p. rewrite Hused, Hpar. intros Hu. destruct (H2 p Hu) as [?|(q & Hq & Hqp & Hqa)]; [by left|]. right.
    rewrite Hq. destruct (bool_decide_reflect (Some q = Some me)) as [[= ->]|Hne].
    + exists i. rewrite Halive by done. split_and!; auto. intros ->. congruence.
    + exists q. rewrite Halive by congruence. auto.
  - intros p. rewrite Hused, Hpar. intros Hu. destruct (H3 p Hu) as [Hs ->].
    assert (Hpm : p <> me) by (intros ->; apply alive_used in Ha; congruence).
    split; [|done]. by apply (used_cases _ _ (Hst p Hpm)).
  - intros p. rewrite Hused. destruct (Hrest p) as (-> & -> & _). apply H4.
  - intros Ef p. rewrite Hused. destruct (Hrest p) as (_ & _ & -> & _). by apply H5.
  - intros Ef p q. rewrite !Hused. destruct (Hrest p) as (_ & _ & -> & _), (Hrest q) as (_ & _ & -> & _). by apply H6.
  - intros p q Hs. destruct (Hrest p) as (_ & _ & _ & ->).
    assert (Hpm : p <> me) by (intros ->; rewrite Hmine in Hs; done).
    apply H7. by apply (used_cases _ _ (Hst p Hpm)).
  - intros p q [Hs Hc]. destruct (Hrest p) as (_ & _ & _ & Ec). rewrite Ec in Hc.
    assert (Hpm : p <> me) by (intros ->; rewrite Hmine in Hs; done).
    assert (Hs0 : p_state (proc_at k p) = SLEEPING) by (by apply (used_cases _ _ (Hst p Hpm))).
    rewrite Hpar. intros Hq Hz. destruct (bool_decide_reflect (p_parent (proc_at k q) = Some me)) as [Hqm|Hqm].
    + assert (Hqne : q <> me).
      { intros ->. destruct (H2 me (alive_used _ Ha)) as [?|(r & Hr & Hrm & _)]; congruence. }
      apply (used_cases _ _ (Hst q Hqne)) in Hz.
      assert (Hql : (q < length (ptable k))%nat).
      { apply used_in. unfold used. by rewrite Hz. }
      apply (W q p) with (j := p); [lia | done | done | done|].
      rewrite Hother in Hs by done. split; [done|]. destruct (R p) as (_ & _ & _ & -> & _). done.
    + destruct (decide (q = me)) as [->|Hqne].
      * by apply (Hwoken p).
      * apply (used_cases _ _ (Hst q Hqne)) in Hz. revert Hz. apply (H8 p q); [by split | done].
Qed.

Section steps.
Context (kend data forkret : Z) (sb : superblock).

Definition same_table (k k' : kern) : Prop :=
  (forall p, same_view k k' p) /\ nextpid k' = nextpid k /\ initproc k' = initproc k /\
  length (ptable k') = length (ptable k).

#[local] Instance same_table_preorder : PreOrder same_table.
Proof.
  split; [by intros k|]. intros k1 k2 k3 (A1 & A2 & A3 & A4) (B1 & B2 & B3 & B4).
  split_and!; [|congruence..]. intros p. unfold same_view in *. by rewrite B1, A1.
Qed.

(** An update of fields the invariant does not read. *)
Lemma upd_same_table k s p f : (forall x, view (f x) = view x) -> same_table k (upd_proc (set_files k s) p f).
Proof.
  intros Hf. split_and!; [|done|done|by rewrite length_upd]. intros q. unfold same_view.
  destruct (decide (q = p)) as [->|]; [|by rewrite proc_at_upd_ne].
  destruct (decide (p < length (ptable k))%nat); [rewrite proc_at_upd by done; apply Hf|].
  rewrite !proc_at_out; [done | lia | rewrite length_upd; cbn; lia].
Qed.

Lemma same_table_ok {fr} k k' : ptable_ok fr k -> same_table k k' -> ptable_ok fr k'.
Proof. intros Hk (? & ? & ? & _). by apply (ptable_ok_same k). Qed.

Lemma exit_files_table n : forall fd me k k', exit_files kend sb n fd me k = Ok k' -> same_table k k'.
Proof.
  induction n as [|n IH]; intros fd me k k'; cbn [exit_files]; [by intros [= ->]|].
  intros (k1 & E1 & E)%rbind_Ok_inv. apply IH in E. etrans; [|exact E]. clear E.
  destruct (nth fd _ None) as [f|]; [|by injection E1 as ->].
  apply rbind_Ok_inv in E1 as (s & _ & [= <-]). by apply upd_same_table.
Qed.

Lemma exit_ok {fr} me k k' : ptable_ok fr k -> alive (proc_at k me) = true -> exit kend sb me k = Ok k' ->
  ptable_ok fr k' /\ initproc k <> Some me.
Proof.
  intros Hk Ha. unfold exit. destruct (bool_decide_reflect (initproc k = Some me)) as [|Hni]; [done|].
  intros (k1 & E1 & E)%rbind_Ok_inv. apply exit_files_table in E1.
  apply rbind_Ok_inv in E as (st & _ & [= <-]). split; [|done].
  set (k2 := upd_proc (set_files k1 _) me _).
  assert (E2 : same_table k k2) by (etrans; [exact E1 | by apply upd_same_table]).
  apply exit_zombie_ok.
  - by apply (same_table_ok k).
  - destruct E2 as (Hv & _). by destruct (view_inv _ _ (Hv me)) as (_ & _ & _ & _ & _ & _ & _ & ->).
  - by destruct E2 as (_ & _ & -> & _).
Qed.

(** The scan of [wait]: no zombie child up to here, or one reaped. *)
Lemma wait_scan_spec n : forall p me hk k r hk' k',
  wait_scan kend n p me hk k = Ok (r, hk', k') ->
  match r with
  | None => k' = k /\ (forall q, (p <= q < p + n)%nat -> p_parent (proc_at k q) = Some me -> p_state (proc_at k q) <> ZOMBIE) /\
            (hk' = true <-> hk = true \/ exists q, (p <= q < p + n)%nat /\ p_parent (proc_at k q) = Some me)
  | Some pid => exists q, (p <= q < p + n)%nat /\ p_parent (proc_at k q) = Some me /\ p_state (proc_at k q) = ZOMBIE /\
      p_pid (proc_at k q) = pid /\
      exists m, k' = upd_proc (set_kmem k m) q (fun x =>
        with_state (with_killed (with_name (with_parent (with_pid (with_kstack x 0) 0) None) (mset (p_name x) 0 0)) false) UNUSED)
  end.
Proof.
  induction n as [|n IH]; intros p me hk k r hk' k'; cbn [wait_scan].
  { intros [= <- <- <-]. split_and!; [done | lia|]. split; [auto | intros [?|(q & ? & _)]; [done | lia]]. }
  destruct (bool_decide_reflect (p_parent (proc_at k p) = Some me)) as [Hp|Hp]; cbn [negb].
  - destruct (bool_decide_reflect (p_state (proc_at k p) = ZOMBIE)) as [Hz|Hz].
    + intros (m1 & _ & E)%rbind_Ok_inv. apply rbind_Ok_inv in E as (m2 & _ & [= <- <- <-]).
      exists p. split_and!; auto; [lia|]. by exists m2.
    + intros E. apply IH in E. destruct r as [pid|].
      * destruct E as (q & ? & ? & ? & ? & ?). exists q. split_and!; auto; lia.
      * destruct E as (-> & Hno & Hhk). split_and!; [done| |].
        -- intros q Hq. destruct (decide (q = p)) as [->|]; [done | apply Hno; lia].
        -- rewrite Hhk. split; [intros _; right; exists p; auto with lia | auto].
  - intros E. apply IH in E. destruct r as [pid|].
    + destruct E as (q & ? & ? & ? & ? & ?). exists q. split_and!; auto; lia.
    + destruct E as (-> & Hno & Hhk). split_and!; [done| |].
      * intros q Hq. destruct (decide (q = p)) as [->|]; [done | apply Hno; lia].
      * rewrite Hhk. split; (intros [?|(q & ? & ?)]; [by left|]); right.
        -- exists q. auto with lia.
        -- destruct (decide (q = p)) as [->|]; [done|]. exists q. auto with lia.
Qed.

(** Reaping a zombie frees its slot. *)
Lemma reap_ok {fr} k k' q : ptable_ok fr k -> p_state (proc_at k q) = ZOMBIE -> initproc k' = initproc k -> nextpid k' = nextpid k ->
  (forall p, p <> q -> same_view k k' p) -> p_state (proc_at k' q) = UNUSED -> p_parent (proc_at k' q) = None ->
  ptable_ok fr k'.
Proof.
  intros [H1 H2 H3 H4 H5 H6 H7 H8] Hz Ei En Hv Hs Hp.
  assert (V := fun p Hne => view_inv _ _ (Hv p Hne)).
  assert (Hu : forall p, used (proc_at k' p) = true -> p <> q /\ used (proc_at k p) = true).
  { intros p Hu. assert (p <> q) by (intros ->; unfold used in Hu; by rewrite Hs in Hu).
    split; [done|]. by destruct (V p) as (_ & _ & _ & _ & _ & _ & <- & _). }
  assert (Ha : forall p, alive (proc_at k p) = true -> p <> q /\ alive (proc_at k' p) = true).
  { intros p Ha. assert (p <> q) by (intros ->; unfold alive in Ha; by rewrite Hz in Ha).
    split; [done|]. by destruct (V p) as (_ & _ & _ & _ & _ & _ & _ & ->). }
  constructor; rewrite ?Ei, ?En.
  - destruct H1 as (i & ? & Hi & ?). destruct (Ha i Hi) as [Hne ?]. exists i.
    destruct (V i Hne) as (_ & -> & _). auto.
  - intros p Hup. destruct (Hu p Hup) as [Hne Hup']. destruct (V p Hne) as (_ & -> & _).
    destruct (H2 p Hup') as [?|(r & ? & ? & Hr)]; [by left|]. right. exists r. by destruct (Ha r Hr).
  - intros p Hup. destruct (decide (p = q)) as [->|Hne]; [done|].
    destruct (V p Hne) as (-> & -> & _ & _ & _ & _ & E & _). apply H3. congruence.
  - intros p Hup. destruct (Hu p Hup) as [Hne Hup']. destruct (V p Hne) as (_ & _ & _ & -> & -> & _). auto.
  - intros Ef p Hup. destruct (Hu p Hup) as [Hne Hup']. destruct (V p Hne) as (_ & _ & _ & _ & _ & -> & _). auto.
  - intros Ef p p' Hup Hup'. destruct (Hu p Hup) as [Hne ?], (Hu p' Hup') as [Hne' ?].
    destruct (V p Hne) as (_ & _ & _ & _ & _ & -> & _), (V p' Hne') as (_ & _ & _ & _ & _ & -> & _). auto.
  - intros p p' Hsl. assert (Hne : p <> q) by congruence. destruct (V p Hne) as (E & _ & -> & _). apply H7. congruence.
  - intros p p' [Hsl Hc] Hpar Hz'. assert (Hne : p <> q) by congruence. assert (Hne' : p' <> q) by congruence.
    destruct (V p Hne) as (E & _ & E' & _), (V p' Hne') as (F & F' & _). apply (H8 p p'); [split|..]; congruence.
Qed.

Lemma wait_ok {fr} me k r k' : ptable_ok fr k -> alive (proc_at k me) = true -> wait kend me k = Ok (r, k') -> ptable_ok fr k'.
Proof.
  intros Hk Ha. unfold wait. intros ([[o hk] k1] & E1 & E)%rbind_Ok_inv. apply wait_scan_spec in E1.
  destruct o as [pid|].
  - injection E as <- <-. destruct E1 as (q & Hq & Hp & Hz & _ & m & ->).
    assert (Hql : (q < length (ptable (set_kmem k m)))%nat) by (rewrite length_kmem; lia).
    apply (reap_ok k _ q); auto.
    + intros p Hne. unfold same_view. by rewrite proc_at_upd_ne.
    + by rewrite proc_at_upd.
    + by rewrite proc_at_upd.
  - destruct E1 as (-> & Hno & _). destruct (negb hk || _); injection E as <- <-; [done|].
    apply ptable_ok_run; auto; try done. intros _. right. split; [done|]. intros q Hq.
    destruct (decide (q < length (ptable k))%nat); [apply Hno; auto with lia|].
    rewrite proc_at_out by lia. done.
Qed.

(** ** The system *)

(** One critical section; [me] is the running process that executes it. *)
Inductive kstep : kern -> kern -> Prop :=
| ks_fork k me r k' :
    p_state (proc_at k me) = RUNNING -> fork kend data forkret me k = Ok (r, k') -> kstep k k'
| ks_exit k me k' : p_state (proc_at k me) = RUNNING -> exit kend sb me k = Ok k' -> kstep k k'
| ks_wait k me r k' : p_state (proc_at k me) = RUNNING -> wait kend me k = Ok (r, k') -> kstep k k'
| ks_kill k pid r k' : kill pid k = (r, k') -> kstep k k'
| ks_sleep k me c : p_state (proc_at k me) = RUNNING -> (forall q, c <> ChProc q) -> kstep k (sleep me c k)
| ks_resume k me : p_state (proc_at k me) = RUNNING -> kstep k (sleep_done me k)
| ks_wakeup k c : kstep k (wakeup c k)
| ks_yield k me : p_state (proc_at k me) = RUNNING -> kstep k (yield me k)
| ks_schedule k p k' : scheduler p k = Ok k' -> kstep k k'.

Lemma running_alive x : p_state x = RUNNING -> alive x = true.
Proof. unfold alive. by intros ->. Qed.

Lemma kstep_ok {fr} k k' : kstep k k' -> (fr = true -> nextpid k < 2 ^ 31 - 1) -> ptable_ok fr k -> ptable_ok fr k'.
Proof.
  intros Hs Hn Hk. destruct Hs as [k me r k' Hr E|k me k' Hr E|k me r k' Hr E|k pid r k' E|k me c Hr Hc|k me Hr|k c|k me Hr|k p k' E];
    try apply running_alive in Hr as Ha.
  - eapply fork_ok in E as [? _]; [done..|].
    intros Ef. pose proof (pt_pid _ _ Hk Ef me (alive_used _ Ha)). specialize (Hn Ef). lia.
  - by eapply exit_ok in E as [? _].
  - by eapply wait_ok.
  - replace k' with (snd (kill pid k)) by (by rewrite E). by apply kill_ok.
  - by apply sleep_ok.
  - by apply sleep_done_ok.
  - by apply wakeup1_ok.
  - by apply yield_ok.
  - destruct (scheduler_ok p k Hk) as (k1 & E1 & ?). congruence.
Qed.

(** A step taken while the pid counter can still be incremented. *)
Definition kstep_fresh (k k' : kern) : Prop := kstep k k' /\ nextpid k < 2 ^ 31 - 1.

Lemma ptable_ok_weaken {fr} k : ptable_ok fr k -> ptable_ok false k.
Proof. intros []. by constructor. Qed.

Lemma ksteps_ok k k' : rtc kstep k k' -> ptable_ok false k -> ptable_ok false k'.
Proof. induction 1 as [|k k1 k' Hs _ IH]; [done|]. intros Hk. apply IH. by eapply kstep_ok. Qed.

Lemma ksteps_fresh_ok k k' : rtc kstep_fresh k k' -> ptable_ok true k -> ptable_ok true k'.
Proof. induction 1 as [|k k1 k' [Hs Hn] _ IH]; [done|]. intros Hk. apply IH. by eapply kstep_ok. Qed.

(** C10: in every state reached from a well-formed process table by forks,
    exits, waits, kills, sleeps, wakeups and scheduling in any order, however
    many processes were ever created: init is alive; every other process that
    is not freed, zombies included, has a live parent; and the scheduler's
    switch to any process never panics.  Process ids of existing processes are
    distinct and positive along every run in which the pid counter, an int
    that [allocproc] increments, has not reached 2^31 - 1; at that value the
    counter wraps to -2^31. *)
Theorem process_tree fr k k' :
  ptable_ok fr k -> rtc kstep k k' ->
  (exists i, initproc k' = Some i /\ alive (proc_at k' i) = true) /\
  (forall p, used (proc_at k' p) = true -> initproc k' = Some p \/
     exists q, p_parent (proc_at k' p) = Some q /\ q <> p /\ alive (proc_at k' q) = true) /\
  (forall p, exists k'', scheduler p k' = Ok k'') /\
  (fr = true -> rtc kstep_fresh k k' ->
     (forall p q, used (proc_at k' p) = true -> used (proc_at k' q) = true ->
        p_pid (proc_at k' p) = p_pid (proc_at k' q) -> p = q) /\
     (forall p, used (proc_at k' p) = true -> 0 < p_pid (proc_at k' p))).
Proof.
  intros Hk Hs. apply ksteps_ok in Hs as Hk'; [|by eapply ptable_ok_weaken]. pose proof Hk' as [H1 H2 _ _ _ _ _ _].
  split_and!; auto.
  - destruct H1 as (i & ? & ? & _). by exists i.
  - intros p. destruct (scheduler_ok p k' Hk') as (k'' & ? & _). by exists k''.
  - intros -> Hf. apply ksteps_fresh_ok in Hf as [_ _ _ _ H5 H6 _ _]; [|done].
    split; [by apply H6|]. intros p Hp. specialize (H5 eq_refl p Hp). lia.
Qed.

(** The first [allocproc] at 2^31 - 1 still hands out a positive id; the
    second one hands out -2^31, which [fork] returns to its caller as if it
    had failed. *)
Lemma nextpid_wraps k p k' : allocproc forkret k = (Some p, k') -> nextpid k = 2 ^ 31 - 1 ->
  p_pid (proc_at k' p) = 2 ^ 31 - 1 /\ nextpid k' = - 2 ^ 31.
Proof.
  intros E Hn. destruct (allocproc_spec forkret k _ _ E) as (_ & _ & [[_ ?]|(np & _ & _ & _ & Hn1 & _ & _ & Hpid & _ & _ & Hop)]); [done|].
  destruct Hop as [[? _]|([= ->] & _)]; [done|]. rewrite Hn1, Hpid, Hn. by vm_compute.
Qed.

(** C16: [wait] and [exit] lose no wakeup: whatever the interleaving, a process
    that is asleep in [wait] has no zombie child, so every exited child is
    reaped by the next scan of a parent that is awake. *)
Theorem wait_no_lost_wakeup fr k k' p q :
  ptable_ok fr k -> rtc kstep k k' ->
  p_state (proc_at k' p) = SLEEPING -> p_chan (proc_at k' p) = Some (ChProc p) ->
  p_parent (proc_at k' q) = Some p -> p_state (proc_at k' q) <> ZOMBIE.
Proof.
  intros Hk Hs H1 H2. apply ksteps_ok in Hs; [|by eapply ptable_ok_weaken]. apply (pt_wait _ _ Hs). by split.
Qed.

(** [kill(0)] is accepted and condemns a process that does not exist yet.
    Free slots have pid 0, so when every free slot does, the call returns 0 and
    sets [killed] in the first of them; [allocproc] does not clear the flag,
    and every later [fork] that succeeds in that state creates a child that is
    already marked killed. *)
Theorem kill_zero_dooms_child me k :
  ptable_ok true k -> alive (proc_at k me) = true -> 0 < nextpid k < 2 ^ 31 - 1 ->
  (forall p, p_state (proc_at k p) = UNUSED -> p_pid (proc_at k p) = 0) ->
  (exists p, (p < length (ptable k))%nat /\ p_state (proc_at k p) = UNUSED) ->
  fst (kill 0 k) = 0 /\
  forall r k', fork kend data forkret me (snd (kill 0 k)) = Ok (r, k') ->
    r = -1 \/ exists np, p_pid (proc_at k' np) = r /\ p_state (proc_at k' np) = RUNNABLE /\ p_killed (proc_at k' np) = true.
Proof.
  intros Hk Ha Hn Hpid (p & Hp & Hu).
  assert (Hscan : forall l i, (forall x, x ∈ l -> p_pid x = 0 <-> p_state x = UNUSED) -> kill_scan l i 0 = find_unused l i).
  { induction l as [|x l IH]; intros i Hx; [done|]. cbn [kill_scan find_unused].
    pose proof (Hx x ltac:(set_solver)) as Hxx. rewrite IH by (intros; apply Hx; set_solver).
    destruct (Z.eqb_spec (p_pid x) 0), (bool_decide_reflect (p_state x = UNUSED)); tauto. }
  assert (Heq : kill_scan (ptable k) 0 0 = find_unused (ptable k) 0).
  { apply Hscan. intros x (q & Hq)%list_elem_of_lookup. assert (E : proc_at k q = x) by (unfold proc_at; by rewrite (nth_lookup_Some _ _ _ _ Hq)).
    rewrite <- E. split; [|apply Hpid]. intros E0. destruct (used (proc_at k q)) eqn:Eu.
    - pose proof (pt_pid _ _ Hk eq_refl q Eu). lia.
    - by apply (pt_free _ _ Hk). }
  destruct (find_unused (ptable k) 0) as [np|] eqn:Efu.
  2: { pose proof (find_unused_spec (ptable k) 0) as H. rewrite Efu in H. exfalso. apply (H (proc_at k p)); [|done].
       unfold proc_at. apply list_elem_of_lookup. exists p. destruct (lookup_lt_is_Some_2 _ _ Hp) as [x Hx].
       by rewrite (nth_lookup_Some _ _ _ _ Hx). }
  destruct (find_unused_at k np Efu) as [Hnp Hst].
  pose proof (kill_ok 0 k Hk) as Hk1. unfold kill in *. rewrite Heq in *.
  set (k1 := upd_proc k np (fun x => with_killed x true)) in *.
  assert (E1 : proc_at k1 np = with_killed (proc_at k np) true) by (unfold k1; by rewrite proc_at_upd).
  rewrite (bool_decide_eq_false_2 (p_state (proc_at k1 np) = SLEEPING)) in * by (rewrite E1; cbn; congruence).
  cbn [fst snd] in *. split; [done|]. intros r k' E.
  assert (Hne : me <> np) by (intros ->; unfold alive in Ha; by rewrite Hst in Ha).
  eapply (@fork_ok _ _ _ true) in E as [_ [?|(np' & Hfu & _ & Hs & _ & Hr & _ & Hkl)]]; auto.
  - right. exists np'. split_and!; auto. rewrite Hkl. assert (np' = np) as ->; [|by rewrite E1].
    assert (Hsame : forall l i, find_unused (<[i := with_killed (nth i l no_proc) true]> l) 0 = find_unused l 0).
    { assert (H : forall l i j, find_unused (<[i := with_killed (nth i l no_proc) true]> l) j = find_unused l j).
      { induction l as [|x l IH]; intros i j; [done|]. destruct i as [|i]; cbn [find_unused nth list_insert insert]; [done|].
        destruct (bool_decide (p_state x = UNUSED)); [done | apply IH]. }
      intros l i. apply H. }
    change (ptable k1) with (<[np := with_killed (nth np (ptable k) no_proc) true]> (ptable k)) in Hfu.
    rewrite Hsame, Efu in Hfu. congruence.
  - unfold k1. by rewrite proc_at_upd_ne.
Qed.
End steps.

(** ** Witness: init asleep in [wait], one running child *)

Definition wit_init : proc :=
  mk_proc 4096 0x80400000 0x80401000 SLEEPING 1 None no_tf (mk_context 0 0 0 0 0) (Some (ChProc 0)) false (repeat None 16) (Some 0%nat) (fun _ => 0).
Definition wit_child : proc :=
  mk_proc 4096 0x80402000 0x80403000 RUNNING 2 (Some 0%nat) no_tf (mk_context 0 0 0 0 0) None false (repeat None 16) (Some 0%nat) (fun _ => 0).
Definition wit_fsys : fsys := mk_fsys (repeat no_file 4) ∅ kmem0 (mk_fs (mk_td (fun _ _ => 0) ∅) []) [].
Definition wit_kern : kern := mk_kern [wit_init; wit_child; no_proc; no_proc] 3 (Some 0%nat) wit_fsys.

Lemma wit_at p : proc_at wit_kern p = wit_init /\ p = 0%nat \/ proc_at wit_kern p = wit_child /\ p = 1%nat \/
  proc_at wit_kern p = no_proc /\ (2 <= p)%nat.
Proof.
  destruct p as [|[|[|[|p]]]]; [auto | auto | right; right; split; [done | lia].. |].
  right. right. split; [by destruct p | lia].
Qed.

Lemma wit_kern_ok : ptable_ok true wit_kern.
Proof.
  constructor.
  - exists 0%nat. done.
  - intros p. destruct (wit_at p) as [[-> ->]|[[-> ->]|[-> _]]]; [by left | right; by exists 0%nat | done].
  - intros p. destruct (wit_at p) as [[-> ->]|[[-> ->]|[-> _]]]; done.
  - intros p. destruct (wit_at p) as [[-> ->]|[[-> ->]|[-> _]]]; done.
  - intros _ p. destruct (wit_at p) as [[-> ->]|[[-> ->]|[-> _]]]; cbn; intros; [lia | lia | done].
  - intros _ p q. destruct (wit_at p) as [[-> ->]|[[-> ->]|[-> _]]], (wit_at q) as [[-> ->]|[[-> ->]|[-> _]]]; done.
  - intros p q. destruct (wit_at p) as [[-> ->]|[[-> ->]|[-> _]]]; cbn; congruence.
  - intros p q _. destruct (wit_at q) as [[-> ->]|[[-> ->]|[-> _]]]; done.
Qed.

Lemma process_tree_witness : (exists k'', scheduler 1 (yield 1 wit_kern) = Ok k'') /\
  (forall p, used (proc_at (yield 1 wit_kern) p) = true -> 0 < p_pid (proc_at (yield 1 wit_kern) p)).
Proof.
  destruct (process_tree 0 0 0 mkfs_sb true wit_kern (yield 1 wit_kern) wit_kern_ok) as (_ & _ & Hs & Hp).
  - eapply rtc_once, ks_yield. reflexivity.
  - split; [apply Hs|]. apply Hp; [reflexivity|]. apply rtc_once. split; [eapply ks_yield; reflexivity | cbn; lia].
Defined.

Lemma wait_no_lost_wakeup_witness : p_state (proc_at (yield 1 wit_kern) 1) <> ZOMBIE.
Proof.
  apply (wait_no_lost_wakeup 0 0 0 mkfs_sb true wit_kern (yield 1 wit_kern) 0 1 wit_kern_ok); [|reflexivity..].
  eapply rtc_once, ks_yield. reflexivity.
Defined.

Lemma kill_zero_dooms_child_witness : fst (kill 0 wit_kern) = 0.
Proof.
  apply (kill_zero_dooms_child 0 0 0 1 wit_kern wit_kern_ok).
  - reflexivity.
  - cbn. lia.
  - intros p. destruct (wit_at p) as [[-> ->]|[[-> ->]|[-> _]]]; done.
  - exists 2%nat. cbn. split; [lia | done].
Defined.
