(* ===== verification/ProcMem.v ===== *)
(** * Growing and shrinking a process (growproc of src/proc.c over src/vm.c)

    [growproc] composes the process table with the page-table operations: the
    theorems carry the address-space contracts of VmUser and VmCopy through
    the system call's state. *)

From S2P Require Import Prelude Layout StringLib Kalloc Pipe Blocks Balloc Fs File Vm VmSpec VmUser VmCopy Proc ProcSpec.

Section growproc.
Context (kend : Z) (Hkend : KERNBASE < kend).

(** The current process has a well-formed address space of [p_sz] bytes. *)
Definition proc_mem_ok (k : kern) (me : nat) (l : list Z) : Prop :=
  kinv kend (kmem_of k) l /\ uvm_ok kend (kram (kmem_of k)) (p_pgdir (proc_at k me)) l /\
  p_kstack (proc_at k me) <> 0 /\ (me < length (ptable k))%nat /\ 0 <= p_sz (proc_at k me) < KERNBASE /\
  (forall va, 0 <= va < KERNBASE -> p_sz (proc_at k me) <= va - va mod PGSIZE ->
     present (walk (kram (kmem_of k)) (p_pgdir (proc_at k me)) va) = false).

Lemma proc_mem_dir k me l : proc_mem_ok k me l -> p_pgdir (proc_at k me) <> 0.
Proof.
  intros (_ & Hu & _). pose proof (page_ok_nonzero kend _ (pt_dir _ _ _ _ (uv_pt _ _ _ _ Hu))). lia.
Qed.

(** A successful positive [growproc] returns 0 with the size increased by
    [n], the new pages zero and the old ones unchanged; when memory runs out or
    the size would reach the kernel half it returns -1 with the size and all
    user memory as before.  Pages are conserved either way. *)
Theorem growproc_grow me n k l :
  proc_mem_ok k me l -> 0 < n < 2 ^ 31 ->
  let pg := p_pgdir (proc_at k me) in let sz := p_sz (proc_at k me) in
  exists r k' l', growproc kend me n k = Ok (r, k') /\
    kinv kend (kmem_of k') l' /\ uvm_ok kend (kram (kmem_of k')) pg l' /\
    (forall p, pages pg (kmem_of k') l' p <-> pages pg (kmem_of k) l p) /\
    (forall va, 0 <= va < PGROUNDUP sz -> user_kept pg (kmem_of k) (kmem_of k') va) /\
    (r = 0 /\ sz + n < KERNBASE /\ p_sz (proc_at k' me) = sz + n /\
       (forall va, PGROUNDUP sz <= va -> va - va mod PGSIZE < sz + n ->
          present (walk (kram (kmem_of k')) pg va) = true /\ user_byte (kram (kmem_of k')) pg va = 0) \/
     r = -1 /\ p_sz (proc_at k' me) = sz /\
       (forall va, 0 <= va < KERNBASE -> PGROUNDUP sz <= va -> present (walk (kram (kmem_of k')) pg va) = false)).
Proof.
  intros Hm Hn pg sz. pose proof (proc_mem_dir _ _ _ Hm) as Hdir. destruct Hm as (Hi & Hu & Hks & Hlen & Hsz & Hno).
  fold pg sz in Hu, Hsz, Hno, Hdir.
  destruct (PGROUNDUP_spec sz) as [Hr1 Hr2]; [unfold KERNBASE, PGSIZE in *; lia|].
  assert (Hno' : forall va, 0 <= va < KERNBASE -> PGROUNDUP sz <= va -> present (walk (kram (kmem_of k)) pg va) = false).
  { intros va Hva Hr. apply Hno; [done|]. unfold PGSIZE in *. zdiv. }
  unfold growproc. fold pg sz. destruct (Z.ltb_spec 0 n); [|lia]. rewrite u32_small by (unfold KERNBASE in *; lia).
  unfold allocuvm. destruct (Z.leb_spec KERNBASE (sz + n)) as [HK|HK].
  { cbn [rbind]. rewrite Z.eqb_refl. exists (-1), (set_kmem k (kmem_of k)), l. split; [done|].
    change (kmem_of (set_kmem k (kmem_of k))) with (kmem_of k). split_and!; auto.
    intros. apply user_kept_refl. }
  destruct (Z.ltb_spec (sz + n) sz); [lia|].
  destruct (allocuvm_loop_ok kend Hkend (S (Z.to_nat ((sz + n) / PGSIZE))) pg (PGROUNDUP sz) sz (sz + n) (kmem_of k) l)
    as (r & m & l' & -> & [A1 A2 A3 A4 A5 A6]); auto; try lia.
  { rewrite Nat2Z.inj_succ, Z2Nat.id by (apply Z.div_pos; unfold PGSIZE; lia). unfold PGSIZE in *. zdiv. }
  { intros va Hva Hlo. apply Hno'; [|done]. unfold KERNBASE, PGSIZE in *. zdiv. }
  cbn [rbind]. assert (Hkeep : forall va, 0 <= va < PGROUNDUP sz -> user_kept pg (kmem_of k) m va).
  { intros va Hva. apply A5; [unfold KERNBASE, PGSIZE in *; lia | lia]. }
  destruct A6 as [(-> & _ & Hnew)|[-> Hnone]].
  - destruct (Z.eqb_spec (sz + n) 0) as [|_]; [lia|].
    rewrite proc_at_upd by exact Hlen. unfold switchuvm. cbn [p_kstack p_pgdir with_sz].
    change (proc_at (set_kmem k m) me) with (proc_at k me). fold pg.
    destruct (Z.eqb_spec (p_kstack (proc_at k me)) 0); [done|]. destruct (Z.eqb_spec pg 0); [done|].
    cbn [rbind]. eexists 0, _, l'. split; [reflexivity|].
    change (kmem_of (upd_proc (set_kmem k m) me _)) with m. split_and!; auto. left.
    rewrite proc_at_upd by exact Hlen. split_and!; auto. intros va Hva Hlo.
    destruct (Hnew va Hva Hlo) as [(q & Hq & ->) ->]. split; [|done]. by apply (user_entry_parts kend).
  - rewrite Z.eqb_refl. exists (-1), (set_kmem k m), l'. split; [done|].
    change (kmem_of (set_kmem k m)) with m. split_and!; auto. right. split_and!; auto.
    intros va Hva Hr. destruct (Z.lt_ge_cases (va - va mod PGSIZE) (sz + n)); [by apply Hnone|].
    destruct (A5 va) as [-> _]; [unfold KERNBASE in *; lia | by right |]. by apply Hno'.
Qed.

(** [sbrk] of minus the whole size reports failure after having done the
    work: [deallocuvm] returns the new size 0, which [growproc] takes for an
    error, so the call returns -1 and leaves [sz] at its old value while no
    user page is mapped any more. *)
Theorem growproc_to_zero me k l :
  proc_mem_ok k me l -> 0 < p_sz (proc_at k me) ->
  exists k', growproc kend me (- p_sz (proc_at k me)) k = Ok (-1, k') /\
    p_sz (proc_at k' me) = p_sz (proc_at k me) /\
    (forall va, 0 <= va < KERNBASE -> present (walk (kram (kmem_of k')) (p_pgdir (proc_at k me)) va) = false).
Proof.
  intros (Hi & Hu & Hks & Hlen & Hsz & Hno) Hpos. set (pg := p_pgdir (proc_at k me)) in *. set (sz := p_sz (proc_at k me)) in *.
  unfold growproc. fold pg sz. destruct (Z.ltb_spec 0 (- sz)); [lia|]. destruct (Z.ltb_spec (- sz) 0); [|lia].
  replace (sz + - sz) with 0 by lia. change (u32 0) with 0.
  destruct (deallocuvm_ok kend Hkend pg sz 0 (kmem_of k) l) as (m & l' & -> & R); auto; [lia | lia|].
  cbn [rbind]. rewrite Z.eqb_refl. exists (set_kmem k m). split; [done|]. split; [done|].
  change (kmem_of (set_kmem k m)) with m. change (PGROUNDUP 0) with 0 in R. intros va Hva.
  assert (Hva32 : 0 <= va < 2 ^ 32) by (unfold KERNBASE in *; lia).
  destruct (Z.lt_ge_cases (va - va mod PGSIZE) sz).
  - apply (rl_in _ _ _ _ _ _ _ _ R); auto. lia.
  - rewrite (rl_out _ _ _ _ _ _ _ _ R) by auto. by apply Hno.
Qed.
End growproc.

(** ** Witness: a process on the one-page address space *)

Definition wit_grow : kern :=
  mk_kern [mk_proc 4096 wit_dir 0x80400000 RUNNING 1 None no_tf (mk_context 0 0 0 0 0) None false (repeat None 16) None (fun _ => 0)]
    2 (Some 0%nat) (set_km wit_fsys wit_space).

Lemma wit_grow_ok : proc_mem_ok kend0 wit_grow 0 [wit_page 2].
Proof.
  split_and!; [exact wit_space_inv | exact wit_space_uvm | done | cbn; lia | cbn; unfold KERNBASE; lia..|].
  intros va Hva Hlo. change (kram (kmem_of wit_grow)) with wit_ram. change (p_pgdir (proc_at wit_grow 0)) with wit_dir.
  change (p_sz (proc_at wit_grow 0)) with 4096 in Hlo. unfold PGSIZE in Hlo.
  rewrite wit_ram_walk by (unfold KERNBASE in *; lia). destruct (Z.ltb_spec va 4096); [zdiv | done].
Qed.

Lemma growproc_grow_witness : exists r k', growproc kend0 0 100 wit_grow = Ok (r, k') /\ (r = 0 \/ r = -1).
Proof.
  destruct (growproc_grow kend0 kend0_high 0 100 wit_grow [wit_page 2] wit_grow_ok) as (r & k' & l' & E & _ & _ & _ & _ & H).
  - lia.
  - exists r, k'. split; [exact E|]. destruct H as [[-> _]|[-> _]]; [by left | by right].
Defined.

Lemma growproc_to_zero_witness : exists k', growproc kend0 0 (-4096) wit_grow = Ok (-1, k') /\ p_sz (proc_at k' 0) = 4096.
Proof.
  destruct (growproc_to_zero kend0 kend0_high 0 wit_grow [wit_page 2] wit_grow_ok) as (k' & E & Hs & _).
  - reflexivity.
  - exists k'. split; [exact E | exact Hs].
Defined.
