(* ===== verification/Syscall.v ===== *)
(** * System-call arguments and process system calls (src/syscall.c, src/sysproc.c)

    The kernel runs on the page table of the current process, so a user pointer
    is dereferenced through that table: [umem] is the memory a user address
    reads, [uwrite] stores through it, and a store to an address that is not
    mapped is a page fault in the kernel, which ends in panic("trap"). *)

From S2P Require Import Prelude Layout StringLib Kalloc Pipe Blocks Balloc Fs File Vm VmSpec VmUser Proc.

Definition umem (k : kern) (me : nat) : mem := user_byte (kram (kmem_of k)) (p_pgdir (proc_at k me)).

(** [l] stored at user address [va], page by page; [fuel] pages at most. *)
Fixpoint uwrite_pages (fuel : nat) (k : kern) (me : nat) (va : Z) (l : list Z) : res kern :=
  match fuel, l with
  | S f, _ :: _ =>
      let m := kmem_of k in let pg := p_pgdir (proc_at k me) in
      if present (walk (kram m) pg va) then
        let n := Z.to_nat (PGSIZE - va mod PGSIZE) in
        let c := take n l in
        let k := set_kmem k (with_ram m (mcopy (kram m) (pgof (walk (kram m) pg va) + va mod PGSIZE) (mwrite (fun _ => 0) 0 c) 0 (Z.of_nat (length c)))) in
        uwrite_pages f k me (va + Z.of_nat (length c)) (drop n l)
      else Panic "trap"
  | _, _ => Ok k
  end.
Definition uwrite (k : kern) (me : nat) (va : Z) (l : list Z) : res kern := uwrite_pages (length l) k me va l.

(** ** syscall.c: arguments *)

Section args.
Context (k : kern) (me : nat).

(** [Some v] when [*ip = v] and 0 is returned, [None] for -1. *)
Definition fetchint (addr : Z) : option Z :=
  if (p_sz (proc_at k me) <=? addr) || (p_sz (proc_at k me) <? u32 (addr + 4)) then None
  else Some (s32 (ld32 (umem k me) addr)).

(** [for(s = *pp; s < ep; s++) if( *s == 0) return s - *pp;] with [n] bytes left. *)
Fixpoint fetchstr_loop (n : nat) (s : Z) (len : Z) : option Z :=
  match n with
  | O => None
  | S n' => if umem k me s =? 0 then Some len else fetchstr_loop n' (s + 1) (len + 1)
  end.

(** The pointer and the length. *)
Definition fetchstr (addr : Z) : option (Z * Z) :=
  if p_sz (proc_at k me) <=? addr then None
  else match fetchstr_loop (Z.to_nat (p_sz (proc_at k me) - addr)) addr 0 with
       | Some len => Some (addr, len)
       | None => None
       end.

Definition argint (n : Z) : option Z := fetchint (u32 (tf_esp (p_tf (proc_at k me)) + 4 + 4 * n)).

Definition argptr (n size : Z) : option Z :=
  match argint n with
  | None => None
  | Some i =>
      if (size <? 0) || (p_sz (proc_at k me) <=? u32 i) || (p_sz (proc_at k me) <? u32 (u32 i + size)) then None
      else Some (u32 i)
  end.

Definition argstr (n : Z) : option (Z * Z) :=
  match argint n with
  | None => None
  | Some addr => fetchstr (u32 addr)
  end.

(** The bytes of a string argument. *)
Definition argpath (n : Z) : option (list Z) :=
  match argstr n with
  | None => None
  | Some (p, len) => Some (mread (umem k me) p (Z.to_nat len))
  end.
End args.

(** What a system call does: returns, goes to sleep (a pipe write with the bytes it
    still has to write) or ends the process. *)
Inductive sysret := SRet (v : Z) | SSleep (rest : list Z) | SExit.

(** ** sysproc.c *)

Section sysproc.
Context (kend data forkret : Z) (sb : superblock).

Definition sys_fork (me : nat) (k : kern) : res (sysret * kern) :=
  let* (r, k) := fork kend data forkret me k in Ok (SRet r, k).

Definition sys_exit (me : nat) (k : kern) : res (sysret * kern) :=
  let* k := exit kend sb me k in Ok (SExit, k).

Definition sys_wait (me : nat) (k : kern) : res (sysret * kern) :=
  let* (r, k) := wait kend me k in
  Ok (match r with WaitRet pid => SRet pid | WaitSleep => SSleep [] end, k).

Definition sys_kill (me : nat) (k : kern) : res (sysret * kern) :=
  match argint k me 0 with
  | None => Ok (SRet (-1), k)
  | Some pid => let (r, k) := kill pid k in Ok (SRet r, k)
  end.

Definition sys_getpid (me : nat) (k : kern) : res (sysret * kern) := Ok (SRet (p_pid (proc_at k me)), k).

Definition sys_sbrk (me : nat) (k : kern) : res (sysret * kern) :=
  match argint k me 0 with
  | None => Ok (SRet (-1), k)
  | Some n =>
      let addr := p_sz (proc_at k me) in
      let* (r, k) := growproc kend me n k in
      if r <? 0 then Ok (SRet (-1), k) else Ok (SRet (s32 addr), k)
  end.

(** [ticks0] is [ticks] when the call started; the comparison is unsigned. *)
Definition sys_sleep (ticks0 ticks : Z) (me : nat) (k : kern) : res (sysret * kern) :=
  match argint k me 0 with
  | None => Ok (SRet (-1), k)
  | Some n =>
      if u32 (ticks - ticks0) <? u32 n then
        if p_killed (proc_at k me) then Ok (SRet (-1), k) else Ok (SSleep [], sleep me ChTicks k)
      else Ok (SRet 0, k)
  end.

Definition sys_uptime (ticks : Z) (k : kern) : res (sysret * kern) := Ok (SRet (s32 ticks), k).

(** [cmostime(r)] stores the six words of a [struct rtcdate] through [r]. *)
Record rtcdate := mk_rtcdate { rd_second : Z; rd_minute : Z; rd_hour : Z; rd_day : Z; rd_month : Z; rd_year : Z }.

Definition word_bytes (v : Z) : list Z := [v mod 256; v / 2 ^ 8 mod 256; v / 2 ^ 16 mod 256; v / 2 ^ 24 mod 256].
Definition rtcdate_bytes (r : rtcdate) : list Z :=
  word_bytes (rd_second r) ++ word_bytes (rd_minute r) ++ word_bytes (rd_hour r) ++
  word_bytes (rd_day r) ++ word_bytes (rd_month r) ++ word_bytes (rd_year r).

Definition SIZEOF_PTR : Z := 4.

(** [sizeof(r)] is the size of the pointer. *)
Definition sys_date (now : rtcdate) (me : nat) (k : kern) : res (sysret * kern) :=
  match argptr k me 0 SIZEOF_PTR with
  | None => Ok (SRet (-1), k)
  | Some r => let* k := uwrite k me r (rtcdate_bytes now) in Ok (SRet 0, k)
  end.
End sysproc.
