(* ===== verification/SyscallSpec.v ===== *)
(** * The system-call boundary: what the kernel checks and what it stores

    Pointer arguments that pass the checks of src/syscall.c lie in the process;
    a store through such a pointer reaches exactly its bytes; and [sys_date]
    (src/sysproc.c), which checks too few bytes, faults in the kernel. *)

From S2P Require Import Prelude Layout StringLib Kalloc Pipe Blocks Balloc Fs File Vm VmSpec VmUser VmCopy Proc ProcSpec ProcMem Syscall.

(** ** Argument checking is sound *)

Lemma fetchstr_loop_spec k me n s len r : fetchstr_loop k me n s len = Some r ->
  len <= r < len + Z.of_nat n /\ umem k me (s + (r - len)) = 0 /\
  (forall i, len <= i < r -> umem k me (s + (i - len)) <> 0).
Proof.
  revert s len. induction n as [|n IH]; intros s len; cbn [fetchstr_loop]; [done|].
  destruct (Z.eqb_spec (umem k me s) 0) as [E|E].
  - intros [= <-]. split_and!; [lia | lia | by rewrite Z.sub_diag, Z.add_0_r | lia].
  - intros H. apply IH in H as (Hr & H0 & Hn). split_and!; [lia | lia| |].
    + rewrite <- H0. f_equal. lia.
    + intros i Hi. destruct (Z.eq_dec i len) as [->|]; [by rewrite Z.sub_diag, Z.add_0_r|].
      replace (s + (i - len)) with (s + 1 + (i - (len + 1))) by lia. apply Hn. lia.
Qed.

Lemma fetchstr_loop_none k me n s len : fetchstr_loop k me n s len = None ->
  forall i, 0 <= i < Z.of_nat n -> umem k me (s + i) <> 0.
Proof.
  revert s len. induction n as [|n IH]; intros s len; cbn [fetchstr_loop]; [lia|].
  destruct (Z.eqb_spec (umem k me s) 0) as [E|E]; [done|]. intros H i Hi.
  destruct (Z.eq_dec i 0) as [->|]; [by rewrite Z.add_0_r|].
  replace (s + i) with (s + 1 + (i - 1)) by lia. eapply IH; [exact H | lia].
Qed.

Lemma argptr_inside k me n size p : 0 <= p_sz (proc_at k me) <= KERNBASE -> 0 <= size < 2 ^ 31 ->
  argptr k me n size = Some p -> 0 <= p /\ p + size <= p_sz (proc_at k me).
Proof.
  intros Hsz Hs. unfold KERNBASE in Hsz. unfold argptr. destruct (argint k me n) as [i|]; [|done].
  pose proof (u32_range i). zcases; cbn [orb]; intros; try done. simplify_eq.
  match goal with H : u32 (u32 i + size) <= _ |- _ => rewrite u32_small in H by lia end. lia.
Qed.

(** Pointers the kernel accepts from a process lie inside it.  For a process
    below the kernel half, an accepted block argument is inside [0, sz) with
    all its bytes although the sums are 32-bit; an accepted word argument was
    read from inside; an accepted string is NUL-terminated inside and its
    length is the distance to its first NUL, and a string is rejected only
    when its address or every byte up to [sz] fails that. *)
Theorem syscall_args_in_bounds k me :
  0 <= p_sz (proc_at k me) <= KERNBASE ->
  (forall n size p, 0 <= size < 2 ^ 31 -> argptr k me n size = Some p -> 0 <= p /\ p + size <= p_sz (proc_at k me)) /\
  (forall addr v, 0 <= addr < 2 ^ 32 -> fetchint k me addr = Some v -> addr + 4 <= p_sz (proc_at k me)) /\
  (forall addr p len, 0 <= addr < 2 ^ 32 -> fetchstr k me addr = Some (p, len) ->
     p = addr /\ 0 <= len /\ p + len < p_sz (proc_at k me) /\ umem k me (p + len) = 0 /\
     (forall i, 0 <= i < len -> umem k me (p + i) <> 0)) /\
  (forall addr, 0 <= addr < 2 ^ 32 -> fetchstr k me addr = None ->
     p_sz (proc_at k me) <= addr \/ forall a, addr <= a < p_sz (proc_at k me) -> umem k me a <> 0).
Proof.
  intros Hsz. unfold KERNBASE in Hsz. split_and!.
  - intros n size p Hs. apply argptr_inside; [unfold KERNBASE; lia | done].
  - intros addr v Ha. unfold fetchint. destruct (Z.leb_spec (p_sz (proc_at k me)) addr); cbn [orb]; [done|].
    rewrite u32_small by lia. destruct (Z.ltb_spec (p_sz (proc_at k me)) (addr + 4)); [done | intros _; lia].
  - intros addr p len Ha. unfold fetchstr. destruct (Z.leb_spec (p_sz (proc_at k me)) addr); [done|].
    destruct (fetchstr_loop _ _ _ _ _) as [r|] eqn:E; [|done]. intros [= <- <-].
    apply fetchstr_loop_spec in E as (Hr & H0 & Hn). rewrite Z2Nat.id in Hr by lia.
    rewrite Z.sub_0_r in H0. split_and!; [done | lia | lia | done|].
    intros i Hi. specialize (Hn i ltac:(lia)). by rewrite Z.sub_0_r in Hn.
  - intros addr Ha. unfold fetchstr. destruct (Z.leb_spec (p_sz (proc_at k me)) addr); [by left|].
    destruct (fetchstr_loop _ _ _ _ _) as [r|] eqn:E; [done|]. intros _. right. intros a Hr.
    pose proof (fetchstr_loop_none _ _ _ _ _ E (a - addr)) as H'. rewrite Z2Nat.id in H' by lia.
    replace (addr + (a - addr)) with a in H' by lia. apply H'. lia.
Qed.

(** ** Stores through user pointers *)

Section store.
Context (kend : Z).

Lemma set_kmem_same k : set_kmem k (kmem_of k) = k.
Proof. destruct k as [? ? ? []]. reflexivity. Qed.

Lemma byte_mem_mwrite m a l : byte_mem m -> Forall (fun c => 0 <= c < 256) l -> byte_mem (mwrite m a l).
Proof.
  intros Hm Hl x. unfold mwrite. destruct (Z.leb_spec a x), (Z.ltb_spec x (a + Z.of_nat (length l))); cbn [andb]; try apply Hm.
  destruct (nth_lookup_or_length l (Z.to_nat (x - a)) 0) as [E|]; [|lia]. rewrite Forall_lookup in Hl. by apply (Hl _ _ E).
Qed.

(** The first chunk of a store: the bytes up to the end of the page. *)
Lemma uwrite_chunk me c l f va k fl :
  let m := kmem_of k in let pg := p_pgdir (proc_at k me) in
  kinv kend m fl -> uvm_ok kend (kram m) pg fl -> Forall (fun c => 0 <= c < 256) (c :: l) ->
  0 <= va -> va + Z.of_nat (length (c :: l)) <= KERNBASE -> present (walk (kram m) pg va) = true ->
  let n := Z.to_nat (PGSIZE - va mod PGSIZE) in let ch := take n (c :: l) in
  exists m1, uwrite_pages (S f) k me va (c :: l) = uwrite_pages f (set_kmem k m1) me (va + Z.of_nat (length ch)) (drop n (c :: l)) /\
    (1 <= length ch)%nat /\ (va mod PGSIZE + Z.of_nat (length ch) <= PGSIZE) /\ kinv kend m1 fl /\ uvm_ok kend (kram m1) pg fl /\
    (forall v, walk (kram m1) pg v = walk (kram m) pg v) /\
    (forall v, 0 <= v < KERNBASE -> present (walk (kram m) pg v) = true ->
       user_byte (kram m1) pg v = if (va <=? v) && (v <? va + Z.of_nat (length ch)) then nth (Z.to_nat (v - va)) ch 0 else user_byte (kram m) pg v) /\
    (forall x, ~ in_page (pgof (walk (kram m) pg va)) x -> kram m1 x = kram m x).
Proof.
  intros m pg Hi Hu Hb Hva Hend Hp n ch. pose proof (Z.mod_pos_bound va PGSIZE ltac:(unfold PGSIZE; lia)) as Hm.
  assert (Hlen : (1 <= length ch <= n)%nat) by (subst ch n; rewrite length_take; cbn [length]; unfold PGSIZE in *; lia).
  assert (Hl : (length ch <= length (c :: l))%nat) by (subst ch; rewrite length_take; lia).
  destruct (store_user kend pg va m fl (mwrite (fun _ => 0) 0 ch) 0 (Z.of_nat (length ch))) as (Hi1 & Hu1 & Hw1 & Hb1 & Hf1); auto; try (subst n; lia).
  { apply byte_mem_mwrite; [by intros ? | by apply Forall_take]. }
  eexists. cbn [uwrite_pages]. fold m pg. rewrite Hp. split; [reflexivity|]. split_and!; eauto; try (subst n; lia).
  intros v Hv Hpv. rewrite Hb1 by done. destruct (Z.leb_spec va v), (Z.ltb_spec v (va + Z.of_nat (length ch))); cbn [andb]; try done.
  unfold mwrite. destruct (Z.leb_spec 0 (0 + (v - va))), (Z.ltb_spec (0 + (v - va)) (0 + Z.of_nat (length ch))); cbn [andb]; try lia. do 2 f_equal. lia.
Qed.

Lemma uwrite_pages_ok me f : forall l va k fl,
  let m := kmem_of k in let pg := p_pgdir (proc_at k me) in (length l <= f)%nat ->
  kinv kend m fl -> uvm_ok kend (kram m) pg fl -> Forall (fun c => 0 <= c < 256) l ->
  0 <= va -> va + Z.of_nat (length l) <= KERNBASE ->
  (forall v, va <= v < va + Z.of_nat (length l) -> present (walk (kram m) pg v) = true) ->
  exists m', uwrite_pages f k me va l = Ok (set_kmem k m') /\ kinv kend m' fl /\ uvm_ok kend (kram m') pg fl /\
    (forall v, walk (kram m') pg v = walk (kram m) pg v) /\
    (forall v, 0 <= v < KERNBASE -> present (walk (kram m) pg v) = true ->
       user_byte (kram m') pg v = if (va <=? v) && (v <? va + Z.of_nat (length l))
         then nth (Z.to_nat (v - va)) l 0 else user_byte (kram m) pg v) /\
    (forall x, (forall p, umapped (kram m) pg p -> ~ in_page p x) -> kram m' x = kram m x).
Proof.
  induction f as [|f IH]; intros [|c l] va k fl m pg Hf Hi Hu Hb Hva Hend Hp; try (cbn [length] in Hf; lia).
  1, 2: exists m; subst m; rewrite set_kmem_same; split; [reflexivity|]; split_and!; auto; intros v Hv Hpv; cbn [length] in *;
    destruct (Z.leb_spec va v), (Z.ltb_spec v (va + Z.of_nat 0)); cbn [andb]; try done; lia.
  destruct (uwrite_chunk me c l f va k fl Hi Hu Hb Hva Hend) as (m1 & -> & Hc & Hfit & Hi1 & Hu1 & Hw1 & Hb1 & Hf1); [apply Hp; cbn [length]; lia|]. fold m pg in Hu1, Hw1, Hb1, Hf1.
  set (n := Z.to_nat (PGSIZE - va mod PGSIZE)) in *. set (ch := take n (c :: l)) in *.
  assert (Hsum : (length ch + length (drop n (c :: l)) = length (c :: l))%nat) by (subst ch; rewrite <- length_app, take_drop; done).
  destruct (IH (drop n (c :: l)) (va + Z.of_nat (length ch)) (set_kmem k m1) fl) as (m' & E & Hi' & Hu' & Hw' & Hb' & Hf');
    change (kmem_of (set_kmem k m1)) with m1 in *; change (proc_at (set_kmem k m1) me) with (proc_at k me) in *; auto; try lia.
  { by apply Forall_drop. }
  { intros v Hv. fold pg. rewrite Hw1. apply Hp. lia. }
  fold pg in Hu', Hw', Hb', Hf'. exists m'. rewrite E. split; [reflexivity|]. split_and!; auto.
  - intros v. by rewrite Hw', Hw1.
  - assert (Hnth : forall i, nth i (c :: l) 0 = nth i (ch ++ drop n (c :: l)) 0) by (intros i; subst ch; by rewrite take_drop).
    intros v Hv Hpv. rewrite Hb', Hb1 by (rewrite ?Hw1; auto).
    destruct (Z.leb_spec (va + Z.of_nat (length ch)) v), (Z.ltb_spec v (va + Z.of_nat (length ch) + Z.of_nat (length (drop n (c :: l))))), (Z.leb_spec va v),
      (Z.ltb_spec v (va + Z.of_nat (length (c :: l)))), (Z.ltb_spec v (va + Z.of_nat (length ch))); cbn [andb]; try done; try lia.
    + rewrite (Hnth (Z.to_nat (v - va))), app_nth2 by lia. f_equal. lia.
    + rewrite (Hnth (Z.to_nat (v - va))), app_nth1 by lia. done.
  - intros x Hx. rewrite Hf'; [apply Hf1, Hx|].
    + exists va. split_and!; [lia | cbn [length] in *; lia | apply Hp; cbn [length]; lia | reflexivity].
    + intros p (v & Hv & Hpv & ->). apply Hx. exists v. rewrite Hw1 in *. done.
Qed.

(** A store that reaches a page that is not there faults. *)
Lemma uwrite_pages_faults me e f : forall l va k fl,
  let m := kmem_of k in let pg := p_pgdir (proc_at k me) in (length l <= f)%nat ->
  kinv kend m fl -> uvm_ok kend (kram m) pg fl -> Forall (fun c => 0 <= c < 256) l -> 0 <= va -> va + Z.of_nat (length l) <= KERNBASE ->
  e mod PGSIZE = 0 -> va <= e < va + Z.of_nat (length l) -> (forall v, va <= v < e -> present (walk (kram m) pg v) = true) -> present (walk (kram m) pg e) = false ->
  uwrite_pages f k me va l = Panic "trap".
Proof.
  induction f as [|f IH]; intros [|c l] va k fl m pg Hf Hi Hu Hb Hva Hend He Hr Hp Hn; try (cbn [length] in *; lia).
  destruct (Z.eq_dec va e) as [->|Hne]; [cbn [uwrite_pages]; fold m pg; by rewrite Hn|].
  destruct (uwrite_chunk me c l f va k fl Hi Hu Hb Hva Hend) as (m1 & -> & Hc & Hfit & Hi1 & Hu1 & Hw1 & _); [apply Hp; lia|]. fold m pg in Hu1, Hw1.
  set (n := Z.to_nat (PGSIZE - va mod PGSIZE)) in *. set (ch := take n (c :: l)) in *.
  assert (Hsum : (length ch + length (drop n (c :: l)) = length (c :: l))%nat) by (subst ch; rewrite <- length_app, take_drop; done).
  assert (Hle : va + Z.of_nat (length ch) <= e) by (clear - Hfit He Hr Hne Hva; unfold PGSIZE in *; zdiv).
  apply (IH (drop n (c :: l)) (va + Z.of_nat (length ch)) (set_kmem k m1) fl); change (kmem_of (set_kmem k m1)) with m1; change (proc_at (set_kmem k m1) me) with (proc_at k me); auto; try lia.
  - by apply Forall_drop.
  - intros v Hv. fold pg. rewrite Hw1. apply Hp. lia.
  - fold pg. by rewrite Hw1.
Qed.

(** Every byte below the size of the process is mapped. *)
Definition proc_mapped (k : kern) (me : nat) : Prop := forall va, 0 <= va < p_sz (proc_at k me) ->
  present (walk (kram (kmem_of k)) (p_pgdir (proc_at k me)) va) = true.

(** A store through a pointer that [argptr] accepted cannot fault and
    changes exactly the accepted bytes: for any bytes that fit the checked
    size, the store completes, the process reads them back at the pointer, no
    other user byte, translation or free page changes, and neither does any
    memory outside the pages of the process. *)
Theorem argptr_store_safe me k fl n size p l :
  proc_mem_ok kend k me fl -> proc_mapped k me -> 0 <= size < 2 ^ 31 ->
  argptr k me n size = Some p -> Z.of_nat (length l) <= size -> Forall (fun c => 0 <= c < 256) l ->
  exists k', uwrite k me p l = Ok k' /\ proc_mem_ok kend k' me fl /\ proc_mapped k' me /\ ptable k' = ptable k /\
    (forall v, 0 <= v < p_sz (proc_at k me) -> umem k' me v =
       if (p <=? v) && (v <? p + Z.of_nat (length l)) then nth (Z.to_nat (v - p)) l 0 else umem k me v) /\
    (forall x, (forall q, umapped (kram (kmem_of k)) (p_pgdir (proc_at k me)) q -> ~ in_page q x) ->
       kram (kmem_of k') x = kram (kmem_of k) x).
Proof.
  intros (Hi & Hu & Hks & Hlen & Hsz & Hno) Hmap Hs Ha Hl Hb.
  apply argptr_inside in Ha as [Hp0 Hp1]; [|lia | done].
  destruct (uwrite_pages_ok me (length l) l p k fl) as (m & E & Hi' & Hu' & Hw & Hby & Hfr); auto; try lia.
  { intros v Hv. apply Hmap. lia. }
  exists (set_kmem k m). split; [exact E|].
  assert (Hat : forall q, proc_at (set_kmem k m) q = proc_at k q) by done.
  change (kmem_of (set_kmem k m)) with m in *. split_and!; auto.
  - unfold proc_mem_ok. rewrite Hat. change (kmem_of (set_kmem k m)) with m. split_and!; auto; try lia.
    intros va Hva Hlo. rewrite Hw. by apply Hno.
  - intros va. rewrite Hat. change (kmem_of (set_kmem k m)) with m. rewrite Hw. apply Hmap.
  - intros v Hv. unfold umem. rewrite Hat. change (kmem_of (set_kmem k m)) with m. apply Hby; [lia | by apply Hmap].
Qed.

(** C40: [date] crashes the kernel from user space.  [sys_date] asks [argptr] for
    the 4 bytes of a pointer and stores a 24-byte [struct rtcdate]: a process
    that passes a pointer its last mapped bytes accept, but whose 24 bytes
    reach the page after them, makes the kernel fault and panic, whatever the
    time is. *)
Theorem sys_date_overrun me now k fl p :
  proc_mem_ok kend k me fl -> proc_mapped k me ->
  argptr k me 0 SIZEOF_PTR = Some p -> PGROUNDUP (p_sz (proc_at k me)) < p + 24 -> p + 24 <= KERNBASE ->
  sys_date now me k = Panic "trap".
Proof.
  intros (Hi & Hu & Hks & Hlen & Hsz & Hno) Hmap Ha Hr Hend. unfold sys_date. rewrite Ha.
  apply argptr_inside in Ha as [Hp0 Hp1]; [|lia | unfold SIZEOF_PTR; lia]. unfold SIZEOF_PTR in Hp1.
  destruct (PGROUNDUP_spec (p_sz (proc_at k me))) as [Hr1 Hr2]; [unfold KERNBASE, PGSIZE in *; lia|].
  set (e := PGROUNDUP (p_sz (proc_at k me))) in *. set (l := rtcdate_bytes now).
  assert (Hlb : length l = 24%nat) by reflexivity.
  assert (Hb : Forall (fun c => 0 <= c < 256) l).
  { unfold l, rtcdate_bytes, word_bytes. cbn [app]. repeat constructor; apply Z.mod_pos_bound; lia. }
  unfold uwrite. rewrite (uwrite_pages_faults me e (length l) l p k fl); auto; try lia.
  - intros v Hv. assert (Hd : 0 <= v - v mod PGSIZE < p_sz (proc_at k me)) by (subst e; unfold PGSIZE in *; zdiv).
    rewrite (walk_same_page _ _ v (v - v mod PGSIZE)); [by apply Hmap | unfold KERNBASE, PGSIZE in *; zdiv..].
  - rewrite Hno; [done | lia | rewrite Hr2; lia].
Qed.
End store.

(** ** Witness: the one-page process, with an argument on its stack *)

(** %esp at 4080: the first argument word is at 4084 and holds 4088. *)
Definition wit_arg : kern :=
  upd_proc (set_kmem wit_grow (with_ram wit_space (mcopy wit_ram (wit_page 1 + 4084) (st32 (fun _ => 0) 0 4088) 0 4))) 0
    (fun x => with_tf x (set_esp (p_tf x) 4080)).

Lemma wit_arg_walk v : 0 <= v < 2 ^ 32 -> walk (kram (kmem_of wit_arg)) wit_dir v = if v <? 4096 then Z.lor (V2P (wit_page 1)) 7 else 0.
Proof.
  intros Hv. destruct (store_user kend0 wit_dir 4084 wit_space [wit_page 2] (st32 (fun _ => 0) 0 4088) 0 4) as (_ & _ & Hw & _);
    [exact wit_space_inv | exact wit_space_uvm | | unfold KERNBASE; lia | apply wit_space_present; [lia | reflexivity]
    | lia | by vm_compute |].
  { by apply byte_mem_st32. }
  transitivity (walk wit_ram wit_dir v); [exact (Hw v) | by apply wit_ram_walk].
Qed.

Lemma wit_arg_ok : proc_mem_ok kend0 wit_arg 0 [wit_page 2] /\ proc_mapped wit_arg 0.
Proof.
  destruct (store_user kend0 wit_dir 4084 wit_space [wit_page 2] (st32 (fun _ => 0) 0 4088) 0 4) as (Hi & Hu & _);
    [exact wit_space_inv | exact wit_space_uvm | | unfold KERNBASE; lia | apply wit_space_present; [lia | reflexivity]
    | lia | by vm_compute |].
  { by apply byte_mem_st32. }
  split; [split_and!|].
  - exact Hi.
  - exact Hu.
  - done.
  - cbn. lia.
  - cbn. lia.
  - cbn. unfold KERNBASE. lia.
  - intros va Hva Hlo. change (p_pgdir (proc_at wit_arg 0)) with wit_dir. rewrite wit_arg_walk by (unfold KERNBASE in *; lia).
    change (p_sz (proc_at wit_arg 0)) with 4096 in Hlo. unfold PGSIZE in Hlo. destruct (Z.ltb_spec va 4096); [zdiv | done].
  - intros va Hva. change (p_pgdir (proc_at wit_arg 0)) with wit_dir. change (p_sz (proc_at wit_arg 0)) with 4096 in Hva.
    rewrite wit_arg_walk by lia. by destruct (Z.ltb_spec va 4096); [|lia].
Qed.

Lemma wit_arg_ptr : argptr wit_arg 0 0 4 = Some 4088.
Proof. vm_compute. reflexivity. Qed.

Lemma syscall_args_in_bounds_witness : 0 <= 4088 /\ 4088 + 4 <= 4096.
Proof.
  assert (Hsz : 0 <= p_sz (proc_at wit_arg 0) <= KERNBASE) by (cbn; unfold KERNBASE; lia).
  apply (proj1 (syscall_args_in_bounds wit_arg 0 Hsz) 0 4 4088); [lia | exact wit_arg_ptr].
Defined.

Lemma argptr_store_safe_witness : exists k', uwrite wit_arg 0 4088 [1; 2; 3] = Ok k' /\ umem k' 0 4089 = 2.
Proof.
  destruct wit_arg_ok as [H1 H2].
  destruct (argptr_store_safe kend0 0 wit_arg [wit_page 2] 0 4 4088 [1; 2; 3] H1 H2) as (k' & E & _ & _ & _ & Hv & _).
  - lia.
  - exact wit_arg_ptr.
  - cbn. lia.
  - repeat constructor; lia.
  - exists k'. split; [exact E|]. rewrite (Hv 4089); [reflexivity | cbn; lia].
Defined.

Lemma sys_date_overrun_witness : sys_date (mk_rtcdate 0 30 12 4 3 2021) 0 wit_arg = Panic "trap".
Proof.
  destruct wit_arg_ok as [H1 H2].
  apply (sys_date_overrun kend0 0 (mk_rtcdate 0 30 12 4 3 2021) wit_arg [wit_page 2] 4088 H1 H2 wit_arg_ptr).
  - reflexivity.
  - unfold KERNBASE. lia.
Defined.
