(* ===== verification/Sysfile.v ===== *)
(** * File system calls (src/sysfile.c)

    Each call as a function of the kernel state: arguments from the user stack,
    a transaction bracket around the file-system work, and every early return
    and [bad:] path of the source.  Pipe wakeups recorded while a call runs are
    delivered to the process table before the call sleeps or returns. *)

From S2P Require Import Prelude Layout StringLib Kalloc Pipe Blocks Balloc Fs File Vm VmSpec VmUser Proc Syscall.

Definition O_RDONLY : Z := 0.
Definition O_WRONLY : Z := 1.
Definition O_RDWR : Z := 2.
Definition O_CREATE : Z := 0x200.

(** [wakeup] for every channel the pipe layer recorded. *)
Definition deliver (k : kern) : kern :=
  let ws := fwake (kfiles k) in
  let s := kfiles k in
  let k := set_files k (mk_fsys (ftable s) (pipes s) (fkm s) (ffs s) []) in
  fold_left (fun k pc => wakeup (ChPipe (fst pc) (snd pc)) k) ws k.

Definition set_fs (k : kern) (st : fs) : kern := set_files k (set_ffs (kfiles k) st).
Definition cwd_of (k : kern) (me : nat) : nat := default 0%nat (p_cwd (proc_at k me)).

(** The [n]th argument as a descriptor, and its file. *)
Definition argfd (k : kern) (me : nat) (n : Z) : option (Z * nat) :=
  match argint k me n with
  | None => None
  | Some fd =>
      if (fd <? 0) || (NOFILE <=? fd) then None
      else match nth (Z.to_nat fd) (p_ofile (proc_at k me)) None with
           | None => None
           | Some f => Some (fd, f)
           end
  end.

Fixpoint fdalloc_scan {A : Type} (l : list (option A)) (fd : nat) : option nat :=
  match l with
  | [] => None
  | None :: _ => Some fd
  | Some _ :: l' => fdalloc_scan l' (S fd)
  end.

Definition set_fd (k : kern) (me fd : nat) (o : option nat) : kern :=
  upd_proc k me (fun x => with_ofile x (<[fd := o]> (p_ofile x))).

(** -1, or the descriptor that now holds [f]. *)
Definition fdalloc (f me : nat) (k : kern) : Z * kern :=
  match fdalloc_scan (p_ofile (proc_at k me)) 0 with
  | None => (-1, k)
  | Some fd => (Z.of_nat fd, set_fd k me fd (Some f))
  end.

Section sysfile.
Context (kend : Z) (sb : superblock).
Context (dev_read : Z -> option (nat -> mem -> Z -> Z -> fs -> res (Z * mem * fs))).
Context (dev_write : Z -> option (nat -> mem -> Z -> Z -> fs -> res (Z * fs))).

Definition sys_dup (me : nat) (k : kern) : res (sysret * kern) :=
  match argfd k me 0 with
  | None => Ok (SRet (-1), k)
  | Some (_, f) =>
      let (fd, k) := fdalloc f me k in
      if fd <? 0 then Ok (SRet (-1), k)
      else let* s := filedup f (kfiles k) in Ok (SRet fd, set_files k s)
  end.

(** The arguments of read and write: the file, the buffer and its length. *)
Definition rw_args (k : kern) (me : nat) : option (nat * Z * Z) :=
  match argfd k me 0 with
  | None => None
  | Some (_, f) =>
      match argint k me 2 with
      | None => None
      | Some n => match argptr k me 1 n with None => None | Some p => Some (f, p, n) end
      end
  end.

(** [fileread] stores through the user buffer. *)
Definition sys_read (me : nat) (k : kern) : res (sysret * kern) :=
  match rw_args k me with
  | None => Ok (SRet (-1), k)
  | Some (f, p, n) =>
      let pi := f_pipe (file_at (kfiles k) f) in
      let* (r, m, s) := fileread sb dev_read f (umem k me) p n (p_killed (proc_at k me)) (kfiles k) in
      let k := deliver (set_files k s) in
      match r with
      | FRet v => let* k := uwrite k me p (mread m p (Z.to_nat v)) in Ok (SRet v, k)
      | FSleep l => Ok (SSleep l, sleep me (ChPipe pi CNread) k)
      end
  end.

Definition sys_write (me : nat) (k : kern) : res (sysret * kern) :=
  match rw_args k me with
  | None => Ok (SRet (-1), k)
  | Some (f, p, n) =>
      let pi := f_pipe (file_at (kfiles k) f) in
      let* (r, s) := filewrite sb dev_write f (umem k me) p n (p_killed (proc_at k me)) (kfiles k) in
      let k := deliver (set_files k s) in
      match r with
      | FRet v => Ok (SRet v, k)
      | FSleep l => Ok (SSleep l, sleep me (ChPipe pi CNwrite) k)
      end
  end.

Definition sys_close (me : nat) (k : kern) : res (sysret * kern) :=
  match argfd k me 0 with
  | None => Ok (SRet (-1), k)
  | Some (fd, f) =>
      let k := set_fd k me (Z.to_nat fd) None in
      let* s := fileclose kend sb f (kfiles k) in
      Ok (SRet 0, deliver (set_files k s))
  end.

Definition STAT_SIZE : Z := 20.

(** The members of [struct stat]; its padding is not stored. *)
Definition put_stat (k : kern) (me : nat) (p : Z) (r : stat) : res kern :=
  let* k := uwrite k me p (take 2 (word_bytes (st_type r))) in
  let* k := uwrite k me (p + 4) (word_bytes (st_dev r)) in
  let* k := uwrite k me (p + 8) (word_bytes (st_ino r)) in
  let* k := uwrite k me (p + 12) (take 2 (word_bytes (st_nlink r))) in
  uwrite k me (p + 16) (word_bytes (st_size r)).

Definition sys_fstat (me : nat) (k : kern) : res (sysret * kern) :=
  match argfd k me 0 with
  | None => Ok (SRet (-1), k)
  | Some (_, f) =>
      match argptr k me 1 STAT_SIZE with
      | None => Ok (SRet (-1), k)
      | Some p =>
          let* (o, s) := filestat sb f (kfiles k) in
          let k := set_files k s in
          match o with
          | None => Ok (SRet (-1), k)
          | Some r => let* k := put_stat k me p r in Ok (SRet 0, k)
          end
      end
  end.

(** [end_op(); return v;] *)
Definition op_ret (k : kern) (v : Z) (st : fs) : res (sysret * kern) := Ok (SRet v, set_fs k (op_end st)).

Definition add_nlink (ip : nat) (d : Z) (st : fs) : fs :=
  set_inode st ip (set_nlink (inode_at st ip) (s16 (i_nlink (inode_at st ip) + d))).

(** The [bad:] path of [sys_link]. *)
Definition link_bad (k : kern) (ip : nat) (st : fs) : res (sysret * kern) :=
  let* st := ilock sb ip st in
  let* st := iupdate sb ip (add_nlink ip (-1) st) in
  let* st := iunlockput sb ip st in
  op_ret k (-1) st.

Definition sys_link (me : nat) (k : kern) : res (sysret * kern) :=
  match argpath k me 0 with
  | None => Ok (SRet (-1), k)
  | Some old =>
  match argpath k me 1 with
  | None => Ok (SRet (-1), k)
  | Some new =>
      let st := op_begin (ffs (kfiles k)) in
      let* (o, st) := namei sb dev_read (cwd_of k me) old st in
      match o with
      | None => op_ret k (-1) st
      | Some ip =>
          let* st := ilock sb ip st in
          if i_type (inode_at st ip) =? T_DIR then
            let* st := iunlockput sb ip st in op_ret k (-1) st
          else
            let* st := iupdate sb ip (add_nlink ip 1 st) in
            let* st := iunlock ip st in
            let* (o, name, st) := nameiparent sb dev_read (cwd_of k me) new (fun _ => 0) st in
            match o with
            | None => link_bad k ip st
            | Some dp =>
                let* st := ilock sb dp st in
                let* (r, st) :=
                  if negb (i_dev (inode_at st dp) =? i_dev (inode_at st ip)) then Ok (-1, st)
                  else dirlink sb dev_read dev_write dp name (i_inum (inode_at st ip)) st in
                let* st := iunlockput sb dp st in
                if r <? 0 then link_bad k ip st
                else let* st := iput sb ip st in op_ret k 0 st
            end
      end
  end
  end.

(** Is the directory empty except for "." and ".."? *)
Fixpoint isdirempty_loop (fuel dp : nat) (off : Z) (st : fs) : res (bool * fs) :=
  if off <? i_size (inode_at st dp) then
    match fuel with
    | O => Panic "isdirempty: pass bound"
    | S fuel' =>
        let* (r, de, st) := readi sb dev_read dp (fun _ => 0) 0 off DIRENT_SIZE st in
        if negb (r =? DIRENT_SIZE) then Panic "isdirempty: readi"
        else if negb (ld16 de 0 =? 0) then Ok (false, st)
        else isdirempty_loop fuel' dp (off + DIRENT_SIZE) st
    end
  else Ok (true, st).

Definition isdirempty (dp : nat) (st : fs) : res (bool * fs) :=
  isdirempty_loop (S (Z.to_nat (i_size (inode_at st dp) / DIRENT_SIZE))) dp (2 * DIRENT_SIZE) st.

(** [namecmp(name, s) == 0] for a string literal [s]. *)
Definition name_is (name : mem) (s : list Z) : bool :=
  namecmp (mwrite name DIRENT_SIZE (s ++ [0])) 0 DIRENT_SIZE =? 0.
Definition DOT : list Z := [46].
Definition DOTDOT : list Z := [46; 46].

(** The [bad:] path of [sys_unlink]. *)
Definition unlink_bad (k : kern) (dp : nat) (st : fs) : res (sysret * kern) :=
  let* st := iunlockput sb dp st in op_ret k (-1) st.

(** [sys_unlink] once the entry at [off] of [dp] is known to name [ip]. *)
Definition unlink_entry (k : kern) (dp ip : nat) (off : Z) (st : fs) : res (sysret * kern) :=
  let* st := ilock sb ip st in
  if i_nlink (inode_at st ip) <? 1 then Panic "unlink: nlink < 1"
  else
    let* (empty, st) := if i_type (inode_at st ip) =? T_DIR then isdirempty ip st else Ok (true, st) in
    if negb empty then let* st := iunlockput sb ip st in unlink_bad k dp st
    else
      let* (r, st) := writei sb dev_write dp (fun _ => 0) 0 off DIRENT_SIZE st in
      if negb (r =? DIRENT_SIZE) then Panic "unlink: writei"
      else
        let* st := if i_type (inode_at st ip) =? T_DIR then iupdate sb dp (add_nlink dp (-1) st) else Ok st in
        let* st := iunlockput sb dp st in
        let* st := iupdate sb ip (add_nlink ip (-1) st) in
        let* st := iunlockput sb ip st in
        op_ret k 0 st.

Definition sys_unlink (me : nat) (k : kern) : res (sysret * kern) :=
  match argpath k me 0 with
  | None => Ok (SRet (-1), k)
  | Some path =>
      let st := op_begin (ffs (kfiles k)) in
      let* (o, name, st) := nameiparent sb dev_read (cwd_of k me) path (fun _ => 0) st in
      match o with
      | None => op_ret k (-1) st
      | Some dp =>
          let* st := ilock sb dp st in
          if name_is name DOT || name_is name DOTDOT then unlink_bad k dp st
          else
            let* (e, st) := dirlookup sb dev_read dp name st in
            match e with
            | None => unlink_bad k dp st
            | Some (ip, off) => unlink_entry k dp ip off st
            end
      end
  end.

Definition set_devnums (x : inode) (major minor : Z) : inode :=
  mk_inode (i_dev x) (i_inum x) (i_ref x) (i_locked x) (i_valid x) (i_type x) major minor
    (i_nlink x) (i_size x) (i_addrs x).

(** [create] after [dirlookup] found nothing: the new inode, linked into [dp]. *)
Definition create_new (dp : nat) (name : mem) (type major minor : Z) (st : fs) : res (option nat * fs) :=
  let* (ip, st) := ialloc sb (i_dev (inode_at st dp)) type st in
  let* st := ilock sb ip st in
  let* st := iupdate sb ip (set_inode st ip (set_nlink (set_devnums (inode_at st ip) major minor) 1)) in
  let* st :=
    if type =? T_DIR then
      let* st := iupdate sb dp (add_nlink dp 1 st) in
      let* (r, st) := dirlink sb dev_read dev_write ip (mwrite (fun _ => 0) 0 DOT) (i_inum (inode_at st ip)) st in
      if r <? 0 then Panic "create dots"
      else
        let* (r, st) := dirlink sb dev_read dev_write ip (mwrite (fun _ => 0) 0 DOTDOT) (i_inum (inode_at st dp)) st in
        if r <? 0 then Panic "create dots" else Ok st
    else Ok st in
  let* (r, st) := dirlink sb dev_read dev_write dp name (i_inum (inode_at st ip)) st in
  if r <? 0 then Panic "create: dirlink"
  else let* st := iunlockput sb dp st in Ok (Some ip, st).

(** The inode is returned locked. *)
Definition create (cwd : nat) (path : list Z) (type major minor : Z) (st : fs) : res (option nat * fs) :=
  let* (o, name, st) := nameiparent sb dev_read cwd path (fun _ => 0) st in
  match o with
  | None => Ok (None, st)
  | Some dp =>
      let* st := ilock sb dp st in
      let* (e, st) := dirlookup sb dev_read dp name st in
      match e with
      | Some (ip, _) =>
          let* st := iunlockput sb dp st in
          let* st := ilock sb ip st in
          if (type =? T_FILE) && (i_type (inode_at st ip) =? T_FILE) then Ok (Some ip, st)
          else let* st := iunlockput sb ip st in Ok (None, st)
      | None => create_new dp name type major minor st
      end
  end.

(** [sys_open] with the locked inode: a file and a descriptor for it. *)
Definition open_file (ip : nat) (omode : Z) (me : nat) (k : kern) : res (sysret * kern) :=
  let (o, s) := filealloc (kfiles k) in
  let k := set_files k s in
  match o with
  | None => let* st := iunlockput sb ip (ffs (kfiles k)) in op_ret k (-1) st
  | Some f =>
      let (fd, k) := fdalloc f me k in
      if fd <? 0 then
        let* s := fileclose kend sb f (kfiles k) in
        let k := set_files k s in
        let* st := iunlockput sb ip (ffs (kfiles k)) in
        op_ret k (-1) st
      else
        let* st := iunlock ip (ffs (kfiles k)) in
        let k := set_fs k (op_end st) in
        let x := file_at (kfiles k) f in
        let readable := Z.land omode O_WRONLY =? 0 in
        let writable := negb (Z.land omode O_WRONLY =? 0) || negb (Z.land omode O_RDWR =? 0) in
        Ok (SRet fd, set_files k (set_file (kfiles k) f (mk_file FD_INODE (f_ref x) readable writable (f_pipe x) ip 0)))
  end.

Definition sys_open (me : nat) (k : kern) : res (sysret * kern) :=
  match argpath k me 0 with
  | None => Ok (SRet (-1), k)
  | Some path =>
  match argint k me 1 with
  | None => Ok (SRet (-1), k)
  | Some omode =>
      let st := op_begin (ffs (kfiles k)) in
      if negb (Z.land omode O_CREATE =? 0) then
        let* (o, st) := create (cwd_of k me) path T_FILE 0 0 st in
        match o with
        | None => op_ret k (-1) st
        | Some ip => open_file ip omode me (set_fs k st)
        end
      else
        let* (o, st) := namei sb dev_read (cwd_of k me) path st in
        match o with
        | None => op_ret k (-1) st
        | Some ip =>
            let* st := ilock sb ip st in
            if (i_type (inode_at st ip) =? T_DIR) && negb (omode =? O_RDONLY) then
              let* st := iunlockput sb ip st in op_ret k (-1) st
            else open_file ip omode me (set_fs k st)
        end
  end
  end.

(** [create] and [iunlockput], as mkdir and mknod do. *)
Definition make_node (k : kern) (me : nat) (path : list Z) (type major minor : Z) : res (sysret * kern) :=
  let* (o, st) := create (cwd_of k me) path type major minor (op_begin (ffs (kfiles k))) in
  match o with
  | None => op_ret k (-1) st
  | Some ip => let* st := iunlockput sb ip st in op_ret k 0 st
  end.

Definition sys_mkdir (me : nat) (k : kern) : res (sysret * kern) :=
  match argpath k me 0 with
  | None => op_ret k (-1) (op_begin (ffs (kfiles k)))
  | Some path => make_node k me path T_DIR 0 0
  end.

Definition sys_mknod (me : nat) (k : kern) : res (sysret * kern) :=
  match argpath k me 0, argint k me 1, argint k me 2 with
  | Some path, Some major, Some minor => make_node k me path T_DEV (s16 major) (s16 minor)
  | _, _, _ => op_ret k (-1) (op_begin (ffs (kfiles k)))
  end.

Definition sys_chdir (me : nat) (k : kern) : res (sysret * kern) :=
  match argpath k me 0 with
  | None => op_ret k (-1) (op_begin (ffs (kfiles k)))
  | Some path =>
      let* (o, st) := namei sb dev_read (cwd_of k me) path (op_begin (ffs (kfiles k))) in
      match o with
      | None => op_ret k (-1) st
      | Some ip =>
          let* st := ilock sb ip st in
          if negb (i_type (inode_at st ip) =? T_DIR) then
            let* st := iunlockput sb ip st in op_ret k (-1) st
          else
            let* st := iunlock ip st in
            let* st := match p_cwd (proc_at k me) with
                       | Some old => iput sb old st
                       | None => Panic "trap"               (* iput(0) *)
                       end in
            Ok (SRet 0, upd_proc (set_fs k (op_end st)) me (fun x => with_cwd x (Some ip)))
      end
  end.

(** The failure path of [sys_pipe] after [pipealloc]. *)
Definition pipe_bad (fd0 : Z) (rf wf me : nat) (k : kern) : res (sysret * kern) :=
  let k := if 0 <=? fd0 then set_fd k me (Z.to_nat fd0) None else k in
  let* s := fileclose kend sb rf (kfiles k) in
  let* s := fileclose kend sb wf s in
  Ok (SRet (-1), deliver (set_files k s)).

Definition sys_pipe (me : nat) (k : kern) : res (sysret * kern) :=
  match argptr k me 0 (2 * 4) with
  | None => Ok (SRet (-1), k)
  | Some fd =>
      let* (o, s) := pipealloc kend sb (kfiles k) in
      let k := set_files k s in
      match o with
      | None => Ok (SRet (-1), k)
      | Some (rf, wf) =>
          let (fd0, k) := fdalloc rf me k in
          if fd0 <? 0 then pipe_bad fd0 rf wf me k
          else
            let (fd1, k) := fdalloc wf me k in
            if fd1 <? 0 then pipe_bad fd0 rf wf me k
            else
              let* k := uwrite k me fd (word_bytes fd0) in
              let* k := uwrite k me (fd + 4) (word_bytes fd1) in
              Ok (SRet 0, k)
      end
  end.
End sysfile.
