(* ===== verification/Exec.v ===== *)
(** * Program loading (src/exec.c, src/elf.h, sys_exec of src/sysfile.c)

    [exec] builds the new address space beside the old one, copies the
    arguments from the old one and commits at the end; every [goto bad] frees
    the new space and, while the inode is held, releases it and ends the
    transaction. *)

From S2P Require Import Prelude Layout StringLib Kalloc Pipe Blocks Balloc Fs File Vm VmSpec VmUser Proc Syscall Sysfile.

Definition ELF_MAGIC : Z := 0x464C457F.
Definition ELF_PROG_LOAD : Z := 1.
Definition MAXARG : Z := 32.

Definition ELFHDR_SIZE : Z := 52.
Definition PROGHDR_SIZE : Z := 32.

(** The members of [struct elfhdr] the loader reads. *)
Record elfhdr := mk_elf { e_magic : Z; e_entry : Z; e_phoff : Z; e_phnum : Z }.
Definition elf_get (m : mem) : elfhdr := mk_elf (ld32 m 0) (ld32 m 24) (ld32 m 28) (ld16 m 44).

(** And of [struct proghdr]. *)
Record proghdr := mk_ph { ph_type : Z; ph_off : Z; ph_vaddr : Z; ph_filesz : Z; ph_memsz : Z }.
Definition ph_get (m : mem) : proghdr := mk_ph (ld32 m 0) (ld32 m 4) (ld32 m 8) (ld32 m 16) (ld32 m 20).

Definition set_entry (t : trapframe) (eip esp : Z) : trapframe :=
  mk_tf (tf_edi t) (tf_esi t) (tf_ebp t) (tf_oesp t) (tf_ebx t) (tf_edx t) (tf_ecx t) (tf_eax t)
    (tf_gs t) (tf_fs t) (tf_es t) (tf_ds t) (tf_trapno t)
    (tf_err t) eip (tf_cs t) (tf_eflags t) esp (tf_ss t).

(** [for(last=s=path; *s; s++) if( *s == '/') last = s+1;] *)
Fixpoint last_elem (last path : list Z) : list Z :=
  match path with
  | [] => last
  | c :: p => last_elem (if c =? SLASH then p else last) p
  end.

Section exec.
Context (kend data : Z) (sb : superblock).
Context (dev_read : Z -> option (nat -> mem -> Z -> Z -> fs -> res (Z * mem * fs))).

(** The segment loop with [n] headers left; [None] is [goto bad]. *)
Fixpoint exec_load (n : nat) (d : Z) (ip : nat) (off sz : Z) (m : kmem) (st : fs) : res (option Z * kmem * fs) :=
  match n with
  | O => Ok (Some sz, m, st)
  | S n' =>
      let* (r, b, st) := readi sb dev_read ip (fun _ => 0) 0 (u32 off) PROGHDR_SIZE st in
      if negb (r =? PROGHDR_SIZE) then Ok (None, m, st)
      else
        let ph := ph_get b in
        if negb (ph_type ph =? ELF_PROG_LOAD) then exec_load n' d ip (s32 (off + PROGHDR_SIZE)) sz m st
        else if ph_memsz ph <? ph_filesz ph then Ok (None, m, st)
        else if u32 (ph_vaddr ph + ph_memsz ph) <? ph_vaddr ph then Ok (None, m, st)
        else
          let* (sz, m) := allocuvm kend d sz (u32 (ph_vaddr ph + ph_memsz ph)) m in
          if sz =? 0 then Ok (None, m, st)
          else if negb (ph_vaddr ph mod PGSIZE =? 0) then Ok (None, m, st)
          else
            let* (r, m, st) := loaduvm sb dev_read d (ph_vaddr ph) ip (ph_off ph) (ph_filesz ph) m st in
            if r <? 0 then Ok (None, m, st)
            else exec_load n' d ip (s32 (off + PROGHDR_SIZE)) sz m st
  end.

(** The argument loop: [argv] are the string addresses left, in the space [old];
    the stack pointer and the words of [ustack] from 3 on. *)
Fixpoint exec_args (argv : list Z) (argc : Z) (old d sz0 sp : Z) (m : kmem) : res (option (Z * list Z) * kmem) :=
  match argv with
  | [] => Ok (Some (sp, []), m)
  | a :: argv' =>
      if MAXARG <=? argc then Ok (None, m)
      else
        let src := user_byte (kram m) old in
        match strlen src a (Z.to_nat sz0) with
        | None => Panic "trap"                        (* ran off the old space *)
        | Some len =>
            let sp := Z.land (u32 (sp - (len + 1))) (u32 (Z.lnot 3)) in
            let* (r, m) := copyout d sp src a (len + 1) m in
            if r <? 0 then Ok (None, m)
            else
              let* (o, m) := exec_args argv' (argc + 1) old d sz0 sp m in
              match o with
              | None => Ok (None, m)
              | Some (sp', l) => Ok (Some (sp', sp :: l), m)
              end
        end
  end.

(** The words of an array of [uint]s in memory. *)
Definition words_mem (l : list Z) : mem := mwrite (fun _ => 0) 0 (flat_map word_bytes l).

(** [bad:] with the inode held. *)
Definition exec_bad (d : Z) (ip : nat) (k : kern) (m : kmem) (st : fs) : res (Z * kern) :=
  let* m := if d =? 0 then Ok m else freevm kend d m in
  let* st := iunlockput sb ip st in
  Ok (-1, set_fs (set_kmem k m) (op_end st)).

(** [bad:] after the inode was released. *)
Definition exec_bad_noip (d : Z) (k : kern) (m : kmem) : res (Z * kern) :=
  let* m := freevm kend d m in Ok (-1, set_kmem k m).

(** From the user stack on: [d] holds the segments up to [sz]. *)
Definition exec_stack (path : list Z) (argv : list Z) (entry d sz : Z) (me : nat) (k : kern) : res (Z * kern) :=
  let sz := u32 (PGROUNDUP sz) in
  let* (sz, m) := allocuvm kend d sz (u32 (sz + 2 * PGSIZE)) (kmem_of k) in
  if sz =? 0 then exec_bad_noip d k m
  else
    let* m := clearpteu d (u32 (sz - 2 * PGSIZE)) m in
    let cur := proc_at k me in
    let* (o, m) := exec_args argv 0 (p_pgdir cur) d (p_sz cur) sz m in
    match o with
    | None => exec_bad_noip d k m
    | Some (sp, l) =>
        let argc := Z.of_nat (length l) in
        let ustack := [0xffffffff; argc; u32 (sp - (argc + 1) * 4)] ++ l ++ [0] in
        let sp := u32 (sp - (3 + argc + 1) * 4) in
        let* (r, m) := copyout d sp (words_mem ustack) 0 ((3 + argc + 1) * 4) m in
        if r <? 0 then exec_bad_noip d k m
        else
          let last := last_elem path path in
          let name := copy_name (p_name cur) (mwrite (fun _ => 0) 0 (take 16 last)) in
          let old := p_pgdir cur in
          let k := upd_proc (set_kmem k m) me (fun x =>
                     with_tf (with_sz (with_pgdir (with_name x name) d) sz) (set_entry (p_tf x) entry sp)) in
          let* _ := switchuvm (proc_at k me) in
          let* m := freevm kend old (kmem_of k) in
          Ok (0, set_kmem k m)
    end.

Definition exec (path : list Z) (argv : list Z) (me : nat) (k : kern) : res (Z * kern) :=
  let* (o, st) := namei sb dev_read (cwd_of k me) path (op_begin (ffs (kfiles k))) in
  match o with
  | None => Ok (-1, set_fs k (op_end st))
  | Some ip =>
      let* st := ilock sb ip st in
      let* (r, b, st) := readi sb dev_read ip (fun _ => 0) 0 0 ELFHDR_SIZE st in
      let elf := elf_get b in
      if negb (r =? ELFHDR_SIZE) then exec_bad 0 ip k (kmem_of k) st
      else if negb (e_magic elf =? ELF_MAGIC) then exec_bad 0 ip k (kmem_of k) st
      else
        let* (d, m) := setupkvm kend data (kmem_of k) in
        if d =? 0 then exec_bad 0 ip k m st
        else
          let* (o, m, st) := exec_load (Z.to_nat (e_phnum elf)) d ip (s32 (e_phoff elf)) 0 m st in
          match o with
          | None => exec_bad d ip k m st
          | Some sz =>
              let* st := iunlockput sb ip st in
              exec_stack path argv (e_entry elf) d sz me (set_fs (set_kmem k m) (op_end st))
          end
  end.

(** The pointers of [argv]; [n] array elements left. *)
Fixpoint exec_argv (n : nat) (k : kern) (me : nat) (uargv i : Z) : option (list Z) :=
  match n with
  | O => None
  | S n' =>
      match fetchint k me (u32 (uargv + 4 * i)) with
      | None => None
      | Some uarg =>
          if uarg =? 0 then Some []
          else match fetchstr k me (u32 uarg) with
               | None => None
               | Some (a, _) =>
                   match exec_argv n' k me uargv (i + 1) with
                   | None => None
                   | Some l => Some (a :: l)
                   end
               end
      end
  end.

Definition sys_exec (me : nat) (k : kern) : res (sysret * kern) :=
  match argpath k me 0 with
  | None => Ok (SRet (-1), k)
  | Some path =>
  match argint k me 1 with
  | None => Ok (SRet (-1), k)
  | Some uargv =>
      match exec_argv (Z.to_nat MAXARG) k me (u32 uargv) 0 with
      | None => Ok (SRet (-1), k)
      | Some argv => let* (r, k) := exec path argv me k in Ok (SRet r, k)
      end
  end
  end.
End exec.
