(* ===== verification/FileRefs.v ===== *)
(** * Reference counts of open files (src/file.c, src/sysfile.c, src/proc.c)

    The invariant that ties the file table to the process table: the count of
    every [struct file] is the number of descriptors that point to it, over all
    processes, and a free or exited process has none.  Every call that creates,
    duplicates, inherits or drops descriptors preserves it. *)

From S2P Require Import Prelude Layout StringLib Kalloc Pipe Blocks Balloc Fs File Vm VmSpec VmUser VmCopy Proc ProcSpec ProcMem Syscall Sysfile FsFile.

(** ** Counting descriptors *)

Definition points (f : nat) (o : option nat) : Z := if bool_decide (o = Some f) then 1 else 0.

Fixpoint occ (f : nat) (l : list (option nat)) : Z :=
  match l with [] => 0 | o :: l' => points f o + occ f l' end.

Fixpoint total (f : nat) (l : list proc) : Z :=
  match l with [] => 0 | x :: l' => occ f (p_ofile x) + total f l' end.

Definition fd_count (k : kern) (f : nat) : Z := total f (ptable k).
Definition refs (s : fsys) (f : nat) : Z := f_ref (file_at s f).

(** No process, or one that only waits to be reaped. *)
Definition idle (x : proc) : Prop := p_state x = UNUSED \/ p_state x = ZOMBIE.
Definition no_fds (x : proc) : Prop := Forall (fun o => o = None) (p_ofile x).

(** The counts are off by [d], as they are in the middle of a call. *)
Record fds_at (k : kern) (d : nat -> Z) : Prop := {
  fo_len : forall p, length (p_ofile (proc_at k p)) = Z.to_nat NOFILE;
  fo_idle : forall p, idle (proc_at k p) -> no_fds (proc_at k p);
  fo_off : forall f, refs (kfiles k) f = fd_count k f + d f
}.

Definition fds_ok (k : kern) : Prop := fds_at k (fun _ => 0).

Lemma fo_ref k : fds_ok k -> forall f, refs (kfiles k) f = fd_count k f.
Proof. intros Hk f. rewrite (fo_off _ _ Hk). lia. Qed.

Lemma fds_at_ok k d : fds_at k d -> (forall f, d f = 0) -> fds_ok k.
Proof. intros [H1 H2 H3] Hd. constructor; auto. intros f. by rewrite H3, Hd. Qed.

Lemma points_range f o : 0 <= points f o <= 1.
Proof. unfold points. destruct (bool_decide _); lia. Qed.

Lemma points_self f : points f (Some f) = 1.
Proof. unfold points. by rewrite bool_decide_true. Qed.

Lemma points_none f : points f None = 0.
Proof. reflexivity. Qed.

Lemma occ_nonneg f l : 0 <= occ f l.
Proof. induction l as [|o l IH]; cbn [occ]; [lia|]. pose proof (points_range f o). lia. Qed.

Lemma occ_insert f l : forall fd o, (fd < length l)%nat ->
  occ f (<[fd := o]> l) = occ f l - points f (nth fd l None) + points f o.
Proof.
  induction l as [|x l IH]; intros [|fd] o H; cbn in H; [lia | lia | cbn; lia |].
  change (<[S fd := o]> (x :: l)) with (x :: <[fd := o]> l). cbn [occ nth]. rewrite IH by lia. lia.
Qed.

Lemma occ_no_fds f l : Forall (fun o => o = None) l -> occ f l = 0.
Proof. induction 1 as [|o l -> _ IH]; cbn [occ]; [done|]. rewrite points_none. lia. Qed.

Lemma occ_lookup f l fd : nth fd l None = Some f -> 1 <= occ f l.
Proof.
  revert fd. induction l as [|x l IH]; intros [|fd]; cbn [nth occ]; try done.
  - intros ->. rewrite points_self. pose proof (occ_nonneg f l). lia.
  - intros H. apply IH in H. pose proof (points_range f x). lia.
Qed.

Lemma total_insert f l : forall p x, (p < length l)%nat ->
  total f (<[p := x]> l) = total f l - occ f (p_ofile (nth p l no_proc)) + occ f (p_ofile x).
Proof.
  induction l as [|y l IH]; intros [|p] x H; cbn in H; [lia | lia | cbn; lia |].
  change (<[S p := x]> (y :: l)) with (y :: <[p := x]> l). cbn [total nth]. rewrite IH by lia. lia.
Qed.

Lemma total_nonneg f l : 0 <= total f l.
Proof. induction l as [|x l IH]; cbn [total]; [lia|]. pose proof (occ_nonneg f (p_ofile x)). lia. Qed.

Lemma total_nth f l p : occ f (p_ofile (nth p l no_proc)) <= total f l.
Proof.
  revert p. induction l as [|x l IH]; intros p; [rewrite occ_no_fds; [cbn; lia | destruct p; repeat constructor]|].
  destruct p as [|p]; cbn [nth total]; [pose proof (total_nonneg f l); lia|].
  specialize (IH p). pose proof (occ_nonneg f (p_ofile x)). lia.
Qed.

Lemma total_ext f l l' : length l = length l' ->
  (forall p, p_ofile (nth p l no_proc) = p_ofile (nth p l' no_proc)) -> total f l = total f l'.
Proof.
  revert l'. induction l as [|x l IH]; intros [|x' l'] Hl H; cbn in Hl; [done | lia | lia |].
  cbn [total]. rewrite (IH l'); [|lia | intros p; apply (H (S p))]. f_equal. f_equal. exact (H 0%nat).
Qed.

(** ** What the file layer does to the counts *)

Lemma refs_in s f : refs s f <> 0 -> (f < length (ftable s))%nat.
Proof.
  intros H. destruct (decide (f < length (ftable s))%nat); [done|]. exfalso. apply H.
  unfold refs, file_at. by rewrite nth_overflow by lia.
Qed.

Lemma refs_set s f x g : (f < length (ftable s))%nat ->
  refs (set_file s f x) g = if bool_decide (g = f) then f_ref x else refs s g.
Proof.
  intros Hf. unfold refs, file_at, set_file. cbn [ftable]. rewrite !nth_lookup.
  destruct (bool_decide_reflect (g = f)) as [->|Hg]; [by rewrite list_lookup_insert_eq|].
  by rewrite list_lookup_insert_ne by done.
Qed.

(** Counts change by [d] at [f] only. *)
Definition refs_add (s s' : fsys) (f : nat) (d : Z) : Prop :=
  forall g, refs s' g = refs s g + d * points g (Some f).

Lemma refs_add_set s f x : (f < length (ftable s))%nat -> refs_add s (set_file s f x) f (f_ref x - refs s f).
Proof.
  intros Hf g. rewrite refs_set by done. unfold points.
  destruct (bool_decide_reflect (g = f)) as [->|Hg]; [rewrite bool_decide_true by done; lia|].
  rewrite bool_decide_false by congruence. lia.
Qed.

Lemma filedup_refs f s s' : filedup f s = Ok s' -> refs_add s s' f 1.
Proof.
  unfold filedup. destruct (Z.ltb_spec (f_ref (file_at s f)) 1) as [|H]; [done|]. intros [= <-] g.
  rewrite (refs_add_set s f) by (apply refs_in; unfold refs; lia). cbn [f_ref set_fref]. unfold refs. lia.
Qed.

Lemma filedup_total f s : 1 <= refs s f -> exists s', filedup f s = Ok s'.
Proof. unfold refs, filedup. intros H. destruct (Z.ltb_spec (f_ref (file_at s f)) 1); [lia|]. eauto. Qed.

Lemma close_pipe_ftable kend pi w s s' : close_pipe kend pi w s = Ok s' -> ftable s' = ftable s.
Proof.
  unfold close_pipe. destruct (pipes s !! pi) as [p|]; [|done]. destruct (pipeclose p w) as [[p' ws] free].
  destruct free; [|by intros [= <-]]. intros H. apply rbind_Ok_inv in H as (k & _ & H). by injection H as <-.
Qed.

Section close.
Context (kend : Z) (sb : superblock).

Lemma fileclose_refs f s s' : fileclose kend sb f s = Ok s' -> refs_add s s' f (-1).
Proof.
  unfold fileclose. destruct (Z.ltb_spec (f_ref (file_at s f)) 1) as [|H1]; [done|].
  assert (Hf : (f < length (ftable s))%nat) by (apply refs_in; unfold refs; lia).
  assert (Hx : forall x, f_ref x = f_ref (file_at s f) - 1 -> forall t, ftable t = ftable (set_file s f x) -> refs_add s t f (-1)).
  { intros x Ex t Et g. replace (refs t g) with (refs (set_file s f x) g) by (unfold refs, file_at; by rewrite Et).
    rewrite (refs_add_set s f x Hf g), Ex. unfold refs. lia. }
  destruct (Z.ltb_spec 0 (f_ref (file_at s f) - 1)) as [H2|H2].
  - intros [= <-]. by apply (Hx (set_fref (file_at s f) (f_ref (file_at s f) - 1))).
  - set (x0 := set_ftype (set_fref _ 0) FD_NONE). assert (E0 : f_ref x0 = f_ref (file_at s f) - 1) by (cbn; lia).
    cbn [f_type set_fref]. destruct (f_type (file_at s f)).
    + intros [= <-]. by apply (Hx x0).
    + intros H. apply close_pipe_ftable in H. by apply (Hx x0).
    + intros H. apply rbind_Ok_inv in H as (st & _ & H). injection H as <-. by apply (Hx x0).
Qed.
End close.

Lemma filealloc_scan_spec l i f : filealloc_scan l i = Some f ->
  exists x, l !! (f - i)%nat = Some x /\ f_ref x = 0 /\ (i <= f)%nat.
Proof.
  revert i. induction l as [|x l IH]; intros i; cbn [filealloc_scan]; [done|].
  destruct (Z.eqb_spec (f_ref x) 0) as [E|E]; [intros [= <-]; exists x; rewrite Nat.sub_diag; auto|].
  intros H. apply IH in H as (y & Hy & Hr & Hle). exists y. split_and!; auto; [|lia].
  replace (f - i)%nat with (S (f - S i)) by lia. done.
Qed.

Lemma filealloc_refs s o s' : filealloc s = (o, s') ->
  match o with Some f => refs s f = 0 /\ refs_add s s' f 1 | None => s' = s end.
Proof.
  unfold filealloc. destruct (filealloc_scan (ftable s) 0) as [f|] eqn:E; intros [= <- <-]; [|done].
  apply filealloc_scan_spec in E as (x & Hx & Hr & _). rewrite Nat.sub_0_r in Hx.
  assert (Hf : file_at s f = x) by (unfold file_at; by apply nth_lookup_Some).
  assert (H0 : refs s f = 0) by (unfold refs; by rewrite Hf). split; [done|].
  intros g. rewrite (refs_add_set s f) by (by apply lookup_lt_Some in Hx). rewrite H0. cbn [f_ref set_fref]. lia.
Qed.

(** ** Steps that move no descriptor *)

Record keeps (k k' : kern) : Prop := {
  ke_len : length (ptable k') = length (ptable k);
  ke_fds : forall p, p_ofile (proc_at k' p) = p_ofile (proc_at k p);
  ke_refs : forall f, refs (kfiles k') f = refs (kfiles k) f;
  ke_idle : forall p, idle (proc_at k' p) -> idle (proc_at k p)
}.

#[export] Instance keeps_preorder : PreOrder keeps.
Proof.
  split.
  - intros k. by constructor.
  - intros k1 k2 k3 [] []. constructor; [congruence | congruence | congruence | auto].
Qed.

Lemma fd_count_keeps k k' f : keeps k k' -> fd_count k' f = fd_count k f.
Proof. intros []. by apply total_ext. Qed.

Lemma keeps_at k k' d : keeps k k' -> fds_at k d -> fds_at k' d.
Proof.
  intros Hk [H1 H2 H3]. constructor.
  - intros p. by rewrite (ke_fds _ _ Hk).
  - intros p Hp. unfold no_fds. rewrite (ke_fds _ _ Hk). by apply H2, (ke_idle _ _ Hk).
  - intros f. by rewrite (ke_refs _ _ Hk), (fd_count_keeps _ _ _ Hk).
Qed.

Lemma keeps_ok k k' : keeps k k' -> fds_ok k -> fds_ok k'.
Proof. apply keeps_at. Qed.

Lemma keeps_upd k p g : (forall x, p_ofile (g x) = p_ofile x) ->
  (idle (g (proc_at k p)) -> idle (proc_at k p)) -> keeps k (upd_proc k p g).
Proof.
  intros H1 H2. constructor; [apply length_upd | | done |]; intros q;
    destruct (decide (p < length (ptable k))%nat) as [Hp|Hp].
  1, 3: destruct (decide (q = p)) as [->|]; [rewrite proc_at_upd by done | rewrite proc_at_upd_ne by done]; auto.
  all: unfold proc_at, upd_proc, set_proc; cbn [ptable]; by rewrite list_insert_ge by lia.
Qed.

Lemma keeps_state k p st : st <> UNUSED -> st <> ZOMBIE -> keeps k (upd_proc k p (fun x => with_state x st)).
Proof. intros. apply keeps_upd; [done|]. intros [E|E]; cbn in E; congruence. Qed.

Lemma keeps_files k s : (forall f, refs s f = refs (kfiles k) f) -> keeps k (set_files k s).
Proof. intros. by constructor. Qed.

Lemma keeps_wakeup1 c k : keeps k (wakeup1 c k).
Proof.
  constructor; [apply length_map | | done |]; intros p; rewrite proc_at_wakeup;
    destruct (wake1_spec c (proc_at k p)) as [[-> _]|(-> & Hs & _)]; auto.
  intros [E|E]; cbn in E; congruence.
Qed.

Lemma keeps_deliver k : keeps k (deliver k).
Proof.
  unfold deliver. set (k0 := set_files k _).
  assert (H0 : keeps k k0) by (by apply keeps_files).
  revert H0. generalize k0. generalize (fwake (kfiles k)). intros ws. clear k0.
  induction ws as [|w ws IH]; intros k0 H0; cbn [fold_left]; [done|].
  apply IH. etransitivity; [exact H0 | apply keeps_wakeup1].
Qed.

(** ** Steps that move one descriptor *)

Lemma proc_at_set_fd k me fd o q : (me < length (ptable k))%nat ->
  p_ofile (proc_at (set_fd k me fd o) q) = (if bool_decide (q = me) then <[fd := o]> (p_ofile (proc_at k me)) else p_ofile (proc_at k q)) /\
  p_state (proc_at (set_fd k me fd o) q) = p_state (proc_at k q).
Proof.
  intros Hme. unfold set_fd. destruct (bool_decide_reflect (q = me)) as [->|Hq].
  - by rewrite proc_at_upd.
  - by rewrite proc_at_upd_ne.
Qed.

Lemma fd_count_set_fd k me fd o f : (me < length (ptable k))%nat -> (fd < length (p_ofile (proc_at k me)))%nat ->
  fd_count (set_fd k me fd o) f = fd_count k f - points f (nth fd (p_ofile (proc_at k me)) None) + points f o.
Proof.
  intros Hme Hfd. unfold fd_count, set_fd, upd_proc, set_proc. cbn [ptable]. rewrite total_insert by done.
  fold (proc_at k me). cbn [p_ofile with_ofile]. rewrite occ_insert by done. lia.
Qed.

(** A new file table; a descriptor set to [o]. *)
Lemma files_at k s d : fds_at k d -> fds_at (set_files k s) (fun f => d f + refs s f - refs (kfiles k) f).
Proof.
  intros [H1 H2 H3]. constructor; auto. intros f. change (refs (kfiles (set_files k s)) f) with (refs s f).
  change (fd_count (set_files k s) f) with (fd_count k f). specialize (H3 f). lia.
Qed.

Lemma set_fd_at k me fd o d :
  fds_at k d -> (me < length (ptable k))%nat -> (fd < Z.to_nat NOFILE)%nat -> (o <> None -> ~ idle (proc_at k me)) ->
  fds_at (set_fd k me fd o) (fun f => d f + points f (nth fd (p_ofile (proc_at k me)) None) - points f o).
Proof.
  intros [H1 H2 H3] Hme Hfd Hi. constructor.
  - intros q. destruct (proc_at_set_fd k me fd o q Hme) as [-> _].
    destruct (bool_decide (q = me)); rewrite ?length_insert; apply H1.
  - intros q. destruct (proc_at_set_fd k me fd o q Hme) as [E Es]. unfold idle, no_fds. rewrite E, Es.
    clear E Es. destruct (bool_decide_reflect (q = me)) as [->|]; [|by apply H2]. intros Hid. destruct o as [f|].
    + destruct Hi; done.
    + by apply Forall_insert; [apply H2|].
  - intros f. rewrite fd_count_set_fd by (rewrite ?H1; auto).
    change (refs (kfiles (set_fd k me fd o)) f) with (refs (kfiles k) f). specialize (H3 f). lia.
Qed.

Lemma set_fd_ok k me fd o s :
  fds_ok k -> (me < length (ptable k))%nat -> (fd < Z.to_nat NOFILE)%nat -> (o <> None -> ~ idle (proc_at k me)) ->
  (forall f, refs s f = refs (kfiles k) f - points f (nth fd (p_ofile (proc_at k me)) None) + points f o) ->
  fds_ok (set_files (set_fd k me fd o) s).
Proof.
  intros Hk Hme Hfd Hi Hs. eapply fds_at_ok; [apply files_at, set_fd_at; eauto|].
  intros f. cbn beta. rewrite Hs. change (kfiles (set_fd k me fd o)) with (kfiles k). lia.
Qed.

(** Every descriptor of a process refers to a file with a count. *)
Lemma fd_refs k p fd f : fds_ok k -> nth fd (p_ofile (proc_at k p)) None = Some f -> 1 <= refs (kfiles k) f.
Proof.
  intros Hk H. rewrite (fo_ref _ Hk). apply occ_lookup in H. pose proof (total_nth f (ptable k) p).
  unfold fd_count, proc_at in *. lia.
Qed.

Lemma fdalloc_scan_spec {A : Type} (l : list (option A)) i fd : fdalloc_scan l i = Some fd -> l !! (fd - i)%nat = Some None /\ (i <= fd)%nat.
Proof.
  revert i. induction l as [|[g|] l IH]; intros i; cbn [fdalloc_scan]; [done | | intros [= <-]; by rewrite Nat.sub_diag].
  intros H. apply IH in H as [H Hle]. split; [|lia]. replace (fd - i)%nat with (S (fd - S i)) by lia. done.
Qed.

(** [fdalloc] fails without effect or fills an empty descriptor. *)
Lemma fdalloc_cases f me k fd k' : fdalloc f me k = (fd, k') ->
  (fd < 0 /\ k' = k) \/
  exists n, fd = Z.of_nat n /\ k' = set_fd k me n (Some f) /\ (n < length (p_ofile (proc_at k me)))%nat /\
    nth n (p_ofile (proc_at k me)) None = None.
Proof.
  unfold fdalloc. destruct (fdalloc_scan _ 0) as [n|] eqn:E; intros [= <- <-]; [|by left; split; [lia|]].
  apply fdalloc_scan_spec in E as [E _]. rewrite Nat.sub_0_r in E. right. exists n. split_and!; auto.
  - by apply lookup_lt_Some in E.
  - by apply nth_lookup_Some.
Qed.

(** ** The calls *)

Lemma busy_in k me : ~ idle (proc_at k me) -> (me < length (ptable k))%nat.
Proof.
  intros H. destruct (decide (me < length (ptable k))%nat); [done|]. destruct H. rewrite proc_at_out by lia. by left.
Qed.

Lemma argfd_spec k me n fd f : argfd k me n = Some (fd, f) ->
  0 <= fd < NOFILE /\ nth (Z.to_nat fd) (p_ofile (proc_at k me)) None = Some f.
Proof.
  unfold argfd. destruct (argint k me n) as [i|]; [|done].
  destruct (Z.ltb_spec i 0), (Z.leb_spec NOFILE i); cbn [orb]; try done.
  destruct (nth (Z.to_nat i) _ None) as [g|] eqn:E; [|done]. intros [= <- <-]. auto.
Qed.

Lemma idle_set_fd k me fd o p : (me < length (ptable k))%nat -> idle (proc_at (set_fd k me fd o) p) <-> idle (proc_at k p).
Proof. intros Hme. unfold idle. by destruct (proc_at_set_fd k me fd o p Hme) as [_ ->]. Qed.

(** A new descriptor for a file that gained a reference. *)
Lemma new_fd_ok k s f me n :
  fds_ok k -> ~ idle (proc_at k me) -> (n < length (p_ofile (proc_at k me)))%nat ->
  nth n (p_ofile (proc_at k me)) None = None -> refs_add (kfiles k) s f 1 ->
  fds_ok (set_files (set_fd k me n (Some f)) s).
Proof.
  intros Hk Hme Hn E Hs. apply set_fd_ok; auto using busy_in; [by rewrite <- (fo_len _ _ Hk me)|].
  intros g. rewrite E, points_none, Hs. lia.
Qed.

Lemma sys_dup_ok me k : fds_ok k -> ~ idle (proc_at k me) -> exists r k', sys_dup me k = Ok (r, k') /\ fds_ok k'.
Proof.
  intros Hk Hme. unfold sys_dup. destruct (argfd k me 0) as [[fd f]|] eqn:Ea; [|eauto].
  apply argfd_spec in Ea as [_ Hf]. pose proof (fd_refs _ _ _ _ Hk Hf) as Hr.
  destruct (fdalloc f me k) as [d k1] eqn:Ed. destruct (fdalloc_cases _ _ _ _ _ Ed) as [[Hd ->]|(n & -> & -> & Hn & En)].
  - destruct (Z.ltb_spec d 0); [eauto | lia].
  - destruct (Z.ltb_spec (Z.of_nat n) 0); [lia|]. change (kfiles (set_fd k me n (Some f))) with (kfiles k).
    destruct (filedup_total f (kfiles k) Hr) as [s Es]. rewrite Es. cbn [rbind]. do 2 eexists. split; [reflexivity|].
    apply new_fd_ok; auto. by apply filedup_refs.
Qed.

Section calls.
Context (kend data forkret : Z) (sb : superblock).
Context (dev_read : Z -> option (nat -> mem -> Z -> Z -> fs -> res (Z * mem * fs))).
Context (dev_write : Z -> option (nat -> mem -> Z -> Z -> fs -> res (Z * fs))).

Lemma sys_close_ok me k r k' : fds_ok k -> ~ idle (proc_at k me) -> sys_close kend sb me k = Ok (r, k') -> fds_ok k'.
Proof.
  intros Hk Hme. unfold sys_close. destruct (argfd k me 0) as [[fd f]|] eqn:Ea; [|by intros [= _ <-]].
  apply argfd_spec in Ea as [Hfd Hf]. intros H. apply rbind_Ok_inv in H as (s & Hs & H). injection H as _ <-.
  apply fileclose_refs in Hs. eapply keeps_ok; [apply keeps_deliver|].
  apply set_fd_ok; auto using busy_in; [lia|]. intros g. rewrite Hf, points_none, Hs. cbn [set_fd upd_proc set_proc kfiles]. lia.
Qed.

Lemma keeps_fs k st : keeps k (set_fs k st).
Proof. by apply keeps_files. Qed.

Lemma op_ret_keeps k v st r k' : op_ret k v st = Ok (r, k') -> keeps k k'.
Proof. intros [= _ <-]. apply keeps_fs. Qed.

Lemma open_file_ok ip omode me k r k' :
  fds_ok k -> ~ idle (proc_at k me) -> open_file kend sb ip omode me k = Ok (r, k') -> fds_ok k'.
Proof.
  intros Hk Hme. unfold open_file. destruct (filealloc (kfiles k)) as [o s] eqn:Ef. apply filealloc_refs in Ef.
  destruct o as [f|].
  - destruct Ef as [_ Hs]. destruct (fdalloc f me (set_files k s)) as [d k1] eqn:Ed.
    destruct (fdalloc_cases _ _ _ _ _ Ed) as [[Hd ->]|(n & -> & -> & Hn & En)].
    + destruct (Z.ltb_spec d 0) as [_|]; [|lia]. intros H. apply rbind_Ok_inv in H as (s1 & Hc & H).
      apply rbind_Ok_inv in H as (st & _ & H). apply op_ret_keeps in H. eapply keeps_ok; [exact H|].
      eapply (keeps_ok k); [|exact Hk]. change (set_files (set_files k s) s1) with (set_files k s1).
      apply keeps_files. intros g. apply fileclose_refs in Hc. rewrite Hc.
      change (kfiles (set_files k s)) with s. rewrite Hs. lia.
    + destruct (Z.ltb_spec (Z.of_nat n) 0) as [|_]; [lia|]. intros H. apply rbind_Ok_inv in H as (st & _ & H). injection H as _ <-.
      set (k2 := set_fs _ _). set (x := mk_file _ _ _ _ _ _ _).
      assert (H2 : fds_ok k2).
      { eapply keeps_ok; [apply keeps_fs|]. by apply (new_fd_ok k s f me n). }
      eapply keeps_ok; [|exact H2]. apply keeps_files. intros g.
      assert (Hf : 1 <= refs s f).
      { rewrite Hs, points_self, (fo_ref _ Hk). pose proof (total_nonneg f (ptable k)). unfold fd_count. lia. }
      rewrite refs_set by (apply refs_in; change (refs (set_ffs s (op_end st)) f) with (refs s f); lia).
      by destruct (bool_decide_reflect (g = f)) as [->|].
  - subst s. intros H. apply rbind_Ok_inv in H as (st & _ & H). apply op_ret_keeps in H.
    eapply keeps_ok; [exact H|]. eapply keeps_ok; [|exact Hk]. by apply keeps_files.
Qed.

Lemma sys_open_ok me k r k' : fds_ok k -> ~ idle (proc_at k me) -> sys_open kend sb dev_read dev_write me k = Ok (r, k') -> fds_ok k'.
Proof.
  intros Hk Hme. unfold sys_open. destruct (argpath k me 0) as [path|]; [|by intros [= _ <-]].
  destruct (argint k me 1) as [omode|]; [|by intros [= _ <-]].
  assert (Hret : forall v st r k', op_ret k v st = Ok (r, k') -> fds_ok k').
  { intros v st r0 k0 H. eapply keeps_ok; [by eapply op_ret_keeps | done]. }
  assert (Hopen : forall ip st r k', open_file kend sb ip omode me (set_fs k st) = Ok (r, k') -> fds_ok k').
  { intros ip st r0 k0 H. eapply open_file_ok; [| |exact H]; [eapply keeps_ok; [apply keeps_fs | done] | done]. }
  destruct (negb (Z.land omode O_CREATE =? 0)); intros H; apply rbind_Ok_inv in H as ([o st] & _ & H);
    destruct o as [ip|]; eauto.
  apply rbind_Ok_inv in H as (st1 & _ & H). destruct (_ && _); eauto.
  apply rbind_Ok_inv in H as (st2 & _ & H). eauto.
Qed.

(** [pipealloc] gives each of the two files one reference, or none at all. *)
Lemma pipealloc_refs s o s' : pipealloc kend sb s = Ok (o, s') ->
  match o with
  | Some (f0, f1) => forall g, refs s' g = refs s g + points g (Some f0) + points g (Some f1)
  | None => forall g, refs s' g = refs s g
  end.
Proof.
  unfold pipealloc. destruct (filealloc s) as [o0 s0] eqn:E0. apply filealloc_refs in E0.
  destruct o0 as [f0|]; [|subst; by intros [= <- <-]]. destruct E0 as [Z0 R0].
  destruct (filealloc s0) as [o1 s1] eqn:E1. apply filealloc_refs in E1.
  destruct o1 as [f1|].
  - destruct E1 as [Z1 R1]. destruct (kalloc (fkm s1)) as [p k]. set (s2 := mk_fsys _ _ _ _ _).
    assert (R2 : forall g, refs s2 g = refs s g + points g (Some f0) + points g (Some f1)).
    { intros g. change (refs s2 g) with (refs s1 g). rewrite R1, R0. lia. }
    destruct (p =? 0).
    + intros H. apply rbind_Ok_inv in H as (s3 & H3 & H). apply rbind_Ok_inv in H as (s4 & H4 & H). injection H as <- <-.
      apply fileclose_refs in H3, H4. intros g. rewrite H4, H3, R2. lia.
    + intros [= <- <-]. intros g. set (s3 := mk_fsys _ _ _ _ _).
      assert (Hin0 : (f0 < length (ftable s3))%nat).
      { apply refs_in. change (refs s3 f0) with (refs s2 f0). rewrite R2, Z0, points_self.
        pose proof (points_range f0 (Some f1)). lia. }
      assert (Hin1 : (f1 < length (ftable s3))%nat).
      { apply refs_in. change (refs s3 f1) with (refs s1 f1). rewrite R1, Z1, points_self. lia. }
      set (s4 := set_file s3 f0 _). assert (H4 : refs s4 g = refs s3 g).
      { unfold s4. rewrite refs_set by done. by destruct (bool_decide_reflect (g = f0)) as [->|]. }
      rewrite refs_set by (unfold s4, set_file; cbn [ftable]; by rewrite length_insert).
      change (refs s3 g) with (refs s2 g) in H4. rewrite <- R2, <- H4.
      by destruct (bool_decide_reflect (g = f1)) as [->|].
  - subst s1. intros H. apply rbind_Ok_inv in H as (s3 & H3 & H). injection H as <- <-.
    apply fileclose_refs in H3. intros g. rewrite H3, R0. lia.
Qed.

Lemma uwrite_keeps me l va k k' : uwrite k me va l = Ok k' -> keeps k k'.
Proof.
  unfold uwrite. generalize (length l). intros f. revert l va k. induction f as [|f IH]; intros [|c l] va k; cbn [uwrite_pages]; try (by intros [= <-]).
  destruct (present _); [|done]. intros H. apply IH in H. etransitivity; [|exact H]. by apply keeps_files.
Qed.

Lemma sys_pipe_ok me k r k' : fds_ok k -> ~ idle (proc_at k me) -> sys_pipe kend sb me k = Ok (r, k') -> fds_ok k'.
Proof.
  intros Hk Hme. unfold sys_pipe. destruct (argptr k me 0 _) as [fd|]; [|by intros [= _ <-]].
  intros H. apply rbind_Ok_inv in H as ([o s] & Ho & H). apply pipealloc_refs in Ho.
  destruct o as [[rf wf]|]; [|injection H as _ <-; eapply keeps_ok; [by apply keeps_files | done]].
  destruct (fdalloc rf me (set_files k s)) as [d0 k0] eqn:E0.
  destruct (fdalloc_cases _ _ _ _ _ E0) as [[Hd ->]|(n0 & -> & -> & Hn0 & En0)].
  { destruct (Z.ltb_spec d0 0) as [_|]; [|lia]. unfold pipe_bad in H. destruct (Z.leb_spec 0 d0) as [|_]; [lia|].
    apply rbind_Ok_inv in H as (s1 & H1 & H). apply rbind_Ok_inv in H as (s2 & H2 & H). injection H as _ <-.
    eapply keeps_ok; [apply keeps_deliver|]. eapply (keeps_ok k); [|done].
    change (set_files (set_files k s) s2) with (set_files k s2). apply keeps_files. intros g.
    apply fileclose_refs in H1, H2. rewrite H2, H1. change (kfiles (set_files k s)) with s. rewrite Ho. lia. }
  destruct (Z.ltb_spec (Z.of_nat n0) 0) as [|_]; [lia|]. change (proc_at (set_files k s) me) with (proc_at k me) in *.
  pose proof (busy_in _ _ Hme) as Hin. assert (Hn0' : (n0 < Z.to_nat NOFILE)%nat) by (by rewrite <- (fo_len _ _ Hk me)).
  assert (H1 : fds_at (set_fd (set_files k s) me n0 (Some rf)) (fun f => points f (Some wf))).
  { pose proof (set_fd_at _ me n0 (Some rf) _ (files_at _ s _ Hk) Hin Hn0' (fun _ => Hme)) as [A1 A2 A3]. constructor; auto.
    intros f. rewrite A3, Ho. change (proc_at (set_files k s) me) with (proc_at k me). rewrite En0, points_none. lia. }
  set (k1 := set_fd (set_files k s) me n0 (Some rf)) in *.
  assert (Hin1 : (me < length (ptable k1))%nat) by (unfold k1, set_fd; by rewrite length_upd).
  assert (Hb1 : ~ idle (proc_at k1 me)) by (unfold k1; by rewrite idle_set_fd).
  destruct (fdalloc wf me k1) as [d1 k2] eqn:E1.
  destruct (fdalloc_cases _ _ _ _ _ E1) as [[Hd ->]|(n1 & -> & -> & Hn1 & En1)].
  - destruct (Z.ltb_spec d1 0) as [_|]; [|lia]. unfold pipe_bad in H. destruct (Z.leb_spec 0 (Z.of_nat n0)) as [_|]; [|lia].
    rewrite Nat2Z.id in H. apply rbind_Ok_inv in H as (s1 & C1 & H). apply rbind_Ok_inv in H as (s2 & C2 & H). injection H as _ <-.
    eapply keeps_ok; [apply keeps_deliver|]. apply fileclose_refs in C1, C2.
    eapply fds_at_ok; [eapply files_at, set_fd_at; [exact H1 | done | done | done]|]. intros f. cbn beta.
    change (kfiles (set_fd k1 me n0 None)) with (kfiles k1) in *.
    destruct (proc_at_set_fd (set_files k s) me n0 (Some rf) me Hin) as [Ek1 _]. fold k1 in Ek1. rewrite Ek1, bool_decide_true by done.
    rewrite C2, C1, nth_lookup, list_lookup_insert_eq by done. cbn [default from_option]. rewrite points_none. cbn. lia.
  - destruct (Z.ltb_spec (Z.of_nat n1) 0) as [|_]; [lia|].
    apply rbind_Ok_inv in H as (k3 & W3 & H). apply rbind_Ok_inv in H as (k4 & W4 & H). injection H as _ <-.
    eapply keeps_ok; [by eapply uwrite_keeps|]. eapply keeps_ok; [by eapply uwrite_keeps|].
    eapply fds_at_ok; [eapply set_fd_at; [exact H1 | done | by rewrite <- (fo_len _ _ H1 me) | done]|].
    intros f. cbn beta. rewrite En1, points_none. lia.
Qed.

(** ** Inheritance and exit *)

(** Like [keeps], for steps that may free the process slot. *)
Record moves (k k' : kern) : Prop := {
  mv_len : length (ptable k') = length (ptable k);
  mv_fds : forall p, p_ofile (proc_at k' p) = p_ofile (proc_at k p);
  mv_refs : forall f, refs (kfiles k') f = refs (kfiles k) f
}.

Lemma keeps_moves k k' : keeps k k' -> moves k k'.
Proof. intros []. by constructor. Qed.

Lemma moves_trans k1 k2 k3 : moves k1 k2 -> moves k2 k3 -> moves k1 k3.
Proof. intros [] []. constructor; congruence. Qed.

Lemma moves_upd k p g : (forall x, p_ofile (g x) = p_ofile x) -> moves k (upd_proc k p g).
Proof.
  intros H. constructor; [apply length_upd | | done]. intros q.
  destruct (decide (p < length (ptable k))%nat) as [Hp|Hp].
  - destruct (decide (q = p)) as [->|]; [rewrite proc_at_upd by done | rewrite proc_at_upd_ne by done]; auto.
  - unfold proc_at, upd_proc, set_proc. cbn [ptable]. by rewrite list_insert_ge by lia.
Qed.

Lemma moves_ok k k' : moves k k' -> fds_ok k -> (forall p, idle (proc_at k' p) -> no_fds (proc_at k p)) -> fds_ok k'.
Proof.
  intros [M1 M2 M3] [H1 H2 H3] Hi. constructor.
  - intros p. by rewrite M2.
  - intros p Hp. unfold no_fds. rewrite M2. by apply Hi.
  - intros f. rewrite M3, H3. f_equal. symmetry. by apply total_ext.
Qed.

(** One slot becomes free or exited; it has no descriptors. *)
Lemma upd_free_ok k p g : fds_ok k -> no_fds (proc_at k p) -> (forall x, p_ofile (g x) = p_ofile x) -> fds_ok (upd_proc k p g).
Proof.
  intros Hk Hp Hg. eapply moves_ok; [by apply moves_upd | done |]. intros q Hq.
  destruct (decide (q = p)) as [->|]; [done|]. rewrite proc_at_upd_ne in Hq by done. by apply (fo_idle _ _ Hk).
Qed.

Lemma allocproc_fds k o k' : allocproc forkret k = (o, k') -> fds_ok k ->
  fds_ok k' /\ match o with
               | Some np => (np < length (ptable k'))%nat /\ p_state (proc_at k' np) = EMBRYO /\ no_fds (proc_at k' np)
               | None => True
               end.
Proof.
  intros E Hk. unfold allocproc in E. destruct (find_unused (ptable k) 0) as [p|] eqn:Ef; [|by injection E as <- <-].
  apply find_unused_at in Ef as [Hp Hs]. assert (Hno : no_fds (proc_at k p)) by (apply (fo_idle _ _ Hk); by left).
  set (k1 := upd_proc k p _) in E. assert (H1 : fds_ok k1) by (by apply upd_free_ok).
  assert (N1 : no_fds (proc_at k1 p) /\ p_state (proc_at k1 p) = EMBRYO) by (unfold k1; by rewrite proc_at_upd).
  set (k2 := mk_kern _ _ _ _) in E. destruct (kalloc (kmem_of k2)) as [ks m].
  assert (H2 : keeps k1 (set_kmem k2 m)) by (by constructor).
  set (k3 := upd_proc (set_kmem k2 m) p _) in E.
  assert (Hp2 : (p < length (ptable (set_kmem k2 m)))%nat) by (rewrite (ke_len _ _ H2); unfold k1; by rewrite length_upd).
  assert (H3 : fds_ok k3) by (apply upd_free_ok; [by eapply keeps_ok | by destruct N1 | done]).
  assert (N3 : no_fds (proc_at k3 p) /\ p_state (proc_at k3 p) = EMBRYO) by (unfold k3; by rewrite proc_at_upd).
  destruct (ks =? 0); injection E as <- <-.
  - split; [|done]. apply upd_free_ok; by destruct N3.
  - split; [apply upd_free_ok; by destruct N3|].
    rewrite length_upd, proc_at_upd by (unfold k3; by rewrite length_upd). split; [unfold k3; by rewrite length_upd|]. by destruct N3.
Qed.

Lemma fork_files_ok l : forall i np k k', fork_files l i np k = Ok k' -> fds_ok k ->
  ~ idle (proc_at k np) -> (i + length l <= Z.to_nat NOFILE)%nat ->
  (forall j, (i <= j)%nat -> nth j (p_ofile (proc_at k np)) None = None) ->
  fds_ok k' /\ ~ idle (proc_at k' np).
Proof.
  induction l as [|[f|] l IH]; intros i np k k'; cbn [fork_files length]; intros H Hk Hb Hl Hn.
  - by injection H as <-.
  - apply rbind_Ok_inv in H as (s & Hs & H). apply filedup_refs in Hs. pose proof (busy_in _ _ Hb) as Hin.
    set (k1 := upd_proc _ np _) in H. assert (E1 : k1 = set_files (set_fd k np i (Some f)) s) by reflexivity.
    destruct (proc_at_set_fd k np i (Some f) np Hin) as [Ef Es]. rewrite bool_decide_true in Ef by done.
    assert (Hi : (i < length (p_ofile (proc_at k np)))%nat) by (rewrite (fo_len _ _ Hk); lia).
    apply IH in H; auto; [| | lia |].
    + rewrite E1. apply new_fd_ok; auto.
    + rewrite E1. unfold idle. change (proc_at (set_files ?a ?b) np) with (proc_at a np). by rewrite Es.
    + intros j Hj. rewrite E1. change (proc_at (set_files ?a ?b) np) with (proc_at a np). rewrite Ef, nth_lookup.
      rewrite list_lookup_insert_ne by lia. rewrite <- nth_lookup. apply Hn. lia.
  - apply IH in H; auto; [lia|]. intros j Hj. apply Hn. lia.
Qed.

Lemma fork_fds me k r k' : fork kend data forkret me k = Ok (r, k') -> fds_ok k -> fds_ok k'.
Proof.
  unfold fork. destruct (allocproc forkret k) as [o k1] eqn:Ea. intros H Hk.
  destruct (allocproc_fds _ _ _ Ea Hk) as [H1 Hnp]. destruct o as [np|]; [|by injection H as _ <-].
  destruct Hnp as (Hin & Hst & Hno). apply rbind_Ok_inv in H as ([d m] & _ & H).
  set (k2 := upd_proc (set_kmem k1 m) np _) in H.
  assert (K2 : keeps k1 k2).
  { etransitivity; [by apply (keeps_files k1 (set_km (kfiles k1) m))|]. by apply keeps_upd. }
  destruct (d =? 0).
  { apply rbind_Ok_inv in H as (m2 & _ & H). injection H as _ <-. apply upd_free_ok; [| |done].
    - eapply keeps_ok; [|exact H1]. etransitivity; [exact K2|]. by apply (keeps_files k2 (set_km (kfiles k2) m2)).
    - unfold no_fds. change (proc_at (set_kmem k2 m2) np) with (proc_at k2 np). by rewrite (ke_fds _ _ K2). }
  set (k3 := upd_proc k2 np _) in H. assert (K3 : keeps k1 k3) by (etransitivity; [exact K2 | by apply keeps_upd]).
  assert (E3 : p_state (proc_at k3 np) = EMBRYO).
  { unfold k3. rewrite proc_at_upd by (by rewrite (ke_len _ _ K2)). unfold k2. by rewrite proc_at_upd by done. }
  assert (S3 : ~ idle (proc_at k3 np)) by (unfold idle; rewrite E3; by intros [?|?]).
  apply rbind_Ok_inv in H as (k4 & H4 & H). apply fork_files_ok in H4 as [F4 S4].
  - apply rbind_Ok_inv in H as (k5 & H5 & H). injection H as _ <-.
    assert (K5 : keeps k4 k5).
    { destruct (p_cwd _) as [ip|]; [|done]. injection H5 as <-.
      etransitivity; [by apply (keeps_files k4 (set_ffs (kfiles k4) (idup ip (ffs (kfiles k4)))))|]. by apply keeps_upd. }
    eapply keeps_ok; [|exact F4]. etransitivity; [exact K5|]. etransitivity; [|by apply keeps_state]. by apply keeps_upd.
  - by eapply keeps_ok.
  - done.
  - rewrite (fo_len _ _ (keeps_ok _ _ K2 H1)). lia.
  - intros j _. rewrite (ke_fds _ _ K3). rewrite nth_lookup.
    destruct (p_ofile (proc_at k1 np) !! j) as [o|] eqn:Eo; [|done]. cbn. by eapply Forall_lookup_1 in Hno; [|exact Eo].
Qed.

Lemma exit_files_ok n : forall fd me k k', exit_files kend sb n fd me k = Ok k' -> fds_ok k -> ~ idle (proc_at k me) ->
  (fd + n <= Z.to_nat NOFILE)%nat -> (forall j, (j < fd)%nat -> nth j (p_ofile (proc_at k me)) None = None) ->
  fds_ok k' /\ ~ idle (proc_at k' me) /\ (forall j, (j < fd + n)%nat -> nth j (p_ofile (proc_at k' me)) None = None).
Proof.
  induction n as [|n IH]; intros fd me k k'; cbn [exit_files]; intros H Hk Hb Hl Hn.
  - injection H as <-. split_and!; auto. intros j Hj. apply Hn. lia.
  - apply rbind_Ok_inv in H as (k1 & H1 & H). pose proof (busy_in _ _ Hb) as Hin.
    assert (G : fds_ok k1 /\ ~ idle (proc_at k1 me) /\ (forall j, (j < S fd)%nat -> nth j (p_ofile (proc_at k1 me)) None = None)).
    { destruct (nth fd (p_ofile (proc_at k me)) None) as [f|] eqn:Ef.
      - apply rbind_Ok_inv in H1 as (s & Hs & H1). injection H1 as <-. apply fileclose_refs in Hs.
        change (upd_proc (set_files k s) me (fun x => with_ofile x (<[fd := None]> (p_ofile x)))) with (set_files (set_fd k me fd None) s).
        change (proc_at (set_files (set_fd k me fd None) s) me) with (proc_at (set_fd k me fd None) me).
        rewrite idle_set_fd by done. split_and!; auto.
        + apply set_fd_ok; auto; [lia|]. intros g. rewrite Ef, points_none, Hs. lia.
        + intros j Hj. destruct (proc_at_set_fd k me fd None me Hin) as [-> _]. rewrite bool_decide_true, nth_lookup by done.
          destruct (decide (j = fd)) as [->|]; [by rewrite list_lookup_insert_eq by (rewrite (fo_len _ _ Hk); lia)|].
          rewrite list_lookup_insert_ne by done. rewrite <- nth_lookup. apply Hn. lia.
      - injection H1 as <-. split_and!; auto. intros j Hj. destruct (decide (j = fd)) as [->|]; [done|]. apply Hn. lia. }
    destruct G as (G1 & G2 & G3). replace (fd + S n)%nat with (S fd + n)%nat by lia. apply (IH (S fd) me k1); auto. lia.
Qed.

Lemma reparent_keeps n : forall p me k, keeps k (reparent n p me k).
Proof.
  induction n as [|n IH]; intros p me k; cbn [reparent]; [reflexivity|]. etransitivity; [|apply IH].
  destruct (bool_decide _); [|reflexivity]. set (k1 := upd_proc k p _).
  assert (K1 : keeps k k1) by (by apply keeps_upd). destruct (bool_decide _); [|done].
  destruct (initproc k1); [|done]. etransitivity; [exact K1 | apply keeps_wakeup1].
Qed.

Lemma exit_fds me k k' : exit kend sb me k = Ok k' -> fds_ok k -> ~ idle (proc_at k me) -> fds_ok k'.
Proof.
  unfold exit. destruct (bool_decide _); [done|]. intros H Hk Hb. apply rbind_Ok_inv in H as (k1 & H1 & H).
  apply exit_files_ok in H1 as (F1 & _ & N1); [|done | done | lia | intros; lia].
  apply rbind_Ok_inv in H as (st & _ & H). injection H as <-. set (k2 := upd_proc _ me _).
  assert (K2 : keeps k1 k2) by (etransitivity; [by apply (keeps_fs k1 (op_end st)) | by apply keeps_upd]).
  unfold exit_zombie. set (k3 := match p_parent (proc_at k2 me) with Some q => wakeup1 (ChProc q) k2 | None => k2 end).
  assert (K3 : keeps k1 k3).
  { unfold k3. destruct (p_parent _); [etransitivity; [exact K2 | apply keeps_wakeup1] | exact K2]. }
  set (k4 := reparent _ 0 me k3). assert (K4 : keeps k1 k4) by (etransitivity; [exact K3 | apply reparent_keeps]).
  apply upd_free_ok; [by eapply keeps_ok | | done]. unfold no_fds. rewrite (ke_fds _ _ K4). apply Forall_lookup_2.
  intros j o Ho. assert (Hj : (j < Z.to_nat NOFILE)%nat) by (rewrite <- (fo_len _ _ F1 me); by apply lookup_lt_Some in Ho).
  specialize (N1 j ltac:(lia)). by rewrite (nth_lookup_Some _ _ _ _ Ho) in N1.
Qed.

Lemma wait_fds me k r k' : wait kend me k = Ok (r, k') -> fds_ok k -> fds_ok k'.
Proof.
  unfold wait. intros H Hk. apply rbind_Ok_inv in H as ([[o hk] k1] & Hs & H).
  assert (K1 : keeps k k1).
  { revert Hs. generalize (length (ptable k)), 0%nat, false. intros n. induction n as [|n IH]; intros p b; cbn [wait_scan].
    - intros [= _ _ <-]. reflexivity.
    - destruct (bool_decide (p_parent _ = _)); cbn [negb]; [|apply IH].
      destruct (bool_decide_reflect (p_state (proc_at k p) = ZOMBIE)) as [Hz|]; [|apply IH].
      intros H'. apply rbind_Ok_inv in H' as (m1 & _ & H'). apply rbind_Ok_inv in H' as (m2 & _ & H'). injection H' as _ _ <-.
      etransitivity; [by apply (keeps_files k (set_km (kfiles k) m2))|]. apply keeps_upd; [done|]. intros _. by right. }
  apply (keeps_ok _ _ K1) in Hk. destruct o as [pid|]; [by injection H as _ <-|].
  destruct (negb hk || _); injection H as _ <-; [done|].
  eapply keeps_ok; [|exact Hk]. unfold sleep. apply keeps_upd; [done|]. intros [E|E]; cbn in E; congruence.
Qed.

(** ** Reading and writing *)

Lemma refs_set_off s f o g : refs (set_file s f (set_foff (file_at s f) o)) g = refs s g.
Proof.
  destruct (decide (f < length (ftable s))%nat) as [Hf|Hf].
  - rewrite refs_set by done. by destruct (bool_decide_reflect (g = f)) as [->|].
  - unfold refs, file_at, set_file. cbn [ftable]. by rewrite list_insert_ge by lia.
Qed.

Lemma fileread_refs f m a n kl s r m' s' g : fileread sb dev_read f m a n kl s = Ok (r, m', s') -> refs s' g = refs s g.
Proof.
  unfold fileread. destruct (f_readable _); cbn [negb]; [|by intros [= _ _ <-]]. destruct (f_type _); [done | |].
  - destruct (pipes s !! _) as [p|]; [|done]. destruct (piperead p n kl) as [[p' rr] w].
    by destruct rr; intros [= _ _ <-].
  - intros H. apply rbind_Ok_inv in H as (st & _ & H). apply rbind_Ok_inv in H as ([[v m1] st1] & _ & H).
    apply rbind_Ok_inv in H as (st2 & _ & H). injection H as _ _ <-.
    change (refs (set_ffs ?t st2) g) with (refs t g). destruct (0 <? v); [apply refs_set_off | done].
Qed.

Lemma filewrite_loop_refs fuel : forall f m a i n s r s' g,
  filewrite_loop sb dev_write fuel f m a i n s = Ok (r, s') -> refs s' g = refs s g.
Proof.
  induction fuel as [|fuel IH]; intros f m a i n s r s' g; cbn [filewrite_loop];
    (destruct (i <? n); [|by intros [= _ <-]]); [done|].
  intros H. apply rbind_Ok_inv in H as (st & _ & H). apply rbind_Ok_inv in H as ([v st1] & _ & H).
  apply rbind_Ok_inv in H as (st2 & _ & H). set (s1 := if 0 <? v then _ else s) in H.
  assert (E1 : refs (set_ffs s1 (op_end st2)) g = refs s g).
  { change (refs (set_ffs s1 (op_end st2)) g) with (refs s1 g). unfold s1. destruct (0 <? v); [apply refs_set_off | done]. }
  destruct (v <? 0); [by injection H as _ <-|]. destruct (negb _); [done|]. apply IH with (g := g) in H. by rewrite H.
Qed.

Lemma filewrite_refs f m a n kl s r s' g : filewrite sb dev_write f m a n kl s = Ok (r, s') -> refs s' g = refs s g.
Proof.
  unfold filewrite. destruct (f_writable _); cbn [negb]; [|by intros [= _ <-]]. destruct (f_type _); [done | |].
  - unfold write_pipe. destruct (pipes s !! _) as [p|]; [|done]. destruct (pipewrite p _ kl) as [[p' rr] w].
    by destruct rr; intros [= _ <-].
  - intros H. apply rbind_Ok_inv in H as ([v s1] & H1 & H). injection H as _ <-. by eapply filewrite_loop_refs.
Qed.

Lemma sleep_keeps me c k : keeps k (sleep me c k).
Proof. unfold sleep. apply keeps_upd; [done|]. intros [E|E]; cbn in E; congruence. Qed.

Lemma sys_read_keeps me k r k' : sys_read sb dev_read me k = Ok (r, k') -> keeps k k'.
Proof.
  unfold sys_read. destruct (rw_args k me) as [[[f p] n]|]; [|by intros [= _ <-]].
  intros H. apply rbind_Ok_inv in H as ([[v m] s] & Hr & H).
  assert (K : keeps k (deliver (set_files k s))).
  { etransitivity; [|apply keeps_deliver]. apply keeps_files. intros g. by eapply fileread_refs. }
  destruct v as [v|l].
  - apply rbind_Ok_inv in H as (k1 & H1 & H). injection H as _ <-. etransitivity; [exact K | by eapply uwrite_keeps].
  - injection H as _ <-. etransitivity; [exact K | apply sleep_keeps].
Qed.

Lemma sys_write_keeps me k r k' : sys_write sb dev_write me k = Ok (r, k') -> keeps k k'.
Proof.
  unfold sys_write. destruct (rw_args k me) as [[[f p] n]|]; [|by intros [= _ <-]].
  intros H. apply rbind_Ok_inv in H as ([v s] & Hr & H).
  assert (K : keeps k (deliver (set_files k s))).
  { etransitivity; [|apply keeps_deliver]. apply keeps_files. intros g. by eapply filewrite_refs. }
  destruct v as [v|l]; injection H as _ <-; [exact K|]. etransitivity; [exact K | apply sleep_keeps].
Qed.

(** ** Any sequence of calls by any processes *)

Inductive fdstep : kern -> kern -> Prop :=
| fs_dup me k r k' : ~ idle (proc_at k me) -> sys_dup me k = Ok (r, k') -> fdstep k k'
| fs_close me k r k' : ~ idle (proc_at k me) -> sys_close kend sb me k = Ok (r, k') -> fdstep k k'
| fs_open me k r k' : ~ idle (proc_at k me) -> sys_open kend sb dev_read dev_write me k = Ok (r, k') -> fdstep k k'
| fs_pipe me k r k' : ~ idle (proc_at k me) -> sys_pipe kend sb me k = Ok (r, k') -> fdstep k k'
| fs_read me k r k' : ~ idle (proc_at k me) -> sys_read sb dev_read me k = Ok (r, k') -> fdstep k k'
| fs_write me k r k' : ~ idle (proc_at k me) -> sys_write sb dev_write me k = Ok (r, k') -> fdstep k k'
| fs_fork me k r k' : ~ idle (proc_at k me) -> sys_fork kend data forkret me k = Ok (r, k') -> fdstep k k'
| fs_exit me k r k' : ~ idle (proc_at k me) -> sys_exit kend sb me k = Ok (r, k') -> fdstep k k'
| fs_wait me k r k' : ~ idle (proc_at k me) -> sys_wait kend me k = Ok (r, k') -> fdstep k k'.

Lemma fdstep_ok k k' : fdstep k k' -> fds_ok k -> fds_ok k'.
Proof.
  destruct 1 as [me k r k' Hb H|me k r k' Hb H|me k r k' Hb H|me k r k' Hb H|me k r k' Hb H|me k r k' Hb H
                |me k r k' Hb H|me k r k' Hb H|me k r k' Hb H]; intros Hk.
  - destruct (sys_dup_ok me k Hk Hb) as (r1 & k1 & E & ?). congruence.
  - by eapply sys_close_ok.
  - by eapply sys_open_ok.
  - by eapply sys_pipe_ok.
  - eapply keeps_ok; [by eapply sys_read_keeps | done].
  - eapply keeps_ok; [by eapply sys_write_keeps | done].
  - apply rbind_Ok_inv in H as ([v k1] & H1 & H). injection H as _ <-. by eapply fork_fds.
  - apply rbind_Ok_inv in H as (k1 & H1 & H). injection H as _ <-. by eapply exit_fds.
  - apply rbind_Ok_inv in H as ([v k1] & H1 & H). injection H as _ <-. by eapply wait_fds.
Qed.

(** C15: reference counts of open files are exact.  Whatever sequence of dup,
    close, open, pipe, read, write, fork, exit and wait calls any processes
    make, failed calls included: the count of every file is the number of
    descriptors of all processes that point to it; so a file slot is free
    exactly when nothing points to it, [filedup] of an open descriptor never
    panics, and an exited process holds no descriptor. *)
Theorem file_refcounts k k' :
  fds_ok k -> rtc fdstep k k' ->
  (forall f, f_ref (file_at (kfiles k') f) = fd_count k' f) /\
  (forall p fd f, nth fd (p_ofile (proc_at k' p)) None = Some f -> exists s, filedup f (kfiles k') = Ok s) /\
  (forall p, p_state (proc_at k' p) = ZOMBIE -> no_fds (proc_at k' p)).
Proof.
  intros Hk Hs. assert (Hk' : fds_ok k') by (induction Hs; eauto using fdstep_ok). split_and!.
  - apply (fo_ref _ Hk').
  - intros p fd f H. apply filedup_total. by eapply fd_refs.
  - intros p Hp. apply (fo_idle _ _ Hk'). by right.
Qed.
End calls.

(** ** Witness: a process whose first descriptor is file 1 duplicates it *)

Definition wit_fds : kern :=
  set_files (upd_proc wit_grow 0 (fun x => with_ofile x (<[0%nat := Some 1%nat]> (p_ofile x))))
    (set_file (kfiles wit_grow) 1 (mk_file FD_INODE 1 true true 0 0 0)).

Lemma wit_fds_ok : fds_ok wit_fds.
Proof.
  constructor.
  - intros [|p]; [done|]. by rewrite proc_at_out by (cbn; lia).
  - intros [|p]; [intros [E|E]; done|]. intros _. rewrite proc_at_out by (cbn; lia). repeat constructor.
  - intros f. destruct (decide (f = 1%nat)) as [->|Hf]; [reflexivity|].
    assert (E : fd_count wit_fds f = 0).
    { cbn -[points]. unfold points at 1. rewrite bool_decide_false by congruence. done. }
    rewrite E. unfold refs, file_at, wit_fds. cbn [kfiles set_files set_file ftable].
    destruct f as [|[|[|[|f]]]]; try done. by destruct f.
Qed.

Definition wit_dup : kern :=
  set_files (set_fd wit_fds 0 1 (Some 1%nat)) (set_file (kfiles wit_fds) 1 (set_fref (file_at (kfiles wit_fds) 1) 2)).

Lemma wit_argfd : argfd wit_fds 0 0 = Some (0, 1%nat).
Proof. vm_compute. reflexivity. Qed.

Lemma wit_dup_step : sys_dup 0 wit_fds = Ok (SRet 1, wit_dup).
Proof. unfold sys_dup. rewrite wit_argfd. reflexivity. Qed.

Lemma file_refcounts_witness : fd_count wit_dup 1 = 2 /\ f_ref (file_at (kfiles wit_dup) 1) = fd_count wit_dup 1.
Proof.
  split; [reflexivity|].
  apply (file_refcounts 0 0 0 mkfs_sb no_dev no_dev wit_fds wit_dup wit_fds_ok).
  eapply rtc_once, (fs_dup _ _ _ _ _ _ 0 _ (SRet 1)); [intros [E|E]; discriminate E | exact wit_dup_step].
Defined.
