(* ===== verification/Console.v ===== *)
(** * The console (src/console.c, src/uart.c)

    The screen is the cursor position and the CGA cells, the serial line the
    bytes sent to it; [input] is the circular line buffer with its read, write
    and edit indices, which are 32-bit counters.  An interrupt is the list of
    characters its [getc] returns before -1. *)

From S2P Require Import Prelude Layout StringLib.

Definition BACKSPACE : Z := 0x100.
Definition INPUT_BUF : Z := 128.
Definition NL : Z := 10.
Definition CR : Z := 13.
Definition CTRL (x : Z) : Z := x - 64.       (* C(x), the Control-x character *)
Definition C_D : Z := CTRL 68.
Definition C_H : Z := CTRL 72.
Definition C_P : Z := CTRL 80.
Definition C_U : Z := CTRL 85.
Definition DEL : Z := 0x7f.

Record cons := mk_cons {
  in_buf : mem;           (* input.buf[INPUT_BUF] *)
  in_r : Z;
  in_w : Z;
  in_e : Z;
  c_pos : Z;              (* cursor: col + 80*row *)
  c_crt : mem;            (* 16-bit cells of the screen *)
  c_uart : bool;          (* is there a uart? *)
  c_sent : list Z;        (* bytes sent to it, last first *)
  c_panicked : bool
}.

Definition set_screen (s : cons) (pos : Z) (crt : mem) : cons :=
  mk_cons (in_buf s) (in_r s) (in_w s) (in_e s) pos crt (c_uart s) (c_sent s) (c_panicked s).
Definition set_indices (s : cons) (r w e : Z) : cons :=
  mk_cons (in_buf s) r w e (c_pos s) (c_crt s) (c_uart s) (c_sent s) (c_panicked s).
Definition set_inbuf (s : cons) (b : mem) : cons :=
  mk_cons b (in_r s) (in_w s) (in_e s) (c_pos s) (c_crt s) (c_uart s) (c_sent s) (c_panicked s).

(** ** Output *)

Definition uartputc (c : Z) (s : cons) : cons :=
  if c_uart s then
    mk_cons (in_buf s) (in_r s) (in_w s) (in_e s) (c_pos s) (c_crt s) (c_uart s) (u8 c :: c_sent s) (c_panicked s)
  else s.

Definition cgaputc (c : Z) (s : cons) : res cons :=
  let pos := c_pos s in let crt := c_crt s in
  let '(pos, crt) :=
    if c =? NL then (pos + (80 - pos mod 80), crt)
    else if c =? BACKSPACE then (if 0 <? pos then pos - 1 else pos, crt)
    else (pos + 1, mset crt pos (Z.lor (Z.land c 0xff) 0x0700)) in
  if (pos <? 0) || (25 * 80 <? pos) then Panic "pos under/overflow"
  else
    let '(pos, crt) :=
      if 24 <=? pos / 80 then
        let crt := mcopy crt 0 crt 80 (23 * 80) in
        let pos := pos - 80 in
        (pos, mfill crt pos (24 * 80 - pos) 0)
      else (pos, crt) in
    Ok (set_screen s pos (mset crt pos (Z.lor 32 0x0700))).

(** A panicked CPU spins for ever. *)
Definition consputc (c : Z) (s : cons) : res cons :=
  if c_panicked s then Blocked
  else
    let s := if c =? BACKSPACE then uartputc 8 (uartputc 32 (uartputc 8 s)) else uartputc c s in
    cgaputc c s.

Fixpoint consputs (l : list Z) (s : cons) : res cons :=
  match l with
  | [] => Ok s
  | c :: l' => let* s := consputc c s in consputs l' s
  end.

(** [consolewrite]: the inode is unlocked around the loop. *)
Definition consolewrite (l : list Z) (s : cons) : res (Z * cons) :=
  let* s := consputs (map (fun c => Z.land c 0xff) l) s in Ok (Z.of_nat (length l), s).

(** ** Input *)

(** The loop of Control-U, at most [n] times. *)
Fixpoint kill_line (n : nat) (s : cons) : res cons :=
  if negb (in_e s =? in_w s) && negb (in_buf s (u32 (in_e s - 1) mod INPUT_BUF) =? NL) then
    match n with
    | O => Blocked
    | S n' =>
        let s := set_indices s (in_r s) (in_w s) (u32 (in_e s - 1)) in
        let* s := consputc BACKSPACE s in
        kill_line n' s
    end
  else Ok s.

(** One character; [true] when it wakes the readers. *)
Definition input_char (c : Z) (s : cons) : res (bool * cons) :=
  if c =? C_P then Ok (false, s)
  else if c =? C_U then let* s := kill_line (Z.to_nat (u32 (in_e s - in_w s))) s in Ok (false, s)
  else if (c =? C_H) || (c =? DEL) then
    if negb (in_e s =? in_w s) then
      let s := set_indices s (in_r s) (in_w s) (u32 (in_e s - 1)) in
      let* s := consputc BACKSPACE s in Ok (false, s)
    else Ok (false, s)
  else if negb (c =? 0) && (u32 (in_e s - in_r s) <? INPUT_BUF) then
    let c := if c =? CR then NL else c in
    let s := set_inbuf s (mset (in_buf s) (in_e s mod INPUT_BUF) (u8 c)) in
    let s := set_indices s (in_r s) (in_w s) (u32 (in_e s + 1)) in
    let* s := consputc c s in
    if (c =? NL) || (c =? C_D) || (in_e s =? u32 (in_r s + INPUT_BUF)) then
      Ok (true, set_indices s (in_r s) (in_e s) (in_e s))
    else Ok (false, s)
  else Ok (false, s).

(** The characters of one interrupt: were readers woken, is a process listing due. *)
Fixpoint consoleintr (l : list Z) (s : cons) : res (bool * bool * cons) :=
  match l with
  | [] => Ok (false, false, s)
  | c :: l' =>
      let* (w, s) := input_char c s in
      let* (w', d, s) := consoleintr l' s in
      Ok (w || w', d || (c =? C_P), s)
  end.

(** A read that has [n] bytes to go: finished, interrupted, or asleep on &input.r
    with [rest] still to go.  The bytes are those stored meanwhile. *)
Inductive cres := CDone | CErr | CSleep (rest : nat).

Fixpoint consoleread (n : nat) (target : Z) (killed : bool) (s : cons) : cons * list Z * cres :=
  match n with
  | O => (s, [], CDone)
  | S n' =>
      if in_r s =? in_w s then
        if killed then (s, [], CErr) else (s, [], CSleep n)
      else
        let c := in_buf s (in_r s mod INPUT_BUF) in
        let s := set_indices s (u32 (in_r s + 1)) (in_w s) (in_e s) in
        if c =? C_D then
          if Z.of_nat n <? target then (set_indices s (u32 (in_r s - 1)) (in_w s) (in_e s), [], CDone)
          else (s, [], CDone)
        else if c =? NL then (s, [c], CDone)
        else let '(s, l, r) := consoleread n' target killed s in (s, c :: l, r)
  end.

(** ** The screen never overflows *)

Definition screen_ok (s : cons) : Prop := 0 <= c_pos s < 25 * 80 /\ c_panicked s = false.

(** The input buffer, as the echo leaves it. *)
Definition same_input (s s' : cons) : Prop :=
  in_buf s' = in_buf s /\ in_r s' = in_r s /\ in_w s' = in_w s /\ in_e s' = in_e s.

Lemma cgaputc_ok c s : screen_ok s -> exists s', cgaputc c s = Ok s' /\ screen_ok s' /\ same_input s s' /\ c_sent s' = c_sent s.
Proof.
  intros [Hp Hq]. unfold cgaputc.
  set (P := if c =? NL then _ else _). assert (HP : 0 <= fst P <= 25 * 80).
  { unfold P. destruct (c =? NL); [cbn; zdiv|]. destruct (c =? BACKSPACE); cbn; zcases; lia. }
  destruct P as [pos crt]. cbn [fst] in HP. destruct (Z.ltb_spec pos 0); [lia|].
  destruct (Z.ltb_spec (25 * 80) pos); [lia|]. cbn [orb].
  destruct (Z.leb_spec 24 (pos / 80)); eexists; (split; [reflexivity|]); (split; [split; [cbn [c_pos set_screen]; zdiv | done]|]); done.
Qed.

Lemma uartputc_same c s : same_input s (uartputc c s) /\ c_pos (uartputc c s) = c_pos s /\ c_panicked (uartputc c s) = c_panicked s.
Proof. unfold uartputc. by destruct (c_uart s). Qed.

Lemma consputc_ok c s : screen_ok s -> exists s', consputc c s = Ok s' /\ screen_ok s' /\ same_input s s'.
Proof.
  intros Hs. unfold consputc. destruct Hs as [Hp Hq]. rewrite Hq. set (s1 := if c =? BACKSPACE then _ else _).
  assert (H1 : same_input s s1 /\ screen_ok s1).
  { unfold s1, same_input, screen_ok, uartputc. destruct (c =? BACKSPACE); destruct (c_uart s) eqn:E; cbn; rewrite ?E; cbn; auto. }
  destruct H1 as [(A1 & A2 & A3 & A4) H1]. destruct (cgaputc_ok c s1 H1) as (s' & E & Ho & (B1 & B2 & B3 & B4) & _).
  exists s'. split_and!; auto. unfold same_input. split_and!; congruence.
Qed.

(** ** Lines: what the indices stand for *)

Definition slice (b : mem) (a : Z) (n : nat) : list Z := map (fun i => b ((a + Z.of_nat i) mod INPUT_BUF)) (seq 0 n).

(** [nr] committed bytes from [in_r] on, then [ne] bytes being edited. *)
Record in_rep (s : cons) (nr ne : Z) : Prop := {
  ir_r : 0 <= in_r s < 2 ^ 32;
  ir_w : in_w s = u32 (in_r s + nr);
  ir_e : in_e s = u32 (in_r s + nr + ne);
  ir_nr : 0 <= nr;
  ir_ne : 0 <= ne;
  ir_full : nr + ne <= INPUT_BUF
}.

Record line := mk_line { l_ready : list Z; l_edit : list Z }.

(** What one character does to the lines; [true] when a line is complete. *)
Definition line_char (c : Z) (l : line) : bool * line :=
  let room := INPUT_BUF - Z.of_nat (length (l_ready l) + length (l_edit l)) in
  if c =? C_P then (false, l)
  else if c =? C_U then (false, mk_line (l_ready l) [])
  else if (c =? C_H) || (c =? DEL) then (false, mk_line (l_ready l) (removelast (l_edit l)))
  else if negb (c =? 0) && (0 <? room) then
    let c := if c =? CR then NL else c in
    let e := l_edit l ++ [c] in
    if (c =? NL) || (c =? C_D) || (room =? 1) then (true, mk_line (l_ready l ++ e) [])
    else (false, mk_line (l_ready l) e)
  else (false, l).

Fixpoint line_chars (cs : list Z) (l : line) : bool * line :=
  match cs with
  | [] => (false, l)
  | c :: cs' => let (w, l) := line_char c l in let (w', l) := line_chars cs' l in (w || w', l)
  end.

(** The buffer holds the lines; a line being edited has no newline in it. *)
Record holds (s : cons) (l : line) : Prop := {
  ho_rep : in_rep s (Z.of_nat (length (l_ready l))) (Z.of_nat (length (l_edit l)));
  ho_ready : slice (in_buf s) (in_r s) (length (l_ready l)) = l_ready l;
  ho_edit : slice (in_buf s) (in_r s + Z.of_nat (length (l_ready l))) (length (l_edit l)) = l_edit l;
  ho_nl : Forall (fun c => c <> NL) (l_edit l)
}.

Lemma u32_mod_128 a : u32 a mod INPUT_BUF = a mod INPUT_BUF.
Proof. unfold INPUT_BUF. change 128 with (2 ^ 7). apply u32_mod_pow2. lia. Qed.

Lemma length_slice b a n : length (slice b a n) = n.
Proof. unfold slice. by rewrite length_map, length_seq. Qed.

Lemma slice_S b a n : slice b a (S n) = slice b a n ++ [b ((a + Z.of_nat n) mod INPUT_BUF)].
Proof. unfold slice. by rewrite seq_S, map_app. Qed.

Lemma slice_cons b a n : slice b a (S n) = b (a mod INPUT_BUF) :: slice b (a + 1) n.
Proof.
  unfold slice. cbn [seq map]. rewrite Z.add_0_r. f_equal. rewrite <- seq_shift, map_map. apply map_ext. intros i.
  do 2 f_equal. lia.
Qed.

Lemma slice_app b a n m : slice b a (n + m) = slice b a n ++ slice b (a + Z.of_nat n) m.
Proof.
  unfold slice. rewrite seq_app, map_app. f_equal. cbn [Nat.add]. rewrite <- (Nat.add_0_r n) at 1.
  rewrite <- fmap_add_seq. change (fmap (Nat.add n)) with (map (Nat.add n)). rewrite map_map.
  apply map_ext. intros i. do 2 f_equal. lia.
Qed.

(** A byte stored behind the slice does not touch it. *)
Lemma slice_put b a n j v : Z.of_nat n <= j < INPUT_BUF -> slice (mset b ((a + j) mod INPUT_BUF) v) a n = slice b a n.
Proof.
  intros Hj. apply map_ext_in. intros i Hi%in_seq. apply mset_ne. unfold INPUT_BUF in *. zdiv.
Qed.

Lemma u32_diff a n : 0 <= n < 2 ^ 32 -> u32 (u32 (a + n) - u32 a) = n.
Proof. intros Hn. rewrite u32_sub_l, u32_sub_r. replace (a + n - a) with n by lia. by apply u32_small. Qed.

Section rep.
Context (s : cons) (nr ne : Z) (H : in_rep s nr ne).

Lemma rep_bounds : 0 <= nr /\ 0 <= ne /\ nr + ne <= 128.
Proof. destruct H. unfold INPUT_BUF in *. lia. Qed.

Lemma rep_ne : u32 (in_e s - in_w s) = ne.
Proof. pose proof rep_bounds. rewrite (ir_e _ _ _ H), (ir_w _ _ _ H). apply u32_diff. lia. Qed.

Lemma rep_n : u32 (in_e s - in_r s) = nr + ne.
Proof.
  pose proof rep_bounds. rewrite (ir_e _ _ _ H). rewrite <- (u32_small (in_r s)) at 2 by apply H.
  rewrite <- Z.add_assoc. apply u32_diff. lia.
Qed.

Lemma rep_nr : u32 (in_w s - in_r s) = nr.
Proof.
  pose proof rep_bounds. rewrite (ir_w _ _ _ H). rewrite <- (u32_small (in_r s)) at 2 by apply H. apply u32_diff. lia.
Qed.

Lemma rep_no_edit : (in_e s =? in_w s) = (ne =? 0).
Proof.
  pose proof rep_bounds. pose proof rep_ne as E. destruct (Z.eqb_spec (in_e s) (in_w s)) as [Ew|Ew].
  - rewrite Ew, Z.sub_diag in E. change (u32 0) with 0 in E. by destruct (Z.eqb_spec ne 0).
  - destruct (Z.eqb_spec ne 0) as [->|]; [|done]. destruct Ew. by rewrite (ir_e _ _ _ H), (ir_w _ _ _ H), Z.add_0_r.
Qed.

Lemma rep_no_ready : (in_r s =? in_w s) = (nr =? 0).
Proof.
  pose proof rep_bounds. pose proof rep_nr as E. destruct (Z.eqb_spec (in_r s) (in_w s)) as [Ew|Ew].
  - rewrite Ew, Z.sub_diag in E. change (u32 0) with 0 in E. by destruct (Z.eqb_spec nr 0).
  - destruct (Z.eqb_spec nr 0) as [->|]; [|done]. destruct Ew. rewrite (ir_w _ _ _ H), Z.add_0_r, u32_small; [done | apply H].
Qed.
End rep.

Lemma holds_same s s' l : same_input s s' -> holds s l -> holds s' l.
Proof.
  intros (E1 & E2 & E3 & E4) [[] ? ? ?]. constructor; rewrite ?E1, ?E2; auto. constructor; rewrite ?E2, ?E3, ?E4; auto.
Qed.

(** Stepping back over the last edited byte. *)
Lemma holds_back s r e c : holds s (mk_line r (e ++ [c])) ->
  in_buf s (u32 (in_e s - 1) mod INPUT_BUF) = c /\
  holds (set_indices s (in_r s) (in_w s) (u32 (in_e s - 1))) (mk_line r e).
Proof.
  intros [[H1 H2 H3 H4 H5 H6] Hr He Hn]. cbn [l_ready l_edit] in *. rewrite length_app in *. cbn [length] in *.
  rewrite Nat.add_1_r in *. rewrite slice_S in He. apply app_inj_tail in He as [He Hc].
  assert (Ee : u32 (in_e s - 1) = u32 (in_r s + Z.of_nat (length r) + Z.of_nat (length e))).
  { rewrite H3, u32_sub_l. f_equal. lia. }
  split; [by rewrite Ee, u32_mod_128, Hc|]. apply Forall_app in Hn as [Hn _].
  constructor; cbn [l_ready l_edit in_buf in_r set_indices]; auto. constructor; cbn; auto; lia.
Qed.

Lemma kill_line_ok s r : forall e, holds s (mk_line r e) -> screen_ok s ->
  exists s', kill_line (length e) s = Ok s' /\ holds s' (mk_line r []) /\ screen_ok s'.
Proof.
  intros e. remember (length e) as n eqn:En. revert s e En. induction n as [|n IH]; intros s e En Hh Hs.
  - destruct e; [|done]. exists s. cbn [kill_line].
    rewrite (rep_no_edit _ _ _ (ho_rep _ _ Hh)). cbn [l_edit length Z.of_nat Z.eqb negb andb]. done.
  - destruct e as [|c e _] using rev_ind; [done|]. rewrite length_app, Nat.add_1_r in En. injection En as En.
    destruct (holds_back _ _ _ _ Hh) as [Hc Hb]. pose proof (ho_nl _ _ Hh) as Hn. cbn [l_edit] in Hn.
    apply Forall_app in Hn as [_ Hn]. apply Forall_cons_1 in Hn as [Hn _].
    cbn [kill_line]. rewrite (rep_no_edit _ _ _ (ho_rep _ _ Hh)), Hc. cbn [l_edit]. rewrite length_app. cbn [length].
    destruct (Z.eqb_spec (Z.of_nat (length e + 1)) 0); [lia|]. destruct (Z.eqb_spec c NL) as [Ec|_]; [by destruct (Hn Ec)|]. cbn [negb andb].
    set (s1 := set_indices s _ _ _) in *. destruct (consputc_ok BACKSPACE s1) as (s2 & E2 & Hs2 & Hi); [done|].
    rewrite E2. cbn [rbind]. apply (IH s2 e); auto. by eapply holds_same.
Qed.

(** One more byte at the end of the edited line. *)
Lemma holds_put s r e c : holds s (mk_line r e) -> Z.of_nat (length r + length e) < INPUT_BUF ->
  let s1 := set_inbuf s (mset (in_buf s) (in_e s mod INPUT_BUF) c) in
  let s2 := set_indices s1 (in_r s1) (in_w s1) (u32 (in_e s1 + 1)) in
  in_rep s2 (Z.of_nat (length r)) (Z.of_nat (length (e ++ [c]))) /\
  slice (in_buf s2) (in_r s2) (length r) = r /\
  slice (in_buf s2) (in_r s2 + Z.of_nat (length r)) (length (e ++ [c])) = e ++ [c].
Proof.
  intros [[H1 H2 H3 H4 H5 H6] Hr He Hn] Hroom s1 s2. cbn [l_ready l_edit] in *.
  assert (Ee : in_e s mod INPUT_BUF = (in_r s + Z.of_nat (length r + length e)) mod INPUT_BUF).
  { rewrite H3, u32_mod_128. f_equal. lia. }
  rewrite length_app. cbn [length s2 s1 in_buf in_r in_w in_e set_indices set_inbuf]. split_and!.
  - constructor; cbn; auto; try lia. rewrite H3, u32_add_l. f_equal. lia.
  - rewrite Ee, slice_put by lia. done.
  - rewrite Nat.add_1_r, slice_S, Ee. f_equal.
    + replace (in_r s + Z.of_nat (length r + length e)) with (in_r s + Z.of_nat (length r) + Z.of_nat (length e)) by lia.
      rewrite slice_put by lia. done.
    + f_equal. replace (in_r s + Z.of_nat (length r) + Z.of_nat (length e)) with (in_r s + Z.of_nat (length r + length e)) by lia.
      apply mset_eq.
Qed.

(** The edited line becomes readable. *)
Lemma holds_commit s r e : in_rep s (Z.of_nat (length r)) (Z.of_nat (length e)) ->
  slice (in_buf s) (in_r s) (length r) = r -> slice (in_buf s) (in_r s + Z.of_nat (length r)) (length e) = e ->
  holds (set_indices s (in_r s) (in_e s) (in_e s)) (mk_line (r ++ e) []).
Proof.
  intros [H1 H2 H3 H4 H5 H6] Hr He. constructor; cbn [l_ready l_edit in_buf in_r set_indices length]; [|..].
  - rewrite length_app. constructor; cbn; try lia; rewrite H3; f_equal; lia.
  - by rewrite length_app, slice_app, Hr, He.
  - done.
  - done.
Qed.

Lemma input_char_ok c s l : holds s l -> screen_ok s -> 0 <= c < 256 ->
  exists s', input_char c s = Ok (fst (line_char c l), s') /\ holds s' (snd (line_char c l)) /\ screen_ok s'.
Proof.
  intros Hh Hs Hc. destruct l as [r e]. pose proof (ho_rep _ _ Hh) as Hrep. cbn [l_ready l_edit] in Hrep.
  unfold input_char, line_char. cbn [l_ready l_edit].
  destruct (c =? C_P); [by exists s|]. destruct (c =? C_U).
  { rewrite (rep_ne _ _ _ Hrep), Nat2Z.id. destruct (kill_line_ok s r e Hh Hs) as (s' & -> & ?). by exists s'. }
  destruct ((c =? C_H) || (c =? DEL)).
  { rewrite (rep_no_edit _ _ _ Hrep). destruct e as [|x e _] using rev_ind; [by exists s|].
    rewrite length_app. cbn [length]. destruct (Z.eqb_spec (Z.of_nat (length e + 1)) 0); [lia|]. cbn [negb].
    destruct (holds_back _ _ _ _ Hh) as [_ Hb]. destruct (consputc_ok BACKSPACE (set_indices s (in_r s) (in_w s) (u32 (in_e s - 1)))) as (s2 & -> & Hs2 & Hi); [done|].
    exists s2. cbn [rbind fst snd]. rewrite removelast_last. split_and!; auto. by eapply holds_same. }
  rewrite (rep_n _ _ _ Hrep), <- Nat2Z.inj_add.
  replace (Z.of_nat (length r + length e) <? INPUT_BUF) with (0 <? INPUT_BUF - Z.of_nat (length r + length e)) by (zcases; lia).
  destruct (negb (c =? 0) && (0 <? _)) eqn:Eroom; [|by exists s].
  apply andb_true_iff in Eroom as [_ Eroom]. apply Z.ltb_lt in Eroom.
  set (c1 := if c =? CR then NL else c). assert (Hc1 : 0 <= c1 < 256) by (unfold c1, NL; destruct (c =? CR); lia).
  rewrite u8_small by done. destruct (holds_put s r e c1 Hh ltac:(lia)) as (Hrep2 & Hr2 & He2).
  set (s2 := set_indices _ _ _ _) in *. destruct (consputc_ok c1 s2) as (s3 & -> & Hs3 & Hi); [done|]. cbn [rbind].
  destruct Hi as (I1 & I2 & I3 & I4).
  assert (Hrep3 : in_rep s3 (Z.of_nat (length r)) (Z.of_nat (length (e ++ [c1])))).
  { destruct Hrep2. constructor; rewrite ?I2, ?I3, ?I4; auto. }
  rewrite <- I1, <- I2 in Hr2, He2.
  assert (Efull : (in_e s3 =? u32 (in_r s3 + INPUT_BUF)) = (INPUT_BUF - Z.of_nat (length r + length e) =? 1)).
  { pose proof (rep_n _ _ _ Hrep3) as En. rewrite length_app in En. cbn [length] in En.
    destruct (Z.eqb_spec (in_e s3) (u32 (in_r s3 + INPUT_BUF))) as [E|E].
    - rewrite E, u32_sub_l in En. replace (in_r s3 + INPUT_BUF - in_r s3) with INPUT_BUF in En by lia.
      change (u32 INPUT_BUF) with INPUT_BUF in En. symmetry. apply Z.eqb_eq. lia.
    - symmetry. apply Z.eqb_neq. intros E1. apply E. rewrite (ir_e _ _ _ Hrep3), length_app. cbn [length]. f_equal. lia. }
  rewrite Efull. destruct ((c1 =? NL) || (c1 =? C_D) || _) eqn:Ecommit; cbn [fst snd].
  - eexists. split; [reflexivity|]. split; [by apply holds_commit | done].
  - exists s3. split_and!; auto. constructor; auto. cbn [l_edit]. apply Forall_app. split; [apply (ho_nl _ _ Hh)|].
    constructor; [|done]. intros ->. done.
Qed.

Lemma consoleintr_ok cs : forall s l, holds s l -> screen_ok s -> Forall (fun c => 0 <= c < 256) cs ->
  exists d s', consoleintr cs s = Ok (fst (line_chars cs l), d, s') /\ holds s' (snd (line_chars cs l)) /\ screen_ok s'.
Proof.
  induction cs as [|c cs IH]; intros s l Hh Hs Hc.
  - exists false, s. done.
  - inversion Hc as [|? ? Hc1 Hc2]; subst. cbn [consoleintr line_chars].
    destruct (input_char_ok c s l Hh Hs Hc1) as (s1 & -> & H1 & Hs1). cbn [rbind].
    destruct (line_char c l) as [w l1]. cbn [fst snd] in *.
    destruct (IH s1 l1 H1 Hs1 Hc2) as (d & s2 & -> & H2 & Hs2). cbn [rbind].
    destruct (line_chars cs l1) as [w' l2]. cbn [fst snd] in *. by exists (d || (c =? C_P)), s2.
Qed.

(** Taking the oldest byte. *)
Lemma holds_get s c r e : holds s (mk_line (c :: r) e) ->
  in_buf s (in_r s mod INPUT_BUF) = c /\
  holds (set_indices s (u32 (in_r s + 1)) (in_w s) (in_e s)) (mk_line r e).
Proof.
  intros [[H1 H2 H3 H4 H5 H6] Hr He Hn]. cbn [l_ready l_edit length] in *. rewrite slice_cons in Hr. injection Hr as Hc Hr.
  split; [done|]. assert (Hsl : forall a n, slice (in_buf s) (u32 (in_r s + 1) + a) n = slice (in_buf s) (in_r s + 1 + a) n).
  { intros a n. apply map_ext. intros i. f_equal. rewrite <- (u32_mod_128 (u32 (in_r s + 1) + a + Z.of_nat i)), <- Z.add_assoc, u32_add_l, u32_mod_128. f_equal. lia. }
  constructor; cbn [l_ready l_edit in_buf in_r set_indices]; auto.
  - constructor; cbn; try lia.
    + apply u32_range.
    + rewrite H2, u32_add_l. f_equal. lia.
    + rewrite H3, <- (Z.add_assoc (u32 _)), u32_add_l. f_equal. lia.
  - specialize (Hsl 0 (length r)). rewrite !Z.add_0_r in Hsl. by rewrite Hsl.
  - rewrite Hsl. replace (in_r s + 1 + Z.of_nat (length r)) with (in_r s + Z.of_nat (S (length r))) by lia. done.
Qed.

(** Reading on the lines: the bytes taken, the lines left and how the read ends. *)
Fixpoint line_read (n : nat) (target : Z) (killed : bool) (r : list Z) : list Z * list Z * cres :=
  match n with
  | O => ([], r, CDone)
  | S n' =>
      match r with
      | [] => ([], [], if killed then CErr else CSleep n)
      | c :: r' =>
          if c =? C_D then if Z.of_nat n <? target then ([], r, CDone) else ([], r', CDone)
          else if c =? NL then ([c], r', CDone)
          else let '(l, r'', x) := line_read n' target killed r' in (c :: l, r'', x)
      end
  end.

Lemma u32_back a : 0 <= a < 2 ^ 32 -> u32 (u32 (a + 1) - 1) = a.
Proof. intros Ha. rewrite u32_sub_l. replace (a + 1 - 1) with a by lia. by apply u32_small. Qed.

Lemma consoleread_ok n target killed : forall s r e, holds s (mk_line r e) ->
  let '(s', l, x) := consoleread n target killed s in let '(l', r', x') := line_read n target killed r in
  l = l' /\ x = x' /\ holds s' (mk_line r' e) /\ c_pos s' = c_pos s /\ c_panicked s' = c_panicked s.
Proof.
  induction n as [|n IH]; intros s r e Hh; cbn [consoleread line_read]; [done|].
  rewrite (rep_no_ready _ _ _ (ho_rep _ _ Hh)). cbn [l_ready]. destruct r as [|c r]; cbn [length Z.of_nat Z.eqb].
  { by destruct killed. }
  destruct (Z.eqb_spec (Z.of_nat (S (length r))) 0) as [|_]; [lia|].
  destruct (holds_get _ _ _ _ Hh) as [-> Hg]. set (s1 := set_indices s _ _ _) in *.
  destruct (c =? C_D).
  { destruct (Z.of_nat (S n) <? target); [|done]. split_and!; auto. unfold s1. cbn [in_r set_indices].
    rewrite u32_back by apply (ho_rep _ _ Hh). eapply holds_same; [|exact Hh]. done. }
  destruct (c =? NL); [done|]. specialize (IH s1 r e Hg).
  destruct (consoleread n target killed s1) as [[s2 l] x]. destruct (line_read n target killed r) as [[l' r'] x'].
  destruct IH as (-> & -> & ? & ? & ?). split_and!; auto.
Qed.

(** C18: the console implements lines.  The circular buffer with its three
    32-bit indices behaves as a pair of lists, the bytes readers may take and
    the line being edited, for every sequence of typed characters: erase and
    kill only touch the edited line, a newline, Control-D or a full buffer
    makes it readable and wakes readers, nothing typed is lost or reordered
    while there is room, and a full buffer drops input without damage.  The
    interrupt always completes, echo included, and never overruns the screen.
    A read takes exactly the bytes the lists say, across wrap-around. *)
Theorem console_line_discipline s l cs n target killed :
  holds s l -> screen_ok s -> Forall (fun c => 0 <= c < 256) cs ->
  exists d s', consoleintr cs s = Ok (fst (line_chars cs l), d, s') /\ screen_ok s' /\ holds s' (snd (line_chars cs l)) /\
    let '(s'', bytes, x) := consoleread n target killed s' in
    let '(bytes', rest, x') := line_read n target killed (l_ready (snd (line_chars cs l))) in
    bytes = bytes' /\ x = x' /\ screen_ok s'' /\ holds s'' (mk_line rest (l_edit (snd (line_chars cs l)))).
Proof.
  intros Hh Hs Hc. destruct (consoleintr_ok cs s l Hh Hs Hc) as (d & s' & E & H' & Hs'). exists d, s'. split_and!; auto.
  pose proof (consoleread_ok n target killed s' (l_ready (snd (line_chars cs l))) (l_edit (snd (line_chars cs l)))) as R.
  destruct (snd (line_chars cs l)) as [r e]. cbn [l_ready l_edit] in *. specialize (R H').
  destruct (consoleread n target killed s') as [[s2 b] x]. destruct (line_read n target killed r) as [[b' r'] x'].
  destruct R as (-> & -> & ? & Hp & Hq). split_and!; auto. destruct Hs'. split; congruence.
Qed.

(** ** Witness: indices about to wrap around, "ab", erase, "c", newline *)

Definition wit_cons : cons :=
  mk_cons (fun _ => 0) (2 ^ 32 - 2) (2 ^ 32 - 2) (2 ^ 32 - 2) 1990 (fun _ => 0) true [] false.

Lemma console_line_discipline_witness :
  exists d s', consoleintr [97; 98; C_H; 99; CR] wit_cons = Ok (true, d, s') /\
    snd (fst (consoleread 10 10 false s')) = [97; 99; NL].
Proof.
  destruct (console_line_discipline wit_cons (mk_line [] []) [97; 98; C_H; 99; CR] 10 10 false) as (d & s' & E & _ & _ & R).
  - constructor; [constructor; cbn; unfold INPUT_BUF; try lia; reflexivity | done..].
  - split; cbn; [lia | done].
  - repeat (apply Forall_cons_2; [vm_compute; split; [discriminate | reflexivity]|]). apply Forall_nil_2.
  - exists d, s'. split; [exact E|]. destruct (consoleread 10 10 false s') as [[s2 b] x]. destruct R as (-> & _). reflexivity.
Defined.
