(* ===== verification/Kbd.v ===== *)
(** * The keyboard (src/kbd.c, src/kbd.h)

    Scan codes to characters: the tables of kbd.h as functions of the code, the
    modifier state as the static [shift] word. *)

From S2P Require Import Prelude Layout StringLib Console.

Definition KBS_DIB : Z := 1.
Definition SHIFT : Z := 1.
Definition CTL : Z := 2.
Definition ALT : Z := 4.
Definition CAPSLOCK : Z := 8.
Definition NUMLOCK : Z := 16.
Definition SCROLLLOCK : Z := 32.
Definition E0ESC : Z := 64.

Definition shiftcode (d : Z) : Z :=
  if d =? 0x1D then CTL else
  if d =? 0x2A then SHIFT else
  if d =? 0x36 then SHIFT else
  if d =? 0x38 then ALT else
  if d =? 0x9D then CTL else
  if d =? 0xB8 then ALT else
  0.

Definition togglecode (d : Z) : Z :=
  if d =? 0x3A then CAPSLOCK else
  if d =? 0x45 then NUMLOCK else
  if d =? 0x46 then SCROLLLOCK else
  0.

(** The codes 0x00 to 0x57 and the escaped ones. *)
Definition normalmap (d : Z) : Z :=
  if d =? 0x97 then 224 else
  if d =? 0x9C then 10 else
  if d =? 0xB5 then 47 else
  if d =? 0xC8 then 226 else
  if d =? 0xC9 then 230 else
  if d =? 0xCB then 228 else
  if d =? 0xCD then 229 else
  if d =? 0xCF then 225 else
  if d =? 0xD0 then 227 else
  if d =? 0xD1 then 231 else
  if d =? 0xD2 then 232 else
  if d =? 0xD3 then 233 else
  nth (Z.to_nat d)
  [0; 27; 49; 50; 51; 52; 53; 54;
   55; 56; 57; 48; 45; 61; 8; 9;
   113; 119; 101; 114; 116; 121; 117; 105;
   111; 112; 91; 93; 10; 0; 97; 115;
   100; 102; 103; 104; 106; 107; 108; 59;
   39; 96; 0; 92; 122; 120; 99; 118;
   98; 110; 109; 44; 46; 47; 0; 42;
   0; 32; 0; 0; 0; 0; 0; 0;
   0; 0; 0; 0; 0; 0; 0; 55;
   56; 57; 45; 52; 53; 54; 43; 49;
   50; 51; 48; 46; 0; 0; 0; 0] 0.

Definition shiftmap (d : Z) : Z :=
  if d =? 0x97 then 224 else
  if d =? 0x9C then 10 else
  if d =? 0xB5 then 47 else
  if d =? 0xC8 then 226 else
  if d =? 0xC9 then 230 else
  if d =? 0xCB then 228 else
  if d =? 0xCD then 229 else
  if d =? 0xCF then 225 else
  if d =? 0xD0 then 227 else
  if d =? 0xD1 then 231 else
  if d =? 0xD2 then 232 else
  if d =? 0xD3 then 233 else
  nth (Z.to_nat d)
  [0; 27; 33; 64; 35; 36; 37; 94;
   38; 42; 40; 41; 95; 43; 8; 9;
   81; 87; 69; 82; 84; 89; 85; 73;
   79; 80; 123; 125; 10; 0; 65; 83;
   68; 70; 71; 72; 74; 75; 76; 58;
   34; 126; 0; 124; 90; 88; 67; 86;
   66; 78; 77; 60; 62; 63; 0; 42;
   0; 32; 0; 0; 0; 0; 0; 0;
   0; 0; 0; 0; 0; 0; 0; 55;
   56; 57; 45; 52; 53; 54; 43; 49;
   50; 51; 48; 46; 0; 0; 0; 0] 0.

Definition ctlmap (d : Z) : Z :=
  if d =? 0x97 then 224 else
  if d =? 0x9C then 13 else
  if d =? 0xB5 then 239 else
  if d =? 0xC8 then 226 else
  if d =? 0xC9 then 230 else
  if d =? 0xCB then 228 else
  if d =? 0xCD then 229 else
  if d =? 0xCF then 225 else
  if d =? 0xD0 then 227 else
  if d =? 0xD1 then 231 else
  if d =? 0xD2 then 232 else
  if d =? 0xD3 then 233 else
  nth (Z.to_nat d)
  [0; 0; 0; 0; 0; 0; 0; 0;
   0; 0; 0; 0; 0; 0; 0; 0;
   17; 23; 5; 18; 20; 25; 21; 9;
   15; 16; 0; 0; 13; 0; 1; 19;
   4; 6; 7; 8; 10; 11; 12; 0;
   0; 0; 0; 28; 26; 24; 3; 22;
   2; 14; 13; 0; 0; 239; 0; 0] 0.

Definition charcode (i d : Z) : Z :=
  if i =? 0 then normalmap d else if i =? 1 then shiftmap d else ctlmap d.

(** [st] and [data] are what the controller's ports return; the result is the
    return value and the new [shift]. *)
Definition kbdgetc (st data shift : Z) : Z * Z :=
  if Z.land st KBS_DIB =? 0 then (-1, shift)
  else if data =? 0xE0 then (0, Z.lor shift E0ESC)
  else if negb (Z.land data 0x80 =? 0) then
    (* Key released *)
    let data := if negb (Z.land shift E0ESC =? 0) then data else Z.land data 0x7F in
    (0, Z.land shift (u32 (Z.lnot (Z.lor (shiftcode data) E0ESC))))
  else
    let '(data, shift) :=
      if negb (Z.land shift E0ESC =? 0) then (Z.lor data 0x80, Z.land shift (u32 (Z.lnot E0ESC)))
      else (data, shift) in
    let shift := Z.lor shift (shiftcode data) in
    let shift := Z.lxor shift (togglecode data) in
    let c := charcode (Z.land shift (Z.lor CTL SHIFT)) data in
    let c := if negb (Z.land shift CAPSLOCK =? 0) then
               if (97 <=? c) && (c <=? 122) then c + (65 - 97)
               else if (65 <=? c) && (c <=? 90) then c + (97 - 65)
               else c
             else c in
    (c, shift).

(** The codes waiting in the controller, one [kbdgetc] each. *)
Fixpoint kbd_chars (codes : list Z) (shift : Z) : list Z * Z :=
  match codes with
  | [] => ([], shift)
  | d :: codes' =>
      let (c, shift) := kbdgetc KBS_DIB d shift in
      let (l, shift) := kbd_chars codes' shift in (c :: l, shift)
  end.

Definition kbdintr (codes : list Z) (shift : Z) (s : cons) : res (bool * bool * cons * Z) :=
  let (l, shift) := kbd_chars codes shift in
  let* (w, d, s) := consoleintr l s in Ok (w, d, s, shift).

(** ** Types: characters are bytes, the modifier state seven bits *)

Definition kbd_typed (d sh : nat) : bool :=
  let (c, sh') := kbdgetc KBS_DIB (Z.of_nat d) (Z.of_nat sh) in
  (0 <=? c) && (c <? 256) && (0 <=? sh') && (sh' <? 128).

Lemma kbd_typed_all : forallb (fun d => forallb (kbd_typed d) (seq 0 128)) (seq 0 256) = true.
Proof. vm_compute. reflexivity. Qed.

Lemma kbdgetc_typed d sh : 0 <= d < 256 -> 0 <= sh < 128 ->
  0 <= fst (kbdgetc KBS_DIB d sh) < 256 /\ 0 <= snd (kbdgetc KBS_DIB d sh) < 128.
Proof.
  intros Hd Hs. pose proof kbd_typed_all as H. rewrite forallb_forall in H.
  specialize (H (Z.to_nat d) ltac:(apply in_seq; lia)). rewrite forallb_forall in H.
  specialize (H (Z.to_nat sh) ltac:(apply in_seq; lia)). unfold kbd_typed in H. rewrite !Z2Nat.id in H by lia.
  destruct (kbdgetc KBS_DIB d sh) as [c sh']. cbn [fst snd]. rewrite !andb_true_iff, !Z.leb_le, !Z.ltb_lt in H. lia.
Qed.

Lemma kbd_chars_typed codes : forall sh, Forall (fun d => 0 <= d < 256) codes -> 0 <= sh < 128 ->
  Forall (fun c => 0 <= c < 256) (fst (kbd_chars codes sh)) /\ 0 <= snd (kbd_chars codes sh) < 128.
Proof.
  induction codes as [|d codes IH]; intros sh Hd Hs; [done|]. inversion Hd as [|? ? Hd1 Hd2]; subst.
  cbn [kbd_chars]. destruct (kbdgetc_typed d sh Hd1 Hs) as [Hc Hs']. destruct (kbdgetc KBS_DIB d sh) as [c sh'].
  cbn [fst snd] in *. destruct (IH sh' Hd2 Hs') as [Hl Hr]. destruct (kbd_chars codes sh') as [l sh'']. cbn [fst snd] in *.
  split; [by constructor | done].
Qed.

(** The keyboard driver is well typed and composes with the console.
    Whatever scan codes arrive, in any modifier state, every character handed
    to [consoleintr] is a byte and [shift] stays within its seven flag bits; so
    the keyboard interrupt always completes and leaves the console's lines as
    the characters typed determine. *)
Theorem kbdintr_types codes sh s l :
  Forall (fun d => 0 <= d < 256) codes -> 0 <= sh < 128 -> holds s l -> screen_ok s ->
  exists d s' sh', kbdintr codes sh s = Ok (fst (line_chars (fst (kbd_chars codes sh)) l), d, s', sh') /\
    0 <= sh' < 128 /\ screen_ok s' /\ holds s' (snd (line_chars (fst (kbd_chars codes sh)) l)).
Proof.
  intros Hd Hs Hh Hscr. unfold kbdintr. destruct (kbd_chars_typed codes sh Hd Hs) as [Hl Hr].
  destruct (kbd_chars codes sh) as [cs sh']. cbn [fst snd] in *.
  destruct (consoleintr_ok cs s l Hh Hscr Hl) as (d & s' & -> & H1 & H2). by exists d, s', sh'.
Qed.

(** Shift down, "a", shift up, "a", Enter. *)
Lemma kbdintr_types_witness :
  exists d s' sh', kbdintr [0x2A; 0x1E; 0xAA; 0x1E; 0x1C] 0 wit_cons = Ok (true, d, s', sh') /\ 0 <= sh' < 128.
Proof.
  destruct (kbdintr_types [0x2A; 0x1E; 0xAA; 0x1E; 0x1C] 0 wit_cons (mk_line [] [])) as (d & s' & sh' & E & H & _).
  - repeat (apply Forall_cons_2; [lia|]). apply Forall_nil_2.
  - lia.
  - constructor; [constructor; cbn; unfold INPUT_BUF; try lia; reflexivity | done..].
  - split; cbn; [lia | done].
  - exists d, s', sh'. split; [exact E | exact H].
Defined.

Example kbd_shift_caps :
  fst (kbd_chars [0x2A; 0x1E; 0xAA; 0x1E; 0x3A; 0x1E] 0) = [0; 65; 0; 97; 0; 65].
Proof. vm_compute. reflexivity. Qed.
