(* ===== verification/Printf.v ===== *)
(** * Number and format printing (src/printf.c, printint and cprintf of src/console.c, atoi of src/ulib.c)

    Output is the list of characters in the order they are written.  The user
    library and the kernel have separate copies of the code: [up] selects the
    digits of one or the other.  [str] gives the bytes of the string at an
    address up to its NUL; [ap] the words on the stack from the first variable
    argument on. *)

From S2P Require Import Prelude StringLib.

(** [digits[d]] of printf.c ([up]) and console.c. *)
Definition digit (up : bool) (d : Z) : Z := if d <? 10 then 48 + d else if up then 55 + d else 87 + d.

(** [do { buf[i++] = digits[x % base]; } while((x /= base) != 0)] *)
Fixpoint digits_loop (fuel : nat) (x base : Z) (up : bool) : list Z :=
  match fuel with
  | O => []
  | S f => digit up (x mod base) :: if x / base =? 0 then [] else digits_loop f (x / base) base up
  end.

(** Contents of [buf] when the loop ends; a 32-bit number has at most 32 digits. *)
Definition print_buf (xx base : Z) (sgn up : bool) : list Z :=
  let neg := sgn && (xx <? 0) in
  let x := if neg then u32 (- xx) else u32 xx in
  digits_loop 32 x base up ++ if neg then [45] else [].

Definition printint (xx base : Z) (sgn up : bool) : list Z := rev (print_buf xx base sgn up).

(** [while('0' <= *s && *s <= '9') n = n*10 + *s++ - '0';] *)
Fixpoint atoi_s_loop (s : list Z) (n : Z) : Z :=
  match s with
  | c :: s' => if (48 <=? c) && (c <=? 57) then atoi_s_loop s' (s32 (n * 10 + c - 48)) else n
  | [] => n
  end.

Definition atoi_s (s : list Z) : Z := atoi_s_loop s 0.

Section printf.
Context (str : Z -> list Z) (ap : nat -> Z) (up : bool).

(** "(null)" *)
Definition null_str : list Z := [40; 110; 117; 108; 108; 41].
Definition put_str (p : Z) : list Z := if p =? 0 then null_str else str p.

(** printf.c: one pass with the state 0 or '%'; [i] arguments consumed. *)
Fixpoint printf_loop (fmt : list Z) (state : bool) (i : nat) : list Z :=
  match fmt with
  | [] => []
  | c :: fmt' =>
      if negb state then
        if c =? 37 then printf_loop fmt' true i else c :: printf_loop fmt' false i
      else if c =? 100 then printint (s32 (ap i)) 10 true up ++ printf_loop fmt' false (S i)
      else if (c =? 120) || (c =? 112) then printint (s32 (ap i)) 16 false up ++ printf_loop fmt' false (S i)
      else if c =? 115 then put_str (ap i) ++ printf_loop fmt' false (S i)
      else if c =? 99 then u8 (ap i) :: printf_loop fmt' false (S i)
      else if c =? 37 then c :: printf_loop fmt' false i
      else 37 :: c :: printf_loop fmt' false i
  end.

Definition printf (fmt : list Z) : list Z := printf_loop fmt false 0.

(** console.c: the character after a '%' is fetched at once. *)
Fixpoint cprintf_loop (fmt : list Z) (i : nat) : list Z :=
  match fmt with
  | [] => []
  | c :: fmt' =>
      if negb (c =? 37) then c :: cprintf_loop fmt' i
      else match fmt' with
           | [] => []
           | c :: fmt'' =>
               if c =? 100 then printint (s32 (ap i)) 10 true up ++ cprintf_loop fmt'' (S i)
               else if (c =? 120) || (c =? 112) then printint (s32 (ap i)) 16 false up ++ cprintf_loop fmt'' (S i)
               else if c =? 115 then put_str (ap i) ++ cprintf_loop fmt'' (S i)
               else if c =? 37 then 37 :: cprintf_loop fmt'' i
               else 37 :: c :: cprintf_loop fmt'' i
           end
  end.

Definition cprintf (fmt : list Z) : list Z := cprintf_loop fmt 0.

(** The format has no [%c], which only printf.c knows; [after] a '%'. *)
Fixpoint no_pc (fmt : list Z) (after : bool) : bool :=
  match fmt with
  | [] => true
  | c :: fmt' => if after then negb (c =? 99) && no_pc fmt' false else no_pc fmt' (c =? 37)
  end.

Lemma cprintf_printf_loop n : forall fmt i, (length fmt <= n)%nat -> no_pc fmt false = true ->
  cprintf_loop fmt i = printf_loop fmt false i.
Proof.
  induction n as [|n IH]; intros [|c fmt] i Hn H; cbn [length] in Hn; try done; [lia|].
  cbn [cprintf_loop printf_loop no_pc negb] in *. destruct (c =? 37) eqn:E; cbn [negb].
  - destruct fmt as [|d fmt]; [done|]. cbn [printf_loop negb no_pc] in *. cbn [length] in Hn.
    apply andb_true_iff in H as [H1 H2]. rewrite !IH by (auto; lia).
    destruct (d =? 100); [done|]. destruct ((d =? 120) || (d =? 112)); [done|]. destruct (d =? 115); [done|].
    destruct (d =? 99); [done|]. by destruct (Z.eqb_spec d 37) as [->|].
  - f_equal. apply IH; [lia | done].
Qed.
End printf.

(** ** Digits *)

(** The number a digit list denotes, least significant digit first. *)
Fixpoint value (base : Z) (l : list Z) : Z := match l with [] => 0 | d :: l' => d + base * value base l' end.

Lemma digits_loop_value base up fuel : forall x, 2 <= base <= 16 -> 0 <= x < base ^ Z.of_nat fuel -> (0 < fuel)%nat ->
  exists l, digits_loop fuel x base up = map (digit up) l /\ value base l = x /\ Forall (fun d => 0 <= d < base) l /\ l <> [].
Proof.
  induction fuel as [|fuel IH]; intros x Hb Hx Hf; [lia|]. cbn [digits_loop].
  pose proof (Z.mod_pos_bound x base ltac:(lia)). pose proof (Z_div_mod_eq_full x base) as Hdm.
  destruct (Z.eqb_spec (x / base) 0) as [E|E].
  - exists [x mod base]. split_and!; [done | cbn; lia | by constructor | done].
  - rewrite Nat2Z.inj_succ, Z.pow_succ_r in Hx by lia.
    assert (Hq : 0 <= x / base < base ^ Z.of_nat fuel).
    { split; [apply Z.div_pos; lia | apply Z.div_lt_upper_bound; lia]. }
    destruct fuel as [|fuel]; [change (base ^ Z.of_nat 0) with 1 in Hq; lia|].
    destruct (IH (x / base) Hb Hq ltac:(lia)) as (l & -> & Hv & Hd & _).
    exists (x mod base :: l). split_and!; [done | cbn [value]; lia | by constructor | done].
Qed.

Lemma digits_loop_length base up fuel : forall x k, 2 <= base -> 0 <= x < base ^ Z.of_nat k -> (0 < k)%nat ->
  (length (digits_loop fuel x base up) <= k)%nat.
Proof.
  induction fuel as [|fuel IH]; intros x k Hb Hx Hk; cbn [digits_loop length]; [lia|].
  destruct k as [|k]; [lia|]. destruct (Z.eqb_spec (x / base) 0) as [E|E]; cbn [length]; [lia|].
  rewrite Nat2Z.inj_succ, Z.pow_succ_r in Hx by lia.
  assert (Hq : 0 <= x / base < base ^ Z.of_nat k).
  { split; [apply Z.div_pos; lia | apply Z.div_lt_upper_bound; lia]. }
  destruct k as [|k]; [change (base ^ Z.of_nat 0) with 1 in Hq; lia|].
  pose proof (IH (x / base) (S k) Hb Hq ltac:(lia)). lia.
Qed.

Lemma length_map_rev {A B : Type} (f : A -> B) l : length (rev (map f l)) = length l.
Proof. by rewrite length_rev, length_map. Qed.

(** Decimal digits are read back in order. *)
Lemma atoi_digits up l : forall n rest, 0 <= n -> Forall (fun d => 0 <= d < 10) l ->
  n * 10 ^ Z.of_nat (length l) + value 10 l < 2 ^ 31 ->
  atoi_s_loop (rev (map (digit up) l) ++ rest) n = atoi_s_loop rest (n * 10 ^ Z.of_nat (length l) + value 10 l).
Proof.
  induction l as [|d l IH]; intros n rest Hn Hd Hb; cbn [map rev app length value] in *.
  - f_equal. lia.
  - inversion Hd as [|? ? Hd1 Hd2]; subst. rewrite Nat2Z.inj_succ, Z.pow_succ_r in * by lia.
    assert (Hv : 0 <= value 10 l).
    { clear -Hd2. induction Hd2; cbn [value]; lia. }
    assert (Hp : 0 < 10 ^ Z.of_nat (length l)) by (apply Z.pow_pos_nonneg; lia).
    rewrite <- app_assoc, IH by (auto; nia). cbn [app atoi_s_loop]. unfold digit.
    destruct (Z.ltb_spec d 10); [|lia]. destruct (Z.leb_spec 48 (48 + d)), (Z.leb_spec (48 + d) 57); try lia. cbn [andb].
    rewrite s32_small by nia. f_equal. lia.
Qed.

Lemma print_buf_digits xx base sgn up : 10 <= base <= 16 ->
  exists l, digits_loop 32 (if sgn && (xx <? 0) then u32 (- xx) else u32 xx) base up = map (digit up) l /\
    value base l = (if sgn && (xx <? 0) then u32 (- xx) else u32 xx) /\ Forall (fun d => 0 <= d < base) l /\
    (length l <= 10)%nat /\ l <> [].
Proof.
  intros Hb. set (x := if sgn && (xx <? 0) then u32 (- xx) else u32 xx). assert (Hx : 0 <= x < 2 ^ 32) by (unfold x; destruct (sgn && (xx <? 0)); apply u32_range).
  assert (H10 : 2 ^ 32 < base ^ Z.of_nat 10).
  { apply Z.lt_le_trans with (10 ^ 10); [reflexivity | apply (Z.pow_le_mono_l 10 base 10); lia]. }
  assert (H32 : base ^ Z.of_nat 10 <= base ^ Z.of_nat 32) by (apply Z.pow_le_mono_r; lia).
  destruct (digits_loop_value base up 32 x) as (l & E & Hv & Hd & Hl); [lia | lia | lia |].
  exists l. split_and!; auto. pose proof (digits_loop_length base up 32 x 10 ltac:(lia) ltac:(lia) ltac:(lia)) as Hlen.
  by rewrite E, length_map in Hlen.
Qed.

(** A non-negative decimal is printed as digits, the first of them not 0 unless
    the number is, and [atoi] reads it back. *)
Lemma print_nonneg n up : 0 <= n < 2 ^ 31 ->
  Forall (fun c => 48 <= c <= 57) (printint n 10 true up) /\ printint n 10 true up <> [] /\ (forall rest, atoi_s_loop (printint n 10 true up ++ rest) 0 = atoi_s_loop rest n).
Proof.
  intros Hn. destruct (print_buf_digits n 10 true up ltac:(lia)) as (l & E & Hv & Hd & _ & Hl). unfold printint, print_buf. rewrite E. cbn [andb] in *.
  destruct (Z.ltb_spec n 0); [lia|]. rewrite app_nil_r. rewrite u32_small in Hv by lia. split_and!.
  - apply Forall_rev, Forall_map. eapply Forall_impl; [exact Hd|]. cbn. intros d Hd1. unfold digit. destruct (Z.ltb_spec d 10); lia.
  - destruct l; [done|]. cbn [map rev]. intros Hx. by apply app_nil in Hx as [_ ?].
  - intros rest. rewrite atoi_digits, Hv by (rewrite ?Hv; auto; lia). done.
Qed.

Lemma print_head n up : 0 < n < 2 ^ 31 -> exists c l, printint n 10 true up = c :: l /\ 49 <= c <= 57.
Proof.
  intros Hn. unfold printint, print_buf. cbn [andb]. destruct (Z.ltb_spec n 0); [lia|]. rewrite app_nil_r, u32_small by lia.
  assert (Hx : n < 10 ^ Z.of_nat 32) by (change (10 ^ Z.of_nat 32) with (10 ^ 32); lia). revert Hx. assert (H0 : 0 < n) by lia. clear Hn H. revert n H0.
  generalize 32%nat. intros fuel. induction fuel as [|fuel IH]; intros n H0 Hx; [cbn in Hx; lia|]. cbn [digits_loop rev].
  pose proof (Z.mod_pos_bound n 10 ltac:(lia)). pose proof (Z_div_mod_eq_full n 10). destruct (Z.eqb_spec (n / 10) 0) as [E|E].
  - eexists _, _. split; [reflexivity|]. unfold digit. destruct (Z.ltb_spec (n mod 10) 10); lia.
  - rewrite Nat2Z.inj_succ, Z.pow_succ_r in Hx by lia. destruct (IH (n / 10)) as (c & l & -> & Hc); [lia | lia |].
    eexists _, _. split; [reflexivity | done].
Qed.

(** Printing a number and reading it back.  For every 32-bit [n], the digits
    [printint] prints are read by [atoi] as [n], after a minus sign as [-n],
    the most negative number included up to its overflow; the digits of a
    decimal or hexadecimal number never overrun the 16-byte buffer, in the
    user library and in the kernel. *)
Theorem printint_roundtrip n up : - 2 ^ 31 <= n < 2 ^ 31 ->
  (0 <= n -> atoi_s (printint n 10 true up) = n) /\
  (n < 0 -> exists ds, printint n 10 true up = 45 :: ds /\ (- 2 ^ 31 < n -> atoi_s ds = - n)) /\
  (length (print_buf n 10 true up) <= 16)%nat /\ (forall sgn, length (print_buf n 16 sgn up) <= 16)%nat.
Proof.
  intros Hn. destruct (print_buf_digits n 10 true up ltac:(lia)) as (l & E & Hv & Hd & Hlen & _).
  unfold printint, print_buf, atoi_s. rewrite E. split_and!.
  - intros Hpos. cbn [andb] in *. destruct (Z.ltb_spec n 0); [lia|]. cbn [app].
    rewrite app_nil_r, <- (app_nil_r (rev (map (digit up) l))), atoi_digits by (rewrite ?Hv, ?u32_small by lia; auto; lia).
    rewrite Hv, u32_small by lia. cbn [atoi_s_loop]. lia.
  - intros Hneg. cbn [andb] in *. destruct (Z.ltb_spec n 0); [|lia]. rewrite rev_app_distr. cbn [rev app].
    exists (rev (map (digit up) l)). split; [done|]. intros Hmin.
    rewrite <- (app_nil_r (rev (map (digit up) l))), atoi_digits by (rewrite ?Hv, ?u32_small by lia; auto; lia).
    rewrite Hv, u32_small by lia. cbn [atoi_s_loop]. lia.
  - rewrite length_app, length_map. destruct (true && (n <? 0)); cbn [length]; lia.
  - intros sgn. destruct (print_buf_digits n 16 sgn up ltac:(lia)) as (l2 & E2 & _ & _ & Hlen2 & _).
    rewrite E2, length_app, length_map. destruct (sgn && (n <? 0)); cbn [length]; lia.
Qed.

Lemma printint_roundtrip_witness : atoi_s (printint 2147483647 10 true false) = 2147483647.
Proof.
  apply (printint_roundtrip 2147483647 false); lia.
Defined.

(** The user library's [printf] and the kernel's [cprintf], written
    differently, print the same characters for every format and arguments,
    as long as the format has no [%c], which only the former knows. *)
Theorem printf_cprintf_agree str ap up fmt : no_pc fmt false = true -> printf str ap up fmt = cprintf str ap up fmt.
Proof. intros H. symmetry. by apply (cprintf_printf_loop str ap up (length fmt)). Qed.

(** "%d:%s%%" *)
Lemma printf_cprintf_agree_witness :
  cprintf (fun _ => [104; 105]) (fun i => Z.of_nat i + 7) true [37; 100; 58; 37; 115; 37; 37] = [55; 58; 104; 105; 37].
Proof.
  rewrite <- (printf_cprintf_agree (fun _ => [104; 105]) (fun i => Z.of_nat i + 7) true [37; 100; 58; 37; 115; 37; 37]);
    reflexivity.
Defined.

(** The memory version of [atoi] on a string held in memory. *)
Lemma atoi_memory m s l : forall a n, (forall i, (i < length l)%nat -> m (a + Z.of_nat i) = nth i l 0) ->
  m (a + Z.of_nat (length l)) = 0 -> s = a -> atoi_loop m s n (S (length l)) = Some (atoi_s_loop l n).
Proof.
  intros a n Hm H0 ->. revert a n Hm H0. induction l as [|c l IH]; intros a n Hm H0.
  - cbn [length atoi_loop atoi_s_loop Z.of_nat] in *. rewrite Z.add_0_r in H0. rewrite H0. done.
  - change (S (length (c :: l))) with (S (S (length l))). cbn [atoi_loop atoi_s_loop].
    pose proof (Hm 0%nat ltac:(cbn; lia)) as Hc. cbn in Hc. rewrite Z.add_0_r in Hc. rewrite Hc.
    destruct ((48 <=? c) && (c <=? 57)); [|done]. apply IH.
    + intros i Hi. specialize (Hm (S i) ltac:(cbn; lia)). cbn [nth] in Hm. rewrite <- Hm. f_equal. lia.
    + rewrite <- H0. f_equal. cbn [length]. lia.
Qed.
