(* ===== verification/Progs.v ===== *)
(** * Programs as sequences of system calls (src/init.c, src/echo.c, src/kill.c, src/ln.c, src/mkdir.c, src/rm.c, src/zombie.c, src/greet.c, src/forktest.c, src/stressfs.c, and main of src/sh.c up to its command loop)

    A program is a tree of system calls: what it does next depends on the
    result of the call.  printf() appears as one write of the characters it puts
    out.  [trace] follows one process for given results (a fork that returns 0
    follows the child); [runs] executes a program on a kernel given as a
    function.  Loops without end are unrolled [n] times. *)

From S2P Require Import Prelude Printf.

(** ** Programs *)

Inductive call :=
| COpen (path : list Z) (mode : Z) | CMknod (path : list Z) (major minor : Z) | CDup (fd : Z) | CClose (fd : Z)
| CFork | CExec (path : list Z) (argv : list (list Z)) | CWait | CExit | CSleep (n : Z)
| CWrite (fd : Z) (s : list Z) | CRead (fd n : Z)
| CKill (pid : Z) | CLink (old new : list Z) | CUnlink (path : list Z) | CMkdir (path : list Z).

Inductive prog := Stop | Sys (c : call) (k : Z -> prog).

(** A call whose result is not looked at. *)
Definition do_ (c : call) (p : prog) : prog := Sys c (fun _ => p).
(** exit() does not return. *)
Definition exit_ : prog := Sys CExit (fun _ => Stop).

(** One process, for the results [rs] of its calls. *)
Fixpoint trace (p : prog) (rs : list Z) : list (call * Z) :=
  match p, rs with
  | Sys c k, r :: rs' => (c, r) :: trace (k r) rs'
  | _, _ => []
  end.

(** The whole program on a kernel; the calls in order, and the kernel's state. *)
Fixpoint runs {K : Type} (sys : call -> K -> Z * K) (p : prog) (k : K) : list (call * Z) * K :=
  match p with
  | Stop => ([], k)
  | Sys c f => let (r, k) := sys c k in let (l, k) := runs sys (f r) k in ((c, r) :: l, k)
  end.

(** The characters written. *)
Fixpoint output (l : list (call * Z)) : list Z :=
  match l with [] => [] | (CWrite _ s, _) :: l' => s ++ output l' | _ :: l' => output l' end.

(** Text literals. *)
Fixpoint bytes (s : string) : list Z :=
  match s with EmptyString => [] | String a s' => Z.of_nat (Ascii.nat_of_ascii a) :: bytes s' end.
Definition LF : Z := 10.

Definition O_RDWR : Z := 0x002.
Definition O_CREATE : Z := 0x200.
Definition O_RDONLY : Z := 0x000.

(** ** echo.c, kill.c, ln.c, mkdir.c, rm.c, zombie.c, greet.c

    [args] is argv without the name of the program. *)

Fixpoint echo_loop (args : list (list Z)) : prog :=
  match args with
  | [] => exit_
  | a :: l => do_ (CWrite 1 (a ++ match l with [] => [LF] | _ => [32] end)) (echo_loop l)
  end.
Definition echo (args : list (list Z)) : prog := echo_loop args.

Fixpoint kill_loop (args : list (list Z)) : prog :=
  match args with [] => exit_ | a :: l => do_ (CKill (atoi_s a)) (kill_loop l) end.
Definition kill_main (args : list (list Z)) : prog :=
  match args with [] => do_ (CWrite 2 (bytes "usage: kill pid..." ++ [LF])) exit_ | _ => kill_loop args end.

Definition ln (args : list (list Z)) : prog :=
  match args with
  | [old; new] => Sys (CLink old new) (fun r =>
      if r <? 0 then do_ (CWrite 2 (bytes "link " ++ old ++ [32] ++ new ++ bytes ": failed" ++ [LF])) exit_ else exit_)
  | _ => do_ (CWrite 2 (bytes "Usage: ln old new" ++ [LF])) exit_
  end.

Fixpoint mkdir_loop (args : list (list Z)) : prog :=
  match args with
  | [] => exit_
  | a :: l => Sys (CMkdir a) (fun r =>
      if r <? 0 then do_ (CWrite 2 (bytes "mkdir: " ++ a ++ bytes " failed to create" ++ [LF])) exit_ else mkdir_loop l)
  end.
Definition mkdir (args : list (list Z)) : prog :=
  match args with [] => do_ (CWrite 2 (bytes "Usage: mkdir files..." ++ [LF])) exit_ | _ => mkdir_loop args end.

Fixpoint rm_loop (args : list (list Z)) : prog :=
  match args with
  | [] => exit_
  | a :: l => Sys (CUnlink a) (fun r =>
      if r <? 0 then do_ (CWrite 2 (bytes "rm: " ++ a ++ bytes " failed to delete" ++ [LF])) exit_ else rm_loop l)
  end.
Definition rm (args : list (list Z)) : prog :=
  match args with [] => do_ (CWrite 2 (bytes "Usage: rm files..." ++ [LF])) exit_ | _ => rm_loop args end.

Definition zombie : prog := Sys CFork (fun pid => if 0 <? pid then do_ (CSleep 5) exit_ else exit_).

Definition greet (args : list (list Z)) : prog :=
  match args with
  | [] => do_ (CWrite 1 (bytes "Hello world!" ++ [LF])) exit_
  | a :: _ => do_ (CWrite 2 (bytes "Hello " ++ a ++ [LF])) exit_
  end.

(** ** init.c *)

Definition console : list Z := bytes "console".
Definition sh : list Z := bytes "sh".

(** [while((wpid=wait()) >= 0 && wpid != pid) printf(1, "zombie!\n");] *)
Fixpoint init_wait (n : nat) (pid : Z) (k : prog) : prog :=
  match n with
  | O => Stop
  | S n' => Sys CWait (fun wpid =>
      if (0 <=? wpid) && negb (wpid =? pid) then do_ (CWrite 1 (bytes "zombie!" ++ [LF])) (init_wait n' pid k) else k)
  end.

Fixpoint init_loop (n : nat) : prog :=
  match n with
  | O => Stop
  | S n' =>
      do_ (CWrite 1 (bytes "init: starting sh" ++ [LF]))
      (Sys CFork (fun pid =>
        if pid <? 0 then do_ (CWrite 1 (bytes "init: fork failed" ++ [LF])) exit_
        else if pid =? 0 then do_ (CExec sh [sh]) (do_ (CWrite 1 (bytes "init: exec sh failed" ++ [LF])) exit_)
        else init_wait n pid (init_loop n')))
  end.

(** [cronargv] is an array without elements: [garbage] is what exec finds behind it. *)
Definition init (garbage : list (list Z)) (n : nat) : prog :=
  let rest :=
    do_ (CDup 0) (do_ (CDup 0) (Sys CFork (fun pid =>
      if pid =? 0 then do_ (CExec (bytes "cron") garbage) exit_ else init_loop n))) in
  Sys (COpen console O_RDWR) (fun fd =>
    if fd <? 0 then do_ (CMknod console 1 1) (do_ (COpen console O_RDWR) rest) else rest).

(** ** sh.c: main up to the command loop [k] *)

(** [while((fd = open("console", O_RDWR)) >= 0) if(fd >= 3){ close(fd); break; }] *)
Fixpoint sh_open (n : nat) (k : prog) : prog :=
  match n with
  | O => Stop
  | S n' => Sys (COpen console O_RDWR) (fun fd => if 0 <=? fd then if 3 <=? fd then do_ (CClose fd) k else sh_open n' k else k)
  end.

(** ** forktest.c *)

Definition N : nat := 1000.

Fixpoint forktest_wait (n : nat) : prog :=
  match n with
  | O => Sys CWait (fun r =>
      if negb (r =? -1) then do_ (CWrite 1 (bytes "wait got too many" ++ [LF])) exit_
      else do_ (CWrite 1 (bytes "fork test OK" ++ [LF])) exit_)
  | S n' => Sys CWait (fun r => if r <? 0 then do_ (CWrite 1 (bytes "wait stopped early" ++ [LF])) exit_ else forktest_wait n')
  end.

(** [left] forks to go, [n] done. *)
Fixpoint forktest_loop (left n : nat) : prog :=
  match left with
  | O => do_ (CWrite 1 (bytes "fork claimed to work N times!" ++ [LF])) exit_
  | S l => Sys CFork (fun pid => if pid <? 0 then forktest_wait n else if pid =? 0 then exit_ else forktest_loop l (S n))
  end.
Definition forktest : prog := do_ (CWrite 1 (bytes "fork test" ++ [LF])) (forktest_loop N 0).

(** ** stressfs.c *)

Fixpoint repeat_ (n : nat) (c : call) (p : prog) : prog := match n with O => p | S n' => do_ c (repeat_ n' c p) end.

(** The process that left the fork loop with [i]. *)
Definition stressfs_proc (i : Z) : prog :=
  do_ (CWrite 1 (bytes "write " ++ printint i 10 true true ++ [LF]))
  (let path := bytes "stressfs" ++ [u8 (48 + i)] in
   Sys (COpen path (Z.lor O_CREATE O_RDWR)) (fun fd =>
     repeat_ 20 (CWrite fd (repeat 97 512)) (do_ (CClose fd)
     (do_ (CWrite 1 (bytes "read" ++ [LF]))
     (Sys (COpen path O_RDONLY) (fun fd => repeat_ 20 (CRead fd 512) (do_ (CClose fd) (do_ CWait exit_)))))))).

Fixpoint stressfs_fork (n : nat) (i : Z) : prog :=
  match n with O => stressfs_proc i | S n' => Sys CFork (fun pid => if 0 <? pid then stressfs_proc i else stressfs_fork n' (i + 1)) end.
Definition stressfs : prog := do_ (CWrite 1 (bytes "stressfs starting" ++ [LF])) (stressfs_fork 4 0).

(** ** What they do *)

Section kernel.
Context {K : Type} (sys : call -> K -> Z * K).

(** The words with single blanks between them. *)
Fixpoint join (l : list (list Z)) : list Z :=
  match l with [] => [] | [a] => a | a :: l' => a ++ [32] ++ join l' end.

(** echo prints its arguments, separated by blanks and ended by a newline; without arguments it prints nothing. *)
Lemma echo_joins args k : output (fst (runs sys (echo args) k)) = match args with [] => [] | _ => join args ++ [LF] end.
Proof.
  unfold echo. revert k. induction args as [|a l IH]; intros k; cbn [echo_loop do_ exit_ runs].
  - destruct (sys CExit k). done.
  - destruct (sys _ k) as [r k1]. specialize (IH k1). destruct (runs sys (echo_loop l) k1) as [t k2] eqn:E. cbn [fst output] in *. rewrite IH. destruct l; cbn [join]; [by rewrite app_nil_r | by rewrite <- !app_assoc].
Qed.

(** rm removes its arguments in order up to the first failure, which it reports. *)
Lemma rm_until_failure args k : args <> [] -> exists done rest, args = done ++ rest /\
  Forall (fun p => match p with (CUnlink a, r) => a ∈ done /\ 0 <= r \/ (exists b l, rest = b :: l /\ a = b /\ r < 0) | (CWrite fd s, _) => exists b l, rest = b :: l /\ fd = 2 /\ s = bytes "rm: " ++ b ++ bytes " failed to delete" ++ [LF] | (CExit, _) => True | _ => False end)
    (fst (runs sys (rm args) k)) /\
  (forall a, a ∈ done -> exists r, (CUnlink a, r) ∈ fst (runs sys (rm args) k)).
Proof.
  intros Hne. destruct args as [|a0 l0]; [done|]. unfold rm. generalize (a0 :: l0). clear a0 l0 Hne. intros args. revert k. induction args as [|a l IH]; intros k; cbn [rm_loop do_ exit_ runs].
  - exists [], []. destruct (sys CExit k). cbn. split; [done|]. split; [by repeat constructor|]. intros a Ha. by apply elem_of_nil in Ha.
  - destruct (sys (CUnlink a) k) as [r k1] eqn:Es. destruct (Z.ltb_spec r 0).
    + exists [], (a :: l). cbn [runs do_ exit_]. destruct (sys _ k1) as [r2 k2]. destruct (sys CExit k2) as [r3 k3]. cbn. split; [done|]. split; [|intros b Hb; by apply elem_of_nil in Hb].
      apply Forall_cons. split; [right; by exists a, l|]. apply Forall_cons. split; [by exists a, l|]. by repeat constructor.
    + destruct (IH k1) as (dn & rest & -> & H1 & H2). destruct (runs sys (rm_loop (dn ++ rest)) k1) as [t k2] eqn:E. cbn [fst] in *. exists (a :: dn), rest. split; [done|]. split.
      * apply Forall_cons. split; [left; split; [apply list_elem_of_here | done]|]. eapply Forall_impl; [exact H1|]. intros [[] r'] Hp; try done. destruct Hp as [[Hin Hr]|Hp]; [left; split; [by apply list_elem_of_further | done] | by right].
      * intros b Hb. apply elem_of_cons in Hb as [->|Hb]; [exists r; apply list_elem_of_here|]. destruct (H2 b Hb) as [r' Hr']. exists r'. by apply list_elem_of_further.
Qed.
End kernel.

(** *** init: one shell at a time *)

(** What the main loop is doing: between shells, with shell [pid] running, as the child, or giving up. *)
Inductive istate := Idle | Shell (pid : Z) | Child | Failed.

Definition istep (s : istate) (e : call * Z) : option istate :=
  match s, e with
  | Idle, (CFork, r) => Some (if r <? 0 then Failed else if r =? 0 then Child else Shell r)
  | Shell pid, (CWait, r) => Some (if (0 <=? r) && negb (r =? pid) then Shell pid else Idle)
  | Child, (CExec p _, _) => if decide (p = sh) then Some Child else None
  | Child, (CExit, _) | Failed, (CExit, _) => Some s
  | _, (CWrite _ _, _) => Some s
  | _, _ => None
  end.

Fixpoint accepts (s : istate) (l : list (call * Z)) : bool :=
  match l with [] => true | e :: l' => match istep s e with Some s' => accepts s' l' | None => false end end.

Lemma accepts_exit s rs : s = Child \/ s = Failed -> accepts s (trace exit_ rs) = true.
Proof. intros [-> | ->]; destruct rs as [|r [|r2 rs]]; done. Qed.

Lemma init_wait_accepts n pid k : (forall rs, accepts Idle (trace k rs) = true) -> forall rs, accepts (Shell pid) (trace (init_wait n pid k) rs) = true.
Proof.
  intros Hk. induction n as [|n IH]; intros rs; [done|]. destruct rs as [|r rs]; [done|]. cbn [init_wait trace accepts istep]. destruct ((0 <=? r) && negb (r =? pid)); [|apply Hk]. destruct rs as [|r2 rs]; [done|]. cbn [do_ trace accepts istep]. apply IH.
Qed.

Lemma init_loop_accepts n : forall rs, accepts Idle (trace (init_loop n) rs) = true.
Proof.
  induction n as [|n IH]; intros rs; [done|]. destruct rs as [|r rs]; [done|]. cbn [init_loop do_ trace accepts istep]. destruct rs as [|pid rs]; [done|]. cbn [trace accepts istep].
  destruct (Z.ltb_spec pid 0); [|destruct (Z.eqb_spec pid 0)].
  - destruct rs as [|r2 rs]; [done|]. cbn [do_ trace accepts istep]. apply accepts_exit. auto.
  - destruct rs as [|r2 rs]; [done|]. cbn [do_ trace accepts istep]. rewrite decide_True by done. destruct rs as [|r3 rs]; [done|]. cbn [trace accepts istep]. apply accepts_exit. auto.
  - apply (init_wait_accepts (S n) pid (init_loop n) IH).
Qed.

(** C38: Init keeps one shell running.  After the set-up of the console and the
    fork for cron, whatever the system calls return, init starts a shell only
    when the one before has been waited for (or there is nothing to wait
    for), the child does nothing but exec sh, and init exits only when fork has
    failed. *)
Theorem init_one_shell garbage n rs : exists setup r tr, (length setup <= 5)%nat /\ trace (init garbage n) rs = setup ++ tr /\
  (tr = [] \/ exists tr', tr = (CFork, r) :: tr' /\
    if r =? 0 then Forall (fun e => e.1 = CExec (bytes "cron") garbage \/ e.1 = CExit) tr' else accepts Idle tr' = true).
Proof.
  assert (Hrest : forall rs, exists setup r tr, (length setup <= 2)%nat /\ trace (do_ (CDup 0) (do_ (CDup 0) (Sys CFork (fun pid => if pid =? 0 then do_ (CExec (bytes "cron") garbage) exit_ else init_loop n)))) rs = setup ++ tr /\
    (tr = [] \/ exists tr', tr = (CFork, r) :: tr' /\ if r =? 0 then Forall (fun e => e.1 = CExec (bytes "cron") garbage \/ e.1 = CExit) tr' else accepts Idle tr' = true)).
  { clear rs. intros rs. destruct rs as [|r1 [|r2 [|r3 rs]]]; [exists [], 0, [] | exists [(CDup 0, r1)], 0, [] | exists [(CDup 0, r1); (CDup 0, r2)], 0, [] | exists [(CDup 0, r1); (CDup 0, r2)], r3]; cbn [do_ trace]; try (split; [cbn; lia|]; split; [done | by left]).
    eexists. split; [cbn; lia|]. split; [reflexivity|]. right. eexists. split; [reflexivity|]. destruct (r3 =? 0); [|apply init_loop_accepts]. destruct rs as [|r4 [|r5 [|r6 rs]]]; cbn [do_ exit_ trace]; repeat (apply Forall_cons; split; [auto|]); apply Forall_nil; done. }
  destruct rs as [|r0 rs]; [exists [], 0, []; split; [cbn; lia|]; split; [done | by left]|]. cbn [init trace]. destruct (r0 <? 0).
  - destruct rs as [|r1 rs]; [exists [(COpen console O_RDWR, r0)], 0, []; split; [cbn; lia|]; split; [done | by left]|]. destruct rs as [|r2 rs]; [exists [(COpen console O_RDWR, r0); (CMknod console 1 1, r1)], 0, []; split; [cbn; lia|]; split; [done | by left]|].
    destruct (Hrest rs) as (su & r & tr & Hl & E & H). exists ((COpen console O_RDWR, r0) :: (CMknod console 1 1, r1) :: (COpen console O_RDWR, r2) :: su), r, tr. split; [cbn; lia|]. split; [|done]. rewrite <- !app_comm_cons, <- E. done.
  - destruct (Hrest rs) as (su & r & tr & Hl & E & H). exists ((COpen console O_RDWR, r0) :: su), r, tr. split; [cbn; lia|]. split; [|done]. by rewrite <- app_comm_cons, <- E.
Qed.

(** *** forktest *)

(** A process table with [f] free slots, and [kids] children. *)
Definition ft_sys (c : call) (k : nat * nat) : Z * (nat * nat) :=
  match c with
  | CFork => match k with (O, kids) => (-1, (O, kids)) | (S f, kids) => (Z.of_nat (S kids), (f, S kids)) end
  | CWait => match k with (f, O) => (-1, (f, O)) | (f, S kids) => (Z.of_nat (S kids), (S f, kids)) end
  | _ => (0, k)
  end.

Lemma forktest_wait_runs n f : exists t, runs ft_sys (forktest_wait n) (f, n) = (t, ((f + n)%nat, O)) /\ output t = bytes "fork test OK" ++ [LF].
Proof.
  revert f. induction n as [|n IH]; intros f; cbn [forktest_wait runs ft_sys].
  - eexists. split; [cbn; by rewrite Nat.add_0_r | done].
  - destruct (Z.ltb_spec (Z.of_nat (S n)) 0); [lia|]. destruct (IH (S f)) as (t & E & Ho). rewrite E. eexists. split; [by rewrite Nat.add_succ_r | exact Ho].
Qed.

Lemma forktest_loop_runs left n f : (f < left)%nat -> exists t, runs ft_sys (forktest_loop left n) (f, n) = (t, ((f + n)%nat, O)) /\ output t = bytes "fork test OK" ++ [LF].
Proof.
  revert n f. induction left as [|l IH]; intros n f Hf; [lia|]. cbn [forktest_loop runs ft_sys]. destruct f as [|f].
  - cbn [Z.ltb Z.compare]. destruct (forktest_wait_runs n 0) as (t & E & Ho). rewrite E. by eexists.
  - destruct (Z.ltb_spec (Z.of_nat (S n)) 0); [lia|]. destruct (Z.eqb_spec (Z.of_nat (S n)) 0); [lia|]. destruct (IH (S n) f ltac:(lia)) as (t & E & Ho). rewrite E. eexists. split; [by rewrite Nat.add_succ_r | exact Ho].
Qed.

(** forktest passes on any kernel with fewer than 1000 free process slots, and leaves no child behind. *)
Lemma forktest_passes f : (f < N)%nat -> exists t, runs ft_sys forktest (f, O) = (t, (f, O)) /\ output t = bytes "fork test" ++ [LF] ++ bytes "fork test OK" ++ [LF].
Proof.
  intros Hf. unfold forktest. cbn [do_ runs ft_sys]. destruct (forktest_loop_runs N 0 f Hf) as (t & E & Ho). rewrite E. eexists. split; [by rewrite Nat.add_0_r|]. cbn [output]. by rewrite Ho, <- app_assoc.
Qed.

(** *** The standard file descriptors *)

(** The open files of the process, and the files that exist. *)
Record fdk := mk_fdk { fds : list (option (list Z)); nodes : list (list Z) }.

(** The lowest free descriptor. *)
Fixpoint fd_free (l : list (option (list Z))) : option nat :=
  match l with [] => None | None :: _ => Some O | Some _ :: l' => S <$> fd_free l' end.

Definition fd_put (x : list Z) (k : fdk) : Z * fdk :=
  match fd_free (fds k) with
  | Some i => (Z.of_nat i, mk_fdk (<[i := Some x]> (fds k)) (nodes k))
  | None => (-1, k)
  end.

(** open, dup, close and mknod; [other] gives the results of the calls that leave the files alone. *)
Definition fd_sys (other : call -> Z) (c : call) (k : fdk) : Z * fdk :=
  match c with
  | COpen p m => if bool_decide (p ∈ nodes k) then fd_put p k else (-1, k)
  | CMknod p _ _ => (0, mk_fdk (fds k) (p :: nodes k))
  | CDup fd => match fds k !! Z.to_nat fd with Some (Some x) => fd_put x k | _ => (-1, k) end
  | CClose fd => (0, mk_fdk (<[Z.to_nat fd := None]> (fds k)) (nodes k))
  | _ => (other c, k)
  end.

Lemma init_wait_fds other n pid p k : snd (runs (fd_sys other) (init_wait n pid p) k) = k \/ snd (runs (fd_sys other) (init_wait n pid p) k) = snd (runs (fd_sys other) p k).
Proof.
  induction n as [|n IH]; cbn [init_wait runs]; [by left|]. cbn [fd_sys]. destruct (_ && _); cbn [do_ runs fd_sys].
  - destruct (runs (fd_sys other) (init_wait n pid p) k) as [t k']. cbn [snd] in *. exact IH.
  - destruct (runs (fd_sys other) p k). by right.
Qed.

Lemma init_loop_fds other n k : snd (runs (fd_sys other) (init_loop n) k) = k.
Proof.
  induction n as [|n IH]; [done|]. cbn [init_loop do_ runs fd_sys]. destruct (other CFork <? 0); [done|]. destruct (other CFork =? 0); [done|].
  destruct (runs (fd_sys other) (init_wait (S n) (other CFork) (init_loop n)) k) as [t k'] eqn:E. cbn [snd]. destruct (init_wait_fds other (S n) (other CFork) (init_loop n) k) as [H|H]; rewrite E in H; cbn [snd] in H; congruence.
Qed.

(** init has the console as its standard input, output and error, and makes the device when it is missing. *)
Lemma init_stdio other garbage n files : fds (snd (runs (fd_sys other) (init garbage n) (mk_fdk (repeat None 16) files))) = [Some console; Some console; Some console] ++ repeat None 13.
Proof.
  assert (Hrest : forall files, fds (snd (runs (fd_sys other) (do_ (CDup 0) (do_ (CDup 0) (Sys CFork (fun pid => if pid =? 0 then do_ (CExec (bytes "cron") garbage) exit_ else init_loop n)))) (mk_fdk (Some console :: repeat None 15) files))) =
    [Some console; Some console; Some console] ++ repeat None 13).
  { intros fl. assert (E1 : fd_sys other (CDup 0) (mk_fdk (Some console :: repeat None 15) fl) = (1, mk_fdk (Some console :: Some console :: repeat None 14) fl)) by reflexivity.
    assert (E2 : fd_sys other (CDup 0) (mk_fdk (Some console :: Some console :: repeat None 14) fl) = (2, mk_fdk (Some console :: Some console :: Some console :: repeat None 13) fl)) by reflexivity.
    cbn [do_ runs]. rewrite E1, E2. cbn [fd_sys]. set (k3 := mk_fdk _ _). destruct (other CFork =? 0); [done|].
    pose proof (init_loop_fds other n k3) as H. destruct (runs (fd_sys other) (init_loop n) k3) as [t k']. cbn [snd] in *. by subst k'. }
  assert (E0 : forall fl, console ∈ fl -> fd_sys other (COpen console O_RDWR) (mk_fdk (repeat None 16) fl) = (0, mk_fdk (Some console :: repeat None 15) fl)) by (intros fl Hin; cbn [fd_sys nodes]; by rewrite bool_decide_eq_true_2).
  unfold init. cbv zeta. set (rest := do_ (CDup 0) _) in *. clearbody rest. cbn [runs]. destruct (decide (console ∈ files)) as [Hin|Hin].
  - rewrite E0 by done. cbn [Z.ltb Z.compare]. specialize (Hrest files). destruct (runs (fd_sys other) _ _) as [t k']. exact Hrest.
  - replace (fd_sys other (COpen console O_RDWR) (mk_fdk (repeat None 16) files)) with (-1, mk_fdk (repeat None 16) files) by (cbn [fd_sys nodes]; by rewrite bool_decide_eq_false_2).
    cbn [Z.ltb Z.compare do_ runs]. change (fd_sys other (CMknod console 1 1) (mk_fdk (repeat None 16) files)) with (0, mk_fdk (repeat None 16) (console :: files)). cbn iota. rewrite E0 by apply list_elem_of_here.
    specialize (Hrest (console :: files)). destruct (runs (fd_sys other) _ _) as [t k']. exact Hrest.
Qed.

Lemma fd_free_spec l i : fd_free l = Some i -> l !! i = Some None.
Proof. revert i. induction l as [|[x|] l IH]; intros i; cbn [fd_free]; [done | | by intros [= <-]]. destruct (fd_free l) as [j|] eqn:E; [|done]. intros [= <-]. cbn. by apply IH. Qed.

Lemma sh_open_step other l files i n : console ∈ files -> fd_free l = Some i -> (i < 3)%nat ->
  snd (runs (fd_sys other) (sh_open (S n) Stop) (mk_fdk l files)) = snd (runs (fd_sys other) (sh_open n Stop) (mk_fdk (<[i := Some console]> l) files)).
Proof.
  intros Hin Hf Hi. cbn [sh_open runs fd_sys nodes]. rewrite bool_decide_eq_true_2 by done. unfold fd_put. cbn [fds nodes]. rewrite Hf.
  destruct (Z.leb_spec 0 (Z.of_nat i)); [|lia]. destruct (Z.leb_spec 3 (Z.of_nat i)); [lia|]. by destruct (runs _ (sh_open n Stop) _).
Qed.

Lemma sh_open_last other l files i n : console ∈ files -> fd_free l = Some i -> (3 <= i)%nat ->
  snd (runs (fd_sys other) (sh_open (S n) Stop) (mk_fdk l files)) = mk_fdk l files.
Proof.
  intros Hin Hf Hi. cbn [sh_open runs fd_sys nodes]. rewrite bool_decide_eq_true_2 by done. unfold fd_put. cbn [fds nodes]. rewrite Hf.
  destruct (Z.leb_spec 0 (Z.of_nat i)); [|lia]. destruct (Z.leb_spec 3 (Z.of_nat i)); [|lia].
  cbn [do_ runs fd_sys snd fds nodes]. rewrite Nat2Z.id, list_insert_insert_eq, list_insert_id by (by apply fd_free_spec). done.
Qed.

(** The shell's loop ends with descriptors 0, 1 and 2 open and the others as they were. *)
Lemma sh_three_fds other a b c t i files : console ∈ files -> fd_free t = Some i ->
  snd (runs (fd_sys other) (sh_open 4 Stop) (mk_fdk (a :: b :: c :: t) files))
    = mk_fdk (Some (default console a) :: Some (default console b) :: Some (default console c) :: t) files.
Proof.
  intros Hin Hf. destruct a as [x|], b as [y|], c as [z|]; cbn [default];
  repeat first [ erewrite sh_open_last; [reflexivity | done | cbn [fd_free]; rewrite Hf; reflexivity | lia]
               | erewrite sh_open_step; [| done | reflexivity | lia]; cbn [insert list_insert] ].
Qed.
