(* ===== verification/Ide.v ===== *)
(** * The IDE disk driver (src/ide.c)

    The queue is the C list: [idequeue] and the [qnext] fields of the buffers.
    The controller holds one request and raises its interrupt when it is done;
    waiting for it to become ready while it works would last for ever
    ([Blocked]).  Each part of the driver that runs with [idelock] held is one
    step; processes, the controller, [kill] and the owners of buffers outside
    the driver interleave in any order.  Invariants of all reachable states
    show that requests are served first come first served with the right data
    and that no sleeper is forgotten. *)

From S2P Require Import Prelude Layout Blocks Bio Spinlock.

Definition SECTOR_SIZE : Z := 512.

(** The fields of [struct buf] the driver uses; [ib_owner] holds the sleep lock. *)
Record ibuf := mk_ibuf {
  ib_flags : Z;
  ib_dev : Z;
  ib_block : Z;
  ib_data : mem;
  ib_owner : option nat
}.

(** A request: drive, sector, and the data if it is a write. *)
Record request := mk_req { rq_dev : Z; rq_sector : Z; rq_write : option mem }.

(** The controller: its drives, the request it has, and whether it is done. *)
Record ctl := mk_ctl { dk : Z -> disk; act : option request; irq : bool }.

Inductive pst := Idle | Sleeping (b : nat) | Ready (b : nat).

Record ide := mk_ide {
  ibufs : nat -> ibuf;
  qnext : nat -> option nat;
  idequeue : option nat;
  ictl : ctl;
  havedisk1 : bool;
  procs : nat -> pst
}.

Definition set_buf (s : ide) (b : nat) (x : ibuf) : ide :=
  mk_ide (upd (ibufs s) b x) (qnext s) (idequeue s) (ictl s) (havedisk1 s) (procs s).
Definition set_queue (s : ide) (n : nat -> option nat) (h : option nat) : ide :=
  mk_ide (ibufs s) n h (ictl s) (havedisk1 s) (procs s).
Definition set_ctl (s : ide) (c : ctl) : ide := mk_ide (ibufs s) (qnext s) (idequeue s) c (havedisk1 s) (procs s).
Definition set_pst (s : ide) (p : nat) (x : pst) : ide :=
  mk_ide (ibufs s) (qnext s) (idequeue s) (ictl s) (havedisk1 s) (upd (procs s) p x).

(** [(b->flags & (B_VALID|B_DIRTY)) == B_VALID] *)
Definition in_sync (x : ibuf) : bool := Z.land (ib_flags x) (Z.lor B_VALID B_DIRTY) =? B_VALID.
Definition is_dirty (x : ibuf) : bool := negb (Z.land (ib_flags x) B_DIRTY =? 0).

(** What [idestart] tells the controller. *)
Definition request_of (x : ibuf) : request :=
  mk_req (Z.land (ib_dev x) 1) (ib_block x * (BSIZE / SECTOR_SIZE)) (if is_dirty x then Some (ib_data x) else None).

Definition idestart (b : nat) (s : ide) : res ide :=
  let x := ibufs s b in
  if FSSIZE <=? ib_block x then Panic "incorrect blockno"
  else match act (ictl s) with
       | Some _ => Blocked                          (* idewait(0) *)
       | None => Ok (set_ctl s (mk_ctl (dk (ictl s)) (Some (request_of x)) false))
       end.

(** [wakeup(b)] *)
Definition ide_wakeup (b : nat) (s : ide) : ide :=
  mk_ide (ibufs s) (qnext s) (idequeue s) (ictl s) (havedisk1 s)
    (fun p => match procs s p with Sleeping b' => if decide (b' = b) then Ready b else Sleeping b' | x => x end).

(** The handler once the controller is ready; [err] is its error bit. *)
Definition ideintr (err : bool) (s : ide) : res ide :=
  match idequeue s with
  | None => Ok s
  | Some b =>
      let x := ibufs s b in
      let s := set_queue s (qnext s) (qnext s b) in
      let data :=
        if negb (is_dirty x) && negb err then
          match act (ictl s) with Some r => dk (ictl s) (rq_dev r) (rq_sector r) | None => ib_data x end
        else ib_data x in
      let flags := Z.land (Z.lor (ib_flags x) B_VALID) (Z.lnot B_DIRTY) in
      let s := set_buf s b (mk_ibuf flags (ib_dev x) (ib_block x) data (ib_owner x)) in
      let s := set_ctl s (mk_ctl (dk (ictl s)) None false) in
      let s := ide_wakeup b s in
      match idequeue s with
      | Some b' => idestart b' s
      | None => Ok s
      end
  end.

(** [for(pp=&idequeue; *pp; pp=&( *pp)->qnext) ;] from a buffer on: the last one. *)
Fixpoint q_last (n : nat) (next : nat -> option nat) (x : nat) : res nat :=
  match next x with
  | None => Ok x
  | Some y => match n with O => Blocked | S n' => q_last n' next y end
  end.

Definition NBUFS : nat := Z.to_nat NBUF.

Definition q_append (b : nat) (s : ide) : res ide :=
  let next := upd (qnext s) b None in
  match idequeue s with
  | None => Ok (set_queue s next (Some b))
  | Some x => let* l := q_last NBUFS next x in Ok (set_queue s (upd next l (Some b)) (Some x))
  end.

(** The loop test of [iderw]: return, or sleep on the buffer. *)
Definition ide_wait (p b : nat) (s : ide) : ide := set_pst s p (if in_sync (ibufs s b) then Idle else Sleeping b).

(** [iderw] by process [p] up to its return or sleep. *)
Definition iderw_call (p b : nat) (s : ide) : res ide :=
  let x := ibufs s b in
  if negb (bool_decide (ib_owner x = Some p)) then Panic "iderw: buf not locked"
  else if in_sync x then Panic "iderw: nothing to do"
  else if negb (ib_dev x =? 0) && negb (havedisk1 s) then Panic "iderw: ide disk 1 not present"
  else
    let* s := q_append b s in
    let* s := if bool_decide (idequeue s = Some b) then idestart b s else Ok s in
    Ok (ide_wait p b s).

(** ** All interleavings *)

Definition dk_write (d : Z -> disk) (dev sector : Z) (m : mem) : Z -> disk := fun e => if e =? dev then dset (d e) sector m else d e.

(** A legal request by a process outside the driver. *)
Definition may_call (p b : nat) (s : ide) : Prop :=
  procs s p = Idle /\ (b < NBUFS)%nat /\ ib_owner (ibufs s b) = Some p /\ in_sync (ibufs s b) = false /\
  0 <= ib_block (ibufs s b) < FSSIZE /\ (ib_dev (ibufs s b) = 0 \/ ib_dev (ibufs s b) = 1 /\ havedisk1 s = true).

(** No process is inside the driver with [b]. *)
Definition outside (b : nat) (s : ide) : Prop := forall p, procs s p <> Sleeping b /\ procs s p <> Ready b.

Inductive label := LCall (p b : nat) | LDone (b : nat) | LOther.

Inductive istep : label -> ide -> ide -> Prop :=
| is_call p b s s' : may_call p b s -> iderw_call p b s = Ok s' -> istep (LCall p b) s s'
| is_device s r : act (ictl s) = Some r -> irq (ictl s) = false ->     (* the controller finishes *)
    istep LOther s (set_ctl s (mk_ctl (match rq_write r with
                                       | Some m => dk_write (dk (ictl s)) (rq_dev r) (rq_sector r) m
                                       | None => dk (ictl s) end) (act (ictl s)) true))
| is_intr b s s' : irq (ictl s) = true -> idequeue s = Some b -> ideintr false s = Ok s' -> istep (LDone b) s s'
| is_spurious s s' : idequeue s = None -> ideintr false s = Ok s' -> istep LOther s s'
| is_resume p b s : procs s p = Ready b -> istep LOther s (ide_wait p b s)   (* back in the loop *)
| is_kill p b s : procs s p = Sleeping b -> istep LOther s (set_pst s p (Ready b))
| is_owner b x s : outside b s -> istep LOther s (set_buf s b x).              (* the cache's use of a buffer *)

(** ** The queue *)

Fixpoint isq (next : nat -> option nat) (h : option nat) (q : list nat) : Prop :=
  match q with
  | [] => h = None
  | b :: q' => h = Some b /\ isq next (next b) q'
  end.

Lemma isq_upd next h q b v : b ∉ q -> isq next h q -> isq (upd next b v) h q.
Proof.
  revert h. induction q as [|x q IH]; intros h Hb Hq; [done|]. destruct Hq as [-> Hq]. apply not_elem_of_cons in Hb as [Hx Hb].
  split; [done|]. rewrite updn_ne by done. by apply IH.
Qed.

Lemma isq_snoc next q b : forall h, NoDup (q ++ [b]) -> next b = None -> isq next h q -> q <> [] ->
  exists l, (forall n, (length q <= n)%nat -> q_last n next (from_option id 0%nat h) = Ok l) /\ l ∈ q /\ isq (upd next l (Some b)) h (q ++ [b]).
Proof.
  induction q as [|x q IH]; intros h Hnd Hb Hq Hne; [done|]. destruct Hq as [-> Hq]. cbn [from_option id]. apply NoDup_cons in Hnd as [Hx Hnd].
  destruct q as [|y q].
  - cbn [isq] in Hq. exists x. split_and!; [intros [|n] _; cbn [q_last]; by rewrite Hq | set_solver |].
    cbn [app isq]. rewrite updn_eq. split_and!; auto. rewrite updn_ne by set_solver. done.
  - destruct (IH (next x) Hnd Hb Hq ltac:(done)) as (l & Hl & Hin & Hq'). destruct Hq as [Hn _]. exists l. split_and!; [|set_solver|].
    + intros [|n] Hlen; cbn [length] in Hlen; [lia|]. cbn [q_last]. rewrite Hn. rewrite Hn in Hl. apply Hl. cbn [length]. lia.
    + cbn [app]. split; [done|]. rewrite updn_ne by set_solver. done.
Qed.

(** What holds whenever [idelock] is free; [q] is the queue. *)
Record ide_inv (s : ide) (q : list nat) : Prop := {
  iv_q : isq (qnext s) (idequeue s) q;
  iv_nodup : NoDup q;
  iv_range : Forall (fun b => (b < NBUFS)%nat) q;
  iv_busy : forall b, b ∈ q -> in_sync (ibufs s b) = false /\ 0 <= ib_block (ibufs s b) < FSSIZE /\ 0 <= ib_dev (ibufs s b) <= 1 /\
            exists p, ib_owner (ibufs s b) = Some p /\ (procs s p = Sleeping b \/ procs s p = Ready b);
  iv_sleep : forall p b, procs s p = Sleeping b -> b ∈ q /\ ib_owner (ibufs s b) = Some p;
  iv_ready : forall p b, procs s p = Ready b -> ib_owner (ibufs s b) = Some p /\ (b ∈ q \/ in_sync (ibufs s b) = true);
  iv_act : act (ictl s) = match q with [] => None | b :: _ => Some (request_of (ibufs s b)) end;
  iv_irq : irq (ictl s) = true -> exists r, act (ictl s) = Some r /\ (forall m, rq_write r = Some m -> dk (ictl s) (rq_dev r) (rq_sector r) = m)
}.

(** A queue of buffers is no longer than their number. *)
Lemma queue_length s q : ide_inv s q -> (length q <= NBUFS)%nat.
Proof.
  intros Hi. assert (Hsub : q ⊆+ seq 0 NBUFS).
  { apply NoDup_submseteq; [apply (iv_nodup _ _ Hi)|]. intros b Hb. apply elem_of_seq. pose proof (iv_range _ _ Hi) as Hr. rewrite Forall_forall in Hr. specialize (Hr b Hb). lia. }
  apply submseteq_length in Hsub. by rewrite length_seq in Hsub.
Qed.

(** A buffer no process is in the driver with is not queued. *)
Lemma outside_queue s q b : ide_inv s q -> outside b s -> b ∉ q.
Proof. intros Hi Ho Hb. destruct (iv_busy _ _ Hi b Hb) as (_ & _ & _ & p & _ & [H|H]); by destruct (Ho p). Qed.

(** The owner of a buffer outside the driver is the only one who could be inside with it. *)
Lemma call_outside s q p b : ide_inv s q -> procs s p = Idle -> ib_owner (ibufs s b) = Some p -> outside b s.
Proof.
  intros Hi Hp Ho p'. split; intros E.
  - destruct (iv_sleep _ _ Hi p' b E) as [_ E']. congruence.
  - destruct (iv_ready _ _ Hi p' b E) as [E' _]. congruence.
Qed.

(** *** The steps keep the invariant *)

Lemma call_ok s q p b : ide_inv s q -> may_call p b s -> exists s', iderw_call p b s = Ok s' /\ ide_inv s' (q ++ [b]).
Proof.
  intros Hi (Hp & Hb & Ho & Hs & Hblk & Hdev). pose proof (call_outside _ _ _ _ Hi Hp Ho) as Hout. pose proof (outside_queue _ _ _ Hi Hout) as Hnq.
  pose proof Hi as [Hq Hnd Hr Hbusy Hsl Hrd Hact Hirq].
  assert (Hnd' : NoDup (q ++ [b])) by (apply NoDup_app; split_and!; [done | set_solver | apply NoDup_singleton]).
  assert (Happ : exists n' h', q_append b s = Ok (set_queue s n' h') /\ isq n' h' (q ++ [b]) /\ h' = (match q with [] => Some b | x :: _ => Some x end)).
  { unfold q_append. destruct q as [|x q0]; [rewrite Hq; cbn [isq app]; eexists _, _; split; [reflexivity|]; split; [|reflexivity]; split; [done|]; by rewrite updn_eq|].
    pose proof Hq as [Hh _]. rewrite Hh. destruct (isq_snoc (upd (qnext s) b None) (x :: q0) b (Some x) Hnd' (updn_eq _ _ _)) as (l & Hl & _ & Hq').
    { apply isq_upd; [done|]. by rewrite <- Hh. } { done. }
    specialize (Hl NBUFS (queue_length _ _ Hi)). cbn [from_option id] in Hl. rewrite Hl. cbn [rbind]. eexists _, _. split; [reflexivity|]. by split. }
  destruct Happ as (n' & h' & E1 & Hq' & Hh'). unfold iderw_call. rewrite bool_decide_eq_true_2 by done. cbn [negb]. rewrite Hs.
  destruct (negb (ib_dev (ibufs s b) =? 0) && negb (havedisk1 s)) eqn:Ed.
  { exfalso. apply andb_true_iff in Ed as [H1 H2]. apply negb_true_iff in H1, H2. apply Z.eqb_neq in H1. destruct Hdev as [|[_ ?]]; congruence. }
  rewrite E1. cbn [rbind].
  set (c' := match q with [] => mk_ctl (dk (ictl s)) (Some (request_of (ibufs s b))) false | _ => ictl s end).
  assert (E2 : (if bool_decide (idequeue (set_queue s n' h') = Some b) then idestart b (set_queue s n' h') else Ok (set_queue s n' h')) = Ok (set_ctl (set_queue s n' h') c')).
  { cbn [idequeue set_queue]. subst h'. destruct q as [|x q0].
    - rewrite bool_decide_eq_true_2 by done. unfold idestart. cbn [ibufs set_queue ictl]. destruct (Z.leb_spec FSSIZE (ib_block (ibufs s b))); [lia|]. by rewrite Hact.
    - rewrite bool_decide_eq_false_2; [by destruct s | intros [= ->]; set_solver]. }
  rewrite E2. cbn [rbind]. eexists. split; [reflexivity|]. unfold ide_wait. cbn [ibufs set_ctl set_queue]. rewrite Hs.
  assert (Hpq : forall b', b' ∈ q -> b' <> b) by (intros b' ? ->; done).
  split; cbn [qnext idequeue ibufs procs ictl set_pst set_ctl set_queue].
  - done.
  - done.
  - apply Forall_app. split; [done|]. by constructor.
  - intros b' [Hb'|Hb']%elem_of_app.
    + destruct (Hbusy b' Hb') as (H1 & H2 & H3 & p' & H4 & H5). split_and!; auto; try lia. exists p'. split; [done|].
      rewrite updn_ne; [done|]. intros ->. rewrite Hp in H5. by destruct H5.
    + apply list_elem_of_singleton in Hb' as ->. split_and!; auto; try lia; [destruct Hdev as [->|[-> _]]; lia..|].
      exists p. split; [done|]. left. by rewrite updn_eq.
  - intros p' b' E. destruct (decide (p' = p)) as [->|Hne]; [rewrite updn_eq in E; injection E as <-; split; [set_solver | done]|].
    rewrite updn_ne in E by done. destruct (Hsl p' b' E). split; [set_solver | done].
  - intros p' b' E. destruct (decide (p' = p)) as [->|Hne]; [by rewrite updn_eq in E|].
    rewrite updn_ne in E by done. destruct (Hrd p' b' E) as [? [?|?]]; split; auto. left. set_solver.
  - unfold c'. destruct q as [|x q0]; cbn [app act]; done.
  - unfold c'. destruct q as [|x q0]; cbn [irq]; done.
Qed.

Lemma done_sync f dev blk data o : in_sync (mk_ibuf (Z.land (Z.lor f B_VALID) (Z.lnot B_DIRTY)) dev blk data o) = true.
Proof.
  unfold in_sync. cbn [ib_flags]. apply Z.eqb_eq. rewrite <- Z.land_assoc. change (Z.land (Z.lnot B_DIRTY) (Z.lor B_VALID B_DIRTY)) with B_VALID.
  apply Z.bits_inj'. intros k _. rewrite Z.land_spec, Z.lor_spec. by destruct (Z.testbit f k), (Z.testbit B_VALID k).
Qed.

(** What the handler reads into the buffer at the head of the queue. *)
Definition intr_data (err : bool) (s : ide) (b : nat) : mem :=
  let x := ibufs s b in
  if negb (is_dirty x) && negb err then
    match act (ictl s) with Some r => dk (ictl s) (rq_dev r) (rq_sector r) | None => ib_data x end
  else ib_data x.

(** The interrupt takes the head off the queue, whatever the error bit. *)
Lemma intr_inv err s q b : ide_inv s (b :: q) ->
  exists s', ideintr err s = Ok s' /\ ide_inv s' q /\ in_sync (ibufs s' b) = true /\ dk (ictl s') = dk (ictl s) /\
    ib_data (ibufs s' b) = intr_data err s b.
Proof.
  intros [Hq Hnd Hr Hbusy Hsl Hrd Hact Hirq]. destruct Hq as [Hh Hq]. apply NoDup_cons in Hnd as [Hbq Hnd]. apply Forall_cons_1 in Hr as [Hb Hr].
  unfold ideintr. rewrite Hh. cbn [set_queue ictl].
  change (if negb (is_dirty (ibufs s b)) && negb err then _ else _) with (intr_data err s b). set (x' := mk_ibuf _ _ _ _ _).
  assert (Hx' : in_sync x' = true) by apply done_sync.
  set (s1 := ide_wakeup b _). assert (Hinv : forall c', act c' = match q with [] => None | b' :: _ => Some (request_of (ibufs s b')) end -> irq c' = false -> ide_inv (set_ctl s1 c') q).
  { intros c' Hc1 Hc2. assert (Hbufs : forall b', b' ∈ q -> ibufs s1 b' = ibufs s b') by (intros b' Hb'; apply updn_ne; intros ->; done).
    assert (Hps : forall p' b', procs s1 p' = Sleeping b' -> procs s p' = Sleeping b' /\ b' <> b).
    { intros p' b'. unfold s1. cbn [ide_wakeup procs set_ctl set_buf set_queue]. destruct (procs s p') as [|b2|b2] eqn:E; try done. case_decide; [done|]. intros [= <-]. done. }
    split; cbn [qnext idequeue ibufs procs ictl set_ctl]; auto.
    - intros b' Hb'. rewrite Hbufs by done. destruct (Hbusy b' ltac:(set_solver)) as (H1 & H2 & H3 & p' & H4 & H5). split_and!; auto; try lia.
      exists p'. split; [done|]. unfold s1. cbn [ide_wakeup procs set_ctl set_buf set_queue]. destruct H5 as [-> | ->]; [|by right]. case_decide; [congruence | by left].
    - intros p' b' (E & Hne)%Hps. destruct (Hsl p' b' E) as [Hin Ho]. assert (b' ∈ q) by set_solver. split; [done|]. by rewrite Hbufs.
    - intros p' b' E. unfold s1 in E. cbn [ide_wakeup procs set_ctl set_buf set_queue] in E.
      assert (Hcase : b' = b /\ ib_owner (ibufs s b) = Some p' \/ procs s p' = Ready b').
      { destruct (procs s p') as [|b2|b2] eqn:E2; [done| |right; congruence]. case_decide; [|done]. injection E as <-. subst b2. left. split; [done|]. by apply (Hsl p' b). }
      destruct (decide (b' = b)) as [->|Hne].
      + unfold s1. cbn [ide_wakeup ibufs set_ctl set_buf set_queue]. rewrite updn_eq. split; [|by right].
        destruct Hcase as [[_ Hc]|Hc]; [done | by apply (Hrd p' b)].
      + destruct Hcase as [[? _]|Hc]; [done|]. destruct (Hrd p' b' Hc) as [Ho Hor]. unfold s1. cbn [ide_wakeup ibufs set_ctl set_buf set_queue]. rewrite updn_ne by done.
        split; [done|]. destruct Hor as [Hin|Hin]; [left; set_solver | by right].
    - rewrite Hc1. destruct q as [|b' q]; [done|]. by rewrite Hbufs by set_solver.
    - intros Hi'. congruence. }
  destruct q as [|b' q].
  - assert (E : idequeue s1 = None) by exact Hq. rewrite E. exists s1. split; [done|]. split; [exact (Hinv (ictl s1) eq_refl eq_refl)|].
    unfold s1. cbn [ide_wakeup ibufs ictl set_ctl set_buf set_queue dk]. rewrite updn_eq. split_and!; auto.
  - destruct Hq as [Hn Hq]. assert (E : idequeue s1 = Some b') by exact Hn. rewrite E. unfold idestart.
    assert (Hb' : ibufs s1 b' = ibufs s b') by (apply updn_ne; set_solver). rewrite Hb'.
    destruct (Hbusy b' ltac:(set_solver)) as (_ & Hblk' & _). destruct (Z.leb_spec FSSIZE (ib_block (ibufs s b'))); [lia|].
    eexists. split; [reflexivity|]. split; [apply Hinv; done|].
    unfold s1. cbn [ide_wakeup ibufs ictl set_ctl set_buf set_queue dk]. rewrite updn_eq. split_and!; auto.
Qed.

(** In step with the disk when the request was done without an error. *)
Lemma intr_ok s q b : ide_inv s (b :: q) -> irq (ictl s) = true ->
  exists s', ideintr false s = Ok s' /\ ide_inv s' q /\ in_sync (ibufs s' b) = true /\ dk (ictl s') = dk (ictl s) /\
    ib_data (ibufs s' b) = dk (ictl s) (ib_dev (ibufs s b)) (ib_block (ibufs s b)) /\
    (is_dirty (ibufs s b) = true -> ib_data (ibufs s' b) = ib_data (ibufs s b)).
Proof.
  intros Hinv Hi. destruct (intr_inv false s q b Hinv) as (s' & E & Hinv' & Hs' & Hd & Hdat).
  destruct Hinv as [Hq Hnd Hr Hbusy Hsl Hrd Hact Hirq]. destruct (Hirq Hi) as (r & Er & Hw). rewrite Hact in Er. injection Er as <-.
  destruct (Hbusy b ltac:(set_solver)) as (Hs & Hblk & Hdev & p & Hop & Hp).
  assert (Hreq : rq_dev (request_of (ibufs s b)) = ib_dev (ibufs s b) /\ rq_sector (request_of (ibufs s b)) = ib_block (ibufs s b)).
  { cbn. split; [|change (BSIZE / SECTOR_SIZE) with 1; lia]. assert (ib_dev (ibufs s b) = 0 \/ ib_dev (ibufs s b) = 1) as [-> | ->] by lia; done. }
  destruct Hreq as [Hr1 Hr2]. exists s'. rewrite Hdat. unfold intr_data. rewrite Hact, Hr1, Hr2. split_and!; auto.
  - destruct (is_dirty (ibufs s b)) eqn:Ed; [|done]. rewrite <- Hr1, <- Hr2. symmetry. apply Hw. cbn. by rewrite Ed.
  - intros ->. done.
Qed.

Lemma device_ok s q r : ide_inv s q -> act (ictl s) = Some r ->
  ide_inv (set_ctl s (mk_ctl (match rq_write r with Some m => dk_write (dk (ictl s)) (rq_dev r) (rq_sector r) m | None => dk (ictl s) end) (act (ictl s)) true)) q.
Proof.
  intros [Hq Hnd Hr Hbusy Hsl Hrd Hact Hirq] Hr'. split; cbn [qnext idequeue ibufs procs ictl set_ctl act irq dk]; auto.
  intros _. exists r. split; [done|]. intros m ->. unfold dk_write. rewrite Z.eqb_refl. unfold dset. by rewrite Z.eqb_refl.
Qed.

Lemma ide_wait_ok s q p b : ide_inv s q -> procs s p = Ready b -> ide_inv (ide_wait p b s) q.
Proof.
  intros [Hq Hnd Hr Hbusy Hsl Hrd Hact Hirq] Hp. destruct (Hrd p b Hp) as [Ho Hor]. unfold ide_wait.
  split; cbn [qnext idequeue ibufs procs ictl set_pst]; auto.
  - intros b' Hb'. destruct (Hbusy b' Hb') as (H1 & H2 & H3 & p' & H4 & H5). split_and!; auto; try lia. exists p'. split; [done|].
    destruct (decide (p' = p)) as [->|Hne]; [|by rewrite updn_ne]. rewrite updn_eq. left.
    assert (b' = b) as -> by (destruct H5; congruence). by rewrite H1.
  - intros p' b' E. destruct (decide (p' = p)) as [->|Hne]; [|rewrite updn_ne in E by done; auto]. rewrite updn_eq in E.
    destruct (in_sync (ibufs s b)) eqn:Es; [done|]. injection E as <-. split; [|done]. by destruct Hor.
  - intros p' b' E. destruct (decide (p' = p)) as [->|Hne]; [|rewrite updn_ne in E by done; auto]. rewrite updn_eq in E. by destruct (in_sync _).
Qed.

Lemma ide_kill_ok s q p b : ide_inv s q -> procs s p = Sleeping b -> ide_inv (set_pst s p (Ready b)) q.
Proof.
  intros [Hq Hnd Hr Hbusy Hsl Hrd Hact Hirq] Hp. destruct (Hsl p b Hp) as [Hb Ho]. split; cbn [qnext idequeue ibufs procs ictl set_pst]; auto.
  - intros b' Hb'. destruct (Hbusy b' Hb') as (H1 & H2 & H3 & p' & H4 & H5). split_and!; auto; try lia. exists p'. split; [done|].
    destruct (decide (p' = p)) as [->|Hne]; [|by rewrite updn_ne]. rewrite updn_eq. right. f_equal. destruct H5; congruence.
  - intros p' b' E. destruct (decide (p' = p)) as [->|Hne]; [by rewrite updn_eq in E | rewrite updn_ne in E by done; auto].
  - intros p' b' E. destruct (decide (p' = p)) as [->|Hne]; [|rewrite updn_ne in E by done; auto]. rewrite updn_eq in E. injection E as <-. auto.
Qed.

Lemma owner_ok s q b x : ide_inv s q -> outside b s -> ide_inv (set_buf s b x) q.
Proof.
  intros Hi Hout. pose proof (outside_queue _ _ _ Hi Hout) as Hb. destruct Hi as [Hq Hnd Hr Hbusy Hsl Hrd Hact Hirq].
  assert (Hne : forall b', b' ∈ q -> b' <> b) by (intros b' ? ->; done).
  split; cbn [qnext idequeue ibufs procs ictl set_buf]; auto.
  - intros b' Hb'. rewrite updn_ne by auto. auto.
  - intros p b' E. rewrite updn_ne; [auto|]. intros ->. by destruct (Hout p).
  - intros p b' E. rewrite updn_ne; [auto|]. intros ->. by destruct (Hout p).
  - rewrite Hact. destruct q as [|b' q]; [done|]. by rewrite updn_ne by (apply Hne; set_solver).
Qed.

(** ** What the driver promises *)

(** The buffers of the calls and of the completions in a trace. *)
Definition calls (ls : list label) : list nat := omap (fun l => match l with LCall _ b => Some b | _ => None end) ls.
Definition dones (ls : list label) : list nat := omap (fun l => match l with LDone b => Some b | _ => None end) ls.

Inductive run_ide : list label -> ide -> ide -> Prop :=
| run_nil s : run_ide [] s s
| run_snoc ls l s s' s'' : run_ide ls s s' -> istep l s' s'' -> run_ide (ls ++ [l]) s s''.

(** One step: the invariant, and the queue as the label says. *)
Lemma istep_ok l s s' q : istep l s s' -> ide_inv s q ->
  exists q', ide_inv s' q' /\ match l with LCall _ b => q' = q ++ [b] | LDone b => q = b :: q' | LOther => q' = q end.
Proof.
  intros Hst Hi. destruct Hst as [p b s s' Hc E|s r Hr _|b s s' Hirq Hh E|s s' Hh E|p b s Hp|p b s Hp|b x s Ho].
  - destruct (call_ok s q p b Hi Hc) as (s0 & E0 & Hi'). rewrite E0 in E. injection E as <-. by exists (q ++ [b]).
  - exists q. split; [by apply device_ok | done].
  - pose proof (iv_q _ _ Hi) as Hq. destruct q as [|b' q]; cbn [isq] in Hq; [congruence|]. destruct Hq as [Hq _]. rewrite Hh in Hq. injection Hq as <-.
    destruct (intr_ok s q b Hi Hirq) as (s0 & E0 & Hi' & _). rewrite E0 in E. injection E as <-. by exists q.
  - unfold ideintr in E. rewrite Hh in E. injection E as <-. by exists q.
  - exists q. split; [by apply ide_wait_ok | done].
  - exists q. split; [by apply ide_kill_ok | done].
  - exists q. split; [by apply owner_ok | done].
Qed.

(** No request is in progress. *)
Definition ide_idle (s : ide) : Prop := idequeue s = None /\ (forall p, procs s p = Idle) /\ act (ictl s) = None /\ irq (ictl s) = false.

Lemma run_inv ls s s' : run_ide ls s s' -> ide_idle s -> exists q, ide_inv s' q /\ calls ls = dones ls ++ q.
Proof.
  intros Hrun (H1 & H2 & H3 & H4). induction Hrun as [s|ls l s s' s'' Hrun IH Hst].
  - exists []. split; [|done]. split; auto.
    + constructor.
    + by intros b ?%elem_of_nil.
    + intros p b E. by rewrite H2 in E.
    + intros p b E. by rewrite H2 in E.
    + intros E. congruence.
  - destruct (IH H1 H2 H3 H4) as (q & Hi & E). destruct (istep_ok _ _ _ _ Hst Hi) as (q' & Hi' & Hl). exists q'. split; [done|].
    unfold calls, dones in *. rewrite !omap_app. destruct l as [p b|b|]; cbn; rewrite ?app_nil_r, E.
    + subst q'. by rewrite app_assoc.
    + subst q. by rewrite <- app_assoc.
    + by subst q'.
Qed.

(** C21: requests are served in order and none is forgotten.  From an idle driver,
    under any interleaving of calls, completions, interrupts, kills and uses of
    buffers outside the driver: the requests completed are the first ones
    made, in order, and the rest form the queue; a process asleep in [iderw]
    waits for a buffer of the queue, and the controller is working on the
    head, so its interrupt will come; a legal call and the interrupt always
    complete, without a panic and without waiting for the controller. *)
Theorem ide_fifo ls s s' : ide_idle s -> run_ide ls s s' ->
  exists q, isq (qnext s') (idequeue s') q /\ calls ls = dones ls ++ q /\
    (forall p b, procs s' p = Sleeping b -> b ∈ q) /\
    (forall b q', q = b :: q' -> act (ictl s') = Some (request_of (ibufs s' b))) /\
    (forall p b, may_call p b s' -> exists s'', iderw_call p b s' = Ok s'') /\
    (irq (ictl s') = true -> exists s'', ideintr false s' = Ok s'').
Proof.
  intros Hidle Hrun. destruct (run_inv ls s s' Hrun Hidle) as (q & Hi & E). exists q. split_and!.
  - apply Hi.
  - done.
  - intros p b Hp. by apply (iv_sleep _ _ Hi p).
  - intros b q' ->. apply (iv_act _ _ Hi).
  - intros p b Hc. destruct (call_ok s' q p b Hi Hc) as (s'' & E' & _). eauto.
  - intros Hirq. destruct (iv_irq _ _ Hi Hirq) as (r & Hr & _). destruct q as [|b q]; [rewrite (iv_act _ _ Hi) in Hr; done|].
    destruct (intr_ok s' q b Hi Hirq) as (s'' & E' & _). eauto.
Qed.

(** A completed buffer agrees with the disk.  Whenever the interrupt completes
    the request of a buffer, the buffer is valid and clean and holds the block
    of the disk it stands for; for a write that is the data the caller put
    there. *)
Theorem ide_done_in_sync ls s s' b s'' : ide_idle s -> run_ide ls s s' -> istep (LDone b) s' s'' ->
  in_sync (ibufs s'' b) = true /\
  ib_data (ibufs s'' b) = dk (ictl s'') (ib_dev (ibufs s' b)) (ib_block (ibufs s' b)) /\
  (is_dirty (ibufs s' b) = true -> ib_data (ibufs s'' b) = ib_data (ibufs s' b)).
Proof.
  intros Hidle Hrun Hst. destruct (run_inv ls s s' Hrun Hidle) as (q & Hi & _).
  inversion Hst as [| |b0 s0 s1 Hirq Hh E| | | |]; subst. pose proof (iv_q _ _ Hi) as Hq.
  destruct q as [|b' q]; cbn [isq] in Hq; [congruence|]. destruct Hq as [Hq _]. rewrite Hh in Hq. injection Hq as <-.
  destruct (intr_ok s' q b Hi Hirq) as (s0 & E0 & _ & H1 & Hdk & H2 & H3). rewrite E0 in E. injection E as <-. by rewrite Hdk.
Qed.

(** A read that the controller reports as failed still marks the buffer valid,
    with the data it happened to have. *)
Lemma ide_error_ignored s b s' : idequeue s = Some b -> qnext s b = None -> is_dirty (ibufs s b) = false ->
  ideintr true s = Ok s' -> in_sync (ibufs s' b) = true /\ ib_data (ibufs s' b) = ib_data (ibufs s b).
Proof.
  intros Hh Hn Hd E. unfold ideintr in E. rewrite Hh in E. cbn [set_queue ictl idequeue ide_wakeup set_ctl set_buf] in E. rewrite Hn, andb_false_r in E.
  injection E as <-. cbn [ibufs ide_wakeup set_ctl set_buf set_queue]. rewrite updn_eq. split; [apply done_sync | done].
Qed.

(** Process 1 asks for block 5, the controller finishes, the interrupt comes. *)
Definition wit_ide : ide :=
  mk_ide (fun _ => mk_ibuf 0 0 5 (fun _ => 0) (Some 1%nat)) (fun _ => None) None
    (mk_ctl (fun _ _ _ => 7) None false) false (fun _ => Idle).

Definition wit_ide_q : ide := match iderw_call 1 0 wit_ide with Ok s => s | _ => wit_ide end.
Definition wit_ide_d : ide := set_ctl wit_ide_q (mk_ctl (fun _ _ _ => 7) (act (ictl wit_ide_q)) true).

Lemma wit_ide_runs : ide_idle wit_ide /\ run_ide [LCall 1 0; LOther] wit_ide wit_ide_d.
Proof.
  split; [done|]. apply (run_snoc [LCall 1 0] LOther wit_ide wit_ide_q).
  - apply (run_snoc [] (LCall 1 0) wit_ide wit_ide); [constructor|]. apply is_call; [|reflexivity].
    split_and!; try done; [cbn; unfold NBUFS; vm_compute; lia | by left].
  - by apply (is_device wit_ide_q (mk_req 0 5 None)).
Qed.

Lemma ide_fifo_witness : exists q, isq (qnext wit_ide_d) (idequeue wit_ide_d) q /\ [0%nat] = [] ++ q.
Proof.
  destruct (ide_fifo [LCall 1 0; LOther] wit_ide wit_ide_d (proj1 wit_ide_runs) (proj2 wit_ide_runs)) as (q & H1 & H2 & _). exists q. split; [exact H1 | exact H2].
Defined.

Lemma ide_done_in_sync_witness : exists s'', ideintr false wit_ide_d = Ok s'' /\ in_sync (ibufs s'' 0) = true.
Proof.
  destruct (ideintr false wit_ide_d) as [s''| |] eqn:E; [|vm_compute in E; discriminate | vm_compute in E; discriminate]. exists s''. split; [reflexivity|].
  apply (ide_done_in_sync [LCall 1 0; LOther] wit_ide wit_ide_d 0 s'' (proj1 wit_ide_runs) (proj2 wit_ide_runs)).
  apply is_intr; [reflexivity | reflexivity | exact E].
Defined.
