(* ===== verification/Dump.v ===== *)
(** * What the kernel prints about itself (src/proc.c: procdump; src/console.c: panic)

    Both walk saved frame pointers with getcallerpcs and print with cprintf;
    the result is the characters that go to the console. *)

From S2P Require Import Prelude Layout StringLib Spinlock Proc Printf Progs.

Section dump.
Context (m : mem).                     (* kernel memory, for the frames *)

Definition state_name (s : procstate) : list Z :=
  bytes match s with
        | UNUSED => "unused" | EMBRYO => "embryo" | SLEEPING => "sleep " | RUNNABLE => "runble" | RUNNING => "run   " | ZOMBIE => "zombie"
        end.

(** cprintf with the strings its arguments point to; [strs] by argument number. *)
Definition cprint (fmt : string) (args : list Z) (strs : Z -> list Z) : list Z := cprintf strs (fun i => nth i args 0) false (bytes fmt).

(** [for(i=0; i<10 && pc[i] != 0; i++) cprintf(" %p", pc[i])] *)
Fixpoint print_pcs (pcs : list Z) : list Z :=
  match pcs with
  | [] => []
  | pc :: l => if pc =? 0 then [] else cprint " %p" [pc] (fun _ => []) ++ print_pcs l
  end.

(** The name up to its NUL; [p->name] has 16 bytes. *)
Fixpoint cname (n : nat) (s : mem) (i : Z) : list Z :=
  match n with
  | O => []
  | S n' => if s i =? 0 then [] else s i :: cname n' s (i + 1)
  end.

(** Arguments 1 and 2 are pointers: 1 for the state's name, 2 for the process's. *)
Definition dump_proc (p : proc) : list Z :=
  match p_state p with
  | UNUSED => []
  | _ =>
      cprint "%d %s %s" [p_pid p; 1; 2] (fun a => if a =? 1 then state_name (p_state p) else cname 16 (p_name p) 0) ++
      (match p_state p with SLEEPING => print_pcs (getcallerpcs m (u32 (c_ebp (p_context p) + 8))) | _ => [] end) ++
      [LF]
  end.

Definition procdump (ptable : list proc) : list Z := mjoin (dump_proc <$> ptable).

(** [v] is the address of panic's argument; the machine then stops. *)
Definition panic (lapicid : Z) (s : list Z) (v : Z) : list Z :=
  cprint "lapicid %d: panic: " [lapicid] (fun _ => []) ++ cprintf (fun _ => []) (fun _ => 0) false s ++ [LF] ++
  mjoin ((fun pc => cprint " %p" [pc] (fun _ => [])) <$> getcallerpcs m v).

(** ** A line for every process *)

Definition no_lf (l : list Z) : Prop := LF ∉ l.

Lemma no_lf_app l k : no_lf (l ++ k) <-> no_lf l /\ no_lf k.
Proof. unfold no_lf. rewrite elem_of_app. tauto. Qed.

Lemma no_lf_cons c l : no_lf (c :: l) <-> c <> LF /\ no_lf l.
Proof. unfold no_lf. rewrite elem_of_cons. intuition congruence. Qed.

Lemma digits_no_lf up n : forall x base, 2 <= base -> 0 <= x -> no_lf (digits_loop n x base up).
Proof.
  induction n as [|n IH]; intros x base Hb Hx; cbn [digits_loop]; [by intros ?%elem_of_nil|]. pose proof (Z.mod_pos_bound x base ltac:(lia)) as Hm.
  intros [E|E]%elem_of_cons.
  - unfold digit, LF in E. destruct (Z.ltb_spec (x mod base) 10), up; lia.
  - destruct (x / base =? 0); [by apply elem_of_nil in E|]. revert E. apply IH; [done | apply Z.div_pos; lia].
Qed.

Lemma printint_no_lf x base sgn up : 2 <= base -> no_lf (printint x base sgn up).
Proof.
  intros Hb. unfold printint, print_buf, no_lf. rewrite list_elem_of_In, <- in_rev, <- list_elem_of_In. apply no_lf_app. split.
  - apply digits_no_lf; [done|]. destruct (sgn && (x <? 0)); unfold u32; apply Z.mod_pos_bound; lia.
  - destruct (sgn && (x <? 0)); [|by intros ?%elem_of_nil]. by intros ?%list_elem_of_singleton.
Qed.

Lemma print_pcs_no_lf pcs : no_lf (print_pcs pcs).
Proof.
  induction pcs as [|pc pcs IH]; cbn [print_pcs]; [by intros ?%elem_of_nil|]. destruct (pc =? 0); [by intros ?%elem_of_nil|]. apply no_lf_app. split; [|done].
  change (cprint " %p" [pc] (fun _ => [])) with (32 :: printint (s32 pc) 16 false false ++ []). intros [E|E]%elem_of_cons; [done|]. rewrite app_nil_r in E. revert E. apply printint_no_lf. lia.
Qed.

Definition lines (l : list Z) : nat := length (filter (fun c => c = LF) l).

Lemma lines_app l k : lines (l ++ k) = (lines l + lines k)%nat.
Proof. unfold lines. by rewrite filter_app, length_app. Qed.
Lemma lines_none l : no_lf l -> lines l = O.
Proof.
  unfold lines, no_lf. induction l as [|c l IH]; [done|]. rewrite not_elem_of_cons. intros [Hc Hl]. rewrite filter_cons, decide_False by congruence. auto.
Qed.

(** The text of a process's line. *)
Lemma dump_proc_text p : p_state p <> UNUSED -> dump_proc p =
  (printint (s32 (p_pid p)) 10 true false ++ 32 :: state_name (p_state p) ++ 32 :: cname 16 (p_name p) 0 ++
   if bool_decide (p_state p = SLEEPING) then print_pcs (getcallerpcs m (u32 (c_ebp (p_context p) + 8))) else []) ++ [LF].
Proof.
  intros H. unfold dump_proc, cprint. change (bytes "%d %s %s") with [37; 100; 32; 37; 115; 32; 37; 115].
  destruct (p_state p) eqn:E; [done|..]; unfold cprintf; cbn [cprintf_loop negb Z.eqb Pos.eqb nth put_str app orb];
    first [rewrite bool_decide_eq_true_2 by done | rewrite bool_decide_eq_false_2 by done]; rewrite <- !app_assoc; cbn [app]; rewrite <- !app_assoc; cbn [app]; rewrite <- ?app_assoc; reflexivity.
Qed.

Lemma state_name_no_lf s : no_lf (state_name s).
Proof. destruct s; unfold no_lf; rewrite <- (bool_decide_eq_false (_ ∈ _)); reflexivity. Qed.

(** procdump prints exactly one line for every slot in use, in the order of the
    table, and nothing for the others. *)
Lemma procdump_lines l : Forall (fun p => no_lf (cname 16 (p_name p) 0)) l -> lines (procdump l) = length (filter (fun p => p_state p <> UNUSED) l).
Proof.
  unfold procdump. induction 1 as [|p l Hp Hl IH]; [done|]. rewrite fmap_cons. cbn [mjoin list_join]. rewrite lines_app, filter_cons. change (lines (mjoin (dump_proc <$> l)) = length (filter (fun p => p_state p <> UNUSED) l)) in IH. setoid_rewrite IH.
  destruct (decide (p_state p = UNUSED)) as [E|E].
  - rewrite decide_False by (intros H; by apply H). unfold dump_proc. by rewrite E.
  - rewrite decide_True by done. rewrite dump_proc_text, lines_app by done. cbn [length]. rewrite lines_none; [reflexivity|].
    rewrite !no_lf_app, !no_lf_cons, !no_lf_app, !no_lf_cons, !no_lf_app. split_and!; try done; [apply printint_no_lf; lia | apply state_name_no_lf|].
    case_bool_decide; [apply print_pcs_no_lf | by intros ?%elem_of_nil].
Qed.

(** The frames of a call chain: [ebp] is the frame pointer, [pcs] the return
    addresses, and the chain ends with a pointer below the kernel. *)
Inductive frames : Z -> list Z -> Prop :=
| frames_end ebp : 0 <= ebp < KERNBASE -> frames ebp []
| frames_call ebp pc pcs : KERNBASE <= ebp < 0xffffffff -> ld32 m (ebp + 4) = pc -> frames (ld32 m ebp) pcs -> frames ebp (pc :: pcs).

Lemma callerpcs_frames n : forall ebp pcs, frames ebp pcs -> callerpcs m n ebp = take n (pcs ++ repeat 0 n).
Proof.
  induction n as [|n IH]; intros ebp pcs H; [done|]. cbn [callerpcs]. inversion H as [? Hr|? pc pcs' Hr Hpc Hf]; subst.
  - destruct (Z.ltb_spec ebp KERNBASE); [|lia]. rewrite orb_true_r. cbn [orb app]. by rewrite take_ge by (rewrite repeat_length; lia).
  - unfold KERNBASE in *. destruct (Z.eqb_spec ebp 0), (Z.ltb_spec ebp 0x80000000), (Z.eqb_spec ebp 0xffffffff); try lia. cbn [orb app take]. f_equal.
    rewrite (IH _ pcs') by done. destruct (Nat.le_gt_cases n (length pcs')); [by rewrite !take_app_le by lia|].
    rewrite !take_app_ge by lia. f_equal. replace (repeat 0 (S n)) with (repeat 0 n ++ [0]) by (rewrite <- repeat_cons; done). rewrite take_app_le by (rewrite repeat_length; lia). done.
Qed.

Lemma print_pcs_all pcs k : Forall (fun pc => pc <> 0) pcs -> print_pcs (pcs ++ repeat 0 k) = mjoin ((fun pc => 32 :: printint (s32 pc) 16 false false) <$> pcs).
Proof.
  induction 1 as [|pc pcs Hp Hl IH]; [by destruct k|]. cbn [app print_pcs fmap list_fmap mjoin list_join]. destruct (Z.eqb_spec pc 0); [done|].
  change (cprint " %p" [pc] (fun _ => [])) with (32 :: printint (s32 pc) 16 false false ++ []). rewrite app_nil_r, IH. done.
Qed.

(** The line of a sleeping process shows where it sleeps: its pid, state and name
    and the return addresses of up to ten calls, the innermost first. *)
Theorem procdump_shows_stack p pcs : p_state p = SLEEPING -> frames (c_ebp (p_context p)) pcs -> (length pcs <= 10)%nat -> Forall (fun pc => pc <> 0) pcs ->
  dump_proc p = printint (s32 (p_pid p)) 10 true false ++ bytes " sleep  " ++ cname 16 (p_name p) 0 ++ mjoin ((fun pc => 32 :: printint (s32 pc) 16 false false) <$> pcs) ++ [LF].
Proof.
  intros Hs Hf Hl Hn. rewrite dump_proc_text by (by rewrite Hs). rewrite Hs. rewrite bool_decide_eq_true_2 by done. unfold getcallerpcs.
  assert (He : 0 <= c_ebp (p_context p) < 2 ^ 32) by (inversion Hf; subst; unfold KERNBASE in *; lia).
  replace (u32 (u32 (c_ebp (p_context p) + 8) - 8)) with (c_ebp (p_context p)) by (unfold u32; rewrite Zminus_mod_idemp_l; replace (c_ebp (p_context p) + 8 - 8) with (c_ebp (p_context p)) by lia; by rewrite Z.mod_small).
  rewrite (callerpcs_frames 10 _ pcs Hf). rewrite take_app_ge by lia. replace (take (10 - length pcs) (repeat 0 10)) with (repeat 0 (10 - length pcs)).
  - rewrite print_pcs_all by done. rewrite <- !app_assoc. f_equal. cbn [app]. rewrite <- !app_assoc. cbn [app]. rewrite <- !app_assoc. reflexivity.
  - generalize (length pcs). intros n. do 11 (destruct n as [|n]; [reflexivity|]). reflexivity.
Qed.
End dump.
