(* ===== verification/Trap.v ===== *)
(** * System-call dispatch and traps (syscall() of src/syscall.c, src/trap.c)

    The composition of the kernel: one trap enters with the trap frame, the
    interrupted process and what the devices have to say, and leaves the new
    state with how it ended.  The disk is the driver of src/ide.c, or that of
    src/memide.c, whose interrupt handler does nothing.  What the handlers
    print goes to the console.  [sys_sleep] sees [ticks0] equal to [ticks] when
    the call starts. *)

From S2P Require Import Prelude Layout StringLib Kalloc Pipe Blocks Balloc Fs File Vm VmSpec VmUser Proc ProcSpec Syscall Sysfile Exec Console Kbd Bio Spinlock Printf Progs Ide Dump.

Definition T_SYSCALL : Z := 64.
Definition T_IRQ0 : Z := 32.
Definition IRQ_TIMER : Z := 0.
Definition IRQ_KBD : Z := 1.
Definition IRQ_COM1 : Z := 4.
Definition IRQ_IDE : Z := 14.
Definition IRQ_SPURIOUS : Z := 31.

Record machine := mk_machine {
  m_kern : kern;
  m_ticks : Z;
  m_cons : cons;
  m_shift : Z;             (* kbdgetc's static [shift] *)
  m_disk : option ide      (* ide.c's state; none in the kernel with memide.c *)
}.

Definition set_kern (t : machine) (k : kern) : machine := mk_machine k (m_ticks t) (m_cons t) (m_shift t) (m_disk t).

(** What the handlers find: the CPU they run on, what the keyboard and the
    serial line hold, the disk's error bit, and register cr2. *)
Record event := mk_event { ev_cpu : Z; ev_codes : list Z; ev_serial : list Z; ev_err : bool; ev_cr2 : Z }.

(** [&input.r], the channel of console readers. *)
Definition ChInput : wchan := ChObj 0.
(** [struct buf]s as channels. *)
Definition ChBuf (b : nat) : wchan := ChObj (1 + Z.of_nat b).

(** How a trap ended: back to what was interrupted, process gone, asleep in the
    call, or off the CPU after its time slice. *)
Inductive tret := TDone | TExit | TSleep (rest : list Z) | TYield.

Section trap.
Context (kend data forkret : Z) (sb : superblock).
Context (dev_read : Z -> option (nat -> mem -> Z -> Z -> fs -> res (Z * mem * fs))).
Context (dev_write : Z -> option (nat -> mem -> Z -> Z -> fs -> res (Z * fs))).
Context (now : rtcdate).           (* what the real-time clock reads *)

Definition syscalls (ticks num : Z) : option (nat -> kern -> res (sysret * kern)) :=
  match num with
  | 1 => Some (sys_fork kend data forkret)
  | 2 => Some (sys_exit kend sb)
  | 3 => Some (sys_wait kend)
  | 4 => Some (sys_pipe kend sb)
  | 5 => Some (sys_read sb dev_read)
  | 6 => Some sys_kill
  | 7 => Some (sys_exec kend data sb dev_read)
  | 8 => Some (sys_fstat sb)
  | 9 => Some (sys_chdir sb dev_read)
  | 10 => Some sys_dup
  | 11 => Some sys_getpid
  | 12 => Some (sys_sbrk kend)
  | 13 => Some (sys_sleep ticks ticks)
  | 14 => Some (fun _ => sys_uptime ticks)
  | 15 => Some (sys_open kend sb dev_read dev_write)
  | 16 => Some (sys_write sb dev_write)
  | 17 => Some (sys_mknod sb dev_read dev_write)
  | 18 => Some (sys_unlink sb dev_read dev_write)
  | 19 => Some (sys_link sb dev_read dev_write)
  | 20 => Some (sys_mkdir sb dev_read dev_write)
  | 21 => Some (sys_close kend sb)
  | 22 => Some (sys_date now)
  | _ => None
  end.

Definition syscall_ret (me : nat) (v : Z) (k : kern) : kern :=
  upd_proc k me (fun x => with_tf x (set_eax (p_tf x) (u32 v))).

Definition syscall (ticks : Z) (me : nat) (k : kern) : res (sysret * kern) :=
  match syscalls ticks (s32 (tf_eax (p_tf (proc_at k me)))) with
  | Some f =>
      let* (r, k) := f me k in
      Ok (r, match r with SRet v => syscall_ret me v k | _ => k end)
  | None => Ok (SRet (-1), syscall_ret me (-1) k)
  end.

Definition exit_trap (me : nat) (t : machine) : res (tret * machine) :=
  let* k := exit kend sb me (m_kern t) in Ok (TExit, set_kern t k).

Definition killed_user (me : option nat) (cs : Z) (t : machine) : option nat :=
  match me with
  | Some p => if p_killed (proc_at (m_kern t) p) && (Z.land cs 3 =? DPL_USER) then Some p else None
  | None => None
  end.

(** The last check of [trap], where a process that yielded continues. *)
Definition trap_resume (me : option nat) (cs : Z) (t : machine) : res (tret * machine) :=
  match killed_user me cs t with
  | Some p => exit_trap p t
  | None => Ok (TDone, t)
  end.

(** [cprintf]: the characters go through [consputc]. *)
Definition print (l : list Z) (t : machine) : res machine :=
  let* c := consputs l (m_cons t) in Ok (mk_machine (m_kern t) (m_ticks t) c (m_shift t) (m_disk t)).

(** The end of [consoleintr]: readers were woken in its loop, the listing of
    Control-P comes after it. *)
Definition cons_done (w d : bool) (c : cons) (sh : Z) (t : machine) : res machine :=
  let k := if w then wakeup ChInput (m_kern t) else m_kern t in
  let t := mk_machine k (m_ticks t) c sh (m_disk t) in
  if d then print (procdump (kram (kmem_of k)) (ptable k)) t else Ok t.

(** [ideintr()]; the driver's record of its sleepers is in [m_disk]. *)
Definition disk_intr (err : bool) (t : machine) : res machine :=
  match m_disk t with
  | None => Ok t
  | Some s =>
      let* s' := ideintr err s in
      let k := match idequeue s with Some b => wakeup (ChBuf b) (m_kern t) | None => m_kern t end in
      Ok (mk_machine k (m_ticks t) (m_cons t) (m_shift t) (Some s'))
  end.

(** The [switch]. *)
Definition trap_irq (me : option nat) (tf : trapframe) (ev : event) (t : machine) : res machine :=
  let n := tf_trapno tf in
  if n =? T_IRQ0 + IRQ_TIMER then
    if ev_cpu ev =? 0 then
      Ok (mk_machine (wakeup ChTicks (m_kern t)) (u32 (m_ticks t + 1)) (m_cons t) (m_shift t) (m_disk t))
    else Ok t
  else if n =? T_IRQ0 + IRQ_IDE then disk_intr (ev_err ev) t
  else if n =? T_IRQ0 + IRQ_IDE + 1 then Ok t
  else if n =? T_IRQ0 + IRQ_KBD then
    let* (w, d, c, sh) := kbdintr (ev_codes ev) (m_shift t) (m_cons t) in
    cons_done w d c sh t
  else if n =? T_IRQ0 + IRQ_COM1 then
    let* (w, d, c) := consoleintr (ev_serial ev) (m_cons t) in
    cons_done w d c (m_shift t) t
  else if (n =? T_IRQ0 + 7) || (n =? T_IRQ0 + IRQ_SPURIOUS) then
    print (cprint "cpu%d: spurious interrupt at %x:%x" [ev_cpu ev; tf_cs tf; tf_eip tf] (fun _ => []) ++ [LF]) t
  else
    let unexpected :=
      let* _ := print (cprint "unexpected trap %d from cpu %d eip %x (cr2=0x%x)"
                         [n; ev_cpu ev; tf_eip tf; ev_cr2 ev] (fun _ => []) ++ [LF]) t in
      Panic "trap" in
    match me with
    | None => unexpected
    | Some p =>
        if Z.land (tf_cs tf) 3 =? 0 then unexpected
        else
          let x := proc_at (m_kern t) p in
          let* t := print (cprint "pid %d %s: trap %d err %d on cpu %d eip 0x%x addr 0x%x--kill proc"
                             [p_pid x; 1; n; tf_err tf; ev_cpu ev; tf_eip tf; ev_cr2 ev] (fun _ => cname 16 (p_name x) 0) ++ [LF]) t in
          Ok (set_kern t (upd_proc (m_kern t) p (fun x => with_killed x true)))
    end.

Definition trap (me : option nat) (tf : trapframe) (ev : event) (t : machine) : res (tret * machine) :=
  if tf_trapno tf =? T_SYSCALL then
    match me with
    | None => Panic "trap"                             (* myproc()->killed *)
    | Some p =>
        if p_killed (proc_at (m_kern t) p) then exit_trap p t
        else
          let k := upd_proc (m_kern t) p (fun x => with_tf x tf) in
          let* (r, k) := syscall (m_ticks t) p k in
          let t := set_kern t k in
          match r with
          | SExit => Ok (TExit, t)
          | SSleep rest => Ok (TSleep rest, t)
          | SRet _ => if p_killed (proc_at (m_kern t) p) then exit_trap p t else Ok (TDone, t)
          end
    end
  else
    let* t := trap_irq me tf ev t in
    match killed_user me (tf_cs tf) t with
    | Some p => exit_trap p t
    | None =>
        match me with
        | Some p =>
            if bool_decide (p_state (proc_at (m_kern t) p) = RUNNING) && (tf_trapno tf =? T_IRQ0 + IRQ_TIMER) then
              Ok (TYield, set_kern t (yield p (m_kern t)))
            else trap_resume me (tf_cs tf) t
        | None => trap_resume me (tf_cs tf) t
        end
    end.
End trap.

(** ** Interrupts preserve the kernel's invariants *)

Record machine_ok (t : machine) : Prop := mk_machine_ok {
  mo_procs : ptable_ok false (m_kern t);
  mo_lines : exists l, holds (m_cons t) l;
  mo_screen : screen_ok (m_cons t);
  mo_shift : 0 <= m_shift t < 128;
  mo_disk : forall s, m_disk t = Some s -> exists q, ide_inv s q
}.

Lemma set_kern_ok t k : machine_ok t -> ptable_ok false k -> machine_ok (set_kern t k).
Proof. intros [] Hk. by constructor. Qed.

Lemma killed_ok k p : ptable_ok false k -> ptable_ok false (upd_proc k p (fun x => with_killed x true)).
Proof.
  intros Hk. eapply ptable_ok_same; [exact Hk | | done | done]. intros q. unfold same_view.
  destruct (proc_at_upd_full k p (fun x => with_killed x true) q) as [Hp|[[_ ->]|(_ & -> & ->)]]; [|done | done].
  unfold proc_at, upd_proc, set_proc. cbn [ptable]. by rewrite list_insert_ge by lia.
Qed.

Lemma wake_ok (b : bool) c k : ptable_ok false k -> ptable_ok false (if b then wakeup c k else k).
Proof. destruct b; [apply wakeup1_ok | done]. Qed.

(** Printing always succeeds and touches only the screen and the serial line. *)
Lemma consputs_ok l : forall s, screen_ok s -> exists s', consputs l s = Ok s' /\ screen_ok s' /\ same_input s s'.
Proof.
  induction l as [|c l IH]; intros s Hs; cbn [consputs]; [by exists s|].
  destruct (consputc_ok c s Hs) as (s1 & -> & Hs1 & (A1 & A2 & A3 & A4)). cbn [rbind].
  destruct (IH s1 Hs1) as (s' & -> & Hs' & (B1 & B2 & B3 & B4)). exists s'. split_and!; auto. unfold same_input. split_and!; congruence.
Qed.

Lemma print_ok l t : machine_ok t -> exists t', print l t = Ok t' /\ machine_ok t' /\ m_kern t' = m_kern t.
Proof.
  intros [H1 [x H2] H3 H4 H5]. unfold print. destruct (consputs_ok l (m_cons t) H3) as (c & -> & Hc & Hi). cbn [rbind].
  eexists. split; [reflexivity|]. split; [|done]. constructor; auto. exists x. by eapply holds_same.
Qed.

Lemma cons_done_ok (w d : bool) c sh t : machine_ok t -> (exists l, holds c l) -> screen_ok c -> 0 <= sh < 128 ->
  exists t', cons_done w d c sh t = Ok t' /\ machine_ok t' /\ (m_kern t' = m_kern t \/ m_kern t' = wakeup ChInput (m_kern t)).
Proof.
  intros [H1 _ _ _ H5] Hl Hs Hsh. unfold cons_done. set (k := if w then _ else _).
  set (t1 := mk_machine k _ _ _ _). assert (Ht1 : machine_ok t1) by (unfold t1, k; constructor; cbn; auto using wake_ok).
  assert (Hk : k = m_kern t \/ k = wakeup ChInput (m_kern t)) by (unfold k; destruct w; auto).
  destruct d; [|by exists t1]. destruct (print_ok (procdump (kram (kmem_of k)) (ptable k)) t1 Ht1) as (t' & -> & Ht' & E).
  exists t'. split; [done|]. split; [done|]. by rewrite E.
Qed.

Lemma disk_intr_ok err t : machine_ok t -> exists t', disk_intr err t = Ok t' /\ machine_ok t' /\
  (m_kern t' = m_kern t \/ exists c, m_kern t' = wakeup c (m_kern t)).
Proof.
  intros Ht. pose proof Ht as [H1 H2 H3 H4 H5]. unfold disk_intr. destruct (m_disk t) as [s|] eqn:Es; [|by exists t; auto].
  destruct (H5 s eq_refl) as [q Hq]. pose proof (iv_q _ _ Hq) as Hh. destruct q as [|b q]; cbn [isq] in Hh.
  - unfold ideintr. rewrite Hh. cbn [rbind]. eexists. split; [reflexivity|]. split; [|by left].
    constructor; cbn; [auto..|]. intros ? [= <-]. by exists [].
  - destruct Hh as [-> _]. destruct (intr_inv err s q b Hq) as (s' & -> & Hq' & _). cbn [rbind]. eexists. split; [reflexivity|].
    split; [|right; by exists (ChBuf b)]. constructor; cbn; [auto using wakeup1_ok..|]. intros ? [= <-]. by exists q.
Qed.

(** A trap that a device raises, or an exception of a user program. *)
Definition expected (me : option nat) (tf : trapframe) : Prop :=
  tf_trapno tf ∈ [T_IRQ0 + IRQ_TIMER; T_IRQ0 + IRQ_IDE; T_IRQ0 + IRQ_IDE + 1; T_IRQ0 + IRQ_KBD; T_IRQ0 + IRQ_COM1;
                  T_IRQ0 + 7; T_IRQ0 + IRQ_SPURIOUS] \/
  me <> None /\ Z.land (tf_cs tf) 3 = DPL_USER.

(** The devices deliver bytes. *)
Definition event_ok (ev : event) : Prop :=
  Forall (fun d => 0 <= d < 256) (ev_codes ev) /\ Forall (fun d => 0 <= d < 256) (ev_serial ev).

(** What the [switch] may do to the process table. *)
Definition irq_effect (me : option nat) (k k' : kern) : Prop :=
  k' = k \/ (exists c, k' = wakeup c k) \/ exists p, me = Some p /\ k' = upd_proc k p (fun x => with_killed x true).

Lemma trap_irq_ok me tf ev t : machine_ok t -> expected me tf -> event_ok ev ->
  exists t', trap_irq me tf ev t = Ok t' /\ machine_ok t' /\ irq_effect me (m_kern t) (m_kern t').
Proof.
  intros Ht Hx [Hc Hs]. pose proof Ht as [H1 [l H2] H3 H4 H5]. unfold trap_irq, irq_effect.
  destruct (Z.eqb_spec (tf_trapno tf) (T_IRQ0 + IRQ_TIMER)) as [E1|E1].
  { destruct (ev_cpu ev =? 0); eexists; (split; [reflexivity|]); split; eauto 6; constructor; eauto using wakeup1_ok. }
  destruct (Z.eqb_spec (tf_trapno tf) (T_IRQ0 + IRQ_IDE)) as [E2|E2].
  { destruct (disk_intr_ok (ev_err ev) t Ht) as (t' & -> & Ht' & Hk). exists t'. tauto. }
  destruct (Z.eqb_spec (tf_trapno tf) (T_IRQ0 + IRQ_IDE + 1)) as [E3|E3]; [exists t; auto|].
  destruct (Z.eqb_spec (tf_trapno tf) (T_IRQ0 + IRQ_KBD)) as [E4|E4].
  { unfold kbdintr. destruct (kbd_chars_typed (ev_codes ev) (m_shift t) Hc H4) as [Hl Hr].
    destruct (kbd_chars (ev_codes ev) (m_shift t)) as [cs sh]. cbn [fst snd] in *.
    destruct (consoleintr_ok cs (m_cons t) l H2 H3 Hl) as (d & s & -> & A1 & A2). cbn [rbind].
    destruct (cons_done_ok (fst (line_chars cs l)) d s sh t) as (t' & -> & Ht' & [?|?]); eauto 7. }
  destruct (Z.eqb_spec (tf_trapno tf) (T_IRQ0 + IRQ_COM1)) as [E5|E5].
  { destruct (consoleintr_ok (ev_serial ev) (m_cons t) l H2 H3 Hs) as (d & s & -> & A1 & A2). cbn [rbind].
    destruct (cons_done_ok (fst (line_chars (ev_serial ev) l)) d s (m_shift t) t) as (t' & -> & Ht' & [?|?]); eauto 7. }
  destruct ((tf_trapno tf =? T_IRQ0 + 7) || (tf_trapno tf =? T_IRQ0 + IRQ_SPURIOUS)) eqn:E6.
  { set (txt := cprint _ _ _ ++ _). destruct (print_ok txt t Ht) as (t' & -> & Ht' & Hk). exists t'. auto. }
  apply orb_false_iff in E6 as [E6 E7]. apply Z.eqb_neq in E6, E7. destruct Hx as [Hx|[Hme Hu]].
  { exfalso. rewrite !elem_of_cons, elem_of_nil in Hx. tauto. }
  destruct me as [p|]; [|done]. rewrite Hu. cbn [Z.eqb DPL_USER]. set (txt := cprint _ _ _ ++ _).
  destruct (print_ok txt t Ht) as (t' & -> & Ht' & Hk). cbn [rbind]. eexists. split; [reflexivity|]. rewrite Hk.
  split; [apply set_kern_ok; auto using killed_ok | eauto 7].
Qed.

(** Any other trap that finds no process is reported and stops the kernel. *)
Lemma unexpected_panics tf ev t : machine_ok t ->
  tf_trapno tf ∉ [T_IRQ0 + IRQ_TIMER; T_IRQ0 + IRQ_IDE; T_IRQ0 + IRQ_IDE + 1; T_IRQ0 + IRQ_KBD; T_IRQ0 + IRQ_COM1; T_IRQ0 + 7; T_IRQ0 + IRQ_SPURIOUS] ->
  trap_irq None tf ev t = Panic "trap".
Proof.
  intros Ht Hx. rewrite !not_elem_of_cons in Hx. destruct Hx as (H1 & H2 & H3 & H4 & H5 & H6 & H7 & _). unfold trap_irq.
  repeat match goal with H : tf_trapno tf <> ?v |- context [tf_trapno tf =? ?v] => rewrite (proj2 (Z.eqb_neq _ _) H) end. cbn [orb].
  set (txt := cprint _ _ _ ++ _). by destruct (print_ok txt t Ht) as (t' & -> & _).
Qed.

Lemma irq_effect_running me k k' p : irq_effect me k k' -> p_state (proc_at k p) = RUNNING -> p_state (proc_at k' p) = RUNNING.
Proof.
  intros [->|[(c & ->)|(q & _ & ->)]] Hr; [done| |].
  - unfold wakeup. rewrite proc_at_wakeup. unfold wake1. by rewrite Hr.
  - assert (Hp : (p < length (ptable k))%nat) by (apply used_in; unfold used; by rewrite Hr).
    destruct (decide (p = q)) as [->|]; [by rewrite proc_at_upd | by rewrite proc_at_upd_ne].
Qed.

(** What a system call may do to the table besides the critical sections of
    [kstep]: files and user memory change, a process may get a new page
    directory, and the scheduling state stays. *)
Definition quiet (k k' : kern) : Prop :=
  nextpid k' = nextpid k /\ initproc k' = initproc k /\
  forall p, let x := proc_at k p in let x' := proc_at k' p in
    p_state x' = p_state x /\ p_parent x' = p_parent x /\ p_chan x' = p_chan x /\ p_kstack x' = p_kstack x /\
    p_pid x' = p_pid x /\ (p_pgdir x' = p_pgdir x \/ p_pgdir x' <> 0).

Lemma quiet_ok k k' : quiet k k' -> ptable_ok false k -> ptable_ok false k'.
Proof.
  intros (En & Ei & Hq) [H1 H2 H3 H4 _ _ H7 H8].
  assert (Hu : forall p, used (proc_at k' p) = used (proc_at k p) /\ alive (proc_at k' p) = alive (proc_at k p)).
  { intros p. unfold used, alive. by destruct (Hq p) as (-> & _). }
  constructor; try done; rewrite ?Ei.
  - destruct H1 as (i & ? & ? & ?). exists i. destruct (Hq i) as (_ & -> & _), (Hu i) as (_ & ->). auto.
  - intros p. destruct (Hq p) as (_ & -> & _), (Hu p) as (-> & _). intros Hp. destruct (H2 p Hp) as [?|(q & ? & ? & ?)]; [by left|].
    right. exists q. destruct (Hu q) as (_ & ->). auto.
  - intros p. destruct (Hq p) as (-> & -> & _), (Hu p) as (-> & _). apply H3.
  - intros p. destruct (Hq p) as (_ & _ & _ & -> & _ & Hd), (Hu p) as (-> & _). intros Hp. destruct (H4 p Hp) as [? ?].
    split; [done|]. destruct Hd as [->|?]; done.
  - intros p q. destruct (Hq p) as (-> & _ & -> & _). apply H7.
  - intros p q. unfold waiting. destruct (Hq p) as (-> & _ & -> & _), (Hq q) as (-> & -> & _). apply H8.
Qed.

(** ** Sequences of traps *)

(** The interrupted process, if there is one, is the running one. *)
Definition runs (me : option nat) (t : machine) : Prop := forall p, me = Some p -> p_state (proc_at (m_kern t) p) = RUNNING.

Section run.
Context (kend data forkret : Z) (sb : superblock).
Context (dev_read : Z -> option (nat -> mem -> Z -> Z -> fs -> res (Z * mem * fs))).
Context (dev_write : Z -> option (nat -> mem -> Z -> Z -> fs -> res (Z * fs))).
Context (now : rtcdate).

Abbreviation trap := (trap kend data forkret sb dev_read dev_write now).
Abbreviation exit_trap := (exit_trap kend sb).
Abbreviation trap_resume := (trap_resume kend sb).

(** What happens between and in traps, in any order. *)
Inductive mstep : machine -> machine -> Prop :=
| ms_trap me tf ev t r t' : tf_trapno tf <> T_SYSCALL -> expected me tf -> event_ok ev -> runs me t ->
    trap me tf ev t = Ok (r, t') -> mstep t t'
| ms_resume p cs t r t' : p_state (proc_at (m_kern t) p) = RUNNING -> trap_resume (Some p) cs t = Ok (r, t') -> mstep t t'
| ms_kern t k' : kstep kend data forkret sb (m_kern t) k' -> mstep t (set_kern t k')
| ms_quiet t k' : quiet (m_kern t) k' -> mstep t (set_kern t k')
| ms_print l t t' : print l t = Ok t' -> mstep t t'
| ms_read n target killed t : mstep t (mk_machine (m_kern t) (m_ticks t) (fst (fst (consoleread n target killed (m_cons t)))) (m_shift t) (m_disk t))
| ms_disk l s s' t : m_disk t = Some s -> istep l s s' -> mstep t (mk_machine (m_kern t) (m_ticks t) (m_cons t) (m_shift t) (Some s')).

Lemma exit_trap_ok p t r t' : machine_ok t -> alive (proc_at (m_kern t) p) = true -> exit_trap p t = Ok (r, t') -> r = TExit /\ machine_ok t'.
Proof.
  intros Ht Ha (k & E & [= <- <-])%rbind_Ok_inv. split; [done|]. apply set_kern_ok; [done|].
  eapply exit_ok in E as [? _]; [done | apply Ht | done].
Qed.

Lemma trap_resume_ok p cs t r t' : machine_ok t -> alive (proc_at (m_kern t) p) = true -> trap_resume (Some p) cs t = Ok (r, t') -> machine_ok t'.
Proof.
  intros Ht Ha. unfold Trap.trap_resume. destruct (killed_user (Some p) cs t) as [q|] eqn:E; [|by intros [= <- <-]].
  assert (q = p) as -> by (unfold killed_user in E; destruct (_ && _); congruence). intros H. by apply exit_trap_ok in H as [_ ?].
Qed.

(** The whole of [trap] for anything but a system call. *)
Lemma trap_ok me tf ev t : machine_ok t -> tf_trapno tf <> T_SYSCALL -> expected me tf -> event_ok ev -> runs me t ->
  exists t1, trap_irq me tf ev t = Ok t1 /\ machine_ok t1 /\ irq_effect me (m_kern t) (m_kern t1) /\
    match killed_user me (tf_cs tf) t1 with
    | Some p => trap me tf ev t = exit_trap p t1 /\ me = Some p /\
                (forall r t', trap me tf ev t = Ok (r, t') -> r = TExit /\ machine_ok t')
    | None => exists r t', trap me tf ev t = Ok (r, t') /\ machine_ok t' /\
                (r = TYield <-> tf_trapno tf = T_IRQ0 + IRQ_TIMER /\ me <> None)
    end.
Proof.
  intros Ht Hn Hx He Hr. destruct (trap_irq_ok me tf ev t Ht Hx He) as (t1 & E1 & Ht1 & Hk). exists t1. split_and!; auto.
  unfold Trap.trap. destruct (Z.eqb_spec (tf_trapno tf) T_SYSCALL); [done|]. rewrite E1. cbn [rbind].
  destruct (killed_user me (tf_cs tf) t1) as [p|] eqn:Ek.
  - assert (Hme : me = Some p) by (unfold killed_user in Ek; destruct me; [destruct (_ && _)|]; congruence).
    split_and!; auto. intros r t'. apply exit_trap_ok; [done|]. apply running_alive. by eapply irq_effect_running; [|apply Hr].
  - unfold Trap.trap_resume. rewrite Ek. destruct me as [p|].
    + pose proof (irq_effect_running _ _ _ p Hk (Hr p eq_refl)) as Hrun. rewrite bool_decide_eq_true_2 by done. cbn [andb].
      destruct (Z.eqb_spec (tf_trapno tf) (T_IRQ0 + IRQ_TIMER)) as [E|E]; eexists _, _; (split; [reflexivity|]).
      * split; [|done]. apply set_kern_ok; [done|]. apply yield_ok; [apply Ht1 | by apply running_alive].
      * split; [done|]. split; [done|]. by intros [? _].
    + eexists _, _. split; [reflexivity|]. split; [done|]. split; [done|]. by intros [_ ?].
Qed.

Lemma mstep_ok t t' : mstep t t' -> machine_ok t -> machine_ok t'.
Proof.
  intros Hs Ht. destruct Hs as [me tf ev t r t' Hn Hx He Hr E|p cs t r t' Hr E|t k' Hk|t k' Hk|l t t' E|n target killed t|l s s' t Es Hi].
  - destruct (trap_ok me tf ev t Ht Hn Hx He Hr) as (t1 & _ & _ & _ & H). destruct (killed_user me (tf_cs tf) t1).
    + destruct H as (_ & _ & H). by apply H in E as [_ ?].
    + destruct H as (r' & t2 & E2 & ? & _). rewrite E in E2. by injection E2 as _ <-.
  - eapply trap_resume_ok; eauto using running_alive.
  - apply set_kern_ok; [done|]. eapply kstep_ok; [exact Hk | done | apply Ht].
  - apply set_kern_ok; [done|]. eapply quiet_ok; [exact Hk | apply Ht].
  - destruct (print_ok l t Ht) as (t2 & E2 & ? & _). congruence.
  - destruct Ht as [H1 [x H2] H3 H4 H5]. destruct x as [r e]. pose proof (consoleread_ok n target killed _ _ _ H2) as H.
    destruct (consoleread n target killed (m_cons t)) as [[c b] y]. destruct (line_read n target killed r) as [[b' r'] y'].
    destruct H as (_ & _ & Hh & Hp & Hq). constructor; cbn; eauto. unfold screen_ok. by rewrite Hp, Hq.
  - destruct Ht as [H1 H2 H3 H4 H5]. destruct (H5 s Es) as [q Hq]. destruct (istep_ok l s s' q Hi Hq) as (q' & Hq' & _).
    constructor; cbn; auto. intros ? [= <-]. by exists q'.
Qed.

End run.

Definition wit_machine : machine := mk_machine wit_kern 0 wit_cons 0 None.
Definition trap_frame (n cs : Z) : trapframe := mk_tf 0 0 0 0 0 0 0 0 0 0 0 0 n 0 0 cs 0 0 0.
Definition no_event : event := mk_event 0 [] [] false 0.

Lemma wit_machine_ok : machine_ok wit_machine.
Proof.
  constructor; [apply (ptable_ok_weaken (fr := true)), wit_kern_ok | exists (mk_line [] []) | split; cbn; [lia | done] | cbn; lia | done].
  constructor; [constructor; cbn; unfold INPUT_BUF; try lia; reflexivity | done..].
Qed.

Definition wit_woken : machine := set_kern wit_machine (wakeup ChTicks wit_kern).

