(* ===== verification/Grep.v ===== *)
(** * grep (src/grep.c)

    Patterns and lines are the characters of C strings before their NUL.  The
    recursion of matchhere and matchstar is structural in the pattern and the
    text, which is their termination.  The line loop works on the buffer's
    contents; a run of the program is the list of what its [read] calls return
    before the end of the file. *)

From S2P Require Import Prelude.

Definition STAR : Z := 42.
Definition DOTC : Z := 46.
Definition DOLLAR : Z := 36.
Definition CARET : Z := 94.
Definition NEWLINE : Z := 10.

(** [c] of the pattern accepts [t] of the text. *)
Definition accepts (c t : Z) : bool := (t =? c) || (c =? DOTC).

(** [do { if(matchhere(re, text)) return 1; } while( *text != 0 && ( *text++ == c || c == '.'))],
    [here] being matchhere on the rest of the pattern. *)
Fixpoint matchstar (here : list Z -> bool) (c : Z) (text : list Z) : bool :=
  here text ||
  match text with
  | [] => false
  | t :: text' => accepts c t && matchstar here c text'
  end.

Fixpoint matchhere (re text : list Z) : bool :=
  match re with
  | [] => true
  | c :: re1 =>
      match re1 with
      | s :: re2 =>
          if s =? STAR then matchstar (matchhere re2) c text
          else match text with
               | t :: text' => accepts c t && matchhere re1 text'
               | [] => false
               end
      | [] =>
          if c =? DOLLAR then match text with [] => true | _ => false end
          else match text with
               | t :: text' => accepts c t && matchhere re1 text'
               | [] => false
               end
      end
  end.

Fixpoint match_any (re text : list Z) : bool :=
  matchhere re text || match text with [] => false | _ :: text' => match_any re text' end.

Definition match_re (re text : list Z) : bool :=
  match re with
  | c :: re' => if c =? CARET then matchhere re' text else match_any re text
  | [] => match_any re text
  end.

(** [strchr(p, '\n')]: the line before the newline and what follows it. *)
Fixpoint next_line (p : list Z) : option (list Z * list Z) :=
  match p with
  | [] => None
  | c :: p' =>
      if c =? 0 then None
      else if c =? NEWLINE then Some ([], p')
      else match next_line p' with Some (l, r) => Some (c :: l, r) | None => None end
  end.

(** The inner loop: what is written and the bytes after the last newline found. *)
Fixpoint grep_lines (n : nat) (pattern p : list Z) : list Z * list Z :=
  match n with
  | O => ([], p)
  | S n' =>
      match next_line p with
      | None => ([], p)
      | Some (l, r) =>
          let (out, rest) := grep_lines n' pattern r in
          ((if match_re pattern l then l ++ [NEWLINE] else []) ++ out, rest)
      end
  end.

(** One pass of the outer loop on the buffer contents. *)
Definition grep_pass (pattern buf : list Z) : list Z * list Z :=
  let (out, rest) := grep_lines (length buf) pattern buf in
  (out, match next_line buf with
        | None => []              (* p == buf: m = 0 *)
        | Some _ => rest
        end).

(** [reads] are the results of the read calls, [buf] the bytes kept. *)
Fixpoint grep (pattern : list Z) (reads : list (list Z)) (buf : list Z) : list Z :=
  match reads with
  | [] => []
  | r :: reads' =>
      let (out, buf) := grep_pass pattern (buf ++ r) in
      out ++ grep pattern reads' buf
  end.

(** ** The meaning of a pattern *)

(** [re] describes a prefix of [text]. *)
Inductive M : list Z -> list Z -> Prop :=
| M_nil text : M [] text
| M_end : M [DOLLAR] []
| M_star c re u text : Forall (fun t => accepts c t = true) u -> M re text -> M (c :: STAR :: re) (u ++ text)
| M_char c re t text : (forall re', re <> STAR :: re') -> (c = DOLLAR -> re <> []) ->
    accepts c t = true -> M re text -> M (c :: re) (t :: text).

Lemma matchstar_iff here c text : matchstar here c text = true <->
  exists u rest, text = u ++ rest /\ Forall (fun t => accepts c t = true) u /\ here rest = true.
Proof.
  induction text as [|t text IH]; cbn [matchstar].
  - rewrite orb_false_r. split.
    + intros H. by exists [], [].
    + intros (u & rest & E & _ & H). by destruct u, rest.
  - rewrite orb_true_iff, andb_true_iff, IH. split.
    + intros [H|[Ha (u & rest & -> & Hu & H)]]; [by exists [], (t :: text)|].
      exists (t :: u), rest. split_and!; auto.
    + intros (u & rest & E & Hu & H). destruct u as [|x u]; cbn in E; [left; by rewrite E|].
      injection E as <- ->. inversion Hu; subst. right. split; [done|]. by exists u, rest.
Qed.

(** By strong induction: a starred pattern recurs on its second tail. *)
Lemma matchhere_sound n : forall re text, (length re <= n)%nat -> matchhere re text = true <-> M re text.
Proof.
  induction n as [|n IH]; intros re text Hn; (destruct re as [|c re1]; cbn [length] in Hn; [split; [constructor | done]|]); [lia|].
  assert (Hchar : (forall re', re1 <> STAR :: re') -> (c = DOLLAR -> re1 <> []) ->
    match text with t :: text' => accepts c t && matchhere re1 text' | [] => false end = true <-> M (c :: re1) text).
  { intros H1 H2. split.
    - destruct text as [|t text]; [done|]. intros [Ha H]%andb_true_iff. apply IH in H; [|lia]. by constructor.
    - inversion 1; subst; [by destruct H2 | by destruct (H1 re) |]. rewrite andb_true_iff, IH by lia. done. }
  cbn [matchhere]. destruct re1 as [|s re2].
  - destruct (Z.eqb_spec c DOLLAR) as [->|Hc]; [|by apply Hchar].
    split; [destruct text; [constructor | done]|]. by inversion 1; [|subst; tauto].
  - destruct (Z.eqb_spec s STAR) as [->|Hs]; [|apply Hchar; congruence].
    cbn [length] in Hn. rewrite matchstar_iff. split.
    + intros (u & rest & -> & Hu & H). constructor; [done|]. apply IH in H; [done | lia].
    + inversion 1 as [| |c' re' u rest Hu Hm|c' re' t rest Hno]; subst; [|by destruct (Hno re2)].
      exists u, rest. split_and!; auto. apply IH; [lia | done].
Qed.

Lemma match_any_iff re text : match_any re text = true <-> exists pre suf, text = pre ++ suf /\ M re suf.
Proof.
  induction text as [|t text IH]; cbn [match_any]; rewrite orb_true_iff, (matchhere_sound (length re)) by done.
  - split; [intros [H|]; [by exists [], [] | done]|]. intros (pre & suf & E & H). left. by destruct pre, suf.
  - rewrite IH. split.
    + intros [H|(pre & suf & -> & H)]; [by exists [], (t :: text) | by exists (t :: pre), suf].
    + intros (pre & suf & E & H). destruct pre as [|x pre]; cbn in E; [left; by rewrite E|].
      injection E as _ ->. right. by exists pre, suf.
Qed.

(** C35: the matcher is correct: [match] answers 1 exactly when the pattern, read as
    a regular expression with [.], [*], [^] and [$], describes some part of the
    text that starts anywhere, or at its beginning for a pattern that starts
    with [^].  The shortest-first search of [matchstar] finds a repetition
    whenever one exists. *)
Theorem match_correct re text : match_re re text = true <->
  match re with
  | c :: re' => if c =? CARET then M re' text else exists pre suf, text = pre ++ suf /\ M re suf
  | [] => exists pre suf, text = pre ++ suf /\ M re suf
  end.
Proof.
  unfold match_re. destruct re as [|c re']; [apply match_any_iff|].
  destruct (c =? CARET); [apply (matchhere_sound (length re') re' text); lia | apply match_any_iff].
Qed.

(** ** The line loop *)

(** No NUL and no newline. *)
Definition plain (l : list Z) : Prop := Forall (fun c => c <> 0 /\ c <> NEWLINE) l.

Definition join (ls : list (list Z)) : list Z := concat (map (fun l => l ++ [NEWLINE]) ls).

(** The lines that match, as they are printed. *)
Definition matching (pattern : list Z) (ls : list (list Z)) : list Z :=
  concat (map (fun l => if match_re pattern l then l ++ [NEWLINE] else []) ls).

Lemma next_line_plain p : plain p -> next_line p = None.
Proof.
  induction 1 as [|c p [H0 H1] _ IH]; [done|]. cbn [next_line].
  destruct (Z.eqb_spec c 0); [done|]. destruct (Z.eqb_spec c NEWLINE); [done|]. by rewrite IH.
Qed.

Lemma next_line_cons l r : plain l -> next_line (l ++ NEWLINE :: r) = Some (l, r).
Proof.
  induction 1 as [|c p [H0 H1] _ IH]; [done|]. cbn [next_line app].
  destruct (Z.eqb_spec c 0); [done|]. destruct (Z.eqb_spec c NEWLINE); [done|]. by rewrite IH.
Qed.

Lemma join_cons l ls p : join (l :: ls) ++ p = l ++ NEWLINE :: (join ls ++ p).
Proof. unfold join. cbn [map concat]. by rewrite <- !app_assoc. Qed.

Lemma grep_lines_join pattern ls p n : Forall plain ls -> plain p -> (length ls <= n)%nat ->
  grep_lines n pattern (join ls ++ p) = (matching pattern ls, p).
Proof.
  intros Hl Hp. revert n. induction Hl as [|l ls Hl _ IH]; intros n Hn.
  - destruct n as [|n]; [done|]. cbn [grep_lines join map concat app]. by rewrite next_line_plain.
  - destruct n as [|n]; cbn [length] in Hn; [lia|]. rewrite join_cons. cbn [grep_lines].
    rewrite next_line_cons, IH by (auto; lia). done.
Qed.

(** A prefix of the data is whole lines and a part of the next one. *)
Lemma split_prefix ls : forall x y tail, Forall plain ls -> plain tail -> x ++ y = join ls ++ tail ->
  exists ls1 ls2 p, ls = ls1 ++ ls2 /\ x = join ls1 ++ p /\ plain p /\ p ++ y = join ls2 ++ tail.
Proof.
  induction ls as [|l ls IH]; intros x y tail Hl Ht E.
  - exists [], [], x. split_and!; auto. unfold plain in *. rewrite <- (app_nil_l tail) in Ht. cbn in E. subst tail.
    rewrite app_nil_l in Ht. by apply Forall_app in Ht as [? _].
  - inversion Hl as [|? ? Hl1 Hl2]; subst. rewrite join_cons in E. apply app_eq_app in E as (k & [[-> E]|[El E]]).
    + destruct k as [|c k]; cbn in E.
      * exists [], (l :: ls), l. split_and!; auto; [by rewrite app_nil_r|]. by rewrite join_cons, <- E.
      * injection E as <- E. symmetry in E. destruct (IH k y tail Hl2 Ht E) as (ls1 & ls2 & p & -> & -> & Hp & E2).
        exists (l :: ls1), ls2, p. split_and!; auto. by rewrite join_cons.
    + exists [], (l :: ls), x. split_and!; auto; [rewrite El in Hl1; by apply Forall_app in Hl1 as [? _]|].
      by rewrite join_cons, El, E, <- app_assoc.
Qed.

Lemma length_join ls p : (length ls <= length (join ls ++ p))%nat.
Proof.
  induction ls as [|l ls IH]; [cbn; lia|]. rewrite join_cons, length_app. cbn [length]. lia.
Qed.

Lemma grep_reads pattern tail reads : forall buf ls, Forall plain ls -> plain tail -> plain buf ->
  Forall (fun r => NEWLINE ∈ r) reads -> buf ++ concat reads = join ls ++ tail -> grep pattern reads buf = matching pattern ls.
Proof.
  induction reads as [|r reads IH]; intros buf ls Hl Ht Hb Hr E; cbn [grep concat] in *.
  - rewrite app_nil_r in E. destruct ls as [|l ls]; [done|]. exfalso. rewrite join_cons in E. subst buf.
    apply Forall_app in Hb as [_ Hb]. apply Forall_cons_1 in Hb as [[_ Hnl] _]. by apply Hnl.
  - inversion Hr as [|? ? Hr1 Hr2]; subst. rewrite app_assoc in E.
    destruct (split_prefix ls _ _ tail Hl Ht E) as (ls1 & ls2 & p & -> & Ex & Hp & E2).
    apply Forall_app in Hl as [Hl1 Hl2]. unfold grep_pass. rewrite Ex, grep_lines_join by (auto using length_join).
    destruct ls1 as [|l ls1].
    + exfalso. cbn in Ex. assert (Hin : NEWLINE ∈ p) by (rewrite <- Ex; set_solver).
      unfold plain in Hp. rewrite Forall_forall in Hp. by destruct (Hp _ Hin).
    + rewrite join_cons, next_line_cons by (by inversion Hl1). rewrite (IH p ls2) by auto.
      unfold matching. by rewrite map_app, concat_app.
Qed.

(** Grep prints exactly the matching lines, in order, however the file arrives:
    for data made of lines and an unterminated rest, and any way the reads cut
    it such that each brings at least one newline, the output is the lines
    that match. *)
Theorem grep_prints_matching pattern ls tail reads :
  Forall plain ls -> plain tail -> Forall (fun r => NEWLINE ∈ r) reads -> concat reads = join ls ++ tail ->
  grep pattern reads [] = matching pattern ls.
Proof. intros Hl Ht Hr E. apply (grep_reads pattern tail); auto. apply Forall_nil_2. Qed.

(** "ab", "cd", "x" against "b$", in two reads that cut the second line. *)
Lemma grep_prints_matching_witness : grep [98; 36] [[97; 98; 10; 99]; [100; 10; 120]] [] = [97; 98; 10].
Proof.
  rewrite (grep_prints_matching [98; 36] [[97; 98]; [99; 100]] [120] [[97; 98; 10; 99]; [100; 10; 120]]); [reflexivity | | | |reflexivity].
  - repeat constructor; discriminate.
  - repeat constructor; discriminate.
  - repeat (apply Forall_cons_2; [set_solver|]). apply Forall_nil_2.
Defined.

(** A read without a newline loses its bytes: grep resets the buffer when it holds
    no complete line, so the rest of that line is matched, and printed, alone. *)
Theorem grep_drops_partial_read pattern p q :
  plain p -> plain q ->
  grep pattern [p; q ++ [NEWLINE]] [] = if match_re pattern q then q ++ [NEWLINE] else [].
Proof.
  intros Hp Hq. cbn [grep]. unfold grep_pass at 1. cbn [app]. rewrite (next_line_plain p) by done.
  pose proof (grep_lines_join pattern [] p (length p) (Forall_nil_2 _) Hp ltac:(cbn; lia)) as E. cbn in E. rewrite E. cbn [app].
  unfold grep_pass. rewrite next_line_cons by done.
  pose proof (grep_lines_join pattern [q] [] (length (q ++ [NEWLINE]))) as E2.
  unfold join, matching in E2. cbn [map concat] in E2. rewrite !app_nil_r in E2.
  rewrite E2; [by rewrite app_nil_r | by constructor | constructor | rewrite length_app; cbn; lia].
Qed.

(** The line "ab" arrives as "a" and "b": it matches ^ab but is not printed. *)
Lemma grep_drops_partial_read_witness : grep [94; 97; 98] [[97]; [98; 10]] [] = [] /\ match_re [94; 97; 98] [97; 98] = true.
Proof.
  split; [|reflexivity]. apply (grep_drops_partial_read [94; 97; 98] [97] [98]); repeat constructor; discriminate.
Defined.
