(* ===== verification/Sh.v ===== *)
(** * The shell (src/sh.c)

    The parser works on the characters of one line, [buf], with positions for
    the pointers [s], [q] and [eq]; [es] is the end of the line and the
    character there is the NUL.  A call of the shell's [panic] is a [Panic].
    The tree holds token positions, as the C structures do, until
    [nulterminate] cuts the strings in the line's memory.  [runcmd] is a tree of
    system calls, one branch per process. *)

From S2P Require Import Prelude Proc Sysfile.

Definition char_at (buf : list Z) (i : nat) : Z := nth i buf 0.

(** " \t\r\n\v" and "<|>&;()" *)
Definition whitespace : list Z := [32; 9; 13; 10; 11].
Definition symbols : list Z := [60; 124; 62; 38; 59; 40; 41].

(** [strchr(l, c)] is not null. *)
Definition in_str (l : list Z) (c : Z) : bool := existsb (Z.eqb c) l.

Definition MAXARGS : nat := 10.
Definition O_RDONLY : Z := 0.
Definition O_WRONLY_CREATE : Z := 0x201.

(** Positions of a token: [q, eq). *)
Definition tok : Type := nat * nat.

Inductive cmd :=
| EXEC (argv : list tok)
| REDIR (c : cmd) (file : tok) (mode fd : Z)
| PIPE (left right : cmd)
| LIST (left right : cmd)
| BACK (c : cmd).

Section parse.
Context (buf : list Z).
Abbreviation es := (length buf).
Abbreviation ch := (char_at buf).

(** [while(s < es && strchr(whitespace, *s)) s++;] *)
Fixpoint skip_ws (n s : nat) : nat :=
  match n with
  | O => s
  | S n' => if in_str whitespace (ch s) then skip_ws n' (S s) else s
  end.
Definition skip (s : nat) : nat := skip_ws (es - s) s.

(** [while(s < es && !strchr(whitespace, *s) && !strchr(symbols, *s)) s++;] *)
Fixpoint skip_word (n s : nat) : nat :=
  match n with
  | O => s
  | S n' => if negb (in_str whitespace (ch s)) && negb (in_str symbols (ch s)) then skip_word n' (S s) else s
  end.

(** The token code, [q], [eq] and the new [*ps]; the code of a word is 'a' (97). *)
Definition gettoken (s : nat) : Z * nat * nat * nat :=
  let q := skip s in
  let c := ch q in
  let '(ret, e) :=
    if c =? 0 then (0, q)
    else if in_str [124; 40; 41; 59; 38; 60] c then (c, S q)
    else if c =? 62 then if ch (S q) =? 62 then (43, S (S q)) else (62, S q)
    else (97, skip_word (es - q) q) in
  (ret, q, e, skip e).

Definition peek (s : nat) (toks : list Z) : bool * nat :=
  let s := skip s in (negb (ch s =? 0) && in_str toks (ch s), s).

(** The redirections in order: file, mode and descriptor of each. *)
Fixpoint parseredirs (n s : nat) : res (list (tok * Z * Z) * nat) :=
  let (b, s) := peek s [60; 62] in
  if b then
    match n with
    | O => Blocked
    | S n' =>
        let '(t, _, _, s) := gettoken s in
        let '(a, q, e, s) := gettoken s in
        if negb (a =? 97) then Panic "missing file for redirection"
        else
          let r := if t =? 60 then ((q, e), O_RDONLY, 0) else ((q, e), O_WRONLY_CREATE, 1) in
          let* (l, s) := parseredirs n' s in
          Ok (r :: l, s)
    end
  else Ok ([], s).

(** Each redirection wraps the command parsed so far. *)
Definition redircmd (c : cmd) (r : tok * Z * Z) : cmd := REDIR c (fst (fst r)) (snd (fst r)) (snd r).
Definition wrap (c : cmd) (l : list (tok * Z * Z)) : cmd := fold_left redircmd l c.

(** The argument loop of [parseexec]: words and redirections from [s] on. *)
Fixpoint parseargs (n : nat) (s : nat) (args : list tok) (rs : list (tok * Z * Z)) : res (list tok * list (tok * Z * Z) * nat) :=
  let (b, s) := peek s [124; 41; 38; 59] in
  if b then Ok (args, rs, s)
  else
    let '(t, q, e, s) := gettoken s in
    if t =? 0 then Ok (args, rs, s)
    else if negb (t =? 97) then Panic "syntax"
    else
      let args := args ++ [(q, e)] in
      if (MAXARGS <=? length args)%nat then Panic "too many args"
      else
        match n with
        | O => Blocked
        | S n' =>
            let* (l, s) := parseredirs es s in
            parseargs n' s args (rs ++ l)
        end.

(** The [&] loop of [parseline]. *)
Fixpoint parseback (n s : nat) (c : cmd) : res (cmd * nat) :=
  let (b, s) := peek s [38] in
  if b then
    match n with
    | O => Blocked
    | S n' => let '(_, _, _, s) := gettoken s in parseback n' s (BACK c)
    end
  else Ok (c, s).

(** The mutual recursion, one unit of [n] per call; 4 calls consume a character. *)
Fixpoint parseline (n s : nat) : res (cmd * nat) :=
  match n with
  | O => Blocked
  | S n' =>
      let* (c, s) := parsepipe n' s in
      let* (c, s) := parseback es s c in
      let (b, s) := peek s [59] in
      if b then
        let '(_, _, _, s) := gettoken s in
        let* (c2, s) := parseline n' s in Ok (LIST c c2, s)
      else Ok (c, s)
  end
with parsepipe (n s : nat) : res (cmd * nat) :=
  match n with
  | O => Blocked
  | S n' =>
      let* (c, s) := parseexec n' s in
      let (b, s) := peek s [124] in
      if b then
        let '(_, _, _, s) := gettoken s in
        let* (c2, s) := parsepipe n' s in Ok (PIPE c c2, s)
      else Ok (c, s)
  end
with parseexec (n s : nat) : res (cmd * nat) :=
  match n with
  | O => Blocked
  | S n' =>
      let (b, s) := peek s [40] in
      if b then parseblock n' s
      else
        let* (rs, s) := parseredirs es s in
        let* (args, rs, s) := parseargs es s [] rs in
        Ok (wrap (EXEC args) rs, s)
  end
with parseblock (n s : nat) : res (cmd * nat) :=
  match n with
  | O => Blocked
  | S n' =>
      let (b, s) := peek s [40] in
      if negb b then Panic "parseblock"
      else
        let '(_, _, _, s) := gettoken s in
        let* (c, s) := parseline n' s in
        let (b, s) := peek s [41] in
        if negb b then Panic "syntax - missing )"
        else
          let '(_, _, _, s) := gettoken s in
          let* (rs, s) := parseredirs es s in
          Ok (wrap c rs, s)
  end.

Definition parse_fuel : nat := 4 * es + 4.

(** [parsecmd] before [nulterminate]. *)
Definition parsecmd : res cmd :=
  let* (c, s) := parseline parse_fuel 0 in
  let (_, s) := peek s [] in
  if negb (s =? es)%nat then Panic "syntax" else Ok c.
End parse.

(** ** The parser terminates *)

Section terminates.
Context (buf : list Z).
Abbreviation es := (length buf).
Abbreviation ch := (char_at buf).

Lemma ch_in i : ch i <> 0 -> (i < es)%nat.
Proof. intros H. destruct (decide (i < es)%nat); [done|]. destruct H. apply nth_overflow. lia. Qed.

Lemma skip_ws_range n : forall s, (s <= skip_ws buf n s <= s + n)%nat.
Proof.
  induction n as [|n IH]; intros s; cbn [skip_ws]; [lia|]. destruct (in_str _ _); [|lia]. specialize (IH (S s)). lia.
Qed.

Lemma skip_range s : (s <= es)%nat -> (s <= skip buf s <= es)%nat.
Proof. intros H. pose proof (skip_ws_range (es - s) s). unfold skip. lia. Qed.

Lemma skip_ws_stops n : forall s, (s + n = es)%nat ->
  skip_ws buf n s = es \/ in_str whitespace (ch (skip_ws buf n s)) = false.
Proof.
  induction n as [|n IH]; intros s H; cbn [skip_ws]; [left; lia|].
  destruct (in_str whitespace (ch s)) eqn:E; [apply IH; lia | by right].
Qed.

Lemma skip_stops s : (s <= es)%nat -> skip buf s = es \/ in_str whitespace (ch (skip buf s)) = false.
Proof. intros H. apply skip_ws_stops. lia. Qed.

Lemma skip_skip s : (s <= es)%nat -> skip buf (skip buf s) = skip buf s.
Proof.
  intros H. destruct (skip_stops s H) as [->|E].
  - unfold skip. by rewrite Nat.sub_diag.
  - unfold skip at 1. destruct (es - skip buf s)%nat; [done|]. cbn [skip_ws]. by rewrite E.
Qed.

Lemma skip_word_range n : forall s, (s <= skip_word buf n s <= s + n)%nat.
Proof.
  induction n as [|n IH]; intros s; cbn [skip_word]; [lia|]. destruct (_ && _); [|lia]. specialize (IH (S s)). lia.
Qed.

(** Positions of a token; every token but the end of the line is not empty. *)
Lemma gettoken_range s t q e s' : (s <= es)%nat -> gettoken buf s = (t, q, e, s') ->
  (s <= q <= e)%nat /\ (e <= s' <= es)%nat /\ (ch q <> 0 -> (q < e)%nat) /\ (t <> 0 -> ch q <> 0) /\ q = skip buf s.
Proof.
  intros Hs. unfold gettoken. pose proof (skip_range s Hs) as Hq. pose proof (skip_stops s Hs) as Hstop.
  set (q0 := skip buf s) in *. destruct (Z.eqb_spec (ch q0) 0) as [E0|E0].
  { intros [= <- <- <- <-]. pose proof (skip_range q0 ltac:(lia)). split_and!; auto; try lia; done. }
  pose proof (ch_in q0 E0) as Hin.
  destruct (in_str [124; 40; 41; 59; 38; 60] (ch q0)) eqn:Es.
  { intros [= <- <- <- <-]. pose proof (skip_range (S q0) ltac:(lia)). split_and!; auto; lia. }
  destruct (Z.eqb_spec (ch q0) 62) as [E1|E1].
  { destruct (Z.eqb_spec (ch (S q0)) 62) as [E2|E2]; intros [= <- <- <- <-].
    - pose proof (ch_in (S q0) ltac:(lia)). pose proof (skip_range (S (S q0)) ltac:(lia)). split_and!; auto; lia.
    - pose proof (skip_range (S q0) ltac:(lia)). split_and!; auto; lia. }
  intros [= <- <- <- <-]. destruct Hstop as [Hstop|Hw]; [lia|].
  assert (Hadv : (q0 < skip_word buf (es - q0) q0)%nat).
  { destruct (es - q0)%nat as [|n] eqn:En; [lia|]. cbn [skip_word]. rewrite Hw.
    assert (Hsym : in_str symbols (ch q0) = false).
    { unfold in_str, symbols in *. cbn [existsb] in *. rewrite !orb_false_iff in *. apply Z.eqb_neq in E1. tauto. }
    rewrite Hsym. cbn [negb andb]. pose proof (skip_word_range n (S q0)). lia. }
  pose proof (skip_word_range (es - q0) q0). pose proof (skip_range (skip_word buf (es - q0) q0) ltac:(lia)).
  split_and!; auto; lia.
Qed.

Lemma peek_range s toks b s' : (s <= es)%nat -> peek buf s toks = (b, s') ->
  (s <= s' <= es)%nat /\ (b = true -> ch s' <> 0) /\ skip buf s' = s'.
Proof.
  intros Hs [= <- <-]. pose proof (skip_range s Hs). split; [lia|]. split; [|by apply skip_skip].
  intros [H1 _]%andb_true_iff. apply negb_true_iff, Z.eqb_neq in H1. done.
Qed.

(** A token that [peek] announced is consumed. *)
Lemma gettoken_after s t q e s' : (s <= es)%nat -> ch s <> 0 -> skip buf s = s -> gettoken buf s = (t, q, e, s') -> (s < s' <= es)%nat.
Proof. intros Hs Hc Hk E. destruct (gettoken_range _ _ _ _ _ Hs E) as (H1 & H2 & H3 & _ & ->). rewrite Hk in *. specialize (H3 Hc). lia. Qed.

(** A parser that stops, and not before where it started. *)
Definition adv {A : Type} (s : nat) (r : res (A * nat)) : Prop :=
  match r with Ok (_, s') => (s <= s' <= es)%nat | Panic _ => True | Blocked => False end.

Lemma adv_bind {A B : Type} s (r : res (A * nat)) (k : A -> nat -> res (B * nat)) :
  adv s r -> (forall a s', (s <= s' <= es)%nat -> adv s (k a s')) -> adv s (let* (a, s') := r in k a s').
Proof. intros H1 H2. destruct r as [[a s']| |]; cbn [rbind]; auto. Qed.

Lemma adv_le {A : Type} s s' (r : res (A * nat)) : adv s' r -> (s <= s')%nat -> adv s r.
Proof. destruct r as [[a s'']| |]; cbn; auto; lia. Qed.

Lemma parseredirs_adv n : forall s, (s <= es)%nat -> (es - s <= n)%nat -> adv s (parseredirs buf n s).
Proof.
  induction n as [|n IH]; intros s Hs Hn; cbn [parseredirs]; destruct (peek buf s [60; 62]) as [b s1] eqn:Ep;
    destruct (peek_range _ _ _ _ Hs Ep) as (H1 & Hb & Hk); (destruct b; [|cbn; lia]); specialize (Hb eq_refl).
  - pose proof (ch_in _ Hb). lia.
  - destruct (gettoken buf s1) as [[[t q1] e1] s2] eqn:E1. pose proof (gettoken_after s1 _ _ _ _ ltac:(lia) Hb Hk E1) as H2.
    destruct (gettoken buf s2) as [[[a q] e] s3] eqn:E2. destruct (gettoken_range s2 _ _ _ _ ltac:(lia) E2) as (H3 & H4 & _).
    destruct (negb (a =? 97)); [done|]. apply adv_bind; [apply (adv_le _ s3); [apply IH; lia | lia]|]. intros l s4 H5. cbn. lia.
Qed.

Lemma parseback_adv n : forall s c, (s <= es)%nat -> (es - s <= n)%nat -> adv s (parseback buf n s c).
Proof.
  induction n as [|n IH]; intros s c Hs Hn; cbn [parseback]; destruct (peek buf s [38]) as [b s1] eqn:Ep;
    destruct (peek_range _ _ _ _ Hs Ep) as (H1 & Hb & Hk); (destruct b; [|cbn; lia]); specialize (Hb eq_refl).
  - pose proof (ch_in _ Hb). lia.
  - destruct (gettoken buf s1) as [[[t q1] e1] s2] eqn:E1. pose proof (gettoken_after s1 _ _ _ _ ltac:(lia) Hb Hk E1) as H2.
    apply (adv_le _ s2); [apply IH; lia | lia].
Qed.

Lemma parseargs_adv n : forall s args rs, (s <= es)%nat -> (es - s <= n)%nat -> adv s (parseargs buf n s args rs).
Proof.
  induction n as [|n IH]; intros s args rs Hs Hn; cbn [parseargs]; destruct (peek buf s [124; 41; 38; 59]) as [b s1] eqn:Ep;
    destruct (peek_range _ _ _ _ Hs Ep) as (H1 & _ & Hk); (destruct b; [cbn; lia|]);
    destruct (gettoken buf s1) as [[[t q] e] s2] eqn:E1; destruct (gettoken_range s1 _ _ _ _ ltac:(lia) E1) as (H2 & H3 & H4 & H5 & _);
    (destruct (Z.eqb_spec t 0) as [|Ht]; [cbn; lia|]); specialize (H4 (H5 Ht)); (destruct (negb (t =? 97)); [done|]);
    (destruct (_ <=? _)%nat; [done|]).
  - lia.
  - apply (adv_le _ s2); [|lia]. apply adv_bind; [apply parseredirs_adv; lia|]. intros l s3 H6.
    apply (adv_le _ s3); [apply IH; lia | lia].
Qed.

(** [peek] and the token it announces, then a parser that starts behind it. *)
Lemma after_peek {A : Type} s s1 toks (k : nat -> res (A * nat)) : (s <= es)%nat -> peek buf s toks = (true, s1) ->
  (forall s2, (s < s2 <= es)%nat -> adv s2 (k s2)) -> adv s (let '(_, _, _, s2) := gettoken buf s1 in k s2).
Proof.
  intros Hs Ep Hk. destruct (peek_range _ _ _ _ Hs Ep) as (H1 & Hb & Hsk). specialize (Hb eq_refl).
  destruct (gettoken buf s1) as [[[t q] e] s2] eqn:E. pose proof (gettoken_after s1 _ _ _ _ ltac:(lia) Hb Hsk E).
  apply (adv_le _ s2); [apply Hk; lia | lia].
Qed.

Lemma parse_adv n : forall s, (s <= es)%nat ->
  (4 * (es - s) + 4 <= n -> adv s (parseline buf n s))%nat /\ (4 * (es - s) + 3 <= n -> adv s (parsepipe buf n s))%nat /\
  (4 * (es - s) + 2 <= n -> adv s (parseexec buf n s))%nat /\ (4 * (es - s) + 1 <= n -> adv s (parseblock buf n s))%nat.
Proof.
  induction n as [|n IH]; intros s Hs; [split_and!; lia|]. split_and!; intros Hn.
  - cbn [parseline]. apply adv_bind; [apply IH; lia|]. intros c s1 H1.
    apply (adv_le _ s1); [|lia]. apply adv_bind; [apply parseback_adv; lia|]. intros c' s2 H2.
    apply (adv_le _ s2); [|lia]. destruct (peek buf s2 [59]) as [b s3] eqn:Ep. destruct b.
    + eapply after_peek; [lia | exact Ep|]. intros s4 H4. apply adv_bind; [apply IH; lia|]. intros c2 s5 H5. cbn. lia.
    + apply peek_range in Ep; [cbn; lia | lia].
  - cbn [parsepipe]. apply adv_bind; [apply IH; lia|]. intros c s1 H1. apply (adv_le _ s1); [|lia].
    destruct (peek buf s1 [124]) as [b s2] eqn:Ep. destruct b.
    + eapply after_peek; [lia | exact Ep|]. intros s4 H4. apply adv_bind; [apply IH; lia|]. intros c2 s5 H5. cbn. lia.
    + apply peek_range in Ep; [cbn; lia | lia].
  - cbn [parseexec]. destruct (peek buf s [40]) as [b s1] eqn:Ep. apply peek_range in Ep as (H1 & _ & _); [|lia].
    apply (adv_le _ s1); [|lia]. destruct b; [apply IH; lia|].
    apply adv_bind; [apply parseredirs_adv; lia|]. intros rs s2 H2. apply (adv_le _ s2); [|lia].
    pose proof (parseargs_adv es s2 [] rs ltac:(lia) ltac:(lia)) as Ha.
    by destruct (parseargs buf es s2 [] rs) as [[[args rs'] s3]| |].
  - cbn [parseblock]. destruct (peek buf s [40]) as [b s1] eqn:Ep. destruct b; [cbn [negb]|done].
    eapply after_peek; [lia | exact Ep|]. intros s2 H2. apply adv_bind; [apply IH; lia|]. intros c s3 H3.
    destruct (peek buf s3 [41]) as [b s4] eqn:Ep2. destruct b; [cbn [negb]|done]. apply (adv_le _ s3); [|lia].
    eapply after_peek; [lia | exact Ep2|]. intros s5 H5. apply adv_bind; [apply parseredirs_adv; lia|]. intros rs s6 H6. cbn. lia.
Qed.
End terminates.

(** The shell's parser terminates on every line: the mutually recursive parsers,
    each of whose calls is given one unit of fuel, and their token loops stop
    within four calls per character of the line, with a command or a syntax
    error, and never read past the end of the line. *)
Theorem parse_terminates buf :
  (exists c, parsecmd buf = Ok c) \/ (exists msg, parsecmd buf = Panic msg).
Proof.
  unfold parsecmd. destruct (parse_adv buf (parse_fuel buf) 0 ltac:(lia)) as [Hl _].
  specialize (Hl ltac:(unfold parse_fuel; lia)). destruct (parseline buf (parse_fuel buf) 0) as [[c s]|m|]; cbn [rbind] in *; [|eauto | done].
  destruct (peek buf s []) as [b s']. destruct (negb _); eauto.
Qed.

(** "(ls;cat<f)|wc>o&" *)
Definition wit_line : list Z := [40; 108; 115; 59; 99; 97; 116; 60; 102; 41; 124; 119; 99; 62; 111; 38].

Example parse_wit_line : parsecmd wit_line =
  Ok (BACK (PIPE (LIST (EXEC [(1, 3)%nat]) (REDIR (EXEC [(4, 7)%nat]) (8, 9)%nat 0 0)) (REDIR (EXEC [(11, 13)%nat]) (14, 15)%nat 0x201 1))).
Proof. vm_compute. reflexivity. Qed.

(** ** Cutting the strings *)

(** NUL at the end of every token, in the order of the recursion. *)
Fixpoint nulterminate (c : cmd) (m : mem) : mem :=
  match c with
  | EXEC argv => fold_left (fun m t => mset m (Z.of_nat (snd t)) 0) argv m
  | REDIR c t _ _ => mset (nulterminate c m) (Z.of_nat (snd t)) 0
  | PIPE l r | LIST l r => nulterminate r (nulterminate l m)
  | BACK c => nulterminate c m
  end.

Fixpoint toks (c : cmd) : list tok :=
  match c with
  | EXEC argv => argv
  | REDIR c t _ _ => toks c ++ [t]
  | PIPE l r | LIST l r => toks l ++ toks r
  | BACK c => toks c
  end.

Definition line_mem (buf : list Z) : mem := fun a => nth (Z.to_nat a) buf 0.

Section cut.
Context (buf : list Z).
Abbreviation es := (length buf).
Abbreviation ch := (char_at buf).

Definition word_char (c : Z) : bool := negb (in_str whitespace c) && negb (in_str symbols c).

(** A word that ends where no word character follows. *)
Definition word (t : tok) : Prop :=
  (fst t <= snd t <= es)%nat /\ (forall i, (fst t <= i < snd t)%nat -> word_char (ch i) = true) /\
  (snd t = es \/ word_char (ch (snd t)) = false).

Lemma skip_word_word n : forall s, (s + n = es)%nat -> word (s, skip_word buf n s).
Proof.
  induction n as [|n IH]; intros s Hs; cbn [skip_word]; fold (word_char (ch s)).
  - split; cbn; [lia|]. split; [lia | left; lia].
  - destruct (word_char (ch s)) eqn:E; [|split; cbn; [lia | split; [lia | by right]]].
    destruct (IH (S s) ltac:(lia)) as (H1 & H2 & H3). cbn [fst snd] in *. split; cbn [fst snd]; [lia|]. split; [|done].
    intros i Hi. destruct (decide (i = s)) as [->|]; [done | apply H2; lia].
Qed.

Lemma gettoken_word s q e s' : (s <= es)%nat -> gettoken buf s = (97, q, e, s') -> word (q, e).
Proof.
  intros Hs. unfold gettoken. pose proof (skip_range buf s Hs) as Hq. set (q0 := skip buf s) in *.
  destruct (Z.eqb_spec (ch q0) 0) as [E0|E0]; [done|].
  destruct (in_str [124; 40; 41; 59; 38; 60] (ch q0)) eqn:Es.
  { intros [= E]. rewrite E in Es. done. }
  destruct (ch q0 =? 62); [destruct (ch (S q0) =? 62); done|]. intros [= <- <- _]. apply skip_word_word. lia.
Qed.

Definition good {A : Type} (f : A -> list tok) (r : res (A * nat)) : Prop :=
  match r with Ok (a, _) => Forall word (f a) | _ => True end.

Lemma good_bind {A B : Type} (f : A -> list tok) (g : B -> list tok) s (r : res (A * nat)) (k : A -> nat -> res (B * nat)) :
  adv buf s r -> good f r -> (forall a s', (s <= s' <= es)%nat -> Forall word (f a) -> good g (k a s')) ->
  good g (let* (a, s') := r in k a s').
Proof. intros H1 H2 H3. destruct r as [[a s']| |]; cbn in *; auto. Qed.

Definition redir_toks (l : list (tok * Z * Z)) : list tok := map (fun r => fst (fst r)) l.

Lemma toks_wrap l : forall c, Forall word (toks c) -> Forall word (redir_toks l) -> Forall word (toks (wrap c l)).
Proof.
  induction l as [|r l IH]; intros c Hc Hl; [done|]. cbn [redir_toks map] in Hl. apply Forall_cons_1 in Hl as [Hr Hl].
  apply IH; [|done]. cbn [redircmd toks]. apply Forall_app. split; [done | by constructor].
Qed.

Lemma parseredirs_good n : forall s, (s <= es)%nat -> (es - s <= n)%nat -> good redir_toks (parseredirs buf n s).
Proof.
  induction n as [|n IH]; intros s Hs Hn; cbn [parseredirs]; destruct (peek buf s [60; 62]) as [b s1] eqn:Ep;
    destruct (peek_range buf _ _ _ _ Hs Ep) as (H1 & Hb & Hk); (destruct b; [|by constructor]); specialize (Hb eq_refl); [done|].
  destruct (gettoken buf s1) as [[[t q1] e1] s2] eqn:E1. pose proof (gettoken_after buf s1 _ _ _ _ ltac:(lia) Hb Hk E1) as H2.
  destruct (gettoken buf s2) as [[[a q] e] s3] eqn:E2. destruct (gettoken_range buf s2 _ _ _ _ ltac:(lia) E2) as (H3 & H4 & _).
  destruct (Z.eqb_spec a 97) as [->|]; [cbn [negb]|done]. apply (good_bind redir_toks _ s3); [apply parseredirs_adv; lia | apply IH; lia |].
  intros l s4 _ Hl. cbn [good]. constructor; [|done]. apply gettoken_word in E2; [|lia]. by destruct (t =? 60).
Qed.

Lemma parseback_good n : forall s c, (s <= es)%nat -> (es - s <= n)%nat -> Forall word (toks c) -> good toks (parseback buf n s c).
Proof.
  induction n as [|n IH]; intros s c Hs Hn Hc; cbn [parseback]; destruct (peek buf s [38]) as [b s1] eqn:Ep;
    destruct (peek_range buf _ _ _ _ Hs Ep) as (H1 & Hb & Hk); (destruct b; [|done]); specialize (Hb eq_refl); [done|].
  destruct (gettoken buf s1) as [[[t q1] e1] s2] eqn:E1. pose proof (gettoken_after buf s1 _ _ _ _ ltac:(lia) Hb Hk E1) as H2.
  apply IH; [lia | lia | done].
Qed.

Lemma parseargs_good n : forall s args rs, (s <= es)%nat -> (es - s <= n)%nat -> Forall word args -> Forall word (redir_toks rs) ->
  good (fun ar => fst ar ++ redir_toks (snd ar)) (parseargs buf n s args rs).
Proof.
  induction n as [|n IH]; intros s args rs Hs Hn Ha Hr; cbn [parseargs]; destruct (peek buf s [124; 41; 38; 59]) as [b s1] eqn:Ep;
    destruct (peek_range buf _ _ _ _ Hs Ep) as (H1 & _ & Hk); (destruct b; [cbn; by apply Forall_app|]);
    destruct (gettoken buf s1) as [[[t q] e] s2] eqn:E1; destruct (gettoken_range buf s1 _ _ _ _ ltac:(lia) E1) as (H2 & H3 & H4 & H5 & _);
    (destruct (Z.eqb_spec t 0) as [|Ht]; [cbn; by apply Forall_app|]); specialize (H4 (H5 Ht));
    (destruct (Z.eqb_spec t 97) as [->|]; [cbn [negb]|done]); (destruct (_ <=? _)%nat; [done|]); [done|].
  apply (good_bind redir_toks _ s2); [apply parseredirs_adv; lia | apply parseredirs_good; lia |].
  intros l s3 H6 Hl. apply IH; [lia | lia | |].
  - apply Forall_app. split; [done|]. constructor; [|done]. apply gettoken_word in E1; [done | lia].
  - unfold redir_toks. rewrite map_app. by apply Forall_app.
Qed.

Lemma good_after_peek {A : Type} (f : A -> list tok) s s1 tk (k : nat -> res (A * nat)) : (s <= es)%nat -> peek buf s tk = (true, s1) ->
  (forall s2, (s < s2 <= es)%nat -> good f (k s2)) -> good f (let '(_, _, _, s2) := gettoken buf s1 in k s2).
Proof.
  intros Hs Ep Hk. destruct (peek_range buf _ _ _ _ Hs Ep) as (H1 & Hb & Hsk). specialize (Hb eq_refl).
  destruct (gettoken buf s1) as [[[t q] e] s2] eqn:E. pose proof (gettoken_after buf s1 _ _ _ _ ltac:(lia) Hb Hsk E). apply Hk. lia.
Qed.

Lemma parse_good n : forall s, (s <= es)%nat ->
  (4 * (es - s) + 4 <= n -> good toks (parseline buf n s))%nat /\ (4 * (es - s) + 3 <= n -> good toks (parsepipe buf n s))%nat /\
  (4 * (es - s) + 2 <= n -> good toks (parseexec buf n s))%nat /\ (4 * (es - s) + 1 <= n -> good toks (parseblock buf n s))%nat.
Proof.
  induction n as [|n IH]; intros s Hs; [split_and!; lia|]. split_and!; intros Hn.
  - cbn [parseline]. apply (good_bind toks _ s); [apply (parse_adv buf); lia | apply IH; lia |]. intros c s1 H1 G1.
    apply (good_bind toks _ s1); [apply parseback_adv; lia | apply parseback_good; auto; lia |]. intros c' s2 H2 G2.
    destruct (peek buf s2 [59]) as [b s3] eqn:Ep. destruct b; [|done].
    eapply good_after_peek; [|exact Ep|]; [lia|]. intros s4 H4.
    apply (good_bind toks _ s4); [apply (parse_adv buf); lia | apply IH; lia |]. intros c2 s5 _ G5. cbn. by apply Forall_app.
  - cbn [parsepipe]. apply (good_bind toks _ s); [apply (parse_adv buf); lia | apply IH; lia |]. intros c s1 H1 G1.
    destruct (peek buf s1 [124]) as [b s2] eqn:Ep. destruct b; [|done].
    eapply good_after_peek; [|exact Ep|]; [lia|]. intros s4 H4.
    apply (good_bind toks _ s4); [apply (parse_adv buf); lia | apply IH; lia |]. intros c2 s5 _ G5. cbn. by apply Forall_app.
  - cbn [parseexec]. destruct (peek buf s [40]) as [b s1] eqn:Ep. apply peek_range in Ep as (H1 & _ & _); [|lia].
    destruct b; [apply IH; lia|].
    apply (good_bind redir_toks _ s1); [apply parseredirs_adv; lia | apply parseredirs_good; lia |]. intros rs s2 H2 G2.
    pose proof (parseargs_good es s2 [] rs ltac:(lia) ltac:(lia) (Forall_nil_2 _) G2) as Ha.
    destruct (parseargs buf es s2 [] rs) as [[[args rs'] s3]| |]; cbn [rbind good fst snd] in *; [|done | done].
    apply Forall_app in Ha as [Ha Hr]. by apply toks_wrap.
  - cbn [parseblock]. destruct (peek buf s [40]) as [b s1] eqn:Ep. destruct b; [cbn [negb]|done].
    eapply good_after_peek; [|exact Ep|]; [lia|]. intros s2 H2.
    apply (good_bind toks _ s2); [apply (parse_adv buf); lia | apply IH; lia |]. intros c s3 H3 G3.
    destruct (peek buf s3 [41]) as [b s4] eqn:Ep2. destruct b; [cbn [negb]|done].
    eapply good_after_peek; [|exact Ep2|]; [lia|]. intros s5 H5.
    apply (good_bind redir_toks _ s5); [apply parseredirs_adv; lia | apply parseredirs_good; lia |]. intros rs s6 _ G6.
    cbn. by apply toks_wrap.
Qed.

Lemma parsecmd_words c : parsecmd buf = Ok c -> Forall word (toks c).
Proof.
  unfold parsecmd. destruct (parse_good (parse_fuel buf) 0 ltac:(lia)) as [Hl _].
  specialize (Hl ltac:(unfold parse_fuel; lia)). destruct (parseline buf (parse_fuel buf) 0) as [[c0 s]|m|]; cbn [rbind] in *; [|done | done].
  destruct (peek buf s []) as [b s']. destruct (negb _); [done|]. by intros [= <-].
Qed.

(** [nulterminate] stores NUL at the ends of the tokens and nowhere else. *)
Lemma nulterminate_ends c : forall m a, nulterminate c m a = 0 /\ (exists t : tok, t ∈ toks c /\ a = Z.of_nat (snd t)) \/
  nulterminate c m a = m a /\ (forall t : tok, t ∈ toks c -> a <> Z.of_nat (snd t)).
Proof.
  assert (Hseq : forall l1 l2 (m m1 m2 : mem) a,
    (m1 a = 0 /\ (exists t : tok, t ∈ l1 /\ a = Z.of_nat (snd t)) \/ m1 a = m a /\ (forall t : tok, t ∈ l1 -> a <> Z.of_nat (snd t))) ->
    (m2 a = 0 /\ (exists t : tok, t ∈ l2 /\ a = Z.of_nat (snd t)) \/ m2 a = m1 a /\ (forall t : tok, t ∈ l2 -> a <> Z.of_nat (snd t))) ->
    m2 a = 0 /\ (exists t : tok, t ∈ l1 ++ l2 /\ a = Z.of_nat (snd t)) \/ m2 a = m a /\ (forall t : tok, t ∈ l1 ++ l2 -> a <> Z.of_nat (snd t))).
  { intros l1 l2 m m1 m2 a H1 H2. setoid_rewrite elem_of_app.
    destruct H2 as [[-> (t & Ht & ->)]|[-> H2]]; [left; eauto|].
    destruct H1 as [[-> (t & Ht & ->)]|[-> H1]]; [left; eauto|]. right. split; [done|]. intros t [?|?]; auto. }
  assert (Hset : forall (m : mem) (t : tok) a, mset m (Z.of_nat (snd t)) 0 a = 0 /\ (exists t' : tok, t' ∈ [t] /\ a = Z.of_nat (snd t')) \/
    mset m (Z.of_nat (snd t)) 0 a = m a /\ (forall t', t' ∈ [t] -> a <> Z.of_nat (snd t'))).
  { intros m t a. destruct (Z.eq_dec a (Z.of_nat (snd t))) as [->|Ha].
    - left. rewrite mset_eq. split; [done|]. exists t. split; [by apply list_elem_of_singleton | done].
    - right. rewrite mset_ne by done. split; [done|]. intros t' Ht'. apply list_elem_of_singleton in Ht'. by subst. }
  induction c as [argv|c IH t md fd|l IHl r IHr|l IHl r IHr|c IH]; intros m a; cbn [nulterminate toks].
  - revert m. induction argv as [|t argv IH]; intros m; cbn [fold_left]; [right; split; [done | set_solver]|].
    apply (Hseq [t] argv m (mset m (Z.of_nat (snd t)) 0)); [apply Hset | apply IH].
  - apply (Hseq (toks c) [t] m (nulterminate c m)); [apply IH | apply Hset].
  - by apply (Hseq (toks l) (toks r) m (nulterminate l m)).
  - by apply (Hseq (toks l) (toks r) m (nulterminate l m)).
  - apply IH.
Qed.
End cut.

(** Every string the parsed command points to is cut correctly.  After
    [nulterminate], the C string at each argument and file name of the tree is
    exactly the word of the line it was read from: its characters are the
    line's, none of them NUL, and the character behind them is NUL, although
    all strings share one buffer and the terminators overwrite the characters
    between words. *)
Theorem nulterminate_cuts buf c q e :
  Forall (fun x => x <> 0) buf -> parsecmd buf = Ok c -> (q, e) ∈ toks c ->
  let m := nulterminate c (line_mem buf) in
  (q <= e <= length buf)%nat /\ m (Z.of_nat e) = 0 /\
  (forall i, (q <= i < e)%nat -> m (Z.of_nat i) = nth i buf 0 /\ m (Z.of_nat i) <> 0).
Proof.
  intros Hnz Hp Hin m. pose proof (parsecmd_words buf c Hp) as Hw. rewrite Forall_forall in Hw.
  destruct (Hw _ Hin) as (H1 & H2 & _). cbn [fst snd] in *. split; [lia|]. unfold m. split.
  - destruct (nulterminate_ends c (line_mem buf) (Z.of_nat e)) as [[-> _]|[_ H]]; [done|]. by destruct (H _ Hin).
  - intros i Hi. destruct (nulterminate_ends c (line_mem buf) (Z.of_nat i)) as [[_ (t & Ht & E)]|[-> _]].
    + exfalso. destruct (Hw _ Ht) as (_ & _ & Hend). apply Nat2Z.inj in E. subst i.
      destruct Hend as [Hend|Hend]; [lia|]. rewrite H2 in Hend by lia. done.
    + unfold line_mem. rewrite Nat2Z.id. split; [done|]. exact (proj1 (List.Forall_nth (fun x => x <> 0) buf) Hnz i 0 ltac:(lia)).
Qed.

Lemma nulterminate_cuts_witness :
  let m := nulterminate (BACK (PIPE (LIST (EXEC [(1, 3)%nat]) (REDIR (EXEC [(4, 7)%nat]) (8, 9)%nat 0 0)) (REDIR (EXEC [(11, 13)%nat]) (14, 15)%nat 0x201 1)))
             (line_mem wit_line) in m 3 = 0 /\ m 1 = 108.
Proof.
  destruct (nulterminate_cuts wit_line
    (BACK (PIPE (LIST (EXEC [(1, 3)%nat]) (REDIR (EXEC [(4, 7)%nat]) (8, 9)%nat 0 0)) (REDIR (EXEC [(11, 13)%nat]) (14, 15)%nat 0x201 1))) 1 3)
    as (_ & H1 & H2).
  - repeat (apply Forall_cons_2; [discriminate|]). apply Forall_nil_2.
  - vm_compute. reflexivity.
  - cbn. set_solver.
  - split; [exact H1 | exact (proj1 (H2 1%nat ltac:(lia)))].
Defined.

(** ** Running a command

    [runcmd] never returns; what it does is a tree of system calls whose
    branches are the results.  A file name or an argument is the token it was
    cut from. *)
Inductive prog :=
| Exit
| Exec (argv : list tok) (failed : prog)
| Open (file : tok) (mode : Z) (opened failed : prog)
| Close (fd : nat) (k : prog)
| Dup (fd : nat) (k : prog)
| Pipe (k : nat -> nat -> prog) (failed : prog)
| Fork (child parent failed : prog)
| Wait (k : prog)
| Print (msg : string) (arg : option tok) (k : prog).

Definition panic (s : string) : prog := Print s None Exit.

Definition fork1 (child parent : prog) : prog := Fork child parent (panic "fork").

Fixpoint runcmd (c : cmd) : prog :=
  match c with
  | EXEC [] => Exit
  | EXEC (a :: argv) => Exec (a :: argv) (Print "exec %s failed" (Some a) Exit)
  | REDIR c file mode fd =>
      Close (Z.to_nat fd) (Open file mode (runcmd c) (Print "open %s failed" (Some file) Exit))
  | LIST l r => fork1 (runcmd l) (Wait (runcmd r))
  | PIPE l r =>
      Pipe (fun p0 p1 =>
        fork1 (Close 1 (Dup p1 (Close p0 (Close p1 (runcmd l)))))
          (fork1 (Close 0 (Dup p0 (Close p0 (Close p1 (runcmd r)))))
             (Close p0 (Close p1 (Wait (Wait Exit))))))
        (panic "pipe")
  | BACK c => fork1 (runcmd c) Exit
  end.

(** What a descriptor stands for: a file the shell was started with, a file it
    opened, or an end of the n-th pipe. *)
Inductive obj := Given (n : nat) | File (file : tok) (mode : Z) | ReadEnd (n : nat) | WriteEnd (n : nat).

Abbreviation fdtab := (list (option obj)).

Inductive event := EvExec (argv : list tok) (t : fdtab) | EvPrint (msg : string) (arg : option tok).

Section run.
(** Which files open and which programs can be executed. *)
Context (open_ok : tok -> Z -> bool) (exec_ok : list tok -> bool).

(** The system calls on a process's descriptor table, with the kernel's choice
    of descriptor; a call that finds no descriptor fails.  The child of a fork
    is run before its parent goes on, forks succeed, and pipes are numbered as
    they are made. *)
Fixpoint run (p : prog) (t : fdtab) (n : nat) : list event * nat :=
  match p with
  | Exit => ([], n)
  | Exec argv k => if exec_ok argv then ([EvExec argv t], n) else run k t n
  | Open file mode k kf =>
      match fdalloc_scan t 0 with
      | Some fd => if open_ok file mode then run k (<[fd := Some (File file mode)]> t) n else run kf t n
      | None => run kf t n
      end
  | Close fd k => run k (<[fd := None]> t) n
  | Dup fd k =>
      match mjoin (t !! fd), fdalloc_scan t 0 with
      | Some o, Some fd' => run k (<[fd' := Some o]> t) n
      | _, _ => run k t n
      end
  | Pipe k kf =>
      match fdalloc_scan t 0 with
      | Some p0 =>
          match fdalloc_scan (<[p0 := Some (ReadEnd n)]> t) 0 with
          | Some p1 => run (k p0 p1) (<[p1 := Some (WriteEnd n)]> (<[p0 := Some (ReadEnd n)]> t)) (S n)
          | None => run kf t n
          end
      | None => run kf t n
      end
  | Fork child parent _ =>
      let (e1, n) := run child t n in let (e2, n) := run parent t n in (e1 ++ e2, n)
  | Wait k => run k t n
  | Print msg arg k => let (e, n) := run k t n in (EvPrint msg arg :: e, n)
  end.

(** What a command line means: the programs it starts, each with the
    descriptors it is to see. *)
Fixpoint meaning (c : cmd) (t : fdtab) (n : nat) : list event * nat :=
  match c with
  | EXEC [] => ([], n)
  | EXEC (a :: argv) => ([if exec_ok (a :: argv) then EvExec (a :: argv) t else EvPrint "exec %s failed" (Some a)], n)
  | REDIR c file mode fd =>
      if open_ok file mode then meaning c (<[Z.to_nat fd := Some (File file mode)]> t) n
      else ([EvPrint "open %s failed" (Some file)], n)
  | LIST l r => let (e1, n) := meaning l t n in let (e2, n) := meaning r t n in (e1 ++ e2, n)
  | PIPE l r =>
      let (e1, n1) := meaning l (<[1%nat := Some (WriteEnd n)]> t) (S n) in
      let (e2, n2) := meaning r (<[0%nat := Some (ReadEnd n)]> t) n1 in (e1 ++ e2, n2)
  | BACK c => meaning c t n
  end.

(** Descriptors 0, 1 and 2 are in use and two more are free. *)
Definition tab_ok (t : fdtab) : Prop :=
  (forall i, (i < 3)%nat -> exists o, t !! i = Some (Some o)) /\
  (exists p0 p1, (p0 < p1)%nat /\ t !! p0 = Some None /\ t !! p1 = Some None).

(** Redirections are of standard input and output. *)
Fixpoint redirs_ok (c : cmd) : Prop :=
  match c with
  | EXEC _ => True
  | REDIR c _ _ fd => (fd = 0 \/ fd = 1) /\ redirs_ok c
  | PIPE l r | LIST l r => redirs_ok l /\ redirs_ok r
  | BACK c => redirs_ok c
  end.

(** The kernel's choice is the lowest free descriptor. *)
Lemma fdalloc_lowest {A : Type} (t : list (option A)) i p : t !! p = Some None -> exists q, (q <= p)%nat /\ fdalloc_scan t i = Some (i + q)%nat /\
  t !! q = Some None /\ (forall j, (j < q)%nat -> exists o, t !! j = Some (Some o)).
Proof.
  revert i p. induction t as [|[o|] t IH]; intros i p H; [done | | exists O; split_and!; [lia | f_equal; cbn; lia | done | lia]].
  destruct p as [|p]; [done|]. destruct (IH (S i) p H) as (q & H1 & H2 & H3 & H4). exists (S q). split_and!; [lia | | done |].
  - cbn [fdalloc_scan]. rewrite H2. f_equal. lia.
  - intros [|j] Hj; [by exists o|]. apply H4. lia.
Qed.

Lemma fdalloc_closed {A : Type} (t : list (option A)) i : (i < length t)%nat -> (forall j, (j < i)%nat -> exists o, t !! j = Some (Some o)) ->
  fdalloc_scan (<[i := None]> t) 0 = Some i.
Proof.
  intros Hi Hlow. destruct (fdalloc_lowest (<[i := None]> t) 0 i (list_lookup_insert_eq _ _ _ Hi)) as (q & Hq & -> & Hn & _).
  destruct (Nat.eq_dec q i) as [->|]; [done|]. rewrite list_lookup_insert_ne in Hn by done. destruct (Hlow q ltac:(lia)). congruence.
Qed.

Lemma tab_ok_insert t i o : tab_ok t -> (i < 3)%nat -> tab_ok (<[i := Some o]> t).
Proof.
  intros [Hlow (p0 & p1 & Hlt & H0 & H1)] Hi. split.
  - intros j Hj. destruct (Nat.eq_dec j i) as [->|]; [|rewrite list_lookup_insert_ne by done; auto].
    exists o. apply list_lookup_insert_eq. destruct (Hlow i Hi) as [o' E]. by apply lookup_lt_Some in E.
  - exists p0, p1. assert (forall p, t !! p = Some None -> i <> p) by (intros p E ->; destruct (Hlow p Hi); congruence).
    rewrite !list_lookup_insert_ne by auto. done.
Qed.

(** Closing a descriptor below 3 and filling the hole again. *)
Lemma reopen t i p k o n : (forall j, (j < 3)%nat -> exists o, t !! j = Some (Some o)) -> (i < 2)%nat -> (3 <= p)%nat -> t !! p = Some (Some o) ->
  run (Close i (Dup p k)) t n = run k (<[i := Some o]> t) n.
Proof.
  intros Hlow Hi Hp Ho. cbn [run]. assert (Hl : (i < length t)%nat) by (destruct (Hlow i ltac:(lia)) as [? E]; by apply lookup_lt_Some in E).
  rewrite list_lookup_insert_ne, Ho, fdalloc_closed by (auto with lia; intros; apply Hlow; lia). cbn. by rewrite list_insert_insert_eq.
Qed.

Lemma close_both (t : fdtab) i p0 p1 (a b c : option obj) : t !! p0 = Some None -> t !! p1 = Some None -> p0 <> p1 -> i <> p0 -> i <> p1 ->
  <[p1 := None]> (<[p0 := None]> (<[i := c]> (<[p1 := b]> (<[p0 := a]> t)))) = <[i := c]> t.
Proof.
  intros H0 H1 Hne Hi0 Hi1. apply list_eq. intros j.
  assert (Hlen : (p0 < length t /\ p1 < length t)%nat) by (split; eapply lookup_lt_Some; eauto).
  destruct (Nat.eq_dec j p1) as [->|]; [rewrite list_lookup_insert_eq, list_lookup_insert_ne by (rewrite ?length_insert; auto || lia); done|].
  rewrite (list_lookup_insert_ne _ p1 j) by done.
  destruct (Nat.eq_dec j p0) as [->|]; [rewrite list_lookup_insert_eq, list_lookup_insert_ne by (rewrite ?length_insert; auto || lia); done|].
  rewrite (list_lookup_insert_ne _ p0 j) by done. destruct (Nat.eq_dec j i) as [->|].
  - destruct (decide (i < length t)%nat); [rewrite !list_lookup_insert_eq by (rewrite ?length_insert; lia); done|].
    rewrite !lookup_ge_None_2; rewrite ?length_insert; auto; lia.
  - by rewrite !list_lookup_insert_ne by auto.
Qed.

Lemma run_pipe c1 c2 t n : tab_ok t ->
  run (runcmd (PIPE c1 c2)) t n =
  let (e1, n1) := run (runcmd c1) (<[1%nat := Some (WriteEnd n)]> t) (S n) in
  let (e2, n2) := run (runcmd c2) (<[0%nat := Some (ReadEnd n)]> t) n1 in (e1 ++ e2, n2).
Proof.
  intros Hok. pose proof Hok as [Hlow (w0 & w1 & Hw & F0 & F1)].
  assert (Hfree : forall p, t !! p = Some None -> (3 <= p)%nat).
  { intros p E. destruct (Nat.lt_ge_cases p 3) as [Hp|]; [|done]. destruct (Hlow p Hp). congruence. }
  destruct (fdalloc_lowest t 0 w0 F0) as (p0 & Hp0 & E0 & G0 & _).
  assert (Hw1 : <[p0 := Some (ReadEnd n)]> t !! w1 = Some None) by (rewrite list_lookup_insert_ne by lia; done).
  destruct (fdalloc_lowest _ 0 w1 Hw1) as (p1 & _ & E1 & G1 & _). rewrite Nat.add_0_l in *.
  assert (Hne : p0 <> p1). { intros <-. rewrite list_lookup_insert_eq in G1; [done | by apply lookup_lt_Some in G0]. }
  rewrite list_lookup_insert_ne in G1 by done. pose proof (Hfree _ G0). pose proof (Hfree _ G1).
  pose proof (lookup_lt_Some _ _ _ G0). pose proof (lookup_lt_Some _ _ _ G1).
  set (t2 := <[p1 := Some (WriteEnd n)]> (<[p0 := Some (ReadEnd n)]> t)) in *.
  assert (L0 : t2 !! p0 = Some (Some (ReadEnd n))) by (unfold t2; rewrite list_lookup_insert_ne, list_lookup_insert_eq by auto; done).
  assert (L1 : t2 !! p1 = Some (Some (WriteEnd n))) by (unfold t2; rewrite list_lookup_insert_eq by (by rewrite length_insert); done).
  assert (Hlow2 : forall i, (i < 3)%nat -> exists o, t2 !! i = Some (Some o)).
  { intros i Hi. unfold t2. rewrite !list_lookup_insert_ne by lia. auto. }
  assert (El : run (Close 1 (Dup p1 (Close p0 (Close p1 (runcmd c1))))) t2 (S n) = run (runcmd c1) (<[1%nat := Some (WriteEnd n)]> t) (S n)).
  { rewrite (reopen t2 1 p1 _ (WriteEnd n)) by (auto; lia). cbn [run]. unfold t2. by rewrite close_both by (auto; lia). }
  assert (Er : forall m, run (Close 0 (Dup p0 (Close p0 (Close p1 (runcmd c2))))) t2 m = run (runcmd c2) (<[0%nat := Some (ReadEnd n)]> t) m).
  { intros m. rewrite (reopen t2 0 p0 _ (ReadEnd n)) by (auto; lia). cbn [run]. unfold t2. by rewrite close_both by (auto; lia). }
  cbn [runcmd run]. rewrite E0, E1. fold t2. unfold fork1. remember (Close 1 _) as left. remember (Close 0 _) as right. cbn [run].
  rewrite El. destruct (run (runcmd c1) _ _) as [e1 n1]. rewrite Er. destruct (run (runcmd c2) _ _) as [e2 n2]. by rewrite app_nil_r.
Qed.

Lemma runcmd_meaning c : forall t n, tab_ok t -> redirs_ok c -> run (runcmd c) t n = meaning c t n.
Proof.
  induction c as [[|a argv]|c IH file md fd|l IHl r IHr|l IHl r IHr|c IH]; intros t n Hok Hr.
  - done.
  - cbn. by destruct (exec_ok _).
  - destruct Hr as [Hfd Hr]. cbn [runcmd run meaning]. pose proof Hok as [Hlow _].
    assert (Hi : (Z.to_nat fd < 2)%nat) by lia. set (i := Z.to_nat fd) in *.
    assert (Hl : (i < length t)%nat) by (destruct (Hlow i ltac:(lia)) as [? E]; by apply lookup_lt_Some in E).
    rewrite fdalloc_closed by (auto; intros; apply Hlow; lia). destruct (open_ok file md); [|done].
    rewrite list_insert_insert_eq. apply IH; [apply tab_ok_insert; auto; lia | done].
  - destruct Hr as [Hl Hr]. rewrite run_pipe by done. cbn [meaning]. rewrite IHl by (auto; apply tab_ok_insert; auto; lia).
    destruct (meaning l _ _) as [e1 n1]. by rewrite IHr by (auto; apply tab_ok_insert; auto; lia).
  - destruct Hr as [Hl Hr]. cbn [runcmd run meaning fork1]. rewrite IHl by done. destruct (meaning l _ _) as [e1 n1]. by rewrite IHr by done.
  - cbn [runcmd run meaning fork1]. rewrite IH by done. destruct (meaning c _ _) as [e1 n1]. by rewrite app_nil_r.
Qed.
End run.

(** ** The parser only makes redirections of descriptors 0 and 1. *)
Definition sat {A : Type} (P : A -> Prop) (r : res (A * nat)) : Prop := match r with Ok (a, _) => P a | _ => True end.

Lemma sat_bind {A B : Type} (P : A -> Prop) (Q : B -> Prop) (r : res (A * nat)) (k : A -> nat -> res (B * nat)) :
  sat P r -> (forall a s, P a -> sat Q (k a s)) -> sat Q (let* (a, s) := r in k a s).
Proof. intros H1 H2. destruct r as [[a s]| |]; cbn in *; auto. Qed.

Definition std (r : tok * Z * Z) : Prop := snd r = 0 \/ snd r = 1.

Lemma redirs_wrap l : forall c, redirs_ok c -> Forall std l -> redirs_ok (wrap c l).
Proof. induction l as [|r l IH]; intros c Hc Hl; [done|]. apply Forall_cons_1 in Hl as [Hr Hl]. by apply IH. Qed.

Section redirs.
Context (buf : list Z).

Lemma parseredirs_std n : forall s, sat (Forall std) (parseredirs buf n s).
Proof.
  induction n as [|n IH]; intros s; cbn [parseredirs]; destruct (peek buf s [60; 62]) as [[] s1]; try done; try by constructor.
  destruct (gettoken buf s1) as [[[t q1] e1] s2]. destruct (gettoken buf s2) as [[[a q] e] s3]. destruct (negb _); [done|].
  apply (sat_bind (Forall std)); [apply IH|]. intros l s4 Hl. constructor; [|done]. unfold std. destruct (t =? 60); cbn; auto.
Qed.

Lemma parseargs_std n : forall s args rs, Forall std rs -> sat (fun ar => Forall std (snd ar)) (parseargs buf n s args rs).
Proof.
  induction n as [|n IH]; intros s args rs Hr; cbn [parseargs]; destruct (peek buf s _) as [[] s1]; try done;
    destruct (gettoken buf s1) as [[[t q] e] s2]; (destruct (t =? 0); [done|]); (destruct (negb _); [done|]); (destruct (_ <=? _)%nat; [done|]); [done|].
  apply (sat_bind (Forall std)); [apply parseredirs_std|]. intros l s3 Hl. apply IH. by apply Forall_app.
Qed.

Lemma parseback_redirs n : forall s c, redirs_ok c -> sat redirs_ok (parseback buf n s c).
Proof.
  induction n as [|n IH]; intros s c Hc; cbn [parseback]; destruct (peek buf s _) as [[] s1]; try done.
  destruct (gettoken buf s1) as [[[t q1] e1] s2]. by apply IH.
Qed.

Lemma parse_redirs n : forall s, sat redirs_ok (parseline buf n s) /\ sat redirs_ok (parsepipe buf n s) /\
  sat redirs_ok (parseexec buf n s) /\ sat redirs_ok (parseblock buf n s).
Proof.
  induction n as [|n IH]; intros s; [done|].
  assert (Hline : forall s, sat redirs_ok (parseline buf n s)) by (intros; apply IH).
  assert (Hpipe : forall s, sat redirs_ok (parsepipe buf n s)) by (intros; apply IH). split_and!.
  - cbn [parseline]. apply (sat_bind redirs_ok); [done|]. intros c s1 Hc. apply (sat_bind redirs_ok); [by apply parseback_redirs|].
    intros c' s2 Hc'. destruct (peek buf s2 [59]) as [[] s3]; [|done]. destruct (gettoken buf s3) as [[[? ?] ?] s4].
    apply (sat_bind redirs_ok); [done|]. by intros.
  - cbn [parsepipe]. apply (sat_bind redirs_ok); [apply IH|]. intros c s1 Hc. destruct (peek buf s1 [124]) as [[] s3]; [|done].
    destruct (gettoken buf s3) as [[[? ?] ?] s4]. apply (sat_bind redirs_ok); [done|]. by intros.
  - cbn [parseexec]. destruct (peek buf s [40]) as [[] s1]; [apply IH|].
    apply (sat_bind (Forall std)); [apply parseredirs_std|]. intros rs s2 Hr. pose proof (parseargs_std (length buf) s2 [] rs Hr) as Ha.
    destruct (parseargs buf (length buf) s2 [] rs) as [[[args rs'] s3]| |]; cbn [rbind sat snd] in *; [by apply redirs_wrap | done | done].
  - cbn [parseblock]. destruct (peek buf s [40]) as [[] s1]; [cbn [negb]|done]. destruct (gettoken buf s1) as [[[? ?] ?] s2].
    apply (sat_bind redirs_ok); [done|]. intros c s3 Hc. destruct (peek buf s3 [41]) as [[] s4]; [cbn [negb]|done].
    destruct (gettoken buf s4) as [[[? ?] ?] s5]. apply (sat_bind (Forall std)); [apply parseredirs_std|]. intros rs s6 Hr. by apply redirs_wrap.
Qed.

Lemma parsecmd_redirs c : parsecmd buf = Ok c -> redirs_ok c.
Proof.
  unfold parsecmd. destruct (parse_redirs (parse_fuel buf) 0) as [Hl _].
  destruct (parseline buf (parse_fuel buf) 0) as [[c0 s]| |]; cbn [rbind] in *; [|done | done].
  destruct (peek buf s []) as [b s']. destruct (negb _); [done|]. by intros [= <-].
Qed.
End redirs.

(** C14: the system calls of [runcmd] implement what the parsed line means.  Run
    in a process with descriptors 0, 1 and 2 in use and two more free, they
    start the same programs, in the same order and each with exactly the
    descriptor table it is to see, and print the same messages: a redirection
    replaces standard input or output, the sides of a pipe see its two ends as
    standard output and input, and no program inherits any other descriptor of
    a pipe. *)
Theorem runcmd_refines open_ok exec_ok buf c t n :
  parsecmd buf = Ok c -> tab_ok t -> run open_ok exec_ok (runcmd c) t n = meaning open_ok exec_ok c t n.
Proof. intros Hc Ht. apply runcmd_meaning; [done | by apply (parsecmd_redirs buf)]. Qed.

Lemma runcmd_refines_witness :
  let t := [Some (Given 0); Some (Given 1); Some (Given 2); None; None] in
  run (fun _ _ => true) (fun _ => true)
    (runcmd (BACK (PIPE (LIST (EXEC [(1, 3)%nat]) (REDIR (EXEC [(4, 7)%nat]) (8, 9)%nat 0 0)) (REDIR (EXEC [(11, 13)%nat]) (14, 15)%nat 0x201 1)))) t 0 =
  ([EvExec [(1, 3)%nat] [Some (Given 0); Some (WriteEnd 0); Some (Given 2); None; None];
    EvExec [(4, 7)%nat] [Some (File (8, 9)%nat 0); Some (WriteEnd 0); Some (Given 2); None; None];
    EvExec [(11, 13)%nat] [Some (ReadEnd 0); Some (File (14, 15)%nat 0x201); Some (Given 2); None; None]], 1%nat).
Proof.
  intros t. rewrite (runcmd_refines _ _ wit_line _ t 0); [reflexivity | vm_compute; reflexivity |]. split.
  - intros [|[|[|i]]] Hi; [by eexists | by eexists | by eexists | lia].
  - exists 3%nat, 4%nat. split_and!; [lia | done | done].
Defined.

(** ** The command loop *)

(** [gets] (ulib.c) on what is still to be read from descriptor 0: at most [n]
    characters, up to and with the first newline or return. *)
Fixpoint gets (n : nat) (input : list Z) : list Z * list Z :=
  match n, input with
  | S n', c :: rest =>
      if (c =? 10) || (c =? 13) then ([c], rest)
      else let (l, rest) := gets n' rest in (c :: l, rest)
  | _, _ => ([], input)
  end.

(** The C string in a buffer. *)
Fixpoint cstr (l : list Z) : list Z :=
  match l with
  | [] => []
  | c :: l' => if c =? 0 then [] else c :: cstr l'
  end.

(** The line in the buffer of 100 characters; none at the end of the input. *)
Definition getcmd (input : list Z) : option (list Z * list Z) :=
  let (l, rest) := gets 99 input in
  match cstr l with [] => None | s => Some (s, rest) end.

Inductive action := Chdir (path : list Z) | Run (c : res cmd).

Definition sh_line (s : list Z) : action :=
  match s with
  | 99 :: 100 :: 32 :: _ => Chdir (drop 3 (removelast s))
  | _ => Run (parsecmd s)
  end.

(** [main] after the descriptors are open: the directory changes and the lines
    given to a child, one unit of [n] per line. *)
Fixpoint sh_main (n : nat) (input : list Z) : res (list action) :=
  match n with
  | O => Blocked
  | S n' =>
      match getcmd input with
      | None => Ok []
      | Some (s, rest) => let* l := sh_main n' rest in Ok (sh_line s :: l)
      end
  end.

(** A line that fits the buffer with its newline. *)
Definition fits (l : list Z) : Prop := (length l <= 98)%nat /\ Forall (fun c => c <> 0 /\ c <> 10 /\ c <> 13) l.

Lemma gets_line l : forall n rest, (length l < n)%nat -> Forall (fun c => c <> 0 /\ c <> 10 /\ c <> 13) l ->
  gets n (l ++ 10 :: rest) = (l ++ [10], rest).
Proof.
  induction l as [|c l IH]; intros [|n] rest Hn Hl; cbn [length] in Hn; try lia; [done|]. apply Forall_cons_1 in Hl as [(_ & Hc1 & Hc2) Hl].
  cbn. apply Z.eqb_neq in Hc1, Hc2. rewrite Hc1, Hc2. cbn [orb]. by rewrite IH by (auto; lia).
Qed.

Lemma cstr_id l : Forall (fun c => c <> 0) l -> cstr l = l.
Proof. induction 1 as [|c l Hc Hl IH]; [done|]. cbn. apply Z.eqb_neq in Hc. by rewrite Hc, IH. Qed.

(** The shell obeys every line of its input in order and stops at its end. *)
Lemma sh_main_lines ls : Forall fits ls -> forall n, (length ls < n)%nat ->
  sh_main n (concat (map (fun l => l ++ [10]) ls)) = Ok (map (fun l => sh_line (l ++ [10])) ls).
Proof.
  induction 1 as [|l ls [Hlen Hl] Hls IH]; intros [|n] Hn; cbn [length] in Hn; try lia; [done|].
  assert (Hg : getcmd (concat (map (fun l => l ++ [10]) (l :: ls))) = Some (l ++ [10], concat (map (fun l => l ++ [10]) ls))).
  { unfold getcmd. cbn [map concat]. rewrite <- app_assoc. cbn [app]. rewrite gets_line by (auto; lia). rewrite cstr_id; [by destruct l|].
    apply Forall_app. split; [eapply Forall_impl; [exact Hl | by intros ? (H & _)] | by constructor]. }
  cbn [sh_main]. rewrite Hg. rewrite IH by lia. done.
Qed.
