(* ===== verification/Umalloc.v ===== *)
(** * The user-level allocator (src/umalloc.c)

    Kernighan and Ritchie's allocator on the memory of one process: a circular
    list of free blocks in address order, threaded through 8-byte headers, with
    [base] the address of the static header.  [sbrk] is the system call as
    [growproc] implements it, with [grow] telling whether memory is left.  The
    walks around the ring are bounded by the number of headers that fit below
    the break; [Blocked] is a walk that does not end.  The ring is shown to be
    the sorted, fully coalesced list of the free blocks, and blocks handed out
    are disjoint from it, from each other, and kept intact. *)

From S2P Require Import Prelude Layout.

Record uheap := mk_uheap {
  um : mem;        (* the process's memory *)
  u_freep : Z;     (* freep *)
  u_brk : Z        (* the break, the size of the process *)
}.

Definition set_um (h : uheap) (m : mem) : uheap := mk_uheap m (u_freep h) (u_brk h).
Definition set_freep (h : uheap) (p : Z) : uheap := mk_uheap (um h) p (u_brk h).

(** [p->s.ptr] and [p->s.size]; a header has 8 bytes. *)
Definition hptr (m : mem) (p : Z) : Z := ld32 m p.
Definition hsize (m : mem) (p : Z) : Z := ld32 m (p + 4).
Definition set_hptr (m : mem) (p v : Z) : mem := st32 m p v.
Definition set_hsize (m : mem) (p v : Z) : mem := st32 m (p + 4) v.

(** [p + n] on [Header *]. *)
Definition hadd (p n : Z) : Z := u32 (p + 8 * n).

Section umalloc.
Context (base : Z) (grow : Z -> Z -> bool).

(** The old break, or -1. *)
Definition sbrk (n : Z) (h : uheap) : Z * uheap :=
  let b := u_brk h in
  if 0 <? n then
    if (u32 (b + n) <? KERNBASE) && grow b n
    then (b, mk_uheap (mfill (um h) (PGROUNDUP b) (PGROUNDUP (b + n) - PGROUNDUP b) 0) (u_freep h) (u32 (b + n))) else (-1, h)
  else if n <? 0 then
    let nb := u32 (b + n) in
    if b <=? nb then (b, h)
    else if nb =? 0 then (-1, h) else (b, mk_uheap (um h) (u_freep h) nb)
  else (b, h).

(** The loop of [free]: the free block after which [bp] belongs. *)
Fixpoint free_walk (n : nat) (bp p : Z) (m : mem) : res Z :=
  if (p <? bp) && (bp <? hptr m p) then Ok p
  else if (hptr m p <=? p) && ((p <? bp) || (bp <? hptr m p)) then Ok p
  else match n with
       | O => Blocked
       | S n' => free_walk n' bp (hptr m p) m
       end.

Definition walk_fuel (h : uheap) : nat := Z.to_nat ((u_brk h - base) / 8).

Definition free (ap : Z) (h : uheap) : res uheap :=
  let bp := hadd ap (-1) in
  let m := um h in
  let* p := free_walk (walk_fuel h) bp (u_freep h) m in
  let m :=
    if hadd bp (hsize m bp) =? hptr m p then
      let m := set_hsize m bp (hsize m bp + hsize m (hptr m p)) in
      set_hptr m bp (hptr m (hptr m p))
    else set_hptr m bp (hptr m p) in
  let m :=
    if hadd p (hsize m p) =? bp then
      let m := set_hsize m p (hsize m p + hsize m bp) in
      set_hptr m p (hptr m bp)
    else set_hptr m p bp in
  Ok (mk_uheap m p (u_brk h)).

(** 0, or [freep] after more memory was freed into the ring. *)
Definition morecore (nu : Z) (h : uheap) : res (Z * uheap) :=
  let nu := if nu <? 4096 then 4096 else nu in
  let (p, h) := sbrk (s32 (nu * 8)) h in
  if p =? -1 then Ok (0, h)
  else
    let* h := free (hadd p 1) (set_um h (set_hsize (um h) p nu)) in
    Ok (u_freep h, h).

(** The block [p] fits: unlink it, or cut its tail off. *)
Definition take_block (nunits prevp p : Z) (h : uheap) : Z * uheap :=
  let m := um h in
  if hsize m p =? nunits then (hadd p 1, mk_uheap (set_hptr m prevp (hptr m p)) prevp (u_brk h))
  else
    let m := set_hsize m p (hsize m p - nunits) in
    let p := hadd p (hsize m p) in
    (hadd p 1, mk_uheap (set_hsize m p nunits) prevp (u_brk h)).

Fixpoint malloc_scan (n : nat) (nunits prevp p : Z) (h : uheap) : res (Z * uheap) :=
  if nunits <=? hsize (um h) p then Ok (take_block nunits prevp p h)
  else match n with
       | O => Blocked
       | S n' =>
           if p =? u_freep h then
             let* (p, h) := morecore nunits h in
             if p =? 0 then Ok (0, h) else malloc_scan n' nunits p (hptr (um h) p) h
           else malloc_scan n' nunits p (hptr (um h) p) h
       end.

Definition nunits_of (nbytes : Z) : Z := u32 (u32 (nbytes + 8 - 1) / 8 + 1).

Definition malloc (nbytes : Z) (h : uheap) : res (Z * uheap) :=
  let nunits := nunits_of nbytes in
  let h := if u_freep h =? 0 then mk_uheap (set_hsize (set_hptr (um h) base base) base 0) base (u_brk h) else h in
  malloc_scan (2 * walk_fuel h + 2) nunits (u_freep h) (hptr (um h) (u_freep h)) h.

(** ** The ring *)

Abbreviation block := (Z * Z)%type.

Definition fst_addr (l : list block) (z : Z) : Z := match l with [] => z | (a, _) :: _ => a end.

(** The headers of [l] link it to [z]. *)
Fixpoint chain (m : mem) (l : list block) (z : Z) : Prop :=
  match l with
  | [] => True
  | (a, s) :: l' => hptr m a = fst_addr l' z /\ hsize m a = s /\ chain m l' z
  end.

(** Where a block ends: a header at least. *)
Definition bend (x : block) : Z := fst x + 8 * Z.max 1 (snd x).

(** Sorted between [lo] and [hi], with a gap between neighbours. *)
Fixpoint sorted (lo : Z) (l : list block) (hi : Z) : Prop :=
  match l with
  | [] => lo <= hi
  | x :: l' => lo < fst x /\ 0 <= snd x /\ sorted (bend x) l' hi
  end.

Definition disj (x y : block) : Prop := bend x <= fst y \/ bend y <= fst x.

(** The ring holds exactly the free blocks [R]. *)
Record ring (h : uheap) (R : list block) : Prop := {
  ri_head : exists L, R = (base, 0) :: L /\ Forall (fun x => 1 <= snd x) L;
  ri_chain : chain (um h) R base;
  ri_sorted : sorted (base - 1) R (u_brk h);
  ri_freep : exists s, (u_freep h, s) ∈ R;
  ri_base : 0 < base;
  ri_brk : base + 8 < u_brk h < KERNBASE
}.

(** [free] in terms of lists: a block joined with the one it touches. *)
Definition join (x : block) (l : list block) : list block :=
  match l with
  | [] => [x]
  | y :: l' => if fst x + 8 * snd x =? fst y then (fst x, snd x + snd y) :: l' else x :: l
  end.

(** A list of blocks the program holds, apart from each other and from [R]. *)
Record held (h : uheap) (R AL : list block) : Prop := {
  he_each : forall x, x ∈ AL -> base + 8 < fst x /\ 1 <= snd x /\ bend x <= u_brk h /\ hsize (um h) (fst x) = snd x;
  he_free : forall x y, x ∈ AL -> y ∈ R -> disj x y;
  he_pair : forall i j x y, AL !! i = Some x -> AL !! j = Some y -> i <> j -> disj x y
}.

(** *** Frames *)

Definition only (m m' : mem) (a : Z) : Prop := forall x, x < a \/ a + 8 <= x -> m' x = m x.

Lemma only_refl m a : only m m a.
Proof. done. Qed.

Lemma only_hptr m m' a v : only m m' a -> only m (set_hptr m' a v) a.
Proof. intros H x Hx. unfold set_hptr. rewrite st32_other by lia. by apply H. Qed.

Lemma only_hsize m m' a v : only m m' a -> only m (set_hsize m' a v) a.
Proof. intros H x Hx. unfold set_hsize. rewrite st32_other by lia. by apply H. Qed.

Definition far (a b : Z) : Prop := a + 8 <= b \/ b + 8 <= a.

Lemma hptr_only m m' a b : only m m' a -> far b a -> hptr m' b = hptr m b.
Proof. intros H Hf. apply ld32_ext. intros x Hx. apply H. unfold far in Hf. lia. Qed.

Lemma hsize_only m m' a b : only m m' a -> far b a -> hsize m' b = hsize m b.
Proof. intros H Hf. apply ld32_ext. intros x Hx. apply H. unfold far in Hf. lia. Qed.

Lemma chain_only m m' a l z : only m m' a -> Forall (fun x => far (fst x) a) l -> chain m l z -> chain m' l z.
Proof.
  intros H Hf. induction l as [|[b s] l IH]; [done|]. apply Forall_cons_1 in Hf as [Hb Hf]. intros (H1 & H2 & H3). cbn [fst] in Hb.
  cbn [chain]. rewrite (hptr_only _ _ _ _ H Hb), (hsize_only _ _ _ _ H Hb). auto.
Qed.

Lemma hptr_set m a v : hptr (set_hptr m a v) a = u32 v.
Proof. apply ld32_st32_same. Qed.
Lemma hsize_set m a v : hsize (set_hsize m a v) a = u32 v.
Proof. apply ld32_st32_same. Qed.
Lemma hptr_set_hsize m a v : hptr (set_hsize m a v) a = hptr m a.
Proof. apply ld32_st32_other. lia. Qed.
Lemma hsize_set_hptr m a v : hsize (set_hptr m a v) a = hsize m a.
Proof. apply ld32_st32_other. lia. Qed.

Lemma chain_app m l1 l2 z : chain m (l1 ++ l2) z <-> chain m l1 (fst_addr l2 z) /\ chain m l2 z.
Proof.
  induction l1 as [|[a s] l1 IH]; cbn [app chain]; [tauto|].
  assert (fst_addr (l1 ++ l2) z = fst_addr l1 (fst_addr l2 z)) as -> by (by destruct l1 as [|[]]). tauto.
Qed.

(** *** Order *)

Lemma sorted_le lo l hi : sorted lo l hi -> lo <= hi.
Proof.
  revert lo. induction l as [|[a s] l IH]; intros lo H; [done|]. destruct H as (H1 & H2 & H3). apply IH in H3. unfold bend in H3. cbn [fst snd] in *. lia.
Qed.

Lemma sorted_app lo l1 x l2 hi : sorted lo (l1 ++ x :: l2) hi <-> sorted lo l1 (fst x - 1) /\ 0 <= snd x /\ sorted (bend x) l2 hi.
Proof.
  revert lo. induction l1 as [|y l1 IH]; intros lo; cbn [app sorted]; [|rewrite IH; tauto].
  split; intros (H1 & H2 & H3); split_and!; auto; lia.
Qed.

Lemma sorted_in lo l hi x : sorted lo l hi -> x ∈ l -> lo < fst x /\ 0 <= snd x /\ bend x <= hi.
Proof.
  intros H (l1 & l2 & ->)%list_elem_of_split. apply sorted_app in H as (H1 & H2 & H3). apply sorted_le in H1, H3. lia.
Qed.

Lemma sorted_far_l lo l a : sorted lo l (a - 1) -> Forall (fun x => far (fst x) a) l.
Proof. intros H. apply Forall_forall. intros x Hx. apply (sorted_in _ _ _ _ H) in Hx as (_ & _ & Hx). unfold bend in Hx. left. lia. Qed.

Lemma sorted_far_r a l hi lo : a + 8 <= lo -> sorted lo l hi -> Forall (fun x => far (fst x) a) l.
Proof. intros Ha H. apply Forall_forall. intros x Hx. apply (sorted_in _ _ _ _ H) in Hx as (Hx & _). right. lia. Qed.

Lemma sorted_length lo l hi : sorted lo l hi -> 9 * Z.of_nat (length l) <= hi - lo.
Proof.
  revert lo. induction l as [|x l IH]; intros lo; [cbn; lia|]. intros (H1 & H2 & H3). apply IH in H3. unfold bend in H3. cbn [length]. lia.
Qed.

Lemma sorted_weaken lo lo' l hi : lo' <= lo -> sorted lo l hi -> sorted lo' l hi.
Proof. intros H. destruct l as [|x l]; cbn [sorted]; [lia|]. intros (H1 & H2). split; [lia | done]. Qed.

Lemma sorted_weaken_hi lo l hi hi' : hi <= hi' -> sorted lo l hi -> sorted lo l hi'.
Proof. intros H. revert lo. induction l as [|x l IH]; intros lo; cbn [sorted]; [lia|]. intros (H1 & H2 & H3). auto. Qed.

(** *** [free] *)

(** The walk stops at the block before [bp]. *)
Lemma walk_stop n m R1 p sp R2 bp : chain m (R1 ++ (p, sp) :: R2) base -> base <= p < bp -> bp < fst_addr R2 KERNBASE ->
  free_walk n bp p m = Ok p.
Proof.
  intros Hc Hp Hb. apply chain_app in Hc as (_ & Hc). destruct Hc as (Hn & _).
  destruct n; cbn [free_walk]; rewrite Hn; (destruct R2 as [|[q sq] R2]; cbn [fst_addr] in *).
  all: destruct (Z.ltb_spec p bp); [|lia]; cbn [andb orb].
  all: try (destruct (Z.ltb_spec bp q); [done | lia]).
  all: destruct (Z.ltb_spec bp base); [lia|]; destruct (Z.leb_spec base p); [done | lia].
Qed.

(** Elsewhere it goes on: below [bp] because the next block is not above it,
    above [bp] because it is not the last one before [base]. *)
Lemma walk_step n m x bp : (x < hptr m x <= bp \/ bp < x /\ base <= bp /\ (x < hptr m x \/ hptr m x = base)) -> base <= bp ->
  free_walk (S n) bp x m = free_walk n bp (hptr m x) m.
Proof.
  intros H Hb. cbn [free_walk]. destruct (Z.ltb_spec x bp), (Z.ltb_spec bp (hptr m x)), (Z.leb_spec (hptr m x) x); cbn [andb orb]; try done; lia.
Qed.

(** From a block below it the walk goes up to [p]. *)
Lemma walk_up B : forall n m A x sx p sp R2 bp, chain m (A ++ (x, sx) :: B ++ (p, sp) :: R2) base ->
  sorted (base - 1) (A ++ (x, sx) :: B ++ (p, sp) :: R2) (KERNBASE - 1) -> p < bp -> bp < fst_addr R2 KERNBASE ->
  (length B < n)%nat -> free_walk n bp x m = Ok p.
Proof.
  induction B as [|[y sy] B IH]; intros [|n] m A x sx p sp R2 bp Hc Hs Hp Hb Hn; cbn [length] in Hn; try lia.
  all: pose proof Hc as (_ & Hx & _)%chain_app; cbn [app fst_addr] in Hx.
  all: rewrite (cons_middle (x, sx)), app_assoc in Hc, Hs; pose proof Hs as Hs'; cbn [app] in Hc, Hs, Hs'.
  - pose proof (sorted_in _ _ _ (p, sp) Hs ltac:(set_solver)) as (Hlo & _). cbn [fst] in Hlo.
    apply sorted_app in Hs' as (Hs' & _). pose proof (sorted_in _ _ _ (x, sx) Hs' ltac:(set_solver)) as (_ & _ & Hxp). unfold bend in Hxp. cbn [fst snd] in Hxp.
    rewrite walk_step by (rewrite ?Hx; lia). rewrite Hx. apply (walk_stop _ _ _ _ _ _ _ Hc); [lia | done].
  - pose proof (sorted_in _ _ _ (p, sp) Hs ltac:(set_solver)) as (Hlo & _). cbn [fst] in Hlo.
    apply sorted_app in Hs' as (Hs' & _ & Hy). pose proof (sorted_in _ _ _ (x, sx) Hs' ltac:(set_solver)) as (_ & _ & Hxp).
    pose proof (sorted_in _ _ _ (p, sp) Hy ltac:(set_solver)) as (Hyp & _). unfold bend in Hxp, Hyp. cbn [fst snd] in Hxp, Hyp.
    rewrite walk_step by (rewrite ?Hx; lia). rewrite Hx. eapply IH; [exact Hc | exact Hs | done | done | lia].
Qed.

(** From a block above it the walk wraps around. *)
Lemma walk_around B : forall n m A x sx bp, chain m (A ++ (x, sx) :: B) base -> sorted (base - 1) (A ++ (x, sx) :: B) (KERNBASE - 1) ->
  base <= bp < x -> free_walk (S (length B) + n) bp x m = free_walk n bp base m.
Proof.
  induction B as [|[y sy] B IH]; intros n m A x sx bp Hc Hs Hb; pose proof Hc as (_ & Hx & _)%chain_app; cbn [fst_addr] in Hx.
  - cbn [length Nat.add]. rewrite walk_step by (rewrite ?Hx; lia). by rewrite Hx.
  - rewrite (cons_middle (x, sx)), app_assoc in Hc, Hs. pose proof Hs as Hs'. apply sorted_app in Hs' as (Hs' & _).
    pose proof (sorted_in _ _ _ (x, sx) Hs' ltac:(set_solver)) as (_ & _ & Hxy). unfold bend in Hxy. cbn [fst snd] in Hxy.
    change (S (length ((y, sy) :: B)) + n)%nat with (S (S (length B) + n)). rewrite walk_step by (rewrite ?Hx; lia). rewrite Hx.
    apply (IH n m (A ++ [(x, sx)]) y sy); auto. lia.
Qed.

(** From anywhere in the ring, within its length. *)
Lemma walk_finds n h R1 p sp R2 bp : ring h (R1 ++ (p, sp) :: R2) -> p < bp -> bp < fst_addr R2 KERNBASE ->
  (length (R1 ++ (p, sp) :: R2) <= S n)%nat -> free_walk n bp (u_freep h) (um h) = Ok p.
Proof.
  intros [(L & EL & _) Hc Hs [s Hf] H0 Hk] Hp Hb Hn. apply (sorted_weaken_hi _ _ _ (KERNBASE - 1)) in Hs; [|lia].
  pose proof (sorted_in _ _ _ (p, sp) Hs ltac:(set_solver)) as (Hbp & _). cbn [fst] in Hbp.
  assert (Hbase : forall k, (length R1 <= k)%nat -> free_walk k bp base (um h) = Ok p).
  { intros k Hk'. destruct R1 as [|[b sb] R1].
    - injection EL as -> -> _. apply (walk_stop _ _ [] base 0 R2); auto. lia.
    - injection EL as -> -> _. apply (walk_up R1 k _ [] base 0 p sp R2); auto. }
  rewrite length_app in Hn. cbn [length] in Hn. apply elem_of_app in Hf as [Hf|Hf].
  - apply list_elem_of_split in Hf as (A & B & ->). rewrite <- app_assoc in Hc, Hs. cbn [app] in Hc, Hs. rewrite length_app in Hn. cbn [length] in Hn.
    apply (walk_up B n _ A _ s p sp R2); auto. lia.
  - apply elem_of_cons in Hf as [[= -> ->]|Hf]; [apply (walk_stop _ _ R1 p sp R2); auto; lia|].
    apply list_elem_of_split in Hf as (A & B & ->). rewrite length_app in Hn. cbn [length] in Hn.
    rewrite (cons_middle (p, sp)), !app_assoc in Hc, Hs. rewrite <- (app_assoc R1) in Hc, Hs.
    assert (Hx : bp < u_freep h).
    { destruct A as [|[q sq] A]; cbn [app fst_addr] in Hb; [done|]. apply sorted_app in Hs as (Hs & _). rewrite app_assoc in Hs.
      apply sorted_app in Hs as (_ & _ & Hs). pose proof (sorted_le _ _ _ Hs) as Hle. unfold bend in Hle. cbn [fst snd] in *. lia. }
    replace n with (S (length B) + (n - S (length B)))%nat by lia.
    rewrite (walk_around B _ _ ((R1 ++ [(p, sp)]) ++ A) (u_freep h) s); [apply Hbase; lia | | | lia].
    + by rewrite <- !app_assoc in *.
    + by rewrite <- !app_assoc in *.
Qed.

(** The place of a block that is apart from the free ones. *)
Lemma split_before x l : forall lo hi bp sb, sorted lo (x :: l) hi -> fst x < bp -> hi < KERNBASE -> bp < hi -> 1 <= sb -> (forall y, y ∈ x :: l -> disj (bp, sb) y) ->
  exists R1 y R2, x :: l = R1 ++ y :: R2 /\ bend y <= bp /\ bp < fst_addr R2 KERNBASE /\ bp + 8 * sb <= fst_addr R2 (bp + 8 * sb).
Proof.
  revert x. induction l as [|y l IH]; intros x lo hi bp sb Hs Hx Hhi Hbp Hsb Hd.
  - exists [], x, []. destruct (Hd x ltac:(set_solver)) as [H|H]; unfold bend in *; cbn in *; split_and!; auto; lia.
  - destruct Hs as (H1 & H2 & H3). destruct (Z.lt_ge_cases (fst y) bp) as [Hy|Hy].
    + destruct (IH y _ hi bp sb H3 Hy Hhi Hbp Hsb) as (R1 & z & R2 & E & Hz); [intros; apply Hd; set_solver|]. exists (x :: R1), z, R2. by rewrite E.
    + exists [], x, (y :: l). destruct y as [q sq]. pose proof (Hd x ltac:(set_solver)) as Dx. pose proof (Hd (q, sq) ltac:(set_solver)) as Dy.
      unfold disj, bend in *. cbn [fst snd fst_addr] in *. split_and!; auto; lia.
Qed.

(** What [join] does, and that it keeps the order. *)
Lemma join_cases x l : (exists y l', l = y :: l' /\ fst x + 8 * snd x = fst y /\ join x l = (fst x, snd x + snd y) :: l') \/
  (join x l = x :: l /\ match l with [] => True | y :: _ => fst x + 8 * snd x <> fst y end).
Proof.
  destruct l as [|y l]; cbn [join]; [by right|]. destruct (Z.eqb_spec (fst x + 8 * snd x) (fst y)) as [E|E]; [left; by exists y, l | by right].
Qed.

Lemma join_sorted lo lo' x l hi : lo < fst x -> 1 <= snd x -> bend x <= hi -> fst x + 8 * snd x <= fst_addr l (fst x + 8 * snd x) -> sorted lo' l hi ->
  sorted lo (join x l) hi.
Proof.
  intros H1 H2 H3 H4 Hs. destruct (join_cases x l) as [(y & l' & -> & E & ->)|[-> Hn]].
  - destruct Hs as (_ & Hy & Hs). cbn [sorted]. split_and!; [done | cbn; lia |]. unfold bend in *. cbn [fst snd] in *. eapply sorted_weaken; [|exact Hs]. lia.
  - cbn [sorted]. split_and!; [done | lia |]. destruct l as [|[q sq] l]; [done|]. destruct Hs as (_ & Hy & Hs). cbn [fst_addr fst snd] in *.
    cbn [sorted fst snd]. split_and!; [|done | done]. unfold bend. lia.
Qed.

(** Merging a block into the list that follows it, in memory. *)
Definition merge (m : mem) (a q : Z) : mem :=
  if hadd a (hsize m a) =? q then set_hptr (set_hsize m a (hsize m a + hsize m q)) a (hptr (set_hsize m a (hsize m a + hsize m q)) q)
  else set_hptr m a q.

Lemma merge_only m a q : only m (merge m a q) a.
Proof. unfold merge. case_match; auto using only_hptr, only_hsize, only_refl. Qed.

Lemma fst_addr_range lo l hi z : sorted lo l hi -> 0 <= lo -> 0 <= z < KERNBASE -> hi < KERNBASE -> u32 (fst_addr l z) = fst_addr l z.
Proof.
  intros Hs Hlo Hz Hhi. apply u32_small. unfold KERNBASE in *. destruct l as [|x l]; cbn [fst_addr]; [lia|].
  pose proof (sorted_in _ _ _ x Hs ltac:(set_solver)) as (H1 & _ & H2). unfold bend in H2. destruct x. cbn [fst snd] in *. lia.
Qed.

Lemma merge_chain m a sa l z hi : chain m l z -> hsize m a = sa -> 0 <= a -> 0 <= sa -> 0 < z < KERNBASE -> (l = [] -> z < a) ->
  bend (a, sa) <= fst_addr l hi -> bend (a, sa) <= hi -> hi < KERNBASE -> sorted a l hi ->
  chain (merge m a (fst_addr l z)) (join (a, sa) l) z.
Proof.
  intros Hc Hsa Ha Hsa0 Hz Hnil Hle Hend Hhi Hs. pose proof (merge_only m a (fst_addr l z)) as Ho.
  assert (Hq := fst_addr_range _ _ _ z Hs ltac:(lia) ltac:(lia) Hhi).
  assert (Hu : hadd a sa = a + 8 * sa) by (unfold hadd, bend, KERNBASE in *; cbn [fst snd] in *; rewrite u32_small; lia).
  unfold merge in *. rewrite Hsa, Hu in *. unfold bend in *. cbn [fst snd] in *. destruct l as [|[q sq] l]; cbn [join fst_addr fst snd] in *.
  - specialize (Hnil eq_refl). destruct (Z.eqb_spec (a + 8 * sa) z); [lia|]. cbn [chain fst_addr]. by rewrite hptr_set, hsize_set_hptr.
  - destruct Hs as (_ & Hsq & Hs). destruct Hc as (Hc1 & Hc2 & Hc). unfold bend in Hs. cbn [fst snd] in *. pose proof (sorted_le _ _ _ Hs) as Hqhi.
    assert (Hfar : Forall (fun x => far (fst x) a) l) by (eapply sorted_far_r; [|exact Hs]; lia).
    destruct (Z.eqb_spec (a + 8 * sa) q) as [E|E].
    + cbn [chain]. rewrite hptr_set, hsize_set_hptr, hsize_set, Hc2. unfold KERNBASE in *. rewrite (u32_small (sa + sq)) by lia.
      rewrite (hptr_only m (set_hsize m a (sa + sq)) a q) by (auto using only_hsize, only_refl; right; lia). rewrite Hc1.
      split_and!; [|done|]; [apply (fst_addr_range _ _ _ z Hs); unfold KERNBASE; lia|]. apply (chain_only m _ a); [apply only_hptr, only_hsize, only_refl | done | done].
    + cbn [chain fst_addr]. rewrite hptr_set, hsize_set_hptr. split_and!; auto.
      * rewrite (hptr_only m _ a q) by (auto; right; lia). done.
      * rewrite (hsize_only m _ a q) by (auto; right; lia). done.
      * by apply (chain_only m _ a).
Qed.

Lemma join_pos k x l : 0 <= k -> k <= snd x -> Forall (fun y => k <= snd y) l -> Forall (fun y => k <= snd y) (join x l).
Proof.
  intros Hk Hx Hl. destruct (join_cases x l) as [(y & l' & -> & _ & ->)|[-> _]]; [|by constructor].
  apply Forall_cons_1 in Hl as [Hy Hl]. constructor; [cbn; lia | done].
Qed.

Lemma join_head x l z : fst_addr (join x l) z = fst x.
Proof. destruct (join_cases x l) as [(y & l' & -> & _ & ->)|[-> _]]; [done | by destruct x]. Qed.

(** [free] puts a block that is apart from the free ones in its place. *)
Lemma free_ring h R bp sb : ring h R -> base + 8 < bp -> 1 <= sb -> hsize (um h) bp = sb -> bp + 8 * sb <= u_brk h -> (forall y, y ∈ R -> disj (bp, sb) y) ->
  exists R1 p sp R2 h', R = R1 ++ (p, sp) :: R2 /\ free (bp + 8) h = Ok h' /\ ring h' (R1 ++ join (p, sp) (join (bp, sb) R2)) /\
    u_freep h' = p /\ u_brk h' = u_brk h /\ (forall x, ~ p <= x < p + 8 -> ~ bp <= x < bp + 8 -> um h' x = um h x).
Proof.
  intros Hr Hb Hsb Hhb Hend Hd. pose proof Hr as [(L & -> & HL) Hc Hs _ H0 Hk].
  destruct (split_before (base, 0) L (base - 1) (u_brk h) bp sb Hs ltac:(cbn; lia) ltac:(lia) ltac:(lia) Hsb Hd) as (R1 & [p sp] & R2 & E & Hp & Hlt & Hnx).
  rewrite E in *. assert (Hpp := Hp). unfold bend in Hpp. cbn [fst snd] in Hpp.
  pose proof (sorted_in _ _ _ (p, sp) Hs ltac:(set_solver)) as (Hbp & Hsp & Hpend). cbn [fst snd] in Hbp, Hsp.
  assert (Hwalk : free_walk (walk_fuel h) bp (u_freep h) (um h) = Ok p).
  { eapply walk_finds; [exact Hr | lia | done |]. pose proof (sorted_length _ _ _ Hs). unfold walk_fuel. zdiv. }
  apply sorted_app in Hs as (Hs1 & _ & Hs2). pose proof Hc as Hcs. apply chain_app in Hcs as (Hc1 & Hptr & Hsz & Hc2). cbn [fst_addr] in Hc1.
  assert (Hfar : far p bp) by (left; lia).
  assert (Hs2' : sorted bp R2 (u_brk h)).
  { destruct R2 as [|[q sq] R2]; cbn [sorted fst_addr fst] in *; [lia|]. destruct Hs2 as (_ & Hs2). split; [lia | done]. }
  assert (Hbu : hadd (bp + 8) (-1) = bp) by (unfold hadd, KERNBASE in *; rewrite u32_small; lia).
  set (m1 := merge (um h) bp (hptr (um h) p)). set (m2 := merge m1 p bp).
  assert (O1 : only (um h) m1 bp) by apply merge_only. assert (O2 : only m1 m2 p) by apply merge_only.
  assert (Hfree : free (bp + 8) h = Ok (mk_uheap m2 p (u_brk h))).
  { unfold free. rewrite Hbu, Hwalk. cbn [rbind].
    rewrite (hptr_only (um h) (set_hsize (um h) bp _) bp p); [reflexivity | apply only_hsize, only_refl | done]. }
  assert (Hj1 : chain m1 (join (bp, sb) R2) base).
  { unfold m1. rewrite Hptr. apply (merge_chain _ _ _ _ _ (u_brk h)); auto; unfold bend; cbn [fst snd]; try lia.
    destruct R2 as [|[q sq] R2]; cbn [fst_addr] in *; lia. }
  assert (Hjs : sorted (bp - 1) (join (bp, sb) R2) (u_brk h)).
  { eapply join_sorted; [| | | |exact Hs2']; unfold bend; cbn [fst snd]; lia || done. }
  assert (Hsz1 : hsize m1 p = sp) by (rewrite (hsize_only _ _ _ _ O1 Hfar); done).
  assert (Hj2 : chain m2 (join (p, sp) (join (bp, sb) R2)) base).
  { unfold m2. replace bp with (fst_addr (join (bp, sb) R2) base) at 1 by apply join_head. apply (merge_chain _ _ _ _ _ (u_brk h)); auto; try lia.
    - intros Hn. by destruct (join_cases (bp, sb) R2) as [(? & ? & _ & _ & E2)|[E2 _]]; rewrite E2 in Hn.
    - rewrite join_head. done.
    - eapply sorted_weaken; [|exact Hjs]. lia. }
  exists R1, p, sp, R2, (mk_uheap m2 p (u_brk h)). split_and!; auto.
  - constructor; cbn [um u_freep u_brk]; auto.
    + destruct R1 as [|[b0 s0] R1]; injection E as <- <- ->.
      * destruct (join_cases (base, 0) (join (bp, sb) R2)) as [(y & l' & E1 & E2 & _)|[-> _]].
        { exfalso. pose proof (join_head (bp, sb) R2 0) as E3. rewrite E1 in E3. destruct y. cbn in *. lia. }
        eexists. split; [reflexivity|]. by apply join_pos.
      * apply Forall_app in HL as [HL1 HL2]. apply Forall_cons_1 in HL2 as [Hsp1 HL2]. cbn [snd] in Hsp1.
        exists (R1 ++ join (p, sp) (join (bp, sb) R2)). split; [done|]. apply Forall_app. split; [done|]. apply join_pos; [lia | done |]. by apply join_pos.
    + apply chain_app. split; [|done]. rewrite join_head. cbn [fst]. apply (chain_only m1 _ p); [done | by eapply sorted_far_l|].
      apply (chain_only (um h) _ bp); [done | | done]. apply (sorted_far_l (base - 1)). eapply sorted_weaken_hi; [|exact Hs1]. cbn [fst]. lia.
    + destruct (join_cases (p, sp) (join (bp, sb) R2)) as [(y & l' & E1 & E2 & ->)|[-> Hn]]; apply sorted_app; (split; [done|]).
      * rewrite E1 in Hjs. destruct Hjs as (_ & Hy & Hjs). cbn [fst snd] in *. split; [lia|]. eapply sorted_weaken; [|exact Hjs].
        pose proof (join_head (bp, sb) R2 0) as E3. rewrite E1 in E3. destruct y as [y1 y2]. cbn [fst_addr fst] in E3. subst y1. unfold bend. cbn [fst snd] in *. lia.
      * split; [done|]. pose proof (join_head (bp, sb) R2 0) as E3. destruct (join (bp, sb) R2) as [|[y1 y2] l']; [done|].
        cbn [fst_addr fst snd] in *. subst y1. destruct Hjs as (_ & Hjs). cbn [sorted fst snd]. split; [|done]. unfold bend. cbn [fst snd].
        assert (sp = 0 -> p = base); [|lia]. intros ->. destruct R1 as [|[b0 s0] R1]; [by injection E|]. injection E as _ _ EL.
        subst L. apply Forall_app in HL as [_ HL]. apply Forall_cons_1 in HL as [HL _]. cbn in HL. lia.
    + destruct (join_cases (p, sp) (join (bp, sb) R2)) as [(y & l' & E1 & E2 & ->)|[-> Hn]]; eexists; apply elem_of_app; right; left.
  - intros x Hx1 Hx2. cbn [um]. rewrite O2, O1 by lia. done.
Qed.

(** *** The scan of [malloc] *)

Fixpoint last_addr (l : list block) (prev : Z) : Z := match l with [] => prev | (a, _) :: l' => last_addr l' a end.

Lemma last_addr_app l a s prev : last_addr (l ++ [(a, s)]) prev = a.
Proof. revert prev. induction l as [|[b t] l IH]; intros prev; cbn; auto. Qed.

(** A stretch of the ring without [freep]: a block of it fits, or the scan leaves it. *)
Lemma scan_seg S : forall n nunits prev h z, chain (um h) S z -> Forall (fun x => fst x <> u_freep h) S ->
  (exists U p s V, S = U ++ (p, s) :: V /\ nunits <= s /\
     malloc_scan (length S + n) nunits prev (fst_addr S z) h = Ok (take_block nunits (last_addr U prev) p h)) \/
  Forall (fun x => snd x < nunits) S /\
  malloc_scan (length S + n) nunits prev (fst_addr S z) h = malloc_scan n nunits (last_addr S prev) z h.
Proof.
  induction S as [|[a s] S IH]; intros n nunits prev h z Hc Hf; [right; split; [constructor | done]|].
  destruct Hc as (H1 & H2 & Hc). apply Forall_cons_1 in Hf as [Ha Hf]. cbn [fst] in Ha. cbn [length Nat.add fst_addr malloc_scan]. rewrite H2.
  destruct (Z.leb_spec nunits s) as [Hle|Hlt]; [left; by exists [], a, s, S|].
  destruct (Z.eqb_spec a (u_freep h)) as [|_]; [done|]. rewrite H1.
  destruct (IH n nunits a h z Hc Hf) as [(U & p & s' & V & -> & Hs & E)|[Hall E]].
  - left. exists ((a, s) :: U), p, s', V. split_and!; auto.
  - right. split; [by constructor | done].
Qed.

Lemma sorted_ne lo l1 x l2 hi : sorted lo (l1 ++ x :: l2) hi -> Forall (fun y => fst y <> fst x) (l1 ++ l2).
Proof.
  intros H. apply sorted_app in H as (H1 & _ & H2). apply Forall_app. split.
  - eapply Forall_impl; [by eapply sorted_far_l|]. cbn. unfold far. lia.
  - eapply Forall_impl; [eapply (sorted_far_r (fst x)); [|exact H2]; unfold bend; lia|]. cbn. unfold far. lia.
Qed.

(** Once around: the block taken with the one before it, or none fits. *)
Lemma scan_ring n nunits h R : ring h R -> 1 <= nunits ->
  (exists R1 u su p s R2, R = R1 ++ (u, su) :: (p, s) :: R2 /\ nunits <= s /\
     malloc_scan (length R + n) nunits (u_freep h) (hptr (um h) (u_freep h)) h = Ok (take_block nunits u p h)) \/
  Forall (fun x => snd x < nunits) R /\
  malloc_scan (length R + n) nunits (u_freep h) (hptr (um h) (u_freep h)) h =
    let* (p, h) := morecore nunits h in
    if p =? 0 then Ok (0, h) else malloc_scan n nunits p (hptr (um h) p) h.
Proof.
  intros [(L & E & _) Hc Hs [sf Hf] _ _] Hn. set (f := u_freep h) in *.
  assert (Hbase : fst_addr R 0 = base) by (by rewrite E). apply list_elem_of_split in Hf as (A & B & ->).
  pose proof (sorted_ne _ _ _ _ _ Hs) as [HA HB]%Forall_app. cbn [fst] in HA, HB.
  apply chain_app in Hc as (HcA & Hp & Hsz & HcB). cbn [fst_addr] in HcA. rewrite length_app. cbn [length].
  replace (length A + S (length B) + n)%nat with (length B + (length A + S n))%nat by lia. rewrite Hp.
  destruct (scan_seg B (length A + S n) nunits f h base HcB HB) as [(U & p & s & V & -> & Hle & ->)|[HallB ->]].
  { left. destruct U as [|[u su] U _] using rev_ind; [by exists A, f, sf, p, s, V|].
    rewrite last_addr_app. exists (A ++ (f, sf) :: U), u, su, p, s, V. split_and!; auto. by rewrite <- !app_assoc. }
  assert (Hb : base = fst_addr A f) by (destruct A as [|[]]; cbn in Hbase; done).
  destruct (scan_seg A (S n) nunits (last_addr B f) h f HcA HA) as [(U & p & s & V & EA & Hle & E2)|[HallA E2]];
    rewrite <- Hb in E2; rewrite E2.
  { left. subst A. destruct U as [|[u su] U _] using rev_ind; [injection E as -> -> _; lia|].
    rewrite last_addr_app. exists U, u, su, p, s, (V ++ (f, sf) :: B). split_and!; auto. by rewrite <- !app_assoc. }
  cbn [malloc_scan]. rewrite Hsz. fold f. rewrite Z.eqb_refl. destruct (Z.leb_spec nunits sf) as [Hle|Hlt].
  - left. destruct A as [|[u su] A _] using rev_ind; [injection E as -> -> _; lia|].
    rewrite last_addr_app. exists A, u, su, f, sf, B. split_and!; auto. by rewrite <- app_assoc.
  - right. split; [|done]. apply Forall_app. split; [done|]. by constructor.
Qed.

(** *** Blocks handed out *)

(** Bytes of the blocks, headers included, are kept. *)
Definition kept (AL : list block) (m m' : mem) : Prop := forall x b, x ∈ AL -> fst x <= b < bend x -> m' b = m b.

Lemma kept_trans AL m1 m2 m3 : kept AL m1 m2 -> kept AL m2 m3 -> kept AL m1 m3.
Proof. intros H1 H2 x b Hx Hb. rewrite (H2 x b Hx Hb). by apply (H1 x). Qed.

Lemma kept_held h h' R R' AL : held h R AL -> kept AL (um h) (um h') -> u_brk h <= u_brk h' -> (forall x y, x ∈ AL -> y ∈ R' -> disj x y) -> held h' R' AL.
Proof.
  intros [H1 H2 H3] Hk Hb Hd. split; [|done|done]. intros x Hx. destruct (H1 x Hx) as (Ha & Hs & He & Hh). split_and!; auto; [lia|].
  rewrite <- Hh. apply ld32_ext. intros b Hb'. apply (Hk x); [done|]. unfold bend. lia.
Qed.

(** What is apart from two blocks that touch is apart from their union. *)
Lemma disj_join x y l : disj x y -> (forall z, z ∈ l -> disj x z) -> forall z, z ∈ join y l -> disj x z.
Proof.
  intros Hy Hl z. destruct (join_cases y l) as [(q & l' & -> & E & ->)|[-> _]]; (intros [->|Hz]%elem_of_cons; [|apply Hl; set_solver]); [|done].
  specialize (Hl q ltac:(set_solver)). unfold disj, bend in *. cbn [fst snd] in *. lia.
Qed.

(** The block [(a, n)] taken out of the free block [(p, s)] after [u]. *)
Record taken (h h' : uheap) (R R' : list block) (u p s a n : Z) : Prop := {
  ta_ring : ring h' R';
  ta_brk : u_brk h' = u_brk h;
  ta_lo : p <= a;
  ta_end : a + 8 * n = p + 8 * s;
  ta_size : hsize (um h') a = n;
  ta_kept : forall b, ~ u <= b < u + 8 -> ~ p <= b < p + 8 * s -> um h' b = um h b;
  ta_disj : forall y, y ∈ R' -> disj (a, n) y;
  ta_apart : forall x, (forall y, y ∈ R -> disj x y) -> forall y, y ∈ R' -> disj x y
}.

(** The parts of a ring around two neighbours. *)
Lemma ring_around h R1 u su p s R2 : ring h (R1 ++ (u, su) :: (p, s) :: R2) ->
  (forall p' R2', Forall (fun x => 1 <= snd x) R2' -> exists L, R1 ++ (u, su) :: p' ++ R2' = (base, 0) :: L /\ (Forall (fun x => 1 <= snd x) p' -> Forall (fun x => 1 <= snd x) L)) /\
  Forall (fun x => 1 <= snd x) R2 /\ 1 <= s /\
  base <= u /\ u + 8 * Z.max 1 su < p /\ p + 8 * s <= u_brk h /\
  sorted (base - 1) R1 (u - 1) /\ 0 <= su /\ sorted (p + 8 * s) R2 (u_brk h) /\
  chain (um h) R1 u /\ hptr (um h) u = p /\ hsize (um h) u = su /\ hptr (um h) p = fst_addr R2 base /\ hsize (um h) p = s /\ chain (um h) R2 base.
Proof.
  intros [(L & E & HL) Hc Hs _ _ _]. pose proof (sorted_in _ _ _ (u, su) Hs ltac:(set_solver)) as (Hu & _). cbn [fst] in Hu.
  apply sorted_app in Hs as (Hs1 & Hsu & Hup & _ & Hs3). apply chain_app in Hc as (Hc1 & Hc2 & Hc3 & Hc4 & Hc5 & Hc6).
  assert (HL2 : 1 <= s /\ Forall (fun x => 1 <= snd x) R2).
  { destruct R1 as [|b0 R1]; [injection E as _ _ <-|injection E as _ <-]; rewrite ?Forall_app, !Forall_cons in HL; cbn [snd] in HL; tauto. }
  destruct HL2 as [Hs0 HR2]. pose proof (sorted_le _ _ _ Hs3). unfold bend in *. cbn [fst snd fst_addr] in *.
  split_and!; auto; try lia; [|eapply sorted_weaken; [|exact Hs3]; lia]. intros p' R2' HR2'. destruct R1 as [|b0 R1]; [injection E as -> -> E|injection E as -> E].
  - exists (p' ++ R2'). split; [done|]. intros. by apply Forall_app.
  - exists (R1 ++ (u, su) :: p' ++ R2'). split; [done|]. subst L. rewrite !Forall_app, !Forall_cons, !Forall_app in *. tauto.
Qed.

Lemma take_whole h R1 u su p s R2 : ring h (R1 ++ (u, su) :: (p, s) :: R2) ->
  taken h (mk_uheap (set_hptr (um h) u (hptr (um h) p)) u (u_brk h)) (R1 ++ (u, su) :: (p, s) :: R2) (R1 ++ (u, su) :: R2) u p s p s.
Proof.
  intros Hr. pose proof Hr as [_ _ _ _ H0 Hk].
  destruct (ring_around _ _ _ _ _ _ _ Hr) as (Hhd & HR2 & Hs0 & Hu & Hup & Hp & Hs1 & Hsu & Hs3 & Hc1 & Hc2 & Hc3 & Hc4 & Hc5 & Hc6).
  set (m' := set_hptr (um h) u (hptr (um h) p)). assert (Ho : only (um h) m' u) by (apply only_hptr, only_refl).
  split; cbn [um u_brk]; auto; try lia.
  - split; cbn [um u_freep u_brk]; auto.
    + destruct (Hhd [] R2 HR2) as (L & E & HL). exists L. split; [exact E | by apply HL].
    + apply chain_app. split; [apply (chain_only (um h) _ u); auto; by eapply sorted_far_l|]. split_and!.
      * unfold m'. rewrite hptr_set, Hc4. apply (fst_addr_range _ _ _ base Hs3); lia.
      * unfold m'. by rewrite hsize_set_hptr.
      * apply (chain_only (um h) _ u); auto. eapply sorted_far_r; [|exact Hs3]. lia.
    + apply sorted_app. split_and!; [done | done |]. eapply sorted_weaken; [|exact Hs3]. unfold bend. cbn [fst snd]. lia.
    + exists su. set_solver.
  - rewrite (hsize_only _ _ _ _ Ho) by (right; lia). done.
  - intros b Hb1 Hb2. apply Ho. lia.
  - intros y Hy. unfold disj, bend. cbn [fst snd]. apply elem_of_app in Hy as [Hy|Hy]; [|apply elem_of_cons in Hy as [->|Hy]].
    + apply (sorted_in _ _ _ _ Hs1) in Hy as (_ & _ & Hy). unfold bend in Hy. cbn [fst snd] in Hy. lia.
    + right. cbn [fst snd]. lia.
    + apply (sorted_in _ _ _ _ Hs3) in Hy as (Hy & _). lia.
  - intros x Hx y Hy. apply Hx. set_solver.
Qed.

Lemma take_tail h R1 u su p s R2 n : ring h (R1 ++ (u, su) :: (p, s) :: R2) -> 1 <= n < s ->
  taken h (mk_uheap (set_hsize (set_hsize (um h) p (s - n)) (p + 8 * (s - n)) n) u (u_brk h))
    (R1 ++ (u, su) :: (p, s) :: R2) (R1 ++ (u, su) :: (p, s - n) :: R2) u p s (p + 8 * (s - n)) n.
Proof.
  intros Hr Hn. pose proof Hr as [_ _ _ _ H0 Hk].
  destruct (ring_around _ _ _ _ _ _ _ Hr) as (Hhd & HR2 & Hs0 & Hu & Hup & Hp & Hs1 & Hsu & Hs3 & Hc1 & Hc2 & Hc3 & Hc4 & Hc5 & Hc6).
  set (a := p + 8 * (s - n)). set (m1 := set_hsize (um h) p (s - n)). set (m' := set_hsize m1 a n).
  assert (O1 : only (um h) m1 p) by (apply only_hsize, only_refl). assert (O2 : only m1 m' a) by (apply only_hsize, only_refl).
  assert (Hfar : far p a) by (left; unfold a; lia). unfold KERNBASE in Hk.
  split; cbn [um u_brk]; auto; try (unfold a; lia).
  - split; cbn [um u_freep u_brk]; auto.
    + destruct (Hhd [(p, s - n)] R2 HR2) as (L & E & HL). exists L. split; [exact E|]. apply HL. constructor; [cbn; lia | constructor].
    + apply chain_app. assert (Hlow : forall q l, sorted (base - 1) l (q - 1) -> q <= p -> chain (um h) l u -> chain m' l u).
      { intros q l Hl Hq Hcl. apply (chain_only m1 _ a); [done | |apply (chain_only (um h) _ p); auto]; apply (sorted_far_l (base - 1));
          eapply sorted_weaken_hi; [|exact Hl | |exact Hl]; unfold a; lia. }
      split; [apply (Hlow u); auto; lia|]. cbn [chain fst_addr].
      rewrite !(hptr_only _ _ _ _ O2), !(hsize_only _ _ _ _ O2), !(hptr_only _ _ _ u O1), !(hsize_only _ _ _ u O1) by (auto; left; unfold a; lia).
      unfold m1. rewrite hptr_set_hsize, hsize_set, u32_small by lia. split_and!; auto.
      apply (chain_only m1 _ a); [done | |apply (chain_only (um h) _ p); auto]; (eapply sorted_far_r; [|exact Hs3]; unfold a; lia).
    + apply sorted_app. split_and!; [done | done |]. unfold bend. cbn [sorted fst snd]. split_and!; [lia | lia |]. eapply sorted_weaken; [|exact Hs3]. unfold bend. cbn [fst snd]. lia.
    + exists su. set_solver.
  - unfold m'. rewrite hsize_set, u32_small by lia. done.
  - intros b Hb1 Hb2. rewrite O2, O1 by (unfold a; lia). done.
  - intros y Hy. unfold disj, bend, a. cbn [fst snd]. apply elem_of_app in Hy as [Hy|Hy]; [|apply elem_of_cons in Hy as [->|Hy]; [|apply elem_of_cons in Hy as [->|Hy]]].
    + apply (sorted_in _ _ _ _ Hs1) in Hy as (_ & _ & Hy). unfold bend in Hy. cbn [fst snd] in Hy. lia.
    + right. cbn [fst snd]. lia.
    + right. cbn [fst snd]. lia.
    + apply (sorted_in _ _ _ _ Hs3) in Hy as (Hy & _). lia.
  - intros x Hx y Hy. apply elem_of_app in Hy as [Hy|Hy]; [apply Hx; set_solver|].
    apply elem_of_cons in Hy as [->|Hy]; [apply Hx; set_solver|]. apply elem_of_cons in Hy as [->|Hy]; [|apply Hx; set_solver].
    specialize (Hx (p, s) ltac:(set_solver)). unfold disj, bend in *. cbn [fst snd] in *. lia.
Qed.

Lemma take_ring n h R1 u su p s R2 : ring h (R1 ++ (u, su) :: (p, s) :: R2) -> 1 <= n <= s ->
  exists a h' R', take_block n u p h = (a + 8, h') /\ taken h h' (R1 ++ (u, su) :: (p, s) :: R2) R' u p s a n.
Proof.
  intros Hr Hn. pose proof Hr as [_ _ _ _ H0 Hk]. unfold KERNBASE in Hk.
  destruct (ring_around _ _ _ _ _ _ _ Hr) as (_ & _ & Hs0 & Hu & Hup & Hp & _ & Hsu & _ & _ & _ & _ & _ & Hc5 & _).
  unfold take_block. rewrite Hc5. destruct (Z.eqb_spec s n) as [<-|Hne].
  - eexists _, _, _. split; [|by apply take_whole]. unfold hadd. rewrite u32_small by lia. done.
  - eexists _, _, _. split; [|apply (take_tail h R1 u su p s R2 n); [done | lia]].
    rewrite hsize_set, (u32_small (s - n)) by lia. unfold hadd. rewrite (u32_small (p + 8 * (s - n))) by lia. rewrite u32_small by lia. done.
Qed.

Lemma join_length x l : (length (join x l) <= S (length l))%nat.
Proof. destruct (join_cases x l) as [(y & l' & -> & _ & ->)|[-> _]]; cbn; lia. Qed.

Lemma join_size n x l : 0 <= snd x -> Forall (fun y => 0 <= snd y) l -> n <= snd x \/ Exists (fun y => n <= snd y) l -> Exists (fun y => n <= snd y) (join x l).
Proof.
  intros Hx Hl H. destruct (join_cases x l) as [(y & l' & -> & _ & ->)|[-> _]].
  - apply Forall_cons_1 in Hl as [Hy Hl]. rewrite Exists_cons in H. apply Exists_cons. cbn [snd]. destruct H as [H|[H|H]]; [left; lia | left; lia | by right].
  - by apply Exists_cons.
Qed.

(** Changes above the break do not touch the ring. *)
Lemma ring_grow h h' R : ring h R -> (forall x, x < u_brk h -> um h' x = um h x) -> u_freep h' = u_freep h -> u_brk h <= u_brk h' < KERNBASE -> ring h' R.
Proof.
  intros [Hhd Hc Hs Hf H0 Hk] Hm Hfp Hb. split; auto; [|by eapply sorted_weaken_hi; [|exact Hs]; lia | by rewrite Hfp | lia].
  assert (Hall : Forall (fun x => fst x + 8 <= u_brk h) R).
  { apply Forall_forall. intros x Hx. apply (sorted_in _ _ _ _ Hs) in Hx as (_ & _ & Hx). unfold bend in Hx. lia. }
  clear - Hc Hm Hall. induction R as [|[a s] R IH]; [done|]. apply Forall_cons_1 in Hall as [Ha Hall]. destruct Hc as (H1 & H2 & H3). cbn [fst] in Ha.
  cbn [chain]. rewrite <- H1, <- H2. split_and!; auto; apply ld32_ext; intros x Hx; apply Hm; lia.
Qed.

(** [morecore] fails without effect or adds a block that fits. *)
Lemma morecore_ring n h R AL : ring h R -> held h R AL -> 1 <= n -> 8 * n < 2 ^ 31 ->
  (morecore n h = Ok (0, h) /\ fst (sbrk (8 * Z.max 4096 n) h) = -1) \/
  exists h' R', morecore n h = Ok (u_freep h', h') /\ u_freep h' <> 0 /\ ring h' R' /\ held h' R' AL /\ kept AL (um h) (um h') /\
    (length R' <= S (length R))%nat /\ Exists (fun x => n <= snd x) R'.
Proof.
  intros Hr Hh Hn Hn'. pose proof Hr as [(L & ER & HL) _ Hs _ H0 Hk]. set (nu := Z.max 4096 n). assert (Hnu : 4096 <= nu /\ n <= nu /\ 8 * nu < 2 ^ 31) by lia.
  assert (E : (if n <? 4096 then 4096 else n) = nu) by (destruct (Z.ltb_spec n 4096); lia). unfold morecore. rewrite E.
  rewrite s32_small, (Z.mul_comm nu 8) by lia. unfold sbrk. destruct (Z.ltb_spec 0 (8 * nu)); [|lia]. set (b := u_brk h) in *.
  assert (Hu : u32 (b + 8 * nu) = b + 8 * nu) by (apply u32_small; unfold KERNBASE in Hk; lia). rewrite Hu.
  destruct (Z.ltb_spec (b + 8 * nu) KERNBASE) as [Hlim|]; [|left; done]. destruct (grow b (8 * nu)); [cbn [andb]|left; done]. right.
  destruct (Z.eqb_spec b (-1)); [lia|]. set (m0 := mfill _ _ _ _). set (h1 := set_um _ _).
  assert (Hpg : b <= PGROUNDUP b) by (apply PGROUNDUP_spec; unfold KERNBASE, PGSIZE in *; lia).
  assert (Hm : forall x, x < b -> um h1 x = um h x).
  { intros x Hx. unfold h1, m0. cbn [um set_um]. unfold set_hsize. rewrite st32_other, mfill_out by lia. done. }
  assert (Hr1 : ring h1 R) by (apply (ring_grow h); auto; cbn; lia).
  assert (Hin : forall y, y ∈ R -> bend y <= b) by (intros y Hy; by apply (sorted_in _ _ _ _ Hs) in Hy as (_ & _ & Hy)).
  destruct (free_ring h1 R b nu Hr1) as (R1 & p & sp & R2 & h' & -> & Hfree & Hr' & Hfp & Hbrk & Hkept); auto; try (cbn; lia).
  { unfold h1. cbn [um set_um]. rewrite hsize_set, u32_small by lia. done. }
  { intros y Hy. apply Hin in Hy. by right. }
  assert (Ha : hadd b 1 = b + 8) by (unfold hadd, KERNBASE in *; rewrite u32_small; lia). rewrite Ha, Hfree. cbn [rbind].
  pose proof (sorted_in _ _ _ (p, sp) Hs ltac:(set_solver)) as (Hp & _). cbn [fst] in Hp.
  assert (Hk2 : kept AL (um h) (um h')).
  { intros x y Hx Hy. destruct (he_each _ _ _ Hh x Hx) as (_ & _ & He & _). fold b in He. rewrite <- Hm by lia.
    pose proof (he_free _ _ _ Hh x (p, sp) Hx ltac:(set_solver)) as Hd. unfold disj, bend in *. cbn [fst snd] in *. apply Hkept; lia. }
  assert (Hpos : Forall (fun y => 0 <= snd y) (R1 ++ (p, sp) :: R2)).
  { rewrite ER. constructor; [done|]. eapply Forall_impl; [exact HL|]. cbn. lia. }
  rewrite Forall_app, Forall_cons in Hpos. destruct Hpos as (_ & Hsp & Hpos). cbn [snd] in Hsp.
  exists h', (R1 ++ join (p, sp) (join (b, nu) R2)). split_and!; auto; [lia | | |].
  - apply (kept_held h h' (R1 ++ (p, sp) :: R2)); auto; [rewrite Hbrk; cbn; lia|]. intros x y Hx [Hy|Hy]%elem_of_app; [apply (he_free _ _ _ Hh); set_solver|].
    revert Hy. apply disj_join; [apply (he_free _ _ _ Hh); set_solver|]. apply disj_join; [|intros; apply (he_free _ _ _ Hh); set_solver].
    left. cbn [fst]. by apply (he_each _ _ _ Hh).
  - rewrite !length_app. cbn [length]. pose proof (join_length (p, sp) (join (b, nu) R2)). pose proof (join_length (b, nu) R2). lia.
  - apply Exists_app. right. apply join_size; [done | |right; apply join_size; [cbn; lia | done | left; cbn; lia]].
    apply join_pos; [lia | cbn; lia | done].
Qed.

(** ** The promises of the allocator *)

(** [AL] are the blocks, header address and size in units, the program holds. *)
Definition heap_ok (h : uheap) (AL : list block) : Prop :=
  (u_freep h = 0 /\ AL = [] /\ 0 < base /\ base + 8 < u_brk h < KERNBASE) \/ exists R, ring h R /\ held h R AL.

Lemma nunits_range n : 0 <= n <= 2 ^ 31 - 16 -> 1 <= nunits_of n /\ 8 * nunits_of n < 2 ^ 31 /\ n <= 8 * (nunits_of n - 1) < n + 8.
Proof. intros Hn. unfold nunits_of. rewrite (u32_small (n + 8 - 1)) by lia. rewrite u32_small; zdiv. Qed.

(** The first call makes the ring of [base] alone. *)
Lemma first_ring h : 0 < base -> base + 8 < u_brk h < KERNBASE ->
  ring (mk_uheap (set_hsize (set_hptr (um h) base base) base 0) base (u_brk h)) [(base, 0)].
Proof.
  intros H0 Hk. split; cbn [um u_freep u_brk]; auto.
  - by exists [].
  - cbn [chain fst_addr]. unfold KERNBASE in *. rewrite hptr_set_hsize, hptr_set, hsize_set, u32_small by lia. done.
  - cbn [sorted]. unfold bend. cbn. lia.
  - exists 0. set_solver.
Qed.

(** Taking a block keeps the blocks held before and adds one apart from them. *)
Lemma take_held n h R1 u su p s R2 AL : ring h (R1 ++ (u, su) :: (p, s) :: R2) -> held h (R1 ++ (u, su) :: (p, s) :: R2) AL -> 1 <= n <= s ->
  exists a h' R', take_block n u p h = (a + 8, h') /\ ring h' R' /\ held h' R' ((a, n) :: AL) /\ kept AL (um h) (um h') /\ base + 8 < a /\ u_brk h' = u_brk h.
Proof.
  intros Hr Hh Hn. destruct (take_ring n h R1 u su p s R2 Hr Hn) as (a & h' & R' & E & [Hr' Hb Hlo Hend Hsz Hk Hd Hap]).
  destruct (ring_around _ _ _ _ _ _ _ Hr) as (_ & _ & Hs0 & Hu & Hup & Hp & _).
  assert (Hkept : kept AL (um h) (um h')).
  { intros x b Hx Hb'. pose proof (he_free _ _ _ Hh x (u, su) Hx ltac:(set_solver)) as D1. pose proof (he_free _ _ _ Hh x (p, s) Hx ltac:(set_solver)) as D2.
    unfold disj, bend in *. cbn [fst snd] in *. apply Hk; lia. }
  assert (Hh' : held h' R' AL).
  { apply (kept_held h h' _ R' AL Hh); auto; [lia|]. intros x y Hx. apply Hap. intros z Hz. by apply (he_free _ _ _ Hh). }
  assert (Hnew : forall x, x ∈ AL -> disj (a, n) x).
  { intros x Hx. pose proof (he_free _ _ _ Hh x (p, s) Hx ltac:(set_solver)) as D. unfold disj, bend in *. cbn [fst snd] in *. lia. }
  exists a, h', R'. split_and!; auto; [|lia]. destruct Hh' as [H1 H2 H3]. split.
  - intros x [->|Hx]%elem_of_cons; [|auto]. unfold bend. cbn [fst snd]. split_and!; auto; lia.
  - intros x y [->|Hx]%elem_of_cons; auto.
  - intros [|i] [|j] x y Hi Hj Hij; cbn [lookup list_lookup] in Hi, Hj; [done | | |eapply H3; eauto].
    + injection Hi as <-. apply Hnew. by eapply list_elem_of_lookup_2.
    + injection Hj as <-. unfold disj. assert (disj (a, n) x) as D by (apply Hnew; by eapply list_elem_of_lookup_2). unfold disj in D. tauto.
Qed.

(** The scan with enough fuel, from a ring that may have to grow. *)
Lemma scan_ok k n h R AL : ring h R -> held h R AL -> 1 <= n -> 8 * n < 2 ^ 31 -> (2 * length R + 1 <= k)%nat ->
  exists p h', malloc_scan k n (u_freep h) (hptr (um h) (u_freep h)) h = Ok (p, h') /\ kept AL (um h) (um h') /\
    ((p = 0 /\ h' = h /\ fst (sbrk (8 * Z.max 4096 n) h) = -1) \/
     (base + 16 < p /\ exists R', ring h' R' /\ held h' R' ((p - 8, n) :: AL))).
Proof.
  intros Hr Hh Hn Hn' Hk. replace k with (length R + (k - length R))%nat by lia.
  assert (Htake : forall h R1 u su p s R2, ring h (R1 ++ (u, su) :: (p, s) :: R2) -> held h (R1 ++ (u, su) :: (p, s) :: R2) AL -> n <= s ->
    exists r h', take_block n u p h = (r, h') /\ kept AL (um h) (um h') /\ base + 16 < r /\ exists R', ring h' R' /\ held h' R' ((r - 8, n) :: AL)).
  { intros h0 R1 u su p s R2 Hr0 Hh0 Hs. destruct (take_held n h0 R1 u su p s R2 AL Hr0 Hh0 ltac:(lia)) as (a & h' & R' & E & H1 & H2 & H3 & H4 & _).
    exists (a + 8), h'. split_and!; auto; [lia|]. exists R'. replace (a + 8 - 8) with a by lia. auto. }
  destruct (scan_ring (k - length R) n h R Hr Hn) as [(R1 & u & su & p & s & R2 & -> & Hs & ->)|[Hnone ->]].
  - destruct (Htake _ _ _ _ _ _ _ Hr Hh Hs) as (r & h' & -> & H1 & H2 & H3). exists r, h'. auto.
  - destruct (morecore_ring n h R AL Hr Hh Hn Hn') as [[-> Hsb]|(h1 & R' & -> & Hp & Hr1 & Hh1 & Hk1 & Hlen & Hex)]; cbn [rbind].
    + rewrite Z.eqb_refl. exists 0, h. split_and!; auto. by intros ? ? ? ?.
    + destruct (Z.eqb_spec (u_freep h1) 0); [done|]. replace (k - length R)%nat with (length R' + (k - length R - length R'))%nat by lia.
      destruct (scan_ring (k - length R - length R') n h1 R' Hr1 Hn) as [(R1 & u & su & p & s & R2 & -> & Hs & ->)|[Hnone' _]].
      * destruct (Htake _ _ _ _ _ _ _ Hr1 Hh1 Hs) as (r & h' & -> & H1 & H2 & H3). exists r, h'. split_and!; auto. by eapply kept_trans.
      * exfalso. apply Exists_exists in Hex as (x & Hx & Hsx). rewrite Forall_forall in Hnone'. specialize (Hnone' x Hx). lia.
Qed.

Lemma malloc_ok nbytes h AL : heap_ok h AL -> 0 <= nbytes <= 2 ^ 31 - 16 ->
  exists p h', malloc nbytes h = Ok (p, h') /\ kept AL (um h) (um h') /\
    ((p = 0 /\ heap_ok h' AL /\ fst (sbrk (8 * Z.max 4096 (nunits_of nbytes)) h) = -1) \/
     (base + 16 < p /\ heap_ok h' ((p - 8, nunits_of nbytes) :: AL))).
Proof.
  intros Hok Hn. destruct (nunits_range nbytes Hn) as (Hn1 & Hn2 & _). unfold malloc. set (h0 := if u_freep h =? 0 then _ else _).
  assert (Hfuel : forall R, ring h0 R -> (2 * length R + 1 <= 2 * walk_fuel h0 + 2)%nat).
  { intros R [_ _ Hs _ _ _]. pose proof (sorted_length _ _ _ Hs). unfold walk_fuel. zdiv. }
  assert (Hstart : exists R, ring h0 R /\ held h0 R AL /\ kept AL (um h) (um h0) /\ u_brk h0 = u_brk h).
  { destruct Hok as [(Hf & -> & H0 & Hk)|(R & Hr & Hh)].
    - unfold h0. rewrite Hf. cbn [Z.eqb]. exists [(base, 0)]. split_and!; [by apply first_ring | | by intros ? ? []%elem_of_nil | done].
      split; [by intros ? ?%elem_of_nil | by intros ? ? ?%elem_of_nil | by intros].
    - unfold h0. assert (Hf : u_freep h <> 0).
      { destruct Hr as [_ _ Hs [s Hf] H0 _]. apply (sorted_in _ _ _ _ Hs) in Hf as (Hf & _). cbn [fst] in Hf. lia. }
      apply Z.eqb_neq in Hf. rewrite Hf. exists R. split_and!; auto. by intros ? ? ? ?. }
  destruct Hstart as (R & Hr & Hh & Hk0 & Hb).
  destruct (scan_ok (2 * walk_fuel h0 + 2) (nunits_of nbytes) h0 R AL Hr Hh Hn1 Hn2 (Hfuel R Hr)) as (p & h' & -> & Hk1 & H).
  exists p, h'. split_and!; [done | by eapply kept_trans |]. destruct H as [(-> & -> & Hsb)|(Hp & R' & Hr' & Hh')].
  - left. split_and!; [done | right; by exists R |]. revert Hsb. unfold sbrk. rewrite Hb. repeat case_match; cbn; auto.
  - right. split; [done|]. right. by exists R'.
Qed.

Lemma free_ok h AL i a n : heap_ok h AL -> AL !! i = Some (a, n) ->
  exists h', free (a + 8) h = Ok h' /\ kept (delete i AL) (um h) (um h') /\ heap_ok h' (delete i AL).
Proof.
  intros [(_ & -> & _)|(R & Hr & Hh)] Hi; [done|]. pose proof (list_elem_of_lookup_2 _ _ _ Hi) as Hin.
  destruct (he_each _ _ _ Hh _ Hin) as (Ha & Hn & He & Hsz). cbn [fst snd] in *. unfold bend in He. cbn [fst snd] in He.
  destruct (free_ring h R a n Hr Ha Hn Hsz ltac:(lia)) as (R1 & p & sp & R2 & h' & -> & Hfree & Hr' & _ & Hb & Hk).
  { intros y Hy. by apply (he_free _ _ _ Hh). }
  assert (Hother : forall x, x ∈ delete i AL -> exists j, j <> i /\ AL !! j = Some x).
  { intros x (j & Hj)%list_elem_of_lookup_1. destruct (Nat.lt_ge_cases j i) as [Hlt|Hge].
    - exists j. rewrite list_lookup_delete_lt in Hj by done. split; [lia | done].
    - exists (S j). rewrite list_lookup_delete_ge in Hj by done. split; [lia | done]. }
  assert (Hsub : forall x, x ∈ delete i AL -> x ∈ AL /\ disj x (a, n)).
  { intros x (j & Hj & Hx)%Hother. split; [by eapply list_elem_of_lookup_2 | by apply (he_pair _ _ _ Hh j i)]. }
  assert (Hkept : kept (delete i AL) (um h) (um h')).
  { intros x b (Hx & D1)%Hsub Hb'. pose proof (he_free _ _ _ Hh x (p, sp) Hx ltac:(set_solver)) as D2.
    destruct (he_each _ _ _ Hh _ Hx) as (_ & Hx1 & _). unfold disj, bend in *. cbn [fst snd] in *. apply Hk; lia. }
  exists h'. split_and!; auto. right. exists (R1 ++ join (p, sp) (join (a, n) R2)). split; [done|].
  assert (Hh2 : held h (R1 ++ (p, sp) :: R2) (delete i AL)).
  { destruct Hh as [H1 H2 H3]. split.
    - intros x [Hx _]%Hsub. auto.
    - intros x y [Hx _]%Hsub. auto.
    - intros j j' x y Hj Hj' Hne. rewrite list_lookup_delete in Hj, Hj'. destruct (decide (j < i)%nat), (decide (j' < i)%nat); eapply H3; eauto; lia. }
  apply (kept_held h h' _ _ _ Hh2); auto; [lia|].
  intros x y [Hx D]%Hsub [Hy|Hy]%elem_of_app; [apply (he_free _ _ _ Hh); set_solver|]. revert Hy.
  apply disj_join; [apply (he_free _ _ _ Hh); set_solver|]. apply disj_join; [done|]. intros. apply (he_free _ _ _ Hh); set_solver.
Qed.

(** The sizes malloc can serve: from 2^31 - 15 on the bytes of [nunits] no
    longer fit in the int that [sbrk] takes, until the count wraps to 1. *)
Definition size_ok (n : Z) : Prop := 0 <= n <= 2 ^ 31 - 16 \/ 2 ^ 32 - 7 <= n < 2 ^ 32.

(** The seven largest sizes are served as 0 is. *)
Lemma nunits_wrap n : 2 ^ 32 - 7 <= n < 2 ^ 32 -> nunits_of n = 1.
Proof.
  intros Hn. unfold nunits_of. assert (u32 (n + 8 - 1) = n + 7 - 2 ^ 32) as ->; [|by rewrite Z.div_small by lia].
  unfold u32. rewrite <- (Z_mod_plus_full _ (-1)). rewrite Z.mod_small; lia.
Qed.

Lemma malloc_wrap n h : 2 ^ 32 - 7 <= n < 2 ^ 32 -> malloc n h = malloc 0 h.
Proof. intros Hn. unfold malloc. by rewrite (nunits_wrap n Hn). Qed.

Lemma malloc_served n h AL : heap_ok h AL -> size_ok n -> exists p h', malloc n h = Ok (p, h') /\ kept AL (um h) (um h') /\ ((p = 0 /\ heap_ok h' AL) \/ (base + 16 < p /\ heap_ok h' ((p - 8, nunits_of n) :: AL))).
Proof.
  intros Hok [Hn|Hn].
  - destruct (malloc_ok n h AL Hok Hn) as (p & h' & E & Hk & H). exists p, h'. tauto.
  - destruct (malloc_ok 0 h AL Hok ltac:(lia)) as (p & h' & E & Hk & H). exists p, h'. rewrite malloc_wrap by done.
    rewrite (nunits_wrap n Hn). change (nunits_of 0) with 1 in H. tauto.
Qed.

(** For every other size [sbrk] is asked for a negative number of bytes, or for
    none: it reports success at the old break and the memory has not grown. *)
Lemma sbrk_huge n h : 2 ^ 31 - 16 < n < 2 ^ 32 - 7 -> 0 < u_brk h < KERNBASE ->
  let (p, h') := sbrk (s32 (nunits_of n * 8)) h in p = -1 \/ p = u_brk h /\ u_brk h' <= u_brk h.
Proof.
  intros Hn Hb. assert (E : exists k, nunits_of n = k /\ 2 ^ 31 <= k * 8 <= 2 ^ 32).
  { eexists. split; [done|]. unfold nunits_of. rewrite (u32_small (n + 8 - 1)) by lia. rewrite u32_small; zdiv. }
  destruct E as (k & -> & Hk). assert (Hs : s32 (k * 8) = k * 8 - 2 ^ 32).
  { unfold s32. destruct (Z.eq_dec (k * 8) (2 ^ 32)) as [->|Hne]; [by vm_compute|]. rewrite u32_small by lia. destruct (Z.ltb_spec (k * 8) (2 ^ 31)); lia. }
  unfold sbrk. rewrite Hs. destruct (Z.ltb_spec 0 (k * 8 - 2 ^ 32)); [lia|]. destruct (Z.ltb_spec (k * 8 - 2 ^ 32) 0); [|right; split; [done | lia]].
  destruct (Z.leb_spec (u_brk h) (u32 (u_brk h + (k * 8 - 2 ^ 32)))); [right; split; [done | lia]|].
  destruct (_ =? 0); [by left|]. right. split; [done|]. cbn [u_brk]. lia.
Qed.

(** What a program may do: allocate, free what it holds, write to what it holds. *)
Inductive ustep : uheap * list block -> uheap * list block -> Prop :=
| us_malloc h AL n p h' : size_ok n -> malloc n h = Ok (p, h') ->
    ustep (h, AL) (h', if p =? 0 then AL else (p - 8, nunits_of n) :: AL)
| us_free h AL i x h' : AL !! i = Some x -> free (fst x + 8) h = Ok h' -> ustep (h, AL) (h', delete i AL)
| us_store h AL x b v : x ∈ AL -> fst x + 8 <= b < bend x -> ustep (h, AL) (set_um h (mset (um h) b v), AL).

(** A store into a block's payload is none of the allocator's business. *)
Lemma store_ok h AL x b v : heap_ok h AL -> x ∈ AL -> fst x + 8 <= b < bend x -> heap_ok (set_um h (mset (um h) b v)) AL.
Proof.
  intros [(_ & -> & _)|(R & [Hhd Hc Hs Hf H0 Hk] & Hh)] Hx Hb; [by apply elem_of_nil in Hx|]. right. exists R.
  assert (Hm : forall a, (a + 8 <= fst x \/ bend x <= a \/ a = fst x) -> hptr (mset (um h) b v) a = hptr (um h) a /\ hsize (mset (um h) b v) a = hsize (um h) a).
  { intros a Ha. split; apply ld32_ext; intros y Hy; apply mset_ne; lia. }
  split; [split; auto; cbn [um set_um]|].
  - assert (Hall : Forall (fun y => fst y + 8 <= fst x \/ bend x <= fst y) R).
    { apply Forall_forall. intros y Hy. destruct (he_free _ _ _ Hh x y Hx Hy) as [D|D]; unfold bend in *; lia. }
    clear - Hc Hall Hm. induction R as [|[a s] R IH]; [done|]. apply Forall_cons_1 in Hall as [Ha Hall]. cbn [fst] in Ha.
    destruct Hc as (H1 & H2 & H3), (Hm a ltac:(lia)) as (E1 & E2). cbn [chain]. rewrite E1, E2. auto.
  - pose proof (he_each _ _ _ Hh) as Heach. destruct Hh as [H1 H2 H3]. split; auto. intros y Hy. destruct (H1 y Hy) as (Ha & Hn & He & Hsz).
    split_and!; auto. cbn [um set_um]. rewrite <- Hsz. apply Hm.
    apply list_elem_of_lookup_1 in Hx as (i & Hx), Hy as (j & Hy). destruct (Nat.eq_dec i j) as [->|Hne]; [right; right; congruence|].
    destruct (H3 i j x y Hx Hy Hne) as [D|D]; unfold bend in *; lia.
Qed.

Lemma ustep_ok s s' : ustep s s' -> heap_ok (fst s) (snd s) -> heap_ok (fst s') (snd s').
Proof.
  intros [h AL n p h' Hn E|h AL i [a n] h' Hi E|h AL x b v Hx Hb] Hok; cbn [fst snd] in *.
  - destruct (malloc_served n h AL Hok Hn) as (p0 & h0 & E0 & _ & H). rewrite E0 in E. injection E as -> ->.
    destruct H as [(-> & H)|[Hp H]]; [done|]. destruct (Z.eqb_spec p 0); [|done]. subst p.
    destruct Hok as [(_ & _ & H0 & _)|(R & [_ _ _ _ H0 _] & _)]; lia.
  - destruct (free_ok h AL i a n Hok Hi) as (h0 & E0 & _ & H). rewrite E0 in E. by injection E as ->.
  - by apply (store_ok _ _ x).
Qed.

(** [malloc] keeps its promise.  With any blocks held, for any size that leaves
    the arithmetic below 2^31 it completes and every byte of every block held
    keeps its value.  It returns 0 only when the system refuses more memory;
    otherwise the new block has room for the bytes asked for, less than a
    header more, and shares no byte with a block held or with the process's
    other memory. *)
Theorem malloc_spec nbytes h AL : heap_ok h AL -> 0 <= nbytes <= 2 ^ 31 - 16 ->
  exists p h', malloc nbytes h = Ok (p, h') /\ (forall x b, x ∈ AL -> fst x <= b < bend x -> um h' b = um h b) /\
    ((p = 0 /\ fst (sbrk (8 * Z.max 4096 (nunits_of nbytes)) h) = -1) \/
     (base + 16 < p /\ p + nbytes <= p - 8 + 8 * nunits_of nbytes < p + nbytes + 8 /\ p - 8 + 8 * nunits_of nbytes <= u_brk h' /\
      (forall x, x ∈ AL -> disj (p - 8, nunits_of nbytes) x) /\ heap_ok h' ((p - 8, nunits_of nbytes) :: AL))).
Proof.
  intros Hok Hn. destruct (nunits_range nbytes Hn) as (Hn1 & _ & Hn2).
  destruct (malloc_ok nbytes h AL Hok Hn) as (p & h' & E & Hk & H). exists p, h'. split_and!; auto.
  destruct H as [(-> & _ & H)|[Hp H]]; [by left|]. right. destruct H as [(_ & [=] & _)|(R & Hr & Hh)].
  destruct (he_each _ _ _ Hh (p - 8, nunits_of nbytes) ltac:(left)) as (_ & _ & He & _). unfold bend in He. cbn [fst snd] in He.
  split_and!; auto; try lia; [|right; by exists R].
  intros x (j & Hj)%list_elem_of_lookup_1. by apply (he_pair _ _ _ Hh 0%nat (S j)).
Qed.

(** C17: nothing a program does with its own blocks breaks the heap.  After any
    sequence of [malloc], [free] of a block held and stores into blocks held,
    the blocks held are pairwise disjoint and inside the process's memory, the
    next [malloc] and the [free] of any block held complete, and neither of
    them changes a byte of the other blocks.  All of this is for requests of at
    most 2^31 - 16 bytes, or of the seven largest sizes, which malloc takes for
    0.  The limit is the code's: for every other size [morecore] passes [sbrk]
    a negative number, or 0, and [sbrk] fails or returns the old break without
    having added memory, so the header that [morecore] writes there is outside
    the process. *)
Theorem allocator_safe h0 h AL : heap_ok h0 [] -> rtc ustep (h0, []) (h, AL) ->
  (forall i j x y, AL !! i = Some x -> AL !! j = Some y -> i <> j -> disj x y) /\
  (forall x, x ∈ AL -> base + 8 < fst x /\ bend x <= u_brk h) /\
  (forall n, size_ok n -> exists p h', malloc n h = Ok (p, h') /\ kept AL (um h) (um h')) /\
  (forall i x, AL !! i = Some x -> exists h', free (fst x + 8) h = Ok h' /\ kept (delete i AL) (um h) (um h')) /\
  (forall n, 0 <= n < 2 ^ 32 -> ~ size_ok n -> let (p, h') := sbrk (s32 (nunits_of n * 8)) h in p = -1 \/ p = u_brk h /\ u_brk h' <= u_brk h).
Proof.
  intros H0 Hs. assert (Hok : heap_ok h AL).
  { change h with (fst (h, AL)). change AL with (snd (h, AL)) at 2. remember (h0, []) as s0 eqn:E0. assert (Hs0 : heap_ok (fst s0) (snd s0)) by (by subst s0).
    clear E0 H0. induction Hs; eauto using ustep_ok. }
  split_and!.
  - destruct Hok as [(_ & -> & _)|(R & _ & Hh)]; [done | apply Hh].
  - destruct Hok as [(_ & -> & _)|(R & _ & Hh)]; [by intros x ?%elem_of_nil|]. intros x Hx. apply (he_each _ _ _ Hh) in Hx. tauto.
  - intros n Hn. destruct (malloc_served n h AL Hok Hn) as (p & h' & E & Hk & _). eauto.
  - intros i [a n] Hi. destruct (free_ok h AL i a n Hok Hi) as (h' & E & Hk & _). eauto.
  - intros n Hn Hns. unfold size_ok in Hns. apply sbrk_huge; [lia|]. destruct Hok as [(_ & _ & ? & ?)|(R & [_ _ _ _ ? ?] & _)]; lia.
Qed.

(** Sizes near 2^32 wrap.  Asked for one of the seven largest sizes, the unit
    count overflows to 1 and [malloc] hands out a block without a single byte
    of payload. *)
Theorem malloc_wraps nbytes h AL : heap_ok h AL -> 2 ^ 32 - 7 <= nbytes < 2 ^ 32 ->
  exists p h', malloc nbytes h = Ok (p, h') /\ ((p = 0 /\ fst (sbrk 32768 h) = -1) \/ (p <> 0 /\ heap_ok h' ((p - 8, 1) :: AL) /\ bend (p - 8, 1) = p)).
Proof.
  intros Hok Hn. destruct (malloc_ok 0 h AL Hok ltac:(lia)) as (p & h' & E1 & _ & H). exists p, h'. rewrite malloc_wrap by done. split; [done|].
  destruct H as [(-> & _ & H)|[Hp H]]; [by left|]. right. change (nunits_of 0) with 1 in H. split_and!; auto; [|unfold bend; cbn; lia].
  destruct Hok as [(_ & _ & H0 & _)|(R & [_ _ _ _ H0 _] & _)]; lia.
Qed.
End umalloc.

(** A process of 8 KB whose [base] is at 64. *)
Definition wit_uheap : uheap := mk_uheap (fun _ => 0) 0 8192.

Lemma wit_uheap_ok : heap_ok 64 wit_uheap [].
Proof. left. split_and!; done. Qed.

Lemma malloc_spec_witness : exists p h', malloc 64 (fun _ _ => true) 100 wit_uheap = Ok (p, h') /\ (p = 0 \/ p + 100 <= u_brk h').
Proof.
  destruct (malloc_spec 64 (fun _ _ => true) 100 wit_uheap [] wit_uheap_ok ltac:(lia)) as (p & h' & E & _ & H). exists p, h'. split; [exact E|].
  destruct H as [[H _]|(_ & H1 & H2 & _)]; [by left | right; lia].
Defined.

Lemma allocator_safe_witness : exists p h', malloc 64 (fun _ _ => true) 10 wit_uheap = Ok (p, h').
Proof.
  destruct (allocator_safe 64 (fun _ _ => true) wit_uheap wit_uheap [] wit_uheap_ok (rtc_refl _ _)) as (_ & _ & H & _).
  destruct (H 10 ltac:(left; lia)) as (p & h' & E & _). exists p, h'. exact E.
Defined.

Lemma malloc_wraps_witness : exists p h', malloc 64 (fun _ _ => true) (2 ^ 32 - 1) wit_uheap = Ok (p, h') /\ (p = 0 \/ bend (p - 8, 1) = p).
Proof.
  destruct (malloc_wraps 64 (fun _ _ => true) (2 ^ 32 - 1) wit_uheap [] wit_uheap_ok ltac:(lia)) as (p & h' & E & H). exists p, h'. split; [exact E|].
  destruct H as [[H _]|(_ & _ & H)]; [by left | by right].
Defined.

(** Three blocks, freed in the order that merges on both sides: the ring is one block again. *)
Example malloc_coalesces :
  (let* (p, h) := malloc 64 (fun _ _ => true) 100 wit_uheap in
   let* (q, h) := malloc 64 (fun _ _ => true) 20 h in
   let* (r, h) := malloc 64 (fun _ _ => true) 8 h in
   let* h := free 64 p h in
   let* h := free 64 r h in
   let* h := free 64 q h in
   Ok (p, q, r, hptr (um h) 64, hptr (um h) 8192, hsize (um h) 8192)) =
  Ok (8192 + 8 * 4082 + 8, 8192 + 8 * 4078 + 8, 8192 + 8 * 4076 + 8, 8192, 64, 4096).
Proof. vm_compute. reflexivity. Qed.
