(* ===== verification/Cron.v ===== *)
(** * The cron daemon (src/cron.c)

    Strings are lists of characters without the NUL, file contents lists of
    bytes.  A job line is cut at its blanks, five fields become lists of values
    and the rest is the command; a pass of the main loop runs the commands whose
    lists contain the current time.  Where the C code reads an array element it
    never set, or stores past the end of one, the model stops with a [Panic].
    The file's bytes are taken as read (the accumulation of several reads in
    [read_file] depends on the bytes behind a [malloc]ed block).  [malloc] is
    taken to succeed.  [fork] fails or succeeds as a parameter says, which sees
    how many children cron has: it never waits for any. *)

From S2P Require Import Prelude Printf Syscall.

Definition BLANK : Z := 32.
Definition DASH : Z := 45.
Definition HASH : Z := 35.
Definition LF : Z := 10.

(** "jan", ..., "dec" and "sun", ..., "sat" *)
Definition months : list (list Z) :=
  [[106; 97; 110]; [102; 101; 98]; [109; 97; 114]; [97; 112; 114]; [109; 97; 121]; [106; 117; 110];
   [106; 117; 108]; [97; 117; 103]; [115; 101; 112]; [111; 99; 116]; [110; 111; 118]; [100; 101; 99]].
Definition days : list (list Z) :=
  [[115; 117; 110]; [109; 111; 110]; [116; 117; 101]; [119; 101; 100]; [116; 104; 117]; [102; 114; 105]; [115; 97; 116]].
(** "123456789" *)
Definition NUMBERS : list Z := [49; 50; 51; 52; 53; 54; 55; 56; 57].

Definition is_digit (testchar : Z) : Z := if existsb (Z.eqb testchar) NUMBERS then 1 else 0.

(** The place of a name in a table, counted from [i]. *)
Fixpoint find_name (names : list (list Z)) (s : list Z) (i : Z) : option Z :=
  match names with
  | [] => None
  | n :: names' => if bool_decide (n = s) then Some i else find_name names' s (i + 1)
  end.

Definition day_to_int (day : list Z) : Z := match find_name days day 0 with Some i => i | None => -1 end.
Definition month_to_int (month : list Z) : Z := match find_name months month 0 with Some i => i + 1 | None => -1 end.

Definition int_to_time (r : rtcdate) (i : nat) : Z :=
  match i with
  | 0%nat => rd_minute r
  | 1%nat => rd_hour r
  | 2%nat => rd_day r
  | 3%nat => rd_month r
  | 4%nat => rd_year r
  | _ => -1
  end.

(** The parameters of a line: the pieces between the blanks. *)
Fixpoint params (l : list Z) : list (list Z) :=
  match l with
  | [] => [[]]
  | c :: l' =>
      if c =? BLANK then [] :: params l'
      else match params l' with [] => [[c]] | p :: ps => (c :: p) :: ps end
  end.

(** [s[0]] of a C string. *)
Definition first_char (s : list Z) : Z := match s with [] => 0 | c :: _ => c end.

(** A name or a number of field [i], decided by the first character of [key]. *)
Definition cron_value (i : nat) (key s : list Z) : Z :=
  if ((i =? 3)%nat || (i =? 4)%nat) && negb (is_digit (first_char key) =? 1) then
    if (i =? 3)%nat then month_to_int s else day_to_int s
  else atoi_s s.

(** [for (k = start; k <= end; k++) run_when_matched[l++] = k;] *)
Definition cron_range (start last : Z) : res (list Z) :=
  if 60 <? last - start + 1 then Panic "run_when_matched overrun"
  else Ok (map (fun j => start + Z.of_nat j) (seq 0 (Z.to_nat (last - start + 1)))).

(** The loop over the characters of a field: [pre] is what it has passed; the last dash decides. *)
Fixpoint cron_scan (i : nat) (pre s : list Z) (acc : option (list Z)) : res (option (list Z)) :=
  match s with
  | [] => Ok acc
  | c :: s' =>
      if c =? DASH then
        let* l := cron_range (cron_value i pre pre) (cron_value i pre s') in
        cron_scan i (pre ++ [c]) s' (Some l)
      else cron_scan i (pre ++ [c]) s' acc
  end.

(** The first [size] elements of [run_when_matched]. *)
Definition cron_field (i : nat) (s : list Z) : res (list Z) :=
  if bool_decide (s = [42]) then Ok [-1]
  else
    let* o := cron_scan i [] s None in
    Ok (match o with Some l => l | None => [cron_value i s s] end).

Definition get_cron_details (line : list Z) : res (list (list Z) * list (list Z)) :=
  if negb (first_char line =? HASH) && (3 <? Z.of_nat (length line)) then
    match params line with
    | p0 :: p1 :: p2 :: p3 :: p4 :: argv =>
        let* f0 := cron_field 0 p0 in
        let* f1 := cron_field 1 p1 in
        let* f2 := cron_field 2 p2 in
        let* f3 := cron_field 3 p3 in
        let* f4 := cron_field 4 p4 in
        Ok ([f0; f1; f2; f3; f4], argv)
    | _ => Panic "param_array too short"
    end
  else Panic "param_array not set".

(** The comparison of one field with the time. *)
Definition field_matches (t : Z) (l : list Z) : bool :=
  existsb (fun v => if negb (nth 0 l 0 =? -1) then t =? v else true) l.

Fixpoint all_match (r : rtcdate) (i : nat) (fs : list (list Z)) : bool :=
  match fs with
  | [] => true
  | f :: fs' => if field_matches (int_to_time r i) f then all_match r (S i) fs' else false
  end.

(** [command->argv]: null as [malloc] left it, the block of the last line
    parsed, or a block already freed. *)
Inductive cmdptr := CNull | CSet | CFreed.

(** The pointer, how often [fork] was called, and the children, none of which
    is ever waited for. *)
Record cstate := mk_cstate { c_cmd : cmdptr; c_forks : nat; c_kids : nat }.

Section fork.
Context (fork_ok : nat -> nat -> bool).      (* does call [i] succeed, with [k] children? *)

Definition cron_fork (st : cstate) : bool * cstate :=
  let ok := fork_ok (c_forks st) (c_kids st) in
  (ok, mk_cstate (c_cmd st) (S (c_forks st)) (if ok then S (c_kids st) else c_kids st)).

(** One pass over the lines: the commands to execute, in order, and whether
    there was a child to execute them. *)
Fixpoint cron_pass (lines : list (list Z)) (r : rtcdate) (st : cstate) : res (list (list (list Z) * bool) * cstate) :=
  match lines with
  | [] => Ok ([], st)
  | ln :: lines' =>
      if (first_char ln =? HASH) || (Z.of_nat (length ln) <? 1) then cron_pass lines' r st
      else
        let* (fs, argv) := get_cron_details ln in
        let st := mk_cstate CSet (c_forks st) (c_kids st) in
        let (e, st) := if all_match r 0 fs then let (ok, st) := cron_fork st in ([(argv, ok)], st) else ([], st) in
        let* (l, st) := cron_pass lines' r st in
        Ok (e ++ l, st)
  end.
End fork.

(** The frees after a pass.  [free(0)] reads a header at the top of the address
    space, which faults. *)
Definition cron_free (p : cmdptr) : res cmdptr :=
  match p with CNull => Panic "free of null" | CSet => Ok CFreed | CFreed => Panic "double free" end.

(** [read_file] from the bytes to the list: a line runs from the newline before
    it, which is then skipped. *)
Definition store_line (l : list Z) : list Z := match l with c :: l' => if c =? LF then l' else l | [] => [] end.

Fixpoint cut_lines (cur : list Z) (l : list Z) : list (list Z) :=
  match l with
  | [] => [store_line cur]
  | c :: l' => if c =? LF then store_line cur :: cut_lines [c] l' else cut_lines (cur ++ [c]) l'
  end.

Definition read_file (contents : list Z) : list (list Z) := cut_lines [] contents.

(** ** main

    [clock] is what date() returns at a tick, of which there are 100 a second;
    [delay] is how many ticks the work before a pass takes: reading the file
    before the first, running the pass before it for the others.  The result is
    the tick of each pass and its commands with the outcome of [fork]. *)

Definition WAIT : Z := 6000.

Section main.
Context (clock : Z -> rtcdate) (delay : nat -> Z) (fork_ok : nat -> nat -> bool).

Fixpoint cron_loop (n k : nat) (lines : list (list Z)) (t : Z) (st : cstate) : res (list (Z * list (list (list Z) * bool))) :=
  match n with
  | O => Ok []
  | S n' =>
      let* (l, st) := cron_pass fork_ok lines (clock t) st in
      let* p := cron_free (c_cmd st) in
      let* rest := cron_loop n' (S k) lines (t + delay k + WAIT) (mk_cstate p (c_forks st) (c_kids st)) in
      Ok ((t, l) :: rest)
  end.

(** [n] passes; [None] when there is no crontab. *)
Definition cron_main (n : nat) (crontab : option (list Z)) (t : Z) : res (option (list (Z * list (list (list Z) * bool)))) :=
  let r := clock t in
  let t := if 0 <? rd_second r then t + s32 (100 * (60 - rd_second r)) else t in
  match crontab with
  | None => Ok None
  | Some contents => let* l := cron_loop n 1 (read_file contents) (t + delay 0) (mk_cstate CNull 0 0) in Ok (Some l)
  end.
End main.

(** ** What a crontab means *)

Inductive field := Any | One (n : Z) | Range (a b : Z).

Definition print_num (n : Z) : list Z := printint n 10 true false.

Definition print_field (f : field) : list Z :=
  match f with
  | Any => [42]
  | One n => print_num n
  | Range a b => print_num a ++ DASH :: print_num b
  end.

(** Numbers of 31 bits, ranges of at most 60; in the last two fields from 1 on. *)
Definition field_ok (i : nat) (f : field) : Prop :=
  let lo := if (3 <=? i)%nat then 1 else 0 in
  match f with
  | Any => True
  | One n => lo <= n < 2 ^ 31
  | Range a b => lo <= a <= b /\ b < 2 ^ 31 /\ b - a < 60
  end.

Definition admits (f : field) (t : Z) : bool :=
  match f with Any => true | One n => t =? n | Range a b => (a <=? t) && (t <=? b) end.

Record job := mk_job { j_minute : field; j_hour : field; j_day : field; j_month : field; j_week : field; j_argv : list (list Z) }.

Definition job_ok (j : job) : Prop :=
  field_ok 0 (j_minute j) /\ field_ok 1 (j_hour j) /\ field_ok 2 (j_day j) /\ field_ok 3 (j_month j) /\ field_ok 4 (j_week j) /\
  j_argv j <> [] /\ Forall (Forall (fun c => c <> BLANK /\ c <> LF)) (j_argv j).

Definition print_job (j : job) : list Z :=
  print_field (j_minute j) ++ BLANK :: print_field (j_hour j) ++ BLANK :: print_field (j_day j) ++ BLANK ::
  print_field (j_month j) ++ BLANK :: print_field (j_week j) ++ concat (map (fun w => BLANK :: w) (j_argv j)).

(** Due at time [r]; the last field is held against the year. *)
Definition due (r : rtcdate) (j : job) : bool :=
  admits (j_minute j) (rd_minute r) && admits (j_hour j) (rd_hour r) && admits (j_day j) (rd_day r) &&
  admits (j_month j) (rd_month r) && admits (j_week j) (rd_year r).

(** A crontab: comments, empty lines and jobs. *)
Inductive entry := Comment (text : list Z) | Empty | Job (j : job).

Definition entry_ok (e : entry) : Prop :=
  match e with Comment text => Forall (fun c => c <> LF) text | Empty => True | Job j => job_ok j end.

Definition print_entry (e : entry) : list Z :=
  match e with Comment text => HASH :: text | Empty => [] | Job j => print_job j end.

Fixpoint print_file (es : list (list Z)) : list Z :=
  match es with
  | [] => []
  | [l] => l
  | l :: es' => l ++ LF :: print_file es'
  end.

(** ** Reading the lines *)

Lemma cut_line w : forall cur l, Forall (fun c => c <> LF) w -> cut_lines cur (w ++ l) = cut_lines (cur ++ w) l.
Proof.
  induction w as [|c w IH]; intros cur l Hw; [by rewrite app_nil_r|]. apply Forall_cons_1 in Hw as [Hc Hw]. cbn [app cut_lines].
  destruct (Z.eqb_spec c LF); [done|]. rewrite IH by done. by rewrite <- app_assoc.
Qed.

Lemma store_line_id w : Forall (fun c => c <> LF) w -> store_line w = w.
Proof. destruct 1 as [|c w Hc Hw]; [done|]. cbn. by destruct (Z.eqb_spec c LF). Qed.

Lemma read_file_lines es : es <> [] -> Forall (Forall (fun c => c <> LF)) es -> read_file (print_file es) = es.
Proof.
  intros Hne Hes. unfold read_file. assert (Hgen : forall pre, (pre = [] \/ pre = [LF]) -> forall es, es <> [] -> Forall (Forall (fun c => c <> LF)) es -> cut_lines pre (print_file es) = es); [|apply Hgen; auto].
  clear es Hne Hes. intros pre Hpre es. revert pre Hpre. induction es as [|l es IH]; intros pre Hpre Hne Hes; [done|]. apply Forall_cons_1 in Hes as [Hl Hes].
  assert (Hst : store_line (pre ++ l) = l) by (destruct Hpre as [->| ->]; [by apply store_line_id | done]).
  destruct es as [|l2 es]; cbn [print_file].
  - rewrite <- (app_nil_r l) at 1. rewrite cut_line by done. cbn [cut_lines]. by rewrite Hst.
  - rewrite cut_line by done. cbn [cut_lines]. rewrite Z.eqb_refl, Hst. f_equal. by apply IH; auto.
Qed.

(** ** Reading a line *)

Lemma params_word w : Forall (fun c => c <> BLANK) w -> params w = [w].
Proof. induction 1 as [|c w Hc Hw IH]; [done|]. cbn. rewrite IH. by destruct (Z.eqb_spec c BLANK). Qed.

Lemma params_app w rest : Forall (fun c => c <> BLANK) w -> params (w ++ BLANK :: rest) = w :: params rest.
Proof. induction 1 as [|c w Hc Hw IH]; [done|]. cbn [app params]. rewrite IH. by destruct (Z.eqb_spec c BLANK). Qed.

Lemma params_words ws : forall w, Forall (fun c => c <> BLANK) w -> Forall (Forall (fun c => c <> BLANK)) ws ->
  params (w ++ concat (map (fun w => BLANK :: w) ws)) = w :: ws.
Proof.
  induction ws as [|v ws IH]; intros w Hw Hws; cbn [map concat]; [by rewrite app_nil_r, params_word|].
  apply Forall_cons_1 in Hws as [Hv Hws]. cbn [app]. by rewrite params_app, IH.
Qed.

Lemma print_num_chars n : 0 <= n < 2 ^ 31 -> Forall (fun c => 48 <= c <= 57) (print_num n).
Proof. intros Hn. apply (print_nonneg n false Hn). Qed.

Lemma atoi_print_num n : 0 <= n < 2 ^ 31 -> atoi_s (print_num n) = n.
Proof. intros Hn. destruct (print_nonneg n false Hn) as (_ & _ & H). specialize (H []). by rewrite app_nil_r in H. Qed.

Lemma cron_value_num i a n : (if (3 <=? i)%nat then 1 else 0) <= a < 2 ^ 31 -> 0 <= n < 2 ^ 31 -> cron_value i (print_num a) (print_num n) = n.
Proof.
  intros Ha Hn. unfold cron_value. destruct (((i =? 3)%nat || (i =? 4)%nat)) eqn:Ei; cbn [andb]; [|by apply atoi_print_num].
  assert (Hi : (3 <= i)%nat) by (apply orb_true_iff in Ei as [->%Nat.eqb_eq| ->%Nat.eqb_eq]; lia). apply Nat.leb_le in Hi. rewrite Hi in Ha.
  destruct (print_head a false ltac:(lia)) as (c & l & E & Hc). unfold print_num at 1. rewrite E. cbn [first_char].
  assert (is_digit c = 1) as ->; [|cbn [Z.eqb negb]; by apply atoi_print_num].
  unfold is_digit, NUMBERS. cbn [existsb]. assert (c = 49 \/ c = 50 \/ c = 51 \/ c = 52 \/ c = 53 \/ c = 54 \/ c = 55 \/ c = 56 \/ c = 57) as Hc' by lia.
  by repeat destruct Hc' as [->|Hc']; subst.
Qed.

Lemma cron_scan_pass w : forall i pre s acc, Forall (fun c => c <> DASH) w -> cron_scan i pre (w ++ s) acc = cron_scan i (pre ++ w) s acc.
Proof.
  induction w as [|c w IH]; intros i pre s acc Hw; [by rewrite app_nil_r|]. apply Forall_cons_1 in Hw as [Hc Hw]. cbn [app cron_scan].
  destruct (Z.eqb_spec c DASH); [done|]. rewrite IH by done. by rewrite <- app_assoc.
Qed.

(** The list a field becomes. *)
Definition values (f : field) : list Z :=
  match f with
  | Any => [-1]
  | One n => [n]
  | Range a b => map (fun j => a + Z.of_nat j) (seq 0 (Z.to_nat (b - a + 1)))
  end.

Lemma num_no_dash n : 0 <= n < 2 ^ 31 -> Forall (fun c => c <> DASH) (print_num n).
Proof. intros Hn. eapply Forall_impl; [by apply print_num_chars|]. cbn. unfold DASH. lia. Qed.

Lemma cron_field_print i f : field_ok i f -> cron_field i (print_field f) = Ok (values f).
Proof.
  intros Hf. unfold cron_field, field_ok in *. set (lo := if (3 <=? i)%nat then 1 else 0) in *.
  assert (Hlo : 0 <= lo) by (unfold lo; destruct (3 <=? i)%nat; lia).
  assert (Hstar : forall n rest, 0 <= n < 2 ^ 31 -> print_num n ++ rest <> [42]).
  { intros n rest Hn E. pose proof (print_num_chars n Hn) as Hc. destruct (print_nonneg n false Hn) as (_ & Hne & _). fold (print_num n) in Hne.
    destruct (print_num n); [done|]. apply Forall_cons_1 in Hc as [Hc _]. injection E as E _. lia. }
  destruct f as [|n|a b]; cbn [print_field values]; [done| |].
  - rewrite bool_decide_eq_false_2 by (rewrite <- (app_nil_r (print_num n)); apply Hstar; lia).
    rewrite <- (app_nil_r (print_num n)) at 1. rewrite cron_scan_pass by (apply num_no_dash; lia). cbn [cron_scan rbind].
    by rewrite cron_value_num by lia.
  - rewrite bool_decide_eq_false_2 by (apply Hstar; lia). rewrite cron_scan_pass by (apply num_no_dash; lia). cbn [app cron_scan]. rewrite Z.eqb_refl.
    rewrite !cron_value_num by lia. unfold cron_range. destruct (Z.ltb_spec 60 (b - a + 1)); [lia|]. cbn [rbind].
    rewrite <- (app_nil_r (print_num b)). rewrite cron_scan_pass by (apply num_no_dash; lia). done.
Qed.

Lemma values_match i f t : field_ok i f -> field_matches t (values f) = admits f t.
Proof.
  unfold field_ok. set (lo := if (3 <=? i)%nat then 1 else 0). assert (Hlo : 0 <= lo) by (unfold lo; destruct (3 <=? i)%nat; lia).
  destruct f as [|n|a b]; cbn [values admits]; intros Hf; [done| |].
  - unfold field_matches. cbn. destruct (Z.eqb_spec n (-1)); [lia|]. cbn. by rewrite orb_false_r.
  - unfold field_matches. assert (Hh : nth 0 (map (fun j => a + Z.of_nat j) (seq 0 (Z.to_nat (b - a + 1)))) 0 = a).
    { destruct (Z.to_nat (b - a + 1)) eqn:E; [lia|]. cbn. lia. }
    rewrite Hh. destruct (Z.eqb_spec a (-1)); [lia|]. cbn [negb]. apply eq_true_iff_eq. rewrite existsb_exists, andb_true_iff, !Z.leb_le. split.
    + intros (v & (j & <- & Hj)%in_map_iff & Hv). apply in_seq in Hj. apply Z.eqb_eq in Hv. lia.
    + intros Ht. exists t. rewrite Z.eqb_refl. split; [|done]. apply in_map_iff. exists (Z.to_nat (t - a)). rewrite in_seq. lia.
Qed.

Lemma field_chars i f : field_ok i f -> Forall (fun c => c <> BLANK /\ c <> LF /\ c <> HASH) (print_field f) /\ print_field f <> [].
Proof.
  unfold field_ok. set (lo := if (3 <=? i)%nat then 1 else 0). assert (Hlo : 0 <= lo) by (unfold lo; destruct (3 <=? i)%nat; lia).
  assert (Hnum : forall n, 0 <= n < 2 ^ 31 -> Forall (fun c => c <> BLANK /\ c <> LF /\ c <> HASH) (print_num n) /\ print_num n <> []).
  { intros n Hn. destruct (print_nonneg n false Hn) as (Hc & Hne & _). split; [|done]. eapply Forall_impl; [exact Hc|]. cbn. unfold BLANK, LF, HASH. lia. }
  destruct f as [|n|a b]; cbn [print_field]; intros Hf.
  - split; [|done]. constructor; [done | constructor].
  - apply Hnum. lia.
  - destruct (Hnum a ltac:(lia)) as [Ha Hne], (Hnum b ltac:(lia)) as [Hb _]. split; [|by destruct (print_num a)].
    apply Forall_app. split; [done|]. constructor; [done | done].
Qed.

(** A job line gives back its fields and its command. *)
Lemma job_details j : job_ok j -> get_cron_details (print_job j) =
  Ok ([values (j_minute j); values (j_hour j); values (j_day j); values (j_month j); values (j_week j)], j_argv j).
Proof.
  intros (H0 & H1 & H2 & H3 & H4 & Hne & Hw). unfold get_cron_details.
  assert (Hb : forall i f, field_ok i f -> Forall (fun c => c <> BLANK) (print_field f)).
  { intros i f Hf. eapply Forall_impl; [by apply (field_chars i)|]. cbn. tauto. }
  assert (Hp : params (print_job j) = print_field (j_minute j) :: print_field (j_hour j) :: print_field (j_day j) :: print_field (j_month j) ::
    print_field (j_week j) :: j_argv j).
  { unfold print_job. rewrite !params_app by eauto. rewrite params_words; [done | eauto |]. eapply Forall_impl; [exact Hw|]. intros w Hw'.
    eapply Forall_impl; [exact Hw'|]. cbn. tauto. }
  assert (Hg : negb (first_char (print_job j) =? HASH) && (3 <? Z.of_nat (length (print_job j))) = true).
  { destruct (field_chars 0 (j_minute j) H0) as [Hc Hn]. unfold print_job. destruct (print_field (j_minute j)) as [|c l]; [done|].
    apply Forall_cons_1 in Hc as [(_ & _ & Hc) _]. cbn [app first_char length]. apply andb_true_iff. split; [by apply negb_true_iff, Z.eqb_neq|].
    apply Z.ltb_lt. repeat (rewrite length_app; cbn [length]). lia. }
  rewrite Hg, Hp. by rewrite !cron_field_print.
Qed.

(** The jobs of a crontab, and those of them that are due. *)
Definition jobs (es : list entry) : list job := omap (fun e => match e with Job j => Some j | _ => None end) es.
Definition due_jobs (es : list entry) (r : rtcdate) : list (list (list Z)) := map j_argv (filter (fun j => due r j = true) (jobs es)).

(** The lines of a crontab as read back. *)
Lemma crontab_lines es : es <> [] -> Forall entry_ok es -> read_file (print_file (map print_entry es)) = map print_entry es.
Proof.
  intros Hne Hes. apply read_file_lines; [by destruct es|]. apply Forall_map. eapply Forall_impl; [exact Hes|].
  intros [text| |j] He; cbn [print_entry entry_ok] in *; [by constructor | constructor |].
  destruct He as (H0 & H1 & H2 & H3 & H4 & _ & Hw).
  assert (Hb : forall i f, field_ok i f -> Forall (fun c => c <> LF) (print_field f)) by (intros i f Hf; eapply Forall_impl; [by apply (field_chars i)|]; cbn; tauto).
  unfold print_job. repeat (rewrite Forall_app || rewrite Forall_cons). split_and!; eauto; try discriminate.
  clear - Hw. induction Hw as [|w ws Hw1 Hw IH]; cbn; [constructor|]. constructor; [done|]. apply Forall_app. split; [|done]. eapply Forall_impl; [exact Hw1|]. cbn. tauto.
Qed.

Section passes.
Context (fork_ok : nat -> nat -> bool).

(** What [n] calls of [fork] answer, from call [i] on with [k] children. *)
Fixpoint fork_answers (n i k : nat) : list bool :=
  match n with
  | O => []
  | S n' => let ok := fork_ok i k in ok :: fork_answers n' (S i) (if ok then S k else k)
  end.

Definition started (l : list bool) : nat := length (filter (fun b => b = true) l).

Lemma fork_answers_app n m : forall i k, fork_answers (n + m) i k = fork_answers n i k ++ fork_answers m (i + n) (k + started (fork_answers n i k)).
Proof.
  induction n as [|n IH]; intros i k; cbn [fork_answers Nat.add app]; [by rewrite !Nat.add_0_r|]. rewrite IH. cbn [app]. f_equal. f_equal. unfold started. rewrite filter_cons.
  f_equal; [lia|]. destruct (fork_ok i k); [rewrite decide_True by done | rewrite decide_False by done]; cbn [length]; lia.
Qed.

(** Children are never reaped: once there are as many as the system allows, no [fork] succeeds. *)
Lemma fork_answers_bound N n : (forall i k, (N <= k)%nat -> fork_ok i k = false) -> forall i k, (k <= N)%nat -> (k + started (fork_answers n i k) <= N)%nat.
Proof.
  intros HN. induction n as [|n IH]; intros i k Hk; cbn [fork_answers]; unfold started; [cbn; lia|]. rewrite filter_cons.
  destruct (fork_ok i k) eqn:E; [rewrite decide_True by done | rewrite decide_False by done]; cbn [length].
  - destruct (decide (N <= k)%nat) as [H|H]; [by rewrite HN in E|]. specialize (IH (S i) (S k) ltac:(lia)). unfold started in IH. lia.
  - apply IH. lia.
Qed.

(** A pass attempts exactly the jobs that are due, each once and in the order of
    the file; a month is compared with the month, but the field for the day of
    the week with the year. *)
Lemma cron_pass_due es r : Forall entry_ok es -> forall st,
  exists l st', cron_pass fork_ok (map print_entry es) r st = Ok (l, st') /\ map fst l = due_jobs es r /\
    map snd l = fork_answers (length l) (c_forks st) (c_kids st) /\
    c_forks st' = (c_forks st + length l)%nat /\ c_kids st' = (c_kids st + started (map snd l))%nat /\
    c_cmd st' = match jobs es with [] => c_cmd st | _ => CSet end.
Proof.
  induction 1 as [|e es He Hes IH]; intros st; [exists [], st; cbn; split_and!; auto with lia|]. destruct e as [text| |j]; cbn [map print_entry cron_pass].
  - apply IH.
  - apply IH.
  - pose proof He as (H0 & H1 & H2 & H3 & H4 & _ & _). destruct (field_chars 0 (j_minute j) H0) as [Hc Hn].
    assert (Hskip : (first_char (print_job j) =? HASH) || (Z.of_nat (length (print_job j)) <? 1) = false).
    { unfold print_job. destruct (print_field (j_minute j)) as [|c l]; [done|]. apply Forall_cons_1 in Hc as [(_ & _ & Hc) _]. cbn [app first_char length].
      apply orb_false_iff. split; [by apply Z.eqb_neq | apply Z.ltb_ge; lia]. }
    rewrite Hskip, (job_details j He). cbn [rbind].
    assert (Hd : all_match r 0 [values (j_minute j); values (j_hour j); values (j_day j); values (j_month j); values (j_week j)] = due r j).
    { cbn [all_match int_to_time]. rewrite (values_match 0), (values_match 1), (values_match 2), (values_match 3), (values_match 4) by done. unfold due.
      by destruct (admits (j_minute j) _), (admits (j_hour j) _), (admits (j_day j) _), (admits (j_month j) _), (admits (j_week j) _). }
    rewrite Hd. assert (Ej : due_jobs (Job j :: es) r = if due r j then j_argv j :: due_jobs es r else due_jobs es r).
    { unfold due_jobs. cbn [jobs omap list_omap]. rewrite filter_cons. by destruct (due r j). }
    rewrite Ej. clear Ej Hd Hskip. change (jobs (Job j :: es)) with (j :: jobs es). destruct (due r j).
    + unfold cron_fork. cbn [c_cmd c_forks c_kids]. set (ok := fork_ok (c_forks st) (c_kids st)).
      destruct (IH (mk_cstate CSet (S (c_forks st)) (if ok then S (c_kids st) else c_kids st))) as (l & st' & -> & E1 & E2 & E3 & E4 & E5). cbn [rbind c_cmd c_forks c_kids] in *.
      exists ((j_argv j, ok) :: l), st'. split; [done|]. cbn [map fst snd length fork_answers app]. split_and!; [by rewrite E1 | by rewrite E2 | lia | | by destruct (jobs es)].
      unfold started in *. rewrite filter_cons. rewrite E4. destruct ok; [rewrite decide_True by done | rewrite decide_False by done]; cbn [length]; lia.
    + destruct (IH (mk_cstate CSet (c_forks st) (c_kids st))) as (l & st' & -> & E1 & E2 & E3 & E4 & E5). cbn [rbind c_cmd c_forks c_kids] in *.
      exists l, st'. split_and!; auto. by destruct (jobs es).
Qed.
End passes.

(** The time [s] seconds into a minute that begins at [r]. *)
Definition at_second (r : rtcdate) (s : Z) : rtcdate := mk_rtcdate s (rd_minute r) (rd_hour r) (rd_day r) (rd_month r) (rd_year r).

Lemma due_minute es r s : due_jobs es (at_second r s) = due_jobs es r.
Proof. unfold due_jobs. f_equal. Qed.

Section minutes.
Context (clock cal : Z -> rtcdate) (delay : nat -> Z) (fork_ok : nat -> nat -> bool) (es : list entry).
Context (Hclock : forall t, clock t = at_second (cal (t / WAIT)) (t / 100 mod 60)) (Hdelay : forall k, 0 <= delay k).
Context (Hes : Forall entry_ok es) (Hjob : jobs es <> []).

(** The time passes [k] and on have taken, [n] of them. *)
Fixpoint spent (k n : nat) : Z := match n with O => 0 | S n' => delay k + spent (S k) n' end.

Lemma spent_nonneg n : forall k, 0 <= spent k n.
Proof using Hdelay. clear Hclock Hes Hjob. induction n as [|n IH]; intros k; cbn [spent]; [lia | specialize (IH (S k)); specialize (Hdelay k); lia]. Qed.

(** The passes [ls] of the minutes from [m] on, and their outcomes. *)
Definition passes_ok (m : Z) (ls : list (list (list (list Z) * bool))) (i k : nat) : Prop :=
  map (map fst) ls = map (fun d => due_jobs es (cal (m + Z.of_nat d))) (seq 0 (length ls)) /\
  map snd (concat ls) = fork_answers fork_ok (length (concat ls)) i k.

Lemma cron_loop_minutes : forall n k m t st, 6000 * m <= t -> t + spent k n < 6000 * m + 6000 ->
  exists ts ls, length ts = n /\ length ls = n /\ cron_loop clock delay fork_ok n k (map print_entry es) t st = Ok (zip ts ls) /\
    passes_ok m ls (c_forks st) (c_kids st) /\ forall i t', ts !! i = Some t' -> t' / 6000 = m + Z.of_nat i.
Proof using Hclock Hdelay Hes Hjob.
  induction n as [|n IH]; intros k m t st H1 H2; [by exists [], []|]. cbn [cron_loop spent] in *. pose proof (spent_nonneg n (S k)). pose proof (Hdelay k).
  assert (Em : t / 6000 = m) by zdiv. destruct (cron_pass_due fork_ok es (clock t) Hes st) as (l & st' & -> & E1 & E2 & E3 & E4 & E5). cbn [rbind].
  assert (Ec : c_cmd st' = CSet) by (by destruct (jobs es)). rewrite Ec. cbn [cron_free rbind].
  destruct (IH (S k) (m + 1) (t + delay k + WAIT) (mk_cstate CFreed (c_forks st') (c_kids st'))) as (ts & ls & Hl & Hl' & E & [P1 P2] & Hts); [unfold WAIT; lia.. |].
  rewrite E. cbn [rbind c_forks c_kids] in *. exists (t :: ts), (l :: ls). split_and!; [cbn [length]; lia.. | done | split |].
  - cbn [length seq map]. rewrite P1, E1, <- seq_shift, map_map. f_equal; [rewrite Hclock, due_minute; unfold WAIT; rewrite Em; do 2 f_equal; lia|].
    apply map_ext. intros d. do 2 f_equal. lia.
  - cbn [concat]. rewrite map_app, length_app, fork_answers_app, P2, E2. f_equal. rewrite E3, E4, E2. done.
  - intros [|i] t'; cbn [lookup list_lookup]; [intros [= <-]; lia|]. intros Ht. rewrite (Hts i t' Ht). lia.
Qed.
End minutes.

(** C31: cron runs the due jobs every minute, as long as it can fork.  For any
    crontab of comments, empty lines and at least one job, whose fields are
    [*], a number or a range, written with one blank between the parameters:
    cron waits for the next full minute, and from then on each minute has
    exactly one pass, which attempts the commands of the jobs all of whose
    fields admit that minute, each once and in the order of the file, and ends
    with frees of pointers that are set.  This holds while the work of the
    passes adds up to less than 59 seconds, for the time they take is never made
    up.  An attempt
    executes its command if [fork] succeeds, and is dropped if not; since cron
    never waits, no more commands are ever executed than the process table has
    room for children of cron. *)
Theorem cron_each_minute (clock cal : Z -> rtcdate) (delay : nat -> Z) (fork_ok : nat -> nat -> bool) es n t :
  (forall t, clock t = at_second (cal (t / WAIT)) (t / 100 mod 60)) ->
  (forall k, 0 <= delay k) -> delay 0%nat + spent delay 1 n < 5900 -> Forall entry_ok es -> jobs es <> [] ->
  let m := if t / 100 mod 60 =? 0 then t / WAIT else t / WAIT + 1 in
  exists ts ls, length ts = n /\ length ls = n /\
    cron_main clock delay fork_ok n (Some (print_file (map print_entry es))) t = Ok (Some (zip ts ls)) /\
    (forall i t', ts !! i = Some t' -> t' / WAIT = m + Z.of_nat i) /\
    map (map fst) ls = map (fun i => due_jobs es (cal (m + Z.of_nat i))) (seq 0 n) /\
    map snd (concat ls) = fork_answers fork_ok (length (concat ls)) 0 0 /\
    (forall N, (forall i k, (N <= k)%nat -> fork_ok i k = false) -> (started (map snd (concat ls)) <= N)%nat).
Proof.
  intros Hclock Hdelay Hsum Hes Hjob m. assert (Hne : es <> []) by (by intros ->). unfold cron_main. rewrite crontab_lines by done.
  rewrite Hclock. cbn [at_second rd_second]. set (t0 := if 0 <? _ then _ else _).
  assert (Ht0 : 6000 * m <= t0 < 6000 * m + 100).
  { unfold t0, m, WAIT. pose proof (Z.mod_pos_bound (t / 100) 60 ltac:(lia)). rewrite s32_small by lia. destruct (Z.ltb_spec 0 (t / 100 mod 60)), (Z.eqb_spec (t / 100 mod 60) 0); try lia; zdiv. }
  clearbody t0. pose proof (Hdelay 0%nat).
  destruct (cron_loop_minutes clock cal delay fork_ok es Hclock Hdelay Hes Hjob n 1 m (t0 + delay 0%nat) (mk_cstate CNull 0 0)) as (ts & ls & Hl & Hl' & E & [P1 P2] & Hts); [lia | lia |].
  rewrite E. exists ts, ls. rewrite Hl' in P1. split_and!; auto. intros N HN. rewrite P2. apply (fork_answers_bound fork_ok N _ HN 0 0). lia.
Qed.

(** A crontab without a job, comments only or empty, stops cron at the end of
    its first pass: [command->argv] was never set and is freed. *)
Lemma cron_comments_die clock delay fork_ok es n t : es <> [] -> Forall entry_ok es -> jobs es = [] ->
  cron_main clock delay fork_ok (S n) (Some (print_file (map print_entry es))) t = Panic "free of null".
Proof.
  intros Hne Hes Hj. unfold cron_main. rewrite crontab_lines by done. cbn [cron_loop].
  destruct (cron_pass_due fork_ok es (clock ((if 0 <? rd_second (clock t) then t + s32 (100 * (60 - rd_second (clock t))) else t) + delay 0%nat)) Hes (mk_cstate CNull 0 0)) as (l & st' & -> & _ & _ & _ & _ & Hc).
  rewrite Hj in Hc. cbn [c_cmd] in Hc. cbn [rbind]. by rewrite Hc.
Qed.

(** "# c", an empty line, and "20-40 * 1 * * ls" from 12:29:30 on the first of March, for two minutes. *)
Definition wit_crontab : list entry := [Comment [99]; Empty; Job (mk_job (Range 20 40) Any (One 1) Any Any [[108; 115]])].
Definition wit_cal (m : Z) : rtcdate := mk_rtcdate 0 (m mod 60) (m / 60 mod 24) 1 3 2021.
Definition wit_clock (t : Z) : rtcdate := at_second (wit_cal (t / WAIT)) (t / 100 mod 60).

(** [fork] as in a system with [N] free process slots. *)
Definition wit_fork (N i k : nat) : bool := (k <? N)%nat.

Lemma wit_crontab_ok : Forall entry_ok wit_crontab.
Proof.
  apply Forall_cons_2; [|apply Forall_cons_2; [exact I|apply Forall_cons_2; [|apply Forall_nil_2]]].
  - apply Forall_cons_2; [discriminate | apply Forall_nil_2].
  - split; [cbn; lia|]. split; [exact I|]. split; [cbn; lia|]. split; [exact I|]. split; [exact I|]. split; [discriminate|].
    apply Forall_cons_2; [|apply Forall_nil_2]. repeat (apply Forall_cons_2; [split; discriminate|]). apply Forall_nil_2.
Qed.

Lemma cron_each_minute_witness : exists ts ls, length ts = 2%nat /\
  cron_main wit_clock (fun _ => 5) (wit_fork 61) 2 (Some (print_file (map print_entry wit_crontab))) (WAIT * 749 + 3000) = Ok (Some (zip ts ls)) /\
  map (map fst) ls = [[[[108; 115]]]; [[[108; 115]]]] /\ (forall i t', ts !! i = Some t' -> t' / WAIT = 750 + Z.of_nat i).
Proof.
  destruct (cron_each_minute wit_clock wit_cal (fun _ => 5) (wit_fork 61) wit_crontab 2 (WAIT * 749 + 3000)) as (ts & ls & H1 & _ & H2 & H3 & H4 & _).
  - reflexivity.
  - lia.
  - cbn. lia.
  - exact wit_crontab_ok.
  - discriminate.
  - exists ts, ls. split; [exact H1|]. split; [exact H2|]. split; [exact H4 | exact H3].
Defined.

(** After as many jobs as there were free process slots no job runs any more:
    with two slots, the job of every minute runs twice. *)
Lemma cron_zombies (j := mk_job Any Any Any Any Any [[108; 115]]) :
  exists ts, cron_main wit_clock (fun _ => 0) (wit_fork 2) 4 (Some (print_job j)) 0 =
    Ok (Some (zip ts [[([[108; 115]], true)]; [([[108; 115]], true)]; [([[108; 115]], false)]; [([[108; 115]], false)]])).
Proof. exists [0; 6000; 12000; 18000]. vm_compute. reflexivity. Qed.

(** The work of the passes is not made up: with a second per pass, a job for
    one minute in two hours misses it. *)
Lemma cron_drifts (j := mk_job (One 0) (One 1) Any Any Any [[108; 115]]) :
  job_ok j /\ (exists i, 0 < i < 120 /\ due (wit_cal i) j = true) /\
  exists l, cron_main wit_clock (fun k => if (k =? 0)%nat then 0 else 100) (fun _ _ => true) 120 (Some (print_job j)) 0 = Ok (Some l) /\ Forall (fun p => p.2 = []) l.
Proof.
  split; [|split].
  - split; [cbn; lia|]. split; [cbn; lia|]. do 3 (split; [exact I|]). split; [discriminate|].
    apply Forall_cons_2; [|apply Forall_nil_2]. repeat (apply Forall_cons_2; [split; discriminate|]). apply Forall_nil_2.
  - exists 60. split; [lia | by vm_compute].
  - eexists. split; [vm_compute; reflexivity|]. repeat (apply Forall_cons_2; [reflexivity|]). apply Forall_nil_2.
Qed.

(** The field for the day of the week does not select days.  The crontab's
    documentation numbers the days 0 to 6 from Sunday.  In every year from 7 on
    a 0 there admits every day, because [is_digit] does not know the digit 0 and
    the unknown name it then looks up counts as [*]; a name of a day and every
    other number of a day admit none, because the field is compared with the
    year. *)
Theorem cron_weekday r : 7 <= rd_year r ->
  (exists l, cron_field 4 [48] = Ok l /\ field_matches (int_to_time r 4) l = true) /\
  (forall n, 1 <= n <= 6 -> exists l, cron_field 4 (print_num n) = Ok l /\ field_matches (int_to_time r 4) l = false) /\
  (forall d, d ∈ days -> exists l, cron_field 4 d = Ok l /\ field_matches (int_to_time r 4) l = false).
Proof.
  intros Hy. split_and!.
  - by exists [-1].
  - intros n Hn. exists [n]. split; [apply (cron_field_print 4 (One n)); cbn; lia|].
    change [n] with (values (One n)). rewrite (values_match 4) by (cbn; lia). cbn. apply Z.eqb_neq. lia.
  - intros d Hd. unfold days in Hd. assert (Hcase : forall v, cron_field 4 d = Ok [v] -> 0 <= v <= 6 -> exists l, cron_field 4 d = Ok l /\ field_matches (int_to_time r 4) l = false).
    { intros v E Hv. exists [v]. split; [done|]. unfold field_matches. cbn [existsb nth int_to_time]. destruct (Z.eqb_spec v (-1)); [lia|]. cbn [negb].
      rewrite orb_false_r. apply Z.eqb_neq. lia. }
    repeat (apply elem_of_cons in Hd as [->|Hd]; [eapply Hcase; [vm_compute; reflexivity | lia]|]). by apply elem_of_nil in Hd.
Qed.

Lemma cron_weekday_witness : exists l, cron_field 4 [48] = Ok l /\ field_matches (int_to_time (mk_rtcdate 0 0 0 1 3 2021) 4) l = true.
Proof. destruct (cron_weekday (mk_rtcdate 0 0 0 1 3 2021)) as [H _]; [cbn; lia | exact H]. Defined.
