(* ===== verification/Xvedit.v ===== *)
(** * The line editor (src/xvedit.c)

    The linked list of nodes is the list of their texts, [contents->end] the
    index of the node it points to, or none once that node has been freed.
    Strings are lists of characters without the NUL.  Text goes to the terminal
    as a list of characters; input lines come from a list.  A store beyond the
    bytes [malloc] really gave (its rounding to units is in Umalloc.v), a null
    pointer followed and a list made cyclic stop the model with a [Panic].
    [junk] stands for the bytes of a fresh block that [convert_range] does not
    set but [atoi] reads after four digits. *)

From S2P Require Import Prelude Printf Umalloc Sh Cron.

(** [count] and [changes] as the code keeps them, the texts, [end], and whether
    a freed node is still linked. *)
Record contents := mk_contents {
  ct_lines : list (list Z);
  ct_count : Z;
  ct_changes : Z;
  ct_end : option nat;
  ct_freed : bool
}.

(** Bytes usable in a block of [malloc(n)]. *)
Definition usable (n : Z) : Z := 8 * (nunits_of n - 1).

Definition COLON : Z := 58.

(** ** The list *)

Definition append (line : list Z) (c : contents) : res contents :=
  match ct_end c with
  | None => Panic "end freed"
  | Some e => Ok (mk_contents (take (S e) (ct_lines c) ++ [line]) (ct_count c + 1) (ct_changes c) (Some (S e)) (ct_freed c))
  end.

Definition end_cmd (text : list Z) (c : contents) : res contents :=
  let* c := append text c in
  Ok (mk_contents (ct_lines c) (ct_count c) (ct_changes c + 1) (ct_end c) (ct_freed c)).

(** The node after which the new one goes, from node [i] (1-based) on. *)
Fixpoint add_loop (num i : Z) (new_line : list Z) (l : list (list Z)) : option (list (list Z)) :=
  match l with
  | [] => None
  | ln :: l' =>
      if i + 1 =? num then Some (ln :: new_line :: l')
      else match add_loop num (i + 1) new_line l' with Some l'' => Some (ln :: l'') | None => None end
  end.

(** Where [end] points after a node was put in behind node [p] (0-based). *)
Definition shift_end (p : Z) (e : option nat) : option nat :=
  match e with Some e => Some (if p <? Z.of_nat e then S e else e) | None => None end.

Definition add (text : list Z) (c : contents) (line_num : list Z) : contents :=
  let num := atoi_s line_num in
  match add_loop num 1 text (ct_lines c) with
  | Some l => mk_contents l (ct_count c + 1) (ct_changes c + 1) (shift_end (num - 2) (ct_end c)) (ct_freed c)
  | None => mk_contents (ct_lines c) (ct_count c) (ct_changes c + 1) (ct_end c) (ct_freed c)
  end.

Fixpoint edit_loop (num i : Z) (new_line : list Z) (l : list (list Z)) : option (list (list Z)) :=
  match l with
  | [] => None
  | ln :: l' =>
      if i =? num then Some (new_line :: l')
      else match edit_loop num (i + 1) new_line l' with Some l'' => Some (ln :: l'') | None => None end
  end.

Definition edit (text : list Z) (c : contents) (line_num : list Z) : contents :=
  match edit_loop (atoi_s line_num) 1 text (ct_lines c) with
  | Some l => mk_contents l (ct_count c) (ct_changes c) (ct_end c) (ct_freed c)
  | None => mk_contents (ct_lines c) (ct_count c) (ct_changes c + 1) (ct_end c) (ct_freed c)
  end.

(** ** Ranges *)

Record range := mk_range { rg_start : Z; rg_end : Z; rg_length : Z }.

Section ranges.
Context (junk : list Z).

(** [memmove(buf, s, 4)] and [atoi(buf)]. *)
Definition atoi4 (s : list Z) : Z := atoi_s (if (4 <=? length s)%nat then take 4 s ++ junk else s).

(** The loop of [convert_range]: [pre] is what it has passed. *)
Fixpoint range_loop (input pre s : list Z) : option range :=
  match s with
  | [] => None
  | c :: s' =>
      if c =? COLON then
        let '(st, en) :=
          match pre with
          | [] => if (length input =? 1)%nat then (0, 0) else (0, atoi4 s')
          | _ => (atoi4 input, atoi4 s')
          end in
        Some (mk_range st en (if negb (en =? 0) && negb (st =? 0) then s32 (en - st + 1) else 0))
      else range_loop input (pre ++ [c]) s'
  end.

Definition convert_range (input : list Z) : range :=
  match range_loop input [] input with
  | Some r => r
  | None => mk_range (atoi4 input) (atoi4 input) 1
  end.

(** ** [drop] *)

(** The number of lines asked about. *)
Definition drop_length (r : range) (c : contents) : Z :=
  if (rg_length r =? 0) && negb (rg_start r =? 0) && (rg_end r =? 0) then ct_count c - rg_start r
  else if (rg_length r =? 0) && (rg_start r =? 0) && negb (rg_end r =? 0) then rg_end r
  else if (rg_length r =? 0) && (rg_start r =? 0) && (rg_end r =? 0) then ct_count c
  else rg_length r.

(** [end] after nodes [a .. b-1] were freed and [k] nodes unlinked before those left. *)
Definition cut_end (a b k : nat) (e : option nat) : option nat :=
  match e with
  | Some e => if (e <? a)%nat then Some e else if (e <? b)%nat then None else Some (e - k)%nat
  | None => None
  end.

(** The loop: [i] counts passes, [p] is the position of [start] in the list. *)
Fixpoint drop_loop (n : nat) (r : range) (i : Z) (p : nat) (c : contents) : res contents :=
  match n with
  | O => Ok c
  | S n' =>
      if ct_count c <=? i then Ok c
      else if (rg_end r =? 0) && negb (rg_start r =? 0) && (i =? rg_start r - 2) then
        (* cut behind the node; all but one of the freed are counted *)
        match drop (S p) (ct_lines c) with
        | [] => Panic "null node"
        | rest => Ok (mk_contents (take (S p) (ct_lines c)) (ct_count c - (Z.of_nat (length rest) - 1)) (ct_changes c)
                        (cut_end (S p) (length (ct_lines c)) 0 (ct_end c)) (ct_freed c))
        end
      else if negb (rg_end r =? 0) && (rg_start r =? 0) && (i <=? rg_end r - 1) then
        (* the node becomes the one before the head *)
        if (length (ct_lines c) <=? p)%nat then Panic "null node"
        else drop_loop n' r (i + 1) 0
               (mk_contents (drop (S p) (ct_lines c)) (ct_count c - 1) (ct_changes c) (cut_end 0 (S p) (S p) (ct_end c)) (ct_freed c))
      else if negb ((rg_end r =? 0) && (rg_start r =? 0)) && (rg_start r - 2 <=? i) && (i <=? rg_end r) && negb (rg_start r =? 0) && negb (rg_end r =? 0) then
        (* nodes i .. end-1 are freed, the first of them stays linked *)
        if rg_end r - 1 <? i then Panic "cyclic list"
        else if Z.of_nat (length (ct_lines c)) <? rg_end r then Panic "null node"
        else Ok (mk_contents (take (S p) (ct_lines c) ++ drop (Z.to_nat (rg_end r)) (ct_lines c)) (ct_count c - (rg_end r - i)) (ct_changes c)
                   (cut_end p (Z.to_nat (rg_end r)) (Z.to_nat (rg_end r) - S p) (ct_end c)) true)
      else if (length (ct_lines c) <=? p)%nat then Panic "null node"
      else drop_loop n' r (i + 1) (S p) c
  end.

Definition drop_cmd (confirmed : bool) (input : list Z) (c : contents) : res contents :=
  let r := convert_range input in
  if negb confirmed then Ok c
  else
    let c := mk_contents (ct_lines c) (ct_count c) (ct_changes c + 1) (ct_end c) (ct_freed c) in
    drop_loop (Z.to_nat (ct_count c)) r 0 0 c.

(** ** Output *)

Definition num_length (n : Z) : Z :=
  if n <? 10 then 1 else if n <? 100 then 2 else if n <? 1000 then 3 else if n <? 10000 then 4 else if n <? 100000 then 5
  else if n <? 1000000 then 6 else if n <? 10000000 then 7 else if n <? 100000000 then 8 else if n <? 1000000000 then 9 else 0.

(** "%d: %s" with the number right-aligned. *)
Definition list_line (width i : Z) (ln : list Z) : list Z :=
  repeat 32 (Z.to_nat (width - num_length i)) ++ printint i 10 true true ++ [COLON; 32] ++ ln ++ [LF].

Fixpoint list_loop (r : range) (width i : Z) (l : list (list Z)) : list Z :=
  match l with
  | [] => []
  | ln :: l' =>
      let out := list_line width i ln in
      (if (rg_end r =? 0) && negb (rg_start r =? 0) && (rg_start r <=? i) then out else []) ++
      (if negb (rg_end r =? 0) && (rg_start r =? 0) && (i <=? rg_start r) then out else []) ++
      (if (rg_end r =? 0) && (rg_start r =? 0) then out else []) ++
      (if (rg_start r <=? i) && (i <=? rg_end r) then out else []) ++
      list_loop r width (i + 1) l'
  end.

Definition list_cmd (input : list Z) (c : contents) : list Z :=
  let r := convert_range input in
  let width := if negb (rg_end r =? 0) then num_length (rg_end r) else num_length (ct_count c) in
  [LF; LF] ++ list_loop r width 1 (ct_lines c) ++ [LF].
End ranges.

(** ** [find] *)

(** The scan of one line: [k] characters of the text matched so far. *)
Fixpoint find_line (text line : list Z) (k : nat) (found : bool) : bool :=
  match line with
  | [] => found
  | ch :: line' =>
      let k := if bool_decide (text !! k = Some ch) then S k else 0%nat in
      find_line text line' k (found || (k =? length text)%nat)
  end.

Fixpoint find_lines (text : list Z) (i : Z) (l : list (list Z)) : list Z :=
  match l with
  | [] => []
  | ln :: l' => if find_line text ln 0 false then i :: find_lines text (i + 1) l' else find_lines text (i + 1) l'
  end.

(** The line numbers printed; none when the text is reported missing. *)
Definition find (text : list Z) (c : contents) : option (list Z) :=
  let ms := find_lines text 1 (ct_lines c) in
  if 0 <? Z.of_nat (length ms) - 1 then Some ms else None.

(** ** Files *)

(** The list of a file's bytes, with the counters reset. *)
Definition read_contents (bytes : list Z) : contents :=
  let l := read_file bytes in
  mk_contents l (Z.of_nat (length l)) 0 (Some (length l - 1)%nat) false.

(** The bytes written, and the file they leave: it is not truncated. *)
Definition save_bytes (c : contents) : list Z := concat (map (fun l => l ++ [LF]) (ct_lines c)).
Definition save_file (c : contents) (old : list Z) : list Z := save_bytes c ++ drop (length (save_bytes c)) old.

(** ** Commands *)

Definition isSpace (c : Z) : bool := in_str whitespace c.

Definition char_to_upper (c : Z) : Z := if (97 <=? c) && (c <=? 122) then c - 32 else c.
Definition string_to_upper (s : list Z) : list Z := map char_to_upper s.

(** "@END", "ADD<", "DROP", "EDIT", "LIST", "QUIT", "COPY", "FIND", "FLIP", "HELP", "OPEN", "SAVE", "SORT" *)
Definition AT_END : list Z := [64; 69; 78; 68].
Definition ADD : list Z := [65; 68; 68; 60].
Definition DROP : list Z := [68; 82; 79; 80].
Definition EDIT : list Z := [69; 68; 73; 84].
Definition LIST_ : list Z := [76; 73; 83; 84].
Definition QUIT : list Z := [81; 85; 73; 84].
Definition COPY : list Z := [67; 79; 80; 89].
Definition FIND : list Z := [70; 73; 78; 68].
Definition FLIP : list Z := [70; 76; 73; 80].
Definition HELP : list Z := [72; 69; 76; 80].
Definition OPEN : list Z := [79; 80; 69; 78].
Definition SAVE : list Z := [83; 65; 86; 69].
Definition SORT : list Z := [83; 79; 82; 84].
Definition commands_alone : list (list Z) := [AT_END; ADD; DROP; EDIT; LIST_; QUIT; COPY; FIND; FLIP; HELP; OPEN; SAVE; SORT].

(** Rows of the table left when every character of [s] has been compared. *)
Definition command_converter (s : list Z) : list Z :=
  match filter (fun cm => bool_decide (take (length s) cm = s) = true) commands_alone with
  | [cm] => cm
  | _ => s
  end.

(** The words ended by a white-space character: [cur] is the current one, [done] those before it. *)
Fixpoint parse_words (words : list (list Z)) (cur buf : list Z) : res (list (list Z)) :=
  match buf with
  | [] => Ok words
  | c :: buf' =>
      let room := usable (if (length words =? 0)%nat then 5 else 30) in
      if room <=? Z.of_nat (length cur) then Panic "argument overrun"
      else if isSpace c then
        if (10 <=? S (length words))%nat then Panic "argv overrun" else parse_words (words ++ [cur]) [] buf'
      else parse_words words (cur ++ [c]) buf'
  end.

Definition parsecmd (buf : list Z) : res (list (list Z)) :=
  let* ws := parse_words [] [] buf in
  Ok (match ws with
      | [] => []
      | w :: ws' =>
          let w := string_to_upper w in
          (if (length w <? 4)%nat && (0 <? length w)%nat then command_converter w else w) :: ws'
      end).

(** Words from [start] on, joined by blanks, in a block of 10 bytes for each word. *)
Fixpoint join_words (ws : list (list Z)) : list Z :=
  match ws with
  | [] => []
  | [w] => w
  | w :: ws' => w ++ 32 :: join_words ws'
  end.

Definition commands_to_text (argv : list (list Z)) (start : nat) : res (list Z) :=
  if (length argv <=? start)%nat then Panic "text not set"
  else
    let t := join_words (drop start argv) in
    if usable (10 * Z.of_nat (length argv)) <=? Z.of_nat (length t) then Panic "text overrun" else Ok t.

(** The editor, the files and what is still to be typed. *)
Record session := mk_session { se_contents : contents; se_files : list Z -> option (list Z); se_input : list Z }.

Definition set_contents (s : session) (c : contents) : session := mk_session c (se_files s) (se_input s).

(** [gets] into a buffer of 100. *)
Definition ed_getcmd (input : list Z) : option (list Z * list Z) :=
  let (l, rest) := gets 99 input in
  match cstr l with [] => None | s => Some (s, rest) end.

(** [confirm]: lines until one is a single Y or N. *)
Fixpoint confirm (n : nat) (input : list Z) : res (bool * list Z) :=
  match n with
  | O => Blocked
  | S n' =>
      match ed_getcmd input with
      | None => Ok (false, snd (gets 99 input))
      | Some (s, rest) =>
          match s with
          | [c; nl] =>
              if (nl =? LF) && (char_to_upper c =? 89) then Ok (true, rest)
              else if (nl =? LF) && (char_to_upper c =? 78) then Ok (false, rest)
              else confirm n' rest
          | _ => confirm n' rest
          end
      end
  end.

Definition ask (s : session) : res (bool * session) :=
  let* (b, rest) := confirm (S (length (se_input s))) (se_input s) in
  Ok (b, mk_session (se_contents s) (se_files s) rest).

Definition save_to (fd : list Z) (s : session) : session :=
  let old := match se_files s fd with Some l => l | None => [] end in
  mk_session (se_contents s) (fun f => if bool_decide (f = fd) then Some (save_file (se_contents s) old) else se_files s f) (se_input s).

Definition new_open (fd : list Z) (s : session) : res session :=
  match se_files s fd with
  | None => Ok s
  | Some bytes => let* (b, s) := ask s in Ok (if b then set_contents s (read_contents bytes) else s)
  end.

(** A missing argument is a null pointer. *)
Definition arg1 (argv : list (list Z)) : res (list Z) := match argv with _ :: a :: _ => Ok a | _ => Panic "null argument" end.

(** [true] when the editor exits. *)
Definition run_command (junk : list Z) (argv : list (list Z)) (fd : list Z) (s : session) : res (bool * session) :=
  let c := se_contents s in
  match argv with
  | [] => Panic "null argument"
  | a :: _ =>
      if bool_decide (a = AT_END) then
        let* t := commands_to_text argv 1 in let* c := end_cmd t c in Ok (false, set_contents s c)
      else if bool_decide (a = ADD) then
        let* t := commands_to_text argv 2 in let* n := arg1 argv in Ok (false, set_contents s (add t c n))
      else if bool_decide (a = DROP) then
        let* r := arg1 argv in
        let* (b, s) := ask s in
        let* c := drop_cmd junk b r c in Ok (false, set_contents s c)
      else if bool_decide (a = EDIT) then
        let* t := commands_to_text argv 2 in let* n := arg1 argv in Ok (false, set_contents s (edit t c n))
      else if bool_decide (a = LIST_) then let* _ := arg1 argv in Ok (false, s)
      else if bool_decide (a = FIND) then let* _ := commands_to_text argv 1 in Ok (false, s)
      else if bool_decide (a = OPEN) then let* f := arg1 argv in let* s := new_open f s in Ok (false, s)
      else if bool_decide (a = SAVE) then
        let* (b, s) := ask s in
        Ok (false, if b then save_to (match argv with [_] => fd | _ :: f :: _ => f | [] => fd end) s else s)
      else if bool_decide (a = QUIT) then
        if ct_changes c =? 0 then Ok (true, s)
        else let* (b, s) := ask s in Ok (true, if b then save_to fd s else s)
      else Ok (false, s)
  end.

(** The command loop, one unit of [n] per line. *)
Fixpoint xvedit (n : nat) (junk fd : list Z) (s : session) : res session :=
  match n with
  | O => Blocked
  | S n' =>
      match ed_getcmd (se_input s) with
      | None => Ok s
      | Some (buf, rest) =>
          let* argv := parsecmd buf in
          let* (stop, s) := run_command junk argv fd (mk_session (se_contents s) (se_files s) rest) in
          if stop then Ok s else xvedit n' junk fd s
      end
  end.

(** ** What the commands do *)

(** The counters agree with the list and [end] is its last node. *)
Record ct_ok (c : contents) : Prop := {
  co_count : ct_count c = Z.of_nat (length (ct_lines c));
  co_lines : ct_lines c <> [];
  co_end : ct_end c = Some (length (ct_lines c) - 1)%nat;
  co_freed : ct_freed c = false
}.

Lemma add_loop_spec num l : forall i t, add_loop num i t l =
  if (i <? num) && (num <=? i + Z.of_nat (length l)) then Some (take (Z.to_nat (num - i)) l ++ t :: drop (Z.to_nat (num - i)) l) else None.
Proof.
  induction l as [|ln l IH]; intros i t; cbn [add_loop length].
  - destruct (Z.ltb_spec i num), (Z.leb_spec num (i + Z.of_nat 0)); cbn [andb]; try done; lia.
  - destruct (Z.eqb_spec (i + 1) num) as [<-|Hne].
    + replace (i + 1 - i) with 1 by lia. destruct (Z.ltb_spec i (i + 1)), (Z.leb_spec (i + 1) (i + Z.of_nat (S (length l)))); cbn [andb]; try lia. done.
    + rewrite IH. destruct (Z.ltb_spec (i + 1) num), (Z.leb_spec num (i + 1 + Z.of_nat (length l))), (Z.ltb_spec i num), (Z.leb_spec num (i + Z.of_nat (S (length l))));
        cbn [andb]; try done; try lia. replace (Z.to_nat (num - i)) with (S (Z.to_nat (num - (i + 1)))) by lia. done.
Qed.

Lemma edit_loop_spec num l : forall i t, edit_loop num i t l =
  if (i <=? num) && (num <? i + Z.of_nat (length l)) then Some (<[Z.to_nat (num - i) := t]> l) else None.
Proof.
  induction l as [|ln l IH]; intros i t; cbn [edit_loop length].
  - destruct (Z.leb_spec i num), (Z.ltb_spec num (i + Z.of_nat 0)); cbn [andb]; try done; lia.
  - destruct (Z.eqb_spec i num) as [<-|Hne].
    + rewrite Z.sub_diag. destruct (Z.leb_spec i i), (Z.ltb_spec i (i + Z.of_nat (S (length l)))); cbn [andb]; try lia. done.
    + rewrite IH. destruct (Z.leb_spec (i + 1) num), (Z.ltb_spec num (i + 1 + Z.of_nat (length l))), (Z.leb_spec i num), (Z.ltb_spec num (i + Z.of_nat (S (length l))));
        cbn [andb]; try done; try lia. replace (Z.to_nat (num - i)) with (S (Z.to_nat (num - (i + 1)))) by lia. done.
Qed.

Lemma end_cmd_ok c text : ct_ok c -> end_cmd text c = Ok (mk_contents (ct_lines c ++ [text]) (ct_count c + 1) (ct_changes c + 1) (Some (length (ct_lines c))) false).
Proof.
  intros [H1 H2 H3 H4]. unfold end_cmd, append. rewrite H3, H4. cbn [rbind ct_lines ct_count ct_changes ct_end ct_freed].
  destruct (ct_lines c) as [|ln l] eqn:E; [done|]. cbn [length] in *. replace (S (S (length l) - 1))%nat with (S (length l)) by lia.
  rewrite take_ge by (cbn; lia). done.
Qed.

(** A command left [c']: the invariant holds, with these lines and changes. *)
Definition edited (c' : contents) (l : list (list Z)) (changes : Z) : Prop := ct_ok c' /\ ct_lines c' = l /\ ct_changes c' = changes.


(** Lines "a", "b" and "c". *)
Definition wit_contents : contents := read_contents [97; 10; 98; 10; 99].

Lemma wit_contents_ok : ct_ok wit_contents.
Proof. split; [reflexivity | discriminate | reflexivity | reflexivity]. Qed.


(** A line added behind the last one is lost by the next append.  [ADD<] with
    the number after the last line puts its text there without moving
    [contents->end]; a following [@END] then hangs the new node on the old last
    line, and the line added before is gone. *)
Theorem add_last_lost c text text2 c' :
  ct_ok c -> ct_count c < 2 ^ 31 - 1 -> add text c (print_num (ct_count c + 1)) = c' ->
  ct_lines c' = ct_lines c ++ [text] /\
  exists c'', end_cmd text2 c' = Ok c'' /\ ct_lines c'' = ct_lines c ++ [text2] /\ ct_count c'' = Z.of_nat (length (ct_lines c'')) + 1.
Proof.
  intros [H1 H2 H3 H4] Hc <-. unfold add. rewrite atoi_print_num, add_loop_spec by lia.
  destruct (Z.ltb_spec 1 (ct_count c + 1)) as [|Hlt]; [|destruct (ct_lines c); [done | cbn [length] in *; lia]].
  destruct (Z.leb_spec (ct_count c + 1) (1 + Z.of_nat (length (ct_lines c)))); [|lia]. cbn [andb ct_lines].
  rewrite take_ge, drop_ge by lia. split; [done|]. unfold end_cmd, append. cbn [ct_end ct_lines ct_count ct_changes ct_freed]. rewrite H3. cbn [shift_end].
  destruct (Z.ltb_spec (ct_count c + 1 - 2) (Z.of_nat (length (ct_lines c) - 1))); [lia|]. cbn [rbind]. eexists. split; [reflexivity|]. cbn [ct_lines ct_count].
  assert (S (length (ct_lines c) - 1) = length (ct_lines c)) as -> by (destruct (ct_lines c); [done | cbn [length]; lia]).
  rewrite take_app_length. split; [done|]. rewrite length_app. cbn [length]. lia.
Qed.

Lemma add_last_lost_witness : exists c'', end_cmd [121] (add [120] wit_contents (print_num 4)) = Ok c'' /\ ct_lines c'' = [[97]; [98]; [99]; [121]].
Proof.
  destruct (add_last_lost wit_contents [120] [121] _ wit_contents_ok ltac:(cbn; lia) eq_refl) as (_ & c'' & E & H & _). exists c''. split; [exact E | exact H].
Defined.

(** *** Listing *)

(** The ranges of the manual, with numbers below 1000. *)
Inductive rspec := Lone (a : Z) | FromTo (a b : Z) | From (a : Z) | To (b : Z) | Whole.

Definition print_range (r : rspec) : list Z :=
  match r with
  | Lone a => print_num a
  | FromTo a b => print_num a ++ COLON :: print_num b
  | From a => print_num a ++ [COLON]
  | To b => COLON :: print_num b
  | Whole => [COLON]
  end.

Definition rspec_ok (r : rspec) : Prop :=
  match r with Lone a | From a | To a => 1 <= a < 1000 | FromTo a b => 1 <= a < 1000 /\ 1 <= b < 1000 | Whole => True end.

Definition in_rspec (r : rspec) (i : Z) : bool :=
  match r with Lone a => i =? a | FromTo a b => (a <=? i) && (i <=? b) | From a => a <=? i | To b => i <=? b | Whole => true end.

Lemma print_num_length n : 0 <= n < 1000 -> (length (print_num n) <= 3)%nat.
Proof.
  intros Hn. unfold print_num, printint, print_buf. cbn [andb]. destruct (Z.ltb_spec n 0); [lia|]. rewrite app_nil_r, length_rev, u32_small by lia.
  apply digits_loop_length; [lia | change (10 ^ Z.of_nat 3) with 1000; lia | lia].
Qed.

Section list_proofs.
Context (junk : list Z).

Lemma atoi4_num n rest : 0 <= n < 1000 -> (rest = [] \/ exists r, rest = COLON :: r) -> atoi4 junk (print_num n ++ rest) = n.
Proof.
  intros Hn Hr. destruct (print_nonneg n false ltac:(lia)) as (_ & _ & Ha). fold (print_num n) in Ha. pose proof (print_num_length n Hn) as Hlen.
  assert (Hc : forall r, atoi_s (print_num n ++ COLON :: r) = n) by (intros r; unfold atoi_s; by rewrite Ha).
  unfold atoi4. destruct Hr as [->|[r ->]].
  - rewrite app_nil_r. destruct (Nat.leb_spec 4 (length (print_num n))); [lia|]. by apply atoi_print_num; lia.
  - destruct (_ <=? _)%nat; [|apply Hc]. rewrite take_app. destruct (4 - length (print_num n))%nat eqn:E; [lia|].
    rewrite (take_ge (print_num n)) by lia. cbn [take]. rewrite <- app_assoc. apply Hc.
Qed.

Lemma range_loop_pass input w : forall pre s, Forall (fun c => c <> COLON) w -> range_loop junk input pre (w ++ s) = range_loop junk input (pre ++ w) s.
Proof.
  induction w as [|c w IH]; intros pre s Hw; [by rewrite app_nil_r|]. apply Forall_cons_1 in Hw as [Hc Hw]. cbn [app range_loop].
  destruct (Z.eqb_spec c COLON); [done|]. rewrite IH by done. by rewrite <- app_assoc.
Qed.

Lemma num_no_colon n : 0 <= n < 1000 -> Forall (fun c => c <> COLON) (print_num n) /\ print_num n <> [].
Proof.
  intros Hn. split; [|apply (print_nonneg n false); lia]. eapply Forall_impl; [apply print_num_chars; lia|]. cbn. unfold COLON. lia.
Qed.

(** [convert_range] understands what the manual describes. *)
Lemma convert_range_print r : rspec_ok r -> let g := convert_range junk (print_range r) in
  (rg_start g, rg_end g) = match r with Lone a => (a, a) | FromTo a b => (a, b) | From a => (a, 0) | To b => (0, b) | Whole => (0, 0) end.
Proof.
  intros Hr g. unfold g, convert_range. clear g. destruct r as [a|a b|a|b|]; cbn [print_range rspec_ok] in *; [| | | |done].
  - assert (Hl : range_loop junk (print_num a) [] (print_num a ++ []) = None) by (by rewrite range_loop_pass by (apply num_no_colon; lia)).
    rewrite app_nil_r in Hl. rewrite Hl. cbn [rg_start rg_end]. pose proof (atoi4_num a [] ltac:(lia) (or_introl eq_refl)) as E. rewrite app_nil_r in E. by rewrite E.
  - rewrite range_loop_pass by (apply num_no_colon; lia). destruct (num_no_colon a ltac:(lia)) as [_ Hne]. cbn [app range_loop]. rewrite Z.eqb_refl.
    rewrite (atoi4_num a) by (eauto; lia). pose proof (atoi4_num b [] ltac:(lia) (or_introl eq_refl)) as E. rewrite app_nil_r in E. rewrite E. by destruct (print_num a).
  - rewrite range_loop_pass by (apply num_no_colon; lia). destruct (num_no_colon a ltac:(lia)) as [_ Hne]. cbn [app range_loop]. rewrite Z.eqb_refl.
    rewrite (atoi4_num a) by (eauto; lia). by destruct (print_num a).
  - destruct (num_no_colon b ltac:(lia)) as [_ Hne]. cbn [range_loop]. rewrite Z.eqb_refl.
    pose proof (atoi4_num b [] ltac:(lia) (or_introl eq_refl)) as E. rewrite app_nil_r in E. rewrite E. by destruct (print_num b).
Qed.

Lemma list_loop_select r sp w l : forall i, 1 <= i -> rspec_ok sp -> (rg_start r, rg_end r) = (match sp with Lone a => (a, a) | FromTo a b => (a, b) | From a => (a, 0) | To b => (0, b) | Whole => (0, 0) end) ->
  list_loop r w i l = concat (imap (fun k ln => if in_rspec sp (i + Z.of_nat k) then list_line w (i + Z.of_nat k) ln else []) l).
Proof.
  induction l as [|ln l IH]; intros i Hi Hsp E; [done|]. cbn [list_loop]. rewrite imap_cons. cbn [concat]. rewrite Z.add_0_r, (IH (i + 1)) by (auto; lia).
  assert (Hrest : imap (fun k ln => if in_rspec sp (i + 1 + Z.of_nat k) then list_line w (i + 1 + Z.of_nat k) ln else []) l =
                  imap (fun k ln => if in_rspec sp (i + Z.of_nat (S k)) then list_line w (i + Z.of_nat (S k)) ln else []) l).
  { apply imap_ext. intros k x _. by replace (i + 1 + Z.of_nat k) with (i + Z.of_nat (S k)) by lia. }
  rewrite Hrest. unfold compose. rewrite !app_assoc. f_equal. set (out := list_line w i ln). 
  destruct sp as [a|a b|a|b|]; injection E as E1 E2; rewrite E1, E2; cbn [in_rspec rspec_ok] in *; zcases; rewrite ?app_nil_r; done.
Qed.
End list_proofs.

(** The width of the numbers: of the end of the range, or of the number of lines. *)
Definition range_width (r : rspec) (c : contents) : Z :=
  num_length (match r with Lone a => a | FromTo _ b => b | To b => b | _ => ct_count c end).

(** [LIST] prints exactly the lines of its range.  For every range the manual
    describes, with numbers of up to three digits, the lines inside it are
    printed in order, each once, with its number, padded to the width of the
    range's end or of the number of lines, and nothing else, whatever the unset
    bytes of the number buffers hold. *)
Theorem list_range junk r c : rspec_ok r ->
  list_cmd junk (print_range r) c =
    [LF; LF] ++ concat (imap (fun k ln => if in_rspec r (1 + Z.of_nat k) then list_line (range_width r c) (1 + Z.of_nat k) ln else []) (ct_lines c)) ++ [LF].
Proof.
  intros Hr. pose proof (convert_range_print junk r Hr) as E. unfold list_cmd. set (g := convert_range junk (print_range r)) in *.
  assert (Hw : (if negb (rg_end g =? 0) then num_length (rg_end g) else num_length (ct_count c)) = range_width r c).
  { apply (f_equal snd) in E. cbn [snd] in E. rewrite E. unfold range_width. clear g E. destruct r as [a|a b|a|b|]; cbn [rspec_ok snd] in *; zcases; done. }
  rewrite Hw. f_equal. f_equal. by apply list_loop_select; [lia| |].
Qed.

Lemma list_range_witness : list_cmd [7] (print_range (To 2)) wit_contents = [LF; LF] ++ list_line 1 1 [97] ++ list_line 1 2 [98] ++ [LF].
Proof.
  rewrite (list_range [7] (To 2) wit_contents); [reflexivity | cbn; lia].
Defined.

(** *** Files *)

Lemma save_print l : concat (map (fun l => l ++ [LF]) l) = print_file (l ++ [[]]).
Proof.
  induction l as [|x l IH]; [done|]. cbn [map concat]. rewrite IH, <- app_assoc. cbn [app]. destruct l as [|y l]; done.
Qed.

(** Saving and opening again.  A file saved by the editor, if it was not longer
    before, opens with the lines that were saved and one empty line more, and
    so grows by a line with every round. *)
Theorem save_open_grows c old :
  Forall (Forall (fun ch => ch <> LF)) (ct_lines c) -> (length old <= length (save_bytes c))%nat ->
  let c' := read_contents (save_file c old) in
  ct_lines c' = ct_lines c ++ [[]] /\ ct_ok c' /\ ct_changes c' = 0.
Proof.
  intros Hl Hold c'. unfold c', read_contents, save_file. rewrite (drop_ge old) by done. rewrite app_nil_r. unfold save_bytes. rewrite save_print, read_file_lines.
  - cbn [ct_lines ct_changes]. split_and!; [done | | done]. split; cbn [ct_count ct_lines ct_end ct_freed]; auto. by destruct (ct_lines c).
  - by destruct (ct_lines c).
  - apply Forall_app. split; [done|]. repeat constructor.
Qed.

Lemma save_open_grows_witness : ct_lines (read_contents (save_file wit_contents [])) = [[97]; [98]; [99]; []].
Proof.
  destruct (save_open_grows wit_contents []) as [E _]; [| cbn; lia |].
  - repeat (apply Forall_cons_2; [repeat (apply Forall_cons_2; [discriminate|]); apply Forall_nil_2|]). apply Forall_nil_2.
  - rewrite E. reflexivity.
Defined.

(** Saving a shorter text keeps the old end of the file.  The file is opened
    without truncation (the system has none), so every byte of the old file
    behind the new text stays: what was deleted from the end comes back when
    the file is opened again. *)
Theorem save_keeps_old_tail c old i : (length (save_bytes c) <= i < length old)%nat -> save_file c old !! i = old !! i.
Proof.
  intros Hi. unfold save_file. rewrite lookup_app_r by lia. rewrite lookup_drop. f_equal. lia.
Qed.

Lemma save_keeps_old_tail_witness : save_file wit_contents [1; 2; 3; 4; 5; 6; 7; 8] !! 7%nat = Some 8.
Proof. rewrite (save_keeps_old_tail wit_contents [1; 2; 3; 4; 5; 6; 7; 8] 7); [reflexivity | cbn; lia]. Defined.

(** [EDIT] is lost by [QUIT].  Replacing a line does not count as a change, so
    quitting right after it exits without asking and the file keeps its old
    contents. *)
Theorem edit_quit_discards junk fd s num text :
  ct_changes (se_contents s) = 0 -> 1 <= num <= Z.of_nat (length (ct_lines (se_contents s))) -> num < 2 ^ 31 ->
  commands_to_text [EDIT; print_num num; text] 2 = Ok text ->
  exists s', run_command junk [EDIT; print_num num; text] fd s = Ok (false, s') /\
    ct_lines (se_contents s') = <[Z.to_nat (num - 1) := text]> (ct_lines (se_contents s)) /\
    run_command junk [QUIT] fd s' = Ok (true, s') /\ se_files s' = se_files s.
Proof.
  intros Hc Hn Hn' Ht. unfold run_command at 1. cbv [bool_decide decide_rel]. rewrite Ht. cbn [rbind arg1].
  set (c' := edit text (se_contents s) (print_num num)). assert (Hc' : ct_lines c' = <[Z.to_nat (num - 1) := text]> (ct_lines (se_contents s)) /\ ct_changes c' = 0).
  { unfold c', edit. rewrite atoi_print_num, edit_loop_spec by lia.
    destruct (Z.leb_spec 1 num), (Z.ltb_spec num (1 + Z.of_nat (length (ct_lines (se_contents s))))); cbn [andb]; try lia. done. }
  destruct Hc' as [Hl Hch]. exists (set_contents s c'). split_and!; auto. unfold run_command. cbn [se_contents set_contents]. by rewrite Hch.
Qed.

Lemma edit_quit_discards_witness : exists s', run_command [] [QUIT] [] s' = Ok (true, s') /\ ct_lines (se_contents s') = [[97]; [120]; [99]].
Proof.
  destruct (edit_quit_discards [] [] (mk_session wit_contents (fun _ => None) []) 2 [120]) as (s' & _ & H1 & H2 & _).
  - reflexivity.
  - cbn. lia.
  - lia.
  - reflexivity.
  - exists s'. split; [exact H2 | rewrite H1; reflexivity].
Defined.

(** *** Searching *)

(** [found] means that the text occurs in what has been read, and [k] of its
    characters are the last ones read. *)
Lemma find_line_sound text line : forall pre k found, (found = true -> exists a b, pre = a ++ text ++ b) -> (exists a, pre = a ++ take k text) -> (k <= length text)%nat ->
  find_line text line k found = true -> exists a b, pre ++ line = a ++ text ++ b.
Proof.
  induction line as [|ch line IH]; intros pre k found Hf [a Ha] Hk H; cbn [find_line] in H; [rewrite app_nil_r; auto|].
  rewrite (cons_middle ch), app_assoc. cbn [app]. destruct (bool_decide_reflect (text !! k = Some ch)) as [E|E].
  - assert (Hp : pre ++ [ch] = a ++ take (S k) text) by (rewrite (take_S_r _ _ _ E), app_assoc; by rewrite Ha).
    apply lookup_lt_Some in E. apply (IH (pre ++ [ch]) (S k)) in H; [done | | eauto | lia].
    intros [Hfound|Hfull]%orb_true_iff; [destruct (Hf Hfound) as (x & y & ->); exists x, (y ++ [ch]); by rewrite <- !app_assoc|].
    apply Nat.eqb_eq in Hfull. exists a, []. by rewrite app_nil_r, Hp, take_ge by lia.
  - apply (IH (pre ++ [ch]) 0%nat) in H; [done | | exists (pre ++ [ch]); by rewrite app_nil_r | lia].
    intros [Hfound|Hfull]%orb_true_iff; [destruct (Hf Hfound) as (x & y & ->); exists x, (y ++ [ch]); by rewrite <- !app_assoc|].
    apply Nat.eqb_eq in Hfull. destruct text; [|done]. exists (pre ++ [ch]), []. by rewrite app_nil_r.
Qed.

Lemma find_lines_in text l : forall i m, m ∈ find_lines text i l -> exists k ln, m = i + Z.of_nat k /\ l !! k = Some ln /\ find_line text ln 0 false = true.
Proof.
  induction l as [|ln l IH]; intros i m Hm; cbn [find_lines] in Hm; [by apply elem_of_nil in Hm|].
  assert (Hrest : m ∈ find_lines text (i + 1) l -> exists k ln0, m = i + Z.of_nat k /\ (ln :: l) !! k = Some ln0 /\ find_line text ln0 0 false = true).
  { intros (k & x & -> & Hk & Hx)%IH. exists (S k), x. split; [lia | done]. }
  destruct (find_line text ln 0 false) eqn:E; [|auto]. apply elem_of_cons in Hm as [->|Hm]; [|auto]. exists 0%nat, ln. split; [lia | done].
Qed.

(** Every line [FIND] reports contains the text, as a run of consecutive
    characters. *)
Theorem find_sound text c ms m : find text c = Some ms -> m ∈ ms ->
  exists k ln a b, m = 1 + Z.of_nat k /\ ct_lines c !! k = Some ln /\ ln = a ++ text ++ b.
Proof.
  unfold find. destruct (0 <? _); [|done]. intros [= <-] Hm. apply find_lines_in in Hm as (k & ln & -> & Hk & Hf).
  apply (find_line_sound text ln [] 0) in Hf as (a & b & E); [|done | by exists [] | lia]. by exists k, ln, a, b.
Qed.

Lemma find_sound_witness : exists k ln a b, 2 = 1 + Z.of_nat k /\ ct_lines (read_contents [97; 10; 98; 97]) !! k = Some ln /\ ln = a ++ [97] ++ b.
Proof. apply (find_sound [97] (read_contents [97; 10; 98; 97]) [1; 2] 2); [reflexivity | set_solver]. Defined.

(** [FIND] misses matches.  When a character breaks a partial match the search
    goes on behind it without trying the character as a first one, so "ab" is
    not found in "aab"; and a text on exactly one line is reported missing,
    because the last index, not the number of matches, is compared with 0. *)
Theorem find_misses :
  (forall a b, a <> b -> find_line [a; b] [a; a; b] 0 false = false) /\
  (forall text c ln, find_lines text 1 (ct_lines c) = [ln] -> find text c = None).
Proof.
  split.
  - intros a b Hab. assert (E1 : bool_decide (Some a = Some a) = true) by (by apply bool_decide_eq_true_2).
    assert (E2 : bool_decide (Some b = Some a) = false) by (apply bool_decide_eq_false_2; by intros [=]).
    assert (E3 : bool_decide (Some a = Some b) = false) by (apply bool_decide_eq_false_2; by intros [=]).
    cbn [find_line lookup list_lookup]. rewrite E1. cbn [lookup list_lookup length Nat.eqb orb]. rewrite E2. cbn [lookup list_lookup length Nat.eqb orb]. by rewrite E3.
  - intros text c ln E. unfold find. by rewrite E.
Qed.

(** The loop ends: a session's input is read line by line. *)
Example xvedit_session :
  xvedit 9 [] [102] (mk_session wit_contents (fun _ => None)
    [101; 100; 105; 116; 32; 50; 32; 104; 105; 10;  (* edit 2 hi *)
     64; 32; 122; 10;                               (* @ z *)
     113; 10; 121; 10])                             (* q, y *)
  = (let s := mk_session (mk_contents [[97]; [104; 105]; [99]; [122]] 4 1 (Some 3%nat) false) (fun _ => None) [] in Ok (save_to [102] s)).
Proof. reflexivity. Qed.
