(* ===== verification/Mkfs.v ===== *)
(** * Building the file system image (src/mkfs.c)

    The image is a disk of [FSSIZE] blocks, zero at first.  An input file is its
    name and the pieces [read] returns; reading a sector behind the end of the
    image makes mkfs exit ([Panic]).  mkfs runs on a little-endian host, where
    [xshort] and [xint] only cut to 16 and 32 bits.  The theorem at the end says
    what the kernel relies on: the image describes itself, its log is empty, its
    bitmap marks exactly the blocks in use, and the inodes hold the files. *)

From S2P Require Import Prelude Layout Blocks Log Balloc Fs FsFile FsDir.

Definition NINODES : Z := 200.
Definition nbitmap : Z := FSSIZE / (BSIZE * 8) + 1.
Definition ninodeblocks : Z := NINODES / IPB + 1.
Definition nlog : Z := LOGSIZE.
Definition nmeta : Z := 2 + nlog + ninodeblocks + nbitmap.
Definition nblocks : Z := FSSIZE - nmeta.

Definition xshort (x : Z) : Z := u16 x.
Definition xint (x : Z) : Z := u32 x.

(** [sb] as [main] fills it. *)
Definition sb : superblock :=
  mk_sb (xint FSSIZE) (xint nblocks) (xint NINODES) (xint nlog) (xint 2) (xint (2 + nlog)) (xint (2 + nlog + ninodeblocks)).

Record mkst := mk_mkst { img : disk; freeinode : Z; freeblock : Z }.

Definition wsect (sec : Z) (buf : mem) (s : mkst) : mkst := mk_mkst (dset (img s) sec buf) (freeinode s) (freeblock s).

Definition rsect (sec : Z) (s : mkst) : res mem := if (0 <=? sec) && (sec <? FSSIZE) then Ok (img s sec) else Panic "read".

(** [freeblock++] *)
Definition next_block (s : mkst) : mkst := mk_mkst (img s) (freeinode s) (freeblock s + 1).

Definition winode (inum : Z) (x : inode) (s : mkst) : res mkst :=
  let bn := IBLOCK inum sb in
  let* buf := rsect bn s in
  Ok (wsect bn (dinode_put buf (dip_off inum) x) s).

Definition rinode (inum : Z) (s : mkst) : res inode :=
  let* buf := rsect (IBLOCK inum sb) s in
  Ok (dinode_get buf (dip_off inum) no_inode).

Definition ialloc (type : Z) (s : mkst) : res (Z * mkst) :=
  let inum := freeinode s in
  let s := mk_mkst (img s) (freeinode s + 1) (freeblock s) in
  let* s := winode inum (mk_inode 0 0 0 false false (xshort type) 0 0 (xshort 1) (xint 0) (repeat 0 13)) s in
  Ok (inum, s).

(** [buf[i/8] = buf[i/8] | (0x1 << (i%8))] for all i below [n]. *)
Fixpoint set_bits (n : nat) (buf : mem) : mem :=
  match n with
  | O => buf
  | S n' =>
      let i := Z.of_nat n' in
      let buf := set_bits n' buf in
      mset buf (i / 8) (u8 (Z.lor (buf (i / 8)) (Z.shiftl 1 (i mod 8))))
  end.

Definition balloc (n : Z) (s : mkst) : res mkst :=
  if BSIZE * 8 <=? n then Panic "assert"
  else Ok (wsect (sb_bmapstart sb) (set_bits (Z.to_nat n) (fun _ => 0)) s).

(** The block of file block [fbn], allocated if it is not there: the first half of the loop. *)
Definition iappend_block (x : inode) (fbn : Z) (s : mkst) : res (Z * inode * mkst) :=
  if fbn <? NDIRECT then
    let '(x, s) := if addr x fbn =? 0 then (set_addr x fbn (xint (freeblock s)), next_block s) else (x, s) in
    Ok (addr x fbn, x, s)
  else
    let '(x, s) := if addr x NDIRECT =? 0 then (set_addr x NDIRECT (xint (freeblock s)), next_block s) else (x, s) in
    let* indirect := rsect (addr x NDIRECT) s in
    if ld32 indirect (4 * (fbn - NDIRECT)) =? 0 then
      let indirect := st32 indirect (4 * (fbn - NDIRECT)) (xint (freeblock s)) in
      Ok (ld32 indirect (4 * (fbn - NDIRECT)), x, wsect (addr x NDIRECT) indirect (next_block s))
    else Ok (ld32 indirect (4 * (fbn - NDIRECT)), x, s).

Fixpoint iappend_loop (fuel : nat) (x : inode) (off : Z) (p : list Z) (s : mkst) : res (inode * Z * mkst) :=
  match p with
  | [] => Ok (x, off, s)
  | _ =>
      match fuel with
      | O => Blocked
      | S fuel' =>
          let fbn := off / BSIZE in
          if MAXFILE <=? fbn then Panic "assert"
          else
            let* (b, x, s) := iappend_block x fbn s in
            let n1 := Z.min (Z.of_nat (length p)) ((fbn + 1) * BSIZE - off) in
            let* buf := rsect b s in
            let s := wsect b (mwrite buf (off - fbn * BSIZE) (take (Z.to_nat n1) p)) s in
            iappend_loop fuel' x (off + n1) (drop (Z.to_nat n1) p) s
      end
  end.

Definition iappend (inum : Z) (p : list Z) (s : mkst) : res mkst :=
  let* x := rinode inum s in
  let* (x, off, s) := iappend_loop (length p) x (i_size x) p s in
  winode inum (set_size x (xint off)) s.

(** A [struct dirent] with [strncpy]'s padding. *)
Definition dirent (inum : Z) (name : list Z) : list Z :=
  [u8 (xshort inum); u8 (xshort inum / 256)] ++ take (Z.to_nat DIRSIZ) (name ++ repeat 0 (Z.to_nat DIRSIZ)).

Fixpoint append_all (inum : Z) (ps : list (list Z)) (s : mkst) : res mkst :=
  match ps with
  | [] => Ok s
  | p :: ps' => let* s := iappend inum p s in append_all inum ps' s
  end.

Definition strip (name : list Z) : list Z := match name with c :: n => if c =? 95 then n else name | [] => [] end.

(** The loop over the arguments. *)
Fixpoint add_files (rootino : Z) (files : list (list Z * list (list Z))) (s : mkst) : res mkst :=
  match files with
  | [] => Ok s
  | (name, ps) :: files' =>
      if bool_decide (SLASH ∈ name) then Panic "assert"
      else
        let* (inum, s) := ialloc T_FILE s in
        let* s := iappend rootino (dirent inum (strip name)) s in
        let* s := append_all inum ps s in
        add_files rootino files' s
  end.

Definition mkfs (files : list (list Z * list (list Z))) : res mkst :=
  let s := mk_mkst (fun _ _ => 0) 1 nmeta in
  let s := wsect 1 (sb_encode (fun _ => 0) sb) s in
  let* (rootino, s) := ialloc T_DIR s in
  if negb (rootino =? ROOTINO) then Panic "assert"
  else
    let* s := iappend rootino (dirent rootino [46]) s in
    let* s := iappend rootino (dirent rootino [46; 46]) s in
    let* s := add_files rootino files s in
    let* x := rinode rootino s in
    let off := (i_size x / BSIZE + 1) * BSIZE in
    let* s := winode rootino (set_size x (xint off)) s in
    balloc (freeblock s) s.

(** ** One file in the image *)

(** The inode [x] as the kernel will see it. *)
Definition view (d : disk) (x : inode) : fs := mk_fs (mk_td d ∅) [x].
Definition fb (d : disk) (x : inode) (bn : Z) : Z := fblock (view d x) 0 bn.

Lemma fb_direct d x bn : bn < NDIRECT -> fb d x bn = addr x bn.
Proof. intros H. unfold fb, fblock. by rewrite (proj2 (Z.ltb_lt _ _) H). Qed.

Lemma fb_indirect d x bn : NDIRECT <= bn -> fb d x bn = if addr x NDIRECT =? 0 then 0 else ld32 (d (addr x NDIRECT)) (4 * (bn - NDIRECT)).
Proof. intros H. unfold fb, fblock. by rewrite (proj2 (Z.ltb_ge _ _) H). Qed.

(** File [i] with content [l], [nb] blocks and an indirect block if [hi], all
    of them below [fr] and marked [i] in [own]. *)
Record fok (d : disk) (fr : Z) (own : Z -> Z) (i : Z) (x : inode) (nb : Z) (hi : bool) (l : list Z) : Prop := {
  k_len : length (i_addrs x) = 13%nat;
  k_nb : 0 <= nb <= MAXFILE /\ (NDIRECT < nb -> hi = true) /\ Z.of_nat (length l) <= nb * BSIZE;
  k_own bn : 0 <= bn < nb -> nmeta <= fb d x bn < fr /\ own (fb d x bn) = i;
  k_none bn : nb <= bn < MAXFILE -> fb d x bn = 0;
  k_ind : if hi then nmeta <= addr x NDIRECT < fr /\ own (addr x NDIRECT) = i else addr x NDIRECT = 0;
  k_inj bn bn' : 0 <= bn < nb -> 0 <= bn' < nb -> fb d x bn = fb d x bn' -> bn = bn';
  k_indne bn : 0 <= bn < nb -> hi = true -> fb d x bn <> addr x NDIRECT;
  k_data bn j : 0 <= bn < nb -> 0 <= j < BSIZE -> d (fb d x bn) j = nth (Z.to_nat (bn * BSIZE + j)) l 0
}.

(** Blocks not yet given out are zero. *)
Definition zero_from (d : disk) (fr : Z) : Prop := forall b j, fr <= b < FSSIZE -> d b j = 0.

Definition give (own : Z -> Z) (b i : Z) : Z -> Z := fun x => if x =? b then i else own x.

Lemma give_eq own b i : give own b i b = i.
Proof. unfold give. by rewrite Z.eqb_refl. Qed.
Lemma give_ne own b i x : x <> b -> give own b i x = own x.
Proof. intros H. unfold give. by rewrite (proj2 (Z.eqb_neq _ _) H). Qed.

Lemma mk_addr_set x i a j : length (i_addrs x) = 13%nat -> 0 <= i <= NDIRECT -> 0 <= j -> addr (set_addr x i a) j = if j =? i then a else addr x j.
Proof.
  intros Hl Hi Hj. unfold addr, set_addr. cbn [i_addrs set_addrs]. unfold NDIRECT in Hi. destruct (Z.eqb_spec j i) as [->|Hne].
  - rewrite (nth_lookup_Some _ _ _ a); [done|]. apply list_lookup_insert_eq. lia.
  - rewrite !nth_lookup. rewrite list_lookup_insert_ne by lia. done.
Qed.

(** A file does not notice what happens to blocks that are not its own. *)
Lemma fok_frame d d' fr fr' own own' i x nb hi l : fok d fr own i x nb hi l -> fr <= fr' -> (forall b, b < fr -> own' b = own b) ->
  (forall b, nmeta <= b < fr -> own b = i -> d' b = d b) -> fok d' fr' own' i x nb hi l.
Proof.
  intros [Hlen Hnb Hown Hnone Hind Hinj Hne Hdata] Hfr Ho Hd.
  assert (Hdi : hi = true -> d' (addr x NDIRECT) = d (addr x NDIRECT)) by (intros ->; apply Hd; apply Hind).
  assert (Hfb : forall bn, fb d' x bn = fb d x bn).
  { intros bn. destruct (Z.lt_ge_cases bn NDIRECT); [by rewrite !fb_direct|]. rewrite !fb_indirect by done. destruct hi; [by rewrite Hdi|]. by rewrite Hind. }
  split; auto.
  - intros bn Hb. rewrite Hfb. destruct (Hown bn Hb) as [H1 H2]. rewrite Ho by lia. split; [lia | done].
  - intros bn Hb. rewrite Hfb. auto.
  - destruct hi; [|done]. destruct Hind as [H1 H2]. rewrite Ho by lia. split; [lia | done].
  - intros bn bn'. rewrite !Hfb. auto.
  - intros bn. rewrite Hfb. auto.
  - intros bn j Hb Hj. rewrite Hfb. destruct (Hown bn Hb) as [H1 H2]. rewrite Hd by done. auto.
Qed.

Section alloc.
Context (d : disk) (fr : Z) (own : Z -> Z) (i : Z) (x : inode) (nb : Z) (l : list Z).
Context (Hz : zero_from d fr) (Hfr : nmeta <= fr < FSSIZE).

Lemma fr_small : xint fr = fr /\ fr <> 0.
Proof. assert (nmeta = 59) by reflexivity. unfold FSSIZE in Hfr. unfold xint. rewrite u32_small by lia. lia. Qed.

Lemma nmeta_pos : 0 < nmeta.
Proof. done. Qed.

Lemma data_beyond bn j : Z.of_nat (length l) <= nb * BSIZE -> nb <= bn -> 0 <= j -> nth (Z.to_nat (bn * BSIZE + j)) l 0 = 0.
Proof. intros Hl Hb Hj. apply nth_overflow. unfold BSIZE in *. nia. Qed.

(** A direct block. *)
Lemma alloc_direct hi : fok d fr own i x nb hi l -> nb < NDIRECT -> fok d (fr + 1) (give own fr i) i (set_addr x nb (xint fr)) (nb + 1) hi l.
Proof.
  intros [Hlen Hnb Hown Hnone Hind Hinj Hne Hdata] Hlt. destruct fr_small as [-> Hf0]. pose proof nmeta_pos. unfold NDIRECT, MAXFILE in *.
  assert (Ha : forall j, 0 <= j -> addr (set_addr x nb fr) j = if j =? nb then fr else addr x j) by (intros j Hj; apply mk_addr_set; [done | unfold NDIRECT; lia | done]).
  assert (Hfb : forall bn, 0 <= bn -> fb d (set_addr x nb fr) bn = if bn =? nb then fr else fb d x bn).
  { intros bn Hb. destruct (Z.lt_ge_cases bn NDIRECT) as [Hb1|Hb1]; [rewrite !fb_direct by done; auto|]. rewrite !fb_indirect by done. unfold NDIRECT in *. rewrite !Ha by lia.
    destruct (Z.eqb_spec 12 nb); [lia|]. destruct (Z.eqb_spec bn nb); [lia | done]. }
  split.
  - unfold set_addr. cbn [i_addrs set_addrs]. by rewrite length_insert.
  - unfold MAXFILE, NDIRECT, BSIZE in *. destruct Hnb as (? & ? & ?). change NINDIRECT with 128 in *. split; [lia|]. split; [intros; lia | lia].
  - intros bn Hb. rewrite Hfb by lia. destruct (Z.eqb_spec bn nb) as [->|Hne']; [rewrite give_eq; lia|].
    destruct (Hown bn ltac:(lia)) as [H1 H2]. rewrite give_ne by lia. split; [lia | done].
  - intros bn Hb. unfold MAXFILE, NDIRECT in *. rewrite Hfb by lia. destruct (Z.eqb_spec bn nb); [lia|]. apply Hnone. unfold MAXFILE, NDIRECT. lia.
  - unfold NDIRECT in *. rewrite !Ha by lia. destruct (Z.eqb_spec 12 nb); [lia|]. destruct hi; [|done]. destruct Hind as [H1 H2]. rewrite give_ne by lia. split; [lia | done].
  - intros bn bn' Hb Hb'. rewrite !Hfb by lia. destruct (Z.eqb_spec bn nb), (Z.eqb_spec bn' nb); intros E; subst; auto.
    + destruct (Hown bn' ltac:(lia)). lia.
    + destruct (Hown bn ltac:(lia)). lia.
    + apply Hinj; auto; lia.
  - intros bn Hb Hhi. unfold NDIRECT in *. rewrite Hfb, Ha by lia. subst hi. destruct (Z.eqb_spec 12 nb); [lia|]. destruct (Z.eqb_spec bn nb); [lia|]. apply Hne; [lia | done].
  - intros bn j Hb Hj. rewrite Hfb by lia. destruct (Z.eqb_spec bn nb) as [->|]; [rewrite Hz by lia; symmetry; apply data_beyond; lia|]. apply Hdata; lia.
Qed.

(** The indirect block. *)
Lemma alloc_indirect : fok d fr own i x nb false l -> nb = NDIRECT -> fok d (fr + 1) (give own fr i) i (set_addr x NDIRECT (xint fr)) nb true l.
Proof.
  intros [Hlen Hnb Hown Hnone Hind Hinj Hne Hdata] ->. destruct fr_small as [-> Hf0]. pose proof nmeta_pos.
  assert (Ha : forall j, 0 <= j -> addr (set_addr x NDIRECT fr) j = if j =? NDIRECT then fr else addr x j) by (intros j Hj; apply mk_addr_set; [done | unfold NDIRECT; lia | done]).
  assert (Hfb : forall bn, 0 <= bn < MAXFILE -> fb d (set_addr x NDIRECT fr) bn = fb d x bn).
  { intros bn Hb. destruct (Z.lt_ge_cases bn NDIRECT) as [Hb1|Hb1].
    - rewrite !fb_direct by done. rewrite Ha by lia. by destruct (Z.eqb_spec bn NDIRECT); [lia|].
    - rewrite (Hnone bn) by lia. rewrite fb_indirect by done. rewrite Ha, Z.eqb_refl by (unfold NDIRECT; lia). destruct (fr =? 0); [done|].
      unfold ld32. by rewrite !Hz by lia. }
  assert (HM : NDIRECT < MAXFILE) by done. destruct Hnb as (Hnb1 & Hnb2 & Hnb3). split; auto.
  - unfold set_addr. cbn [i_addrs set_addrs]. by rewrite length_insert.
  - intros bn Hb. rewrite Hfb by lia. destruct (Hown bn ltac:(lia)) as [H1 H2]. rewrite give_ne by lia. split; [lia | done].
  - intros bn Hb. rewrite Hfb by (unfold NDIRECT in *; lia). auto.
  - rewrite Ha, Z.eqb_refl, give_eq by (unfold NDIRECT; lia). split; [lia | done].
  - intros bn bn' Hb Hb'. rewrite !Hfb by lia. auto.
  - intros bn Hb _. rewrite Hfb by lia. rewrite Ha, Z.eqb_refl by (unfold NDIRECT; lia). destruct (Hown bn ltac:(lia)). lia.
  - intros bn j Hb Hj. rewrite Hfb by lia. auto.
Qed.

(** A block entered in the indirect block. *)
Lemma alloc_entry : fok d fr own i x nb true l -> NDIRECT <= nb < MAXFILE ->
  fok (dset d (addr x NDIRECT) (st32 (d (addr x NDIRECT)) (4 * (nb - NDIRECT)) (xint fr))) (fr + 1) (give own fr i) i x (nb + 1) true l.
Proof.
  intros [Hlen Hnb Hown Hnone [Hi1 Hi2] Hinj Hne Hdata] Hr. destruct fr_small as [-> Hf0]. pose proof nmeta_pos. set (ia := addr x NDIRECT) in *.
  set (d' := dset d ia _). assert (Hia : ia <> 0) by lia.
  assert (Hfb : forall bn, 0 <= bn < MAXFILE -> fb d' x bn = if bn =? nb then fr else fb d x bn).
  { intros bn Hb. destruct (Z.lt_ge_cases bn NDIRECT) as [Hb1|Hb1]; [rewrite !fb_direct by done; by destruct (Z.eqb_spec bn nb); [lia|]|].
    rewrite !fb_indirect by done. fold ia. apply Z.eqb_neq in Hia. rewrite Hia. unfold d'. rewrite dset_eq. destruct (Z.eqb_spec bn nb) as [->|].
    - rewrite ld32_st32_same, u32_small by (unfold FSSIZE in *; lia). done.
    - apply ld32_st32_other. lia. }
  assert (Hd : forall b, b <> ia -> d' b = d b) by (intros b Hb; by apply dset_ne).
  destruct Hnb as (Hnb1 & Hnb2 & Hnb3). split; auto.
  - split; [lia|]. split; [done|]. unfold BSIZE in *. lia.
  - intros bn Hb. rewrite Hfb by lia. destruct (Z.eqb_spec bn nb) as [->|Hne']; [rewrite give_eq; lia|].
    destruct (Hown bn ltac:(lia)) as [H1 H2]. rewrite give_ne by lia. split; [lia | done].
  - intros bn Hb. unfold NDIRECT in *. rewrite Hfb by lia. destruct (Z.eqb_spec bn nb); [lia|]. apply Hnone. lia.
  - fold ia. rewrite give_ne by lia. split; [lia | done].
  - intros bn bn' Hb Hb'. rewrite !Hfb by lia. destruct (Z.eqb_spec bn nb), (Z.eqb_spec bn' nb); intros E; subst; auto.
    + destruct (Hown bn' ltac:(lia)). lia.
    + destruct (Hown bn ltac:(lia)). lia.
    + apply Hinj; auto; lia.
  - intros bn Hb _. rewrite Hfb by lia. fold ia. destruct (Z.eqb_spec bn nb); [lia|]. apply Hne; [lia | done].
  - intros bn j Hb Hj. rewrite Hfb by lia. destruct (Z.eqb_spec bn nb) as [->|].
    + rewrite Hd by lia. rewrite Hz by lia. symmetry. apply data_beyond; lia.
    + rewrite Hd by (apply Hne; [lia | done]). apply Hdata; lia.
Qed.

(** Bytes put behind the content, inside its last block. *)
Lemma write_data hi p : fok d fr own i x nb hi l -> let len := Z.of_nat (length l) in let bn := len / BSIZE in
  bn < nb -> len + Z.of_nat (length p) <= (bn + 1) * BSIZE ->
  fok (dset d (fb d x bn) (mwrite (d (fb d x bn)) (len - bn * BSIZE) p)) fr own i x nb hi (l ++ p).
Proof.
  intros [Hlen Hnb Hown Hnone Hind Hinj Hne Hdata] len bn Hb Hp. assert (Hbn : 0 <= bn) by (apply Z.div_pos; unfold BSIZE; lia).
  assert (Hlen2 : bn * BSIZE <= len < (bn + 1) * BSIZE) by (unfold bn, BSIZE; zdiv).
  assert (El : len = Z.of_nat (length l)) by done. clearbody bn len.
  set (b := fb d x bn) in *. set (d' := dset d b _). destruct (Hown bn ltac:(lia)) as [Hb1 Hb2]. fold b in Hb1, Hb2.
  assert (Hdi : hi = true -> d' (addr x NDIRECT) = d (addr x NDIRECT)) by (intros Hh; apply dset_ne; intros E; symmetry in E; revert E; apply Hne; auto).
  assert (Hfb : forall bn', fb d' x bn' = fb d x bn').
  { intros bn'. destruct (Z.lt_ge_cases bn' NDIRECT); [by rewrite !fb_direct|]. rewrite !fb_indirect by done. destruct hi; [by rewrite Hdi|]. by rewrite Hind. }
  destruct Hnb as (Hnb1 & Hnb2 & Hnb3). split; auto.
  - split; [done|]. split; [done|]. rewrite length_app. unfold BSIZE in *. lia.
  - intros bn' Hb'. rewrite Hfb. auto.
  - intros bn' Hb'. rewrite Hfb. auto.
  - intros bn1 bn2. rewrite !Hfb. auto.
  - intros bn'. rewrite Hfb. auto.
  - intros bn' j Hb' Hj. rewrite Hfb. destruct (Z.eq_dec bn' bn) as [->|Hne'].
    + unfold d'. fold b. rewrite dset_eq. unfold mwrite. destruct (Z.leb_spec (len - bn * BSIZE) j) as [H1|H1]; cbn [andb].
      * destruct (Z.ltb_spec j (len - bn * BSIZE + Z.of_nat (length p))) as [H2|H2].
        { rewrite app_nth2 by (unfold BSIZE in *; lia). f_equal. unfold BSIZE in *. lia. }
        { unfold b. rewrite Hdata by lia. rewrite !nth_overflow by (rewrite ?length_app; unfold BSIZE in *; lia). done. }
      * unfold b. rewrite Hdata by lia. rewrite app_nth1 by (unfold BSIZE in *; lia). done.
    + unfold d'. rewrite dset_ne by (intros E; apply Hne', Hinj; auto). rewrite Hdata by lia.
      assert (bn' < bn \/ bn < bn') as [Hlt|Hlt] by lia.
      * rewrite app_nth1 by (unfold BSIZE in *; nia). done.
      * rewrite !nth_overflow by (rewrite ?length_app; unfold BSIZE in *; nia). done.
Qed.
End alloc.

(** ** Appending *)

Definition len (l : list Z) : Z := Z.of_nat (length l).

(** Data blocks of [n] bytes, and all blocks they take. *)
Definition nbl (n : Z) : Z := (n + BSIZE - 1) / BSIZE.
Definition need (n : Z) : Z := nbl n + (if NDIRECT <? nbl n then 1 else 0).

Definition whole (d : disk) (fr : Z) (own : Z -> Z) (i : Z) (x : inode) (l : list Z) : Prop :=
  fok d fr own i x (nbl (len l)) (NDIRECT <? nbl (len l)) l.

(** What appending does to the image: file [i] grows from [l] to [l'], nothing else changes. *)
Record grown (d : disk) (fr : Z) (own : Z -> Z) (i : Z) (x : inode) (d' : disk) (fr' : Z) (own' : Z -> Z) (x' : inode) : Prop := {
  gr_zero : zero_from d' fr';
  gr_fr : fr <= fr' <= FSSIZE;
  gr_own c : c < fr -> own' c = own c;
  gr_frame c : c < nmeta \/ c < fr /\ own c <> i -> d' c = d c;
  gr_meta : meta_of x' = meta_of x
}.

Lemma grown_refl d fr own i x : zero_from d fr -> fr <= FSSIZE -> grown d fr own i x d fr own x.
Proof. intros Hz Hf. split; auto; lia. Qed.

Lemma grown_trans d fr own i x d1 fr1 own1 x1 d2 fr2 own2 x2 : nmeta <= fr ->
  grown d fr own i x d1 fr1 own1 x1 -> grown d1 fr1 own1 i x1 d2 fr2 own2 x2 -> grown d fr own i x d2 fr2 own2 x2.
Proof.
  intros Hm [A1 A2 A3 A4 A5] [B1 B2 B3 B4 B5]. split; auto; try lia; [|intros c Hc| congruence].
  - intros c Hc. rewrite B3, A3 by lia. done.
  - rewrite B4, A4; [done | done |]. destruct Hc as [Hc|[Hc Ho]]; [by left | right]. rewrite A3 by lia. split; [lia | done].
Qed.

(** One more block given to the file. *)
Lemma grown_give d fr own i x x' : zero_from d fr -> fr < FSSIZE -> meta_of x' = meta_of x -> grown d fr own i x d (fr + 1) (give own fr i) x'.
Proof.
  intros Hz Hf Hm. split; auto; try lia.
  - intros b j Hb. apply Hz. lia.
  - intros c Hc. apply give_ne. lia.
Qed.

(** A block of the file overwritten. *)
Lemma grown_write d fr own i x b m : zero_from d fr -> fr <= FSSIZE -> nmeta <= b < fr -> own b = i -> grown d fr own i x (dset d b m) fr own x.
Proof.
  intros Hz Hf Hb Ho. split; auto; try lia.
  - intros c j Hc. rewrite dset_ne by lia. by apply Hz.
  - intros c Hc. apply dset_ne. intros ->. destruct Hc as [Hc|[_ Hc]]; [lia | done].
Qed.

Section append.
Context (i : Z) (s : mkst) (own : Z -> Z) (x : inode) (l : list Z).
Abbreviation d := (img s).
Abbreviation fr := (freeblock s).
Context (Hz : zero_from d fr) (Hfr : nmeta <= fr <= FSSIZE) (Hw : whole d fr own i x l).

Lemma rsect_ok b : 0 <= b < FSSIZE -> forall s, rsect b s = Ok (img s b).
Proof. intros Hb s0. unfold rsect. destruct (Z.leb_spec 0 b), (Z.ltb_spec b FSSIZE); try lia. done. Qed.

(** The block for the next byte, found or allocated. *)
Lemma block_ok : len l < MAXFILE * BSIZE -> let bn := len l / BSIZE in fr + need ((bn + 1) * BSIZE) - need (len l) <= FSSIZE ->
  exists x1 d1 own1, let fr1 := fr + need ((bn + 1) * BSIZE) - need (len l) in
    iappend_block x bn s = Ok (fb d1 x1 bn, x1, mk_mkst d1 (freeinode s) fr1) /\
    fok d1 fr1 own1 i x1 (bn + 1) (NDIRECT <? bn + 1) l /\ grown d fr own i x d1 fr1 own1 x1.
Proof.
  intros Hmax bn Hroom. pose proof nmeta_pos as Hm0. assert (Hlen : 0 <= len l) by (unfold len; lia).
  assert (Hn1 : nbl ((bn + 1) * BSIZE) = bn + 1) by (unfold nbl, BSIZE; zdiv).
  assert (Hbn : 0 <= bn < MAXFILE) by (unfold bn, MAXFILE, NDIRECT, BSIZE in *; change NINDIRECT with 128 in *; zdiv).
  assert (Hcase : nbl (len l) = bn + 1 \/ nbl (len l) = bn) by (unfold bn, nbl, BSIZE; zdiv).
  unfold need in *. rewrite Hn1 in *. destruct Hcase as [E|E]; pose proof Hw as Hw0; unfold whole in Hw0; rewrite E in *.
  - (* the block is there *)
    exists x, d, own. cbv zeta. replace (fr + (bn + 1 + (if NDIRECT <? bn + 1 then 1 else 0)) - (bn + 1 + (if NDIRECT <? bn + 1 then 1 else 0))) with fr by lia.
    split_and!; [|done | by apply grown_refl; [|lia]]. destruct (k_own _ _ _ _ _ _ _ _ Hw0 bn ltac:(lia)) as [Hb _]. unfold iappend_block.
    destruct (Z.ltb_spec bn NDIRECT) as [Hd|Hd].
    + rewrite fb_direct in Hb |- * by done. destruct (Z.eqb_spec (addr x bn) 0); [lia|]. by destruct s.
    + pose proof (k_ind _ _ _ _ _ _ _ _ Hw0) as Hi. destruct (Z.ltb_spec NDIRECT (bn + 1)); [|lia]. destruct Hi as [Hi _].
      rewrite fb_indirect in Hb |- * by done. destruct (Z.eqb_spec (addr x NDIRECT) 0); [lia|]. rewrite rsect_ok by lia. cbn [rbind].
      destruct (Z.eqb_spec (ld32 (d (addr x NDIRECT)) (4 * (bn - NDIRECT))) 0); [lia|]. by destruct s.
  - destruct (Z.ltb_spec bn NDIRECT) as [Hd|Hd].
    + (* a direct block *)
      destruct (Z.ltb_spec NDIRECT (bn + 1)); [lia|]. destruct (Z.ltb_spec NDIRECT bn) as [|_]; [lia|].
      destruct (fr_small fr ltac:(lia)) as [Hx Hx0]. exists (set_addr x bn (xint fr)), d, (give own fr i). cbv zeta. replace (fr + (bn + 1 + 0) - (bn + 0)) with (fr + 1) by lia. split_and!.
      * unfold iappend_block. rewrite (proj2 (Z.ltb_lt _ _) Hd). rewrite <- (fb_direct d x) by done. rewrite (k_none _ _ _ _ _ _ _ _ Hw0 bn) by lia.
        rewrite Z.eqb_refl. by rewrite fb_direct.
      * apply alloc_direct; auto; lia.
      * apply grown_give; auto; lia.
    + destruct (Z.ltb_spec NDIRECT (bn + 1)) as [_|]; [|lia]. pose proof (k_len _ _ _ _ _ _ _ _ Hw0) as Hl13.
      assert (Hsmall : forall f, nmeta <= f < FSSIZE -> xint f = f) by (intros f Hf; by apply fr_small). destruct (Z.ltb_spec NDIRECT bn) as [Hgt|Hle].
      * (* an entry of the indirect block *)
        pose proof (k_ind _ _ _ _ _ _ _ _ Hw0) as [Hi1 Hi2]. set (ia := addr x NDIRECT) in *.
        exists x, (dset d ia (st32 (d ia) (4 * (bn - NDIRECT)) (xint fr))), (give own fr i). cbv zeta. replace (fr + (bn + 1 + 1) - (bn + 1)) with (fr + 1) by lia.
        assert (Hent : ld32 (d ia) (4 * (bn - NDIRECT)) = 0).
        { pose proof (k_none _ _ _ _ _ _ _ _ Hw0 bn ltac:(lia)) as Hn. rewrite fb_indirect in Hn by lia. fold ia in Hn. destruct (Z.eqb_spec ia 0); [lia | done]. }
        split_and!.
        -- unfold iappend_block. rewrite (proj2 (Z.ltb_ge _ _) Hd). fold ia. destruct (Z.eqb_spec ia 0); [lia|]. fold ia. rewrite rsect_ok by lia. cbn [rbind]. rewrite Hent, Z.eqb_refl.
           unfold wsect, next_block. cbn [img freeinode freeblock]. rewrite fb_indirect by lia. fold ia. destruct (Z.eqb_spec ia 0); [lia|]. by rewrite dset_eq.
        -- apply alloc_entry; auto; lia.
        -- eapply grown_trans; [lia | apply (grown_give d fr own i x x); auto; lia|]. apply grown_write; try lia.
           ++ intros b j Hb. apply Hz. lia.
           ++ rewrite give_ne by lia. done.
      * (* the indirect block and its first entry *)
        assert (bn = NDIRECT) as Ebn by lia. rewrite Ebn in *. pose proof (k_ind _ _ _ _ _ _ _ _ Hw0) as Hi0.
        set (x1 := set_addr x NDIRECT (xint fr)). assert (Ha : addr x1 NDIRECT = fr).
        { unfold x1. rewrite mk_addr_set by (auto; unfold NDIRECT; lia). rewrite Z.eqb_refl. apply Hsmall. lia. }
        assert (Hz1 : zero_from d (fr + 1)) by (intros b j Hb; apply Hz; lia).
        assert (Hf1 : fok d (fr + 1) (give own fr i) i x1 NDIRECT true l) by (apply alloc_indirect; auto; lia).
        exists x1, (dset d fr (st32 (d fr) (4 * (NDIRECT - NDIRECT)) (xint (fr + 1)))), (give (give own fr i) (fr + 1) i). cbv zeta.
        replace (fr + (NDIRECT + 1 + 1) - (NDIRECT + 0)) with (fr + 1 + 1) by lia. split_and!.
        -- unfold iappend_block. rewrite (proj2 (Z.ltb_ge _ _) Hd), Hi0, Z.eqb_refl. fold x1. rewrite Ha, rsect_ok by lia. cbn [rbind next_block img freeblock].
           assert (ld32 (d fr) (4 * (NDIRECT - NDIRECT)) = 0) as -> by (unfold ld32; rewrite !Hz by lia; done). rewrite Z.eqb_refl.
           unfold wsect, next_block. cbn [img freeinode freeblock]. rewrite fb_indirect by lia. rewrite Ha. destruct (Z.eqb_spec fr 0); [lia|]. by rewrite dset_eq.
        -- pose proof (alloc_entry d (fr + 1) (give own fr i) i x1 NDIRECT l Hz1 ltac:(lia) Hf1 ltac:(lia)) as He. by rewrite Ha in He.
        -- eapply grown_trans; [lia | apply (grown_give d fr own i x x1); auto; lia|].
           eapply grown_trans; [lia | apply (grown_give d (fr + 1) _ i x1 x1); auto; lia|]. apply grown_write; try lia.
           ++ intros b j Hb. apply Hz. lia.
           ++ rewrite give_ne by lia. apply give_eq.
Qed.
End append.

Lemma need_mono a b : 0 <= a <= b -> need a <= need b.
Proof.
  intros H. unfold need. assert (nbl a <= nbl b) by (unfold nbl, BSIZE; apply Z.div_le_mono; lia).
  destruct (Z.ltb_spec NDIRECT (nbl a)), (Z.ltb_spec NDIRECT (nbl b)); lia.
Qed.

Lemma len_app a b : len (a ++ b) = len a + len b.
Proof. unfold len. rewrite length_app. lia. Qed.

(** The whole loop of [iappend]. *)
Lemma loop_ok i fuel : forall s own x l p, zero_from (img s) (freeblock s) -> nmeta <= freeblock s <= FSSIZE -> whole (img s) (freeblock s) own i x l ->
  (length p <= fuel)%nat -> len l + len p <= MAXFILE * BSIZE -> freeblock s + need (len l + len p) - need (len l) <= FSSIZE ->
  exists x' d' own', let fr' := freeblock s + need (len l + len p) - need (len l) in
    iappend_loop fuel x (len l) p s = Ok (x', len l + len p, mk_mkst d' (freeinode s) fr') /\
    whole d' fr' own' i x' (l ++ p) /\ grown (img s) (freeblock s) own i x d' fr' own' x'.
Proof.
  induction fuel as [|fuel IH]; intros s own x l p Hz Hfr Hw Hfuel Hmax Hroom.
  - destruct p as [|c p]; [|cbn [length] in Hfuel; lia]. exists x, (img s), own. change (len []) with 0 in *. rewrite Z.add_0_r in *.
    replace (freeblock s + need (len l) - need (len l)) with (freeblock s) by lia. cbv zeta. rewrite app_nil_r. split_and!; [by destruct s | done | by apply grown_refl; [|lia]].
  - destruct p as [|c p]; [exists x, (img s), own; change (len []) with 0 in *; rewrite Z.add_0_r in *;
      replace (freeblock s + need (len l) - need (len l)) with (freeblock s) by lia; cbv zeta; rewrite app_nil_r; split_and!; [by destruct s | done | by apply grown_refl; [|lia]]|].
    set (q := c :: p) in *. assert (Hq : 1 <= len q) by (unfold len, q; cbn [length]; lia). assert (Hl0 : 0 <= len l) by (unfold len; lia).
    set (bn := len l / BSIZE). assert (Hbn : bn * BSIZE <= len l < (bn + 1) * BSIZE) by (unfold bn, BSIZE; zdiv).
    set (n1 := Z.min (len q) ((bn + 1) * BSIZE - len l)). assert (Hn1 : 1 <= n1 <= len q /\ len l + n1 <= (bn + 1) * BSIZE) by (unfold n1; lia).
    set (q1 := take (Z.to_nat n1) q). set (q2 := drop (Z.to_nat n1) q).
    assert (Hq1 : len q1 = n1) by (unfold q1, len; rewrite length_take; unfold len in *; lia).
    assert (Hq2 : len q2 = len q - n1) by (unfold q2, len; rewrite length_drop; unfold len in *; lia).
    assert (Hneed : need ((bn + 1) * BSIZE) = need (len l + n1)).
    { assert (nbl ((bn + 1) * BSIZE) = nbl (len l + n1)) as E; [|unfold need; by rewrite E]. clear IH Hw Hz Hroom. clearbody bn n1. unfold nbl, BSIZE in *. zdiv. }
    pose proof (need_mono (len l + n1) (len l + len q) ltac:(lia)) as Hmono.
    destruct (block_ok i s own x l Hz Hfr Hw ltac:(lia)) as (x1 & d1 & own1 & E1 & Hf1 & Hg1); [fold bn; lia|]. fold bn in E1, Hf1, Hg1. cbv zeta in E1, Hf1, Hg1.
    set (fr1 := freeblock s + need ((bn + 1) * BSIZE) - need (len l)) in *.
    destruct (k_own _ _ _ _ _ _ _ _ Hf1 bn) as [Hb1 Hb2]; [unfold bn, BSIZE in *; zdiv|].
    pose proof (gr_fr _ _ _ _ _ _ _ _ _ Hg1) as Hfr1. pose proof (gr_zero _ _ _ _ _ _ _ _ _ Hg1) as Hz1.
    set (b := fb d1 x1 bn) in *. set (d2 := dset d1 b (mwrite (d1 b) (len l - bn * BSIZE) q1)).
    assert (Hw2 : whole d2 fr1 own1 i x1 (l ++ q1)).
    { unfold whole. rewrite len_app, Hq1. assert (nbl (len l + n1) = bn + 1) as ->.
      { clear - Hn1 Hbn. clearbody bn n1. unfold nbl, BSIZE in *. zdiv. }
      apply write_data; auto; unfold len in *; fold bn; lia. }
    assert (Hg2 : grown d1 fr1 own1 i x1 d2 fr1 own1 x1) by (apply grown_write; auto; lia).
    destruct (IH (mk_mkst d2 (freeinode s) fr1) own1 x1 (l ++ q1) q2) as (x' & d' & own' & E' & Hw' & Hg').
    { apply Hg2. } { cbn. lia. } { done. }
    { unfold len in *. lia. } { rewrite len_app. lia. }
    { cbn [freeblock]. rewrite len_app, Hq1, Hq2. unfold fr1. rewrite Hneed. replace (len l + n1 + (len q - n1)) with (len l + len q) by lia. lia. }
    cbn [img freeblock freeinode] in *. rewrite len_app, Hq1, Hq2 in *. replace (len l + n1 + (len q - n1)) with (len l + len q) in * by lia.
    replace (fr1 + need (len l + len q) - need (len l + n1)) with (freeblock s + need (len l + len q) - need (len l)) in * by (unfold fr1; rewrite Hneed; lia).
    exists x', d', own'. cbv zeta. split_and!.
    + cbn [iappend_loop]. fold q. fold bn. destruct (Z.leb_spec MAXFILE bn); [unfold BSIZE in *; lia|]. rewrite E1. cbn [rbind].
      pose proof nmeta_pos. rewrite rsect_ok by lia. cbn [rbind img]. fold (len q). fold n1. fold q1 q2. unfold wsect. cbn [img freeinode freeblock]. fold d2. exact E'.
    + rewrite <- app_assoc in Hw'. unfold q1, q2 in Hw'. by rewrite take_drop in Hw'.
    + eapply grown_trans; [lia | exact Hg1|]. eapply grown_trans; [lia | exact Hg2 | exact Hg'].
Qed.

(** ** Inodes in the image *)

Definition slot (d : disk) (i : Z) : inode := dinode_get (d (IBLOCK i sb)) (dip_off i) no_inode.

Lemma iblock_range i : 0 <= i < NINODES -> 32 <= IBLOCK i sb < 58 /\ 58 < nmeta /\ 0 <= dip_off i /\ dip_off i + DINODE_SIZE <= BSIZE.
Proof.
  intros Hi. change nmeta with 59. unfold IBLOCK, dip_off. change (sb_inodestart sb) with 32. unfold NINODES, DINODE_SIZE, BSIZE in *. change IPB with 8. zdiv.
Qed.

Lemma rinode_ok i s : 0 <= i < NINODES -> rinode i s = Ok (slot (img s) i).
Proof. intros Hi. pose proof (iblock_range i Hi). unfold rinode. rewrite rsect_ok; [done|]. unfold FSSIZE. lia. Qed.

Lemma winode_ok i x s : 0 <= i < NINODES ->
  winode i x s = Ok (mk_mkst (dset (img s) (IBLOCK i sb) (dinode_put (img s (IBLOCK i sb)) (dip_off i) x)) (freeinode s) (freeblock s)).
Proof. intros Hi. pose proof (iblock_range i Hi). unfold winode. rewrite rsect_ok; [done|]. unfold FSSIZE. lia. Qed.

(** The inode as it comes back from the image. *)
Definition on_disk (x : inode) : inode := mk_inode 0 0 0 false false (i_type x) (i_major x) (i_minor x) (i_nlink x) (i_size x) (i_addrs x).

Lemma slot_put_same d i x : disk_inode x -> slot (dset d (IBLOCK i sb) (dinode_put (d (IBLOCK i sb)) (dip_off i) x)) i = on_disk x.
Proof. intros Hx. unfold slot. rewrite dset_eq. by apply dinode_roundtrip. Qed.

Lemma dinode_get_ext m m' o y : (forall j, o <= j < o + DINODE_SIZE -> m' j = m j) -> dinode_get m' o y = dinode_get m o y.
Proof.
  intros H. unfold DINODE_SIZE in H. unfold dinode_get, get_addrs.
  rewrite !(ld16_ext m' m) by (intros; apply H; lia). rewrite (ld32_ext m' m (o + 8)) by (intros; apply H; lia). f_equal.
  apply map_ext_in. intros j Hj. apply in_seq in Hj. change (Z.to_nat (NDIRECT + 1)) with 13%nat in Hj. apply ld32_ext. intros k Hk. apply H. lia.
Qed.

Lemma slot_put_other d i j x : length (i_addrs x) = 13%nat -> 0 <= i < NINODES -> 0 <= j < NINODES -> j <> i ->
  slot (dset d (IBLOCK i sb) (dinode_put (d (IBLOCK i sb)) (dip_off i) x)) j = slot d j.
Proof.
  intros Hl Hi Hj Hne. unfold slot. destruct (Z.eq_dec (IBLOCK j sb) (IBLOCK i sb)) as [E|E]; [|by rewrite dset_ne].
  rewrite E, dset_eq. apply dinode_get_ext. intros k Hk. apply dinode_put_out; [done|]. unfold IBLOCK, dip_off, DINODE_SIZE in *. change IPB with 8 in *. zdiv.
Qed.

Lemma whole_addrs d fr own i x y l : i_addrs y = i_addrs x -> whole d fr own i x l -> whole d fr own i y l.
Proof.
  intros E. assert (Ha : forall j, addr y j = addr x j) by (intros j; unfold addr; by rewrite E).
  assert (Hfb : forall bn, fb d y bn = fb d x bn).
  { intros bn. destruct (Z.lt_ge_cases bn NDIRECT); [rewrite !fb_direct by done; auto | rewrite !fb_indirect by done; by rewrite !Ha]. }
  intros [Hlen Hnb Hown Hnone Hind Hinj Hne Hdata]. split; try (intros; rewrite ?Hfb, ?Ha, ?E; by auto).
  intros bn bn'. rewrite !Hfb. auto.
Qed.

(** The addresses of a file are block numbers or 0. *)
Lemma whole_range d fr own i x l : whole d fr own i x l -> fr <= FSSIZE -> Forall (fun a => 0 <= a < 2 ^ 32) (i_addrs x).
Proof.
  intros Hw Hf. pose proof nmeta_pos. unfold FSSIZE in Hf. apply (Forall_nth _ 0). intros j Hj. rewrite (k_len _ _ _ _ _ _ _ _ Hw) in Hj.
  assert (nth j (i_addrs x) 0 = addr x (Z.of_nat j)) as -> by (unfold addr; by rewrite Nat2Z.id).
  destruct (Z.lt_ge_cases (Z.of_nat j) NDIRECT) as [Hd|Hd].
  - rewrite <- (fb_direct d) by done. destruct (Z.lt_ge_cases (Z.of_nat j) (nbl (len l))) as [Hb|Hb].
    + destruct (k_own _ _ _ _ _ _ _ _ Hw (Z.of_nat j) ltac:(lia)). lia.
    + rewrite (k_none _ _ _ _ _ _ _ _ Hw) by (split; [done|]; unfold MAXFILE; change NINDIRECT with 128; lia). lia.
  - assert (Z.of_nat j = NDIRECT) as -> by (unfold NDIRECT in *; lia). pose proof (k_ind _ _ _ _ _ _ _ _ Hw) as Hi. destruct (NDIRECT <? _); lia.
Qed.

(** ** The image while files are added *)

(** Blocks taken by all the files. *)
Definition total (fl : list (Z * list Z)) : Z := foldr (fun e a => need (len (snd e)) + a) 0 fl.

(** [fl] lists type and content of the inodes 1, 2, ... *)
Record holds (s : mkst) (own : Z -> Z) (fl : list (Z * list Z)) : Prop := {
  h_inode : freeinode s = 1 + Z.of_nat (length fl) /\ freeinode s <= NINODES;
  h_block : freeblock s = nmeta + total fl /\ freeblock s <= FSSIZE;
  h_zero : zero_from (img s) (freeblock s);
  h_boot b : 0 <= b < 32 -> img s b = (if b =? 1 then sb_encode (fun _ => 0) sb else fun _ => 0);
  h_file k t l : fl !! k = Some (t, l) -> slot (img s) (1 + Z.of_nat k) = mk_inode 0 0 0 false false t 0 0 1 (len l) (i_addrs (slot (img s) (1 + Z.of_nat k))) /\
    0 < t < 2 ^ 15 /\ whole (img s) (freeblock s) own (1 + Z.of_nat k) (slot (img s) (1 + Z.of_nat k)) l
}.

Lemma need_nonneg n : 0 <= n -> 0 <= need n.
Proof. intros H. unfold need. assert (0 <= nbl n) by (unfold nbl, BSIZE; apply Z.div_pos; lia). destruct (_ <? _); lia. Qed.

Lemma len_nonneg l : 0 <= len l.
Proof. unfold len. lia. Qed.

Lemma mk_total_nonneg fl : 0 <= total fl.
Proof. induction fl as [|e fl IH]; [done|]. unfold total in *. cbn [foldr]. pose proof (need_nonneg (len e.2) (len_nonneg _)). lia. Qed.

Lemma mk_total_insert fl k t l t' l' : fl !! k = Some (t, l) -> total (<[k := (t', l')]> fl) = total fl + need (len l') - need (len l).
Proof.
  revert k. induction fl as [|e fl IH]; intros [|k] E; try done.
  - injection E as ->. cbn. lia.
  - cbn in E. specialize (IH k E). change (<[S k:=(t', l')]> (e :: fl)) with (e :: <[k:=(t', l')]> fl). unfold total in *. cbn [foldr]. rewrite IH. lia.
Qed.

Lemma total_app a b : total (a ++ b) = total a + total b.
Proof. unfold total. rewrite foldr_app. induction a as [|e a IH]; cbn; [done|]. rewrite IH. lia. Qed.

(** Another file after inode [i] was written and the blocks of [i] grew. *)
Lemma file_frame d d' fr fr' own own' i j x x' y l : 0 <= i < NINODES -> 0 <= j < NINODES -> j <> i -> nmeta <= fr ->
  grown d fr own i x d' fr' own' x' -> length (i_addrs y) = 13%nat -> whole d fr own j (slot d j) l ->
  let d2 := dset d' (IBLOCK i sb) (dinode_put (d' (IBLOCK i sb)) (dip_off i) y) in
  slot d2 j = slot d j /\ whole d2 fr' own' j (slot d j) l.
Proof.
  intros Hi Hj Hne Hfr Hg Hy Hw d2. pose proof (iblock_range i Hi). pose proof (iblock_range j Hj). pose proof (gr_fr _ _ _ _ _ _ _ _ _ Hg). split.
  - unfold d2. rewrite slot_put_other by auto. unfold slot. by rewrite (gr_frame _ _ _ _ _ _ _ _ _ Hg) by lia.
  - eapply fok_frame; [exact Hw | lia | apply Hg|]. intros b Hb Ho. unfold d2. rewrite dset_ne by lia. apply (gr_frame _ _ _ _ _ _ _ _ _ Hg). right. split; [lia | congruence].
Qed.

Lemma boot_frame d d' i y b : 0 <= i < NINODES -> 0 <= b < 32 -> d' b = d b -> dset d' (IBLOCK i sb) y b = d b.
Proof. intros Hi Hb E. pose proof (iblock_range i Hi). rewrite dset_ne by lia. done. Qed.

(** [iappend] adds to the end of one file and keeps the others. *)
Lemma iappend_ok s own fl k t l p : holds s own fl -> fl !! k = Some (t, l) -> len l + len p <= MAXFILE * BSIZE ->
  freeblock s + need (len l + len p) - need (len l) <= FSSIZE ->
  exists s' own', iappend (1 + Z.of_nat k) p s = Ok s' /\ holds s' own' (<[k := (t, l ++ p)]> fl).
Proof.
  intros Hh Ek Hmax Hroom. pose proof (h_inode _ _ _ Hh) as [Hn1 Hn2]. pose proof (h_block _ _ _ Hh) as [Hb1 Hb2]. pose proof nmeta_pos as Hpos.
  pose proof (lookup_lt_Some _ _ _ Ek) as Hk. destruct (h_file _ _ _ Hh _ _ _ Ek) as (Hx & Ht & Hw). set (i := 1 + Z.of_nat k) in *. set (x := slot (img s) i) in *.
  assert (Hi : 0 <= i < NINODES) by lia. pose proof (mk_total_nonneg fl) as Htot.
  destruct (loop_ok i (length p) s own x l p (h_zero _ _ _ Hh) ltac:(lia) Hw ltac:(done) Hmax Hroom) as (x' & d' & own' & E & Hw' & Hg). cbv zeta in *.
  set (fr' := freeblock s + need (len l + len p) - need (len l)) in *. set (y := set_size x' (xint (len l + len p))).
  assert (Hmeta := gr_meta _ _ _ _ _ _ _ _ _ Hg). rewrite Hx in Hmeta. destruct x' as [dv inm rf lk vl ty mj mn nl sz ads]. unfold meta_of, set_addrs in Hmeta. cbn in Hmeta. injection Hmeta as -> -> -> -> -> -> -> -> -> ->.
  assert (Hlen : 0 <= len l + len p < 2 ^ 32) by (unfold len in *; unfold BSIZE in Hmax; change MAXFILE with 140 in Hmax; lia).
  assert (Ey : y = mk_inode 0 0 0 false false t 0 0 1 (len l + len p) ads) by (unfold y, set_size, xint; cbn; by rewrite u32_small by lia). clearbody y. subst y.
  set (y := mk_inode 0 0 0 false false t 0 0 1 (len l + len p) ads). fold y.
  assert (Hdy : disk_inode y).
  { split; cbn; try lia; [apply (k_len _ _ _ _ _ _ _ _ Hw')|]. apply (whole_range _ _ _ _ _ _ Hw'). lia. }
  set (d2 := dset d' (IBLOCK i sb) (dinode_put (d' (IBLOCK i sb)) (dip_off i) y)). exists (mk_mkst d2 (freeinode s) fr'), own'. split.
  - unfold iappend. rewrite rinode_ok by done. cbn [rbind]. fold x. rewrite Hx at 2. cbn [i_size]. rewrite E. cbn [rbind].
    rewrite winode_ok by done. unfold set_size, xint. cbn. rewrite u32_small by lia. done.
  - pose proof (iblock_range i Hi) as Hib. pose proof (gr_fr _ _ _ _ _ _ _ _ _ Hg) as Hfr. split; cbn [img freeinode freeblock].
    + rewrite length_insert. done.
    + rewrite (mk_total_insert _ _ _ _ _ _ Ek), len_app. unfold fr'. lia.
    + intros b j Hb. unfold d2. rewrite dset_ne by lia. by apply (gr_zero _ _ _ _ _ _ _ _ _ Hg).
    + intros b Hb. unfold d2. rewrite (boot_frame (img s)); auto; [by apply Hh|]. apply (gr_frame _ _ _ _ _ _ _ _ _ Hg). lia.
    + intros k' t' l' Ek'. destruct (decide (k' = k)) as [->|Hne].
      * rewrite list_lookup_insert_eq in Ek' by done. injection Ek' as <- <-. fold i. unfold d2. rewrite slot_put_same by done. cbn. rewrite len_app. split_and!; try done; try lia.
        eapply fok_frame; [eapply (whole_addrs _ _ _ _ _ y); [|exact Hw'] | lia | done |]; [done|]. intros b Hb _. rewrite dset_ne by lia. done.
      * rewrite list_lookup_insert_ne in Ek' by done. destruct (h_file _ _ _ Hh _ _ _ Ek') as (Hx2 & Ht2 & Hw2). pose proof (lookup_lt_Some _ _ _ Ek').
        destruct (file_frame (img s) d' (freeblock s) fr' own own' i (1 + Z.of_nat k') _ _ y l' Hi ltac:(lia) ltac:(unfold i; lia) ltac:(lia) Hg (di_len _ Hdy) Hw2) as [Hs Hw3]. fold d2 in Hs, Hw3. rewrite Hs. auto.
Qed.

(** A new inode is the next one and has no content. *)
Lemma ialloc_ok s own fl t : holds s own fl -> 0 < t < 2 ^ 15 -> freeinode s < NINODES ->
  exists s', ialloc t s = Ok (1 + Z.of_nat (length fl), s') /\ freeblock s' = freeblock s /\ freeinode s' = freeinode s + 1 /\ holds s' own (fl ++ [(t, [])]).
Proof.
  intros Hh Ht Hroom. pose proof (h_inode _ _ _ Hh) as [Hn1 Hn2]. pose proof (h_block _ _ _ Hh) as [Hb1 Hb2]. pose proof nmeta_pos as Hpos. pose proof (mk_total_nonneg fl).
  set (i := freeinode s) in *. assert (Hi : 0 <= i < NINODES) by lia. pose proof (iblock_range i Hi) as Hib.
  set (y := mk_inode 0 0 0 false false t 0 0 1 0 (repeat 0 13)). assert (Hdy : disk_inode y) by (split; cbn; try lia; by repeat constructor).
  set (d2 := dset (img s) (IBLOCK i sb) (dinode_put (img s (IBLOCK i sb)) (dip_off i) y)). exists (mk_mkst d2 (i + 1) (freeblock s)). split; [|split; [reflexivity | split; [reflexivity|]]].
  - unfold ialloc. rewrite winode_ok by done. cbn [rbind img freeinode freeblock]. fold i. unfold xshort. rewrite (u16_small t) by lia. change (u16 1) with 1. change (xint 0) with 0. rewrite <- Hn1. reflexivity.
  - split; cbn [img freeinode freeblock].
    + rewrite length_app. cbn [length]. lia.
    + rewrite total_app. change (total [(t, [])]) with 0. lia.
    + intros b j Hb. unfold d2. rewrite dset_ne by lia. by apply (h_zero _ _ _ Hh).
    + intros b Hb. unfold d2. rewrite (boot_frame (img s)); auto. by apply Hh.
    + intros k t' l' Ek. destruct (decide (k = length fl)) as [->|Hne].
      * rewrite lookup_app_r, Nat.sub_diag in Ek by done. injection Ek as <- <-. rewrite <- Hn1. unfold d2. rewrite slot_put_same by done. change (on_disk y) with y. split_and!; try done; try lia.
        assert (Ha : forall j, addr y j = 0) by (intros j; unfold addr; cbn [y i_addrs]; apply nth_repeat).
        assert (Hfb : forall d bn, fb d y bn = 0) by (intros d bn; destruct (Z.lt_ge_cases bn NDIRECT); [by rewrite fb_direct | by rewrite fb_indirect by done; rewrite Ha]).
        change (nbl (len [])) with 0. unfold whole. change (nbl (len [])) with 0. split; try (intros; lia); try done.
      * assert (Hk : (k < length fl)%nat) by (apply lookup_lt_Some in Ek; rewrite length_app in Ek; cbn in Ek; lia). rewrite lookup_app_l in Ek by done.
        destruct (h_file _ _ _ Hh _ _ _ Ek) as (Hx2 & Ht2 & Hw2).
        destruct (file_frame (img s) (img s) (freeblock s) (freeblock s) own own i (1 + Z.of_nat k) y y y l' Hi ltac:(lia) ltac:(lia) ltac:(lia)) as [Hs Hw3]; auto;
          [apply grown_refl; [apply Hh | lia]|]. fold d2 in Hs, Hw3. rewrite Hs. auto.
Qed.

Lemma append_all_ok k t ps : forall s own fl l, holds s own fl -> fl !! k = Some (t, l) -> len l + len (concat ps) <= MAXFILE * BSIZE ->
  freeblock s + need (len l + len (concat ps)) - need (len l) <= FSSIZE ->
  exists s' own', append_all (1 + Z.of_nat k) ps s = Ok s' /\ holds s' own' (<[k := (t, l ++ concat ps)]> fl).
Proof.
  induction ps as [|p ps IH]; intros s own fl l Hh Ek Hmax Hroom; cbn [append_all concat] in *.
  - exists s, own. rewrite app_nil_r, list_insert_id by done. done.
  - rewrite len_app in *. pose proof (len_nonneg (concat ps)). pose proof (len_nonneg l). pose proof (len_nonneg p).
    pose proof (need_mono (len l + len p) (len l + (len p + len (concat ps))) ltac:(lia)).
    destruct (iappend_ok s own fl k t l p Hh Ek ltac:(lia) ltac:(lia)) as (s1 & own1 & -> & Hh1). cbn [rbind].
    destruct (IH s1 own1 _ (l ++ p) Hh1) as (s2 & own2 & -> & Hh2).
    + apply list_lookup_insert_eq. by eapply lookup_lt_Some.
    + rewrite len_app. lia.
    + rewrite (proj1 (h_block _ _ _ Hh1)), (mk_total_insert _ _ _ _ _ _ Ek), len_app. pose proof (proj1 (h_block _ _ _ Hh)). replace (len l + len p + len (concat ps)) with (len l + (len p + len (concat ps))) by lia. lia.
    + exists s2, own2. split; [done|]. by rewrite list_insert_insert_eq, <- app_assoc in Hh2.
Qed.

(** ** All the files *)

(** The directory entries of the files, from inode number [n]. *)
Fixpoint entries (n : Z) (files : list (list Z * list (list Z))) : list Z :=
  match files with
  | [] => []
  | (name, _) :: files' => dirent n (strip name) ++ entries (n + 1) files'
  end.

Definition input (f : list Z * list (list Z)) : Z * list Z := (T_FILE, concat (snd f)).

Lemma len_dirent n name : len (dirent n name) = 16.
Proof. unfold len, dirent. rewrite length_app, length_take, length_app, repeat_length. change (Z.to_nat DIRSIZ) with 14%nat. cbn [length]. lia. Qed.

Lemma len_entries n files : len (entries n files) = 16 * Z.of_nat (length files).
Proof. revert n. induction files as [|[name ps] files IH]; intros n; [done|]. cbn [entries length]. rewrite len_app, len_dirent, IH. lia. Qed.

Lemma add_files_ok files : forall s own r done, holds s own ((T_DIR, r) :: done) ->
  Forall (fun f : list Z * list (list Z) => (SLASH ∉ fst f) /\ len (concat (snd f)) <= MAXFILE * BSIZE) files ->
  freeinode s + Z.of_nat (length files) <= NINODES -> len r + 16 * Z.of_nat (length files) <= MAXFILE * BSIZE ->
  nmeta + need (len r + 16 * Z.of_nat (length files)) + total done + total (map input files) <= FSSIZE ->
  exists s' own', add_files 1 files s = Ok s' /\ holds s' own' ((T_DIR, r ++ entries (freeinode s) files) :: done ++ map input files).
Proof.
  induction files as [|[name ps] files IH]; intros s own r done Hh Hfs Hin Hr Hroom.
  - exists s, own. cbn [entries map]. rewrite !app_nil_r. done.
  - apply Forall_cons in Hfs as [[Hname Hlen] Hfs]. cbn [fst snd] in Hname, Hlen. cbn [length map] in *. rewrite Nat2Z.inj_succ in *.
    change (total (input (name, ps) :: map input files)) with (need (len (concat ps)) + total (map input files)) in Hroom.
    pose proof (mk_total_nonneg (map input files)). pose proof (need_nonneg _ (len_nonneg (concat ps))). pose proof (len_nonneg r) as Hr0.
    pose proof (h_inode _ _ _ Hh) as [Hn _]. cbn [length] in Hn. pose proof (need_mono (len r + 16) (len r + 16 * Z.succ (Z.of_nat (length files))) ltac:(lia)).
    destruct (ialloc_ok s own _ T_FILE Hh ltac:(done) ltac:(lia)) as (s1 & E1 & Hb1 & Hi1 & Hh1). cbn [length app] in E1, Hh1.
    pose proof (proj1 (h_block _ _ _ Hh)) as Hb. change (total ((T_DIR, r) :: done)) with (need (len r) + total done) in Hb.
    destruct (iappend_ok s1 own _ 0%nat T_DIR r (dirent (freeinode s) (strip name)) Hh1 eq_refl) as (s2 & own2 & E2 & Hh2); [rewrite len_dirent; lia..|].
    change (1 + Z.of_nat 0) with 1 in E2. cbn [insert list_insert] in Hh2.
    destruct (append_all_ok (S (length done)) T_FILE ps s2 own2 _ [] Hh2) as (s3 & own3 & E3 & Hh3).
    { rewrite lookup_cons. by rewrite lookup_app_r, Nat.sub_diag by lia. }
    { exact Hlen. }
    { change (len []) with 0. change (need 0) with 0. rewrite (proj1 (h_block _ _ _ Hh2)). change (total ((T_DIR, ?a) :: ?b)) with (need (len a) + total b).
      rewrite len_app, len_dirent, total_app. change (total [(T_FILE, [])]) with 0. rewrite Z.add_0_l. lia. }
    assert (Eins : <[S (length done) := (T_FILE, [] ++ concat ps)]> ((T_DIR, r ++ dirent (freeinode s) (strip name)) :: done ++ [(T_FILE, [])]) =
      (T_DIR, r ++ dirent (freeinode s) (strip name)) :: done ++ [input (name, ps)]).
    { change (<[S ?n := ?e]> (?a :: ?b)) with (a :: <[n := e]> b). f_equal. by rewrite insert_app_r_alt, Nat.sub_diag by lia. }
    rewrite Eins in Hh3. pose proof (h_inode _ _ _ Hh3) as [Hn3 _]. cbn [length] in Hn3. rewrite length_app in Hn3. cbn [length] in Hn3.
    destruct (IH s3 own3 _ _ Hh3 Hfs) as (s4 & own4 & E4 & Hh4).
    { lia. } { rewrite len_app, len_dirent. lia. }
    { rewrite len_app, len_dirent, total_app. change (total [input (name, ps)]) with (need (len (concat ps)) + 0).
      replace (len r + 16 + 16 * Z.of_nat (length files)) with (len r + 16 * Z.succ (Z.of_nat (length files))) by lia. lia. }
    exists s4, own4. split.
    + cbn [add_files]. rewrite bool_decide_eq_false_2 by done. rewrite E1. cbn [rbind]. replace (1 + Z.of_nat (S (length done))) with (freeinode s) in * by lia.
      rewrite E2. cbn [rbind]. rewrite E3. exact E4.
    + cbn [entries]. replace (freeinode s + 1) with (freeinode s3) by lia. by rewrite <- !app_assoc in Hh4.
Qed.

(** ** The bitmap *)

Lemma bit_u8 z k : 0 <= k < 8 -> Z.testbit (u8 z) k = Z.testbit z k.
Proof. intros H. unfold u8. change 256 with (2 ^ 8). apply Z.mod_pow2_bits_low. lia. Qed.

Lemma set_bits_spec n j : 0 <= j -> bit (set_bits n (fun _ => 0)) j = (j <? Z.of_nat n).
Proof.
  intros Hj. induction n as [|n IH]; [unfold bit; cbn [set_bits]; rewrite Z.testbit_0_l; destruct (Z.ltb_spec j (Z.of_nat 0)); [lia | done]|].
  set (m := set_bits n (fun _ => 0)) in *. transitivity (bit (mset m (Z.of_nat n / 8) (Z.lor (m (Z.of_nat n / 8)) (Z.shiftl 1 (Z.of_nat n mod 8)))) j).
  - cbn [set_bits]. fold m. unfold bit, mset. destruct (_ =? _); [|done]. apply bit_u8, Z.mod_pos_bound. lia.
  - rewrite bit_mset_or, IH. destruct (Z.ltb_spec j (Z.of_nat n)), (Z.eqb_spec j (Z.of_nat n)), (Z.ltb_spec j (Z.of_nat (S n))); try done; lia.
Qed.

Lemma mk_used_bit d b : 0 <= b < FSSIZE -> used mkfs_sb (mk_td d ∅) b = bit (d 58) b.
Proof.
  intros Hb. unfold used, bit, BBLOCK. cbn [td]. change BPB with 4096. change (sb_bmapstart mkfs_sb) with 58. unfold FSSIZE in Hb.
  rewrite (Z.div_small b 4096), (Z.mod_small b 4096) by lia. done.
Qed.

(** ** What the kernel finds *)

Section found.
Context (d : disk) (fr : Z) (own : Z -> Z) (i : Z) (x : inode) (l : list Z).
Context (Hw : whole d fr own i x l) (Hfr : nmeta <= fr <= FSSIZE).

Lemma whole_block bn : 0 <= bn < MAXFILE -> fb d x bn <> 0 -> 0 <= bn < nbl (len l).
Proof. intros Hb Hne. destruct (Z.lt_ge_cases bn (nbl (len l))); [lia|]. destruct Hne. apply (k_none _ _ _ _ _ _ _ _ Hw). lia. Qed.

Lemma whole_owns b : owns (view d x) 0 b -> nmeta <= b < fr /\ own b = i.
Proof.
  intros [Hne [->|(bn & Hb & <-)]].
  - pose proof (k_ind _ _ _ _ _ _ _ _ Hw) as Hi. change (ind (view d x) 0) with (addr x NDIRECT) in *. destruct (_ <? _); [done | congruence].
  - apply (k_own _ _ _ _ _ _ _ _ Hw). by apply whole_block.
Qed.

Lemma whole_content off : 0 <= off < MAXFILE * BSIZE -> content (view d x) 0 off = nth (Z.to_nat off) l 0.
Proof.
  intros Ho. unfold content. change (fblock (view d x) 0 ?b) with (fb d x b). change (td (fs_t (view d x))) with d. pose proof nmeta_pos.
  assert (Hb : 0 <= off / BSIZE < MAXFILE) by (unfold BSIZE in *; zdiv). assert (Hm : 0 <= off mod BSIZE < BSIZE) by (unfold BSIZE; apply Z.mod_pos_bound; lia).
  destruct (Z.eqb_spec (fb d x (off / BSIZE)) 0) as [E|E].
  - destruct (Z.lt_ge_cases (off / BSIZE) (nbl (len l))) as [Hlt|Hge]; [destruct (k_own _ _ _ _ _ _ _ _ Hw (off / BSIZE)); lia|].
    symmetry. apply nth_overflow. unfold nbl, len, BSIZE in *. zdiv.
  - rewrite (k_data _ _ _ _ _ _ _ _ Hw); [|by apply whole_block | done]. do 2 f_equal. unfold BSIZE. zdiv.
Qed.

Lemma whole_file_ok : (forall b, 0 <= b < FSSIZE -> used mkfs_sb (mk_td d ∅) b = (b <? fr)) -> file_ok mkfs_sb (view d x) 0.
Proof.
  intros Hu. pose proof nmeta_pos. split.
  - cbn. lia.
  - apply (k_len _ _ _ _ _ _ _ _ Hw).
  - intros b Hb. change (data_start mkfs_sb) with nmeta in Hb. cbn [view fs_t]. rewrite Hu by lia. apply Z.ltb_lt. lia.
  - intros b Hb. destruct (whole_owns b Hb). change (data_start mkfs_sb) with nmeta. change (sb_size mkfs_sb) with FSSIZE. lia.
  - intros b Hb. destruct (whole_owns b Hb). cbn [view fs_t]. rewrite Hu by lia. apply Z.ltb_lt. lia.
  - intros bn bn' Hb Hb' E Hne. change (fb d x bn = fb d x bn') in E. change (fb d x bn <> 0) in Hne. apply (k_inj _ _ _ _ _ _ _ _ Hw); [by apply whole_block | apply whole_block; congruence | done].
  - intros bn Hb Hne. change (fb d x bn <> 0) in Hne. change (fb d x bn <> addr x NDIRECT). pose proof (whole_block bn Hb Hne) as Hlt. pose proof (k_ind _ _ _ _ _ _ _ _ Hw) as Hi.
    destruct (NDIRECT <? nbl (len l)) eqn:Eh; [by apply (k_indne _ _ _ _ _ _ _ _ Hw) | congruence].
Qed.

Lemma whole_no_holes : i_size x <= nbl (len l) * BSIZE -> no_holes (view d x) 0.
Proof.
  intros Hs bn Hb Hlt. change (fb d x bn <> 0). change (bn * BSIZE < i_size x) in Hlt. pose proof nmeta_pos.
  destruct (k_own _ _ _ _ _ _ _ _ Hw bn); [unfold BSIZE in *; lia | lia].
Qed.
End found.

(** ** The finished image *)

Definition root_bytes (files : list (list Z * list (list Z))) : list Z :=
  dirent ROOTINO [46] ++ dirent ROOTINO [46; 46] ++ entries 2 files.

(** The inodes of the image: the root directory, then the files in the order of the arguments. *)
Definition contents (files : list (list Z * list (list Z))) : list (Z * list Z) := (T_DIR, root_bytes files) :: map input files.

(** Disk [d] is an image of [fl]. *)
Record image (d : disk) (fl : list (Z * list Z)) : Prop := {
  im_sb : sb_decode (d 1) = mkfs_sb;
  im_log : hdr_n (d (sb_logstart mkfs_sb)) = 0;
  im_used b : 0 <= b < FSSIZE -> used mkfs_sb (mk_td d ∅) b = (b <? nmeta + total fl);
  im_file k t l : fl !! k = Some (t, l) -> let i := 1 + Z.of_nat k in let x := slot d i in
    file_ok mkfs_sb (view d x) 0 /\ i_type x = t /\ i_nlink x = 1 /\
    i_size x = (if i =? ROOTINO then (len l / BSIZE + 1) * BSIZE else len l) /\
    (forall off, 0 <= off < MAXFILE * BSIZE -> content (view d x) 0 off = nth (Z.to_nat off) l 0) /\
    (i <> ROOTINO \/ len l mod BSIZE <> 0 -> no_holes (view d x) 0);
  im_apart k k' b : (k < length fl)%nat -> (k' < length fl)%nat -> k <> k' ->
    owns (view d (slot d (1 + Z.of_nat k))) 0 b -> ~ owns (view d (slot d (1 + Z.of_nat k'))) 0 b
}.

Lemma mkfs_built files : let n := Z.of_nat (length files) in
  Forall (fun f : list Z * list (list Z) => (SLASH ∉ fst f) /\ len (concat (snd f)) <= MAXFILE * BSIZE) files ->
  2 + n <= NINODES -> nmeta + total (contents files) <= FSSIZE ->
  exists s own, holds s own (contents files) /\
    mkfs files = (let* x := rinode 1 s in let off := (i_size x / BSIZE + 1) * BSIZE in
                  let* s := winode 1 (set_size x (xint off)) s in balloc (freeblock s) s).
Proof.
  intros n Hfs Hn Hroom. assert (Hn0 : 0 <= n) by (unfold n; lia). unfold contents in Hroom. change (total ((T_DIR, ?a) :: ?b)) with (need (len a) + total b) in Hroom.
  assert (Hrb : len (root_bytes files) = 32 + 16 * n) by (unfold root_bytes; rewrite !len_app, !len_dirent, len_entries; lia). rewrite Hrb in Hroom.
  pose proof (mk_total_nonneg (map input files)) as Htot. pose proof (need_mono 32 (32 + 16 * n) ltac:(lia)) as Hm. pose proof (need_mono 16 32 ltac:(lia)) as Hm'.
  assert (Hmax : 32 + 16 * n <= MAXFILE * BSIZE) by (unfold NINODES in Hn; change (MAXFILE * BSIZE) with 71680; lia).
  set (s0 := mk_mkst (dset (fun _ _ => 0) 1 (sb_encode (fun _ => 0) sb)) 1 nmeta).
  assert (H0 : holds s0 (fun _ => 0) []).
  { split; cbn [s0 img freeinode freeblock length]; try done.
    intros b j Hb. pose proof nmeta_pos. assert (nmeta = 59) by done. rewrite dset_ne by lia. done. }
  destruct (ialloc_ok s0 _ _ T_DIR H0 ltac:(done) ltac:(done)) as (s1 & E1 & Eb1 & Ei1 & H1). change (1 + Z.of_nat (length [])) with 1 in E1. cbn [app] in H1.
  assert (Hfb1 : freeblock s1 = nmeta) by (rewrite Eb1; done).
  destruct (iappend_ok s1 _ _ 0%nat T_DIR [] (dirent 1 [46]) H1 eq_refl) as (s2 & own2 & E2 & H2); [rewrite len_dirent; change (len []) with 0; lia | rewrite len_dirent, Hfb1; change (len []) with 0; change (need 0) with 0; rewrite Z.add_0_l; lia|].
  change (1 + Z.of_nat 0) with 1 in E2. cbn [app insert list_insert] in H2.
  pose proof (proj1 (h_block _ _ _ H2)) as Hfb2. change (total [(T_DIR, ?a)]) with (need (len a) + 0) in Hfb2. rewrite len_dirent in Hfb2.
  destruct (iappend_ok s2 _ _ 0%nat T_DIR _ (dirent 1 [46; 46]) H2 eq_refl) as (s3 & own3 & E3 & H3); [rewrite !len_dirent; lia | rewrite !len_dirent; change (16 + 16) with 32; lia|].
  change (1 + Z.of_nat 0) with 1 in E3. cbn [insert list_insert] in H3. pose proof (proj1 (h_inode _ _ _ H3)) as Hi3. cbn [length] in Hi3. change (1 + Z.of_nat 1) with 2 in Hi3.
  destruct (add_files_ok files s3 own3 _ [] H3 Hfs) as (s4 & own4 & E4 & H4).
  { rewrite Hi3. exact Hn. } { rewrite len_app, !len_dirent. lia. } { rewrite len_app, !len_dirent. change (total []) with 0. change (16 + 16) with 32. fold n. lia. }
  exists s4, own4. split.
  - unfold contents, root_bytes. change ROOTINO with 1. rewrite Hi3, <- app_assoc in H4. exact H4.
  - unfold mkfs. change (wsect 1 (sb_encode (λ _, 0) sb) _) with s0. rewrite E1. cbn [rbind]. change (negb (1 =? ROOTINO)) with false. rewrite E2. cbn [rbind]. rewrite E3. cbn [rbind]. by rewrite E4.
Qed.

(** Rewriting the root inode with its rounded size and the bitmap finish the image. *)
Lemma finish_image s own fl r : holds s own ((T_DIR, r) :: fl) -> len r <= (MAXFILE - 1) * BSIZE ->
  let x := slot (img s) 1 in
  let d1 := dset (img s) (IBLOCK 1 sb) (dinode_put (img s (IBLOCK 1 sb)) (dip_off 1) (set_size x (xint ((len r / BSIZE + 1) * BSIZE)))) in
  image (dset d1 58 (set_bits (Z.to_nat (freeblock s)) (fun _ => 0))) ((T_DIR, r) :: fl).
Proof.
  intros Hh Hr x d1. set (d2 := dset d1 58 _). pose proof (h_block _ _ _ Hh) as [Hb1 Hb2]. pose proof (h_inode _ _ _ Hh) as [Hn1 Hn2]. cbn [length] in Hn1.
  pose proof (mk_total_nonneg ((T_DIR, r) :: fl)) as Ht. pose proof nmeta_pos as Hpos. assert (Hm : nmeta = 59) by done. pose proof (len_nonneg r) as Hr0.
  destruct (h_file _ _ _ Hh 0%nat T_DIR r eq_refl) as (Hx & _ & Hw). change (1 + Z.of_nat 0) with 1 in *. fold x in Hx, Hw.
  set (sz := (len r / BSIZE + 1) * BSIZE) in *. assert (Hsz : 0 <= sz <= MAXFILE * BSIZE) by (unfold sz, BSIZE in *; zdiv).
  set (y := set_size x (xint sz)) in *. assert (Hs : xint sz = sz) by (apply u32_small; change (MAXFILE * BSIZE) with 71680 in Hsz; lia).
  assert (Ey : y = mk_inode 0 0 0 false false T_DIR 0 0 1 sz (i_addrs x)) by (unfold y, set_size; rewrite Hs, Hx; done). clearbody y.
  assert (Hdy : disk_inode y).
  { rewrite Ey. change (MAXFILE * BSIZE) with 71680 in Hsz. split; cbn [i_type i_major i_minor i_nlink i_size i_addrs]; try lia; [done | apply (k_len _ _ _ _ _ _ _ _ Hw)|]. apply (whole_range _ _ _ _ _ _ Hw). lia. }
  assert (Hi1 : 0 <= 1 < NINODES) by done. pose proof (iblock_range 1 Hi1) as Hib.
  assert (Hslot : forall j, 0 <= j < NINODES -> slot d2 j = if j =? 1 then on_disk y else slot (img s) j).
  { intros j Hj. pose proof (iblock_range j Hj). unfold slot at 1, d2. rewrite dset_ne by lia. fold (slot d1 j). unfold d1. destruct (Z.eqb_spec j 1) as [->|]; [by rewrite slot_put_same | by rewrite slot_put_other by (auto; apply Hdy)]. }
  assert (Hwh : forall k t l, ((T_DIR, r) :: fl) !! k = Some (t, l) -> whole d2 (freeblock s) own (1 + Z.of_nat k) (slot d2 (1 + Z.of_nat k)) l).
  { intros k t l Ek. destruct (h_file _ _ _ Hh k t l Ek) as (_ & _ & Hwk). apply lookup_lt_Some in Ek. cbn [length] in Ek. eapply fok_frame; [|reflexivity | done |].
    - eapply whole_addrs; [|exact Hwk]. rewrite Hslot by lia. destruct (Z.eqb_spec (1 + Z.of_nat k) 1) as [E|]; [|done]. rewrite E, Ey. done.
    - intros b Hb _. unfold d2, d1. rewrite !dset_ne by lia. done. }
  assert (Hu : forall b, 0 <= b < FSSIZE -> used mkfs_sb (mk_td d2 ∅) b = (b <? freeblock s)).
  { intros b Hb. rewrite mk_used_bit by done. unfold d2. rewrite dset_eq, set_bits_spec by lia. by rewrite Z2Nat.id by lia. }
  assert (Hlow : forall b, 0 <= b < 32 -> d2 b = (if b =? 1 then sb_encode (fun _ => 0) sb else fun _ => 0)).
  { intros b Hb. unfold d2, d1. rewrite !dset_ne by lia. by apply (h_boot _ _ _ Hh). }
  split.
  - rewrite Hlow by lia. reflexivity.
  - change (sb_logstart mkfs_sb) with 2. rewrite Hlow by lia. reflexivity.
  - intros b Hb. rewrite <- Hb1. auto.
  - intros k t l Ek. pose proof (Hwh k t l Ek) as Hwk. cbv zeta. set (i := 1 + Z.of_nat k) in *.
    assert (Hmeta : i_type (slot d2 i) = t /\ i_nlink (slot d2 i) = 1 /\ i_size (slot d2 i) = (if i =? ROOTINO then (len l / BSIZE + 1) * BSIZE else len l)).
    { pose proof (lookup_lt_Some _ _ _ Ek) as Hk. cbn [length] in Hk. rewrite Hslot by (unfold i; lia). change ROOTINO with 1. destruct (h_file _ _ _ Hh k t l Ek) as (Hxk & _ & _). fold i in Hxk.
      destruct (Z.eqb_spec i 1) as [Ei|]; [|by rewrite Hxk]. assert (k = 0%nat) as -> by (unfold i in Ei; lia). injection Ek as <- <-. by rewrite Ey. }
    destruct Hmeta as (H1 & H2 & H3). split_and!; auto.
    + eapply whole_file_ok; [exact Hwk | lia | exact Hu].
    + intros off Ho. by eapply whole_content; [exact Hwk|].
    + intros Hor. eapply whole_no_holes; [exact Hwk|]. rewrite H3. unfold nbl, BSIZE in *. clear -Hor. pose proof (len_nonneg l). destruct (Z.eqb_spec i ROOTINO); [destruct Hor as [|Hor]; [done|]; zdiv | zdiv].
  - intros k k' b Hk Hk' Hne Ho Ho'. destruct (lookup_lt_is_Some_2 _ _ Hk) as [[t l] Ek]. destruct (lookup_lt_is_Some_2 _ _ Hk') as [[t' l'] Ek'].
    destruct (whole_owns _ _ _ _ _ _ (Hwh _ _ _ Ek) b Ho) as [_ E1]. destruct (whole_owns _ _ _ _ _ _ (Hwh _ _ _ Ek') b Ho') as [_ E2]. lia.
Qed.

Lemma mkfs_ok files :
  Forall (fun f : list Z * list (list Z) => (SLASH ∉ fst f) /\ len (concat (snd f)) <= MAXFILE * BSIZE) files ->
  2 + Z.of_nat (length files) <= NINODES -> nmeta + total (contents files) <= FSSIZE ->
  exists s, mkfs files = Ok s /\ image (img s) (contents files).
Proof.
  intros Hfs Hn Hroom. destruct (mkfs_built files Hfs Hn Hroom) as (s & own & Hh & ->). unfold contents in Hh. pose proof (h_block _ _ _ Hh) as [Hb1 Hb2].
  assert (Hrb : len (root_bytes files) = 32 + 16 * Z.of_nat (length files)) by (unfold root_bytes; rewrite !len_app, !len_dirent, len_entries; lia).
  assert (Hr : len (root_bytes files) <= (MAXFILE - 1) * BSIZE) by (rewrite Hrb; unfold NINODES in Hn; change ((MAXFILE - 1) * BSIZE) with 71168; lia).
  pose proof (finish_image s own _ _ Hh Hr) as Him. destruct (h_file _ _ _ Hh 0%nat _ _ eq_refl) as (Hx & _ & _). change (1 + Z.of_nat 0) with 1 in Hx.
  rewrite rinode_ok by done. cbn [rbind]. rewrite winode_ok by done. cbn [rbind img freeblock].
  assert (Hsz : i_size (slot (img s) 1) = len (root_bytes files)) by by rewrite Hx. rewrite Hsz. unfold balloc. cbn [freeblock].
  destruct (Z.leb_spec (BSIZE * 8) (freeblock s)); [unfold FSSIZE, BSIZE in *; lia|]. eexists. split; [reflexivity|]. exact Him.
Qed.

(** When the arguments have no slash, every file fits in an inode and all of
    them fit on the disk, mkfs succeeds, and the image is one the kernel can
    mount: the superblock describes it, the log is empty, the bitmap marks the
    blocks handed out and no others, inode 1 is the root directory with the
    entries for itself and its parent and an entry per argument, inode 2 + k holds the bytes of argument k,
    all inodes are well formed and no two of them share a block. *)
Theorem mkfs_image files :
  Forall (fun f : list Z * list (list Z) => (SLASH ∉ fst f) /\ len (concat (snd f)) <= MAXFILE * BSIZE) files ->
  2 + Z.of_nat (length files) <= NINODES -> nmeta + total (contents files) <= FSSIZE ->
  exists s, mkfs files = Ok s /\ image (img s) (contents files).
Proof. apply mkfs_ok. Qed.

Lemma mkfs_image_witness : exists s, mkfs [([95; 99], [repeat 7 512; [1; 2; 3]]); ([82], [])] = Ok s /\
  image (img s) (contents [([95; 99], [repeat 7 512; [1; 2; 3]]); ([82], [])]).
Proof.
  apply mkfs_image; [|done|done]. repeat (apply Forall_cons_2; [split; [by rewrite <- (bool_decide_eq_false (_ ∈ _)) | done]|]). apply Forall_nil_2.
Defined.

(** With 30 arguments the root directory fills one block exactly; its size is
    still rounded up to the next one, and file block 1 does not exist. *)
Example mkfs_root_hole : match mkfs (repeat ([102], []) 30) with
  | Ok s => let x := slot (img s) ROOTINO in i_size x = 1024 /\ fblock (view (img s) x) 0 0 <> 0 /\ fblock (view (img s) x) 0 1 = 0
  | _ => False
  end.
Proof. vm_compute. split_and!; done. Qed.
