(* ===== verification/Boot.v ===== *)
(** * From the image to an open file (src/mkfs.c, src/fs.c)

    The composition of mkfs with the kernel: a kernel that starts with an empty
    inode cache on the image finds every file of the image by its path and
    reads back its bytes. *)

From S2P Require Import Prelude Layout StringLib Blocks Balloc Fs FsFile FsDir Mkfs.

(** The file system after boot: nothing cached, no transaction begun. *)
Definition boot_fs (d : disk) : fs := mk_fs (mk_td d ∅) (repeat no_inode (Z.to_nat NINODE)).

(** ** Cached inodes against the image *)

(** What [ilock] puts in the cache for inode [i] of disk [d]. *)
Definition loaded (d : disk) (i : Z) (x : inode) : Prop :=
  i_type x = i_type (slot d i) /\ i_nlink x = i_nlink (slot d i) /\ i_size x = i_size (slot d i) /\ i_addrs x = i_addrs (slot d i).

Section cached.
Context (d : disk) (i : Z) (st : fs) (ip : nat).
Context (Ht : td (fs_t st) = d) (Hip : (ip < length (fs_ic st))%nat) (Hx : loaded d i (inode_at st ip)).

Lemma loaded_addr j : addr (inode_at st ip) j = addr (slot d i) j.
Proof using Hx. destruct Hx as (_ & _ & _ & E). unfold addr. by rewrite E. Qed.

Lemma loaded_fblock bn : fblock st ip bn = fblock (view d (slot d i)) 0 bn.
Proof using Ht Hx. unfold fblock, ind. rewrite !loaded_addr, Ht. done. Qed.

Lemma loaded_content off : content st ip off = content (view d (slot d i)) 0 off.
Proof using Ht Hx. unfold content. rewrite !loaded_fblock, Ht. done. Qed.

Lemma loaded_owns b : owns st ip b <-> owns (view d (slot d i)) 0 b.
Proof using Ht Hx. unfold owns, ind. rewrite loaded_addr. by setoid_rewrite loaded_fblock. Qed.

Lemma loaded_file_ok : file_ok mkfs_sb (view d (slot d i)) 0 -> file_ok mkfs_sb st ip.
Proof using Ht Hip Hx.
  intros [H1 H2 H3 H4 H5 H6 H7]. split; auto.
  - destruct Hx as (_ & _ & _ & ->). done.
  - intros b Hb. unfold used. rewrite Ht. by apply H3.
  - intros b Hb. by apply H4, loaded_owns.
  - intros b Hb. unfold used. rewrite Ht. by apply H5, loaded_owns.
  - intros bn bn'. rewrite !loaded_fblock. auto.
  - intros bn Hb. unfold ind. rewrite !loaded_fblock, loaded_addr. by apply H7.
Qed.

Lemma loaded_no_holes : no_holes (view d (slot d i)) 0 -> no_holes st ip.
Proof using Ht Hx. intros H bn Hb Hs. rewrite loaded_fblock. apply H; [done|]. destruct Hx as (_ & _ & E & _). by rewrite E in Hs. Qed.
End cached.

(** [ilock] of an entry that is not loaded yet. *)
Lemma ilock_loads d i st ip : td (fs_t st) = d -> 0 <= i < NINODES -> i_type (slot d i) <> 0 -> i_inum (inode_at st ip) = i ->
  0 < i_ref (inode_at st ip) -> i_locked (inode_at st ip) = false -> i_valid (inode_at st ip) = false ->
  exists x, ilock mkfs_sb ip st = Ok (set_inode st ip x) /\ loaded d i x /\ i_dev x = i_dev (inode_at st ip) /\ i_inum x = i /\
    i_ref x = i_ref (inode_at st ip) /\ i_locked x = true /\ i_valid x = true.
Proof.
  intros Ht Hi Hty Hnum Hr Hl Hv. pose proof (iblock_range i Hi) as Hib. unfold ilock. destruct (Z.ltb_spec (i_ref (inode_at st ip)) 1); [lia|]. rewrite Hl.
  cbn [set_ilock i_valid i_inum]. rewrite Hv, Hnum. change (IBLOCK i mkfs_sb) with (IBLOCK i sb). rewrite tread_ok, Ht by (unfold FSSIZE; lia). cbn [rbind].
  set (x := set_valid _ true). assert (Hx : i_type x = i_type (slot d i)) by done. rewrite Hx. destruct (Z.eqb_spec (i_type (slot d i)) 0); [done|].
  exists x. split; [done|]. split; [done|]. cbn. done.
Qed.

(** ** The root directory's entries *)

Lemma concat_nth (ls : list (list Z)) (n j i : nat) : Forall (fun l => length l = n) ls -> (j < length ls)%nat -> (i < n)%nat ->
  nth (n * j + i) (concat ls) 0 = nth i (nth j ls []) 0.
Proof.
  intros Hl. revert j. induction Hl as [|l ls Hn Hl IH]; intros [|j] Hj Hi; cbn [length] in Hj; try lia; cbn [concat nth].
  - rewrite Nat.mul_0_r. apply app_nth1. lia.
  - rewrite app_nth2 by lia. rewrite <- IH by lia. f_equal. lia.
Qed.

(** Number and name of entry [j]. *)
Definition root_list (files : list (list Z * list (list Z))) : list (Z * list Z) :=
  (ROOTINO, [46]) :: (ROOTINO, [46; 46]) :: imap (fun k f => (2 + Z.of_nat k, strip (fst f))) files.

Lemma entries_concat files : forall n, entries n files = concat (imap (fun k f => dirent (n + Z.of_nat k) (strip (fst f))) files).
Proof.
  induction files as [|[name ps] files IH]; intros n; [done|]. cbn [entries imap concat fst]. rewrite Z.add_0_r. f_equal. rewrite IH. f_equal. apply imap_ext. intros k f _. unfold compose. f_equal. lia.
Qed.

Lemma root_concat files : root_bytes files = concat (map (fun e => dirent (fst e) (snd e)) (root_list files)).
Proof. unfold root_bytes, root_list. cbn [map concat fst snd]. rewrite entries_concat. do 3 f_equal. symmetry. apply fmap_imap. Qed.

Lemma root_length files : length (root_list files) = (2 + length files)%nat.
Proof. unfold root_list. cbn [length]. by rewrite length_imap. Qed.

Lemma root_file files j : root_list files !! S (S j) = (fun f => (2 + Z.of_nat j, strip (fst f))) <$> files !! j.
Proof. exact (list_lookup_imap (fun k f => (2 + Z.of_nat k, strip (fst f))) files j). Qed.

Lemma root_byte files j e i : root_list files !! j = Some e -> 0 <= i < 16 ->
  nth (Z.to_nat (16 * Z.of_nat j + i)) (root_bytes files) 0 = nth (Z.to_nat i) (dirent (fst e) (snd e)) 0.
Proof.
  intros Ej Hi. pose proof (lookup_lt_Some _ _ _ Ej) as Hj. rewrite root_concat.
  replace (Z.to_nat (16 * Z.of_nat j + i)) with (16 * j + Z.to_nat i)%nat by lia. rewrite concat_nth; [| |by rewrite length_map | lia].
  - f_equal. rewrite nth_lookup, list_lookup_fmap, Ej. done.
  - apply List.Forall_map, Forall_forall. intros x _. pose proof (len_dirent x.1 x.2) as H. unfold len in H. lia.
Qed.

Lemma nth_take (l : list Z) (n i : nat) : (i < n)%nat -> nth i (take n l) 0 = nth i l 0.
Proof. intros H. rewrite !nth_lookup. by rewrite lookup_take_lt. Qed.

(** A [struct dirent] read back. *)
Lemma dirent_read m n name : (forall i, 0 <= i < 16 -> m i = nth (Z.to_nat i) (dirent n name) 0) -> 0 <= n < 2 ^ 16 -> Forall (fun c => c <> 0) name ->
  ld16 m 0 = n /\ cstrn m 2 (Z.to_nat DIRSIZ) = take (Z.to_nat DIRSIZ) name.
Proof.
  intros Hm Hn Hnz. split.
  - unfold ld16. rewrite !Hm by lia. change (0 + 1) with 1. unfold dirent, xshort. change (Z.to_nat 0) with 0%nat. change (Z.to_nat 1) with 1%nat. cbn [app nth]. rewrite (u16_small n) by lia. unfold u8. zdiv.
  - rewrite <- (skipelem_name (fun _ => 0) name Hnz). apply cstrn_shift. intros i Hi. change (Z.of_nat (Z.to_nat DIRSIZ)) with 14 in Hi. rewrite Hm by lia.
    unfold dirent. rewrite app_nth2 by (cbn [length]; lia). cbn [length]. replace (Z.to_nat (2 + i) - 2)%nat with (Z.to_nat i) by lia. change (Z.to_nat DIRSIZ) with 14%nat. rewrite nth_take by lia.
    unfold DIRSIZ. destruct (Z.leb_spec 14 (Z.of_nat (length name))) as [Hl|Hl].
    + unfold mwrite. assert (Hl' : length (take 14 name) = 14%nat) by (rewrite length_take; lia). rewrite Hl'.
      destruct (Z.leb_spec 0 (0 + i)); [|lia]. destruct (Z.ltb_spec (0 + i) (0 + Z.of_nat 14)); [|lia]. cbn [andb]. rewrite app_nth1 by lia. rewrite nth_take by lia. f_equal. lia.
    + unfold mset, mwrite. destruct (Z.eqb_spec (0 + i) (Z.of_nat (length name))); [rewrite app_nth2 by lia; apply nth_repeat|].
      destruct (Z.leb_spec 0 (0 + i)); [|lia]. cbn [andb]. destruct (Z.ltb_spec (0 + i) (0 + Z.of_nat (length name))); [rewrite app_nth1 by lia; f_equal; lia|]. rewrite app_nth2 by lia. apply nth_repeat.
Qed.

(** ** Looking up a file *)

(** The names of the arguments can be told apart and found by a path. *)
Record names_ok (files : list (list Z * list (list Z))) : Prop := {
  no_name : Forall (fun f : list Z * list (list Z) => strip (fst f) <> [] /\ Forall (fun c => c <> 0 /\ c <> SLASH) (strip (fst f))) files;
  no_dup : NoDup (map (fun e => take (Z.to_nat DIRSIZ) (snd e)) (root_list files))
}.

Section root.
Context (d : disk) (files : list (list Z * list (list Z))).
Context (Him : image d (contents files)) (Hn : 2 + Z.of_nat (length files) <= NINODES) (Hnames : names_ok files).
Context (Hhole : (2 + Z.of_nat (length files)) mod 32 <> 0).

Lemma root_len : len (root_bytes files) = 16 * (2 + Z.of_nat (length files)).
Proof using. unfold root_bytes. rewrite !len_app, !len_dirent, len_entries. lia. Qed.

Lemma root_entry j e : root_list files !! j = Some e -> 0 < fst e < 2 ^ 16 /\ Forall (fun c => c <> 0) (snd e).
Proof using Hn Hnames.
  destruct j as [|[|j]]; [intros [= <-]; by repeat constructor..|]. rewrite root_file. destruct (files !! j) as [f|] eqn:Ef; [|done]. intros [= <-]. cbn [fst snd].
  pose proof (lookup_lt_Some _ _ _ Ef). unfold NINODES in Hn. split; [lia|]. destruct Hnames as [Hnm _]. rewrite Forall_lookup in Hnm. destruct (Hnm _ _ Ef) as [_ H1]. eapply Forall_impl; [exact H1|]. by intros c [? _].
Qed.

Section dir.
Context (st : fs) (dp : nat).
Context (Ht : td (fs_t st) = d) (Hdp : (dp < length (fs_ic st))%nat) (Hx : loaded d ROOTINO (inode_at st dp)) (Hnum : i_inum (inode_at st dp) = ROOTINO).

Lemma root_dir_ok : dir_ok mkfs_sb st dp /\ Z.of_nat (length (root_list files)) <= dir_count st dp.
Proof using Him Hn Hhole Ht Hdp Hx Hnum.
  destruct (im_file _ _ Him 0%nat T_DIR (root_bytes files) eq_refl) as (Hf & Hty & _ & Hs & _ & Hh). change (1 + Z.of_nat 0) with ROOTINO in *. rewrite Z.eqb_refl, root_len in Hs. destruct Hx as (E1 & E2 & E3 & E4).
  assert (Esz : i_size (inode_at st dp) = (16 * (2 + Z.of_nat (length files)) / 512 + 1) * 512) by (rewrite E3, Hs; done). unfold NINODES in Hn. split.
  - split.
    + by apply (loaded_file_ok d ROOTINO).
    + apply (loaded_no_holes d ROOTINO); auto. apply Hh. right. rewrite root_len. unfold BSIZE. zdiv.
    + congruence.
    + rewrite Hnum. done.
    + rewrite Esz. change (MAXFILE * BSIZE) with 71680. zdiv.
    + rewrite Esz. unfold DIRENT_SIZE. zdiv.
  - rewrite root_length. unfold dir_count. rewrite Esz. unfold DIRENT_SIZE. zdiv.
Qed.

Lemma root_dent j e : root_list files !! j = Some e ->
  dent_inum st dp (Z.of_nat j) = fst e /\ dent_name st dp (Z.of_nat j) = take (Z.to_nat DIRSIZ) (snd e).
Proof using Him Hn Hnames Ht Hdp Hx.
  intros Ej. destruct (root_entry j e Ej) as [He1 He2]. destruct (im_file _ _ Him 0%nat T_DIR (root_bytes files) eq_refl) as (_ & _ & _ & _ & Hc & _). change (1 + Z.of_nat 0) with ROOTINO in *.
  pose proof (lookup_lt_Some _ _ _ Ej) as Hj. rewrite root_length in Hj. apply dirent_read; [|lia | done]. intros i Hi. unfold dent.
  rewrite (loaded_content d ROOTINO) by done. unfold NINODES in Hn. rewrite Hc by (unfold DIRENT_SIZE; change (MAXFILE * BSIZE) with 71680; lia). by apply root_byte.
Qed.

(** [dirlookup] of the name of entry [j]. *)
Lemma root_lookup dev_read name j e : root_list files !! j = Some e -> cstrn name 0 (Z.to_nat DIRSIZ) = take (Z.to_nat DIRSIZ) (snd e) ->
  dirlookup mkfs_sb dev_read dp name st =
  let* (ip, st') := iget (i_dev (inode_at st dp)) (fst e) st in Ok (Some (ip, DIRENT_SIZE * Z.of_nat j), st').
Proof using Him Hn Hnames Hhole Ht Hdp Hx Hnum.
  intros Ej Hname. destruct root_dir_ok as [Hd Hc]. destruct (root_dent j e Ej) as [H1 H2]. destruct (root_entry j e Ej) as [He _]. pose proof (lookup_lt_Some _ _ _ Ej) as Hj.
  rewrite (dirlookup_some mkfs_sb mkfs_sb_ok dev_read no_dev st dp name (Z.of_nat j)); auto; [by rewrite H1 | lia | |]; unfold dent_matches.
  - rewrite H1, H2, Hname, bool_decide_eq_true_2 by done. destruct (Z.eqb_spec (fst e) 0); [lia | done].
  - intros i Hi. rewrite <- (Z2Nat.id i) by lia. destruct (lookup_lt_is_Some_2 (root_list files) (Z.to_nat i) ltac:(lia)) as [e' Ei].
    destruct (root_dent _ _ Ei) as [_ ->]. rewrite Hname, bool_decide_eq_false_2; [by rewrite andb_false_r|]. intros E.
    pose proof (no_dup _ Hnames) as Hnd. assert (Z.to_nat i = j); [|lia]. eapply (NoDup_lookup _ _ _ (take (Z.to_nat DIRSIZ) (snd e)) Hnd); rewrite list_lookup_fmap; [rewrite Ei; cbn; by rewrite E | by rewrite Ej].
Qed.
End dir.
End root.

(** ** Opening by path *)

Lemma scan_free n i dev inum : forall e, iget_scan (repeat no_inode n) i dev inum (Some e) = (None, Some e).
Proof. revert i. induction n as [|n IH]; intros i e; [done|]. cbn [repeat iget_scan]. apply IH. Qed.

Lemma skipelem_one nm name : nm <> [] -> Forall (fun c => c <> 0 /\ c <> SLASH) nm ->
  exists name', skipelem (SLASH :: nm) name = Some ([], name') /\ cstrn name' 0 (Z.to_nat DIRSIZ) = take (Z.to_nat DIRSIZ) nm.
Proof.
  intros Hne Hok. assert (Hs : skip_slashes (SLASH :: nm) = nm).
  { destruct nm as [|c nm]; [done|]. apply Forall_cons in Hok as [[_ Hc] _]. cbn [skip_slashes]. rewrite Z.eqb_refl. by rewrite (proj2 (Z.eqb_neq _ _) Hc). }
  assert (Ht : take_elem nm = (nm, [])).
  { clear Hne Hs. induction Hok as [|c nm [_ Hc] Hok IH]; [done|]. cbn [take_elem]. by rewrite (proj2 (Z.eqb_neq _ _) Hc), IH. }
  unfold skipelem. rewrite Hs, Ht. destruct nm as [|c nm]; [done|]. eexists. split; [reflexivity|]. apply skipelem_name. eapply Forall_impl; [exact Hok|]. by intros ? [? _].
Qed.

Section open.
Context (d : disk) (files : list (list Z * list (list Z))) (dev_read : Z -> option (nat -> mem -> Z -> Z -> fs -> res (Z * mem * fs))).
Context (Him : image d (contents files)) (Hn : 2 + Z.of_nat (length files) <= NINODES) (Hnames : names_ok files).
Context (Hhole : (2 + Z.of_nat (length files)) mod 32 <> 0).

(** The new cache entry for a file, before it is locked. *)
Definition unread (i : Z) : inode := mk_inode ROOTDEV i 1 false false 0 0 0 0 0 (repeat 0 13).

Lemma root_open : iget ROOTDEV ROOTINO (boot_fs d) = Ok (0%nat, mk_fs (mk_td d ∅) (unread ROOTINO :: repeat no_inode 49)).
Proof using. reflexivity. Qed.

Lemma next_open x i : i_inum x <> i -> i_ref x = 1 ->
  iget ROOTDEV i (mk_fs (mk_td d ∅) (x :: repeat no_inode 49)) = Ok (1%nat, mk_fs (mk_td d ∅) (x :: unread i :: repeat no_inode 48)).
Proof using.
  intros Hi Hr. unfold iget. change (repeat no_inode 49) with (no_inode :: repeat no_inode 48). cbn [fs_ic iget_scan].
  rewrite (proj2 (Z.eqb_neq _ _) Hi), andb_false_r, Hr. change (1 =? 0) with false. cbn [no_inode i_ref Z.ltb Z.compare andb Z.eqb]. by rewrite scan_free.
Qed.

Lemma root_put x y : i_locked x = true -> i_ref x = 1 -> i_nlink x <> 0 -> exists x',
  iunlockput mkfs_sb 0 (mk_fs (mk_td d ∅) (x :: y :: repeat no_inode 48)) = Ok (mk_fs (mk_td d ∅) (x' :: y :: repeat no_inode 48)).
Proof using.
  intros Hl Hr Hnl. unfold iunlockput, iunlock. cbn [inode_at fs_ic nth]. rewrite Hl, Hr. cbn [negb orb Z.ltb Z.compare Pos.compare Pos.compare_cont rbind]. unfold iput.
  cbn [set_inode fs_ic inode_at insert list_insert nth fs_t set_ilock i_locked i_valid i_nlink i_ref]. rewrite (proj2 (Z.eqb_neq _ _) Hnl), andb_false_r. cbn [andb rbind set_inode insert list_insert fs_ic fs_t]. eexists. reflexivity.
Qed.

(** The path of a file leads to its inode. *)
Lemma namei_file k name ps cwd : files !! k = Some (name, ps) ->
  exists x, namei mkfs_sb dev_read cwd (SLASH :: strip name) (boot_fs d) =
    Ok (Some 1%nat, mk_fs (mk_td d ∅) (x :: unread (2 + Z.of_nat k) :: repeat no_inode 48)).
Proof using Him Hn Hnames Hhole.
  intros Ek. pose proof (lookup_lt_Some _ _ _ Ek) as Hk. pose proof (no_name _ Hnames) as Hnm. rewrite Forall_lookup in Hnm. destruct (Hnm _ _ Ek) as [Hne Hok]. cbn [fst] in Hne, Hok.
  unfold namei, namex. rewrite Z.eqb_refl, root_open. cbn [rbind]. destruct (skipelem_one (strip name) (fun _ => 0) Hne Hok) as (nm & Es & Hcs).
  assert (Hlen : length (SLASH :: strip name) = S (length (strip name))) by done. rewrite Hlen. cbn [namex_loop]. rewrite Es.
  destruct (im_file _ _ Him 0%nat T_DIR (root_bytes files) eq_refl) as (_ & Hty & Hnl & _). change (1 + Z.of_nat 0) with ROOTINO in *.
  set (st1 := mk_fs (mk_td d ∅) (unread ROOTINO :: repeat no_inode 49)).
  destruct (ilock_loads d ROOTINO st1 0) as (x & -> & Hld & Hdev & Hnum & Href & Hlk & Hvl); [done | done | by rewrite Hty | done | done | done | done |]. cbn [rbind].
  change (set_inode st1 0 x) with (mk_fs (mk_td d ∅) (x :: repeat no_inode 49)). change (inode_at (mk_fs _ (x :: _)) 0) with x.
  destruct Hld as (E1 & E2 & E3 & E4). rewrite E1, Hty. change (negb (T_DIR =? T_DIR)) with false. cbn [andb].
  rewrite (root_lookup d files Him Hn Hnames Hhole _ 0%nat) with (j := S (S k)) (e := (2 + Z.of_nat k, strip name)); [|done | cbn; lia | done | done | by rewrite root_file, Ek | done].
  cbn [fst]. change (inode_at (mk_fs _ (x :: _)) 0) with x. rewrite Hdev. change (i_dev (inode_at st1 0)) with ROOTDEV.
  rewrite next_open; [|rewrite Hnum; change ROOTINO with 1; lia | by rewrite Href]. cbn [rbind].
  destruct (root_put x (unread (2 + Z.of_nat k))) as (x' & ->); [done | by rewrite Href | by rewrite E2, Hnl |]. cbn [rbind]. exists x'.
  destruct (length (strip name)); reflexivity.
Qed.
End open.

(** C19: a file of the image is found and read back.  mkfs is given files whose
    names (of which a directory keeps 14 bytes) are distinct, and which fit on
    the disk, and their number is such that the root directory, with "." and
    "..", does not fill its last block exactly; a kernel that boots on the image
    opens `/name`, locks the inode, and reads exactly the bytes mkfs was given,
    at any offset. *)
Theorem mkfs_then_read files k name ps dev_read cwd dst off n :
  Forall (fun f : list Z * list (list Z) => (SLASH ∉ fst f) /\ len (concat (snd f)) <= MAXFILE * BSIZE) files ->
  2 + Z.of_nat (length files) <= NINODES -> nmeta + total (contents files) <= FSSIZE ->
  names_ok files -> (2 + Z.of_nat (length files)) mod 32 <> 0 ->
  files !! k = Some (name, ps) -> 0 <= off <= len (concat ps) -> 0 <= n < 2 ^ 31 ->
  exists s st ip st', mkfs files = Ok s /\ namei mkfs_sb dev_read cwd (SLASH :: strip name) (boot_fs (img s)) = Ok (Some ip, st) /\
    ilock mkfs_sb ip st = Ok st' /\
    let r := Z.min n (len (concat ps) - off) in
    exists dst', readi mkfs_sb dev_read ip dst 0 off n st' = Ok (r, dst', st') /\
      forall x, 0 <= x < r -> dst' x = nth (Z.to_nat (off + x)) (concat ps) 0.
Proof.
  intros Hfs Hn Hroom Hnames Hhole Ek Hoff Hnn. destruct (mkfs_ok files Hfs Hn Hroom) as (s & Es & Him). set (d := img s) in *. pose proof (lookup_lt_Some _ _ _ Ek) as Hk.
  destruct (namei_file d files dev_read Him Hn Hnames Hhole k name ps cwd Ek) as (x0 & En). set (st := mk_fs (mk_td d ∅) (x0 :: unread (2 + Z.of_nat k) :: repeat no_inode 48)) in *.
  assert (Ec : contents files !! S k = Some (T_FILE, concat ps)) by (unfold contents; rewrite lookup_cons; rewrite list_lookup_fmap, Ek; done).
  destruct (im_file _ _ Him _ _ _ Ec) as (Hf & Hty & _ & Hs & Hc & Hh). replace (1 + Z.of_nat (S k)) with (2 + Z.of_nat k) in * by lia.
  destruct (ilock_loads d (2 + Z.of_nat k) st 1) as (x & El & Hld & _); [done | unfold NINODES in *; lia | by rewrite Hty | done | done | done | done |].
  set (st' := set_inode st 1 x) in *. assert (Hld' : loaded d (2 + Z.of_nat k) (inode_at st' 1)) by done. pose proof Hld' as (E1 & _ & E3 & _).
  assert (Hroot : 2 + Z.of_nat k <> ROOTINO) by (change ROOTINO with 1; lia). apply Z.eqb_neq in Hroot. rewrite Hroot in Hs. apply Z.eqb_neq in Hroot.
  assert (Hmax : len (concat ps) <= MAXFILE * BSIZE) by (rewrite Forall_lookup in Hfs; apply (Hfs _ _ Ek)). change (MAXFILE * BSIZE) with 71680 in *.
  exists s, st, 1%nat, st'. split_and!; [done..|].
  pose proof (readi_ok mkfs_sb mkfs_sb_ok dev_read st' 1 dst 0 off n) as Hr. rewrite E1, E3, Hty, Hs in Hr. cbv zeta in *.
  destruct (Z.ltb_spec (len (concat ps)) off); [lia|]. destruct (Z.leb_spec (2 ^ 32) (off + n)); [lia|]. cbn [orb] in Hr. change (MAXFILE * BSIZE) with 71680 in Hr.
  assert (Hip : (1 < length (fs_ic st'))%nat) by (cbn; lia). assert (Ht : td (fs_t st') = d) by reflexivity. clearbody st'.
  destruct (Hr (loaded_file_ok d _ st' 1 Ht Hip Hld' Hf) (loaded_no_holes d _ st' 1 Ht Hld' (Hh (or_introl Hroot)))) as (dst' & Er & Hd); [by unfold T_FILE, T_DEV | unfold len in *; lia | lia | lia|].
  exists dst'. split; [done|]. intros y Hy. rewrite Hd. destruct (Z.leb_spec 0 y); [|lia]. destruct (Z.ltb_spec y (0 + Z.min n (len (concat ps) - off))); [|lia]. cbn [andb].
  rewrite (loaded_content d (2 + Z.of_nat k)) by done. rewrite Hc by lia. do 2 f_equal. lia.
Qed.

Definition wit_files : list (list Z * list (list Z)) := [([95; 99], [repeat 7 512; [1; 2; 3]]); ([82], [])].

Lemma wit_fit : Forall (fun f : list Z * list (list Z) => (SLASH ∉ fst f) /\ len (concat (snd f)) <= MAXFILE * BSIZE) wit_files.
Proof. repeat (apply Forall_cons_2; [split; [by rewrite <- (bool_decide_eq_false (_ ∈ _)) | by vm_compute]|]). apply Forall_nil_2. Qed.

Lemma wit_names : names_ok wit_files.
Proof.
  split; [|by apply (bool_decide_unpack (NoDup _))]. repeat (apply Forall_cons_2; [split; [done|]; repeat (apply Forall_cons_2; [split; done|]); apply Forall_nil_2|]). apply Forall_nil_2.
Qed.

Lemma mkfs_then_read_witness : exists s st ip st', mkfs wit_files = Ok s /\ namei mkfs_sb no_dev 0 [SLASH; 99] (boot_fs (img s)) = Ok (Some ip, st) /\
  ilock mkfs_sb ip st = Ok st' /\ exists dst', readi mkfs_sb no_dev ip (fun _ => 0) 0 510 100 st' = Ok (5, dst', st') /\ (0 <= 4 < 5 -> dst' 4 = 3).
Proof.
  assert (Hlen : len (concat [repeat 7 512; [1; 2; 3]]) = 515) by (vm_compute; reflexivity).
  destruct (mkfs_then_read wit_files 0 [95; 99] [repeat 7 512; [1; 2; 3]] no_dev 0 (fun _ => 0) 510 100 wit_fit) as (s & st & ip & st' & H1 & H2 & H3 & H4); [by vm_compute | by vm_compute | exact wit_names | by vm_compute | reflexivity | rewrite Hlen; lia | lia|].
  exists s, st, ip, st'. rewrite Hlen in H4. cbv zeta in H4. change (Z.min 100 (515 - 510)) with 5 in H4. destruct H4 as (dst' & H4 & H5).
  split; [exact H1|]. split; [exact H2|]. split; [exact H3|]. exists dst'. split; [exact H4|]. exact (H5 4).
Defined.
