(* ===== verification/Namei.v ===== *)
(** * Path resolution (src/fs.c)

    [namei] and [nameiparent] against the directory tree on the disk.  The
    abstract side walks directories on the disk alone; the code goes through
    the inode cache, takes and drops references and locks, and loads inodes.
    The theorem says that the two agree and that no reference or lock is left
    behind. *)

From S2P Require Import Prelude Layout StringLib Blocks Balloc Fs FsFile FsDir Mkfs Boot.

(** ** The tree on the disk *)

(** The directory entries of inode [i], read from the disk. *)
Abbreviation dfile d i := (view d (slot d i)).

Definition lookup_dir (d : disk) (i : Z) (name : list Z) : option Z :=
  (fun p : nat * Z => dent_inum (dfile d i) 0 p.2) <$>
  list_find (fun k => dent_matches (dfile d i) 0 name k = true) (seqZ 0 (dir_count (dfile d i) 0)).

(** The inode a list of path elements leads to, from inode [i]. *)
Fixpoint resolve (d : disk) (i : Z) (es : list (list Z)) : option Z :=
  match es with
  | [] => Some i
  | e :: es => if i_type (slot d i) =? T_DIR then lookup_dir d i (take (Z.to_nat DIRSIZ) e) ≫= fun j => resolve d j es else None
  end.

(** The directory that holds the last element. *)
Definition resolve_parent (d : disk) (i : Z) (es : list (list Z)) : option Z :=
  match es with
  | [] => None
  | _ => resolve d i (removelast es) ≫= fun j => if i_type (slot d j) =? T_DIR then Some j else None
  end.

Definition resolved (d : disk) (parent : bool) : Z -> list (list Z) -> option Z := if parent then resolve_parent d else resolve d.

(** No name stands twice in the directory. *)
Definition names_once (st : fs) (dp : nat) : Prop := forall k k', 0 <= k < dir_count st dp -> 0 <= k' < dir_count st dp ->
  dent_inum st dp k <> 0 -> dent_inum st dp k' <> 0 -> dent_name st dp k = dent_name st dp k' -> k = k'.

(** The inodes [G] of a tree: allocated, linked, well formed, no two of them
    with a block in common, and the entries of the directories in [G], no two of
    one directory with the same name. *)
Record tree_ok (d : disk) (G : Z -> Prop) : Prop := {
  to_root : G ROOTINO;
  to_range i : G i -> 0 < i < NINODES;
  to_type i : G i -> i_type (slot d i) <> 0;
  to_link i : G i -> 0 < i_nlink (slot d i);
  to_file i : G i -> file_ok mkfs_sb (dfile d i) 0 /\ no_holes (dfile d i) 0;
  to_size i : G i -> 0 <= i_size (slot d i) <= MAXFILE * BSIZE;
  to_whole i : G i -> i_type (slot d i) = T_DIR -> i_size (slot d i) mod DIRENT_SIZE = 0;
  to_apart i j b : G i -> G j -> i <> j -> owns (dfile d i) 0 b -> ~ owns (dfile d j) 0 b;
  to_entry i k : G i -> i_type (slot d i) = T_DIR -> 0 <= k < dir_count (dfile d i) 0 ->
    dent_inum (dfile d i) 0 k <> 0 -> G (dent_inum (dfile d i) 0 k);
  to_names i : G i -> i_type (slot d i) = T_DIR -> names_once (dfile d i) 0
}.

(** ** The inode cache over it *)

(** The cache agrees with the disk; the entries [L] are locked. *)
Record cache_ok (d : disk) (G : Z -> Prop) (L : list nat) (st : fs) : Prop := {
  co_t : td (fs_t st) = d;
  co_ic : icache_ok st;
  co_live ip : (ip < length (fs_ic st))%nat -> 0 < i_ref (inode_at st ip) ->
    i_dev (inode_at st ip) = ROOTDEV /\ G (i_inum (inode_at st ip)) /\
    (i_valid (inode_at st ip) = true -> loaded d (i_inum (inode_at st ip)) (inode_at st ip));
  co_lock ip : (ip < length (fs_ic st))%nat -> i_locked (inode_at st ip) = bool_decide (ip ∈ L);
  co_held ip : ip ∈ L -> (ip < length (fs_ic st))%nat /\ 0 < i_ref (inode_at st ip) /\ i_valid (inode_at st ip) = true
}.

(** The disk, the log and the number of entries are as before. *)
Definition shape (st st' : fs) : Prop := fs_t st' = fs_t st /\ length (fs_ic st') = length (fs_ic st).

(** How many references the cache holds to inode [j]. *)
Definition weight (j : Z) (x : inode) : Z := if i_inum x =? j then i_ref x else 0.
Definition refs (st : fs) (j : Z) : Z := foldr (fun x s => weight j x + s) 0 (fs_ic st).
Definition one (i j : Z) : Z := if i =? j then 1 else 0.

Lemma refs_insert j x l ip : (ip < length l)%nat ->
  foldr (fun x s => weight j x + s) 0 (<[ip := x]> l) = foldr (fun x s => weight j x + s) 0 l - weight j (nth ip l no_inode) + weight j x.
Proof.
  revert ip. induction l as [|y l IH]; intros [|ip] H; cbn [length] in H; try lia; cbn [insert list_insert foldr nth]; [lia|].
  change (list_insert ip x l) with (<[ip := x]> l). rewrite IH by lia. lia.
Qed.

Lemma irefs_set st ip x j : (ip < length (fs_ic st))%nat -> refs (set_inode st ip x) j = refs st j - weight j (inode_at st ip) + weight j x.
Proof. apply refs_insert. Qed.

Lemma set_shape st ip x : shape st (set_inode st ip x).
Proof. split; [done | apply length_insert]. Qed.

Lemma shape_trans st1 st2 st3 : shape st1 st2 -> shape st2 st3 -> shape st1 st3.
Proof. unfold shape. intuition congruence. Qed.

Lemma set_length st ip x : length (fs_ic (set_inode st ip x)) = length (fs_ic st).
Proof. apply length_insert. Qed.

Section cache.
Context (d : disk) (G : Z -> Prop) (Htree : tree_ok d G).

(** An entry replaced by one for the same inode. *)
Lemma cache_set L L' st ip x : cache_ok d G L st -> (ip < length (fs_ic st))%nat ->
  icache_ok (set_inode st ip x) ->
  (0 < i_ref x -> i_dev x = ROOTDEV /\ G (i_inum x) /\ (i_valid x = true -> loaded d (i_inum x) x)) ->
  i_locked x = bool_decide (ip ∈ L') -> (forall q, q <> ip -> q ∈ L' <-> q ∈ L) ->
  (ip ∈ L' -> 0 < i_ref x /\ i_valid x = true) -> cache_ok d G L' (set_inode st ip x).
Proof using.
  clear Htree. intros [H1 H2 H3 H4 H5] Hip Hic Hx Hl HL Hh. split; [done | done | | |].
  - intros q. rewrite set_length. destruct (decide (q = ip)) as [->|]; [by rewrite inode_at_set|]. rewrite inode_at_set_ne by done. auto.
  - intros q. rewrite set_length. destruct (decide (q = ip)) as [->|Hq]; [by rewrite inode_at_set|]. rewrite inode_at_set_ne by done. intros Hb. rewrite H4 by done.
    apply bool_decide_ext. symmetry. by apply HL.
  - intros q E. rewrite set_length. destruct (decide (q = ip)) as [->|Hq]; [rewrite inode_at_set by done; naive_solver|]. rewrite inode_at_set_ne by done. apply H5. by apply HL.
Qed.

(** Only the reference count, the lock and what is loaded change. *)
Lemma icache_same st ip x : icache_ok st -> (ip < length (fs_ic st))%nat -> 0 <= i_ref x ->
  0 < i_ref (inode_at st ip) -> i_dev x = i_dev (inode_at st ip) -> i_inum x = i_inum (inode_at st ip) -> icache_ok (set_inode st ip x).
Proof using.
  intros Hok Hip Hr Hp Hd Hn. apply icache_set; auto. intros dev inum Hl j Hj Hlj. destruct Hok as [_ Hu]. apply (Hu j ip dev inum Hj Hip Hlj).
  unfold live_for in *. rewrite Hd, Hn in Hl. apply andb_prop in Hl as [Hl H3]. apply andb_prop in Hl as [_ H2]. rewrite H2, H3. destruct (Z.ltb_spec 0 (i_ref (inode_at st ip))); [done | lia].
Qed.

Lemma weight_same j x y : i_inum x = i_inum y -> weight j x = weight j y + one (i_inum y) j * (i_ref x - i_ref y).
Proof using. intros E. unfold weight, one. rewrite E. destruct (_ =? j); lia. Qed.

Lemma loaded_ext i x y : i_type x = i_type y -> i_nlink x = i_nlink y -> i_size x = i_size y -> i_addrs x = i_addrs y -> loaded d i y -> loaded d i x.
Proof using. unfold loaded. congruence. Qed.

Lemma refs_ge x (l : list inode) : Forall (fun x => 0 <= i_ref x) l ->
  0 <= foldr (fun y s => weight (i_inum x) y + s) 0 l /\ (x ∈ l -> i_ref x <= foldr (fun y s => weight (i_inum x) y + s) 0 l).
Proof using.
  induction 1 as [|y l Hy _ [IH1 IH2]]; cbn [foldr]; [split; [lia|]; intros H%elem_of_nil; done|]. assert (0 <= weight (i_inum x) y) by (unfold weight; zcases). split; [lia|].
  intros [->|H']%elem_of_cons; [unfold weight at 1; rewrite Z.eqb_refl; lia | specialize (IH2 H'); lia].
Qed.

(** The cache has an entry to spare when fewer inodes are in use than it has entries. *)
Lemma cache_room L st l : cache_ok d G L st -> (forall j, refs st j <> 0 -> j ∈ l) -> (length l < length (fs_ic st))%nat ->
  exists k, (k < length (fs_ic st))%nat /\ i_ref (inode_at st k) = 0.
Proof using.
  intros Hc Hin Hlt. pose proof (co_ic _ _ _ _ Hc) as [Hpos Huniq].
  destruct (decide (Exists (fun x => i_ref x = 0) (fs_ic st))) as [He|He].
  { apply Exists_exists in He as (x & Hx & Hr). apply list_elem_of_lookup in Hx as [k Hk]. exists k. split; [by eapply lookup_lt_Some|]. unfold inode_at. rewrite nth_lookup, Hk. done. }
  exfalso. assert (Hall : forall k x, fs_ic st !! k = Some x -> inode_at st k = x /\ (k < length (fs_ic st))%nat /\ 0 < i_ref x).
  { intros k x Hk. pose proof (lookup_lt_Some _ _ _ Hk) as Hb. assert (E : inode_at st k = x) by (unfold inode_at; by rewrite nth_lookup, Hk). split_and!; [done.. |].
    specialize (Hpos k Hb). rewrite E in Hpos. assert (i_ref x <> 0); [|lia]. intros Hz. apply He, Exists_exists. exists x. split; [by eapply list_elem_of_lookup_2 | done]. }
  assert (Hnd : NoDup (map i_inum (fs_ic st))).
  { apply NoDup_alt. intros a b n Ha Hb. rewrite list_lookup_fmap in Ha, Hb. destruct (fs_ic st !! a) as [x|] eqn:Ea; [|done]. destruct (fs_ic st !! b) as [y|] eqn:Eb; [|done].
    injection Ha as Ha. injection Hb as Hb. destruct (Hall _ _ Ea) as (Ex & Hba & Hra), (Hall _ _ Eb) as (Ey & Hbb & Hrb).
    apply (Huniq a b ROOTDEV n); auto; rewrite ?Ex, ?Ey; unfold live_for.
    - destruct (co_live _ _ _ _ Hc a Hba ltac:(by rewrite Ex)) as (Hd & _). rewrite Ex in Hd. rewrite Hd, Ha, !Z.eqb_refl, (proj2 (Z.ltb_lt _ _) Hra). done.
    - destruct (co_live _ _ _ _ Hc b Hbb ltac:(by rewrite Ey)) as (Hd & _). rewrite Ey in Hd. rewrite Hd, Hb, !Z.eqb_refl, (proj2 (Z.ltb_lt _ _) Hrb). done. }
  assert (Hsub : map i_inum (fs_ic st) ⊆+ l).
  { apply NoDup_submseteq; [done|]. intros n Hn. apply list_elem_of_fmap in Hn as (x & -> & Hx). apply Hin. 
    apply list_elem_of_lookup in Hx as Hx'. destruct Hx' as [k Hk]. destruct (Hall _ _ Hk) as (_ & _ & Hr).
    destruct (refs_ge x (fs_ic st)) as [_ H']; [|specialize (H' Hx); unfold refs; lia]. apply Forall_lookup. intros k' y Hy. destruct (Hall _ _ Hy) as (_ & _ & ?). lia. }
  apply submseteq_length in Hsub. rewrite length_map in Hsub. lia.
Qed.

(** A live entry of inode [i]. *)
Definition entry (st : fs) (ip : nat) (i : Z) : Prop :=
  (ip < length (fs_ic st))%nat /\ 0 < i_ref (inode_at st ip) /\ i_inum (inode_at st ip) = i.

(** The live entries of [st] stay live. *)
Definition keeps (st st' : fs) : Prop := forall q n, entry st q n -> entry st' q n.

Lemma refs_none st j : (forall q, (q < length (fs_ic st))%nat -> weight j (inode_at st q) = 0) -> refs st j = 0.
Proof using.
  clear Htree. unfold refs, inode_at. induction (fs_ic st) as [|x l IH]; intros H; [done|]. cbn [foldr]. rewrite (H 0%nat ltac:(cbn; lia) : weight j x = 0), IH; [done|]. intros q Hq. apply (H (S q)). cbn. lia.
Qed.

(** All references to an inode are in its one live entry. *)
Lemma refs_entry L st ip i : cache_ok d G L st -> entry st ip i -> refs st i = i_ref (inode_at st ip).
Proof using.
  clear Htree. intros Hc (Hip & Hr & Hn). pose proof (co_ic _ _ _ _ Hc) as [_ Huniq]. destruct (co_live _ _ _ _ Hc ip Hip Hr) as (Hdev & _). set (y := set_ref (inode_at st ip) 0).
  pose proof (irefs_set st ip y i Hip) as E. assert (Ew : weight i (inode_at st ip) = i_ref (inode_at st ip)) by (unfold weight; by rewrite Hn, Z.eqb_refl).
  assert (Ey : weight i y = 0) by (unfold weight; change (i_ref y) with 0; by destruct (_ =? _)). rewrite Ew, Ey in E. enough (refs (set_inode st ip y) i = 0) by lia. apply refs_none. intros q Hq. rewrite set_length in Hq.
  destruct (decide (q = ip)) as [->|Hne]; [by rewrite inode_at_set|]. rewrite inode_at_set_ne by done. unfold weight. destruct (Z.eqb_spec (i_inum (inode_at st q)) i) as [Eq|]; [|done].
  pose proof (co_ic _ _ _ _ Hc) as [Hpos _]. specialize (Hpos q Hq). destruct (Z.eq_dec (i_ref (inode_at st q)) 0) as [|Hnz]; [done|]. destruct Hne. assert (Hrq : 0 < i_ref (inode_at st q)) by lia.
  destruct (co_live _ _ _ _ Hc q Hq Hrq) as (Hdq & _). apply (Huniq q ip ROOTDEV i Hq Hip); unfold live_for; [rewrite Hdq, Eq | rewrite Hdev, Hn]; rewrite !Z.eqb_refl, (proj2 (Z.ltb_lt _ _)) by done; done.
Qed.

(** Dropping a reference that was taken since [st0]. *)
Lemma drop_keeps L0 L st0 st st' ip i : cache_ok d G L0 st0 -> cache_ok d G L st -> keeps st0 st -> entry st ip i -> refs st0 i < refs st i ->
  (forall q n, (q <> ip \/ 1 < i_ref (inode_at st ip)) -> entry st q n -> entry st' q n) -> keeps st0 st'.
Proof using.
  clear Htree. intros Hc0 Hc Hk He Hr Hput q n E0. apply Hput; [|by apply Hk]. destruct (decide (q = ip)) as [->|]; [right | by left]. pose proof (Hk ip n E0) as (_ & _ & Hn). destruct He as (Hb & Hp & Hi).
  assert (n = i) as -> by congruence. rewrite <- (refs_entry L st ip i Hc) by done. rewrite (refs_entry L0 st0 ip i Hc0 E0) in Hr. destruct E0 as (_ & Hr0 & _). lia.
Qed.

(** [iget] takes one reference. *)
Lemma iget_cache L st l i : cache_ok d G L st -> G i -> (forall j, refs st j <> 0 -> j ∈ l) -> (length l < length (fs_ic st))%nat ->
  exists ip st', iget ROOTDEV i st = Ok (ip, st') /\ cache_ok d G L st' /\ entry st' ip i /\
    (forall j, refs st' j = refs st j + one i j) /\ shape st st' /\
    (forall q n, entry st q n -> entry st' q n /\ (q = ip -> 1 < i_ref (inode_at st' q))).
Proof using.
  intros Hc Hi Hin Hlt. pose proof (co_ic _ _ _ _ Hc) as Hok. pose proof Hok as [Hpos Huniq]. unfold iget. pose proof (iget_scan_spec (fs_ic st) 0 ROOTDEV i None) as Hs.
  destruct (iget_scan (fs_ic st) 0 ROOTDEV i None) as [[ip|] e].
  - destruct Hs as [Hb Hl]. rewrite Nat.sub_0_r in Hl. fold (inode_at st ip) in Hl. assert (Hip : (ip < length (fs_ic st))%nat) by lia.
    unfold live_for in Hl. apply andb_prop in Hl as [[Hr%Z.ltb_lt Hd%Z.eqb_eq]%andb_prop Hn%Z.eqb_eq]. destruct (co_live _ _ _ _ Hc ip Hip Hr) as (_ & HG & Hld).
    set (x := set_ref _ _). assert (Hx : i_ref x = i_ref (inode_at st ip) + 1) by done. eexists ip, _. split; [reflexivity|]. split_and!; rewrite ?set_length; try done; try apply set_shape.
    + apply (cache_set L L); auto; [apply icache_same; auto; lia | by apply (co_lock _ _ _ _ Hc) |].
      intros E. destruct (co_held _ _ _ _ Hc ip E) as (_ & _ & Hv). split; [lia | done].
    + unfold entry. rewrite set_length, inode_at_set by done. split_and!; [done | lia | done].
    + intros j. rewrite irefs_set, (weight_same j x (inode_at st ip)), Hn, Hx by done. lia.
    + intros q n (Hq & Hqr & Hqn). unfold entry. rewrite set_length. destruct (decide (q = ip)) as [->|]; [rewrite inode_at_set by done; split_and!; [done | lia | done | lia] | by rewrite inode_at_set_ne].
  - destruct Hs as [Hn He]. destruct e as [ip|].
    2:{ destruct (cache_room L st l Hc Hin Hlt) as (k & Hk & Hz). destruct He as [_ He]. by destruct (He k Hk). }
    destruct He as [|[Hb Hz]]; [done|]. rewrite Nat.sub_0_r in Hz. fold (inode_at st ip) in Hz. assert (Hip : (ip < length (fs_ic st))%nat) by lia.
    set (x := mk_inode _ _ _ _ _ _ _ _ _ _ _). eexists ip, _. split; [reflexivity|]. split_and!; rewrite ?set_length; try done; try apply set_shape.
    + apply (cache_set L L); auto; [| by intros _ | by apply (co_lock _ _ _ _ Hc) | intros E; destruct (co_held _ _ _ _ Hc ip E) as (_ & ? & _); lia].
      apply icache_set; auto; [done|]. intros dv n Hl j Hj Hlj. unfold live_for in Hl. apply andb_prop in Hl as [[_ Hdv%Z.eqb_eq]%andb_prop Hnv%Z.eqb_eq]. change (ROOTDEV = dv) in Hdv. change (i = n) in Hnv. subst dv n. specialize (Hn j Hj). fold (inode_at st j) in Hn. congruence.
    + unfold entry. by rewrite set_length, inode_at_set.
    + intros j. rewrite irefs_set by done. unfold weight, one. rewrite Hz. change (i_inum x) with i. change (i_ref x) with 1. destruct (_ =? j); lia.
    + intros q n (Hq & Hqr & Hqn). unfold entry. rewrite set_length. destruct (decide (q = ip)) as [->|]; [lia | by rewrite inode_at_set_ne].
Qed.

Lemma idup_cache L st ip i : cache_ok d G L st -> entry st ip i ->
  cache_ok d G L (idup ip st) /\ entry (idup ip st) ip i /\ (forall j, refs (idup ip st) j = refs st j + one i j) /\ shape st (idup ip st) /\ keeps st (idup ip st).
Proof using.
  intros Hc (Hip & Hr & Hn). unfold idup. set (x := set_ref _ _). assert (Hx : i_ref x = i_ref (inode_at st ip) + 1) by done.
  destruct (co_live _ _ _ _ Hc ip Hip Hr) as (Hd & HG & Hld). split_and!; rewrite ?set_length; try done; try apply set_shape.
  - apply (cache_set L L); auto; [apply icache_same; auto; [by apply (co_ic _ _ _ _ Hc) | lia] | by apply (co_lock _ _ _ _ Hc) |].
    intros E. destruct (co_held _ _ _ _ Hc ip E) as (_ & _ & Hv). split; [lia | done].
  - unfold entry. rewrite set_length, inode_at_set by done. split_and!; [done | lia | done].
  - intros j. rewrite irefs_set, (weight_same j x (inode_at st ip)), Hn, Hx by done. lia.
  - intros q n (Hq & Hqr & Hqn). unfold entry. rewrite set_length. destruct (decide (q = ip)) as [->|]; [rewrite inode_at_set by done; split_and!; [done | lia | done] | by rewrite inode_at_set_ne].
Qed.

(** [ilock] makes the entry a copy of the inode on the disk. *)
Lemma ilock_cache L st ip i : cache_ok d G L st -> ip ∉ L -> entry st ip i ->
  exists st', ilock mkfs_sb ip st = Ok st' /\ cache_ok d G (ip :: L) st' /\ entry st' ip i /\ loaded d i (inode_at st' ip) /\
    (forall j, refs st' j = refs st j) /\ shape st st' /\ (forall q, q <> ip -> inode_at st' q = inode_at st q).
Proof using Htree.
  intros Hc HL (Hip & Hr & Hn). destruct (co_live _ _ _ _ Hc ip Hip Hr) as (Hd & HG & Hld). pose proof (co_lock _ _ _ _ Hc ip Hip) as Hl. rewrite bool_decide_eq_false_2 in Hl by done.
  assert (Hx : exists x, ilock mkfs_sb ip st = Ok (set_inode st ip x) /\ loaded d i x /\ i_dev x = ROOTDEV /\ i_inum x = i /\ i_ref x = i_ref (inode_at st ip) /\ i_locked x = true /\ i_valid x = true).
  { destruct (i_valid (inode_at st ip)) eqn:Hv.
    - exists (set_ilock (inode_at st ip) true). unfold ilock. destruct (Z.ltb_spec (i_ref (inode_at st ip)) 1); [lia|]. rewrite Hl. cbn [set_ilock i_valid]. rewrite Hv. rewrite Hn in Hld. split_and!; try done. by apply Hld.
    - destruct (ilock_loads d i st ip (co_t _ _ _ _ Hc)) as (x & ? & ? & ? & ? & ? & ? & ?); auto; [|rewrite Hn in HG; by apply (to_type d G) | exists x; split_and!; congruence].
      rewrite Hn in HG. pose proof (to_range d G Htree i HG). lia. }
  destruct Hx as (x & Ex & Hlx & Hdx & Hnx & Hrx & Hkx & Hvx). exists (set_inode st ip x). split_and!; rewrite ?inode_at_set by done; try done; try apply set_shape; [| | |intros q Hq; by apply inode_at_set_ne].
  - apply (cache_set L (ip :: L)); auto.
    + apply icache_same; auto; [apply (co_ic _ _ _ _ Hc) | lia | congruence | congruence].
    + intros _. rewrite Hnx. split_and!; [done | congruence | done].
    + rewrite Hkx, bool_decide_eq_true_2; [done | left].
    + intros q Hq. rewrite elem_of_cons. tauto.
    + intros _. split; [lia | done].
  - unfold entry. rewrite set_length, inode_at_set by done. split_and!; [done | lia | done].
  - intros j. rewrite irefs_set, (weight_same j x (inode_at st ip)), Hrx by (congruence || done). lia.
Qed.

Lemma ilock_keeps st st' ip i : entry st' ip i -> entry st ip i -> length (fs_ic st') = length (fs_ic st) -> (forall q, q <> ip -> inode_at st' q = inode_at st q) -> keeps st st'.
Proof using.
  clear Htree. intros He' (_ & _ & Hi) Hl Ho q n (Hb & Hr & Hn). destruct (decide (q = ip)) as [->|Hne]; [by assert (n = i) as -> by congruence|]. unfold entry. by rewrite Hl, Ho.
Qed.

Lemma iunlock_cache L st ip i : cache_ok d G (ip :: L) st -> ip ∉ L -> entry st ip i ->
  exists st', iunlock ip st = Ok st' /\ cache_ok d G L st' /\ entry st' ip i /\ (forall j, refs st' j = refs st j) /\
    shape st st' /\ i_ref (inode_at st' ip) = i_ref (inode_at st ip) /\ (forall q n, entry st q n -> entry st' q n).
Proof using.
  intros Hc HL (Hip & Hr & Hn). destruct (co_live _ _ _ _ Hc ip Hip Hr) as (Hd & HG & Hld). pose proof (co_lock _ _ _ _ Hc ip Hip) as Hl. rewrite bool_decide_eq_true_2 in Hl by left.
  unfold iunlock. rewrite Hl. destruct (Z.ltb_spec (i_ref (inode_at st ip)) 1); [lia|]. cbn [negb orb]. set (x := set_ilock _ _). eexists. split; [reflexivity|].
  assert (He : forall q n, entry st q n -> entry (set_inode st ip x) q n).
  { intros q n (Hq & Hqr & Hqn). unfold entry. rewrite set_length. destruct (decide (q = ip)) as [->|]; [by rewrite inode_at_set | by rewrite inode_at_set_ne]. }
  split_and!; rewrite ?set_length; try done; try apply set_shape; [| by apply He | | by rewrite inode_at_set].
  - apply (cache_set (ip :: L) L); auto; [apply icache_same; auto; [apply (co_ic _ _ _ _ Hc) | cbn; lia] | by rewrite bool_decide_eq_false_2 |]. intros q Hq. rewrite elem_of_cons. tauto.
  - intros j. rewrite irefs_set, (weight_same j x (inode_at st ip)) by done. cbn [x set_ilock i_ref]. lia.
Qed.

(** [iput] drops one reference; a linked inode stays on the disk. *)
Lemma iput_cache L st ip i : cache_ok d G L st -> ip ∉ L -> entry st ip i ->
  exists st', iput mkfs_sb ip st = Ok st' /\ cache_ok d G L st' /\ (forall j, refs st' j = refs st j - one i j) /\
    shape st st' /\ (forall q n, (q <> ip \/ 1 < i_ref (inode_at st ip)) -> entry st q n -> entry st' q n).
Proof using Htree.
  intros Hc HL (Hip & Hr & Hn). destruct (co_live _ _ _ _ Hc ip Hip Hr) as (Hd & HG & Hld). pose proof (co_lock _ _ _ _ Hc ip Hip) as Hl. rewrite bool_decide_eq_false_2 in Hl by done.
  unfold iput. rewrite Hl, inode_at_set by done. cbn [set_ilock i_valid i_nlink i_ref].
  assert (Hnl : i_valid (inode_at st ip) && (i_nlink (inode_at st ip) =? 0) = false).
  { destruct (i_valid (inode_at st ip)) eqn:Hv; [|done]. destruct (Hld eq_refl) as (_ & E & _). cbn [andb]. apply Z.eqb_neq. rewrite E. pose proof (to_link d G Htree _ HG). lia. }
  rewrite Hnl. cbn [andb rbind]. rewrite inode_at_set by done. set (x := set_inode (set_inode (set_inode _ _ _) _ _) _ _).
  assert (Ex : x = set_inode st ip (set_ref (inode_at st ip) (i_ref (inode_at st ip) - 1))).
  { unfold x. rewrite inode_at_set by (rewrite !set_length; done). unfold set_inode. cbn [fs_t fs_ic]. rewrite !list_insert_insert_eq. cbn [set_ilock i_dev i_inum i_ref i_locked i_valid i_type i_major i_minor i_nlink i_size i_addrs set_ref]. rewrite <- Hl. done. }
  rewrite Ex. clear x Ex. set (x := set_ref _ _). assert (Hx : i_ref x = i_ref (inode_at st ip) - 1) by done. eexists. split; [reflexivity|]. split_and!; rewrite ?set_length; try done; try apply set_shape.
  - apply (cache_set L L); auto; [apply icache_same; auto; [apply (co_ic _ _ _ _ Hc) | lia] | by apply (co_lock _ _ _ _ Hc) | done].
  - intros j. rewrite irefs_set, (weight_same j x (inode_at st ip)), Hn, Hx by done. lia.
  - intros q n Hor (Hq & Hqr & Hqn). unfold entry. rewrite set_length. destruct (decide (q = ip)) as [->|]; [|by rewrite inode_at_set_ne]. rewrite inode_at_set by done. destruct Hor; [done|]. split_and!; [done | lia | done].
Qed.

Lemma iunlockput_cache L st ip i : cache_ok d G (ip :: L) st -> ip ∉ L -> entry st ip i ->
  exists st', iunlockput mkfs_sb ip st = Ok st' /\ cache_ok d G L st' /\ (forall j, refs st' j = refs st j - one i j) /\
    shape st st' /\ (forall q n, (q <> ip \/ 1 < i_ref (inode_at st ip)) -> entry st q n -> entry st' q n).
Proof using Htree.
  intros Hc HL He. destruct (iunlock_cache L st ip i Hc HL He) as (st1 & E1 & Hc1 & He1 & Hr1 & Hl1 & Hn1 & Hk1). destruct (iput_cache L st1 ip i Hc1 HL He1) as (st2 & E2 & Hc2 & Hr2 & Hl2 & Hk2).
  exists st2. unfold iunlockput. rewrite E1. cbn [rbind]. split_and!; [done | done | intros j; rewrite Hr2, Hr1; done | by eapply shape_trans |]. intros q n Hor Hq. apply Hk2; [by rewrite Hn1 | by apply Hk1].
Qed.

Context (dev_read : Z -> option (nat -> mem -> Z -> Z -> fs -> res (Z * mem * fs))).

(** A locked directory's entries are those on the disk. *)
Section dir.
Context (st : fs) (ip : nat) (i : Z) (L : list nat).
Context (Hc : cache_ok d G L st) (He : entry st ip i) (Hld : loaded d i (inode_at st ip)) (Hty : i_type (slot d i) = T_DIR).

Lemma dir_member : G i.
Proof using Hc He. destruct He as (Hip & Hr & Hn). destruct (co_live _ _ _ _ Hc ip Hip Hr) as (_ & HG & _). by rewrite Hn in HG. Qed.

Lemma disk_dent k x : dent st ip k x = dent (dfile d i) 0 k x.
Proof using Hc Hld. unfold dent. apply loaded_content; [apply (co_t _ _ _ _ Hc) | done]. Qed.

Lemma disk_inum k : dent_inum st ip k = dent_inum (dfile d i) 0 k.
Proof using Hc Hld. unfold dent_inum, ld16. by rewrite !disk_dent. Qed.

Lemma disk_name k : dent_name st ip k = dent_name (dfile d i) 0 k.
Proof using Hc Hld. apply cstrn_shift. intros. apply disk_dent. Qed.

Lemma disk_matches name k : dent_matches st ip name k = dent_matches (dfile d i) 0 name k.
Proof using Hc Hld. unfold dent_matches. by rewrite disk_inum, disk_name. Qed.

Lemma disk_count : dir_count st ip = dir_count (dfile d i) 0.
Proof using Hld. unfold dir_count. destruct Hld as (_ & _ & E & _). by rewrite E. Qed.

Lemma disk_names : names_once (dfile d i) 0 -> names_once st ip.
Proof using Hc Hld. intros H k k'. rewrite disk_count, !disk_inum, !disk_name. apply H. Qed.

Lemma disk_dir_ok : dir_ok mkfs_sb st ip.
Proof using Htree Hc He Hld Hty.
  pose proof dir_member as HG. destruct (to_file d G Htree i HG) as [Hf Hh]. pose proof (to_size d G Htree i HG) as Hs. pose proof (to_whole d G Htree i HG Hty) as Hm. pose proof (to_range d G Htree i HG) as Hr.
  pose proof (co_t _ _ _ _ Hc) as Ht. destruct He as (Hip & _ & Hn). pose proof Hld as (E1 & _ & E3 & _).
  split; [by apply (loaded_file_ok d i) | by apply (loaded_no_holes d i) | congruence | rewrite Hn; change (sb_ninodes mkfs_sb) with NINODES; lia | by rewrite E3 | by rewrite E3].
Qed.

Lemma lookup_dir_some name j : lookup_dir d i name = Some j -> exists k, 0 <= k < dir_count st ip /\ dent_inum st ip k = j /\ j <> 0 /\
  dent_matches st ip name k = true /\ forall k', 0 <= k' < k -> dent_matches st ip name k' = false.
Proof using Hc Hld.
  unfold lookup_dir. rewrite <- disk_count. destruct (list_find _ _) as [[n k]|] eqn:E; [|done]. intros [= <-]. apply list_find_Some in E as (Hk & Hm & Hfirst). apply lookup_seqZ in Hk as [-> Hn].
  exists (0 + Z.of_nat n). cbn [snd]. rewrite disk_inum, disk_matches. split_and!; try done; try lia.
  - intros Hz. unfold dent_matches in Hm. by rewrite Hz in Hm.
  - intros k' Hk'. rewrite disk_matches. apply not_true_is_false. apply (Hfirst (Z.to_nat k')); [apply lookup_seqZ; lia | lia].
Qed.

Lemma lookup_dir_none name : lookup_dir d i name = None -> forall k, 0 <= k < dir_count st ip -> dent_matches st ip name k = false.
Proof using Hc Hld.
  unfold lookup_dir. rewrite <- disk_count. destruct (list_find _ _) as [[n k]|] eqn:E; [done|]. intros _ k Hk. apply list_find_None in E. rewrite Forall_forall in E.
  rewrite disk_matches. apply not_true_is_false, E. apply elem_of_seqZ. lia.
Qed.
End dir.

(** [dirlookup] in a locked directory. *)
Lemma dirlookup_cache L st ip i l name : cache_ok d G L st -> entry st ip i -> loaded d i (inode_at st ip) -> i_type (slot d i) = T_DIR ->
  (forall j, refs st j <> 0 -> j ∈ l) -> (length l < length (fs_ic st))%nat ->
  match lookup_dir d i (cstrn name 0 (Z.to_nat DIRSIZ)) with
  | None => dirlookup mkfs_sb dev_read ip name st = Ok (None, st)
  | Some j => exists q k st', dirlookup mkfs_sb dev_read ip name st = Ok (Some (q, DIRENT_SIZE * k), st') /\ cache_ok d G L st' /\ entry st' q j /\ entry st' ip i /\
      0 <= k < dir_count st ip /\ dent_matches st ip (cstrn name 0 (Z.to_nat DIRSIZ)) k = true /\ dent_inum st ip k = j /\ (q <> ip \/ 1 < i_ref (inode_at st' ip)) /\ (forall k, refs st' k = refs st k + one j k) /\ shape st st' /\ keeps st st'
  end.
Proof using Htree.
  intros Hc He Hld Hty Hin Hlt. pose proof (disk_dir_ok st ip i _ Hc He Hld Hty) as Hd. destruct (lookup_dir d i _) as [j|] eqn:E.
  - destruct (lookup_dir_some st ip i _ Hc Hld _ _ E) as (k & Hk & Hj & Hj0 & Hm & Hf). rewrite (dirlookup_some mkfs_sb mkfs_sb_ok dev_read no_dev st ip name k) by done. rewrite Hj.
    assert (HG : G j) by (rewrite <- Hj, (disk_inum st ip i _ Hc Hld); apply (to_entry d G Htree); [by apply (dir_member st ip i _ Hc He) | done | by rewrite <- (disk_count st ip i Hld) | by rewrite <- (disk_inum st ip i _ Hc Hld), Hj]).
    assert (Hdev : i_dev (inode_at st ip) = ROOTDEV) by (destruct He as (Hip & Hr & _); by destruct (co_live _ _ _ _ Hc ip Hip Hr)).
    rewrite Hdev. destruct (iget_cache _ st l j Hc HG Hin Hlt) as (q & st' & -> & Hc' & Hq & Hr & Hl & Hk'). cbn [rbind]. destruct (Hk' ip i He) as [Hi' Href]. exists q, k, st'. split; [done|]. assert (Hor : q <> ip \/ 1 < i_ref (inode_at st' ip)) by (destruct (decide (q = ip)) as [->|]; [right; by apply Href | by left]). assert (Hkp : keeps st st') by (intros q' n' E'; by destruct (Hk' q' n' E')). split_and!; (done || lia).
  - apply (dirlookup_none mkfs_sb mkfs_sb_ok dev_read no_dev st ip name Hd). by apply (lookup_dir_none st ip i _ Hc Hld).
Qed.

(** ** The walk *)

(** [resolved], one element at a time. *)
Lemma resolved_cons (par : bool) i e es : resolved d par i (e :: es) =
  if i_type (slot d i) =? T_DIR then
    if par && (match es with [] => true | _ => false end) then Some i
    else lookup_dir d i (take (Z.to_nat DIRSIZ) e) ≫= fun j => resolved d par j es
  else None.
Proof using.
  destruct par; [|done]. cbn [resolved andb]. unfold resolve_parent. destruct es as [|e' es]; [cbn [removelast resolve mbind option_bind]; by destruct (_ =? _)|].
  change (removelast (e :: e' :: es)) with (e :: removelast (e' :: es)). cbn [resolve]. destruct (_ =? _); [|done]. by destruct (lookup_dir _ _ _).
Qed.

Lemma skip_slashes_suffix p : exists pre, p = pre ++ skip_slashes p.
Proof using. induction p as [|c p [pre IH]]; [by exists []|]. cbn [skip_slashes]. destruct (c =? SLASH); [exists (c :: pre); by rewrite IH at 1 | by exists []]. Qed.

Lemma skipelem_suffix path name rest name' : skipelem path name = Some (rest, name') -> exists pre, path = pre ++ rest.
Proof using.
  unfold skipelem. destruct (skip_slashes_suffix path) as [p1 E1]. destruct (skip_slashes path) as [|c p]; [done|]. destruct (take_elem (c :: p)) as [e r] eqn:Et. destruct (take_elem_spec _ _ _ Et) as (Ep & _).
  intros [= <- _]. destruct (skip_slashes_suffix r) as [p2 E2]. exists (p1 ++ e ++ p2). rewrite E1, Ep, E2 at 1. by rewrite <- !app_assoc.
Qed.

(** What a walk leaves: one reference to the inode found, or none. *)
Definition outcome (st0 : fs) (target : option Z) (o : option nat) (st : fs) : Prop :=
  cache_ok d G [] st /\ shape st0 st /\ keeps st0 st /\
  match target with
  | Some j => exists ip, o = Some ip /\ entry st ip j /\ forall k, refs st k = refs st0 k + one j k
  | None => o = None /\ forall k, refs st k = refs st0 k
  end.

Section walk.
Context (st0 : fs) (l : list Z) (Hc0 : cache_ok d G [] st0) (HR : forall j, refs st0 j <> 0 -> j ∈ l) (Hroom : (length l + 2 <= length (fs_ic st0))%nat).

Lemma walk_room i st : (forall k, refs st k = refs st0 k + one i k) -> forall j, refs st j <> 0 -> j ∈ i :: l.
Proof using HR. clear Hroom Hc0. intros Hr j Hj. rewrite Hr in Hj. unfold one in Hj. destruct (Z.eqb_spec i j) as [->|]; [left | right; apply HR; lia]. Qed.

Lemma namex_loop_resolves par : forall fuel ip i path name st, Forall (fun c => c <> 0) path -> (length path <= fuel)%nat ->
  cache_ok d G [] st -> shape st0 st -> keeps st0 st -> entry st ip i -> (forall k, refs st k = refs st0 k + one i k) ->
  exists o name' st', namex_loop mkfs_sb dev_read fuel ip path par name st = Ok (o, name', st') /\
    outcome st0 (resolved d par i (path_elems path)) o st' /\
    (o <> None -> match path_elems path with
                  | [] => name' = name
                  | es => cstrn name' 0 (Z.to_nat DIRSIZ) = take (Z.to_nat DIRSIZ) (List.last es [])
                  end).
Proof using Htree Hc0 HR Hroom.
  induction fuel as [|fuel IH]; intros ip i path name st Hnz Hf Hc Hlen Hkp He Hr; pose proof (Hr i) as Hri; unfold one in Hri; rewrite Z.eqb_refl in Hri; pose proof (skipelem_spec path name Hnz) as Hs; cbn [namex_loop].
  all: destruct (path_elems path) as [|e es] eqn:Ep.
  1,3: rewrite Hs; destruct par; [|eexists _, _, st; split; [reflexivity|]; split; [split; [done|]; split; [done|]; split; [done|]; exists ip; done | done]].
  1,2: destruct (iput_cache [] st ip i Hc (not_elem_of_nil ip) He) as (st' & -> & Hc' & Hr' & Hl' & Hk'); cbn [rbind]; eexists _, _, st'; split; [reflexivity|]; split; [split; [done|]; split; [eauto using shape_trans|]; split; [by apply (drop_keeps [] [] st0 st st' ip i); auto; lia|]; split; [done|]; intros k; rewrite Hr', Hr; lia | done].
  { destruct Hs as (rest & name' & _ & _ & _ & Hl & _). lia. }
  destruct Hs as (rest & name' & Esk & Er & Hnil & Hl & Hcs). rewrite Esk. destruct (ilock_cache [] st ip i Hc (not_elem_of_nil ip) He) as (st1 & -> & Hc1 & He1 & Hld & Hr1 & Hl1 & Ho1). cbn [rbind].
  assert (Hkp1 : keeps st0 st1) by (intros q n E0; exact (ilock_keeps st st1 ip i He1 He (proj2 Hl1) Ho1 q n (Hkp q n E0))). assert (Hlt1 : refs st0 i < refs st1 i) by (rewrite Hr1; lia).
  assert (Et : i_type (inode_at st1 ip) = i_type (slot d i)) by (by destruct Hld). rewrite Et, resolved_cons.
  destruct (Z.eqb_spec (i_type (slot d i)) T_DIR) as [Hty|Hty]; cbn [negb].
  2:{ destruct (iunlockput_cache [] st1 ip i Hc1 (not_elem_of_nil ip) He1) as (st2 & -> & Hc2 & Hr2 & Hl2 & Hk2). cbn [rbind]. eexists _, _, st2. split; [reflexivity|]. split; [|done]. split; [done|]. split; [eauto using shape_trans|]. split; [by apply (drop_keeps [] [ip] st0 st1 st2 ip i)|]. split; [done|]. intros k. rewrite Hr2, Hr1, Hr. lia. }
  assert (Enil : (match rest with [] => true | _ => false end) = (match es with [] => true | _ => false end)) by (destruct rest, es; naive_solver). rewrite Enil.
  destruct (par && (match es with [] => true | _ => false end)) eqn:Elast.
  { destruct (iunlock_cache [] st1 ip i Hc1 (not_elem_of_nil ip) He1) as (st2 & -> & Hc2 & He2 & Hr2 & Hl2 & _ & Hk2). cbn [rbind]. eexists _, _, st2. split; [reflexivity|]. split.
    - split; [done|]. split; [eauto using shape_trans|]. split; [by intros q n E0; apply Hk2, Hkp1|]. exists ip. split_and!; [done..|]. intros k. by rewrite Hr2, Hr1.
    - intros _. destruct es; [done|]. by rewrite andb_false_r in Elast. }
  pose proof (dirlookup_cache [ip] st1 ip i (i :: l) name' Hc1 He1 Hld Hty (walk_room i st1 ltac:(intros k; by rewrite Hr1)) ltac:(cbn [length]; unfold shape in *; lia)) as Hdl. rewrite Hcs in Hdl.
  destruct (lookup_dir d i _) as [j|]; cbn [mbind option_bind].
  2:{ rewrite Hdl. cbn [rbind]. destruct (iunlockput_cache [] st1 ip i Hc1 (not_elem_of_nil ip) He1) as (st2 & -> & Hc2 & Hr2 & Hl2 & Hk2). cbn [rbind]. eexists _, _, st2. split; [reflexivity|]. split; [|done]. split; [done|]. split; [eauto using shape_trans|]. split; [by apply (drop_keeps [] [ip] st0 st1 st2 ip i)|]. split; [done|]. intros k. rewrite Hr2, Hr1, Hr. lia. }
  destruct Hdl as (q & off & st2 & -> & Hc2 & Hq & He2 & _ & _ & _ & Hor & Hr2 & Hl2 & Hkp2). cbn [rbind]. destruct (iunlockput_cache [] st2 ip i Hc2 (not_elem_of_nil ip) He2) as (st3 & -> & Hc3 & Hr3 & Hl3 & Hk3). cbn [rbind].
  assert (Hnz' : Forall (fun c => c <> 0) rest) by (destruct (skipelem_suffix _ _ _ _ Esk) as [pre Hpre]; rewrite Hpre in Hnz; apply Forall_app in Hnz; by destruct Hnz).
  destruct (IH q j rest name' st3 Hnz') as (o & name'' & st' & E & Hout & Hnm); [lia | done | eauto using shape_trans | | by apply Hk3 | intros k; rewrite Hr3, Hr2, Hr1, Hr; lia|].
  { apply (drop_keeps [] [ip] st0 st2 st3 ip i); auto; [by intros q' n E0; apply Hkp2, Hkp1 | rewrite Hr2; unfold one; zcases]. }
  rewrite E. rewrite Er in Hout, Hnm. eexists _, _, _. split; [reflexivity|]. split; [done|]. intros Ho. specialize (Hnm Ho). destruct es as [|e' es]; [by subst name'' | done].
Qed.
End walk.
End cache.

(** ** The image of mkfs is such a tree *)

Lemma root_zero d files st dp k : image d (contents files) -> 2 + Z.of_nat (length files) <= NINODES -> (2 + Z.of_nat (length files)) mod 32 <> 0 ->
  td (fs_t st) = d -> (dp < length (fs_ic st))%nat -> loaded d ROOTINO (inode_at st dp) -> i_inum (inode_at st dp) = ROOTINO ->
  0 <= k < dir_count st dp -> ~ k < 2 + Z.of_nat (length files) -> dent_inum st dp k = 0.
Proof.
  intros Him Hn Hhole Ht Hdp Hld Hnum Hk Hge. pose proof (root_dir_ok d files Him Hn Hhole st dp Ht Hdp Hld Hnum) as [Hd _]. destruct (dir_size mkfs_sb no_dev no_dev st dp Hd) as [Hs _]. pose proof (do_size _ _ _ Hd) as Hsz.
  destruct (im_file _ _ Him 0%nat T_DIR (root_bytes files) eq_refl) as (_ & _ & _ & _ & Hc & _). change (1 + Z.of_nat 0) with ROOTINO in Hc. pose proof (root_len files) as Hlen.
  change (MAXFILE * BSIZE) with 71680 in *. change DIRENT_SIZE with 16 in *.
  assert (Hz : forall x, 0 <= x < 16 -> dent st dp k x = 0).
  { intros x Hx. unfold dent. rewrite (loaded_content d ROOTINO) by done. change DIRENT_SIZE with 16. rewrite Hc by lia. apply nth_overflow. unfold len in Hlen. lia. }
  unfold dent_inum, ld16. by rewrite !Hz by lia.
Qed.

Lemma root_inums d files st dp k : image d (contents files) -> 2 + Z.of_nat (length files) <= NINODES -> names_ok files -> (2 + Z.of_nat (length files)) mod 32 <> 0 ->
  td (fs_t st) = d -> (dp < length (fs_ic st))%nat -> loaded d ROOTINO (inode_at st dp) -> i_inum (inode_at st dp) = ROOTINO ->
  0 <= k < dir_count st dp -> dent_inum st dp k <> 0 -> 1 <= dent_inum st dp k < 2 + Z.of_nat (length files).
Proof.
  intros Him Hn Hnames Hhole Ht Hdp Hld Hnum Hk Hnz. destruct (decide (k < 2 + Z.of_nat (length files))) as [Hlt|Hge].
  - destruct (lookup_lt_is_Some_2 (root_list files) (Z.to_nat k)) as [e Ee]; [rewrite root_length; lia|].
    destruct (root_dent d files Him Hn Hnames st dp Ht Hdp Hld _ _ Ee) as [E _]. rewrite Z2Nat.id in E by lia. rewrite E in *. unfold root_list in Ee.
    destruct (Z.to_nat k) as [|[|j]] eqn:Ek; [injection Ee as <-; cbn [fst]; change ROOTINO with 1; lia..|]. change (root_list files !! S (S j) = Some e) in Ee. rewrite root_file in Ee. destruct (files !! j) eqn:Ej; [|done]. injection Ee as <-. apply lookup_lt_Some in Ej. cbn [fst]. lia.
  - destruct Hnz. by apply (root_zero d files).
Qed.

Lemma root_names d files st dp : image d (contents files) -> 2 + Z.of_nat (length files) <= NINODES -> names_ok files -> (2 + Z.of_nat (length files)) mod 32 <> 0 ->
  td (fs_t st) = d -> (dp < length (fs_ic st))%nat -> loaded d ROOTINO (inode_at st dp) -> i_inum (inode_at st dp) = ROOTINO -> names_once st dp.
Proof.
  intros Him Hn Hnames Hhole Ht Hdp Hld Hnum k k' Hk Hk' Hz Hz' E.
  assert (Hin : forall x, 0 <= x < dir_count st dp -> dent_inum st dp x <> 0 -> x < 2 + Z.of_nat (length files)).
  { intros x Hx Hnz. destruct (decide (x < 2 + Z.of_nat (length files))) as [|Hge]; [done|]. by destruct Hnz; apply (root_zero d files st dp x Him Hn Hhole Ht Hdp Hld Hnum). }
  pose proof (Hin k Hk Hz). pose proof (Hin k' Hk' Hz'). destruct (lookup_lt_is_Some_2 (root_list files) (Z.to_nat k)) as [e Ee]; [rewrite root_length; lia|]. destruct (lookup_lt_is_Some_2 (root_list files) (Z.to_nat k')) as [e' Ee']; [rewrite root_length; lia|].
  destruct (root_dent d files Him Hn Hnames st dp Ht Hdp Hld _ _ Ee) as [_ E1]. destruct (root_dent d files Him Hn Hnames st dp Ht Hdp Hld _ _ Ee') as [_ E2]. rewrite Z2Nat.id in E1, E2 by lia. rewrite E1, E2 in E.
  assert (Z.to_nat k = Z.to_nat k'); [|lia]. eapply (NoDup_lookup _ _ _ (take (Z.to_nat DIRSIZ) (snd e)) (no_dup _ Hnames)); rewrite list_lookup_fmap; [by rewrite Ee | rewrite Ee'; cbn; by rewrite E].
Qed.

Lemma mkfs_tree d files : image d (contents files) -> Forall (fun f : list Z * list (list Z) => len (concat (snd f)) <= MAXFILE * BSIZE) files -> 2 + Z.of_nat (length files) <= NINODES -> names_ok files ->
  (2 + Z.of_nat (length files)) mod 32 <> 0 -> tree_ok d (fun i => 1 <= i < 2 + Z.of_nat (length files)).
Proof.
  intros Him Hfit Hn Hnames Hhole.
  assert (Hfile : forall i, 1 <= i < 2 + Z.of_nat (length files) -> exists k t l, i = 1 + Z.of_nat k /\ contents files !! k = Some (t, l) /\ (i = ROOTINO /\ t = T_DIR /\ l = root_bytes files \/ i <> ROOTINO /\ t = T_FILE)).
  { intros i Hi. destruct (decide (i = ROOTINO)) as [->|Hne]; [exists 0%nat, T_DIR, (root_bytes files); split_and!; [done | done | by left]|].
    destruct (lookup_lt_is_Some_2 files (Z.to_nat (i - 2))) as [f Ef]; [change ROOTINO with 1 in Hne; lia|].
    exists (S (Z.to_nat (i - 2))), T_FILE, (concat (snd f)). split_and!; [change ROOTINO with 1 in Hne; lia | | by right]. unfold contents. rewrite lookup_cons, list_lookup_fmap, Ef. done. }
  set (x := dinode_get (d (IBLOCK ROOTINO sb)) (dip_off ROOTINO) (mk_inode 0 ROOTINO 0 false false 0 0 0 0 0 [])).
  assert (Hld : loaded d ROOTINO x) by done. set (st := view d x).
  destruct (root_dir_ok d files Him Hn Hhole st 0 eq_refl (Nat.lt_0_succ 0) Hld eq_refl) as [Hd Hcount].
  assert (Hroot : forall i, 1 <= i < 2 + Z.of_nat (length files) -> i_type (slot d i) = T_DIR -> i = ROOTINO).
  { intros i Hi Ht. destruct (Hfile i Hi) as (k & t & l & -> & Ek & [(? & _)|(_ & ->)]); [done|]. destruct (im_file _ _ Him k _ _ Ek) as (_ & E & _). by rewrite E in Ht. }
  split.
  - change ROOTINO with 1. lia.
  - lia.
  - intros i Hi. destruct (Hfile i Hi) as (k & t & l & -> & Ek & Ht). destruct (im_file _ _ Him k _ _ Ek) as (_ & -> & _). by destruct Ht as [(_ & -> & _)|(_ & ->)].
  - intros i Hi. destruct (Hfile i Hi) as (k & t & l & -> & Ek & _). destruct (im_file _ _ Him k _ _ Ek) as (_ & _ & -> & _). lia.
  - intros i Hi. destruct (Hfile i Hi) as (k & t & l & -> & Ek & Ht). destruct (im_file _ _ Him k _ _ Ek) as (Hf & _ & _ & _ & _ & Hh). split; [done|]. apply Hh.
    destruct Ht as [(_ & _ & ->)|(? & _)]; [right; rewrite root_len; unfold BSIZE; zdiv | by left].
  - intros i Hi. destruct (Hfile i Hi) as (k & t & l & -> & Ek & Ht). destruct Ht as [(-> & _)|(Hne & ->)]; [exact (do_size _ _ _ Hd)|].
    destruct (im_file _ _ Him k _ _ Ek) as (_ & _ & _ & Hs & _). rewrite (proj2 (Z.eqb_neq _ _) Hne) in Hs. rewrite Hs. split; [apply len_nonneg|].
    destruct k as [|k]; [done|]. change (map input files !! k = Some (T_FILE, l)) in Ek. rewrite list_lookup_fmap in Ek. destruct (files !! k) as [f|] eqn:Ef; [|done]. injection Ek as <-.
    rewrite Forall_lookup in Hfit. by apply (Hfit k f).
  - intros i Hi Ht. rewrite (Hroot i Hi Ht). exact (do_whole _ _ _ Hd).
  - intros i j b Hi Hj Hij Ho. destruct (Hfile i Hi) as (k & t & l & -> & Ek & _), (Hfile j Hj) as (k' & t' & l' & -> & Ek' & _).
    apply (im_apart _ _ Him k k' b); [by eapply lookup_lt_Some.. | lia | done].
  - intros i k Hi Ht. rewrite (Hroot i Hi Ht). change (0 <= k < dir_count st 0 -> dent_inum st 0 k <> 0 -> 1 <= dent_inum st 0 k < 2 + Z.of_nat (length files)). intros Hk Hnz.
    apply (root_inums d files st 0 k); try done. apply Nat.lt_0_succ.
  - intros i Hi Ht. rewrite (Hroot i Hi Ht). change (names_once st 0). apply (root_names d files st 0); try done. apply Nat.lt_0_succ.
Qed.

(** The cache of a kernel that has just booted. *)
Lemma boot_cache d G : cache_ok d G [] (boot_fs d).
Proof.
  assert (Hno : forall ip, inode_at (boot_fs d) ip = no_inode) by (intros ip; apply nth_repeat).
  split; [done | | | | by intros ip H%elem_of_nil].
  - split; [intros i _; by rewrite Hno|]. intros i j dev inum _ _. by rewrite Hno.
  - intros ip _. rewrite Hno. cbn. lia.
  - intros ip _. rewrite Hno, bool_decide_eq_false_2; [done | apply not_elem_of_nil].
Qed.

Lemma boot_refs d j : refs (boot_fs d) j = 0.
Proof. unfold refs, boot_fs. cbn [fs_ic]. induction (Z.to_nat NINODE) as [|n IH]; [done|]. cbn [repeat foldr]. rewrite IH. unfold weight. by destruct (_ =? _). Qed.

(** ** The names in the root of the image *)

Lemma lookup_entry d i k : names_once (dfile d i) 0 -> 0 <= k < dir_count (dfile d i) 0 -> dent_inum (dfile d i) 0 k <> 0 -> lookup_dir d i (dent_name (dfile d i) 0 k) = Some (dent_inum (dfile d i) 0 k).
Proof.
  intros Hone Hk Hnz. unfold lookup_dir. set (name := dent_name (dfile d i) 0 k). assert (Hm : dent_matches (dfile d i) 0 name k = true) by (unfold dent_matches; rewrite (proj2 (Z.eqb_neq _ _) Hnz); by apply bool_decide_eq_true_2).
  destruct (list_find _ _) as [[n k']|] eqn:E.
  - apply list_find_Some in E as (E & Hm' & _). apply lookup_seqZ in E as [-> Hn]. cbn. f_equal. unfold dent_matches in Hm'. apply andb_prop in Hm' as [Hz'%negb_true_iff%Z.eqb_neq Hn'%bool_decide_eq_true].
    assert (Ek : 0 + Z.of_nat n = k) by (apply Hone; [lia | lia | done | done | done]). by rewrite Ek.
  - apply list_find_None in E. rewrite Forall_forall in E. exfalso. apply (E k); [apply elem_of_seqZ; lia | done].
Qed.

Section root.
Context (d : disk) (files : list (list Z * list (list Z))) (Him : image d (contents files)) (Hn : 2 + Z.of_nat (length files) <= NINODES) (Hnames : names_ok files) (Hhole : (2 + Z.of_nat (length files)) mod 32 <> 0).
#[local] Abbreviation st := (view d (dinode_get (d (IBLOCK ROOTINO sb)) (dip_off ROOTINO) (mk_inode 0 ROOTINO 0 false false 0 0 0 0 0 []))).

Lemma mkfs_root : names_once (dfile d ROOTINO) 0 /\ 2 + Z.of_nat (length files) <= dir_count (dfile d ROOTINO) 0 /\
  (forall n e, root_list files !! n = Some e -> dent_inum (dfile d ROOTINO) 0 (Z.of_nat n) = fst e /\ dent_name (dfile d ROOTINO) 0 (Z.of_nat n) = take (Z.to_nat DIRSIZ) (snd e)) /\
  forall k, 0 <= k < dir_count (dfile d ROOTINO) 0 -> ~ k < 2 + Z.of_nat (length files) -> dent_inum (dfile d ROOTINO) 0 k = 0.
Proof using Him Hn Hnames Hhole.
  assert (Hld : loaded d ROOTINO (inode_at st 0)) by done. destruct (root_dir_ok d files Him Hn Hhole st 0 eq_refl (Nat.lt_0_succ 0) Hld eq_refl) as [_ Hcount]. rewrite root_length in Hcount. split_and!.
  - exact (root_names d files st 0 Him Hn Hnames Hhole eq_refl (Nat.lt_0_succ 0) Hld eq_refl).
  - change (2 + Z.of_nat (length files) <= dir_count st 0). lia.
  - intros n e En. exact (root_dent d files Him Hn Hnames st 0 eq_refl (Nat.lt_0_succ 0) Hld n e En).
  - intros k. exact (root_zero d files st 0 k Him Hn Hhole eq_refl (Nat.lt_0_succ 0) Hld eq_refl).
Qed.

Lemma mkfs_lookup n e : root_list files !! n = Some e -> lookup_dir d ROOTINO (take (Z.to_nat DIRSIZ) (snd e)) = Some (fst e).
Proof using Him Hn Hnames Hhole.
  intros En. destruct mkfs_root as (Hone & Hcount & Hdent & _). destruct (Hdent n e En) as [E1 E2]. destruct (root_entry files Hn Hnames n e En) as [H1 _]. pose proof (lookup_lt_Some _ _ _ En) as Hlt. rewrite root_length in Hlt.
  rewrite <- E1, <- E2. apply lookup_entry; [done | lia | lia].
Qed.

Lemma mkfs_named name i : lookup_dir d ROOTINO name = Some i -> exists n e, root_list files !! n = Some e /\ name = take (Z.to_nat DIRSIZ) (snd e) /\ i = fst e.
Proof using Him Hn Hnames Hhole.
  destruct mkfs_root as (_ & _ & Hdent & Hzero). unfold lookup_dir. destruct (list_find _ _) as [[m k]|] eqn:E; [|done]. apply list_find_Some in E as (E & Hm & _). apply lookup_seqZ in E as [-> Hk]. cbn [fmap option_fmap option_map snd]. intros [= <-].
  change (0 + Z.of_nat m) with (Z.of_nat m) in *. unfold dent_matches in Hm. apply andb_prop in Hm as [Hz%negb_true_iff%Z.eqb_neq Hnm%bool_decide_eq_true].
  destruct (decide (Z.of_nat m < 2 + Z.of_nat (length files))) as [Hlt|Hge]; [|destruct Hz; apply Hzero; [lia | done]].
  destruct (lookup_lt_is_Some_2 (root_list files) m) as [e Ee]; [rewrite root_length; lia|]. destruct (Hdent m e Ee) as [E1 E2]. exists m, e. by rewrite <- E2, <- E1.
Qed.
End root.

(** ** namei and nameiparent *)

Definition absolute (path : list Z) : bool := match path with c :: _ => c =? SLASH | [] => false end.

Section namex.
Context (d : disk) (G : Z -> Prop) (Htree : tree_ok d G) (dev_read : Z -> option (nat -> mem -> Z -> Z -> fs -> res (Z * mem * fs))).
Context (st : fs) (l : list Z) (Hc : cache_ok d G [] st) (Hl : forall j, refs st j <> 0 -> j ∈ l) (Hroom : (length l + 2 <= length (fs_ic st))%nat).
Context (cwd : nat) (c : Z) (path : list Z) (Hcwd : absolute path = false -> entry st cwd c) (Hnz : Forall (fun b => b <> 0) path).

Lemma namex_resolves par name : exists o name' st', namex mkfs_sb dev_read cwd path par name st = Ok (o, name', st') /\
  outcome d G st (resolved d par (if absolute path then ROOTINO else c) (path_elems path)) o st' /\
  (o <> None -> match path_elems path with
                | [] => name' = name
                | es => cstrn name' 0 (Z.to_nat DIRSIZ) = take (Z.to_nat DIRSIZ) (List.last es [])
                end).
Proof using Htree Hc Hl Hroom Hcwd Hnz.
  assert (Hstart : exists ip st1, (match path with
      | c :: _ => if c =? SLASH then iget ROOTDEV ROOTINO st else Ok (cwd, idup cwd st)
      | [] => Ok (cwd, idup cwd st)
      end) = Ok (ip, st1) /\ let i := if absolute path then ROOTINO else c in
    cache_ok d G [] st1 /\ entry st1 ip i /\ (forall j, refs st1 j = refs st j + one i j) /\ shape st st1 /\ keeps st st1).
  { assert (Hrel : absolute path = false -> cache_ok d G [] (idup cwd st) /\ entry (idup cwd st) cwd c /\ (forall j, refs (idup cwd st) j = refs st j + one c j) /\ shape st (idup cwd st) /\ keeps st (idup cwd st))
      by (intros Ha; apply (idup_cache d G [] st cwd c Hc), Hcwd, Ha).
    destruct path as [|b p]; [eexists _, _; split; [reflexivity|]; by apply Hrel|]. cbn [absolute] in *. destruct (b =? SLASH); [|eexists _, _; split; [reflexivity|]; by apply Hrel].
    destruct (iget_cache d G [] st l ROOTINO Hc (to_root d G Htree) Hl) as (ip & st1 & -> & ? & ? & ? & ? & Hk); [lia|]. exists ip, st1. split_and!; try done. intros q n E0. by destruct (Hk q n E0). }
  destruct Hstart as (ip & st1 & E & Hc1 & He1 & Hr1 & Hl1 & Hkp1). unfold namex. rewrite E. cbn [rbind].
  by apply (namex_loop_resolves d G Htree dev_read st l Hc Hl Hroom par).
Qed.
End namex.

(** C6: path lookup is the walk on the disk.  On a disk whose directories are
    well formed, with a cache that agrees with it and has two entries to spare,
    [namei] returns the inode the path's elements lead to, from the root or the
    current directory, and [nameiparent] the directory of the last element and
    its name (cut to 14 bytes); both return 0 when there is none.  The disk is
    unchanged, no inode is left locked, the entries in use stay where they are,
    and the caller holds exactly one new reference, to the inode returned. *)
Theorem namei_resolves d G dev_read st l cwd c path name : tree_ok d G -> cache_ok d G [] st ->
  (forall j, refs st j <> 0 -> j ∈ l) -> (length l + 2 <= length (fs_ic st))%nat ->
  (absolute path = false -> entry st cwd c) -> Forall (fun b => b <> 0) path ->
  let i := if absolute path then ROOTINO else c in
  (exists o st', namei mkfs_sb dev_read cwd path st = Ok (o, st') /\ outcome d G st (resolve d i (path_elems path)) o st') /\
  (exists o name' st', nameiparent mkfs_sb dev_read cwd path name st = Ok (o, name', st') /\ outcome d G st (resolve_parent d i (path_elems path)) o st' /\
    (o <> None -> cstrn name' 0 (Z.to_nat DIRSIZ) = take (Z.to_nat DIRSIZ) (List.last (path_elems path) []))).
Proof.
  intros Htree Hc Hl Hroom Hcwd Hnz i. split.
  - destruct (namex_resolves d G Htree dev_read st l Hc Hl Hroom cwd c path Hcwd Hnz false (fun _ => 0)) as (o & name' & st' & E & Ho & _). exists o, st'. unfold namei. by rewrite E.
  - destruct (namex_resolves d G Htree dev_read st l Hc Hl Hroom cwd c path Hcwd Hnz true name) as (o & name' & st' & E & Ho & Hn). exists o, name', st'. split_and!; [done..|]. intros Hs. specialize (Hn Hs).
    destruct (path_elems path); [|done]. destruct Ho as (_ & _ & _ & [-> _]). done.
Qed.

(** On the image of two files: `/c` names inode 2, and its parent is the root. *)
Lemma namei_resolves_witness : exists s, mkfs wit_files = Ok s /\ let d := img s in
  let G := fun i => 1 <= i < 2 + Z.of_nat (length wit_files) in let i := if absolute [SLASH; 99] then ROOTINO else 0 in
  (exists o st', namei mkfs_sb no_dev 0 [SLASH; 99] (boot_fs d) = Ok (o, st') /\ outcome d G (boot_fs d) (resolve d i (path_elems [SLASH; 99])) o st') /\
  (exists o name' st', nameiparent mkfs_sb no_dev 0 [SLASH; 99] (fun _ => 0) (boot_fs d) = Ok (o, name', st') /\ outcome d G (boot_fs d) (resolve_parent d i (path_elems [SLASH; 99])) o st' /\
    (o <> None -> cstrn name' 0 (Z.to_nat DIRSIZ) = take (Z.to_nat DIRSIZ) (List.last (path_elems [SLASH; 99]) []))).
Proof.
  assert (Hroom : nmeta + total (contents wit_files) <= FSSIZE) by by vm_compute.
  destruct (mkfs_ok wit_files wit_fit ltac:(by vm_compute) Hroom) as (s & Es & Him). exists s. split; [exact Es|].
  refine (namei_resolves (img s) (fun i => 1 <= i < 2 + Z.of_nat (length wit_files)) no_dev (boot_fs (img s)) [] 0 0 [SLASH; 99] (fun _ => 0) _ _ _ _ _ _).
  - apply mkfs_tree; [exact Him | eapply Forall_impl; [exact wit_fit|]; by intros f [_ ?] | done | exact wit_names | done].
  - apply boot_cache.
  - intros j Hj. destruct (Hj (boot_refs (img s) j)).
  - change (length (fs_ic (boot_fs (img s)))) with 50%nat. cbn [length]. lia.
  - intros [=].
  - by repeat constructor.
Defined.
