(* ===== verification/FsTree.v ===== *)
(** * The directory tree and its inodes (src/fs.c)

    What single operations on one inode do to the tree as a whole: the inode
    written stays in step with its copy on the disk, and all other inodes, their
    blocks and the directories above them are as before. *)

From S2P Require Import Prelude Layout StringLib Blocks Balloc Fs FsFile FsDir Mkfs Boot Namei.

Abbreviation inum_at st ip := (i_inum (inode_at st ip)).

(** ** The copy of an inode on the disk *)

Lemma s16_bounds z : - 2 ^ 15 <= s16 z < 2 ^ 15.
Proof. unfold s16, u16. pose proof (Z.mod_pos_bound z (2 ^ 16) ltac:(lia)). zcases. Qed.

Lemma s16_small z : - 2 ^ 15 <= z < 2 ^ 15 -> s16 z = z.
Proof. intros H. rewrite <- (s16_u16 z H) at 2. unfold s16, u16. by rewrite Z.mod_mod. Qed.

Lemma slot_type d i : - 2 ^ 15 <= i_type (slot d i) < 2 ^ 15 /\ - 2 ^ 15 <= i_nlink (slot d i) < 2 ^ 15.
Proof. split; apply s16_bounds. Qed.

(** [iupdate] puts the inode where [ilock] finds it. *)
Lemma put_loaded d i x : - 2 ^ 15 <= i_type x < 2 ^ 15 -> - 2 ^ 15 <= i_nlink x < 2 ^ 15 -> 0 <= i_size x < 2 ^ 32 ->
  length (i_addrs x) = 13%nat -> Forall (fun a => 0 <= a < 2 ^ 32) (i_addrs x) ->
  loaded (dset d (IBLOCK i sb) (dinode_put (d (IBLOCK i sb)) (dip_off i) x)) i x.
Proof.
  intros H1 H2 H3 H4 H5. unfold loaded, slot. rewrite dset_eq. unfold dinode_get, dinode_put. cbn [i_type i_nlink i_size i_addrs].
  rewrite !ld16_put_addrs, ld32_put_addrs_lo, get_put_addrs by (done || lia). rewrite !ld16_st32_other by lia. rewrite ld32_st32_same, u32_small by lia.
  repeat first [rewrite ld16_st16_same | rewrite ld16_st16_other by lia]. by rewrite !s16_u16.
Qed.

(** The block numbers of a file fit their words. *)
Lemma file_addrs st ip : file_ok mkfs_sb st ip -> Forall (fun a => 0 <= a < 2 ^ 32) (i_addrs (inode_at st ip)).
Proof.
  intros Hf. apply (Forall_nth _ 0). intros j Hj. rewrite (fo_len _ _ _ Hf) in Hj.
  assert (E : nth j (i_addrs (inode_at st ip)) 0 = addr (inode_at st ip) (Z.of_nat j)) by (unfold addr; by rewrite Nat2Z.id). rewrite E.
  destruct (Z.eq_dec (addr (inode_at st ip) (Z.of_nat j)) 0) as [->|Hnz]; [lia|]. assert (Ho : owns st ip (addr (inode_at st ip) (Z.of_nat j))).
  { destruct (Z.lt_ge_cases (Z.of_nat j) NDIRECT) as [Hd|Hd].
    - rewrite <- fblock_direct by done. apply owns_fblock; [unfold MAXFILE; change NINDIRECT with 128; lia|]. by rewrite fblock_direct.
    - assert (Ej : Z.of_nat j = NDIRECT) by (unfold NDIRECT in *; lia). rewrite Ej in *. by apply owns_ind. }
  pose proof (fo_range _ _ _ Hf _ Ho) as Hr. change (sb_size mkfs_sb) with 1000 in Hr. rewrite (data_start_eq mkfs_sb mkfs_sb_ok) in Hr. change (sb_bmapstart mkfs_sb) with 58 in Hr. lia.
Qed.

(** A write to blocks the file has already leaves the cached inode alone. *)
Lemma writei_loop_hits fuel ip src s off tot n st r : file_ok mkfs_sb st ip -> 0 <= off -> off + (n - tot) <= MAXFILE * BSIZE ->
  (forall o, off <= o < off + (n - tot) -> fblock st ip (o / BSIZE) <> 0) ->
  writei_loop mkfs_sb fuel ip src s off tot n st = Ok r -> fs_ic (snd r) = fs_ic st.
Proof.
  revert st s off tot. induction fuel as [|fuel IH]; intros st s off tot Hf Ho Hmax Hb; cbn [writei_loop]; destruct (Z.ltb_spec tot n) as [Hlt|Hge]; try (by intros [= <-]); try done.
  destruct (pass_range off (n - tot) Ho ltac:(lia)) as (Hm & Hin & Hsame & Hnext). set (m := Z.min (n - tot) (BSIZE - off mod BSIZE)) in *.
  assert (Hr : 0 <= off / BSIZE < MAXFILE) by (apply off_block; lia). assert (Hnz : fblock st ip (off / BSIZE) <> 0) by (apply Hb; lia).
  rewrite (bmap_hit mkfs_sb mkfs_sb_ok st ip (off / BSIZE) Hf Hr Hnz). cbn [rbind]. rewrite tread_ok.
  2:{ destruct (owned_facts mkfs_sb mkfs_sb_ok _ _ _ Hf (owns_fblock _ _ _ Hr Hnz)) as (? & _). change (sb_size mkfs_sb) with 1000 in *. unfold FSSIZE. lia. }
  cbn [rbind]. set (m' := mcopy _ _ _ _ _). destruct (tlog_cases mkfs_sb (fs_t st) (fblock st ip (off / BSIZE)) m') as [[_ ->]|[_ ->]]; [|done]. unfold m'. cbn [rbind].
  fold (overwrite st (fblock st ip (off / BSIZE)) (mcopy (td (fs_t st) (fblock st ip (off / BSIZE))) (off mod BSIZE) src s m)). intros E. change (fs_ic st) with (fs_ic (overwrite st (fblock st ip (off / BSIZE)) (mcopy (td (fs_t st) (fblock st ip (off / BSIZE))) (off mod BSIZE) src s m))).
  eapply IH; [| | | |exact E]; [by apply (over_file_ok mkfs_sb mkfs_sb_ok) | lia | lia |]. intros o Hoo. rewrite (over_block mkfs_sb mkfs_sb_ok) by done. apply Hb. lia.
Qed.

Lemma meta_nlink x y : meta_of x = meta_of y -> i_nlink x = i_nlink y.
Proof. unfold meta_of, set_addrs. by intros [= ]. Qed.

Lemma loaded_block d d' i x : d' (IBLOCK i sb) = d (IBLOCK i sb) -> loaded d i x -> loaded d' i x.
Proof. unfold loaded, slot. intros E. by rewrite E. Qed.

Lemma iupdate_room sb ip st st' : iupdate sb ip st = Ok st' -> logged (fs_t st) < log_cap sb.
Proof.
  unfold iupdate. destruct (tread _ _) as [m| |]; [|done..]. cbn [rbind]. set (m' := dinode_put _ _ _).
  by destruct (tlog_cases sb (fs_t st) (IBLOCK (inum_at st ip) sb) m') as [[? _]|[_ ->]].
Qed.

(** After [writei] the inode on the disk is the cached one again. *)
Lemma writei_synced dev_write st st' ip src s off n :
  file_ok mkfs_sb st ip -> no_holes st ip -> i_type (inode_at st ip) <> T_DEV -> 0 <= inum_at st ip < NINODES ->
  i_size (inode_at st ip) <= MAXFILE * BSIZE -> 0 <= off <= i_size (inode_at st ip) -> 0 < n -> off + n <= MAXFILE * BSIZE ->
  loaded (td (fs_t st)) (inum_at st ip) (inode_at st ip) -> writei mkfs_sb dev_write ip src s off n st = Ok (n, st') ->
  loaded (td (fs_t st')) (inum_at st ip) (inode_at st' ip).
Proof.
  intros Hf Hh Ht Hin Hs Ho Hn Hmax Hld. assert (HM : MAXFILE * BSIZE = 71680) by done. unfold writei. rewrite (proj2 (Z.eqb_neq _ _) Ht), !(u32_small (off + n)) by lia.
  rewrite (proj2 (Z.ltb_ge (i_size _) off)), (proj2 (Z.ltb_ge (off + n) off)), (proj2 (Z.ltb_ge (MAXFILE * BSIZE) (off + n))) by lia. cbn [orb].
  destruct (writei_loop_ok mkfs_sb mkfs_sb_ok (passes off n) ip src s off 0 n st Hf) as [(st1 & E & Hw & _)|[E|[E _]]]; [lia | lia | lia | | | by rewrite E | by rewrite E].
  { replace (n - 0) with n by lia. apply enough_passes. lia. }
  replace (n - 0) with n in * by lia. rewrite E. cbn [rbind]. pose proof (meta_eq _ _ (wf_meta _ _ _ _ _ _ _ _ Hw)) as (Ei & Es & Ety & _). rewrite Es, (proj2 (Z.ltb_lt 0 n) Hn). cbn [andb].
  destruct (Z.ltb_spec (i_size (inode_at st ip)) (off + n)) as [Hg|Hg].
  - destruct (iupdate mkfs_sb ip _) as [st3| |] eqn:Eu; [|done..]. cbn [rbind]. intros [= _ <-]. pose proof (iupdate_room _ _ _ _ Eu) as Hlog.
    destruct (iupdate_size mkfs_sb mkfs_sb_ok st1 ip (off + n) Hlog (wf_ok _ _ _ _ _ _ _ _ Hw)) as (st2 & E2 & _ & Hat & _ & _ & Hib & _); [by rewrite Ei|]. rewrite E2 in Eu. injection Eu as <-. rewrite Hat. rewrite Ei in Hib.
    pose proof Hld as (L1 & L2 & _). destruct (slot_type (td (fs_t st)) (inum_at st ip)) as [R1 R2]. rewrite <- L1 in R1. rewrite <- L2 in R2.
    pose proof (put_loaded (td (fs_t st1)) (inum_at st ip) (set_size (inode_at st1 ip) (off + n))) as Hp. cbn [set_size i_type i_nlink i_size i_addrs] in Hp. rewrite Ety, (meta_nlink _ _ (wf_meta _ _ _ _ _ _ _ _ Hw)) in Hp.
    eapply loaded_block; [|apply Hp; [done | done | lia | apply Hw | by apply file_addrs, Hw]]. rewrite dset_eq. exact Hib.
  - intros [= _ <-]. assert (Eic : fs_ic st1 = fs_ic st).
    { change st1 with (snd (off + n, st1)) at 1. eapply (writei_loop_hits _ ip src s off 0 n st); [done | lia | lia | | exact E].
      intros o Hoo. apply Hh; [apply Z.div_pos; unfold BSIZE; lia|]. pose proof (Z.mul_div_le o BSIZE ltac:(done)). lia. }
    assert (Ex : inode_at st1 ip = inode_at st ip) by (unfold inode_at; by rewrite Eic). rewrite Ex.
    eapply loaded_block; [|exact Hld]. exact (frame_inode_block mkfs_sb mkfs_sb_ok st st1 ip (inum_at st ip) Hf (wf_frame _ _ _ _ _ _ _ _ Hw) Hin).
Qed.

(** ** Inodes an operation leaves alone *)

Record untouched (d d' : disk) (i : Z) : Prop := {
  ut_slot : slot d' i = slot d i;
  ut_block b : owns (dfile d i) 0 b -> d' b = d b;
  ut_used b : owns (dfile d i) 0 b -> used mkfs_sb (mk_td d' ∅) b = true
}.

Lemma list_find_agree {A} (P Q : A -> Prop) `{forall x, Decision (P x)} `{forall x, Decision (Q x)} l :
  (forall x, x ∈ l -> P x <-> Q x) -> list_find P l = list_find Q l.
Proof.
  induction l as [|x l IH]; intros E; [done|]. cbn [list_find]. pose proof (E x ltac:(left)). rewrite IH by (intros y Hy; apply E; by right).
  destruct (decide (P x)), (decide (Q x)); tauto.
Qed.

(** Two directories with the same entries. *)
Lemma lookup_dir_ext d d' i name : dir_count (dfile d' i) 0 = dir_count (dfile d i) 0 ->
  (forall k, 0 <= k < dir_count (dfile d i) 0 -> dent_inum (dfile d' i) 0 k = dent_inum (dfile d i) 0 k /\ dent_name (dfile d' i) 0 k = dent_name (dfile d i) 0 k) ->
  lookup_dir d' i name = lookup_dir d i name.
Proof.
  intros Hc Hk. unfold lookup_dir. rewrite Hc.
  rewrite (list_find_agree (fun k => dent_matches (dfile d' i) 0 name k = true) (fun k => dent_matches (dfile d i) 0 name k = true)).
  - destruct (list_find _ _) as [[n k]|] eqn:E; [|done]. apply list_find_Some in E as (E & _). apply lookup_seqZ in E as [-> Hn]. cbn. f_equal. apply Hk. lia.
  - intros k Hin%elem_of_seqZ. destruct (Hk k) as [E1 E2]; [lia|]. unfold dent_matches. by rewrite E1, E2.
Qed.

Section untouched.
Context (d d' : disk) (i : Z) (Hu : untouched d d' i) (Hm : meta_used mkfs_sb (mk_td d' ∅)).
Context (Hf : file_ok mkfs_sb (dfile d i) 0) (Hs : i_size (slot d i) <= MAXFILE * BSIZE).

Lemma ut_addr j : addr (slot d' i) j = addr (slot d i) j.
Proof using Hu. by rewrite (ut_slot _ _ _ Hu). Qed.

Lemma ut_fblock bn : 0 <= bn < MAXFILE -> fblock (dfile d' i) 0 bn = fblock (dfile d i) 0 bn.
Proof using Hu.
  intros Hb. destruct (Z.lt_ge_cases bn NDIRECT) as [Hd|Hd]; [rewrite !fblock_direct by done; apply ut_addr|].
  rewrite !fblock_indirect by done. unfold ind. cbn [inode_at view fs_ic nth fs_t td]. rewrite ut_addr. destruct (Z.eqb_spec (addr (slot d i) NDIRECT) 0) as [|Hnz]; [done|].
  rewrite (ut_block _ _ _ Hu); [done|]. exact (owns_ind (dfile d i) 0 Hnz).
Qed.

Lemma ut_owns b : owns (dfile d' i) 0 b <-> owns (dfile d i) 0 b.
Proof using Hu.
  unfold owns, ind. cbn [inode_at view fs_ic nth]. rewrite ut_addr. split; intros [Hb [?|(bn & Hr & E)]]; split; auto; right; exists bn; split; try done; [by rewrite <- ut_fblock | by rewrite ut_fblock].
Qed.

Lemma ut_file_ok : file_ok mkfs_sb (dfile d' i) 0.
Proof using Hu Hm Hf.
  split.
  - apply Nat.lt_0_succ.
  - cbn [inode_at view fs_ic nth]. rewrite (ut_slot _ _ _ Hu). apply Hf.
  - exact Hm.
  - intros b Ho%ut_owns. by eapply fo_range.
  - intros b Ho%ut_owns. by apply (ut_used _ _ _ Hu).
  - intros x y Hx Hy. rewrite !ut_fblock by done. by apply (fo_inj _ _ _ Hf).
  - intros x Hx. rewrite ut_fblock by done. unfold ind. cbn [inode_at view fs_ic nth]. rewrite ut_addr. by apply (fo_ind _ _ _ Hf).
Qed.

Lemma ut_no_holes : no_holes (dfile d i) 0 -> no_holes (dfile d' i) 0.
Proof using Hu Hs.
  intros H bn Hb Hlt. cbn [inode_at view fs_ic nth] in Hlt. rewrite (ut_slot _ _ _ Hu) in Hlt. change (MAXFILE * BSIZE) with 71680 in Hs.
  rewrite ut_fblock by (change MAXFILE with 140; unfold BSIZE in Hlt; lia). by apply H.
Qed.

Lemma ut_content off : 0 <= off < MAXFILE * BSIZE -> content (dfile d' i) 0 off = content (dfile d i) 0 off.
Proof using Hu.
  intros Ho%off_block. unfold content. rewrite ut_fblock by done. destruct (Z.eqb_spec (fblock (dfile d i) 0 (off / BSIZE)) 0); [done|].
  cbn [view fs_t td]. by rewrite (ut_block _ _ _ Hu) by by apply owns_fblock.
Qed.

Lemma ut_count : dir_count (dfile d' i) 0 = dir_count (dfile d i) 0.
Proof using Hu. unfold dir_count. cbn [inode_at view fs_ic nth]. by rewrite (ut_slot _ _ _ Hu). Qed.

Lemma ut_dent k x : 0 <= k < dir_count (dfile d i) 0 -> 0 <= x < 16 -> dent (dfile d' i) 0 k x = dent (dfile d i) 0 k x.
Proof using Hu Hs.
  unfold dir_count. cbn [inode_at view fs_ic nth]. intros Hk Hx. unfold dent. apply ut_content. change (MAXFILE * BSIZE) with 71680 in *. unfold DIRENT_SIZE in *. zdiv.
Qed.

Lemma ut_entry k : 0 <= k < dir_count (dfile d i) 0 -> dent_inum (dfile d' i) 0 k = dent_inum (dfile d i) 0 k /\ dent_name (dfile d' i) 0 k = dent_name (dfile d i) 0 k.
Proof using Hu Hs.
  intros Hk. split.
  - unfold dent_inum. apply ld16_ext. intros x Hx. apply ut_dent; [done | lia].
  - unfold dent_name. apply cstrn_ext. intros x Hx. change (Z.of_nat (Z.to_nat DIRSIZ)) with 14 in Hx. apply ut_dent; [done | lia].
Qed.

Lemma ut_lookup name : lookup_dir d' i name = lookup_dir d i name.
Proof using Hu Hs. apply lookup_dir_ext; [apply ut_count|]. intros k Hk. by apply ut_entry. Qed.
End untouched.

(** One inode of the tree changed, or a new one. *)
Record inode_ok (d : disk) (G : Z -> Prop) (p : Z) : Prop := {
  no_range : 0 < p < NINODES;
  no_type : i_type (slot d p) <> 0;
  no_link : 0 < i_nlink (slot d p);
  no_file : file_ok mkfs_sb (dfile d p) 0;
  no_gaps : no_holes (dfile d p) 0;
  no_size : 0 <= i_size (slot d p) <= MAXFILE * BSIZE;
  no_whole : i_type (slot d p) = T_DIR -> i_size (slot d p) mod DIRENT_SIZE = 0;
  no_entry k : i_type (slot d p) = T_DIR -> 0 <= k < dir_count (dfile d p) 0 -> dent_inum (dfile d p) 0 k <> 0 -> G (dent_inum (dfile d p) 0 k);
  no_names : i_type (slot d p) = T_DIR -> names_once (dfile d p) 0
}.

Lemma tree_inode d G p : tree_ok d G -> G p -> inode_ok d G p.
Proof. intros [T1 T2 T3 T4 T5 T6 T7 T8 T9 T10] Hp. destruct (T5 p Hp). split; auto. Qed.

Lemma tree_change d d' (G G' : Z -> Prop) p : tree_ok d G -> (forall i, G' i <-> i = p \/ G i) ->
  (forall i, G i -> i <> p -> untouched d d' i) -> meta_used mkfs_sb (mk_td d' ∅) -> inode_ok d' G' p ->
  (forall i b, G i -> i <> p -> owns (dfile d i) 0 b -> ~ owns (dfile d' p) 0 b) -> tree_ok d' G'.
Proof.
  intros Ht HG Hu Hm Hp Ha. assert (Hok : forall i, G' i -> inode_ok d' G' i).
  { intros i Hi. destruct (decide (i = p)) as [->|Hne]; [done|]. destruct (proj1 (HG i) Hi) as [?|Hg]; [done|]. specialize (Hu i Hg Hne). destruct (tree_inode d G i Ht Hg) as [I1 I2 I3 I4 I5 I6 I7 I8 I9].
    pose proof (ut_slot _ _ _ Hu) as Es. assert (Et : i_type (slot d' i) = i_type (slot d i)) by by rewrite Es.
    split; [done | by rewrite Et | by rewrite Es | by apply (ut_file_ok d d' i) | apply (ut_no_holes d d' i Hu); [lia | done] | by rewrite Es | by rewrite Es | |].
    - intros k. rewrite Et. intros Hty. rewrite (ut_count d d' i Hu). intros Hk. destruct (ut_entry d d' i Hu ltac:(lia) k Hk) as [-> _]. intros Hnz. apply HG. right. by apply I8.
    - rewrite Et. intros Hty k k'. rewrite !(ut_count d d' i Hu). intros Hk Hk'. destruct (ut_entry d d' i Hu ltac:(lia) k Hk) as [-> ->], (ut_entry d d' i Hu ltac:(lia) k' Hk') as [-> ->]. by apply (I9 Hty). }
  split; try (intros i Hi; by destruct (Hok i Hi)).
  - apply HG. right. apply (to_root d G Ht).
  - intros i j b Hi Hj Hne Hoi Hoj. destruct (decide (i = p)) as [->|Hip], (decide (j = p)) as [->|Hjp]; try done.
    + destruct (proj1 (HG j) Hj) as [?|Hgj]; [done|]. apply (ut_owns d d' j (Hu j Hgj Hjp)) in Hoj. by apply (Ha j b).
    + destruct (proj1 (HG i) Hi) as [?|Hgi]; [done|]. apply (ut_owns d d' i (Hu i Hgi Hip)) in Hoi. by apply (Ha i b).
    + destruct (proj1 (HG i) Hi) as [?|Hgi]; [done|]. destruct (proj1 (HG j) Hj) as [?|Hgj]; [done|]. apply (ut_owns d d' i (Hu i Hgi Hip)) in Hoi. apply (ut_owns d d' j (Hu j Hgj Hjp)) in Hoj. by apply (to_apart d G Ht i j b).
  - intros i k Hi. by apply (no_entry d' G' i (Hok i Hi)).
Qed.

(** The inode on the disk, seen through the cache. *)
Section seen.
Context (st : fs) (ip : nat) (i : Z) (Hip : (ip < length (fs_ic st))%nat) (Hld : loaded (td (fs_t st)) i (inode_at st ip)).

Lemma seen_file_ok : file_ok mkfs_sb st ip -> file_ok mkfs_sb (dfile (td (fs_t st)) i) 0.
Proof using Hip Hld.
  pose proof (loaded_fblock (td (fs_t st)) i st ip eq_refl Hld) as Hb. pose proof (loaded_owns (td (fs_t st)) i st ip eq_refl Hld) as Ho.
  pose proof Hld as (_ & _ & _ & Ea). intros [H1 H2 H3 H4 H5 H6 H7]. split.
  - apply Nat.lt_0_succ.
  - cbn [inode_at view fs_ic nth]. by rewrite <- Ea.
  - exact H3.
  - intros b Hb'%Ho. by apply H4.
  - intros b Hb'%Ho. by apply H5.
  - intros x y. rewrite <- !Hb. apply H6.
  - intros x Hx. rewrite <- Hb. unfold ind. cbn [inode_at view fs_ic nth]. unfold addr. rewrite <- Ea. by apply H7.
Qed.

Lemma seen_no_holes : no_holes st ip -> no_holes (dfile (td (fs_t st)) i) 0.
Proof using Hip Hld.
  intros H bn Hb Hlt. rewrite <- (loaded_fblock (td (fs_t st)) i st ip eq_refl Hld). apply H; [done|]. cbn [inode_at view fs_ic nth] in Hlt. destruct Hld as (_ & _ & -> & _). done.
Qed.

Lemma seen_inode_ok G : 0 < i < NINODES -> i_type (inode_at st ip) <> 0 -> 0 < i_nlink (inode_at st ip) -> file_ok mkfs_sb st ip -> no_holes st ip ->
  0 <= i_size (inode_at st ip) <= MAXFILE * BSIZE -> (i_type (inode_at st ip) = T_DIR -> i_size (inode_at st ip) mod DIRENT_SIZE = 0) ->
  (forall k, i_type (inode_at st ip) = T_DIR -> 0 <= k < dir_count st ip -> dent_inum st ip k <> 0 -> G (dent_inum st ip k)) ->
  (i_type (inode_at st ip) = T_DIR -> names_once st ip) -> inode_ok (td (fs_t st)) G i.
Proof using Hip Hld.
  intros H1 H2 H3 H4 H5 H6 H7 H8 H9. pose proof Hld as (E1 & E2 & E3 & _). split; rewrite <- ?E1, <- ?E2, <- ?E3; try done.
  - by apply seen_file_ok.
  - by apply seen_no_holes.
  - intros k Hty Hk. assert (E : dent_inum (dfile (td (fs_t st)) i) 0 k = dent_inum st ip k).
    { unfold dent_inum. apply ld16_ext. intros x _. unfold dent. symmetry. by apply loaded_content. }
    rewrite E. intros Hnz. apply H8; try done. unfold dir_count in *. by rewrite E3.
  - intros Hty k k'. assert (E : forall k, dent_inum (dfile (td (fs_t st)) i) 0 k = dent_inum st ip k /\ dent_name (dfile (td (fs_t st)) i) 0 k = dent_name st ip k).
    { intros x. split; [unfold dent_inum; apply ld16_ext | unfold dent_name; apply cstrn_ext]; intros y _; unfold dent; symmetry; by apply loaded_content. }
    assert (Ec : dir_count (dfile (td (fs_t st)) i) 0 = dir_count st ip) by (unfold dir_count; by rewrite E3). rewrite Ec. destruct (E k) as [-> ->], (E k') as [-> ->]. by apply H9.
Qed.
End seen.

(** ** Writing one inode *)

Lemma slot_other d d' p i : 0 <= p < NINODES -> 0 <= i < NINODES -> i <> p ->
  (IBLOCK i sb <> IBLOCK p sb -> d' (IBLOCK i sb) = d (IBLOCK i sb)) ->
  (forall x, x < dip_off p \/ dip_off p + DINODE_SIZE <= x -> d' (IBLOCK p sb) x = d (IBLOCK p sb) x) -> slot d' i = slot d i.
Proof.
  intros Hp Hi Hne H1 H2. unfold slot. destruct (Z.eq_dec (IBLOCK i sb) (IBLOCK p sb)) as [E|E]; [|by rewrite H1].
  rewrite E. apply dinode_get_ext. intros k Hk. apply H2. unfold IBLOCK, dip_off, DINODE_SIZE in *. change IPB with 8 in *. zdiv.
Qed.

(** A block of the inode area belongs to no file, and is in use. *)
Lemma iblock_facts d p i : file_ok mkfs_sb (dfile d p) 0 -> 0 <= i < NINODES ->
  0 <= IBLOCK i sb < sb_size mkfs_sb /\ IBLOCK i sb <> sb_bmapstart mkfs_sb /\ used mkfs_sb (mk_td d ∅) (IBLOCK i sb) = true /\ ~ owns (dfile d p) 0 (IBLOCK i sb).
Proof.
  intros Hf Hi. pose proof (iblock_range i Hi) as (Hr & _). change (sb_size mkfs_sb) with 1000. change (sb_bmapstart mkfs_sb) with 58. split_and!; [lia.. | lia | |].
  - apply (fo_meta _ _ _ Hf). rewrite (data_start_eq mkfs_sb mkfs_sb_ok). change (sb_bmapstart mkfs_sb) with 58. lia.
  - intros Ho. by apply (IBLOCK_not_owned mkfs_sb mkfs_sb_ok _ _ i _ Hf Hi) in Ho.
Qed.

Section writes.
Context (d : disk) (G : Z -> Prop) (Htree : tree_ok d G).
Context (st st' : fs) (dp : nat) (p : Z) (Hd : td (fs_t st) = d) (Hp : G p) (Hnum : inum_at st dp = p) (Hld : loaded d p (inode_at st dp)).
Abbreviation d' := (td (fs_t st')).

(** What [writei] promises about the blocks of others. *)
Context (de : mem) (s off n : Z) (Hw : writei_done mkfs_sb st st' dp de s off n).

Lemma write_block i b : G i -> i <> p -> owns (dfile d i) 0 b -> d' b = d b /\ used mkfs_sb (mk_td d' ∅) b = true /\ ~ owns st' dp b.
Proof using Htree Hd Hp Hnum Hld Hw.
  intros Hi Hne Ho. destruct (to_file d G Htree i Hi) as [Hf _]. pose proof (to_range d G Htree p Hp) as Hpr. destruct (owned_facts mkfs_sb mkfs_sb_ok _ _ _ Hf Ho) as (Hr & Hb & Hu).
  replace (d b) with (td (fs_t st) b) by by rewrite Hd. apply (wd_blocks _ _ _ _ _ _ _ _ Hw); try done.
  - rewrite Hnum. apply (IBLOCK_not_owned mkfs_sb mkfs_sb_ok (dfile d i) 0 p b Hf); [change (sb_ninodes mkfs_sb) with NINODES; lia | done].
  - unfold used. rewrite Hd. exact Hu.
  - intros Hop. apply (loaded_owns d p st dp Hd Hld) in Hop. by apply (to_apart d G Htree p i b).
Qed.

Lemma write_untouched i : G i -> i <> p -> untouched d d' i.
Proof using Htree Hd Hp Hnum Hld Hw.
  intros Hi Hne. split; [| intros b Ho; by apply (write_block i b).. ].
  pose proof (to_range d G Htree i Hi) as Hir. pose proof (to_range d G Htree p Hp) as Hpr. apply (slot_other d d' p i); [lia | lia | done | |].
  - intros Hb. destruct (to_file d G Htree p Hp) as [Hf _]. destruct (iblock_facts d p i Hf ltac:(lia)) as (F1 & F2 & F3 & F4). rewrite <- Hd. apply (wd_blocks _ _ _ _ _ _ _ _ Hw); try done.
    + by rewrite Hnum.
    + unfold used. rewrite Hd. exact F3.
    + by rewrite (loaded_owns d p st dp Hd Hld).
  - intros x Hx. rewrite <- Hd, <- Hnum. apply (wd_dinodes _ _ _ _ _ _ _ _ Hw). by rewrite Hnum.
Qed.

Lemma write_meta : meta_used mkfs_sb (mk_td d' ∅).
Proof using Hw. exact (fo_meta _ _ _ (wd_ok _ _ _ _ _ _ _ _ Hw)). Qed.
End writes.

(** ** Putting an inode on the disk *)

(** The log of a disk made by mkfs takes 29 blocks. *)
Definition room (st : fs) (k : Z) : Prop := logged (fs_t st) + k <= 29.

Lemma room_log st k : room st k -> 0 < k -> logged (fs_t st) < log_cap mkfs_sb.
Proof. unfold room. change (log_cap mkfs_sb) with 29. lia. Qed.

Lemma room_le st st' k k' : room st k -> logged (fs_t st') <= logged (fs_t st) + (k - k') -> room st' k'.
Proof. unfold room. lia. Qed.

Lemma iupdate_puts st ip : room st 1 -> 0 <= inum_at st ip < NINODES ->
  iupdate mkfs_sb ip st = Ok (mk_fs (tput (fs_t st) (IBLOCK (inum_at st ip) sb) (dinode_put (td (fs_t st) (IBLOCK (inum_at st ip) sb)) (dip_off (inum_at st ip)) (inode_at st ip))) (fs_ic st)).
Proof.
  intros Hroom Hi. pose proof (iblock_range _ Hi) as (Hr & _). unfold iupdate. change (IBLOCK (inum_at st ip) mkfs_sb) with (IBLOCK (inum_at st ip) sb). rewrite tread_ok by (unfold FSSIZE; lia). cbn [rbind].
  rewrite tlog_room; [done | by eapply room_log].
Qed.

(** The other inodes do not notice. *)
Lemma put_untouched d G d' p : tree_ok d G -> 0 <= p < NINODES -> (forall b, b <> IBLOCK p sb -> d' b = d b) ->
  (forall x, x < dip_off p \/ dip_off p + DINODE_SIZE <= x -> d' (IBLOCK p sb) x = d (IBLOCK p sb) x) ->
  (forall i, G i -> i <> p -> untouched d d' i) /\ forall b, 0 <= b < sb_size mkfs_sb -> used mkfs_sb (mk_td d' ∅) b = used mkfs_sb (mk_td d ∅) b.
Proof.
  intros Ht Hp Hb Hx. pose proof (iblock_range p Hp) as (Hr & _).
  assert (Hu : forall b, 0 <= b < sb_size mkfs_sb -> used mkfs_sb (mk_td d' ∅) b = used mkfs_sb (mk_td d ∅) b).
  { intros b H. rewrite !(used_bit mkfs_sb mkfs_sb_ok) by done. cbn [td]. change (sb_bmapstart mkfs_sb) with 58. by rewrite Hb by lia. }
  split; [|done]. intros i Hi Hne. destruct (to_file d G Ht i Hi) as [Hf _]. pose proof (to_range d G Ht i Hi) as Hir. split.
  - apply (slot_other d d' p i); [lia | lia | done | intros H; by apply Hb | done].
  - intros b Ho. apply Hb. by apply (IBLOCK_not_owned mkfs_sb mkfs_sb_ok (dfile d i) 0 p b Hf).
  - intros b Ho. destruct (owned_facts mkfs_sb mkfs_sb_ok _ _ _ Hf Ho) as (Hb1 & _ & Hu1). by rewrite Hu.
Qed.

(** The cache over the new disk. *)
Lemma cache_change d G L st st' dp p (G' : Z -> Prop) : cache_ok d G L st -> entry st dp p -> length (fs_ic st') = length (fs_ic st) ->
  (forall q, q <> dp -> inode_at st' q = inode_at st q) ->
  (let x := inode_at st dp in let x' := inode_at st' dp in i_dev x' = i_dev x /\ i_inum x' = i_inum x /\ i_ref x' = i_ref x /\ i_locked x' = i_locked x /\ i_valid x' = i_valid x) ->
  loaded (td (fs_t st')) p (inode_at st' dp) -> (forall i, G i -> i <> p -> slot (td (fs_t st')) i = slot d i) -> (forall i, G i -> G' i) ->
  cache_ok (td (fs_t st')) G' L st' /\ (forall j, refs st' j = refs st j) /\ (forall q n, entry st q n -> entry st' q n).
Proof.
  intros Hc (Hdp & Hr & Hn) Hlen Hq (X1 & X2 & X3 & X4 & X5) Hld Hs HG.
  assert (Hall : forall q, i_dev (inode_at st' q) = i_dev (inode_at st q) /\ inum_at st' q = inum_at st q /\ i_ref (inode_at st' q) = i_ref (inode_at st q) /\
    i_locked (inode_at st' q) = i_locked (inode_at st q) /\ i_valid (inode_at st' q) = i_valid (inode_at st q)) by (intros q; destruct (decide (q = dp)) as [->|Hne]; [done | by rewrite Hq]).
  pose proof (co_ic _ _ _ _ Hc) as [Hpos Huniq]. split; [|split].
  - split; [done | | | |].
    + split; rewrite Hlen; [intros i Hi; destruct (Hall i) as (_ & _ & -> & _); auto|]. intros i j dev inum Hi Hj. unfold live_for. destruct (Hall i) as (-> & -> & -> & _), (Hall j) as (-> & -> & -> & _). by apply Huniq.
    + intros q. rewrite Hlen. destruct (Hall q) as (-> & -> & -> & _ & ->). intros Hb Hrq. destruct (co_live _ _ _ _ Hc q Hb Hrq) as (Hdev & Hg & Hl). split_and!; [done | by apply HG|]. intros Hv.
      destruct (decide (q = dp)) as [->|Hne]; [by rewrite Hn|]. rewrite Hq by done. specialize (Hl Hv). unfold loaded in *. rewrite Hs; [done | done|]. intros E. apply Hne.
      destruct (co_live _ _ _ _ Hc dp Hdp Hr) as (Hdev' & _). apply (Huniq q dp ROOTDEV p Hb Hdp); unfold live_for; [rewrite Hdev, E | rewrite Hdev', Hn]; rewrite !Z.eqb_refl, (proj2 (Z.ltb_lt _ _)) by done; done.
    + intros q. rewrite Hlen. destruct (Hall q) as (_ & _ & _ & -> & _). apply (co_lock _ _ _ _ Hc).
    + intros q Hin. rewrite Hlen. destruct (Hall q) as (_ & _ & -> & _ & ->). by apply (co_held _ _ _ _ Hc).
  - intros j. unfold refs. revert Hlen Hall. clear. intros Hlen Hall. assert (H : forall q x x', fs_ic st !! q = Some x -> fs_ic st' !! q = Some x' -> weight j x' = weight j x).
    { intros q x x' E E'. destruct (Hall q) as (_ & En & Er & _). unfold inode_at in *. rewrite !nth_lookup, E, E' in *. cbn in *. unfold weight. by rewrite En, Er. }
    clear Hall. revert H Hlen. generalize (fs_ic st) as a. generalize (fs_ic st') as b. induction b as [|y b IH]; intros [|x a] H Hlen; try done. cbn [foldr]. rewrite (H 0%nat x y eq_refl eq_refl), (IH a); [done | | by injection Hlen].
    intros q z z' E E'. by apply (H (S q)).
  - intros q m (Hb & Hrq & Hm). unfold entry. rewrite Hlen. destruct (Hall q) as (_ & -> & -> & _). done.
Qed.

(** ** Linking a name *)

(** Disk [d'] is [d] with the name [nm] for inode [j] in directory [p]. *)
Record linked (d d' : disk) (G : Z -> Prop) (p : Z) (nm : list Z) (j : Z) : Prop := {
  lk_other i : G i -> i <> p -> untouched d d' i;
  lk_type : i_type (slot d' p) = i_type (slot d p) /\ i_nlink (slot d' p) = i_nlink (slot d p);
  lk_size : i_size (slot d' p) <= i_size (slot d p) + DIRENT_SIZE;
  lk_lookup name : lookup_dir d' p name = if bool_decide (name = nm) then Some j else lookup_dir d p name
}.

Section look.
Context (d : disk) (G : Z -> Prop) (L : list nat) (st : fs) (dp : nat) (p : Z) (Hc : cache_ok d G L st) (He : entry st dp p) (HL : dp ∈ L).

Lemma held_loaded : loaded d p (inode_at st dp).
Proof using Hc He HL.
  destruct (co_held _ _ _ _ Hc dp HL) as (Hdp & Hr & Hv). destruct (co_live _ _ _ _ Hc dp Hdp Hr) as (_ & _ & Hl). destruct He as (_ & _ & Hn). rewrite Hn in Hl. by apply Hl.
Qed.

(** A name stands for the inode of the one entry that has it. *)
Lemma lookup_iff name i : names_once st dp -> lookup_dir d p name = Some i <-> exists k, 0 <= k < dir_count st dp /\ dent_matches st dp name k = true /\ dent_inum st dp k = i.
Proof using Hc He HL.
  intros Hone. pose proof held_loaded as Hld. split.
  - intros (k & Hk & Ei & _ & Hm & _)%(lookup_dir_some d G st dp p L Hc Hld). by exists k.
  - intros (k & Hk & Hm & Ei). destruct (lookup_dir d p name) as [i'|] eqn:E; [|by rewrite (lookup_dir_none d G st dp p L Hc Hld name E) in Hm].
    apply (lookup_dir_some d G st dp p L Hc Hld) in E as (k' & Hk' & Ei' & _ & Hm' & _). unfold dent_matches in Hm, Hm'.
    apply andb_prop in Hm as [Hz%negb_true_iff%Z.eqb_neq Hn%bool_decide_eq_true], Hm' as [Hz'%negb_true_iff%Z.eqb_neq Hn'%bool_decide_eq_true].
    assert (k' = k); [|congruence]. apply Hone; [done.. | congruence].
Qed.

End look.

Lemma meta_fields x y : set_size (meta_of x) 0 = set_size (meta_of y) 0 -> i_dev x = i_dev y /\ i_inum x = i_inum y /\ i_ref x = i_ref y /\ i_locked x = i_locked y /\ i_valid x = i_valid y /\
  i_type x = i_type y /\ i_nlink x = i_nlink y.
Proof. unfold meta_of, set_addrs, set_size. intros [= ]. by split_and!. Qed.

Section link.
Context (d : disk) (G : Z -> Prop) (Htree : tree_ok d G).
Context (dev_read : Z -> option (nat -> mem -> Z -> Z -> fs -> res (Z * mem * fs))) (dev_write : Z -> option (nat -> mem -> Z -> Z -> fs -> res (Z * fs))).
Context (L : list nat) (st : fs) (dp : nat) (p j : Z) (Hc : cache_ok d G L st) (He : entry st dp p) (HL : dp ∈ L).
Context (Hty : i_type (slot d p) = T_DIR).

(** The tree, the cache and everything else after one entry of [dp] was written. *)
Record dent_set (st' : fs) (k : Z) : Prop := {
  ds_tree : tree_ok (td (fs_t st')) G;
  ds_cache : cache_ok (td (fs_t st')) G L st';
  ds_other i : G i -> i <> p -> untouched d (td (fs_t st')) i;
  ds_slot : let x := slot d p in let x' := slot (td (fs_t st')) p in i_type x' = i_type x /\ i_nlink x' = i_nlink x /\ i_size x' = Z.max (i_size x) (DIRENT_SIZE * k + DIRENT_SIZE);
  ds_refs i : refs st' i = refs st i;
  ds_entry q n : entry st q n -> entry st' q n;
  ds_len : length (fs_ic st') = length (fs_ic st);
  ds_inodes q : q <> dp -> inode_at st' q = inode_at st q
}.

Lemma dent_tree de st' nm i k : writei mkfs_sb dev_write dp de 0 (DIRENT_SIZE * k) DIRENT_SIZE st = Ok (DIRENT_SIZE, st') ->
  writei_done mkfs_sb st st' dp de 0 (DIRENT_SIZE * k) DIRENT_SIZE -> set_in mkfs_sb st st' dp nm i k -> (i <> 0 -> G i) -> names_once st' dp -> 0 <= k <= dir_count st dp ->
  DIRENT_SIZE * k + DIRENT_SIZE <= MAXFILE * BSIZE -> dent_set st' k.
Proof using Htree Hc He HL Hty.
  clear dev_read. intros Ewr Hw Hl HGi Hone Hk Hroom. pose proof (held_loaded d G L st dp p Hc He HL) as Hld. pose proof (disk_dir_ok d G Htree st dp p L Hc He Hld Hty) as Hdir. pose proof (dir_member d G st dp p L Hc He) as Hp. pose proof (co_t _ _ _ _ Hc) as Hd.
  pose proof (to_range d G Htree p Hp) as Hpr. pose proof Hld as (E1 & E2 & E3 & E4). pose proof He as (Hdp & Href & Hnum).
  pose proof (meta_fields _ _ (wd_meta _ _ _ _ _ _ _ _ Hw)) as (M1 & M2 & M3 & M4 & M5 & M6 & M7). pose proof (si_ok _ _ _ _ _ _ _ Hl) as [D1 D2 D3 D4 D5 D6].
  destruct (dir_size mkfs_sb no_dev no_dev st dp Hdir) as [Hsz _]. assert (HD : DIRENT_SIZE = 16) by done. assert (HM : MAXFILE * BSIZE = 71680) by done. pose proof (do_size _ _ _ Hdir) as Hsize.
  assert (Hld' : loaded (td (fs_t st')) p (inode_at st' dp)).
  { rewrite <- Hnum. eapply (writei_synced dev_write st st' dp de 0 (DIRENT_SIZE * k) DIRENT_SIZE); [apply Hdir | apply Hdir | by rewrite E1, Hty | rewrite Hnum; lia | lia | lia | lia | lia | rewrite Hnum, Hd; exact Hld | exact Ewr]. }
  pose proof (write_untouched d G Htree st st' dp p Hd Hp Hnum Hld de 0 _ _ Hw) as Hu.
  destruct (cache_change d G L st st' dp p G Hc He) as (Hc' & Hr' & He'); [| apply (wd_inodes _ _ _ _ _ _ _ _ Hw) | by split_and! | exact Hld' | intros n Hn Hne; apply (ut_slot _ _ _ (Hu n Hn Hne)) | done |].
  { apply (wd_len _ _ _ _ _ _ _ _ Hw). }
  split; try done; [| | apply (wd_len _ _ _ _ _ _ _ _ Hw) | apply (wd_inodes _ _ _ _ _ _ _ _ Hw)].
  - apply (tree_change d (td (fs_t st')) G G p Htree).
    + intros n. split; [tauto | intros [->|?]; done].
    + done.
    + exact (write_meta st st' dp de 0 _ _ Hw).
    + apply (seen_inode_ok st' dp p); try done; try lia.
      * apply D1.
      * by rewrite D3.
      * rewrite M7, E2. apply (to_link d G Htree p Hp).
      * intros n _ Hn Hnz. destruct (decide (n = k)) as [->|Hne]; [rewrite (si_inum _ _ _ _ _ _ _ Hl) in *; by apply HGi|]. destruct (si_other _ _ _ _ _ _ _ Hl n Hn Hne) as [Ei _]. rewrite Ei in *. rewrite (si_count _ _ _ _ _ _ _ Hl) in Hn.
        assert (Hn' : 0 <= n < dir_count st dp) by lia. rewrite (disk_inum d G st dp p L Hc Hld) in *. rewrite (disk_count d st dp p Hld) in Hn'. by apply (to_entry d G Htree p).
    + intros n b Hn Hne Ho. rewrite <- (loaded_owns (td (fs_t st')) p st' dp eq_refl Hld'). by apply (write_block d G Htree st st' dp p Hd Hp Hnum Hld de 0 _ _ Hw n).
  - pose proof Hld' as (F1 & F2 & F3 & _). cbv zeta. rewrite <- F1, <- F2, <- F3, M6, M7, (wd_size _ _ _ _ _ _ _ _ Hw), <- E3. by split_and!.
Qed.

(** The entries after the link, by the ones before. *)
Lemma linked_matches st' nm k name i : linked_in mkfs_sb st st' dp nm j k -> 0 <= i < dir_count st' dp -> 0 < j ->
  dent_matches st' dp name i = if i =? k then bool_decide (nm = name) else (i <? dir_count st dp) && dent_matches st dp name i.
Proof using.
  intros [[L1 L2 L4 L5 L6 L7 L8] L3] Hi Hj0. unfold dent_matches. destruct (Z.eqb_spec i k) as [->|Hne].
  - rewrite L5, L6. destruct (Z.eqb_spec j 0); [lia | done].
  - destruct (L7 i Hi Hne) as [-> ->]. destruct (Z.ltb_spec i (dir_count st dp)); [done | lia].
Qed.

Lemma linked_old st' nm k name : linked_in mkfs_sb st st' dp nm j k -> k < dir_count st dp -> dent_matches st dp name k = false.
Proof using. intros [_ L3] Hk. destruct L3 as [?|[_ E]]; [lia|]. unfold dent_matches. by rewrite E. Qed.

Lemma linked_names st' nm k : linked_in mkfs_sb st st' dp nm j k -> (forall i, 0 <= i < dir_count st dp -> dent_matches st dp nm i = false) -> names_once st dp -> names_once st' dp.
Proof using.
  intros [[L1 L2 L4 L5 L6 L7 L8] L3] Hno Hold. assert (Hfree : forall x, 0 <= x < dir_count st' dp -> x <> k -> dent_inum st' dp x <> 0 -> dent_name st' dp x <> nm).
  { intros x Hx Hne Hnz E. destruct (L7 x Hx Hne) as [E1 E2]. specialize (Hno x ltac:(lia)). unfold dent_matches in Hno. rewrite <- E1, <- E2, E, bool_decide_eq_true_2, andb_true_r in Hno by done. by apply negb_false_iff, Z.eqb_eq in Hno. }
  intros x y Hx Hy Hzx Hzy E. destruct (decide (x = k)) as [->|Hxk], (decide (y = k)) as [->|Hyk]; [done | | |].
  - destruct (Hfree y Hy Hyk Hzy). by rewrite <- E.
  - destruct (Hfree x Hx Hxk Hzx). by rewrite E.
  - destruct (L7 x Hx Hxk) as [X1 X2], (L7 y Hy Hyk) as [Y1 Y2]. rewrite X1 in Hzx. rewrite Y1 in Hzy. rewrite X2, Y2 in E. apply Hold; [lia | lia | exact Hzx | exact Hzy | exact E].
Qed.

Lemma dir_names : names_once st dp.
Proof using Htree Hc He HL Hty. apply (disk_names d G st dp p L Hc (held_loaded d G L st dp p Hc He HL)), (to_names d G Htree p (dir_member d G st dp p L Hc He) Hty). Qed.

Lemma dirlink_lookup st' nm k name : linked_in mkfs_sb st st' dp nm j k -> cache_ok (td (fs_t st')) G L st' -> entry st' dp p -> names_once st' dp -> 0 < j ->
  lookup_dir d p nm = None -> lookup_dir (td (fs_t st')) p name = if bool_decide (name = nm) then Some j else lookup_dir d p name.
Proof using Htree Hc He HL Hty.
  intros Hl Hc' He' Hone' Hj0 Hno. pose proof Hl as [[_ Hk Hn Hi _ Hot _] _]. pose proof (held_loaded d G L st dp p Hc He HL) as Hld.
  pose proof (lookup_dir_none d G st dp p L Hc Hld nm Hno) as Hfree. pose proof (fun i => linked_matches st' nm k name i Hl) as Hm. pose proof (linked_old st' nm k name Hl) as Ho.
  apply option_eq. intros i. rewrite (lookup_iff (td (fs_t st')) G L st' dp p Hc' He' HL name i Hone'). destruct (decide (name = nm)) as [->|En].
  - rewrite bool_decide_eq_true_2 by done. split.
    + intros (k' & Hk' & Hm' & <-). rewrite Hm in Hm' by done. destruct (Z.eqb_spec k' k) as [->|]; [by rewrite Hi|]. apply andb_prop in Hm' as [Hlt%Z.ltb_lt Hm']. rewrite Hfree in Hm'; [done | lia].
    + intros [= <-]. exists k. split_and!; [lia | lia | | done]. rewrite Hm, Z.eqb_refl by done. by apply bool_decide_eq_true_2.
  - rewrite (bool_decide_eq_false_2 (name = nm)), (lookup_iff d G L st dp p Hc He HL name i dir_names) by done. split; intros (k' & Hk' & Hm' & Ei).
    + rewrite Hm in Hm' by done. destruct (Z.eqb_spec k' k) as [->|Hne]; [rewrite bool_decide_eq_false_2 in Hm' by congruence; done|]. apply andb_prop in Hm' as [Hlt%Z.ltb_lt Hm'].
      exists k'. split_and!; [lia | lia | done|]. destruct (Hot k' Hk' Hne) as [E _]. by rewrite <- E.
    + assert (Hne : k' <> k) by (intros ->; rewrite Ho in Hm' by lia; done). assert (Hk2 : 0 <= k' < dir_count st' dp) by lia. exists k'. split_and!; [lia | lia | | destruct (Hot k' Hk2 Hne) as [E _]; by rewrite E].
      rewrite Hm, (proj2 (Z.eqb_neq _ _) Hne), (proj2 (Z.ltb_lt _ _)) by lia. exact Hm'.
Qed.

(** [dirlink] adds one name to the tree and changes nothing else in it. *)
Lemma dirlink_tree name : let nm := cstrn name 0 (Z.to_nat DIRSIZ) in room st 4 -> G j -> lookup_dir d p nm = None -> i_size (slot d p) + DIRENT_SIZE <= MAXFILE * BSIZE ->
  (exists st', dirlink mkfs_sb dev_read dev_write dp name j st = Ok (0, st') /\ let d' := td (fs_t st') in
     tree_ok d' G /\ cache_ok d' G L st' /\ linked d d' G p nm j /\ (forall i, refs st' i = refs st i) /\ (forall q n, entry st q n -> entry st' q n) /\
     length (fs_ic st') = length (fs_ic st) /\ (forall q, q <> dp -> inode_at st' q = inode_at st q) /\ logged (fs_t st') <= logged (fs_t st) + 4) \/
  dirlink mkfs_sb dev_read dev_write dp name j st = Panic "balloc: out of blocks".
Proof using Htree Hc He HL Hty.
  intros nm Hlog Hj Hno Hroom. pose proof (held_loaded d G L st dp p Hc He HL) as Hld. pose proof (disk_dir_ok d G Htree st dp p L Hc He Hld Hty) as Hdir.
  pose proof (to_range d G Htree j Hj) as Hjr. unfold NINODES in Hjr. pose proof Hld as (_ & _ & E3 & _). destruct (dir_size mkfs_sb dev_read dev_write st dp Hdir) as [Hsz _]. assert (HD : DIRENT_SIZE = 16) by done.
  pose proof (lookup_dir_none d G st dp p L Hc Hld nm Hno) as Hfree.
  destruct (dirlink_writes mkfs_sb mkfs_sb_ok dev_read dev_write st dp name j) as [(k & de & st' & E & Hk & Ewr & Hw & Hl & Hlg)|E]; [unfold room in Hlog; change (log_cap mkfs_sb) with 29; lia | done | lia | by rewrite E3 | done | left | by right].
  pose proof (linked_names st' nm k Hl Hfree dir_names) as Hone'. assert (Hin : DIRENT_SIZE * k + DIRENT_SIZE <= MAXFILE * BSIZE) by lia.
  destruct (dent_tree de st' nm j k Ewr Hw (li_set _ _ _ _ _ _ _ Hl) (fun _ => Hj) Hone' Hk Hin) as [T1 T2 T3 (T4 & T5 & T6) T7 T8 T9 T10].
  exists st'. split; [exact E|]. cbv zeta. split_and!; try done. split; [done | done | lia|]. intros name'. apply (dirlink_lookup st' nm k name' Hl T2 (T8 _ _ He) Hone'); [lia | done].
Qed.
End link.
