(* ===== verification/Create.v ===== *)
(** * Creating files, directories and devices (src/sysfile.c: create; src/fs.c: ialloc)

    [create] against the tree of the disk: a path whose parent exists and whose
    last name is free gets exactly one new inode and one new name, and
    everything else in the tree, in the inode cache and on the disk that belongs
    to other inodes is as before. *)

From S2P Require Import Prelude Layout StringLib Blocks Balloc Fs FsFile FsDir File Vm VmSpec VmUser Proc Syscall Sysfile Mkfs Boot Namei FsTree.

(** The cache over a disk on which the tree's inodes are as before. *)
Lemma cache_disk d d' (G G' : Z -> Prop) L st t : cache_ok d G L st -> td t = d' -> (forall i, G i -> slot d' i = slot d i) -> (forall i, G i -> G' i) -> cache_ok d' G' L (mk_fs t (fs_ic st)).
Proof.
  intros [C1 C2 C3 C4 C5] Ht Hs HG. split; [done | exact C2 | | exact C4 | exact C5].
  intros ip Hip Hr. destruct (C3 ip Hip Hr) as (H1 & H2 & H3). split_and!; [done | by apply HG|]. intros Hv. specialize (H3 Hv). change (inode_at (mk_fs t (fs_ic st)) ip) with (inode_at st ip). unfold loaded in *. by rewrite Hs.
Qed.

Lemma cache_perm d G L L' st : (forall q, q ∈ L <-> q ∈ L') -> cache_ok d G L st -> cache_ok d G L' st.
Proof.
  intros HL [C1 C2 C3 C4 C5]. split; [done | done | done | |].
  - intros ip Hip. rewrite C4 by done. by apply bool_decide_ext.
  - intros ip Hin. apply C5. by apply HL.
Qed.

(** ** ialloc *)

(** A free inode is found, or there is none. *)
Lemma ialloc_loop_finds type dev st k : room st 1 -> forall inum, 1 <= inum ->
  (exists j, inum <= j < NINODES /\ i_type (slot (td (fs_t st)) j) = 0 /\ ialloc_loop mkfs_sb k inum dev type st =
     iget dev j (mk_fs (tput (fs_t st) (IBLOCK j sb) (st16 (memset (td (fs_t st) (IBLOCK j sb)) (dip_off j) 0 DINODE_SIZE) (dip_off j) type)) (fs_ic st))) \/
  ialloc_loop mkfs_sb k inum dev type st = Panic "ialloc: no inodes".
Proof.
  intros Hroom. induction k as [|k IH]; intros inum H1; [by right|]. cbn [ialloc_loop]. change (sb_ninodes mkfs_sb) with NINODES. destruct (Z.ltb_spec inum NINODES) as [H2|H2]; [|by right].
  pose proof (iblock_range inum ltac:(lia)) as (Hr & _). change (IBLOCK inum mkfs_sb) with (IBLOCK inum sb). rewrite tread_ok by (unfold FSSIZE; lia). cbn [rbind].
  destruct (Z.eqb_spec (ld16 (td (fs_t st) (IBLOCK inum sb)) (dip_off inum)) 0) as [Hz|Hnz].
  - rewrite tlog_room by (by eapply room_log). cbn [rbind]. left. exists inum. split_and!; [lia | lia | | done]. unfold slot, dinode_get. cbn [i_type]. by rewrite Hz.
  - destruct (IH (inum + 1)) as [(j & Hj & Hty & E)|E]; [lia | left; exists j; split_and!; [lia | lia | done | done] | by right].
Qed.

(** The block of inode [j] after [ialloc] cleared the inode and set its type. *)
Definition blank (d : disk) (j type : Z) : mem := st16 (memset (d (IBLOCK j sb)) (dip_off j) 0 DINODE_SIZE) (dip_off j) type.

Lemma blank_out d j type x : x < dip_off j \/ dip_off j + DINODE_SIZE <= x -> blank d j type x = d (IBLOCK j sb) x.
Proof. intros Hx. unfold blank, DINODE_SIZE in *. rewrite st16_other, memset_spec by lia. apply mfill_out. lia. Qed.

Lemma blank_in d j type x : dip_off j + 2 <= x < dip_off j + DINODE_SIZE -> blank d j type x = 0.
Proof. intros Hx. unfold blank, DINODE_SIZE in *. rewrite st16_other, memset_spec by lia. by rewrite mfill_in by lia. Qed.

Lemma blank_slot d j type : - 2 ^ 15 <= type < 2 ^ 15 -> let x := slot (dset d (IBLOCK j sb) (blank d j type)) j in
  i_type x = type /\ i_nlink x = 0 /\ i_size x = 0 /\ i_addrs x = repeat 0 13.
Proof.
  intros Ht. cbv zeta. unfold slot, dinode_get. rewrite dset_eq. cbn [i_type i_nlink i_size i_addrs].
  assert (H16 : forall o, 2 <= o <= 62 -> ld16 (blank d j type) (dip_off j + o) = 0) by (intros o Ho; unfold ld16; by rewrite !blank_in by (unfold DINODE_SIZE; lia)).
  assert (H32 : forall o, 2 <= o <= 60 -> ld32 (blank d j type) (dip_off j + o) = 0) by (intros o Ho; unfold ld32; by rewrite !blank_in by (unfold DINODE_SIZE; lia)).
  split_and!.
  - unfold blank. rewrite ld16_st16_same. by apply s16_u16.
  - by rewrite H16 by lia.
  - by rewrite H32 by lia.
  - unfold get_addrs. change (Z.to_nat (NDIRECT + 1)) with 13%nat. change (repeat 0 13) with (map (fun _ : nat => 0) (seq 0 13)). apply map_ext_in. intros k Hk%in_seq. rewrite <- Z.add_assoc. apply H32. lia.
Qed.

(** [ialloc] and the first update of the inode, as [create] uses them. *)
Definition make_inode (dev type major minor : Z) (st : fs) : res (nat * fs) :=
  let* (ip, st) := Fs.ialloc mkfs_sb dev type st in
  let* st := ilock mkfs_sb ip st in
  let* st := iupdate mkfs_sb ip (set_inode st ip (set_nlink (set_devnums (inode_at st ip) major minor) 1)) in
  Ok (ip, st).

(** A file without blocks. *)
Lemma empty_file st ip : (ip < length (fs_ic st))%nat -> meta_used mkfs_sb (fs_t st) -> i_addrs (inode_at st ip) = repeat 0 13 -> i_size (inode_at st ip) = 0 ->
  file_ok mkfs_sb st ip /\ no_holes st ip /\ (forall b, ~ owns st ip b).
Proof.
  intros Hip Hm Ha Hs. assert (Hz : forall k, addr (inode_at st ip) k = 0) by (intros k; unfold addr; rewrite Ha; apply nth_repeat).
  assert (Hb : forall bn, fblock st ip bn = 0) by (intros bn; unfold fblock, ind; rewrite !Hz; by destruct (_ <? _)).
  assert (Ho : forall b, ~ owns st ip b) by (intros b [Hnz [E|(bn & _ & E)]]; [unfold ind in E; rewrite Hz in E | rewrite Hb in E]; congruence).
  split_and!; [|intros bn Hbn Hlt; rewrite Hs in Hlt; unfold BSIZE in Hlt; lia | done].
  split; [done | by rewrite Ha | done | intros b H; by destruct (Ho b) | intros b H; by destruct (Ho b) | intros x y _ _ _ H; by rewrite Hb in H | intros x _ H; by rewrite Hb in H].
Qed.

(** The run of [make_inode]: cache entry [q] becomes inode [j]. *)
Section make.
Context (d : disk) (G : Z -> Prop) (Htree : tree_ok d G) (L : list nat) (st : fs) (l : list Z).
Context (Hc : cache_ok d G L st) (Hin : forall j, refs st j <> 0 -> j ∈ l) (Hlt : (length l < length (fs_ic st))%nat).
Context (type major minor : Z) (Hty : 0 < type < 2 ^ 15) (Hlog : room st 2).

(** What [iget] does for an inode that is not in use. *)
Lemma iget_new t j : ~ G j -> exists q, (q < length (fs_ic st))%nat /\ i_ref (inode_at st q) = 0 /\ (q ∉ L) /\
  iget ROOTDEV j (mk_fs t (fs_ic st)) = Ok (q, set_inode (mk_fs t (fs_ic st)) q (mk_inode ROOTDEV j 1 false false (i_type (inode_at st q)) (i_major (inode_at st q)) (i_minor (inode_at st q))
    (i_nlink (inode_at st q)) (i_size (inode_at st q)) (i_addrs (inode_at st q)))).
Proof using Hc Hin Hlt.
  intros Hj. unfold iget. cbn [fs_ic]. pose proof (iget_scan_spec (fs_ic st) 0 ROOTDEV j None) as Hs. destruct (iget_scan (fs_ic st) 0 ROOTDEV j None) as [[q|] e].
  - destruct Hs as [Hb Hl]. rewrite Nat.sub_0_r in Hl. fold (inode_at st q) in Hl. unfold live_for in Hl. apply andb_prop in Hl as [[Hr%Z.ltb_lt _]%andb_prop Hn%Z.eqb_eq].
    destruct (co_live _ _ _ _ Hc q ltac:(lia) Hr) as (_ & HG & _). by rewrite Hn in HG.
  - destruct Hs as [_ He]. destruct e as [q|].
    2:{ destruct (cache_room d G L st l Hc Hin Hlt) as (k & Hk & Hz). destruct He as [_ He]. by destruct (He k Hk). }
    destruct He as [|[Hb Hz]]; [done|]. rewrite Nat.sub_0_r in Hz. fold (inode_at st q) in Hz. assert (Hq : (q < length (fs_ic st))%nat) by lia.
    assert (HqL : q ∉ L) by (intros H; destruct (co_held _ _ _ _ Hc q H) as (_ & ? & _); lia). exists q. split_and!; try done.
    change (inode_at (mk_fs t (fs_ic st)) q) with (inode_at st q). rewrite (co_lock _ _ _ _ Hc q Hq), bool_decide_eq_false_2 by done. done.
Qed.

Lemma make_runs : (exists j q y, 1 <= j < NINODES /\ ~ G j /\ (q < length (fs_ic st))%nat /\ i_ref (inode_at st q) = 0 /\ (q ∉ L) /\
    i_dev y = ROOTDEV /\ i_inum y = j /\ i_ref y = 1 /\ i_locked y = true /\ i_valid y = true /\ i_type y = type /\ i_nlink y = 1 /\ i_size y = 0 /\ i_addrs y = repeat 0 13 /\
    exists t, make_inode ROOTDEV type major minor st = Ok (q, mk_fs t (<[q := y]> (fs_ic st))) /\
      td t = dset (dset d (IBLOCK j sb) (blank d j type)) (IBLOCK j sb) (dinode_put (blank d j type) (dip_off j) y) /\ logged t <= logged (fs_t st) + 2) \/
  make_inode ROOTDEV type major minor st = Panic "ialloc: no inodes".
Proof using Htree Hc Hin Hlt Hty Hlog.
  unfold make_inode, Fs.ialloc. destruct (ialloc_loop_finds type ROOTDEV st (Z.to_nat (sb_ninodes mkfs_sb)) ltac:(unfold room in *; lia) 1 ltac:(lia)) as [(j & Hj & Hfree & E)|E]; rewrite E; [left | by right].
  pose proof (co_t _ _ _ _ Hc) as Hd. rewrite Hd in *. fold (blank d j type). assert (Hnew : ~ G j) by (intros HG; by apply (to_type d G Htree j HG)).
  destruct (iget_new (tput (fs_t st) (IBLOCK j sb) (blank d j type)) j Hnew) as (q & Hq & Hz & HqL & ->). cbn [rbind].
  set (st2 := set_inode _ q _). set (d1 := dset d (IBLOCK j sb) (blank d j type)). destruct (blank_slot d j type ltac:(lia)) as (B1 & B2 & B3 & B4). fold d1 in B1, B2, B3, B4.
  destruct (ilock_loads d1 j st2 q) as (x & -> & (X1 & X2 & X3 & X4) & X5 & X6 & X7 & X8 & X9); try (unfold st2; rewrite inode_at_set by done; done); [unfold st2, d1; cbn; by rewrite Hd | lia | rewrite B1; lia |].
  unfold st2 in X5, X7. rewrite inode_at_set in X5, X7 by done. cbn [rbind]. assert (Hq2 : (q < length (fs_ic st2))%nat) by (unfold st2; by rewrite set_length). rewrite !inode_at_set by (rewrite ?set_length; done).
  set (y := set_nlink (set_devnums x major minor) 1). assert (Ey : inode_at (set_inode (set_inode st2 q x) q y) q = y) by (apply inode_at_set; by rewrite set_length).
  pose proof (logged_put (fs_t st) (IBLOCK j sb) (blank d j type)) as Hl1. rewrite iupdate_puts; [|unfold room, st2 in *; cbn [fs_t set_inode]; lia | rewrite Ey; change (i_inum y) with (i_inum x); lia]. rewrite Ey. change (i_inum y) with (i_inum x). rewrite X6. cbn [rbind].
  assert (Ed : td (fs_t (set_inode (set_inode st2 q x) q y)) = d1) by (unfold st2, d1; cbn; by rewrite Hd). rewrite Ed. unfold st2, set_inode. cbn [fs_ic fs_t]. rewrite !list_insert_insert_eq.
  assert (Eb : d1 (IBLOCK j sb) = blank d j type) by apply dset_eq. rewrite Eb.
  exists j, q, y. cbn [i_dev i_ref] in X5, X7. split_and!; try done; try lia; [exact (eq_trans X1 B1) | exact (eq_trans X3 B3) | exact (eq_trans X4 B4) |]. eexists. split; [reflexivity|]. split; [cbn [tput td]; unfold d1; by rewrite Hd|].
  etransitivity; [apply logged_put | lia].
Qed.

(** The tree and the cache with the new inode, which no directory names yet. *)
Record made (st' : fs) (q : nat) (j : Z) : Prop := {
  md_new : ~ G j;
  md_tree : tree_ok (td (fs_t st')) (fun i => i = j \/ G i);
  md_cache : cache_ok (td (fs_t st')) (fun i => i = j \/ G i) (q :: L) st';
  md_entry : entry st' q j;
  md_fresh : q ∉ L;
  md_other i : G i -> untouched d (td (fs_t st')) i;
  md_inode : let x := slot (td (fs_t st')) j in i_type x = type /\ i_nlink x = 1 /\ i_size x = 0;
  md_refs k : refs st' k = refs st k + one j k;
  md_keep n m : entry st n m -> entry st' n m /\ n <> q;
  md_len : length (fs_ic st') = length (fs_ic st);
  md_log : logged (fs_t st') <= logged (fs_t st) + 2
}.

Lemma make_ok : (exists q j st', make_inode ROOTDEV type major minor st = Ok (q, st') /\ made st' q j) \/ make_inode ROOTDEV type major minor st = Panic "ialloc: no inodes".
Proof using Htree Hc Hin Hlt Hty Hlog.
  destruct make_runs as [(j & q & y & Hj & Hnew & Hq & Hz & HqL & Y1 & Y2 & Y3 & Y4 & Y5 & Y6 & Y7 & Y8 & Y9 & t & E & Et & Hlg)|E]; [left | by right]. exists q, j, (mk_fs t (<[q := y]> (fs_ic st))). split; [exact E|].
  set (d' := td t) in *. set (st' := mk_fs t (<[q := y]> (fs_ic st))). assert (Ey : inode_at st' q = y) by (apply (inode_at_set (mk_fs t (fs_ic st))); done).
  assert (Hl13 : length (i_addrs y) = 13%nat) by (by rewrite Y9).
  destruct (put_untouched d G d' j Htree ltac:(lia)) as [Hu Hused].
  { intros b Hb. rewrite Et. by rewrite !dset_ne. }
  { intros x Hx. rewrite Et, dset_eq, dinode_put_out by done. by apply blank_out. }
  assert (Hu' : forall i, G i -> untouched d d' i) by (intros i Hi; apply Hu; [done | intros ->; done]).
  assert (Hld : loaded d' j y).
  { rewrite Et. pose proof (put_loaded (dset d (IBLOCK j sb) (blank d j type)) j y) as Hp. rewrite dset_eq in Hp. apply Hp; [lia | lia | lia | done | rewrite Y9; by repeat constructor]. }
  assert (Hm : meta_used mkfs_sb (mk_td d' ∅)).
  { destruct (to_file d G Htree ROOTINO (to_root d G Htree)) as [Hf _]. intros b Hb. pose proof (data_start_eq mkfs_sb mkfs_sb_ok) as Hds. change (sb_bmapstart mkfs_sb) with 58 in Hds. rewrite Hused by (change (sb_size mkfs_sb) with 1000; lia). by apply (fo_meta _ _ _ Hf). }
  destruct (empty_file st' q) as (Ff & Fh & Fo); [unfold st'; cbn; by rewrite length_insert | exact Hm | by rewrite Ey | by rewrite Ey |].
  assert (HG : forall i, (i = j \/ G i) -> (i = j \/ G i)) by done. pose proof Hld as (S1 & S2 & S3 & _).
  assert (Hc0 : cache_ok d' (fun i => i = j \/ G i) L (mk_fs t (fs_ic st))) by (eapply cache_disk; [exact Hc | done | intros i Hi; apply (ut_slot _ _ _ (Hu' i Hi)) | by right]).
  split; try done.
  - apply (tree_change d d' G _ j Htree); [done | intros i Hi _; by apply Hu' | exact Hm | |].
    + apply (seen_inode_ok st' q j); rewrite ?Ey; try done; try lia.
      * apply Ff.
      * rewrite Y8. change (MAXFILE * BSIZE) with 71680. lia.
      * intros _. by rewrite Y8.
      * intros k _. unfold dir_count. rewrite Ey, Y8. change (0 / DIRENT_SIZE) with 0. lia.
      * intros _ k k'. unfold dir_count. rewrite Ey, Y8. change (0 / DIRENT_SIZE) with 0. lia.
    + intros i b Hi _ _. rewrite <- Ey in Hld. rewrite <- (loaded_owns d' j st' q eq_refl Hld). apply Fo.
  - apply (cache_set d' (fun i => i = j \/ G i) L (q :: L) (mk_fs t (fs_ic st)) q y Hc0 Hq).
    + apply icache_set; [exact (co_ic _ _ _ _ Hc) | done | lia |]. intros dev inum Hl k Hk Hlk. unfold live_for in Hl, Hlk. apply andb_prop in Hl as [_ Hn%Z.eqb_eq]. apply andb_prop in Hlk as [[Hr%Z.ltb_lt _]%andb_prop Hn'%Z.eqb_eq].
      destruct (co_live _ _ _ _ Hc k Hk Hr) as (_ & HGk & _). change (inode_at (mk_fs t (fs_ic st)) k) with (inode_at st k) in Hn'. rewrite Hn', <- Hn, Y2 in HGk. done.
    + intros _. rewrite Y2. split_and!; [done | by left | done].
    + rewrite Y4, bool_decide_eq_true_2; [done | left].
    + intros k Hk. rewrite elem_of_cons. tauto.
    + intros _. split; [lia | done].
  - unfold entry. rewrite Ey. split_and!; [unfold st'; cbn; by rewrite length_insert | lia | done].
  - cbv zeta. change (td (fs_t st')) with d'. by rewrite <- S1, <- S2, <- S3.
  - intros k. pose proof (irefs_set (mk_fs t (fs_ic st)) q y k Hq) as Er. change (refs (set_inode (mk_fs t (fs_ic st)) q y) k) with (refs st' k) in Er. rewrite Er. change (refs (mk_fs t (fs_ic st)) k) with (refs st k). change (inode_at (mk_fs t (fs_ic st)) q) with (inode_at st q). unfold weight, one. rewrite Hz, Y2, Y3. destruct (_ =? k); lia.
  - intros n m (Hn & Hr & Hm'). assert (n <> q) by (intros ->; lia). split; [|done]. change (entry (set_inode (mk_fs t (fs_ic st)) q y) n m). unfold entry. rewrite set_length, inode_at_set_ne by done. done.
  - unfold st'. cbn. apply length_insert.
Qed.
End make.

(** ** The link count of the parent *)

(** Disk [d'] is [d] but for the link count of inode [p]. *)
Record relinked (d d' : disk) (G : Z -> Prop) (p delta : Z) : Prop := {
  rl_other i : G i -> i <> p -> untouched d d' i;
  rl_type : i_type (slot d' p) = i_type (slot d p) /\ i_nlink (slot d' p) = i_nlink (slot d p) + delta /\ i_size (slot d' p) = i_size (slot d p);
  rl_lookup name : lookup_dir d' p name = lookup_dir d p name;
  rl_content off : 0 <= off < MAXFILE * BSIZE -> content (dfile d' p) 0 off = content (dfile d p) 0 off
}.

Section bump.
Context (d : disk) (G : Z -> Prop) (Htree : tree_ok d G) (L : list nat) (st : fs) (dp : nat) (p delta : Z).
Context (Hc : cache_ok d G L st) (He : entry st dp p) (HL : dp ∈ L) (Hlinks : 0 < i_nlink (slot d p) + delta < 2 ^ 15) (Hlog : room st 1).

Lemma bump_tree : exists st', iupdate mkfs_sb dp (add_nlink dp delta st) = Ok st' /\ let d' := td (fs_t st') in
  tree_ok d' G /\ cache_ok d' G L st' /\ relinked d d' G p delta /\ (forall i, refs st' i = refs st i) /\ (forall q n, entry st q n -> entry st' q n) /\ length (fs_ic st') = length (fs_ic st) /\
  logged (fs_t st') <= logged (fs_t st) + 1.
Proof using Htree Hc He HL Hlinks Hlog.
  pose proof (held_loaded d G L st dp p Hc He HL) as Hld. pose proof (dir_member d G st dp p L Hc He) as Hp. pose proof (co_t _ _ _ _ Hc) as Hd. pose proof Hld as (E1 & E2 & E3 & E4). pose proof He as (Hdp & Hr & Hn).
  destruct (tree_inode d G p Htree Hp) as [I1 I2 I3 I4 I5 I6 I7 I8 I9]. pose proof (loaded_file_ok d p st dp Hd Hdp Hld I4) as Hf.
  unfold add_nlink. set (x := set_nlink (inode_at st dp) _). assert (Ex : inode_at (set_inode st dp x) dp = x) by by apply inode_at_set. assert (Exn : i_inum x = p) by done.
  assert (Hnl : i_nlink x = i_nlink (slot d p) + delta) by (change (i_nlink x) with (s16 (i_nlink (inode_at st dp) + delta)); rewrite E2; apply s16_small; lia).
  rewrite iupdate_puts; [|exact Hlog | rewrite Ex, Exn; lia]. rewrite Ex, Exn. set (st' := mk_fs _ _). exists st'. split; [done|]. cbv zeta. set (d' := td (fs_t st')).
  assert (Ed : d' = dset d (IBLOCK p sb) (dinode_put (d (IBLOCK p sb)) (dip_off p) x)) by (unfold d', st'; cbn; by rewrite Hd).
  assert (Ex' : inode_at st' dp = x) by exact Ex.
  destruct (put_untouched d G d' p Htree ltac:(lia)) as [Hu Hused].
  { intros b Hb. rewrite Ed. by rewrite dset_ne. }
  { intros o Ho. rewrite Ed, dset_eq. apply dinode_put_out; [apply Hf | done]. }
  destruct (slot_type d p) as [R1 R2].
  assert (Hld' : loaded d' p (inode_at st' dp)).
  { rewrite Ex', Ed. apply put_loaded; [change (i_type x) with (i_type (inode_at st dp)); by rewrite E1 | lia | change (i_size x) with (i_size (inode_at st dp)); rewrite E3; change (MAXFILE * BSIZE) with 71680 in I6; lia | apply Hf | by apply (file_addrs st dp)]. }
  assert (Hsf : same_file mkfs_sb st st' dp).
  { split; [by rewrite Ex' | | | unfold st'; cbn; apply length_insert].
    - intros b Ho. change (d' b = td (fs_t st) b). rewrite Ed, Hd. apply dset_ne. apply (IBLOCK_not_owned mkfs_sb mkfs_sb_ok st dp p b Hf); [change (sb_ninodes mkfs_sb) with NINODES; lia | done].
    - intros b Hb. specialize (Hused b Hb). unfold used in *. by rewrite Hd. }
  pose proof (same_file_ok mkfs_sb mkfs_sb_ok st st' dp Hf Hsf) as Hf'. pose proof Hld' as (F1 & F2 & F3 & F4). rewrite Ex' in F1, F2, F3.
  assert (Hsz : i_size (inode_at st' dp) = i_size (inode_at st dp)) by by rewrite Ex'.
  assert (Hent : forall k o, 0 <= k < dir_count st dp -> 0 <= o < 16 -> dent st' dp k o = dent st dp k o).
  { intros k o Hk Ho. unfold dent. apply (same_content mkfs_sb); [done|]. unfold dir_count in Hk. rewrite E3 in Hk. change (MAXFILE * BSIZE) with 71680 in *. unfold DIRENT_SIZE in *. zdiv. }
  assert (Hcnt : dir_count st' dp = dir_count st dp) by (unfold dir_count; by rewrite Hsz).
  assert (Hei : forall k, 0 <= k < dir_count st dp -> dent_inum st' dp k = dent_inum st dp k /\ dent_name st' dp k = dent_name st dp k).
  { intros k Hk. split; [unfold dent_inum; apply ld16_ext | unfold dent_name; apply cstrn_ext; change (Z.of_nat (Z.to_nat DIRSIZ)) with 14]; intros o Ho; apply Hent; lia. }
  destruct (cache_change d G L st st' dp p G Hc He) as (Hc' & Hr' & He'); [unfold st'; cbn; apply length_insert | intros q Hq; by apply (inode_at_set_ne st dp x) | rewrite Ex'; done | exact Hld' | intros i Hi Hne; apply (ut_slot _ _ _ (Hu i Hi Hne)) | done |].
  split_and!; try done; [| |unfold st'; cbn; apply length_insert | etransitivity; [apply logged_put | done]].
  - apply (tree_change d d' G G p Htree).
    + intros i. split; [tauto | intros [->|?]; done].
    + done.
    + exact (fo_meta _ _ _ Hf').
    + apply (seen_inode_ok st' dp p); rewrite ?Ex'; try done; try lia.
      * apply Hf'.
      * by rewrite Ex' in Hld'.
      * change (i_type x) with (i_type (inode_at st dp)). by rewrite E1.
      * intros bn Hb Hlt. rewrite Hsz in Hlt. rewrite (same_fblock mkfs_sb _ _ _ Hsf); [by apply (loaded_no_holes d p st dp Hd Hld I5)|]. rewrite E3 in Hlt. change (MAXFILE * BSIZE) with 71680 in I6. change MAXFILE with 140. unfold BSIZE in Hlt. lia.
      * change (i_size x) with (i_size (inode_at st dp)). by rewrite E3.
      * change (i_type x) with (i_type (inode_at st dp)). change (i_size x) with (i_size (inode_at st dp)). by rewrite E1, E3.
      * intros k Hty Hk. rewrite Hcnt in Hk. destruct (Hei k Hk) as [-> _]. rewrite (disk_inum d G st dp p L Hc Hld). rewrite (disk_count d st dp p Hld) in Hk. apply I8; [|done]. rewrite <- E1. exact Hty.
      * intros Hty k k'. rewrite Hcnt. intros Hk Hk'. destruct (Hei k Hk) as [-> ->], (Hei k' Hk') as [-> ->]. apply (disk_names d G st dp p L Hc Hld); [apply I9; rewrite <- E1; exact Hty | done..].
    + intros i b Hi Hne Ho. rewrite <- (loaded_owns d' p st' dp eq_refl Hld'). rewrite (same_owns mkfs_sb _ _ _ Hsf). rewrite (loaded_owns d p st dp Hd Hld). by apply (to_apart d G Htree i p b).
  - split; [done | rewrite <- F1, <- F2, <- F3, Hnl; split_and!; [exact E1 | done | exact E3] | |
      intros off Hoff; rewrite <- (loaded_content d' p st' dp eq_refl Hld'), <- (loaded_content d p st dp Hd Hld); by apply (same_content mkfs_sb)].
    intros name. apply lookup_dir_ext.
    + rewrite <- (disk_count d' st' dp p Hld'), <- (disk_count d st dp p Hld). exact Hcnt.
    + intros k Hk. rewrite <- (disk_count d st dp p Hld) in Hk. rewrite <- (disk_inum d' G st' dp p L Hc' Hld'), <- (disk_inum d G st dp p L Hc Hld), <- (disk_name d' G st' dp p L Hc' Hld'), <- (disk_name d G st dp p L Hc Hld). by apply Hei.
Qed.
End bump.

(** ** Linking the new inode *)

Lemma untouched_trans d1 d2 d3 i : untouched d1 d2 i -> untouched d2 d3 i -> untouched d1 d3 i.
Proof.
  intros H1 H2. split.
  - rewrite (ut_slot _ _ _ H2). apply (ut_slot _ _ _ H1).
  - intros b Ho. rewrite (ut_block _ _ _ H2) by (by apply (ut_owns d1 d2 i H1)). by apply (ut_block _ _ _ H1).
  - intros b Ho. apply (ut_used _ _ _ H2). by apply (ut_owns d1 d2 i H1).
Qed.

(** An empty directory has no names. *)
Lemma empty_lookup d i name : i_size (slot d i) = 0 -> lookup_dir d i name = None.
Proof. intros Hs. unfold lookup_dir, dir_count. cbn [inode_at view fs_ic nth]. by rewrite Hs. Qed.

(** The names in a new inode. *)
Definition new_names (type p j : Z) (name : list Z) : option Z :=
  if type =? T_DIR then if bool_decide (name = DOT) then Some j else if bool_decide (name = DOTDOT) then Some p else None else None.

(** The tree with inode [j] made but not yet linked, both inodes locked. *)
Record ready (d : disk) (G : Z -> Prop) (st : fs) (dp : nat) (p : Z) (q : nat) (j type : Z) (st' : fs) : Prop := {
  rd_tree : tree_ok (td (fs_t st')) (fun i => i = j \/ G i);
  rd_cache : cache_ok (td (fs_t st')) (fun i => i = j \/ G i) [q; dp] st';
  rd_entries : entry st' q j /\ entry st' dp p;
  rd_other i : G i -> i <> p -> untouched d (td (fs_t st')) i;
  rd_parent : let x := slot (td (fs_t st')) p in i_type x = T_DIR /\ i_nlink x = i_nlink (slot d p) + (if type =? T_DIR then 1 else 0) /\ i_size x = i_size (slot d p);
  rd_lookup name : lookup_dir (td (fs_t st')) p name = lookup_dir d p name;
  rd_inode : let x := slot (td (fs_t st')) j in i_type x = type /\ i_nlink x = 1 /\ (type <> T_DIR -> i_size x = 0);
  rd_names name : lookup_dir (td (fs_t st')) j name = new_names type p j name;
  rd_refs k : refs st' k = refs st k + one j k;
  rd_len : length (fs_ic st') = length (fs_ic st);
  rd_log : logged (fs_t st') <= logged (fs_t st) + 11
}.

Section new.
Context (d : disk) (G : Z -> Prop) (Htree : tree_ok d G).
Context (dev_read : Z -> option (nat -> mem -> Z -> Z -> fs -> res (Z * mem * fs))) (dev_write : Z -> option (nat -> mem -> Z -> Z -> fs -> res (Z * fs))).
Context (st : fs) (dp : nat) (p : Z) (l : list Z) (type major minor : Z).
Context (Hc : cache_ok d G [dp] st) (He : entry st dp p) (Hdir : i_type (slot d p) = T_DIR) (Hlog : room st 15).

Lemma ready_file st' q j : type <> T_DIR -> made d G [dp] st type st' q j -> ready d G st dp p q j type st'.
Proof using Htree Hc He Hdir.
  intros Hne [M1 M2 M3 M4 M5 M6 M7 M8 M9 M10 M11]. pose proof (dir_member d G st dp p [dp] Hc He) as Hp. pose proof (to_size d G Htree p Hp) as Hs. pose proof (M6 p Hp) as Hu.
  destruct M7 as (T1 & T2 & T3). split; try done; [..|lia].
  - split; [done | by apply M9].
  - intros i Hi _. by apply M6.
  - cbv zeta. rewrite (ut_slot _ _ _ Hu), (proj2 (Z.eqb_neq type T_DIR) Hne). split_and!; [done | lia | done].
  - intros name. apply (ut_lookup d _ p Hu). lia.
  - intros name. unfold new_names. rewrite (proj2 (Z.eqb_neq type T_DIR) Hne). by apply empty_lookup.
Qed.

Definition dir_part (q : nat) (st1 : fs) : res fs :=
  let* st := iupdate mkfs_sb dp (add_nlink dp 1 st1) in
  let* (r, st) := dirlink mkfs_sb dev_read dev_write q (mwrite (fun _ => 0) 0 DOT) (inum_at st q) st in
  if r <? 0 then Panic "create dots"
  else
    let* (r, st) := dirlink mkfs_sb dev_read dev_write q (mwrite (fun _ => 0) 0 DOTDOT) (inum_at st dp) st in
    if r <? 0 then Panic "create dots" else Ok st.

Lemma dots : cstrn (mwrite (fun _ => 0) 0 DOT) 0 (Z.to_nat DIRSIZ) = DOT /\ cstrn (mwrite (fun _ => 0) 0 DOTDOT) 0 (Z.to_nat DIRSIZ) = DOTDOT.
Proof using. split; vm_compute; reflexivity. Qed.

Lemma ready_dir st1 q j : type = T_DIR -> i_nlink (slot d p) < 2 ^ 15 - 1 -> made d G [dp] st type st1 q j ->
  (exists st', dir_part q st1 = Ok st' /\ ready d G st dp p q j type st') \/ dir_part q st1 = Panic "balloc: out of blocks".
Proof using Htree Hc He Hdir Hlog.
  intros Hty Hlinks [M1 M2 M3 M4 M5 M6 M7 M8 M9 M10 M11]. pose proof (dir_member d G st dp p [dp] Hc He) as Hp. pose proof (to_size d G Htree p Hp) as Hs. pose proof (M6 p Hp) as Hu. destruct M7 as (T1 & T2 & T3).
  assert (Hpj : p <> j) by (intros ->; done). destruct (M9 dp p He) as [Hed Hdq]. assert (HM : MAXFILE * BSIZE = 71680) by done. assert (HD : DIRENT_SIZE = 16) by done. destruct dots as [D1 D2].
  assert (Hin : dp ∈ [q; dp]) by (right; left). assert (Hiq : q ∈ [q; dp]) by left. set (G1 := fun i => i = j \/ G i) in *. assert (Hj1 : G1 j) by by left. assert (Hp1 : G1 p) by by right.
  unfold dir_part. destruct (bump_tree _ G1 M2 [q; dp] st1 dp p 1 M3 Hed Hin) as (st2 & -> & B1 & B2 & [B3 (B4 & B5 & B6) B7 _] & B8 & B9 & B10 & B11); [rewrite (ut_slot _ _ _ Hu); pose proof (to_link d G Htree p Hp); lia | unfold room in *; lia|]. cbn [rbind].
  pose proof (B3 j Hj1 ltac:(done)) as Uj. assert (Sj : i_size (slot (td (fs_t st2)) j) = 0) by by rewrite (ut_slot _ _ _ Uj).
  pose proof (B9 q j M4) as Eq2. pose proof (B9 dp p Hed) as Ed2. assert (Nq : inum_at st2 q = j) by apply Eq2. rewrite Nq.
  destruct (dirlink_tree _ G1 B1 dev_read dev_write [q; dp] st2 q j j B2 Eq2 Hiq) with (name := mwrite (fun _ => 0) 0 DOT) as [(st3 & -> & C1 & C2 & [C3 C4 C5 C6] & C7 & C8 & C9 & C10 & C11)|E]; [by rewrite (ut_slot _ _ _ Uj), T1 | unfold room in *; lia | done | by apply empty_lookup | lia | | by rewrite E; right].
  cbn [rbind]. change (0 <? 0) with false. cbv iota. rewrite D1 in C6. pose proof (C8 q j Eq2) as Eq3. pose proof (C8 dp p Ed2) as Ed3. assert (Np : inum_at st3 dp = p) by apply Ed3. rewrite Np.
  assert (L3 : lookup_dir (td (fs_t st3)) j DOTDOT = None) by (rewrite C6; rewrite bool_decide_eq_false_2 by discriminate; by apply empty_lookup).
  destruct (dirlink_tree _ G1 C1 dev_read dev_write [q; dp] st3 q j p C2 Eq3 Hiq) with (name := mwrite (fun _ => 0) 0 DOTDOT) as [(st4 & -> & F1 & F2 & [F3 F4 F5 F6] & F7 & F8 & F9 & F10 & F11)|E]; [rewrite (proj1 C4), (ut_slot _ _ _ Uj), T1; done | unfold room in *; lia | done | by rewrite D2 | lia | | by rewrite E; right].
  left. exists st4. split; [done|]. rewrite D2 in F6. destruct C4 as [C4 C4']. destruct F4 as [F4 F4'].
  assert (Ui : forall i, G i -> i <> p -> untouched d (td (fs_t st4)) i).
  { intros i Hi Hne. assert (Hij : i <> j) by (intros ->; done). assert (Hi1 : G1 i) by by right. eapply untouched_trans; [by apply M6|]. eapply untouched_trans; [by apply B3|]. eapply untouched_trans; [by apply C3 | by apply F3]. }
  assert (Up : untouched (td (fs_t st2)) (td (fs_t st4)) p) by (eapply untouched_trans; [by apply C3 | by apply F3]).
  assert (Sp : i_size (slot (td (fs_t st2)) p) <= MAXFILE * BSIZE) by (rewrite B6, (ut_slot _ _ _ Hu); lia).
  split; try done.
  - split; by apply F8.
  - cbv zeta. rewrite (ut_slot _ _ _ Up), B4, B5, B6, (ut_slot _ _ _ Hu), Hty. done.
  - intros name. rewrite (ut_lookup _ _ p Up Sp), B7. apply (ut_lookup d _ p Hu). lia.
  - cbv zeta. rewrite F4, C4, F4', C4', (ut_slot _ _ _ Uj). done.
  - intros name. rewrite F6, C6. unfold new_names. rewrite Hty. change (T_DIR =? T_DIR) with true. cbv iota. rewrite (empty_lookup _ j) by done.
    destruct (decide (name = DOT)) as [->|]; [by rewrite (bool_decide_eq_false_2 (DOT = DOTDOT)) by discriminate|]. rewrite (bool_decide_eq_false_2 (name = DOT)) by done. done.
  - intros k. rewrite F7, C7, B8. apply M8.
  - congruence.
  - lia.
Qed.

(** [create_new] from these pieces. *)
Lemma create_new_parts name : create_new mkfs_sb dev_read dev_write dp name type major minor st =
  let* (q, st) := make_inode (i_dev (inode_at st dp)) type major minor st in
  let* st := if type =? T_DIR then dir_part q st else Ok st in
  let* (r, st) := dirlink mkfs_sb dev_read dev_write dp name (inum_at st q) st in
  if r <? 0 then Panic "create: dirlink" else let* st := iunlockput mkfs_sb dp st in Ok (Some q, st).
Proof using.
  unfold create_new, make_inode. destruct (Fs.ialloc _ _ _ _) as [[q st1]| |]; [|done..]. cbn [rbind]. destruct (ilock _ _ _) as [st2| |]; [|done..]. cbn [rbind]. destruct (iupdate _ _ _) as [st3| |]; done.
Qed.

(** The tree [d'] is [d] with one more inode [j] of the given type, named [nm] in directory [p]. *)
Record grown (d' : disk) (nm : list Z) (j : Z) : Prop := {
  gw_new : ~ G j;
  gw_tree : tree_ok d' (fun i => i = j \/ G i);
  gw_other i : G i -> i <> p -> untouched d d' i;
  gw_parent : let x := slot d' p in i_type x = T_DIR /\ i_nlink x = i_nlink (slot d p) + (if type =? T_DIR then 1 else 0);
  gw_lookup name : lookup_dir d' p name = if bool_decide (name = nm) then Some j else lookup_dir d p name;
  gw_inode : let x := slot d' j in i_type x = type /\ i_nlink x = 1 /\ (type <> T_DIR -> i_size x = 0);
  gw_names name : lookup_dir d' j name = new_names type p j name
}.

Context (Hin : forall j, refs st j <> 0 -> j ∈ l) (Hlt : (length l < length (fs_ic st))%nat) (Hty : 0 < type < 2 ^ 15).
Context (Hlinks : type = T_DIR -> i_nlink (slot d p) < 2 ^ 15 - 1).

Lemma create_new_ok name : let nm := cstrn name 0 (Z.to_nat DIRSIZ) in let r := create_new mkfs_sb dev_read dev_write dp name type major minor st in
  lookup_dir d p nm = None -> i_size (slot d p) + DIRENT_SIZE <= MAXFILE * BSIZE ->
  (exists q j st', r = Ok (Some q, st') /\ grown (td (fs_t st')) nm j /\ cache_ok (td (fs_t st')) (fun i => i = j \/ G i) [q] st' /\ entry st' q j /\
     (forall k, refs st' k = refs st k + one j k - one p k) /\ length (fs_ic st') = length (fs_ic st)) \/
  r = Panic "ialloc: no inodes" \/ r = Panic "balloc: out of blocks".
Proof using Htree Hc He Hdir Hlog Hin Hlt Hty Hlinks.
  intros nm r Hno Hroom. unfold r. rewrite create_new_parts. destruct He as (Hdp & Hr & Hn). destruct (co_live _ _ _ _ Hc dp Hdp Hr) as (-> & _).
  destruct (make_ok d G Htree [dp] st l Hc Hin Hlt type major minor Hty ltac:(unfold room in *; lia)) as [(q & j & st1 & E & Hmade)|E]; rewrite E; [|by right; left]. cbn [rbind].
  assert (Hrd : (exists st2, (if type =? T_DIR then dir_part q st1 else Ok st1) = Ok st2 /\ ready d G st dp p q j type st2) \/ (if type =? T_DIR then dir_part q st1 else Ok st1) = Panic "balloc: out of blocks").
  { destruct (Z.eqb_spec type T_DIR) as [Et|Et]; [by apply ready_dir; auto | left; exists st1; split; [done | by apply ready_file]]. }
  destruct Hrd as [(st2 & -> & [R1 R2 [R3 R3'] R4 (R5 & R6 & R7) R8 R9 R10 R11 R12 R13])|E2]; [|rewrite E2; by right; right]. cbn [rbind].
  assert (Nq : inum_at st2 q = j) by apply R3. rewrite Nq. pose proof (md_new _ _ _ _ _ _ _ _ Hmade) as Hnew. pose proof (dir_member d G st dp p [dp] Hc He) as Hp. assert (Hpj : p <> j) by (intros ->; done).
  assert (Hdq : dp <> q) by (by destruct (md_keep _ _ _ _ _ _ _ _ Hmade dp p He)). set (G1 := fun i => i = j \/ G i) in *. assert (Hj1 : G1 j) by by left.
  destruct (dirlink_tree _ G1 R1 dev_read dev_write [q; dp] st2 dp p j R2 R3' ltac:(right; left) R5 name ltac:(unfold room in *; lia) Hj1) as [(st3 & -> & C1 & C2 & [C3 [C4 C4'] C5 C6] & C7 & C8 & C9 & C10 & C11)|E3]; [by rewrite R8 | by rewrite R7 | | rewrite E3; by right; right].
  cbn [rbind]. change (0 <? 0) with false. cbv iota. left.
  assert (Hc3 : cache_ok (td (fs_t st3)) G1 [dp; q] st3) by (eapply cache_perm; [|exact C2]; set_solver).
  destruct (iunlockput_cache _ G1 C1 [q] st3 dp p Hc3) as (st4 & -> & H1 & H2 & [H3 H3'] & H4); [set_solver | by apply C8|]. cbn [rbind].
  exists q, j, st4. rewrite H3. split_and!; try done.
  - pose proof (C3 j Hj1 ltac:(done)) as Uj. split; try done.
    + intros i Hi Hne. eapply untouched_trans; [by apply R4 | apply C3; [by right | done]].
    + cbv zeta. rewrite C4, C4'. by split.
    + intros name'. rewrite C6, R8. done.
    + cbv zeta. by rewrite (ut_slot _ _ _ Uj).
    + intros name'. rewrite (ut_lookup _ _ j Uj); [apply R10|]. pose proof (to_size _ _ R1 j Hj1). lia.
  - apply H4; [by left | by apply C8].
  - intros k. rewrite H2, C7, R11. done.
  - congruence.
Qed.
End new.

(** ** Paths in the new tree *)

Lemma resolve_app d i a b : resolve d i (a ++ b) = resolve d i a ≫= fun j => resolve d j b.
Proof. revert i. induction a as [|e a IH]; intros i; [done|]. cbn [app resolve]. destruct (_ =? _); [|done]. destruct (lookup_dir _ _ _); [apply IH | done]. Qed.

Lemma lookup_member d G i name j : tree_ok d G -> G i -> i_type (slot d i) = T_DIR -> lookup_dir d i name = Some j -> G j.
Proof.
  intros Ht Hi Hty. unfold lookup_dir. destruct (list_find _ _) as [[n k]|] eqn:E; [|done]. intros [= <-]. apply list_find_Some in E as (Hk & Hm & _). apply lookup_seqZ in Hk as [-> Hn].
  cbn [snd]. apply (to_entry d G Ht); [done | done | lia |]. intros Hz. unfold dent_matches in Hm. by rewrite Hz in Hm.
Qed.

Lemma resolve_parent_dir d i es p : resolve_parent d i es = Some p -> i_type (slot d p) = T_DIR /\ resolve d i (removelast es) = Some p /\ es <> [].
Proof.
  unfold resolve_parent. destruct es as [|e es]; [done|]. destruct (resolve d i _) as [x|]; [|done]. cbn [mbind option_bind]. destruct (Z.eqb_spec (i_type (slot d x)) T_DIR); [|done]. by intros [= <-].
Qed.

(** Paths that led somewhere lead there still. *)
Lemma resolve_more d d' G : tree_ok d G -> (forall i, G i -> i_type (slot d' i) = i_type (slot d i)) ->
  (forall i name x, G i -> i_type (slot d i) = T_DIR -> lookup_dir d i name = Some x -> lookup_dir d' i name = Some x) -> forall es i x, G i -> resolve d i es = Some x -> resolve d' i es = Some x.
Proof.
  intros Ht Hty Hlk. induction es as [|e es IH]; intros i x Hi; [done|]. cbn [resolve]. rewrite Hty by done. destruct (Z.eqb_spec (i_type (slot d i)) T_DIR) as [Hd|]; [|done].
  destruct (lookup_dir d i (take (Z.to_nat DIRSIZ) e)) as [z|] eqn:Ez; [|done]. rewrite (Hlk i _ z Hi Hd Ez). cbn [mbind option_bind]. apply IH. by apply (lookup_member d G i _ z Ht Hi Hd Ez).
Qed.

(** The path ends at the name added last. *)
Lemma resolve_last d d' i es p j : resolve_parent d i es = Some p -> (forall es x, resolve d i es = Some x -> resolve d' i es = Some x) -> i_type (slot d' p) = T_DIR ->
  lookup_dir d' p (take (Z.to_nat DIRSIZ) (List.last es [])) = Some j -> resolve d' i es = Some j.
Proof.
  intros Hp Hmore Hty Hl. destruct (resolve_parent_dir d i es p Hp) as (_ & Hr & Hne). rewrite (app_removelast_last [] Hne), resolve_app, (Hmore _ p Hr). cbn [mbind option_bind resolve]. rewrite Hty. change (T_DIR =? T_DIR) with true. cbv iota. by rewrite Hl.
Qed.

(** The path that was asked for leads to the new inode. *)
Lemma resolve_new d G p type d' i es j : tree_ok d G -> G i -> resolve_parent d i es = Some p -> let nm := take (Z.to_nat DIRSIZ) (List.last es []) in
  lookup_dir d p nm = None -> grown d G p type d' nm j -> resolve d' i es = Some j.
Proof.
  intros Ht Hi Hp nm Hno [W1 W2 W3 [W4 _] W5 _ _]. destruct (resolve_parent_dir d i es p Hp) as (Hty & _ & _). apply (resolve_last d d' i es p j Hp); [|done | fold nm; rewrite W5; by rewrite bool_decide_eq_true_2].
  intros es' x. apply (resolve_more d d' G Ht); [| | done].
  - intros n Hn. destruct (decide (n = p)) as [->|Hne]; [congruence | by rewrite (ut_slot _ _ _ (W3 n Hn Hne))].
  - intros n name y Hn Hd Hy. destruct (decide (n = p)) as [->|Hne].
    + rewrite W5, bool_decide_eq_false_2; [done|]. intros E. rewrite E in Hy. congruence.
    + pose proof (to_size d G Ht n Hn) as Hs. by rewrite (ut_lookup _ _ n (W3 n Hn Hne)) by lia.
Qed.

(** ** create *)

(** What a call of [create] that finds the name leaves. *)
Definition create_found (d : disk) (G : Z -> Prop) (st : fs) (type j : Z) (r : res (option nat * fs)) : Prop :=
  if (type =? T_FILE) && (i_type (slot d j) =? T_FILE)
  then exists q st', r = Ok (Some q, st') /\ cache_ok d G [q] st' /\ entry st' q j /\ shape st st' /\ forall k, refs st' k = refs st k + one j k
  else exists st', r = Ok (None, st') /\ cache_ok d G [] st' /\ shape st st' /\ forall k, refs st' k = refs st k.

(** And one that does not. *)
Definition create_made (d : disk) (G : Z -> Prop) (st : fs) (i p type : Z) (es : list (list Z)) (nm : list Z) (r : res (option nat * fs)) : Prop :=
  (exists q j st', r = Ok (Some q, st') /\ grown d G p type (td (fs_t st')) nm j /\ resolve (td (fs_t st')) i es = Some j /\
     cache_ok (td (fs_t st')) (fun i => i = j \/ G i) [q] st' /\ entry st' q j /\ length (fs_ic st') = length (fs_ic st) /\ forall k, refs st' k = refs st k + one j k) \/
  r = Panic "ialloc: no inodes" \/ r = Panic "balloc: out of blocks".

Section create.
Context (d : disk) (G : Z -> Prop) (Htree : tree_ok d G).
Context (dev_read : Z -> option (nat -> mem -> Z -> Z -> fs -> res (Z * mem * fs))) (dev_write : Z -> option (nat -> mem -> Z -> Z -> fs -> res (Z * fs))).
Context (st : fs) (l : list Z) (Hc : cache_ok d G [] st) (Hl : forall j, refs st j <> 0 -> j ∈ l) (Hroom : (length l + 2 <= length (fs_ic st))%nat).
Context (type major minor : Z) (Hty : 0 < type < 2 ^ 15).

(** The case that the name exists, from the locked parent on. *)
Lemma create_existing st1 dp p q j : cache_ok d G [dp] st1 -> entry st1 dp p -> entry st1 q j -> (q <> dp \/ 1 < i_ref (inode_at st1 dp)) -> shape st st1 ->
  (forall k, refs st1 k = refs st k + one p k + one j k) ->
  create_found d G st type j
    (let* st1 := iunlockput mkfs_sb dp st1 in
     let* st1 := ilock mkfs_sb q st1 in
     if (type =? T_FILE) && (i_type (inode_at st1 q) =? T_FILE) then Ok (Some q, st1) else let* st1 := iunlockput mkfs_sb q st1 in Ok (None, st1)).
Proof using Htree.
  clear Hroom. intros Hc1 Hd Hq Hor Hs Hr. destruct (iunlockput_cache d G Htree [] st1 dp p Hc1 (not_elem_of_nil dp) Hd) as (st2 & -> & Hc2 & Hr2 & Hs2 & Hk2). cbn [rbind].
  destruct (ilock_cache d G Htree [] st2 q j Hc2 (not_elem_of_nil q) (Hk2 q j Hor Hq)) as (st3 & -> & Hc3 & Hq3 & (Ht3 & _) & Hr3 & Hs3 & _). cbn [rbind]. unfold create_found. rewrite Ht3.
  assert (Hs03 : shape st st3) by eauto using shape_trans. destruct ((type =? T_FILE) && (i_type (slot d j) =? T_FILE)).
  - exists q, st3. split_and!; try done. intros k. rewrite Hr3, Hr2, Hr. lia.
  - destruct (iunlockput_cache d G Htree [] st3 q j Hc3 (not_elem_of_nil q) Hq3) as (st4 & -> & Hc4 & Hr4 & Hs4 & _). cbn [rbind]. exists st4. split_and!; [done | done | eauto using shape_trans |]. intros k. rewrite Hr4, Hr3, Hr2, Hr. lia.
Qed.

Context (cwd : nat) (c : Z) (path : list Z) (Hcwd : absolute path = false -> entry st cwd c) (Hnz : Forall (fun b => b <> 0) path).
Abbreviation start := (if absolute path then ROOTINO else c).
Abbreviation last_name := (take (Z.to_nat DIRSIZ) (List.last (path_elems path) [])).

Lemma start_member : G start.
Proof using Htree Hc Hcwd.
  destruct (absolute path) eqn:Ha; [apply (to_root d G Htree)|]. destruct (Hcwd eq_refl) as (Hb & Hr & Hn). destruct (co_live _ _ _ _ Hc cwd Hb Hr) as (_ & HG & _). by rewrite Hn in HG.
Qed.

Lemma create_ok : let r := create mkfs_sb dev_read dev_write cwd path type major minor st in
  match resolve_parent d start (path_elems path) with
  | None => exists st', r = Ok (None, st') /\ cache_ok d G [] st' /\ shape st st' /\ forall k, refs st' k = refs st k
  | Some p =>
      match lookup_dir d p last_name with
      | Some j => create_found d G st type j r
      | None => room st 15 -> i_size (slot d p) + DIRENT_SIZE <= MAXFILE * BSIZE -> (type = T_DIR -> i_nlink (slot d p) < 2 ^ 15 - 1) ->
          create_made d G st start p type (path_elems path) last_name r
      end
  end.
Proof using Htree Hc Hl Hroom Hty Hcwd Hnz.
  intros r. unfold r, create, nameiparent. destruct (namex_resolves d G Htree dev_read st l Hc Hl Hroom cwd c path Hcwd Hnz true (fun _ => 0)) as (o & name & st1 & -> & (Hc1 & Hs1 & _ & Ho) & Hname). cbn [rbind].
  change (resolved d true start (path_elems path)) with (resolve_parent d start (path_elems path)) in Ho. destruct (resolve_parent d start (path_elems path)) as [p|] eqn:Ep.
  2:{ destruct Ho as [-> Hr1]. by exists st1. }
  destruct Ho as (dp & -> & He1 & Hr1). destruct (resolve_parent_dir d start _ p Ep) as (Hdir & _ & Hne). specialize (Hname ltac:(done)).
  assert (Hnm : cstrn name 0 (Z.to_nat DIRSIZ) = last_name) by (by destruct (path_elems path)).
  destruct (ilock_cache d G Htree [] st1 dp p Hc1 (not_elem_of_nil dp) He1) as (st2 & -> & Hc2 & He2 & Hld & Hr2 & Hs2 & _). cbn [rbind]. assert (Hs02 : shape st st2) by eauto using shape_trans. pose proof Hs02 as [_ Hlen].
  assert (Hroom2 : forall k, refs st2 k <> 0 -> k ∈ p :: l) by (apply (walk_room st l Hl p st2); intros k; by rewrite Hr2, Hr1).
  pose proof (dirlookup_cache d G Htree dev_read [dp] st2 dp p (p :: l) name Hc2 He2 Hld Hdir Hroom2 ltac:(cbn [length]; lia)) as Hdl. rewrite Hnm in Hdl.
  destruct (lookup_dir d p last_name) as [j|] eqn:Ej.
  - destruct Hdl as (q & off & st3 & -> & Hc3 & Hq & He3 & _ & _ & _ & Hor & Hr3 & Hs3 & _). cbn [rbind]. apply (create_existing st3 dp p q j Hc3 He3 Hq Hor); [eauto using shape_trans|]. intros k. rewrite Hr3, Hr2, Hr1. lia.
  - rewrite Hdl. cbn [rbind]. intros Hlog Hsz Hlk. assert (Hlog2 : room st2 15) by (unfold room; by rewrite (proj1 Hs02)). unfold create_made.
    destruct (create_new_ok d G Htree dev_read dev_write st2 dp p (p :: l) type major minor Hc2 He2 Hdir Hlog2 Hroom2 ltac:(cbn [length]; lia) Hty Hlk name) as [(q & j & st3 & -> & Hg & Hc3 & Hq & Hr3 & Hl3)|E]; [by rewrite Hnm | done | left | by right].
    rewrite Hnm in Hg. exists q, j, st3. split_and!; try done.
    + by apply (resolve_new d G p type (td (fs_t st3)) start (path_elems path) j Htree start_member Ep Ej).
    + congruence.
    + intros k. rewrite Hr3, Hr2, Hr1. lia.
Qed.
End create.

(** C3: creating a file, device or directory adds exactly it to the tree.  On a
    well-formed tree, [create] returns 0 and changes nothing when the directory
    of the path does not exist; when the name is taken it returns the file, if a
    file was asked for and it is one, and else 0, with the tree unchanged.
    Otherwise it panics for want of an inode or a block, or the new tree is well
    formed and has one more inode, of the type asked for, locked and with one
    reference; the path leads to it, a new directory holds "." and "..", every
    other name of every directory is as before, and so are the metadata, the
    blocks and the contents of every other inode.  The parent must have room for
    one more entry, and for one more link where a directory is made; the
    transaction, 29 blocks after begin_op, must have room for the 15 blocks that
    the log writes of [create] name at most. *)
Theorem create_adds d G dev_read dev_write st l cwd c path type major minor : tree_ok d G -> cache_ok d G [] st ->
  (forall j, refs st j <> 0 -> j ∈ l) -> (length l + 2 <= length (fs_ic st))%nat ->
  (absolute path = false -> entry st cwd c) -> Forall (fun b => b <> 0) path -> 0 < type < 2 ^ 15 ->
  let i := if absolute path then ROOTINO else c in let es := path_elems path in let nm := take (Z.to_nat DIRSIZ) (List.last es []) in
  let r := create mkfs_sb dev_read dev_write cwd path type major minor st in
  match resolve_parent d i es with
  | None => exists st', r = Ok (None, st') /\ cache_ok d G [] st' /\ shape st st' /\ forall k, refs st' k = refs st k
  | Some p =>
      match lookup_dir d p nm with
      | Some j => create_found d G st type j r
      | None => room st 15 -> i_size (slot d p) + DIRENT_SIZE <= MAXFILE * BSIZE -> (type = T_DIR -> i_nlink (slot d p) < 2 ^ 15 - 1) -> create_made d G st i p type es nm r
      end
  end.
Proof. intros Htree Hc Hl Hroom Hcwd Hnz Hty. by apply create_ok with (l := l). Qed.

(** On the image of two files, `/n` can be made as a directory. *)
Lemma create_adds_witness : exists s, mkfs wit_files = Ok s /\ let d := img s in
  create_made d (fun i => 1 <= i < 2 + Z.of_nat (length wit_files)) (boot_fs d) ROOTINO ROOTINO T_DIR [[110]] [110] (create mkfs_sb no_dev no_dev 0 [SLASH; 110] T_DIR 0 0 (boot_fs d)).
Proof.
  assert (Hroom : nmeta + total (contents wit_files) <= FSSIZE) by by vm_compute.
  destruct (mkfs_ok wit_files wit_fit ltac:(by vm_compute) Hroom) as (s & Es & Him). exists s. split; [exact Es|]. cbv zeta. destruct (im_file _ _ Him 0%nat _ _ eq_refl) as (_ & T1 & N1 & S1 & _). change (1 + Z.of_nat 0) with ROOTINO in *.
  pose proof (create_adds (img s) (fun i => 1 <= i < 2 + Z.of_nat (length wit_files)) no_dev no_dev (boot_fs (img s)) [] 0 0 [SLASH; 110] T_DIR 0 0) as H. cbv zeta in H. change (path_elems [SLASH; 110]) with [[110]] in H.
  assert (Hp : resolve_parent (img s) (if absolute [SLASH; 110] then ROOTINO else 0) [[110]] = Some ROOTINO) by (unfold resolve_parent; cbn [absolute removelast resolve mbind option_bind]; change (SLASH =? SLASH) with true; cbv iota; by rewrite T1).
  rewrite Hp in H. change (take (Z.to_nat DIRSIZ) (List.last [[110]] [])) with [110] in H. change (if absolute [SLASH; 110] then ROOTINO else 0) with ROOTINO in H.
  assert (Hno : lookup_dir (img s) ROOTINO [110] = None).
  { destruct (lookup_dir (img s) ROOTINO [110]) as [i|] eqn:E; [|done]. destruct (mkfs_named (img s) wit_files Him ltac:(done) wit_names ltac:(done) [110] i E) as (n & e & En & E2 & _). destruct n as [|[|[|[|n]]]]; [injection En as <-; done.. | done]. }
  rewrite Hno, S1, N1 in H. apply H.
  - apply mkfs_tree; [exact Him | eapply Forall_impl; [exact wit_fit|]; by intros f [_ ?] | done | exact wit_names | done].
  - apply boot_cache.
  - intros j Hj. destruct (Hj (boot_refs (img s) j)).
  - change (length (fs_ic (boot_fs (img s)))) with 50%nat. cbn [length]. lia.
  - intros [=].
  - by repeat constructor.
  - split; reflexivity.
  - vm_compute. discriminate.
  - vm_compute. discriminate.
  - intros _. reflexivity.
Defined.
