(* ===== verification/Trunc.v ===== *)
(** * Freeing a file (src/fs.c: itrunc)

    [itrunc] gives back exactly the blocks the file owns: its data blocks and
    its indirect block, each of them once. *)

From S2P Require Import Prelude Layout StringLib Blocks Balloc Fs FsFile FsDir Mkfs Boot Namei FsTree.

(** The blocks [F] were freed, and nothing else happened to the disk. *)
Record freed (t t' : tdisk) (F : Z -> Prop) : Prop := {
  fd_free b : F b -> used mkfs_sb t' b = false;
  fd_used b : 0 <= b < sb_size mkfs_sb -> ~ F b -> used mkfs_sb t' b = used mkfs_sb t b;
  fd_td b : b <> sb_bmapstart mkfs_sb -> td t' b = td t b;
  fd_log : tw t' ⊆ {[sb_bmapstart mkfs_sb]} ∪ tw t
}.

(** The log has room for the bitmap block, which all the calls of [bfree] share. *)
Definition bitmap_room (t : tdisk) : Prop := Z.of_nat (size ({[sb_bmapstart mkfs_sb]} ∪ tw t)) < 29.

Lemma bitmap_logged t : logged t <= Z.of_nat (size ({[sb_bmapstart mkfs_sb]} ∪ tw t)) <= logged t + 1.
Proof. exact (logged_put t (sb_bmapstart mkfs_sb) (fun _ => 0)). Qed.

Lemma room_bitmap st : room st 2 -> bitmap_room (fs_t st).
Proof. unfold room, bitmap_room. pose proof (bitmap_logged (fs_t st)). lia. Qed.

Lemma freed_size t t' F : freed t t' F -> Z.of_nat (size ({[sb_bmapstart mkfs_sb]} ∪ tw t')) <= Z.of_nat (size ({[sb_bmapstart mkfs_sb]} ∪ tw t)).
Proof. intros [_ _ _ H]. apply inj_le, subseteq_size. set_solver. Qed.

Lemma freed_room t t' F : freed t t' F -> bitmap_room t -> bitmap_room t'.
Proof. intros H%freed_size. unfold bitmap_room. lia. Qed.

Lemma freed_logged t t' F : freed t t' F -> logged t' <= logged t + 1.
Proof. intros H%freed_size. pose proof (bitmap_logged t). pose proof (bitmap_logged t'). lia. Qed.

Lemma freed_none t F : (forall b, ~ F b) -> freed t t F.
Proof. intros H. split; [intros b Hb; by destruct (H b) | done | done | set_solver]. Qed.

Lemma freed_trans t1 t2 t3 (F1 F2 F : Z -> Prop) : freed t1 t2 F1 -> freed t2 t3 F2 -> (forall b, F b <-> F1 b \/ F2 b) ->
  (forall b, F1 b -> 0 <= b < sb_size mkfs_sb) -> (forall b, F1 b -> ~ F2 b) -> freed t1 t3 F.
Proof.
  intros [A1 A2 A3 A4] [B1 B2 B3 B4] HF Hr Hd. split; [..|set_solver].
  - intros b Hb. apply HF in Hb as [Hb|Hb]; [|by apply B1]. rewrite B2; [by apply A1 | by apply Hr | by apply Hd].
  - intros b Hb Hn. rewrite B2, A2; [done | done | | done |]; intros H; apply Hn, HF; auto.
  - intros b Hb. by rewrite B3, A3.
Qed.

Lemma bfree_fs_ok b st : bitmap_room (fs_t st) -> 0 <= b < sb_size mkfs_sb -> used mkfs_sb (fs_t st) b = true ->
  exists t, bfree_fs mkfs_sb b st = Ok (mk_fs t (fs_ic st)) /\ freed (fs_t st) t (fun x => x = b).
Proof.
  intros Hlog Hb Hu. unfold bfree_fs. destruct (bfree_ok mkfs_sb mkfs_sb_ok (fs_t st) b) as (t & -> & [B1 B2] & Ht & Hw); [|done | done |].
  { change (log_cap mkfs_sb) with 29. unfold bitmap_room in Hlog. pose proof (bitmap_logged (fs_t st)). lia. }
  cbn [rbind]. exists t. split; [done|]. split; [by intros x -> | intros x Hx Hne; by apply B2 | done | by rewrite Hw].
Qed.

(** The addresses from [i] up to [e] cleared. *)
Definition clear_addrs (x : inode) (i e : Z) : inode := set_addrs x (imap (fun n a => if (i <=? Z.of_nat n) && (Z.of_nat n <? e) then 0 else a) (i_addrs x)).

Lemma clear_none x i e : e <= i -> clear_addrs x i e = x.
Proof.
  intros H. unfold clear_addrs. assert (E : imap (fun n a => if (i <=? Z.of_nat n) && (Z.of_nat n <? e) then 0 else a) (i_addrs x) = i_addrs x).
  { apply list_eq. intros n. rewrite list_lookup_imap. destruct (i_addrs x !! n); [|done]. cbn. f_equal. zcases. }
  rewrite E. by destruct x.
Qed.

Lemma clear_step x i e : i < e <= 13 -> 0 <= i -> length (i_addrs x) = 13%nat -> clear_addrs (set_addr x i 0) (i + 1) e = clear_addrs x i e.
Proof.
  intros He Hi Hl. unfold clear_addrs, set_addr. cbn [i_addrs set_addrs]. unfold set_addrs. cbn. f_equal. apply list_eq. intros n. rewrite !list_lookup_imap.
  destruct (decide (n = Z.to_nat i)) as [->|Hne].
  - rewrite list_lookup_insert_eq by lia. destruct (lookup_lt_is_Some_2 (i_addrs x) (Z.to_nat i)) as [a Ea]; [lia|]. rewrite Ea. cbn. f_equal. zcases.
  - rewrite list_lookup_insert_ne by done. destruct (i_addrs x !! n); [|done]. cbn. f_equal. zcases.
Qed.

Lemma clear_skip x i e : i < e <= 13 -> 0 <= i -> length (i_addrs x) = 13%nat -> addr x i = 0 -> clear_addrs x (i + 1) e = clear_addrs x i e.
Proof.
  intros He Hi Hl Ha. rewrite <- (clear_step x i e) by done. f_equal. unfold set_addr, set_addrs. rewrite list_insert_id; [by destruct x|].
  unfold addr in Ha. rewrite nth_lookup in Ha. destruct (lookup_lt_is_Some_2 (i_addrs x) (Z.to_nat i)) as [a Ea]; [lia|]. rewrite Ea in Ha. cbn in Ha. by subst a.
Qed.

Lemma insert_same (ic : list inode) ip : (ip < length ic)%nat -> <[ip := nth ip ic no_inode]> ic = ic.
Proof. intros H. apply list_insert_id. rewrite nth_lookup. destruct (lookup_lt_is_Some_2 ic ip H) as [x ->]. done. Qed.

Lemma freed_ext t t' (F F' : Z -> Prop) : (forall b, F b <-> F' b) -> freed t t' F -> freed t t' F'.
Proof. intros H [A1 A2 A3 A4]. split; [intros b Hb; by apply A1, H | intros b Hb Hn; apply A2; [done|]; by rewrite H | done | done]. Qed.

(** The loop over the direct blocks. *)
Lemma itrunc_direct_ok ip : forall k i st, bitmap_room (fs_t st) -> i + Z.of_nat k = NDIRECT -> 0 <= i -> (ip < length (fs_ic st))%nat -> length (i_addrs (inode_at st ip)) = 13%nat ->
  let x := inode_at st ip in (forall j, i <= j < NDIRECT -> addr x j <> 0 -> 0 <= addr x j < sb_size mkfs_sb /\ used mkfs_sb (fs_t st) (addr x j) = true) ->
  (forall j j', i <= j < NDIRECT -> i <= j' < NDIRECT -> addr x j = addr x j' -> addr x j <> 0 -> j = j') ->
  exists t, itrunc_direct mkfs_sb k i ip st = Ok (mk_fs t (<[ip := clear_addrs x i NDIRECT]> (fs_ic st))) /\
    freed (fs_t st) t (fun b => b <> 0 /\ exists j, i <= j < NDIRECT /\ addr x j = b).
Proof.
  induction k as [|k IH]; intros i st Hlog Hk Hi Hip Hlen x Hok Hinj; cbn [itrunc_direct].
  { exists (fs_t st). split; [|apply freed_none; intros b (_ & j & Hj & _); lia]. rewrite clear_none by lia. unfold x, inode_at. rewrite insert_same by done. by destruct st. }
  assert (HN : NDIRECT = 12) by done. fold x. destruct (Z.eqb_spec (addr x i) 0) as [Hz|Hnz]; cbn [rbind].
  - destruct (IH (i + 1) st) as (t & E & Hf); [done | lia | lia | done | done | intros j Hj; apply Hok; lia | intros j j' Hj Hj'; apply Hinj; lia |]. fold x in E, Hf.
    exists t. rewrite E, clear_skip by (done || lia). split; [done|]. eapply freed_ext; [|exact Hf]. intros b. split; intros (Hb & j & Hj & Ej); split; [done | exists j; split; [lia | done] | done | exists j; split; [|done]].
    destruct (decide (j = i)) as [->|]; [congruence | lia].
  - destruct (Hok i ltac:(lia) Hnz) as [Hr Hu]. destruct (bfree_fs_ok (addr x i) st Hlog Hr Hu) as (t1 & -> & Hf1). cbn [rbind]. change (inode_at (mk_fs t1 (fs_ic st)) ip) with x.
    set (st1 := set_inode (mk_fs t1 (fs_ic st)) ip (set_addr x i 0)). assert (Ex : inode_at st1 ip = set_addr x i 0) by (by apply (inode_at_set (mk_fs t1 (fs_ic st)))).
    assert (Ha : forall j, 0 <= j -> addr (set_addr x i 0) j = if j =? i then 0 else addr x j) by (intros j Hj; apply addr_set; [lia | done | done]).
    destruct (IH (i + 1) st1) as (t & E & Hf2); [exact (freed_room _ _ _ Hf1 Hlog) | lia | lia | unfold st1; by rewrite set_length | rewrite Ex; by rewrite length_set_addr | | |].
    + intros j Hj. rewrite Ex, Ha, (proj2 (Z.eqb_neq j i)) by lia. intros Hz. destruct (Hok j ltac:(lia) Hz) as [Hr' Hu']. split; [done|]. cbn. rewrite (fd_used _ _ _ Hf1); [done | done|]. intros E. assert (j = i) by (apply Hinj; [lia | lia | done | done]). lia.
    + intros j j' Hj Hj'. rewrite Ex, !Ha, (proj2 (Z.eqb_neq j i)), (proj2 (Z.eqb_neq j' i)) by lia. apply Hinj; lia.
    + rewrite Ex in E, Hf2. rewrite clear_step in E by (done || lia). unfold st1 in E at 2. cbn [set_inode fs_ic] in E. rewrite list_insert_insert_eq in E. exists t. split; [exact E|].
      assert (Hj0 : forall b, (exists j, i + 1 <= j < NDIRECT /\ addr (set_addr x i 0) j = b) <-> exists j, i + 1 <= j < NDIRECT /\ addr x j = b).
      { intros b. split; intros (j & Hj & Ej); exists j; (split; [done|]); [rewrite Ha, (proj2 (Z.eqb_neq j i)) in Ej by lia | rewrite Ha, (proj2 (Z.eqb_neq j i)) by lia]; done. }
      eapply freed_trans; [exact Hf1 | exact Hf2 | | by intros b -> |].
      * intros b. cbv beta. rewrite Hj0. split.
        -- intros (Hb & j & Hj & Ej). destruct (decide (j = i)) as [->|]; [by left | right; split; [done|]; exists j; split; [lia | done]].
        -- intros [->|(Hb & j & Hj & Ej)]; (split; [done|]); [exists i | exists j]; (split; [lia | done]).
      * intros b ->. cbv beta. rewrite Hj0. intros (_ & j & Hj & Ej). assert (j = i) by (apply Hinj; [lia | lia | done | congruence]). lia.
Qed.

(** The loop over the entries of the indirect block [n]. *)
Lemma itrunc_indirect_ok n : n < FSSIZE -> n <> sb_bmapstart mkfs_sb -> forall k i st, bitmap_room (fs_t st) -> i + Z.of_nat k = NINDIRECT -> 0 <= i ->
  let a j := ld32 (td (fs_t st) n) (4 * j) in (forall j, i <= j < NINDIRECT -> a j <> 0 -> 0 <= a j < sb_size mkfs_sb /\ used mkfs_sb (fs_t st) (a j) = true) ->
  (forall j j', i <= j < NINDIRECT -> i <= j' < NINDIRECT -> a j = a j' -> a j <> 0 -> j = j') ->
  exists t, itrunc_indirect mkfs_sb k i n st = Ok (mk_fs t (fs_ic st)) /\ freed (fs_t st) t (fun b => b <> 0 /\ exists j, i <= j < NINDIRECT /\ a j = b).
Proof.
  intros Hn Hm. induction k as [|k IH]; intros i st Hlog Hk Hi a Hok Hinj; cbn [itrunc_indirect].
  { exists (fs_t st). split; [by destruct st | apply freed_none; intros b (_ & j & Hj & _); lia]. }
  rewrite tread_ok by done. cbn [rbind]. change (ld32 (td (fs_t st) n) (4 * i)) with (a i). destruct (Z.eqb_spec (a i) 0) as [Hz|Hnz]; cbn [rbind].
  - destruct (IH (i + 1) st) as (t & E & Hf); [done | lia | lia | intros j Hj; apply Hok; lia | intros j j' Hj Hj'; apply Hinj; lia |].
    exists t. split; [exact E|]. eapply freed_ext; [|exact Hf]. intros b. split; intros (Hb & j & Hj & Ej); split; [done | exists j; split; [lia | done] | done | exists j; split; [|done]].
    destruct (decide (j = i)) as [->|]; [fold a in Ej; congruence | lia].
  - destruct (Hok i ltac:(lia) Hnz) as [Hr Hu]. destruct (bfree_fs_ok (a i) st Hlog Hr Hu) as (t1 & -> & Hf1). cbn [rbind].
    destruct (IH (i + 1) (mk_fs t1 (fs_ic st))) as (t & E & Hf2); cbn [fs_t fs_ic] in *; rewrite ?(fd_td _ _ _ Hf1 n Hm) in *; [exact (freed_room _ _ _ Hf1 Hlog) | lia | lia | | intros j j' Hj Hj'; apply Hinj; lia |].
    + intros j Hj Hz. destruct (Hok j ltac:(lia) Hz) as [Hr' Hu']. split; [done|]. rewrite (fd_used _ _ _ Hf1); [done | done|]. intros Ej. assert (j = i) by (apply Hinj; [lia | lia | done | done]). lia.
    + exists t. split; [exact E|]. eapply freed_trans; [exact Hf1 | exact Hf2 | | by intros b -> |].
      * intros b. split.
        -- intros (Hb & j & Hj & Ej). destruct (decide (j = i)) as [->|]; [by left | right; split; [done|]; exists j; split; [lia | done]].
        -- intros [->|(Hb & j & Hj & Ej)]; (split; [done|]); [exists i | exists j]; (split; [lia | done]).
      * intros b -> (_ & j & Hj & Ej). assert (j = i) by (apply Hinj; [lia | lia | done |]; unfold a in *; congruence). lia.
Qed.

(** The inode of a file without content. *)
Definition emptied (x : inode) : inode := set_size (set_addrs x (replicate 13 0)) 0.

Lemma clear_all x : length (i_addrs x) = 13%nat -> set_addr (clear_addrs x 0 NDIRECT) NDIRECT 0 = set_addrs x (replicate 13 0).
Proof.
  intros Hl. destruct x as [? ? ? ? ? ? ? ? ? ? l]. cbn in Hl. do 13 (destruct l as [|? l]; [done|]). destruct l; [|done]. reflexivity.
Qed.

Lemma clear_direct x : length (i_addrs x) = 13%nat -> addr x NDIRECT = 0 -> clear_addrs x 0 NDIRECT = set_addrs x (replicate 13 0).
Proof.
  intros Hl Ha. destruct x as [? ? ? ? ? ? ? ? ? ? l]. cbn in Hl. do 13 (destruct l as [|? l]; [done|]). destruct l; [|done]. vm_compute in Ha. subst. reflexivity.
Qed.

(** ** itrunc *)

Section trunc.
Context (st : fs) (ip : nat) (Hf : file_ok mkfs_sb st ip) (Hlog : room st 2).
#[local] Abbreviation x := (inode_at st ip).
#[local] Abbreviation direct := (fun b => b <> 0 /\ exists j, 0 <= j < NDIRECT /\ addr x j = b).
#[local] Abbreviation indirect := (fun b => b <> 0 /\ exists j, 0 <= j < NINDIRECT /\ ld32 (td (fs_t st) (ind st ip)) (4 * j) = b).

Lemma fblock_entry j : 0 <= j < NINDIRECT -> ind st ip <> 0 -> fblock st ip (NDIRECT + j) = ld32 (td (fs_t st) (ind st ip)) (4 * j).
Proof. intros Hj Hn. unfold fblock. rewrite (proj2 (Z.ltb_ge _ _)), (proj2 (Z.eqb_neq _ _)) by (done || lia). do 2 f_equal. lia. Qed.

Lemma owns_split b : owns st ip b <-> direct b \/ ind st ip <> 0 /\ (indirect b \/ b = ind st ip).
Proof.
  assert (HM : MAXFILE = NDIRECT + NINDIRECT) by done. assert (HN : NDIRECT = 12) by done. assert (HI : NINDIRECT = 128) by done. split.
  - intros (Hb & [->|(j & Hj & Ej)]); [right; by auto|]. destruct (Z.lt_ge_cases j NDIRECT).
    + left. split; [done|]. exists j. split; [lia|]. by rewrite <- fblock_direct by lia.
    + right. assert (Hn : ind st ip <> 0). { intros Hz. unfold fblock in Ej. rewrite (proj2 (Z.ltb_ge _ _)), Hz in Ej by lia. done. }
      split; [done|]. left. split; [done|]. exists (j - NDIRECT). split; [lia|]. rewrite <- fblock_entry by (done || lia). rewrite <- Ej. f_equal. lia.
  - intros [(Hb & j & Hj & Ej)|(Hn & [(Hb & j & Hj & Ej)| ->])].
    + split; [done|]. right. exists j. rewrite fblock_direct by lia. split; [lia | done].
    + split; [done|]. right. exists (NDIRECT + j). rewrite fblock_entry by done. split; [lia | done].
    + split; [done | by left].
Qed.

(** The blocks freed before the inode is written back. *)
Lemma itrunc_blocks : exists t, freed (fs_t st) t (owns st ip) /\
  (let* s := itrunc_direct mkfs_sb (Z.to_nat NDIRECT) 0 ip st in
   if addr (inode_at s ip) NDIRECT =? 0 then Ok s
   else
     let* s := itrunc_indirect mkfs_sb (Z.to_nat NINDIRECT) 0 (addr (inode_at s ip) NDIRECT) s in
     let* s := bfree_fs mkfs_sb (addr (inode_at s ip) NDIRECT) s in
     Ok (set_inode s ip (set_addr (inode_at s ip) NDIRECT 0))) = Ok (mk_fs t (<[ip := set_addrs x (replicate 13 0)]> (fs_ic st))).
Proof.
  pose proof (fo_ip _ _ _ Hf) as Hip. pose proof (fo_len _ _ _ Hf) as Hlen. assert (HM : MAXFILE = NDIRECT + NINDIRECT) by done. assert (HN : NDIRECT = 12) by done. assert (HI : NINDIRECT = 128) by done.
  assert (Hown : forall b, owns st ip b -> 0 <= b < sb_size mkfs_sb /\ used mkfs_sb (fs_t st) b = true) by (intros b Ho; destruct (owned_facts mkfs_sb mkfs_sb_ok st ip b Hf Ho) as (? & ? & ?); done).
  destruct (itrunc_direct_ok ip (Z.to_nat NDIRECT) 0 st) as (t1 & -> & F1); [by apply room_bitmap | done | lia | done | done | | |]; cbv zeta.
  { intros j Hj Hn. apply Hown, owns_split. left. split; [done|]. by exists j. }
  { intros j j' Hj Hj' E Hn. apply (fo_inj _ _ _ Hf); rewrite ?fblock_direct by lia; (done || lia). }
  cbn [rbind]. set (s1 := mk_fs t1 _). assert (E1 : inode_at s1 ip = clear_addrs x 0 NDIRECT) by (by apply (inode_at_set (mk_fs t1 (fs_ic st)))).
  assert (Ei : addr (clear_addrs x 0 NDIRECT) NDIRECT = ind st ip).
  { unfold ind, addr, clear_addrs. cbn [i_addrs set_addrs]. rewrite !nth_lookup, list_lookup_imap. by destruct (i_addrs x !! Z.to_nat NDIRECT). }
  rewrite E1, Ei. destruct (Z.eqb_spec (ind st ip) 0) as [Hz|Hn]; cbn [rbind].
  - exists t1. split; [|unfold s1; by rewrite clear_direct].
    eapply freed_ext; [|exact F1]. intros b. rewrite owns_split. tauto.
  - assert (Hoi : owns st ip (ind st ip)) by (by apply owns_ind). destruct (owned_facts mkfs_sb mkfs_sb_ok st ip _ Hf Hoi) as (Hir & Him & Hiu).
    assert (Hti : td (fs_t s1) (ind st ip) = td (fs_t st) (ind st ip)) by (by apply F1).
    assert (Hind : forall j, 0 <= j < NINDIRECT -> ld32 (td (fs_t st) (ind st ip)) (4 * j) <> 0 -> owns st ip (ld32 (td (fs_t st) (ind st ip)) (4 * j))).
    { intros j Hj Hz. apply owns_split. right. split; [done|]. left. split; [done|]. by exists j. }
    assert (Hdi : forall b, direct b -> ~ indirect b /\ b <> ind st ip).
    { intros b (Hb & j & Hj & <-). split.
      - intros (_ & j' & Hj' & E). rewrite <- fblock_entry, <- fblock_direct in E by (done || lia). apply (fo_inj _ _ _ Hf) in E; [lia | lia | lia |]. rewrite E. by rewrite fblock_direct by lia.
      - rewrite <- fblock_direct by lia. apply (fo_ind _ _ _ Hf); [lia|]. by rewrite fblock_direct by lia. }
    destruct (itrunc_indirect_ok (ind st ip)) with (k := Z.to_nat NINDIRECT) (i := 0) (st := s1) as (t2 & -> & F2); [unfold FSSIZE; change (sb_size mkfs_sb) with 1000 in *; lia | done | exact (freed_room _ _ _ F1 (room_bitmap _ Hlog)) | done | lia | | |]; rewrite ?Hti in *.
    { intros j Hj Hz. destruct (Hown _ (Hind j Hj Hz)) as [Hr Hu]. split; [done|]. change (used mkfs_sb t1 (ld32 (td (fs_t st) (ind st ip)) (4 * j)) = true). rewrite (fd_used _ _ _ F1 _ Hr); [done|]. intros Hd. apply (proj1 (Hdi _ Hd)). split; [done|]. by exists j. }
    { intros j j' Hj Hj' E Hz. enough (NDIRECT + j = NDIRECT + j') by lia. apply (fo_inj _ _ _ Hf); rewrite ?fblock_entry by done; (done || lia). }
    cbn [rbind]. set (s2 := mk_fs t2 _). assert (E2 : inode_at s2 ip = clear_addrs x 0 NDIRECT) by exact E1. rewrite E2, Ei.
    assert (F12 : freed (fs_t st) t2 (fun b => direct b \/ indirect b)).
    { eapply freed_trans; [exact F1 | exact F2 | done | intros b Hd; apply Hown, owns_split; by left | intros b Hd; by apply Hdi]. }
    assert (Hni : ~ (direct (ind st ip) \/ indirect (ind st ip))).
    { intros [Hd|(_ & j & Hj & Ej)]; [by apply Hdi in Hd as []|]. rewrite <- fblock_entry in Ej by done. apply (fo_ind _ _ _ Hf (NDIRECT + j)); [lia | by rewrite Ej | exact Ej]. }
    destruct (bfree_fs_ok (ind st ip) s2) as (t3 & -> & F3); [exact (freed_room _ _ _ F12 (room_bitmap _ Hlog)) | done | by rewrite (fd_used _ _ _ F12) |]. cbn [rbind].
    exists t3. split.
    + eapply freed_trans; [exact F12 | exact F3 | intros b; rewrite owns_split; tauto | intros b [Hb|Hb]; apply Hown, owns_split; [by left | right; split; [done | by left]] | by intros b Hb ->].
    + change (inode_at (mk_fs t3 (fs_ic s2)) ip) with (inode_at s2 ip). rewrite E2, clear_all by done. unfold s2, s1, set_inode. cbn [fs_ic fs_t]. by rewrite list_insert_insert_eq.
Qed.

(** The disk after the content of [ip] is gone. *)
Lemma itrunc_ok : 0 <= inum_at st ip < NINODES -> exists t, freed (fs_t st) t (owns st ip) /\
  itrunc mkfs_sb ip st = Ok (mk_fs (tput t (IBLOCK (inum_at st ip) sb) (dinode_put (td (fs_t st) (IBLOCK (inum_at st ip) sb)) (dip_off (inum_at st ip)) (emptied x))) (<[ip := emptied x]> (fs_ic st))).
Proof using Hf Hlog.
  intros Hi. destruct itrunc_blocks as (t & Ht & E). exists t. split; [done|]. pose proof (fo_ip _ _ _ Hf) as Hip. pose proof (iblock_range _ Hi) as (Hr & _).
  unfold itrunc. revert E. destruct (itrunc_direct _ _ _ _ _) as [s|m|]; [|done | done]. cbn [rbind]. intros ->. cbn [rbind]. set (s1 := mk_fs t _).
  assert (E1 : inode_at s1 ip = set_addrs x (replicate 13 0)) by (by apply (inode_at_set (mk_fs t (fs_ic st)))). rewrite E1. change (set_size (set_addrs x (replicate 13 0)) 0) with (emptied x).
  assert (E2 : inode_at (set_inode s1 ip (emptied x)) ip = emptied x) by (apply inode_at_set; unfold s1; cbn; by rewrite length_insert).
  rewrite iupdate_puts; [|pose proof (freed_logged _ _ _ Ht); unfold room, s1 in *; cbn [set_inode fs_t]; lia | by rewrite E2]. rewrite E2. change (i_inum (emptied x)) with (inum_at st ip). unfold s1. cbn [set_inode fs_ic fs_t]. rewrite list_insert_insert_eq, (fd_td _ _ _ Ht); [done|]. change (sb_bmapstart mkfs_sb) with 58. lia.
Qed.
End trunc.

(** ** Freeing an inode *)

(** What the last [iput] of an unlinked inode leaves. *)
Record released (st st' : fs) (ip : nat) : Prop := {
  re_len : length (fs_ic st') = length (fs_ic st);
  re_other q : q <> ip -> inode_at st' q = inode_at st q;
  re_entry : let y := inode_at st' ip in i_ref y = 0 /\ i_locked y = false /\ inum_at st' ip = inum_at st ip;
  re_free b : owns st ip b -> used mkfs_sb (fs_t st') b = false;
  re_used b : 0 <= b < sb_size mkfs_sb -> ~ owns st ip b -> used mkfs_sb (fs_t st') b = used mkfs_sb (fs_t st) b;
  re_block b : b <> sb_bmapstart mkfs_sb -> b <> IBLOCK (inum_at st ip) sb -> td (fs_t st') b = td (fs_t st) b;
  re_out o : o < dip_off (inum_at st ip) \/ dip_off (inum_at st ip) + DINODE_SIZE <= o ->
    td (fs_t st') (IBLOCK (inum_at st ip) sb) o = td (fs_t st) (IBLOCK (inum_at st ip) sb) o;
  re_type : i_type (slot (td (fs_t st')) (inum_at st ip)) = 0
}.

Lemma iput_frees st ip : room st 3 -> file_ok mkfs_sb st ip -> 0 <= inum_at st ip < NINODES -> i_locked (inode_at st ip) = false -> i_valid (inode_at st ip) = true ->
  i_nlink (inode_at st ip) = 0 -> i_ref (inode_at st ip) = 1 -> exists st', iput mkfs_sb ip st = Ok st' /\ released st st' ip.
Proof.
  intros Hlog Hf Hi Hl Hv Hn Hr. pose proof (fo_ip _ _ _ Hf) as Hip. pose proof (iblock_range _ Hi) as (Hb & _). unfold iput. rewrite Hl. cbn [rbind].
  set (x := inode_at st ip) in *. set (st1 := set_inode st ip (set_ilock x true)). assert (E1 : inode_at st1 ip = set_ilock x true) by (by apply inode_at_set).
  assert (Hs1 : same_file mkfs_sb st st1 ip) by (split; [by rewrite E1 | done | done | apply set_length]). pose proof (same_owns mkfs_sb st st1 ip Hs1) as Ho.
  rewrite E1. cbn [i_valid i_nlink i_ref set_ilock]. rewrite Hv, Hn, Hr. change (true && (0 =? 0) && (1 =? 1)) with true. cbv iota. pose proof (same_file_ok mkfs_sb mkfs_sb_ok st st1 ip Hf Hs1) as Hf1.
  destruct (itrunc_ok st1 ip Hf1) as (t & Ht & ->); [unfold room in *; cbn; lia | by rewrite E1|]. rewrite E1. change (i_inum (set_ilock x true)) with (i_inum x). cbn [rbind].
  set (B := IBLOCK (i_inum x) sb) in *. set (o := dip_off (i_inum x)). set (y := emptied (set_ilock x true)). set (m := dinode_put (td (fs_t st1) B) o y). set (t2 := tput t B m).
  assert (Hl1 : (ip < length (fs_ic st1))%nat) by (unfold st1; by rewrite set_length). change (mk_fs t2 (<[ip:=y]> (fs_ic st1))) with (set_inode (mk_fs t2 (fs_ic st1)) ip y).
  rewrite (inode_at_set (mk_fs t2 (fs_ic st1))) by done. set (st3 := set_inode (set_inode _ ip y) ip (set_type y 0)). assert (E3 : inode_at st3 ip = set_type y 0) by (apply inode_at_set; by rewrite set_length).
  rewrite iupdate_puts; [|pose proof (freed_logged _ _ _ Ht) as H1; pose proof (logged_put t B m) as H2; unfold room in *; change (fs_t st3) with t2; change (fs_t st1) with (fs_t st) in H1; unfold t2; lia | by rewrite E3]. rewrite E3. change (i_inum (set_type y 0)) with (i_inum x). fold B. fold o. cbn [rbind].
  assert (Em : td (fs_t st3) B = m) by (apply dset_eq). rewrite Em. set (m2 := dinode_put m o (set_type y 0)). change (fs_t st3) with t2. set (t4 := tput t2 B m2).
  assert (E4 : inode_at (mk_fs t4 (fs_ic st3)) ip = set_type y 0) by exact E3. assert (Hl4 : (ip < length (fs_ic (mk_fs t4 (fs_ic st3))))%nat) by (unfold st3; cbn [fs_ic]; by rewrite !set_length).
  rewrite E4. rewrite (inode_at_set (mk_fs t4 (fs_ic st3))) by done. rewrite !inode_at_set by (by rewrite ?set_length).
  match goal with |- exists s, Ok ?a = Ok s /\ _ => set (st' := a) end. exists st'. split; [done|]. assert (Et : fs_t st' = t4) by done.
  assert (Hbm : B <> sb_bmapstart mkfs_sb) by (unfold B; change (sb_bmapstart mkfs_sb) with 58; lia). split; cbv zeta; rewrite ?Et.
  - unfold st'. rewrite !set_length. change (length (fs_ic st3) = length (fs_ic st)). unfold st3. rewrite !set_length. apply (set_length st).
  - intros q Hq. unfold st'. rewrite !inode_at_set_ne by done. change (inode_at st3 q = inode_at st q). unfold st3. rewrite !inode_at_set_ne by done. change (inode_at st1 q = inode_at st q). by apply inode_at_set_ne.
  - unfold st'. rewrite inode_at_set by (by rewrite !set_length). split_and!; [cbn; lia | done | done].
  - intros b Hb'. destruct (owned_facts mkfs_sb mkfs_sb_ok st ip b Hf Hb') as (Hrb & _). unfold t4, t2. rewrite !(used_tput mkfs_sb mkfs_sb_ok) by done. apply (fd_free _ _ _ Ht). by apply Ho.
  - intros b Hrb Hno. unfold t4, t2. rewrite !(used_tput mkfs_sb mkfs_sb_ok) by done. apply (fd_used _ _ _ Ht); [done|]. by rewrite Ho.
  - intros b Hm Hb'. unfold t4. cbn [tput td]. rewrite dset_ne by done. unfold t2. cbn [tput td]. rewrite dset_ne by done. by apply (fd_td _ _ _ Ht).
  - intros a Ha. unfold t4. cbn [tput td]. rewrite dset_eq. unfold m2, m. rewrite !dinode_put_out; [done | done | done | done | done].
  - pose proof (put_loaded (dset (td t) B m) (i_inum x) (set_type y 0)) as Hp. fold B in Hp. rewrite dset_eq in Hp. destruct Hp as (Hp & _); try done; [change (i_nlink (set_type y 0)) with (i_nlink x); lia | by apply Forall_replicate].
Qed.
