(* ===== verification/Unlink.v ===== *)
(** * Removing files and directories (src/sysfile.c: unlink; src/fs.c: iput)

    [sys_unlink] against the tree of the disk: exactly one name goes away, and
    with the last name of an inode the inode and all its blocks. *)

From S2P Require Import Prelude Layout StringLib Kalloc Blocks Balloc Fs FsFile FsDir File Vm VmSpec VmUser Proc ProcMem Syscall Sysfile Mkfs Boot Namei FsTree Create Trunc.

(** ** Names that cannot be removed *)

Lemma name_is_ok name s : cstrn (mwrite name DIRENT_SIZE (s ++ [0])) DIRENT_SIZE (Z.to_nat DIRSIZ) = s -> name_is name s = bool_decide (cstrn name 0 (Z.to_nat DIRSIZ) = s).
Proof.
  intros Hs. unfold name_is, namecmp, strncmp. pose proof (strncmp_loop_cstrn (mwrite name DIRENT_SIZE (s ++ [0])) 0 DIRENT_SIZE (Z.to_nat DIRSIZ)) as H. rewrite Hs in H.
  rewrite (cstrn_ext _ name 0) in H by (intros x Hx; change (Z.of_nat (Z.to_nat DIRSIZ)) with 14 in Hx; unfold mwrite; change DIRENT_SIZE with 16; zcases).
  destruct (decide (cstrn name 0 (Z.to_nat DIRSIZ) = s)) as [E|E]; [rewrite bool_decide_eq_true_2 by done; by apply Z.eqb_eq, H | rewrite bool_decide_eq_false_2 by done; apply Z.eqb_neq; by rewrite H].
Qed.

Lemma name_is_dot name : name_is name DOT = bool_decide (cstrn name 0 (Z.to_nat DIRSIZ) = DOT) /\ name_is name DOTDOT = bool_decide (cstrn name 0 (Z.to_nat DIRSIZ) = DOTDOT).
Proof. split; by apply name_is_ok. Qed.

(** ** Writing inside a file *)

Lemma writei_loop_runs fuel ip src s off tot n st : file_ok mkfs_sb st ip -> 0 <= off -> off + (n - tot) <= MAXFILE * BSIZE ->
  (forall o, off <= o < off + (n - tot) -> fblock st ip (o / BSIZE) <> 0) -> forall m, writei_loop mkfs_sb fuel ip src s off tot n st = Panic m -> m <> "balloc: out of blocks".
Proof.
  revert st s off tot. induction fuel as [|fuel IH]; intros st s off tot Hf Ho Hmax Hb m; cbn [writei_loop]; destruct (Z.ltb_spec tot n) as [Hlt|Hge]; try (by intros [= <-]); try done.
  destruct (pass_range off (n - tot) Ho ltac:(lia)) as (Hm & Hin & Hsame & Hnext). set (k := Z.min (n - tot) (BSIZE - off mod BSIZE)) in *.
  assert (Hr : 0 <= off / BSIZE < MAXFILE) by (apply off_block; lia). assert (Hnz : fblock st ip (off / BSIZE) <> 0) by (apply Hb; lia).
  rewrite (bmap_hit mkfs_sb mkfs_sb_ok st ip (off / BSIZE) Hf Hr Hnz). cbn [rbind]. rewrite tread_ok.
  2:{ destruct (owned_facts mkfs_sb mkfs_sb_ok _ _ _ Hf (owns_fblock _ _ _ Hr Hnz)) as (? & _). change (sb_size mkfs_sb) with 1000 in *. unfold FSSIZE. lia. }
  cbn [rbind]. set (m' := mcopy _ _ _ _ _). destruct (tlog_cases mkfs_sb (fs_t st) (fblock st ip (off / BSIZE)) m') as [[_ ->]|[_ ->]]; [|by intros [= <-]]. unfold m'. cbn [rbind].
  fold (overwrite st (fblock st ip (off / BSIZE)) (mcopy (td (fs_t st) (fblock st ip (off / BSIZE))) (off mod BSIZE) src s k)).
  apply IH; [by apply (over_file_ok mkfs_sb mkfs_sb_ok) | lia | lia |]. intros o Hoo. rewrite (over_block mkfs_sb mkfs_sb_ok) by done. apply Hb. lia.
Qed.

(** A write that stays inside the file needs no block. *)
Lemma writei_fits dev_write st ip src s off n : logged (fs_t st) + 2 + touched off n < log_cap mkfs_sb -> file_ok mkfs_sb st ip -> no_holes st ip -> i_type (inode_at st ip) <> T_DEV -> 0 <= inum_at st ip < NINODES ->
  0 <= i_size (inode_at st ip) <= MAXFILE * BSIZE -> 0 <= off -> 0 < n -> off + n <= i_size (inode_at st ip) ->
  exists st', writei mkfs_sb dev_write ip src s off n st = Ok (n, st') /\ writei_done mkfs_sb st st' ip src s off n.
Proof.
  intros Hlog Hf Hh Ht Hin Hs Ho Hn Hin'. assert (HM : MAXFILE * BSIZE = 71680) by done.
  pose proof (writei_ok mkfs_sb mkfs_sb_ok dev_write st ip src s off n Hf Hh Ht Hin Hs ltac:(lia) ltac:(lia)) as Hw.
  rewrite (proj2 (Z.ltb_ge (i_size _) off)), (proj2 (Z.ltb_ge (MAXFILE * BSIZE) (off + n))) in Hw by lia. cbn [orb] in Hw. destruct Hw as [Hw|[E|[_ ?]]]; [done | | lia]. exfalso. revert E.
  unfold writei. rewrite (proj2 (Z.eqb_neq _ _) Ht), !(u32_small (off + n)) by lia.
  rewrite (proj2 (Z.ltb_ge (i_size _) off)), (proj2 (Z.ltb_ge (off + n) off)), (proj2 (Z.ltb_ge (MAXFILE * BSIZE) (off + n))) by lia. cbn [orb].
  destruct (writei_loop_ok mkfs_sb mkfs_sb_ok (passes off n) ip src s off 0 n st Hf) as [(st1 & E & Hw & _)|[E|[E _]]]; [lia | lia | lia | | | |].
  { replace (n - 0) with n by lia. apply enough_passes. lia. }
  - rewrite E. cbn [rbind]. pose proof (meta_eq _ _ (wf_meta _ _ _ _ _ _ _ _ Hw)) as (_ & -> & _). replace (n - 0) with n by lia. by rewrite (proj2 (Z.ltb_ge (i_size _) (off + n))), andb_false_r by lia.
  - intros _. eapply writei_loop_runs; [exact Hf | exact Ho | | | exact E | done]; [lia|]. intros o Hoo. apply Hh; [apply Z.div_pos; unfold BSIZE; lia|]. pose proof (Z.mul_div_le o BSIZE ltac:(done)). lia.
  - by rewrite E.
Qed.

(** ** Clearing an entry *)

Section clear.
Context (d : disk) (G : Z -> Prop) (Htree : tree_ok d G) (dev_write : Z -> option (nat -> mem -> Z -> Z -> fs -> res (Z * fs))).
Context (L : list nat) (st : fs) (dp : nat) (p k : Z) (nm : list Z) (Hc : cache_ok d G L st) (He : entry st dp p) (HL : dp ∈ L) (Hty : i_type (slot d p) = T_DIR).
Context (Hk : 0 <= k < dir_count st dp) (Hm : dent_matches st dp nm k = true) (Hlog : room st 4).

Lemma cleared_lookup st' name0 name : set_in mkfs_sb st st' dp name0 0 k -> cache_ok (td (fs_t st')) G L st' -> entry st' dp p -> names_once st' dp ->
  lookup_dir (td (fs_t st')) p name = if bool_decide (name = nm) then None else lookup_dir d p name.
Proof using Htree Hc He HL Hty Hk Hm.
  clear dev_write. intros Hl Hc' He' Hone'. pose proof Hl as [_ _ Hn Hi _ Hot _]. pose proof (dir_names d G Htree L st dp p Hc He HL Hty) as Hone.
  assert (Hsame : forall i, 0 <= i < dir_count st dp -> i <> k -> dent_matches st' dp name i = dent_matches st dp name i).
  { intros i Hi' Hne. destruct (Hot i ltac:(lia) Hne) as [E1 E2]. unfold dent_matches. by rewrite E1, E2. }
  assert (Hgone : dent_matches st' dp name k = false) by (unfold dent_matches; by rewrite Hi).
  apply option_eq. intros i. rewrite (lookup_iff (td (fs_t st')) G L st' dp p Hc' He' HL name i Hone'). destruct (decide (name = nm)) as [->|En].
  - rewrite bool_decide_eq_true_2 by done. split; [|done]. intros (k' & Hk' & Hm' & _). assert (Hne : k' <> k) by congruence. rewrite Hsame in Hm' by lia. exfalso. apply Hne. unfold dent_matches in Hm, Hm'.
    apply andb_prop in Hm as [Hz%negb_true_iff%Z.eqb_neq Hnn%bool_decide_eq_true], Hm' as [Hz'%negb_true_iff%Z.eqb_neq Hn'%bool_decide_eq_true]. apply Hone; [lia | lia | done | done | congruence].
  - rewrite (bool_decide_eq_false_2 (name = nm)), (lookup_iff d G L st dp p Hc He HL name i Hone) by done. split; intros (k' & Hk' & Hm' & Ei).
    + assert (Hne : k' <> k) by congruence. rewrite Hsame in Hm' by lia. exists k'. split_and!; [lia | lia | done|]. destruct (Hot k' Hk' Hne) as [E _]. by rewrite <- E.
    + assert (Hne : k' <> k). { intros ->. unfold dent_matches in Hm, Hm'. apply andb_prop in Hm as [_ Hnn%bool_decide_eq_true], Hm' as [_ Hn'%bool_decide_eq_true]. congruence. }
      exists k'. destruct (Hot k' ltac:(lia) Hne) as [E _]. rewrite Hsame, E by lia. split_and!; [lia | lia | done | done].
Qed.

Lemma cleared_names st' name0 : set_in mkfs_sb st st' dp name0 0 k -> names_once st' dp.
Proof using Htree Hc He HL Hty Hk.
  clear dev_write Hm. intros [_ _ Hn Hi _ Hot _]. intros x y Hx Hy Hzx Hzy E. assert (x <> k /\ y <> k) as [Hxk Hyk] by (split; intros ->; congruence).
  destruct (Hot x Hx Hxk) as [X1 X2], (Hot y Hy Hyk) as [Y1 Y2]. apply (dir_names d G Htree L st dp p Hc He HL Hty); [lia | lia | congruence..].
Qed.

(** A zeroed entry written over entry [k]. *)
Lemma clear_tree : exists st', writei mkfs_sb dev_write dp (fun _ => 0) 0 (DIRENT_SIZE * k) DIRENT_SIZE st = Ok (DIRENT_SIZE, st') /\ dent_set d G L st dp p st' k /\
  logged (fs_t st') <= logged (fs_t st) + 4 /\ forall name, lookup_dir (td (fs_t st')) p name = if bool_decide (name = nm) then None else lookup_dir d p name.
Proof using Htree Hc He HL Hty Hk Hm Hlog.
  pose proof (held_loaded d G L st dp p Hc He HL) as Hld. pose proof (disk_dir_ok d G Htree st dp p L Hc He Hld Hty) as Hdir. destruct (dir_size mkfs_sb no_dev dev_write st dp Hdir) as [Hsz _].
  assert (HD : DIRENT_SIZE = 16) by done. assert (HM : MAXFILE * BSIZE = 71680) by done. pose proof Hdir as [D1 D2 D3 D4 D5 D6].
  pose proof (dent_touched k ltac:(lia)) as Ht. destruct (writei_fits dev_write st dp (fun _ => 0) 0 (DIRENT_SIZE * k) DIRENT_SIZE) as (st' & E & Hw); [rewrite Ht; change (log_cap mkfs_sb) with 29; unfold room in Hlog; lia | done | done | by rewrite D3 | exact D4 | lia | lia | lia | lia |].
  pose proof (write_dent mkfs_sb no_dev dev_write st st' dp (fun _ => 0) k Hdir ltac:(lia) ltac:(lia) Hw) as Hl. change (ld16 (fun _ => 0) 0) with 0 in Hl. pose proof (cleared_names st' _ Hl) as Hone'.
  pose proof (dent_tree d G Htree dev_write L st dp p Hc He HL Hty _ st' _ _ k E Hw Hl ltac:(done) Hone' ltac:(lia) ltac:(lia)) as Hds.
  pose proof (done_logged mkfs_sb mkfs_sb_ok st st' dp (fun _ => 0) 0 (DIRENT_SIZE * k) DIRENT_SIZE ltac:(lia) Hw) as Hlg. rewrite Ht in Hlg.
  exists st'. split; [exact E|]. split; [exact Hds|]. split; [lia|]. intros name. eapply cleared_lookup; [exact Hl | apply Hds | by apply (ds_entry _ _ _ _ _ _ _ _ Hds) | exact Hone'].
Qed.
End clear.

(** ** Empty directories *)

(** No entry after "." and "..". *)
Definition dir_empty (st : fs) (ip : nat) : bool := forallb (fun k => dent_inum st ip k =? 0) (seqZ 2 (dir_count st ip - 2)).

Lemma isdirempty_ok dev_read st ip : dir_ok mkfs_sb st ip -> isdirempty mkfs_sb dev_read ip st = Ok (dir_empty st ip, st).
Proof.
  intros Hd. destruct (dir_size mkfs_sb dev_read no_dev st ip Hd) as [Hs Hc]. assert (HD : DIRENT_SIZE = 16) by done. unfold isdirempty, dir_empty. replace (2 * DIRENT_SIZE) with (DIRENT_SIZE * 2) by lia. fold (dir_count st ip).
  assert (Hloop : forall fuel k, 0 <= k -> dir_count st ip - k < Z.of_nat fuel -> isdirempty_loop mkfs_sb dev_read fuel ip (DIRENT_SIZE * k) st = Ok (forallb (fun k => dent_inum st ip k =? 0) (seqZ k (dir_count st ip - k)), st)).
  2:{ apply Hloop; lia. }
  clear Hc. induction fuel as [|fuel IH]; intros k Hk Hf; cbn [isdirempty_loop]; (destruct (Z.ltb_spec (DIRENT_SIZE * k) (i_size (inode_at st ip))) as [Hlt|Hge]; [|by rewrite seqZ_nil by lia]); [lia|].
  destruct (read_dent mkfs_sb mkfs_sb_ok dev_read no_dev st ip (fun _ => 0) k Hd ltac:(lia)) as (de & E & _ & Hnum). rewrite E. cbn [rbind]. rewrite Z.eqb_refl. cbn [negb]. rewrite Hnum, seqZ_cons by lia. cbn [forallb].
  destruct (dent_inum st ip k =? 0); cbn [negb andb]; [|done]. replace (DIRENT_SIZE * k + DIRENT_SIZE) with (DIRENT_SIZE * Z.succ k) by lia. rewrite IH by lia. do 4 f_equal. lia.
Qed.

(** ** An inode that leaves the tree *)

(** Inode [j], which no directory names any more, is taken out of the tree. *)
Lemma tree_drop d d' G j : tree_ok d G -> j <> ROOTINO -> (forall i, G i -> i <> j -> untouched d d' i) -> meta_used mkfs_sb (mk_td d' ∅) ->
  (forall i name, G i -> i <> j -> i_type (slot d i) = T_DIR -> lookup_dir d i name <> Some j) -> tree_ok d' (fun i => G i /\ i <> j).
Proof.
  intros Ht Hroot Hu Hm Hno. split.
  - split; [apply (to_root d G Ht) | done].
  - intros i [Hi _]. by apply (to_range d G Ht).
  - intros i [Hi Hne]. rewrite (ut_slot _ _ _ (Hu i Hi Hne)). by apply (to_type d G Ht).
  - intros i [Hi Hne]. rewrite (ut_slot _ _ _ (Hu i Hi Hne)). by apply (to_link d G Ht).
  - intros i [Hi Hne]. destruct (to_file d G Ht i Hi) as [Hf Hh]. pose proof (to_size d G Ht i Hi) as Hs. split; [by apply (ut_file_ok d d' i (Hu i Hi Hne)) | apply (ut_no_holes d d' i (Hu i Hi Hne)); [lia | done]].
  - intros i [Hi Hne]. rewrite (ut_slot _ _ _ (Hu i Hi Hne)). by apply (to_size d G Ht).
  - intros i [Hi Hne]. rewrite (ut_slot _ _ _ (Hu i Hi Hne)). by apply (to_whole d G Ht).
  - intros i i' b [Hi Hne] [Hi' Hne'] Hii. rewrite (ut_owns d d' i (Hu i Hi Hne)), (ut_owns d d' i' (Hu i' Hi' Hne')). by apply (to_apart d G Ht).
  - intros i k [Hi Hne]. pose proof (Hu i Hi Hne) as Hui. pose proof (to_size d G Ht i Hi) as Hs. assert (Et : i_type (slot d' i) = i_type (slot d i)) by (by rewrite (ut_slot _ _ _ Hui)). rewrite Et, (ut_count d d' i Hui). intros Hty Hk. destruct (ut_entry d d' i Hui ltac:(lia) k Hk) as [-> _]. intros Hnz.
    split; [by apply (to_entry d G Ht)|]. intros E. apply (Hno i (dent_name (dfile d i) 0 k) Hi Hne Hty). rewrite lookup_entry; [by rewrite E | by apply (to_names d G Ht) | done | done].
  - intros i [Hi Hne] Hty k k'. pose proof (Hu i Hi Hne) as Hui. pose proof (to_size d G Ht i Hi) as Hs. rewrite (ut_slot _ _ _ Hui) in Hty. rewrite !(ut_count d d' i Hui). intros Hk Hk'.
    destruct (ut_entry d d' i Hui ltac:(lia) k Hk) as [-> ->], (ut_entry d d' i Hui ltac:(lia) k' Hk') as [-> ->]. by apply (to_names d G Ht i Hi Hty).
Qed.

Lemma ic_one st st' ip : length (fs_ic st') = length (fs_ic st) -> (ip < length (fs_ic st))%nat -> (forall q, q <> ip -> inode_at st' q = inode_at st q) -> fs_ic st' = <[ip := inode_at st' ip]> (fs_ic st).
Proof.
  intros Hlen Hip H. apply (list_eq_same_length _ _ (length (fs_ic st))); [by rewrite length_insert | done|]. intros q x y Hq E E'. destruct (decide (q = ip)) as [->|Hne].
  - rewrite list_lookup_insert_eq in E' by done. unfold inode_at in E'. rewrite nth_lookup, E in E'. by injection E'.
  - rewrite list_lookup_insert_ne in E' by done. specialize (H q Hne). unfold inode_at in H. by rewrite !nth_lookup, E, E' in H.
Qed.

(** The last [iput] of the last link. *)
Section drop.
Context (d : disk) (G : Z -> Prop) (Htree : tree_ok d G) (st : fs) (ip : nat) (j : Z) (Hc : cache_ok d G [ip] st) (He : entry st ip j).
Context (Hlink : i_nlink (slot d j) = 1) (Href : i_ref (inode_at st ip) = 1) (Hlog : room st 4).

Lemma drop_runs : exists st1 st', iupdate mkfs_sb ip (add_nlink ip (-1) st) = Ok st1 /\ iunlockput mkfs_sb ip st1 = Ok st' /\ released st st' ip.
Proof using Htree Hc He Hlink Href Hlog.
  assert (HL : ip ∈ [ip]) by left. pose proof (held_loaded d G [ip] st ip j Hc He HL) as Hld. pose proof (dir_member d G st ip j [ip] Hc He) as Hj. pose proof (co_t _ _ _ _ Hc) as Hd. pose proof Hld as (E1 & E2 & E3 & E4). pose proof He as (Hip & Hr & Hn).
  destruct (co_held _ _ _ _ Hc ip HL) as (_ & _ & Hv). pose proof (co_lock _ _ _ _ Hc ip Hip) as Hlk. rewrite bool_decide_eq_true_2 in Hlk by done.
  destruct (tree_inode d G j Htree Hj) as [I1 I2 I3 I4 I5 I6 I7 I8 I9]. pose proof (loaded_file_ok d j st ip Hd Hip Hld I4) as Hf.
  unfold add_nlink. rewrite E2, Hlink. change (s16 (1 + -1)) with 0. set (x := set_nlink (inode_at st ip) 0). assert (Ex : inode_at (set_inode st ip x) ip = x) by by apply inode_at_set.
  rewrite iupdate_puts; [|unfold room in *; cbn; lia | rewrite Ex; change (i_inum x) with (inum_at st ip); lia]. rewrite Ex. change (i_inum x) with (inum_at st ip). rewrite Hn. set (st1 := mk_fs _ _).
  assert (Ex1 : inode_at st1 ip = x) by exact Ex. assert (Hl1 : length (fs_ic st1) = length (fs_ic st)) by apply (set_length st).
  enough (exists st', iunlockput mkfs_sb ip st1 = Ok st' /\ released st st' ip) as (st' & E & H) by (by exists st1, st').
  unfold iunlockput, iunlock. rewrite Ex1. change (i_locked x) with (i_locked (inode_at st ip)). change (i_ref x) with (i_ref (inode_at st ip)). rewrite Hlk, Href. change (negb true || (1 <? 1)) with false. cbv iota. cbn [rbind].
  set (st2 := set_inode st1 ip (set_ilock x false)). assert (Ex2 : inode_at st2 ip = set_ilock x false) by (apply inode_at_set; by rewrite Hl1). pose proof (iblock_range j ltac:(lia)) as (Hb & _).
  assert (Hbm : IBLOCK j sb <> sb_bmapstart mkfs_sb) by (change (sb_bmapstart mkfs_sb) with 58; lia).
  assert (Hu2 : forall b, 0 <= b < sb_size mkfs_sb -> used mkfs_sb (fs_t st2) b = used mkfs_sb (fs_t st) b) by (intros b Hrb; by apply (used_tput mkfs_sb mkfs_sb_ok)).
  assert (Hsf : same_file mkfs_sb st st2 ip).
  { split; [by rewrite Ex2 | | done | unfold st2; by rewrite set_length]. intros b Ho. apply dset_ne. apply (IBLOCK_not_owned mkfs_sb mkfs_sb_ok st ip j b Hf); [change (sb_ninodes mkfs_sb) with NINODES; lia | done]. }
  pose proof (same_owns mkfs_sb st st2 ip Hsf) as Ho. assert (Hn2 : inum_at st2 ip = j) by (by rewrite Ex2).
  assert (Hlog2 : room st2 3).
  { unfold room, st2, st1 in *. cbn [set_inode fs_t]. match goal with |- logged (tput ?t ?b ?m) + _ <= _ => pose proof (logged_put t b m) end. cbn [set_inode fs_t] in *. lia. }
  destruct (iput_frees st2 ip Hlog2 (same_file_ok mkfs_sb mkfs_sb_ok st st2 ip Hf Hsf)) as (st' & E & [R1 R2 R3 R4 R5 R6 R7 R8]); [lia | by rewrite Ex2 | by rewrite Ex2 | by rewrite Ex2 | by rewrite Ex2|].
  exists st'. split; [exact E|]. rewrite Hn2 in *. split; rewrite ?Hn.
  - rewrite R1. unfold st2. by rewrite set_length.
  - intros q Hq. rewrite R2 by done. unfold st2. rewrite inode_at_set_ne by done. by apply (inode_at_set_ne st).
  - exact R3.
  - intros b Hob. apply R4. by apply Ho.
  - intros b Hrb Hnb. rewrite R5; [by apply Hu2 | done | by rewrite Ho].
  - intros b H1 H2. rewrite R6 by done. by apply dset_ne.
  - intros o Hoo. rewrite R7 by done. change (td (fs_t st2) (IBLOCK j sb)) with (dset (td (fs_t st)) (IBLOCK j sb) (dinode_put (td (fs_t st) (IBLOCK j sb)) (dip_off j) x) (IBLOCK j sb)). rewrite dset_eq. apply dinode_put_out; [apply Hf | done].
  - exact R8.
Qed.

Lemma drop_untouched st' i : released st st' ip -> G i -> i <> j -> untouched d (td (fs_t st')) i.
Proof using Htree Hc He.
  clear Hlink Href Hlog. intros [R1 R2 R3 R4 R5 R6 R7 R8] Hi Hne. assert (HL : ip ∈ [ip]) by left. pose proof (held_loaded d G [ip] st ip j Hc He HL) as Hld. pose proof (dir_member d G st ip j [ip] Hc He) as Hj. pose proof (co_t _ _ _ _ Hc) as Hd.
  pose proof He as (Hip & Hr & Hn). rewrite Hn in *. destruct (to_file d G Htree i Hi) as [Hf _]. pose proof (to_range d G Htree i Hi) as Hir. pose proof (to_range d G Htree j Hj) as Hjr. pose proof (iblock_range i ltac:(lia)) as (Hb & _). rewrite Hd in *. split.
  - apply (slot_other d _ j i); [lia | lia | done | | done]. intros Hbb. apply R6; [change (sb_bmapstart mkfs_sb) with 58; lia | done].
  - intros b Ho. destruct (owned_facts mkfs_sb mkfs_sb_ok _ _ _ Hf Ho) as (Hrb & Hbm & _). apply R6; [done|]. apply (IBLOCK_not_owned mkfs_sb mkfs_sb_ok (dfile d i) 0 j b Hf); [change (sb_ninodes mkfs_sb) with NINODES; lia | done].
  - intros b Ho. destruct (owned_facts mkfs_sb mkfs_sb_ok _ _ _ Hf Ho) as (Hrb & _ & Hu). unfold used in *. cbn [td]. unfold used in R5. rewrite R5; [by rewrite Hd | done|]. rewrite (loaded_owns d j st ip Hd Hld). intros Hoj. by apply (to_apart d G Htree i j b).
Qed.

Lemma drop_cache st' : released st st' ip -> cache_ok (td (fs_t st')) (fun i => G i /\ i <> j) [] st' /\ forall i, refs st' i = refs st i - one j i.
Proof using Htree Hc He Href.
  clear Hlink Hlog. intros HR. pose proof (drop_untouched st') as Hu. pose proof HR as [R1 R2 (R3 & R3' & R3'') R4 R5 R6 R7 R8]. pose proof He as (Hip & Hr & Hn). pose proof (co_ic _ _ _ _ Hc) as [Hpos Huniq]. destruct (co_live _ _ _ _ Hc ip Hip Hr) as (Hdev & _). split.
  - split; [done | split | | |]; rewrite ?R1.
    + intros q Hq. destruct (decide (q = ip)) as [->|Hne]; [by rewrite R3 | rewrite R2 by done; auto].
    + intros q q' dev n Hq Hq' Hl Hl'. assert (Hnot : live_for dev n (inode_at st' ip) = false) by (unfold live_for; by rewrite R3).
      assert (q <> ip /\ q' <> ip) as [Hqi Hqi'] by (split; intros ->; congruence). rewrite R2 in Hl, Hl' by done. by apply (Huniq q q' dev n).
    + intros q Hq Hrq. assert (Hqi : q <> ip) by (intros ->; lia). rewrite R2 in * by done. destruct (co_live _ _ _ _ Hc q Hq Hrq) as (Hdq & Hg & Hl).
      assert (Hnj : inum_at st q <> j). { intros E. apply Hqi. apply (Huniq q ip ROOTDEV j Hq Hip); unfold live_for; [rewrite Hdq, E | rewrite Hdev, Hn]; rewrite !Z.eqb_refl, (proj2 (Z.ltb_lt _ _)) by done; done. }
      split_and!; [done | done | done|]. intros Hv. specialize (Hl Hv). unfold loaded in *. by rewrite (ut_slot _ _ _ (Hu _ HR Hg Hnj)).
    + intros q Hq. rewrite bool_decide_eq_false_2 by set_solver. destruct (decide (q = ip)) as [->|Hne]; [done|]. rewrite R2, (co_lock _ _ _ _ Hc) by done. apply bool_decide_eq_false_2. set_solver.
    + intros q Hq. set_solver.
  - intros i. unfold refs. rewrite (ic_one st st' ip R1 Hip R2), refs_insert by done. change (nth ip (fs_ic st) no_inode) with (inode_at st ip). rewrite (weight_same i (inode_at st' ip) (inode_at st ip) R3''), R3, Href, Hn. lia.
Qed.

Lemma drop_ok : j <> ROOTINO -> (forall i name, G i -> i <> j -> i_type (slot d i) = T_DIR -> lookup_dir d i name <> Some j) ->
  exists st1 st', iupdate mkfs_sb ip (add_nlink ip (-1) st) = Ok st1 /\ iunlockput mkfs_sb ip st1 = Ok st' /\ let d' := td (fs_t st') in let G' i := G i /\ i <> j in
  tree_ok d' G' /\ cache_ok d' G' [] st' /\ (forall i, G i -> i <> j -> untouched d d' i) /\ (forall i, refs st' i = refs st i - one j i) /\ length (fs_ic st') = length (fs_ic st) /\
  i_type (slot d' j) = 0 /\ forall b, owns (dfile d j) 0 b -> used mkfs_sb (mk_td d' ∅) b = false.
Proof using Htree Hc He Hlink Href Hlog.
  intros Hroot Hno. destruct drop_runs as (st1 & st' & E1 & E2 & HR). exists st1, st'. split; [done|]. split; [done|]. cbv zeta. destruct (drop_cache st' HR) as [Hc' Hr']. pose proof (fun i => drop_untouched st' i HR) as Hu.
  pose proof HR as [R1 R2 R3 R4 R5 R6 R7 R8]. pose proof He as (Hip & Hr & Hn). rewrite Hn in *. assert (HL : ip ∈ [ip]) by left. pose proof (held_loaded d G [ip] st ip j Hc He HL) as Hld. pose proof (co_t _ _ _ _ Hc) as Hd.
  pose proof (dir_member d G st ip j [ip] Hc He) as Hj. destruct (to_file d G Htree j Hj) as [Hf _]. split_and!; try done.
  - apply (tree_drop d _ G j Htree Hroot Hu); [|done]. intros b Hb. change (used mkfs_sb (fs_t st') b = true).
    assert (Hds : data_start mkfs_sb <= sb_size mkfs_sb) by (rewrite (data_start_eq mkfs_sb mkfs_sb_ok); change (sb_bmapstart mkfs_sb) with 58; change (sb_size mkfs_sb) with 1000; lia).
    rewrite R5; [| lia |].
    + pose proof (fo_meta _ _ _ Hf b Hb) as Hm. unfold used in *. by rewrite Hd.
    + rewrite (loaded_owns d j st ip Hd Hld). intros Ho. pose proof (fo_range _ _ _ Hf b Ho). lia.
  - intros b Ho. apply R4. by apply (loaded_owns d j st ip Hd Hld).
Qed.
End drop.

(** ** The name and then the inode *)

Lemma cache_end d G L st : cache_ok d G L st -> cache_ok d G L (op_end st).
Proof. by intros [C1 C2 C3 C4 C5]. Qed.

Lemma ref_one d G L st ip j : cache_ok d G L st -> entry st ip j -> refs st j = 1 -> i_ref (inode_at st ip) = 1.
Proof.
  intros Hc (Hip & Hr & Hn) H1. pose proof (co_ic _ _ _ _ Hc) as [Hpos _]. destruct (refs_ge (inode_at st ip) (fs_ic st)) as [_ Hge].
  - apply (Forall_nth _ no_inode). intros q Hq. by apply Hpos.
  - rewrite Hn in Hge. unfold refs in H1. rewrite H1 in Hge. enough (i_ref (inode_at st ip) <= 1) by lia. apply Hge. apply list_elem_of_In, nth_In. done.
Qed.

(** Directory [p] lost the name [nm]; a directory that goes away takes a link
    of its parent with it. *)
Record unnamed (d d' : disk) (G : Z -> Prop) (p : Z) (nm : list Z) (lost : bool) : Prop := {
  un_other i : G i -> i <> p -> untouched d d' i;
  un_lookup name : lookup_dir d' p name = if bool_decide (name = nm) then None else lookup_dir d p name;
  un_slot : let x := slot d p in let x' := slot d' p in i_type x' = i_type x /\ i_size x' = i_size x /\ i_nlink x' = i_nlink x - Z.b2z lost
}.

Section unname.
Context (d : disk) (G : Z -> Prop) (Htree : tree_ok d G) (dev_write : Z -> option (nat -> mem -> Z -> Z -> fs -> res (Z * fs))).
Context (L : list nat) (st : fs) (dp : nat) (p k : Z) (nm : list Z) (Hc : cache_ok d G L st) (He : entry st dp p) (HL : dp ∈ L) (Hty : i_type (slot d p) = T_DIR).
Context (Hk : 0 <= k < dir_count st dp) (Hm : dent_matches st dp nm k = true) (lost : bool) (Hlost : lost = true -> 1 < i_nlink (slot d p)) (Hlog : room st 5).

Lemma unname_ok : exists st1 st', writei mkfs_sb dev_write dp (fun _ => 0) 0 (DIRENT_SIZE * k) DIRENT_SIZE st = Ok (DIRENT_SIZE, st1) /\
  (forall q, q <> dp -> inode_at st1 q = inode_at st q) /\ (if lost then iupdate mkfs_sb dp (add_nlink dp (-1) st1) else Ok st1) = Ok st' /\
  let d' := td (fs_t st') in tree_ok d' G /\ cache_ok d' G L st' /\ unnamed d d' G p nm lost /\
  (forall i, refs st' i = refs st i) /\ (forall q n, entry st q n -> entry st' q n) /\ length (fs_ic st') = length (fs_ic st) /\ logged (fs_t st') <= logged (fs_t st) + 5.
Proof using Htree Hc He HL Hty Hk Hm Hlost Hlog.
  pose proof (held_loaded d G L st dp p Hc He HL) as Hld. pose proof (disk_dir_ok d G Htree st dp p L Hc He Hld Hty) as Hdir. destruct (dir_size mkfs_sb no_dev dev_write st dp Hdir) as [Hsz _]. assert (HD : DIRENT_SIZE = 16) by done. pose proof Hld as (_ & _ & E3 & _).
  destruct (clear_tree d G Htree dev_write L st dp p k nm Hc He HL Hty Hk Hm ltac:(unfold room in *; lia)) as (st1 & E1 & [T1 T2 T3 (T4 & T5 & T6) T7 T8 T9 T10] & Hlg & Hlk). exists st1. assert (Hsz1 : i_size (slot (td (fs_t st1)) p) = i_size (slot d p)) by lia.
  destruct lost.
  - pose proof (slot_type d p) as [_ Hb]. destruct (bump_tree _ G T1 L st1 dp p (-1) T2 (T8 _ _ He) HL) as (st' & -> & B1 & B2 & [B3 (B4 & B5 & B6) B7 _] & B8 & B9 & B10 & B11); [specialize (Hlost eq_refl); lia | unfold room in *; lia|].
    exists st'. cbv zeta. split_and!; try done; [split | intros i; by rewrite B8, T7 | auto | congruence | lia].
    + intros i Hi Hne. eapply untouched_trans; [by apply T3 | by apply B3].
    + intros name. by rewrite B7.
    + cbn [Z.b2z]. split_and!; [congruence | congruence | lia].
  - exists st1. cbv zeta. split_and!; try done; [|lia]. split; [done | done|]. cbn [Z.b2z]. split_and!; [done | done | lia].
Qed.
End unname.

(** Disk [d'] is [d] without the name [nm] of inode [j] in directory [p], and
    without [j] and its blocks if that was the last one. *)
Record unlinked (d d' : disk) (G : Z -> Prop) (p : Z) (nm : list Z) (j : Z) : Prop := {
  ul_other i : G i -> i <> p -> i <> j -> untouched d d' i;
  ul_lookup name : lookup_dir d' p name = if bool_decide (name = nm) then None else lookup_dir d p name;
  ul_parent : let x := slot d p in let x' := slot d' p in
    i_type x' = i_type x /\ i_size x' = i_size x /\ i_nlink x' = i_nlink x - Z.b2z (i_type (slot d j) =? T_DIR);
  ul_left : 1 < i_nlink (slot d j) -> let x := slot d j in let x' := slot d' j in
    i_type x' = i_type x /\ i_size x' = i_size x /\ i_nlink x' = i_nlink x - 1 /\
    forall off, 0 <= off < MAXFILE * BSIZE -> content (dfile d' j) 0 off = content (dfile d j) 0 off;
  ul_freed : i_nlink (slot d j) = 1 -> i_type (slot d' j) = 0 /\ forall b, owns (dfile d j) 0 b -> used mkfs_sb (mk_td d' ∅) b = false
}.

(** The name is the last one of [j], and nobody has [j] open. *)
Definition last_name (d : disk) (G : Z -> Prop) (st : fs) (p : Z) (nm : list Z) (j : Z) : Prop :=
  refs st j = 0 /\ j <> ROOTINO /\ forall i name, G i -> i <> j -> i_type (slot d i) = T_DIR -> lookup_dir d i name = Some j -> i = p /\ name = nm.

(** The inodes of the tree afterwards. *)
Definition remaining (d : disk) (G : Z -> Prop) (j : Z) : Z -> Prop := fun i => G i /\ (i = j -> 1 < i_nlink (slot d j)).

Lemma tree_iff d (G G' : Z -> Prop) : (forall i, G i <-> G' i) -> tree_ok d G -> tree_ok d G'.
Proof. intros H [T1 T2 T3 T4 T5 T6 T7 T8 T9 T10]. split; try (intros i Hi%H; eauto); [by apply H | intros i i' b Hi%H Hi'%H; eauto | intros i k Hi%H ???; apply H; eauto]. Qed.

Lemma cache_iff d (G G' : Z -> Prop) L st : (forall i, G i <-> G' i) -> cache_ok d G L st -> cache_ok d G' L st.
Proof. intros H [C1 C2 C3 C4 C5]. split; try done. intros ip Hip Hr. rewrite <- H. auto. Qed.

Section inode.
Context (d : disk) (G : Z -> Prop) (Htree : tree_ok d G) (p : Z) (nm : list Z) (j : Z) (Hp : G p) (Hj : G j) (Hjp : j <> p).
Context (st0 st : fs) (ip : nat) (Hd' : tree_ok (td (fs_t st)) G) (Hc : cache_ok (td (fs_t st)) G [ip] st) (He : entry st ip j).
Context (Hun : unnamed d (td (fs_t st)) G p nm (i_type (slot d j) =? T_DIR)) (Hrefs : forall i, refs st i = refs st0 i + one j i) (Hlog : room st 4).

Lemma unlink_inode : (i_nlink (slot d j) = 1 -> last_name d G st0 p nm j) -> exists st1 st', iupdate mkfs_sb ip (add_nlink ip (-1) st) = Ok st1 /\ iunlockput mkfs_sb ip st1 = Ok st' /\
  let d' := td (fs_t st') in let G' := remaining d G j in tree_ok d' G' /\ cache_ok d' G' [] st' /\ unlinked d d' G p nm j /\ (forall i, refs st' i = refs st0 i) /\ length (fs_ic st') = length (fs_ic st).
Proof using Htree Hp Hj Hjp Hd' Hc He Hun Hrefs Hlog.
  intros Hlast. pose proof Hun as [U1 U2 (U3 & U4 & U5)]. pose proof (U1 j Hj Hjp) as Uj. pose proof (ut_slot _ _ _ Uj) as Sj. pose proof (to_link d G Htree j Hj) as Hl0. pose proof (to_size d G Htree j Hj) as Hzj. pose proof (to_size _ G Hd' p Hp) as Hzp.
  destruct (slot_type d j) as [_ Hb]. assert (Hip : ip ∈ [ip]) by left. destruct (Z.lt_ge_cases 1 (i_nlink (slot d j))) as [Hmore|Hone].
  - destruct (bump_tree _ G Hd' [ip] st ip j (-1) Hc He Hip) as (st1 & E1 & B1 & B2 & [B3 (B4 & B5 & B6) B7 B8] & B9 & B10 & B11 & _); [rewrite Sj; lia | unfold room in *; lia|].
    destruct (iunlockput_cache _ G B1 [] st1 ip j B2 (not_elem_of_nil ip) (B10 _ _ He)) as (st' & E2 & C1 & C2 & [C3 C4] & _). exists st1, st'. split; [done|]. split; [done|]. cbv zeta. rewrite C3.
    assert (HG : forall i, G i <-> remaining d G j i) by (intros i; unfold remaining; tauto). pose proof (B3 p Hp (not_eq_sym Hjp)) as Up.
    split_and!; [by apply (tree_iff _ G) | by apply (cache_iff _ G) | | intros i; rewrite C2, B9, Hrefs; lia | congruence]. split.
    + intros i Hi Hip' Hij. eapply untouched_trans; [by apply U1 | by apply B3].
    + intros name. rewrite (ut_lookup _ _ p Up ltac:(lia)). apply U2.
    + cbv zeta. rewrite (ut_slot _ _ _ Up). by split_and!.
    + intros _. cbv zeta. rewrite B4, B5, B6, Sj. split_and!; [done | done | lia|]. intros off Hoff. rewrite B8 by done. by apply (ut_content _ _ j Uj).
    + lia.
  - assert (Hn1 : i_nlink (slot d j) = 1) by lia. destruct (Hlast Hn1) as (Hr0 & Hroot & Honly). assert (Hr1 : refs st j = 1) by (rewrite Hrefs, Hr0; unfold one; by rewrite Z.eqb_refl).
    destruct (drop_ok _ G Hd' st ip j Hc He) as (st1 & st' & E1 & E2 & D1 & D2 & D3 & D4 & D5 & D6 & D7); [by rewrite Sj | by apply (ref_one (td (fs_t st)) G [ip] st ip j) | done | done | |].
    { intros i name Hi Hij Hty. destruct (decide (i = p)) as [->|Hip'].
      - rewrite U2. destruct (decide (name = nm)) as [->|Hne]; [by rewrite bool_decide_eq_true_2 by done|]. rewrite (bool_decide_eq_false_2 (name = nm)) by done. rewrite U3 in Hty. intros E. by destruct (Honly p name Hp Hij Hty E).
      - pose proof (U1 i Hi Hip') as Ui. pose proof (to_size d G Htree i Hi) as Hzi. rewrite (ut_slot _ _ _ Ui) in Hty. rewrite (ut_lookup _ _ i Ui ltac:(lia)). intros E. by destruct (Honly i name Hi Hij Hty E). }
    exists st1, st'. split; [done|]. split; [done|]. cbv zeta in *. assert (HG : forall i, G i /\ i <> j <-> remaining d G j i) by (intros i; unfold remaining; split; intros [? H]; (split; [done|]); [done | intros ->; specialize (H eq_refl); lia]).
    pose proof (D3 p Hp (not_eq_sym Hjp)) as Up. split_and!; [by apply (tree_iff _ (fun i => G i /\ i <> j)) | by apply (cache_iff _ (fun i => G i /\ i <> j)) | | intros i; rewrite D4, Hrefs; lia | done]. split.
    + intros i Hi Hip' Hij. eapply untouched_trans; [by apply U1 | by apply D3].
    + intros name. rewrite (ut_lookup _ _ p Up ltac:(lia)). apply U2.
    + cbv zeta. rewrite (ut_slot _ _ _ Up). by split_and!.
    + lia.
    + intros _. split; [done|]. intros b Ho. apply D7. by apply (ut_owns _ _ j Uj).
Qed.
End inode.

(** ** sys_unlink *)

(** It returned -1 and left everything as it was. *)
Definition call_fails (d : disk) (G : Z -> Prop) (st : fs) (k : kern) (r : res (sysret * kern)) : Prop :=
  exists st', r = Ok (SRet (-1), set_fs k st') /\ cache_ok d G [] st' /\ length (fs_ic st') = length (fs_ic st) /\ forall i, refs st' i = refs st i.

(** It returned 0 and the name is gone. *)
Definition unlink_done (d : disk) (G : Z -> Prop) (st : fs) (k : kern) (p : Z) (nm : list Z) (j : Z) (r : res (sysret * kern)) : Prop :=
  exists st', r = Ok (SRet 0, set_fs k st') /\ let d' := td (fs_t st') in tree_ok d' (remaining d G j) /\ cache_ok d' (remaining d G j) [] st' /\ unlinked d d' G p nm j /\
    length (fs_ic st') = length (fs_ic st) /\ forall i, refs st' i = refs st i.

Section unlink.
Context (d : disk) (G : Z -> Prop) (Htree : tree_ok d G).
Context (dev_read : Z -> option (nat -> mem -> Z -> Z -> fs -> res (Z * mem * fs))) (dev_write : Z -> option (nat -> mem -> Z -> Z -> fs -> res (Z * fs))).
Context (k : kern) (st0 : fs).

Lemma unlink_bad_ok st dp p : cache_ok d G [dp] st -> entry st dp p -> length (fs_ic st) = length (fs_ic st0) -> (forall i, refs st i = refs st0 i + one p i) ->
  call_fails d G st0 k (unlink_bad mkfs_sb k dp st).
Proof using Htree.
  intros Hc He Hlen Hr. unfold unlink_bad. destruct (iunlockput_cache d G Htree [] st dp p Hc (not_elem_of_nil dp) He) as (st' & -> & Hc' & Hr' & [_ Hs] & _). cbn [rbind].
  exists (op_end st'). split_and!; [done | by apply cache_end | cbn; congruence |]. intros i. change (refs (op_end st') i) with (refs st' i). rewrite Hr', Hr. lia.
Qed.

Context (st : fs) (dp ip : nat) (p j idx : Z) (nm : list Z) (Hc : cache_ok d G [dp] st) (Hdp : entry st dp p) (Hip : entry st ip j) (Hty : i_type (slot d p) = T_DIR) (Hjp : j <> p).
Context (Hk : 0 <= idx < dir_count st dp) (Hm : dent_matches st dp nm idx = true) (Hlen : length (fs_ic st) = length (fs_ic st0)) (Hr : forall i, refs st i = refs st0 i + one p i + one j i) (Hlog : room st 9).

Lemma unlink_entry_ok : let r := unlink_entry mkfs_sb dev_read dev_write k dp ip (DIRENT_SIZE * idx) st in let isdir := i_type (slot d j) =? T_DIR in
  if isdir && negb (dir_empty (dfile d j) 0) then call_fails d G st0 k r
  else (isdir = true -> 1 < i_nlink (slot d p)) -> (i_nlink (slot d j) = 1 -> last_name d G st0 p nm j) -> unlink_done d G st0 k p nm j r.
Proof using Htree Hc Hdp Hip Hty Hjp Hk Hm Hlen Hr Hlog.
  intros r isdir. assert (Hne : ip <> dp) by (intros ->; apply Hjp; destruct Hdp as (_ & _ & <-), Hip as (_ & _ & <-); done). assert (Hni : ip ∉ [dp]) by set_solver.
  unfold r, unlink_entry. destruct (ilock_cache d G Htree [dp] st ip j Hc Hni Hip) as (st1 & -> & Hc1 & He1 & Hld1 & Hr1 & [Ht1 Hl1] & Ho1). cbn [rbind]. pose proof Hld1 as (T1 & T2 & T3 & T4).
  pose proof (dir_member d G st1 ip j _ Hc1 He1) as Hj. pose proof (to_link d G Htree j Hj) as Hlk. rewrite (proj2 (Z.ltb_ge (i_nlink (inode_at st1 ip)) 1)) by lia. rewrite T1. fold isdir.
  assert (Hd1 : entry st1 dp p) by (destruct Hdp as (A1 & A2 & A3); unfold entry; by rewrite Hl1, (Ho1 dp (not_eq_sym Hne))). pose proof (dir_member d G st1 dp p _ Hc1 Hd1) as Hp.
  assert (Hem : (if isdir then isdirempty mkfs_sb dev_read ip st1 else Ok (true, st1)) = Ok (negb (isdir && negb (dir_empty (dfile d j) 0)), st1)).
  { destruct isdir eqn:Hdj; [|done]. apply Z.eqb_eq in Hdj. rewrite isdirempty_ok by (by apply (disk_dir_ok d G Htree st1 ip j _ Hc1)). cbn [andb]. rewrite negb_involutive. unfold dir_empty. rewrite (disk_count d st1 ip j Hld1). do 2 f_equal.
    induction (seqZ _ _) as [|x l IH]; [done|]. cbn [forallb]. by rewrite IH, (disk_inum d G st1 ip j _ Hc1 Hld1). }
  rewrite Hem. cbn [rbind]. rewrite negb_involutive. destruct (isdir && negb (dir_empty (dfile d j) 0)).
  - destruct (iunlockput_cache d G Htree [dp] st1 ip j Hc1 Hni He1) as (st2 & -> & Hc2 & Hr2 & [_ Hl2] & Hk2). cbn [rbind]. eapply unlink_bad_ok; [exact Hc2 | apply Hk2; [by left; apply not_eq_sym | exact Hd1] | congruence|].
    intros i. rewrite Hr2, Hr1, Hr. lia.
  - intros Hlost Hlast. assert (Hin : dp ∈ [ip; dp]) by set_solver. assert (Ex : inode_at st1 dp = inode_at st dp) by (by apply Ho1, not_eq_sym).
    assert (Hdent : forall x, dent st1 dp idx x = dent st dp idx x) by (intros x; unfold dent, content, fblock, ind; by rewrite Ex, Ht1).
    destruct (unname_ok d G Htree dev_write [ip; dp] st1 dp p idx nm Hc1 Hd1 Hin Hty) with (lost := isdir) as (st2 & st3 & -> & Ho2 & E3 & N1 & N2 & N3 & N4 & N5 & N6 & N7); [| | done | unfold room in *; rewrite Ht1; lia |].
    { unfold dir_count. by rewrite Ex. }
    { assert (A1 : dent_inum st1 dp idx = dent_inum st dp idx) by (by apply ld16_ext). assert (A2 : dent_name st1 dp idx = dent_name st dp idx) by (by apply cstrn_ext). rewrite <- Hm. unfold dent_matches. by rewrite A1, A2. }
    cbn [rbind]. rewrite Z.eqb_refl. cbn [negb]. rewrite (Ho2 ip Hne), T1. fold isdir. rewrite E3. cbn [rbind].
    assert (Hc3 : cache_ok (td (fs_t st3)) G [dp; ip] st3) by (eapply cache_perm; [|exact N2]; set_solver).
    destruct (iunlockput_cache _ G N1 [ip] st3 dp p Hc3) as (st4 & -> & Hc4 & Hr4 & [Ht4 Hl4] & Hk4); [set_solver | by apply N5|]. cbn [rbind]. rewrite <- Ht4 in N1, N3, Hc4.
    destruct (unlink_inode d G Htree p nm j Hp Hj Hjp st0 st4 ip N1 Hc4) as (st5 & st6 & -> & E6 & Q1 & Q2 & Q3 & Q4 & Q5); [apply Hk4; [by left | by apply N5] | exact N3 | intros i; rewrite Hr4, N4, Hr1, Hr; lia | unfold room in *; rewrite Ht4; rewrite Ht1 in N7; lia | exact Hlast|].
    cbn [rbind]. rewrite E6. cbn [rbind]. exists (op_end st6). cbv zeta. split_and!; [done | exact Q1 | by apply cache_end | exact Q3 | cbn; congruence | exact Q4].
Qed.
End unlink.

(** A string argument ends before its first zero. *)
Lemma argpath_nonzero k me n path : argpath k me n = Some path -> Forall (fun b => b <> 0) path.
Proof.
  assert (Hloop : forall f s len len', fetchstr_loop k me f s len = Some len' -> forall i, 0 <= i < len' - len -> umem k me (s + i) <> 0).
  { induction f as [|f IH]; intros s len len'; cbn [fetchstr_loop]; [done|]. destruct (Z.eqb_spec (umem k me s) 0) as [E|E].
    - intros [= <-] i Hi. lia.
    - intros H i Hi. destruct (decide (i = 0)) as [->|Hne]; [by rewrite Z.add_0_r|]. replace (s + i) with (s + 1 + (i - 1)) by lia. apply (IH _ _ _ H). lia. }
  unfold argpath, argstr, fetchstr. destruct (argint k me n) as [a|]; [|done]. destruct (_ <=? _); [done|]. destruct (fetchstr_loop _ _ _ _ _) as [len|] eqn:E; [|done]. intros [= <-].
  apply (Forall_nth _ 0). intros i Hi. rewrite length_mread in Hi. rewrite nth_mread by done. apply (Hloop _ _ _ _ E). lia.
Qed.

Section call.
Context (d : disk) (G : Z -> Prop) (Htree : tree_ok d G).
Context (dev_read : Z -> option (nat -> mem -> Z -> Z -> fs -> res (Z * mem * fs))) (dev_write : Z -> option (nat -> mem -> Z -> Z -> fs -> res (Z * fs))).
Context (k : kern) (me : nat) (l : list Z) (c : Z) (path : list Z).
Abbreviation st := (ffs (kfiles k)).
Context (Hc : cache_ok d G [] st) (Hl : forall j, refs st j <> 0 -> j ∈ l) (Hroom : (length l + 2 <= length (fs_ic st))%nat).
Context (Harg : argpath k me 0 = Some path) (Hcwd : absolute path = false -> entry st (cwd_of k me) c).
Abbreviation start := (if absolute path then ROOTINO else c).
Abbreviation nm := (take (Z.to_nat DIRSIZ) (List.last (path_elems path) [])).

(** What the call does, by what the path leads to. *)
Definition unlink_spec (r : res (sysret * kern)) : Prop :=
  match resolve_parent d start (path_elems path) with
  | None => call_fails d G st k r
  | Some p =>
      if bool_decide (nm = DOT) || bool_decide (nm = DOTDOT) then call_fails d G st k r
      else match lookup_dir d p nm with
           | None => call_fails d G st k r
           | Some j =>
               let isdir := i_type (slot d j) =? T_DIR in j <> p ->
               if isdir && negb (dir_empty (dfile d j) 0) then call_fails d G st k r
               else (isdir = true -> 1 < i_nlink (slot d p)) -> (i_nlink (slot d j) = 1 -> last_name d G st p nm j) -> unlink_done d G st k p nm j r
           end
  end.

Lemma sys_unlink_ok : unlink_spec (sys_unlink mkfs_sb dev_read dev_write me k).
Proof using Htree Hc Hl Hroom Harg Hcwd.
  unfold unlink_spec, sys_unlink. rewrite Harg. unfold nameiparent. set (st0 := op_begin st). assert (Hc0 : cache_ok d G [] st0) by (by apply cache_end).
  destruct (namex_resolves d G Htree dev_read st0 l Hc0 Hl Hroom (cwd_of k me) c path Hcwd (argpath_nonzero k me 0 path Harg) true (fun _ => 0)) as (o & name & st1 & -> & (Hc1 & Hs1 & _ & Ho) & Hname). cbn [rbind].
  change (resolved d true start (path_elems path)) with (resolve_parent d start (path_elems path)) in Ho. destruct (resolve_parent d start (path_elems path)) as [p|] eqn:Ep.
  2:{ destruct Ho as [-> Hr1]. exists (op_end st1). split_and!; [done | by apply cache_end | apply Hs1 | exact Hr1]. }
  destruct Ho as (dp & -> & He1 & Hr1). destruct (resolve_parent_dir d start _ p Ep) as (Hdir & _ & Hne). specialize (Hname ltac:(done)).
  assert (Hnm : cstrn name 0 (Z.to_nat DIRSIZ) = nm) by (by destruct (path_elems path)).
  destruct (ilock_cache d G Htree [] st1 dp p Hc1 (not_elem_of_nil dp) He1) as (st2 & -> & Hc2 & He2 & Hld & Hr2 & Hs2 & _). cbn [rbind]. assert (Hs02 : shape st0 st2) by eauto using shape_trans. pose proof Hs02 as [_ Hlen].
  assert (Hr02 : forall i, refs st2 i = refs st0 i + one p i) by (intros i; by rewrite Hr2, Hr1). destruct (name_is_dot name) as [-> ->]. rewrite Hnm.
  destruct (bool_decide (nm = DOT) || bool_decide (nm = DOTDOT)); [by apply (unlink_bad_ok d G Htree k st0 st2 dp p)|].
  pose proof (dirlookup_cache d G Htree dev_read [dp] st2 dp p (p :: l) name Hc2 He2 Hld Hdir (walk_room st0 l Hl p st2 Hr02) ltac:(cbn [length]; change (length (fs_ic st0)) with (length (fs_ic st)) in Hlen; lia)) as Hdl. rewrite Hnm in Hdl.
  destruct (lookup_dir d p nm) as [j|] eqn:Ej; [|rewrite Hdl; cbn [rbind]; by apply (unlink_bad_ok d G Htree k st0 st2 dp p)].
  destruct Hdl as (q & idx & st3 & -> & Hc3 & Hq & He3 & Hk3 & Hm3 & _ & Hor & Hr3 & Hs3 & _). cbn [rbind]. intros Hjp.
  pose proof (held_loaded d G [dp] st3 dp p Hc3 He3 ltac:(left)) as Hld3. rewrite (disk_count d st2 dp p Hld), <- (disk_count d st3 dp p Hld3) in Hk3. rewrite (disk_matches d G st2 dp p _ Hc2 Hld), <- (disk_matches d G st3 dp p _ Hc3 Hld3) in Hm3.
  apply (unlink_entry_ok d G Htree dev_read dev_write k st0 st3 dp q p j idx nm Hc3 He3 Hq Hdir Hjp Hk3 Hm3); [destruct Hs3; congruence | intros i; rewrite Hr3, Hr02; lia|].
  unfold room. by rewrite (proj1 Hs3), (proj1 Hs02).
Qed.
End call.

(** C4: removing a path takes away exactly its last name.  On a well-formed tree,
    [unlink] returns -1 and changes nothing when the directory of the path or
    the name in it does not exist, when the name is "." or "..", and when it is
    a directory that still has entries.  Otherwise it returns 0, and the tree is
    well formed again: the directory of the path no longer has the name and all
    its other names are as before.  An inode that has further links loses one
    and keeps its content.  With its last link an inode is freed, and so is
    every block it owned.  A directory that goes away takes one link off its
    parent.  The metadata, blocks and contents of all other inodes, and the
    references of the inode cache, are as before.  The last link of an inode
    that a process has open is not covered. *)
Theorem unlink_removes d G dev_read dev_write k me l c path : tree_ok d G -> cache_ok d G [] (ffs (kfiles k)) ->
  (forall j, refs (ffs (kfiles k)) j <> 0 -> j ∈ l) -> (length l + 2 <= length (fs_ic (ffs (kfiles k))))%nat ->
  argpath k me 0 = Some path -> (absolute path = false -> entry (ffs (kfiles k)) (cwd_of k me) c) ->
  unlink_spec d G k c path (sys_unlink mkfs_sb dev_read dev_write me k).
Proof. intros Htree Hc Hl Hroom Harg Hcwd. by apply sys_unlink_ok with (l := l). Qed.

(** ** Witness: `unlink /c` on a new image *)

(** Process 0, about to call unlink with the path "/c" in its memory. *)
Definition wit_unlink (d : disk) : kern :=
  let m := kmem_of wit_grow in
  set_fs (set_kmem wit_grow (with_ram m (mwrite (kram m) (pgof (walk (kram m) (p_pgdir (proc_at wit_grow 0)) 0) + 4) [8; 0; 0; 0; SLASH; 99; 0]))) (boot_fs d).

Lemma wit_unlink_path d : argpath (wit_unlink d) 0 0 = Some [SLASH; 99].
Proof. vm_compute. reflexivity. Qed.

(** The name "c" of inode 2 is its last. *)
Lemma wit_unlink_facts d : image d (contents wit_files) -> i_type (slot d ROOTINO) = T_DIR /\ i_type (slot d 2) = T_FILE /\ lookup_dir d ROOTINO [99] = Some 2 /\
  last_name d (fun i => 1 <= i < 2 + Z.of_nat (length wit_files)) (boot_fs d) ROOTINO [99] 2.
Proof.
  intros Him. assert (Hty : forall k t l, contents wit_files !! k = Some (t, l) -> i_type (slot d (1 + Z.of_nat k)) = t) by (intros k t l Hk; by destruct (im_file _ _ Him k t l Hk) as (_ & E & _)).
  split_and!.
  - exact (Hty 0%nat _ _ eq_refl).
  - exact (Hty 1%nat _ _ eq_refl).
  - exact (mkfs_lookup d wit_files Him ltac:(done) wit_names ltac:(done) 2%nat (2, [99]) eq_refl).
  - split; [apply boot_refs|]. split; [done|]. intros i name Hi _ Hdir Hl. assert (Ei : i = ROOTINO).
    { destruct (decide (i = 1)) as [->|]; [done|]. destruct (decide (i = 2)) as [->|]; [pose proof (Hty 1%nat _ _ eq_refl) as E; change (1 + Z.of_nat 1) with 2 in E | assert (i = 3) as -> by (cbn in Hi; lia); pose proof (Hty 2%nat _ _ eq_refl) as E; change (1 + Z.of_nat 2) with 3 in E]; by rewrite Hdir in E. }
    split; [done|]. rewrite Ei in Hl. destruct (mkfs_named d wit_files Him ltac:(done) wit_names ltac:(done) name 2 Hl) as (n & e & En & -> & E2). destruct n as [|[|[|[|n]]]]; [injection En as <-; done.. | done].
Qed.

(** On the image of two files the path "/c" goes, and its inode with it. *)
Lemma unlink_removes_witness : exists s, mkfs wit_files = Ok s /\ let d := img s in
  unlink_done d (fun i => 1 <= i < 2 + Z.of_nat (length wit_files)) (boot_fs d) (wit_unlink d) ROOTINO [99] 2 (sys_unlink mkfs_sb no_dev no_dev 0 (wit_unlink d)).
Proof.
  assert (Hroom : nmeta + total (contents wit_files) <= FSSIZE) by by vm_compute.
  destruct (mkfs_ok wit_files wit_fit ltac:(by vm_compute) Hroom) as (s & Es & Him). exists s. split; [exact Es|]. cbv zeta. destruct (wit_unlink_facts (img s) Him) as (T1 & T2 & Hl & Hlast).
  assert (H : unlink_spec (img s) (fun i => 1 <= i < 2 + Z.of_nat (length wit_files)) (wit_unlink (img s)) 0 [SLASH; 99] (sys_unlink mkfs_sb no_dev no_dev 0 (wit_unlink (img s)))).
  { refine (unlink_removes (img s) (fun i => 1 <= i < 2 + Z.of_nat (length wit_files)) no_dev no_dev (wit_unlink (img s)) 0 [] 0 [SLASH; 99] _ _ _ _ _ _).
    - apply mkfs_tree; [exact Him | eapply Forall_impl; [exact wit_fit|]; by intros f [_ ?] | done | exact wit_names | done].
    - apply boot_cache.
    - intros j Hj. destruct (Hj (boot_refs (img s) j)).
    - change (length (fs_ic (ffs (kfiles (wit_unlink (img s)))))) with 50%nat. cbn [length]. lia.
    - apply wit_unlink_path.
    - intros [=]. }
  unfold unlink_spec in H. change (resolve_parent (img s) (if absolute [SLASH; 99] then ROOTINO else 0) (path_elems [SLASH; 99])) with (if i_type (slot (img s) ROOTINO) =? T_DIR then Some ROOTINO else None) in H.
  rewrite T1 in H. change (take (Z.to_nat DIRSIZ) (List.last (path_elems [SLASH; 99]) [])) with [99] in H. change (T_DIR =? T_DIR) with true in H. cbv iota in H.
  change (bool_decide ([99] = DOT) || bool_decide ([99] = DOTDOT)) with false in H. cbv iota in H. rewrite Hl in H. cbv zeta in H. rewrite T2 in H. change (T_FILE =? T_DIR) with false in H. cbn [andb] in H.
  apply H; [discriminate | intros E; discriminate E | intros _; exact Hlast].
Defined.
