(* ===== verification/Link.v ===== *)
(** * Giving files further names (src/sysfile.c: link; src/fs.c: dirlink)

    [sys_link] against the tree of the disk: the new path leads to the inode of
    the old one, which has one link more; a call that fails leaves the tree as it
    was.  Linking to a name that stands for the directory itself never returns. *)

From S2P Require Import Prelude Layout StringLib Kalloc Blocks Balloc Fs FsFile FsDir File Vm VmSpec VmUser Proc ProcMem Syscall Sysfile Mkfs Boot Namei FsTree Create Trunc Unlink.

(** ** Link counts and paths *)

Lemma relinked_trans d1 d2 d3 G j a b : relinked d1 d2 G j a -> relinked d2 d3 G j b -> relinked d1 d3 G j (a + b).
Proof.
  intros [A1 (A2 & A3 & A4) A5 A6] [B1 (B2 & B3 & B4) B5 B6]. split.
  - intros i Hi Hne. eapply untouched_trans; [by apply A1 | by apply B1].
  - split_and!; [congruence | lia | congruence].
  - intros name. by rewrite B5.
  - intros off Ho. by rewrite B6, A6.
Qed.

Section relinked.
Context (d d' : disk) (G : Z -> Prop) (j delta : Z) (Htree : tree_ok d G) (Htree' : tree_ok d' G) (Hre : relinked d d' G j delta).

Lemma relinked_type i : G i -> i_type (slot d' i) = i_type (slot d i).
Proof using Hre. intros Hi. destruct (decide (i = j)) as [->|Hne]; [apply Hre | by rewrite (ut_slot _ _ _ (rl_other _ _ _ _ _ Hre i Hi Hne))]. Qed.

Lemma relinked_lookup i name : G i -> lookup_dir d' i name = lookup_dir d i name.
Proof using Hre Htree.
  intros Hi. destruct (decide (i = j)) as [->|Hne]; [apply Hre|]. pose proof (to_size d G Htree i Hi) as Hs. apply (ut_lookup d d' i (rl_other _ _ _ _ _ Hre i Hi Hne)). lia.
Qed.

Lemma relinked_resolve i es : G i -> resolve d' i es = resolve d i es.
Proof using Htree Htree' Hre.
  intros Hi. apply option_eq. intros x. split.
  - apply (resolve_more d' d G Htree'); [intros n Hn; symmetry; by apply relinked_type | intros n name y Hn _; by rewrite relinked_lookup | done].
  - apply (resolve_more d d' G Htree); [apply relinked_type | intros n name y Hn _; by rewrite relinked_lookup | done].
Qed.

Lemma resolve_member i es x : G i -> resolve d i es = Some x -> G x.
Proof using Htree.
  revert i. induction es as [|e es IH]; intros i Hi; [by intros [= <-]|]. cbn [resolve]. destruct (Z.eqb_spec (i_type (slot d i)) T_DIR) as [Hd|]; [|done]. destruct (lookup_dir d i _) as [z|] eqn:Ez; [|done]. apply IH. by apply (lookup_member d G i _ z Htree Hi Hd Ez).
Qed.

Lemma relinked_parent i es : G i -> resolve_parent d' i es = resolve_parent d i es.
Proof using Htree Htree' Hre.
  intros Hi. unfold resolve_parent. destruct es as [|e es]; [done|]. rewrite relinked_resolve by done. destruct (resolve d i _) as [x|] eqn:E; [|done]. cbn [mbind option_bind]. by rewrite relinked_type by by apply (resolve_member i _ x Hi E).
Qed.
End relinked.

(** ** A name that is taken *)

Lemma entry_unique d G L st a b i : cache_ok d G L st -> entry st a i -> entry st b i -> a = b.
Proof.
  intros Hc (Ha & Hra & Hna) (Hb & Hrb & Hnb). pose proof (co_ic _ _ _ _ Hc) as [_ Huniq]. destruct (co_live _ _ _ _ Hc a Ha Hra) as (Hda & _), (co_live _ _ _ _ Hc b Hb Hrb) as (Hdb & _).
  apply (Huniq a b ROOTDEV i Ha Hb); unfold live_for; [rewrite Hda, Hna | rewrite Hdb, Hnb]; rewrite !Z.eqb_refl, (proj2 (Z.ltb_lt _ _)) by done; done.
Qed.

(** [dirlink] refuses a name that is there.  The reference [dirlookup] took is
    dropped with [iput], which waits for the lock of the inode; when the name
    stands for the directory itself, the caller holds that lock. *)
Lemma dirlink_taken d G dev_read dev_write st dp p l name inum z : tree_ok d G -> cache_ok d G [dp] st -> entry st dp p -> i_type (slot d p) = T_DIR ->
  (forall j, refs st j <> 0 -> j ∈ l) -> (length l < length (fs_ic st))%nat -> lookup_dir d p (cstrn name 0 (Z.to_nat DIRSIZ)) = Some z ->
  if z =? p then dirlink mkfs_sb dev_read dev_write dp name inum st = Blocked
  else exists st', dirlink mkfs_sb dev_read dev_write dp name inum st = Ok (-1, st') /\ cache_ok d G [dp] st' /\ shape st st' /\ keeps st st' /\ forall j, refs st' j = refs st j.
Proof.
  intros Ht Hc He Hty Hl Hroom Hz. pose proof (held_loaded d G [dp] st dp p Hc He ltac:(left)) as Hld. pose proof (dirlookup_cache d G Ht dev_read [dp] st dp p l name Hc He Hld Hty Hl Hroom) as Hdl. rewrite Hz in Hdl.
  destruct Hdl as (q & k & st1 & E & Hc1 & Hq & He1 & _ & _ & _ & _ & Hr1 & Hs1 & Hk1). unfold dirlink. rewrite E. cbn [rbind]. destruct (Z.eqb_spec z p) as [->|Hne].
  - rewrite (entry_unique d G [dp] st1 q dp p Hc1 Hq He1). unfold iput. destruct He1 as (Hb & _). rewrite (co_lock _ _ _ _ Hc1 dp Hb), bool_decide_eq_true_2 by left. done.
  - assert (Hqd : q ∉ [dp]). { intros ->%list_elem_of_singleton. apply Hne. destruct He1 as (_ & _ & <-), Hq as (_ & _ & <-). done. }
    destruct (iput_cache d G Ht [dp] st1 q z Hc1 Hqd Hq) as (st2 & -> & Hc2 & Hr2 & Hs2 & Hk2). cbn [rbind]. exists st2. split; [done|]. split; [done|]. split; [eauto using shape_trans|]. split.
    + apply (drop_keeps d G [dp] [dp] st st1 st2 q z); auto. rewrite Hr1. unfold one. zcases.
    + intros j. rewrite Hr2, Hr1. lia.
Qed.

(** ** link *)

(** It returned -1; the link count went up and down again. *)
Definition link_failed (d : disk) (G : Z -> Prop) (st : fs) (k : kern) (j : Z) (r : res (sysret * kern)) : Prop :=
  exists st', r = Ok (SRet (-1), set_fs k st') /\ let d' := td (fs_t st') in tree_ok d' G /\ cache_ok d' G [] st' /\ relinked d d' G j 0 /\
    length (fs_ic st') = length (fs_ic st) /\ forall i, refs st' i = refs st i.

(** Disk [d'] is [d] with the further name [nm] of inode [j] in directory [p]. *)
Record also_named (d d' : disk) (G : Z -> Prop) (p : Z) (nm : list Z) (j : Z) : Prop := {
  an_other i : G i -> i <> p -> i <> j -> untouched d d' i;
  an_lookup name : lookup_dir d' p name = if bool_decide (name = nm) then Some j else lookup_dir d p name;
  an_parent : let x := slot d p in let x' := slot d' p in i_type x' = i_type x /\ i_nlink x' = i_nlink x /\ i_size x' <= i_size x + DIRENT_SIZE;
  an_inode : let x := slot d j in let x' := slot d' j in i_type x' = i_type x /\ i_nlink x' = i_nlink x + 1 /\ i_size x' = i_size x;
  an_content off : 0 <= off < MAXFILE * BSIZE -> content (dfile d' j) 0 off = content (dfile d j) 0 off
}.

(** It returned 0 and path [es], from inode [i], leads to [j]. *)
Definition link_done (d : disk) (G : Z -> Prop) (st : fs) (k : kern) (i p : Z) (es : list (list Z)) (nm : list Z) (j : Z) (r : res (sysret * kern)) : Prop :=
  exists st', r = Ok (SRet 0, set_fs k st') /\ let d' := td (fs_t st') in tree_ok d' G /\ cache_ok d' G [] st' /\ also_named d d' G p nm j /\ resolve d' i es = Some j /\
    length (fs_ic st') = length (fs_ic st) /\ forall i, refs st' i = refs st i.

Section link.
Context (d : disk) (G : Z -> Prop) (Htree : tree_ok d G).
Context (dev_read : Z -> option (nat -> mem -> Z -> Z -> fs -> res (Z * mem * fs))) (dev_write : Z -> option (nat -> mem -> Z -> Z -> fs -> res (Z * fs))).
Context (k : kern) (st0 : fs) (l : list Z) (Hl : forall j, refs st0 j <> 0 -> j ∈ l) (Hroom : (length l + 3 <= length (fs_ic st0))%nat).
Context (d1 : disk) (Htree1 : tree_ok d1 G) (ip : nat) (j : Z) (Hj : G j) (Hre : relinked d d1 G j 1) (Hfile : i_type (slot d j) <> T_DIR).

(** The link count is taken back. *)
Lemma link_bad_ok st : room st 1 -> cache_ok d1 G [] st -> entry st ip j -> length (fs_ic st) = length (fs_ic st0) -> (forall i, refs st i = refs st0 i + one j i) -> link_failed d G st0 k j (link_bad mkfs_sb k ip st).
Proof using Htree Htree1 Hj Hre.
  clear Hroom. intros Hlog Hc He Hlen Hr. unfold link_bad. destruct (ilock_cache d1 G Htree1 [] st ip j Hc (not_elem_of_nil ip) He) as (st1 & -> & Hc1 & He1 & _ & Hr1 & [Ht1 Hl1] & _). cbn [rbind].
  pose proof (rl_type _ _ _ _ _ Hre) as (_ & Hn & _). pose proof (to_link d G Htree j Hj) as Hpos. pose proof (slot_type d1 j) as [_ Hb].
  destruct (bump_tree d1 G Htree1 [ip] st1 ip j (-1) Hc1 He1 ltac:(left)) as (st2 & -> & B1 & B2 & B3 & B4 & B5 & B6 & _); [lia | unfold room in *; by rewrite Ht1|]. cbn [rbind].
  destruct (iunlockput_cache _ G B1 [] st2 ip j B2 (not_elem_of_nil ip) (B5 _ _ He1)) as (st3 & -> & Hc3 & Hr3 & [Ht3 Hl3] & _). cbn [rbind].
  exists (op_end st3). change (td (fs_t (op_end st3))) with (td (fs_t st3)). cbv zeta. rewrite Ht3. split_and!; [done | done | by apply cache_end | exact (relinked_trans d d1 _ G j 1 (-1) Hre B3) | cbn; congruence |].
  intros i. change (refs (op_end st3) i) with (refs st3 i). rewrite Hr3, B4, Hr1, Hr. lia.
Qed.

Context (st : fs) (dp : nat) (p : Z) (Hc : cache_ok d1 G [] st) (Hip : entry st ip j) (Hdp : entry st dp p) (Hty : i_type (slot d p) = T_DIR).
Context (Hlog : room st 4) (Hlen : length (fs_ic st) = length (fs_ic st0)) (Hr : forall i, refs st i = refs st0 i + one j i + one p i).
Context (start : Z) (es : list (list Z)) (Hstart : G start) (Hpar : resolve_parent d start es = Some p) (name : mem) (Hname : cstrn name 0 (Z.to_nat DIRSIZ) = take (Z.to_nat DIRSIZ) (List.last es [])).
#[local] Abbreviation nm := (take (Z.to_nat DIRSIZ) (List.last es [])).

Lemma link_ne : p <> j.
Proof using Hty Hfile. intros E. apply Hfile. by rewrite <- E. Qed.

(** The two writes together. *)
Lemma link_tree d2 : tree_ok d2 G -> linked d1 d2 G p nm j -> lookup_dir d p nm = None -> G p -> also_named d d2 G p nm j /\ resolve d2 start es = Some j.
Proof using Htree Htree1 Hj Hre Hty Hfile Hstart Hpar.
  clear Hroom Hlen. intros Ht2 [K1 [K2 K3] K4 K5] Hno Hp. pose proof link_ne as Hpj. pose proof (rl_other _ _ _ _ _ Hre p Hp Hpj) as Up. pose proof (K1 j Hj (not_eq_sym Hpj)) as Uj. pose proof (rl_type _ _ _ _ _ Hre) as (J1 & J2 & J3).
  assert (Hlk : forall name, lookup_dir d2 p name = if bool_decide (name = nm) then Some j else lookup_dir d p name) by (intros n; rewrite K5; by rewrite (relinked_lookup d d1 G j 1 Htree Hre p)).
  rewrite (ut_slot _ _ _ Up) in K2, K3, K4. split.
  - split; [| done | done | rewrite (ut_slot _ _ _ Uj); by split_and! |].
    + intros i Hi Hip' Hij. eapply untouched_trans; [by apply Hre | by apply K1].
    + intros off Ho. rewrite (ut_content _ _ j Uj) by done. by apply Hre.
  - apply (resolve_last d d2 start es p j Hpar); [|congruence | by rewrite Hlk, bool_decide_eq_true_2].
    intros es' x. apply (resolve_more d d2 G Htree); [| | done].
    + intros n Hn. destruct (decide (n = p)) as [->|Hne]; [done|]. rewrite (ut_slot _ _ _ (K1 n Hn Hne)). by apply (relinked_type d d1 G j 1).
    + intros n name' y Hn Hd Hy. destruct (decide (n = p)) as [->|Hne].
      * rewrite Hlk, bool_decide_eq_false_2; [done|]. intros E. rewrite E in Hy. congruence.
      * pose proof (to_size d1 G Htree1 n Hn) as Hs. rewrite (ut_lookup _ _ n (K1 n Hn Hne)) by lia. by rewrite (relinked_lookup d d1 G j 1).
Qed.

(** The rest of [sys_link] from [ilock(dp)] on. *)
Definition link_rest : res (sysret * kern) :=
  let* st := ilock mkfs_sb dp st in
  let* (r, st) :=
    if negb (i_dev (inode_at st dp) =? i_dev (inode_at st ip)) then Ok (-1, st)
    else dirlink mkfs_sb dev_read dev_write dp name (i_inum (inode_at st ip)) st in
  let* st := iunlockput mkfs_sb dp st in
  if r <? 0 then link_bad mkfs_sb k ip st
  else let* st := iput mkfs_sb ip st in op_ret k 0 st.

Lemma link_rest_ok : match lookup_dir d p nm with
  | Some z => if z =? p then link_rest = Blocked else link_failed d G st0 k j link_rest
  | None => i_size (slot d p) + DIRENT_SIZE <= MAXFILE * BSIZE -> link_done d G st0 k start p es nm j link_rest \/ link_rest = Panic "balloc: out of blocks"
  end.
Proof using Htree Htree1 Hl Hroom Hj Hre Hfile Hc Hip Hdp Hty Hlog Hlen Hr Hstart Hpar Hname.
  pose proof link_ne as Hpj. assert (Hne : ip <> dp) by (intros ->; apply Hpj; destruct Hdp as (_ & _ & <-), Hip as (_ & _ & <-); done). pose proof (dir_member d1 G st dp p [] Hc Hdp) as Hp.
  unfold link_rest. destruct (ilock_cache d1 G Htree1 [] st dp p Hc (not_elem_of_nil dp) Hdp) as (st1 & -> & Hc1 & He1 & _ & Hr1 & [Ht1 Hl1] & Ho1). cbn [rbind].
  assert (Hi1 : entry st1 ip j) by exact (ilock_keeps st st1 dp p He1 Hdp Hl1 Ho1 ip j Hip).
  assert (Hdev : forall q n, entry st1 q n -> i_dev (inode_at st1 q) = ROOTDEV /\ inum_at st1 q = n) by (intros q n (Hb & Hrq & Hn); by destruct (co_live _ _ _ _ Hc1 q Hb Hrq)).
  destruct (Hdev dp p He1) as [-> _], (Hdev ip j Hi1) as [-> ->]. rewrite Z.eqb_refl. cbn [negb]. pose proof (relinked_type d d1 G j 1 Hre p Hp) as Htp. rewrite Hty in Htp.
  pose proof (relinked_lookup d d1 G j 1 Htree Hre p nm Hp) as Hlk. pose proof (rl_other _ _ _ _ _ Hre p Hp Hpj) as Up. destruct (lookup_dir d p nm) as [z|] eqn:Ez.
  - assert (Hl1' : forall i, refs st1 i <> 0 -> i ∈ p :: j :: l).
    { intros i. rewrite Hr1, Hr. unfold one. intros Hi. destruct (decide (i = p)) as [->|]; [left|]. destruct (decide (i = j)) as [->|]; [right; left|]. right. right. apply Hl. revert Hi. zcases. }
    pose proof (dirlink_taken d1 G dev_read dev_write st1 dp p (p :: j :: l) name j z Htree1 Hc1 He1 Htp Hl1' ltac:(cbn [length]; lia)) as Hd. rewrite Hname in Hd. specialize (Hd Hlk).
    destruct (z =? p); [by rewrite Hd|]. destruct Hd as (st2 & -> & Hc2 & [Ht2 Hl2] & Hk2 & Hr2). cbn [rbind].
    destruct (iunlockput_cache d1 G Htree1 [] st2 dp p Hc2 (not_elem_of_nil dp) (Hk2 _ _ He1)) as (st3 & -> & Hc3 & Hr3 & [Ht3 Hl3] & Hk3). cbn [rbind]. change (-1 <? 0) with true. cbv iota.
    apply link_bad_ok; [unfold room in *; rewrite Ht3, Ht2, Ht1; lia | done | apply Hk3; [by left | by apply Hk2] | congruence |]. intros i. rewrite Hr3, Hr2, Hr1, Hr. lia.
  - intros Hsz. destruct (dirlink_tree d1 G Htree1 dev_read dev_write [dp] st1 dp p j Hc1 He1 ltac:(left) Htp name ltac:(unfold room in *; by rewrite Ht1) Hj) as [(st2 & -> & T1 & T2 & T3 & T4 & T5 & T6 & _)|E]; [by rewrite Hname | by rewrite (ut_slot _ _ _ Up) | left | rewrite E; by right].
    cbn [rbind]. rewrite Hname in T3. destruct (iunlockput_cache _ G T1 [] st2 dp p T2 (not_elem_of_nil dp) (T5 _ _ He1)) as (st3 & -> & Hc3 & Hr3 & [Ht3 Hl3] & Hk3). cbn [rbind]. change (0 <? 0) with false. cbv iota.
    destruct (iput_cache _ G T1 [] st3 ip j Hc3 (not_elem_of_nil ip)) as (st4 & -> & Hc4 & Hr4 & [Ht4 Hl4] & _); [apply Hk3; [by left | by apply T5]|]. cbn [rbind].
    destruct (link_tree _ T1 T3 Ez Hp) as [Hnamed Hres]. exists (op_end st4). change (td (fs_t (op_end st4))) with (td (fs_t st4)). cbv zeta. rewrite Ht4, Ht3. split_and!; [done | done | by apply cache_end | done | done | cbn; congruence |].
    intros i. change (refs (op_end st4) i) with (refs st4 i). rewrite Hr4, Hr3, T4, Hr1, Hr. lia.
Qed.
End link.

Section call.
Context (d : disk) (G : Z -> Prop) (Htree : tree_ok d G).
Context (dev_read : Z -> option (nat -> mem -> Z -> Z -> fs -> res (Z * mem * fs))) (dev_write : Z -> option (nat -> mem -> Z -> Z -> fs -> res (Z * fs))).
Context (k : kern) (me : nat) (l : list Z) (c : Z) (old new : list Z).
Abbreviation st := (ffs (kfiles k)).
Context (Hc : cache_ok d G [] st) (Hl : forall j, refs st j <> 0 -> j ∈ l) (Hroom : (length l + 3 <= length (fs_ic st))%nat).
Context (Hold : argpath k me 0 = Some old) (Hnew : argpath k me 1 = Some new) (Hcwd : absolute old && absolute new = false -> entry st (cwd_of k me) c).
Abbreviation from path := (if absolute path then ROOTINO else c).
Abbreviation nm := (take (Z.to_nat DIRSIZ) (List.last (path_elems new) [])).

(** What the call does, by what the two paths lead to. *)
Definition link_spec (r : res (sysret * kern)) : Prop :=
  match resolve d (from old) (path_elems old) with
  | None => call_fails d G st k r
  | Some j =>
      if i_type (slot d j) =? T_DIR then call_fails d G st k r
      else i_nlink (slot d j) < 2 ^ 15 - 1 ->
        match resolve_parent d (from new) (path_elems new) with
        | None => link_failed d G st k j r
        | Some p =>
            match lookup_dir d p nm with
            | Some z => if z =? p then r = Blocked else link_failed d G st k j r
            | None => i_size (slot d p) + DIRENT_SIZE <= MAXFILE * BSIZE ->
                link_done d G st k (from new) p (path_elems new) nm j r \/ r = Panic "balloc: out of blocks"
            end
        end
  end.

Lemma from_member path : (absolute path = false -> absolute old && absolute new = false) -> G (from path).
Proof using Htree Hc Hcwd.
  intros Hp. destruct (absolute path); [apply (to_root d G Htree)|]. exact (dir_member d G st _ c [] Hc (Hcwd (Hp eq_refl))).
Qed.

Lemma sys_link_ok : link_spec (sys_link mkfs_sb dev_read dev_write me k).
Proof using Htree Hc Hl Hroom Hold Hnew Hcwd.
  unfold link_spec, sys_link. rewrite Hold, Hnew. unfold namei. set (st0 := op_begin st). assert (Hc0 : cache_ok d G [] st0) by (by apply cache_end). assert (Hr0 : (length l + 3 <= length (fs_ic st0))%nat) by exact Hroom.
  destruct (namex_resolves d G Htree dev_read st0 l Hc0 Hl ltac:(lia) (cwd_of k me) c old) with (par := false) (name := (fun _ => 0) : mem) as (o & name & st1 & -> & (Hc1 & [Ht1 Hl1] & Hk1 & Ho) & _).
  { intros E. apply Hcwd. by rewrite E. }
  { by apply (argpath_nonzero k me 0). }
  cbn [rbind]. change (resolved d false (from old) (path_elems old)) with (resolve d (from old) (path_elems old)) in Ho. destruct (resolve d (from old) (path_elems old)) as [j|] eqn:Ej.
  2:{ destruct Ho as [-> Hr1]. exists (op_end st1). split_and!; [done | by apply cache_end | exact Hl1 | exact Hr1]. }
  destruct Ho as (ip & -> & He1 & Hr1). destruct (ilock_cache d G Htree [] st1 ip j Hc1 (not_elem_of_nil ip) He1) as (st2 & -> & Hc2 & He2 & (T2 & _) & Hr2 & [Ht2 Hl2] & Ho2). cbn [rbind]. rewrite T2. pose proof (dir_member d G st2 ip j _ Hc2 He2) as Hj.
  destruct (Z.eqb_spec (i_type (slot d j)) T_DIR) as [Hd|Hfile].
  { destruct (iunlockput_cache d G Htree [] st2 ip j Hc2 (not_elem_of_nil ip) He2) as (st3 & -> & Hc3 & Hr3 & [_ Hl3] & _). cbn [rbind]. exists (op_end st3). split_and!; [done | by apply cache_end | exact (eq_trans Hl3 (eq_trans Hl2 Hl1)) |].
    intros i. change (refs (op_end st3) i) with (refs st3 i). change (refs st i) with (refs st0 i). rewrite Hr3, Hr2, Hr1. lia. }
  intros Hmax. pose proof (to_link d G Htree j Hj) as Hpos. destruct (bump_tree d G Htree [ip] st2 ip j 1 Hc2 He2 ltac:(left)) as (st3 & -> & B1 & B2 & B3 & B4 & B5 & B6 & B7); [lia | unfold room; by rewrite Ht2, Ht1|]. cbn [rbind].
  destruct (iunlock_cache _ G [] st3 ip j B2 (not_elem_of_nil ip) (B5 _ _ He2)) as (st4 & -> & Hc4 & He4 & Hr4 & [Ht4 Hl4] & _ & Hk4). cbn [rbind].
  assert (Hk04 : keeps st0 st4) by (intros q n E0; apply Hk4, B5; exact (ilock_keeps st1 st2 ip j He2 He1 Hl2 Ho2 q n (Hk1 q n E0))).
  assert (Hr04 : forall i, refs st4 i = refs st0 i + one j i) by (intros i; by rewrite Hr4, B4, Hr2, Hr1). assert (Hl04 : length (fs_ic st4) = length (fs_ic st0)) by congruence.
  unfold nameiparent. destruct (namex_resolves _ G B1 dev_read st4 (j :: l)) with (cwd := cwd_of k me) (c := c) (path := new) (par := true) (name := (fun _ => 0) : mem) as (o & name' & st5 & -> & (Hc5 & [Ht5 Hl5] & Hk5 & Ho) & Hname).
  { exact Hc4. }
  { exact (walk_room st0 l Hl j st4 Hr04). }
  { cbn [length]. lia. }
  { intros E. apply Hk04, Hcwd. by rewrite E, andb_false_r. }
  { by apply (argpath_nonzero k me 1). }
  cbn [rbind]. change (resolved (td (fs_t st3)) true (from new) (path_elems new)) with (resolve_parent (td (fs_t st3)) (from new) (path_elems new)) in Ho.
  assert (Hlog5 : room st5 4) by (unfold room; rewrite Ht5, Ht4; rewrite Ht2, Ht1 in B7; change (logged (fs_t st0)) with 0 in B7; lia).
  assert (Hstart : G (from new)) by (apply from_member; intros E; by rewrite E, andb_false_r). rewrite (relinked_parent d _ G j 1 Htree B1 B3 _ _ Hstart) in Ho.
  destruct (resolve_parent d (from new) (path_elems new)) as [p|] eqn:Ep.
  2:{ destruct Ho as [-> Hr5]. apply (link_bad_ok d G Htree k st0 _ B1 ip j Hj B3 st5 ltac:(unfold room in *; lia) Hc5 (Hk5 _ _ He4)); [congruence|]. intros i. by rewrite Hr5. }
  destruct Ho as (dp & -> & He5 & Hr5). destruct (resolve_parent_dir d _ _ p Ep) as (Hdir & _ & Hne). specialize (Hname ltac:(done)).
  assert (Hnm : cstrn name' 0 (Z.to_nat DIRSIZ) = nm) by (by destruct (path_elems new)).
  apply (link_rest_ok d G Htree dev_read dev_write k st0 l Hl Hr0 _ B1 ip j Hj B3 Hfile st5 dp p Hc5 (Hk5 _ _ He4) He5 Hdir Hlog5); [congruence | | done | done | done]. intros i. rewrite Hr5, Hr04. lia.
Qed.
End call.

(** C5: [link] gives a file one more name.  On a well-formed tree, it returns -1
    when the old path leads nowhere or to a directory, when the directory of the
    new path does not exist, and when its last name is taken: the tree is as it
    was, with every name, link count and content.  Otherwise it panics for want
    of a block, or returns 0: the new path leads to the file, which has one link
    more and the same content, the tree is well formed, every other name of
    every directory is as before, and so are the metadata, the blocks and the
    contents of all other inodes.  When the new name stands for the directory
    itself, as "." does, the call never returns: [dirlink] puts the reference it
    has just taken, and waits for the lock of the directory, which the caller
    holds.  The link count must not be at its limit, and the directory must have
    room for one more entry. *)
Theorem link_adds d G dev_read dev_write k me l c old new : tree_ok d G -> cache_ok d G [] (ffs (kfiles k)) ->
  (forall j, refs (ffs (kfiles k)) j <> 0 -> j ∈ l) -> (length l + 3 <= length (fs_ic (ffs (kfiles k))))%nat ->
  argpath k me 0 = Some old -> argpath k me 1 = Some new -> (absolute old && absolute new = false -> entry (ffs (kfiles k)) (cwd_of k me) c) ->
  link_spec d G k c old new (sys_link mkfs_sb dev_read dev_write me k).
Proof. intros Htree Hc Hl Hroom Hold Hnew Hcwd. by apply sys_link_ok with (l := l). Qed.

(** ** Witness: `link /c /n` and `link /c /.` on a new image *)

(** Process 0, about to call link with "/c" and the path [new] in its memory. *)
Definition wit_link (d : disk) (new : list Z) : kern :=
  let m := kmem_of wit_grow in
  set_fs (set_kmem wit_grow (with_ram m (mwrite (kram m) (pgof (walk (kram m) (p_pgdir (proc_at wit_grow 0)) 0) + 4) ([12; 0; 0; 0; 15; 0; 0; 0; SLASH; 99; 0] ++ new ++ [0])))) (boot_fs d).

Lemma wit_link_paths d : (argpath (wit_link d [SLASH; 110]) 0 0 = Some [SLASH; 99] /\ argpath (wit_link d [SLASH; 110]) 0 1 = Some [SLASH; 110]) /\
  argpath (wit_link d [SLASH; 46]) 0 0 = Some [SLASH; 99] /\ argpath (wit_link d [SLASH; 46]) 0 1 = Some [SLASH; 46].
Proof. vm_compute. done. Qed.

Lemma wit_link_facts d : image d (contents wit_files) -> i_nlink (slot d 2) = 1 /\ i_size (slot d ROOTINO) = 512 /\ lookup_dir d ROOTINO [110] = None /\ lookup_dir d ROOTINO [46] = Some ROOTINO.
Proof.
  intros Him. split_and!.
  - by destruct (im_file _ _ Him 1%nat _ _ eq_refl) as (_ & _ & E & _).
  - by destruct (im_file _ _ Him 0%nat _ _ eq_refl) as (_ & _ & _ & E & _).
  - destruct (lookup_dir d ROOTINO [110]) as [i|] eqn:E; [|done]. destruct (mkfs_named d wit_files Him ltac:(done) wit_names ltac:(done) [110] i E) as (n & e & En & E2 & _). destruct n as [|[|[|[|n]]]]; [injection En as <-; done.. | done].
  - exact (mkfs_lookup d wit_files Him ltac:(done) wit_names ltac:(done) 0%nat (ROOTINO, [46]) eq_refl).
Qed.

(** "/n" becomes a second name of inode 2; linking to "/." hangs. *)
Lemma link_adds_witness : exists s, mkfs wit_files = Ok s /\ let d := img s in let r new := sys_link mkfs_sb no_dev no_dev 0 (wit_link d new) in
  (link_done d (fun i => 1 <= i < 2 + Z.of_nat (length wit_files)) (boot_fs d) (wit_link d [SLASH; 110]) ROOTINO ROOTINO [[110]] [110] 2 (r [SLASH; 110]) \/ r [SLASH; 110] = Panic "balloc: out of blocks") /\
  r [SLASH; 46] = Blocked.
Proof.
  assert (Hroom : nmeta + total (contents wit_files) <= FSSIZE) by by vm_compute.
  destruct (mkfs_ok wit_files wit_fit ltac:(by vm_compute) Hroom) as (s & Es & Him). exists s. split; [exact Es|]. cbv zeta. destruct (wit_unlink_facts (img s) Him) as (T1 & T2 & Hl & _). destruct (wit_link_facts (img s) Him) as (L1 & L2 & L3 & L4).
  destruct (wit_link_paths (img s)) as [[P1 P2] [P3 P4]].
  assert (H : forall new, argpath (wit_link (img s) new) 0 0 = Some [SLASH; 99] -> argpath (wit_link (img s) new) 0 1 = Some new -> absolute new = true ->
    link_spec (img s) (fun i => 1 <= i < 2 + Z.of_nat (length wit_files)) (wit_link (img s) new) 0 [SLASH; 99] new (sys_link mkfs_sb no_dev no_dev 0 (wit_link (img s) new))).
  { intros new E0 E1 Ha. refine (link_adds (img s) (fun i => 1 <= i < 2 + Z.of_nat (length wit_files)) no_dev no_dev (wit_link (img s) new) 0 [] 0 [SLASH; 99] new _ _ _ _ E0 E1 _).
    - apply mkfs_tree; [exact Him | eapply Forall_impl; [exact wit_fit|]; by intros f [_ ?] | done | exact wit_names | done].
    - apply boot_cache.
    - intros j Hj. destruct (Hj (boot_refs (img s) j)).
    - change (length (fs_ic (ffs (kfiles (wit_link (img s) new))))) with 50%nat. cbn [length]. lia.
    - rewrite Ha. intros [=]. }
  assert (Hfrom : resolve (img s) (if absolute [SLASH; 99] then ROOTINO else 0) (path_elems [SLASH; 99]) = Some 2).
  { change (resolve (img s) ROOTINO [[99]] = Some 2). cbn [resolve]. rewrite T1. change (T_DIR =? T_DIR) with true. cbv iota. change (take (Z.to_nat DIRSIZ) [99]) with [99]. by rewrite Hl. }
  assert (Hpar : forall e, resolve_parent (img s) ROOTINO [e] = Some ROOTINO) by (intros e; unfold resolve_parent; cbn [removelast resolve mbind option_bind]; by rewrite T1).
  split.
  - specialize (H [SLASH; 110] P1 P2 eq_refl). unfold link_spec in H. rewrite Hfrom, T2, L1 in H. change (path_elems [SLASH; 110]) with [[110]] in H. change (if absolute [SLASH; 110] then ROOTINO else 0) with ROOTINO in H. rewrite Hpar in H.
    change (take (Z.to_nat DIRSIZ) (List.last [[110]] [])) with [110] in H. rewrite L3, L2 in H. apply H; [done | done].
  - specialize (H [SLASH; 46] P3 P4 eq_refl). unfold link_spec in H. rewrite Hfrom, T2, L1 in H. change (path_elems [SLASH; 46]) with [[46]] in H. change (if absolute [SLASH; 46] then ROOTINO else 0) with ROOTINO in H. rewrite Hpar in H.
    change (take (Z.to_nat DIRSIZ) (List.last [[46]] [])) with [46] in H. rewrite L4 in H. by apply H.
Defined.
