(* ===== verification/Machine.v ===== *)
(** * Finding the processors and reading the clock (src/mp.c, src/mp.h, cmostime of src/lapic.c)

    [Mp] is the search for the firmware's multiprocessor tables in low memory
    and the walk over their entries; [Rtc] is the read of the CMOS clock, a
    device whose registers change between two accesses. *)

From S2P Require Import Prelude Layout Syscall.

Module Mp.

Definition SIZEOF_MP : Z := 16.
Definition SIZEOF_MPCONF : Z := 44.
Definition SIZEOF_MPPROC : Z := 20.
Definition SIZEOF_MPIOAPIC : Z := 8.
Definition MPPROC : Z := 0.
Definition MPBUS : Z := 1.
Definition MPIOAPIC : Z := 2.
Definition MPIOINTR : Z := 3.
Definition MPLINTR : Z := 4.

(** [cpus[0..ncpu)], by APIC id, and the two other variables mpinit sets. *)
Record mpst := mk_mpst { apicids : list Z; ioapicid : Z; lapic : Z }.

Section mp.
Context (m : mem).

Fixpoint sum_loop (n : nat) (addr acc : Z) : Z :=
  match n with
  | O => acc
  | S n' => sum_loop n' (addr + 1) (s32 (acc + m addr))
  end.

Definition sum (addr len : Z) : Z := u8 (sum_loop (Z.to_nat len) addr 0).

(** [memcmp(p, "_MP_", 4) == 0] and [memcmp(p, "PCMP", 4) == 0] *)
Definition is_mp (p : Z) : bool := bool_decide (mread m p 4 = [95; 77; 80; 95]).
Definition is_pcmp (p : Z) : bool := bool_decide (mread m p 4 = [80; 67; 77; 80]).

Fixpoint mpsearch1_loop (n : nat) (p e : Z) : option Z :=
  if p <? e then
    match n with
    | O => None
    | S n' => if is_mp p && (sum p SIZEOF_MP =? 0) then Some p else mpsearch1_loop n' (p + SIZEOF_MP) e
    end
  else None.

Definition mpsearch1 (a len : Z) : option Z :=
  let addr := P2V a in
  mpsearch1_loop (Z.to_nat len) addr (addr + len).

Definition mpsearch : option Z :=
  let bda := P2V 1024 in
  let p := Z.shiftl (Z.lor (Z.shiftl (m (bda + 15)) 8) (m (bda + 14))) 4 in
  let found :=
    if negb (p =? 0) then mpsearch1 p 1024
    else mpsearch1 (u32 (Z.lor (Z.shiftl (m (bda + 20)) 8) (m (bda + 19)) * 1024 - 1024)) 1024 in
  match found with
  | Some mp => Some mp
  | None => mpsearch1 983040 65536
  end.

(** Fields of [struct mp] and [struct mpconf]. *)
Definition physaddr (mp : Z) : Z := ld32 m (mp + 4).
Definition imcrp (mp : Z) : Z := m (mp + 12).
Definition conf_length (conf : Z) : Z := ld16 m (conf + 4).
Definition conf_version (conf : Z) : Z := m (conf + 6).
Definition conf_lapicaddr (conf : Z) : Z := ld32 m (conf + 36).

(** [mpconfig(&mp)]: the pair of [mp] and the configuration table. *)
Definition mpconfig : option (Z * Z) :=
  match mpsearch with
  | None => None
  | Some mp =>
      if physaddr mp =? 0 then None
      else
        let conf := P2V (physaddr mp) in
        if negb (is_pcmp conf) then None
        else if negb (conf_version conf =? 1) && negb (conf_version conf =? 4) then None
        else if negb (sum conf (conf_length conf) =? 0) then None
        else Some (mp, conf)
  end.

(** The loop over the table from [p] to [e].  An entry of another type clears
    [ismp] and leaves the switch, not the loop. *)
Fixpoint mp_loop (fuel : nat) (p e : Z) (ismp : bool) (st : mpst) : res (bool * mpst) :=
  if p <? e then
    match fuel with
    | O => Blocked
    | S fuel' =>
        let t := m p in
        if t =? MPPROC then
          let st := if Z.of_nat (length (apicids st)) <? NCPU then mk_mpst (apicids st ++ [m (p + 1)]) (ioapicid st) (lapic st) else st in
          mp_loop fuel' (p + SIZEOF_MPPROC) e ismp st
        else if t =? MPIOAPIC then mp_loop fuel' (p + SIZEOF_MPIOAPIC) e ismp (mk_mpst (apicids st) (m (p + 1)) (lapic st))
        else if (t =? MPBUS) || (t =? MPIOINTR) || (t =? MPLINTR) then mp_loop fuel' (p + 8) e ismp st
        else mp_loop fuel' p e false st
    end
  else Ok (ismp, st).

(** [Blocked] is a walk that does not come to the end of the table within as many
    steps as it has bytes.  The result says whether the IMCR is programmed. *)
Definition mpinit (st : mpst) : res (mpst * bool) :=
  match mpconfig with
  | None => Panic "Expect to run on an SMP"
  | Some (mp, conf) =>
      let* (ismp, st) := mp_loop (Z.to_nat (conf_length conf)) (conf + SIZEOF_MPCONF) (conf + conf_length conf) true
                           (mk_mpst (apicids st) (ioapicid st) (conf_lapicaddr conf)) in
      if negb ismp then Panic "Didn't find a suitable machine" else Ok (st, negb (imcrp mp =? 0))
  end.

(** ** The search *)

(** [mpsearch1] returns the first structure with the right signature and
    checksum on a 16-byte boundary of the range. *)
Lemma mpsearch1_loop_first n p e : (e - p <= 16 * Z.of_nat n) ->
  match mpsearch1_loop n p e with
  | Some q => exists k, 0 <= k /\ q = p + 16 * k /\ q < e /\ is_mp q = true /\ sum q 16 = 0 /\
      forall j, 0 <= j < k -> is_mp (p + 16 * j) && (sum (p + 16 * j) 16 =? 0) = false
  | None => forall j, 0 <= j -> p + 16 * j < e -> is_mp (p + 16 * j) && (sum (p + 16 * j) 16 =? 0) = false
  end.
Proof.
  revert p. induction n as [|n IH]; intros p Hn; cbn [mpsearch1_loop]; (destruct (Z.ltb_spec p e); [|intros; lia]); [lia|]. unfold SIZEOF_MP in *.
  destruct (is_mp p && (sum p 16 =? 0)) eqn:E.
  - apply andb_prop in E as [E1 E2%Z.eqb_eq]. exists 0. split_and!; auto; try lia.
  - specialize (IH (p + 16) ltac:(lia)). destruct (mpsearch1_loop n (p + 16) e) as [q|].
    + destruct IH as (k & Hk & -> & Hq & H1 & H2 & H3). exists (k + 1). split; [lia|]. split; [lia|]. split; [lia|]. split; [exact H1|]. split; [exact H2|]. intros j Hj. destruct (Z.eq_dec j 0) as [->|]; [rewrite Z.mul_0_r, Z.add_0_r; exact E|].
      replace (p + 16 * j) with (p + 16 + 16 * (j - 1)) by lia. apply H3. lia.
    + intros j Hj Hlt. destruct (Z.eq_dec j 0) as [->|]; [rewrite Z.mul_0_r, Z.add_0_r; exact E|].
      replace (p + 16 * j) with (p + 16 + 16 * (j - 1)) by lia. apply IH; lia.
Qed.

(** ** The walk *)

Definition known (t : Z) : bool := (t =? MPPROC) || (t =? MPIOAPIC) || (t =? MPBUS) || (t =? MPIOINTR) || (t =? MPLINTR).
Definition entry_size (t : Z) : Z := if t =? MPPROC then SIZEOF_MPPROC else 8.

(** The entries [es] (type and id) lie in memory from [p] up to [e]. *)
Fixpoint laid (p : Z) (es : list (Z * Z)) (e : Z) : Prop :=
  match es with
  | [] => p = e
  | (t, id) :: es' => m p = t /\ known t = true /\ m (p + 1) = id /\ laid (p + entry_size t) es' e
  end.

(** What the entries amount to. *)
Definition processors (es : list (Z * Z)) : list Z := map snd (filter (fun x => fst x = MPPROC) es).
Definition last_ioapic (es : list (Z * Z)) (io : Z) : Z := default io (last (map snd (filter (fun x => fst x = MPIOAPIC) es))).

Lemma laid_size p es e : laid p es e -> p + 8 * Z.of_nat (length es) <= e.
Proof.
  revert p. induction es as [|[t id] es IH]; intros p; cbn [laid length]; [lia|]. intros (_ & _ & _ & H). apply IH in H. unfold entry_size, SIZEOF_MPPROC in H. destruct (t =? MPPROC); lia.
Qed.

Lemma last_ioapic_cons t id es io : last_ioapic ((t, id) :: es) io = last_ioapic es (if t =? MPIOAPIC then id else io).
Proof.
  unfold last_ioapic. rewrite filter_cons. cbn [fst]. destruct (Z.eqb_spec t MPIOAPIC); [rewrite decide_True by done | by rewrite decide_False by done].
  cbn [map snd]. destruct (map snd (filter _ es)) as [|y l] eqn:E; [done|]. rewrite last_cons. by destruct (last (y :: l)) eqn:El; [|apply last_None in El].
Qed.

(** Walking known entries collects the first [NCPU] processors and the last I/O APIC. *)
Lemma mp_loop_laid es : forall fuel p q e ismp st, laid p es q -> q <= e -> Z.of_nat (length (apicids st)) <= NCPU ->
  mp_loop (length es + fuel) p e ismp st =
  mp_loop fuel q e ismp (mk_mpst (take (Z.to_nat NCPU) (apicids st ++ processors es)) (last_ioapic es (ioapicid st)) (lapic st)).
Proof.
  induction es as [|[t id] es IH]; intros fuel p q e ismp st Hl Hq Hc.
  - cbn in Hl. subst q. cbn [length Nat.add processors filter map last_ioapic]. change (processors []) with (@nil Z). rewrite app_nil_r, take_ge by lia. by destruct st.
  - pose proof (laid_size _ _ _ Hl) as Hsz. cbn [laid length] in *. destruct Hl as (Ht & Hk & Hid & Hl). cbn [Nat.add mp_loop]. destruct (Z.ltb_spec p e); [|lia]. rewrite Ht, Hid, last_ioapic_cons.
    assert (Hpr : processors ((t, id) :: es) = if t =? MPPROC then id :: processors es else processors es).
    { unfold processors. rewrite filter_cons. cbn [fst]. by destruct (Z.eqb_spec t MPPROC); [rewrite decide_True | rewrite decide_False]. }
    rewrite Hpr. unfold entry_size in Hl. unfold known in Hk. destruct (Z.eqb_spec t MPPROC) as [->|].
    + change (MPPROC =? MPIOAPIC) with false. destruct (Z.ltb_spec (Z.of_nat (length (apicids st))) NCPU).
      { rewrite (IH _ _ q); [cbn [apicids ioapicid lapic]; by rewrite <- app_assoc | done | done | cbn [apicids]; rewrite length_app; cbn [length]; lia]. }
      rewrite (IH _ _ q) by done. do 2 f_equal. rewrite !take_app_ge by (unfold NCPU in *; lia).
      replace (Z.to_nat NCPU - length (apicids st))%nat with 0%nat by lia. done.
    + destruct (Z.eqb_spec t MPIOAPIC) as [->|]; [by rewrite (IH _ _ q)|]. cbn [orb] in Hk. rewrite Hk. by rewrite (IH _ _ q).
Qed.

(** A type that is not in the switch is looked at again and again. *)
Lemma mp_loop_unknown fuel p e ismp st : p < e -> known (m p) = false -> mp_loop fuel p e ismp st = Blocked.
Proof.
  intros Hp Hk. revert ismp. induction fuel as [|fuel IH]; intros ismp; cbn [mp_loop]; rewrite (proj2 (Z.ltb_lt _ _) Hp); [done|]. unfold known in Hk.
  apply orb_false_elim in Hk as [Hk H5]. apply orb_false_elim in Hk as [Hk H4]. apply orb_false_elim in Hk as [Hk H3]. apply orb_false_elim in Hk as [H1 H2].
  rewrite H1, H2, H3, H4, H5. apply IH.
Qed.

(** Mpinit finds the machine.  When the configuration table holds entries of
    the five known types, mpinit completes: it records the APIC ids of the
    first [NCPU] processors in table order, the I/O APIC of the last such
    entry and the address of the local APIC. *)
Theorem mpinit_spec mp conf es st : mpconfig = Some (mp, conf) -> laid (conf + SIZEOF_MPCONF) es (conf + conf_length conf) -> apicids st = [] ->
  mpinit st = Ok (mk_mpst (take (Z.to_nat NCPU) (processors es)) (last_ioapic es (ioapicid st)) (conf_lapicaddr conf), negb (imcrp mp =? 0)).
Proof.
  intros Hc Hl Hst. unfold mpinit. rewrite Hc. pose proof (laid_size _ _ _ Hl) as Hsz. unfold SIZEOF_MPCONF in *.
  replace (Z.to_nat (conf_length conf)) with (length es + (Z.to_nat (conf_length conf) - length es))%nat by lia.
  rewrite (mp_loop_laid es _ _ (conf + conf_length conf)); [|done|lia|cbn [apicids]; rewrite Hst; done]. cbn [apicids ioapicid lapic]. rewrite Hst.
  destruct (_ - length es)%nat; cbn [mp_loop]; rewrite Z.ltb_irrefl; reflexivity.
Qed.

(** An entry of another type stops the boot without a message: from the first
    one on the loop makes no progress, for any number of iterations, and the
    panic meant for this case is never reached. *)
Theorem mpinit_unknown_hangs mp conf es st : mpconfig = Some (mp, conf) ->
  (exists q, laid (conf + SIZEOF_MPCONF) es q /\ q < conf + conf_length conf /\ known (m q) = false) ->
  forall fuel, mp_loop fuel (conf + SIZEOF_MPCONF) (conf + conf_length conf) true st = Blocked /\ mpinit st = Blocked.
Proof.
  intros Hc (q & Hl & Hq & Hk) fuel.
  assert (Hall : forall n p s ismp, laid p es q -> mp_loop n p (conf + conf_length conf) ismp s = Blocked).
  { clear Hl Hc fuel. induction es as [|[t id] es IH]; intros n p s ismp Hl; cbn [laid] in Hl; [subst p; by apply mp_loop_unknown|]. pose proof Hl as (Ht & Hkn & _ & Hl').
    pose proof (laid_size _ ((t, id) :: es) _ Hl) as Hsz. cbn [length] in Hsz. destruct n as [|n]; cbn [mp_loop]; (destruct (Z.ltb_spec p (conf + conf_length conf)); [|lia]); [done|]. rewrite Ht. unfold known in Hkn. unfold entry_size in Hl'.
    destruct (Z.eqb_spec t MPPROC); [by apply IH|]. destruct (Z.eqb_spec t MPIOAPIC); [by apply IH|]. cbn [orb] in Hkn. rewrite Hkn. by apply IH. }
  split; [by apply Hall|]. unfold mpinit. rewrite Hc. by rewrite Hall.
Qed.
End mp.

(** Low memory with the pointer in the EBDA, at 0x9fc00, and a table with a
    processor, a bus, an entry of type [last] and an interrupt at 0x1000. *)
Definition wit_table (last : Z) : list Z :=
  let body := [80; 67; 77; 80; 88; 0; 4; 0] ++ repeat 0 28 ++ [0; 0; 224; 254; 0; 0; 0; 0] ++ [0; 3] ++ repeat 0 18 ++ [1; 0] ++ repeat 0 6 ++ [last; 9] ++ repeat 0 6 ++ [3; 0] ++ repeat 0 6 in
  <[7%nat := (- foldr Z.add 0 body) mod 256]> body.
Definition wit_low (last : Z) : mem :=
  mwrite (mwrite (mwrite (fun _ => 0) (P2V 1038) [192; 159]) (P2V 654336) [95; 77; 80; 95; 0; 16; 0; 0; 1; 4; 144; 0; 0; 0; 0; 0]) (P2V 4096) (wit_table last).

Lemma mpinit_spec_witness : mpinit (wit_low 2) (mk_mpst [] 0 0) = Ok (mk_mpst [3] 9 4276092928, false).
Proof.
  rewrite (mpinit_spec (wit_low 2) (P2V 654336) (P2V 4096) [(0, 3); (1, 0); (2, 9); (3, 0)]); [vm_compute; reflexivity | vm_compute; reflexivity | vm_compute; split_and!; reflexivity | reflexivity].
Defined.

Lemma mpinit_unknown_hangs_witness : mp_loop (wit_low 7) 1000 (P2V 4096 + SIZEOF_MPCONF) (P2V 4096 + 88) true (mk_mpst [] 0 0) = Blocked /\
  mpinit (wit_low 7) (mk_mpst [] 0 0) = Blocked.
Proof.
  apply (mpinit_unknown_hangs (wit_low 7) (P2V 654336) (P2V 4096) [(0, 3); (1, 0)]); [vm_compute; reflexivity|].
  exists (P2V 4096 + SIZEOF_MPCONF + 28). vm_compute. split_and!; reflexivity.
Defined.
End Mp.

Module Rtc.

Definition CMOS_STATA : Z := 10.
Definition CMOS_STATB : Z := 11.
Definition CMOS_UIP : Z := Z.shiftl 1 7.
Definition SECS : Z := 0.
Definition MINS : Z := 2.
Definition HOURS : Z := 4.
Definition DAY : Z := 7.
Definition MONTH : Z := 8.
Definition YEAR : Z := 9.

Section rtc.
(** The register values at the n-th access. *)
Context (cmos : nat -> Z -> Z).

Definition cmos_read (reg : Z) (t : nat) : Z * nat := (cmos t reg, S t).

Definition fill_rtcdate (t : nat) : rtcdate * nat :=
  let (s, t) := cmos_read SECS t in
  let (mi, t) := cmos_read MINS t in
  let (h, t) := cmos_read HOURS t in
  let (d, t) := cmos_read DAY t in
  let (mo, t) := cmos_read MONTH t in
  let (y, t) := cmos_read YEAR t in
  (mk_rtcdate s mi h d mo y, t).

#[global] Instance rtcdate_eq_dec : EqDecision rtcdate.
Proof. solve_decision. Defined.

(** The loop that reads twice until nothing moved. *)
Fixpoint cmostime_loop (fuel : nat) (t : nat) : res (rtcdate * nat) :=
  match fuel with
  | O => Blocked
  | S fuel' =>
      let (t1, t) := fill_rtcdate t in
      let (a, t) := cmos_read CMOS_STATA t in
      if negb (Z.land a CMOS_UIP =? 0) then cmostime_loop fuel' t
      else
        let (t2, t) := fill_rtcdate t in
        if decide (t1 = t2) then Ok (t1, t) else cmostime_loop fuel' t
  end.

(** CONV *)
Definition conv (x : Z) : Z := u32 (Z.shiftr x 4 * 10 + Z.land x 15).

Definition conv_date (r : rtcdate) : rtcdate :=
  mk_rtcdate (conv (rd_second r)) (conv (rd_minute r)) (conv (rd_hour r)) (conv (rd_day r)) (conv (rd_month r)) (conv (rd_year r)).

Definition cmostime (fuel : nat) (t : nat) : res (rtcdate * nat) :=
  let (sb, t) := cmos_read CMOS_STATB t in
  let bcd := Z.land sb (Z.shiftl 1 2) =? 0 in
  let* (t1, t) := cmostime_loop fuel t in
  let t1 := if bcd then conv_date t1 else t1 in
  Ok (mk_rtcdate (rd_second t1) (rd_minute t1) (rd_hour t1) (rd_day t1) (rd_month t1) (u32 (rd_year t1 + 2000)), t).

(** One complete reading that starts at access [t]. *)
Definition reading (t : nat) : rtcdate :=
  mk_rtcdate (cmos t SECS) (cmos (1 + t) MINS) (cmos (2 + t) HOURS) (cmos (3 + t) DAY) (cmos (4 + t) MONTH) (cmos (5 + t) YEAR).

Lemma fill_reading t : fill_rtcdate t = (reading t, 6 + t)%nat.
Proof. reflexivity. Qed.

(** The clock shows [v] for [n] accesses from [T] on. *)
Definition quiet (T n : nat) (v : rtcdate) : Prop := forall t, (T <= t < T + n)%nat ->
  cmos t SECS = rd_second v /\ cmos t MINS = rd_minute v /\ cmos t HOURS = rd_hour v /\ cmos t DAY = rd_day v /\ cmos t MONTH = rd_month v /\
  cmos t YEAR = rd_year v /\ Z.land (cmos t CMOS_STATA) CMOS_UIP = 0.

Lemma quiet_reading T n v t : quiet T n v -> (T <= t)%nat -> (t + 6 <= T + n)%nat -> reading t = v.
Proof.
  intros Hq H1 H2. unfold reading. destruct (Hq t ltac:(lia)) as (-> & _). destruct (Hq (1 + t)%nat ltac:(lia)) as (_ & -> & _). destruct (Hq (2 + t)%nat ltac:(lia)) as (_ & _ & -> & _).
  destruct (Hq (3 + t)%nat ltac:(lia)) as (_ & _ & _ & -> & _). destruct (Hq (4 + t)%nat ltac:(lia)) as (_ & _ & _ & _ & -> & _). destruct (Hq (5 + t)%nat ltac:(lia)) as (_ & _ & _ & _ & _ & -> & _). by destruct v.
Qed.

(** A reading the loop accepts: no update in progress between two equal readings. *)
Definition settled (t : nat) (a : rtcdate) : Prop :=
  reading t = a /\ Z.land (cmos (6 + t) CMOS_STATA) CMOS_UIP = 0 /\ reading (7 + t) = a.

Lemma cmostime_loop_ok T v : quiet T 26 v -> forall fuel t, (T <= t + 7 * fuel)%nat -> (t < T + 13)%nat ->
  exists a t0, cmostime_loop (S fuel) t = Ok (a, 13 + t0)%nat /\ (t <= t0 < T + 13)%nat /\ settled t0 a.
Proof.
  intros Hq. induction fuel as [|fuel IH]; intros t Hf Ht; cbn [cmostime_loop]; rewrite !fill_reading; unfold cmos_read; rewrite fill_reading;
    (destruct (Z.eqb_spec (Z.land (cmos (6 + t) CMOS_STATA) CMOS_UIP) 0) as [Hu|Hu]; cbn [negb]; [destruct (decide (reading t = reading (S (6 + t)))) as [E|E]|]).
  1, 4: exists (reading t), t; split_and!; [done | lia | lia | by split_and!].
  1, 3: assert (t < T)%nat as Hlt by (destruct (decide (t < T)%nat); [done|]; destruct E; rewrite !(quiet_reading T 26 v) by (auto; lia); done); try lia.
  2, 3: assert (t < T)%nat as Hlt by (destruct (decide (t < T)%nat); [done|]; destruct Hu; apply (Hq (6 + t)%nat); lia); try lia.
  - destruct (IH (6 + S (6 + t))%nat) as (a & t0 & E0 & H1 & H2); [lia..|]. exists a, t0. split_and!; [exact E0 | lia | lia | exact H2].
  - destruct (IH (S (6 + t))%nat) as (a & t0 & E0 & H1 & H2); [lia..|]. exists a, t0. split_and!; [exact E0 | lia | lia | exact H2].
Qed.

Definition bcd (x : Z) : Z := 16 * (x / 10) + x mod 10.

Lemma conv_bcd x : 0 <= x < 100 -> conv (bcd x) = x.
Proof.
  intros Hx. unfold conv, bcd. rewrite Z.shiftr_div_pow2 by lia. change 15 with (Z.ones 4). rewrite Z.land_ones by lia. rewrite u32_small; zdiv.
Qed.

Definition finish (is_bcd : bool) (r : rtcdate) : rtcdate :=
  let r := if is_bcd then conv_date r else r in
  mk_rtcdate (rd_second r) (rd_minute r) (rd_hour r) (rd_day r) (rd_month r) (u32 (rd_year r + 2000)).

(** The clock is read whole.  If at some time [T] after the call the clock does
    not move for 26 accesses, cmostime returns by then; what it returns
    was the same in two complete readings with no update in between; and if
    they fall into the quiet time of a clock that counts in BCD, the result is
    the time it shows, in binary and with the century added. *)
Theorem cmostime_reads t T fuel (w : rtcdate) :
  let enc := mk_rtcdate (bcd (rd_second w)) (bcd (rd_minute w)) (bcd (rd_hour w)) (bcd (rd_day w)) (bcd (rd_month w)) (bcd (rd_year w)) in
  (forall f, In f [rd_second; rd_minute; rd_hour; rd_day; rd_month; rd_year] -> 0 <= f w < 100) ->
  quiet T 26 enc -> (t < T)%nat -> (T - t <= 7 * fuel)%nat ->
  exists a t0, let is_bcd := Z.land (cmos t CMOS_STATB) 4 =? 0 in
    cmostime (S fuel) t = Ok (finish is_bcd a, 13 + t0)%nat /\ (t < t0)%nat /\ (13 + t0 < T + 26)%nat /\ settled t0 a /\
    ((T <= t0)%nat -> is_bcd = true -> finish is_bcd a = mk_rtcdate (rd_second w) (rd_minute w) (rd_hour w) (rd_day w) (rd_month w) (rd_year w + 2000)).
Proof.
  intros enc Hw Hq Ht Hf. destruct (cmostime_loop_ok T enc Hq fuel (S t)) as (a & t0 & E & Hr & Hs); [lia..|]. exists a, t0. cbv zeta.
  split; [unfold cmostime, cmos_read; rewrite E; reflexivity|]. split; [lia|]. split; [lia|]. split; [exact Hs|].
  intros HT ->. destruct Hs as [<- _]. rewrite (quiet_reading T 26 enc) by (auto; lia). unfold finish, conv_date, enc. cbn [rd_second rd_minute rd_hour rd_day rd_month rd_year].
  assert (Hf' : forall f, In f [rd_second; rd_minute; rd_hour; rd_day; rd_month; rd_year] -> conv (bcd (f w)) = f w) by (intros f Hin; apply conv_bcd; auto).
  rewrite !Hf' by (cbn; tauto). specialize (Hw rd_year ltac:(cbn; tauto)). rewrite u32_small by lia. done.
Qed.
End rtc.

(** A clock that shows 23:59:59, then is updating, then 00:00:00 of the next day. *)
Definition wit_clock (t : nat) (reg : Z) : Z :=
  if (t <? 9)%nat then default 0 (list_to_map (M := gmap Z Z) [(SECS, 89); (MINS, 89); (HOURS, 35); (DAY, 49); (MONTH, 18); (YEAR, 36); (CMOS_STATA, CMOS_UIP)] !! reg)
  else default 0 (list_to_map (M := gmap Z Z) [(DAY, 1); (MONTH, 1); (YEAR, 37)] !! reg).

Lemma cmostime_reads_witness : cmostime wit_clock 3 0 = Ok (mk_rtcdate 0 0 0 1 1 2025, 34%nat) /\ exists a t0,
  cmostime wit_clock 3 0 = Ok (finish true a, 13 + t0)%nat /\ (0 < t0)%nat /\ settled wit_clock t0 a.
Proof.
  split; [vm_compute; reflexivity|].
  destruct (cmostime_reads wit_clock 0 9 2 (mk_rtcdate 0 0 0 1 1 25)) as (a & t0 & E & H1 & _ & H2 & _).
  - intros f Hf. cbn in Hf. repeat (destruct Hf as [<-|Hf]; [cbn; lia|]). done.
  - intros t Ht. unfold wit_clock. destruct (Nat.ltb_spec t 9); [lia|]. vm_compute. split_and!; reflexivity.
  - lia.
  - lia.
  - exists a, t0. split; [exact E|]. split; [exact H1 | exact H2].
Defined.
End Rtc.
