(* ===== verification/Utils.v ===== *)
(** * Small user programs: wc, cat, cp, ls (src/wc.c, src/cat.c, src/cp.c, src/ls.c)

    Regular files are byte lists under their paths; [read] into the 512-byte
    buffer returns the next at most 512 bytes.  Which of the program's writes
    fail is a parameter.  Output is the list of characters written. *)

From S2P Require Import Prelude StringLib Blocks Printf.

Definition BUFSZ : Z := 512.

(** What [read(fd, buf, sizeof(buf))] gives at offset [off]. *)
Definition read_at (content : list Z) (off : nat) : list Z := take (Z.to_nat BUFSZ) (drop off content).

Lemma read_at_app content off : drop off content = read_at content off ++ drop (length (read_at content off)) (drop off content).
Proof. unfold read_at. rewrite length_take. rewrite <- (take_drop (Z.to_nat BUFSZ) (drop off content)) at 1. f_equal. destruct (Nat.le_gt_cases (Z.to_nat BUFSZ) (length (drop off content))); [by rewrite Nat.min_l | rewrite Nat.min_r by lia; rewrite !drop_ge by lia; done]. Qed.

Lemma read_at_nil content off : read_at content off = [] <-> (length content <= off)%nat.
Proof.
  unfold read_at. split.
  - intros E. apply (f_equal length) in E. rewrite length_take, length_drop in E. cbn [length] in E. unfold BUFSZ in E. lia.
  - intros H. rewrite drop_ge by done. apply take_nil.
Qed.

Module Wc.

(** [l], [w], [c] and [inword]. *)
Record counts := mk_counts { nl : Z; nw : Z; nc : Z; inword : bool }.

(** [strchr(" \r\t\n\v", c)] is not null. *)
Definition blank (c : Z) : bool := bool_decide (c ∈ [32; 13; 9; 10; 11]).

Definition wc_char (s : counts) (c : Z) : counts :=
  let s := mk_counts (nl s) (nw s) (s32 (nc s + 1)) (inword s) in
  let s := if c =? 10 then mk_counts (s32 (nl s + 1)) (nw s) (nc s) (inword s) else s in
  if blank c then mk_counts (nl s) (nw s) (nc s) false
  else if negb (inword s) then mk_counts (nl s) (s32 (nw s + 1)) (nc s) true
  else s.

(** The read loop on the pieces [read] returns; [n] is its last result. *)
Fixpoint wc_loop (reads : list (list Z)) (s : counts) : counts :=
  match reads with
  | [] => s
  | buf :: reads' => wc_loop reads' (fold_left wc_char buf s)
  end.

(** "wc: read error\n" and "%d %d %d %s\n" *)
Definition wc_error : list Z := [119; 99; 58; 32; 114; 101; 97; 100; 32; 101; 114; 114; 111; 114; 10].
Definition wc_format : list Z := [37; 100; 32; 37; 100; 32; 37; 100; 32; 37; 115; 10].

Definition wc (reads : list (list Z)) (n : Z) (name : list Z) : list Z :=
  let s := wc_loop reads (mk_counts 0 0 0 false) in
  if n <? 0 then wc_error
  else printf (fun _ => name) (fun i => nth i [nl s; nw s; nc s; 1] 0) true wc_format.

(** ** What is counted *)

(** The maximal runs of characters that are not blank; [cur] is the run that is open. *)
Fixpoint words (cur l : list Z) : list (list Z) :=
  match l with
  | [] => match cur with [] => [] | _ => [cur] end
  | c :: l' => if blank c then match cur with [] => words [] l' | _ => cur :: words [] l' end else words (cur ++ [c]) l'
  end.

Definition lines (l : list Z) : nat := length (filter (fun c => c = 10) l).

Lemma wc_loop_concat reads s : wc_loop reads s = fold_left wc_char (concat reads) s.
Proof. revert s. induction reads as [|buf reads IH]; intros s; [done|]. cbn [wc_loop concat]. by rewrite fold_left_app, IH. Qed.

Lemma words_bound cur l : (length (words cur l) <= length l + match cur with [] => 0 | _ => 1 end)%nat.
Proof.
  revert cur. induction l as [|c l IH]; intros cur; cbn [words]; [destruct cur; cbn; lia|]. destruct (blank c).
  - destruct cur; cbn [length]; specialize (IH []); cbn in IH; lia.
  - specialize (IH (cur ++ [c])). cbn [length]. destruct (cur ++ [c]) eqn:E; [by destruct cur|]. destruct cur; lia.
Qed.

Lemma lines_bound l : (lines l <= length l)%nat.
Proof. unfold lines. apply length_filter. Qed.

(** The state after [l], when [k] characters, [i] lines and [j] finished words came before and [cur] is open. *)
Lemma fold_counts l : forall cur i j k, 0 <= i -> 0 <= j -> 0 <= k -> i <= k -> j <= k -> k + Z.of_nat (length l) < 2 ^ 31 ->
  let s := fold_left wc_char l (mk_counts i (j + match cur with [] => 0 | _ => 1 end) k (negb (bool_decide (cur = [])))) in
  j + match cur with [] => 0 | _ => 1 end <= k ->
  nl s = i + Z.of_nat (lines l) /\ nw s = j + Z.of_nat (length (words cur l)) /\ nc s = k + Z.of_nat (length l).
Proof.
  induction l as [|c l IH]; intros cur i j k Hi Hj Hk Hik Hjk Hb s Hw; subst s.
  - cbn. destruct cur; cbn; lia.
  - cbn [fold_left length] in *. assert (Hc : wc_char (mk_counts i (j + match cur with [] => 0 | _ => 1 end) k (negb (bool_decide (cur = [])))) c =
      mk_counts (if c =? 10 then i + 1 else i) (if blank c then j + match cur with [] => 0 | _ => 1 end else j + 1) (k + 1) (negb (blank c))).
    { unfold wc_char. cbn [nl nw nc inword]. rewrite !(s32_small (k + 1)) by lia. rewrite (s32_small (i + 1)) by lia.
      destruct (c =? 10), (blank c), cur; cbn [nl nw nc inword negb bool_decide decide]; rewrite ?s32_small by lia; f_equal; lia. }
    rewrite Hc. clear Hc. assert (Hl : Z.of_nat (lines (c :: l)) = (if c =? 10 then 1 else 0) + Z.of_nat (lines l)).
    { unfold lines. rewrite filter_cons. destruct (Z.eqb_spec c 10); [rewrite decide_True by done; cbn [length]; lia | by rewrite decide_False by done]. }
    cbn [words]. rewrite Hl. destruct (blank c) eqn:Eb.
    + specialize (IH [] (if c =? 10 then i + 1 else i) (j + match cur with [] => 0 | _ => 1 end) (k + 1)). cbn [bool_decide negb] in IH. rewrite Z.add_0_r in IH.
      destruct IH as (H1 & H2 & H3); [destruct (c =? 10); lia | destruct cur; lia | lia | destruct (c =? 10); lia | lia | lia | lia |]. rewrite bool_decide_eq_true_2 in H1, H2, H3 by done. cbn [negb] in *.
      rewrite H1, H2, H3. split_and!; [destruct (c =? 10); lia | destruct cur; cbn [length]; lia | lia].
    + assert (Hne : cur ++ [c] <> []) by (by destruct cur). specialize (IH (cur ++ [c]) (if c =? 10 then i + 1 else i) j (k + 1)). rewrite bool_decide_eq_false_2 in IH by done.
      assert (match cur ++ [c] with [] => 0 | _ => 1 end = 1) as E1 by (by destruct cur). rewrite E1 in IH. cbn [negb].
      destruct IH as (H1 & H2 & H3); [destruct (c =? 10); lia | lia | lia | destruct (c =? 10); lia | lia | lia | lia |].
      cbn [negb] in H1, H2, H3. rewrite H1, H2, H3. split_and!; [destruct (c =? 10); lia | lia | lia].
Qed.

(** wc prints the number of newlines, of words and of bytes of the whole input,
    no matter how it is cut into reads. *)
Theorem wc_counts reads name : Z.of_nat (length (concat reads)) < 2 ^ 31 ->
  wc reads 0 name = printint (Z.of_nat (lines (concat reads))) 10 true true ++ [32] ++
    printint (Z.of_nat (length (words [] (concat reads)))) 10 true true ++ [32] ++
    printint (Z.of_nat (length (concat reads))) 10 true true ++ [32] ++ name ++ [10].
Proof.
  intros Hb. unfold wc. rewrite wc_loop_concat. change (0 <? 0) with false. destruct (fold_counts (concat reads) [] 0 0 0) as (H1 & H2 & H3); [lia..|]. change (0 + 0) with 0 in *.
  change (negb (bool_decide ([] = []))) with false in *. rewrite H1, H2, H3, !Z.add_0_l. clear H1 H2 H3.
  pose proof (words_bound [] (concat reads)) as Hwb. rewrite Nat.add_0_r in Hwb. pose proof (lines_bound (concat reads)).
  unfold printf, wc_format. cbn [printf_loop negb Z.eqb Pos.eqb orb nth put_str app]. rewrite s32_small by lia. rewrite s32_small by lia. rewrite s32_small by lia. reflexivity.
Qed.

Lemma wc_counts_witness : wc [[97; 98]; [99; 32; 10; 100]] 0 [102] = [49; 32; 50; 32; 54; 32; 102; 10].
Proof. rewrite wc_counts; [vm_compute; reflexivity | vm_compute; reflexivity]. Defined.
End Wc.

Module Cat.

(** "cat: write error\n", "cat: read error\n" *)
Definition write_error : list Z := [99; 97; 116; 58; 32; 119; 114; 105; 116; 101; 32; 101; 114; 114; 111; 114; 10].
Definition read_error : list Z := [99; 97; 116; 58; 32; 114; 101; 97; 100; 32; 101; 114; 114; 111; 114; 10].
(** "cat: cannot open %s\n" *)
Definition open_format : list Z := [99; 97; 116; 58; 32; 99; 97; 110; 110; 111; 116; 32; 111; 112; 101; 110; 32; 37; 115; 10].

Section cat.
(** Whether the write of these bytes to the standard output is complete. *)
Context (write : list Z -> bool).

(** The output and whether the program goes on; [n] is the last result of [read]. *)
Fixpoint cat (reads : list (list Z)) (n : Z) : list Z * bool :=
  match reads with
  | [] => if n <? 0 then (read_error, false) else ([], true)
  | buf :: reads' =>
      if negb (write buf) then (write_error, false)
      else let (out, go) := cat reads' n in (buf ++ out, go)
  end.

(** The reads of a file of the world, to its end. *)
Fixpoint pieces (fuel : nat) (content : list Z) : list (list Z) :=
  match fuel with
  | O => []
  | S f => match content with [] => [] | _ => take (Z.to_nat BUFSZ) content :: pieces f (drop (Z.to_nat BUFSZ) content) end
  end.

(** The loop over the arguments of [main]; [open] gives a file's bytes. *)
Fixpoint cat_files (open : list Z -> option (list Z)) (args : list (list Z)) : list Z :=
  match args with
  | [] => []
  | a :: args' =>
      match open a with
      | None => printf (fun _ => a) (fun _ => 1) true open_format
      | Some content => let (out, go) := cat (pieces (length content) content) 0 in out ++ if go then cat_files open args' else []
      end
  end.

Lemma pieces_concat fuel : forall content, (length content <= fuel)%nat -> concat (pieces fuel content) = content.
Proof.
  induction fuel as [|f IH]; intros [|c content] Hf; cbn [pieces concat]; try done; [cbn in Hf; lia|]. cbn [length] in Hf.
  rewrite IH by (rewrite length_drop; cbn [length]; unfold BUFSZ; lia). apply take_drop.
Qed.

Lemma cat_all reads : (forall b, write b = true) -> cat reads 0 = (concat reads, true).
Proof. intros Hw. induction reads as [|b reads IH]; [done|]. cbn [cat concat]. rewrite Hw, IH. done. Qed.

(** cat writes the concatenation of its files; at the first one it cannot open
    it reports that file and stops. *)
Theorem cat_concatenates open args rest : (forall b, write b = true) -> Forall (fun a => is_Some (open a)) args ->
  match rest with [] => True | a :: _ => open a = None end ->
  cat_files open (args ++ rest) = concat (map (fun a => default [] (open a)) args) ++
    match rest with [] => [] | a :: _ => [99; 97; 116; 58; 32; 99; 97; 110; 110; 111; 116; 32; 111; 112; 101; 110; 32] ++ a ++ [10] end.
Proof.
  intros Hw Ha Hr. induction Ha as [|a args [content E] Ha IH]; cbn [app cat_files map concat].
  - destruct rest as [|a rest]; [done|]. cbn [cat_files]. rewrite Hr. reflexivity.
  - rewrite E, (cat_all _ Hw), pieces_concat by done. cbn [default]. by rewrite IH, app_assoc.
Qed.
End cat.

Lemma cat_concatenates_witness : cat_files (fun _ => true) (fun a => if bool_decide (a = [97]) then Some (repeat 7 600) else None) [[97]; [98]] =
  repeat 7 600 ++ [99; 97; 116; 58; 32; 99; 97; 110; 110; 111; 116; 32; 111; 112; 101; 110; 32; 98; 10].
Proof.
  rewrite (cat_concatenates (fun _ => true) (fun a => if bool_decide (a = [97]) then Some (repeat 7 600) else None) [[97]] [[98]]); [vm_compute; reflexivity | done | | done].
  apply Forall_cons_2; [by eexists | apply Forall_nil_2].
Defined.
End Cat.

Module Cp.

(** Regular files by path. *)
Abbreviation world := (gmap (list Z) (list Z)).

Definition bytes_of (w : world) (p : list Z) : list Z := default [] (w !! p).

(** [write] at offset [off] of a file. *)
Definition overwrite (old : list Z) (off : nat) (data : list Z) : list Z := take off old ++ data ++ drop (off + length data) old.

Section cp.
(** The write number [k] of the run goes through (the disk may be full). *)
Context (wok : nat -> bool).

(** The copy loop: both descriptors have their own offset. *)
Fixpoint cp_loop (fuel k : nat) (src dst : list Z) (roff woff : nat) (w : world) : res world :=
  let buf := read_at (bytes_of w src) roff in
  match buf with
  | [] => Ok w
  | _ =>
      match fuel with
      | O => Blocked
      | S f =>
          if wok k then cp_loop f (S k) src dst (roff + length buf) (woff + length buf) (<[dst := overwrite (bytes_of w dst) woff buf]> w)
          else cp_loop f (S k) src dst (roff + length buf) woff w
      end
  end.

(** "cp requires at least 2 arguments\n", "cp: cannot open %s\n" *)
Definition usage : list Z := [99; 112; 32; 114; 101; 113; 117; 105; 114; 101; 115; 32; 97; 116; 32; 108; 101; 97; 115; 116; 32; 50; 32; 97; 114; 103; 117; 109; 101; 110; 116; 115; 10].
Definition open_error : list Z := [99; 112; 58; 32; 99; 97; 110; 110; 111; 116; 32; 111; 112; 101; 110; 32; 37; 115; 10].

(** [main]; [can_create] says whether a file can be made under a path.  [O_CREATE]
    does not shorten a file that is there. *)
Definition cp (can_create : list Z -> bool) (args : list (list Z)) (w : world) : res (list Z * world) :=
  match args with
  | src :: dst :: _ =>
      match w !! src with
      | None => Ok (printf (fun _ => src) (fun _ => 1) true open_error, w)
      | Some content =>
          let w' := match w !! dst with Some _ => Some w | None => if can_create dst then Some (<[dst := []]> w) else None end in
          match w' with
          | None => Ok (printf (fun _ => dst) (fun _ => 1) true open_error, w)
          | Some w => let* w := cp_loop (length content) 0 src dst 0 0 w in Ok ([], w)
          end
      end
  | _ => Ok (usage, w)
  end.
End cp.

Lemma length_overwrite old off data : (off <= length old)%nat -> length (overwrite old off data) = Nat.max (length old) (off + length data).
Proof. intros H. unfold overwrite. rewrite !length_app, length_take, length_drop. lia. Qed.

(** The destination after [n] bytes of [content] have been copied. *)
Definition copied (content old : list Z) (n : nat) : list Z := take n content ++ drop n old.

Lemma copied_write content old n : (n <= length content)%nat ->
  overwrite (copied content old n) n (read_at content n) = copied content old (n + length (read_at content n)).
Proof.
  intros Hn. unfold overwrite, copied. set (b := read_at content n). assert (Ht : length (take n content) = n) by (rewrite length_take; lia).
  rewrite take_app_le by lia. rewrite (take_ge (take n content)) by lia.
  rewrite drop_app_ge by lia. rewrite Ht, drop_drop. replace (n + (n + length b - n))%nat with (n + length b)%nat by lia.
  rewrite app_assoc. f_equal. rewrite <- (take_take_drop content n (length b)). f_equal. rewrite (read_at_app content n). fold b. by rewrite take_app_length.
Qed.

Lemma read_at_length content n : length (read_at content n) = Nat.min 512 (length content - n).
Proof. unfold read_at. rewrite length_take, length_drop. done. Qed.

(** The loop with two different files and no failing write. *)
Lemma cp_loop_ok src dst content old w : src <> dst -> w !! src = Some content -> forall fuel k n,
  (n <= length content)%nat -> (length content - n <= fuel)%nat ->
  cp_loop (fun _ => true) fuel k src dst n n (<[dst := copied content old n]> w) = Ok (<[dst := copied content old (length content)]> w).
Proof.
  intros Hne Hs. induction fuel as [|f IH]; intros k n Hn Hf; cbn [cp_loop].
  all: assert (Hb : bytes_of (<[dst := copied content old n]> w) src = content) by (unfold bytes_of; by rewrite lookup_insert_ne, Hs); rewrite Hb.
  - assert (n = length content) as -> by lia. destruct (read_at content (length content)) eqn:E; [done|]. apply (f_equal length) in E. rewrite read_at_length, Nat.sub_diag, Nat.min_0_r in E. done.
  - pose proof (read_at_length content n) as Hl. destruct (read_at content n) as [|c b] eqn:E.
    + apply read_at_nil in E. assert (n = length content) as -> by lia. reflexivity.
    + rewrite <- E in *. replace (bytes_of (<[dst:=copied content old n]> w) dst) with (copied content old n) by (unfold bytes_of; by rewrite lookup_insert_eq).
      rewrite copied_write by done. rewrite insert_insert_eq. apply IH; rewrite read_at_length in *; [lia|]. assert (n < length content)%nat; [|lia].
      destruct (Nat.lt_ge_cases n (length content)); [done|]. apply read_at_nil in H. rewrite H in E. done.
Qed.

(** A file copied onto itself. *)
Lemma overwrite_self content n : overwrite content n (read_at content n) = content.
Proof. unfold overwrite. rewrite <- drop_drop. rewrite <- read_at_app. apply take_drop. Qed.

Lemma cp_loop_self src content w : w !! src = Some content -> forall fuel k n, (length content - n <= fuel)%nat ->
  cp_loop (fun _ => true) fuel k src src n n w = Ok w.
Proof.
  intros Hs. assert (Hb : bytes_of w src = content) by (unfold bytes_of; by rewrite Hs).
  induction fuel as [|f IH]; intros k n Hf; cbn [cp_loop]; rewrite Hb; pose proof (read_at_length content n) as Hl; destruct (read_at content n) as [|c b] eqn:E; try done.
  - cbn [length] in Hl. lia.
  - rewrite <- E in *. rewrite overwrite_self, insert_id by done. apply IH. rewrite E in *. cbn [length] in *. lia.
Qed.

(** Cp completes; when every write goes through, the destination begins with
    the bytes of the source, what it held beyond them stays, and no other
    file changes.  So the copy is exact when the destination was not longer
    than the source. *)
Theorem cp_copies can_create src dst rest w content : w !! src = Some content -> is_Some (w !! dst) \/ can_create dst = true ->
  exists w', cp (fun _ => true) can_create (src :: dst :: rest) w = Ok ([], w') /\
    bytes_of w' dst = content ++ drop (length content) (bytes_of w dst) /\
    (forall p, p <> dst -> w' !! p = w !! p) /\
    ((length (bytes_of w dst) <= length content)%nat -> bytes_of w' dst = content).
Proof.
  intros Hs Hd. destruct (decide (src = dst)) as [<-|Hne].
  - exists w. unfold cp. rewrite Hs. rewrite (cp_loop_self _ content) by (auto; lia). unfold bytes_of. rewrite Hs. cbn [default rbind]. rewrite drop_all, app_nil_r. done.
  - exists (<[dst := copied content (bytes_of w dst) (length content)]> w). unfold cp. rewrite Hs.
    assert (Hw : exists w0, (match w !! dst with Some _ => Some w | None => if can_create dst then Some (<[dst := []]> w) else None end) = Some w0 /\ w0 = <[dst := copied content (bytes_of w dst) 0]> w).
    { unfold bytes_of. destruct (w !! dst) as [old|] eqn:E; [exists w; split; [done|]; cbn; by rewrite insert_id|]. destruct Hd as [[? ?]|Hc]; [done|]. rewrite Hc. by eexists. }
    destruct Hw as (w0 & -> & ->). rewrite cp_loop_ok by (auto; lia). cbn [rbind]. split; [done|]. unfold copied. rewrite take_ge by lia.
    split; [unfold bytes_of at 1; by rewrite lookup_insert_eq|]. split; [intros p Hp; by rewrite lookup_insert_ne|]. intros Hl. unfold bytes_of at 1. rewrite lookup_insert_eq. cbn. by rewrite drop_ge, app_nil_r by done.
Qed.

Definition wit_world : world := {[ [97] := [1; 2]; [98] := [3; 4; 5] ]}.

Lemma cp_copies_witness : exists w', cp (fun _ => true) (fun _ => false) [[97]; [98]] wit_world = Ok ([], w') /\ bytes_of w' [98] = [1; 2; 5].
Proof.
  destruct (cp_copies (fun _ => false) [97] [98] [] wit_world [1; 2]) as (w' & H1 & H2 & _); [reflexivity | left; by eexists|]. exists w'. split; [exact H1 | exact H2].
Defined.

(** A write that fails is not noticed: the copy ends without a message, with the piece missing. *)
Lemma cp_write_lost : exists w', cp (fun k => negb (k =? 0)%nat) (fun _ => true) [[97]; [99]] {[ [97] := repeat 1 512 ++ [2] ]} = Ok ([], w') /\ bytes_of w' [99] = [2].
Proof. eexists. split; [vm_compute; reflexivity | vm_compute; reflexivity]. Qed.
End Cp.

Module Ls.

(** The place behind the last slash, looking at the first [n] characters. *)
Fixpoint after_slash (path : list Z) (n : nat) : nat :=
  match n with
  | O => O
  | S p => if nth p path 0 =? 47 then S p else after_slash path p
  end.

Definition fmtname (path : list Z) : list Z :=
  let p := drop (after_slash path (S (length path))) path in
  if DIRSIZ <=? Z.of_nat (length p) then p
  else p ++ repeat 32 (Z.to_nat DIRSIZ - length p).

Record ustat := mk_ustat { us_type : Z; us_ino : Z; us_size : Z }.

(** "%s %d %d %d\n", "ls: cannot open %s\n", "ls: cannot stat %s\n", "ls: path too long\n" *)
Definition line_format : list Z := [37; 115; 32; 37; 100; 32; 37; 100; 32; 37; 100; 10].
Definition no_open : list Z := [108; 115; 58; 32; 99; 97; 110; 110; 111; 116; 32; 111; 112; 101; 110; 32; 37; 115; 10].
Definition no_stat : list Z := [108; 115; 58; 32; 99; 97; 110; 110; 111; 116; 32; 115; 116; 97; 116; 32; 37; 115; 10].
Definition too_long : list Z := [108; 115; 58; 32; 112; 97; 116; 104; 32; 116; 111; 111; 32; 108; 111; 110; 103; 10].

Definition ls_line (path : list Z) (st : ustat) : list Z :=
  printf (fun _ => fmtname path) (fun i => nth i [1; us_type st; us_ino st; us_size st] 0) true line_format.

Section ls.
(** [stat] by path. *)
Context (stat : list Z -> option ustat).

(** The loop over the directory entries (number and name as a C string). *)
Fixpoint ls_dir (path : list Z) (des : list (Z * list Z)) : list Z :=
  match des with
  | [] => []
  | (inum, name) :: des' =>
      if inum =? 0 then ls_dir path des'
      else
        let buf := path ++ [47] ++ name in
        (match stat buf with
         | None => printf (fun _ => buf) (fun _ => 1) true no_stat
         | Some st => ls_line buf st
         end) ++ ls_dir path des'
  end.

(** [ls(path)]: [fd] is the opened file's [fstat] result and, for a directory, its entries. *)
Definition ls (path : list Z) (fd : option (option ustat * list (Z * list Z))) : list Z :=
  match fd with
  | None => printf (fun _ => path) (fun _ => 1) true no_open
  | Some (None, _) => printf (fun _ => path) (fun _ => 1) true no_stat
  | Some (Some st, des) =>
      if us_type st =? 2 then ls_line path st
      else if us_type st =? 1 then
        if 512 <? Z.of_nat (length path) + 1 + DIRSIZ + 1 then too_long else ls_dir path des
      else []
  end.

(** The column of names: the last element of the path, padded. *)
Definition padded (name : list Z) : list Z := name ++ repeat 32 (Z.to_nat DIRSIZ - length name).

Lemma after_slash_none path : forall n, (forall p, (p < n)%nat -> nth p path 0 <> 47) -> after_slash path n = O.
Proof.
  induction n as [|n IH]; intros H; [done|]. cbn [after_slash]. destruct (Z.eqb_spec (nth n path 0) 47) as [E|]; [by destruct (H n ltac:(lia))|]. apply IH. intros p Hp. apply H. lia.
Qed.

Lemma after_slash_last dir base n : 47 ∉ base -> (length dir < n)%nat -> after_slash (dir ++ 47 :: base) n = S (length dir).
Proof.
  intros Hb. induction n as [|n IH]; intros Hn; [lia|]. cbn [after_slash]. destruct (decide (n = length dir)) as [->|Hne].
  - by rewrite app_nth2, Nat.sub_diag by lia.
  - rewrite app_nth2 by lia. destruct (n - length dir)%nat as [|j] eqn:Ej; [lia|]. cbn [nth]. destruct (Z.eqb_spec (nth j base 0) 47) as [E|]; [|apply IH; lia].
    destruct Hb. destruct (Nat.lt_ge_cases j (length base)) as [Hj|Hj]; [rewrite <- E; apply list_elem_of_In, nth_In; done | by rewrite nth_overflow in E].
Qed.

Lemma fmtname_base dir base : 47 ∉ base -> fmtname (dir ++ 47 :: base) = padded base.
Proof.
  intros Hb. unfold fmtname, padded. rewrite after_slash_last by (auto; rewrite length_app; cbn [length]; lia).
  replace (drop (S (length dir)) (dir ++ 47 :: base)) with base by (rewrite drop_app_ge by lia; replace (S (length dir) - length dir)%nat with 1%nat by lia; done).
  destruct (Z.leb_spec DIRSIZ (Z.of_nat (length base))); [|done]. replace (Z.to_nat DIRSIZ - length base)%nat with 0%nat by lia. by rewrite app_nil_r.
Qed.

(** ls of a directory prints a line for every used entry, in order: the name
    padded to 14 columns, then type, inode number and size as [stat] finds
    them under the full path. *)
Theorem ls_lists path dst des (info : list Z -> ustat) : us_type dst = 1 -> Z.of_nat (length path) <= 496 ->
  Forall (fun e : Z * list Z => (47 ∉ snd e) /\ stat (path ++ [47] ++ snd e) = Some (info (snd e)) /\
    (let st := info (snd e) in 0 <= us_type st < 2 ^ 31 /\ 0 <= us_ino st < 2 ^ 31 /\ 0 <= us_size st < 2 ^ 31)) des ->
  ls path (Some (Some dst, des)) = concat (map (fun e => let st := info (snd e) in
    padded (snd e) ++ [32] ++ printint (us_type st) 10 true true ++ [32] ++ printint (us_ino st) 10 true true ++ [32] ++ printint (us_size st) 10 true true ++ [10])
    (filter (fun e => fst e <> 0) des)).
Proof.
  intros Ht Hp Hd. unfold ls. rewrite Ht. cbn [Z.eqb Pos.eqb]. unfold DIRSIZ. destruct (Z.ltb_spec 512 (Z.of_nat (length path) + 1 + 14 + 1)); [lia|].
  induction Hd as [|[inum name] des (Hn & Hs & Hr) Hd IH]; [done|]. cbn [ls_dir fst snd] in *. rewrite filter_cons. cbn [fst]. cbv zeta in Hr. destruct Hr as (H1 & H2 & H3). destruct (Z.eqb_spec inum 0); [by rewrite decide_False by (intros ?; done)|].
  rewrite decide_True by done. cbn [map concat snd]. rewrite Hs, IH. f_equal. unfold ls_line, printf, line_format. cbn [printf_loop negb Z.eqb Pos.eqb orb nth put_str]. change (path ++ [47] ++ name) with (path ++ 47 :: name). rewrite (fmtname_base path name Hn).
  rewrite (s32_small (us_type _)) by lia. rewrite (s32_small (us_ino _)) by lia. rewrite (s32_small (us_size _)) by lia. reflexivity.
Qed.
End ls.

Lemma ls_lists_witness : ls (fun _ => Some (mk_ustat 2 7 12)) [46] (Some (Some (mk_ustat 1 1 512), [(7, [97]); (0, [98])])) =
  [97] ++ repeat 32 13 ++ [32; 50; 32; 55; 32; 49; 50; 10].
Proof.
  rewrite (ls_lists (fun _ => Some (mk_ustat 2 7 12)) [46] (mk_ustat 1 1 512) [(7, [97]); (0, [98])] (fun _ => mk_ustat 2 7 12)); [vm_compute; reflexivity | reflexivity | vm_compute; discriminate |].
  repeat (apply Forall_cons_2; [split; [by rewrite <- (bool_decide_eq_false (_ ∈ _)) | split; [reflexivity | cbn; lia]]|]). apply Forall_nil_2.
Defined.
End Ls.
