(* ===== verification/Mjsh.v ===== *)
(** * The shells with a history (src/mjsh.c, src/ezsh.c)

    A command is the list of its argument strings; [struct command] objects are
    shared between the variable [command] and the slots of the history, so they
    live in a store and are named by their index.  No memory is freed, so what
    [malloc] returns is zero and the strings end where their characters do.  A
    store behind a block of [malloc], a null pointer followed and a history slot
    out of range stop the model with a [Panic].  What a line makes the shell do
    is a list of events.  The shell's children that it has not waited for are
    part of its state; the answers of the system say whether [fork] gives a
    child and which of its children [wait] returns. *)

From S2P Require Import Prelude Printf Umalloc Sh Xvedit.

Definition MAX_ARGS : nat := 10.
Definition HISTORY_SIZE : nat := 10.

(** Characters that fit argument [arg]: 30 pointers' worth for the
    first, [malloc(30)] for the others. *)
Definition arg_room (arg : nat) : Z := match arg with O => usable 120 | S _ => usable 30 end.

(** The loop of [parsecmd] with the finished arguments and the current one. *)
Fixpoint parse_loop (buf : list Z) (argv : list (list Z)) (cur : list Z) : res (list (list Z)) :=
  match buf with
  | [] => Ok argv
  | c :: buf' =>
      if isSpace c then
        if (MAX_ARGS <=? S (length argv))%nat then Panic "argv overrun" else parse_loop buf' (argv ++ [cur]) []
      else if arg_room (length argv) <=? Z.of_nat (length cur) then Panic "argument overrun"
      else parse_loop buf' argv (cur ++ [c])
  end.

(** The arguments before [argv[argc]], which is set to null with all behind it. *)
Definition parsecmd (buf : list Z) : res (list (list Z)) := parse_loop buf [] [].

(** The fixed texts, by the place they are printed at: "changing dirs\n", "cd
    takes more than 1 argument.", "An error occurred while changing directory",
    "not waiting...", "exiting mjsh\n", and the one that says that the history
    starts over. *)
Inductive message := MCd | MCdArgs | MCdError | MBackground | MExit | MRestart.

(** [EExec] is a child, by its pid, that executes the arguments; [EWait] is
    [wait()] with the child it reaps, if there is one. *)
Inductive event :=
| EPrompt (n : nat)
| EMsg (m : message)
| EChdir (path : list Z)
| EExec (pid : Z) (argv : list (list Z))
| EWait (pid : option Z)
| EExit.

(** [kids] are the children not yet reaped. *)
Record shell := mk_shell { store : list (list (list Z)); history : list (option nat); command_num : nat; kids : list Z }.

(** What the system answers while a line is run: the pid of the child, or none
    when [fork] returns -1, and the child that [wait] picks. *)
Record answers := mk_answers { an_fork : option Z; an_wait : list Z -> Z }.

(** [wait] returns one of the caller's children. *)
Definition answers_ok (a : answers) : Prop := forall ks, ks <> [] -> an_wait a ks ∈ ks.

(** [wait()]: -1 without a child, else any child that exits first. *)
Definition wait_child (a : answers) (ks : list Z) : option Z * list Z :=
  match ks with
  | [] => (None, [])
  | _ => (Some (an_wait a ks), filter (fun k => k <> an_wait a ks) ks)
  end.

(** [if(fork() == 0){ exec(...); exit(); } if(background == 0) wait();] *)
Definition launch (a : answers) (background : bool) (argv : list (list Z)) (ks : list Z) : list event * list Z :=
  let (evs, ks) := match an_fork a with Some pid => ([EExec pid argv], ks ++ [pid]) | None => ([], ks) end in
  if background then (evs, ks) else let (r, ks) := wait_child a ks in (evs ++ [EWait r], ks).

Definition CD : list Z := [99; 100].
Definition EXIT : list Z := [101; 120; 105; 116].

Section mjsh.
Context (chdir_ok : list Z -> bool).

(** [cd]: the slot of the history is not advanced. *)
Definition do_cd (argv : list (list Z)) : list event :=
  EMsg MCd ::
  match argv with
  | _ :: dir :: _ => EChdir dir :: if chdir_ok dir then [] else [EMsg MCdError]
  | _ => [EMsg MCdArgs]
  end.

(** From the test for '&' on, for the command object [j]. *)
Definition run_object (a : answers) (j : nat) (s : shell) : res (option shell * list event) :=
  match store s !! j with
  | Some (a0 :: args) =>
      let background := bool_decide (last a0 = Some 38) in
      let a0 := if background then removelast a0 else a0 in
      let s := mk_shell (<[j := a0 :: args]> (store s)) (history s) (command_num s) (kids s) in
      if bool_decide (a0 = EXIT) then Ok (None, [EMsg MExit; EExit])
      else
        let n := S (command_num s) in
        let (evs, ks) := launch a background (a0 :: args) (kids s) in
        let evs := evs ++ if background then [EMsg MBackground] else [] in
        if (n =? HISTORY_SIZE)%nat then Ok (Some (mk_shell (store s) (history s) 0 ks), evs ++ [EMsg MRestart])
        else Ok (Some (mk_shell (store s) (history s) n ks), evs)
  | _ => Panic "null pointer"
  end.

(** One pass of the main loop on the line [buf]; [None] when the shell exits. *)
Definition mj_line (a : answers) (buf : list Z) (s : shell) : res (option shell * list event) :=
  let* argv := parsecmd buf in
  let i := length (store s) in
  let s := mk_shell (store s ++ [argv]) (<[command_num s := Some i]> (history s)) (command_num s) (kids s) in
  match argv with
  | [] => Panic "null pointer"
  | a0 :: _ =>
      if bool_decide (a0 = CD) then Ok (Some s, do_cd argv)
      else if bool_decide (head a0 = Some 35) then
        match history s !! Z.to_nat (atoi_s (tail a0)) with
        | Some (Some j) => run_object a j (mk_shell (store s) (<[command_num s := Some j]> (history s)) (command_num s) (kids s))
        | Some None => Panic "null pointer"
        | None => Panic "history overrun"
        end
      else run_object a i s
  end.

(** [main]: one unit of [n] per line; [a i] are the answers for line [i]. *)
Fixpoint mj_main (n : nat) (a : nat -> answers) (input : list Z) (s : shell) : res (list event) :=
  match n with
  | O => Blocked
  | S n' =>
      match Sh.getcmd input with
      | None => Ok [EPrompt (command_num s); EExit]
      | Some (buf, rest) =>
          let* (o, evs) := mj_line (a O) buf s in
          match o with
          | None => Ok (EPrompt (command_num s) :: evs)
          | Some s' => let* l := mj_main n' (fun i => a (S i)) rest s' in Ok (EPrompt (command_num s) :: evs ++ l)
          end
      end
  end.

(** ** ezsh

    An earlier state of the same program, which says nothing about a command it
    does not wait for. *)

Definition ez_object (a : answers) (j : nat) (s : shell) : res (option shell * list event) :=
  match store s !! j with
  | Some (a0 :: args) =>
      let background := bool_decide (last a0 = Some 38) in
      let a0 := if background then removelast a0 else a0 in
      let s := mk_shell (<[j := a0 :: args]> (store s)) (history s) (command_num s) (kids s) in
      if bool_decide (a0 = EXIT) then Ok (None, [EMsg MExit; EExit])
      else
        let n := S (command_num s) in
        let (evs, ks) := launch a background (a0 :: args) (kids s) in
        if (n =? HISTORY_SIZE)%nat then Ok (Some (mk_shell (store s) (history s) 0 ks), evs ++ [EMsg MRestart])
        else Ok (Some (mk_shell (store s) (history s) n ks), evs)
  | _ => Panic "null pointer"
  end.

Definition ez_line (a : answers) (buf : list Z) (s : shell) : res (option shell * list event) :=
  let* argv := parsecmd buf in
  let i := length (store s) in
  let s := mk_shell (store s ++ [argv]) (<[command_num s := Some i]> (history s)) (command_num s) (kids s) in
  match argv with
  | [] => Panic "null pointer"
  | a0 :: _ =>
      if bool_decide (a0 = CD) then Ok (Some s, do_cd argv)
      else if bool_decide (head a0 = Some 35) then
        match history s !! Z.to_nat (atoi_s (tail a0)) with
        | Some (Some j) => ez_object a j (mk_shell (store s) (<[command_num s := Some j]> (history s)) (command_num s) (kids s))
        | Some None => Panic "null pointer"
        | None => Panic "history overrun"
        end
      else ez_object a i s
  end.

Fixpoint ez_main (n : nat) (a : nat -> answers) (input : list Z) (s : shell) : res (list event) :=
  match n with
  | O => Blocked
  | S n' =>
      match Sh.getcmd input with
      | None => Ok [EPrompt (command_num s); EExit]
      | Some (buf, rest) =>
          let* (o, evs) := ez_line (a O) buf s in
          match o with
          | None => Ok (EPrompt (command_num s) :: evs)
          | Some s' => let* l := ez_main n' (fun i => a (S i)) rest s' in Ok (EPrompt (command_num s) :: evs ++ l)
          end
      end
  end.

(** The events without the word about background commands. *)
Definition announces (e : event) : bool := match e with EMsg MBackground => true | _ => false end.
Definition quietly (evs : list event) : list event := List.filter (fun e => negb (announces e)) evs.
Definition quiet_line (r : res (option shell * list event)) : res (option shell * list event) :=
  let* (o, evs) := r in Ok (o, quietly evs).

Lemma quietly_launch a bg argv ks : quietly (fst (launch a bg argv ks)) = fst (launch a bg argv ks).
Proof. unfold launch. destruct (an_fork a), bg; [done | by destruct (wait_child _ _) | done | by destruct (wait_child _ _)]. Qed.

Lemma ez_object_quiet a j s : ez_object a j s = quiet_line (run_object a j s).
Proof.
  unfold ez_object, run_object. destruct (store s !! j) as [[|a0 args]|]; [done | | done]. cbv zeta. set (bg := bool_decide (last a0 = Some 38)).
  destruct (bool_decide (_ = EXIT)); [done|]. set (argv := _ :: args). cbn [kids store history command_num].
  pose proof (quietly_launch a bg argv (kids s)) as Hq. destruct (launch a bg argv (kids s)) as [evs ks]. cbn [fst] in Hq.
  assert (E : quietly (evs ++ (if bg then [EMsg MBackground] else [])) = evs) by (unfold quietly in *; rewrite List.filter_app, Hq; destruct bg; apply app_nil_r).
  destruct (_ =? HISTORY_SIZE)%nat; cbn [quiet_line rbind]; [|by rewrite E]. unfold quietly in *. by rewrite List.filter_app, E.
Qed.

Lemma ez_line_quiet a buf s : ez_line a buf s = quiet_line (mj_line a buf s).
Proof.
  unfold ez_line, mj_line. destruct (parsecmd buf) as [argv| |]; [|done..]. cbn [rbind]. destruct argv as [|a0 argv]; [done|]. destruct (bool_decide (a0 = CD)).
  { cbn [quiet_line rbind]. unfold do_cd. destruct argv as [|dir argv]; [done|]. by destruct (chdir_ok dir). }
  destruct (bool_decide (head a0 = Some 35)); [|apply ez_object_quiet]. destruct (_ !! _) as [[j|]|]; [apply ez_object_quiet | done..].
Qed.

(** ezsh does what mjsh does on every input. *)
Theorem ezsh_like_mjsh n : forall a input s, ez_main n a input s = let* l := mj_main n a input s in Ok (quietly l).
Proof.
  induction n as [|n IH]; intros a input s; [done|]. cbn [ez_main mj_main]. destruct (Sh.getcmd input) as [[buf rest]|]; [|done]. rewrite ez_line_quiet.
  destruct (mj_line (a O) buf s) as [[[s'|] evs]| |]; [|done..]. cbn [quiet_line rbind]. rewrite IH. destruct (mj_main n _ rest s') as [l| |]; [|done..]. cbn [rbind quietly List.filter announces negb].
  unfold quietly. by rewrite List.filter_app.
Qed.
End mjsh.

Definition mj_start : shell := mk_shell [] (repeat None HISTORY_SIZE) 0 [].

(** ** A command line *)

(** A word as the program expects it, given how much room it has. *)
Definition word_ok (room : Z) (w : list Z) : Prop := Z.of_nat (length w) <= room /\ Forall (fun c => isSpace c = false) w.

(** The words with a blank between two of them and a newline at the end. *)
Definition line_of (ws : list (list Z)) : list Z := removelast (concat (map (fun w => w ++ [32]) ws)) ++ [10].

Lemma parse_word w c rest argv cur : Forall (fun c => isSpace c = false) w -> Z.of_nat (length cur + length w) <= arg_room (length argv) -> isSpace c = true ->
  (S (length argv) < MAX_ARGS)%nat -> parse_loop (w ++ c :: rest) argv cur = parse_loop rest (argv ++ [cur ++ w]) [].
Proof.
  intros Hw. revert cur. induction Hw as [|x w Hx Hw IH]; intros cur Hr Hc Ha; cbn [app parse_loop length] in *.
  - rewrite Hc. rewrite (proj2 (Nat.leb_gt _ _)) by done. by rewrite app_nil_r.
  - rewrite Hx. rewrite (proj2 (Z.leb_gt _ _)) by lia. rewrite IH by (auto; rewrite length_app; cbn [length]; lia). by rewrite <- app_assoc.
Qed.

Lemma parse_words ws : forall argv, ws <> [] -> (length argv + length ws < MAX_ARGS)%nat ->
  (forall k w, ws !! k = Some w -> word_ok (arg_room (length argv + k)) w) ->
  parse_loop (line_of ws) argv [] = Ok (argv ++ ws).
Proof.
  induction ws as [|w ws IH]; intros argv Hne Hl Hw; [done|]. destruct (Hw 0%nat w eq_refl) as [Hr Hs]. rewrite Nat.add_0_r in Hr. cbn [length] in Hl. unfold MAX_ARGS in *.
  destruct ws as [|w' ws].
  - unfold line_of. cbn [map concat]. rewrite app_nil_r, removelast_last. rewrite parse_word by (auto; cbn [length]; unfold MAX_ARGS; lia). done.
  - assert (El : line_of (w :: w' :: ws) = w ++ 32 :: line_of (w' :: ws)).
    { unfold line_of. cbn [map concat]. rewrite removelast_app by (by destruct w'). rewrite <- !app_assoc. done. }
    rewrite El, parse_word by (auto; cbn [length]; unfold MAX_ARGS; lia). rewrite IH; [cbn [app]; by rewrite <- app_assoc | done | rewrite length_app; cbn [length] in *; lia|].
    intros k x Ek. rewrite length_app. cbn [length]. replace (length argv + 1 + k)%nat with (length argv + S k)%nat by lia. by apply Hw.
Qed.

(** A line of at most nine words of a length the buffers can hold. *)
Record plain (ws : list (list Z)) : Prop := {
  pl_count : (1 <= length ws <= 9)%nat;
  pl_words k w : ws !! k = Some w -> word_ok (arg_room k) w
}.

Lemma parse_plain ws : plain ws -> parsecmd (line_of ws) = Ok ws.
Proof. intros [Hc Hw]. unfold parsecmd. rewrite parse_words; [done | by destruct ws; cbn in Hc; [lia|] | cbn [length]; unfold MAX_ARGS; lia | exact Hw]. Qed.

(** The first word is none of the built-in forms. *)
Definition external (a0 : list Z) : Prop := a0 <> CD /\ a0 <> EXIT /\ head a0 <> Some 35.

(** The state after a command has run in slot [command_num s]. *)
Definition advanced (n : nat) : nat := if (S n =? HISTORY_SIZE)%nat then 0%nat else S n.

(** ** Running and replaying *)

(** The command a slot of the history leads to. *)
Definition slot (s : shell) (k : nat) : option (list (list Z)) :=
  match history s !! k with Some (Some j) => store s !! j | _ => None end.

Record shell_ok (s : shell) : Prop := {
  so_hist : length (history s) = HISTORY_SIZE;
  so_num : (command_num s < HISTORY_SIZE)%nat;
  so_obj k j : history s !! k = Some (Some j) -> (j < length (store s))%nat
}.

(** The state when object [j] is run: slot [command_num s] points to it. *)
Definition aimed (j : nat) (s : shell) : shell := mk_shell (store s) (<[command_num s := Some j]> (history s)) (command_num s) (kids s).

Section runs.
Context (chdir_ok : list Z -> bool) (a : answers).

(** Running an object: what is executed, how the shell waits, and the new state. *)
Lemma run_object_ok j s a0 args : shell_ok s -> store s !! j = Some (a0 :: args) ->
  let bg := bool_decide (last a0 = Some 38) in let a0' := if bg then removelast a0 else a0 in a0' <> EXIT ->
  exists rest, run_object a j (aimed j s) =
    Ok (Some (mk_shell (<[j := a0' :: args]> (store s)) (<[command_num s := Some j]> (history s)) (advanced (command_num s)) (snd (launch a bg (a0' :: args) (kids s)))),
        fst (launch a bg (a0' :: args) (kids s)) ++ (if bg then [EMsg MBackground] else []) ++ rest).
Proof.
  intros Hs Hj bg a0' He. unfold run_object, aimed. cbn [store history command_num kids]. rewrite Hj. fold bg. fold a0'. rewrite bool_decide_eq_false_2 by done. unfold advanced.
  destruct (launch a bg (a0' :: args) (kids s)) as [evs ks]. cbn [fst snd].
  destruct (S (command_num s) =? HISTORY_SIZE)%nat; [exists [EMsg MRestart]; by rewrite <- app_assoc | exists []; by rewrite app_nil_r].
Qed.

Lemma aimed_ok j s : shell_ok s -> (j < length (store s))%nat -> shell_ok (aimed j s).
Proof.
  intros [H1 H2 H3] Hj. split; cbn; [by rewrite length_insert | done|]. intros k j'. destruct (decide (k = command_num s)) as [->|Hne].
  - rewrite list_lookup_insert_eq by lia. by intros [= <-].
  - rewrite list_lookup_insert_ne by done. apply H3.
Qed.

(** The state after the line has been parsed and entered. *)
Definition entered (ws : list (list Z)) (s : shell) : shell :=
  mk_shell (store s ++ [ws]) (<[command_num s := Some (length (store s))]> (history s)) (command_num s) (kids s).

Lemma entered_ok ws s : shell_ok s -> shell_ok (entered ws s) /\ store (entered ws s) !! length (store s) = Some ws /\ slot (entered ws s) (command_num s) = Some ws /\
  forall k, k <> command_num s -> slot (entered ws s) k = slot s k.
Proof.
  intros [H1 H2 H3]. assert (Hst : (store s ++ [ws]) !! length (store s) = Some ws) by (by rewrite lookup_app_r, Nat.sub_diag by lia). split_and!; [split; cbn; rewrite ?length_insert, ?length_app; auto | done | |].
  - intros k j. cbn [length]. destruct (decide (k = command_num s)) as [->|Hne]; [rewrite list_lookup_insert_eq by lia; intros [= <-]; lia|]. rewrite list_lookup_insert_ne by done. intros Hj. apply H3 in Hj. lia.
  - unfold slot, entered. cbn [history store]. by rewrite list_lookup_insert_eq by lia.
  - intros k Hk. unfold slot, entered. cbn [history store]. rewrite list_lookup_insert_ne by done. destruct (history s !! k) as [[j|]|] eqn:E; try done. apply lookup_app_l. eauto.
Qed.

(** A line of words, typed or found in the history under "#k". *)
Inductive asks (s : shell) (ws : list (list Z)) : list Z -> Prop :=
| ask_line : plain ws -> external (hd [] ws) -> asks s ws (line_of ws)
| ask_again k : (k < 10)%nat -> k <> command_num s -> slot s k = Some ws -> hd [] ws <> EXIT -> ws <> [] -> asks s ws (line_of [[35; 48 + Z.of_nat k]]).

Lemma plain_again k : (k < 10)%nat -> plain [[35; 48 + Z.of_nat k]] /\ atoi_s [48 + Z.of_nat k] = Z.of_nat k.
Proof.
  intros Hk. split; [split; [cbn; lia|]|].
  - intros [|[|i]] w; intros [= <-]. split; [done|]. do 10 (destruct k as [|k]; [by repeat constructor|]). lia.
  - do 10 (destruct k as [|k]; [reflexivity|]). lia.
Qed.

(** The object that is run for such a line, in the state in which it is run. *)
Lemma mj_line_object s ws line : shell_ok s -> asks s ws line ->
  exists j s1, mj_line chdir_ok a line s = run_object a j (aimed j s1) /\ shell_ok s1 /\ store s1 !! j = Some ws /\ command_num s1 = command_num s /\ kids s1 = kids s /\
    (forall k, k <> command_num s -> slot s1 k = slot s k) /\ hd [] ws <> EXIT.
Proof.
  intros Hs Ha. destruct Ha as [Hp (Hc & He & Hh) | k Hk Hne Hsl He Hws].
  - destruct (entered_ok ws s Hs) as (H1 & H2 & H3 & H4). exists (length (store s)), (entered ws s). split_and!; auto. unfold mj_line. rewrite parse_plain by done. cbn [rbind].
    destruct ws as [|a0 args]; [destruct Hp as [Hp _]; cbn in Hp; lia|]. cbn [hd] in *. rewrite bool_decide_eq_false_2 by done. rewrite bool_decide_eq_false_2 by done.
    f_equal. unfold aimed, entered. cbn [store history command_num]. by rewrite list_insert_insert_eq.
  - destruct (plain_again k Hk) as [Hp Hat]. set (line := [[35; 48 + Z.of_nat k]]) in *. destruct (entered_ok line s Hs) as (H1 & H2 & H3 & H4).
    assert (Hsk : slot (entered line s) k = Some ws) by (by rewrite H4). unfold slot in Hsk. destruct (history (entered line s) !! k) as [[j|]|] eqn:Ej; try done.
    exists j, (entered line s). split_and!; auto. unfold mj_line. rewrite parse_plain by done. cbn [rbind line]. rewrite bool_decide_eq_false_2 by done. rewrite bool_decide_eq_true_2 by done.
    cbn [tail]. rewrite Hat, Nat2Z.id. fold line. fold (entered line s). by rewrite Ej.
Qed.

(** What a foreground command makes of [fork] and [wait]: what the shell does,
    and the children it has then. *)
Definition foreground (ws : list (list Z)) (ks : list Z) (evs : list event) (ks' : list Z) : Prop :=
  match an_fork a with
  | Some pid => exists r, r ∈ ks ++ [pid] /\ evs = [EExec pid ws; EWait (Some r)] /\ ks' = filter (fun k => k <> r) (ks ++ [pid])
  | None => evs = [EWait (fst (wait_child a ks))] /\ ks' = snd (wait_child a ks)
  end.

Lemma launch_foreground ws ks : answers_ok a -> foreground ws ks (fst (launch a false ws ks)) (snd (launch a false ws ks)).
Proof.
  intros Ha. unfold foreground, launch. destruct (an_fork a) as [pid|]; [|by destruct (wait_child a ks)].
  assert (E : wait_child a (ks ++ [pid]) = (Some (an_wait a (ks ++ [pid])), filter (fun k => k <> an_wait a (ks ++ [pid])) (ks ++ [pid]))) by (by destruct ks).
  rewrite E. cbn [fst snd]. exists (an_wait a (ks ++ [pid])). split; [|done]. apply Ha. by destruct ks.
Qed.

(** A state of the history after the command has run. *)
Definition recorded (s s' : shell) (ws : list (list Z)) : Prop :=
  shell_ok s' /\ command_num s' = advanced (command_num s) /\ slot s' (command_num s) = Some ws /\ forall k, k <> command_num s -> slot s' k = slot s k.


(** A background command is in the background only once: "cmd&" is started
    without waiting, but its '&' is cut off in the object the history keeps, so
    running it again as "#k" calls [wait]. *)
Theorem mjsh_background_once s a0 args pid : shell_ok s -> answers_ok a -> an_fork a = Some pid -> plain ((a0 ++ [38]) :: args) -> external (a0 ++ [38]) -> a0 <> EXIT -> last a0 <> Some 38 ->
  exists s1 rest1 s2 r rest2,
    mj_line chdir_ok a (line_of ((a0 ++ [38]) :: args)) s = Ok (Some s1, EExec pid (a0 :: args) :: EMsg MBackground :: rest1) /\ kids s1 = kids s ++ [pid] /\
    mj_line chdir_ok a (line_of [[35; 48 + Z.of_nat (command_num s)]]) s1 = Ok (Some s2, EExec pid (a0 :: args) :: EWait (Some r) :: rest2).
Proof.
  intros Hs Hans Hpid Hp Hx He Hl. destruct (mj_line_object s ((a0 ++ [38]) :: args) _ Hs (ask_line _ _ Hp Hx)) as (j & s1 & -> & Hs1 & Hj & En & Ek & Hsl & _).
  assert (Hbg : last (a0 ++ [38]) = Some 38) by apply last_snoc. destruct (run_object_ok j s1 (a0 ++ [38]) args Hs1 Hj) as (rest & E). { by rewrite bool_decide_eq_true_2, removelast_last. }
  rewrite bool_decide_eq_true_2, removelast_last in E by done. pose proof (so_num _ Hs1) as Hn. pose proof (so_hist _ Hs1) as Hh. assert (Hjl : (j < length (store s1))%nat) by (by eapply lookup_lt_Some).
  unfold launch in E. rewrite Hpid, Ek in E. cbn [fst snd app] in E.
  destruct (aimed_ok j s1 Hs1 Hjl) as [A1 A2 A3]. match type of E with _ = Ok (Some ?x, _) => set (s2 := x) in * end. unfold HISTORY_SIZE in *.
  assert (Hs2 : shell_ok s2). { split; cbn; [done | unfold advanced, HISTORY_SIZE; destruct (Nat.eqb_spec (S (command_num s1)) 10); lia | intros k j' Hk; rewrite length_insert; by eapply A3]. }
  assert (Hsl2 : slot s2 (command_num s) = Some (a0 :: args)) by (unfold slot, s2; cbn [history store]; rewrite <- En, list_lookup_insert_eq by lia; by rewrite list_lookup_insert_eq by done).
  assert (Hne : command_num s <> command_num s2). { unfold s2. cbn [command_num]. rewrite En. unfold advanced, HISTORY_SIZE. destruct (Nat.eqb_spec (S (command_num s)) 10); lia. }
  destruct (mj_line_object s2 (a0 :: args) _ Hs2 (ask_again _ _ (command_num s) ltac:(rewrite <- En; lia) Hne Hsl2 He ltac:(done))) as (j2 & s3 & E2 & Hs3 & Hj3 & _).
  destruct (run_object_ok j2 s3 a0 args Hs3 Hj3) as (rest2 & E3). { by rewrite bool_decide_eq_false_2. } rewrite bool_decide_eq_false_2 in E3 by done.
  pose proof (launch_foreground (a0 :: args) (kids s3) Hans) as Hf. unfold foreground in Hf. rewrite Hpid in Hf. destruct Hf as (r & _ & Hev & _). rewrite Hev in E3.
  exists s2, rest. eexists _, r, rest2. split; [exact E|]. split; [done|]. rewrite E2. exact E3.
Qed.

(** With a background command outstanding the shell does not wait for the next
    one: [wait] may return for the background command, and the shell prompts
    again with its foreground command still running. *)
Lemma mjsh_wait_other s ws line bg pid : shell_ok s -> answers_ok a -> asks s ws line -> last (hd [] ws) <> Some 38 ->
  kids s = [bg] -> an_fork a = Some pid -> pid <> bg -> an_wait a [bg; pid] = bg ->
  exists s' rest, mj_line chdir_ok a line s = Ok (Some s', EExec pid ws :: EWait (Some bg) :: rest) /\ kids s' = [pid].
Proof.
  intros Hs Hans Ha Hl Hk Hf Hne Hw. destruct (mj_line_object s ws line Hs Ha) as (j & s1 & -> & Hs1 & Hj & En & Ek & Hsl & He). destruct ws as [|a0 args]; [by destruct Ha as [[Hp _] _|]; [cbn in Hp; lia|]|]. cbn [hd] in *.
  destruct (run_object_ok j s1 a0 args Hs1 Hj) as (rest & E). { by rewrite bool_decide_eq_false_2. } rewrite bool_decide_eq_false_2 in E by done.
  unfold launch in E. rewrite Hf, Ek, Hk in E. cbn [app wait_child fst snd] in E. rewrite Hw in E. eexists _, rest. split; [exact E|]. cbn [kids].
  rewrite filter_cons, decide_False by (intros H; by apply H). rewrite filter_cons, decide_True by done. done.
Qed.
End runs.

Lemma start_ok : shell_ok mj_start.
Proof. split; [done | cbn; unfold HISTORY_SIZE; lia|]. intros k j H. unfold mj_start in H. cbn [history] in H. apply list_elem_of_lookup_2, list_elem_of_In, repeat_spec in H. done. Qed.

Lemma wit_plain : plain [[108; 115]; [45; 108]] /\ plain [[108; 115; 38]].
Proof.
  split; split; try (cbn; lia).
  - intros [|[|[|k]]] w; intros [= <-]; split; try done; by repeat constructor.
  - intros [|[|k]] w; intros [= <-]; split; try done; by repeat constructor.
Qed.

(** Children get the pid 5; [wait] returns the oldest child. *)
Definition wit_answers : answers := mk_answers (Some 5) (hd 0).

Lemma wit_answers_ok : answers_ok wit_answers.
Proof. intros [|k ks] H; [done|]. left. Qed.


Lemma mjsh_background_once_witness : exists s1 rest1 s2 r rest2,
  mj_line (fun _ => true) wit_answers [108; 115; 38; 10] mj_start = Ok (Some s1, EExec 5 [[108; 115]] :: EMsg MBackground :: rest1) /\ kids s1 = [5] /\
  mj_line (fun _ => true) wit_answers [35; 48; 10] s1 = Ok (Some s2, EExec 5 [[108; 115]] :: EWait (Some r) :: rest2).
Proof.
  apply (mjsh_background_once (fun _ => true) wit_answers mj_start [108; 115] [] 5); [apply start_ok | apply wit_answers_ok | reflexivity | apply wit_plain | split_and!; discriminate | discriminate | discriminate].
Defined.
