(* ===== verification/Sched.v ===== *)
(** * Scheduling on several CPUs (src/proc.c: scheduler, sched, yield, sleep, wakeup, forkret)

    The machine at the grain of its lock operations: any number of CPUs, each
    running its scheduler thread or the kernel thread of a process, and a
    switch ([swtch]) that passes [ptable.lock] from one thread to another.  The
    lock calls are those of Spinlock.v, with their panics.  What a process does
    between the calls modelled here is arbitrary: it takes and drops other spin
    locks, turns interrupts on and off, is interrupted, sleeps, wakes, forks,
    reaps, kills and exits.  A thread's program counter names the next step of
    the call it is in. *)

From S2P Require Import Prelude Layout Spinlock Proc.

(** What a call does to the process table while it holds the lock. *)
Inductive tupd :=
| UWake (ch : nat)     (* wakeup1(chan) *)
| UKill (q : nat)      (* kill: a sleeper becomes runnable *)
| UMake (q : nat)      (* fork: the new process becomes runnable *)
| UReap (q : nat).     (* wait: a zombie's slot is free again *)

Inductive ppc :=
| Code (held : list nat)                  (* outside the calls, holding these spin locks *)
| Y1 | Y2 | Y3 (b : bool)                 (* yield: before acquire, before sched, after it *)
| S1 (ch l : nat) | S2 (ch l : nat)       (* sleep(ch, l): before acquire(&ptable.lock), before release(l) *)
| S3 (ch l : nat) | S4 (ch l : nat) (b : bool) | S5 (l : nat)  (* before sched, after it, before acquire(l) *)
| P1 (ch : nat) | P2 (ch : nat) | P3 (ch : nat) (b : bool)     (* the same with ptable.lock itself, in wait *)
| E1 | E2 | Dead                          (* exit *)
| L1 (u : tupd) (held : list nat) | L2 (u : tupd) (held : list nat) | L3 (held : list nat)
| F0.                                     (* a new process: about to run forkret *)

Record thread := mk_thread {
  t_state : procstate;
  t_chan : option nat;
  t_pc : ppc;
  t_want : bool          (* interrupts on when the thread holds no lock *)
}.

(** The scheduler thread of a CPU. *)
Inductive spc :=
| SLoop              (* top of for(;;) *)
| SAcq               (* after sti() *)
| SScan (p : nat)    (* the table's entry p is next *)
| SIn (p : nat)      (* in swtch, process p runs *)
| SBack (p : nat).   (* swtch has returned *)

Record kcpu := mk_kcpu { hw : cpu; c_proc : option nat; c_run : option nat; c_spc : spc }.

Record ksys := mk_ksys { plk : spinlock; lks : nat -> spinlock; kcpus : nat -> kcpu; ths : nat -> thread }.

Definition set_cpu (s : ksys) (c : nat) (x : kcpu) : ksys := mk_ksys (plk s) (lks s) (upd (kcpus s) c x) (ths s).
Definition set_th (s : ksys) (p : nat) (x : thread) : ksys := mk_ksys (plk s) (lks s) (kcpus s) (upd (ths s) p x).
Definition set_plk (s : ksys) (lk : spinlock) : ksys := mk_ksys lk (lks s) (kcpus s) (ths s).
Definition set_lk (s : ksys) (l : nat) (lk : spinlock) : ksys := mk_ksys (plk s) (upd (lks s) l lk) (kcpus s) (ths s).
Definition set_hw (s : ksys) (c : nat) (h : cpu) : ksys :=
  let x := kcpus s c in set_cpu s c (mk_kcpu h (c_proc x) (c_run x) (c_spc x)).
Definition set_spc (s : ksys) (c : nat) (pc : spc) : ksys :=
  let x := kcpus s c in set_cpu s c (mk_kcpu (hw x) (c_proc x) (c_run x) pc).
Definition set_pc (s : ksys) (p : nat) (pc : ppc) : ksys :=
  let x := ths s p in set_th s p (mk_thread (t_state x) (t_chan x) pc (t_want x)).
Definition set_want (s : ksys) (p : nat) (b : bool) : ksys :=
  let x := ths s p in set_th s p (mk_thread (t_state x) (t_chan x) (t_pc x) b).

(** What the code outside the calls does next. *)
Inductive act :=
| AFlip (b : bool)        (* cli, sti, a trap or its return: only without locks *)
| ALock (l : nat) | AUnlock (l : nat)
| AYield                  (* a timer interrupt *)
| ASleep (ch l : nat) | AWait (ch : nat) | AExit | AUpdate (u : tupd).

Section sched.
Context (stack : mem) (frame : Z) (NPROCS : nat).

Abbreviation acquire := (acquire stack frame).

Definition lock_ptable (c : nat) (s : ksys) : res ksys :=
  let* (lk, h) := acquire c (plk s) (hw (kcpus s c)) in Ok (set_hw (set_plk s lk) c h).
Definition unlock_ptable (c : nat) (s : ksys) : res ksys :=
  let* (lk, h) := release c (plk s) (hw (kcpus s c)) in Ok (set_hw (set_plk s lk) c h).
Definition lock_other (c l : nat) (s : ksys) : res ksys :=
  let* (lk, h) := acquire c (lks s l) (hw (kcpus s c)) in Ok (set_hw (set_lk s l lk) c h).
Definition unlock_other (c l : nat) (s : ksys) : res ksys :=
  let* (lk, h) := release c (lks s l) (hw (kcpus s c)) in Ok (set_hw (set_lk s l lk) c h).

(** [sched()] of process [p] on CPU [c]: the checks, and the switch to the
    scheduler; [back] is where the thread goes on, with the saved [intena]. *)
Definition sched_out (c p : nat) (back : bool -> ppc) (s : ksys) : res ksys :=
  let x := kcpus s c in
  let* (held, h) := holding c (plk s) (hw x) in
  if negb held then Panic "sched ptable.lock"
  else if negb (ncli h =? 1) then Panic "sched locks"
  else if bool_decide (t_state (ths s p) = RUNNING) then Panic "sched running"
  else if eflags_if h then Panic "sched interruptible"
  else
    let s := set_pc s p (back (intena h)) in
    Ok (set_cpu s c (mk_kcpu h (c_proc x) None (match c_spc x with SIn q => SBack q | pc => pc end))).

(** [mycpu()->intena = intena] after the switch back. *)
Definition restore_intena (c : nat) (b : bool) (s : ksys) : ksys :=
  let h := hw (kcpus s c) in set_hw s c (mk_cpu (ncli h) b (eflags_if h)).

Definition with_st (x : thread) (st : procstate) : thread := mk_thread st (t_chan x) (t_pc x) (t_want x).

(** The update of one slot of the table. *)
Definition update1 (u : tupd) (p : nat) (x : thread) : thread :=
  match u with
  | UWake ch => if bool_decide (t_state x = SLEEPING) && bool_decide (t_chan x = Some ch) then with_st x RUNNABLE else x
  | UKill q => if bool_decide (p = q) && bool_decide (t_state x = SLEEPING) then with_st x RUNNABLE else x
  | UMake q => if bool_decide (p = q) && bool_decide (t_state x = UNUSED) then mk_thread RUNNABLE None F0 true else x
  | UReap q => if bool_decide (p = q) && bool_decide (t_state x = ZOMBIE) then with_st x UNUSED else x
  end.

Definition update (u : tupd) (s : ksys) : ksys := mk_ksys (plk s) (lks s) (kcpus s) (fun p => update1 u p (ths s p)).

(** [yield()], step by step. *)
Definition yield_step (c p : nat) (pc : ppc) (s : ksys) : res ksys :=
  match pc with
  | Y1 => let* s := lock_ptable c s in Ok (set_pc s p Y2)
  | Y2 => sched_out c p Y3 (set_th s p (with_st (ths s p) RUNNABLE))
  | Y3 b => let* s := unlock_ptable c (restore_intena c b s) in Ok (set_pc s p (Code []))
  | _ => Blocked
  end.

(** [sleep(chan, lk)] with another lock than [ptable.lock], step by step. *)
Definition sleep_step (c p : nat) (pc : ppc) (s : ksys) : res ksys :=
  match pc with
  | S1 ch l => let* s := lock_ptable c s in Ok (set_pc s p (S2 ch l))
  | S2 ch l => let* s := unlock_other c l s in Ok (set_pc s p (S3 ch l))
  | S3 ch l => sched_out c p (S4 ch l) (set_th s p (mk_thread SLEEPING (Some ch) (S3 ch l) (t_want (ths s p))))
  | S4 ch l b =>
      let s := restore_intena c b s in
      let x := ths s p in
      let* s := unlock_ptable c (set_th s p (mk_thread (t_state x) None (t_pc x) (t_want x))) in
      Ok (set_pc s p (S5 l))
  | S5 l => let* s := lock_other c l s in Ok (set_pc s p (Code [l]))
  | _ => Blocked
  end.

(** [wait()]: [sleep(curproc, &ptable.lock)] in its loop, until it finds a child. *)
Definition wait_step (c p : nat) (a : act) (pc : ppc) (s : ksys) : res ksys :=
  match pc with
  | P1 ch => let* s := lock_ptable c s in Ok (set_pc s p (P2 ch))
  | P2 ch => sched_out c p (P3 ch) (set_th s p (mk_thread SLEEPING (Some ch) (P2 ch) (t_want (ths s p))))
  | P3 ch b =>
      let s := restore_intena c b s in
      let x := ths s p in
      Ok (set_th s p (mk_thread (t_state x) None (match a with AWait ch' => P2 ch' | _ => L3 [] end) (t_want x)))
  | _ => Blocked
  end.

(** The end of [exit()]: the wakeups, and the switch that does not return. *)
Definition exit_step (c p : nat) (a : act) (pc : ppc) (s : ksys) : res ksys :=
  match pc with
  | E1 => let* s := lock_ptable c s in Ok (set_pc s p E2)
  | E2 =>
      match a with
      | AUpdate u => Ok (set_pc (update u s) p E2)
      | _ => sched_out c p (fun _ => Dead) (set_th s p (with_st (ths s p) ZOMBIE))
      end
  | Dead => Panic "zombie exit"
  | _ => Blocked
  end.

(** [wakeup], [kill], [fork], [wait]: one update of the table under its lock. *)
Definition table_step (c p : nat) (pc : ppc) (s : ksys) : res ksys :=
  match pc with
  | L1 u held => let* s := lock_ptable c s in Ok (set_pc s p (L2 u held))
  | L2 u held => Ok (set_pc (update u s) p (L3 held))
  | L3 held => let* s := unlock_ptable c s in Ok (set_pc s p (Code held))
  | _ => Blocked
  end.

(** [forkret()]: a new process drops the lock its scheduler took. *)
Definition forkret_step (c p : nat) (s : ksys) : res ksys :=
  let h := hw (kcpus s c) in
  let* s := unlock_ptable c s in Ok (set_want (set_pc s p (Code [])) p (intena h)).

(** The code around the calls; [Blocked] for what the rules of the kernel do not
    allow: sleep with exactly the lock it names, wait and exit with none, an
    interrupt only while interrupts are on. *)
Definition code_step (c p : nat) (a : act) (held : list nat) (s : ksys) : res ksys :=
  let h := hw (kcpus s c) in
  match a with
  | AFlip b => if ncli h =? 0 then Ok (set_want (set_hw s c (mk_cpu 0 (intena h) b)) p b) else Blocked
  | ALock l => if bool_decide (l ∈ held) then Blocked else let* s := lock_other c l s in Ok (set_pc s p (Code (l :: held)))
  | AUnlock l =>
      if bool_decide (l ∈ held) then let* s := unlock_other c l s in Ok (set_pc s p (Code (remove Nat.eq_dec l held))) else Blocked
  | AYield => if eflags_if h then Ok (set_want (set_hw (set_pc s p Y1) c (mk_cpu (ncli h) (intena h) false)) p false) else Blocked
  | ASleep ch l => if bool_decide (held = [l]) then Ok (set_pc s p (S1 ch l)) else Blocked
  | AWait ch => if bool_decide (held = []) then Ok (set_pc s p (P1 ch)) else Blocked
  | AExit => if bool_decide (held = []) then Ok (set_pc s p E1) else Blocked
  | AUpdate u => Ok (set_pc s p (L1 u held))
  end.

(** One step of the thread of process [p] on CPU [c]. *)
Definition proc_step (c p : nat) (a : act) (s : ksys) : res ksys :=
  match t_pc (ths s p) with
  | Code held => code_step c p a held s
  | (Y1 | Y2 | Y3 _) as pc => yield_step c p pc s
  | (S1 _ _ | S2 _ _ | S3 _ _ | S4 _ _ _ | S5 _) as pc => sleep_step c p pc s
  | (P1 _ | P2 _ | P3 _ _) as pc => wait_step c p a pc s
  | (E1 | E2 | Dead) as pc => exit_step c p a pc s
  | (L1 _ _ | L2 _ _ | L3 _) as pc => table_step c p pc s
  | F0 => forkret_step c p s
  end.

(** One step of the scheduler thread of CPU [c]. *)
Definition sched_step (c : nat) (s : ksys) : res ksys :=
  let x := kcpus s c in
  match c_spc x with
  | SLoop => Ok (set_cpu s c (mk_kcpu (mk_cpu (ncli (hw x)) (intena (hw x)) true) (c_proc x) None SAcq))
  | SAcq => let* s := lock_ptable c s in Ok (set_spc s c (SScan 0))
  | SScan p =>
      if (NPROCS <=? p)%nat then let* s := unlock_ptable c s in Ok (set_spc s c SLoop)
      else if negb (bool_decide (t_state (ths s p) = RUNNABLE)) then Ok (set_spc s c (SScan (S p)))
      else
        let s := set_th s p (with_st (ths s p) RUNNING) in
        Ok (set_cpu s c (mk_kcpu (hw x) (Some p) (Some p) (SIn p)))
  | SIn _ => Blocked
  | SBack p => Ok (set_cpu s c (mk_kcpu (hw x) None None (SScan (S p))))
  end.

Definition cpu_step (c : nat) (a : act) (s : ksys) : res ksys :=
  match c_run (kcpus s c) with
  | Some p => proc_step c p a s
  | None => sched_step c s
  end.

Inductive kstep : ksys -> ksys -> Prop :=
| kstep_cpu c a s s' : cpu_step c a s = Ok s' -> kstep s s'.

(** The machine when the CPUs enter [scheduler()]: the first process is runnable. *)
Definition ksys_init : ksys :=
  mk_ksys (initlock (mk_spinlock 0 None [])) (fun _ => initlock (mk_spinlock 0 None [])) (fun _ => mk_kcpu (mk_cpu 0 false false) None None SLoop)
    (fun p => mk_thread (if decide (p = 0%nat) then RUNNABLE else UNUSED) None F0 true).

(** ** The invariant *)

(** The spin locks a thread holds, and whether it holds [ptable.lock]. *)
Definition pheld (pc : ppc) : list nat :=
  match pc with Code h | L1 _ h | L2 _ h | L3 h => h | S1 _ l | S2 _ l => [l] | _ => [] end.
Definition ppl (pc : ppc) : bool :=
  match pc with Y2 | Y3 _ | S2 _ _ | S3 _ _ | S4 _ _ _ | P2 _ | P3 _ _ | E2 | L2 _ _ | L3 _ | F0 => true | _ => false end.
Definition spl (pc : spc) : bool := match pc with SScan _ | SBack _ => true | _ => false end.

Definition cheld (s : ksys) (c : nat) : list nat := match c_run (kcpus s c) with Some p => pheld (t_pc (ths s p)) | None => [] end.
Definition cpl (s : ksys) (c : nat) : bool := match c_run (kcpus s c) with Some p => ppl (t_pc (ths s p)) | None => spl (c_spc (kcpus s c)) end.

(** The lock is free, or held by the only CPU that satisfies [P]. *)
Definition lock_at (lk : spinlock) (P : nat -> Prop) : Prop :=
  (locked lk = 0 /\ lk_cpu lk = None /\ forall c, ~ P c) \/ exists c, locked lk = 1 /\ lk_cpu lk = Some c /\ forall c', P c' <-> c' = c.

(** The saved [intena] of a thread that is off its CPU. *)
Definition saved (pc : ppc) : option bool := match pc with Y3 b | S4 _ _ b | P3 _ b => Some b | _ => None end.
Definition resumable (pc : ppc) : bool := match pc with Y3 _ | S4 _ _ _ | P3 _ _ | F0 => true | _ => false end.
Definition sleeps_on (pc : ppc) : option nat := match pc with S4 ch _ _ | P3 ch _ => Some ch | _ => None end.

(** The thread is over, or has not run yet. *)
Definition ended (pc : ppc) : bool := match pc with Dead | F0 => true | _ => false end.

(** Interrupts as they will be when the last lock is dropped. *)
Definition base (h : cpu) : bool := if ncli h =? 0 then eflags_if h else intena h.

Record kinv (s : ksys) : Prop := {
  v_cpu c : cpu_ok (hw (kcpus s c)) /\ ncli (hw (kcpus s c)) = Z.of_nat (length (cheld s c)) + (if cpl s c then 1 else 0);
  v_nodup c : NoDup (cheld s c);
  v_pl : lock_at (plk s) (fun c => cpl s c = true);
  v_lk l : lock_at (lks s l) (fun c => l ∈ cheld s c);
  v_run c p : c_run (kcpus s c) = Some p ->
    t_state (ths s p) = RUNNING /\ c_proc (kcpus s c) = Some p /\ c_spc (kcpus s c) = SIn p /\ t_pc (ths s p) <> Dead;
  v_none c : c_run (kcpus s c) = None ->
    match c_spc (kcpus s c) with SIn _ => False | SBack p => c_proc (kcpus s c) = Some p | _ => c_proc (kcpus s c) = None end;
  v_uniq c c' p : c_run (kcpus s c) = Some p -> c_run (kcpus s c') = Some p -> c = c';
  v_running p : t_state (ths s p) = RUNNING -> exists c, c_run (kcpus s c) = Some p;
  v_off p : match t_state (ths s p) with
    | RUNNABLE => resumable (t_pc (ths s p)) = true
    | SLEEPING => exists ch, sleeps_on (t_pc (ths s p)) = Some ch /\ t_chan (ths s p) = Some ch
    | RUNNING => True
    | _ => ended (t_pc (ths s p)) = true end;
  v_saved p b : t_state (ths s p) <> UNUSED -> saved (t_pc (ths s p)) = Some b -> b = t_want (ths s p);
  v_want c p : c_run (kcpus s c) = Some p -> resumable (t_pc (ths s p)) = false -> base (hw (kcpus s c)) = t_want (ths s p)
}.

Lemma lock_keep lk P P' : (forall c, P' c <-> P c) -> lock_at lk P -> lock_at lk P'.
Proof.
  intros H [(A & B & C)|(c & A & B & C)]; [left | right; exists c]; split_and!; auto; intros c'; rewrite H; apply C.
Qed.

Lemma kinv_ext s s' : plk s' = plk s -> (forall l, lks s' l = lks s l) -> (forall c, kcpus s' c = kcpus s c) -> (forall p, ths s' p = ths s p) -> kinv s -> kinv s'.
Proof.
  intros E1 E2 E3 E4 Hi.
  assert (Eh : forall c, cheld s' c = cheld s c) by (intros c; unfold cheld; rewrite E3; destruct (c_run _); by rewrite ?E4).
  assert (Ep : forall c, cpl s' c = cpl s c) by (intros c; unfold cpl; rewrite E3; destruct (c_run _); by rewrite ?E4).
  destruct Hi as [H1 H2 H3 H4 H5 H6 H7 H8 H9 H10 H11]. split.
  - intros c. rewrite E3, Eh, Ep. auto.
  - intros c. rewrite Eh. auto.
  - rewrite E1. eapply lock_keep; [|exact H3]. intros c. cbn. by rewrite Ep.
  - intros l. rewrite E2. eapply lock_keep; [|exact (H4 l)]. intros c. cbn. by rewrite Eh.
  - intros c p. rewrite E3, E4. apply H5.
  - intros c. rewrite E3. apply H6.
  - intros c c' p. rewrite !E3. apply H7.
  - intros p. rewrite E4. intros H. destruct (H8 p H) as [c Hc]. exists c. by rewrite E3.
  - intros p. rewrite E4. apply H9.
  - intros p b. rewrite E4. apply H10.
  - intros c p. rewrite E3, E4. apply H11.
Qed.

(** ** Lock ownership *)

Lemma lock_take lk (P P' : nat -> Prop) c pcs : lock_at lk P -> locked lk = 0 -> P' c -> (forall c', c' <> c -> P' c' <-> P c') -> lock_at (mk_spinlock 1 (Some c) pcs) P'.
Proof.
  intros [(A & B & C)|(c0 & A & B & C)] Hl Hc Ho; [|congruence]. right. exists c. split_and!; auto. intros c'. destruct (decide (c' = c)) as [->|Hne]; [done|]. rewrite Ho by done. split; [intros H; by destruct (C c') | done].
Qed.

Lemma lock_drop lk (P P' : nat -> Prop) c pcs : lock_at lk P -> P c -> ~ P' c -> (forall c', c' <> c -> P' c' <-> P c') -> lock_at (mk_spinlock 0 None pcs) P'.
Proof.
  intros [(A & B & C)|(c0 & A & B & C)] Hc Hn Ho; [by destruct (C c)|]. left. split_and!; auto. intros c'. destruct (decide (c' = c)) as [->|Hne]; [done|]. rewrite Ho by done. rewrite C. apply C in Hc. congruence.
Qed.

Lemma acquire_at me lk P h : lock_at lk P -> ~ P me -> cpu_ok h ->
  acquire me lk h = if locked lk =? 0 then Ok (mk_spinlock 1 (Some me) (getcallerpcs stack frame), pushcli h) else Blocked.
Proof.
  intros Hl Hp Hh. destruct (pushcli_ok h Hh) as (H1 & H2 & _). unfold Spinlock.acquire. rewrite holding_ok by done. cbn [rbind].
  assert (Hm : bool_decide (lk_cpu lk = Some me) = false).
  { apply bool_decide_eq_false_2. destruct Hl as [(A & B & C)|(c & A & B & C)]; rewrite B; [done|]. intros [= ->]. by apply Hp, C. }
  rewrite Hm, andb_false_r. by destruct (locked lk =? 0).
Qed.

Lemma release_at me lk P h : lock_at lk P -> P me -> cpu_ok h -> 0 < ncli h ->
  release me lk h = Ok (mk_spinlock 0 None (<[0%nat := 0]> (pcs lk)), mk_cpu (ncli h - 1) (intena h) ((ncli h - 1 =? 0) && intena h)).
Proof.
  intros Hl Hp Hh Hn. destruct Hl as [(A & B & C)|(c & A & B & C)]; [by destruct (C me)|]. apply C in Hp as <-. unfold release. rewrite holding_ok by done. cbn [rbind].
  rewrite A, B, bool_decide_eq_true_2 by done. cbn [negb andb Z.eqb]. destruct Hh as [H1 H2]. unfold popcli. rewrite H2 by done. destruct (Z.ltb_spec (ncli h - 1) 0); [lia|]. done.
Qed.

(** Removing a lock from the list of those held. *)
Lemma remove_length_in l (held : list nat) : NoDup held -> l ∈ held -> S (length (remove Nat.eq_dec l held)) = length held.
Proof.
  induction 1 as [|x k Hx Hk IH]; [by rewrite elem_of_nil|]. rewrite elem_of_cons. cbn [remove]. destruct (Nat.eq_dec l x) as [->|Hne].
  - intros _. rewrite notin_remove; [done|]. by rewrite <- list_elem_of_In.
  - intros [->|H]; [done|]. cbn. f_equal. by apply IH.
Qed.

Lemma remove_NoDup_std l (held : list nat) : NoDup held -> NoDup (remove Nat.eq_dec l held).
Proof.
  induction 1 as [|x k Hx Hk IH]; [apply NoDup_nil_2|]. cbn [remove]. destruct (Nat.eq_dec l x); [done|]. apply NoDup_cons. split; [|done].
  rewrite list_elem_of_In in *. intros H. by apply in_remove in H as [H _].
Qed.

Ltac upd_ext := cbn; intros; unfold upd; repeat case_decide; subst; cbn; try done; try congruence.

(** ** Steps of one CPU *)

(** A step of CPU [c] concerns its own state, the threads that run nowhere else,
    and the locks. *)
Lemma local s s' c : kinv s -> (forall c', c' <> c -> kcpus s' c' = kcpus s c') ->
  (forall c' q, c' <> c -> c_run (kcpus s c') = Some q -> ths s' q = ths s q) ->
  cpu_ok (hw (kcpus s' c)) -> ncli (hw (kcpus s' c)) = Z.of_nat (length (cheld s' c)) + (if cpl s' c then 1 else 0) -> NoDup (cheld s' c) ->
  lock_at (plk s') (fun c' => (if decide (c' = c) then cpl s' c else cpl s c') = true) ->
  (forall l, lock_at (lks s' l) (fun c' => l ∈ if decide (c' = c) then cheld s' c else cheld s c')) ->
  match c_run (kcpus s' c) with
  | Some p => t_state (ths s' p) = RUNNING /\ c_proc (kcpus s' c) = Some p /\ c_spc (kcpus s' c) = SIn p /\ t_pc (ths s' p) <> Dead /\
      (forall c', c' <> c -> c_run (kcpus s c') <> Some p) /\ (resumable (t_pc (ths s' p)) = false -> base (hw (kcpus s' c)) = t_want (ths s' p))
  | None => match c_spc (kcpus s' c) with SIn _ => False | SBack p => c_proc (kcpus s' c) = Some p | _ => c_proc (kcpus s' c) = None end
  end ->
  (forall q, t_state (ths s' q) = RUNNING -> c_run (kcpus s' c) = Some q \/ exists c', c' <> c /\ c_run (kcpus s c') = Some q) ->
  (forall q, match t_state (ths s' q) with
    | RUNNABLE => resumable (t_pc (ths s' q)) = true
    | SLEEPING => exists ch, sleeps_on (t_pc (ths s' q)) = Some ch /\ t_chan (ths s' q) = Some ch
    | RUNNING => True
    | _ => ended (t_pc (ths s' q)) = true end) ->
  (forall q b, t_state (ths s' q) <> UNUSED -> saved (t_pc (ths s' q)) = Some b -> b = t_want (ths s' q)) -> kinv s'.
Proof.
  intros Hi Ec Et Hh Hn Hnd Hpl Hlk Hcur Hrn Hoff Hsv.
  assert (Eh : forall c', cheld s' c' = if decide (c' = c) then cheld s' c else cheld s c').
  { intros c'. destruct (decide (c' = c)) as [->|Hne]; [done|]. unfold cheld. rewrite Ec by done. destruct (c_run (kcpus s c')) as [q|] eqn:Eq; [|done]. by rewrite (Et c'). }
  assert (Ep : forall c', cpl s' c' = if decide (c' = c) then cpl s' c else cpl s c').
  { intros c'. destruct (decide (c' = c)) as [->|Hne]; [done|]. unfold cpl. rewrite Ec by done. destruct (c_run (kcpus s c')) as [q|] eqn:Eq; [|done]. by rewrite (Et c'). }
  pose proof Hi as [H1 H2 H3 H4 H5 H6 H7 H8 H9 H10 H11]. split.
  - intros c'. destruct (decide (c' = c)) as [->|Hne]; [done|]. rewrite Eh, Ep, !decide_False, Ec by done. apply H1.
  - intros c'. destruct (decide (c' = c)) as [->|Hne]; [done|]. rewrite Eh, decide_False by done. apply H2.
  - eapply lock_keep; [|exact Hpl]. intros c'. cbn. by rewrite Ep.
  - intros l. eapply lock_keep; [|exact (Hlk l)]. intros c'. cbn. by rewrite Eh.
  - intros c' q. destruct (decide (c' = c)) as [->|Hne]; [intros E; rewrite E in Hcur; naive_solver|]. rewrite Ec by done. intros Hq. rewrite (Et c') by done. by apply H5.
  - intros c'. destruct (decide (c' = c)) as [->|Hne]; [intros E; by rewrite E in Hcur|]. rewrite Ec by done. apply H6.
  - intros c1 c2 q. destruct (decide (c1 = c)) as [->|N1], (decide (c2 = c)) as [->|N2]; auto.
    + rewrite (Ec c2 N2). intros E Hq. rewrite E in Hcur. destruct Hcur as (_ & _ & _ & _ & Hn' & _). by destruct (Hn' c2 N2).
    + rewrite (Ec c1 N1). intros Hq E. rewrite E in Hcur. destruct Hcur as (_ & _ & _ & _ & Hn' & _). by destruct (Hn' c1 N1).
    + rewrite (Ec c1 N1), (Ec c2 N2). apply H7.
  - intros q Hq. destruct (Hrn q Hq) as [E|(c' & Hne & E)]; [by exists c | exists c'; by rewrite Ec].
  - apply Hoff.
  - apply Hsv.
  - intros c' q. destruct (decide (c' = c)) as [->|Hne]; [intros E; rewrite E in Hcur; naive_solver|]. rewrite Ec by done. intros Hq. rewrite (Et c') by done. by apply H11.
Qed.

(** How the holders of a lock change when CPU [c]'s part does. *)
Section holders.
Context (s : ksys) (c : nat) (Hi : kinv s).

Lemma pl_keep b : b = cpl s c -> lock_at (plk s) (fun c' => (if decide (c' = c) then b else cpl s c') = true).
Proof. intros ->. eapply lock_keep; [|apply (v_pl s Hi)]. intros c'. cbn. by destruct (decide (c' = c)) as [->|]. Qed.

Lemma pl_take pcs : locked (plk s) = 0 -> lock_at (mk_spinlock 1 (Some c) pcs) (fun c' => (if decide (c' = c) then true else cpl s c') = true).
Proof. intros Hl. eapply lock_take; [apply (v_pl s Hi) | done | by rewrite decide_True|]. intros c' Hne. cbn. by rewrite decide_False. Qed.

Lemma pl_drop pcs : cpl s c = true -> lock_at (mk_spinlock 0 None pcs) (fun c' => (if decide (c' = c) then false else cpl s c') = true).
Proof. intros Hl. eapply (lock_drop _ _ _ c); [apply (v_pl s Hi) | done | by rewrite decide_True|]. intros c' Hne. cbn. by rewrite decide_False. Qed.

Lemma lk_keep l h : (l ∈ h <-> l ∈ cheld s c) -> lock_at (lks s l) (fun c' => l ∈ if decide (c' = c) then h else cheld s c').
Proof. intros H. eapply lock_keep; [|apply (v_lk s Hi l)]. intros c'. cbn. by destruct (decide (c' = c)) as [->|]. Qed.

Lemma lk_take l h pcs : locked (lks s l) = 0 -> l ∈ h -> lock_at (mk_spinlock 1 (Some c) pcs) (fun c' => l ∈ if decide (c' = c) then h else cheld s c').
Proof. intros Hl H. eapply lock_take; [apply (v_lk s Hi l) | done | by rewrite decide_True|]. intros c' Hne. cbn. by rewrite decide_False. Qed.

Lemma lk_drop l h pcs : l ∈ cheld s c -> l ∉ h -> lock_at (mk_spinlock 0 None pcs) (fun c' => l ∈ if decide (c' = c) then h else cheld s c').
Proof. intros Hl H. eapply (lock_drop _ _ _ c); [apply (v_lk s Hi l) | done | by rewrite decide_True|]. intros c' Hne. cbn. by rewrite decide_False. Qed.
End holders.

Lemma base_push h : cpu_ok h -> base (pushcli h) = base h.
Proof. intros [H _]. unfold base, pushcli. cbn. destruct (Z.eqb_spec (ncli h + 1) 0); [lia|]. done. Qed.

Definition popped (h : cpu) : cpu := mk_cpu (ncli h - 1) (intena h) ((ncli h - 1 =? 0) && intena h).

Lemma popped_ok h : cpu_ok h -> 0 < ncli h -> cpu_ok (popped h) /\ base (popped h) = intena h.
Proof.
  intros [H1 H2] Hn. unfold cpu_ok, popped, base. cbn. destruct (Z.eqb_spec (ncli h - 1) 0); cbn [andb]; split; try done; lia.
Qed.

(** A process goes on running. *)
Lemma stay s s' c p : kinv s -> c_run (kcpus s c) = Some p -> (forall c', c' <> c -> kcpus s' c' = kcpus s c') -> (forall q, q <> p -> ths s' q = ths s q) ->
  kcpus s' c = mk_kcpu (hw (kcpus s' c)) (Some p) (Some p) (SIn p) ->
  let t := ths s' p in let h := hw (kcpus s' c) in t_state t = RUNNING -> t_pc t <> Dead ->
  cpu_ok h -> ncli h = Z.of_nat (length (pheld (t_pc t))) + (if ppl (t_pc t) then 1 else 0) -> NoDup (pheld (t_pc t)) ->
  lock_at (plk s') (fun c' => (if decide (c' = c) then ppl (t_pc t) else cpl s c') = true) ->
  (forall l, lock_at (lks s' l) (fun c' => l ∈ if decide (c' = c) then pheld (t_pc t) else cheld s c')) ->
  saved (t_pc t) = None -> (resumable (t_pc t) = false -> base h = t_want t) -> kinv s'.
Proof.
  intros Hi Hrun Ec Et Ecc t h Hst Hd Hh Hn Hnd Hpl Hlk Hsv Hw. assert (Er : c_run (kcpus s' c) = Some p) by (by rewrite Ecc).
  assert (Eh : cheld s' c = pheld (t_pc t)) by (unfold cheld; by rewrite Er). assert (Ep : cpl s' c = ppl (t_pc t)) by (unfold cpl; by rewrite Er).
  assert (Hother : forall c' q, c' <> c -> c_run (kcpus s c') = Some q -> q <> p) by (intros c' q Hne Hq ->; apply Hne; by apply (v_uniq s Hi c' c p)).
  apply (local s s' c); rewrite ?Eh, ?Ep; auto.
  - intros c' q Hne Hq. apply Et. by eapply Hother.
  - rewrite Er. split_and!; auto; [by rewrite Ecc | by rewrite Ecc|]. intros c' Hne Hq. by destruct (Hother c' p Hne Hq).
  - intros q Hq. destruct (decide (q = p)) as [->|Hne]; [by left|]. right. rewrite Et in Hq by done. destruct (v_running s Hi q Hq) as [c' Hc']. exists c'. split; [|done]. intros ->. congruence.
  - intros q. destruct (decide (q = p)) as [->|Hne]; [fold t; by rewrite Hst|]. rewrite Et by done. apply (v_off s Hi).
  - intros q b. destruct (decide (q = p)) as [->|Hne]; [fold t; by rewrite Hsv|]. rewrite Et by done. apply (v_saved s Hi).
Qed.

Section proc_steps.
Context (s : ksys) (c p : nat) (Hi : kinv s) (Hrun : c_run (kcpus s c) = Some p).

Lemma cur_held : cheld s c = pheld (t_pc (ths s p)).
Proof. unfold cheld. by rewrite Hrun. Qed.
Lemma cur_pl : cpl s c = ppl (t_pc (ths s p)).
Proof. unfold cpl. by rewrite Hrun. Qed.
Lemma cur_cpu : kcpus s c = mk_kcpu (hw (kcpus s c)) (Some p) (Some p) (SIn p).
Proof. destruct (v_run s Hi c p Hrun) as (_ & H1 & H2 & _). destruct (kcpus s c). cbn in *. congruence. Qed.

(** Only the thread's own record and the interrupt state change. *)
Lemma stay_plain t h : t_state t = RUNNING -> t_pc t <> Dead -> cpu_ok h -> ncli h = ncli (hw (kcpus s c)) -> pheld (t_pc t) = pheld (t_pc (ths s p)) -> ppl (t_pc t) = ppl (t_pc (ths s p)) ->
  saved (t_pc t) = None -> (resumable (t_pc t) = false -> base h = t_want t) -> kinv (set_th (set_hw s c h) p t).
Proof.
  intros Hst Hd Hh Hn Hph Hpp Hsv Hw. destruct (v_cpu s Hi c) as [_ Hnc]. rewrite cur_held, cur_pl in Hnc. apply (stay s _ c p Hi Hrun); cbn [set_th set_hw set_cpu kcpus ths plk lks]; rewrite ?updn_eq; auto.
  - intros c' Hne. by rewrite updn_ne.
  - intros q Hne. by rewrite updn_ne.
  - cbn. by rewrite cur_cpu.
  - cbn. by rewrite Hn, Hph, Hpp.
  - rewrite Hph, <- cur_held. apply (v_nodup s Hi).
  - apply pl_keep; [done|]. by rewrite Hpp, cur_pl.
  - intros l. apply lk_keep; [done|]. by rewrite Hph, cur_held.
Qed.

(** A call starts. *)
Lemma stay_pc pc : pc <> Dead -> pheld pc = pheld (t_pc (ths s p)) -> ppl pc = ppl (t_pc (ths s p)) -> saved pc = None -> resumable (t_pc (ths s p)) = false -> kinv (set_pc s p pc).
Proof.
  intros Hd Hph Hpp Hsv Hres. destruct (v_run s Hi c p Hrun) as (Hst & _). destruct (v_cpu s Hi c) as [Hok _].
  eapply kinv_ext; [..|apply (stay_plain (mk_thread RUNNING (t_chan (ths s p)) pc (t_want (ths s p))) (hw (kcpus s c)))]; try done.
  - upd_ext. by destruct (kcpus s c).
  - upd_ext.
  - intros _. by apply (v_want s Hi).
Qed.

(** [acquire(&ptable.lock)]. *)
Lemma step_lock_pl pc : ppl (t_pc (ths s p)) = false -> pheld pc = pheld (t_pc (ths s p)) -> ppl pc = true -> pc <> Dead -> saved pc = None -> resumable (t_pc (ths s p)) = false ->
  match (let* s := lock_ptable c s in Ok (set_pc s p pc)) with Ok s' => kinv s' | Panic _ => False | Blocked => True end.
Proof.
  intros Hpl Hph Hpp Hd Hsv Hres. destruct (v_cpu s Hi c) as [Hok Hnc]. rewrite cur_held, cur_pl, Hpl in Hnc. unfold lock_ptable.
  rewrite (acquire_at c (plk s) _ _ (v_pl s Hi)) by (rewrite ?cur_pl; auto; by rewrite Hpl). destruct (Z.eqb_spec (locked (plk s)) 0) as [Hl|]; [|done]. cbn [rbind].
  destruct (v_run s Hi c p Hrun) as (Hst & _). apply (stay s _ c p Hi Hrun); cbn [set_th set_pc set_hw set_cpu set_plk kcpus ths plk lks]; rewrite ?updn_eq; cbn [t_state t_pc hw t_want]; auto.
  - intros c' Hne. by rewrite updn_ne.
  - intros q Hne. by rewrite updn_ne.
  - by rewrite cur_cpu.
  - by apply pushcli_ok.
  - rewrite Hph, Hpp. cbn. lia.
  - rewrite Hph, <- cur_held. apply (v_nodup s Hi).
  - rewrite Hpp. by apply pl_take.
  - intros l. apply lk_keep; [done|]. by rewrite Hph, cur_held.
  - intros _. rewrite base_push by done. by apply (v_want s Hi).
Qed.

(** [release(&ptable.lock)], perhaps after [intena] and the channel have been reset. *)
Lemma step_unlock_pl h pc ch w : ppl (t_pc (ths s p)) = true -> pheld pc = pheld (t_pc (ths s p)) -> ppl pc = false -> pc <> Dead -> saved pc = None ->
  ncli h = ncli (hw (kcpus s c)) -> eflags_if h = eflags_if (hw (kcpus s c)) -> intena h = w ->
  exists lk, release c (plk s) h = Ok (lk, popped h) /\
  forall s', plk s' = lk -> lks s' = lks s -> (forall c', c' <> c -> kcpus s' c' = kcpus s c') -> kcpus s' c = mk_kcpu (popped h) (Some p) (Some p) (SIn p) ->
    (forall q, q <> p -> ths s' q = ths s q) -> ths s' p = mk_thread RUNNING ch pc w -> kinv s'.
Proof.
  intros Hpl Hph Hpp Hd Hsv En Ei Ew. destruct (v_cpu s Hi c) as [Hok Hnc]. rewrite cur_held, cur_pl, Hpl in Hnc.
  assert (Hh : cpu_ok h) by (unfold cpu_ok in *; by rewrite En, Ei). assert (Hpos : 0 < ncli h) by lia. destruct (popped_ok h Hh Hpos) as [Hp1 Hp2].
  eexists. split; [apply (release_at c (plk s) _ h (v_pl s Hi)); auto; by rewrite cur_pl|].
  intros s' Epl Elk Ec Ecc Et Etp. apply (stay s s' c p Hi Hrun Ec Et); rewrite ?Ecc, ?Etp, ?Epl, ?Elk; cbn [t_state t_pc hw t_want]; auto.
  - rewrite Hph, Hpp. cbn. lia.
  - rewrite Hph, <- cur_held. apply (v_nodup s Hi).
  - rewrite Hpp. apply pl_drop; [done|]. by rewrite cur_pl.
  - intros l. apply lk_keep; [done|]. by rewrite Hph, cur_held.
  - intros _. congruence.
Qed.

(** [acquire] and [release] of another lock. *)
Lemma step_lock_other l pc : pheld pc = l :: pheld (t_pc (ths s p)) -> l ∉ pheld (t_pc (ths s p)) -> ppl pc = ppl (t_pc (ths s p)) -> pc <> Dead -> saved pc = None -> resumable (t_pc (ths s p)) = false ->
  match (let* s := lock_other c l s in Ok (set_pc s p pc)) with Ok s' => kinv s' | Panic _ => False | Blocked => True end.
Proof.
  intros Hph Hnin Hpp Hd Hsv Hres. destruct (v_cpu s Hi c) as [Hok Hnc]. rewrite cur_held, cur_pl in Hnc. unfold lock_other.
  rewrite (acquire_at c (lks s l) _ _ (v_lk s Hi l)) by (rewrite ?cur_held; auto). destruct (Z.eqb_spec (locked (lks s l)) 0) as [Hl|]; [|done]. cbn [rbind].
  destruct (v_run s Hi c p Hrun) as (Hst & _). apply (stay s _ c p Hi Hrun); cbn [set_th set_pc set_hw set_cpu set_lk kcpus ths plk lks]; rewrite ?updn_eq; cbn [t_state t_pc hw t_want]; auto.
  - intros c' Hne. by rewrite updn_ne.
  - intros q Hne. by rewrite updn_ne.
  - by rewrite cur_cpu.
  - by apply pushcli_ok.
  - rewrite Hph, Hpp. cbn [length pushcli ncli]. lia.
  - rewrite Hph. apply NoDup_cons. split; [done|]. rewrite <- cur_held. apply (v_nodup s Hi).
  - apply pl_keep; [done|]. by rewrite Hpp, cur_pl.
  - intros l'. rewrite Hph. destruct (decide (l' = l)) as [->|Hne]; [rewrite updn_eq; apply lk_take; auto; apply list_elem_of_here|]. rewrite updn_ne by done. apply lk_keep; [done|].
    rewrite elem_of_cons, cur_held. naive_solver.
  - intros _. rewrite base_push by done. by apply (v_want s Hi).
Qed.

Lemma step_unlock_other l pc : l ∈ pheld (t_pc (ths s p)) -> NoDup (pheld pc) -> (forall l', l' ∈ pheld pc <-> l' ∈ pheld (t_pc (ths s p)) /\ l' <> l) ->
  S (length (pheld pc)) = length (pheld (t_pc (ths s p))) -> ppl pc = ppl (t_pc (ths s p)) -> pc <> Dead -> saved pc = None -> resumable (t_pc (ths s p)) = false ->
  match (let* s := unlock_other c l s in Ok (set_pc s p pc)) with Ok s' => kinv s' | Panic _ => False | Blocked => True end.
Proof.
  intros Hin Hnd Hel Hlen Hpp Hd Hsv Hres. destruct (v_cpu s Hi c) as [Hok Hnc]. rewrite cur_held, cur_pl in Hnc. unfold unlock_other.
  assert (Hpos : 0 < ncli (hw (kcpus s c))) by (destruct (ppl (t_pc (ths s p))); lia).
  rewrite (release_at c (lks s l) _ _ (v_lk s Hi l)) by (rewrite ?cur_held; auto). cbn [rbind]. fold (popped (hw (kcpus s c))). destruct (popped_ok _ Hok Hpos) as [Hp1 Hp2].
  destruct (v_run s Hi c p Hrun) as (Hst & _). apply (stay s _ c p Hi Hrun); cbn [set_th set_pc set_hw set_cpu set_lk kcpus ths plk lks]; rewrite ?updn_eq; cbn [t_state t_pc hw t_want]; auto.
  - intros c' Hne. by rewrite updn_ne.
  - intros q Hne. by rewrite updn_ne.
  - by rewrite cur_cpu.
  - rewrite Hpp. cbn. lia.
  - apply pl_keep; [done|]. by rewrite Hpp, cur_pl.
  - intros l'. destruct (decide (l' = l)) as [->|Hne]; [rewrite updn_eq; apply lk_drop; auto; [by rewrite cur_held | rewrite Hel; naive_solver]|]. rewrite updn_ne by done. apply lk_keep; [done|].
    rewrite Hel, cur_held. naive_solver.
  - intros _. rewrite Hp2. rewrite <- (v_want s Hi c p Hrun Hres). unfold base. destruct (Z.eqb_spec (ncli (hw (kcpus s c))) 0); [lia | done].
Qed.

(** The switch to the scheduler: the checks of [sched()] hold. *)
Lemma step_leave st ch back : pheld (t_pc (ths s p)) = [] -> ppl (t_pc (ths s p)) = true -> resumable (t_pc (ths s p)) = false -> st <> RUNNING ->
  (forall b, match st with RUNNABLE => resumable (back b) = true | SLEEPING => exists ch0, sleeps_on (back b) = Some ch0 /\ ch = Some ch0 | RUNNING => True | _ => ended (back b) = true end) ->
  (forall b b', saved (back b) = Some b' -> b' = b) ->
  match sched_out c p back (set_th s p (mk_thread st ch (t_pc (ths s p)) (t_want (ths s p)))) with Ok s' => kinv s' | Panic _ => False | Blocked => True end.
Proof.
  intros Hph Hpp Hres Hst Hoff Hsv. destruct (v_cpu s Hi c) as [Hok Hnc]. rewrite cur_held, cur_pl, Hph, Hpp in Hnc. cbn [length] in Hnc. pose proof (v_want s Hi c p Hrun Hres) as Hw.
  assert (Hp1 : 0 < ncli (hw (kcpus s c))) by lia. destruct Hok as [Hk1 Hk2]. pose proof (Hk2 Hp1) as Hif.
  unfold sched_out. cbn [set_th kcpus plk ths]. rewrite holding_ok by done. cbn [rbind].
  assert (Hlk : negb (locked (plk s) =? 0) && bool_decide (lk_cpu (plk s) = Some c) = true).
  { destruct (v_pl s Hi) as [(A & B & C)|(c0 & A & B & C)]; [destruct (C c); by rewrite cur_pl|]. assert (c = c0) as <- by (apply C; by rewrite cur_pl). rewrite A, B, bool_decide_eq_true_2 by done. done. }
  rewrite Hlk. cbn [negb]. rewrite Hnc, updn_eq. cbn [Z.of_nat Z.add Z.eqb Pos.eqb negb t_state]. rewrite bool_decide_eq_false_2 by done. rewrite Hif.
  assert (Hb : intena (hw (kcpus s c)) = t_want (ths s p)) by (rewrite <- Hw; unfold base; by rewrite Hnc).
  destruct (v_run s Hi c p Hrun) as (_ & Hcp & Hsp & _). rewrite Hsp.
  assert (Hother : forall c' q, c' <> c -> c_run (kcpus s c') = Some q -> q <> p) by (intros c' q Hne Hq ->; apply Hne; by apply (v_uniq s Hi c' c p)).
  set (s' := set_cpu _ c _). assert (Ecc : kcpus s' c = mk_kcpu (hw (kcpus s c)) (c_proc (kcpus s c)) None (SBack p)) by (unfold s'; cbn; by rewrite updn_eq).
  assert (Ec : forall c', c' <> c -> kcpus s' c' = kcpus s c') by (intros c' Hne; unfold s'; cbn; by rewrite updn_ne).
  assert (Etp : ths s' p = mk_thread st ch (back (intena (hw (kcpus s c)))) (t_want (ths s p))) by (unfold s'; cbn; rewrite !updn_eq; done).
  assert (Et : forall q, q <> p -> ths s' q = ths s q) by (intros q Hne; unfold s'; cbn; by rewrite !updn_ne).
  assert (Epl : plk s' = plk s) by done. assert (Elk : lks s' = lks s) by done. clearbody s'.
  assert (Eh : cheld s' c = []) by (unfold cheld; by rewrite Ecc). assert (Ep : cpl s' c = true) by (unfold cpl; by rewrite Ecc).
  apply (local s s' c Hi Ec); rewrite ?Eh, ?Ep, ?Epl, ?Elk, ?Ecc; cbn [hw c_run c_spc c_proc]; auto.
  - intros c' q Hne Hq. apply Et. by eapply Hother.
  - done.
  - apply NoDup_nil_2.
  - apply pl_keep; [done|]. by rewrite cur_pl.
  - intros l. apply lk_keep; [done|]. by rewrite cur_held, Hph.
  - intros q Hq. destruct (decide (q = p)) as [->|Hne]; [by rewrite Etp in Hq|]. right. rewrite Et in Hq by done. destruct (v_running s Hi q Hq) as [c' Hc']. exists c'. split; [|done]. intros ->. congruence.
  - intros q. destruct (decide (q = p)) as [->|Hne]; [rewrite Etp; apply Hoff|]. rewrite Et by done. apply (v_off s Hi).
  - intros q b. destruct (decide (q = p)) as [->|Hne]; [rewrite Etp; cbn; intros _ Hb'; apply Hsv in Hb'; congruence|]. rewrite Et by done. apply (v_saved s Hi).
Qed.

Lemma update1_running u q : t_state (ths s q) = RUNNING -> update1 u q (ths s q) = ths s q.
Proof. intros H. destruct u; cbn; rewrite H; cbn; by rewrite ?andb_false_r. Qed.

(** The changes made to the table under the lock. *)
Lemma step_update u pc : ppl (t_pc (ths s p)) = true -> pheld pc = pheld (t_pc (ths s p)) -> ppl pc = true -> pc <> Dead -> saved pc = None -> resumable (t_pc (ths s p)) = false ->
  kinv (set_pc (update u s) p pc).
Proof.
  intros Hpl Hph Hpp Hd Hsv Hres. destruct (v_run s Hi c p Hrun) as (Hst & _). destruct (v_cpu s Hi c) as [Hok Hnc]. rewrite cur_held, cur_pl, Hpl in Hnc.
  assert (Hother : forall c' q, c' <> c -> c_run (kcpus s c') = Some q -> q <> p) by (intros c' q Hne Hq ->; apply Hne; by apply (v_uniq s Hi c' c p)).
  set (s' := set_pc _ _ _). assert (Etp : ths s' p = mk_thread RUNNING (t_chan (ths s p)) pc (t_want (ths s p))) by (unfold s'; cbn; rewrite updn_eq, (update1_running u p Hst), Hst; done).
  assert (Et : forall q, q <> p -> ths s' q = update1 u q (ths s q)) by (intros q Hne; unfold s'; cbn; by rewrite updn_ne).
  assert (Ec : forall c', kcpus s' c' = kcpus s c') by done. assert (Epl : plk s' = plk s) by done. assert (Elk : lks s' = lks s) by done. clearbody s'.
  assert (Eh : cheld s' c = pheld (t_pc (ths s p))) by (unfold cheld; by rewrite Ec, Hrun, Etp). assert (Ep : cpl s' c = true) by (unfold cpl; by rewrite Ec, Hrun, Etp).
  apply (local s s' c Hi); rewrite ?Eh, ?Ep, ?Epl, ?Elk, ?Ec, ?Hrun; auto.
  - intros c' q Hne Hq. rewrite Et by (by eapply Hother). apply update1_running. by apply (v_run s Hi c' q).
  - rewrite <- cur_held. apply (v_nodup s Hi).
  - apply pl_keep; [done|]. by rewrite cur_pl.
  - intros l. apply lk_keep; [done|]. by rewrite cur_held.
  - rewrite Etp. cbn [t_state t_pc t_want]. destruct (v_run s Hi c p Hrun) as (_ & H1 & H2 & _). split; [done|]. split; [done|]. split; [done|]. split; [done|]. split; [intros c' Hne Hq; by destruct (Hother c' p Hne Hq)|]. intros _. by apply (v_want s Hi).
  - intros q Hq. destruct (decide (q = p)) as [->|Hne]; [by left|]. right. rewrite Et in Hq by done.
    assert (Hr : t_state (ths s q) = RUNNING). { destruct u; cbn in Hq; destruct (_ && _); cbn in Hq; done. }
    destruct (v_running s Hi q Hr) as [c' Hc']. exists c'. split; [|done]. intros ->. congruence.
  - intros q. destruct (decide (q = p)) as [->|Hne]; [by rewrite Etp|]. rewrite Et by done. pose proof (v_off s Hi q) as Ho.
    assert (Hsl : t_state (ths s q) = SLEEPING -> resumable (t_pc (ths s q)) = true) by (intros E; rewrite E in Ho; destruct Ho as (ch & Ho & _); by destruct (t_pc (ths s q))).
    destruct u; cbn; destruct (_ && _) eqn:E; cbn; auto; apply andb_prop in E as [E1 E2]; rewrite bool_decide_eq_true in E1, E2; auto. by rewrite E2 in Ho.
  - intros q b. destruct (decide (q = p)) as [->|Hne]; [rewrite Etp; cbn; by rewrite Hsv|]. rewrite Et by done. pose proof (v_saved s Hi q b) as Hs.
    destruct u; cbn; destruct (_ && _) eqn:E; cbn; try exact Hs; try done; apply andb_prop in E as [E1 E2]; rewrite bool_decide_eq_true in E1, E2; intros _; apply Hs; congruence.
Qed.

(** Code outside the calls. *)
Lemma code_step_ok held a : t_pc (ths s p) = Code held -> match code_step c p a held s with Ok s' => kinv s' | Panic _ => False | Blocked => True end.
Proof.
  intros Epc. destruct (v_run s Hi c p Hrun) as (Hst & Hcp & Hsp & Hd). destruct (v_cpu s Hi c) as [Hok Hnc]. rewrite cur_held, cur_pl, Epc in Hnc. cbn in Hnc.
  pose proof (v_nodup s Hi c) as Hnd. rewrite cur_held, Epc in Hnd. cbn in Hnd. pose proof (v_want s Hi c p Hrun) as Hw. rewrite Epc in Hw.
  unfold code_step. destruct a.
  - destruct (Z.eqb_spec (ncli (hw (kcpus s c))) 0) as [E0|]; [|done]. apply stay_plain; cbn; rewrite ?Epc; try done. 
  - case_bool_decide; [done|]. apply step_lock_other; rewrite ?Epc; done.
  - case_bool_decide as Hin; [|done]. apply step_unlock_other; rewrite ?Epc; try done.
    + by apply remove_NoDup_std.
    + cbn. intros l'. rewrite !list_elem_of_In. split; [apply in_remove | intros [H1 H2]; by apply in_in_remove].
    + cbn. by apply remove_length_in.
  - destruct (eflags_if (hw (kcpus s c))) eqn:Eif; [|done]. destruct Hok as [Hk1 Hk2].
    assert (Hn0 : ncli (hw (kcpus s c)) = 0) by (destruct (decide (0 < ncli (hw (kcpus s c)))); [by rewrite Hk2 in Eif | lia]).
    eapply kinv_ext; [..|apply (stay_plain (mk_thread RUNNING (t_chan (ths s p)) Y1 false) (mk_cpu (ncli (hw (kcpus s c))) (intena (hw (kcpus s c))) false))]; cbn; rewrite ?Epc; try done; try upd_ext.
    + destruct held; [done|]. cbn in Hnc. lia.
    + unfold base. by rewrite Hn0.
  - case_bool_decide as Hh; [|done]. subst. apply stay_pc; rewrite ?Epc; done.
  - case_bool_decide as Hh; [|done]. subst. apply stay_pc; rewrite ?Epc; done.
  - case_bool_decide as Hh; [|done]. subst. apply stay_pc; rewrite ?Epc; done.
  - apply stay_pc; rewrite ?Epc; done.
Qed.

(** Whatever a process does next keeps the invariant and does not panic. *)
Lemma proc_step_ok a : match proc_step c p a s with Ok s' => kinv s' | Panic _ => False | Blocked => True end.
Proof.
  destruct (v_run s Hi c p Hrun) as (Hst & Hcp & Hsp & Hd). destruct (v_cpu s Hi c) as [Hok Hnc]. rewrite cur_held, cur_pl in Hnc.
  pose proof (v_saved s Hi p) as Hsv. rewrite Hst in Hsv. specialize (fun b => Hsv b ltac:(done)). pose proof (v_want s Hi c p Hrun) as Hw.
  unfold proc_step, forkret_step. destruct (t_pc (ths s p)) as [held| | |b|ch l|ch l|ch l|ch l b|l|ch|ch|ch b| | | |u held|u held|held|] eqn:Epc; cbn [saved resumable pheld ppl length yield_step sleep_step wait_step exit_step table_step] in *.
  - apply (code_step_ok held a); auto.
  - apply step_lock_pl; rewrite ?Epc; done.
  - apply step_leave; rewrite ?Epc; try done. by intros b b' [= ->].
  - destruct (step_unlock_pl (mk_cpu (ncli (hw (kcpus s c))) b (eflags_if (hw (kcpus s c)))) (Code []) (t_chan (ths s p)) (t_want (ths s p))) as (lk & E & Hk); rewrite ?Epc; try done; [cbn; by apply Hsv|].
    unfold unlock_ptable, restore_intena. cbn [set_hw set_cpu plk kcpus]. rewrite updn_eq. cbn [hw]. rewrite E. cbn [rbind]. apply Hk; upd_ext.
  - apply step_lock_pl; rewrite ?Epc; done.
  - apply step_unlock_other; rewrite ?Epc; cbn; try done; [apply list_elem_of_here | apply NoDup_nil_2|]. intros l'. rewrite elem_of_nil, list_elem_of_singleton. naive_solver.
  - replace (mk_thread SLEEPING (Some ch) (S3 ch l) (t_want (ths s p))) with (mk_thread SLEEPING (Some ch) (t_pc (ths s p)) (t_want (ths s p))) by (by rewrite Epc).
    apply step_leave; rewrite ?Epc; try done; [intros b; by exists ch|]. by intros b b' [= ->].
  - destruct (step_unlock_pl (mk_cpu (ncli (hw (kcpus s c))) b (eflags_if (hw (kcpus s c)))) (S5 l) None (t_want (ths s p))) as (lk & E & Hk); rewrite ?Epc; try done; [cbn; by apply Hsv|].
    unfold unlock_ptable, restore_intena. cbn [set_th set_hw set_cpu plk kcpus]. rewrite updn_eq. cbn [hw]. rewrite E. cbn [rbind]. apply Hk; upd_ext.
  - apply step_lock_other; rewrite ?Epc; try done. apply not_elem_of_nil.
  - apply step_lock_pl; rewrite ?Epc; done.
  - replace (mk_thread SLEEPING (Some ch) (P2 ch) (t_want (ths s p))) with (mk_thread SLEEPING (Some ch) (t_pc (ths s p)) (t_want (ths s p))) by (by rewrite Epc).
    apply step_leave; rewrite ?Epc; try done; [intros b; by exists ch|]. by intros b b' [= ->].
  - apply stay_plain; rewrite ?Epc; try (by destruct a). intros _. cbn. rewrite (Hsv b eq_refl). unfold base. cbn. by rewrite Hnc.
  - apply step_lock_pl; rewrite ?Epc; done.
  - destruct a; try (apply step_leave; rewrite ?Epc; done). apply step_update; rewrite ?Epc; done.
  - done.
  - apply step_lock_pl; rewrite ?Epc; done.
  - apply step_update; rewrite ?Epc; done.
  - assert (Hin : intena (hw (kcpus s c)) = t_want (ths s p)) by (rewrite <- Hw by done; unfold base; destruct (Z.eqb_spec (ncli (hw (kcpus s c))) 0); [lia | done]).
    destruct (step_unlock_pl (hw (kcpus s c)) (Code held) (t_chan (ths s p)) (t_want (ths s p))) as (lk & E & Hk); rewrite ?Epc; try done.
    unfold unlock_ptable. rewrite E. cbn [rbind]. apply Hk; upd_ext.
  - destruct (step_unlock_pl (hw (kcpus s c)) (Code []) (t_chan (ths s p)) (intena (hw (kcpus s c)))) as (lk & E & Hk); rewrite ?Epc; try done.
    unfold unlock_ptable. rewrite E. cbn [rbind]. apply Hk; upd_ext.
Qed.
End proc_steps.

(** ** Steps of the scheduler thread *)

Section sched_steps.
Context (s : ksys) (c : nat) (Hi : kinv s) (Hrun : c_run (kcpus s c) = None).

Lemma idle_held : cheld s c = [].
Proof. unfold cheld. by rewrite Hrun. Qed.
Lemma idle_pl : cpl s c = spl (c_spc (kcpus s c)).
Proof. unfold cpl. by rewrite Hrun. Qed.

(** The scheduler goes on. *)
Lemma idle s' h pr pc : ths s' = ths s -> lks s' = lks s -> (forall c', c' <> c -> kcpus s' c' = kcpus s c') -> kcpus s' c = mk_kcpu h pr None pc ->
  cpu_ok h -> ncli h = (if spl pc then 1 else 0) -> match pc with SIn _ => False | SBack p => pr = Some p | _ => pr = None end ->
  lock_at (plk s') (fun c' => (if decide (c' = c) then spl pc else cpl s c') = true) -> kinv s'.
Proof.
  intros Et Elk Ec Ecc Hh Hn Hpr Hpl. assert (Eh : cheld s' c = []) by (unfold cheld; by rewrite Ecc). assert (Ep : cpl s' c = spl pc) by (unfold cpl; by rewrite Ecc).
  apply (local s s' c Hi Ec); rewrite ?Eh, ?Ep, ?Elk, ?Ecc, ?Et; cbn [hw c_run c_spc c_proc]; auto.
  - apply NoDup_nil_2.
  - intros l. apply lk_keep; [done|]. by rewrite idle_held.
  - intros q Hq. right. destruct (v_running s Hi q Hq) as [c' Hc']. exists c'. split; [|done]. intros ->. congruence.
  - apply (v_off s Hi).
  - apply (v_saved s Hi).
Qed.

(** The switch to a runnable process. *)
Lemma dispatch p s' : spl (c_spc (kcpus s c)) = true -> t_state (ths s p) = RUNNABLE -> plk s' = plk s -> lks s' = lks s -> (forall c', c' <> c -> kcpus s' c' = kcpus s c') ->
  kcpus s' c = mk_kcpu (hw (kcpus s c)) (Some p) (Some p) (SIn p) -> (forall q, q <> p -> ths s' q = ths s q) -> ths s' p = with_st (ths s p) RUNNING -> kinv s'.
Proof.
  intros Hspl Hst Epl Elk Ec Ecc Et Etp. destruct (v_cpu s Hi c) as [Hok Hnc]. rewrite idle_held, idle_pl, Hspl in Hnc. pose proof (v_off s Hi p) as Ho. rewrite Hst in Ho.
  assert (Hother : forall c', c_run (kcpus s c') <> Some p) by (intros c' Hq; destruct (v_run s Hi c' p Hq) as (Hq' & _); congruence).
  assert (Hpp : ppl (t_pc (ths s p)) = true /\ pheld (t_pc (ths s p)) = [] /\ t_pc (ths s p) <> Dead) by (by destruct (t_pc (ths s p))). destruct Hpp as (Hpp & Hph & Hd).
  assert (Eh : cheld s' c = []) by (unfold cheld; by rewrite Ecc; cbn; rewrite Etp). assert (Ep : cpl s' c = true) by (unfold cpl; by rewrite Ecc; cbn; rewrite Etp).
  apply (local s s' c Hi Ec); rewrite ?Eh, ?Ep, ?Elk, ?Epl, ?Ecc; cbn [hw c_run c_spc c_proc]; auto.
  - intros c' q Hne Hq. apply Et. intros ->. by destruct (Hother c').
  - apply NoDup_nil_2.
  - apply pl_keep; [done|]. by rewrite idle_pl.
  - intros l. apply lk_keep; [done|]. by rewrite idle_held.
  - rewrite Etp. cbn [with_st t_state t_pc t_want]. split_and!; auto. congruence.
  - intros q Hq. destruct (decide (q = p)) as [->|Hne]; [by left|]. right. rewrite Et in Hq by done. destruct (v_running s Hi q Hq) as [c' Hc']. exists c'. split; [|done]. intros ->. congruence.
  - intros q. destruct (decide (q = p)) as [->|Hne]; [by rewrite Etp|]. rewrite Et by done. apply (v_off s Hi).
  - intros q b. destruct (decide (q = p)) as [->|Hne]; [rewrite Etp; cbn; intros _; apply (v_saved s Hi); congruence|]. rewrite Et by done. apply (v_saved s Hi).
Qed.

Lemma sched_step_ok : match sched_step c s with Ok s' => kinv s' | Panic _ => False | Blocked => True end.
Proof.
  destruct (v_cpu s Hi c) as [Hok Hnc]. rewrite idle_held, idle_pl in Hnc. pose proof (v_none s Hi c Hrun) as Hno. pose proof idle_pl as Hip.
  unfold sched_step. destruct (c_spc (kcpus s c)) as [| |p|p|p] eqn:Epc; cbn [spl length] in *.
  - eapply (idle _ (mk_cpu (ncli (hw (kcpus s c))) (intena (hw (kcpus s c))) true) None SAcq); upd_ext; [unfold cpu_ok; cbn; lia|]. by apply pl_keep.
  - unfold lock_ptable. rewrite (acquire_at c (plk s) _ _ (v_pl s Hi)) by (rewrite ?Hip; auto). destruct (Z.eqb_spec (locked (plk s)) 0) as [Hl|]; [|done]. cbn [rbind].
    eapply (idle _ (pushcli (hw (kcpus s c))) None (SScan 0)); upd_ext; [by apply pushcli_ok | lia|]. by apply pl_take.
  - destruct (Nat.leb_spec NPROCS p).
    { unfold unlock_ptable. rewrite (release_at c (plk s) _ _ (v_pl s Hi)) by (rewrite ?Hip; auto; lia). cbn [rbind]. fold (popped (hw (kcpus s c))).
      eapply (idle _ (popped (hw (kcpus s c))) None SLoop); upd_ext; [apply popped_ok; auto; lia | lia|]. by apply pl_drop. }
    case_bool_decide as Hst; cbn [negb].
    + eapply (dispatch p); upd_ext. by rewrite Epc.
    + eapply (idle _ (hw (kcpus s c)) None (SScan (S p))); upd_ext. by apply pl_keep.
  - done.
  - eapply (idle _ (hw (kcpus s c)) None (SScan (S p))); upd_ext. by apply pl_keep.
Qed.
End sched_steps.

(** ** The machine *)

Lemma kinv_init : kinv ksys_init.
Proof.
  split; cbn; intros; try done.
  - apply NoDup_nil_2.
  - left. split_and!; try done.
  - left. split_and!; try done. intros c. apply not_elem_of_nil.
  - by case_decide.
  - by case_decide.
Qed.

Lemma cpu_step_ok c a s : kinv s -> match cpu_step c a s with Ok s' => kinv s' | Panic _ => False | Blocked => True end.
Proof.
  intros Hi. unfold cpu_step. destruct (c_run (kcpus s c)) as [p|] eqn:Hrun; [by apply proc_step_ok | by apply sched_step_ok].
Qed.

Lemma kinv_reachable s : rtc kstep ksys_init s -> kinv s.
Proof.
  intros H. remember ksys_init as s0 eqn:E0. assert (H0 : kinv s0) by (subst; apply kinv_init). clear E0. induction H as [|s0 s1 s2 Hs _ IH]; [done|]. apply IH.
  destruct Hs as [c a s s' Es]. pose proof (cpu_step_ok c a s H0) as H. by rewrite Es in H.
Qed.

(** Two CPUs are never both inside [ptable.lock], nor inside another lock. *)
Lemma lock_at_unique lk P c c' : lock_at lk P -> P c -> P c' -> c = c'.
Proof. intros [(_ & _ & H)|(c0 & _ & _ & H)] H1 H2; [by destruct (H c)|]. apply H in H1, H2. congruence. Qed.

(** C7: however the CPUs interleave, no check of acquire, release, popcli or
    sched fails and no zombie runs again; a process is RUNNING exactly when one
    CPU, and only one, runs it, and that CPU's [c->proc] names it; and a thread
    that holds no lock has interrupts as it left them itself, whatever CPU it was
    moved to meanwhile: [intena] is carried along with the kernel thread. *)
Theorem sched_safe s : rtc kstep ksys_init s ->
  (forall c a m, cpu_step c a s <> Panic m) /\
  (forall p, t_state (ths s p) = RUNNING <-> exists c, c_run (kcpus s c) = Some p) /\
  (forall c c' p, c_run (kcpus s c) = Some p -> c_run (kcpus s c') = Some p -> c = c' /\ c_proc (kcpus s c) = Some p) /\
  (forall c p, c_run (kcpus s c) = Some p -> t_pc (ths s p) = Code [] -> eflags_if (hw (kcpus s c)) = t_want (ths s p)).
Proof.
  intros Hr. pose proof (kinv_reachable s Hr) as Hi. split; [|split; [|split]].
  - intros c a m E. pose proof (cpu_step_ok c a s Hi) as H. by rewrite E in H.
  - intros p. split; [apply (v_running s Hi)|]. intros [c Hc]. by apply (v_run s Hi c p).
  - intros c c' p H1 H2. split; [by apply (v_uniq s Hi c c' p) | by apply (v_run s Hi c p)].
  - intros c p Hc Hpc. pose proof (v_want s Hi c p Hc) as Hw. rewrite Hpc in Hw. rewrite <- Hw by done. unfold base.
    destruct (v_cpu s Hi c) as [_ Hn]. rewrite (cur_held s c p Hc), (cur_pl s c p Hc), Hpc in Hn. cbn in Hn. by rewrite Hn.
Qed.

(** The process is in [sleep(ch, l)], from the call to the return of [sched]. *)
Definition sleeping_in (ch l : nat) (pc : ppc) : bool :=
  match pc with S1 ch' l' | S2 ch' l' | S3 ch' l' | S4 ch' l' _ => (ch' =? ch)%nat && (l' =? l)%nat | _ => false end.

(** The waker holds [l] and [ptable.lock], so a process in [sleep(ch, l)] is past its [sched]. *)
Lemma sleeper_parked s c p q l ch : kinv s -> c_run (kcpus s c) = Some p -> l ∈ pheld (t_pc (ths s p)) -> ppl (t_pc (ths s p)) = true -> q <> p -> sleeping_in ch l (t_pc (ths s q)) = true ->
  t_state (ths s q) = RUNNABLE \/ (t_state (ths s q) = SLEEPING /\ t_chan (ths s q) = Some ch).
Proof.
  intros Hi Hrun Hl Hpl Hne Hsl.
  assert (Hnr : t_state (ths s q) <> RUNNING).
  { intros Hst. destruct (v_running s Hi q Hst) as [c' Hc']. pose proof (cur_held s c' q Hc') as Eh. pose proof (cur_pl s c' q Hc') as Ep.
    assert (c' = c) as ->.
    { destruct (t_pc (ths s q)); try done; cbn in Hsl, Eh, Ep; apply andb_prop in Hsl as [_ Hsl%Nat.eqb_eq]; subst.
      1: apply (lock_at_unique _ _ c' c (v_lk s Hi l)); [rewrite Eh; apply list_elem_of_here | by rewrite (cur_held s c p)].
      all: apply (lock_at_unique _ _ c' c (v_pl s Hi)); [done | by rewrite (cur_pl s c p)]. }
    congruence. }
  pose proof (v_off s Hi q) as Ho. destruct (t_state (ths s q)) eqn:Est; try done; auto; try (by destruct (t_pc (ths s q))).
  right. split; [done|]. destruct Ho as (ch' & Ho & ->). destruct (t_pc (ths s q)); try done. cbn in Ho, Hsl. apply andb_prop in Hsl as [E%Nat.eqb_eq _]. congruence.
Qed.

(** C8: no wakeup is lost.  When a process that holds lock [l] wakes up channel
    [ch], every process that has called sleep(ch, l) and not yet come back from
    its sched(), whatever CPU it started on and however far it got, is runnable
    after the wakeup. *)
Theorem wakeup_not_lost s c a p held l ch : rtc kstep ksys_init s -> c_run (kcpus s c) = Some p -> t_pc (ths s p) = L2 (UWake ch) held -> l ∈ held ->
  exists s', cpu_step c a s = Ok s' /\ forall q, sleeping_in ch l (t_pc (ths s q)) = true -> t_state (ths s' q) = RUNNABLE.
Proof.
  intros Hr Hrun Hpc Hl. pose proof (kinv_reachable s Hr) as Hi. unfold cpu_step. rewrite Hrun. unfold proc_step. rewrite Hpc. eexists. split; [done|]. intros q Hsl.
  assert (Hne : q <> p) by (intros ->; by rewrite Hpc in Hsl). cbn. rewrite updn_ne by done.
  destruct (sleeper_parked s c p q l ch Hi Hrun) as [E|[E1 E2]]; rewrite ?Hpc; auto.
  - by rewrite E.
  - by rewrite E1, E2, !bool_decide_eq_true_2.
Qed.
(** A trace of steps, each of one CPU. *)
Fixpoint run (l : list (nat * act)) (s : ksys) : res ksys :=
  match l with
  | [] => Ok s
  | (c, a) :: l => let* s := cpu_step c a s in run l s
  end.

Lemma run_reachable l s s' : run l s = Ok s' -> rtc kstep s s'.
Proof.
  revert s. induction l as [|[c a] l IH]; intros s; cbn [run].
  - intros [= ->]. apply rtc_refl.
  - destruct (cpu_step c a s) as [s1| |] eqn:E; cbn [rbind]; try done. intros H. eapply rtc_l; [by eapply kstep_cpu | by apply IH].
Qed.
End sched.

(** Process 0 forks process 1, which goes to sleep on CPU 1 while CPU 0 gets to
    the middle of its wakeup call. *)
Definition two_cpus : list (nat * act) :=
  let go c := (c, AFlip true) in
  [go 0; go 0; go 0; go 0; (0, AUpdate (UMake 1)); go 0; go 0; go 0; go 1; go 1; go 1; go 1; go 1; (1, ALock 5); (1, ASleep 7 5); go 1; go 1;
   (0, ALock 5); (0, AUpdate (UWake 7)); go 1; go 1; go 1; go 0]%nat.

Definition two_cpus_state : ksys := match run (fun _ => 0) 0 2 two_cpus (ksys_init) with Ok s => s | _ => ksys_init end.

Lemma two_cpus_reachable : rtc (kstep (fun _ => 0) 0 2) ksys_init two_cpus_state.
Proof. apply (run_reachable _ _ _ two_cpus). vm_compute. reflexivity. Qed.

Lemma sched_safe_witness : t_state (ths two_cpus_state 0) = RUNNING /\ t_state (ths two_cpus_state 1) = SLEEPING /\ (exists c, c_run (kcpus two_cpus_state c) = Some 0%nat).
Proof.
  split; [vm_compute; reflexivity|]. split; [vm_compute; reflexivity|]. destruct (sched_safe (fun _ => 0) 0 2 two_cpus_state two_cpus_reachable) as (_ & H & _). apply H. vm_compute. reflexivity.
Defined.

Lemma wakeup_not_lost_witness : exists s', cpu_step (fun _ => 0) 0 2 0 AExit two_cpus_state = Ok s' /\ t_state (ths s' 1) = RUNNABLE.
Proof.
  destruct (wakeup_not_lost (fun _ => 0) 0 2 two_cpus_state 0 AExit 0 [5%nat] 5 7 two_cpus_reachable) as (s' & E & H); [vm_compute; reflexivity | vm_compute; reflexivity | apply list_elem_of_here|].
  exists s'. split; [exact E|]. apply H. vm_compute. reflexivity.
Defined.
