(* ===== verification/Seg.v ===== *)
(** * Segments, gates and the task state (src/mmu.h, src/asm.h, src/x86.h, src/vm.c: seginit, switchkvm, switchuvm; src/trap.c: tvinit, idtinit)

    Descriptors are records with the bit-fields of mmu.h; [segdesc_bits] and
    [gatedesc_bits] lay them out as the compiler does, and the [hw_] functions
    read a descriptor back the way the processor does. *)

From S2P Require Import Prelude Layout Spinlock Proc Trap.

(** ** Bit-fields *)

(** Fields of given widths, the first in the low bits. *)
Fixpoint pack (l : list (Z * Z)) : Z :=
  match l with
  | [] => 0
  | (v, w) :: l' => v mod 2 ^ w + 2 ^ w * pack l'
  end.

Fixpoint width (l : list (Z * Z)) : Z :=
  match l with [] => 0 | (_, w) :: l' => w + width l' end.

Definition bitfield (x lo w : Z) : Z := x / 2 ^ lo mod 2 ^ w.

(** ** mmu.h *)

Definition SEG_KCODE : Z := 1.
Definition SEG_KDATA : Z := 2.
Definition SEG_TSS : Z := 5.
Definition NSEGS : Z := 6.
Definition STA_X : Z := 0x8.
Definition STA_W : Z := 0x2.
Definition STA_R : Z := 0x2.
Definition STS_T32A : Z := 0x9.
Definition STS_IG32 : Z := 0xE.
Definition STS_TG32 : Z := 0xF.

Record segdesc := mk_seg {
  lim_15_0 : Z; base_15_0 : Z; base_23_16 : Z; sd_type : Z; sd_s : Z; sd_dpl : Z; sd_p : Z;
  lim_19_16 : Z; sd_avl : Z; sd_rsv1 : Z; sd_db : Z; sd_g : Z; base_31_24 : Z
}.

Definition segdesc_bits (d : segdesc) : Z :=
  pack [(lim_15_0 d, 16); (base_15_0 d, 16); (base_23_16 d, 8); (sd_type d, 4); (sd_s d, 1); (sd_dpl d, 2); (sd_p d, 1);
        (lim_19_16 d, 4); (sd_avl d, 1); (sd_rsv1 d, 1); (sd_db d, 1); (sd_g d, 1); (base_31_24 d, 8)].

Definition SEG (type base lim dpl : Z) : segdesc :=
  mk_seg (Z.land (Z.shiftr lim 12) 0xffff) (Z.land (u32 base) 0xffff)
    (Z.land (Z.shiftr (u32 base) 16) 0xff) type 1 dpl 1
    (Z.shiftr (u32 lim) 28) 0 0 1 1 (Z.shiftr (u32 base) 24).
Definition SEG16 (type base lim dpl : Z) : segdesc :=
  mk_seg (Z.land lim 0xffff) (Z.land (u32 base) 0xffff)
    (Z.land (Z.shiftr (u32 base) 16) 0xff) type 1 dpl 1
    (Z.shiftr (u32 lim) 16) 0 0 1 0 (Z.shiftr (u32 base) 24).

(** The same descriptor in assembler: two words and four bytes. *)
Definition SEG_ASM (type base lim : Z) : Z :=
  pack [(Z.land (Z.shiftr lim 12) 0xffff, 16); (Z.land base 0xffff, 16);
        (Z.land (Z.shiftr base 16) 0xff, 8); (Z.lor 0x90 type, 8);
        (Z.lor 0xC0 (Z.land (Z.shiftr lim 28) 0xf), 8); (Z.land (Z.shiftr base 24) 0xff, 8)].

Record gatedesc := mk_gate {
  off_15_0 : Z; g_cs : Z; g_args : Z; g_rsv1 : Z; g_type : Z; g_s : Z; g_dpl : Z; g_p : Z; off_31_16 : Z
}.

Definition gatedesc_bits (g : gatedesc) : Z :=
  pack [(off_15_0 g, 16); (g_cs g, 16); (g_args g, 5); (g_rsv1 g, 3); (g_type g, 4); (g_s g, 1); (g_dpl g, 2); (g_p g, 1); (off_31_16 g, 16)].

Definition SETGATE (istrap : bool) (sel off d : Z) : gatedesc :=
  mk_gate (Z.land (u32 off) 0xffff) sel 0 0 (if istrap then STS_TG32 else STS_IG32) 0 d 1 (Z.shiftr (u32 off) 16).

(** The task state, without its padding. *)
Record taskstate := mk_ts {
  ts_link : Z; ts_esp0 : Z; ts_ss0 : Z; ts_esp1 : Z; ts_ss1 : Z; ts_esp2 : Z; ts_ss2 : Z; ts_cr3 : Z; ts_eip : Z; ts_eflags : Z;
  ts_eax : Z; ts_ecx : Z; ts_edx : Z; ts_ebx : Z; ts_esp : Z; ts_ebp : Z; ts_esi : Z; ts_edi : Z;
  ts_es : Z; ts_cs : Z; ts_ss : Z; ts_ds : Z; ts_fs : Z; ts_gs : Z; ts_ldt : Z; ts_t : Z; ts_iomb : Z
}.

(** The three fields the kernel sets. *)
Definition set_ts (ss0 esp0 iomb : Z) (t : taskstate) : taskstate :=
  mk_ts (ts_link t) esp0 ss0 (ts_esp1 t) (ts_ss1 t) (ts_esp2 t) (ts_ss2 t) (ts_cr3 t) (ts_eip t) (ts_eflags t)
    (ts_eax t) (ts_ecx t) (ts_edx t) (ts_ebx t) (ts_esp t) (ts_ebp t) (ts_esi t) (ts_edi t)
    (ts_es t) (ts_cs t) (ts_ss t) (ts_ds t) (ts_fs t) (ts_gs t) (ts_ldt t) (ts_t t) iomb.

(** ** What the processor reads *)

Definition hw_base (x : Z) : Z := bitfield x 16 16 + 2 ^ 16 * bitfield x 32 8 + 2 ^ 24 * bitfield x 56 8.
Definition hw_limit (x : Z) : Z :=
  let l := bitfield x 0 16 + 2 ^ 16 * bitfield x 48 4 in
  if bitfield x 55 1 =? 1 then 2 ^ 12 * l + (2 ^ 12 - 1) else l.
Definition hw_type (x : Z) : Z := bitfield x 40 4.
Definition hw_s (x : Z) : Z := bitfield x 44 1.
Definition hw_dpl (x : Z) : Z := bitfield x 45 2.
Definition hw_p (x : Z) : Z := bitfield x 47 1.
Definition hw_db (x : Z) : Z := bitfield x 54 1.
Definition hw_off (x : Z) : Z := bitfield x 0 16 + 2 ^ 16 * bitfield x 48 16.
Definition hw_sel (x : Z) : Z := bitfield x 16 16.

(** ** The tables of a CPU *)

(** lgdt, lidt: the limit and the address, passed as three words. *)
Definition descreg (p size : Z) : Z * Z :=
  let pd := [u16 (size - 1); u16 p; u16 (Z.shiftr p 16)] in
  (nth 0 pd 0, nth 1 pd 0 + 2 ^ 16 * nth 2 pd 0).

Record cpuhw := mk_hw {
  hw_gdt : list segdesc;      (* cpu->gdt *)
  hw_ts : taskstate;          (* cpu->ts *)
  gdtr : Z * Z;               (* limit, base *)
  idtr : Z * Z;
  tr : Z;
  cr3 : Z
}.

Definition set_gdt (h : cpuhw) (g : list segdesc) : cpuhw := mk_hw g (hw_ts h) (gdtr h) (idtr h) (tr h) (cr3 h).

(** [gdt] is the address of [c->gdt]. *)
Definition seginit (gdt : Z) (h : cpuhw) : cpuhw :=
  let g := hw_gdt h in
  let g := <[Z.to_nat SEG_KCODE := SEG (Z.lor STA_X STA_R) 0 0xffffffff 0]> g in
  let g := <[Z.to_nat SEG_KDATA := SEG STA_W 0 0xffffffff 0]> g in
  let g := <[Z.to_nat SEG_UCODE := SEG (Z.lor STA_X STA_R) 0 0xffffffff DPL_USER]> g in
  let g := <[Z.to_nat SEG_UDATA := SEG STA_W 0 0xffffffff DPL_USER]> g in
  mk_hw g (hw_ts h) (descreg gdt (8 * NSEGS)) (idtr h) (tr h) (cr3 h).

Definition switchkvm (kpgdir : Z) (h : cpuhw) : cpuhw :=
  mk_hw (hw_gdt h) (hw_ts h) (gdtr h) (idtr h) (tr h) (V2P kpgdir).

Definition with_s (d : segdesc) (s : Z) : segdesc :=
  mk_seg (lim_15_0 d) (base_15_0 d) (base_23_16 d) (sd_type d) s (sd_dpl d) (sd_p d)
    (lim_19_16 d) (sd_avl d) (sd_rsv1 d) (sd_db d) (sd_g d) (base_31_24 d).

(** sizeof(struct taskstate) *)
Definition TSSIZE : Z := 104.

(** [ts] is the address of [mycpu()->ts]; the interrupts are off throughout. *)
Definition switchuvm (ts : Z) (p : proc) (h : cpuhw) : res cpuhw :=
  let* _ := Proc.switchuvm p in
  let g := <[Z.to_nat SEG_TSS := SEG16 STS_T32A ts (TSSIZE - 1) 0]> (hw_gdt h) in
  let g := alter (fun d => with_s d 0) (Z.to_nat SEG_TSS) g in
  let t := set_ts (Z.shiftl SEG_KDATA 3) (u32 (p_kstack p + KSTACKSIZE)) 0xFFFF (hw_ts h) in
  Ok (mk_hw g t (gdtr h) (idtr h) (Z.shiftl SEG_TSS 3) (V2P (p_pgdir p))).

(** [for(i = 0; i < 256; i++) SETGATE(idt[i], ...)], then the system-call gate. *)
Fixpoint tvinit_loop (vectors : Z -> Z) (n i : nat) (idt : list gatedesc) : list gatedesc :=
  match n with
  | O => idt
  | S n' => tvinit_loop vectors n' (S i) (<[i := SETGATE false (Z.shiftl SEG_KCODE 3) (vectors (Z.of_nat i)) 0]> idt)
  end.
Definition tvinit (vectors : Z -> Z) (idt : list gatedesc) : list gatedesc :=
  <[Z.to_nat T_SYSCALL := SETGATE true (Z.shiftl SEG_KCODE 3) (vectors T_SYSCALL) DPL_USER]> (tvinit_loop vectors 256 0 idt).

Definition idtinit (idt : Z) (h : cpuhw) : cpuhw :=
  mk_hw (hw_gdt h) (hw_ts h) (gdtr h) (descreg idt (8 * 256)) (tr h) (cr3 h).

(** ** Reading back what was packed *)

Lemma width_nonneg l : Forall (fun f => 0 <= f.2) l -> 0 <= width l.
Proof. induction 1 as [|[v w] l Hw _ IH]; cbn in *; lia. Qed.

Lemma pack_field l1 v w l2 lo : Forall (fun f => 0 <= f.2) l1 -> 0 <= w -> lo = width l1 -> bitfield (pack (l1 ++ (v, w) :: l2)) lo w = v mod 2 ^ w.
Proof.
  intros Hl Hw ->. unfold bitfield. induction Hl as [|[v' w'] l Hw' Hl IH]; cbn [app pack width] in *.
  - change (2 ^ 0) with 1. rewrite Z.div_1_r, Z.mul_comm, Z.mod_add, Z.mod_mod; lia.
  - cbn in Hw'. pose proof (width_nonneg l Hl). rewrite Z.pow_add_r by lia. rewrite <- Z.div_div by lia.
    rewrite (Z.mul_comm (2 ^ w')), Z.div_add by lia. rewrite (Z.div_small (v' mod _)) by (apply Z.mod_pos_bound; lia). done.
Qed.

Ltac field l1 := apply (pack_field l1); [repeat constructor; cbn; lia | lia | reflexivity].

(** A 32-bit value from its parts. *)
Lemma land_ffff x : Z.land x 0xffff = x mod 2 ^ 16.
Proof. change 0xffff with (Z.ones 16). by rewrite Z.land_ones. Qed.
Lemma land_ff x : Z.land x 0xff = x mod 2 ^ 8.
Proof. change 0xff with (Z.ones 8). by rewrite Z.land_ones. Qed.
Lemma land_f x : Z.land x 0xf = x mod 2 ^ 4.
Proof. change 0xf with (Z.ones 4). by rewrite Z.land_ones. Qed.

Ltac shifts := rewrite ?land_ffff, ?land_ff, ?land_f, ?Z.shiftr_div_pow2 by lia;
  change (2 ^ 4) with 16 in *; change (2 ^ 8) with 256 in *; change (2 ^ 12) with 4096 in *; change (2 ^ 16) with 65536 in *; change (2 ^ 24) with 16777216 in *; change (2 ^ 28) with 268435456 in *; change (2 ^ 32) with 4294967296 in *.

(** What the processor sees of a descriptor record. *)
Lemma seg_fields d : let x := segdesc_bits d in
  bitfield x 0 16 = lim_15_0 d mod 2 ^ 16 /\ bitfield x 16 16 = base_15_0 d mod 2 ^ 16 /\ bitfield x 32 8 = base_23_16 d mod 2 ^ 8 /\
  bitfield x 40 4 = sd_type d mod 2 ^ 4 /\ bitfield x 44 1 = sd_s d mod 2 ^ 1 /\ bitfield x 45 2 = sd_dpl d mod 2 ^ 2 /\ bitfield x 47 1 = sd_p d mod 2 ^ 1 /\
  bitfield x 48 4 = lim_19_16 d mod 2 ^ 4 /\ bitfield x 54 1 = sd_db d mod 2 ^ 1 /\ bitfield x 55 1 = sd_g d mod 2 ^ 1 /\ bitfield x 56 8 = base_31_24 d mod 2 ^ 8.
Proof.
  destruct d as [a b c e f g h i j k l m n]; cbn [lim_15_0 base_15_0 base_23_16 sd_type sd_s sd_dpl sd_p lim_19_16 sd_avl sd_rsv1 sd_db sd_g base_31_24]; unfold segdesc_bits. cbn zeta.
  cbn [lim_15_0 base_15_0 base_23_16 sd_type sd_s sd_dpl sd_p lim_19_16 sd_avl sd_rsv1 sd_db sd_g base_31_24].
  split_and!.
  - field (@nil (Z * Z)).
  - field [(a, 16)].
  - field [(a, 16); (b, 16)].
  - field [(a, 16); (b, 16); (c, 8)].
  - field [(a, 16); (b, 16); (c, 8); (e, 4)].
  - field [(a, 16); (b, 16); (c, 8); (e, 4); (f, 1)].
  - field [(a, 16); (b, 16); (c, 8); (e, 4); (f, 1); (g, 2)].
  - field [(a, 16); (b, 16); (c, 8); (e, 4); (f, 1); (g, 2); (h, 1)].
  - field [(a, 16); (b, 16); (c, 8); (e, 4); (f, 1); (g, 2); (h, 1); (i, 4); (j, 1); (k, 1)].
  - field [(a, 16); (b, 16); (c, 8); (e, 4); (f, 1); (g, 2); (h, 1); (i, 4); (j, 1); (k, 1); (l, 1)].
  - field [(a, 16); (b, 16); (c, 8); (e, 4); (f, 1); (g, 2); (h, 1); (i, 4); (j, 1); (k, 1); (l, 1); (m, 1)].
Qed.

Lemma gate_fields g : let x := gatedesc_bits g in
  bitfield x 0 16 = off_15_0 g mod 2 ^ 16 /\ bitfield x 16 16 = g_cs g mod 2 ^ 16 /\ bitfield x 40 4 = g_type g mod 2 ^ 4 /\
  bitfield x 44 1 = g_s g mod 2 ^ 1 /\ bitfield x 45 2 = g_dpl g mod 2 ^ 2 /\ bitfield x 47 1 = g_p g mod 2 ^ 1 /\ bitfield x 48 16 = off_31_16 g mod 2 ^ 16.
Proof.
  destruct g as [a b c e f g h i j]; unfold gatedesc_bits; cbn zeta; cbn [off_15_0 g_cs g_args g_rsv1 g_type g_s g_dpl g_p off_31_16].
  split_and!.
  - field (@nil (Z * Z)).
  - field [(a, 16)].
  - field [(a, 16); (b, 16); (c, 5); (e, 3)].
  - field [(a, 16); (b, 16); (c, 5); (e, 3); (f, 4)].
  - field [(a, 16); (b, 16); (c, 5); (e, 3); (f, 4); (g, 1)].
  - field [(a, 16); (b, 16); (c, 5); (e, 3); (f, 4); (g, 1); (h, 2)].
  - field [(a, 16); (b, 16); (c, 5); (e, 3); (f, 4); (g, 1); (h, 2); (i, 1)].
Qed.

(** SEG describes the segment it is given, in units of pages. *)
Lemma SEG_decodes type base lim dpl : 0 <= type < 16 -> 0 <= base < 2 ^ 32 -> 0 <= lim < 2 ^ 32 -> lim mod 2 ^ 12 = 2 ^ 12 - 1 -> 0 <= dpl < 4 ->
  let x := segdesc_bits (SEG type base lim dpl) in
  hw_base x = base /\ hw_limit x = lim /\ hw_type x = type /\ hw_s x = 1 /\ hw_dpl x = dpl /\ hw_p x = 1 /\ hw_db x = 1.
Proof.
  intros Ht Hb Hl Hlm Hd x. destruct (seg_fields (SEG type base lim dpl)) as (E1 & E2 & E3 & E4 & E5 & E6 & E7 & E8 & E9 & E10 & E11). fold x in E1, E2, E3, E4, E5, E6, E7, E8, E9, E10, E11. clearbody x.
  unfold hw_base, hw_limit, hw_type, hw_s, hw_dpl, hw_p, hw_db. rewrite E1, E2, E3, E4, E5, E6, E7, E8, E9, E10, E11. cbn [SEG lim_15_0 base_15_0 base_23_16 sd_type sd_s sd_dpl sd_p lim_19_16 sd_avl sd_rsv1 sd_db sd_g base_31_24].
  rewrite !u32_small by done. change (1 mod 2 ^ 1 =? 1) with true. cbn iota. shifts. split_and!; try reflexivity; try (rewrite Z.mod_small; lia).
  - clear - Hb. zdiv.
  - clear - Hl Hlm. zdiv.
Qed.

(** SEG16 counts in bytes, up to one megabyte. *)
Lemma SEG16_decodes type base lim dpl : 0 <= type < 16 -> 0 <= base < 2 ^ 32 -> 0 <= lim < 2 ^ 20 -> 0 <= dpl < 4 ->
  let x := segdesc_bits (with_s (SEG16 type base lim dpl) 0) in
  hw_base x = base /\ hw_limit x = lim /\ hw_type x = type /\ hw_s x = 0 /\ hw_dpl x = dpl /\ hw_p x = 1.
Proof.
  intros Ht Hb Hl Hd x. destruct (seg_fields (with_s (SEG16 type base lim dpl) 0)) as (E1 & E2 & E3 & E4 & E5 & E6 & E7 & E8 & E9 & E10 & E11). fold x in E1, E2, E3, E4, E5, E6, E7, E8, E9, E10, E11. clearbody x.
  unfold hw_base, hw_limit, hw_type, hw_s, hw_dpl, hw_p. rewrite E1, E2, E3, E4, E5, E6, E7, E8, E10, E11. cbn [with_s SEG16 lim_15_0 base_15_0 base_23_16 sd_type sd_s sd_dpl sd_p lim_19_16 sd_avl sd_rsv1 sd_db sd_g base_31_24].
  rewrite !u32_small by lia. change (0 mod 2 ^ 1 =? 1) with false. cbn iota. shifts. change (2 ^ 20) with 1048576 in *. split_and!; try reflexivity; try (rewrite Z.mod_small; lia).
  - clear - Hb. zdiv.
  - clear - Hl. zdiv.
Qed.

Lemma SETGATE_decodes istrap sel off d : 0 <= sel < 2 ^ 16 -> 0 <= off < 2 ^ 32 -> 0 <= d < 4 ->
  let x := gatedesc_bits (SETGATE istrap sel off d) in
  hw_off x = off /\ hw_sel x = sel /\ hw_type x = (if istrap then STS_TG32 else STS_IG32) /\ hw_s x = 0 /\ hw_dpl x = d /\ hw_p x = 1.
Proof.
  intros Hs Ho Hd x. destruct (gate_fields (SETGATE istrap sel off d)) as (E1 & E2 & E3 & E4 & E5 & E6 & E7). fold x in E1, E2, E3, E4, E5, E6, E7. clearbody x.
  unfold hw_off, hw_sel, hw_type, hw_s, hw_dpl, hw_p. rewrite E1, E2, E3, E4, E5, E6, E7. cbn [SETGATE off_15_0 g_cs g_args g_rsv1 g_type g_s g_dpl g_p off_31_16].
  rewrite !u32_small by done. shifts. split_and!; try reflexivity; try (rewrite Z.mod_small; lia).
  - clear - Ho. zdiv.
  - by destruct istrap.
Qed.

(** The assembler's macro makes the same descriptor, for the kernel. *)
Lemma SEG_ASM_SEG type base lim : 0 <= type < 16 -> 0 <= base < 2 ^ 32 -> 0 <= lim < 2 ^ 32 -> SEG_ASM type base lim = segdesc_bits (SEG type base lim 0).
Proof.
  intros Ht Hb Hl. unfold SEG_ASM, segdesc_bits, SEG. cbn [lim_15_0 base_15_0 base_23_16 sd_type sd_s sd_dpl sd_p lim_19_16 sd_avl sd_rsv1 sd_db sd_g base_31_24 pack].
  rewrite !u32_small by done.
  assert (E1 : Z.lor 0x90 type = 0x90 + type). { assert (H : forall n, (n < 16)%nat -> Z.lor 0x90 (Z.of_nat n) = 0x90 + Z.of_nat n) by (intros n Hn; do 16 (destruct n as [|n]; [reflexivity|]); lia). rewrite <- (Z2Nat.id type) by lia. apply H. lia. }
  assert (E2 : Z.lor 0xC0 (Z.land (Z.shiftr lim 28) 0xf) = 0xC0 + Z.shiftr lim 28).
  { rewrite land_f, Z.shiftr_div_pow2 by lia. assert (0 <= lim / 2 ^ 28 < 16) by (split; [apply Z.div_pos; lia | apply Z.div_lt_upper_bound; lia]). rewrite Z.mod_small by lia.
    assert (H' : forall n, (n < 16)%nat -> Z.lor 0xC0 (Z.of_nat n) = 0xC0 + Z.of_nat n) by (intros n Hn; do 16 (destruct n as [|n]; [reflexivity|]); lia). rewrite <- (Z2Nat.id (lim / 2 ^ 28)) by lia. apply H'. lia. }
  rewrite E1, E2. shifts. change (2 ^ 1) with 2. change (2 ^ 2) with 4. 
  assert (0 <= lim / 268435456 < 16) by (split; [apply Z.div_pos; lia | apply Z.div_lt_upper_bound; lia]).
  assert (0 <= base / 16777216 < 256) by (split; [apply Z.div_pos; lia | apply Z.div_lt_upper_bound; lia]).
  rewrite (Z.mod_small (lim / 268435456) 16), (Z.mod_small (base / 16777216) 256), (Z.mod_small (144 + type)), (Z.mod_small (192 + _)), (Z.mod_small type) by lia. repeat rewrite (Z.mod_small (base / 16777216) 256) by lia.
  change (1 mod 2) with 1. change (0 mod 2) with 0. change (0 mod 4) with 0. lia.
Qed.

(** ** The interrupt table *)

Lemma tvinit_loop_lookup vectors n i idt k : (i + n <= length idt)%nat ->
  tvinit_loop vectors n i idt !! k = if decide (i <= k < i + n)%nat then Some (SETGATE false (Z.shiftl SEG_KCODE 3) (vectors (Z.of_nat k)) 0) else idt !! k.
Proof.
  revert i idt. induction n as [|n IH]; intros i idt Hl; cbn [tvinit_loop]; [rewrite decide_False by lia; done|].
  rewrite IH by (rewrite length_insert; lia). destruct (decide (k = i)) as [->|Hne].
  - rewrite decide_False, decide_True by lia. apply list_lookup_insert_eq. lia.
  - rewrite list_lookup_insert_ne by done. destruct (decide (S i <= k < S i + n)%nat), (decide (i <= k < i + S n)%nat); try done; lia.
Qed.

Lemma tvinit_loop_length vectors n i idt : length (tvinit_loop vectors n i idt) = length idt.
Proof. revert i idt. induction n as [|n IH]; intros i idt; cbn [tvinit_loop]; [done|]. by rewrite IH, length_insert. Qed.

Lemma tvinit_lookup vectors idt n : length idt = 256%nat -> 0 <= n < 256 ->
  tvinit vectors idt !! Z.to_nat n = Some (SETGATE (n =? T_SYSCALL) (Z.shiftl SEG_KCODE 3) (vectors n) (if n =? T_SYSCALL then DPL_USER else 0)).
Proof.
  intros Hl Hn. unfold tvinit. destruct (Z.eqb_spec n T_SYSCALL) as [->|Hne].
  - apply list_lookup_insert_eq. rewrite tvinit_loop_length, Hl. unfold T_SYSCALL. lia.
  - rewrite list_lookup_insert_ne by (unfold T_SYSCALL in *; lia). rewrite tvinit_loop_lookup, decide_True, Z2Nat.id by lia. done.
Qed.

(** ** Protection *)

Definition flat (x type dpl : Z) : Prop :=
  hw_base x = 0 /\ hw_limit x = 2 ^ 32 - 1 /\ hw_type x = type /\ hw_s x = 1 /\ hw_dpl x = dpl /\ hw_p x = 1 /\ hw_db x = 1.

(** The descriptor a selector names. *)
Definition seg_at (h : cpuhw) (sel : Z) : Z := segdesc_bits (nth (Z.to_nat (sel / 8)) (hw_gdt h) (mk_seg 0 0 0 0 0 0 0 0 0 0 0 0 0)).

(** Whether code at privilege level 3 may execute [int $n]. *)
Definition user_may_call (idt : list gatedesc) (n : Z) : bool :=
  match idt !! Z.to_nat n with Some g => 3 <=? hw_dpl (gatedesc_bits g) | None => false end.

Lemma flat_SEG type dpl : 0 <= type < 16 -> 0 <= dpl < 4 -> flat (segdesc_bits (SEG type 0 0xffffffff dpl)) type dpl.
Proof. intros Ht Hd. apply SEG_decodes; auto; try lia. Qed.

(** The tables as the processor reads them once seginit, tvinit and switchuvm have run. *)
Lemma switched ts p gdt h h' : length (hw_gdt h) = 6%nat -> switchuvm ts p (seginit gdt h) = Ok h' ->
  exists g0, hw_gdt h' = [g0; SEG 10 0 0xffffffff 0; SEG 2 0 0xffffffff 0; SEG 10 0 0xffffffff 3; SEG 2 0 0xffffffff 3; with_s (SEG16 STS_T32A ts 103 0) 0] /\
  hw_ts h' = set_ts 16 (u32 (p_kstack p + KSTACKSIZE)) 0xFFFF (hw_ts h) /\ tr h' = 40 /\ cr3 h' = V2P (p_pgdir p) /\ p_kstack p <> 0 /\ p_pgdir p <> 0.
Proof.
  intros Hl. unfold switchuvm, Proc.switchuvm. destruct (Z.eqb_spec (p_kstack p) 0), (Z.eqb_spec (p_pgdir p) 0); cbn [rbind]; try done. intros [= <-].
  destruct (hw_gdt h) as [|g0 [|g1 [|g2 [|g3 [|g4 [|g5 [|]]]]]]] eqn:Eg; try done. exists g0. split_and!; auto.
Qed.

(** C22: with the tables the kernel sets up, the four code and data segments are
    flat, the kernel's at privilege 0 and the user's at 3; every interrupt enters
    the kernel's code segment at its own vector, with interrupts off except for
    the system call; that is the only gate a user program may call; the
    processor switches to the top of the running process's kernel stack, and
    the I/O map lies beyond the task segment, so that user code may use no port. *)
Theorem protection vectors idt0 gdt ts p h h' : length idt0 = 256%nat -> length (hw_gdt h) = 6%nat -> 0 <= ts < 2 ^ 32 -> 0 <= p_kstack p < 2 ^ 32 - KSTACKSIZE ->
  (forall n, 0 <= n < 256 -> 0 <= vectors n < 2 ^ 32) -> switchuvm ts p (seginit gdt h) = Ok h' ->
  let idt := tvinit vectors idt0 in
  (flat (seg_at h' (Z.shiftl SEG_KCODE 3)) (Z.lor STA_X STA_R) 0 /\ flat (seg_at h' (Z.shiftl SEG_KDATA 3)) STA_W 0 /\
   flat (seg_at h' (Z.lor (Z.shiftl SEG_UCODE 3) DPL_USER)) (Z.lor STA_X STA_R) 3 /\ flat (seg_at h' (Z.lor (Z.shiftl SEG_UDATA 3) DPL_USER)) STA_W 3) /\
  (forall n, 0 <= n < 256 -> exists g, idt !! Z.to_nat n = Some g /\ let x := gatedesc_bits g in
    hw_p x = 1 /\ hw_s x = 0 /\ hw_off x = vectors n /\ hw_sel x = Z.shiftl SEG_KCODE 3 /\ hw_type x = (if n =? T_SYSCALL then STS_TG32 else STS_IG32)) /\
  (forall n, 0 <= n < 256 -> user_may_call idt n = true <-> n = T_SYSCALL) /\
  (let t := seg_at h' (tr h') in hw_base t = ts /\ hw_type t = STS_T32A /\ hw_s t = 0 /\ hw_p t = 1 /\ hw_limit t = TSSIZE - 1 /\ hw_limit t < ts_iomb (hw_ts h') /\
   ts_esp0 (hw_ts h') = p_kstack p + KSTACKSIZE /\ ts_ss0 (hw_ts h') = Z.shiftl SEG_KDATA 3) /\
  cr3 h' = V2P (p_pgdir p).
Proof.
  intros Hi Hg Hts Hk Hv Hsw idt. destruct (switched ts p gdt h h' Hg Hsw) as (g0 & Eg & Et & Etr & Ecr & _). unfold seg_at. rewrite Eg, Et, Etr.
  assert (Hgate : forall n, 0 <= n < 256 -> exists g, idt !! Z.to_nat n = Some g /\ let x := gatedesc_bits g in
    hw_p x = 1 /\ hw_s x = 0 /\ hw_off x = vectors n /\ hw_sel x = 8 /\ hw_type x = (if n =? T_SYSCALL then STS_TG32 else STS_IG32) /\ hw_dpl x = if n =? T_SYSCALL then 3 else 0).
  { intros n Hn. eexists. split; [by apply tvinit_lookup|]. destruct (SETGATE_decodes (n =? T_SYSCALL) 8 (vectors n) (if n =? T_SYSCALL then 3 else 0)) as (H1 & H2 & H3 & H4 & H5 & H6); [lia | by apply Hv | destruct (n =? T_SYSCALL); lia|]. 
    cbn zeta. auto 10. }
  split; [|split; [|split; [|split]]].
  - split_and!; apply flat_SEG; vm_compute; intuition congruence.
  - intros n Hn. destruct (Hgate n Hn) as (g & E & H1 & H2 & H3 & H4 & H5 & _). exists g. auto 10.
  - intros n Hn. destruct (Hgate n Hn) as (g & E & _ & _ & _ & _ & _ & H6). unfold user_may_call. rewrite E, H6. destruct (Z.eqb_spec n T_SYSCALL); split; try done; lia.
  - destruct (SEG16_decodes STS_T32A ts 103 0) as (H1 & H2 & H3 & H4 & H5 & H6); [unfold STS_T32A; lia.. |]. cbn zeta.
    change (nth (Z.to_nat (40 / 8)) _ _) with (with_s (SEG16 STS_T32A ts 103 0) 0). cbn [set_ts ts_iomb ts_esp0 ts_ss0]. rewrite H1, H2, H3, H4, H6. unfold KSTACKSIZE in *. rewrite u32_small by lia. by split_and!.
  - done.
Qed.

Definition ex_hw : cpuhw := mk_hw (repeat (SEG16 0 0 0 0) 6) (mk_ts 0 0 0 0 0 0 0 0 0 0 0 0 0 0 0 0 0 0 0 0 0 0 0 0 0 0 0) (0, 0) (0, 0) 0 0.
Definition ex_proc : proc := with_pgdir (with_kstack no_proc 0x80400000) 0x80401000.
Definition ex_hw' : cpuhw := match switchuvm 0x80100000 ex_proc (seginit 0x80100100 ex_hw) with Ok h => h | _ => ex_hw end.

Lemma protection_witness : ts_esp0 (hw_ts ex_hw') = 0x80401000 /\ user_may_call (tvinit (fun n => 0x80105000 + 10 * n) (repeat (SETGATE false 0 0 0) 256)) 13 = false.
Proof.
  destruct (protection (fun n => 0x80105000 + 10 * n) (repeat (SETGATE false 0 0 0) 256) 0x80100100 0x80100000 ex_proc ex_hw ex_hw' eq_refl eq_refl) as (_ & _ & H1 & H2 & _); [lia | vm_compute; intuition congruence | intros; lia | reflexivity|].
  split; [apply H2|]. destruct (user_may_call _ 13) eqn:E; [|done]. apply H1 in E; [done | lia].
Defined.
