(* ===== verification/X86.v ===== *)
(** * The processor, as far as the kernel's assembly needs it

    Registers, segment registers, flags and the memory of the running address
    space (segments are flat, see Seg.v), with the instructions that
    src/swtch.S, src/trapasm.S, src/usys.S, src/initcode.S and the vectors
    generated by src/vectors.pl use.  The code the linker lays out is a
    parameter: [code a] is the instruction at address [a] and the address of the
    next one.  Interrupts and [iret] go through the descriptor tables that the
    kernel builds. *)

From S2P Require Import Prelude Layout Spinlock Proc Trap Seg.

Inductive reg := EAX | ECX | EDX | EBX | ESP | EBP | ESI | EDI.
Inductive sreg := CS | DS | ES | FS | GS | SS.

#[global] Instance reg_eq_dec : EqDecision reg.
Proof. solve_decision. Defined.
#[global] Instance sreg_eq_dec : EqDecision sreg.
Proof. solve_decision. Defined.

Record regs := mk_regs { eax : Z; ecx : Z; edx : Z; ebx : Z; esp : Z; ebp : Z; esi : Z; edi : Z }.
Record segs := mk_segs { s_cs : Z; s_ds : Z; s_es : Z; s_fs : Z; s_gs : Z; s_ss : Z }.

Record mstate := mk_x { R_ : regs; S_ : segs; eip : Z; eflags : Z; M : mem }.

Inductive instr :=
| Mov_rr (src dst : reg)               (* movl %src, %dst *)
| Mov_load (off : Z) (base dst : reg)  (* movl off(%base), %dst *)
| Mov_store (src base : reg)           (* movl %src, (%base) *)
| Mov_imm (v : Z) (dst : reg)          (* movl $v, %dst *)
| Mov_ax (v : Z)                       (* movw $v, %ax *)
| Mov_seg (s : sreg)                   (* movw %ax, %s *)
| Push (r : reg) | Push_imm (v : Z) | Push_seg (s : sreg) | Pushal
| Pop (r : reg) | Pop_seg (s : sreg) | Popal
| Add_imm (v : Z) (r : reg)
| Call (a : Z) | Ret | Jmp (a : Z)
| Int (n : Z) | Iret.

Definition getr (f : regs) (r : reg) : Z :=
  match r with EAX => eax f | ECX => ecx f | EDX => edx f | EBX => ebx f | ESP => esp f | EBP => ebp f | ESI => esi f | EDI => edi f end.
Definition setr (f : regs) (r : reg) (v : Z) : regs :=
  let '(mk_regs a c d b sp bp si di) := f in
  match r with
  | EAX => mk_regs v c d b sp bp si di | ECX => mk_regs a v d b sp bp si di | EDX => mk_regs a c v b sp bp si di | EBX => mk_regs a c d v sp bp si di
  | ESP => mk_regs a c d b v bp si di | EBP => mk_regs a c d b sp v si di | ESI => mk_regs a c d b sp bp v di | EDI => mk_regs a c d b sp bp si v
  end.
Definition gets (f : segs) (r : sreg) : Z :=
  match r with CS => s_cs f | DS => s_ds f | ES => s_es f | FS => s_fs f | GS => s_gs f | SS => s_ss f end.
Definition sets (f : segs) (r : sreg) (v : Z) : segs :=
  let '(mk_segs c d e f g s) := f in
  match r with
  | CS => mk_segs v d e f g s | DS => mk_segs c v e f g s | ES => mk_segs c d v f g s
  | FS => mk_segs c d e v g s | GS => mk_segs c d e f v s | SS => mk_segs c d e f g v
  end.

Definition R (s : mstate) : reg -> Z := getr (R_ s).
Definition seg (s : mstate) : sreg -> Z := gets (S_ s).

Definition push (v : Z) (s : mstate) : mstate :=
  let sp := u32 (R s ESP - 4) in mk_x (setr (R_ s) ESP sp) (S_ s) (eip s) (eflags s) (st32 (M s) sp v).
Definition top (s : mstate) : Z := ld32 (M s) (R s ESP).
Definition drop4 (s : mstate) : mstate := mk_x (setr (R_ s) ESP (u32 (R s ESP + 4))) (S_ s) (eip s) (eflags s) (M s).
Definition set_reg (r : reg) (v : Z) (s : mstate) : mstate := mk_x (setr (R_ s) r v) (S_ s) (eip s) (eflags s) (M s).
Definition set_sreg (r : sreg) (v : Z) (s : mstate) : mstate := mk_x (R_ s) (sets (S_ s) r v) (eip s) (eflags s) (M s).
Definition set_eip (a : Z) (s : mstate) : mstate := mk_x (R_ s) (S_ s) a (eflags s) (M s).
Definition set_flags (v : Z) (s : mstate) : mstate := mk_x (R_ s) (S_ s) (eip s) v (M s).

Definition pop (r : reg) (s : mstate) : mstate := set_reg r (top s) (drop4 s).
Definition pop_seg (r : sreg) (s : mstate) : mstate := set_sreg r (u16 (top s)) (drop4 s).

Definition cpl (s : mstate) : Z := Z.land (seg s CS) 3.

Section machine.
Context (code : Z -> option (instr * Z)) (hw : cpuhw) (idt : list gatedesc).

(** The processor takes an interrupt through the gate [x]: it changes to the
    kernel stack of the task state when the privilege level changes, and saves
    where it was; [err] is the error code some exceptions push. *)
Definition enter (x : Z) (err : option Z) (s : mstate) : mstate :=
  let s1 :=
    if hw_dpl (seg_at hw (hw_sel x)) <? cpl s then
      let s' := set_sreg SS (ts_ss0 (hw_ts hw)) (set_reg ESP (ts_esp0 (hw_ts hw)) s) in
      push (R s ESP) (push (seg s SS) s')
    else s in
  let s2 := push (eip s) (push (seg s CS) (push (eflags s) s1)) in
  let s3 := match err with Some e => push e s2 | None => s2 end in
  let fl := if hw_type x =? STS_IG32 then Z.ldiff (eflags s) FL_IF else eflags s in
  set_flags fl (set_eip (hw_off x) (set_sreg CS (hw_sel x) s3)).

(** A device, or an exception with its error code. *)
Definition interrupt (n : Z) (err : option Z) (s : mstate) : res mstate :=
  match idt !! Z.to_nat n with
  | Some g => Ok (enter (gatedesc_bits g) err s)
  | None => Panic "general protection"
  end.

Definition iret (s : mstate) : mstate :=
  let c := cpl s in
  let s1 := set_eip (top s) (drop4 s) in
  let s2 := pop_seg CS s1 in
  let s3 := set_flags (top s2) (drop4 s2) in
  if c <? cpl s3 then
    let s4 := drop4 s3 in
    set_sreg SS (u16 (top s4)) (set_reg ESP (top s3) s4)
  else s3.

(** One instruction; [next] is the address of the one behind it. *)
Definition exec (i : instr) (next : Z) (s0 : mstate) : res mstate :=
  let s := set_eip next s0 in
  match i with
  | Mov_rr src dst => Ok (set_reg dst (R s src) s)
  | Mov_load off base dst => Ok (set_reg dst (ld32 (M s) (u32 (R s base + off))) s)
  | Mov_store src base => Ok (mk_x (R_ s) (S_ s) (eip s) (eflags s) (st32 (M s) (R s base) (R s src)))
  | Mov_imm v dst => Ok (set_reg dst v s)
  | Mov_ax v => Ok (set_reg EAX (R s EAX / 2 ^ 16 * 2 ^ 16 + u16 v) s)
  | Mov_seg r => Ok (set_sreg r (u16 (R s EAX)) s)
  | Push r => Ok (push (R s r) s)
  | Push_imm v => Ok (push v s)
  | Push_seg r => Ok (push (seg s r) s)
  | Pushal =>
      let sp := R s ESP in
      Ok (push (R s EDI) (push (R s ESI) (push (R s EBP) (push sp (push (R s EBX) (push (R s EDX) (push (R s ECX) (push (R s EAX) s))))))))
  | Pop r => Ok (pop r s)
  | Pop_seg r => Ok (pop_seg r s)
  | Popal => Ok (pop EAX (pop ECX (pop EDX (pop EBX (drop4 (pop EBP (pop ESI (pop EDI s))))))))
  | Add_imm v r => Ok (set_reg r (u32 (R s r + v)) s)
  | Call a => Ok (set_eip a (push next s))
  | Ret => Ok (set_eip (top s) (drop4 s))
  | Jmp a => Ok (set_eip a s)
  | Int n =>
      match idt !! Z.to_nat n with
      | Some g => if hw_dpl (gatedesc_bits g) <? cpl s then Panic "general protection" else Ok (enter (gatedesc_bits g) None s)
      | None => Panic "general protection"
      end
  | Iret => Ok (iret s)
  end.

Definition step (s : mstate) : res mstate :=
  match code (eip s) with Some (i, next) => exec i next s | None => Blocked end.

Fixpoint run (n : nat) (s : mstate) : res mstate :=
  match n with O => Ok s | S n' => let* s := step s in run n' s end.

(** The linker has put the instructions [l] at address [a], up to [b]. *)
Fixpoint placed (a : Z) (l : list instr) (b : Z) : Prop :=
  match l with
  | [] => a = b
  | i :: l' => exists next, code a = Some (i, next) /\ placed next l' b
  end.
End machine.

(** ** The assembly sources *)

Definition swtch_S : list instr :=
  [Mov_load 4 ESP EAX; Mov_load 8 ESP EDX;
   Push EBP; Push EBX; Push ESI; Push EDI;
   Mov_store ESP EAX; Mov_rr EDX ESP;
   Pop EDI; Pop ESI; Pop EBX; Pop EBP;
   Ret].

(** [alltraps] up to the call, with the address of [trap]. *)
Definition alltraps_S (trap : Z) : list instr :=
  [Push_seg DS; Push_seg ES; Push_seg FS; Push_seg GS; Pushal;
   Mov_ax (Z.shiftl SEG_KDATA 3); Mov_seg DS; Mov_seg ES;
   Push ESP; Call trap].
Definition alltraps_ret : list instr := [Add_imm 4 ESP].
Definition trapret_S : list instr :=
  [Popal; Pop_seg GS; Pop_seg FS; Pop_seg ES; Pop_seg DS; Add_imm 8 ESP; Iret].

(** [if(!($i == 8 || ($i >= 10 && $i <= 14) || $i == 17))] *)
Definition has_err (i : Z) : bool := (i =? 8) || ((10 <=? i) && (i <=? 14)) || (i =? 17).
Definition vector_S (alltraps i : Z) : list instr :=
  (if has_err i then [] else [Push_imm 0]) ++ [Push_imm i; Jmp alltraps].

(** [SYSCALL(name)] for the call number [n]. *)
Definition usys_S (n : Z) : list instr := [Mov_imm n EAX; Int T_SYSCALL; Ret].

Definition SYS_exec : Z := 7.
Definition SYS_exit : Z := 2.
Definition initcode_start (argv init : Z) : list instr :=
  [Push_imm argv; Push_imm init; Push_imm 0; Mov_imm SYS_exec EAX; Int T_SYSCALL].
Definition initcode_exit (exit : Z) : list instr := [Mov_imm SYS_exit EAX; Int T_SYSCALL; Jmp exit].

(** ** Running code symbolically *)

Lemma run_S code hw idt n s i next : code (eip s) = Some (i, next) -> run code hw idt (S n) s = (let* s' := exec hw idt i next s in run code hw idt n s').
Proof. intros H. cbn [run]. unfold step. by rewrite H. Qed.

Lemma run_add code hw idt n m s : run code hw idt (n + m) s = (let* s' := run code hw idt n s in run code hw idt m s').
Proof. revert s. induction n as [|n IH]; intros s; cbn [Nat.add run rbind]; [done|]. destruct (step code hw idt s) as [s'| |]; cbn [rbind]; auto. Qed.

Lemma placed_app code a l1 l2 b : placed code a (l1 ++ l2) b -> exists c, placed code a l1 c /\ placed code c l2 b.
Proof.
  revert a. induction l1 as [|i l1 IH]; intros a H; [by exists a|]. destruct H as (nx & Hc & H). destruct (IH nx H) as (c & H1 & H2). exists c. split; [|done]. by exists nx.
Qed.

(** The effect of the next instruction, whose place in the code is [H]. *)
Ltac xcbn := cbv beta iota zeta delta [exec rbind push top drop4 pop pop_seg set_eip set_reg set_sreg set_flags R seg getr gets setr sets R_ S_ eip eflags M eax ecx edx ebx esp ebp esi edi s_cs s_ds s_es s_fs s_gs s_ss].
Ltac xu32 := repeat match goal with |- context [u32 ?x] => lazymatch x with context [u32 _] => fail | _ => rewrite (u32_small x) by lia end end.
Ltac xadd := rewrite <- ?Z.add_assoc; repeat match goal with |- context [Zpos ?x + Zpos ?y] => let z := eval vm_compute in (Zpos x + Zpos y) in change (Zpos x + Zpos y) with z end.
Ltac xstep H := erewrite run_S; [|exact H]; xcbn; xu32.

(** ** The stack *)

(** The words on the stack, from the top. *)
Definition stk (m : mem) (sp : Z) (l : list Z) : Prop := forall i v, l !! i = Some v -> ld32 m (sp + 4 * Z.of_nat i) = v.

Lemma stk_nil m sp : stk m sp [].
Proof. intros i v. by rewrite lookup_nil. Qed.

Lemma stk_push m sp v l : stk m sp l -> 0 <= v < 2 ^ 32 -> stk (st32 m (sp - 4) v) (sp - 4) (v :: l).
Proof.
  intros H Hv [|i] w; cbn [lookup list_lookup].
  - intros [= <-]. replace (sp - 4 + 4 * Z.of_nat 0) with (sp - 4) by lia. by rewrite ld32_st32_same, u32_small.
  - intros E. rewrite ld32_st32_other by lia. replace (sp - 4 + 4 * Z.of_nat (S i)) with (sp + 4 * Z.of_nat i) by lia. by apply H.
Qed.

Lemma stk_st32 m sp l a v : stk m sp l -> a + 4 <= sp \/ sp + 4 * Z.of_nat (length l) <= a -> stk (st32 m a v) sp l.
Proof. intros H Ha i w E. pose proof (lookup_lt_Some _ _ _ E). rewrite ld32_st32_other by lia. by apply H. Qed.

Lemma stk_at m sp l i v a : stk m sp l -> l !! i = Some v -> a = sp + 4 * Z.of_nat i -> ld32 m a = v.
Proof. intros H E ->. by apply H. Qed.

Lemma stk_drop m sp v l : stk m sp (v :: l) -> stk m (sp + 4) l.
Proof. intros H i w E. replace (sp + 4 + 4 * Z.of_nat i) with (sp + 4 * Z.of_nat (S i)) by lia. by apply H. Qed.

(** Memory that differs at most between [lo] and [hi]. *)
Definition same_but (m m' : mem) (lo hi : Z) : Prop := forall a, a < lo \/ hi <= a -> m' a = m a.

Lemma same_but_refl m lo hi : same_but m m lo hi.
Proof. intros a _. done. Qed.

Lemma same_but_st32 m m' lo hi a v : same_but m m' lo hi -> lo <= a -> a + 4 <= hi -> same_but m (st32 m' a v) lo hi.
Proof. intros H H1 H2 x Hx. rewrite st32_other by lia. by apply H. Qed.

Lemma same_but_ld32 m m' lo hi a : same_but m m' lo hi -> a + 4 <= lo \/ hi <= a -> ld32 m' a = ld32 m a.
Proof. intros H Ha. apply ld32_ext. intros x Hx. apply H. lia. Qed.

(** A half word on the stack. *)
Lemma ld16_ld32 m a : byte_mem m -> ld16 m a = u16 (ld32 m a).
Proof.
  intros H. unfold ld16, ld32, u16. pose proof (H a). pose proof (H (a + 1)). change (2 ^ 8) with 256. change (2 ^ 16) with 65536. change (2 ^ 24) with 16777216.
  replace (m a + 256 * m (a + 1) + 65536 * m (a + 2) + 16777216 * m (a + 3)) with (m a + 256 * m (a + 1) + (m (a + 2) + 256 * m (a + 3)) * 65536) by lia.
  rewrite Z.mod_add by lia. rewrite Z.mod_small by lia. done.
Qed.

(** ** Structures in memory *)

Definition load_context (m : mem) (a : Z) : context := mk_context (ld32 m a) (ld32 m (a + 4)) (ld32 m (a + 8)) (ld32 m (a + 12)) (ld32 m (a + 16)).

Definition load_tf (m : mem) (a : Z) : trapframe :=
  mk_tf (ld32 m a) (ld32 m (a + 4)) (ld32 m (a + 8)) (ld32 m (a + 12)) (ld32 m (a + 16)) (ld32 m (a + 20)) (ld32 m (a + 24)) (ld32 m (a + 28))
    (ld16 m (a + 32)) (ld16 m (a + 36)) (ld16 m (a + 40)) (ld16 m (a + 44)) (ld32 m (a + 48)) (ld32 m (a + 52))
    (ld32 m (a + 56)) (ld16 m (a + 60)) (ld32 m (a + 64)) (ld32 m (a + 68)) (ld16 m (a + 72)).

Definition TFSIZE : Z := 76.
Definition CTXSIZE : Z := 20.

(** Registers hold 32-bit values, segment registers 16-bit ones, memory bytes. *)
Definition vals_ok (s : mstate) : Prop := (forall r, 0 <= R s r < 2 ^ 32) /\ (forall r, 0 <= seg s r < 2 ^ 16) /\ byte_mem (M s).
Definition regs_ok (s : mstate) : Prop := vals_ok s /\ 0 <= eip s < 2 ^ 32 /\ 0 <= eflags s < 2 ^ 32.

Lemma getr_setr_ne f r r' v : r <> r' -> getr (setr f r v) r' = getr f r'.
Proof. destruct f. by destruct r, r'. Qed.
Lemma getr_setr_eq f r v : getr (setr f r v) r = v.
Proof. destruct f. by destruct r. Qed.
Lemma gets_sets_ne f r r' v : r <> r' -> gets (sets f r v) r' = gets f r'.
Proof. destruct f. by destruct r, r'. Qed.
Lemma gets_sets_eq f r v : gets (sets f r v) r = v.
Proof. destruct f. by destruct r. Qed.
