(* ===== verification/Entry.v ===== *)
(** * Entering and leaving the kernel (src/trapasm.S, src/vectors.pl, src/usys.S, src/initcode.S)

    From a user program interrupted at any instruction to the call of trap() with
    the trap frame on the kernel stack, and from the return of trap() back to
    the program; on the processor of X86.v and with the tables of Seg.v. *)

From S2P Require Import Prelude Layout Spinlock Proc Trap Seg X86.

(** The user state a trap frame describes. *)
Definition user_of (t : trapframe) (m : mem) : mstate :=
  mk_x (mk_regs (tf_eax t) (tf_ecx t) (tf_edx t) (tf_ebx t) (tf_esp t) (tf_ebp t) (tf_esi t) (tf_edi t))
    (mk_segs (tf_cs t) (tf_ds t) (tf_es t) (tf_fs t) (tf_gs t) (tf_ss t)) (tf_eip t) (tf_eflags t) m.

(** What the kernel's tables promise about interrupts: [ksp] is the top of the kernel stack. *)
Record tables (vectors : Z -> Z) (hw : cpuhw) (idt : list gatedesc) (ksp : Z) : Prop := {
  t_gate n : 0 <= n < 256 -> exists g, idt !! Z.to_nat n = Some g /\ hw_off (gatedesc_bits g) = vectors n /\ hw_sel (gatedesc_bits g) = 8 /\
    hw_type (gatedesc_bits g) = (if n =? T_SYSCALL then STS_TG32 else STS_IG32) /\ hw_dpl (gatedesc_bits g) = (if n =? T_SYSCALL then 3 else 0);
  t_kcode : hw_dpl (seg_at hw 8) = 0;
  t_ts : ts_esp0 (hw_ts hw) = ksp /\ ts_ss0 (hw_ts hw) = 16
}.

(** The kernel sets such tables up. *)
Lemma tables_set_up vectors idt0 gdt ts p h h' : length idt0 = 256%nat -> length (hw_gdt h) = 6%nat -> 0 <= p_kstack p < 2 ^ 32 - KSTACKSIZE ->
  (forall n, 0 <= n < 256 -> 0 <= vectors n < 2 ^ 32) -> switchuvm ts p (seginit gdt h) = Ok h' ->
  tables vectors h' (tvinit vectors idt0) (p_kstack p + KSTACKSIZE).
Proof.
  intros Hi Hg Hk Hv Hsw. destruct (switched ts p gdt h h' Hg Hsw) as (g0 & Eg & Et & Etr & Ecr & _). split.
  - intros n Hn. eexists. split; [by apply tvinit_lookup|]. destruct (SETGATE_decodes (n =? T_SYSCALL) 8 (vectors n) (if n =? T_SYSCALL then 3 else 0)) as (H1 & H2 & H3 & H4 & H5 & H6); [lia | by apply Hv | destruct (n =? T_SYSCALL); lia|].
    by split_and!.
  - unfold seg_at. rewrite Eg. apply (flat_SEG 10 0); lia.
  - rewrite Et. unfold KSTACKSIZE in *. cbn [set_ts ts_esp0 ts_ss0]. rewrite u32_small by lia. done.
Qed.

Section entry.
Context (code : Z -> option (instr * Z)) (hw : cpuhw) (idt : list gatedesc) (vectors : Z -> Z) (ksp : Z) (Htab : tables vectors hw idt ksp).
Context (alltraps trap tret trapret tend : Z).
Context (Hvec : forall n, 0 <= n < 256 -> exists b, placed code (vectors n) (vector_S alltraps n) b).
Context (Hall : placed code alltraps (alltraps_S trap) tret) (Hret : placed code tret alltraps_ret trapret) (Htrapret : placed code trapret trapret_S tend).
Context (Hksp : 128 <= ksp < 2 ^ 32) (Htret : 0 <= tret < 2 ^ 32).

Abbreviation run := (run code hw idt).

(** ** The way back *)

(** [trapret] loads the state its frame describes. *)
Lemma trapret_run s a : vals_ok s -> eip s = trapret -> R s ESP = a -> cpl s = 0 -> 0 <= a < 2 ^ 32 - TFSIZE -> Z.land (tf_cs (load_tf (M s) a)) 3 = 3 ->
  run 7 s = Ok (user_of (load_tf (M s) a) (M s)).
Proof.
  intros (HR & HS & Hm) Epc Esp Hcpl Ha Hcs. unfold TFSIZE in Ha. unfold cpl in Hcpl.
  destruct Htrapret as (a1 & C1 & a2 & C2 & a3 & C3 & a4 & C4 & a5 & C5 & a6 & C6 & a7 & C7 & _).
  destruct s as [[ax cx dx bx sp bp si di] [c d e f g sk] pc fl m]. cbn [R seg getr gets R_ S_ eip eflags M eax ecx edx ebx esp ebp esi edi s_cs] in *. subst pc sp.
  unfold load_tf in *. cbn [tf_cs] in Hcs. rewrite !ld16_ld32 in * by done.
  xstep C1. xstep C2. xstep C3. xstep C4. xstep C5. xstep C6. xadd.
  erewrite run_S; [|exact C7]. unfold exec, iret, cpl. xcbn. xu32. xadd. rewrite Hcpl, Hcs. cbn [Z.ltb Z.compare]. xcbn. xu32. reflexivity.
Qed.

(** ** The way in *)

Lemma ax_16 x : u16 (x / 2 ^ 16 * 2 ^ 16 + u16 (Z.shiftl SEG_KDATA 3)) = 16.
Proof. change (u16 (Z.shiftl SEG_KDATA 3)) with 16. unfold u16. rewrite Z.add_comm, Z.mod_add by lia. done. Qed.

(** [alltraps] completes the frame and calls trap() with its address. *)
Lemma alltraps_run s sp l : vals_ok s -> eip s = alltraps -> R s ESP = sp -> 64 <= sp < 2 ^ 32 -> stk (M s) sp l ->
  exists s', run 10 s = Ok s' /\ eip s' = trap /\ R s' ESP = sp - 56 /\
    stk (M s') (sp - 56) ([tret; sp - 48; R s EDI; R s ESI; R s EBP; sp - 16; R s EBX; R s EDX; R s ECX; R s EAX; seg s GS; seg s FS; seg s ES; seg s DS] ++ l) /\
    same_but (M s) (M s') (sp - 56) sp /\ byte_mem (M s') /\ S_ s' = mk_segs (seg s CS) 16 16 (seg s FS) (seg s GS) (seg s SS) /\ eflags s' = eflags s.
Proof.
  intros (HR & HS & Hm) Epc Esp Hsp Hstk.
  destruct Hall as (a1 & C1 & a2 & C2 & a3 & C3 & a4 & C4 & a5 & C5 & a6 & C6 & a7 & C7 & a8 & C8 & a9 & C9 & a10 & C10 & Eend). cbn in Eend. subst a10.
  pose proof (HR EBP). pose proof (HR EBX). pose proof (HR ESI). pose proof (HR EDI). pose proof (HR EAX). pose proof (HR ECX). pose proof (HR EDX).
  pose proof (HS GS). pose proof (HS FS). pose proof (HS ES). pose proof (HS DS). clear HR HS.
  destruct s as [[ax cx dx bx sp' bp si di] [c d e f g sk] pc fl m]. cbn [R seg getr gets R_ S_ eip eflags M eax ecx edx ebx esp ebp esi edi s_cs s_ds s_es s_fs s_gs s_ss] in *. subst pc sp'.
  eexists. split.
  { xstep C1. xstep C2. xstep C3. xstep C4. xstep C5. xstep C6. xstep C7. rewrite ax_16. xstep C8. rewrite ax_16. xstep C9. xstep C10. reflexivity. }
  xcbn. split; [done|]. split; [lia|]. set (m1 := st32 _ _ _).
  assert (Hst : stk m1 (sp - 56) ([tret; sp - 48; di; si; bp; sp - 16; bx; dx; cx; ax; g; f; e; d] ++ l)).
  { replace (sp - 56) with (sp - 4 - 4 - 4 - 4 - 4 - 4 - 4 - 4 - 4 - 4 - 4 - 4 - 4 - 4) by lia. replace (sp - 48) with (sp - 4 - 4 - 4 - 4 - 4 - 4 - 4 - 4 - 4 - 4 - 4 - 4) by lia.
    replace (sp - 16) with (sp - 4 - 4 - 4 - 4) by lia. unfold m1. cbn [app]. repeat (apply stk_push; [|lia]). done. }
  split; [done|]. split; [unfold m1; repeat (apply same_but_st32; [|lia..]); apply same_but_refl|]. split; [unfold m1; by repeat apply byte_mem_st32 | done].
Qed.

(** The processor and the vector: from user mode to [alltraps]. *)
Lemma vector_run s n e : regs_ok s -> cpl s = 3 -> 0 <= n < 256 -> 0 <= e < 2 ^ 32 -> (has_err n = false -> e = 0) ->
  exists s1 k s', interrupt hw idt n (if has_err n then Some e else None) s = Ok s1 /\ run k s1 = Ok s' /\ eip s' = alltraps /\
    s' = mk_x (setr (R_ s) ESP (ksp - 28)) (sets (sets (S_ s) SS 16) CS 8) alltraps (if n =? T_SYSCALL then eflags s else Z.ldiff (eflags s) FL_IF) (M s') /\
    stk (M s') (ksp - 28) [n; e; eip s; seg s CS; eflags s; R s ESP; seg s SS] /\ same_but (M s) (M s') (ksp - 28) ksp /\ byte_mem (M s').
Proof.
  intros ((HR & HS & Hm) & He & Hf) Hcpl Hn Hee Hz. destruct (t_gate _ _ _ _ Htab n Hn) as (g & Eg & Eoff & Esel & Ety & _).
  destruct (Hvec n Hn) as (b & Hv). pose proof (HR ESP) as Hsp. pose proof (HS CS) as Hcs. pose proof (HS SS) as Hss. clear HR HS.
  destruct s as [[ax cx dx bx sp bp si di] [c d e' f g' sk] pc fl m]. unfold cpl in Hcpl. cbn [R seg getr gets R_ S_ eip eflags M eax ecx edx ebx esp ebp esi edi s_cs s_ds s_es s_fs s_gs s_ss] in *.
  set (m1 := st32 (st32 (st32 (st32 (st32 m (ksp - 4) sk) (ksp - 4 - 4) sp) (ksp - 4 - 4 - 4) fl) (ksp - 4 - 4 - 4 - 4) c) (ksp - 4 - 4 - 4 - 4 - 4) pc).
  assert (Hst : stk m1 (ksp - 4 - 4 - 4 - 4 - 4) [pc; c; fl; sp; sk]) by (unfold m1; repeat (apply stk_push; [|lia]); apply stk_nil).
  assert (Hsb : same_but m m1 (ksp - 28) ksp) by (unfold m1; repeat (apply same_but_st32; [|lia..]); apply same_but_refl). assert (Hb1 : byte_mem m1) by (unfold m1; by repeat apply byte_mem_st32).
  assert (Efl : (if (if n =? T_SYSCALL then STS_TG32 else STS_IG32) =? STS_IG32 then Z.ldiff fl FL_IF else fl) = if n =? T_SYSCALL then fl else Z.ldiff fl FL_IF) by (by destruct (n =? T_SYSCALL)).
  assert (Eent : forall err, interrupt hw idt n err (mk_x (mk_regs ax cx dx bx sp bp si di) (mk_segs c d e' f g' sk) pc fl m) =
    Ok (set_flags (if n =? T_SYSCALL then fl else Z.ldiff fl FL_IF) (set_eip (vectors n) (set_sreg CS 8
      (match err with Some x => push x | None => fun s => s end (mk_x (mk_regs ax cx dx bx (ksp - 4 - 4 - 4 - 4 - 4) bp si di) (mk_segs c d e' f g' 16) pc fl m1)))))).
  { intros err. unfold interrupt, enter, cpl. rewrite Eg, Esel, (t_kcode _ _ _ _ Htab), (proj1 (t_ts _ _ _ _ Htab)), (proj2 (t_ts _ _ _ _ Htab)), Ety, Eoff, <- Efl. xcbn. rewrite Hcpl. cbn [Z.ltb Z.compare]. destruct err; xcbn; xu32; reflexivity. }
  rewrite Eent. unfold vector_S in Hv. destruct (has_err n) eqn:Ehe; cbn [app] in Hv.
  - destruct Hv as (a1 & C1 & a2 & C2 & _). eexists _, 2%nat, _. split; [done|]. split; [xcbn; xu32; xstep C1; xstep C2; reflexivity|]. xcbn. split; [done|]. split; [by repeat (f_equal; try lia)|].
    replace (ksp - 28) with (ksp - 4 - 4 - 4 - 4 - 4 - 4 - 4) in * by lia. split; [repeat (apply stk_push; [|lia]); done|]. split; [repeat (apply same_but_st32; [|lia..]); done | by repeat apply byte_mem_st32].
  - destruct Hv as (a0 & C0 & a1 & C1 & a2 & C2 & _). rewrite (Hz eq_refl). eexists _, 3%nat, _. split; [done|]. split; [xcbn; xstep C0; xstep C1; xstep C2; reflexivity|]. xcbn. split; [done|]. split; [by repeat (f_equal; try lia)|].
    replace (ksp - 28) with (ksp - 4 - 4 - 4 - 4 - 4 - 4 - 4) in * by lia. split; [repeat (apply stk_push; [|lia]); done|]. split; [repeat (apply same_but_st32; [|lia..]); done | by repeat apply byte_mem_st32].
Qed.
(** The frame of a user program stopped in state [s] by interrupt [n]. *)
Definition frame (s : mstate) (n e : Z) : trapframe :=
  mk_tf (R s EDI) (R s ESI) (R s EBP) (ksp - 44) (R s EBX) (R s EDX) (R s ECX) (R s EAX) (seg s GS) (seg s FS) (seg s ES) (seg s DS) n e
    (eip s) (seg s CS) (eflags s) (R s ESP) (seg s SS).

Definition tf_addr : Z := ksp - TFSIZE.

(** What holds when trap() starts. *)
Record at_trap (s s' : mstate) (n e : Z) : Prop := {
  at_eip : eip s' = trap;
  at_cpl : cpl s' = 0;
  at_ret : ld32 (M s') (R s' ESP) = tret;
  at_arg : ld32 (M s') (R s' ESP + 4) = tf_addr;
  at_sp : R s' ESP + 8 = tf_addr;
  at_tf : load_tf (M s') tf_addr = frame s n e;
  at_mem : same_but (M s) (M s') (tf_addr - 8) ksp;
  at_if : eflags s' = if n =? T_SYSCALL then eflags s else Z.ldiff (eflags s) FL_IF
}.

Ltac word i H := eapply (stk_at _ _ _ i); [exact H | reflexivity | lia].
Ltac half i H := eapply (H i); [reflexivity | done | lia].

Lemma load_tf_stk m a di si bp osp bx dx cx ax g f e d n er pc c fl sp sk : byte_mem m ->
  stk m a [di; si; bp; osp; bx; dx; cx; ax; g; f; e; d; n; er; pc; c; fl; sp; sk] -> 0 <= g < 2 ^ 16 -> 0 <= f < 2 ^ 16 -> 0 <= e < 2 ^ 16 -> 0 <= d < 2 ^ 16 -> 0 <= c < 2 ^ 16 -> 0 <= sk < 2 ^ 16 ->
  load_tf m a = mk_tf di si bp osp bx dx cx ax g f e d n er pc c fl sp sk.
Proof.
  intros Hm H Hg Hf He Hd Hc Hs. assert (E16 : forall i v b, [di; si; bp; osp; bx; dx; cx; ax; g; f; e; d; n; er; pc; c; fl; sp; sk] !! i = Some v -> 0 <= v < 2 ^ 16 -> b = a + 4 * Z.of_nat i -> ld16 m b = v).
  { intros i v b E Hv ->. rewrite ld16_ld32 by done. rewrite (H i v E). unfold u16. by apply Z.mod_small. }
  unfold load_tf. f_equal; [word 0%nat H | word 1%nat H | word 2%nat H | word 3%nat H | word 4%nat H | word 5%nat H | word 6%nat H | word 7%nat H | half 8%nat E16 | half 9%nat E16 | half 10%nat E16 | half 11%nat E16 |
    word 12%nat H | word 13%nat H | word 14%nat H | half 15%nat E16 | word 16%nat H | word 17%nat H | half 18%nat E16].
Qed.

Lemma enter_trap s n e : regs_ok s -> cpl s = 3 -> 0 <= n < 256 -> 0 <= e < 2 ^ 32 -> (has_err n = false -> e = 0) ->
  exists s1 k s', interrupt hw idt n (if has_err n then Some e else None) s = Ok s1 /\ run k s1 = Ok s' /\ at_trap s s' n e.
Proof.
  intros Hok Hcpl Hn Hee Hz. destruct (vector_run s n e Hok Hcpl Hn Hee Hz) as (s1 & k & s2 & E1 & E2 & Epc & Es2 & Hst & Hsb & Hb).
  destruct Hok as ((HR & HS & Hm) & He & Hf).
  assert (Hsp2 : R s2 ESP = ksp - 28) by (rewrite Es2; unfold R; cbn [R_]; apply getr_setr_eq).
  assert (HR2 : forall r, r <> ESP -> R s2 r = R s r) by (intros r Hr; rewrite Es2; unfold R; cbn [R_]; by apply getr_setr_ne).
  assert (HS2 : forall r, r <> SS -> r <> CS -> seg s2 r = seg s r) by (intros r H1 H2; rewrite Es2; unfold seg; cbn [S_]; by rewrite !gets_sets_ne).
  assert (Hcs2 : seg s2 CS = 8) by (rewrite Es2; unfold seg; cbn [S_]; apply gets_sets_eq).
  assert (Hss2 : seg s2 SS = 16) by (rewrite Es2; unfold seg; cbn [S_]; rewrite gets_sets_ne by done; apply gets_sets_eq).
  assert (Hfl2 : eflags s2 = if n =? T_SYSCALL then eflags s else Z.ldiff (eflags s) FL_IF) by (by rewrite Es2).
  assert (Hok2 : vals_ok s2).
  { split_and!; [| |done].
    - intros r. destruct r; rewrite ?Hsp2; try lia; by rewrite HR2.
    - intros r. destruct r; rewrite ?Hcs2, ?Hss2; try lia; by rewrite HS2. }
  destruct (alltraps_run s2 (ksp - 28) _ Hok2 Epc Hsp2 ltac:(lia) Hst) as (s3 & E3 & Epc3 & Hsp3 & Hst3 & Hsb3 & Hb3 & HS3 & Hf3).
  exists s1, (k + 10)%nat, s3. split; [done|]. split; [rewrite run_add, E2; exact E3|]. rewrite !HR2, !HS2 in Hst3 by done. cbn [app] in Hst3. unfold tf_addr, TFSIZE.
  split; unfold tf_addr, TFSIZE; rewrite ?Hsp3.
  - done.
  - unfold cpl, seg. rewrite HS3. cbn [gets s_cs]. by rewrite Hcs2.
  - eapply (stk_at _ _ _ 0); [exact Hst3 | reflexivity | lia].
  - rewrite (stk_at _ _ _ 1 _ _ Hst3 eq_refl); lia.
  - lia.
  - unfold frame. replace (ksp - 44) with (ksp - 28 - 16) by lia. apply load_tf_stk; auto. do 2 apply stk_drop in Hst3. by replace (ksp - 28 - 56 + 4 + 4) with (ksp - 76) in Hst3 by lia.
  - intros a Ha. rewrite Hsb3 by lia. apply Hsb. lia.
  - by rewrite Hf3.
Qed.
(** trap() returns to the instruction behind the call, on the stack it was called with. *)
Lemma leave_trap s3 t : vals_ok s3 -> eip s3 = tret -> R s3 ESP + 4 = tf_addr -> cpl s3 = 0 -> load_tf (M s3) tf_addr = t -> Z.land (tf_cs t) 3 = 3 ->
  run 8 s3 = Ok (user_of t (M s3)).
Proof.
  intros (HR & HS & Hm) Epc Hsp Hcpl <- Hcs. destruct Hret as (a1 & C1 & Eend). cbn in Eend. subst a1. unfold tf_addr, TFSIZE in *.
  change 8%nat with (1 + 7)%nat. rewrite run_add. pose proof (HR ESP) as Hesp.
  assert (E : run 1 s3 = Ok (mk_x (setr (R_ s3) ESP (ksp - 76)) (S_ s3) trapret (eflags s3) (M s3))).
  { erewrite run_S by (rewrite Epc; exact C1). destruct s3 as [[ax cx dx bx sp bp si di] sg pc fl m]. cbn [R getr R_ esp] in *. xcbn. rewrite Hsp, u32_small by lia. done. }
  rewrite E. cbn [rbind]. match goal with |- run 7 ?x = _ => set (s4 := x) end. replace (M s3) with (M s4) by done.
  apply trapret_run; try done; [|unfold R, s4; cbn [R_]; apply getr_setr_eq | unfold TFSIZE; lia].
  split; [|split; [exact HS | exact Hm]]. intros r. unfold R, s4. cbn [R_]. destruct (reg_eq_dec ESP r) as [<-|Hne]; [rewrite getr_setr_eq; lia | rewrite getr_setr_ne by done; apply HR].
Qed.

(** C9: a trap is invisible to the program it interrupts, except for what the
    kernel writes into its frame.  Interrupt [n] at any instruction of a user
    program reaches trap() with the address of a frame that holds every
    register, the vector's number and the error code, having written only the
    top of the process's kernel stack; and when trap() returns the program goes
    on with exactly the registers the frame then describes.  With the frame
    untouched these are the registers it was stopped with. *)
Theorem trap_transparent s n e : regs_ok s -> cpl s = 3 -> 0 <= n < 256 -> 0 <= e < 2 ^ 32 -> (has_err n = false -> e = 0) ->
  exists s1 k s2, interrupt hw idt n (if has_err n then Some e else None) s = Ok s1 /\ run k s1 = Ok s2 /\ at_trap s s2 n e /\
    (forall s3 t, vals_ok s3 -> eip s3 = tret -> R s3 ESP = R s2 ESP + 4 -> cpl s3 = 0 -> load_tf (M s3) tf_addr = t -> Z.land (tf_cs t) 3 = 3 ->
      run 8 s3 = Ok (user_of t (M s3))) /\
    (forall m, user_of (frame s n e) m = mk_x (R_ s) (S_ s) (eip s) (eflags s) m).
Proof.
  intros Hok Hcpl Hn Hee Hz. destruct (enter_trap s n e Hok Hcpl Hn Hee Hz) as (s1 & k & s2 & E1 & E2 & Hat). exists s1, k, s2. split; [done|]. split; [done|]. split; [done|]. split.
  - intros s3 t H1 H2 H3. apply leave_trap; auto. rewrite H3, <- (at_sp _ _ _ _ Hat). lia.
  - intros m. by destruct s as [[] [] pc fl mm].
Qed.

(** ** System calls *)

Section syscalls.
Context (stub stub_end num : Z) (Hstub : placed code stub (usys_S num) stub_end).

Lemma int_syscall next s : cpl s = 3 -> exec hw idt (Int T_SYSCALL) next s = interrupt hw idt T_SYSCALL None (set_eip next s).
Proof.
  intros Hc. destruct (t_gate _ _ _ _ Htab T_SYSCALL) as (g & Eg & _ & _ & _ & Hd); [unfold T_SYSCALL; lia|]. unfold exec, interrupt. rewrite Eg, Hd. unfold cpl in *.
  change (seg (set_eip next s) CS) with (seg s CS). rewrite Hc. done.
Qed.

(** C24: a system call from the user's side.  The stub of call number [num]
    reaches trap() with a frame that has the system-call vector, [num] in eax
    and the user's stack pointer, behind whose return address the arguments
    are; and when the kernel has put the result [v] into the frame's eax, the
    stub returns to its caller with [v] in eax, its stack popped by the return
    address alone and every other register as it was. *)
Theorem syscall_stub s : regs_ok s -> cpl s = 3 -> eip s = stub -> 0 <= num < 2 ^ 32 -> R s ESP < 2 ^ 32 - 4 -> (forall a b, code a = Some b -> 0 <= a < 2 ^ 32) ->
  exists k s2 t, run k s = Ok s2 /\ eip s2 = trap /\ ld32 (M s2) (R s2 ESP + 4) = tf_addr /\ load_tf (M s2) tf_addr = t /\
    tf_trapno t = T_SYSCALL /\ tf_eax t = num /\ tf_esp t = R s ESP /\ same_but (M s) (M s2) (tf_addr - 8) ksp /\
    forall s3 v, vals_ok s3 -> eip s3 = tret -> R s3 ESP = R s2 ESP + 4 -> cpl s3 = 0 -> load_tf (M s3) tf_addr = set_eax t v ->
      run 9 s3 = Ok (mk_x (setr (setr (R_ s) EAX v) ESP (R s ESP + 4)) (S_ s) (ld32 (M s3) (R s ESP)) (eflags s) (M s3)).
Proof.
  intros Hok Hcpl Epc Hnum Hsp Hcode. destruct Hstub as (a1 & C1 & a2 & C2 & a3 & C3 & _).
  set (s1 := mk_x (setr (R_ s) EAX num) (S_ s) a2 (eflags s) (M s)).
  assert (Hok1 : regs_ok s1).
  { destruct Hok as ((HR & HS & Hm) & He & Hf). split; [|split; [cbn; by eapply Hcode | done]]. split; [|by split]. intros r. unfold R, s1. cbn [R_].
    destruct (reg_eq_dec EAX r) as [<-|Hne]; [by rewrite getr_setr_eq | rewrite getr_setr_ne by done; apply HR]. }
  destruct (enter_trap s1 T_SYSCALL 0 Hok1 Hcpl) as (s1' & k & s2 & E1 & E2 & Hat); [unfold T_SYSCALL; lia | lia | done|].
  exists (S (S k)), s2, (frame s1 T_SYSCALL 0). split; [|split; [apply Hat|]; split; [apply Hat|]; split; [apply Hat|]; split; [done|]; split; [|split; [|split; [apply Hat|]]]].
  - erewrite run_S by (rewrite Epc; exact C1). cbn [exec rbind]. erewrite run_S by exact C2. rewrite int_syscall by done.
    change (set_eip a2 _) with s1. change (has_err T_SYSCALL) with false in E1. rewrite E1. cbn [rbind]. done.
  - cbn [tf_eax frame]. unfold R, s1. cbn [R_]. apply getr_setr_eq.
  - cbn [tf_esp frame]. unfold R, s1. cbn [R_]. by apply getr_setr_ne.
  - intros s3 v Hok3 Epc3 Hsp3 Hcpl3 Ht. change 9%nat with (8 + 1)%nat. rewrite run_add, (leave_trap s3 (set_eax (frame s1 T_SYSCALL 0) v)); auto; [|rewrite Hsp3, <- (at_sp _ _ _ _ Hat); lia].
    cbn [rbind]. pose proof (proj1 (proj1 Hok) ESP) as Hesp. erewrite run_S by exact C3. subst s1. destruct s as [[ax cx dx bx sp bp si di] [c d e f g sk] pc fl m]. cbn [R getr R_ esp] in *. unfold user_of, frame, set_eax. xcbn.
    cbn [tf_edi tf_esi tf_ebp tf_oesp tf_ebx tf_edx tf_ecx tf_eax tf_gs tf_fs tf_es tf_ds tf_trapno tf_err tf_eip tf_cs tf_eflags tf_esp tf_ss]. xu32. done.
Qed.
End syscalls.

(** The first program: initcode calls exec(init, argv) with its arguments on the user stack. *)
Lemma initcode_execs s argv init fin : placed code (eip s) (initcode_start argv init) fin -> regs_ok s -> cpl s = 3 -> 12 <= R s ESP <= tf_addr - 8 -> 0 <= argv < 2 ^ 32 -> 0 <= init < 2 ^ 32 ->
  (forall a b, code a = Some b -> 0 <= a < 2 ^ 32) -> (exists b, code fin = Some b) ->
  exists k s2 t, run k s = Ok s2 /\ eip s2 = trap /\ load_tf (M s2) tf_addr = t /\ tf_trapno t = T_SYSCALL /\ tf_eax t = SYS_exec /\ tf_esp t = R s ESP - 12 /\
    stk (M s2) (tf_esp t) [0; init; argv].
Proof.
  intros Hp Hok Hcpl Hsp Ha Hi Hcode [bf Hfin]. destruct Hp as (a1 & C1 & a2 & C2 & a3 & C3 & a4 & C4 & a5 & C5 & Eend). cbn in Eend. subst a5. unfold tf_addr, TFSIZE in Hsp.
  pose proof Hok as ((HR & HS & Hm) & He & Hf). destruct s as [[ax cx dx bx sp bp si di] sg pc fl m]. cbn [R seg getr R_ S_ esp eip eflags M] in *.
  set (m1 := st32 (st32 (st32 m (sp - 4) argv) (sp - 4 - 4) init) (sp - 4 - 4 - 4) 0). set (s1 := mk_x (mk_regs SYS_exec cx dx bx (sp - 4 - 4 - 4) bp si di) sg fin fl m1).
  assert (Hst : stk m1 (sp - 4 - 4 - 4) [0; init; argv]) by (unfold m1; repeat (apply stk_push; [|lia]); apply stk_nil).
  assert (Hok1 : regs_ok s1).
  { split; [|split; [cbn; by eapply Hcode | done]]. split; [|split; [done | unfold s1, m1; cbn [M]; by repeat apply byte_mem_st32]].
    intros []; try apply (HR ECX); try apply (HR EDX); try apply (HR EBX); try apply (HR EBP); try apply (HR ESI); try apply (HR EDI); unfold R, s1; cbn [R_ getr eax esp]; unfold SYS_exec; lia. }
  destruct (enter_trap s1 T_SYSCALL 0 Hok1 Hcpl) as (s1' & k & s2 & E1 & E2 & Hat); [unfold T_SYSCALL; lia | lia | done|].
  exists (5 + k)%nat, s2, (frame s1 T_SYSCALL 0). split; [|split; [apply Hat|]; split; [apply Hat|]; split; [done|]; split; [done|]; split; [cbn; lia|]].
  - change (5 + k)%nat with (S (S (S (S (S k))))). xstep C1. xstep C2. xstep C3. xstep C4. erewrite run_S by exact C5. rewrite int_syscall by done.
    change (interrupt hw idt T_SYSCALL None (set_eip fin _)) with (interrupt hw idt T_SYSCALL None s1). change (has_err T_SYSCALL) with false in E1. rewrite E1. cbn [rbind]. done.
  - cbn [tf_esp frame]. unfold s1, R. cbn [R_ getr esp]. intros i v E. pose proof (lookup_lt_Some _ _ _ E) as Hl. cbn [length] in Hl.
    rewrite (same_but_ld32 _ _ _ _ _ (at_mem _ _ _ _ Hat)) by (unfold tf_addr, TFSIZE; lia). by apply Hst.
Qed.
End entry.

(** ** The table of calls *)

(** The numbers of syscall.h. *)
Definition sysnum (name : string) : option Z :=
  let t := [("fork", 1); ("exit", 2); ("wait", 3); ("pipe", 4); ("read", 5); ("kill", 6); ("exec", 7); ("fstat", 8); ("chdir", 9); ("dup", 10); ("getpid", 11);
            ("sbrk", 12); ("sleep", 13); ("uptime", 14); ("open", 15); ("write", 16); ("mknod", 17); ("unlink", 18); ("link", 19); ("mkdir", 20); ("close", 21); ("date", 22)] in
  snd <$> List.find (fun p => String.eqb (fst p) name) t.

(** The stubs of usys.S, in its order. *)
Definition usys_names : list string :=
  ["fork"; "exit"; "wait"; "pipe"; "read"; "write"; "close"; "kill"; "exec"; "open"; "mknod"; "unlink"; "fstat"; "link"; "mkdir"; "chdir"; "dup"; "getpid"; "sbrk"; "sleep"; "uptime"; "date"].

(** Every stub has a number of its own, and syscall() has a handler for it. *)
Lemma usys_dispatched kend data forkret sb dr dw now ticks : NoDup (sysnum <$> usys_names) /\
  Forall (fun name => exists n h, sysnum name = Some n /\ 0 < n < 23 /\ syscalls kend data forkret sb dr dw now ticks n = Some h) usys_names.
Proof.
  split; [vm_compute; by repeat (constructor; [set_solver|]); constructor|]. repeat constructor; eexists _, _; (split; [vm_compute; reflexivity|]); (split; [lia | reflexivity]).
Qed.

(** ** A concrete layout *)

Definition at_list (base : Z) (l : list instr) (a : Z) : option (instr * Z) :=
  if base <=? a then i ← l !! Z.to_nat (a - base); Some (i, a + 1) else None.

Lemma at_list_placed base pre l post code : (forall a b, at_list base (pre ++ l ++ post) a = Some b -> code a = Some b) ->
  placed code (base + Z.of_nat (length pre)) l (base + Z.of_nat (length pre) + Z.of_nat (length l)).
Proof.
  revert pre. induction l as [|i l IH]; intros pre H; cbn [placed length]; [lia|]. eexists. split.
  - apply H. unfold at_list. destruct (Z.leb_spec base (base + Z.of_nat (length pre))); [|lia]. replace (Z.to_nat (base + Z.of_nat (length pre) - base)) with (length pre) by lia.
    rewrite lookup_app_r, Nat.sub_diag by lia. reflexivity.
  - specialize (IH (pre ++ [i])). rewrite <- app_assoc in IH. specialize (IH H). rewrite length_app in IH. cbn [length] in IH.
    replace (base + Z.of_nat (length pre) + 1) with (base + Z.of_nat (length pre + 1)) by lia. replace (base + Z.of_nat (length pre) + Z.of_nat (S (length l))) with (base + Z.of_nat (length pre + 1) + Z.of_nat (length l)) by lia. done.
Qed.

Definition ex_vectors (n : Z) : Z := 0x80105000 + 10 * n.
Definition ex_code (a : Z) : option (instr * Z) :=
  if a <? 0x80105000 then at_list 0x1000 (usys_S 11) a
  else if a <? 0x80106000 then at_list (ex_vectors ((a - 0x80105000) / 10)) (vector_S 0x80106000 ((a - 0x80105000) / 10)) a
  else if a <? 0x80108000 then at_list 0x80106000 (alltraps_S 0x80107000 ++ alltraps_ret ++ trapret_S) a
  else at_list 0x80108000 swtch_S a.

Lemma at_list_range base l a b : at_list base l a = Some b -> base <= a < base + Z.of_nat (length l).
Proof.
  unfold at_list. destruct (Z.leb_spec base a); [|done]. destruct (l !! Z.to_nat (a - base)) eqn:E; [|done]. apply lookup_lt_Some in E. lia.
Qed.

Lemma ex_code_range a b : ex_code a = Some b -> 0 <= a < 2 ^ 32.
Proof.
  unfold ex_code. destruct (Z.ltb_spec a 0x80105000); [intros Hr%at_list_range; cbn in Hr; lia|]. destruct (Z.ltb_spec a 0x80106000); [lia|]. destruct (Z.ltb_spec a 0x80108000); [lia|].
  intros Hr%at_list_range. cbn in Hr. lia.
Qed.

Lemma ex_vec n : 0 <= n < 256 -> exists b, placed ex_code (ex_vectors n) (vector_S 0x80106000 n) b.
Proof.
  intros Hn. eexists. pose proof (at_list_placed (ex_vectors n) [] (vector_S 0x80106000 n) [] ex_code) as H. cbn [length Z.of_nat] in H. rewrite Z.add_0_r in H. apply H.
  intros a b Ha. cbn [app] in Ha. rewrite app_nil_r in Ha. pose proof (at_list_range _ _ _ _ Ha) as Hr. assert (Hl : (length (vector_S 0x80106000 n) <= 3)%nat) by (unfold vector_S; destruct (has_err n); cbn; lia).
  unfold ex_vectors in Hr. unfold ex_code. destruct (Z.ltb_spec a 0x80105000); [lia|]. destruct (Z.ltb_spec a 0x80106000); [|lia].
  replace ((a - 0x80105000) / 10) with n; [done|]. apply (Z.div_unique _ _ _ (a - 0x80105000 - 10 * n)); lia.
Qed.

Lemma ex_placed base pre l post a b : base + Z.of_nat (length pre) = a -> a + Z.of_nat (length l) = b -> (forall x y, at_list base (pre ++ l ++ post) x = Some y -> ex_code x = Some y) -> placed ex_code a l b.
Proof. intros <- <- H. by eapply at_list_placed. Qed.

Lemma ex_kernel x y : at_list 0x80106000 (alltraps_S 0x80107000 ++ alltraps_ret ++ trapret_S) x = Some y -> ex_code x = Some y.
Proof.
  intros H. pose proof (at_list_range _ _ _ _ H) as Hr. cbn in Hr. unfold ex_code. destruct (Z.ltb_spec x 0x80105000); [lia|]. destruct (Z.ltb_spec x 0x80106000); [lia|]. destruct (Z.ltb_spec x 0x80108000); [done | lia].
Qed.

Lemma ex_alltraps : placed ex_code 0x80106000 (alltraps_S 0x80107000) 0x8010600A.
Proof. eapply (ex_placed 0x80106000 []); [reflexivity | reflexivity | exact ex_kernel]. Qed.
Lemma ex_ret : placed ex_code 0x8010600A alltraps_ret 0x8010600B.
Proof. eapply (ex_placed 0x80106000 (alltraps_S 0x80107000)); [reflexivity | reflexivity | exact ex_kernel]. Qed.
Lemma ex_trapret : placed ex_code 0x8010600B trapret_S 0x80106012.
Proof. eapply (ex_placed 0x80106000 (alltraps_S 0x80107000 ++ alltraps_ret) _ []); [reflexivity | reflexivity |]. rewrite app_nil_r, <- app_assoc. exact ex_kernel. Qed.
Lemma ex_stub : placed ex_code 0x1000 (usys_S 11) 0x1003.
Proof.
  eapply (ex_placed 0x1000 [] _ []); [reflexivity | reflexivity |]. intros x y H. pose proof (at_list_range _ _ _ _ H) as Hr. cbn in Hr. unfold ex_code. destruct (Z.ltb_spec x 0x80105000); [done | lia].
Qed.
Lemma ex_swtch : placed ex_code 0x80108000 swtch_S 0x8010800D.
Proof.
  eapply (ex_placed 0x80108000 [] _ []); [reflexivity | reflexivity |]. intros x y H. pose proof (at_list_range _ _ _ _ H) as Hr. cbn in Hr. unfold ex_code. destruct (Z.ltb_spec x 0x80105000); [lia|]. destruct (Z.ltb_spec x 0x80106000); [lia|]. destruct (Z.ltb_spec x 0x80108000); [lia | done].
Qed.

Definition ex_idt : list gatedesc := tvinit ex_vectors (repeat (SETGATE false 0 0 0) 256).

Lemma ex_tables : tables ex_vectors ex_hw' ex_idt 0x80401000.
Proof.
  apply (tables_set_up ex_vectors (repeat (SETGATE false 0 0 0) 256) 0x80100100 0x80100000 ex_proc ex_hw ex_hw'); [reflexivity | reflexivity | vm_compute; intuition congruence | unfold ex_vectors; intros; lia | reflexivity].
Qed.

Definition ex_user : mstate := mk_x (mk_regs 1 2 3 4 0x2000 6 7 8) (mk_segs 0x1b 0x23 0x23 0 0 0x23) 0x1000 0x202 (fun _ => 0).

Lemma ex_user_ok : regs_ok ex_user.
Proof. split; [split; [|split]|]; [intros []; vm_compute; intuition congruence | intros []; vm_compute; intuition congruence | intros a; vm_compute; intuition congruence | vm_compute; intuition congruence]. Qed.

Lemma trap_transparent_witness : exists s1 k s2, interrupt ex_hw' ex_idt 14 (Some 6) ex_user = Ok s1 /\ run ex_code ex_hw' ex_idt k s1 = Ok s2 /\
  tf_eax (load_tf (M s2) 0x80400FB4) = 1 /\ tf_err (load_tf (M s2) 0x80400FB4) = 6.
Proof.
  destruct (trap_transparent ex_code ex_hw' ex_idt ex_vectors 0x80401000 ex_tables 0x80106000 0x80107000 0x8010600A 0x8010600B 0x80106012 ex_vec ex_alltraps ex_ret ex_trapret ltac:(lia) ltac:(lia) ex_user 14 6 ex_user_ok) as (s1 & k & s2 & E1 & E2 & H & _); [reflexivity | lia | lia | done|].
  exists s1, k, s2. split; [exact E1|]. split; [exact E2|]. pose proof (at_tf _ _ _ _ _ _ _ H) as Ht. change (tf_addr 0x80401000) with 0x80400FB4 in Ht. rewrite Ht. split; reflexivity.
Defined.

Lemma syscall_stub_witness : exists k s2, run ex_code ex_hw' ex_idt k ex_user = Ok s2 /\ eip s2 = 0x80107000 /\ tf_eax (load_tf (M s2) 0x80400FB4) = 11.
Proof.
  destruct (syscall_stub ex_code ex_hw' ex_idt ex_vectors 0x80401000 ex_tables 0x80106000 0x80107000 0x8010600A 0x8010600B 0x80106012 ex_vec ex_alltraps ex_ret ex_trapret ltac:(lia) ltac:(lia) 0x1000 0x1003 11 ex_stub ex_user ex_user_ok) as (k & s2 & t & E1 & E2 & _ & Et & _ & Ea & _); [reflexivity | reflexivity | lia | vm_compute; intuition congruence | exact ex_code_range|].
  exists k, s2. split; [exact E1|]. split; [exact E2|]. change (tf_addr 0x80401000) with 0x80400FB4 in Et. rewrite Et. exact Ea.
Defined.
