(* ===== verification/Switch.v ===== *)
(** * Context switches (src/swtch.S, and the stacks src/proc.c builds for it)

    [swtch] on the processor of X86.v: what it saves, what it loads, that a
    thread which is switched out and back in goes on as if its call had
    returned, and that a new process whose stack allocproc built runs forkret
    and then returns to user mode with the registers of its trap frame. *)

From S2P Require Import Prelude Layout Spinlock Proc Trap Seg X86 Entry.

Section switch.
Context (code : Z -> option (instr * Z)) (hw : cpuhw) (idt : list gatedesc).
Context (swtch swtch_end : Z) (Hswtch : placed code swtch swtch_S swtch_end).

Lemma swtch_run s sp old new : vals_ok s -> eip s = swtch -> R s ESP = sp -> ld32 (M s) (sp + 4) = old -> ld32 (M s) (sp + 8) = new ->
  16 <= sp <= 2 ^ 32 - 12 -> 0 <= new < 2 ^ 32 - 20 -> old + 4 <= sp - 16 \/ sp <= old ->
  exists s', run code hw idt 13 s = Ok s' /\ S_ s' = S_ s /\ eflags s' = eflags s /\
    ld32 (M s') old = sp - 16 /\
    stk (M s') (sp - 16) [R s EDI; R s ESI; R s EBX; R s EBP] /\
    (forall a, (a < sp - 16 \/ sp <= a) -> (a < old \/ old + 4 <= a) -> M s' a = M s a) /\
    mk_context (R s' EDI) (R s' ESI) (R s' EBX) (R s' EBP) (eip s') = load_context (M s') new /\ R s' ESP = new + 20.
Proof.
  intros (HR & HS & Hm) Epc Esp Eold Enew Hsp Hnew Hd. 
  destruct Hswtch as (a1 & C1 & a2 & C2 & a3 & C3 & a4 & C4 & a5 & C5 & a6 & C6 & a7 & C7 & a8 & C8 & a9 & C9 & a10 & C10 & a11 & C11 & a12 & C12 & a13 & C13 & _).
  pose proof (HR EBP) as Hbp. pose proof (HR EBX) as Hbx. pose proof (HR ESI) as Hsi. pose proof (HR EDI) as Hdi.
  destruct s as [[a c d b sp' bp si di] sg pc fl m]. cbn [R seg getr gets R_ S_ eip eflags M eax ecx edx ebx esp ebp esi edi] in *. subst pc sp'.
  eexists. split.
  { xstep C1. rewrite Eold. xstep C2. rewrite Enew. xstep C3. xstep C4. xstep C5. xstep C6. xstep C7. xstep C8. xstep C9. xstep C10. xstep C11. xstep C12. xstep C13. reflexivity. }
  xcbn. set (m1 := st32 (st32 (st32 (st32 m _ _) _ _) _ _) _ _).
  assert (Hst : stk m1 (sp - 16) [di; si; b; bp]).
  { replace (sp - 16) with (sp - 4 - 4 - 4 - 4) by lia. unfold m1. repeat (apply stk_push; [|lia]). apply stk_nil. }
  assert (Hsm : same_but m m1 (sp - 16) sp) by (unfold m1; repeat (apply same_but_st32; [|lia..]); apply same_but_refl). clearbody m1.
  split; [done|]. split; [done|]. split; [rewrite ld32_st32_same, u32_small; lia|]. split; [apply stk_st32; [done | cbn [length]; lia]|].
  split; [intros x H1 H2; rewrite st32_other by lia; by apply Hsm|]. unfold load_context. split; [repeat (f_equal; try lia) | lia].
Qed.
(** The registers a C caller expects to find again. *)
Definition callee_saved (s : mstate) : list Z := [R s EDI; R s ESI; R s EBX; R s EBP].

(** C23: a thread that is switched out and later switched in again goes on as if
    its call of swtch had just returned.  [s] calls swtch(old, new); whatever
    runs in between, if at [u] some thread calls swtch with the context that was
    stored in [*old], and the 20 bytes of that context are as they were left,
    then the first thread resumes at its return address with its stack pointer
    behind it and its callee-saved registers. *)
Theorem swtch_roundtrip s sp old u su : vals_ok s -> eip s = swtch -> R s ESP = sp -> ld32 (M s) (sp + 4) = old -> 16 <= sp < 2 ^ 32 - 12 -> 0 <= ld32 (M s) (sp + 8) < 2 ^ 32 - 20 -> old + 4 <= sp - 16 \/ sp + 4 <= old ->
  exists s', run code hw idt 13 s = Ok s' /\
    (vals_ok u -> eip u = swtch -> R u ESP = su -> 16 <= su < 2 ^ 32 - 12 -> ld32 (M u) (su + 8) = ld32 (M s') old -> (forall a, sp - 16 <= a < sp + 4 -> M u a = M s' a) ->
     su <= sp - 16 \/ sp + 4 <= su - 16 -> ld32 (M u) (su + 4) + 4 <= su - 16 \/ su <= ld32 (M u) (su + 4) -> ld32 (M u) (su + 4) + 4 <= sp - 16 \/ sp + 4 <= ld32 (M u) (su + 4) ->
     exists u', run code hw idt 13 u = Ok u' /\ callee_saved u' = callee_saved s /\ R u' ESP = sp + 4 /\ eip u' = ld32 (M s) sp).
Proof.
  intros Hok Epc Esp Eold Hsp Hnew Hd. destruct (swtch_run s sp old _ Hok Epc Esp Eold eq_refl ltac:(lia) Hnew ltac:(lia)) as (s' & E1 & _ & _ & Ho & Hst & Hm & _ & _). exists s'. split; [done|].
  intros Hoku Epcu Espu Hsu Hctx Hkeep Hd1 Hd2 Hd3. rewrite Ho in Hctx.
  destruct (swtch_run u su _ (sp - 16) Hoku Epcu Espu eq_refl Hctx ltac:(lia) ltac:(lia) Hd2) as (u' & E2 & _ & _ & _ & _ & Hmu & Hc & Hspu). exists u'. split; [done|].
  assert (Hw : forall i, 0 <= i <= 16 -> ld32 (M u') (sp - 16 + i) = ld32 (M s') (sp - 16 + i)).
  { intros i Hi. apply ld32_ext. intros a Ha. rewrite Hmu by lia. apply Hkeep. lia. }
  pose proof (f_equal c_edi Hc) as Hdi. pose proof (f_equal c_esi Hc) as Hsi. pose proof (f_equal c_ebx Hc) as Hbx. pose proof (f_equal c_ebp Hc) as Hbp. pose proof (f_equal c_eip Hc) as Hip.
  unfold load_context in *. cbn [c_edi c_esi c_ebx c_ebp c_eip] in *. unfold callee_saved. rewrite Hdi, Hsi, Hbx, Hbp, Hip, Hspu, !Hw by lia.
  replace (ld32 (M u') (sp - 16)) with (ld32 (M s') (sp - 16)) by (pose proof (Hw 0 ltac:(lia)) as H0; by rewrite !Z.add_0_r in H0).
  split; [|split; [lia|]].
  - rewrite (stk_at _ _ _ 0 (R s EDI) _ Hst eq_refl), (stk_at _ _ _ 1 (R s ESI) _ Hst eq_refl), (stk_at _ _ _ 2 (R s EBX) _ Hst eq_refl), (stk_at _ _ _ 3 (R s EBP) _ Hst eq_refl) by lia. done.
  - replace (sp - 16 + 16) with sp by lia. apply ld32_ext. intros a Ha. apply Hm; lia.
Qed.

(** ** A new process *)

Section new_process.
Context (trapret tend forkret : Z) (Htrapret : placed code trapret trapret_S tend) (Hf : 0 <= forkret < 2 ^ 32) (Ht : 0 <= trapret < 2 ^ 32).

(** The stack page allocproc prepares: the trap frame, the context, the memory. *)
Definition kstack_init (kstack : Z) (m : mem) : Z * Z * mem :=
  let sp := kstack + KSTACKSIZE in
  let sp := sp - TFSIZE in
  let tf := sp in
  let sp := sp - 4 in
  let m := st32 m sp trapret in
  let sp := sp - CTXSIZE in
  let context := sp in
  let m := mfill m context CTXSIZE 0 in
  let m := st32 m (context + 16) forkret in
  (tf, context, m).

(** fork's [*np->tf = *curproc->tf; np->tf->eax = 0]. *)
Definition fork_tf (ntf ptf : Z) (m : mem) : mem :=
  st32 (mcopy m ntf m ptf TFSIZE) (ntf + 28) 0.

Lemma load_tf_ext m m' a a' : (forall i, 0 <= i < TFSIZE -> m' (a' + i) = m (a + i)) -> load_tf m' a' = load_tf m a.
Proof.
  intros H. unfold TFSIZE in H. assert (H4 : forall i, 0 <= i <= 72 -> ld32 m' (a' + i) = ld32 m (a + i)) by (intros i Hi; unfold ld32; rewrite <- !Z.add_assoc, !H by lia; done).
  assert (H2 : forall i, 0 <= i <= 74 -> ld16 m' (a' + i) = ld16 m (a + i)) by (intros i Hi; unfold ld16; rewrite <- !Z.add_assoc, !H by lia; done).
  assert (H0 : ld32 m' a' = ld32 m a) by (pose proof (H4 0 ltac:(lia)) as E; by rewrite !Z.add_0_r in E).
  unfold load_tf. rewrite H0, !H4, !H2 by lia. done.
Qed.

Lemma load_tf_eax m a v : 0 <= v < 2 ^ 32 -> load_tf (st32 m (a + 28) v) a = set_eax (load_tf m a) v.
Proof.
  intros Hv. assert (H2 : forall b, b + 2 <= a + 28 \/ a + 32 <= b -> ld16 (st32 m (a + 28) v) b = ld16 m b) by (intros b Hb; apply ld16_ext; intros; apply st32_other; lia).
  unfold load_tf, set_eax. cbn [tf_edi tf_esi tf_ebp tf_oesp tf_ebx tf_edx tf_ecx tf_eax tf_gs tf_fs tf_es tf_ds tf_trapno tf_err tf_eip tf_cs tf_eflags tf_esp tf_ss].
  rewrite ld32_st32_same, !H2 by lia. rewrite !(ld32_st32_other m (a + 28)) by lia. by rewrite u32_small.
Qed.
(** The prepared stack: a context that starts forkret, which returns to trapret. *)
Lemma kstack_init_spec kstack m ntf ctx m1 : kstack_init kstack m = (ntf, ctx, m1) ->
  ntf = kstack + 4020 /\ ctx = kstack + 3996 /\ load_context m1 ctx = mk_context 0 0 0 0 forkret /\ ld32 m1 (ctx + 20) = trapret /\ (forall a, a < ctx \/ ntf <= a -> m1 a = m a).
Proof.
  unfold kstack_init, KSTACKSIZE, TFSIZE, CTXSIZE. intros [= <- <- <-]. split; [lia|]. split; [lia|]. split; [|split].
  - unfold load_context. rewrite ld32_st32_same, u32_small by done. rewrite !ld32_st32_other by lia. rewrite !ld32_mfill_zero by lia. done.
  - rewrite ld32_st32_other by lia. rewrite (ld32_ext _ (st32 m (kstack + 4096 - 76 - 4) trapret)) by (intros x Hx; rewrite mfill_out by lia; done).
    replace (kstack + 4096 - 76 - 4 - 20 + 20) with (kstack + 4096 - 76 - 4) by lia. by rewrite ld32_st32_same, u32_small.
  - intros a Ha. rewrite st32_other, mfill_out, st32_other by lia. done.
Qed.

Lemma fork_tf_spec ntf ptf m t : ptf + TFSIZE <= ntf \/ ntf + TFSIZE <= ptf -> load_tf m ptf = t ->
  load_tf (fork_tf ntf ptf m) ntf = set_eax t 0 /\ forall a, a < ntf \/ ntf + TFSIZE <= a -> fork_tf ntf ptf m a = m a.
Proof.
  intros Hd <-. unfold fork_tf. split.
  - rewrite load_tf_eax by lia. f_equal. apply load_tf_ext. intros i Hi. rewrite mcopy_in by lia. f_equal. lia.
  - intros a Ha. unfold TFSIZE in *. rewrite st32_other, mcopy_out by lia. done.
Qed.

(** C13: the child of a fork returns from the same system call as its parent.
    [m] holds the parent's trap frame [t] at [ptf]; allocproc has prepared the
    child's stack page and fork has copied the frame and cleared eax.  When a
    scheduler calls swtch with the child's context, forkret starts on a stack
    with trapret as its return address, and when forkret returns the child is in
    user mode with all the parent's registers, except that eax is 0. *)
Theorem fork_child_resumes kstack ptf m t ntf ctx m1 s sp old : kstack_init kstack m = (ntf, ctx, m1) -> 0 <= kstack < 2 ^ 32 - KSTACKSIZE -> ptf + TFSIZE <= kstack \/ kstack + KSTACKSIZE <= ptf ->
  load_tf m ptf = t -> Z.land (tf_cs t) 3 = 3 ->
  vals_ok s -> eip s = swtch -> R s ESP = sp -> ld32 (M s) (sp + 4) = old -> ld32 (M s) (sp + 8) = ctx -> 16 <= sp < 2 ^ 32 - 12 -> old + 4 <= sp - 16 \/ sp <= old ->
  sp <= kstack \/ kstack + KSTACKSIZE <= sp - 16 -> old + 4 <= kstack \/ kstack + KSTACKSIZE <= old -> (forall a, kstack <= a < kstack + KSTACKSIZE -> M s a = fork_tf ntf ptf m1 a) ->
  exists s', run code hw idt 13 s = Ok s' /\ eip s' = forkret /\ ld32 (M s') (R s' ESP) = trapret /\
    forall s2, vals_ok s2 -> eip s2 = trapret -> R s2 ESP = R s' ESP + 4 -> cpl s2 = 0 -> (forall a, ntf <= a < ntf + TFSIZE -> M s2 a = M s' a) ->
      run code hw idt 7 s2 = Ok (user_of (set_eax t 0) (M s2)).
Proof.
  intros Hks Hk Hp Hpt Hcs Hok Epc Esp Eold Ectx Hsp Hd1 Hd2 Hd3 Hpage. destruct (kstack_init_spec _ _ _ _ _ Hks) as (Entf & Ectx' & Hctx & Hret & Hout). unfold KSTACKSIZE, TFSIZE in *.
  assert (Hpt1 : load_tf m1 ptf = t) by (rewrite <- Hpt; apply load_tf_ext; intros i Hi; unfold TFSIZE in Hi; apply Hout; lia).
  destruct (fork_tf_spec ntf ptf m1 t ltac:(unfold TFSIZE; lia) Hpt1) as (Hnt & Hno). unfold TFSIZE in *.
  destruct (swtch_run s sp old ctx Hok Epc Esp Eold Ectx ltac:(lia) ltac:(lia) Hd1) as (s' & E & ES & _ & _ & _ & Hm & Hc & Hsp').
  assert (Hin : forall a, kstack <= a < kstack + 4096 -> M s' a = fork_tf ntf ptf m1 a) by (intros a Ha; rewrite Hm by lia; by apply Hpage).
  assert (Hw : forall a, ctx <= a <= ctx + 20 -> ld32 (M s') a = ld32 m1 a) by (intros a Ha; apply ld32_ext; intros x Hx; rewrite Hin by lia; apply Hno; lia).
  exists s'. split; [done|]. split; [|split].
  - change (c_eip (mk_context (R s' EDI) (R s' ESI) (R s' EBX) (R s' EBP) (eip s')) = forkret). rewrite Hc. transitivity (c_eip (load_context m1 ctx)); [|by rewrite Hctx]. cbn [load_context c_eip]. apply Hw. lia.
  - rewrite Hsp', Hw by lia. done.
  - intros s2 Hok2 Epc2 Hsp2 Hcpl2 Hm2. assert (Ht2 : load_tf (M s2) ntf = set_eax t 0).
    { rewrite <- Hnt. apply load_tf_ext. intros i Hi. unfold TFSIZE in Hi. rewrite Hm2, Hin by lia. done. }
    rewrite <- Ht2. eapply trapret_run; eauto; [rewrite Hsp2, Hsp'; lia | unfold TFSIZE; lia|]. rewrite Ht2. done.
Qed.
End new_process.
End switch.

(** The scheduler's thread, about to switch to a new process in the page at 0x80500000. *)
Definition ex_parent : mem := fun a => if a =? 0x80400FB4 + 60 then 0x1b else 0.
Definition ex_child : Z * Z * mem := kstack_init 0x8010600B 0x80109000 0x80500000 ex_parent.
Definition ex_sched : mstate :=
  mk_x (mk_regs 1 2 3 4 0x80300000 6 7 8) (mk_segs 8 16 16 0 0 16) 0x80108000 2
    (st32 (st32 (fork_tf 0x80500FB4 0x80400FB4 (snd ex_child)) 0x80300004 0x80301000) 0x80300008 0x80500F9C).

Lemma ex_sched_ok : vals_ok ex_sched.
Proof.
  split; [|split]; [intros []; vm_compute; intuition congruence | intros []; vm_compute; intuition congruence|]. cbn [M ex_sched]. apply byte_mem_st32, byte_mem_st32. unfold fork_tf. apply byte_mem_st32.
  assert (Hb : byte_mem (snd ex_child)).
  { unfold ex_child, kstack_init. cbn [snd]. apply byte_mem_st32, byte_mem_mfill; [apply byte_mem_st32 | lia]. intros a. unfold ex_parent. destruct (a =? _); lia. }
  intros a. unfold mcopy. destruct (_ && _); apply Hb.
Qed.

Lemma fork_child_resumes_witness : exists s', run ex_code ex_hw' ex_idt 13 ex_sched = Ok s' /\ eip s' = 0x80109000 /\ ld32 (M s') (R s' ESP) = 0x8010600B.
Proof.
  destruct (fork_child_resumes ex_code ex_hw' ex_idt 0x80108000 0x8010800D ex_swtch 0x8010600B 0x80106012 0x80109000 ex_trapret ltac:(lia) ltac:(lia)
    0x80500000 0x80400FB4 ex_parent (load_tf ex_parent 0x80400FB4) 0x80500FB4 0x80500F9C (snd ex_child) ex_sched 0x80300000 0x80301000) as (s' & E & H1 & H2 & _);
    [reflexivity | vm_compute; intuition congruence | left; unfold TFSIZE; lia | reflexivity | vm_compute; reflexivity | exact ex_sched_ok | reflexivity | reflexivity | vm_compute; reflexivity | vm_compute; reflexivity | lia | right; lia | left; unfold KSTACKSIZE; lia | left; unfold KSTACKSIZE; lia | |].
  - intros a Ha. unfold KSTACKSIZE in Ha. cbn [M ex_sched]. rewrite !st32_other by lia. reflexivity.
  - exists s'. split; [exact E|]. split; [exact H1 | exact H2].
Defined.

(** Where the switch leads, and a thread that switches back. *)
Definition ex_away : mstate := match run ex_code ex_hw' ex_idt 13 ex_sched with Ok s => s | _ => ex_sched end.
Definition ex_back : mstate :=
  mk_x (mk_regs 11 12 13 14 0x80600000 16 17 18) (mk_segs 8 16 16 0 0 16) 0x80108000 2
    (st32 (st32 (st32 (st32 (st32 (st32 (fun _ => 0) 0x802FFFF0 8) 0x802FFFF4 7) 0x802FFFF8 4) 0x802FFFFC 6) 0x80600004 0x80601000) 0x80600008 0x802FFFF0).

Lemma swtch_roundtrip_witness : exists u', run ex_code ex_hw' ex_idt 13 ex_back = Ok u' /\ callee_saved u' = [8; 7; 4; 6] /\ R u' ESP = 0x80300004.
Proof.
  destruct (swtch_roundtrip ex_code ex_hw' ex_idt 0x80108000 0x8010800D ex_swtch ex_sched 0x80300000 0x80301000 ex_back 0x80600000 ex_sched_ok) as (s' & E & H);
    [reflexivity | reflexivity | vm_compute; reflexivity | lia | vm_compute; intuition congruence | right; lia|].
  assert (Es : s' = ex_away) by (unfold ex_away; by rewrite E).
  destruct H as (u' & E' & H1 & H2 & _); [| reflexivity | reflexivity | lia | rewrite Es; vm_compute; reflexivity | | right; lia | vm_compute; right; congruence | vm_compute; right; congruence | exists u'; split; [exact E'|]; split; [exact H1 | exact H2]].
  - split; [|split]; [intros []; vm_compute; intuition congruence | intros []; vm_compute; intuition congruence|]. cbn [M ex_back]. repeat apply byte_mem_st32. intros a. lia.
  - intros a Ha. rewrite Es. assert (Hc : exists i, (i < 20)%nat /\ a = 0x802FFFF0 + Z.of_nat i) by (exists (Z.to_nat (a - 0x802FFFF0)); lia). destruct Hc as (i & Hi & ->).
    do 20 (destruct i as [|i]; [vm_compute; reflexivity|]). lia.
Defined.
