(* ===== verification/Devices.v ===== *)
(** * Setting up the interrupt controllers and devices (src/lapic.c, src/ioapic.c, src/picirq.c, src/uart.c, src/ide.c: ideinit, src/console.c: consoleinit, src/main.c)

    The registers that boot programs, as the devices keep them: the I/O APIC
    behind its index register, the local APIC of a CPU with the interprocessor
    interrupts it sends, the masks of the old controllers, the serial port with
    its divisor latch.  From the registers follow the interrupts the machine can
    raise, and those are compared with the ones trap() handles. *)

From S2P Require Import Prelude Layout Kalloc Spinlock Proc Console Trap.

Definition IRQ_ERROR : Z := 19.

(** ** Registers *)

(** A serial port 8250: bit 7 of [lcr] turns the first two registers into the divisor. *)
Record serial := mk_serial { dll : Z; dlm : Z; ier : Z; fcr : Z; lcr : Z; mcr : Z; sent : list Z }.

Record devs := mk_devs {
  io_reg : Z; io_tab : Z -> Z;      (* I/O APIC: selected register, registers *)
  lapic : option (Z -> Z);          (* local APIC registers; None when lapic == 0 *)
  busy : nat;                       (* reads of ICRLO that still find the delivery pending *)
  ipis : list (Z * Z);              (* ICRHI and ICRLO of the interrupts sent, the last first *)
  pic1 : Z; pic2 : Z;               (* masks of the two old controllers *)
  com1 : serial; uart : bool;
  havedisk1 : bool
}.

Definition set_io (d : devs) (r : Z) (t : Z -> Z) : devs := mk_devs r t (lapic d) (busy d) (ipis d) (pic1 d) (pic2 d) (com1 d) (uart d) (havedisk1 d).
Definition set_lapic (d : devs) (l : Z -> Z) (b : nat) (i : list (Z * Z)) : devs := mk_devs (io_reg d) (io_tab d) (Some l) b i (pic1 d) (pic2 d) (com1 d) (uart d) (havedisk1 d).
Definition set_com1 (d : devs) (s : serial) (u : bool) : devs := mk_devs (io_reg d) (io_tab d) (lapic d) (busy d) (ipis d) (pic1 d) (pic2 d) s u (havedisk1 d).

Definition upd_reg (f : Z -> Z) (r v : Z) : Z -> Z := fun x => if x =? r then v else f x.

(** ** ioapic.c *)

Definition REG_ID : Z := 0x00.
Definition REG_VER : Z := 0x01.
Definition REG_TABLE : Z := 0x10.
Definition INT_DISABLED : Z := 0x00010000.

Definition ioapicread (reg : Z) (d : devs) : Z * devs :=
  let d := set_io d reg (io_tab d) in (io_tab d (io_reg d), d).
Definition ioapicwrite (reg data : Z) (d : devs) : devs :=
  let d := set_io d reg (io_tab d) in set_io d (io_reg d) (upd_reg (io_tab d) (io_reg d) data).

Fixpoint ioapic_loop (n : nat) (i : Z) (d : devs) : devs :=
  match n with
  | O => d
  | S n' =>
      let d := ioapicwrite (REG_TABLE + 2 * i) (Z.lor INT_DISABLED (T_IRQ0 + i)) d in
      let d := ioapicwrite (REG_TABLE + 2 * i + 1) 0 d in
      ioapic_loop n' (i + 1) d
  end.

(** The message about a wrong id is left out. *)
Definition ioapicinit (d : devs) : devs :=
  let (v, d) := ioapicread REG_VER d in
  let maxintr := Z.land (Z.shiftr v 16) 0xFF in
  let (_, d) := ioapicread REG_ID d in
  ioapic_loop (S (Z.to_nat maxintr)) 0 d.

Definition ioapicenable (irq cpunum : Z) (d : devs) : devs :=
  let d := ioapicwrite (REG_TABLE + 2 * irq) (T_IRQ0 + irq) d in
  ioapicwrite (REG_TABLE + 2 * irq + 1) (u32 (Z.shiftl cpunum 24)) d.

(** ** picirq.c *)

Definition picinit (d : devs) : devs :=
  mk_devs (io_reg d) (io_tab d) (lapic d) (busy d) (ipis d) 0xFF 0xFF (com1 d) (uart d) (havedisk1 d).

(** ** lapic.c *)

Definition ID : Z := 0x0020 / 4.
Definition VER : Z := 0x0030 / 4.
Definition TPR : Z := 0x0080 / 4.
Definition EOI : Z := 0x00B0 / 4.
Definition SVR : Z := 0x00F0 / 4.
Definition ENABLE : Z := 0x00000100.
Definition ESR : Z := 0x0280 / 4.
Definition ICRLO : Z := 0x0300 / 4.
Definition INIT : Z := 0x00000500.
Definition STARTUP : Z := 0x00000600.
Definition DELIVS : Z := 0x00001000.
Definition ASSERT : Z := 0x00004000.
Definition LEVEL : Z := 0x00008000.
Definition BCAST : Z := 0x00080000.
Definition ICRHI : Z := 0x0310 / 4.
Definition TIMER : Z := 0x0320 / 4.
Definition X1 : Z := 0x0000000B.
Definition PERIODIC : Z := 0x00020000.
Definition PCINT : Z := 0x0340 / 4.
Definition LINT0 : Z := 0x0350 / 4.
Definition LINT1 : Z := 0x0360 / 4.
Definition ERROR : Z := 0x0370 / 4.
Definition MASKED : Z := 0x00010000.
Definition TICR : Z := 0x0380 / 4.
Definition TDCR : Z := 0x03E0 / 4.

Section lapic.
Context (delay : nat).   (* how long the delivery of an interprocessor interrupt stays pending *)

Definition lapicw (index value : Z) (d : devs) : devs :=
  match lapic d with
  | None => d
  | Some l =>
      let l' := upd_reg l index value in
      if index =? ICRLO then set_lapic d l' delay ((l' ICRHI, value) :: ipis d) else set_lapic d l' (busy d) (ipis d)
  end.

(** [while(lapic[ICRLO] & DELIVS) ;] *)
Fixpoint lapic_wait (fuel : nat) (d : devs) : res devs :=
  match fuel with
  | O => Blocked
  | S f =>
      match busy d with
      | O => Ok d
      | S b => lapic_wait f (mk_devs (io_reg d) (io_tab d) (lapic d) b (ipis d) (pic1 d) (pic2 d) (com1 d) (uart d) (havedisk1 d))
      end
  end.

Definition lapicinit (fuel : nat) (d : devs) : res devs :=
  match lapic d with
  | None => Ok d
  | Some l =>
      let d := lapicw SVR (Z.lor ENABLE (T_IRQ0 + IRQ_SPURIOUS)) d in
      let d := lapicw TDCR X1 d in
      let d := lapicw TIMER (Z.lor PERIODIC (T_IRQ0 + IRQ_TIMER)) d in
      let d := lapicw TICR 10000000 d in
      let d := lapicw LINT0 MASKED d in
      let d := lapicw LINT1 MASKED d in
      let d := if 4 <=? Z.land (Z.shiftr (l VER) 16) 0xFF then lapicw PCINT MASKED d else d in
      let d := lapicw ERROR (T_IRQ0 + IRQ_ERROR) d in
      let d := lapicw ESR 0 d in
      let d := lapicw ESR 0 d in
      let d := lapicw EOI 0 d in
      let d := lapicw ICRHI 0 d in
      let d := lapicw ICRLO (Z.lor (Z.lor BCAST INIT) LEVEL) d in
      let* d := lapic_wait fuel d in
      Ok (lapicw TPR 0 d)
  end.

Definition lapicid (d : devs) : Z := match lapic d with None => 0 | Some l => Z.shiftr (l ID) 24 end.
Definition lapiceoi (d : devs) : devs := match lapic d with None => d | Some _ => lapicw EOI 0 d end.

(** The warm reset vector is in memory; the CMOS bytes are returned. *)
Definition lapicstartap (apicid addr : Z) (m : mem) (d : devs) : list (Z * Z) * mem * devs :=
  let cmos := [(0x70, 0xF); (0x71, 0x0A)] in
  let wrv := P2V (Z.lor (Z.shiftl 0x40 4) 0x67) in
  let m := st16 m wrv 0 in
  let m := st16 m (wrv + 2) (Z.shiftr addr 4) in
  let d := lapicw ICRHI (u32 (Z.shiftl apicid 24)) d in
  let d := lapicw ICRLO (Z.lor (Z.lor INIT LEVEL) ASSERT) d in
  let d := lapicw ICRLO (Z.lor INIT LEVEL) d in
  let startup d :=
    let d := lapicw ICRHI (u32 (Z.shiftl apicid 24)) d in
    lapicw ICRLO (Z.lor STARTUP (Z.shiftr addr 12)) d in
  (cmos, m, startup (startup d)).
End lapic.

(** ** uart.c *)

Definition dlab (s : serial) : bool := Z.testbit (lcr s) 7.

(** outb(COM1 + off, v) *)
Definition outb_com1 (off v : Z) (s : serial) : serial :=
  let '(mk_serial l h i f c m o) := s in
  if off =? 0 then if dlab s then mk_serial v h i f c m o else mk_serial l h i f c m (v :: o)
  else if off =? 1 then if dlab s then mk_serial l v i f c m o else mk_serial l h v f c m o
  else if off =? 2 then mk_serial l h i v c m o
  else if off =? 3 then mk_serial l h i f v m o
  else if off =? 4 then mk_serial l h i f c v o
  else s.

(** What the line status register reads, one value per poll. *)
Section uart.
Context (status : nat -> Z).

(** [for(i = 0; i < 128 && !(inb(COM1+5) & 0x20); i++) microdelay(10);] from poll [k]. *)
Fixpoint uart_poll (n : nat) (k : nat) : nat :=
  match n with
  | O => k
  | S n' => if Z.land (status k) 0x20 =? 0 then uart_poll n' (S k) else S k
  end.

Definition uartputc (c : Z) (kd : nat * devs) : nat * devs :=
  let (k, d) := kd in
  if uart d then (uart_poll 128 k, set_com1 d (outb_com1 0 (u8 c) (com1 d)) (uart d)) else (k, d).

Fixpoint uartputs (l : list Z) (kd : nat * devs) : nat * devs :=
  match l with [] => kd | c :: l' => uartputs l' (uartputc c kd) end.

(** [data] is what COM1+0 reads. *)
Definition uartgetc (data : Z) (k : nat) (d : devs) : Z :=
  if uart d then if Z.land (status k) 0x01 =? 0 then -1 else data else -1.

(** "xv6...\n" *)
Definition hello : list Z := [120; 118; 54; 46; 46; 46; 10].

Definition uartinit (d : devs) : devs :=
  let s := com1 d in
  let s := outb_com1 2 0 s in
  let s := outb_com1 3 0x80 s in
  let s := outb_com1 0 (115200 / 9600) s in
  let s := outb_com1 1 0 s in
  let s := outb_com1 3 0x03 s in
  let s := outb_com1 4 0 s in
  let s := outb_com1 1 0x01 s in
  let d := set_com1 d s (uart d) in
  if status 0 =? 0xFF then d
  else
    let d := set_com1 d s true in
    let d := ioapicenable IRQ_COM1 0 d in
    snd (uartputs hello (1%nat, d)).
End uart.

(** ** ide.c: ideinit *)

Definition IDE_BSY : Z := 0x80.
Definition IDE_DRDY : Z := 0x40.
Definition IDE_DF : Z := 0x20.
Definition IDE_ERR : Z := 0x01.

Section ide.
Context (st : nat -> Z).   (* what port 0x1f7 reads, one value per poll *)

(** The result, and the number of the next poll. *)
Fixpoint idewait (fuel : nat) (checkerr : bool) (k : nat) : res (Z * nat) :=
  match fuel with
  | O => Blocked
  | S f =>
      let r := st k in
      if Z.land r (Z.lor IDE_BSY IDE_DRDY) =? IDE_DRDY then
        if checkerr && negb (Z.land r (Z.lor IDE_DF IDE_ERR) =? 0) then Ok (-1, S k) else Ok (0, S k)
      else idewait f checkerr (S k)
  end.

(** [for(i=0; i<1000; i++) if(inb(0x1f7) != 0) { havedisk1 = 1; break; }] *)
Fixpoint probe (n : nat) (k : nat) : bool :=
  match n with O => false | S n' => if st k =? 0 then probe n' (S k) else true end.

Definition ideinit (fuel : nat) (ncpu : Z) (d : devs) : res devs :=
  let d := ioapicenable IRQ_IDE (ncpu - 1) d in
  let* (_, k) := idewait fuel false 0 in
  Ok (mk_devs (io_reg d) (io_tab d) (lapic d) (busy d) (ipis d) (pic1 d) (pic2 d) (com1 d) (uart d) (probe 1000 k || havedisk1 d)).
End ide.

(** ** console.c: consoleinit, of which only the interrupt concerns a device *)

Definition consoleinit (d : devs) : devs := ioapicenable IRQ_KBD 0 d.

(** ** main.c: the devices in the order main() sets them up *)

Definition main_devices (delay : nat) (com_status ide_status : nat -> Z) (fuel : nat) (ncpu : Z) (d : devs) : res devs :=
  let* d := lapicinit delay fuel d in
  let d := picinit d in
  let d := ioapicinit d in
  let d := consoleinit d in
  let d := uartinit com_status d in
  ideinit ide_status fuel ncpu d.

(** ** The interrupts the machine can raise *)

(** Through the I/O APIC: vector and destination of each entry that is not disabled. *)
Definition io_route (d : devs) (i : Z) : option (Z * Z) :=
  let lo := io_tab d (REG_TABLE + 2 * i) in
  if Z.testbit lo 16 then None else Some (Z.land lo 0xFF, Z.shiftr (io_tab d (REG_TABLE + 2 * i + 1)) 24).

(** Through an entry of the local vector table. *)
Definition lvt (l : Z -> Z) (r : Z) : option Z := if Z.testbit (l r) 16 then None else Some (Z.land (l r) 0xFF).

Definition local_sources (l : Z -> Z) : list Z :=
  [TIMER; LINT0; LINT1; ERROR] ++ (if 4 <=? Z.land (Z.shiftr (l VER) 16) 0xFF then [PCINT] else []).

(** Vector [v] can be raised on CPU [c], whose local APIC this is. *)
Definition raises (d : devs) (maxintr c v : Z) : Prop :=
  (exists i, 0 <= i <= maxintr /\ io_route d i = Some (v, c)) \/
  (exists l, lapic d = Some l /\ ((exists r, r ∈ local_sources l /\ lvt l r = Some v) \/ Z.land (l SVR) 0xFF = v)) \/
  pic1 d <> 0xFF \/ pic2 d <> 0xFF.

(** ** What the set-up leaves *)

Lemma upd_reg_eq f r v : upd_reg f r v r = v.
Proof. unfold upd_reg. by rewrite Z.eqb_refl. Qed.
Lemma upd_reg_ne f r v x : x <> r -> upd_reg f r v x = f x.
Proof. intros H. unfold upd_reg. by destruct (Z.eqb_spec x r). Qed.

Lemma ioapicwrite_tab reg v d x : io_tab (ioapicwrite reg v d) x = if x =? reg then v else io_tab d x.
Proof. done. Qed.

Lemma ioapicenable_tab irq c d x : io_tab (ioapicenable irq c d) x =
  if x =? REG_TABLE + 2 * irq + 1 then u32 (Z.shiftl c 24) else if x =? REG_TABLE + 2 * irq then T_IRQ0 + irq else io_tab d x.
Proof. done. Qed.

(** Only the table of the I/O APIC changes. *)
Definition same_rest (d d' : devs) : Prop :=
  lapic d' = lapic d /\ busy d' = busy d /\ ipis d' = ipis d /\ pic1 d' = pic1 d /\ pic2 d' = pic2 d /\ com1 d' = com1 d /\ uart d' = uart d /\ havedisk1 d' = havedisk1 d.

Lemma ioapic_loop_spec n i d : 0 <= i -> let d' := ioapic_loop n i d in same_rest d d' /\
  (forall j, i <= j < i + Z.of_nat n -> io_tab d' (REG_TABLE + 2 * j) = Z.lor INT_DISABLED (T_IRQ0 + j) /\ io_tab d' (REG_TABLE + 2 * j + 1) = 0) /\
  (forall r, r < REG_TABLE + 2 * i \/ REG_TABLE + 2 * (i + Z.of_nat n) <= r -> io_tab d' r = io_tab d r).
Proof.
  revert i d. induction n as [|n IH]; intros i d Hi; cbn [ioapic_loop].
  - split; [by split_and!|]. split; [intros; lia | done].
  - set (d1 := ioapicwrite _ _ (ioapicwrite _ _ d)). assert (Ht : forall x, io_tab d1 x = if x =? REG_TABLE + 2 * i + 1 then 0 else if x =? REG_TABLE + 2 * i then Z.lor INT_DISABLED (T_IRQ0 + i) else io_tab d x) by done.
    assert (Hr : same_rest d d1) by (by split_and!). clearbody d1. destruct (IH (i + 1) d1 ltac:(lia)) as (H1 & H2 & H3). split; [|split].
    + destruct H1 as (A1 & A2 & A3 & A4 & A5 & A6 & A7 & A8), Hr as (B1 & B2 & B3 & B4 & B5 & B6 & B7 & B8). split_and!; congruence.
    + intros j Hj. destruct (decide (j = i)) as [->|Hne]; [|apply H2; lia]. rewrite !H3 by lia. rewrite !Ht. zcases; done.
    + intros r Hr'. rewrite H3 by lia. rewrite Ht. zcases; done.
Qed.

Lemma lapic_wait_spec fuel d : (busy d < fuel)%nat ->
  lapic_wait fuel d = Ok (mk_devs (io_reg d) (io_tab d) (lapic d) 0 (ipis d) (pic1 d) (pic2 d) (com1 d) (uart d) (havedisk1 d)).
Proof.
  revert d. induction fuel as [|f IH]; intros d Hb; [lia|]. cbn [lapic_wait]. destruct (busy d) as [|b] eqn:E; [rewrite <- E; by destruct d|]. rewrite IH by (cbn; lia). done.
Qed.

(** The local vector table lapicinit leaves. *)
Record lapic_ready (l0 l : Z -> Z) : Prop := {
  lr_ver : l VER = l0 VER;
  lr_svr : l SVR = Z.lor ENABLE (T_IRQ0 + IRQ_SPURIOUS);
  lr_timer : l TIMER = Z.lor PERIODIC (T_IRQ0 + IRQ_TIMER);
  lr_lint0 : l LINT0 = MASKED;
  lr_lint1 : l LINT1 = MASKED;
  lr_error : l ERROR = T_IRQ0 + IRQ_ERROR;
  lr_pcint : 4 <= Z.land (Z.shiftr (l0 VER) 16) 0xFF -> l PCINT = MASKED
}.

Lemma lapicinit_spec delay fuel d l0 : lapic d = Some l0 -> (delay < fuel)%nat ->
  exists d' l, lapicinit delay fuel d = Ok d' /\ lapic d' = Some l /\ lapic_ready l0 l /\ io_tab d' = io_tab d /\ com1 d' = com1 d /\ uart d' = uart d /\
    ipis d' = (0, Z.lor (Z.lor BCAST INIT) LEVEL) :: ipis d.
Proof.
  intros El Hd. unfold lapicinit. rewrite El. destruct d as [ir it lp b ip p1 p2 co ua h]. cbn [lapic] in El. subst lp.
  assert (Hstep : forall r v l b i, r <> ICRLO -> lapicw delay r v (mk_devs ir it (Some l) b i p1 p2 co ua h) = mk_devs ir it (Some (upd_reg l r v)) b i p1 p2 co ua h).
  { intros r v l b' i Hr. unfold lapicw. cbn [lapic]. by destruct (Z.eqb_spec r ICRLO). }
  assert (Hicr : forall v l b i, lapicw delay ICRLO v (mk_devs ir it (Some l) b i p1 p2 co ua h) = mk_devs ir it (Some (upd_reg l ICRLO v)) delay ((upd_reg l ICRLO v ICRHI, v) :: i) p1 p2 co ua h) by done.
  cbv zeta. rewrite !Hstep by done. set (vf := Z.land (Z.shiftr (l0 VER) 16) 0xFF).
  destruct (Z.leb_spec 4 vf) as [Hv|Hv]; (rewrite !Hstep by done);
    (rewrite Hicr, lapic_wait_spec by done; cbn [rbind io_reg io_tab lapic ipis pic1 pic2 com1 uart havedisk1]; rewrite Hstep by done);
    (eexists _, _; split; [done|]; split; [done|]; split; [split; try reflexivity | by split_and!]); unfold vf in Hv; intros; lia.
Qed.

Lemma uartputs_spec st l k d : uart d = true -> dlab (com1 d) = false -> let d' := snd (uartputs st l (k, d)) in
  io_tab d' = io_tab d /\ lapic d' = lapic d /\ pic1 d' = pic1 d /\ pic2 d' = pic2 d /\ uart d' = true /\
  let s := com1 d in com1 d' = mk_serial (dll s) (dlm s) (ier s) (fcr s) (lcr s) (mcr s) (rev (u8 <$> l) ++ sent s).
Proof.
  revert k d. induction l as [|c l IH]; intros k d Hu Hd; cbn [uartputs]; [cbn; split_and!; auto; by destruct (com1 d)|].
  unfold uartputc. rewrite Hu. set (d1 := set_com1 _ _ _).
  assert (Hc : com1 d1 = let s := com1 d in mk_serial (dll s) (dlm s) (ier s) (fcr s) (lcr s) (mcr s) (u8 c :: sent s)).
  { unfold d1. cbn [set_com1 com1]. destruct (com1 d) as [a b i f lc m o] eqn:E. unfold outb_com1. cbn [Z.eqb]. by rewrite Hd. }
  destruct (IH (uart_poll st 128 k) d1) as (H1 & H2 & H3 & H4 & H5 & H6); [done | unfold dlab in *; by rewrite Hc|]. rewrite H1, H2, H3, H4, H5, H6, Hc. cbn [fmap list_fmap rev]. split_and!; auto. cbn. by rewrite <- app_assoc.
Qed.

Lemma idewait_spec st fuel b k j : (j < fuel)%nat -> Z.land (st (k + j)%nat) (Z.lor IDE_BSY IDE_DRDY) = IDE_DRDY -> exists r k', idewait st fuel b k = Ok (r, k').
Proof.
  revert k j. induction fuel as [|f IH]; intros k j Hj Hr; [lia|]. cbn [idewait]. destruct (Z.eqb_spec (Z.land (st k) (Z.lor IDE_BSY IDE_DRDY)) IDE_DRDY) as [|Hne]; [destruct (_ && _); eauto|].
  destruct j as [|j]; [by rewrite Nat.add_0_r in Hr|]. apply (IH (S k) j); [lia|]. by replace (S k + j)%nat with (k + S j)%nat by lia.
Qed.

(** The port as uartinit programs it: 9600 baud, eight bits, no parity, receive interrupts. *)
Definition com1_ready (s : serial) : Prop := dll s + 256 * dlm s = 115200 / 9600 /\ lcr s = 0x03 /\ ier s = 0x01.

Lemma uartinit_spec st d : let d' := uartinit st d in
  lapic d' = lapic d /\ pic1 d' = pic1 d /\ pic2 d' = pic2 d /\ com1_ready (com1 d') /\
  (forall r, io_tab d' r = if st 0%nat =? 0xFF then io_tab d r else io_tab (ioapicenable IRQ_COM1 0 d) r) /\
  (uart d = false -> uart d' = negb (st 0%nat =? 0xFF)) /\ (st 0%nat <> 0xFF -> exists s0, sent (com1 d') = rev hello ++ sent s0 /\ sent s0 = sent (com1 d)).
Proof.
  unfold uartinit. destruct (com1 d) as [a b i f lc m o] eqn:E. cbn [outb_com1 Z.eqb Pos.eqb].
  set (s1 := outb_com1 1 0x01 _). assert (Hs1 : s1 = mk_serial 12 0 1 0 3 0 o) by reflexivity. clearbody s1. subst s1. destruct (Z.eqb_spec (st 0%nat) 0xFF) as [Hf|Hf].
  - cbn. split_and!; auto; [by unfold com1_ready | done].
  - match goal with |- context [uartputs st hello (1%nat, ?x)] => set (d1 := x) end. destruct (uartputs_spec st hello 1 d1) as (H1 & H2 & H3 & H4 & H5 & H6); [done | done|]. cbv zeta in H6.
    rewrite H1, H2, H3, H4, H5, H6. split_and!; auto; [by unfold com1_ready|]. intros _. exists (mk_serial a b i f lc m o). done.
Qed.

Definition maxintr (d : devs) : Z := Z.land (Z.shiftr (io_tab d REG_VER) 16) 0xFF.

(** The redirection table at the end of the set-up. *)
Definition table_ready (d0 d : devs) (com : bool) (ncpu : Z) : Prop :=
  forall i, 0 <= i <= maxintr d0 ->
    io_tab d (REG_TABLE + 2 * i) = (if (i =? IRQ_KBD) || (i =? IRQ_IDE) || (com && (i =? IRQ_COM1)) then T_IRQ0 + i else Z.lor INT_DISABLED (T_IRQ0 + i)) /\
    io_tab d (REG_TABLE + 2 * i + 1) = (if i =? IRQ_IDE then u32 (Z.shiftl (ncpu - 1) 24) else 0).

Lemma table_spec d0 d1 com ide fuel ncpu j : IRQ_IDE <= maxintr d1 -> (j < fuel)%nat -> Z.land (ide j) (Z.lor IDE_BSY IDE_DRDY) = IDE_DRDY -> io_tab d1 = io_tab d0 ->
  exists d', ideinit ide fuel ncpu (uartinit com (consoleinit (ioapicinit (picinit d1)))) = Ok d' /\ lapic d' = lapic d1 /\ pic1 d' = 0xFF /\ pic2 d' = 0xFF /\ com1_ready (com1 d') /\
    table_ready d0 d' (negb (com 0%nat =? 0xFF)) ncpu.
Proof.
  intros Hmax Hj Hr Et. set (d2 := ioapicinit (picinit d1)).
  assert (H2 : lapic d2 = lapic d1 /\ pic1 d2 = 0xFF /\ pic2 d2 = 0xFF /\ forall i, 0 <= i <= maxintr d0 -> io_tab d2 (REG_TABLE + 2 * i) = Z.lor INT_DISABLED (T_IRQ0 + i) /\ io_tab d2 (REG_TABLE + 2 * i + 1) = 0).
  { unfold d2, ioapicinit, ioapicread. cbn [set_io io_tab io_reg picinit]. rewrite Et. fold (maxintr d0). match goal with |- context [ioapic_loop ?n 0 ?x] => destruct (ioapic_loop_spec n 0 x ltac:(lia)) as (A & B & _) end.
    destruct A as (A1 & _ & _ & A4 & A5 & _). cbv zeta in *. rewrite A1, A4, A5. split_and!; try done. intros i Hi. apply B. lia. }
  clearbody d2. destruct H2 as (E1 & E2 & E3 & H2). set (d3 := consoleinit d2). destruct (uartinit_spec com d3) as (U1 & U2 & U3 & U4 & U5 & _). set (d4 := uartinit com d3) in *. clearbody d4.
  unfold ideinit. destruct (idewait_spec ide fuel false 0 j Hj Hr) as (r & k & ->). cbn [rbind]. eexists. split; [done|]. split; [exact (eq_trans U1 E1)|]. split; [exact (eq_trans U2 E2)|]. split; [exact (eq_trans U3 E3)|]. split; [exact U4|].
  intros i Hi. destruct (H2 i Hi) as (Ha & Hb).
  assert (Ht : forall x, io_tab (ioapicenable IRQ_IDE (ncpu - 1) d4) x = if x =? REG_TABLE + 2 * IRQ_IDE + 1 then u32 (Z.shiftl (ncpu - 1) 24) else if x =? REG_TABLE + 2 * IRQ_IDE then T_IRQ0 + IRQ_IDE else
    if com 0%nat =? 0xFF then io_tab d3 x else io_tab (ioapicenable IRQ_COM1 0 d3) x) by (intros x; rewrite ioapicenable_tab, U5; done).
  cbn [io_tab]. rewrite !Ht, !ioapicenable_tab. unfold d3, consoleinit. rewrite !ioapicenable_tab, Ha, Hb.
  change (u32 (Z.shiftl 0 24)) with 0. unfold IRQ_IDE, IRQ_KBD, IRQ_COM1, REG_TABLE. destruct (com 0%nat =? 255); cbn [negb andb]; rewrite ?orb_false_r; split; zcases; try lia; try done; by f_equal.
Qed.

Lemma route_ready d0 d com ncpu i : table_ready d0 d com ncpu -> 0 <= i <= maxintr d0 -> 1 <= ncpu <= 256 ->
  io_route d i = if (i =? IRQ_KBD) || (i =? IRQ_IDE) || (com && (i =? IRQ_COM1)) then Some (T_IRQ0 + i, if i =? IRQ_IDE then ncpu - 1 else 0) else None.
Proof.
  intros Ht Hi Hn. destruct (Ht i Hi) as (E1 & E2). unfold io_route. rewrite E1, E2. destruct ((i =? IRQ_KBD) || (i =? IRQ_IDE) || (com && (i =? IRQ_COM1))) eqn:Eb.
  - assert (Hcase : i = 1 \/ i = 14 \/ i = 4) by (unfold IRQ_KBD, IRQ_IDE, IRQ_COM1 in *; destruct (Z.eqb_spec i 1), (Z.eqb_spec i 14), (Z.eqb_spec i 4); auto; destruct com; done).
    assert (Hsh : Z.shiftr (u32 (Z.shiftl (ncpu - 1) 24)) 24 = ncpu - 1).
    { rewrite Z.shiftl_mul_pow2, Z.shiftr_div_pow2 by lia. unfold u32. rewrite Z.mod_small by lia. apply Z.div_mul. lia. }
    destruct Hcase as [->|[->| ->]]; cbn -[u32 Z.shiftl Z.shiftr]; rewrite ?Hsh; done.
  - rewrite Z.lor_spec. change (Z.testbit INT_DISABLED 16) with true. done.
Qed.

Lemma lvt_ready l0 l v : lapic_ready l0 l -> (exists r, r ∈ local_sources l /\ lvt l r = Some v) <-> v = T_IRQ0 + IRQ_TIMER \/ v = T_IRQ0 + IRQ_ERROR.
Proof.
  intros Hl. assert (E1 : lvt l TIMER = Some 32) by (unfold lvt; rewrite (lr_timer _ _ Hl); reflexivity). assert (E2 : lvt l ERROR = Some 51) by (unfold lvt; rewrite (lr_error _ _ Hl); reflexivity).
  assert (E3 : lvt l LINT0 = None) by (unfold lvt; rewrite (lr_lint0 _ _ Hl); reflexivity). assert (E4 : lvt l LINT1 = None) by (unfold lvt; rewrite (lr_lint1 _ _ Hl); reflexivity).
  assert (E5 : 4 <= Z.land (Z.shiftr (l VER) 16) 0xFF -> lvt l PCINT = None) by (intros H; unfold lvt; rewrite (lr_pcint _ _ Hl); [reflexivity | by rewrite <- (lr_ver _ _ Hl)]).
  change (T_IRQ0 + IRQ_TIMER) with 32. change (T_IRQ0 + IRQ_ERROR) with 51. unfold local_sources. split.
  - intros (r & Hin & Hr). rewrite elem_of_app, !elem_of_cons, elem_of_nil in Hin. destruct Hin as [[->|[->|[->|[->|[]]]]]|Hin]; [rewrite E1 in Hr; injection Hr as <-; by left | congruence | congruence | rewrite E2 in Hr; injection Hr as <-; by right|].
    destruct (Z.leb_spec 4 (Z.land (Z.shiftr (l VER) 16) 0xFF)) as [H4|H4]; [|by apply elem_of_nil in Hin]. apply list_elem_of_singleton in Hin. subst r. rewrite E5 in Hr by done. done.
  - intros [->| ->]; [exists TIMER | exists ERROR]; (split; [rewrite elem_of_app, !elem_of_cons; tauto | done]).
Qed.

Lemma raises_ready d0 d l0 l com ncpu c v : table_ready d0 d com ncpu -> lapic d = Some l -> lapic_ready l0 l -> pic1 d = 0xFF -> pic2 d = 0xFF -> 1 <= ncpu <= 256 -> IRQ_IDE <= maxintr d0 ->
  raises d (maxintr d0) c v <-> v ∈ [T_IRQ0 + IRQ_TIMER; T_IRQ0 + IRQ_ERROR; T_IRQ0 + IRQ_SPURIOUS] \/ (v = T_IRQ0 + IRQ_KBD /\ c = 0) \/ (v = T_IRQ0 + IRQ_COM1 /\ c = 0 /\ com = true) \/ (v = T_IRQ0 + IRQ_IDE /\ c = ncpu - 1).
Proof.
  intros Ht El Hl Hp1 Hp2 Hn Hm. unfold raises. assert (Hsvr : Z.land (l SVR) 0xFF = T_IRQ0 + IRQ_SPURIOUS) by (rewrite (lr_svr _ _ Hl); reflexivity).
  assert (Hio : (exists i, 0 <= i <= maxintr d0 /\ io_route d i = Some (v, c)) <-> (v = T_IRQ0 + IRQ_KBD /\ c = 0) \/ (v = T_IRQ0 + IRQ_COM1 /\ c = 0 /\ com = true) \/ (v = T_IRQ0 + IRQ_IDE /\ c = ncpu - 1)).
  { split.
    - intros (i & Hi & E). rewrite (route_ready d0 d com ncpu i Ht Hi Hn) in E. destruct (Z.eqb_spec i IRQ_KBD) as [->|N1]; [injection E as <- <-; by left|].
      destruct (Z.eqb_spec i IRQ_IDE) as [->|N2]; [injection E as <- <-; by right; right|]. destruct com, (Z.eqb_spec i IRQ_COM1) as [->|N3]; try done. injection E as <- <-. right. by left.
    - assert (Hi : forall i, i = 1 \/ i = 4 \/ i = 14 -> 0 <= i <= maxintr d0) by (unfold IRQ_IDE in Hm; lia).
      intros [[-> ->]|[[-> [-> Ec]]|[-> ->]]]; [exists IRQ_KBD | exists IRQ_COM1 | exists IRQ_IDE]; (split; [apply Hi; auto|]); rewrite (route_ready d0 d com ncpu _ Ht) by auto; [reflexivity | by rewrite Ec | reflexivity]. }
  rewrite Hio, !elem_of_cons, elem_of_nil. split.
  - intros [H|[(l' & E' & H)|[H|H]]]; [tauto | | done | done]. rewrite El in E'. injection E' as <-. rewrite (lvt_ready l0 l v Hl), Hsvr in H. intuition congruence.
  - intros [[H|[H|[H|[]]]]|H]; [right; left; exists l; split; [done|]; left; apply (lvt_ready l0 l v Hl); auto..| |left; tauto]. right. left. exists l. split; [done|]. right. congruence.
Qed.

(** C25: The interrupts of the booted machine.  The set-up in main() completes;
    then the machine raises the timer, the APIC error and the spurious
    interrupt on every CPU, the keyboard and, if there is one, the serial port
    on CPU 0, the disk on the last CPU, and no other; the serial port runs at
    9600 baud.  All of them except the APIC error are among the interrupts that
    trap() has a case for, the ones [interrupts_safe] is about, whatever the
    mode they find the CPU in. *)
Theorem boot_interrupts delay com ide fuel ncpu d l0 j : lapic d = Some l0 -> (delay < fuel)%nat -> IRQ_IDE <= maxintr d -> 1 <= ncpu <= 256 ->
  (j < fuel)%nat -> Z.land (ide j) (Z.lor IDE_BSY IDE_DRDY) = IDE_DRDY ->
  exists d', main_devices delay com ide fuel ncpu d = Ok d' /\ com1_ready (com1 d') /\
    (forall c v, raises d' (maxintr d) c v <->
      v ∈ [T_IRQ0 + IRQ_TIMER; T_IRQ0 + IRQ_ERROR; T_IRQ0 + IRQ_SPURIOUS] \/ (v = T_IRQ0 + IRQ_KBD /\ c = 0) \/ (v = T_IRQ0 + IRQ_COM1 /\ c = 0 /\ com 0%nat <> 0xFF) \/ (v = T_IRQ0 + IRQ_IDE /\ c = ncpu - 1)) /\
    (forall c v me tf, raises d' (maxintr d) c v -> v <> T_IRQ0 + IRQ_ERROR -> tf_trapno tf = v -> expected me tf).
Proof.
  intros El Hd Hm Hn Hj Hr. unfold main_devices. destruct (lapicinit_spec delay fuel d l0 El Hd) as (d1 & l & -> & El1 & Hl & Et & _). cbn [rbind].
  destruct (table_spec d d1 com ide fuel ncpu j) as (d' & -> & El' & Hp1 & Hp2 & Hc & Ht); auto; [unfold maxintr in *; by rewrite Et|]. exists d'. split; [done|]. split; [done|].
  assert (Hiff : forall c v, raises d' (maxintr d) c v <-> v ∈ [T_IRQ0 + IRQ_TIMER; T_IRQ0 + IRQ_ERROR; T_IRQ0 + IRQ_SPURIOUS] \/ (v = T_IRQ0 + IRQ_KBD /\ c = 0) \/ (v = T_IRQ0 + IRQ_COM1 /\ c = 0 /\ com 0%nat <> 0xFF) \/ (v = T_IRQ0 + IRQ_IDE /\ c = ncpu - 1)).
  { intros c v. rewrite (raises_ready d d' l0 l _ ncpu c v Ht) by (auto; congruence). by destruct (Z.eqb_spec (com 0%nat) 0xFF); naive_solver. }
  split; [exact Hiff|]. intros c v me tf Hra Hne Htf. apply Hiff in Hra. left. rewrite Htf. rewrite !elem_of_cons, elem_of_nil in *. naive_solver.
Qed.

(** trap() has no case for the APIC error interrupt: on a CPU without a process it panics. *)
Lemma apic_error_panics tf ev t : machine_ok t -> tf_trapno tf = T_IRQ0 + IRQ_ERROR -> trap_irq None tf ev t = Panic "trap".
Proof. intros Ht E. apply unexpected_panics; [done|]. rewrite E. rewrite <- (bool_decide_eq_false (_ ∈ _)). reflexivity. Qed.

(** The interrupts lapicstartap sends: INIT, its end, and STARTUP twice. *)
Lemma lapicstartap_ipis delay apicid addr m d l : lapic d = Some l ->
  let dest := u32 (Z.shiftl apicid 24) in
  exists d' l', lapicstartap delay apicid addr m d = ([(0x70, 0xF); (0x71, 0x0A)], st16 (st16 m 0x80000467 0) 0x80000469 (Z.shiftr addr 4), d') /\ lapic d' = Some l' /\
    ipis d' = [(dest, Z.lor STARTUP (Z.shiftr addr 12)); (dest, Z.lor STARTUP (Z.shiftr addr 12)); (dest, Z.lor INIT LEVEL); (dest, Z.lor (Z.lor INIT LEVEL) ASSERT)] ++ ipis d.
Proof.
  intros El dest. unfold lapicstartap. destruct d as [ir it lp b ip p1 p2 co ua h]. cbn [lapic] in El. subst lp.
  eexists _, _. split; [reflexivity|]. split; [reflexivity|]. cbn [app]. reflexivity.
Qed.

Definition ex_lapic : Z -> Z := fun r => if r =? VER then 0x00050014 else 0.
Definition ex_devs : devs := mk_devs 0 (fun r => if r =? REG_VER then 0x00170011 else 0) (Some ex_lapic) 0 [] 0 0 (mk_serial 0 0 0 0 0 0 []) false false.

Lemma boot_interrupts_witness : exists d', main_devices 3 (fun _ => 0x60) (fun k => if (k <? 2)%nat then 0x80 else 0x50) 10 2 ex_devs = Ok d' /\ raises d' 23 1 46.
Proof.
  destruct (boot_interrupts 3 (fun _ => 0x60) (fun k => if (k <? 2)%nat then 0x80 else 0x50) 10 2 ex_devs ex_lapic 2) as (d' & E & _ & H & _);
    [reflexivity | lia | vm_compute; congruence | lia | lia | reflexivity|].
  exists d'. split; [exact E|]. change 23 with (maxintr ex_devs). apply H. right. right. right. split; reflexivity.
Defined.
