(* ===== verification/Main.v ===== *)
(** * Starting the processors (src/main.c: startothers, mpenter, entrypgdir; src/entry.S, src/entryother.S)

    The page directory both entry paths run on, the registers they load, and
    the boot processor's loop that gives every other processor a stack and
    waits for it.  A processor reads its three words after the startup
    interrupts and before it reports that it has started, and the loop goes on
    only then; that is the only interleaving, so it is part of the loop. *)

From S2P Require Import Prelude Layout StringLib Kalloc Spinlock Proc Trap Seg Devices.

(** ** entrypgdir *)

Definition PTE_PS : Z := 0x080.

Definition entrypgdir (i : Z) : Z :=
  if i =? 0 then Z.lor (Z.lor (Z.lor 0 PTE_P) PTE_W) PTE_PS
  else if i =? Z.shiftr KERNBASE PDXSHIFT then Z.lor (Z.lor (Z.lor 0 PTE_P) PTE_W) PTE_PS
  else 0.

(** Translation with 4-Mbyte pages: the physical address and whether it is writable. *)
Definition xlate_pse (pgdir : Z -> Z) (va : Z) : option (Z * bool) :=
  let pde := pgdir (PDX va) in
  if (Z.land pde PTE_P =? 0) || (Z.land pde PTE_PS =? 0) then None
  else Some (Z.land pde 0xFFC00000 + va mod 2 ^ 22, negb (Z.land pde PTE_W =? 0)).

(** ** Entry code *)

Definition CR0_PE : Z := 0x00000001.
Definition CR0_WP : Z := 0x00010000.
Definition CR0_PG : Z := 0x80000000.
Definition CR4_PSE : Z := 0x00000010.

Record cregs := mk_cregs { c_cr0 : Z; c_cr3 : Z; c_cr4 : Z; c_esp : Z; c_eip : Z }.

(** entry.S: [pgdir], [stack] and [main] are the addresses the linker gives. *)
Definition entry_S (pgdir stack main : Z) (r : cregs) : cregs :=
  let r := mk_cregs (c_cr0 r) (c_cr3 r) (Z.lor (c_cr4 r) CR4_PSE) (c_esp r) (c_eip r) in
  let r := mk_cregs (c_cr0 r) (V2P pgdir) (c_cr4 r) (c_esp r) (c_eip r) in
  let r := mk_cregs (Z.lor (c_cr0 r) (Z.lor CR0_PG CR0_WP)) (c_cr3 r) (c_cr4 r) (c_esp r) (c_eip r) in
  mk_cregs (c_cr0 r) (c_cr3 r) (c_cr4 r) (stack + KSTACKSIZE) main.

(** entryother.S from [start32] on: three words below [start]. *)
Definition entryother_S (start : Z) (m : mem) (r : cregs) : cregs :=
  let r := mk_cregs (Z.lor (c_cr0 r) CR0_PE) (c_cr3 r) (Z.lor (c_cr4 r) CR4_PSE) (c_esp r) (c_eip r) in
  let r := mk_cregs (c_cr0 r) (ld32 m (start - 12)) (c_cr4 r) (c_esp r) (c_eip r) in
  let r := mk_cregs (Z.lor (c_cr0 r) (Z.lor (Z.lor CR0_PE CR0_PG) CR0_WP)) (c_cr3 r) (c_cr4 r) (c_esp r) (c_eip r) in
  mk_cregs (c_cr0 r) (c_cr3 r) (c_cr4 r) (ld32 m (start - 4)) (ld32 m (start - 8)).

(** ** startothers *)

Section startothers.
Context (kend pgdir mpenter : Z) (delay : nat) (reset : cregs).   (* addresses of the kernel's end, entrypgdir, mpenter; registers after INIT *)

Definition CODE : Z := P2V 0x7000.

(** One other CPU: the three words, the startup, and the registers it comes up with. *)
Definition startap (apicid : Z) (k : kmem) (d : devs) : cregs * kmem * devs :=
  let (stack, k) := kalloc k in
  let m := st32 (kram k) (CODE - 4) (u32 (stack + KSTACKSIZE)) in
  let m := st32 m (CODE - 8) mpenter in
  let m := st32 m (CODE - 12) (V2P pgdir) in
  let '(_, m, d) := lapicstartap delay apicid (V2P CODE) m d in
  let up := entryother_S CODE m reset in
  (up, mk_kmem (use_lock k) (freelist k) m, d).

(** [cpus] are the APIC ids, [me] the index of the boot processor. *)
Fixpoint startothers_loop (cpus : list Z) (c me : nat) (k : kmem) (d : devs) : list cregs * kmem * devs :=
  match cpus with
  | [] => ([], k, d)
  | a :: l =>
      if (c =? me)%nat then startothers_loop l (S c) me k d
      else
        let '(up, k, d) := startap a k d in
        let '(ups, k, d) := startothers_loop l (S c) me k d in
        (up :: ups, k, d)
  end.

(** [image] is the address of entryother's code. *)
Definition startothers (image size : Z) (cpus : list Z) (me : nat) (k : kmem) (d : devs) : list cregs * kmem * devs :=
  let m := memmove (kram k) CODE image size in
  startothers_loop cpus 0 me (mk_kmem (use_lock k) (freelist k) m) d.
End startothers.

(** mpenter() and mpmain(), up to the call of scheduler(). *)
Definition mpmain (idt : Z) (h : cpuhw) : cpuhw := idtinit idt h.
Definition mpenter_main (delay fuel : nat) (kpgdir gdt idt : Z) (h : cpuhw) (d : devs) : res (cpuhw * devs) :=
  let h := switchkvm kpgdir h in
  let h := seginit gdt h in
  let* d := lapicinit delay fuel d in
  Ok (mpmain idt h, d).

(** ** The first mapping *)

(** The boot page directory maps the first four megabytes twice, and nothing else. *)
Lemma entrypgdir_maps va : 0 <= va < 2 ^ 32 ->
  xlate_pse entrypgdir va = if decide (va < 2 ^ 22) then Some (va, true) else if decide (KERNBASE <= va < KERNBASE + 2 ^ 22) then Some (va - KERNBASE, true) else None.
Proof.
  intros Hva. unfold xlate_pse, entrypgdir. assert (Hp : PDX va = va / 2 ^ 22).
  { unfold PDX. rewrite Z.shiftr_div_pow2 by (unfold PDXSHIFT; lia). change 0x3FF with (Z.ones 10). rewrite Z.land_ones by lia. apply Z.mod_small. unfold PDXSHIFT. split; [apply Z.div_pos; lia | apply Z.div_lt_upper_bound; lia]. }
  rewrite Hp. change (Z.shiftr KERNBASE PDXSHIFT) with 512. unfold KERNBASE. change (2 ^ 22) with 4194304 in *. change (2 ^ 32) with 4294967296 in *.
  pose proof (Z.div_mod va 4194304 ltac:(lia)) as Hdm. pose proof (Z.mod_pos_bound va 4194304 ltac:(lia)) as Hb. set (q := va / 4194304) in *. set (r := va mod 4194304) in *.
  destruct (Z.eqb_spec q 0) as [E|E]; [|destruct (Z.eqb_spec q 512) as [E2|E2]]; repeat case_decide; try lia; try reflexivity; (match goal with |- context [Some (?x + r, _)] => change x with 0 end); do 2 f_equal; lia.
Qed.

(** ** Every other processor comes up on a stack of its own *)

Section started.
Context (kend pgdir mpenter : Z) (delay : nat) (reset : cregs).
Context (Hkend : KERNLINK <= kend) (Hmp : 0 <= mpenter < 2 ^ 32).

(** The registers a processor enters mpenter() with. *)
Definition ap_regs (stack : Z) : cregs :=
  mk_cregs (Z.lor (Z.lor (c_cr0 reset) CR0_PE) (Z.lor (Z.lor CR0_PE CR0_PG) CR0_WP)) (V2P pgdir) (Z.lor (c_cr4 reset) CR4_PSE) (stack + KSTACKSIZE) mpenter.

(** The startup sequence for one processor, the last interrupt first. *)
Definition ap_ipis (apicid : Z) : list (Z * Z) :=
  let dest := u32 (Z.shiftl apicid 24) in
  [(dest, Z.lor STARTUP 7); (dest, Z.lor STARTUP 7); (dest, Z.lor INIT LEVEL); (dest, Z.lor (Z.lor INIT LEVEL) ASSERT)].

Lemma startap_spec apicid k d v l lr : kinv kend k (v :: l) -> lapic d = Some lr ->
  exists k' d' lr', startap pgdir mpenter delay reset apicid k d = (ap_regs v, k', d') /\ kinv kend k' l /\ lapic d' = Some lr' /\ ipis d' = ap_ipis apicid ++ ipis d.
Proof.
  intros Hk El. unfold startap. destruct (kalloc_pop kend k v l Hk) as (-> & Hk1). set (k1 := mk_kmem _ _ _) in *.
  assert (Hv : KERNLINK <= v < KERNBASE + PHYSTOP) by (destruct Hk as (_ & _ & Hp & _); inversion Hp as [|? ? (_ & H1 & H2)]; lia).
  set (m := st32 (st32 (st32 _ _ _) _ _) _ _). destruct (lapicstartap_ipis delay apicid (V2P CODE) m d lr El) as (d' & lr' & E & El' & Hi). rewrite E.
  set (m2 := st16 (st16 m _ _) _ _). eexists _, d', lr'. change (Z.shiftr (V2P CODE) 12) with 7 in Hi. split; [|split; [|split; [exact El' | exact Hi]]].
  - unfold ap_regs. f_equal. f_equal. unfold entryother_S. cbn [c_cr0 c_cr3 c_cr4].
    assert (Hm2 : forall a, 0x80006000 <= a -> ld32 m2 a = ld32 m a) by (intros a Ha; apply ld32_ext; intros x Hx; unfold m2; rewrite !st16_other by lia; done).
    change CODE with 0x80007000. rewrite !Hm2 by lia. unfold m. change CODE with 0x80007000. unfold KERNLINK, KERNBASE, EXTMEM, PHYSTOP, KSTACKSIZE in *.
    rewrite ld32_st32_same. rewrite (ld32_st32_other _ (0x80007000 - 12) _ (0x80007000 - 4)) by lia. rewrite (ld32_st32_other _ (0x80007000 - 8) _ (0x80007000 - 4)) by lia. rewrite ld32_st32_same.
    rewrite (ld32_st32_other _ (0x80007000 - 12) _ (0x80007000 - 8)) by lia. rewrite ld32_st32_same. rewrite !(u32_small (v + 4096)), (u32_small mpenter) by lia.
    unfold V2P. rewrite (u32_small (u32 _)) by (unfold u32; apply Z.mod_pos_bound; lia). done.
  - apply (kinv_frame kend k1 l m2 Hk1).
    + unfold m2, m. repeat first [apply byte_mem_st16 | apply byte_mem_st32]. apply Hk1.
    + intros u x Hu Hx. assert (KERNLINK <= u) by (destruct Hk1 as (_ & _ & Hp & _); rewrite Forall_forall in Hp; destruct (Hp u Hu) as (_ & H1 & _); lia).
      unfold KERNLINK, KERNBASE, EXTMEM in *. unfold m2, m. change CODE with 0x80007000. rewrite !st16_other by lia. rewrite !st32_other by lia. done.
Qed.

(** The APIC ids of the processors to start. *)
Fixpoint others (cpus : list Z) (c me : nat) : list Z :=
  match cpus with [] => [] | a :: l => if (c =? me)%nat then others l (S c) me else a :: others l (S c) me end.

Lemma startothers_loop_spec cpus c me k d l lr : kinv kend k l -> lapic d = Some lr -> (length (others cpus c me) <= length l)%nat ->
  exists k' d', startothers_loop pgdir mpenter delay reset cpus c me k d = (ap_regs <$> take (length (others cpus c me)) l, k', d') /\
    kinv kend k' (drop (length (others cpus c me)) l) /\ ipis d' = mjoin (reverse (ap_ipis <$> others cpus c me)) ++ ipis d.
Proof.
  revert c k d l lr. induction cpus as [|a cpus IH]; intros c k d l lr Hk El Hlen; cbn [startothers_loop others].
  - exists k, d. cbn. rewrite drop_0. done.
  - cbn [others] in Hlen. destruct (c =? me)%nat; [by apply (IH _ _ _ _ lr)|]. destruct l as [|v l]; [cbn in Hlen; lia|]. cbn [length] in Hlen.
    destruct (startap_spec a k d v l lr Hk El) as (k1 & d1 & lr1 & -> & Hk1 & El1 & Hi1). destruct (IH (S c) k1 d1 l lr1 Hk1 El1 ltac:(lia)) as (k2 & d2 & E & Hk2 & Hi2). exists k2, d2. rewrite E. cbn [length take drop fmap list_fmap].
    split; [done|]. split; [done|]. rewrite Hi2, Hi1, reverse_cons, join_app, app_assoc. done.
Qed.

(** C27: Startothers starts every processor but its own, each with the INIT and
    two STARTUP interrupts that make it run the code at 0x7000, and each comes
    up in mpenter() with paging on entrypgdir and on a stack page of its own:
    the stacks are different pages taken off the free list, and the rest of the
    free list is intact. *)
Theorem startothers_spec image size cpus me k d l lr : kinv kend k l -> lapic d = Some lr -> (length (others cpus 0 me) <= length l)%nat -> 0 <= size <= PGSIZE -> 0 <= image < 2 ^ 32 - PGSIZE ->
  let n := length (others cpus 0 me) in
  exists k' d', startothers pgdir mpenter delay reset image size cpus me k d = (ap_regs <$> take n l, k', d') /\
    NoDup (take n l) /\ kinv kend k' (drop n l) /\ ipis d' = mjoin (reverse (ap_ipis <$> others cpus 0 me)) ++ ipis d.
Proof.
  intros Hk El Hlen Hs Him n. unfold PGSIZE in *. unfold startothers. set (k1 := mk_kmem _ _ _).
  assert (Hmv : forall x, memmove (kram k) CODE image size x = mcopy (kram k) CODE (kram k) image size x) by (intros x; apply memmove_copy; change CODE with 0x80007000; lia).
  assert (Hk1 : kinv kend k1 l).
  { apply (kinv_frame kend k l _ Hk).
    - intros a. rewrite Hmv. unfold mcopy. destruct (_ && _); apply Hk.
    - intros u x Hu Hx. assert (KERNLINK <= u) by (destruct Hk as (_ & _ & Hp & _); rewrite Forall_forall in Hp; destruct (Hp u Hu) as (_ & H1 & _); lia).
      rewrite Hmv, mcopy_out; [done|]. change CODE with 0x80007000. unfold KERNLINK, KERNBASE, EXTMEM, PGSIZE in *. lia. }
  destruct (startothers_loop_spec cpus 0 me k1 d l lr Hk1 El Hlen) as (k' & d' & E & Hk' & Hi). exists k', d'. split; [exact E|]. split; [|split; [exact Hk' | exact Hi]].
  destruct Hk as (_ & Hnd & _). rewrite <- (take_drop n l) in Hnd. by apply NoDup_app in Hnd as [Hnd _].
Qed.
End started.

Definition ex_kmem : kmem := mk_kmem false kend0 (kfree_mem (kram kmem0) kend0 0).

Lemma ex_kmem_inv : kinv kend0 ex_kmem [kend0].
Proof. apply (kfree_push kend0 kmem0 [] kend0 kinv0 page0_ok). apply not_elem_of_nil. Qed.

Lemma startothers_spec_witness : exists ups k' d', startothers 0x80109000 0x80103000 2 (mk_cregs 0x10 0 0 0 0) 0x80100000 100 [0; 1] 0 ex_kmem ex_devs = (ups, k', d') /\
  ups = [ap_regs 0x80109000 0x80103000 (mk_cregs 0x10 0 0 0 0) kend0] /\ ipis d' = ap_ipis 1.
Proof.
  destruct (startothers_spec kend0 0x80109000 0x80103000 2 (mk_cregs 0x10 0 0 0 0) ltac:(vm_compute; congruence) ltac:(lia) 0x80100000 100 [0; 1] 0 ex_kmem ex_devs [kend0] ex_lapic ex_kmem_inv) as (k' & d' & E & _ & _ & Hi);
    [reflexivity | cbn; lia | vm_compute; intuition congruence | vm_compute; intuition congruence|].
  eexists _, k', d'. split; [exact E|]. split; [reflexivity | exact Hi].
Defined.
