(* ===== verification/Bootmain.v ===== *)
(** * The boot loader (src/bootmain.c)

    bootmain() on a disk given byte by byte, whose first sector is the boot
    block and whose kernel image starts at sector 1.  The memory is physical.
    waitdisk() polls until the disk is ready and is left out. *)

From S2P Require Import Prelude Layout Exec.

Definition SECTSIZE : Z := 512.
Definition ELFHDR : Z := 0x10000.

Section bootmain.
Context (disk : mem).

(** The sector the four address ports select. *)
Definition lba (offset : Z) : Z :=
  u8 offset + 2 ^ 8 * u8 (Z.shiftr offset 8) + 2 ^ 16 * u8 (Z.shiftr offset 16) + 2 ^ 24 * Z.land (Z.lor (Z.shiftr offset 24) 0xE0) 0xF.

Definition readsect (dst offset : Z) (m : mem) : mem := mcopy m dst disk (SECTSIZE * lba offset) SECTSIZE.

(** [for(; pa < epa; pa += SECTSIZE, offset++) readsect(pa, offset);] *)
Fixpoint readseg_loop (fuel : nat) (pa epa offset : Z) (m : mem) : res mem :=
  match fuel with
  | O => Blocked
  | S f => if pa <? epa then readseg_loop f (u32 (pa + SECTSIZE)) epa (u32 (offset + 1)) (readsect pa offset m) else Ok m
  end.

Definition readseg (pa count offset : Z) (m : mem) : res mem :=
  let epa := u32 (pa + count) in
  let pa := u32 (pa - offset mod SECTSIZE) in
  let offset := offset / SECTSIZE + 1 in
  readseg_loop (Z.to_nat (count / SECTSIZE + 3)) pa epa offset m.

(** The members of a program header the loader reads. *)
Record bph := mk_bph { b_off : Z; b_paddr : Z; b_filesz : Z; b_memsz : Z }.
Definition bph_at (m : mem) (a : Z) : bph := mk_bph (ld32 m (a + 4)) (ld32 m (a + 12)) (ld32 m (a + 16)) (ld32 m (a + 20)).

(** One program segment. *)
Definition load_seg (p : bph) (m : mem) : res mem :=
  let pa := b_paddr p in
  let* m := readseg pa (b_filesz p) (b_off p) m in
  Ok (if b_filesz p <? b_memsz p then mfill m (u32 (pa + b_filesz p)) (b_memsz p - b_filesz p) 0 else m).

Fixpoint load_segs (n : nat) (ph : Z) (m : mem) : res mem :=
  match n with
  | O => Ok m
  | S n' =>
      let* m := load_seg (bph_at m ph) m in
      load_segs n' (ph + 32) m
  end.

(** The entry point it jumps to, or nothing when there is no ELF image. *)
Definition bootmain (m : mem) : res (option Z * mem) :=
  let* m := readseg ELFHDR 4096 0 m in
  let elf := elf_get (fun a => m (ELFHDR + a)) in
  if negb (e_magic elf =? ELF_MAGIC) then Ok (None, m)
  else
    let* m := load_segs (Z.to_nat (e_phnum elf)) (ELFHDR + e_phoff elf) m in
    Ok (Some (ld32 m (ELFHDR + 24)), m).

(** ** Reading *)

(** Byte [b] of the kernel image. *)
Definition image (b : Z) : Z := disk (SECTSIZE + b).

Lemma lba_small o : 0 <= o < 2 ^ 28 -> lba o = o.
Proof.
  intros H. unfold lba. assert (E : Z.land (Z.lor (Z.shiftr o 24) 0xE0) 0xF = Z.shiftr o 24).
  { assert (H' : forall n, (n < 16)%nat -> Z.land (Z.lor (Z.of_nat n) 0xE0) 0xF = Z.of_nat n) by (intros n Hn; do 16 (destruct n as [|n]; [reflexivity|]); lia).
    rewrite Z.shiftr_div_pow2 by lia. assert (0 <= o / 2 ^ 24 < 16) by (split; [apply Z.div_pos; lia | apply Z.div_lt_upper_bound; lia]). rewrite <- (Z2Nat.id (o / 2 ^ 24)) by lia. apply H'. lia. }
  rewrite E. rewrite !Z.shiftr_div_pow2 by lia. unfold u8. change (2 ^ 8) with 256. change (2 ^ 16) with 65536. change (2 ^ 24) with 16777216. change (2 ^ 28) with 268435456 in H. zdiv.
Qed.

(** The number of sectors a read of [count] bytes from [offset] takes. *)
Definition nsect (count offset : Z) : Z := (offset mod SECTSIZE + count + SECTSIZE - 1) / SECTSIZE.

Lemma readseg_loop_spec n fuel pa epa o m : (n < fuel)%nat -> 0 <= pa -> pa + SECTSIZE * Z.of_nat n < 2 ^ 32 -> 0 <= o -> o + Z.of_nat n < 2 ^ 28 ->
  epa <= pa + SECTSIZE * Z.of_nat n -> (n <> 0%nat -> pa + SECTSIZE * (Z.of_nat n - 1) < epa) ->
  exists m', readseg_loop fuel pa epa o m = Ok m' /\ forall x, m' x = if (pa <=? x) && (x <? pa + SECTSIZE * Z.of_nat n) then disk (SECTSIZE * o + (x - pa)) else m x.
Proof.
  unfold SECTSIZE. revert fuel pa o m. induction n as [|n IH]; intros fuel pa o m Hf Hpa Hw Ho Ho2 He1 He2; destruct fuel as [|f]; try lia; cbn [readseg_loop].
  - destruct (Z.ltb_spec pa epa); [lia|]. exists m. split; [done|]. intros x. zcases; try lia; done.
  - destruct (Z.ltb_spec pa epa); [|lia]. unfold SECTSIZE. rewrite !u32_small by lia.
    destruct (IH f (pa + 512) (o + 1) (readsect pa o m)) as (m' & E & Hm); try lia. exists m'. split; [exact E|]. intros x. rewrite Hm. unfold readsect, SECTSIZE, mcopy. rewrite lba_small by lia.
    zcases; try lia; try done; f_equal; lia.
Qed.
(** The memory a read of [count] bytes at [offset] to [pa] writes: whole sectors. *)
Definition seg_lo (pa offset : Z) : Z := pa - offset mod SECTSIZE.
Definition seg_hi (pa count offset : Z) : Z := seg_lo pa offset + SECTSIZE * nsect count offset.

Lemma readseg_spec pa count offset m : 0 <= pa - offset mod SECTSIZE -> 0 <= count -> pa + count + SECTSIZE < 2 ^ 32 -> 0 <= offset -> offset + count < 2 ^ 36 ->
  exists m', readseg pa count offset m = Ok m' /\ forall x, m' x = if (seg_lo pa offset <=? x) && (x <? seg_hi pa count offset) then image (offset + (x - pa)) else m x.
Proof.
  intros Hr Hc Hw Ho Hoc. unfold readseg, seg_hi, seg_lo, nsect, image in *. unfold SECTSIZE in *. change (2 ^ 36) with 68719476736 in Hoc. change (2 ^ 32) with 4294967296 in Hw.
  pose proof (Z.mod_pos_bound offset 512 ltac:(lia)) as Hm. pose proof (Z.div_mod offset 512 ltac:(lia)) as Hdm. set (r := offset mod 512) in *. set (q := offset / 512) in *.
  set (n := (r + count + 512 - 1) / 512). assert (Hn : 0 <= n /\ 512 * n <= r + count + 511 < 512 * n + 512) by (unfold n; zdiv).
  assert (Hf : n < count / 512 + 3) by (unfold n; zdiv). rewrite !u32_small by lia.
  destruct (readseg_loop_spec (Z.to_nat n) (Z.to_nat (count / 512 + 3)) (pa - r) (pa + count) (q + 1) m) as (m' & E & Hx); unfold SECTSIZE; rewrite ?Z2Nat.id by lia; try lia.
  exists m'. split; [exact E|]. intros x. rewrite Hx. unfold SECTSIZE. rewrite Z2Nat.id by lia. destruct (_ && _); [|done]. f_equal. lia.
Qed.

(** ** Loading *)

(** A segment of the image whose addresses do not wrap around. *)
Record seg_ok (p : bph) : Prop := {
  so_lo : 0 <= b_paddr p - b_off p mod SECTSIZE;
  so_sizes : 0 <= b_filesz p <= b_memsz p;
  so_hi : b_paddr p + b_memsz p + SECTSIZE < 2 ^ 32;
  so_off : 0 <= b_off p /\ b_off p + b_filesz p < 2 ^ 36
}.

(** What loading a segment writes, and what the segment is. *)
Definition writes (p : bph) (x : Z) : Prop := seg_lo (b_paddr p) (b_off p) <= x < Z.max (seg_hi (b_paddr p) (b_filesz p) (b_off p)) (b_paddr p + b_memsz p).
Definition loaded (p : bph) (m : mem) : Prop :=
  forall x, 0 <= x < b_memsz p -> m (b_paddr p + x) = if x <? b_filesz p then image (b_off p + x) else 0.

Lemma load_seg_spec p m : seg_ok p -> exists m', load_seg p m = Ok m' /\ loaded p m' /\ forall x, ~ writes p x -> m' x = m x.
Proof.
  intros [H1 H2 H3 [H4 H5]]. destruct (readseg_spec (b_paddr p) (b_filesz p) (b_off p) m H1 ltac:(lia) ltac:(lia) H4 H5) as (m1 & E & Hm). unfold load_seg. rewrite E. cbn [rbind]. eexists. split; [done|].
  pose proof (Z.mod_pos_bound (b_off p) SECTSIZE ltac:(unfold SECTSIZE; lia)) as Hr.
  assert (Hhi : b_paddr p + b_filesz p <= seg_hi (b_paddr p) (b_filesz p) (b_off p)).
  { unfold seg_hi, seg_lo, nsect. unfold SECTSIZE in *. pose proof (Z.mod_pos_bound (b_off p mod 512 + b_filesz p + 512 - 1) 512 ltac:(lia)). pose proof (Z.div_mod (b_off p mod 512 + b_filesz p + 512 - 1) 512 ltac:(lia)). lia. }
  assert (Hlo : seg_lo (b_paddr p) (b_off p) <= b_paddr p) by (unfold seg_lo; lia). unfold SECTSIZE in H3. rewrite u32_small by lia. split.
  - intros x Hx. destruct (Z.ltb_spec (b_filesz p) (b_memsz p)); destruct (Z.ltb_spec x (b_filesz p)); try lia.
    + rewrite mfill_out, Hm by lia. zcases; try lia. f_equal. lia.
    + rewrite mfill_in by lia. done.
    + rewrite Hm. zcases; try lia. f_equal. lia.
  - intros x Hx. unfold writes in Hx. assert (Hout : m1 x = m x) by (rewrite Hm; zcases; try lia; done). destruct (b_filesz p <? b_memsz p); [|done]. rewrite mfill_out by lia. done.
Qed.
(** Segments that leave the header page alone, and each the ones before it: what
    the comment in readseg means by loading in increasing order. *)
Record segs_ok (phs : list bph) : Prop := {
  sg_ok p : p ∈ phs -> seg_ok p;
  sg_hdr p x : p ∈ phs -> writes p x -> x < ELFHDR \/ ELFHDR + 4096 <= x;
  sg_order i j p q x : (i < j)%nat -> phs !! i = Some p -> phs !! j = Some q -> writes q x -> x < b_paddr p \/ b_paddr p + b_memsz p <= x
}.

Lemma segs_ok_tail p phs : segs_ok (p :: phs) -> segs_ok phs.
Proof.
  intros [H1 H2 H3]. split.
  - intros q Hq. apply H1. by apply list_elem_of_further.
  - intros q x Hq. apply H2. by apply list_elem_of_further.
  - intros i j q r x Hij Hi Hj. apply (H3 (S i) (S j)); [lia | done | done].
Qed.

Lemma bph_at_ext m m' a : (forall x, a <= x < a + 32 -> m' x = m x) -> bph_at m' a = bph_at m a.
Proof. intros H. unfold bph_at. f_equal; apply ld32_ext; intros x Hx; apply H; lia. Qed.

Lemma load_segs_spec phs ph m : segs_ok phs -> (forall i p, phs !! i = Some p -> bph_at m (ph + 32 * Z.of_nat i) = p) -> ELFHDR <= ph -> ph + 32 * Z.of_nat (length phs) <= ELFHDR + 4096 ->
  exists m', load_segs (length phs) ph m = Ok m' /\ (forall p, p ∈ phs -> loaded p m') /\ (forall x, (forall p, p ∈ phs -> ~ writes p x) -> m' x = m x).
Proof.
  revert ph m. induction phs as [|p phs IH]; intros ph m Hs Hph Hlo Hhi; cbn [length load_segs].
  - exists m. split; [done|]. split; [intros p Hp; by apply elem_of_nil in Hp | done].
  - assert (Ep : bph_at m ph = p) by (specialize (Hph 0%nat p eq_refl); by replace (ph + 32 * Z.of_nat 0) with ph in Hph by lia). rewrite Ep.
    destruct (load_seg_spec p m) as (m1 & -> & Hl & Hout); [apply (sg_ok _ Hs); apply list_elem_of_here|]. cbn [rbind]. cbn [length] in Hhi.
    destruct (IH (ph + 32) m1) as (m2 & E & Hl2 & Hout2); [by eapply segs_ok_tail | | lia | lia|].
    + intros i q Hq. rewrite <- (Hph (S i) q Hq). replace (ph + 32 + 32 * Z.of_nat i) with (ph + 32 * Z.of_nat (S i)) by lia. apply bph_at_ext. intros x Hx. apply Hout. intros Hw.
      pose proof (lookup_lt_Some _ _ _ Hq). pose proof (sg_hdr _ Hs p x (list_elem_of_here _ _) Hw). lia.
    + exists m2. split; [exact E|]. split.
      * intros q Hq. apply elem_of_cons in Hq as [->|Hq]; [|by apply Hl2]. intros x Hx. rewrite Hout2; [by apply Hl|]. intros q Hq Hw. apply list_elem_of_lookup in Hq as [j Hj].
        pose proof (sg_order _ Hs 0 (S j) p q (b_paddr p + x) ltac:(lia) eq_refl Hj Hw). lia.
      * intros x Hx. rewrite Hout2 by (intros q Hq; apply Hx; by apply list_elem_of_further). apply Hout, Hx, list_elem_of_here.
Qed.

(** The program headers of the image on the disk. *)
Definition image_phs : list bph := (fun i => bph_at image (e_phoff (elf_get image) + 32 * Z.of_nat i)) <$> seq 0 (Z.to_nat (e_phnum (elf_get image))).

(** The boot loader loads the kernel.  When the image on the disk from
    sector 1 on is an ELF file whose headers are in its first 4096 bytes, and its
    segments are in increasing order in the sense of segs_ok, bootmain()
    completes, jumps to the entry point of the header, and every segment is in
    memory at its physical address: its bytes from the file, then zeros. *)
Theorem bootmain_loads m : let elf := elf_get image in
  e_magic elf = ELF_MAGIC -> 0 <= e_phnum elf -> 0 <= e_phoff elf -> e_phoff elf + 32 * e_phnum elf <= 4096 -> segs_ok image_phs ->
  exists m', bootmain m = Ok (Some (e_entry elf), m') /\ forall p, p ∈ image_phs -> loaded p m'.
Proof.
  intros elf Hmag Hn Hp Hfit Hs. unfold bootmain. destruct (readseg_spec ELFHDR 4096 0 m) as (m1 & -> & Hm1); [vm_compute; congruence | lia | vm_compute; congruence | lia | lia|]. cbn [rbind].
  assert (Hin : forall x, 0 <= x < 4096 -> m1 (ELFHDR + x) = image x).
  { intros x Hx. rewrite Hm1. change (seg_lo ELFHDR 0) with ELFHDR. change (seg_hi ELFHDR 4096 0) with (ELFHDR + 4096). zcases; try lia. f_equal. lia. }
  assert (Eelf : elf_get (fun a => m1 (ELFHDR + a)) = elf) by (unfold elf, elf_get, ld32, ld16; by rewrite !Hin by lia). rewrite Eelf, Hmag, Z.eqb_refl. cbn [negb].
  assert (Hbph : forall a, 0 <= a -> a + 32 <= 4096 -> bph_at m1 (ELFHDR + a) = bph_at image a) by (intros a H1 H2; unfold bph_at, ld32; rewrite <- !Z.add_assoc, !Hin by lia; rewrite ?Z.add_assoc; done).
  destruct (load_segs_spec image_phs (ELFHDR + e_phoff elf) m1 Hs) as (m2 & E & Hl & Hout).
  - intros i p Hi. unfold image_phs in Hi. rewrite list_lookup_fmap in Hi. destruct (seq 0 (Z.to_nat (e_phnum (elf_get image))) !! i) as [j|] eqn:Ej; [|done]. cbn in Hi. injection Hi as <-. apply lookup_seq in Ej as [-> Hj]. fold elf in Hj.
    cbn [Nat.add]. change (ld32 image 28) with (e_phoff elf). rewrite <- Z.add_assoc. apply Hbph; lia.
  - lia.
  - unfold image_phs. rewrite length_fmap, length_seq. fold elf. lia.
  - assert (Hlen : length image_phs = Z.to_nat (e_phnum elf)) by (unfold image_phs; by rewrite length_fmap, length_seq). rewrite Hlen in E. rewrite E. cbn [rbind]. exists m2. split; [|exact Hl].
    do 3 f_equal. unfold elf, elf_get, ld32. cbn [e_entry]. rewrite !Hout by (intros p Hp' Hw; pose proof (sg_hdr _ Hs p _ Hp' Hw); lia). rewrite <- !Z.add_assoc, !Hin by lia. done.
Qed.
End bootmain.

(** A disk with a kernel of two segments, the first with zeros at its end. *)
Definition ex_disk : mem :=
  let st l m := fold_right (fun p m => st32 m (SECTSIZE + fst p) (snd p)) m l in
  st [(0, ELF_MAGIC); (24, 0x10000C); (28, 52); (44, 2);
      (52 + 4, 4096); (52 + 12, 0x100000); (52 + 16, 5); (52 + 20, 600);
      (84 + 4, 8192); (84 + 12, 0x101000); (84 + 16, 3); (84 + 20, 3);
      (4096, 0x11223344); (4100, 0x55); (8192, 0x778899)] (fun _ => 0).

Lemma ex_phs : image_phs ex_disk = [mk_bph 4096 0x100000 5 600; mk_bph 8192 0x101000 3 3].
Proof. vm_compute. reflexivity. Qed.

Lemma ex_segs_ok : segs_ok (image_phs ex_disk).
Proof.
  rewrite ex_phs. split.
  - intros p. rewrite !elem_of_cons, elem_of_nil. intros [->|[->|[]]]; split; vm_compute; intuition congruence.
  - intros p x. rewrite !elem_of_cons, elem_of_nil. intros [->|[->|[]]] Hw; unfold writes, ELFHDR in *; cbn [b_paddr b_off b_filesz b_memsz] in Hw.
    + change (seg_lo 0x100000 4096) with 0x100000 in Hw. lia.
    + change (seg_lo 0x101000 8192) with 0x101000 in Hw. lia.
  - intros i j p q x Hij Hi Hj Hw. destruct i as [|[|i]], j as [|[|j]]; try lia; try done. injection Hi as <-. injection Hj as <-. unfold writes in Hw. cbn [b_paddr b_off b_filesz b_memsz] in *.
    change (seg_lo 0x101000 8192) with 0x101000 in Hw. lia.
Qed.

Lemma bootmain_loads_witness : exists m', bootmain ex_disk (fun _ => 0xCC) = Ok (Some 0x10000C, m') /\ m' 0x100000 = 0x44 /\ m' 0x100005 = 0 /\ m' 0x101000 = 0x99.
Proof.
  destruct (bootmain_loads ex_disk (fun _ => 0xCC)) as (m' & E & H); [vm_compute; reflexivity | vm_compute; congruence | vm_compute; congruence | vm_compute; congruence | exact ex_segs_ok|].
  exists m'. split; [exact E|]. rewrite ex_phs in H. split; [|split].
  - exact (H _ (list_elem_of_here _ _) 0 ltac:(cbn; lia)).
  - exact (H _ (list_elem_of_here _ _) 5 ltac:(cbn; lia)).
  - exact (H _ (list_elem_of_further _ _ _ (list_elem_of_here _ _)) 0 ltac:(cbn; lia)).
Defined.
