(* ===== verification/Bootasm.v ===== *)
(** * The assembly before C (src/bootasm.S, src/entryother.S, src/entry.S)

    The processor as it is started: real mode, then protected mode with the
    boot descriptors, then paging.  A segment register keeps what was loaded
    with its selector; the keyboard controller, which opens address line A20,
    takes a byte only when it is not busy.  The code is a list of instructions and
    jumps go to positions in it. *)

From S2P Require Import Prelude Layout Spinlock Proc Trap Exec Seg X86 Kalloc Main Bootmain.

Inductive creg := CR0 | CR3 | CR4.

Inductive binstr :=
| Cli
| Xorw_ax                          (* xorw %ax,%ax *)
| Movw_ax (v : Z)                  (* movw $v,%ax *)
| Movw_dx                          (* movw %ax,%dx *)
| Movw_seg (s : sreg)              (* movw %ax,%s *)
| Movb_al (v : Z)                  (* movb $v,%al *)
| Inb (port : Z) | Outb (port : Z) (* %al *)
| Outw                             (* outw %ax,%dx *)
| Testb (v : Z)                    (* testb $v,%al *)
| Jnz (l : nat)
| Lgdt (size base : Z)             (* the two fields of the operand *)
| Movl_from_cr (c : creg) | Movl_to_cr (c : creg)   (* with %eax *)
| Orl_eax (v : Z) | Movl_eax (v : Z) | Movl_esp (v : Z)
| Movl_load_eax (a : Z) | Movl_load_esp (a : Z)
| Ljmp (sel : Z) (l : nat)
| Bcall (a : Z) | Bcall_mem (a : Z) | Bjmp_eax
| Bjmp (l : nat).

(** What a segment register holds beside its selector. *)
Inductive seg_cache := Real (base : Z) | Desc (bits : Z) | Null.

(** The keyboard controller: the status reads for which it stays busy, the command
    that waits for its data byte, line A20, and whether it has reset the machine. *)
Record kbc := mk_kbc { kbusy : nat; kcmd : Z; a20 : bool; kreset : bool }.

Record early := mk_early {
  b_eax : Z; b_dx : Z; b_zf : bool; b_if : bool;
  b_cr : cregs;                       (* control registers, %esp, and the address control has left to *)
  b_seg : sreg -> seg_cache;
  b_gdtr : Z * Z;
  b_kbc : kbc;
  b_pc : nat; b_gone : bool           (* position in the code; whether control has left it *)
}.

Definition getcr (r : cregs) (c : creg) : Z := match c with CR0 => c_cr0 r | CR3 => c_cr3 r | CR4 => c_cr4 r end.
Definition setcr (r : cregs) (c : creg) (v : Z) : cregs :=
  match c with
  | CR0 => mk_cregs v (c_cr3 r) (c_cr4 r) (c_esp r) (c_eip r)
  | CR3 => mk_cregs (c_cr0 r) v (c_cr4 r) (c_esp r) (c_eip r)
  | CR4 => mk_cregs (c_cr0 r) (c_cr3 r) v (c_esp r) (c_eip r)
  end.
Definition set_cesp (r : cregs) (v : Z) : cregs := mk_cregs (c_cr0 r) (c_cr3 r) (c_cr4 r) v (c_eip r).
Definition set_ceip (r : cregs) (v : Z) : cregs := mk_cregs (c_cr0 r) (c_cr3 r) (c_cr4 r) (c_esp r) v.

Definition set_eax (v : Z) (s : early) : early := mk_early v (b_dx s) (b_zf s) (b_if s) (b_cr s) (b_seg s) (b_gdtr s) (b_kbc s) (b_pc s) (b_gone s).
Definition set_cr (r : cregs) (s : early) : early := mk_early (b_eax s) (b_dx s) (b_zf s) (b_if s) r (b_seg s) (b_gdtr s) (b_kbc s) (b_pc s) (b_gone s).
Definition set_kbc (k : kbc) (s : early) : early := mk_early (b_eax s) (b_dx s) (b_zf s) (b_if s) (b_cr s) (b_seg s) (b_gdtr s) k (b_pc s) (b_gone s).
Definition set_pc (l : nat) (s : early) : early := mk_early (b_eax s) (b_dx s) (b_zf s) (b_if s) (b_cr s) (b_seg s) (b_gdtr s) (b_kbc s) l (b_gone s).
Definition set_seg (r : sreg) (c : seg_cache) (s : early) : early :=
  mk_early (b_eax s) (b_dx s) (b_zf s) (b_if s) (b_cr s) (fun x => if bool_decide (x = r) then c else b_seg s x) (b_gdtr s) (b_kbc s) (b_pc s) (b_gone s).
Definition set_misc (dx : Z) (zf ifl : bool) (g : Z * Z) (s : early) : early := mk_early (b_eax s) dx zf ifl (b_cr s) (b_seg s) g (b_kbc s) (b_pc s) (b_gone s).
Definition leave (a : Z) (s : early) : early := mk_early (b_eax s) (b_dx s) (b_zf s) (b_if s) (set_ceip (b_cr s) a) (b_seg s) (b_gdtr s) (b_kbc s) (b_pc s) true.

Section early.
Context (ram : Z -> Z).              (* the byte at a linear address *)
Context (delay : nat) (junk : Z).    (* how long the controller stays busy; the other bits of its status *)

Definition kbc_status (k : kbc) : Z * kbc :=
  match kbusy k with
  | O => (Z.land (u8 junk) 0xFD, k)
  | S n => (Z.lor (u8 junk) 2, mk_kbc n (kcmd k) (a20 k) (kreset k))
  end.

(** A byte written while the controller is busy is lost. *)
Definition kbc_out (port v : Z) (k : kbc) : kbc :=
  match kbusy k with
  | S _ => k
  | O =>
      if port =? 0x64 then mk_kbc delay v (a20 k) (kreset k)
      else if (port =? 0x60) && (kcmd k =? 0xd1) then mk_kbc delay 0 (Z.testbit v 1) (kreset k || negb (Z.testbit v 0))
      else mk_kbc delay (kcmd k) (a20 k) (kreset k)
  end.

(** The descriptor at a selector of the table [b_gdtr] names. *)
Definition gdt_desc (g : Z * Z) (sel : Z) : option Z :=
  let a := 8 * (sel / 8) in
  if fst g <? a + 7 then None else Some (ld32 ram (snd g + a) + 2 ^ 32 * ld32 ram (snd g + a + 4)).

Definition load_sreg (r : sreg) (sel : Z) (s : early) : res early :=
  if Z.land (c_cr0 (b_cr s)) CR0_PE =? 0 then Ok (set_seg r (Real (16 * sel)) s)
  else if sel / 8 =? 0 then match r with CS | SS => Panic "general protection" | _ => Ok (set_seg r Null s) end
  else match gdt_desc (b_gdtr s) sel with
       | None => Panic "general protection"
       | Some x => if (hw_p x =? 1) && (hw_s x =? 1) then Ok (set_seg r (Desc x) s) else Panic "general protection"
       end.

Definition bexec (i : binstr) (s0 : early) : res early :=
  let s := set_pc (S (b_pc s0)) s0 in
  match i with
  | Cli => Ok (set_misc (b_dx s) (b_zf s) false (b_gdtr s) s)
  | Xorw_ax => Ok (set_misc (b_dx s) true (b_if s) (b_gdtr s) (set_eax (b_eax s / 2 ^ 16 * 2 ^ 16) s))
  | Movw_ax v => Ok (set_eax (b_eax s / 2 ^ 16 * 2 ^ 16 + v) s)
  | Movw_dx => Ok (set_misc (u16 (b_eax s)) (b_zf s) (b_if s) (b_gdtr s) s)
  | Movw_seg r => load_sreg r (u16 (b_eax s)) s
  | Movb_al v => Ok (set_eax (b_eax s / 2 ^ 8 * 2 ^ 8 + v) s)
  | Inb port =>
      if port =? 0x64 then let (v, k) := kbc_status (b_kbc s) in Ok (set_eax (b_eax s / 2 ^ 8 * 2 ^ 8 + v) (set_kbc k s)) else Panic "port"
  | Outb port => Ok (set_kbc (kbc_out port (u8 (b_eax s)) (b_kbc s)) s)
  | Outw => Ok s
  | Testb v => Ok (set_misc (b_dx s) (Z.land (u8 (b_eax s)) v =? 0) (b_if s) (b_gdtr s) s)
  | Jnz l => Ok (if b_zf s then s else set_pc l s)
  | Lgdt size base => Ok (set_misc (b_dx s) (b_zf s) (b_if s) (size, base) s)
  | Movl_from_cr c => Ok (set_eax (getcr (b_cr s) c) s)
  | Movl_to_cr c => Ok (set_cr (setcr (b_cr s) c (b_eax s)) s)
  | Orl_eax v => Ok (set_misc (b_dx s) (Z.lor (b_eax s) v =? 0) (b_if s) (b_gdtr s) (set_eax (Z.lor (b_eax s) v) s))
  | Movl_eax v => Ok (set_eax v s)
  | Movl_esp v => Ok (set_cr (set_cesp (b_cr s) v) s)
  | Movl_load_eax a => Ok (set_eax (ld32 ram a) s)
  | Movl_load_esp a => Ok (set_cr (set_cesp (b_cr s) (ld32 ram a)) s)
  | Ljmp sel l => let* s := load_sreg CS sel s in Ok (set_pc l s)
  | Bcall a => Ok (leave a (set_cr (set_cesp (b_cr s) (u32 (c_esp (b_cr s) - 4))) s))
  | Bcall_mem a => Ok (leave (ld32 ram a) (set_cr (set_cesp (b_cr s) (u32 (c_esp (b_cr s) - 4))) s))
  | Bjmp_eax => Ok (leave (b_eax s) s)
  | Bjmp l => Ok (set_pc l s)
  end.

Fixpoint brun (n : nat) (code : list binstr) (s : early) : res early :=
  match n with
  | O => Ok s
  | S n' =>
      if b_gone s then Ok s
      else match code !! b_pc s with Some i => let* s := bexec i s in brun n' code s | None => Blocked end
  end.
End early.

(** ** The three sources *)

Definition boot_gdt : list Z := [0; SEG_ASM (Z.lor STA_X STA_R) 0 0xffffffff; SEG_ASM STA_W 0 0xffffffff].

(** [start] is the address of the code, [gdt] that of its descriptors. *)
Definition bootasm_S (start gdt bootmain : Z) : list binstr :=
  [Cli; Xorw_ax; Movw_seg DS; Movw_seg ES; Movw_seg SS;
   (* 5: seta20.1 *) Inb 0x64; Testb 0x2; Jnz 5; Movb_al 0xd1; Outb 0x64;
   (* 10: seta20.2 *) Inb 0x64; Testb 0x2; Jnz 10; Movb_al 0xdf; Outb 0x60;
   Lgdt 23 gdt; Movl_from_cr CR0; Orl_eax CR0_PE; Movl_to_cr CR0;
   Ljmp (Z.shiftl SEG_KCODE 3) 20;
   (* 20: start32 *) Movw_ax (Z.shiftl SEG_KDATA 3); Movw_seg DS; Movw_seg ES; Movw_seg SS; Movw_ax 0; Movw_seg FS; Movw_seg GS;
   Movl_esp start; Bcall bootmain;
   Movw_ax 0x8a00; Movw_dx; Outw; Movw_ax 0x8ae0; Outw; (* 34: spin *) Bjmp 34].

Definition entryother_code (start gdt : Z) : list binstr :=
  [Cli; Xorw_ax; Movw_seg DS; Movw_seg ES; Movw_seg SS;
   Lgdt 23 gdt; Movl_from_cr CR0; Orl_eax CR0_PE; Movl_to_cr CR0;
   Ljmp (Z.shiftl SEG_KCODE 3) 10;
   (* 10: start32 *) Movw_ax (Z.shiftl SEG_KDATA 3); Movw_seg DS; Movw_seg ES; Movw_seg SS; Movw_ax 0; Movw_seg FS; Movw_seg GS;
   Movl_from_cr CR4; Orl_eax CR4_PSE; Movl_to_cr CR4;
   Movl_load_eax (start - 12); Movl_to_cr CR3;
   Movl_from_cr CR0; Orl_eax (Z.lor (Z.lor CR0_PE CR0_PG) CR0_WP); Movl_to_cr CR0;
   Movl_load_esp (start - 4); Bcall_mem (start - 8);
   Movw_ax 0x8a00; Movw_dx; Outw; Movw_ax 0x8ae0; Outw; (* 32: spin *) Bjmp 32].

Definition entry_code (pgdir stack main : Z) : list binstr :=
  [Movl_from_cr CR4; Orl_eax CR4_PSE; Movl_to_cr CR4;
   Movl_eax (V2P pgdir); Movl_to_cr CR3;
   Movl_from_cr CR0; Orl_eax (Z.lor CR0_PG CR0_WP); Movl_to_cr CR0;
   Movl_esp (stack + KSTACKSIZE); Movl_eax main; Bjmp_eax].

(** ** Running it *)

Lemma low16 x v : 0 <= v < 2 ^ 16 -> u16 (x / 2 ^ 16 * 2 ^ 16 + v) = v.
Proof. intros H. unfold u16. rewrite Z.add_comm, Z.mod_add by lia. by apply Z.mod_small. Qed.
Lemma low8 x v : 0 <= v < 2 ^ 8 -> u8 (x / 2 ^ 8 * 2 ^ 8 + v) = v.
Proof. intros H. unfold u8. rewrite Z.add_comm, Z.mod_add by lia. by apply Z.mod_small. Qed.

Ltac bcbn := cbv beta iota zeta delta [bexec rbind set_eax set_cr set_kbc set_pc set_seg set_misc leave set_cesp set_ceip getcr setcr c_cr0 c_cr3 c_cr4 c_esp c_eip b_eax b_dx b_zf b_if b_cr b_seg b_gdtr b_kbc b_pc b_gone].

Section run.
Context (ram : Z -> Z) (delay : nat) (junk : Z).
Abbreviation go := (brun ram delay junk).

Lemma brun_add n m code s : go (n + m) code s = (let* s' := go n code s in go m code s').
Proof.
  revert s. induction n as [|n IH]; intros s; cbn [Nat.add brun rbind]; [done|]. destruct (b_gone s) eqn:E.
  - destruct m; cbn [brun rbind]; [done | by rewrite E].
  - destruct (code !! b_pc s) as [i|]; [|done]. destruct (bexec ram delay junk i s) as [s'| |]; cbn [rbind]; auto.
Qed.

Lemma brun_S n code s i : b_gone s = false -> code !! b_pc s = Some i -> go (S n) code s = (let* s' := bexec ram delay junk i s in go n code s').
Proof. intros Hg Hi. cbn [brun]. by rewrite Hg, Hi. Qed.

Lemma kbc_status_byte k : 0 <= fst (kbc_status junk k) < 2 ^ 8 /\ (Z.land (fst (kbc_status junk k)) 2 =? 0) = (kbusy k =? 0)%nat.
Proof.
  assert (Hj : 0 <= u8 junk < 2 ^ 8) by (unfold u8; apply Z.mod_pos_bound; lia). unfold kbc_status. destruct (kbusy k); cbn [fst Nat.eqb].
  - split.
    + split; [apply Z.land_nonneg; lia|]. apply Z.log2_lt_cancel. pose proof (Z.log2_land (u8 junk) 0xFD) as Hl. change (Z.log2 0xFD) with 7 in Hl. change (Z.log2 (2 ^ 8)) with 8. lia.
    + apply Z.eqb_eq. rewrite <- Z.land_assoc. change (Z.land 0xFD 2) with 0. apply Z.land_0_r.
  - split.
    + assert (H0 : 0 <= Z.lor (u8 junk) 2) by (apply Z.lor_nonneg; lia). split; [done|]. apply Z.log2_lt_cancel. rewrite Z.log2_lor by lia. change (Z.log2 (2 ^ 8)) with 8.
      apply Z.max_lub_lt; [|reflexivity]. destruct (Z.eq_dec (u8 junk) 0) as [->|]; [reflexivity|]. apply Z.log2_lt_pow2; lia.
    + apply Z.eqb_neq. intros E. assert (Hb : Z.testbit (Z.land (Z.lor (u8 junk) 2) 2) 1 = true) by (rewrite Z.land_spec, Z.lor_spec; by rewrite orb_true_r). by rewrite E in Hb.
Qed.

(** The loop at [p] waits until the controller is free. *)
Lemma a20_wait code p s : code !! p = Some (Inb 0x64) -> code !! S p = Some (Testb 0x2) -> code !! S (S p) = Some (Jnz p) ->
  b_gone s = false -> b_pc s = p ->
  exists n eax, go n code s = Ok (mk_early eax (b_dx s) true (b_if s) (b_cr s) (b_seg s) (b_gdtr s) (mk_kbc 0 (kcmd (b_kbc s)) (a20 (b_kbc s)) (kreset (b_kbc s))) (S (S (S p))) false).
Proof.
  intros H1 H2 H3. remember (kbusy (b_kbc s)) as b eqn:Eb. revert s Eb. induction b as [|b IH]; intros s Eb Hg Hp.
  - exists 3%nat, (b_eax s / 2 ^ 8 * 2 ^ 8 + Z.land (u8 junk) 0xFD). destruct (kbc_status_byte (b_kbc s)) as [Hr Hz]. destruct s as [ax dx zf fl cr sg g [kb kc ka kr] pc gone]. cbn [b_gone b_pc b_kbc kbusy] in *. subst pc gone kb. cbn [kbc_status fst kbusy Nat.eqb] in Hr, Hz.
    erewrite brun_S; [|done | exact H1]. bcbn. cbn [kbc_status kbusy Z.eqb Pos.eqb]. bcbn. erewrite brun_S; [|done | exact H2]. bcbn. rewrite low8, Hz by done.
    erewrite brun_S; [|done | exact H3]. bcbn. reflexivity.
  - destruct (kbc_status_byte (b_kbc s)) as [Hr Hz]. destruct s as [ax dx zf fl cr sg g [kb kc ka kr] pc gone]. cbn [b_gone b_pc b_kbc kbusy] in *. subst pc gone kb. cbn [kbc_status fst kbusy Nat.eqb] in Hr, Hz.
    set (s1 := mk_early (ax / 2 ^ 8 * 2 ^ 8 + Z.lor (u8 junk) 2) dx false fl cr sg g (mk_kbc b kc ka kr) p false).
    assert (E3 : go 3 code (mk_early ax dx zf fl cr sg g (mk_kbc (S b) kc ka kr) p false) = Ok s1).
    { erewrite brun_S; [|done | exact H1]. bcbn. cbn [kbc_status kbusy Z.eqb Pos.eqb]. bcbn. erewrite brun_S; [|done | exact H2]. bcbn. rewrite low8, Hz by done.
      erewrite brun_S; [|done | exact H3]. bcbn. reflexivity. }
    destruct (IH s1 eq_refl eq_refl eq_refl) as (n & eax & E). exists (3 + n)%nat, eax. rewrite brun_add, E3. cbn [rbind]. exact E.
Qed.

(** The boot descriptors are in memory at [gdt]. *)
Definition gdt_there (gdt : Z) : Prop := forall i x, boot_gdt !! i = Some x -> ld32 ram (gdt + 8 * Z.of_nat i) + 2 ^ 32 * ld32 ram (gdt + 8 * Z.of_nat i + 4) = x.

Definition KCODE_DESC : Z := SEG_ASM (Z.lor STA_X STA_R) 0 0xffffffff.
Definition KDATA_DESC : Z := SEG_ASM STA_W 0 0xffffffff.

Lemma load_code gdt s : gdt_there gdt -> b_gdtr s = (23, gdt) -> (Z.land (c_cr0 (b_cr s)) CR0_PE =? 0) = false -> load_sreg ram CS 8 s = Ok (set_seg CS (Desc KCODE_DESC) s).
Proof.
  intros Hg Hr Hp. unfold load_sreg. rewrite Hp, Hr. change (8 / 8 =? 0) with false. cbn iota. unfold gdt_desc. change (8 * (8 / 8)) with 8. cbn [fst snd]. change (23 <? 8 + 7) with false. cbn iota.
  pose proof (Hg 1%nat _ eq_refl) as E. change (8 * Z.of_nat 1) with 8 in E. rewrite E. reflexivity.
Qed.

Lemma load_data gdt r s : gdt_there gdt -> b_gdtr s = (23, gdt) -> (Z.land (c_cr0 (b_cr s)) CR0_PE =? 0) = false -> load_sreg ram r 16 s = Ok (set_seg r (Desc KDATA_DESC) s).
Proof.
  intros Hg Hr Hp. unfold load_sreg. rewrite Hp, Hr. change (16 / 8 =? 0) with false. cbn iota. unfold gdt_desc. change (8 * (16 / 8)) with 16. cbn [fst snd]. change (23 <? 16 + 7) with false. cbn iota.
  pose proof (Hg 2%nat _ eq_refl) as E. change (8 * Z.of_nat 2) with 16 in E. rewrite E. reflexivity.
Qed.

Lemma load_null r s : r = FS \/ r = GS -> (Z.land (c_cr0 (b_cr s)) CR0_PE =? 0) = false -> load_sreg ram r 0 s = Ok (set_seg r Null s).
Proof. intros Hr Hp. unfold load_sreg. rewrite Hp. change (0 / 8 =? 0) with true. cbn iota. destruct Hr; by subst. Qed.

Lemma pe_set x : (Z.land (Z.lor x CR0_PE) CR0_PE =? 0) = false.
Proof. apply Z.eqb_neq. intros E. assert (H : Z.testbit (Z.land (Z.lor x CR0_PE) CR0_PE) 0 = true) by (rewrite Z.land_spec, Z.lor_spec; by rewrite orb_true_r). by rewrite E in H. Qed.
End run.

(** The flat segments, with interrupts off. *)
Definition flat_segs (s : early) : Prop :=
  (exists x, b_seg s CS = Desc x /\ flat x (Z.lor STA_X STA_R) 0) /\
  (forall r, r = DS \/ r = ES \/ r = SS -> exists x, b_seg s r = Desc x /\ flat x STA_W 0) /\
  b_seg s FS = Null /\ b_seg s GS = Null /\ b_if s = false.

Lemma flat_desc t : 0 <= t < 16 -> flat (SEG_ASM t 0 0xffffffff) t 0.
Proof. intros H. rewrite SEG_ASM_SEG by lia. apply flat_SEG; lia. Qed.

(** Both sources go from real to protected mode with the same thirteen instructions. *)
Definition to_protected (gdt : Z) (p : nat) : list binstr :=
  [Lgdt 23 gdt; Movl_from_cr CR0; Orl_eax CR0_PE; Movl_to_cr CR0; Ljmp (Z.shiftl SEG_KCODE 3) (p + 5);
   Movw_ax (Z.shiftl SEG_KDATA 3); Movw_seg DS; Movw_seg ES; Movw_seg SS; Movw_ax 0; Movw_seg FS; Movw_seg GS].

Section run2.
Context (ram : Z -> Z) (delay : nat) (junk : Z) (gdt : Z) (Hgdt : gdt_there ram gdt).
Abbreviation go := (brun ram delay junk).

Lemma to_protected_runs code p s : (forall i x, to_protected gdt p !! i = Some x -> code !! (p + i)%nat = Some x) -> b_gone s = false -> b_pc s = p -> b_if s = false ->
  exists s', go 12 code s = Ok s' /\ flat_segs s' /\ b_gone s' = false /\ b_pc s' = (p + 12)%nat /\ b_cr s' = setcr (b_cr s) CR0 (Z.lor (c_cr0 (b_cr s)) CR0_PE) /\ b_kbc s' = b_kbc s.
Proof.
  intros Hc Hg Hp Hi. destruct s as [ax dx zf fl cr sg g k pc gone]. cbn [b_gone b_pc b_if b_cr b_kbc] in *. subst pc gone fl.
  assert (Hc' : forall i x, to_protected gdt p !! i = Some x -> code !! (i + p)%nat = Some x) by (intros i x H; rewrite Nat.add_comm; auto).
  erewrite brun_S; [|done | by apply (Hc' 0%nat)]. bcbn. erewrite brun_S; [|done | by apply (Hc' 1%nat)]. bcbn. erewrite brun_S; [|done | by apply (Hc' 2%nat)]. bcbn. erewrite brun_S; [|done | by apply (Hc' 3%nat)]. bcbn.
  erewrite brun_S; [|done | by apply (Hc' 4%nat)]. bcbn. change (Z.shiftl SEG_KCODE 3) with 8. rewrite (load_code ram gdt) by (first [exact Hgdt | reflexivity | apply pe_set | by left | by right]). bcbn. rewrite Nat.add_comm.
  erewrite brun_S; [|done | by apply (Hc' 5%nat)]. bcbn. change (Z.shiftl SEG_KDATA 3) with 16.
  erewrite brun_S; [|done | by apply (Hc' 6%nat)]. bcbn. rewrite low16 by lia. rewrite (load_data ram gdt) by (first [exact Hgdt | reflexivity | apply pe_set | by left | by right]). bcbn.
  erewrite brun_S; [|done | by apply (Hc' 7%nat)]. bcbn. rewrite low16 by lia. rewrite (load_data ram gdt) by (first [exact Hgdt | reflexivity | apply pe_set | by left | by right]). bcbn.
  erewrite brun_S; [|done | by apply (Hc' 8%nat)]. bcbn. rewrite low16 by lia. rewrite (load_data ram gdt) by (first [exact Hgdt | reflexivity | apply pe_set | by left | by right]). bcbn.
  erewrite brun_S; [|done | by apply (Hc' 9%nat)]. bcbn.
  erewrite brun_S; [|done | by apply (Hc' 10%nat)]. bcbn. rewrite low16 by lia. rewrite load_null by (first [exact Hgdt | reflexivity | apply pe_set | by left | by right]). bcbn.
  erewrite brun_S; [|done | by apply (Hc' 11%nat)]. bcbn. rewrite low16 by lia. rewrite load_null by (first [exact Hgdt | reflexivity | apply pe_set | by left | by right]). bcbn.
  cbn [brun]. eexists. split; [reflexivity|]. cbn [b_gone b_pc b_cr b_kbc]. split; [|split; [done|]; split; [lia | done]].
  split; [exists KCODE_DESC; split; [reflexivity | apply flat_desc; vm_compute; intuition congruence]|]. split; [|done].
  intros r Hr. exists KDATA_DESC. split; [destruct Hr as [->|[->| ->]]; reflexivity | apply flat_desc; vm_compute; intuition congruence].
Qed.

(** The boot processor reaches bootmain() in flat 32-bit segments, with line A20
    open and its stack below the boot block, however long the keyboard controller
    keeps it waiting. *)
Lemma bootasm_enters start bootmain s : 4 <= start < 2 ^ 32 -> b_gone s = false -> b_pc s = 0%nat -> kreset (b_kbc s) = false -> (Z.land (c_cr0 (b_cr s)) CR0_PE =? 0) = true ->
  exists n s', go n (bootasm_S start gdt bootmain) s = Ok s' /\ b_gone s' = true /\ flat_segs s' /\ a20 (b_kbc s') = true /\ kreset (b_kbc s') = false /\
    b_cr s' = mk_cregs (Z.lor (c_cr0 (b_cr s)) CR0_PE) (c_cr3 (b_cr s)) (c_cr4 (b_cr s)) (start - 4) bootmain.
Proof.
  intros Hst Hg Hp Hr Hpe. set (code := bootasm_S start gdt bootmain). destruct s as [ax dx zf fl cr sg g k pc gone]. cbn [b_gone b_pc b_if b_cr b_kbc] in *. subst pc gone.
  assert (E1 : exists s1, go 5 code (mk_early ax dx zf fl cr sg g k 0 false) = Ok s1 /\ b_gone s1 = false /\ b_pc s1 = 5%nat /\ b_if s1 = false /\ b_cr s1 = cr /\ b_kbc s1 = k).
  { unfold code. do 5 (erewrite brun_S; [|done | reflexivity]; bcbn; unfold load_sreg; bcbn; try (fold (c_cr0 cr); rewrite Hpe; bcbn)). cbn [brun]. by eexists. }
  destruct E1 as (s1 & E1 & Hg1 & Hp1 & Hi1 & Hc1 & Hk1).
  destruct (a20_wait ram delay junk code 5 s1 eq_refl eq_refl eq_refl Hg1 Hp1) as (n1 & ax1 & E2). rewrite Hi1, Hc1, Hk1 in E2.
  set (s2 := mk_early ax1 _ _ _ _ _ _ _ _ _) in E2.
  assert (E3 : exists s3, go 2 code s2 = Ok s3 /\ b_gone s3 = false /\ b_pc s3 = 10%nat /\ b_if s3 = false /\ b_cr s3 = cr /\ kcmd (b_kbc s3) = 0xd1 /\ kreset (b_kbc s3) = false).
  { unfold s2, code. do 2 (erewrite brun_S; [|done | reflexivity]; bcbn). cbn [brun]. eexists. split; [reflexivity|]. cbn [b_gone b_pc b_if b_cr b_kbc]. rewrite low8 by lia. done. }
  destruct E3 as (s3 & E3 & Hg3 & Hp3 & Hi3 & Hc3 & Hk3 & Hr3).
  destruct (a20_wait ram delay junk code 10 s3 eq_refl eq_refl eq_refl Hg3 Hp3) as (n2 & ax2 & E4). rewrite Hi3, Hc3, Hk3, Hr3 in E4.
  set (s4 := mk_early ax2 _ _ _ _ _ _ _ _ _) in E4.
  assert (E5 : exists s5, go 2 code s4 = Ok s5 /\ b_gone s5 = false /\ b_pc s5 = 15%nat /\ b_if s5 = false /\ b_cr s5 = cr /\ a20 (b_kbc s5) = true /\ kreset (b_kbc s5) = false).
  { unfold s4, code. do 2 (erewrite brun_S; [|done | reflexivity]; bcbn). cbn [brun]. eexists. split; [reflexivity|]. cbn [b_gone b_pc b_if b_cr b_kbc]. rewrite low8 by lia. done. }
  destruct E5 as (s5 & E5 & Hg5 & Hp5 & Hi5 & Hc5 & Ha5 & Hr5).
  destruct (to_protected_runs code 15 s5) as (s6 & E6 & Hf & Hg6 & Hp6 & Hc6 & Hk6); auto.
  { intros i x Hx. do 12 (destruct i as [|i]; [exact Hx|]). done. }
  assert (E7 : exists s7, go 2 code s6 = Ok s7 /\ b_gone s7 = true /\ b_seg s7 = b_seg s6 /\ b_if s7 = b_if s6 /\ b_kbc s7 = b_kbc s6 /\ b_cr s7 = mk_cregs (c_cr0 (b_cr s6)) (c_cr3 (b_cr s6)) (c_cr4 (b_cr s6)) (start - 4) bootmain).
  { unfold code. erewrite brun_S; [|done | by rewrite Hp6]. bcbn. erewrite brun_S; [|exact Hg6 | cbn [b_pc]; fold (b_pc s6); by rewrite Hp6]. bcbn. cbn [brun]. eexists. split; [reflexivity|]. cbn. rewrite u32_small by lia. done. }
  destruct E7 as (s7 & E7 & Hg7 & Hs7 & Hi7 & Hk7 & Hc7).
  exists (5 + (n1 + (2 + (n2 + (2 + (12 + 2))))))%nat, s7. split.
  { rewrite brun_add, E1. cbn [rbind]. rewrite brun_add, E2. cbn [rbind]. rewrite brun_add, E3. cbn [rbind]. rewrite brun_add, E4. cbn [rbind]. rewrite brun_add, E5. cbn [rbind]. rewrite brun_add, E6. cbn [rbind]. exact E7. }
  split; [done|]. split; [unfold flat_segs in *; by rewrite Hs7, Hi7|]. rewrite Hk7, Hk6, Hc7, Hc6, Hc5. done.
Qed.

(** The other processors reach mpenter() in flat segments with the registers that
    [entryother_S] gives, less the return address of the call. *)
Lemma entryother_enters start s : b_gone s = false -> b_pc s = 0%nat -> (Z.land (c_cr0 (b_cr s)) CR0_PE =? 0) = true -> 4 <= ld32 ram (start - 4) < 2 ^ 32 ->
  exists s', go 27 (entryother_code start gdt) s = Ok s' /\ b_gone s' = true /\ flat_segs s' /\
    b_cr s' = set_cesp (entryother_S start ram (b_cr s)) (ld32 ram (start - 4) - 4).
Proof.
  intros Hg Hp Hpe Hst. set (code := entryother_code start gdt). destruct s as [ax dx zf fl cr sg g k pc gone]. cbn [b_gone b_pc b_if b_cr b_kbc] in *. subst pc gone.
  assert (E1 : exists s1, go 5 code (mk_early ax dx zf fl cr sg g k 0 false) = Ok s1 /\ b_gone s1 = false /\ b_pc s1 = 5%nat /\ b_if s1 = false /\ b_cr s1 = cr).
  { unfold code. do 5 (erewrite brun_S; [|done | reflexivity]; bcbn; unfold load_sreg; bcbn; try (fold (c_cr0 cr); rewrite Hpe; bcbn)). cbn [brun]. by eexists. }
  destruct E1 as (s1 & E1 & Hg1 & Hp1 & Hi1 & Hc1).
  destruct (to_protected_runs code 5 s1) as (s6 & E6 & Hf & Hg6 & Hp6 & Hc6 & Hk6); auto.
  { intros i x Hx. do 12 (destruct i as [|i]; [exact Hx|]). done. }
  change 27%nat with (5 + (12 + 10))%nat. rewrite brun_add, E1. cbn [rbind]. rewrite brun_add, E6. cbn [rbind]. rewrite Hc1 in Hc6.
  destruct s6 as [ax6 dx6 zf6 fl6 cr6 sg6 g6 k6 pc6 gone6]. cbn [b_gone b_pc b_if b_cr b_kbc] in *. subst pc6 gone6 cr6. unfold code.
  do 10 (erewrite brun_S; [|done | reflexivity]; bcbn). cbn [brun]. eexists. split; [reflexivity|]. split; [done|]. split; [exact Hf|]. cbn [b_cr].
  rewrite u32_small by lia. reflexivity.
Qed.

(** The code runs at the physical address of the memory startothers() writes at [CODE]. *)
Lemma entryother_phys m r : entryother_S 0x7000 (fun a => m (P2V a)) r = entryother_S CODE m r.
Proof. reflexivity. Qed.

(** entry.S *)
Lemma entry_enters pgdir stack main s : b_gone s = false -> b_pc s = 0%nat ->
  exists s', go 11 (entry_code pgdir stack main) s = Ok s' /\ b_gone s' = true /\ b_cr s' = entry_S pgdir stack main (b_cr s) /\ b_seg s' = b_seg s /\ b_if s' = b_if s /\ b_kbc s' = b_kbc s.
Proof.
  intros Hg Hp. destruct s as [ax dx zf fl cr sg g k pc gone]. cbn [b_gone b_pc b_if b_cr b_kbc] in *. subst pc gone.
  do 11 (erewrite brun_S; [|done | reflexivity]; bcbn). cbn [brun]. by eexists.
Qed.
End run2.

(** ** From the first instruction to main() *)

(** Control at the start of the next piece of code.  What C code does to %eax and
    %esp before it gets there does not matter: entry.S loads both. *)
Definition arrive (s : early) : early := mk_early (b_eax s) (b_dx s) (b_zf s) (b_if s) (b_cr s) (b_seg s) (b_gdtr s) (b_kbc s) 0 false.

(** The processor as the BIOS leaves it: real mode. *)
Definition bios_state (s : early) : Prop := b_gone s = false /\ b_pc s = 0%nat /\ kreset (b_kbc s) = false /\ (Z.land (c_cr0 (b_cr s)) CR0_PE =? 0) = true.

(** C26: Booting reaches main().  From the state the BIOS leaves, with a kernel
    image on the disk whose segments are in order, bootasm.S opens address line
    A20 however long the keyboard controller is busy and calls bootmain() in flat
    32-bit segments; bootmain() loads every segment and finds the entry point;
    entry.S, run from there, arrives in main() with interrupts off, the same flat
    segments, paging on with the boot page directory and the stack in place, and
    the boot page directory maps main()'s address to where it was loaded. *)
Theorem boot_reaches_main disk ram delay junk start gdt bm pgdir stack main s :
  bios_state s -> gdt_there ram gdt -> 4 <= start < 2 ^ 32 -> KERNBASE <= main < KERNBASE + 2 ^ 22 ->
  e_magic (elf_get (image disk)) = ELF_MAGIC -> 0 <= e_phnum (elf_get (image disk)) -> 0 <= e_phoff (elf_get (image disk)) ->
  e_phoff (elf_get (image disk)) + 32 * e_phnum (elf_get (image disk)) <= 4096 -> segs_ok (image_phs disk) ->
  exists n s1 m' s2,
    brun ram delay junk n (bootasm_S start gdt bm) s = Ok s1 /\ flat_segs s1 /\ c_eip (b_cr s1) = bm /\ a20 (b_kbc s1) = true /\
    bootmain disk ram = Ok (Some (e_entry (elf_get (image disk))), m') /\ (forall p, p ∈ image_phs disk -> loaded disk p m') /\
    brun m' delay junk 11 (entry_code pgdir stack main) (arrive s1) = Ok s2 /\ flat_segs s2 /\ a20 (b_kbc s2) = true /\
    b_cr s2 = mk_cregs (Z.lor (Z.lor (c_cr0 (b_cr s)) CR0_PE) (Z.lor CR0_PG CR0_WP)) (V2P pgdir) (Z.lor (c_cr4 (b_cr s)) CR4_PSE) (stack + KSTACKSIZE) main /\
    xlate_pse entrypgdir main = Some (main - KERNBASE, true).
Proof.
  intros (Hg & Hp & Hr & Hpe) Hgdt Hst Hmain Hmag Hn Ho Hfit Hs.
  destruct (bootasm_enters ram delay junk gdt Hgdt start bm s Hst Hg Hp Hr Hpe) as (n & s1 & E1 & _ & Hf & Ha & _ & Hc).
  destruct (bootmain_loads disk ram Hmag Hn Ho Hfit Hs) as (m' & E2 & Hl).
  destruct (entry_enters m' delay junk pgdir stack main (arrive s1) eq_refl eq_refl) as (s2 & E3 & _ & Hc2 & Hs2 & Hi2 & Hk2).
  exists n, s1, m', s2. split; [done|]. split; [done|]. split; [by rewrite Hc|]. split; [done|]. split; [done|]. split; [done|]. split; [done|].
  split; [unfold flat_segs in *; by rewrite Hs2, Hi2|]. split; [by rewrite Hk2|]. split; [by rewrite Hc2; cbn [arrive b_cr]; rewrite Hc|].
  rewrite entrypgdir_maps by (unfold KERNBASE in *; lia). rewrite decide_False by (unfold KERNBASE in *; lia). by rewrite decide_True by lia.
Qed.

Definition ex_boot_ram : mem := fold_right (fun p m => st32 m (0x7D00 + 4 * fst p) (snd p)) (fun _ => 0)
  (zip [0; 1; 2; 3; 4; 5] (mjoin ((fun x => [x mod 2 ^ 32; x / 2 ^ 32]) <$> boot_gdt))).
Definition ex_early : early := mk_early 0xAA55 0x80 false true (mk_cregs 0x10 0 0 0x6F00 0) (fun _ => Real 0) (0, 0) (mk_kbc 2 0 false false) 0 false.

Lemma boot_reaches_main_witness : exists n s1 m', brun ex_boot_ram 3 0x1C n (bootasm_S 0x7C00 0x7D00 0x7D3B) ex_early = Ok s1 /\ a20 (b_kbc s1) = true /\ bootmain ex_disk ex_boot_ram = Ok (Some 0x10000C, m') /\ m' 0x100000 = 0x44.
Proof.
  destruct (boot_reaches_main ex_disk ex_boot_ram 3 0x1C 0x7C00 0x7D00 0x7D3B 0x80109000 0x8010B5C0 0x80103000 ex_early) as (n & s1 & m' & s2 & E1 & _ & _ & Ha & E2 & Hl & _).
  - by split.
  - intros i x Hi. do 3 (destruct i as [|i]; [injection Hi as <-; vm_compute; reflexivity|]). done.
  - lia.
  - vm_compute. intuition congruence.
  - vm_compute. reflexivity.
  - vm_compute. congruence.
  - vm_compute. congruence.
  - vm_compute. congruence.
  - exact ex_segs_ok.
  - exists n, s1, m'. split; [exact E1|]. split; [exact Ha|]. split; [exact E2|]. rewrite ex_phs in Hl. exact (Hl _ (list_elem_of_here _ _) 0 ltac:(cbn; lia)).
Defined.
