(* ===== verification/ReadFile.v ===== *)
(** * Reading a whole file into memory (read_file of src/cron.c and src/xvedit.c, first half)

    Both programs collect a file from reads of at most 512 bytes: for each read a
    block for all bytes so far is allocated, the old block copied with
    strlen() as its length, the new bytes put behind, the old block freed.  The
    old block has no NUL at its end, so strlen() runs on into the bytes that
    follow it in the heap.  Those bytes ([tail], up to the first NUL) and the
    bytes a fresh block holds ([fresh]) are whatever the heap has; a copy beyond
    the bytes malloc gave is a [Panic]. *)

From S2P Require Import Prelude Umalloc Cron Xvedit.

(** What the heap supplies in one round. *)
Record heap := mk_heap { tail : list Z; fresh : list Z }.

(** strlen(temp): [buf] is the part of the block that has been filled. *)
Definition cstrlen (buf tail : list Z) : nat :=
  match List.find (fun p => p.2 =? 0) (combine (seq 0 (length buf)) buf) with
  | Some (i, _) => i
  | None => (length buf + length tail)%nat
  end.

(** [over l a s]: the bytes [s] written over [l] from index [a]. *)
Definition over (l : list Z) (a : nat) (s : list Z) : list Z := take a l ++ s ++ drop (a + length s) l.

(** One round of the loop, with the read [p]. *)
Definition collect1 (h : heap) (buf p : list Z) : res (list Z) :=
  let total := (length buf + length p)%nat in
  let new := take total (fresh h ++ repeat 0 total) in
  let n := cstrlen buf (tail h) in
  let* new :=
    if (n =? 0)%nat then Ok new                                   (* temp[0] != 0 *)
    else if usable (Z.of_nat total) <? Z.of_nat n then Panic "heap overflow"
    else Ok (take total (over new 0 (take n (buf ++ tail h)))) in
  Ok (over new (total - length p) p).

Fixpoint collect (hs : list heap) (buf : list Z) (reads : list (list Z)) {struct reads} : res (list Z) :=
  match reads, hs with
  | [], _ => Ok buf
  | p :: reads', h :: hs' => let* buf := collect1 h buf p in collect hs' buf reads'
  | _, [] => Blocked
  end.

(** ** Files without NUL bytes *)

Lemma cstrlen_none buf t : Forall (fun c => c <> 0) buf -> cstrlen buf t = (length buf + length t)%nat.
Proof.
  intros H. unfold cstrlen. destruct (List.find _ _) as [[i c]|] eqn:E; [|done]. apply find_some in E as [Hin Hc]. cbn in Hc. apply Z.eqb_eq in Hc. subst c. apply in_combine_r in Hin.
  rewrite Forall_forall in H. by destruct (H 0); [apply list_elem_of_In|].
Qed.

Lemma over_end l a s : length l = (a + length s)%nat -> over l a s = take a l ++ s.
Proof. intros H. unfold over. by rewrite drop_ge, app_nil_r by lia. Qed.

Lemma collect1_spec h buf p : Forall (fun c => c <> 0) buf -> Z.of_nat (length buf + length (tail h)) <= usable (Z.of_nat (length buf + length p)) -> collect1 h buf p = Ok (buf ++ p).
Proof.
  intros Hb Hu. unfold collect1. rewrite cstrlen_none by done. set (new := take _ (fresh h ++ _)). assert (Hn : length new = (length buf + length p)%nat) by (unfold new; rewrite length_take, length_app, repeat_length; lia).
  clearbody new. replace (length buf + length p - length p)%nat with (length buf) by lia. destruct (Nat.eqb_spec (length buf + length (tail h)) 0) as [E|E].
  - cbn [rbind]. rewrite over_end by done. destruct buf; [done | cbn in E; lia].
  - destruct (Z.ltb_spec (usable (Z.of_nat (length buf + length p))) (Z.of_nat (length buf + length (tail h)))); [lia|]. cbn [rbind].
    set (new2 := take _ (over new 0 _)). assert (Hn2 : length new2 = (length buf + length p)%nat).
    { unfold new2, over. repeat rewrite ?length_take, ?length_app, ?length_drop. lia. }
    assert (Hpre : take (length buf) new2 = buf).
    { unfold new2, over. rewrite take_take, Nat.min_l by lia. rewrite take_0. cbn [app]. rewrite (take_ge (buf ++ tail h)) by (rewrite length_app; lia). rewrite <- app_assoc. by rewrite take_app_length. }
    rewrite over_end by done. by rewrite Hpre.
Qed.

(** The heap leaves room: in every round the NUL behind the old block comes
    before the end of the new one. *)
Fixpoint room (hs : list heap) (t : nat) (reads : list (list Z)) {struct reads} : Prop :=
  match reads, hs with
  | [], _ => True
  | p :: reads', h :: hs' => Z.of_nat (t + length (tail h)) <= usable (Z.of_nat (t + length p)) /\ room hs' (t + length p) reads'
  | _, [] => False
  end.

Lemma collect_spec reads hs buf : Forall (fun c => c <> 0) buf -> Forall (Forall (fun c => c <> 0)) reads -> room hs (length buf) reads -> collect hs buf reads = Ok (buf ++ concat reads).
Proof.
  revert hs buf. induction reads as [|p reads IH]; intros hs buf Hb Hr Hroom; cbn [collect concat]; [by rewrite app_nil_r|]. destruct hs as [|h hs]; [done|]. destruct Hroom as [H1 H2]. inversion Hr as [|? ? Hp Hr']. subst.
  rewrite collect1_spec by done. cbn [rbind]. rewrite IH; [by rewrite app_assoc | apply Forall_app; by split | done | by rewrite length_app].
Qed.

(** A file without NUL bytes, however read() cuts it, is collected byte for
    byte, provided that in every round the heap has a NUL soon enough behind the
    old block. *)
Theorem read_file_collects reads hs : Forall (Forall (fun c => c <> 0)) reads -> room hs 0 reads -> collect hs [] reads = Ok (concat reads).
Proof. intros Hr Hroom. by rewrite (collect_spec reads hs []). Qed.

Lemma read_file_collects_witness : collect [mk_heap [1; 2] []; mk_heap [] [9]; mk_heap [7; 7; 7] []] [] [[97; 10]; [98]; [99; 10]] = Ok [97; 10; 98; 99; 10].
Proof. apply (read_file_collects [[97; 10]; [98]; [99; 10]]); [repeat (apply Forall_cons; split); try apply Forall_nil; lia | vm_compute; intuition congruence]. Defined.

(** ** When it goes wrong *)

(** The room is needed: nine bytes without a NUL behind the first full block
    make the copy for a file of 513 bytes run over the end of the new block. *)
Lemma read_file_overflow h buf c : length buf = 512%nat -> Forall (fun x => x <> 0) buf -> (9 <= length (tail h))%nat -> collect1 h buf [c] = Panic "heap overflow".
Proof.
  intros Hl Hb Ht. unfold collect1. rewrite cstrlen_none by done. set (n := (length buf + length (tail h))%nat). assert (Hn : (521 <= n)%nat) by (unfold n; lia). clearbody n.
  destruct (Nat.eqb_spec n 0); [lia|]. rewrite Hl. change (usable (Z.of_nat (512 + length [c]))) with 520. destruct (Z.ltb_spec 520 (Z.of_nat n)); [reflexivity | lia].
Qed.

(** A file that begins with a NUL loses the bytes of every read but the last. *)
Lemma read_file_nul h buf p : length (fresh h) = (S (length buf) + length p)%nat -> collect1 h (0 :: buf) p = Ok (take (S (length buf)) (fresh h) ++ p).
Proof.
  intros Hf. unfold collect1. change (cstrlen (0 :: buf) (tail h)) with 0%nat. cbn [Nat.eqb rbind length]. rewrite take_app_le by lia. rewrite take_ge by lia. rewrite over_end by lia. do 3 f_equal. lia.
Qed.
