(* ===== verification/Mains.v ===== *)
(** * Programs over their files: wc, grep, nano, xvedit (main of src/wc.c,
    src/grep.c and src/xvedit.c, src/nano.c)

    Opening a file gives the pieces that read() returns, or fails; the result
    is what the program prints. *)

From S2P Require Import Prelude Printf Grep Utils Xvedit Progs.

Definition file_reads : Type := list Z -> option (list (list Z)).

(** ** wc.c *)

(** The format for a file that cannot be opened, with the program's name. *)
Definition cannot_open (name : string) (path : list Z) : list Z := bytes name ++ bytes ": cannot open " ++ path ++ [LF].

Fixpoint wc_files (open : file_reads) (args : list (list Z)) : list Z :=
  match args with
  | [] => []
  | a :: args' =>
      match open a with
      | None => cannot_open "wc" a
      | Some reads => Wc.wc reads 0 a ++ wc_files open args'
      end
  end.

(** [stdin] are the reads of descriptor 0, [args] the arguments after the name. *)
Definition wc_main (open : file_reads) (stdin : list (list Z)) (args : list (list Z)) : list Z :=
  match args with [] => Wc.wc stdin 0 [] | _ => wc_files open args end.

(** ** grep.c *)

Fixpoint grep_files (open : file_reads) (pattern : list Z) (args : list (list Z)) : list Z :=
  match args with
  | [] => []
  | a :: args' =>
      match open a with
      | None => cannot_open "grep" a
      | Some reads => grep pattern reads [] ++ grep_files open pattern args'
      end
  end.

Definition grep_main (open : file_reads) (stdin : list (list Z)) (args : list (list Z)) : list Z :=
  match args with
  | [] => bytes "usage: grep pattern [file ...]" ++ [LF]
  | [pattern] => grep pattern stdin []
  | pattern :: files => grep_files open pattern files
  end.

(** ** nano.c *)

Section nano.
Context (str : Z -> list Z).          (* the string at an address of the process *)
Context (ap : nat -> Z).              (* the words on the stack where printf looks for arguments it was not given *)
Context (rest : list Z).              (* what follows the buffer, up to a NUL *)

(** The C string at the beginning of the buffer. *)
Fixpoint c_string (l : list Z) : list Z :=
  match l with
  | [] => rest
  | c :: l' => if c =? 0 then [] else c :: c_string l'
  end.

(** [for(i=0; i<n; i++) if(buf[i] == '\n') printf(1, "%s ", j++)] *)
Fixpoint nano_newlines (piece : list Z) (j : Z) : list Z * Z :=
  match piece with
  | [] => ([], j)
  | c :: piece' =>
      if c =? LF then let (out, j') := nano_newlines piece' (s32 (j + 1)) in (printf str (fun _ => j) true (bytes "%s ") ++ out, j')
      else nano_newlines piece' j
  end.

(** [buf] is the 512-byte buffer, which a shorter read overwrites in part. *)
Fixpoint nano_loop (reads : list (list Z)) (buf : list Z) (j : Z) : list Z :=
  match reads with
  | [] => [LF]
  | piece :: reads' =>
      let buf := piece ++ drop (length piece) buf in
      let (out, j) := nano_newlines piece j in
      out ++ printf str ap true (c_string buf) ++ nano_loop reads' buf j
  end.

Definition nano (open : file_reads) (args : list (list Z)) : list Z :=
  match args with
  | [] => bytes "nano requires at least 1 arguments" ++ [LF]
  | a :: _ =>
      match open a with
      | None => cannot_open "cp" a
      | Some reads => nano_loop reads (replicate 512 0) 0
      end
  end.

(** ** What they print *)

Lemma c_string_plain l k : Forall (fun c => c <> 0) l -> c_string (l ++ 0 :: k) = l.
Proof. induction 1 as [|c l Hc Hl IH]; cbn [app c_string]; [done|]. destruct (Z.eqb_spec c 0); [done|]. by rewrite IH. Qed.

Lemma nano_newlines_none l j : LF ∉ l -> nano_newlines l j = ([], j).
Proof. induction l as [|c l IH]; [done|]. rewrite not_elem_of_cons. intros [Hc Hl]. cbn [nano_newlines]. destruct (Z.eqb_spec c LF) as [->|]; [done|]. auto. Qed.

Lemma printf_plain l i : 37 ∉ l -> printf_loop str ap true l false i = l.
Proof. induction l as [|c l IH]; [done|]. rewrite not_elem_of_cons. intros [Hc Hl]. cbn [printf_loop negb]. destruct (Z.eqb_spec c 37) as [->|]; [done|]. by rewrite IH. Qed.

(** A short file of one line without its newline, and without percent signs, is shown as it is. *)
Lemma nano_shows open a args l : open a = Some [l] -> (length l < 512)%nat -> Forall (fun c => c <> 0) l -> LF ∉ l -> 37 ∉ l -> nano open (a :: args) = l ++ [LF].
Proof.
  intros Ho Hl Hz Hn Hp. unfold nano. rewrite Ho. cbn [nano_loop]. rewrite nano_newlines_none by done. cbn [app].
  rewrite drop_replicate. replace (512 - length l)%nat with (S (511 - length l)) by lia. cbn [replicate].
  rewrite c_string_plain by done. unfold printf. by rewrite printf_plain.
Qed.

(** With a first newline the number 0 is printed as a string, so the output begins with "(null)". *)
Lemma nano_null open a args l k : open a = Some [l ++ [LF] ++ k] -> (length l + 1 + length k < 512)%nat -> Forall (fun c => c <> 0) (l ++ LF :: k) -> LF ∉ l ++ k -> 37 ∉ l ++ LF :: k ->
  nano open (a :: args) = null_str ++ [32] ++ l ++ LF :: k ++ [LF].
Proof.
  intros Ho Hl Hz Hn Hp. unfold nano. rewrite Ho. cbn [nano_loop app]. apply not_elem_of_app in Hn as [Hn1 Hn2].
  assert (E : nano_newlines (l ++ LF :: k) 0 = (null_str ++ [32], 1)).
  { clear - Hn1 Hn2. induction l as [|c l IH]; cbn [app nano_newlines]; [change (LF =? LF) with true; cbn iota; by rewrite nano_newlines_none|]. apply not_elem_of_cons in Hn1 as [Hc Hl]. destruct (Z.eqb_spec c LF) as [->|]; [done|]. auto. }
  rewrite E, drop_replicate. assert (Hlen : (length (l ++ LF :: k) < 512)%nat) by (rewrite length_app; cbn [length]; lia). replace (512 - length (l ++ LF :: k))%nat with (S (511 - length (l ++ LF :: k))) by lia. cbn [replicate].
  rewrite c_string_plain by done. unfold printf. rewrite printf_plain by done. rewrite <- !app_assoc. reflexivity.
Qed.
End nano.

(** Each file's pieces contain a newline, as those of a text file with short lines do. *)
Definition text_file (reads : list (list Z)) (ls : list (list Z)) : Prop :=
  Forall plain ls /\ Forall (fun r => NEWLINE ∈ r) reads /\ concat reads = Grep.join ls.

(** grep with files prints the matching lines of each, and stops at the first it cannot open. *)
Lemma grep_files_match open pattern fs rest : Forall (fun f => exists reads, open f.1 = Some reads /\ text_file reads f.2) fs ->
  match rest with [] => True | a :: _ => open a = None end ->
  grep_files open pattern (fs.*1 ++ rest) = concat (matching pattern <$> fs.*2) ++ match rest with [] => [] | a :: _ => cannot_open "grep" a end.
Proof.
  intros Hf Hr. induction Hf as [|[a ls] fs (reads & Ho & Hl & Hn & E) Hf IH]; cbn [fmap list_fmap fst snd app grep_files concat].
  - destruct rest as [|a rest]; [done|]. cbn [grep_files]. by rewrite Hr.
  - cbn [fst snd] in *. rewrite Ho, IH. rewrite (grep_prints_matching pattern ls [] reads) by (first [apply Forall_nil_2 | by rewrite app_nil_r | done]). by rewrite app_assoc.
Qed.

(** ** xvedit

    [help] and [main] of the editor.  [help] is given the words of the command;
    what it prints depends on nothing else. *)

Definition TAB : Z := 9.

Definition parameters : list (list Z) := [
  bytes "'filename'" ++ [LF; TAB] ++ bytes "May be a relative or absolute path, but no spaces";
  bytes "'line_num'" ++ [LF; TAB] ++ bytes "1-based line number";
  bytes "'range'" ++ [LF; TAB] ++ bytes "A consecutive sequence of lines specified by a starting and ending number (both included) separated by a colon, like Python's string/list indexing/slicing (but, unlike in Python, it's 1-based, and the end point is included). All 3 pieces are optional, but you must specify at least 1 of them. Examples: 12 (just 1 line), 3:5 (3 lines), 15: (through the end of the file), :7 (the first 7 lines of the file, same as 1:7 ), : (the whole file!)";
  bytes "'text'" ++ [LF; TAB] ++ bytes "Line of text which may include spaces. Continues through EOL.";
  bytes "'command'" ++ [LF; TAB] ++ bytes "The name of a command. Run HELP with no parameter to get a list of all commands"].

Definition commands : list (list Z) := [
  bytes "@END" ++ [LF; TAB] ++ bytes "Takes: text" ++ [LF; TAB] ++ bytes "Append text as new line at end of file";
  bytes "ADD<" ++ [LF; TAB] ++ bytes "Takes: line_num, text" ++ [LF; TAB] ++ bytes "Insert new line containing text before line line_num";
  bytes "DROP" ++ [LF; TAB] ++ bytes "Takes: range" ++ [LF; TAB] ++ bytes "Delete lines in range";
  bytes "EDIT" ++ [LF; TAB] ++ bytes "Takes: line_num, text" ++ [LF; TAB] ++ bytes "Replace contents of line line_num with text";
  bytes "LIST" ++ [LF; TAB] ++ bytes "Takes: range" ++ [LF; TAB] ++ bytes "Output lines in range , each preceded by its line number (right-aligned), a colon, and a space";
  bytes "QUIT" ++ [LF; TAB] ++ bytes "Takes: no params required" ++ [LF; TAB] ++ bytes "Exit the editor, confirming whether to save changes if any were made";
  bytes "COPY" ++ [LF; TAB] ++ bytes "Takes: range, line_num" ++ [LF; TAB] ++ bytes "Duplicate lines in range at line_num , 'pushing' existing lines at and after line_num 'down'" ++ [LF; TAB] ++ bytes "Not yet implemented";
  bytes "FIND" ++ [LF; TAB] ++ bytes "Takes: text" ++ [LF; TAB] ++ bytes "Display line numbers of all lines containing text (casesensitive), separated by a comma and a space";
  bytes "FLIP" ++ [LF; TAB] ++ bytes "Takes: range" ++ [LF; TAB] ++ bytes "Reverse order of lines in range (or whole file)" ++ [LF; TAB] ++ bytes "Not yet implemented";
  bytes "HELP" ++ [LF; TAB] ++ bytes "Takes: command" ++ [LF; TAB] ++ bytes "Display documentation for command, with examples (or a command list, if command is left out)";
  bytes "OPEN" ++ [LF; TAB] ++ bytes "Takes: filename" ++ [LF; TAB] ++ bytes "Load contents of filename (confirming loss of any modifications)";
  bytes "SAVE" ++ [LF; TAB] ++ bytes "Takes: filename" ++ [LF; TAB] ++ bytes "Store changes back to original file, unless filename specified";
  bytes "SORT" ++ [LF; TAB] ++ bytes "Takes: range" ++ [LF; TAB] ++ bytes "Put lines in range (or whole file, if absent) in lexicographical order" ++ [LF; TAB] ++ bytes "Not yet implemented"].

(** The comparisons of [help]: the first is with the word before the parameter. *)
Definition help_chain (a0 a1 : list Z) : option nat :=
  if bool_decide (a0 = AT_END) then Some 0%nat
  else if bool_decide (a1 = ADD) then Some 1%nat
  else if bool_decide (a1 = DROP) then Some 2%nat
  else if bool_decide (a1 = EDIT) then Some 3%nat
  else if bool_decide (a1 = LIST_) then Some 4%nat
  else if bool_decide (a1 = QUIT) then Some 5%nat
  else if bool_decide (a1 = COPY) then Some 6%nat
  else if bool_decide (a1 = FIND) then Some 7%nat
  else if bool_decide (a1 = FLIP) then Some 8%nat
  else if bool_decide (a1 = HELP) then Some 9%nat
  else if bool_decide (a1 = OPEN) then Some 10%nat
  else if bool_decide (a1 = SAVE) then Some 11%nat
  else if bool_decide (a1 = SORT) then Some 12%nat
  else None.

Definition no_command : list Z := [LF] ++ bytes "No command found by that name. Run help with no parameters to see list of commands".

Definition help (argv : list (list Z)) : list Z :=
  [LF] ++ bytes "Welcome to XVEDIT. This is the help tool." ++ [LF; LF] ++
  match argv with
  | [] | [_] =>
      bytes "PARAMETERS:" ++ [LF; LF] ++ concat (map (fun p => bytes "    " ++ p ++ [LF; LF]) parameters) ++
      [LF] ++ bytes "FUNCTIONS:" ++ [LF; LF] ++ concat (map (fun p => bytes "    " ++ p ++ [LF; LF]) commands)
  | [a0; a1] => match help_chain a0 a1 with Some k => nth k commands [] | None => no_command end ++ [LF; LF]
  | _ => [LF] ++ bytes "HELP takes only 1 parameter" ++ [LF; LF]
  end.

(** [main]: what is printed before the first prompt, and the session at the
    end, if the file can be opened. *)
Definition xvedit_main (n : nat) (junk fd : list Z) (files : list Z -> option (list Z)) (input : list Z) : list Z * res (option session) :=
  let hello := bytes "Welcome to xvEdit!" ++ [LF] in
  match files fd with
  | None => (hello ++ bytes "xvEdit failed to open file " ++ fd ++ [LF], Ok None)
  | Some b =>
      let c := read_contents b in
      (hello ++ printf (fun _ => fd) (fun i => match i with O => ct_count c | _ => 1 end) true (bytes "%d lines read from %s" ++ [LF]),
       let* s := xvedit n junk fd (mk_session c files input) in Ok (Some s))
  end.

(** [help] with the name of a command prints that command's text, which begins
    with the name; only the text for @END cannot be asked for. *)
Lemma help_prints k name : commands_alone !! k = Some name ->
  help [HELP; name] = [LF] ++ bytes "Welcome to XVEDIT. This is the help tool." ++ [LF; LF] ++ (if (k =? 0)%nat then no_command else nth k commands []) ++ [LF; LF] /\
  take 4 (nth k commands []) = name.
Proof. do 13 (destruct k as [|k]; [intros [= <-]; split; vm_compute; reflexivity|]). done. Qed.

(** A session: one line is added to a file of one, saved, and the editor left. *)
Definition wit_dir (f : list Z) : option (list Z) := if bool_decide (f = bytes "f") then Some (bytes "a") else None.

Lemma xvedit_main_session : let (out, r) := xvedit_main 5 [] (bytes "f") wit_dir (bytes "@end b" ++ [LF] ++ bytes "save" ++ [LF] ++ bytes "y" ++ [LF] ++ bytes "quit" ++ [LF] ++ bytes "n" ++ [LF]) in
  out = bytes "Welcome to xvEdit!" ++ [LF] ++ bytes "1 lines read from f" ++ [LF] /\
  exists s, r = Ok (Some s) /\ se_files s (bytes "f") = Some (bytes "a" ++ [LF] ++ bytes "b" ++ [LF]).
Proof. split; [vm_compute; reflexivity|]. eexists. split; vm_compute; reflexivity. Qed.
