(* ===== verification/Usertests.v ===== *)
(** * The kernel runs its own file-system tests (src/usertests.c)

    The file-system tests of usertests.c that need one process, but for bigdir,
    as programs over the system calls, run on the kernel of this library from
    boot: mkfs makes the disk, the kernel opens its root directory, and every
    system call goes through syscall() with its number in %eax and its arguments
    on the user stack, in the memory the process's page table maps.  printf()
    writes its characters one by one to the console, as src/printf.c does; what
    arrives there is the output. *)

From S2P Require Import Prelude Layout StringLib Kalloc Pipe Blocks Balloc Fs FsFile File Vm VmSpec VmUser Proc Syscall Sysfile Trap Printf Mkfs Boot Progs.

(** ** The process and its memory *)

(** Four pages from address 0, through one page table. *)
Definition PGDIR : Z := 0x80200000.
Definition PGTAB : Z := 0x80201000.
Definition UPAGE : Z := 0x80202000.
Definition USIZE : Z := 0x4000.

(** Where the program keeps what it passes: string literals, [buf], the stack. *)
Definition STR1 : Z := 0x100.
Definition STR2 : Z := 0x200.
Definition BUF : Z := 0x1000.
Definition STACK : Z := 0x3F00.
Definition BUFSIZE : Z := 8192.

Definition page_entry (i : Z) : Z := Z.lor (V2P (UPAGE + PGSIZE * i)) 7.
Definition ram0 : mem :=
  let m := st32 (fun _ => 0) PGDIR (Z.lor (V2P PGTAB) 7) in
  let m := st32 m PGTAB (page_entry 0) in
  let m := st32 m (PGTAB + 4) (page_entry 1) in
  let m := st32 m (PGTAB + 8) (page_entry 2) in
  st32 m (PGTAB + 12) (page_entry 3).

(** The process runs in slot 1; slot 0 is init. *)
Definition ME : nat := 1.

Definition user_store (va : Z) (l : list Z) (k : kern) : kern :=
  let m := kmem_of k in set_kmem k (with_ram m (mwrite (kram m) (UPAGE + va) l)).

(** The same memory with the [n] bytes from [lo] tabulated: it keeps evaluation
    short and changes nothing, see [tab_same]. *)
Definition tab (lo : Z) (n : nat) (m : mem) : mem := let l := mread m lo n in let hi := lo + Z.of_nat n in
  fun a => if (lo <=? a) && (a <? hi) then nth (Z.to_nat (a - lo)) l 0 else m a.

Lemma tab_same lo n m a : tab lo n m a = m a.
Proof.
  unfold tab. destruct (Z.leb_spec lo a), (Z.ltb_spec a (lo + Z.of_nat n)); cbn [andb]; try done.
  rewrite nth_mread by lia. f_equal. lia.
Qed.

Definition settle (n : Z) (k : kern) : kern :=
  let m := kmem_of k in set_kmem k (with_ram m (tab PGDIR 4 (tab PGTAB 16 (tab (UPAGE + BUF) (Z.to_nat n) (kram m))))).

(** ** Programs *)

Record ust := mk_ust { u_kern : kern; u_out : list Z }.   (* output, the last character first *)

(** A program returns, exits, makes the kernel panic, or waits for ever. *)
Inductive outcome (A : Type) := URet (a : A) (s : ust) | UExit (s : ust) | UPanic (msg : string) | UStuck.
Arguments URet {A}.
Arguments UExit {A}.
Arguments UPanic {A}.
Arguments UStuck {A}.

Definition U (A : Type) : Type := ust -> outcome A.
Definition uret {A : Type} (a : A) : U A := fun s => URet a s.
Definition ubind {A B : Type} (m : U A) (f : A -> U B) : U B :=
  fun s => match m s with URet a s' => f a s' | UExit s' => UExit s' | UPanic e => UPanic e | UStuck => UStuck end.

Declare Scope user_scope.
Notation "'let!' x := m 'in' k" := (ubind m (fun x => k)) (at level 10, x name, k at level 200) : user_scope.
Notation "m ;; k" := (ubind m (fun _ => k)) (at level 100, k at level 200, right associativity) : user_scope.
Open Scope user_scope.

(** The console takes every byte. *)
Definition console_dev (major : Z) : option (nat -> mem -> Z -> Z -> fs -> res (Z * fs)) :=
  if major =? 1 then Some (fun _ _ _ n st => Ok (n, st)) else None.

Definition epoch : rtcdate := mk_rtcdate 0 0 0 1 1 2021.

(** A system call by its number, with its arguments on the stack. *)
Definition call (num : Z) (args : list Z) : U Z := fun s =>
  let k := user_store STACK (mjoin (word_bytes <$> 0 :: args)) (u_kern s) in
  let k := upd_proc k ME (fun x => with_tf x (Proc.set_eax (set_esp (p_tf x) STACK) num)) in
  match syscall 0x80150000 0x80108000 0 mkfs_sb no_dev console_dev epoch 0 ME k with
  | Ok (SRet _, k) => URet (s32 (tf_eax (p_tf (proc_at k ME)))) (mk_ust (settle 0 k) (u_out s))
  | Ok (SExit, k) => UExit (mk_ust k (u_out s))
  | Ok (SSleep _, _) => UStuck
  | Panic e => UPanic e
  | Blocked => UStuck
  end.

(** A string literal at [a]. *)
Definition lit (a : Z) (l : list Z) : U unit := fun s => URet tt (mk_ust (user_store a (l ++ [0]) (u_kern s)) (u_out s)).

Definition uexit : U unit := call 2 [];; uret tt.
Definition read_buf (fd n : Z) : U Z :=
  let! r := call 5 [fd; BUF; n] in fun s => URet r (mk_ust (settle (Z.max 0 r) (u_kern s)) (u_out s)).
Definition write_buf (fd n : Z) : U Z := fun s => call 16 [fd; BUF; n] (mk_ust (settle (Z.min n 512) (u_kern s)) (u_out s)).
Definition write (fd : Z) (l : list Z) : U Z := lit STR1 l;; call 16 [fd; STR1; Z.of_nat (length l)].
Definition chdir (p : list Z) : U Z := lit STR1 p;; call 9 [STR1].
Definition dup (fd : Z) : U Z := call 10 [fd].
Definition sbrk (n : Z) : U Z := call 12 [n].
Definition open (p : list Z) (mode : Z) : U Z := lit STR1 p;; call 15 [STR1; mode].
Definition mknod (p : list Z) (major minor : Z) : U Z := lit STR1 p;; call 17 [STR1; major; minor].
Definition unlink (p : list Z) : U Z := lit STR1 p;; call 18 [STR1].
Definition link (p q : list Z) : U Z := lit STR1 p;; lit STR2 q;; call 19 [STR1; STR2].
Definition mkdir (p : list Z) : U Z := lit STR1 p;; call 20 [STR1].
Definition close (fd : Z) : U Z := call 21 [fd].

(** [buf[i]], and stores into [buf]. *)
Definition buf_at (i : Z) : U Z := fun s => URet (s8 (umem (u_kern s) ME (BUF + i))) s.
Definition buf_word : U Z := fun s => URet (s32 (ld32 (umem (u_kern s) ME) BUF)) s.
Definition set_word (v : Z) : U unit := fun s => URet tt (mk_ust (user_store BUF (word_bytes v) (u_kern s)) (u_out s)).
Definition memset_buf (c n : Z) : U unit := fun s =>
  let m := kmem_of (u_kern s) in URet tt (mk_ust (set_kmem (u_kern s) (with_ram m (mfill (kram m) (UPAGE + BUF) n (u8 c)))) (u_out s)).

(** printf.c: [putc] writes one character; what the console takes is output. *)
Fixpoint puts (fd : Z) (l : list Z) : U unit :=
  match l with
  | [] => uret tt
  | c :: l' =>
      let! r := write fd [c] in
      (fun s => URet tt (mk_ust (u_kern s) (if r =? 1 then c :: u_out s else u_out s)));;
      puts fd l'
  end.
Definition printf (fd : Z) (fmt : list Z) (args : list Z) : U unit := puts fd (Printf.printf (fun _ => []) (fun i => nth i args 0) true fmt).

Definition line (s : string) : list Z := bytes s ++ [LF].
Definition say (s : string) : U unit := printf 1 (line s) [].

(** [if(b){ printf(1, s); exit(); }] *)
Definition fail_if (b : bool) (s : string) : U unit := if b then say s;; uexit else uret tt.

Fixpoint for_ (n : nat) (i : Z) (body : Z -> U unit) : U unit :=
  match n with O => uret tt | S n' => body i;; for_ n' (i + 1) body end.

(** ** The tests *)

Definition iputtest : U unit :=
  say "iput test";;
  let! r := mkdir (bytes "iputdir") in
  fail_if (r <? 0) "mkdir failed";;
  let! r := chdir (bytes "iputdir") in
  fail_if (r <? 0) "chdir iputdir failed";;
  let! r := unlink (bytes "../iputdir") in
  fail_if (r <? 0) "unlink ../iputdir failed";;
  let! r := chdir (bytes "/") in
  fail_if (r <? 0) "chdir / failed";;
  say "iput test ok".

Definition opentest : U unit :=
  say "open test";;
  let! fd := open (bytes "echo") 0 in
  fail_if (fd <? 0) "open echo failed!";;
  close fd;;
  let! fd := open (bytes "doesnotexist") 0 in
  fail_if (0 <=? fd) "open doesnotexist succeeded!";;
  say "open test ok".

Definition writetest : U unit :=
  say "small file test";;
  let! fd := open (bytes "small") (Z.lor O_CREATE O_RDWR) in
  (if 0 <=? fd then say "creat small succeeded; ok" else say "error: creat small failed!";; uexit);;
  for_ 100 0 (fun i =>
    let! r := write fd (bytes "aaaaaaaaaa") in
    (if negb (r =? 10) then printf 1 (line "error: write aa %d new file failed") [i];; uexit else uret tt);;
    let! r := write fd (bytes "bbbbbbbbbb") in
    (if negb (r =? 10) then printf 1 (line "error: write bb %d new file failed") [i];; uexit else uret tt));;
  say "writes ok";;
  close fd;;
  let! fd := open (bytes "small") O_RDONLY in
  (if 0 <=? fd then say "open small succeeded ok" else say "error: open small failed!";; uexit);;
  let! i := read_buf fd 2000 in
  (if i =? 2000 then say "read succeeded ok" else say "read failed";; uexit);;
  close fd;;
  let! r := unlink (bytes "small") in
  fail_if (r <? 0) "unlink small failed";;
  say "small file test ok".

(** The read loop of [writetest1], with [fuel] passes; [n] blocks have been read. *)
Fixpoint writetest1_read (fuel : nat) (fd n : Z) : U unit :=
  match fuel with
  | O => fun _ => UStuck
  | S fuel' =>
      let! i := read_buf fd 512 in
      if i =? 0 then
        if n =? MAXFILE - 1 then printf 1 (bytes "read only %d blocks from big") [n];; uexit else uret tt
      else if negb (i =? 512) then printf 1 (line "read failed %d") [i];; uexit
      else
        let! w := buf_word in
        (if negb (w =? n) then printf 1 (line "read content of block %d is %d") [n; w];; uexit else uret tt);;
        writetest1_read fuel' fd (n + 1)
  end.

Definition writetest1 : U unit :=
  say "big files test";;
  let! fd := open (bytes "big") (Z.lor O_CREATE O_RDWR) in
  fail_if (fd <? 0) "error: creat big failed!";;
  for_ (Z.to_nat MAXFILE) 0 (fun i =>
    set_word i;;
    let! r := write_buf fd 512 in
    fail_if (negb (r =? 512)) "error: write big file failed");;
  close fd;;
  let! fd := open (bytes "big") O_RDONLY in
  fail_if (fd <? 0) "error: open big failed!";;
  writetest1_read (S (Z.to_nat MAXFILE)) fd 0;;
  close fd;;
  let! r := unlink (bytes "big") in
  fail_if (r <? 0) "unlink big failed";;
  say "big files ok".

Definition createtest : U unit :=
  say "many creates, followed by unlink test";;
  for_ 52 0 (fun i => let! fd := open [97; 48 + i] (Z.lor O_CREATE O_RDWR) in close fd;; uret tt);;
  for_ 52 0 (fun i => unlink [97; 48 + i];; uret tt);;
  say "many creates, followed by unlink; ok".

Definition dirtest : U unit :=
  say "mkdir test";;
  let! r := mkdir (bytes "dir0") in
  fail_if (r <? 0) "mkdir failed";;
  let! r := chdir (bytes "dir0") in
  fail_if (r <? 0) "chdir dir0 failed";;
  let! r := chdir (bytes "..") in
  fail_if (r <? 0) "chdir .. failed";;
  let! r := unlink (bytes "dir0") in
  fail_if (r <? 0) "unlink dir0 failed";;
  say "mkdir test ok".

Definition unlinkread : U unit :=
  say "unlinkread test";;
  let! fd := open (bytes "unlinkread") (Z.lor O_CREATE O_RDWR) in
  fail_if (fd <? 0) "create unlinkread failed";;
  write fd (bytes "hello");;
  close fd;;
  let! fd := open (bytes "unlinkread") O_RDWR in
  fail_if (fd <? 0) "open unlinkread failed";;
  let! r := unlink (bytes "unlinkread") in
  fail_if (negb (r =? 0)) "unlink unlinkread failed";;
  let! fd1 := open (bytes "unlinkread") (Z.lor O_CREATE O_RDWR) in
  write fd1 (bytes "yyy");;
  close fd1;;
  let! r := read_buf fd BUFSIZE in
  (if negb (r =? 5) then printf 1 (bytes "unlinkread read failed") [];; uexit else uret tt);;
  let! c := buf_at 0 in
  fail_if (negb (c =? 104)) "unlinkread wrong data";;
  let! r := write_buf fd 10 in
  fail_if (negb (r =? 10)) "unlinkread write failed";;
  close fd;;
  unlink (bytes "unlinkread");;
  say "unlinkread ok".

Definition linktest : U unit :=
  say "linktest";;
  unlink (bytes "lf1");;
  unlink (bytes "lf2");;
  let! fd := open (bytes "lf1") (Z.lor O_CREATE O_RDWR) in
  fail_if (fd <? 0) "create lf1 failed";;
  let! r := write fd (bytes "hello") in
  fail_if (negb (r =? 5)) "write lf1 failed";;
  close fd;;
  let! r := link (bytes "lf1") (bytes "lf2") in
  fail_if (r <? 0) "link lf1 lf2 failed";;
  unlink (bytes "lf1");;
  let! r := open (bytes "lf1") 0 in
  fail_if (0 <=? r) "unlinked lf1 but it is still there!";;
  let! fd := open (bytes "lf2") 0 in
  fail_if (fd <? 0) "open lf2 failed";;
  let! r := read_buf fd BUFSIZE in
  fail_if (negb (r =? 5)) "read lf2 failed";;
  close fd;;
  let! r := link (bytes "lf2") (bytes "lf2") in
  fail_if (0 <=? r) "link lf2 lf2 succeeded! oops";;
  unlink (bytes "lf2");;
  let! r := link (bytes "lf2") (bytes "lf1") in
  fail_if (0 <=? r) "link non-existant succeeded! oops";;
  let! r := link (bytes ".") (bytes "lf1") in
  fail_if (0 <=? r) "link . lf1 succeeded! oops";;
  say "linktest ok".

Definition subdir : U unit :=
  say "subdir test";;
  unlink (bytes "ff");;
  let! r := mkdir (bytes "dd") in
  fail_if (negb (r =? 0)) "subdir mkdir dd failed";;
  let! fd := open (bytes "dd/ff") (Z.lor O_CREATE O_RDWR) in
  fail_if (fd <? 0) "create dd/ff failed";;
  write fd (bytes "ff");;
  close fd;;
  let! r := unlink (bytes "dd") in
  fail_if (0 <=? r) "unlink dd (non-empty dir) succeeded!";;
  let! r := mkdir (bytes "/dd/dd") in
  fail_if (negb (r =? 0)) "subdir mkdir dd/dd failed";;
  let! fd := open (bytes "dd/dd/ff") (Z.lor O_CREATE O_RDWR) in
  fail_if (fd <? 0) "create dd/dd/ff failed";;
  write fd (bytes "FF");;
  close fd;;
  let! fd := open (bytes "dd/dd/../ff") 0 in
  fail_if (fd <? 0) "open dd/dd/../ff failed";;
  let! cc := read_buf fd BUFSIZE in
  let! c := buf_at 0 in
  fail_if (negb (cc =? 2) || negb (c =? 102)) "dd/dd/../ff wrong content";;
  close fd;;
  let! r := link (bytes "dd/dd/ff") (bytes "dd/dd/ffff") in
  fail_if (negb (r =? 0)) "link dd/dd/ff dd/dd/ffff failed";;
  let! r := unlink (bytes "dd/dd/ff") in
  fail_if (negb (r =? 0)) "unlink dd/dd/ff failed";;
  let! r := open (bytes "dd/dd/ff") O_RDONLY in
  fail_if (0 <=? r) "open (unlinked) dd/dd/ff succeeded";;
  let! r := chdir (bytes "dd") in
  fail_if (negb (r =? 0)) "chdir dd failed";;
  let! r := chdir (bytes "dd/../../dd") in
  fail_if (negb (r =? 0)) "chdir dd/../../dd failed";;
  let! r := chdir (bytes "dd/../../../dd") in
  fail_if (negb (r =? 0)) "chdir dd/../../dd failed";;
  let! r := chdir (bytes "./..") in
  fail_if (negb (r =? 0)) "chdir ./.. failed";;
  let! fd := open (bytes "dd/dd/ffff") 0 in
  fail_if (fd <? 0) "open dd/dd/ffff failed";;
  let! r := read_buf fd BUFSIZE in
  fail_if (negb (r =? 2)) "read dd/dd/ffff wrong len";;
  close fd;;
  let! r := open (bytes "dd/dd/ff") O_RDONLY in
  fail_if (0 <=? r) "open (unlinked) dd/dd/ff succeeded!";;
  let! r := open (bytes "dd/ff/ff") (Z.lor O_CREATE O_RDWR) in
  fail_if (0 <=? r) "create dd/ff/ff succeeded!";;
  let! r := open (bytes "dd/xx/ff") (Z.lor O_CREATE O_RDWR) in
  fail_if (0 <=? r) "create dd/xx/ff succeeded!";;
  let! r := open (bytes "dd") O_CREATE in
  fail_if (0 <=? r) "create dd succeeded!";;
  let! r := open (bytes "dd") O_RDWR in
  fail_if (0 <=? r) "open dd rdwr succeeded!";;
  let! r := open (bytes "dd") O_WRONLY in
  fail_if (0 <=? r) "open dd wronly succeeded!";;
  let! r := link (bytes "dd/ff/ff") (bytes "dd/dd/xx") in
  fail_if (r =? 0) "link dd/ff/ff dd/dd/xx succeeded!";;
  let! r := link (bytes "dd/xx/ff") (bytes "dd/dd/xx") in
  fail_if (r =? 0) "link dd/xx/ff dd/dd/xx succeeded!";;
  let! r := link (bytes "dd/ff") (bytes "dd/dd/ffff") in
  fail_if (r =? 0) "link dd/ff dd/dd/ffff succeeded!";;
  let! r := mkdir (bytes "dd/ff/ff") in
  fail_if (r =? 0) "mkdir dd/ff/ff succeeded!";;
  let! r := mkdir (bytes "dd/xx/ff") in
  fail_if (r =? 0) "mkdir dd/xx/ff succeeded!";;
  let! r := mkdir (bytes "dd/dd/ffff") in
  fail_if (r =? 0) "mkdir dd/dd/ffff succeeded!";;
  let! r := unlink (bytes "dd/xx/ff") in
  fail_if (r =? 0) "unlink dd/xx/ff succeeded!";;
  let! r := unlink (bytes "dd/ff/ff") in
  fail_if (r =? 0) "unlink dd/ff/ff succeeded!";;
  let! r := chdir (bytes "dd/ff") in
  fail_if (r =? 0) "chdir dd/ff succeeded!";;
  let! r := chdir (bytes "dd/xx") in
  fail_if (r =? 0) "chdir dd/xx succeeded!";;
  let! r := unlink (bytes "dd/dd/ffff") in
  fail_if (negb (r =? 0)) "unlink dd/dd/ff failed";;
  let! r := unlink (bytes "dd/ff") in
  fail_if (negb (r =? 0)) "unlink dd/ff failed";;
  let! r := unlink (bytes "dd") in
  fail_if (r =? 0) "unlink non-empty dd succeeded!";;
  let! r := unlink (bytes "dd/dd") in
  fail_if (r <? 0) "unlink dd/dd failed";;
  let! r := unlink (bytes "dd") in
  fail_if (r <? 0) "unlink dd failed";;
  say "subdir ok".

Definition fourteen : U unit :=
  say "fourteen test";;
  let! r := mkdir (bytes "12345678901234") in
  fail_if (negb (r =? 0)) "mkdir 12345678901234 failed";;
  let! r := mkdir (bytes "12345678901234/123456789012345") in
  fail_if (negb (r =? 0)) "mkdir 12345678901234/123456789012345 failed";;
  let! fd := open (bytes "123456789012345/123456789012345/123456789012345") O_CREATE in
  fail_if (fd <? 0) "create 123456789012345/123456789012345/123456789012345 failed";;
  close fd;;
  let! fd := open (bytes "12345678901234/12345678901234/12345678901234") 0 in
  fail_if (fd <? 0) "open 12345678901234/12345678901234/12345678901234 failed";;
  close fd;;
  let! r := mkdir (bytes "12345678901234/12345678901234") in
  fail_if (r =? 0) "mkdir 12345678901234/12345678901234 succeeded!";;
  let! r := mkdir (bytes "123456789012345/12345678901234") in
  fail_if (r =? 0) "mkdir 12345678901234/123456789012345 succeeded!";;
  say "fourteen ok".

Definition rmdot : U unit :=
  say "rmdot test";;
  let! r := mkdir (bytes "dots") in
  fail_if (negb (r =? 0)) "mkdir dots failed";;
  let! r := chdir (bytes "dots") in
  fail_if (negb (r =? 0)) "chdir dots failed";;
  let! r := unlink (bytes ".") in
  fail_if (r =? 0) "rm . worked!";;
  let! r := unlink (bytes "..") in
  fail_if (r =? 0) "rm .. worked!";;
  let! r := chdir (bytes "/") in
  fail_if (negb (r =? 0)) "chdir / failed";;
  let! r := unlink (bytes "dots/.") in
  fail_if (r =? 0) "unlink dots/. worked!";;
  let! r := unlink (bytes "dots/..") in
  fail_if (r =? 0) "unlink dots/.. worked!";;
  let! r := unlink (bytes "dots") in
  fail_if (negb (r =? 0)) "unlink dots failed!";;
  say "rmdot ok".

Definition dirfile : U unit :=
  say "dir vs file";;
  let! fd := open (bytes "dirfile") O_CREATE in
  fail_if (fd <? 0) "create dirfile failed";;
  close fd;;
  let! r := chdir (bytes "dirfile") in
  fail_if (r =? 0) "chdir dirfile succeeded!";;
  let! fd := open (bytes "dirfile/xx") 0 in
  fail_if (0 <=? fd) "create dirfile/xx succeeded!";;
  let! fd := open (bytes "dirfile/xx") O_CREATE in
  fail_if (0 <=? fd) "create dirfile/xx succeeded!";;
  let! r := mkdir (bytes "dirfile/xx") in
  fail_if (r =? 0) "mkdir dirfile/xx succeeded!";;
  let! r := unlink (bytes "dirfile/xx") in
  fail_if (r =? 0) "unlink dirfile/xx succeeded!";;
  let! r := link (bytes "README") (bytes "dirfile/xx") in
  fail_if (r =? 0) "link to dirfile/xx succeeded!";;
  let! r := unlink (bytes "dirfile") in
  fail_if (negb (r =? 0)) "unlink dirfile failed!";;
  let! fd := open (bytes ".") O_RDWR in
  fail_if (0 <=? fd) "open . for writing succeeded!";;
  let! fd := open (bytes ".") 0 in
  let! r := write fd (bytes "x") in
  fail_if (0 <? r) "write . succeeded!";;
  close fd;;
  say "dir vs file OK".

(** [for(sz = 499; sz < 12*512; sz += 471)]: twelve sizes. *)
Definition bigwrite : U unit :=
  say "bigwrite test";;
  unlink (bytes "bigwrite");;
  for_ 12 0 (fun j =>
    let sz := 499 + 471 * j in
    let! fd := open (bytes "bigwrite") (Z.lor O_CREATE O_RDWR) in
    fail_if (fd <? 0) "cannot create bigwrite";;
    for_ 2 0 (fun _ =>
      let! cc := write_buf fd sz in
      if negb (cc =? sz) then printf 1 (line "write(%d) ret %d") [sz; cc];; uexit else uret tt);;
    close fd;;
    unlink (bytes "bigwrite");; uret tt);;
  say "bigwrite ok".

(** The read loop of [bigfile]: the total. *)
Fixpoint bigfile_read (fuel : nat) (fd i total : Z) : U Z :=
  match fuel with
  | O => fun _ => UStuck
  | S fuel' =>
      let! cc := read_buf fd 300 in
      fail_if (cc <? 0) "read bigfile failed";;
      if cc =? 0 then uret total
      else
        fail_if (negb (cc =? 300)) "short read bigfile";;
        let! c0 := buf_at 0 in
        let! c1 := buf_at 299 in
        fail_if (negb (c0 =? i / 2) || negb (c1 =? i / 2)) "read bigfile wrong data";;
        bigfile_read fuel' fd (i + 1) (total + cc)
  end.

Definition bigfile : U unit :=
  say "bigfile test";;
  unlink (bytes "bigfile");;
  let! fd := open (bytes "bigfile") (Z.lor O_CREATE O_RDWR) in
  (if fd <? 0 then printf 1 (bytes "cannot create bigfile") [];; uexit else uret tt);;
  for_ 20 0 (fun i =>
    memset_buf i 600;;
    let! r := write_buf fd 600 in
    fail_if (negb (r =? 600)) "write bigfile failed");;
  close fd;;
  let! fd := open (bytes "bigfile") 0 in
  fail_if (fd <? 0) "cannot open bigfile";;
  let! total := bigfile_read 41 fd 0 0 in
  close fd;;
  fail_if (negb (total =? 20 * 600)) "read bigfile wrong total";;
  unlink (bytes "bigfile");;
  say "bigfile test ok".

Definition iref : U unit :=
  say "empty file name";;
  for_ 51 0 (fun _ =>
    let! r := mkdir (bytes "irefd") in
    fail_if (negb (r =? 0)) "mkdir irefd failed";;
    let! r := chdir (bytes "irefd") in
    fail_if (negb (r =? 0)) "chdir irefd failed";;
    mkdir [];;
    link (bytes "README") [];;
    let! fd := open [] O_CREATE in
    (if 0 <=? fd then close fd;; uret tt else uret tt);;
    let! fd := open (bytes "xx") O_CREATE in
    (if 0 <=? fd then close fd;; uret tt else uret tt);;
    unlink (bytes "xx");; uret tt);;
  chdir (bytes "/");;
  say "empty file name OK".

Definition argptest : U unit :=
  let! fd := open (bytes "init") O_RDONLY in
  (if fd <? 0 then printf 2 (line "open failed") [];; uexit else uret tt);;
  let! top := sbrk 0 in
  call 5 [fd; u32 (top - 1); u32 (-1)];;
  close fd;;
  say "arg test passed".

(** [main]: the tests with one process, in its order; bigdir, which is slow, is left out. *)
(** The file-system tests of main that run in one process, bigdir left out, in
    main's order. *)
Definition fs_tests : U unit :=
  say "usertests starting";;
  let! r := open (bytes "usertests.ran") 0 in
  fail_if (0 <=? r) "already ran user tests -- rebuild fs.img";;
  let! fd := open (bytes "usertests.ran") O_CREATE in
  close fd;;
  argptest;; bigwrite;;
  opentest;; writetest;; writetest1;; createtest;;
  iputtest;;
  rmdot;; fourteen;; bigfile;; subdir;; linktest;; unlinkread;; dirfile;; iref;;
  uexit.

(** ** Boot *)

Definition root_files : list (list Z * list (list Z)) :=
  [(bytes "README", [bytes "xv6"]); (bytes "_echo", [bytes "e"]); (bytes "_init", [bytes "i"; bytes "n"])].

Definition user_proc (cwd : nat) : proc :=
  mk_proc USIZE PGDIR 0x80210000 RUNNING 2 (Some 0%nat) no_tf (mk_context 0 0 0 0 0) None false (repeat None 16) (Some cwd) (fun _ => 0).
Definition init_proc (cwd : nat) : proc :=
  mk_proc USIZE 0 0x80211000 SLEEPING 1 None no_tf (mk_context 0 0 0 0 0) (Some (ChProc 0)) false (repeat None 16) (Some cwd) (fun _ => 0).

(** The kernel on the image of mkfs, with the root directory open for both processes. *)
Definition booted : res kern :=
  let* s := mkfs root_files in
  let* (o, st) := namei mkfs_sb no_dev 0 (bytes "/") (boot_fs (img s)) in
  match o with
  | None => Panic "namei"
  | Some ip =>
      Ok (mk_kern [init_proc ip; user_proc ip; no_proc; no_proc] 3 (Some 0%nat)
            (mk_fsys (repeat no_file 100) ∅ (mk_kmem true 0 ram0) (idup ip st) []))
  end.

(** The standard descriptors, as init.c opens them. *)
Definition stdio : U unit := mknod (bytes "console") 1 1;; open (bytes "console") O_RDWR;; dup 0;; dup 0;; uret tt.

Definition run_from_boot (p : U unit) : outcome unit :=
  match booted with
  | Ok k => (stdio;; p) (mk_ust k [])
  | Panic e => UPanic e
  | Blocked => UStuck
  end.

(** ** After a run *)

(** No open file, no lock, and no inode in memory but the working directory of init. *)
Definition quiet (k : kern) : bool :=
  forallb (fun f => f_ref f =? 0) (ftable (kfiles k)) &&
  forallb (fun x => negb (i_locked x)) (fs_ic (ffs (kfiles k))) &&
  (foldr (fun x n => i_ref x + n) 0 (fs_ic (ffs (kfiles k))) =? 1).

(** The disk: inodes in use, the blocks they hold, and the bitmap. *)
Definition disk_of (k : kern) : disk := td (fs_t (ffs (kfiles k))).
Definition inodes_used (d : disk) : list Z := List.filter (fun i => negb (i_type (slot d i) =? 0)) (seqZ 1 (NINODES - 1)).
Definition inode_blocks (d : disk) (x : inode) : list Z :=
  let ind := addr x NDIRECT in
  List.filter (fun b => negb (b =? 0)) (i_addrs x ++ if ind =? 0 then [] else (fun j => ld32 (d ind) (4 * j)) <$> seqZ 0 NINDIRECT).
Definition blocks_used (d : disk) : list Z := mjoin ((fun i => inode_blocks d (slot d i)) <$> inodes_used d).
Definition marked (d : disk) (b : Z) : bool := Z.testbit (d (BBLOCK b mkfs_sb) (b mod BPB / 8)) (b mod 8).

(** No block in two files, and the bitmap marks exactly the blocks of files. *)
Definition fsck (d : disk) : bool :=
  let bs := blocks_used d in
  bool_decide (NoDup bs) && forallb (fun b => Bool.eqb (marked d b) (existsb (Z.eqb b) bs)) (seqZ nmeta (FSSIZE - nmeta)).

(** The output of a program that exits, and a view of the kernel it leaves. *)
Definition report {A : Type} (f : kern -> A) (o : outcome unit) : option (list Z * A) :=
  match o with UExit s => Some (rev (u_out s), f (u_kern s)) | _ => None end.

Definition expected : list Z := concat (line <$>
  ["usertests starting"; "arg test passed"; "bigwrite test"; "bigwrite ok"; "open test"; "open test ok";
   "small file test"; "creat small succeeded; ok"; "writes ok"; "open small succeeded ok"; "read succeeded ok"; "small file test ok";
   "big files test"; "big files ok"; "many creates, followed by unlink test"; "many creates, followed by unlink; ok";
   "iput test"; "iput test ok"; "rmdot test"; "rmdot ok"; "fourteen test"; "fourteen ok"; "bigfile test"; "bigfile test ok";
   "subdir test"; "subdir ok"; "linktest"; "linktest ok"; "unlinkread test"; "unlinkread ok"; "dir vs file"; "dir vs file OK";
   "empty file name"; "empty file name OK"]%string).

(** A run of the whole model: from mkfs and boot, with every system call going
    through syscall() and the arguments in user memory, these tests print
    exactly their success messages and exit, and afterwards no file is open, no
    lock held and no inode referenced but the working directory of init. *)
Example fs_tests_pass : report quiet (run_from_boot fs_tests) = Some (expected, true).
Proof. vm_cast_no_check (eq_refl (Some (expected, true))). Qed.

(** The tests that clean up after themselves leave the disk as they found it: the
    inodes in use are those of mkfs and the console, the blocks those of mkfs,
    and the bitmap agrees. *)
Lemma usertests_clean : option_map snd (report (fun k => (fsck (disk_of k), inodes_used (disk_of k), blocks_used (disk_of k)))
    (run_from_boot (opentest;; iputtest;; rmdot;; dirtest;; subdir;; linktest;; unlinkread;; dirfile;; uexit)))
  = Some (true, [1; 2; 3; 4; 5], [59; 60; 61; 62]).
Proof. vm_cast_no_check (eq_refl (Some (true, [1; 2; 3; 4; 5], [59; 60; 61; 62]))). Qed.
